(* ===== verification/_CoqProject ===== *)
-Q . S2P
Prelude.v
Effects.v
Bytes.v
Text.v
Strconv.v
Sha256.v
Time.v
Model.v
AuditLog.v
Claims.v
Memory.v
Enrollment.v
Repository.v
Jobs.v
Controller.v
Netip.v
Decimal.v
TimeText.v
Sqlite.v
SqliteRefine.v
SqliteHistory.v
SqliteRepository.v
Backup.v
SpoolDir.v
Soap.v
Mid.v
MidState.v
Eccsim.v
MidRun.v
MidSafety.v
MidLive.v
Contract.v
Partition.v
Servicenow.v
Publish.v
Publishers.v
Topology.v
Discovery.v
SSHLinux.v
WinRM.v
WinRMProtocol.v
WinRMRequests.v
WinRMPlugin.v
NTLM.v
Platforms.v
Cloud.v
Retry.v
Relay.v
RelayRun.v
RelaySafety.v
RelayLive.v
Credential.v
Collector.v
Authority.v
ControlSim.v
SimProtocol.v
SimRefinement.v
SimResults.v
SimContract.v
Policy.v
Executor.v
WorkerClient.v
WorkerRun.v
WorkerSafety.v
WorkerSim.v
Agent.v
AgentRun.v
Outputs.v
Manifest.v
Release.v
AppPackage.v
Packages.v
Distribution.v
PublishCommand.v
Preflight.v
Lab.v
