(* ===== verification/Prelude.v ===== *)
(** * Topo: a verification development

    Topo inventories networks.  Collectors, relays and workers inside a site discover hosts
    through read-only plugins; a controller and a worker control plane hand out work and take
    in observations; the observations are resolved into assets and published to ServiceNow.
    This library models that program in Rocq, function by function, and proves what makes its
    parts correct.  Definitions keep the names of the Go source; every file's opening comment
    says which source files it models.  Paths below are relative to the repository's root.

    ** How the code is modelled

    - A Go function that returns [(T, error)] is a function into [result E T] ([go T] when the
      error is a text; texts made by [fmt.Errorf] are kept as their format strings where the
      operands do not matter).  [reject c with e ;; k] is an [if] that returns early.
    - Strings are byte strings, instants and durations are nanoseconds in [Z], integers of a
      machine width are [Z] with their bounds or wrap-around written out, maps are [gmap]; where
      Go ranges over a map the order is an argument.
    - A method that runs under a mutex is one step on the state.  A program whose effects can be
      separated by a crash, a lost answer or another goroutine is written with [Effects.v]: it
      reads one input per effect, which says what is answered and whether the process survives,
      so that a theorem over all inputs is a theorem over all faults and interleavings.
    - Libraries outside the repository, and the JSON, XML, TLS, HTTP and file-system calls of the
      standard library, are arguments of the definitions that use them, with what is relied on as
      hypotheses of a section or fields of a class ([SpoolCodecLaws], [RepositoryLaws], [HostPlugin]).
      [strings], [strconv], [net/netip], [crypto/sha256], [crypto/sha1] and XML escaping are
      modelled, because the program's own results depend on them byte for byte.

    ** Shared files

    - [Prelude]: results, [reject]/[try], lists, sorting, the [bool_facts] tactic; [Effects]:
      programs over inputs, triples over them; [Bytes], [Text], [Strconv]: byte strings, JSON and
      XML text, numbers, words and lines; [Decimal]: zero-padded numbers; [Sha256]; [Time] and
      [TimeText]: instants and their RFC 3339 text; [Netip]: addresses and prefixes;
      [SpoolDir]: spool directories and the cipher they share.

    ** Components

    - Data model, audit, storage.  [Model] is [pkg/model]; [AuditLog] is [internal/audit] (the
      chain of entries without separators in their texts is tamper-evident up to a collision,
      which the theorem exhibits); [Claims] and
      [Memory] are [internal/store] (the winner of a resolution, its independence of the order of
      claims, and the refinement of a specification by every history of calls); [Repository] is
      the storage interface as a class with its laws, against which the controller is proved.
      [Sqlite] is [internal/store/sqlite]: every method, the migrations and the backfill as
      programs over the tables; [SqliteRefine] relates one method to [Memory]; [SqliteHistory]
      proves that any history of processes with failures and deaths answers as [Memory] does, but
      for the creation time of a schedule that is saved again, which only the database keeps, and
      that a migration happens whole or not at all; [SqliteRepository] is the instance of the interface;
      [Backup] proves that a backup or a restore publishes a whole database or nothing.
    - Controller.  [Enrollment] is the identity, token, serial-number and signing code of
      [internal/enrollment]; [Authority] its certificate authority with the files (a directory
      has one authority whatever fails); [Collector] the enrolling side, with the commands that
      enroll and rotate, composed with the controller; [Jobs] is the job queue and liveness of
      [internal/controller]; [Controller] is its HTTP API with every handler (authorization of administrators and
      collectors, refusal of revoked certificates, a job handed out at most once, a token redeemed
      at most once).
    - Collector agent.  [Agent] is [internal/agent]: the encrypted spool as a queue that keeps the
      order, the delivery loop, and what a rejected or oversize entry does.  [AgentRun] is the loop
      with a fault at every effect, composed with the controller over [Memory]: every observation
      is listed by the controller, in the log as buffered or given up after attempts that really
      failed, or lost in a death that is counted; a buffered one stays in the spool until it is
      listed or rejected; and one undisturbed tick delivers the backlog.
    - Credentials.  [Credential] is [pkg/credentialref]: the error of resolving a reference does
      not depend on the credential but through the decoder's message, and reports the credential
      missing exactly when it is not there.
    - Worker.  [Contract], [Partition] (targets are cut exactly into disjoint bounded prefixes),
      [Policy] (allowlists, and the digest that binds a policy), [Executor] (a task reaches only
      what the policy allows), [WorkerClient], [WorkerRun] (registration, claim cycle, attempt,
      lease loop) are [internal/worker]; [WorkerSafety] proves the protocol of an attempt against
      any control plane; [ControlSim] is [internal/worker/controlsim] whole; [SimProtocol] is its
      abstract lease protocol as a transition system; [SimRefinement] proves that every step of
      the server follows it, and with it fencing, capacity and delivery at most once;
      [SimResults] and [SimContract] are what a worker may rely on; [WorkerSim] composes both
      sides: a task that is handed out to an undisturbed worker ends complete, with one delivery.
    - MID bridge.  [Soap], [Mid], [MidState], [MidRun] are [internal/mid]; [Eccsim] is the
      simulated ECC queue of [internal/mid/eccsim]; [MidSafety] proves that after any history of
      cycles that fail or die at any effect a record is answered at most once; [MidLive] that one
      undisturbed cycle finishes the claim in the journal with one response.
    - Credential relay.  [Relay] and [RelayRun] are [internal/relay]; [RelaySafety] proves that a
      success is reported only after the publication, and that no job is asked for while a result
      waits; [RelayLive] when the relay goes on and what stops it.  [Retry] is
      [internal/irepublish]: the bounded retry of a batch ([Status]'s mode is the constant
      "apply" there and is not kept).
    - Discovery.  [Discovery] is [pkg/discovery] with the target syntax of the SSH plugin;
      [Topology] is the promise of the host plugins, as a class, and the acceptance of their
      envelopes by the publisher, proved against the class.  [SSHLinux]; [WinRM] (operations and
      parsers), [WinRMProtocol] (WS-Management messages as written and as read),
      [WinRMRequests] (the text of each request is read as what was meant), [WinRMPlugin]
      (enumeration, remote shell, discovery), [NTLM] (the authentication transport); [Platforms]
      (modules [SNMP], [VMware], [Kubernetes]); [Cloud] (modules [AWS], [Azure]) are the plugins of
      [pkg/discovery].  Theorems: only audited commands and operations are sent, boundedly many;
      a remote shell whose creation was answered readably is deleted last, unless the context of the
      operation is over by then; credentials leave only as NTLM tokens over HTTPS;
      relationships never leave an envelope; inventories stay within their bounds and without
      errors are complete; what the SSH plugin finds is accepted by the publisher.
    - Publication.  [Servicenow] and [Publish] are [pkg/publisher/servicenow]: the validation of
      envelopes, the items and relations of a request, and the outcome of a delivery;
      [PublishCommand] is [cmd/topo/publish_servicenow.go]: nothing is written before a query of
      the same payload was answered cleanly; [Publishers] has the publisher interface as a class
      and the JSON-lines and webhook publishers as instances.
    - Release tools.  [Outputs] is a new directory with a fault at every file operation; [Manifest]
      the checksum manifest, written and read; [Release] is [internal/release]; [AppPackage]
      [internal/servicenowpackage]; [Packages] [internal/packagebuild] (it accepts what [Release]
      builds, but for Windows in a version under a restricted profile); [Distribution] [internal/distribution] (what it promotes is verified);
      [Preflight] [internal/productioncheck] (ready means prepared).
    - Lab.  [Lab] is the scenario, the estate, the server, the client and the evaluation of
      [pkg/lab]: the client finds what is expected except for hosts that failed.

    ** Fuel

    - [Partition.prefix_fuel] is the number of halvings left in a prefix; [plan_total] shows that
      planning never runs out.
    - The readers of [WinRMProtocol] take one more than the number of tokens; every turn uses up a
      token, and any larger fuel gives the same result (the lemmas ending in [_fuel]).
    - [AWS.walk] and [Azure.walk] take the levels left below [maxOUDepth] and
      [maxManagementGroupDepth], which is the code's own bound; [pull_pages] and [receive_loop]
      take the code's bounds on pages and messages, [deb_members] its bound on members.
    - The claim loop of [WorkerRun] takes fuel for the retries forced by other goroutines;
      [claim_loop_ends] shows that as much as there is interference is enough.  [maintainLease] is
      a function of the observations of its rounds.

    ** Not modelled

    - [cmd/topo/main.go] beyond the commands named above: flags, help and wiring; the Windows
      service.  [internal/*tool]: the commands that call the release tools.
    - [internal/store/storetest], and the servers of [pkg/lab] that speak SSH, WinRM, SNMP and
      cloud protocols: tests and fixtures.  The local plugin reads its own host.
    - Opening and protecting the files of the database; SQL statements are taken as what they do
      to the rows.  The client's bound on a request's size in [WorkerSim], which its payloads cannot
      reach, and changes of a directory of artifacts while [Distribution] reads it.  Compilers, package builders, archive and compression formats are arguments.
    - Dialling, TLS and SSH trust, file permissions and locks, log lines, and the time an
      operation takes, except where a deadline decides an outcome. *)

From stdpp Require Export base gmap strings list sorting fin_maps.
From Stdlib Require Export ZArith Lia.

#[export] Set Warnings "-clear-no-such-hyp".


(** ** Results of fallible Go code

    A Go function returning [(T, error)] becomes a function into [result E T]:
    [Ok v] for a nil error and [Err e] otherwise.  [go T] is the common case in
    which the error is known by its text: the argument of [errors.New], or the
    format string of [fmt.Errorf] without its operands. *)
Inductive result (E A : Type) : Type :=
| Ok (a : A)
| Err (e : E).
Arguments Ok {E A} _.
Arguments Err {E A} _.

Abbreviation go := (result string).

#[export] Instance result_ret E : MRet (result E) := λ A a, Ok a.
#[export] Instance result_bind E : MBind (result E) := λ A B f m,
  match m with Ok a => f a | Err e => Err e end.

#[export] Instance result_eq_dec `{EqDecision E, EqDecision A} : EqDecision (result E A).
Proof. solve_decision. Defined.

Definition is_ok {E A} (r : result E A) : bool :=
  match r with Ok _ => true | Err _ => false end.

Definition result_option {E A} (r : result E A) : option A :=
  match r with Ok a => Some a | Err _ => None end.

Declare Scope go_scope.
Delimit Scope go_scope with go.

(** [reject c with e ;; k] is the early return [if c { return e }] before [k];
    [try x := m with f ;; k] is [x, err := m; if err != nil { return f(err) }]. *)
Notation "'reject' c 'with' e ;; k" := (if c then Err e else k)
  (at level 100, c at level 99, e at level 99, k at level 200, right associativity,
   format "'reject'  c  'with'  e  ;; '//' k") : go_scope.
Notation "'try' x := m ;; k" :=
  (match m with Ok x => k | Err e => Err e end)
  (at level 100, x name, m at level 99, k at level 200, right associativity,
   format "'try'  x  :=  m  ;; '//' k") : go_scope.
Open Scope go_scope.

(** ** Go's machine integers

    [int] and [int64] are 64-bit two's complement on every platform the program
    ships for; arithmetic that can leave the range is wrapped explicitly. *)
Definition int64_min : Z := -2^63.
Definition int64_max : Z := 2^63 - 1.
Definition in_int64 (z : Z) : bool := (int64_min <=? z)%Z && (z <=? int64_max)%Z.
Definition wrap64 (z : Z) : Z := ((z + 2^63) mod 2^64 - 2^63)%Z.

Lemma wrap64_id z : in_int64 z = true → wrap64 z = z.
Proof.
  unfold in_int64, int64_min, int64_max, wrap64. intros [??]%andb_true_iff.
  rewrite Z.mod_small; lia.
Qed.

Lemma wrap64_range z : in_int64 (wrap64 z) = true.
Proof.
  unfold in_int64, int64_min, int64_max, wrap64.
  pose proof (Z.mod_pos_bound (z + 2^63) (2^64) ltac:(lia)). apply andb_true_iff; lia.
Qed.

(** Go's [len] of a string or slice. *)
Definition slen (s : string) : Z := Z.of_nat (String.length s).
Definition llen {A} (l : list A) : Z := Z.of_nat (length l).

(** ** Tactics *)

(** Case split on the conditions the code tests, and drop the impossible
    results. *)
Ltac split_code :=
  repeat (case_match; simplify_eq/=; try done).

Ltac split_code_in H :=
  repeat match type of H with
  | context [if ?c then _ else _] => destruct c eqn:?; simplify_eq/=
  | context [match ?c with _ => _ end] => destruct c eqn:?; simplify_eq/=
  end.

(** Turn the boolean tests of the code into propositions. *)
Ltac bool_facts :=
  repeat match goal with
  | H : _ && _ = true |- _ => apply andb_true_iff in H as [??]
  | H : _ || _ = false |- _ => apply orb_false_iff in H as [??]
  | H : negb _ = true |- _ => apply negb_true_iff in H
  | H : negb _ = false |- _ => apply negb_false_iff in H
  | H : bool_decide _ = true |- _ => apply bool_decide_eq_true in H
  | H : bool_decide _ = false |- _ => apply bool_decide_eq_false in H
  | H : (_ <=? _)%Z = true |- _ => apply Z.leb_le in H
  | H : (_ <=? _)%Z = false |- _ => apply Z.leb_gt in H
  | H : (_ <? _)%Z = true |- _ => apply Z.ltb_lt in H
  | H : (_ <? _)%Z = false |- _ => apply Z.ltb_ge in H
  | H : (_ =? _)%Z = true |- _ => apply Z.eqb_eq in H
  | H : (_ =? _)%Z = false |- _ => apply Z.eqb_neq in H
  | H : Is_true _ |- _ => apply Is_true_true in H
  end.

(** ** Sorting

    [sort.Slice(xs, less)] and [sort.Strings]: [sort_by less l] is a sorted
    permutation of [l].  Go's sort is not stable; every theorem about a sorted
    result is stated for comparators that separate the elements, or only up to
    permutation. *)
Class StrictWeak {A} (less : A → A → bool) : Prop := {
  sw_asym x y : less x y = true → less y x = false;
  sw_neg_trans x y z : less x z = true → less x y = true ∨ less y z = true;
}.

Definition not_after {A} (less : A → A → bool) (x y : A) : Prop := less y x = false.

#[export] Instance not_after_dec {A} (less : A → A → bool) x y :
  Decision (not_after less x y).
Proof. unfold not_after. apply _. Defined.

Definition sort_by {A} (less : A → A → bool) (l : list A) : list A :=
  merge_sort (not_after less) l.

Section sort_by.
Context {A : Type} (less : A → A → bool) `{!StrictWeak less}.

#[export] Instance not_after_total : Total (not_after less).
Proof.
  intros x y. unfold not_after. destruct (less y x) eqn:E; [|by left].
  right. by apply sw_asym.
Qed.

#[export] Instance not_after_trans : Transitive (not_after less).
Proof.
  intros x y z Hxy Hyz. unfold not_after in *.
  destruct (less z x) eqn:E; [|done].
  destruct (sw_neg_trans z y x E); congruence.
Qed.

Lemma sort_by_perm l : sort_by less l ≡ₚ l.
Proof. apply merge_sort_Permutation. Qed.

Lemma sort_by_sorted l : StronglySorted (not_after less) (sort_by less l).
Proof. apply (StronglySorted_merge_sort _). Qed.

(** A comparator that separates the elements makes the order of the input
    irrelevant: this is what makes iterating over a Go map before sorting
    deterministic. *)
Lemma sort_by_unique l k :
  (∀ x y, x ∈ l → y ∈ l → less x y = false → less y x = false → x = y) →
  l ≡ₚ k → sort_by less l = sort_by less k.
Proof.
  intros Hsep Hlk. apply (StronglySorted_unique_strong (not_after less)).
  - intros x y Hx Hy Hxy Hyx. rewrite sort_by_perm in Hx.
    rewrite sort_by_perm, <-Hlk in Hy. by apply Hsep.
  - apply sort_by_sorted.
  - apply sort_by_sorted.
  - by rewrite !sort_by_perm.
Qed.
End sort_by.

(** ** Byte order on strings: Go's [<] on [string] *)
Definition str_lt (a b : string) : bool := negb (String.leb b a).

Lemma str_leb_refl a : String.leb a a = true.
Proof. apply Is_true_true. by apply (reflexivity (R:=String.le)). Qed.
Lemma str_leb_trans a b c :
  String.leb a b = true → String.leb b c = true → String.leb a c = true.
Proof. rewrite <-!Is_true_true. apply (transitivity (R:=String.le)). Qed.

#[export] Instance str_lt_weak : StrictWeak str_lt.
Proof.
  split; unfold str_lt.
  - intros a b. rewrite negb_true_iff, negb_false_iff.
    destruct (String.leb_total a b); congruence.
  - intros a b c. rewrite !negb_true_iff. intros Hca.
    destruct (String.leb b a) eqn:Hba; [|by left].
    destruct (String.leb c b) eqn:Hcb; [|by right].
    by rewrite (str_leb_trans _ _ _ Hcb Hba) in Hca.
Qed.

Lemma str_lt_sep a b : str_lt a b = false → str_lt b a = false → a = b.
Proof. unfold str_lt. rewrite !negb_false_iff. intros. by apply String.leb_antisym. Qed.

Lemma str_lt_irrefl a : str_lt a a = false.
Proof. unfold str_lt. by rewrite str_leb_refl. Qed.

Lemma str_lt_trans a b c : str_lt a b = true → str_lt b c = true → str_lt a c = true.
Proof.
  intros Hab Hbc. destruct (sw_neg_trans a c b Hab) as [?|Hcb]; [done|].
  apply sw_asym in Hbc. congruence.
Qed.

(** Comparing by a key, and refining a comparison by a second one: the shape of
    every comparator the program passes to [sort.Slice]. *)
Definition less_on {A B} (f : A → B) (less : B → B → bool) (x y : A) : bool := less (f x) (f y).

Definition less_then {A} (l1 l2 : A → A → bool) (x y : A) : bool :=
  if l1 x y then true else if l1 y x then false else l2 x y.

#[export] Instance less_on_weak {A B} (f : A → B) less `{!StrictWeak less} :
  StrictWeak (less_on f less).
Proof.
  split; unfold less_on; intros.
  - by apply sw_asym.
  - by apply sw_neg_trans.
Qed.

#[export] Instance less_then_weak {A} (l1 l2 : A → A → bool) :
  StrictWeak l1 → StrictWeak l2 → StrictWeak (less_then l1 l2).
Proof.
  intros W1 W2. split; unfold less_then.
  - intros x y. destruct (l1 x y) eqn:E1.
    + intros _. by rewrite (sw_asym _ _ E1).
    + destruct (l1 y x) eqn:E2; [done|]. apply sw_asym.
  - intros x y z.
    destruct (l1 x z) eqn:Exz.
    { intros _. destruct (sw_neg_trans x y z Exz) as [->| ->]; auto. }
    destruct (l1 z x) eqn:Ezx; [done|]. intros H2.
    destruct (l1 x y) eqn:Exy; [by left|].
    destruct (l1 y z) eqn:Eyz; [by right|].
    destruct (l1 y x) eqn:Eyx.
    { destruct (sw_neg_trans y z x Eyx); congruence. }
    destruct (l1 z y) eqn:Ezy.
    { destruct (sw_neg_trans z x y Ezy); congruence. }
    by apply sw_neg_trans.
Qed.

#[export] Instance Z_ltb_weak : StrictWeak Z.ltb.
Proof. split; intros; bool_facts; rewrite ?Z.ltb_lt, ?Z.ltb_ge; lia. Qed.

Lemma less_then_sep {A} (l1 l2 : A → A → bool) x y :
  less_then l1 l2 x y = false → less_then l1 l2 y x = false →
  (l1 x y = false ∧ l1 y x = false) ∧ l2 x y = false ∧ l2 y x = false.
Proof. unfold less_then. repeat case_match; naive_solver. Qed.

Create HintDb topo.
Create Rewrite HintDb topo_rw.
#[export] Hint Resolve str_leb_refl str_lt_irrefl str_lt_sep wrap64_range : topo.
#[export] Hint Rewrite str_leb_refl str_lt_irrefl : topo_rw.

(** ** Lists *)

Lemma existsb_elem_of {A} (f : A → bool) (l : list A) :
  existsb f l = true ↔ ∃ x, x ∈ l ∧ f x = true.
Proof. rewrite existsb_exists. by setoid_rewrite list_elem_of_In. Qed.

Lemma forallb_elem_of {A} (f : A → bool) (l : list A) :
  forallb f l = true ↔ ∀ x, x ∈ l → f x = true.
Proof. rewrite forallb_forall. by setoid_rewrite list_elem_of_In. Qed.

Lemma StronglySorted_mono {A} (R S : A → A → Prop) l :
  (∀ x y, R x y → S x y) → StronglySorted R l → StronglySorted S l.
Proof. intros HRS. induction 1; constructor; [done|]. eapply Forall_impl; naive_solver. Qed.

(** Number of elements satisfying a test: the counting loops of the program. *)
Fixpoint count {A} (f : A → bool) (l : list A) : Z :=
  match l with
  | [] => 0
  | x :: l => (if f x then 1 else 0) + count f l
  end%Z.

Lemma count_nonneg {A} (f : A → bool) l : (0 <= count f l)%Z.
Proof. induction l; simpl; [done|]. destruct (f _); lia. Qed.

Lemma count_perm {A} (f : A → bool) l k : l ≡ₚ k → count f l = count f k.
Proof. induction 1; simpl; lia. Qed.

Lemma count_le {A} (f g : A → bool) l :
  (∀ x, x ∈ l → f x = true → g x = true) → (count f l <= count g l)%Z.
Proof.
  induction l as [|x l IH]; intros Hfg; simpl; [done|].
  specialize (IH ltac:(set_solver)). specialize (Hfg x ltac:(set_solver)).
  destruct (f x), (g x); try lia; by specialize (Hfg eq_refl).
Qed.

(** ** A list with an index of its keys

    The program keeps slices together with a map from key to position; replacing an
    element under its own key and appending under a new key keep the two in step. *)
Section indexed.
Context {A : Type} (key : A → string).

Definition indexed (l : list A) (index : gmap string nat) : Prop :=
  ∀ k i, index !! k = Some i ↔ (key <$> l) !! i = Some k.

Lemma indexed_nil : indexed [] ∅.
Proof. intros k i. by rewrite lookup_empty. Qed.

Lemma indexed_nodup l index : indexed l index → NoDup (key <$> l).
Proof. intros Hok. apply NoDup_alt. intros i j k Hi Hj. apply Hok in Hi, Hj. congruence. Qed.

Lemma indexed_absent l index k : indexed l index → index !! k = None → k ∉ key <$> l.
Proof. intros Hok Hn [i Hi]%list_elem_of_lookup. apply Hok in Hi. congruence. Qed.

Lemma indexed_replace_keys l index x i :
  indexed l index → index !! key x = Some i → key <$> <[i := x]> l = key <$> l.
Proof. intros Hok Hi. rewrite list_fmap_insert. apply list_insert_id. by apply Hok. Qed.

Lemma indexed_replace l index x i :
  indexed l index → index !! key x = Some i → indexed (<[i := x]> l) index.
Proof.
  intros Hok Hi k j. rewrite (indexed_replace_keys l index x i Hok Hi). apply Hok.
Qed.

Lemma indexed_append l index x :
  indexed l index → index !! key x = None → indexed (l ++ [x]) (<[key x := length l]> index).
Proof.
  intros Hok Hn k i. pose proof (indexed_absent _ _ _ Hok Hn) as Hni. rewrite fmap_app.
  destruct (decide (k = key x)) as [->|Hne].
  - rewrite lookup_insert_eq. split.
    + intros [= <-]. rewrite lookup_app_r by (by rewrite length_fmap).
      by rewrite length_fmap, Nat.sub_diag.
    + intros Hi. apply lookup_app_Some in Hi as [Hi|[Hlen Hi]].
      { destruct Hni. by eapply list_elem_of_lookup_2. }
      rewrite length_fmap in *. apply list_lookup_singleton_Some in Hi as [? _]. f_equal. lia.
  - rewrite lookup_insert_ne by done. pose proof (Hok k i) as ->. split.
    + intros Hi. by apply lookup_app_l_Some.
    + intros Hi. apply lookup_app_Some in Hi as [Hi|[Hlen Hi]]; [done|].
      by apply list_lookup_singleton_Some in Hi as [_ [=]].
Qed.
End indexed.
