(* ===== verification/Effects.v ===== *)
(** * Programs whose effects may fail, or be the last ones

    A program reads a list of inputs, one for every effect it performs: what the outside
    answers, and whether the process survives.  The same program is run by the kernel on
    a concrete list and reasoned about for all lists, with triples; the components that
    talk to a server and keep files between cycles are written in it. *)

From S2P Require Import Prelude.

(** How an effect ends: with its answer, with an error, or with the end of the process. *)
Inductive ending := Answered | Failing | Dying.

Inductive completion (A : Type) := Done (a : A) | Failed (e : string) | Crashed.
Arguments Done {A} a.
Arguments Failed {A} e.
Arguments Crashed {A}.

Definition prog (I W A : Type) : Type := list I → W → completion A * list I * W.

#[export] Instance prog_ret {I W} : MRet (prog I W) := λ A a xs w, (Done a, xs, w).
#[export] Instance prog_bind {I W} : MBind (prog I W) := λ A B f p xs w,
  match p xs w with
  | (Done a, xs, w) => f a xs w
  | (Failed e, xs, w) => (Failed e, xs, w)
  | (Crashed, xs, w) => (Crashed, xs, w)
  end.

Section programs.
Context {I W A : Type}.

Definition lift (r : go A) : prog I W A := λ xs w, (match r with Ok a => Done a | Err e => Failed e end, xs, w).

(** [if err != nil { log; return }]: the error is known, a crash is not survived. *)
Definition attempt (p : prog I W A) : prog I W (option A) := λ xs w,
  match p xs w with
  | (Done a, xs, w) => (Done (Some a), xs, w)
  | (Failed _, xs, w) => (Done None, xs, w)
  | (Crashed, xs, w) => (Crashed, xs, w)
  end.

(** [fmt.Errorf(text + ": %w", err)] *)
Definition wrapping (text : string) (p : prog I W A) : prog I W A := λ xs w,
  match p xs w with
  | (Failed e, xs, w) => (Failed (text +:+ ": " +:+ e), xs, w)
  | r => r
  end%string.

(** One effect takes the next input; [quiet] stands for those that were not given. *)
Definition with_input (quiet : I) (f : I → W → completion A * W) : prog I W A := λ xs w,
  let '(r, w) := f (hd quiet xs) w in (r, tl xs, w).
End programs.

(** ** Triples

    [triple P p Q E]: from a world in [P], whatever the inputs, [p] ends in [Q] when it
    returns and in [E] when it fails or dies. *)
Definition triple {I W A : Type} (P : W → Prop) (p : prog I W A) (Q : A → W → Prop) (E : W → Prop) : Prop :=
  ∀ xs w, P w → match p xs w with (Done a, _, w') => Q a w' | (_, _, w') => E w' end.

Section triples.
Context {I W A B : Type}.
Implicit Types (P E : W → Prop) (p : prog I W A).

Lemma triple_ret P (a : A) (Q : A → W → Prop) E : (∀ w, P w → Q a w) → triple P (mret a : prog I W A) Q E.
Proof. intros H xs w Hw. by apply H. Qed.

Lemma triple_lift P (r : go A) (Q : A → W → Prop) E :
  (∀ w a, r = Ok a → P w → Q a w) → (∀ w, P w → E w) → triple P (lift r : prog I W A) Q E.
Proof. intros HQ HE xs w Hw. unfold lift. destruct r; [by apply HQ|by apply HE]. Qed.

Lemma triple_fail P e (Q : A → W → Prop) E : (∀ w, P w → E w) → triple P (lift (Err e) : prog I W A) Q E.
Proof. intros HE. by apply triple_lift. Qed.

Lemma triple_bind P p (f : A → prog I W B) Q R E :
  triple P p Q E → (∀ a, triple (Q a) (f a) R E) → triple P (p ≫= f) R E.
Proof.
  intros Hp Hf xs w Hw. specialize (Hp xs w Hw). unfold mbind, prog_bind. destruct (p xs w) as [[[a|e|] xs'] w']; [|done|done].
  by apply Hf.
Qed.

Lemma triple_weaken P P' p (Q Q' : A → W → Prop) E E' :
  triple P p Q E → (∀ w, P' w → P w) → (∀ a w, Q a w → Q' a w) → (∀ w, E w → E' w) → triple P' p Q' E'.
Proof.
  intros Hp HP HQ HE xs w Hw. specialize (Hp xs w (HP w Hw)). destruct (p xs w) as [[[a|e|] xs'] w']; auto.
Qed.

Lemma triple_attempt P p (Q' : A → W → Prop) E' (Q : option A → W → Prop) E :
  triple P p Q' E' → (∀ a w, Q' a w → Q (Some a) w) → (∀ w, E' w → Q None w) → (∀ w, E' w → E w) → triple P (attempt p) Q E.
Proof.
  intros Hp HS HN HE xs w Hw. specialize (Hp xs w Hw). unfold attempt. destruct (p xs w) as [[[a|e|] xs'] w']; auto.
Qed.

Lemma triple_input P quiet (f : I → W → completion A * W) (Q : A → W → Prop) E :
  (∀ i w, P w → match f i w with (Done a, w') => Q a w' | (_, w') => E w' end) → triple P (with_input quiet f) Q E.
Proof.
  intros H xs w Hw. unfold with_input. specialize (H (hd quiet xs) w Hw). destruct (f (hd quiet xs) w) as [[a|e|] w']; done.
Qed.

Lemma triple_wrapping P text p (Q : A → W → Prop) E : triple P p Q E → triple P (wrapping text p) Q E.
Proof. intros Hp xs w Hw. specialize (Hp xs w Hw). unfold wrapping. destruct (p xs w) as [[[a|e|] xs'] w']; done. Qed.

(** A fact that does not depend on the world. *)
Lemma triple_pure P (X : Prop) p (Q : A → W → Prop) E : (X → triple P p Q E) → triple (λ w, P w ∧ X) p Q E.
Proof. intros H xs w [Hw Hx]. by apply H. Qed.
End triples.

(** ** Undisturbed runs: no input is used up *)
Definition runs {I W A : Type} (p : prog I W A) (w : W) (a : A) (w' : W) : Prop := p [] w = (Done a, [], w').

Lemma runs_ret {I W A} (a : A) (w : W) : runs (mret a : prog I W A) w a w.
Proof. done. Qed.
Lemma runs_bind {I W A B} (p : prog I W A) (f : A → prog I W B) w a w' b w'' : runs p w a w' → runs (f a) w' b w'' → runs (p ≫= f) w b w''.
Proof. unfold runs, mbind, prog_bind. by intros ->. Qed.
Lemma runs_lift {I W A} (r : go A) a (w : W) : r = Ok a → runs (lift r : prog I W A) w a w.
Proof. by intros ->. Qed.
Lemma runs_wrapping {I W A} text (p : prog I W A) w a w' : runs p w a w' → runs (wrapping text p) w a w'.
Proof. unfold runs, wrapping. by intros ->. Qed.
Lemma runs_attempt {I W A} (p : prog I W A) w a w' : runs p w a w' → runs (attempt p) w (Some a) w'.
Proof. unfold runs, attempt. by intros ->. Qed.
Lemma runs_input {I W A} (quiet : I) (f : I → W → completion A * W) w a w' : f quiet w = (Done a, w') → runs (with_input quiet f) w a w'.
Proof. unfold runs, with_input. simpl. by intros ->. Qed.
