(* ===== verification/Bytes.v ===== *)
(** * Byte strings, as the Go standard library treats them

    A Go [string] is a sequence of bytes; here it is a [string] of [ascii].
    This file gives the functions of [strings], [unicode], [unicode/utf8],
    [strconv], [encoding/hex], [encoding/json] (string quoting) and [regexp] (the
    identifier patterns) that the program uses, with the lemmas on them the
    components share. *)

From S2P Require Import Prelude.
From stdpp Require Export pretty.
Export Stdlib.Strings.Ascii.AsciiSyntax.
#[global] Delimit Scope char_scope with char.
Abbreviation ascii := Ascii.ascii.
Open Scope Z_scope.

(** ** Bytes *)

Definition byte_val (c : ascii) : Z := Z.of_N (Ascii.N_of_ascii c).
Definition byte_of (z : Z) : ascii := Ascii.ascii_of_N (Z.to_N z).
Definition in_range (lo hi z : Z) : bool := (lo <=? z) && (z <=? hi).

Fixpoint string_all (f : ascii → bool) (s : string) : bool :=
  match s with "" => true | String c s => f c && string_all f s end%string.

Definition bytes_of (s : string) : list Z := byte_val <$> String.list_ascii_of_string s.
Definition string_of_bytes (l : list Z) : string :=
  String.string_of_list_ascii (byte_of <$> l).

(** A string of one byte; [NUL], the separator of the program's hash inputs and
    map keys; the double quote. *)
Definition char (z : Z) : string := String (byte_of z) "".
Definition NUL : string := char 0.
Definition dquote : string := char 34.

(** ** Decimal and hexadecimal text: [%d], [%08d], [hex.EncodeToString] *)

Definition decimal (z : Z) : string := pretty z.

(** The [n] bytes of a number, most significant first. *)
Fixpoint be_bytes (n : nat) (v : Z) : list Z :=
  match n with O => [] | S n => (v / 256 ^ Z.of_nat n) mod 256 :: be_bytes n v end.
Lemma be_bytes_length n v : length (be_bytes n v) = n.
Proof. induction n; simpl; auto. Qed.
Definition be_value (l : list Z) : Z := foldl (λ acc b, acc * 256 + b) 0 l.

Fixpoint zeros (n : nat) : string :=
  match n with O => "" | S n => String "0"%char (zeros n) end%string.

(** [fmt.Sprintf] with the verb [%0nd], for the non-negative numbers it is used on. *)
Definition decimal_pad (n : nat) (z : Z) : string :=
  (zeros (n - String.length (decimal z)) +:+ decimal z)%string.

Definition hex_digit (d : Z) : ascii :=
  byte_of (if d <? 10 then 48 + d else 87 + d).

Fixpoint hex_encode (l : list Z) : string :=
  match l with
  | [] => ""
  | b :: l => String (hex_digit (b / 16)) (String (hex_digit (b mod 16)) (hex_encode l))
  end%string.

Definition is_digit (c : ascii) : bool := in_range 48 57 (byte_val c).
Definition is_lower (c : ascii) : bool := in_range 97 122 (byte_val c).
Definition is_upper (c : ascii) : bool := in_range 65 90 (byte_val c).
Definition is_alnum (c : ascii) : bool := is_upper c || is_lower c || is_digit c.
Definition is_hex (c : ascii) : bool :=
  is_digit c || in_range 97 102 (byte_val c) || in_range 65 70 (byte_val c).

(** [hex.DecodeString(s)] succeeds: an even number of hexadecimal digits. *)
Definition hex_decodable (s : string) : bool :=
  Z.even (slen s) && string_all is_hex s.

(** ** [base64.StdEncoding.DecodeString] *)

Definition base64_value (b : Z) : option Z :=
  if in_range 65 90 b then Some (b - 65)
  else if in_range 97 122 b then Some (b - 71)
  else if in_range 48 57 b then Some (b + 4)
  else if b =? 43 then Some 62
  else if b =? 47 then Some 63
  else None.

Fixpoint base64_quads (l : list Z) : option (list Z) :=
  match l with
  | [] => Some []
  | a :: b :: c :: d :: l =>
    a ← base64_value a;
    b ← base64_value b;
    if (c =? 61) && (d =? 61) then
      match l with [] => Some [(a * 4 + b / 16) mod 256] | _ => None end
    else
      c ← base64_value c;
      if d =? 61 then
        match l with [] => Some [(a * 4 + b / 16) mod 256; (b * 16 + c / 4) mod 256] | _ => None end
      else
        d ← base64_value d;
        cons ((a * 4 + b / 16) mod 256) ∘ cons ((b * 16 + c / 4) mod 256) ∘ cons ((c * 64 + d) mod 256)
          <$> base64_quads l
  | _ => None
  end.

(** Carriage returns and newlines are ignored. *)
Definition base64_decode (s : string) : option (list Z) :=
  base64_quads (base.filter (λ b, ¬ (b = 10 ∨ b = 13)) (bytes_of s)).

(** ** UTF-8: [for _, r := range s]

    [chunks s] pairs every rune with its bytes; a byte that starts no valid
    encoding is the rune [0xFFFD] of width one. *)
Definition RuneError : Z := 65533.
Definition cont (b : Z) : bool := in_range 128 191 b.

Definition second_ok (b0 b1 : Z) : bool :=
  if b0 =? 224 then in_range 160 191 b1
  else if b0 =? 237 then in_range 128 159 b1
  else if b0 =? 240 then in_range 144 191 b1
  else if b0 =? 244 then in_range 128 143 b1
  else cont b1.

Fixpoint decode_utf8 (l : list Z) : list (Z * list Z) :=
  match l with
  | [] => []
  | b0 :: t =>
    if b0 <? 128 then (b0, [b0]) :: decode_utf8 t else
    match t with
    | b1 :: t1 =>
      if in_range 194 223 b0 && cont b1 then
        ((b0 - 192) * 64 + (b1 - 128), [b0; b1]) :: decode_utf8 t1
      else
      match t1 with
      | b2 :: t2 =>
        if in_range 224 239 b0 && second_ok b0 b1 && cont b2 then
          ((b0 - 224) * 4096 + (b1 - 128) * 64 + (b2 - 128), [b0; b1; b2]) :: decode_utf8 t2
        else
        match t2 with
        | b3 :: t3 =>
          if in_range 240 244 b0 && second_ok b0 b1 && cont b2 && cont b3 then
            ((b0 - 240) * 262144 + (b1 - 128) * 4096 + (b2 - 128) * 64 + (b3 - 128),
             [b0; b1; b2; b3]) :: decode_utf8 t3
          else (RuneError, [b0]) :: decode_utf8 t
        | [] => (RuneError, [b0]) :: decode_utf8 t
        end
      | [] => (RuneError, [b0]) :: decode_utf8 t
      end
    | [] => (RuneError, [b0]) :: decode_utf8 t
    end
  end.

Definition chunks (s : string) : list (Z * list Z) := decode_utf8 (bytes_of s).
Definition runes (s : string) : list Z := fst <$> chunks s.

(** [unicode.IsSpace] and [unicode.IsControl] *)
Definition is_space (r : Z) : bool :=
  in_range 9 13 r || (r =? 32) || (r =? 133) || (r =? 160) || (r =? 5760)
  || in_range 8192 8202 r || (r =? 8232) || (r =? 8233) || (r =? 8239)
  || (r =? 8287) || (r =? 12288).
Definition is_control (r : Z) : bool := in_range 0 31 r || in_range 127 159 r.

Fixpoint drop_while {A} (f : A → bool) (l : list A) : list A :=
  match l with [] => [] | x :: l' => if f x then drop_while f l' else l end.

(** [strings.TrimSpace] *)
Definition trim_space (s : string) : string :=
  let sp := λ c : Z * list Z, is_space c.1 in
  string_of_bytes (mjoin (snd <$> reverse (drop_while sp (reverse (drop_while sp (chunks s)))))).

(** ** [strings] *)

Definition has_prefix (s p : string) : bool := String.prefix p s.

Fixpoint drop_string (n : nat) (s : string) : string :=
  match n, s with S n, String _ s => drop_string n s | _, _ => s end.
Fixpoint take_string (n : nat) (s : string) : string :=
  match n, s with S n, String c s => String c (take_string n s) | _, _ => "" end%string.

Definition has_suffix (s p : string) : bool :=
  (String.length p <=? String.length s)%nat
  && String.eqb (drop_string (String.length s - String.length p) s) p.

(** [strings.CutPrefix] *)
Definition cut_prefix (s p : string) : option string :=
  if has_prefix s p then Some (drop_string (String.length p) s) else None.

Definition contains_byte (c : ascii) (s : string) : bool :=
  negb (string_all (λ d, negb (Ascii.eqb c d)) s).

(** [strings.Split(s, sep)] for a one-byte separator *)
Fixpoint split_byte (c : ascii) (s : string) : list string :=
  match s with
  | "" => [""]
  | String d s' =>
    if Ascii.eqb c d then "" :: split_byte c s'
    else match split_byte c s' with
         | x :: l => String d x :: l
         | [] => [String d ""]
         end
  end%string.

(** [strings.Join(parts, sep)] *)
Definition join (sep : string) (parts : list string) : string := String.concat sep parts.

(** ASCII case folding, for [strings.ToLower] and [strings.EqualFold] on ASCII text *)
Definition lower_byte (c : ascii) : ascii :=
  if is_upper c then byte_of (byte_val c + 32) else c.
Fixpoint to_lower (s : string) : string :=
  match s with "" => "" | String c s => String (lower_byte c) (to_lower s) end%string.

(** ** The identifier pattern [^[A-Za-z0-9][A-Za-z0-9._-]{0,127}$] *)
Definition safe_id_byte (c : ascii) : bool :=
  is_alnum c || Ascii.eqb c "."%char || Ascii.eqb c "_"%char || Ascii.eqb c "-"%char.
Definition match_safe_id (s : string) : bool :=
  match s with
  | "" => false
  | String c rest => is_alnum c && string_all safe_id_byte rest && (slen rest <=? 127)%Z
  end%string.

(** ** [encoding/json]: a string literal, with HTML escaping as [json.Marshal] does *)
Definition json_u (r : Z) : string :=
  ("\u" +:+ hex_encode [r / 256; r mod 256])%string.

Definition json_chunk (c : Z * list Z) : string :=
  let '(r, bs) := c in
  if (r =? RuneError) && (length bs =? 1)%nat then "\ufffd"
  else if r =? 34 then "\" +:+ dquote
  else if r =? 92 then "\\"
  else if r =? 8 then "\b" else if r =? 12 then "\f" else if r =? 10 then "\n"
  else if r =? 13 then "\r" else if r =? 9 then "\t"
  else if (r <? 32) || (r =? 60) || (r =? 62) || (r =? 38) || (r =? 8232) || (r =? 8233)
  then json_u r
  else string_of_bytes bs%string.

Definition json_string (s : string) : string :=
  (dquote +:+ String.concat "" (json_chunk <$> chunks s) +:+ dquote)%string.

(** ** Lemmas *)

Lemma byte_val_of z : 0 <= z < 256 → byte_val (byte_of z) = z.
Proof. intros. unfold byte_val, byte_of. rewrite Ascii.N_ascii_embedding; lia. Qed.

Lemma byte_of_val c : byte_of (byte_val c) = c.
Proof. unfold byte_val, byte_of. by rewrite N2Z.id, Ascii.ascii_N_embedding. Qed.

Lemma byte_val_range c : 0 <= byte_val c < 256.
Proof. unfold byte_val. pose proof (Ascii.N_ascii_bounded c). lia. Qed.

Lemma string_of_bytes_of s : string_of_bytes (bytes_of s) = s.
Proof.
  unfold string_of_bytes, bytes_of. rewrite <-list_fmap_compose.
  rewrite (list_fmap_ext _ id), list_fmap_id; [apply String.string_of_list_ascii_of_string|].
  intros. apply byte_of_val.
Qed.

#[export] Instance bytes_of_inj : Inj (=) (=) bytes_of.
Proof. intros s t H. by rewrite <-(string_of_bytes_of s), H, string_of_bytes_of. Qed.

Lemma string_app_cons c (a b : string) : (String c a +:+ b = String c (a +:+ b))%string.
Proof. done. Qed.
Lemma string_app_nil (b : string) : ("" +:+ b = b)%string.
Proof. done. Qed.

#[export] Hint Rewrite string_app_cons string_app_nil : topo_rw.

Lemma string_app_assoc (a b c : string) : ((a +:+ b) +:+ c = a +:+ (b +:+ c))%string.
Proof. induction a as [|x a IH]; [done|]. autorewrite with topo_rw. by rewrite IH. Qed.

Lemma string_app_nil_r (a : string) : (a +:+ "" = a)%string.
Proof. induction a as [|x a IH]; [done|]. autorewrite with topo_rw. by rewrite IH. Qed.

Lemma string_length_app (a b : string) :
  String.length (a +:+ b)%string = (String.length a + String.length b)%nat.
Proof.
  induction a as [|x a IH]; [done|]. autorewrite with topo_rw. simpl. by rewrite IH.
Qed.

Lemma string_all_app f a b : string_all f (a +:+ b)%string = string_all f a && string_all f b.
Proof.
  induction a as [|x a IH]; [done|]. autorewrite with topo_rw. simpl. by rewrite IH, andb_assoc.
Qed.

(** *** Text with separators

    [join] with a separator byte is injective on parts without that byte, and a
    [key=value] pair is injective on keys without [=]: what the program's hash
    inputs rely on. *)
Definition free_of (c : ascii) (s : string) : Prop := string_all (λ d, negb (Ascii.eqb c d)) s = true.

#[export] Instance free_of_dec c s : Decision (free_of c s).
Proof. unfold free_of. apply _. Defined.

Lemma split_byte_cons c s : ∃ x l, split_byte c s = x :: l.
Proof. destruct s as [|d s]; simpl; [eauto|]. repeat case_match; eauto. Qed.

Lemma split_byte_free c s : free_of c s → split_byte c s = [s].
Proof.
  unfold free_of. induction s as [|d s IH]; simpl; [done|].
  intros [Hd Hs]%andb_true_iff. apply negb_true_iff in Hd. by rewrite Hd, IH.
Qed.

Lemma split_byte_app c s t :
  free_of c s → split_byte c (s +:+ String c t)%string = s :: split_byte c t.
Proof.
  unfold free_of. induction s as [|d s IH]; simpl.
  - intros _. cbn. by rewrite Ascii.eqb_refl.
  - intros [Hd Hs]%andb_true_iff. apply negb_true_iff in Hd.
    by rewrite Hd, IH.
Qed.

Lemma split_byte_join c l :
  l ≠ [] → Forall (free_of c) l → split_byte c (join (String c "") l) = l.
Proof.
  unfold join. intros Hne Hl. induction Hl as [|x l Hx Hl IH]; [done|].
  destruct l as [|y l]; simpl; [by apply split_byte_free|].
  change (String.append (String c "") ?t) with (String c t).
  rewrite split_byte_app by done. f_equal. by apply IH.
Qed.

Lemma join_inj c l k :
  l ≠ [] → k ≠ [] → Forall (free_of c) l → Forall (free_of c) k →
  join (String c "") l = join (String c "") k → l = k.
Proof. intros. rewrite <-(split_byte_join c l), <-(split_byte_join c k); congruence. Qed.

Lemma pair_text_inj c k1 v1 k2 v2 :
  free_of c k1 → free_of c k2 →
  (k1 +:+ String c v1 = k2 +:+ String c v2)%string → k1 = k2 ∧ v1 = v2.
Proof.
  unfold free_of. revert k2. induction k1 as [|d k1 IH]; intros [|d' k2] H1 H2;
    rewrite ?string_app_cons, ?string_app_nil; simpl in *; intros Heq; simplify_eq; bool_facts.
  - done.
  - by rewrite Ascii.eqb_refl in *.
  - by rewrite Ascii.eqb_refl in *.
  - destruct (IH k2) as [-> ->]; done.
Qed.

Lemma free_of_app c a b : free_of c (a +:+ b)%string ↔ free_of c a ∧ free_of c b.
Proof. unfold free_of. by rewrite string_all_app, andb_true_iff. Qed.

Lemma string_all_impl (f g : ascii → bool) s :
  (∀ c, f c = true → g c = true) → string_all f s = true → string_all g s = true.
Proof. intros Hfg. induction s; simpl; [done|]. rewrite !andb_true_iff. naive_solver. Qed.

Lemma hex_encode_length l : String.length (hex_encode l) = (2 * length l)%nat.
Proof. induction l; simpl; lia. Qed.

Lemma be_fold n v acc :
  0 <= v → foldl (λ acc b, acc * 256 + b) acc (be_bytes n v) = acc * 256 ^ Z.of_nat n + v mod 256 ^ Z.of_nat n.
Proof.
  intros Hv. revert acc. induction n as [|n IH]; intros acc.
  { cbn. rewrite Z.mod_1_r. lia. }
  cbn [be_bytes foldl]. rewrite IH, Nat2Z.inj_succ, Z.pow_succ_r by lia.
  rewrite (Z.mul_comm 256 (256 ^ _)), Z.rem_mul_r by (try apply Z.pow_nonzero; lia). ring.
Qed.

Lemma be_value_bytes n v : 0 <= v < 256 ^ Z.of_nat n → be_value (be_bytes n v) = v.
Proof. intros Hv. unfold be_value. rewrite be_fold by lia. rewrite Z.mod_small by lia. lia. Qed.

Lemma hex_encode_inj l k : Forall (λ b, 0 <= b < 256) l → Forall (λ b, 0 <= b < 256) k → hex_encode l = hex_encode k → l = k.
Proof.
  assert (∀ d e, 0 <= d < 16 → 0 <= e < 16 → hex_digit d = hex_digit e → d = e) as Hdig.
  { intros d e Hd He Heq. apply (f_equal byte_val) in Heq. unfold hex_digit in Heq.
    destruct (Z.ltb_spec d 10), (Z.ltb_spec e 10); rewrite !byte_val_of in Heq by lia; lia. }
  intros Hl. revert k. induction Hl as [|b l Hb Hl IH]; intros k Hk; destruct Hk as [|c k Hc Hk]; simpl; try done.
  intros [= H1 H2 H3]. f_equal; [|by apply IH].
  apply Hdig in H1; [|split; [apply Z.div_pos; lia|apply Z.div_lt_upper_bound; lia]..].
  apply Hdig in H2; [|apply Z.mod_pos_bound; lia..]. pose proof (Z.div_mod b 16 ltac:(lia)). pose proof (Z.div_mod c 16 ltac:(lia)). lia.
Qed.

Lemma be_bytes_range n v : Forall (λ b, 0 <= b < 256) (be_bytes n v).
Proof. induction n; simpl; constructor; [apply Z.mod_pos_bound; lia|done]. Qed.

Lemma hex_encode_bytes f l : (∀ d, 0 <= d < 16 → f (hex_digit d) = true) → Forall (λ b, 0 <= b < 256) l → string_all f (hex_encode l) = true.
Proof.
  intros Hf. induction 1 as [|b l Hb Hl IH]; [done|]. simpl.
  rewrite !Hf, IH by (split; [apply Z.div_pos || apply Z.mod_pos_bound; lia|apply Z.div_lt_upper_bound || apply Z.mod_pos_bound; lia]). done.
Qed.

Lemma hex_digit_hex d : 0 <= d < 16 → is_hex (hex_digit d) = true.
Proof.
  intros Hd. unfold hex_digit, is_hex, is_digit, in_range. rewrite byte_val_of by (destruct (Z.ltb_spec d 10); lia).
  destruct (Z.ltb_spec d 10).
  - apply orb_true_iff. left. apply orb_true_iff. left. apply andb_true_iff. split; apply Z.leb_le; lia.
  - apply orb_true_iff. left. apply orb_true_iff. right. apply andb_true_iff. split; apply Z.leb_le; lia.
Qed.

#[export] Instance decimal_inj : Inj (=) (=) decimal.
Proof. unfold decimal. apply _. Qed.

(** *** Decimal text contains digits and a sign only *)
Definition decimal_byte (c : ascii) : bool := is_digit c || Ascii.eqb c "-"%char.

Lemma decimal_bytes z : string_all decimal_byte (decimal z) = true.
Proof.
  assert (∀ n s, string_all decimal_byte s = true →
    string_all decimal_byte (pretty_N_go n s) = true) as Hgo.
  { induction n as [n IH] using (well_founded_induction N.lt_wf_0). intros s Hs. destruct (decide (n = 0)%N) as [->|].
    - by rewrite pretty_N_go_0.
    - rewrite pretty_N_go_step by lia. apply IH; [apply N.div_lt; lia|]. simpl. rewrite Hs.
      unfold pretty_N_char. by repeat case_match. }
  assert (∀ n, string_all decimal_byte (pretty_N n) = true) as Hn.
  { intros n. unfold pretty_N. case_decide; [done|]. by apply Hgo. }
  unfold decimal, pretty, pretty_Z. destruct z; [done|apply Hn|].
  rewrite string_all_app. apply andb_true_iff. split; [done|apply Hn].
Qed.

Lemma decimal_free c z : decimal_byte c = false → free_of c (decimal z).
Proof.
  intros Hc. unfold free_of. eapply string_all_impl; [|apply decimal_bytes].
  intros d Hd. destruct (Ascii.eqb_spec c d); [congruence|done].
Qed.

Lemma zeros_bytes n : string_all is_digit (zeros n) = true.
Proof. induction n; done. Qed.

Lemma decimal_pad_free c n z : decimal_byte c = false → free_of c (decimal_pad n z).
Proof.
  intros Hc. unfold decimal_pad. rewrite free_of_app. split; [|by apply decimal_free].
  unfold free_of. eapply string_all_impl; [|apply zeros_bytes].
  unfold decimal_byte in Hc. intros d Hd. destruct (Ascii.eqb_spec c d); [|done].
  subst. by rewrite Hd in Hc.
Qed.

Lemma string_all_list f s : string_all f s = forallb f (String.list_ascii_of_string s).
Proof. induction s; simpl; congruence. Qed.

Example chunks_example :
  runes (string_of_bytes [97; 195; 169; 226; 130; 172; 240; 159; 152; 128; 255]) =
  [97; 233; 8364; 128512; RuneError].
Proof. reflexivity. Qed.
Example trim_space_example : trim_space "  a b 	" = "a b"%string.
Proof. reflexivity. Qed.
Example hex_example : hex_encode [0; 255; 26] = "00ff1a"%string.
Proof. reflexivity. Qed.
Example pad_example : decimal_pad 8 42 = "00000042"%string.
Proof. reflexivity. Qed.
Example split_example : split_byte "/"%char "a//b/" = ["a"; EmptyString; "b"; EmptyString]%string.
Proof. vm_compute. reflexivity. Qed.

(** ASCII text: one rune per byte, and nothing to trim when no byte is a space. *)
Lemma decode_utf8_ascii l :
  Forall (λ b, b < 128) l → decode_utf8 l = (λ b, (b, [b])) <$> l.
Proof.
  induction 1 as [|b l Hb Hl IH]; [done|]. rewrite fmap_cons, <-IH. simpl.
  apply Z.ltb_lt in Hb. by rewrite Hb.
Qed.

Lemma bytes_of_forall (P : Z → Prop) s :
  (∀ c, c ∈ String.list_ascii_of_string s → P (byte_val c)) → Forall P (bytes_of s).
Proof. intros H. unfold bytes_of. apply Forall_fmap, Forall_forall. exact H. Qed.

Lemma drop_while_none {A} (f : A → bool) l : Forall (λ x, f x = false) l → drop_while f l = l.
Proof. destruct 1 as [|x l Hx Hl]; [done|]. simpl. by rewrite Hx. Qed.

Lemma trim_space_plain s :
  (∀ c, c ∈ String.list_ascii_of_string s → byte_val c < 128 ∧ is_space (byte_val c) = false) →
  trim_space s = s.
Proof.
  intros Hs. unfold trim_space, chunks.
  rewrite decode_utf8_ascii by (apply bytes_of_forall; naive_solver).
  set (k := (λ b, (b, [b])) <$> bytes_of s).
  assert (Forall (λ c : Z * list Z, is_space c.1 = false) k) as Hk.
  { unfold k. apply Forall_fmap. apply bytes_of_forall. intros c Hc. by apply Hs. }
  cbv zeta. rewrite (drop_while_none _ k) by done.
  rewrite (drop_while_none _ (reverse k)) by by apply Forall_reverse.
  rewrite reverse_involutive.
  assert (mjoin (snd <$> k) = bytes_of s) as ->; [|apply string_of_bytes_of].
  unfold k. clear. induction (bytes_of s) as [|b l IH]; [done|]. cbn. f_equal. exact IH.
Qed.

Lemma prefix_all f p s : String.prefix p s = true → string_all f s = true → string_all f p = true.
Proof.
  revert s. induction p as [|c p IH]; intros [|d s]; simpl; try done.
  destruct (Ascii.ascii_dec c d) as [->|]; [|done].
  intros Hp [Hd Hs]%andb_true_iff. rewrite Hd. by eapply IH.
Qed.

Example base64_example : base64_decode "TWFueQ==" = Some (bytes_of "Many").
Proof. vm_compute. reflexivity. Qed.
Example base64_bad : base64_decode "TWFu=" = None.
Proof. vm_compute. reflexivity. Qed.
