(* ===== verification/Text.v ===== *)
(** * Text formats: JSON strings, XML text, and cutting at separators

    What [encoding/xml] and [strings.Cut] do to text, and the lemmas on runes, quoting
    and escaping that the wire formats and journals of the components share. *)

From S2P Require Import Prelude Bytes.

(** [strings.Cut(s, sep)] for a one-byte separator. *)
Fixpoint cut_byte (c : ascii) (s : string) : option (string * string) :=
  match s with
  | EmptyString => None
  | String d s => if Ascii.eqb c d then Some (EmptyString, s)
                  else '(a, b) ← cut_byte c s; Some (String d a, b)
  end.

Lemma cut_byte_app c a b : free_of c a → cut_byte c (a +:+ String c b)%string = Some (a, b).
Proof.
  unfold free_of. induction a as [|d a IH]; rewrite ?string_app_cons, ?string_app_nil; simpl.
  - by rewrite Ascii.eqb_refl.
  - intros [Hd Ha]%andb_true_iff. apply negb_true_iff in Hd. by rewrite Hd, IH.
Qed.

Lemma cut_byte_spec c s a b : cut_byte c s = Some (a, b) → s = (a +:+ String c b)%string ∧ free_of c a.
Proof.
  unfold free_of. revert a b. induction s as [|d s IH]; intros a b; simpl; [done|].
  destruct (Ascii.eqb_spec c d) as [->|Hne]; [by intros [= <- <-]|].
  destruct (cut_byte c s) as [[a' b']|] eqn:Hc; [|done]. simpl. intros [= <- <-].
  destruct (IH _ _ eq_refl) as [-> Hf]. split; [done|]. simpl. by rewrite (proj2 (Ascii.eqb_neq _ _) Hne).
Qed.

Lemma drop_string_app a b : drop_string (String.length a) (a +:+ b)%string = b.
Proof. induction a as [|c a IH]; [by destruct b|exact IH]. Qed.

Lemma has_suffix_app a b : has_suffix (a +:+ b)%string b = true.
Proof.
  unfold has_suffix. rewrite string_length_app. apply andb_true_iff. split; [apply Nat.leb_le; lia|].
  replace (String.length a + String.length b - String.length b)%nat with (String.length a) by lia.
  rewrite drop_string_app. apply String.eqb_refl.
Qed.

Lemma prefix_head c d a b : String.prefix (String c a) (String d b) = true → c = d.
Proof. unfold String.prefix. by destruct (Ascii.ascii_dec c d). Qed.

(** The last occurrence instead: [strings.LastIndex]. *)
Fixpoint cut_last (c : ascii) (s : string) : option (string * string) :=
  match s with
  | EmptyString => None
  | String d s =>
    match cut_last c s with
    | Some (a, b) => Some (String d a, b)
    | None => if Ascii.eqb c d then Some (EmptyString, s) else None
    end
  end.

Lemma cut_last_none c s : cut_last c s = None ↔ free_of c s.
Proof.
  unfold free_of. induction s as [|d s IH]; simpl; [done|]. destruct (cut_last c s) as [[a b]|].
  - split; [done|]. intros [_ H]%andb_true_iff. by apply IH in H.
  - rewrite (proj1 IH eq_refl), andb_true_r, negb_true_iff. by destruct (Ascii.eqb c d).
Qed.

Lemma free_of_mid c a b : ¬ free_of c (a +:+ String c b)%string.
Proof. rewrite free_of_app. intros [_ H]. unfold free_of in H. simpl in H. by rewrite Ascii.eqb_refl in H. Qed.

Lemma cut_last_spec c s a b : cut_last c s = Some (a, b) ↔ s = (a +:+ String c b)%string ∧ free_of c b.
Proof.
  revert a b. induction s as [|d s IH]; intros a b; simpl; [split; [done|]; intros [H _]; by destruct a|].
  assert (∀ e a, String d s = (String e a +:+ String c b)%string → d = e ∧ s = (a +:+ String c b)%string) as Hcons.
  { intros e a0. rewrite string_app_cons. intros H. by injection H. }
  destruct (cut_last c s) as [[a' b']|] eqn:Hc.
  - destruct (proj1 (IH a' b') eq_refl) as [-> Hf]. split; [by intros [= <- <-]|]. intros [H Hb]. destruct a as [|e a].
    + rewrite string_app_nil in H. injection H as _ H. rewrite <-H in Hb. by apply free_of_mid in Hb.
    + destruct (Hcons _ _ H) as [-> H0]. by injection (proj2 (IH a b) (conj H0 Hb)) as -> ->.
  - apply cut_last_none in Hc. split.
    + destruct (Ascii.eqb_spec c d) as [Hd|]; [|done]. intros [= <- <-]. subst. by split.
    + intros [H Hb]. destruct a as [|e a].
      * rewrite string_app_nil in H. injection H as Hd Hs. subst. by rewrite Ascii.eqb_refl.
      * destruct (Hcons _ _ H) as [_ H0]. rewrite H0 in Hc. by apply free_of_mid in Hc.
Qed.

(** Long texts cut to a limit, with three dots. *)
Definition truncate (value : string) (limit : Z) : string :=
  if slen value <=? limit then value else (take_string (Z.to_nat limit) value +:+ "...")%string.

Lemma take_string_length n s : (n <= String.length s)%nat → String.length (take_string n s) = n.
Proof. revert s. induction n as [|n IH]; intros [|c s]; simpl; intros; [done|done|lia|]. rewrite IH; lia. Qed.

Lemma take_drop_string n s : s = (take_string n s +:+ drop_string n s)%string.
Proof. revert s. induction n as [|n IH]; intros s; [by destruct s|]. destruct s as [|c s]; [done|]. simpl. rewrite string_app_cons. f_equal. apply IH. Qed.

Lemma take_string_app n a b : (n <= String.length a)%nat → take_string n (a +:+ b)%string = take_string n a.
Proof.
  revert a. induction n as [|n IH]; intros a Hn; [by destruct a, b|]. destruct a as [|c a]; [simpl in Hn; lia|].
  rewrite string_app_cons. simpl. f_equal. apply IH. simpl in Hn. lia.
Qed.

Lemma take_string_all n s : (String.length s <= n)%nat → take_string n s = s.
Proof. revert s. induction n as [|n IH]; intros [|c s] Hn; simpl in *; [done|lia|done|]. f_equal. apply IH. lia. Qed.

Lemma free_of_take c n s : free_of c s → free_of c (take_string n s).
Proof. intros Hf. rewrite (take_drop_string n s), free_of_app in Hf. by destruct Hf. Qed.

Lemma slen_app a b : slen (a +:+ b)%string = slen a + slen b.
Proof. unfold slen. rewrite string_length_app. lia. Qed.
Lemma slen_nonneg a : 0 <= slen a.
Proof. unfold slen. lia. Qed.

Lemma truncate_length value limit : 0 <= limit → limit < slen value → slen (truncate value limit) = limit + 3.
Proof.
  intros H0 H. unfold truncate. destruct (Z.leb_spec (slen value) limit); [lia|].
  unfold slen in *. rewrite string_length_app, take_string_length by lia. simpl. lia.
Qed.

Lemma truncate_bound value limit : 0 <= limit → slen (truncate value limit) <= limit + 3.
Proof.
  intros H0. destruct (Z.le_gt_cases (slen value) limit) as [H|H]; [|rewrite truncate_length; lia].
  unfold truncate. rewrite (proj2 (Z.leb_le _ _)) by done. lia.
Qed.

Lemma truncate_nonempty value limit : value ≠ ""%string → truncate value limit ≠ ""%string.
Proof. unfold truncate. destruct (_ <=? _); [done|]. intros _ H. apply (f_equal String.length) in H. rewrite string_length_app in H. simpl in H. lia. Qed.

Lemma contains_byte_free c s : contains_byte c s = false ↔ free_of c s.
Proof. unfold contains_byte, free_of. by rewrite negb_false_iff. Qed.

Lemma mjoin_cons {A} (x : list A) l : mjoin (x :: l) = x ++ mjoin l.
Proof. done. Qed.

(** ** Runes *)

(** A rune is an ASCII byte, or is spelled by bytes above 127; the two separators that
    JSON escapes have one spelling. *)
Definition chunk_ok (c : Z * list Z) : Prop :=
  (0 <= c.1 < 128 ∧ c.2 = [c.1]) ∨
  (128 <= c.1 ∧ c.2 ≠ [] ∧ Forall (λ b, 128 <= b < 256) c.2 ∧
   (c.1 = 8232 → c.2 = [226; 128; 168]) ∧ (c.1 = 8233 → c.2 = [226; 128; 169])).

(** A byte that is not part of an encoding. *)
Definition bad_chunk (c : Z * list Z) : bool := (c.1 =? RuneError) && (length c.2 =? 1)%nat.

Definition is_byte (b : Z) : Prop := 0 <= b < 256.

Ltac in_range_facts :=
  bool_facts; unfold cont, in_range in *; bool_facts.

Lemma second_ok_cont b0 b1 : second_ok b0 b1 = true → 128 <= b1 <= 191.
Proof. unfold second_ok. repeat case_match; intros; in_range_facts; lia. Qed.

Lemma decode_utf8_spec l : Forall is_byte l →
  Forall chunk_ok (decode_utf8 l) ∧ mjoin (snd <$> decode_utf8 l) = l.
Proof.
  induction l as [l IH] using (induction_ltof1 _ length). unfold ltof in IH. intros Hl.
  destruct Hl as [|b0 t H0 Ht]; [done|]. unfold is_byte in H0.
  assert (∀ k bs t', b0 :: t = bs ++ t' → (length t' < length (b0 :: t))%nat → chunk_ok (k, bs) →
    Forall chunk_ok ((k, bs) :: decode_utf8 t') ∧ mjoin (snd <$> (k, bs) :: decode_utf8 t') = b0 :: t) as Hstep.
  { intros k bs t' Heq Hlt Hok. assert (Forall is_byte t') as Ht'.
    { assert (Forall is_byte (b0 :: t)) as Hall by (by constructor). rewrite Heq in Hall. by apply Forall_app in Hall as [_ ?]. }
    destruct (IH t' Hlt Ht') as [IH1 IH2]. split; [by constructor|].
    change (bs ++ mjoin (snd <$> decode_utf8 t') = b0 :: t). by rewrite IH2. }
  assert (128 <= b0 → Forall chunk_ok ((RuneError, [b0]) :: decode_utf8 t) ∧ mjoin (snd <$> (RuneError, [b0]) :: decode_utf8 t) = b0 :: t) as Hbad.
  { intros. apply Hstep; [done|simpl; lia|]. right. split; [done|]. split; [done|]. split; [repeat constructor; lia|done]. }
  cbn [decode_utf8]. destruct (Z.ltb_spec b0 128).
  { apply Hstep; [done|simpl; lia|]. left. simpl. split; [lia|done]. }
  specialize (Hbad ltac:(lia)).
  destruct t as [|b1 t1]; [done|]. apply Forall_cons in Ht as [H1 Ht].
  destruct (in_range 194 223 b0 && cont b1) eqn:E1.
  { in_range_facts. apply Hstep; [done|simpl; lia|]. right. cbn [fst snd]. split; [lia|]. split; [done|]. split; [repeat constructor; lia|]. lia. }
  destruct t1 as [|b2 t2]; [done|]. apply Forall_cons in Ht as [H2 Ht].
  destruct (in_range 224 239 b0 && second_ok b0 b1 && cont b2) eqn:E2.
  { bool_facts. pose proof (second_ok_cont b0 b1 ltac:(done)). in_range_facts.
    apply Hstep; [done|simpl; lia|]. right. cbn [fst snd]. split.
    { match goal with H : second_ok _ _ = true |- _ => unfold second_ok in H end.
      destruct (Z.eqb_spec b0 224); in_range_facts; lia. }
    split; [done|]. split; [repeat constructor; lia|].
    split; intros; (assert (b0 = 226) as -> by lia; assert (b1 = 128) as -> by lia; f_equal; f_equal; f_equal; lia). }
  destruct t2 as [|b3 t3]; [done|]. apply Forall_cons in Ht as [H3 Ht].
  destruct (in_range 240 244 b0 && second_ok b0 b1 && cont b2 && cont b3) eqn:E3; [|done].
  bool_facts. pose proof (second_ok_cont b0 b1 ltac:(done)). 
  assert (b0 = 240 → 144 <= b1) as H240.
  { intros ->. match goal with H : second_ok _ _ = true |- _ => unfold second_ok in H; simpl in H end. in_range_facts. lia. }
  in_range_facts. apply Hstep; [done|simpl; lia|]. right. cbn [fst snd]. split; [destruct (Z.eq_dec b0 240); lia|].
  split; [done|]. split; [repeat constructor; lia|]. destruct (Z.eq_dec b0 240); lia.
Qed.

Lemma bytes_of_range s : Forall is_byte (bytes_of s).
Proof. apply bytes_of_forall. intros c _. apply byte_val_range. Qed.

Lemma chunks_ok s : Forall chunk_ok (chunks s).
Proof. apply decode_utf8_spec, bytes_of_range. Qed.

Lemma string_of_bytes_app l k : string_of_bytes (l ++ k) = (string_of_bytes l +:+ string_of_bytes k)%string.
Proof. unfold string_of_bytes. rewrite fmap_app. induction (byte_of <$> l) as [|c l' IH]; [done|]. cbn. by rewrite IH. Qed.

Lemma concat_cons s l : String.concat "" (s :: l) = (s +:+ String.concat "" l)%string.
Proof. destruct l; [by rewrite string_app_nil_r|done]. Qed.

(** Text spelled rune by rune. *)
Lemma chunks_concat s : String.concat "" ((λ c, string_of_bytes c.2) <$> chunks s) = s.
Proof.
  rewrite <-(string_of_bytes_of s) at 2. rewrite <-(proj2 (decode_utf8_spec (bytes_of s) (bytes_of_range s))).
  fold (chunks s). induction (chunks s) as [|c l IH]; [done|].
  rewrite !fmap_cons, concat_cons, IH, <-string_of_bytes_app. done.
Qed.

Lemma string_all_concat f l : string_all f (String.concat "" l) = forallb (string_all f) l.
Proof. induction l as [|s l IH]; [done|]. rewrite concat_cons, string_all_app, IH. done. Qed.

Lemma string_all_bytes f l : string_all f (string_of_bytes l) = forallb (λ b, f (byte_of b)) l.
Proof. induction l as [|b l IH]; [done|]. simpl. by rewrite <-IH. Qed.

(** A byte below 128 occurs in a chunk only as a rune of its own. *)
Lemma high_bytes_free c bs : byte_val c < 128 → Forall (λ b, 128 <= b < 256) bs → free_of c (string_of_bytes bs).
Proof.
  intros Hc Hb. unfold free_of. rewrite string_all_bytes. apply forallb_forall. intros b Hin.
  rewrite <-list_elem_of_In in Hin. rewrite Forall_forall in Hb. specialize (Hb b Hin).
  apply negb_true_iff, Ascii.eqb_neq. intros ->. rewrite byte_val_of in Hc; lia.
Qed.

(** ** JSON strings, read back

    A reader of what [json.Marshal] writes for a string: the value and the text after the
    closing quote.  It shows that quoting loses nothing. *)
Inductive quote_state := Normal | Escape | Unicode (digits : nat) (acc : Z).

Definition simple_escape (c : ascii) : option ascii :=
  let b := byte_val c in
  if (b =? 34) || (b =? 92) then Some c
  else if b =? 98 then Some (byte_of 8) else if b =? 102 then Some (byte_of 12)
  else if b =? 110 then Some (byte_of 10) else if b =? 114 then Some (byte_of 13)
  else if b =? 116 then Some (byte_of 9) else None.

Definition code_text (u : Z) : option string :=
  if u <? 128 then Some (char u)
  else if u =? 8232 then Some (string_of_bytes [226; 128; 168])
  else if u =? 8233 then Some (string_of_bytes [226; 128; 169])
  else if u =? RuneError then Some (string_of_bytes [239; 191; 189])
  else None.

Definition digit_of (c : ascii) : option Z :=
  let b := byte_val c in
  if in_range 48 57 b then Some (b - 48) else if in_range 97 102 b then Some (b - 87) else None.

Definition put (a : string) (r : option (string * string)) : option (string * string) :=
  '(v, rest) ← r; Some ((a +:+ v)%string, rest).

Fixpoint read_quoted (st : quote_state) (s : string) : option (string * string) :=
  match s with
  | EmptyString => None
  | String c s =>
    match st with
    | Normal =>
      if byte_val c =? 34 then Some (EmptyString, s)
      else if byte_val c =? 92 then read_quoted Escape s
      else put (String c "") (read_quoted Normal s)
    | Escape =>
      if byte_val c =? 117 then read_quoted (Unicode 4 0) s
      else d ← simple_escape c; put (String d "") (read_quoted Normal s)
    | Unicode n acc =>
      d ← digit_of c;
      match n with
      | S (S n) => read_quoted (Unicode (S n) (16 * acc + d)) s
      | _ => t ← code_text (16 * acc + d); put t (read_quoted Normal s)
      end
    end
  end.

Lemma put_put a b r : put a (put b r) = put (a +:+ b)%string r.
Proof. destruct r as [[v rest]|]; simpl; [|done]. by rewrite string_app_assoc. Qed.

Lemma read_unquoted bs rest :
  Forall (λ b, 128 <= b < 256) bs →
  read_quoted Normal (string_of_bytes bs +:+ rest)%string = put (string_of_bytes bs) (read_quoted Normal rest).
Proof.
  induction 1 as [|b bs Hb Hbs IH].
  { change (read_quoted Normal rest = put "" (read_quoted Normal rest)). by destruct (read_quoted Normal rest) as [[]|]. }
  change (string_of_bytes (b :: bs)) with (String (byte_of b) (string_of_bytes bs)).
  rewrite string_app_cons. cbn [read_quoted]. rewrite byte_val_of by lia.
  rewrite (proj2 (Z.eqb_neq b 34)), (proj2 (Z.eqb_neq b 92)), IH, put_put by lia. done.
Qed.

(** Reading text that does not end the string: its value and the state after it. *)
Fixpoint read_part (st : quote_state) (s : string) : option (string * quote_state) :=
  match s with
  | EmptyString => Some (EmptyString, st)
  | String c s =>
    match st with
    | Normal =>
      if byte_val c =? 34 then None
      else if byte_val c =? 92 then read_part Escape s
      else '(v, st) ← read_part Normal s; Some (String c v, st)
    | Escape =>
      if byte_val c =? 117 then read_part (Unicode 4 0) s
      else d ← simple_escape c; '(v, st) ← read_part Normal s; Some (String d v, st)
    | Unicode n acc =>
      d ← digit_of c;
      match n with
      | S (S n) => read_part (Unicode (S n) (16 * acc + d)) s
      | _ => t ← code_text (16 * acc + d); '(v, st) ← read_part Normal s; Some ((t +:+ v)%string, st)
      end
    end
  end.

Lemma read_part_quoted s rest : ∀ st v st',
  read_part st s = Some (v, st') → read_quoted st (s +:+ rest)%string = put v (read_quoted st' rest).
Proof.
  induction s as [|c s IH]; intros st v st' H.
  { injection H as <- <-. change (read_quoted st rest = put "" (read_quoted st rest)). by destruct (read_quoted st rest) as [[]|]. }
  rewrite string_app_cons. destruct st as [| |n acc]; cbn [read_part read_quoted] in *.
  - destruct (byte_val c =? 34); [done|]. destruct (byte_val c =? 92); [by apply IH|].
    destruct (read_part Normal s) as [[v' st1]|] eqn:E; [|done]. injection H as <- <-. by rewrite (IH _ _ _ E), put_put.
  - destruct (byte_val c =? 117); [by apply IH|]. destruct (simple_escape c) as [d|]; [|done]. simpl in *.
    destruct (read_part Normal s) as [[v' st1]|] eqn:E; [|done]. injection H as <- <-. by rewrite (IH _ _ _ E), put_put.
  - destruct (digit_of c) as [d|]; [|done]. simpl in *.
    assert (∀ t, ('(v, st) ← read_part Normal s; Some ((t +:+ v)%string, st)) = Some (v, st') →
      put t (read_quoted Normal (s +:+ rest)%string) = put v (read_quoted st' rest)) as Hlast.
    { intros t Ht. destruct (read_part Normal s) as [[v' st1]|] eqn:E; [|done]. injection Ht as <- <-. by rewrite (IH _ _ _ E), put_put. }
    destruct n as [|[|n]]; [| |by apply IH]; (destruct (code_text _) as [t|]; [simpl in *; by apply Hlast|done]).
Qed.

Definition part_is (s v : string) : bool :=
  match read_part Normal s with Some (w, Normal) => String.eqb v w | _ => false end.

Lemma part_reads s v rest : part_is s v = true → read_quoted Normal (s +:+ rest)%string = put v (read_quoted Normal rest).
Proof.
  unfold part_is. destruct (read_part Normal s) as [[w []]|] eqn:E; try done. intros ->%String.eqb_eq. by apply read_part_quoted.
Qed.

(** The short escapes and the ASCII codes, checked one by one. *)
Lemma ascii_chunks_read :
  forallb (λ n, part_is (json_chunk (Z.of_nat n, [Z.of_nat n])) (char (Z.of_nat n))) (List.seq 0 128) = true.
Proof. by vm_compute. Qed.

Lemma chunk_reads c rest : chunk_ok c → bad_chunk c = false →
  read_quoted Normal (json_chunk c +:+ rest)%string = put (string_of_bytes c.2) (read_quoted Normal rest).
Proof.
  destruct c as [r bs]. unfold bad_chunk. intros [[Hr Hbs]|(Hr&Hne&Hhigh&H28&H29)] Hbad; simpl in *.
  - subst bs. apply part_reads. pose proof ascii_chunks_read as Hall. rewrite forallb_forall in Hall.
    specialize (Hall (Z.to_nat r)). rewrite Z2Nat.id in Hall by lia. apply Hall, in_seq. lia.
  - rewrite Hbad. do 7 (rewrite (proj2 (Z.eqb_neq r _)) by lia).
    destruct (Z.eqb_spec r 8232) as [->|]; [rewrite H28 by done|destruct (Z.eqb_spec r 8233) as [->|]; [rewrite H29 by done|]].
    1,2: by apply part_reads; vm_compute.
    rewrite (proj2 (Z.ltb_ge r _)) by lia. do 3 (rewrite (proj2 (Z.eqb_neq r _)) by lia). by apply read_unquoted.
Qed.

(** Text that is UTF-8. *)
Definition utf8_valid (s : string) : bool := negb (existsb bad_chunk (chunks s)).

Theorem json_string_reads s rest :
  utf8_valid s = true → read_quoted Normal (drop_string 1 (json_string s) +:+ rest)%string = Some (s, rest).
Proof.
  unfold utf8_valid. intros Hv%negb_true_iff.
  change (drop_string 1 (json_string s)) with (String.concat "" (json_chunk <$> chunks s) +:+ dquote)%string.
  rewrite string_app_assoc. rewrite <-(chunks_concat s) at 2. pose proof (chunks_ok s) as Hok. revert Hv Hok.
  induction (chunks s) as [|c l IH]; intros Hv Hok; [done|]. apply orb_false_iff in Hv as [Hc Hv]. apply Forall_cons in Hok as [Hc' Hok].
  rewrite !fmap_cons, !concat_cons, string_app_assoc, chunk_reads, IH by done. done.
Qed.

Lemma json_string_inj_rest s t r1 r2 :
  utf8_valid s = true → utf8_valid t = true → (json_string s +:+ r1 = json_string t +:+ r2)%string → s = t ∧ r1 = r2.
Proof.
  intros Hs Ht Heq. apply (f_equal (drop_string 1)) in Heq.
  pose proof (json_string_reads s r1 Hs) as H1. pose proof (json_string_reads t r2 Ht) as H2.
  change (drop_string 1 (json_string s +:+ r1)%string) with (drop_string 1 (json_string s) +:+ r1)%string in Heq.
  change (drop_string 1 (json_string t +:+ r2)%string) with (drop_string 1 (json_string t) +:+ r2)%string in Heq.
  rewrite Heq, H2 in H1. by injection H1.
Qed.

(** No control byte is left in a quoted string. *)
Lemma json_chunk_printable c ch : byte_val c < 32 → chunk_ok ch → free_of c (json_chunk ch).
Proof.
  intros Hc Hok. destruct ch as [r bs]. unfold free_of.
  assert (∀ s, string_all (λ d, 32 <=? byte_val d) s = true → string_all (λ d, negb (Ascii.eqb c d)) s = true) as Hlift.
  { intros s. apply string_all_impl. intros d Hd%Z.leb_le. apply negb_true_iff, Ascii.eqb_neq. intros ->. lia. }
  apply Hlift. clear c Hc Hlift. destruct Hok as [[Hr Hbs]|(Hr&Hne&Hhigh&_)]; simpl in *.
  - subst bs. assert (∀ n, (n < 128)%nat → string_all (λ d, 32 <=? byte_val d) (json_chunk (Z.of_nat n, [Z.of_nat n])) = true) as Hall.
    { intros n Hn. assert (forallb (λ n, string_all (λ d, 32 <=? byte_val d) (json_chunk (Z.of_nat n, [Z.of_nat n]))) (List.seq 0 128) = true) as H by by vm_compute.
      rewrite forallb_forall in H. apply H, in_seq. lia. }
    specialize (Hall (Z.to_nat r) ltac:(lia)). by rewrite Z2Nat.id in Hall by lia.
  - assert (string_all (λ d, 32 <=? byte_val d) (string_of_bytes bs) = true) as Hbs.
    { rewrite string_all_bytes. apply forallb_forall. intros b Hin%list_elem_of_In. rewrite Forall_forall in Hhigh.
      specialize (Hhigh b Hin). rewrite byte_val_of by lia. apply Z.leb_le. lia. }
    destruct (_ && _); [done|]. do 7 (rewrite (proj2 (Z.eqb_neq r _)) by lia).
    rewrite (proj2 (Z.ltb_ge r _)) by lia. do 3 (rewrite (proj2 (Z.eqb_neq r _)) by lia).
    destruct (Z.eqb_spec r 8232) as [->|]; [by vm_compute|]. destruct (Z.eqb_spec r 8233) as [->|]; [by vm_compute|]. done.
Qed.

Lemma json_string_printable s c : byte_val c < 32 → free_of c (json_string s).
Proof.
  intros Hc. unfold json_string. rewrite !free_of_app.
  assert (free_of c dquote) as Hq.
  { unfold free_of. cbn. rewrite andb_true_r. apply negb_true_iff, Ascii.eqb_neq. intros ->. by vm_compute in Hc. }
  split; [done|]. split; [|done]. unfold free_of. rewrite string_all_concat. apply forallb_forall.
  intros x Hin%list_elem_of_In. apply list_elem_of_fmap in Hin as (ch&->&Hin).
  pose proof (chunks_ok s) as Hok. rewrite Forall_forall in Hok. by apply json_chunk_printable, Hok.
Qed.

(** ** UTF-8 text is closed under concatenation

    A rune that is spelled by valid bytes is decoded the same wherever it stands. *)
Definition whole_chunk (c : Z * list Z) : Prop :=
  bad_chunk c = false ∧ ∀ rest, decode_utf8 (c.2 ++ rest) = c :: decode_utf8 rest.

Lemma decode_utf8_whole l : Forall (λ c, bad_chunk c = false → whole_chunk c) (decode_utf8 l).
Proof.
  induction l as [l IH] using (induction_ltof1 _ length). unfold ltof in IH.
  destruct l as [|b0 t]; [constructor|]. pose proof (IH t ltac:(simpl; lia)) as IHt. cbn [decode_utf8].
  assert (Forall (λ c, bad_chunk c = false → whole_chunk c) ((RuneError, [b0]) :: decode_utf8 t)) as Hbad by (by constructor).
  assert (∀ c t', (length t' < S (length t))%nat → (∀ rest, decode_utf8 (c.2 ++ rest) = c :: decode_utf8 rest) →
    Forall (λ c, bad_chunk c = false → whole_chunk c) (c :: decode_utf8 t')) as Hstep.
  { intros c t' Hlt Hc. constructor; [by intros ?|]. by apply IH. }
  destruct (b0 <? 128) eqn:E0; [apply Hstep; [simpl; lia|]; intros rest; cbn [snd app decode_utf8]; by rewrite E0|].
  destruct t as [|b1 t1]; [done|]. destruct (in_range 194 223 b0 && cont b1) eqn:E1.
  { apply Hstep; [simpl; lia|]. intros rest. cbn [snd app decode_utf8]. by rewrite E0, E1. }
  destruct t1 as [|b2 t2]; [done|]. destruct (in_range 224 239 b0 && second_ok b0 b1 && cont b2) eqn:E2.
  { apply Hstep; [simpl; lia|]. intros rest. cbn [snd app decode_utf8]. by rewrite E0, E1, E2. }
  destruct t2 as [|b3 t3]; [done|]. destruct (in_range 240 244 b0 && second_ok b0 b1 && cont b2 && cont b3) eqn:E3; [|done].
  apply Hstep; [simpl; lia|]. intros rest. cbn [snd app decode_utf8]. by rewrite E0, E1, E2, E3.
Qed.

Lemma utf8_whole s : utf8_valid s = true → Forall whole_chunk (chunks s).
Proof.
  unfold utf8_valid. rewrite negb_true_iff. intros Hs. pose proof (decode_utf8_whole (bytes_of s)) as Hw.
  unfold chunks in *. rewrite Forall_forall in *. intros c Hc. apply Hw; [done|].
  destruct (bad_chunk c) eqn:E; [|done]. rewrite <-Hs. symmetry. apply existsb_elem_of. by exists c.
Qed.

Lemma decode_wholes l rest : Forall whole_chunk l → decode_utf8 (mjoin (snd <$> l) ++ rest) = l ++ decode_utf8 rest.
Proof. induction 1 as [|c l [_ Hc] Hl IH]; [done|]. rewrite fmap_cons, mjoin_cons, <-app_assoc, Hc, IH. done. Qed.

Lemma bytes_of_app a b : bytes_of (a +:+ b)%string = bytes_of a ++ bytes_of b.
Proof. unfold bytes_of. induction a as [|c a IH]; [done|]. rewrite string_app_cons. cbn. by rewrite <-IH. Qed.

Lemma chunks_app a b : utf8_valid a = true → chunks (a +:+ b)%string = chunks a ++ chunks b.
Proof.
  intros Ha. unfold chunks at 1. rewrite bytes_of_app.
  rewrite <-(proj2 (decode_utf8_spec (bytes_of a) (bytes_of_range a))). by apply decode_wholes, utf8_whole.
Qed.

Lemma utf8_valid_app a b : utf8_valid a = true → utf8_valid b = true → utf8_valid (a +:+ b)%string = true.
Proof.
  intros Ha Hb. unfold utf8_valid. rewrite chunks_app by done. rewrite existsb_app.
  unfold utf8_valid in *. apply negb_true_iff in Ha, Hb. by rewrite Ha, Hb.
Qed.

Lemma utf8_valid_concat l : Forall (λ s, utf8_valid s = true) l → utf8_valid (String.concat "" l) = true.
Proof. induction 1 as [|s l Hs Hl IH]; [done|]. rewrite concat_cons. by apply utf8_valid_app. Qed.

Lemma bytes_of_string l : Forall is_byte l → bytes_of (string_of_bytes l) = l.
Proof. induction 1 as [|b l Hb Hl IH]; [done|]. change (byte_val (byte_of b) :: bytes_of (string_of_bytes l) = b :: l). by rewrite byte_val_of, IH. Qed.

Lemma whole_valid c : whole_chunk c → chunk_ok c → utf8_valid (string_of_bytes c.2) = true.
Proof.
  intros [Hb Hc] Hok. unfold utf8_valid, chunks. rewrite bytes_of_string.
  - specialize (Hc []). rewrite app_nil_r in Hc. rewrite Hc. simpl. by rewrite Hb.
  - destruct Hok as [[Hr ->]|(_&_&Hh&_)]; [by repeat constructor; unfold is_byte; lia|]. eapply Forall_impl; [exact Hh|]. unfold is_byte. simpl. lia.
Qed.

(** A text all of whose runes are respelled by valid text is valid. *)
Lemma respelled_valid (f : Z * list Z → string) s :
  (∀ c, chunk_ok c → (bad_chunk c = false → utf8_valid (string_of_bytes c.2) = true) → utf8_valid (f c) = true) →
  utf8_valid (String.concat "" (f <$> chunks s)) = true.
Proof.
  intros Hf. apply utf8_valid_concat, Forall_fmap, Forall_forall. intros c Hc. simpl.
  pose proof (chunks_ok s) as Hok. pose proof (decode_utf8_whole (bytes_of s)) as Hw. rewrite Forall_forall in Hok, Hw.
  apply Hf; [by apply Hok|]. intros Hb. apply whole_valid; [by apply Hw|by apply Hok].
Qed.

Definition ascii_text (s : string) : bool := string_all (λ c, byte_val c <? 128) s.

Lemma ascii_utf8 s : ascii_text s = true → utf8_valid s = true.
Proof.
  unfold ascii_text. rewrite string_all_list, forallb_elem_of. intros Hall. unfold utf8_valid, chunks.
  rewrite decode_utf8_ascii by (apply bytes_of_forall; intros c Hc; specialize (Hall c Hc); bool_facts; lia).
  apply negb_true_iff. destruct (existsb _ _) eqn:E; [|done]. apply existsb_elem_of in E as (c&Hc&Hb).
  apply list_elem_of_fmap in Hc as (b&->&Hin). apply list_elem_of_fmap in Hin as (d&->&Hd). specialize (Hall d Hd).
  unfold bad_chunk, RuneError in Hb. simpl in Hb. bool_facts. lia.
Qed.

Lemma safe_id_ascii s : match_safe_id s = true → ascii_text s = true.
Proof.
  assert (∀ c, safe_id_byte c = true → (byte_val c <? 128) = true) as Hc.
  { intros c. unfold safe_id_byte, is_alnum, is_upper, is_lower, is_digit, in_range. intros H. apply Z.ltb_lt.
    repeat (apply orb_true_iff in H as [H|H]); bool_facts; try lia; apply Ascii.eqb_eq in H as ->; by vm_compute. }
  destruct s as [|c s]; simpl; [done|]. intros [[H1 H2]%andb_true_iff _]%andb_true_iff. unfold ascii_text. simpl.
  apply andb_true_iff. split; [apply Hc; unfold safe_id_byte; by rewrite H1|]. eapply string_all_impl; [exact Hc|done].
Qed.

Lemma decimal_ascii z : ascii_text (decimal z) = true.
Proof.
  eapply string_all_impl; [|apply decimal_bytes]. intros c. unfold decimal_byte, is_digit, in_range. intros Hc. apply Z.ltb_lt.
  apply orb_true_iff in Hc as [Hc|Hc]; bool_facts; [lia|]. apply Ascii.eqb_eq in Hc as ->. by vm_compute.
Qed.

Lemma hex_ascii s : string_all is_hex s = true → ascii_text s = true.
Proof.
  apply string_all_impl. intros c. unfold is_hex, is_digit, in_range. intros Hc. apply Z.ltb_lt.
  repeat (apply orb_true_iff in Hc as [Hc|Hc]); bool_facts; lia.
Qed.

(** ** XML text: [xml.EscapeText], and the escaping of attribute values *)
Definition xml_char_ok (r : Z) : bool :=
  (r =? 9) || (r =? 10) || (r =? 13) || in_range 32 55295 r || in_range 57344 65533 r || in_range 65536 1114111 r.

Definition xml_chunk (c : Z * list Z) : string :=
  let '(r, bs) := c in
  if r =? 34 then "&#34;" else if r =? 39 then "&#39;" else if r =? 38 then "&amp;"
  else if r =? 60 then "&lt;" else if r =? 62 then "&gt;"
  else if r =? 9 then "&#x9;" else if r =? 10 then "&#xA;" else if r =? 13 then "&#xD;"
  else if negb (xml_char_ok r) || bad_chunk c then string_of_bytes [239; 191; 189]
  else string_of_bytes bs%string.

Definition xml_escape (s : string) : string := String.concat "" (xml_chunk <$> chunks s).

(** Characters that XML can carry. *)
Definition xml_valid (s : string) : bool := forallb (λ c : Z * list Z, xml_char_ok c.1 && negb (bad_chunk c)) (chunks s).

(** A reader of character data: entities stand for their characters. *)
Definition xml_entity (e : string) : option string :=
  if String.eqb e "#34" then Some dquote else if String.eqb e "#39" then Some "'"%string
  else if String.eqb e "amp" then Some "&"%string else if String.eqb e "lt" then Some "<"%string
  else if String.eqb e "gt" then Some ">"%string else if String.eqb e "#x9" then Some (char 9)
  else if String.eqb e "#xA" then Some (char 10) else if String.eqb e "#xD" then Some (char 13) else None.

Fixpoint xml_read (entity : option string) (s : string) : option string :=
  match s with
  | EmptyString => match entity with None => Some EmptyString | Some _ => None end
  | String c s =>
    match entity with
    | None => if Ascii.eqb c "&"%char then xml_read (Some EmptyString) s else String c <$> xml_read None s
    | Some e =>
      if Ascii.eqb c ";"%char then t ← xml_entity e; String.append t <$> xml_read None s
      else xml_read (Some (e +:+ String c "")%string) s
    end
  end.

Lemma xml_read_plain bs rest : Forall (λ b, is_byte b ∧ b ≠ 38) bs →
  xml_read None (string_of_bytes bs +:+ rest)%string = String.append (string_of_bytes bs) <$> xml_read None rest.
Proof.
  induction 1 as [|b bs [Hb Hne] Hbs IH].
  { change (xml_read None rest = String.append "" <$> xml_read None rest). by destruct (xml_read None rest). }
  change (string_of_bytes (b :: bs)) with (String (byte_of b) (string_of_bytes bs)).
  rewrite string_app_cons. cbn [xml_read].
  destruct (Ascii.eqb_spec (byte_of b) "&"%char) as [Heq|_].
  { apply (f_equal byte_val) in Heq. rewrite byte_val_of in Heq by done. by vm_compute in Heq. }
  rewrite IH. by destruct (xml_read None rest).
Qed.

(** What a text becomes on its way through XML: a character that XML cannot carry, or a
    byte that is no UTF-8, arrives as the replacement character. *)
Definition carried_chunk (c : Z * list Z) : string :=
  if xml_char_ok c.1 && negb (bad_chunk c) then string_of_bytes c.2 else string_of_bytes [239; 191; 189].
Definition carried (s : string) : string := String.concat "" (carried_chunk <$> chunks s).

Lemma xml_chunk_reads c rest : chunk_ok c →
  xml_read None (xml_chunk c +:+ rest)%string = String.append (carried_chunk c) <$> xml_read None rest.
Proof.
  destruct c as [r bs]. intros Hok. unfold xml_chunk, carried_chunk. cbn [fst snd] in *.
  assert (r < 128 → bs = [r] ∧ 0 <= r) as Hsingle by (destruct Hok as [[? ?]|[? _]]; [simpl in *; split; [done|lia]|simpl in *; lia]).
  do 8 (match goal with |- context [r =? ?k] => destruct (Z.eqb_spec r k) as [->|] end; [destruct Hsingle as [-> _]; [lia|]; reflexivity|]).
  assert (negb (xml_char_ok r) || bad_chunk (r, bs) = negb (xml_char_ok r && negb (bad_chunk (r, bs)))) as ->
    by (by destruct (xml_char_ok r), (bad_chunk (r, bs))).
  destruct (xml_char_ok r && negb (bad_chunk (r, bs))); cbn [negb]; apply xml_read_plain.
  - destruct Hok as [[Hrange Heq]|(_&_&Hhigh&_)]; simpl in *.
    + subst bs. repeat constructor; unfold is_byte; lia.
    + eapply Forall_impl; [exact Hhigh|]. unfold is_byte. simpl. lia.
  - repeat constructor; unfold is_byte; lia.
Qed.

Lemma xml_escape_carries s : xml_read None (xml_escape s) = Some (carried s).
Proof.
  unfold xml_escape, carried. pose proof (chunks_ok s) as Hok. revert Hok.
  induction (chunks s) as [|c l IH]; [done|]. intros [Hc Hl]%Forall_cons.
  rewrite !fmap_cons, !concat_cons, xml_chunk_reads, IH by done. done.
Qed.

Lemma carried_valid s : xml_valid s = true → carried s = s.
Proof.
  unfold xml_valid, carried. rewrite <-(chunks_concat s) at 3. induction (chunks s) as [|c l IH]; [done|].
  intros [Hv Hvl]%andb_true_iff. rewrite !fmap_cons, !concat_cons, IH by done. unfold carried_chunk. by rewrite Hv.
Qed.

Lemma xml_escape_reads s : xml_valid s = true → xml_read None (xml_escape s) = Some s.
Proof. intros Hv. by rewrite xml_escape_carries, carried_valid. Qed.

Lemma carried_utf8 s : utf8_valid (carried s) = true.
Proof.
  apply respelled_valid. intros c _ Hc. unfold carried_chunk. destruct (xml_char_ok c.1 && negb (bad_chunk c)) eqn:E; [|done].
  apply andb_true_iff in E as [_ E]. apply Hc. by apply negb_true_iff in E.
Qed.

Lemma xml_escape_utf8 s : utf8_valid (xml_escape s) = true.
Proof.
  apply respelled_valid. intros [r bs] _ Hc. unfold xml_chunk.
  do 8 (match goal with |- context [r =? ?k] => destruct (r =? k) end; [by vm_compute|]).
  destruct (negb _ || bad_chunk _) eqn:E; [by vm_compute|]. apply orb_false_iff in E as [_ E]. by apply Hc.
Qed.

(** Printable ASCII is carried as it is. *)
Definition printable (c : ascii) : bool := (32 <=? byte_val c) && (byte_val c <? 127).

Lemma printable_valid s : string_all printable s = true → xml_valid s = true.
Proof.
  rewrite string_all_list, forallb_elem_of. intros Hall. unfold xml_valid, chunks.
  rewrite decode_utf8_ascii.
  - apply forallb_elem_of. intros c Hc. apply list_elem_of_fmap in Hc as (b&->&Hb).
    apply list_elem_of_fmap in Hb as (d&->&Hd). specialize (Hall d Hd). unfold printable in Hall. bool_facts.
    unfold xml_char_ok, bad_chunk, in_range, RuneError. cbn [fst snd].
    rewrite (proj2 (Z.leb_le 32 _)), (proj2 (Z.leb_le (byte_val d) 55295)), (proj2 (Z.eqb_neq (byte_val d) 65533)) by lia.
    cbn. by rewrite orb_true_r.
  - apply bytes_of_forall. intros c Hc. specialize (Hall c Hc). unfold printable in Hall. bool_facts. lia.
Qed.

(** Escaped text has no markup left in it. *)
Definition markup (c : ascii) : bool :=
  existsb (λ z, byte_val c =? z) [34; 39; 60; 62; 9; 10; 13].

Lemma xml_chunk_free c ch : markup c = true → chunk_ok ch → free_of c (xml_chunk ch).
Proof.
  intros Hc Hok. destruct ch as [r bs]. unfold free_of.
  assert (∀ s, string_all (λ d, negb (markup d)) s = true → string_all (λ d, negb (Ascii.eqb c d)) s = true) as Hlift.
  { intros s. apply string_all_impl. intros d Hd%negb_true_iff. apply negb_true_iff, Ascii.eqb_neq. intros ->. congruence. }
  apply Hlift. clear c Hc Hlift. unfold xml_chunk.
  do 8 (match goal with |- context [r =? ?k] => destruct (Z.eqb_spec r k) as [->|] end; [done|]).
  destruct (negb _ || _); [done|]. rewrite string_all_bytes. apply forallb_forall. intros b Hin%list_elem_of_In.
  assert (is_byte b ∧ Forall (λ z, b ≠ z) [34; 39; 60; 62; 9; 10; 13]) as [Hb Hne].
  { destruct Hok as [[Hrange Heq]|(_&_&Hhigh&_)]; cbn [fst snd] in *.
    - subst bs. apply list_elem_of_singleton in Hin as ->. split; [unfold is_byte; lia|]. repeat constructor; lia.
    - rewrite Forall_forall in Hhigh. specialize (Hhigh b Hin). split; [unfold is_byte; lia|]. repeat constructor; lia. }
  unfold markup. rewrite byte_val_of by done. apply negb_true_iff.
  destruct (existsb _ _) eqn:E; [|done]. apply existsb_exists in E as (z&Hz&Heq%Z.eqb_eq). apply list_elem_of_In in Hz.
  rewrite Forall_forall in Hne. by destruct (Hne z Hz).
Qed.

Lemma xml_escape_free c s : markup c = true → free_of c (xml_escape s).
Proof.
  intros Hc. unfold xml_escape, free_of. rewrite string_all_concat. apply forallb_forall.
  intros x Hin%list_elem_of_In. apply list_elem_of_fmap in Hin as (ch&->&Hin).
  pose proof (chunks_ok s) as Hok. rewrite Forall_forall in Hok. by apply xml_chunk_free, Hok.
Qed.

(** ** JSON objects of strings, numbers and lists of strings

    What the program hashes and journals: [json.Marshal] of a struct whose fields are of
    these kinds.  The text determines the fields. *)
Inductive json_value := FString (s : string) | FInt (z : Z) | FStrings (l : list string).

Definition json_strings (l : list string) : string := ("[" +:+ join "," (json_string <$> l) +:+ "]")%string.
Definition value_text (v : json_value) : string :=
  match v with FString s => json_string s | FInt z => decimal z | FStrings l => json_strings l end.
Definition field_text (f : string * json_value) : string := (json_string f.1 +:+ ":" +:+ value_text f.2)%string.
Definition json_object (fields : list (string * json_value)) : string :=
  ("{" +:+ join "," (field_text <$> fields) +:+ "}")%string.

(** Fields with [omitempty]. *)
Definition text_field (key s : string) : list (string * json_value) :=
  if bool_decide (s = ""%string) then [] else [(key, FString s)].
Definition list_field (key : string) (l : list string) : list (string * json_value) :=
  if bool_decide (l = []) then [] else [(key, FStrings l)].

Definition value_valid (v : json_value) : bool :=
  match v with FString s => utf8_valid s | FInt _ => true | FStrings l => forallb utf8_valid l end.
Definition field_valid (f : string * json_value) : bool := utf8_valid f.1 && value_valid f.2.

Lemma string_app_assoc' (a b c : string) : (a +:+ (b +:+ c) = (a +:+ b) +:+ c)%string.
Proof. symmetry. apply string_app_assoc. Qed.

(** A list of elements, each recognised by its own text, up to a closing byte. *)
Section joined.
Context {A : Type} (enc : A → string) (ok : A → Prop) (close : ascii) (Hclose : close ≠ ","%char).
Definition ends (r : string) : Prop := ∃ c t, r = String c t ∧ (c = ","%char ∨ c = close).
Context (Henc : ∀ a b r1 r2, ok a → ok b → ends r1 → ends r2 → (enc a +:+ r1 = enc b +:+ r2)%string → a = b ∧ r1 = r2).
Context (Hstart : ∀ a, ok a → ∃ c t, enc a = String c t ∧ c ≠ close).

Definition tail_text (l : list A) (r : string) : string :=
  match l with
  | [] => String close r
  | a :: l => ("," +:+ join "," (enc <$> a :: l) +:+ String close r)%string
  end.

Lemma join_cons_text a l r : (join "," (enc <$> a :: l) +:+ String close r = enc a +:+ tail_text l r)%string.
Proof.
  destruct l as [|b l]; [done|].
  change (join "," (enc <$> a :: b :: l)) with (enc a +:+ ("," +:+ join "," (enc <$> b :: l)))%string.
  by rewrite !string_app_assoc.
Qed.

Lemma tail_ends l r : ends (tail_text l r).
Proof. destruct l as [|a l]; [exists close, r; auto|]. eexists ","%char, _. split; [reflexivity|auto]. Qed.

Lemma tail_inj l k r1 r2 : Forall ok l → Forall ok k → tail_text l r1 = tail_text k r2 → l = k ∧ r1 = r2.
Proof.
  intros Hl. revert k. induction Hl as [|a l Ha Hl IH]; intros k Hk Heq; destruct Hk as [|b k Hb Hk].
  - by injection Heq.
  - injection Heq as Hc _. by destruct Hclose.
  - injection Heq as Hc _. by destruct Hclose.
  - unfold tail_text in Heq. rewrite !join_cons_text in Heq. injection Heq as Heq.
    apply Henc in Heq as [-> Heq]; [|done|done|apply tail_ends|apply tail_ends]. by destruct (IH k Hk Heq) as [-> ->].
Qed.

Lemma joined_inj l k r1 r2 : Forall ok l → Forall ok k →
  (join "," (enc <$> l) +:+ String close r1 = join "," (enc <$> k) +:+ String close r2)%string → l = k ∧ r1 = r2.
Proof.
  assert (∀ a k r1 r2, ok a → String close r1 ≠ (enc a +:+ tail_text k r2)%string) as Hno.
  { intros a k' r r' Ha Heq. destruct (Hstart a Ha) as (c&t&He&Hne). rewrite He in Heq. by injection Heq as ?. }
  intros [|a l' Ha Hl] [|b k' Hb Hk]; [by intros [= ->]| | |]; rewrite ?join_cons_text; intros Heq.
  - by apply Hno in Heq.
  - symmetry in Heq. by apply Hno in Heq.
  - apply Henc in Heq as [-> Heq]; [|done|done|apply tail_ends|apply tail_ends].
    by apply tail_inj in Heq as [-> ->].
Qed.
End joined.

Lemma json_string_starts s : ∃ t, json_string s = String (byte_of 34) t.
Proof. by eexists. Qed.

Lemma json_strings_inj l k r1 r2 : forallb utf8_valid l = true → forallb utf8_valid k = true →
  (json_strings l +:+ r1 = json_strings k +:+ r2)%string → l = k ∧ r1 = r2.
Proof.
  intros Hl Hk. unfold json_strings. rewrite !string_app_assoc. intros [= Heq].
  apply (joined_inj json_string (λ s, utf8_valid s = true) "]"%char) in Heq; [done|done| | | |].
  - intros a b s t Ha Hb _ _. by apply json_string_inj_rest.
  - intros a _. destruct (json_string_starts a) as [t Ht]. by eexists _, t.
  - apply Forall_forall. intros x Hx. by apply (proj1 (forallb_elem_of _ _) Hl).
  - apply Forall_forall. intros x Hx. by apply (proj1 (forallb_elem_of _ _) Hk).
Qed.

Lemma all_prefix_inj (f : ascii → bool) a b c d r1 r2 :
  string_all f a = true → string_all f b = true → f c = false → f d = false →
  (a +:+ String c r1 = b +:+ String d r2)%string → a = b ∧ String c r1 = String d r2.
Proof.
  revert b. induction a as [|x a IH]; intros [|y b] Ha Hb Hc Hd; rewrite ?string_app_cons, ?string_app_nil; intros Heq.
  - done.
  - injection Heq as -> _. simpl in Hb. rewrite Hc in Hb. done.
  - injection Heq as <- _. simpl in Ha. rewrite Hd in Ha. done.
  - simpl in *. apply andb_true_iff in Ha as [_ Ha], Hb as [_ Hb]. injection Heq as -> Heq. by destruct (IH b Ha Hb Hc Hd Heq) as [-> ->].
Qed.

Lemma decimal_nonempty z : decimal z ≠ ""%string.
Proof.
  assert (∀ (n : N) s, s ≠ ""%string → pretty_N_go n s ≠ ""%string) as Hgo.
  { induction n as [n IH] using (well_founded_induction N.lt_wf_0). intros s Hs. destruct (decide (n = 0)%N) as [->|].
    - by rewrite pretty_N_go_0.
    - rewrite pretty_N_go_step by lia. apply IH; [apply N.div_lt; lia|done]. }
  assert (∀ n, pretty_N n ≠ ""%string) as Hn.
  { intros n. unfold pretty_N. case_decide; [done|]. rewrite pretty_N_go_step by lia. by apply Hgo. }
  unfold decimal, pretty, pretty_Z. destruct z as [|p|p]; [done|apply Hn|done].
Qed.

Lemma value_starts v : ∃ c t, value_text v = String c t ∧
  match v with FString _ => c = byte_of 34 | FInt _ => decimal_byte c = true | FStrings _ => c = "["%char end.
Proof.
  destruct v as [s|z|l]; [by eexists _, _| |by eexists _, _].
  simpl. pose proof (decimal_bytes z) as Hd. destruct (decimal z) as [|c t] eqn:E; [by destruct (decimal_nonempty z)|].
  exists c, t. split; [done|]. by apply andb_true_iff in Hd as [? _].
Qed.

Lemma value_inj close v w r1 r2 : decimal_byte close = false → value_valid v = true → value_valid w = true →
  ends close r1 → ends close r2 → (value_text v +:+ r1 = value_text w +:+ r2)%string → v = w ∧ r1 = r2.
Proof.
  intros Hcl Hv Hw He1 He2 Heq.
  assert (∀ a b ra rb, (String a ra = String b rb)%string → a = b) as Hhd by (intros ???? [= ->]; done).
  destruct v as [s|x|l], w as [t|y|k]; try (exfalso;
    match type of Heq with (value_text ?a +:+ _ = value_text ?b +:+ _)%string =>
      destruct (value_starts a) as (c1&t1&E1&P1), (value_starts b) as (c2&t2&E2&P2) end;
    rewrite E1, E2, !string_app_cons in Heq; apply Hhd in Heq as <-; simpl in P1, P2; congruence || (subst; by vm_compute in P1 || by vm_compute in P2)).
  - simpl in *. by apply json_string_inj_rest in Heq as [-> ->].
  - destruct He1 as (c&t1&->&Hc), He2 as (d&t2&->&Hd). simpl in Heq.
    apply (all_prefix_inj decimal_byte) in Heq as [Hxy ->]; [|apply decimal_bytes|apply decimal_bytes| |].
    + apply (inj decimal) in Hxy as ->. done.
    + by destruct Hc as [-> | ->].
    + by destruct Hd as [-> | ->].
  - simpl in *. by apply json_strings_inj in Heq as [-> ->].
Qed.

Lemma field_inj f g r1 r2 : field_valid f = true → field_valid g = true →
  ends "}"%char r1 → ends "}"%char r2 → (field_text f +:+ r1 = field_text g +:+ r2)%string → f = g ∧ r1 = r2.
Proof.
  destruct f as [k v], g as [k' v']. unfold field_valid, field_text. simpl. intros [Hk Hv]%andb_true_iff [Hk' Hv']%andb_true_iff He1 He2.
  rewrite !string_app_assoc. intros Heq. apply json_string_inj_rest in Heq as [-> Heq]; [|done|done].
  injection Heq as Heq. by apply (value_inj "}"%char) in Heq as [-> ->].
Qed.

Lemma json_object_inj fs gs : forallb field_valid fs = true → forallb field_valid gs = true →
  json_object fs = json_object gs → fs = gs.
Proof.
  intros Hf Hg. unfold json_object. intros [= Heq].
  apply (joined_inj field_text (λ f, field_valid f = true) "}"%char) in Heq as [? _]; [done|done| | | |].
  - intros a b s t. apply field_inj.
  - intros [k v] _. by eexists _, _.
  - apply Forall_forall. intros x Hx. by apply (proj1 (forallb_elem_of _ _) Hf).
  - apply Forall_forall. intros x Hx. by apply (proj1 (forallb_elem_of _ _) Hg).
Qed.

(** The text of a field that is a string; an absent field reads as the empty string. *)
Fixpoint field_of (key : string) (fields : list (string * json_value)) : string :=
  match fields with
  | [] => ""
  | (k, v) :: fields =>
    if String.eqb key k then match v with FString s => s | _ => "" end else field_of key fields
  end%string.

Lemma field_of_text key k s fields :
  field_of key (text_field k s ++ fields) =
  if String.eqb key k then (if bool_decide (s = ""%string) then field_of key fields else s) else field_of key fields.
Proof. unfold text_field. case_bool_decide; simpl; by destruct (String.eqb key k). Qed.
Lemma field_of_last key k s : field_of key (text_field k s) = if String.eqb key k then s else ""%string.
Proof. unfold text_field. case_bool_decide; simpl; subst; by destruct (String.eqb key k). Qed.

Lemma text_field_valid key s : utf8_valid key = true → utf8_valid s = true → forallb field_valid (text_field key s) = true.
Proof. intros Hk Hs. unfold text_field. case_bool_decide; [done|]. simpl. unfold field_valid. simpl. by rewrite Hk, Hs. Qed.
Lemma list_field_valid key l : utf8_valid key = true → forallb utf8_valid l = true → forallb field_valid (list_field key l) = true.
Proof. intros Hk Hl. unfold list_field. case_bool_decide; [done|]. simpl. unfold field_valid. simpl. by rewrite Hk, Hl. Qed.

(** ** The fields of [url.URL] that the clients check *)
Record URL := mkURL {
  Scheme : string;
  Opaque : string;
  URL_User : option string;
  Host : string;
  Path : string;
  RawPath : string;
  ForceQuery : bool;
  RawQuery : string;
  Fragment : string;
}.
