(* ===== verification/Strconv.v ===== *)
(** * Numbers, words, names and lines of text

    [strconv.Atoi], [strconv.ParseUint] and [strconv.ParseBool], [strings.Fields],
    [strings.Trim] and [strings.EqualFold], [URL.Hostname], and [bufio.Scanner] over lines. *)

From S2P Require Import Prelude Bytes Text.

(** ** Numbers *)

Fixpoint digits_value (acc : Z) (s : string) : option Z :=
  match s with
  | EmptyString => Some acc
  | String c s => if is_digit c then digits_value (10 * acc + (byte_val c - 48)) s else None
  end.
Definition unsigned_value (s : string) : option Z := if bool_decide (s = ""%string) then None else digits_value 0 s.

(** [strconv.Atoi] *)
Definition Atoi (s : string) : option Z :=
  z ← match s with
      | String c rest =>
        if Ascii.eqb c "-"%char then Z.opp <$> unsigned_value rest
        else if Ascii.eqb c "+"%char then unsigned_value rest else unsigned_value s
      | EmptyString => None
      end;
  if in_int64 z then Some z else None.

(** [strconv.ParseUint(s, 10, 64)] *)
Definition ParseUint64 (s : string) : option Z :=
  z ← unsigned_value s; if z <? 2^64 then Some z else None.

(** [strconv.ParseBool] *)
Definition ParseBool (s : string) : option bool :=
  if bool_decide (s ∈ ["1"; "t"; "T"; "true"; "TRUE"; "True"]%string) then Some true
  else if bool_decide (s ∈ ["0"; "f"; "F"; "false"; "FALSE"; "False"]%string) then Some false
  else None.

Lemma Atoi_in_int64 s z : Atoi s = Some z → in_int64 z = true.
Proof.
  unfold Atoi. match goal with |- (m ← ?o; _) = _ → _ => destruct o as [v|]; [|done] end. simpl.
  destruct (in_int64 v) eqn:Hv; [|done]. by intros [= <-].
Qed.

Lemma digits_value_nonneg s acc z : 0 <= acc → digits_value acc s = Some z → 0 <= z.
Proof.
  revert acc. induction s as [|c s IH]; intros acc Hacc; simpl; [by intros [= <-]|].
  unfold is_digit, in_range. destruct (48 <=? byte_val c) eqn:Hc; simpl; [|done]. destruct (byte_val c <=? 57); [|done].
  apply IH. lia.
Qed.

Lemma ParseUint64_range s z : ParseUint64 s = Some z → 0 <= z < 2^64.
Proof.
  unfold ParseUint64, unsigned_value. case_bool_decide; [done|]. destruct (digits_value 0 s) as [v|] eqn:Hv; [|done]. simpl.
  destruct (Z.ltb_spec v (2^64)); [|done]. intros [= <-]. split; [|done]. by eapply digits_value_nonneg.
Qed.

(** ** Words *)

(** [strings.Fields]: [word] is the word being read. *)
Fixpoint fields_from (word : list Z) (cs : list (Z * list Z)) : list string :=
  match cs with
  | [] => if bool_decide (word = []) then [] else [string_of_bytes word]
  | (r, bs) :: cs =>
    if is_space r then (if bool_decide (word = []) then [] else [string_of_bytes word]) ++ fields_from [] cs
    else fields_from (word ++ bs) cs
  end.
Definition Fields (s : string) : list string := fields_from [] (chunks s).

Fixpoint trim_left_byte (c : ascii) (s : string) : string :=
  match s with
  | EmptyString => EmptyString
  | String d t => if Ascii.eqb c d then trim_left_byte c t else s
  end.
Definition string_rev (s : string) : string := String.string_of_list_ascii (reverse (String.list_ascii_of_string s)).

(** [strings.Trim] of one byte *)
Definition trim_byte (c : ascii) (s : string) : string :=
  string_rev (trim_left_byte c (string_rev (trim_left_byte c s))).

(** [strings.TrimPrefix] and [strings.TrimSuffix] *)
Definition trim_prefix (s p : string) : string := default s (cut_prefix s p).
Definition trim_suffix (s p : string) : string :=
  if has_suffix s p then take_string (String.length s - String.length p) s else s.

(** ** Folding *)

(** [strings.EqualFold]: besides the two cases of a letter, the long s and the Kelvin sign
    fold to s and k. *)
Definition fold_rune (r : Z) : Z :=
  if in_range 65 90 r then r + 32 else if r =? 383 then 115 else if r =? 8490 then 107 else r.
Definition EqualFold_ascii (s ascii : string) : bool := bool_decide (fold_rune <$> runes s = fold_rune <$> runes ascii).

(** [URL.Hostname]: the host without a port and without brackets. *)
Definition Hostname_of (host : string) : string :=
  let host := match cut_last ":"%char host with Some (h, port) => if string_all is_digit port then h else host | None => host end in
  match host with
  | String "["%char rest => if has_suffix host "]" then take_string (String.length rest - 1) rest else host
  | _ => host
  end.

(** ** Lines *)

(** [bufio.Scanner] over lines with a buffer of [limit] bytes: the lines without their
    end of line, up to one that does not fit, and whether there was one. *)
Definition drop_cr (line : string) : string :=
  match cut_prefix (string_rev line) (char 13) with Some rest => string_rev rest | None => line end.

Fixpoint scan_until_long (limit : Z) (lines : list string) : list string * bool :=
  match lines with
  | [] => ([], false)
  | line :: lines =>
    if limit <=? slen line then ([], true)
    else let '(ls, long) := scan_until_long limit lines in (drop_cr line :: ls, long)
  end.

(** A final empty piece is the end of the text, not a line. *)
Definition scan_lines (limit : Z) (body : string) : list string * bool :=
  let lines := split_byte (byte_of 10) body in
  scan_until_long limit (match reverse lines with ""%string :: rest => reverse rest | _ => lines end).

(** [bufio.MaxScanTokenSize], the buffer of a scanner that is given none *)
Definition MaxScanTokenSize : Z := 64 * 1024.

Example atoi_signs : (Atoi "-12", Atoi "+7", Atoi "", Atoi "1_0", Atoi "9223372036854775808") = (Some (-12), Some 7, None, None, None).
Proof. vm_compute. reflexivity. Qed.
Example fields_text : Fields ("  a.service " +:+ char 9 +:+ "loaded")%string = ["a.service"; "loaded"]%string.
Proof. vm_compute. reflexivity. Qed.
Example trims : (trim_byte "'"%char "''a'b'", trim_prefix ".1.3" ".", trim_suffix "a.service" ".service") = ("a'b", "1.3", "a")%string.
Proof. vm_compute. reflexivity. Qed.
Example lines_text : scan_lines MaxScanTokenSize ("a" +:+ char 13 +:+ char 10 +:+ char 10 +:+ "b")%string = (["a"; ""; "b"]%string, false).
Proof. vm_compute. reflexivity. Qed.
