(* ===== verification/Sha256.v ===== *)
(** * [crypto/sha256]

    SHA-256 (FIPS 180-4) over lists of bytes, executable, so that the stable
    identifiers, audit hashes, lease digests and partition keys of the program
    are computed rather than postulated.  Theorems never assume collision
    freedom: a theorem that needs it exhibits the colliding inputs instead. *)

From S2P Require Import Prelude Bytes.

Definition w32 (z : Z) : Z := z mod 2^32.
Definition rotr (n x : Z) : Z := w32 (Z.lor (Z.shiftr x n) (Z.shiftl x (32 - n))).
Definition Ch (x y z : Z) : Z := Z.lxor (Z.land x y) (Z.land (Z.lxor x (2^32 - 1)) z).
Definition Maj (x y z : Z) : Z := Z.lxor (Z.lxor (Z.land x y) (Z.land x z)) (Z.land y z).
Definition Sigma0 x : Z := Z.lxor (Z.lxor (rotr 2 x) (rotr 13 x)) (rotr 22 x).
Definition Sigma1 x : Z := Z.lxor (Z.lxor (rotr 6 x) (rotr 11 x)) (rotr 25 x).
Definition sigma0 x : Z := Z.lxor (Z.lxor (rotr 7 x) (rotr 18 x)) (Z.shiftr x 3).
Definition sigma1 x : Z := Z.lxor (Z.lxor (rotr 17 x) (rotr 19 x)) (Z.shiftr x 10).

(** The constants are the first 32 bits of the fractional parts of the cube
    (square) roots of the first 64 (8) primes; they are computed here by bisection
    rather than listed. *)
Definition is_prime (n : Z) : bool :=
  forallb (λ d, negb (n mod d =? 0)) (seqZ 2 (n - 2)).
Definition primes64 : list Z := Eval vm_compute in base.filter is_prime (seqZ 2 310).

(** The largest [r < 2^(k+1)] above [lo] with [f r <= x], bit by bit. *)
Fixpoint bisect (f : Z → Z) (x : Z) (k : nat) (lo : Z) : Z :=
  let mid := lo + 2^(Z.of_nat k) in
  let lo' := if f mid <=? x then mid else lo in
  match k with O => lo' | S k => bisect f x k lo' end.

Definition K256 : list Z := Eval vm_compute in
  (λ p, bisect (λ r, r * r * r) (p * 2^96) 40 0 mod 2^32) <$> primes64.
Definition H256 : list Z := Eval vm_compute in
  (λ p, bisect (λ r, r * r) (p * 2^64) 40 0 mod 2^32) <$> take 8 primes64.

Definition pad (msg : list Z) : list Z :=
  let len := llen msg in
  msg ++ [128] ++ repeat 0 (Z.to_nat ((55 - len) mod 64)) ++ be_bytes 8 (8 * len).

Fixpoint words_of (l : list Z) : list Z :=
  match l with
  | a :: b :: c :: d :: l => (a * 2^24 + b * 2^16 + c * 2^8 + d) :: words_of l
  | _ => []
  end.

(** The message schedule, newest word first. *)
Fixpoint schedule (n : nat) (rev_w : list Z) : list Z :=
  match n with
  | O => rev_w
  | S n =>
    let w i := nth i rev_w 0 in
    schedule n (w32 (sigma1 (w 1%nat) + w 6%nat + sigma0 (w 14%nat) + w 15%nat) :: rev_w)
  end.

Definition round (st : list Z) (kw : Z * Z) : list Z :=
  match st with
  | [a; b; c; d; e; f; g; h] =>
    let t1 := h + Sigma1 e + Ch e f g + kw.1 + kw.2 in
    let t2 := Sigma0 a + Maj a b c in
    [w32 (t1 + t2); a; b; c; w32 (d + t1); e; f; g]
  | _ => st
  end.

Definition compress (st block : list Z) : list Z :=
  let w := reverse (schedule 48 (reverse block)) in
  zip_with (λ x y, w32 (x + y)) st (fold_left round (zip K256 w) st).

Fixpoint blocks (fuel : nat) (ws : list Z) (st : list Z) : list Z :=
  match fuel, ws with
  | S fuel, _ :: _ => blocks fuel (drop 16 ws) (compress st (take 16 ws))
  | _, _ => st
  end.

(** [sha256.Sum256]: 32 bytes. *)
Definition Sum256 (msg : list Z) : list Z :=
  let ws := words_of (pad msg) in
  mjoin (be_bytes 4 <$> blocks (length ws) ws H256).

(** The two uses of the program: the full digest, and its first [n] bytes, in
    lowercase hexadecimal. *)
Definition sha256_hex (s : string) : string := hex_encode (Sum256 (bytes_of s)).
Definition sha256_hex_prefix (n : nat) (s : string) : string :=
  hex_encode (take n (Sum256 (bytes_of s))).

(** ** The digest has 32 bytes *)

Lemma round_length st kw : length st = 8%nat → length (round st kw) = 8%nat.
Proof.
  intros. unfold round. destruct st as [|a [|b [|c [|d [|e [|f [|g [|h [|]]]]]]]]]; done.
Qed.

Lemma rounds_length kws st : length st = 8%nat → length (fold_left round kws st) = 8%nat.
Proof.
  revert st. induction kws as [|kw kws IH]; intros st H; simpl; [done|].
  by apply IH, round_length.
Qed.

Lemma compress_length st block : length st = 8%nat → length (compress st block) = 8%nat.
Proof. intros H. unfold compress. rewrite length_zip_with, rounds_length, H; done. Qed.

Lemma blocks_length fuel ws st : length st = 8%nat → length (blocks fuel ws st) = 8%nat.
Proof.
  revert ws st. induction fuel as [|fuel IH]; intros [|w ws] st H; simpl; try done.
  by apply IH, compress_length.
Qed.

Lemma bytes_of_words_length st : length (mjoin (be_bytes 4 <$> st)) = (4 * length st)%nat.
Proof.
  induction st as [|w st IH]; [done|].
  rewrite fmap_cons. change (mjoin (be_bytes 4 w :: (be_bytes 4 <$> st))) with (be_bytes 4 w ++ mjoin (be_bytes 4 <$> st)).
  rewrite length_app, be_bytes_length, IH. simpl. lia.
Qed.

Lemma Sum256_length msg : length (Sum256 msg) = 32%nat.
Proof.
  unfold Sum256. set (ws := words_of _).
  by rewrite bytes_of_words_length, (blocks_length _ ws H256).
Qed.

Lemma sha256_hex_length s : String.length (sha256_hex s) = 64%nat.
Proof. unfold sha256_hex. rewrite hex_encode_length, Sum256_length. done. Qed.

Lemma Sum256_range msg : Forall (λ b, 0 <= b < 256) (Sum256 msg).
Proof.
  unfold Sum256. induction (blocks _ _ _) as [|w st IH]; [constructor|]. rewrite fmap_cons.
  change (mjoin (be_bytes 4 w :: (be_bytes 4 <$> st))) with (be_bytes 4 w ++ mjoin (be_bytes 4 <$> st)).
  apply Forall_app. split; [apply be_bytes_range|exact IH].
Qed.

Lemma sha256_hex_decodable s : hex_decodable (sha256_hex s) = true.
Proof.
  unfold hex_decodable. apply andb_true_iff. split; [unfold slen; by rewrite sha256_hex_length|].
  apply hex_encode_bytes; [|apply Sum256_range]. apply hex_digit_hex.
Qed.

Lemma sha256_hex_prefix_length n s :
  (n ≤ 32)%nat → String.length (sha256_hex_prefix n s) = (2 * n)%nat.
Proof.
  intros. unfold sha256_hex_prefix.
  rewrite hex_encode_length, length_take, Sum256_length. lia.
Qed.

(** ** Test vectors of FIPS 180-4 *)

Example sha256_empty :
  sha256_hex "" = "e3b0c44298fc1c149afbf4c8996fb92427ae41e4649b934ca495991b7852b855"%string.
Proof. vm_compute. reflexivity. Qed.

Example sha256_abc :
  sha256_hex "abc" = "ba7816bf8f01cfea414140de5dae2223b00361a396177a9cb410ff61f20015ad"%string.
Proof. vm_compute. reflexivity. Qed.

Example sha256_two_blocks :
  sha256_hex "abcdbcdecdefdefgefghfghighijhijkijkljklmklmnlmnomnopnopq" =
  "248d6a61d20638b8e5c026930c3e6039a33ce45964ff2167f6ecedd419db06c1"%string.
Proof. vm_compute. reflexivity. Qed.

#[global] Opaque Sum256.
