(* ===== verification/Time.v ===== *)
(** * [time]: instants and durations

    An instant is a number of nanoseconds since the zero time, 1 January of
    year 1 UTC, so that [IsZero] is equality with 0 and [Before]/[After]/[Equal]
    are the order of [Z].  Locations do not matter: every instant the program
    stores or prints goes through [UTC()].  A duration is a number of
    nanoseconds in the range of [int64]. *)

From S2P Require Import Prelude Bytes.

Abbreviation time := Z (only parsing).
Abbreviation duration := Z (only parsing).

Definition Nanosecond : duration := 1.
Definition Millisecond : duration := 1000000.
Definition Second : duration := 1000000000.
Definition Minute : duration := 60 * Second.
Definition Hour : duration := 60 * Minute.

Definition zero_time : time := 0.
Definition IsZero (t : time) : bool := t =? zero_time.
Definition Before (t u : time) : bool := t <? u.
Definition After (t u : time) : bool := u <? t.
Definition Equal (t u : time) : bool := t =? u.
Definition Add (t : time) (d : duration) : time := t + d.

(** [t.Sub(u)] saturates at the bounds of a duration. *)
Definition Sub (t u : time) : duration := Z.max int64_min (Z.min int64_max (t - u)).

(** ** [t.UTC().Format(time.RFC3339Nano)] *)

(** Civil date of a day number counted from 1 January of year 1 (proleptic
    Gregorian calendar). *)
Definition days_before_year (y : Z) : Z :=
  let p := y - 1 in 365 * p + p / 4 - p / 100 + p / 400.

Definition leap (y : Z) : bool :=
  (y mod 4 =? 0) && negb ((y mod 100 =? 0) && negb (y mod 400 =? 0)).

(** Walks up from a year that is not past the day. *)
Fixpoint year_up (d : Z) (n : nat) (y : Z) : Z :=
  match n with
  | O => y
  | S n => if days_before_year (y + 1) <=? d then year_up d n (y + 1) else y
  end.
Definition year_of_day (d : Z) : Z := year_up d (Z.to_nat (d / 100000 + 3)) (d / 366 + 1).

Definition month_lengths (y : Z) : list Z :=
  [31; if leap y then 29 else 28; 31; 30; 31; 30; 31; 31; 30; 31; 30; 31].

Fixpoint month_of (ls : list Z) (m d : Z) : Z * Z :=
  match ls with
  | l :: ls => if d <? l then (m, d + 1) else month_of ls (m + 1) (d - l)
  | [] => (m, d + 1)
  end.

(** The fractional second, without trailing zeros. *)
Fixpoint strip_zeros (l : list ascii) : list ascii :=
  match l with
  | c :: l' => if Ascii.eqb c "0"%char then strip_zeros l' else l
  | [] => []
  end.

Definition fraction (ns : Z) : string :=
  if ns =? 0 then "" else
  ("." +:+ String.string_of_list_ascii
     (reverse (strip_zeros (reverse (String.list_ascii_of_string (decimal_pad 9 ns))))))%string.

Definition RFC3339Nano (t : time) : string :=
  let secs := t / Second in
  let day := secs / 86400 in
  let sod := secs mod 86400 in
  let y := year_of_day day in
  let '(m, d) := month_of (month_lengths y) 1 (day - days_before_year y) in
  (decimal_pad 4 y +:+ "-" +:+ decimal_pad 2 m +:+ "-" +:+ decimal_pad 2 d +:+ "T"
   +:+ decimal_pad 2 (sod / 3600) +:+ ":" +:+ decimal_pad 2 (sod / 60 mod 60) +:+ ":"
   +:+ decimal_pad 2 (sod mod 60) +:+ fraction (t mod Second) +:+ "Z")%string.

(** The Unix epoch, for tests and examples. *)
Definition unix (secs nsec : Z) : time := (62135596800 + secs) * Second + nsec.

Example rfc3339_epoch : RFC3339Nano (unix 0 0) = "1970-01-01T00:00:00Z"%string.
Proof. vm_compute. reflexivity. Qed.
Example rfc3339_leap : RFC3339Nano (unix 1709210096 120000000) = "2024-02-29T12:34:56.12Z"%string.
Proof. vm_compute. reflexivity. Qed.
Example rfc3339_year_end : RFC3339Nano (unix 1735689599 1) = "2024-12-31T23:59:59.000000001Z"%string.
Proof. vm_compute. reflexivity. Qed.
Example rfc3339_zero : RFC3339Nano zero_time = "0001-01-01T00:00:00Z"%string.
Proof. vm_compute. reflexivity. Qed.

(** A formatted instant contains no zero byte. *)
Lemma strip_zeros_elem l c : c ∈ strip_zeros l → c ∈ l.
Proof. induction l as [|d l IH]; simpl; [done|]. case_match; set_solver. Qed.

Lemma fraction_free ns : free_of "000"%char (fraction ns).
Proof.
  unfold fraction. case_match; [done|]. rewrite free_of_app. split; [done|].
  unfold free_of. rewrite string_all_list, String.list_ascii_of_string_of_list_ascii.
  apply forallb_elem_of. intros c Hc. rewrite elem_of_reverse in Hc.
  apply strip_zeros_elem in Hc. rewrite elem_of_reverse in Hc.
  pose proof (decimal_pad_free "000"%char 9 ns eq_refl) as Hf. unfold free_of in Hf.
  rewrite string_all_list, forallb_elem_of in Hf. by apply Hf.
Qed.

Lemma RFC3339Nano_free t : free_of "000"%char (RFC3339Nano t).
Proof.
  unfold RFC3339Nano. destruct (month_of _ _ _) as [m d]. rewrite !free_of_app.
  repeat split; try done; first [by apply decimal_pad_free | apply fraction_free].
Qed.

(** [t.UTC().Format(time.RFC3339)]: whole seconds. *)
Definition RFC3339 (t : time) : string := RFC3339Nano (t - t mod Second).
Example rfc3339_seconds : RFC3339 (unix 1709210096 120000000) = "2024-02-29T12:34:56Z"%string.
Proof. vm_compute. reflexivity. Qed.

(** [t.Format("2006-01-02 15:04:05")], in UTC. *)
Definition DateTime (t : time) : string :=
  let s := RFC3339 t in
  (String.substring 0 10 s +:+ " " +:+ String.substring 11 8 s)%string.
Example datetime_example : DateTime (unix 1709210096 120000000) = "2024-02-29 12:34:56"%string.
Proof. vm_compute. reflexivity. Qed.
