(* ===== verification/Model.v ===== *)
(** * [pkg/model]: the destination-neutral discovery contract

    The data types of [pkg/model/model.go] and the stable identifiers of assets
    and relationships.  A Go [map[string]string] is a [gmap string string]. *)

From S2P Require Import Prelude Bytes Sha256 Time.

(** A [float64] is kept as the shortest decimal text that reads back as it, the
    text [encoding/json] prints and which determines the number. *)
Definition float64 : Type := string.

(** A value of type [any] decoded from JSON.  The members of an object are kept
    in key order. *)
#[warnings="-register-all"]
Inductive any : Type :=
| any_null
| any_bool (b : bool)
| any_number (f : float64)
| any_string (s : string)
| any_array (l : list any)
| any_object (l : list (string * any)).

Definition SchemaVersion : string := "v1alpha1".

Definition AssetType : Type := string.
Definition AssetHost : AssetType := "host".
Definition AssetNetworkInterface : AssetType := "network_interface".
Definition AssetVolume : AssetType := "volume".
Definition AssetSoftware : AssetType := "software".
Definition AssetService : AssetType := "service".
Definition AssetVirtualMachine : AssetType := "virtual_machine".
Definition AssetCloudResource : AssetType := "cloud_resource".
Definition AssetKubernetesObject : AssetType := "kubernetes_object".

Record Evidence := mkEvidence {
  Evidence_Source : string;
  Evidence_Collected : time;
  Evidence_Path : string;
  Evidence_Confidence : float64;
}.

Record Asset := mkAsset {
  Asset_Type : AssetType;
  Asset_NativeID : string;
  Asset_Name : string;
  Asset_Identifiers : gmap string string;
  Asset_Attributes : gmap string any;
  Asset_Evidence : list Evidence;
}.

Record Relationship := mkRelationship {
  Relationship_Type : string;
  Relationship_FromNativeID : string;
  Relationship_ToNativeID : string;
  Relationship_Evidence : list Evidence;
}.

Record CollectionError := mkCollectionError {
  CollectionError_Code : string;
  CollectionError_Message : string;
  CollectionError_Retryable : bool;
}.

Record ObservationEnvelope := mkObservationEnvelope {
  Envelope_SchemaVersion : string;
  Envelope_ObservationID : string;
  Envelope_SiteID : string;
  Envelope_CollectorID : string;
  Envelope_Plugin : string;
  Envelope_JobID : string;
  Envelope_ObservedAt : time;
  Envelope_Assets : list Asset;
  Envelope_Relationships : list Relationship;
  Envelope_Errors : list CollectionError;
  Envelope_Labels : gmap string string;
}.

(** The zero value [model.ObservationEnvelope{}]. *)
Definition zero_envelope : ObservationEnvelope :=
  mkObservationEnvelope "" "" "" "" "" "" zero_time [] [] [] ∅.

Record HeartbeatRequest := mkHeartbeatRequest {
  HeartbeatRequest_SchemaVersion : string;
  HeartbeatRequest_CollectorID : string;
  HeartbeatRequest_SiteID : string;
}.

Record CollectorStatus := mkCollectorStatus {
  CollectorStatus_CollectorID : string;
  CollectorStatus_SiteID : string;
  CollectorStatus_LastHeartbeat : time;
  CollectorStatus_Alive : bool;
}.

Definition JobType : Type := string.
Definition JobTypeDiscover : JobType := "discover".

Record Job := mkJob {
  Job_JobID : string;
  Job_CollectorID : string;
  Job_Type : JobType;
  Job_CreatedAt : time;
}.

Record JobRequest := mkJobRequest {
  JobRequest_CollectorID : string;
  JobRequest_Type : JobType;
}.

Record JobResult := mkJobResult {
  JobResult_CollectorID : string;
  JobResult_Success : bool;
  JobResult_Error : string;
  JobResult_CompletedAt : time;
}.

Record JobStatus := mkJobStatus {
  JobStatus_JobID : string;
  JobStatus_CollectorID : string;
  JobStatus_Type : JobType;
  JobStatus_Status : string;
  JobStatus_CreatedAt : time;
  JobStatus_CompletedAt : time;
  JobStatus_Error : string;
}.

#[export] Instance AssetType_eq_dec : EqDecision AssetType := String.eq_dec.
#[export] Instance JobType_eq_dec : EqDecision JobType := String.eq_dec.
#[export] Instance Evidence_eq_dec : EqDecision Evidence.
Proof. solve_decision. Defined.
#[export] Instance Relationship_eq_dec : EqDecision Relationship.
Proof. solve_decision. Defined.

(** ** Stable identifiers *)

(** [keys := ...; sort.Strings(keys)] over a map *)
Definition sorted_keys {A} (m : gmap string A) : list string :=
  sort_by str_lt (map_to_list m).*1.

(** [m[k]] of a [map[string]string]: the empty string when absent *)
Definition map_get (m : gmap string string) (k : string) : string := default "" (m !! k).

(** [k+"="+m[k]] for the keys in order *)
Definition pair_texts (m : gmap string string) : list string :=
  (λ k, k +:+ String "="%char (map_get m k))%string <$> sorted_keys m.

Definition asset_parts (a : Asset) : list string :=
  Asset_Type a :: Asset_NativeID a :: pair_texts (Asset_Identifiers a).

Definition StableAssetID (a : Asset) : string :=
  sha256_hex_prefix 16 (join NUL (asset_parts a)).

Definition relationship_parts (r : Relationship) : list string :=
  [Relationship_Type r; Relationship_FromNativeID r; Relationship_ToNativeID r].

Definition StableRelationshipID (r : Relationship) : string :=
  sha256_hex_prefix 16 (join NUL (relationship_parts r)).

(** ** The identity an asset's hash input stands for *)

(** Two assets are the same thing when type, native ID and identifiers agree;
    name, attributes and evidence do not matter. *)
Definition same_identity (a b : Asset) : Prop :=
  Asset_Type a = Asset_Type b ∧ Asset_NativeID a = Asset_NativeID b ∧
  Asset_Identifiers a = Asset_Identifiers b.

(** No component contains the byte that separates the parts. *)
Definition plain_map (m : gmap string string) : Prop :=
  map_Forall (λ k v, free_of "000"%char k ∧ free_of "="%char k ∧ free_of "000"%char v) m.

Definition plain_asset (a : Asset) : Prop :=
  free_of "000"%char (Asset_Type a) ∧ free_of "000"%char (Asset_NativeID a) ∧
  plain_map (Asset_Identifiers a).

#[export] Instance plain_map_dec m : Decision (plain_map m).
Proof. unfold plain_map. apply _. Defined.
#[export] Instance plain_asset_dec a : Decision (plain_asset a).
Proof. unfold plain_asset. apply _. Defined.

Lemma elem_of_sorted_keys {A} (m : gmap string A) k : k ∈ sorted_keys m ↔ is_Some (m !! k).
Proof.
  unfold sorted_keys. rewrite sort_by_perm, list_elem_of_fmap. split.
  - intros ([k' v] & -> & H). apply elem_of_map_to_list in H. eauto.
  - intros [v H]. exists (k, v). by rewrite elem_of_map_to_list.
Qed.

Lemma sorted_keys_nodup {A} (m : gmap string A) : NoDup (sorted_keys m).
Proof. unfold sorted_keys. rewrite sort_by_perm. apply NoDup_fst_map_to_list. Qed.

Lemma pair_texts_free m : plain_map m → Forall (free_of "000"%char) (pair_texts m).
Proof.
  intros Hm. unfold pair_texts. rewrite Forall_fmap, Forall_forall.
  intros k [v Hv]%elem_of_sorted_keys. specialize (Hm k v Hv) as (? & ? & ?).
  simpl. rewrite free_of_app. split; [done|].
  unfold map_get. rewrite Hv. unfold free_of in *. simpl. done.
Qed.

(** The texts of a map's pairs determine the map. *)
Lemma pair_texts_inj m1 m2 :
  plain_map m1 → plain_map m2 → pair_texts m1 = pair_texts m2 → m1 = m2.
Proof.
  intros H1 H2 Heq. unfold pair_texts in Heq.
  assert (∀ ks1 ks2 : list string, (∀ k, k ∈ ks1 → is_Some (m1 !! k)) → (∀ k, k ∈ ks2 → is_Some (m2 !! k)) →
    ((λ k, k +:+ String "="%char (map_get m1 k)) <$> ks1)%string =
    ((λ k, k +:+ String "="%char (map_get m2 k)) <$> ks2)%string →
    ks1 = ks2 ∧ ∀ k, k ∈ ks1 → map_get m1 k = map_get m2 k) as Hlist.
  { induction ks1 as [|k1 ks1 IH]; intros [|k2 ks2] Hk1 Hk2 E; simplify_eq/=; [set_solver|].
    destruct (Hk1 k1) as [v1 Hv1]; [set_solver|]. destruct (Hk2 k2) as [v2 Hv2]; [set_solver|].
    apply pair_text_inj in H as [-> Hv]; [|by eapply H1|by eapply H2].
    destruct (IH ks2) as [-> IH']; [set_solver..|done|]. split; [done|].
    intros k [->|?]%elem_of_cons; auto. }
  apply Hlist in Heq as [Hks Hvs]; [|intros k; by rewrite elem_of_sorted_keys..].
  apply map_eq. intros k.
  assert (is_Some (m1 !! k) ↔ is_Some (m2 !! k)) as Hiff by (by rewrite <-!elem_of_sorted_keys, Hks).
  destruct (m1 !! k) as [v1|] eqn:E1; destruct (m2 !! k) as [v2|] eqn:E2.
  - specialize (Hvs k ltac:(apply elem_of_sorted_keys; eauto)).
    unfold map_get in Hvs. rewrite E1, E2 in Hvs. by f_equal.
  - destruct Hiff as [[? ?] _]; [eauto|done].
  - destruct Hiff as [_ [? ?]]; [eauto|done].
  - done.
Qed.

Lemma asset_parts_inj a b :
  plain_asset a → plain_asset b →
  join NUL (asset_parts a) = join NUL (asset_parts b) → same_identity a b.
Proof.
  intros (Ha1 & Ha2 & Ha3) (Hb1 & Hb2 & Hb3) H. unfold asset_parts in H.
  apply (join_inj "000"%char) in H; [|done|done|..].
  - injection H as H1 H2 H3. split; [done|]. split; [done|]. by apply pair_texts_inj.
  - repeat constructor; auto using pair_texts_free.
  - repeat constructor; auto using pair_texts_free.
Qed.

(** ** Theorems *)

(** Distinct texts with the same truncated digest. *)
Definition truncated_collision (x y : string) : Prop :=
  x ≠ y ∧ sha256_hex_prefix 16 x = sha256_hex_prefix 16 y.

(** The stable identifier of an asset is a function of its type, native ID and
    identifiers alone (an address kept as an attribute never takes part), and, for
    components without the separator bytes, two assets get the same identifier
    only if they agree on those three or exhibit a SHA-256 collision. *)
Theorem StableAssetID_identifies (a b : Asset) :
  plain_asset a → plain_asset b →
  (same_identity a b → StableAssetID a = StableAssetID b) ∧
  (StableAssetID a = StableAssetID b →
   same_identity a b ∨ truncated_collision (join NUL (asset_parts a)) (join NUL (asset_parts b))).
Proof.
  intros Ha Hb. split.
  - intros (H1 & H2 & H3). unfold StableAssetID, asset_parts. by rewrite H1, H2, H3.
  - intros Hid. destruct (decide (join NUL (asset_parts a) = join NUL (asset_parts b))).
    + left. by apply asset_parts_inj.
    + by right.
Qed.

Definition example_host (name : string) (ids : gmap string string) : Asset :=
  mkAsset AssetHost "h1" name ids ∅ [].

Lemma StableAssetID_identifies_witness :
  let a := example_host "one" {["serial" := "s1"; "uuid" := "u1"]} in
  let b := example_host "two" {["uuid" := "u1"; "serial" := "s1"]} in
  plain_asset a ∧ plain_asset b ∧ StableAssetID a = StableAssetID b ∧
  StableAssetID a = "223991445c39dc2ba996f2b352810766"%string.
Proof.
  intros a b.
  assert (plain_asset a) as Ha by (apply (bool_decide_unpack _); by vm_compute).
  assert (plain_asset b) as Hb by (apply (bool_decide_unpack _); by vm_compute).
  split; [done|]. split; [done|]. split.
  - apply (StableAssetID_identifies a b Ha Hb). repeat split; vm_compute; reflexivity.
  - vm_compute. reflexivity.
Defined.

(** Without the restriction on separator bytes the identifier does not
    determine the identity: an [=] in an identifier's key or value moves the
    boundary between them, and two different assets share one identifier. *)
Theorem StableAssetID_ambiguous :
  ∃ a b : Asset, ¬ same_identity a b ∧ StableAssetID a = StableAssetID b.
Proof.
  exists (example_host "" {["a" := "b=c"]}), (example_host "" {["a=b" := "c"]}). split.
  - intros (_ & _ & H). apply (f_equal (lookup "a"%string)) in H. by vm_compute in H.
  - vm_compute. reflexivity.
Qed.

(** A relationship's identifier is determined by its type and endpoints, and
    determines them when they are free of the separator byte, up to an exhibited
    SHA-256 collision. *)
Theorem StableRelationshipID_identifies (r s : Relationship) :
  Forall (free_of "000"%char) (relationship_parts r ++ relationship_parts s) →
  StableRelationshipID r = StableRelationshipID s →
  relationship_parts r = relationship_parts s ∨
  truncated_collision (join NUL (relationship_parts r)) (join NUL (relationship_parts s)).
Proof.
  rewrite Forall_app. intros [Hr Hs] Hid.
  destruct (decide (join NUL (relationship_parts r) = join NUL (relationship_parts s))).
  - left. by apply (join_inj "000"%char).
  - by right.
Qed.

Lemma StableRelationshipID_identifies_witness :
  let r := mkRelationship "contains" "host" "eth0" [] in
  let s := mkRelationship "contains" "host" "eth0" [mkEvidence "snmp" 5 "" "1"] in
  StableRelationshipID r = StableRelationshipID s ∧ relationship_parts r = relationship_parts s.
Proof.
  intros r s. assert (StableRelationshipID r = StableRelationshipID s) as H by (vm_compute; reflexivity).
  split; [done|].
  destruct (StableRelationshipID_identifies r s) as [?|[Hne _]]; [| |done|].
  - by repeat constructor; vm_compute.
  - done.
  - by destruct Hne.
Defined.
