(* ===== verification/AuditLog.v ===== *)
(** * [internal/audit]: the hash-chained audit log

    [Chain] and [VerifyChain] of [internal/audit/audit.go], with the hash input
    built byte for byte.  The theorems say what the chain proves about a log that
    verifies, and where the hash input is ambiguous. *)

From S2P Require Import Prelude Bytes Sha256 Time Model.

Record Event := mkEvent {
  Event_Action : string;
  Event_Actor : string;
  Event_Detail : gmap string string;
}.

Record Entry := mkEntry {
  Entry_Sequence : Z;
  Entry_RecordedAt : time;
  Entry_Action : string;
  Entry_Actor : string;
  Entry_Detail : gmap string string;
  Entry_PrevHash : string;
  Entry_Hash : string;
}.

(** The text [hashEntry] builds before hashing it. *)
Definition entry_text (e : Entry) : string :=
  (decimal (Entry_Sequence e) +:+ NUL +:+ RFC3339Nano (Entry_RecordedAt e) +:+ NUL
   +:+ Entry_Action e +:+ NUL +:+ Entry_Actor e +:+ NUL
   +:+ String.concat "" ((λ t, t +:+ NUL) <$> pair_texts (Entry_Detail e))
   +:+ Entry_PrevHash e)%string.

Definition hashEntry (e : Entry) : string := sha256_hex (entry_text e).

Definition with_hash (e : Entry) (h : string) : Entry :=
  mkEntry (Entry_Sequence e) (Entry_RecordedAt e) (Entry_Action e) (Entry_Actor e)
    (Entry_Detail e) (Entry_PrevHash e) h.

Definition Chain (prevHash : string) (sequence : Z) (recordedAt : time) (e : Event) : Entry :=
  let entry := mkEntry sequence recordedAt (Event_Action e) (Event_Actor e)
                 (Event_Detail e) prevHash "" in
  with_hash entry (hashEntry entry).

(** The loop of [VerifyChain]; [i] is the index of the first entry. *)
Fixpoint verify_from (i : Z) (prevHash : string) (entries : list Entry) : go unit :=
  match entries with
  | [] => Ok tt
  | e :: entries =>
    reject negb (Entry_Sequence e =? i + 1) with "entry at index %d: expected sequence %d, got %d"%string ;;
    reject negb (String.eqb (Entry_PrevHash e) prevHash)
      with "entry %d: prev_hash does not match the preceding entry's hash"%string ;;
    reject negb (String.eqb (hashEntry e) (Entry_Hash e))
      with "entry %d: hash does not match its recorded content"%string ;;
    verify_from (i + 1) (Entry_Hash e) entries
  end.

Definition VerifyChain (entries : list Entry) : go unit := verify_from 0 "" entries.

(** ** Auxiliary notions *)

Definition last_hash (entries : list Entry) : string :=
  match last entries with Some e => Entry_Hash e | None => ""%string end.

(** What an entry says, with the time at the precision it is hashed. *)
Definition content (e : Entry) : Z * string * string * string * gmap string string * string :=
  (Entry_Sequence e, RFC3339Nano (Entry_RecordedAt e), Entry_Action e, Entry_Actor e,
   Entry_Detail e, Entry_PrevHash e).

(** Components free of the separator bytes. *)
Definition plain_entry (e : Entry) : Prop :=
  free_of "000"%char (Entry_Action e) ∧ free_of "000"%char (Entry_Actor e) ∧
  free_of "000"%char (Entry_PrevHash e) ∧ plain_map (Entry_Detail e).

#[export] Instance plain_entry_dec e : Decision (plain_entry e).
Proof. unfold plain_entry. apply _. Defined.

(** Two entries with different hash inputs and the same hash. *)
Definition entry_collision (e f : Entry) : Prop :=
  entry_text e ≠ entry_text f ∧ hashEntry e = hashEntry f.

(** ** Lemmas *)

Lemma concat_terminated l t :
  (String.concat "" ((λ s, s +:+ NUL) <$> l) +:+ t = join NUL (l ++ [t]))%string.
Proof.
  induction l as [|x l IH]; [done|]. rewrite fmap_cons.
  assert (String.concat "" ((x +:+ NUL) :: ((λ s, s +:+ NUL) <$> l)) =
    (x +:+ NUL) +:+ String.concat "" ((λ s, s +:+ NUL) <$> l))%string as ->.
  { destruct l; simpl; [by rewrite string_app_nil_r|done]. }
  rewrite !string_app_assoc, IH. destruct l; done.
Qed.

(** The hash input is the parts of the entry joined with the zero byte. *)
Lemma entry_text_join e :
  entry_text e = join NUL (decimal (Entry_Sequence e) :: RFC3339Nano (Entry_RecordedAt e)
    :: Entry_Action e :: Entry_Actor e :: pair_texts (Entry_Detail e) ++ [Entry_PrevHash e]).
Proof.
  unfold entry_text. rewrite concat_terminated.
  set (l := pair_texts _ ++ _). assert (∃ x k, l = x :: k) as (x & k & ->)
    by (unfold l; destruct (pair_texts _); simpl; eauto). done.
Qed.

Lemma entry_text_inj e f :
  plain_entry e → plain_entry f → entry_text e = entry_text f → content e = content f.
Proof.
  intros (?&?&?&?) (?&?&?&?). rewrite !entry_text_join. intros Heq.
  apply (join_inj "000"%char) in Heq; [|done|done|..].
  - injection Heq as Hseq Hat Hac Hact Hrest. unfold content.
    apply decimal_inj in Hseq. apply app_inj_tail in Hrest as [Hd Hp].
    apply pair_texts_inj in Hd; [|done|done]. congruence.
  - repeat (constructor; [by auto using decimal_free, RFC3339Nano_free|]).
    apply Forall_app; auto using pair_texts_free.
  - repeat (constructor; [by auto using decimal_free, RFC3339Nano_free|]).
    apply Forall_app; auto using pair_texts_free.
Qed.

Lemma verify_from_cons i prev e es :
  verify_from i prev (e :: es) = Ok tt ↔
  Entry_Sequence e = i + 1 ∧ Entry_PrevHash e = prev ∧ Entry_Hash e = hashEntry e ∧
  verify_from (i + 1) (Entry_Hash e) es = Ok tt.
Proof.
  simpl. destruct (Z.eqb_spec (Entry_Sequence e) (i + 1)); simpl; [|naive_solver].
  destruct (String.eqb_spec (Entry_PrevHash e) prev); simpl; [|naive_solver].
  destruct (String.eqb_spec (hashEntry e) (Entry_Hash e)); simpl; naive_solver.
Qed.

Lemma last_hash_cons e es : last_hash (e :: es) = match es with [] => Entry_Hash e | _ => last_hash es end.
Proof. destruct es; done. Qed.

Lemma verify_from_app i prev es fs :
  verify_from i prev (es ++ fs) = Ok tt ↔
  verify_from i prev es = Ok tt ∧
  verify_from (i + llen es) (match es with [] => prev | _ => last_hash es end) fs = Ok tt.
Proof.
  revert i prev. induction es as [|e es IH]; intros i prev.
  { simpl. unfold llen. simpl. rewrite Z.add_0_r. naive_solver. }
  rewrite <-app_comm_cons, !verify_from_cons, IH, last_hash_cons.
  replace (i + llen (e :: es)) with (i + 1 + llen es) by (unfold llen; simpl; lia).
  destruct es; naive_solver.
Qed.

Lemma hashEntry_with_hash e h : hashEntry (with_hash e h) = hashEntry e.
Proof. done. Qed.

Lemma Chain_hash prev n t ev : Entry_Hash (Chain prev n t ev) = hashEntry (Chain prev n t ev).
Proof. done. Qed.

(** Two verified logs with the same length that end in the same hash. *)
Lemma verify_same_tail i p q es fs :
  length es = length fs →
  verify_from i p es = Ok tt → verify_from i q fs = Ok tt →
  match es with [] => p | _ => last_hash es end = match fs with [] => q | _ => last_hash fs end →
  Forall plain_entry es → Forall plain_entry fs →
  (p = q ∧ content <$> es = content <$> fs) ∨
  ∃ k e f, es !! k = Some e ∧ fs !! k = Some f ∧ entry_collision e f.
Proof.
  revert i p q fs.
  induction es as [|e es IH]; intros i p q [|f fs] Hlen; [by left|done|done|].
  injection Hlen as Hlen.
  rewrite !verify_from_cons. intros (Hs & Hp & Hh & Hes) (Hs' & Hp' & Hh' & Hfs) Hlast.
  intros [Hpe Hpes]%Forall_cons [Hpf Hpfs]%Forall_cons.
  rewrite !last_hash_cons in Hlast.
  destruct (IH _ _ _ fs Hlen Hes Hfs Hlast Hpes Hpfs) as [[Heq Hc]|(k & a & b & ?)].
  - destruct (decide (entry_text e = entry_text f)) as [Ht|Ht].
    + left. apply entry_text_inj in Ht; [|done|done].
      split; [|rewrite !fmap_cons; congruence]. unfold content in Ht. congruence.
    + right. exists 0%nat, e, f. split; [done|]. split; [done|]. split; [done|congruence].
  - right. by exists (S k), a, b.
Qed.

Lemma verify_append es at_ ev :
  VerifyChain (es ++ [Chain (last_hash es) (llen es + 1) at_ ev]) = Ok tt ↔ VerifyChain es = Ok tt.
Proof.
  unfold VerifyChain. rewrite verify_from_app, verify_from_cons.
  replace (match es with [] => ""%string | _ => last_hash es end) with (last_hash es)
    by (by destruct es).
  split; [naive_solver|]. intros H. split; [done|]. by rewrite Chain_hash.
Qed.

(** ** Theorems *)

(** Appending with [Chain] under the previous entry's hash and the next
    sequence number extends a verified log to a verified log, and nothing else
    does: the new log verifies exactly when the old one did. *)
Theorem VerifyChain_append (es : list Entry) (at_ : time) (ev : Event) :
  VerifyChain (es ++ [Chain (last_hash es) (llen es + 1) at_ ev]) = Ok tt ↔ VerifyChain es = Ok tt.
Proof.
  apply verify_append.
Qed.

(** C38: tamper evidence.  If two logs of the same length verify, end in the same hash
    and have only plain entries, they record the same actions, actors, details and times
    in the same order, or the logs themselves contain two different entries with equal
    hashes (a SHA-256 collision).  An entry is plain when the separators of the hash input
    do not occur in its texts: no NUL in any of them and no [=] in the key of a detail.
    Editing, reordering or replacing entries by plain ones therefore changes the final
    hash; [VerifyChain_misses_detail_edit] shows that an [=] in a key is enough to edit
    a detail without it. *)
Theorem VerifyChain_tamper_evident (es fs : list Entry) :
  VerifyChain es = Ok tt → VerifyChain fs = Ok tt →
  length es = length fs → last_hash es = last_hash fs →
  Forall plain_entry es → Forall plain_entry fs →
  content <$> es = content <$> fs ∨
  ∃ k e f, es !! k = Some e ∧ fs !! k = Some f ∧ entry_collision e f.
Proof.
  unfold VerifyChain. intros Hes Hfs Hlen Hlast Hpe Hpf.
  destruct (verify_same_tail 0 "" "" es fs) as [[_ ?]|?]; try done; [|by left|by right].
  destruct es, fs; done.
Qed.

Definition example_entry1 : Entry :=
  Chain "" 1 (unix 1700000000 0) (mkEvent "job_created" "api-key" {["job_id" := "j1"]}).
Definition example_entry2 : Entry :=
  Chain (Entry_Hash example_entry1) 2 (unix 1700000001 0)
    (mkEvent "schedule_deleted" "api-key" {["collector_id" := "c1"]}).
Definition example_log : list Entry := [example_entry1; example_entry2].

Lemma VerifyChain_tamper_evident_witness :
  VerifyChain example_log = Ok tt ∧
  (content <$> example_log = content <$> example_log ∨
   ∃ k e f, example_log !! k = Some e ∧ example_log !! k = Some f ∧ entry_collision e f).
Proof.
  assert (VerifyChain example_log = Ok tt) as H by (vm_compute; reflexivity).
  assert (Forall plain_entry example_log) as Hp by (apply (bool_decide_unpack _); by vm_compute).
  split; [done|]. by apply (VerifyChain_tamper_evident example_log example_log H H eq_refl eq_refl Hp Hp).
Defined.

(** Removing the first or an inner entry of a verified log is detected: what
    is left does not verify. *)
Theorem VerifyChain_detects_removal (es fs : list Entry) (e f : Entry) :
  VerifyChain (es ++ e :: f :: fs) = Ok tt → VerifyChain (es ++ f :: fs) ≠ Ok tt.
Proof.
  unfold VerifyChain. rewrite !verify_from_app, !verify_from_cons.
  intros (_ & He & _ & _ & Hf & _) (_ & Hf' & _). lia.
Qed.

Lemma VerifyChain_detects_removal_witness :
  VerifyChain example_log = Ok tt ∧ VerifyChain ([] ++ [example_entry2]) ≠ Ok tt.
Proof.
  assert (VerifyChain example_log = Ok tt) as H by (vm_compute; reflexivity).
  split; [done|]. exact (VerifyChain_detects_removal [] [] example_entry1 example_entry2 H).
Defined.

(** The hash input does not separate a detail's key from its value when they
    contain [=]: an entry of a verified log can be replaced by one with a different
    detail and the log still verifies with the same hashes. *)
Theorem VerifyChain_misses_detail_edit :
  ∃ e f : Entry, Entry_Detail e ≠ Entry_Detail f ∧ Entry_Hash e = Entry_Hash f ∧
    VerifyChain [e] = Ok tt ∧ VerifyChain [f] = Ok tt.
Proof.
  exists (Chain "" 1 (unix 0 0) (mkEvent "certificate_revoked" "api-key" {["reason" := "key=lost"]})),
    (Chain "" 1 (unix 0 0) (mkEvent "certificate_revoked" "api-key" {["reason=key" := "lost"]})).
  split; [|split; [|split]]; [|vm_compute; reflexivity..].
  intros H. apply (f_equal (lookup "reason"%string)) in H. by vm_compute in H.
Qed.
