(* ===== verification/Claims.v ===== *)
(** * [internal/store]: asset claims and their resolution

    The data types of [internal/store/store.go] and the whole of
    [internal/store/resolution.go]: every source's latest claim about an asset is
    kept, and [ResolveAssetClaims] picks a winner by plugin precedence, freshness
    and source identity. *)

From S2P Require Import Prelude Bytes Sha256 Time Model.

(** ** Data *)

Record Schedule := mkSchedule {
  Schedule_CollectorID : string;
  Schedule_JobType : JobType;
  Schedule_IntervalSeconds : Z;
  Schedule_NextRunAt : time;
  Schedule_CreatedAt : time;
  Schedule_UpdatedAt : time;
}.

Record CertificateRevocation := mkCertificateRevocation {
  Revocation_SerialNumber : string;
  Revocation_Reason : string;
  Revocation_RevokedAt : time;
}.

Record AssetSource := mkAssetSource {
  Source_SiteID : string;
  Source_CollectorID : string;
  Source_Plugin : string;
  Source_FirstObservationID : string;
  Source_LastObservationID : string;
  Source_FirstObservedAt : time;
  Source_LastObservedAt : time;
  Source_PrecedenceRank : Z;
  Source_ExplicitPrecedence : bool;
}.

Record AssetClaim := mkAssetClaim {
  Claim_AssetID : string;
  Claim_Asset : Asset;
  Claim_Source : AssetSource;
}.

Record AssetConflictClaim := mkAssetConflictClaim {
  ConflictClaim_Source : AssetSource;
  ConflictClaim_Present : bool;
  ConflictClaim_Value : any;
}.

Record AssetConflict := mkAssetConflict {
  Conflict_Field : string;
  Conflict_Claims : list AssetConflictClaim;
}.

Record ResolvedAsset := mkResolvedAsset {
  Resolved_ID : string;
  Resolved_Asset : Asset;
  Resolved_FirstObservationID : string;
  Resolved_LastObservationID : string;
  Resolved_FirstObservedAt : time;
  Resolved_LastObservedAt : time;
  Resolved_WinningSource : AssetSource;
  Resolved_Sources : list AssetSource;
  Resolved_Conflicts : list AssetConflict;
}.

Record ResolvedRelationship := mkResolvedRelationship {
  ResolvedRel_ID : string;
  ResolvedRel_Relationship : Relationship;
  ResolvedRel_FirstObservationID : string;
  ResolvedRel_LastObservationID : string;
}.

(** ** [ValidateSourcePrecedence] *)

Definition maxSourcePrecedenceEntries : Z := 64.
Definition maxPluginNameBytes : Z := 128.

Definition bad_plugin_rune (r : Z) : bool := is_control r || is_space r || (r =? 44).

Fixpoint validate_plugins (seen : gset string) (plugins : list string) : go unit :=
  match plugins with
  | [] => Ok tt
  | plugin :: plugins =>
    reject bool_decide (plugin = ""%string) with "source precedence contains an empty plugin name"%string ;;
    reject maxPluginNameBytes <? slen plugin with "source precedence plugin %q exceeds %d bytes"%string ;;
    reject existsb bad_plugin_rune (runes plugin)
      with "source precedence plugin %q contains whitespace, a comma, or a control character"%string ;;
    reject bool_decide (plugin ∈ seen) with "source precedence plugin %q is repeated"%string ;;
    validate_plugins ({[plugin]} ∪ seen) plugins
  end.

Definition ValidateSourcePrecedence (plugins : list string) : go unit :=
  reject maxSourcePrecedenceEntries <? llen plugins
    with "source precedence contains %d plugins, maximum is %d"%string ;;
  validate_plugins ∅ plugins.

(** ** The JSON text of values *)

Fixpoint json_any (v : any) : string :=
  match v with
  | any_null => "null"
  | any_bool true => "true"
  | any_bool false => "false"
  | any_number f => f
  | any_string s => json_string s
  | any_array l => "[" +:+ String.concat "," (json_any <$> l) +:+ "]"
  | any_object l =>
    "{" +:+ String.concat "," ((λ kv, json_string kv.1 +:+ ":" +:+ json_any kv.2) <$> l) +:+ "}"
  end%string.

(** [json.Marshal([3]string{...})], hashed *)
Definition AssetSourceKey (siteID collectorID plugin : string) : string :=
  sha256_hex ("[" +:+ json_string siteID +:+ "," +:+ json_string collectorID +:+ ","
              +:+ json_string plugin +:+ "]")%string.

(** ** [ResolveAssetClaims] *)

Definition source_key (s : AssetSource) : string :=
  AssetSourceKey (Source_SiteID s) (Source_CollectorID s) (Source_Plugin s).

Definition claimPrecedes (a b : AssetClaim) : bool :=
  let sa := Claim_Source a in
  let sb := Claim_Source b in
  if negb (Source_PrecedenceRank sa =? Source_PrecedenceRank sb)
  then Source_PrecedenceRank sa <? Source_PrecedenceRank sb
  else if negb (Equal (Source_LastObservedAt sa) (Source_LastObservedAt sb))
  then After (Source_LastObservedAt sa) (Source_LastObservedAt sb)
  else str_lt (source_key sa) (source_key sb).

(** [ranks[plugin] = i] for the plugins in order *)
Fixpoint rank_map (i : Z) (precedence : list string) (ranks : gmap string Z) : gmap string Z :=
  match precedence with
  | [] => ranks
  | plugin :: precedence => rank_map (i + 1) precedence (<[plugin := i]> ranks)
  end.

Definition set_rank (ranks : gmap string Z) (dflt : Z) (c : AssetClaim) : AssetClaim :=
  let s := Claim_Source c in
  let '(rank, explicit) :=
    match ranks !! Source_Plugin s with Some r => (r, true) | None => (dflt, false) end in
  mkAssetClaim (Claim_AssetID c) (Claim_Asset c)
    (mkAssetSource (Source_SiteID s) (Source_CollectorID s) (Source_Plugin s)
       (Source_FirstObservationID s) (Source_LastObservationID s)
       (Source_FirstObservedAt s) (Source_LastObservedAt s) rank explicit).

(** [byAsset[claim.AssetID] = append(byAsset[claim.AssetID], claim)] *)
Definition add_group (m : gmap string (list AssetClaim)) (c : AssetClaim) :=
  <[Claim_AssetID c := default [] (m !! Claim_AssetID c) ++ [c]]> m.

Definition prefixedSortedKeys (prefix : string) (keys : gset string) : list string :=
  sort_by str_lt ((λ k, prefix +:+ k)%string <$> elements keys).

Definition assetField (asset : Asset) (field : string) : any * bool :=
  if String.eqb field "name" then (any_string (Asset_Name asset), true) else
  match cut_prefix field "identifiers." with
  | Some key =>
    match Asset_Identifiers asset !! key with
    | Some v => (any_string v, true)
    | None => (any_string "", false)
    end
  | None =>
    let key := default field (cut_prefix field "attributes.") in
    match Asset_Attributes asset !! key with
    | Some v => (v, true)
    | None => (any_null, false)
    end
  end.

(** The JSON text the values of a field are compared by. *)
Definition field_text (asset : Asset) (field : string) : string :=
  let '(value, present) := assetField asset field in
  ("{" +:+ dquote +:+ "present" +:+ dquote +:+ ":" +:+ json_any (any_bool present) +:+ ","
   +:+ dquote +:+ "value" +:+ dquote +:+ ":" +:+ json_any value +:+ "}")%string.

Definition conflict_fields (claims : list AssetClaim) : list string :=
  let identifierKeys : gset string := ⋃ ((λ c, dom (Asset_Identifiers (Claim_Asset c))) <$> claims) in
  let attributeKeys : gset string := ⋃ ((λ c, dom (Asset_Attributes (Claim_Asset c))) <$> claims) in
  "name"%string :: prefixedSortedKeys "identifiers." identifierKeys
    ++ prefixedSortedKeys "attributes." attributeKeys.

Definition field_conflict (claims : list AssetClaim) (field : string) : option AssetConflict :=
  let values : gset string := list_to_set ((λ c, field_text (Claim_Asset c) field) <$> claims) in
  if (1 <? size values)%nat then
    Some (mkAssetConflict field
      ((λ c, let '(value, present) := assetField (Claim_Asset c) field in
             mkAssetConflictClaim (Claim_Source c) present value) <$> claims))
  else None.

Definition assetConflicts (claims : list AssetClaim) : list AssetConflict :=
  if (length claims <? 2)%nat then [] else
  omap (field_conflict claims) (conflict_fields claims).

(** One pass of the loop over the claims of an asset: the earliest first and the
    latest last observation. *)
Definition widen (acc : string * time * (string * time)) (s : AssetSource) :=
  let '(fid, fat, (lid, lat)) := acc in
  let '(fid, fat) :=
    if Before (Source_FirstObservedAt s) fat
    then (Source_FirstObservationID s, Source_FirstObservedAt s) else (fid, fat) in
  let '(lid, lat) :=
    if After (Source_LastObservedAt s) lat
    then (Source_LastObservationID s, Source_LastObservedAt s) else (lid, lat) in
  (fid, fat, (lid, lat)).

Definition resolve_group (id : string) (group : list AssetClaim) : option ResolvedAsset :=
  let assetClaims := sort_by claimPrecedes group in
  match assetClaims with
  | [] => None (* [assetClaims[0]] on an empty slice: the groups are never empty *)
  | winner :: _ =>
    let w := Claim_Source winner in
    let '(fid, fat, (lid, lat)) :=
      foldl widen
        (Source_FirstObservationID w, Source_FirstObservedAt w,
         (Source_LastObservationID w, Source_LastObservedAt w)) (Claim_Source <$> assetClaims) in
    Some (mkResolvedAsset id (Claim_Asset winner) fid lid fat lat w
            (Claim_Source <$> assetClaims) (assetConflicts assetClaims))
  end.

Definition ResolveAssetClaims (claims : list AssetClaim) (precedence : list string)
    : list ResolvedAsset :=
  let ranks := rank_map 0 precedence ∅ in
  let byAsset := foldl add_group ∅ (set_rank ranks (llen precedence) <$> claims) in
  let assetIDs := sort_by str_lt (map_to_list byAsset).*1 in
  omap (λ id, byAsset !! id ≫= resolve_group id) assetIDs.

(** ** Lemmas *)

(** [claimPrecedes] is a lexicographic comparison. *)
Definition rank_of (c : AssetClaim) : Z := Source_PrecedenceRank (Claim_Source c).
Definition last_of (c : AssetClaim) : time := Source_LastObservedAt (Claim_Source c).
Definition key_of (c : AssetClaim) : string := source_key (Claim_Source c).

Lemma claimPrecedes_lex a b :
  claimPrecedes a b =
  less_then (less_on rank_of Z.ltb)
    (less_then (less_on (λ c, - last_of c) Z.ltb) (less_on key_of str_lt)) a b.
Proof.
  unfold claimPrecedes, less_then, less_on, rank_of, last_of, key_of, Equal, After.
  repeat case_match; bool_facts; try lia; done.
Qed.

#[export] Instance claimPrecedes_weak : StrictWeak claimPrecedes.
Proof.
  pose proof claimPrecedes_lex as Hlex. split.
  - intros x y. rewrite (Hlex x y), (Hlex y x). apply sw_asym.
  - intros x y z. rewrite (Hlex x z), (Hlex x y), (Hlex y z). apply sw_neg_trans.
Qed.

Lemma claimPrecedes_sep a b :
  claimPrecedes a b = false → claimPrecedes b a = false → key_of a = key_of b.
Proof.
  rewrite !claimPrecedes_lex. intros H1 H2.
  destruct (less_then_sep _ _ _ _ H1 H2) as [_ [H3 H4]].
  destruct (less_then_sep _ _ _ _ H3 H4) as [_ [H5 H6]]. by apply str_lt_sep.
Qed.

Lemma add_group_lookup claims m id :
  foldl add_group m claims !! id =
  let g := default [] (m !! id) ++ base.filter (λ c, Claim_AssetID c = id) claims in
  match m !! id, g with None, [] => None | _, _ => Some g end.
Proof.
  revert m. induction claims as [|c claims IH]; intros m; simpl.
  { rewrite app_nil_r. by destruct (m !! id). }
  rewrite IH. clear IH. unfold add_group. rewrite filter_cons.
  destruct (decide (Claim_AssetID c = id)) as [<-|Hne].
  - rewrite lookup_insert_eq. simpl. rewrite <-app_assoc. simpl.
    destruct (m !! Claim_AssetID c); simpl; [done|]. done.
  - rewrite lookup_insert_ne by done. done.
Qed.

Lemma groups_lookup claims id g :
  foldl add_group ∅ claims !! id = Some g ↔
  g = base.filter (λ c, Claim_AssetID c = id) claims ∧ g ≠ [].
Proof.
  rewrite add_group_lookup, lookup_empty. simpl.
  destruct (base.filter _ claims) eqn:E; naive_solver.
Qed.

Definition claim_pair (c : AssetClaim) : string * string := (Claim_AssetID c, key_of c).

Lemma set_rank_pair ranks d c : claim_pair (set_rank ranks d c) = claim_pair c.
Proof. unfold set_rank. by case_match. Qed.

Lemma set_rank_id ranks d c : Claim_AssetID (set_rank ranks d c) = Claim_AssetID c.
Proof. unfold set_rank. by case_match. Qed.

(** No two claims about one asset come from the same source. *)
Definition distinct_claims (claims : list AssetClaim) : Prop := NoDup (claim_pair <$> claims).

Lemma NoDup_fmap_inj_elem {A B} (f : A → B) (l : list A) x y :
  NoDup (f <$> l) → x ∈ l → y ∈ l → f x = f y → x = y.
Proof.
  induction l as [|z l IH]; simpl; [set_solver|].
  intros [Hz Hl]%NoDup_cons [->|Hx]%elem_of_cons [->|Hy]%elem_of_cons Hf; auto.
  - destruct Hz. rewrite Hf. by apply list_elem_of_fmap_2.
  - destruct Hz. rewrite <-Hf. by apply list_elem_of_fmap_2.
Qed.

Lemma resolve_group_perm id g1 g2 :
  distinct_claims g1 → (∀ c, c ∈ g1 → Claim_AssetID c = id) →
  g1 ≡ₚ g2 → resolve_group id g1 = resolve_group id g2.
Proof.
  intros Hd Hid Hp. unfold resolve_group.
  rewrite (sort_by_unique claimPrecedes g1 g2); [done| |done].
  intros x y Hx Hy H1 H2. eapply (NoDup_fmap_inj_elem claim_pair); [done..|].
  unfold claim_pair. rewrite (Hid x Hx), (Hid y Hy). f_equal. by apply claimPrecedes_sep.
Qed.

Lemma keys_perm {A B} (m1 : gmap string A) (m2 : gmap string B) :
  (∀ k, is_Some (m1 !! k) ↔ is_Some (m2 !! k)) → sorted_keys m1 = sorted_keys m2.
Proof.
  intros H. unfold sorted_keys. apply sort_by_unique; [apply _| |].
  - intros. by apply str_lt_sep.
  - apply NoDup_Permutation; [apply NoDup_fst_map_to_list..|].
    intros k. pose proof (elem_of_sorted_keys m1 k) as H1. pose proof (elem_of_sorted_keys m2 k) as H2.
    unfold sorted_keys in *. rewrite sort_by_perm in *. by rewrite H1, H2.
Qed.

(** The result, asset by asset. *)
Lemma resolve_eq claims precedence :
  let ranked := set_rank (rank_map 0 precedence ∅) (llen precedence) <$> claims in
  let byAsset := foldl add_group ∅ ranked in
  ResolveAssetClaims claims precedence =
  omap (λ id, byAsset !! id ≫= resolve_group id) (sorted_keys byAsset).
Proof. done. Qed.

Lemma distinct_ranked ranks d claims :
  distinct_claims claims → distinct_claims (set_rank ranks d <$> claims).
Proof.
  unfold distinct_claims. rewrite <-list_fmap_compose.
  assert (claim_pair ∘ set_rank ranks d <$> claims = claim_pair <$> claims) as ->; [|done].
  apply list_fmap_ext. intros. apply set_rank_pair.
Qed.

Lemma distinct_filter P `{∀ c, Decision (P c)} claims :
  distinct_claims claims → distinct_claims (base.filter P claims).
Proof.
  unfold distinct_claims. intros Hd. eapply sublist_NoDup; [exact Hd|].
  apply fmap_sublist, sublist_filter.
Qed.

(** *** First and last observation of a group *)

Definition first_time (acc : string * time * (string * time)) : time := acc.1.2.
Definition last_time (acc : string * time * (string * time)) : time := acc.2.2.

(** The fold keeps, for either end, a time attained by one of the sources it has
    seen, together with that source's observation. *)
Definition attained_first (acc : string * time * (string * time)) (s : AssetSource) : Prop :=
  acc.1 = (Source_FirstObservationID s, Source_FirstObservedAt s).
Definition attained_last (acc : string * time * (string * time)) (s : AssetSource) : Prop :=
  acc.2 = (Source_LastObservationID s, Source_LastObservedAt s).

Lemma widen_spec acc s :
  first_time (widen acc s) = Z.min (first_time acc) (Source_FirstObservedAt s) ∧
  last_time (widen acc s) = Z.max (last_time acc) (Source_LastObservedAt s) ∧
  (attained_first (widen acc s) s ∨ (widen acc s).1 = acc.1) ∧
  (attained_last (widen acc s) s ∨ (widen acc s).2 = acc.2).
Proof.
  destruct acc as [[fid fat] [lid lat]].
  unfold widen, first_time, last_time, attained_first, attained_last, Before, After.
  destruct (Z.ltb_spec (Source_FirstObservedAt s) fat), (Z.ltb_spec lat (Source_LastObservedAt s));
    simpl; repeat split; auto; lia.
Qed.

Lemma widen_fold ss acc :
  let r := foldl widen acc ss in
  first_time r ≤ first_time acc ∧ last_time acc ≤ last_time r ∧
  (∀ s, s ∈ ss → first_time r ≤ Source_FirstObservedAt s ∧ Source_LastObservedAt s ≤ last_time r) ∧
  (r.1 = acc.1 ∨ ∃ s, s ∈ ss ∧ attained_first r s) ∧
  (r.2 = acc.2 ∨ ∃ s, s ∈ ss ∧ attained_last r s).
Proof.
  revert acc. induction ss as [|s ss IH]; intros acc; simpl.
  { split; [lia|]. split; [lia|]. split; [set_solver|]. auto. }
  destruct (widen_spec acc s) as (Hf & Hl & Ha & Hb).
  destruct (IH (widen acc s)) as (H1 & H2 & H3 & H4 & H5).
  split; [lia|]. split; [lia|]. split.
  { intros t [->|Ht]%elem_of_cons; [lia|]. by apply H3. }
  unfold attained_first, attained_last in *.
  split; [destruct H4 as [->|(t & ? & ?)]|destruct H5 as [->|(t & ? & ?)]];
    try (right; exists t; set_solver); [destruct Ha as [Ha| ->]|destruct Hb as [Hb| ->]]; auto;
    right; exists s; set_solver.
Qed.

(** A result of the resolution is the resolution of the non-empty group of claims
    with its identifier. *)
Lemma elem_of_resolve claims precedence r :
  r ∈ ResolveAssetClaims claims precedence →
  let ranked := set_rank (rank_map 0 precedence ∅) (llen precedence) <$> claims in
  resolve_group (Resolved_ID r) (base.filter (λ c, Claim_AssetID c = Resolved_ID r) ranked) = Some r.
Proof.
  intros Hr ranked. rewrite resolve_eq in Hr. fold ranked in Hr.
  apply list_elem_of_omap in Hr as (id & Hid & Hr).
  apply bind_Some in Hr as (g & Hg & Hr). apply groups_lookup in Hg as [-> Hne].
  assert (Resolved_ID r = id) as ->; [|done].
  revert Hr. unfold resolve_group. case_match; [done|].
  destruct (foldl widen _ _) as [[] []]. by intros [= <-].
Qed.

Lemma resolve_group_some id g r :
  resolve_group id g = Some r →
  ∃ w rest, sort_by claimPrecedes g = w :: rest ∧
    Resolved_Asset r = Claim_Asset w ∧ Resolved_WinningSource r = Claim_Source w ∧
    Resolved_Sources r = Claim_Source <$> sort_by claimPrecedes g ∧
    Resolved_Conflicts r = assetConflicts (sort_by claimPrecedes g) ∧
    (Resolved_FirstObservationID r, Resolved_FirstObservedAt r,
     (Resolved_LastObservationID r, Resolved_LastObservedAt r)) =
    foldl widen
      (Source_FirstObservationID (Claim_Source w), Source_FirstObservedAt (Claim_Source w),
       (Source_LastObservationID (Claim_Source w), Source_LastObservedAt (Claim_Source w)))
      (Claim_Source <$> sort_by claimPrecedes g).
Proof.
  unfold resolve_group. destruct (sort_by claimPrecedes g) as [|w rest] eqn:E; [done|].
  destruct (foldl widen _ _) as [[fid fat] [lid lat]] eqn:F.
  intros [= <-]. exists w, rest. simpl. done.
Qed.

(** *** Conflicts *)

Lemma size_list_to_set_gt1 (l : list string) :
  (1 < size (list_to_set l : gset string))%nat ↔ ∃ x y, x ∈ l ∧ y ∈ l ∧ x ≠ y.
Proof.
  split.
  - intros Hs. destruct l as [|x l]; [exfalso; vm_compute in Hs; lia|].
    destruct (decide (Exists (λ y, x ≠ y) l)) as [He|Hne].
    + apply Exists_exists in He as (y & Hy & Hxy). exists x, y. set_solver.
    + exfalso. assert (list_to_set (x :: l) = ({[x]} : gset string)) as Heq.
      { apply set_eq. intros y. rewrite elem_of_list_to_set, elem_of_singleton. split; [|set_solver].
        intros [->|Hy]%elem_of_cons; [done|].
        destruct (decide (x = y)); [done|]. destruct Hne. apply Exists_exists. eauto. }
      rewrite Heq, size_singleton in Hs. lia.
  - intros (x & y & Hx & Hy & Hne).
    rewrite <-(size_singleton (C:=gset string) x).
    apply subset_size. split.
    + intros z. rewrite elem_of_singleton, elem_of_list_to_set. by intros ->.
    + intros Hsub. apply Hne. symmetry. apply (elem_of_singleton (C:=gset string)).
      apply Hsub. by rewrite elem_of_list_to_set.
Qed.

Lemma field_conflict_some claims field :
  is_Some (field_conflict claims field) ↔
  ∃ c d, c ∈ claims ∧ d ∈ claims ∧
    field_text (Claim_Asset c) field ≠ field_text (Claim_Asset d) field.
Proof.
  unfold field_conflict.
  destruct (Nat.ltb_spec 1 (size (list_to_set
    ((λ c, field_text (Claim_Asset c) field) <$> claims) : gset string))) as [Hs|Hs].
  - split; [intros _|eauto]. apply size_list_to_set_gt1 in Hs as (x & y & Hx & Hy & Hne).
    apply list_elem_of_fmap in Hx as (c & -> & ?). apply list_elem_of_fmap in Hy as (d & -> & ?).
    by exists c, d.
  - split; [by intros [? ?]|]. intros (c & d & Hc & Hd & Hne). exfalso.
    apply (Nat.lt_irrefl 1). eapply Nat.lt_le_trans; [|exact Hs].
    apply size_list_to_set_gt1. exists (field_text (Claim_Asset c) field), (field_text (Claim_Asset d) field).
    split; [|split]; [apply list_elem_of_fmap; eauto..|done].
Qed.

Lemma field_conflict_field claims field k :
  field_conflict claims field = Some k → Conflict_Field k = field ∧
  ConflictClaim_Source <$> Conflict_Claims k = Claim_Source <$> claims.
Proof.
  unfold field_conflict. case_match; [|done]. intros [= <-]. split; [done|]. simpl.
  rewrite <-list_fmap_compose. apply list_fmap_ext. intros. simpl.
  by destruct (assetField _ _).
Qed.

(** ** Theorems *)

(** C40: resolution is independent of the order in which a repository lists the
    claims (the in-memory store iterates over Go maps): permuted claims resolve to
    the same assets in the same order, as long as no source claims an asset twice. *)
Theorem ResolveAssetClaims_order_independent (claims1 claims2 : list AssetClaim)
    (precedence : list string) :
  distinct_claims claims1 → claims1 ≡ₚ claims2 →
  ResolveAssetClaims claims1 precedence = ResolveAssetClaims claims2 precedence.
Proof.
  intros Hd Hp. rewrite !resolve_eq. simpl.
  set (rk := set_rank _ _). apply (distinct_ranked (rank_map 0 precedence ∅) (llen precedence)) in Hd.
  fold rk in Hd. assert (Hp' : rk <$> claims1 ≡ₚ rk <$> claims2) by by rewrite Hp.
  set (g1 := foldl _ _ (rk <$> claims1)). set (g2 := foldl _ _ (rk <$> claims2)).
  assert (∀ id, g1 !! id ≫= resolve_group id = g2 !! id ≫= resolve_group id ∧
    (is_Some (g1 !! id) ↔ is_Some (g2 !! id))) as Hg.
  { intros id. unfold g1, g2. rewrite !add_group_lookup, lookup_empty. simpl.
    assert (base.filter (λ c, Claim_AssetID c = id) (rk <$> claims1) ≡ₚ
            base.filter (λ c, Claim_AssetID c = id) (rk <$> claims2)) as Hf by by rewrite Hp'.
    destruct (base.filter _ (rk <$> claims1)) as [|c f1] eqn:E1.
    { apply Permutation_nil in Hf. rewrite Hf. simpl. naive_solver. }
    destruct (base.filter _ (rk <$> claims2)) as [|d f2] eqn:E2.
    { symmetry in Hf. by apply Permutation_nil in Hf. }
    simpl. split; [|naive_solver]. apply resolve_group_perm; [| |done].
    - rewrite <-E1. by apply distinct_filter.
    - intros x Hx. rewrite <-E1 in Hx. by apply list_elem_of_filter in Hx as [? _]. }
  rewrite (keys_perm g1 g2); [|intros k; apply Hg].
  generalize (sorted_keys g2) as ids. induction ids as [|id ids IH]; [done|].
  csimpl. destruct (Hg id) as [-> _]. by rewrite IH.
Qed.

(** C39: every resolved asset is won by a claim of least precedence rank, and by the
    most recently observed one among those; its listed sources are exactly the
    sources of the asset's claims, with their ranks, and the winner comes first. *)
Theorem ResolveAssetClaims_winner (claims : list AssetClaim) (precedence : list string)
    (r : ResolvedAsset) :
  r ∈ ResolveAssetClaims claims precedence →
  let ranked := set_rank (rank_map 0 precedence ∅) (llen precedence) <$> claims in
  let group := base.filter (λ c, Claim_AssetID c = Resolved_ID r) ranked in
  Resolved_Sources r ≡ₚ Claim_Source <$> group ∧
  ∃ w, w ∈ group ∧ Resolved_Asset r = Claim_Asset w ∧ Resolved_WinningSource r = Claim_Source w ∧
    head (Resolved_Sources r) = Some (Claim_Source w) ∧
    ∀ c, c ∈ group → rank_of w ≤ rank_of c ∧ (rank_of c = rank_of w → last_of c ≤ last_of w).
Proof.
  intros Hr ranked group. apply elem_of_resolve in Hr. fold ranked in Hr. fold group in Hr.
  apply resolve_group_some in Hr as (w & rest & Hs & HA & HW & HS & _).
  split; [by rewrite HS, sort_by_perm|]. exists w.
  split; [by rewrite <-(sort_by_perm claimPrecedes group), Hs; left|].
  split; [done|]. split; [done|]. split; [by rewrite HS, Hs|].
  intros c Hc. rewrite <-(sort_by_perm claimPrecedes group), Hs in Hc.
  pose proof (sort_by_sorted claimPrecedes group) as Hsort. rewrite Hs in Hsort.
  apply StronglySorted_cons in Hsort as [Hall _]. rewrite Forall_forall in Hall.
  apply elem_of_cons in Hc as [->|Hc]; [split; lia|].
  specialize (Hall c Hc). unfold not_after in Hall. rewrite claimPrecedes_lex in Hall.
  unfold less_then, less_on in Hall.
  destruct (Z.ltb_spec (rank_of c) (rank_of w)); [done|]. split; [lia|]. intros Heq.
  rewrite Heq, Z.ltb_irrefl in Hall.
  destruct (Z.ltb_spec (- last_of c) (- last_of w)); [done|]. lia.
Qed.

(** The freshness shown for an asset spans all its sources: the first time is
    the least and the last time the greatest of theirs, each together with the
    observation that reported it. *)
Theorem ResolveAssetClaims_freshness (claims : list AssetClaim) (precedence : list string)
    (r : ResolvedAsset) :
  r ∈ ResolveAssetClaims claims precedence →
  (∀ s, s ∈ Resolved_Sources r → Resolved_FirstObservedAt r ≤ Source_FirstObservedAt s ∧
                                 Source_LastObservedAt s ≤ Resolved_LastObservedAt r) ∧
  (∃ s, s ∈ Resolved_Sources r ∧ Source_FirstObservedAt s = Resolved_FirstObservedAt r ∧
        Source_FirstObservationID s = Resolved_FirstObservationID r) ∧
  (∃ s, s ∈ Resolved_Sources r ∧ Source_LastObservedAt s = Resolved_LastObservedAt r ∧
        Source_LastObservationID s = Resolved_LastObservationID r).
Proof.
  intros Hr. apply elem_of_resolve in Hr.
  apply resolve_group_some in Hr as (w & rest & Hs & HA & HW & HS & _ & HF).
  rewrite <-HS in HF.
  assert (Claim_Source w ∈ Resolved_Sources r) as Hw by (rewrite HS, Hs; by left).
  match type of HF with _ = foldl widen ?acc _ => pose proof (widen_fold (Resolved_Sources r) acc) as Hw' end.
  simpl in Hw'. rewrite <-HF in Hw'. unfold first_time, last_time, attained_first, attained_last in Hw'.
  simpl in Hw'. destruct Hw' as (_ & _ & Hall & Hf & Hl).
  split; [done|]. split.
  - destruct Hf as [[= -> ->]|(s & Hs' & [= -> ->])]; eauto.
  - destruct Hl as [[= -> ->]|(s & Hs' & [= -> ->])]; eauto.
Qed.

(** A field of an asset is reported as a conflict exactly when it is one of the
    asset's fields and two claims give it different values or presence; the
    conflict lists every source of the asset. *)
Theorem assetConflicts_spec (claims : list AssetClaim) (field : string) :
  (∃ k, k ∈ assetConflicts claims ∧ Conflict_Field k = field) ↔
  field ∈ conflict_fields claims ∧
  ∃ c d, c ∈ claims ∧ d ∈ claims ∧
    field_text (Claim_Asset c) field ≠ field_text (Claim_Asset d) field.
Proof.
  unfold assetConflicts. destruct (Nat.ltb_spec (length claims) 2) as [Hlen|Hlen].
  - split; [intros (? & ?%elem_of_nil & _); done|]. intros (_ & c & d & Hc & Hd & Hne).
    destruct claims as [|x [|y claims]]; simpl in Hlen; [set_solver| |lia].
    apply list_elem_of_singleton in Hc as ->. by apply list_elem_of_singleton in Hd as ->.
  - rewrite <-field_conflict_some. split.
    + intros (k & Hk & <-). apply list_elem_of_omap in Hk as (f & Hf & Hk).
      destruct (field_conflict_field _ _ _ Hk) as [-> _]. eauto.
    + intros [Hf [k Hk]]. exists k. split; [apply list_elem_of_omap; eauto|].
      by apply field_conflict_field in Hk as [? _].
Qed.

(** A precedence list is accepted exactly when it has at most 64 distinct
    names, each of 1 to 128 bytes without whitespace, commas or control characters. *)
Theorem ValidateSourcePrecedence_spec (plugins : list string) :
  ValidateSourcePrecedence plugins = Ok tt ↔
  llen plugins ≤ 64 ∧ NoDup plugins ∧
  Forall (λ p, p ≠ ""%string ∧ slen p ≤ 128 ∧ existsb bad_plugin_rune (runes p) = false) plugins.
Proof.
  unfold ValidateSourcePrecedence, maxSourcePrecedenceEntries.
  destruct (Z.ltb_spec 64 (llen plugins)) as [?|Hlen]; [naive_solver lia|].
  assert (∀ seen, validate_plugins seen plugins = Ok tt ↔
    (∀ p, p ∈ plugins → p ∉ seen) ∧ NoDup plugins ∧
    Forall (λ p, p ≠ ""%string ∧ slen p ≤ 128 ∧ existsb bad_plugin_rune (runes p) = false) plugins)
    as Hgo.
  { clear Hlen. induction plugins as [|p ps IH]; intros seen; simpl.
    { split; [|done]. intros _. split; [set_solver|]. split; constructor. }
    rewrite NoDup_cons, Forall_cons. unfold maxPluginNameBytes.
    case_bool_decide; [naive_solver|]. destruct (Z.ltb_spec 128 (slen p)); [naive_solver lia|].
    destruct (existsb _ (runes p)) eqn:Eb; [naive_solver|].
    case_bool_decide as Hseen; [|rewrite IH].
    - split; [done|]. intros (Hs & _). by destruct (Hs p ltac:(by left)).
    - split.
      + intros (Hs & Hn & HF). split; [|split; [split|split]]; try done; set_solver.
      + intros (Hs & (Hn & HN) & _ & HF). split; [set_solver|done]. }
  rewrite Hgo. set_solver.
Qed.

(** ** Witnesses *)

Definition example_claim (plugin : string) (name : string) (first last : time) : AssetClaim :=
  mkAssetClaim "a1" (mkAsset AssetHost "h1" name ∅ ∅ [])
    (mkAssetSource "site" "c1" plugin ("o" +:+ decimal first) ("o" +:+ decimal last) first last 0 false).
Definition example_claims : list AssetClaim :=
  [example_claim "snmp" "router" 10 40; example_claim "ssh-linux" "web" 20 30].

Lemma example_claims_distinct : distinct_claims example_claims.
Proof. apply (bool_decide_unpack _). vm_compute. exact I. Qed.

Lemma head_elem {A} (l : list A) x : head l = Some x → x ∈ l.
Proof. destruct l; [done|]. intros [= ->]. by left. Qed.

Lemma ResolveAssetClaims_order_independent_witness :
  ResolveAssetClaims example_claims ["ssh-linux"] = ResolveAssetClaims (reverse example_claims) ["ssh-linux"]
  ∧ (Resolved_Asset <$> ResolveAssetClaims example_claims ["ssh-linux"]) =
    [mkAsset AssetHost "h1" "web" ∅ ∅ []].
Proof.
  split.
  - apply (ResolveAssetClaims_order_independent example_claims); [exact example_claims_distinct|].
    symmetry. apply reverse_Permutation.
  - vm_compute. reflexivity.
Defined.

Lemma ResolveAssetClaims_winner_witness :
  match head (ResolveAssetClaims example_claims ["ssh-linux"]) with
  | Some r => Asset_Name (Resolved_Asset r) = "web"%string ∧
      ∃ w, Resolved_WinningSource r = Claim_Source w ∧ head (Resolved_Sources r) = Some (Claim_Source w)
  | None => False
  end.
Proof.
  destruct (head (ResolveAssetClaims example_claims ["ssh-linux"])) as [r|] eqn:E.
  - pose proof (ResolveAssetClaims_winner example_claims ["ssh-linux"%string] r (head_elem _ _ E))
      as (_ & w & _ & _ & HW & HH & _).
    split; [|by exists w]. apply (f_equal (fmap (λ r, Asset_Name (Resolved_Asset r)))) in E.
    vm_compute in E. by injection E.
  - vm_compute in E. discriminate.
Defined.

Lemma ResolveAssetClaims_freshness_witness :
  match head (ResolveAssetClaims example_claims ["ssh-linux"]) with
  | Some r => Resolved_FirstObservedAt r = 10 ∧ Resolved_LastObservedAt r = 40 ∧
      ∃ s, s ∈ Resolved_Sources r ∧ Source_LastObservedAt s = Resolved_LastObservedAt r
  | None => False
  end.
Proof.
  destruct (head (ResolveAssetClaims example_claims ["ssh-linux"])) as [r|] eqn:E.
  - pose proof (ResolveAssetClaims_freshness example_claims ["ssh-linux"%string] r (head_elem _ _ E))
      as (_ & _ & s & Hs & HL & _).
    apply (f_equal (fmap (λ r, (Resolved_FirstObservedAt r, Resolved_LastObservedAt r)))) in E.
    vm_compute in E. injection E as E1 E2. split; [done|]. split; [done|]. eauto.
  - vm_compute in E. discriminate.
Defined.
