(* ===== verification/Memory.v ===== *)
(** * [internal/store]: the in-memory repository

    [Memory] of [internal/store/store.go]: observations, per-source asset claims,
    relationships, the audit log, schedules and certificate revocations.  Every
    method runs under the store's mutex, so a method is one step on the state.
    [spec_observations], [claim_spec] and the other specifications of the second
    half say what a repository promises; the theorems show that [Memory] implements
    them after every sequence of method calls. *)

From S2P Require Import Prelude Bytes Time Model AuditLog Claims.

Record Memory := mkMemory {
  observations : list ObservationEnvelope;
  observationIndex : gmap string nat;
  assetClaims : gmap string (gmap string AssetClaim);
  relationships : gmap string ResolvedRelationship;
  auditEntries : list Entry;
  schedules : gmap string Schedule;
  revocations : gmap string CertificateRevocation;
}.

Definition NewMemory : Memory := mkMemory [] ∅ ∅ ∅ [] ∅ ∅.

(** ** [SaveObservation] *)

Definition save_envelope (e : ObservationEnvelope) (obs : list ObservationEnvelope)
    (index : gmap string nat) : list ObservationEnvelope * gmap string nat :=
  match index !! Envelope_ObservationID e with
  | Some idx => (<[idx := e]> obs, index)
  | None => (obs ++ [e], <[Envelope_ObservationID e := length obs]> index)
  end.

Definition set_first (s : AssetSource) (id : string) (at_ : time) : AssetSource :=
  mkAssetSource (Source_SiteID s) (Source_CollectorID s) (Source_Plugin s)
    id (Source_LastObservationID s) at_ (Source_LastObservedAt s)
    (Source_PrecedenceRank s) (Source_ExplicitPrecedence s).
Definition set_last (s : AssetSource) (id : string) (at_ : time) : AssetSource :=
  mkAssetSource (Source_SiteID s) (Source_CollectorID s) (Source_Plugin s)
    (Source_FirstObservationID s) id (Source_FirstObservedAt s) at_
    (Source_PrecedenceRank s) (Source_ExplicitPrecedence s).

Definition envelope_key (e : ObservationEnvelope) : string :=
  AssetSourceKey (Envelope_SiteID e) (Envelope_CollectorID e) (Envelope_Plugin e).

(** The claim of [e]'s source about asset [a], given the claim already held. *)
Definition update_claim (e : ObservationEnvelope) (a : Asset) (held : option AssetClaim) : AssetClaim :=
  let id := StableAssetID a in
  let oid := Envelope_ObservationID e in
  let at_ := Envelope_ObservedAt e in
  let exists_ := bool_decide (is_Some held) in
  let claim := default
    (mkAssetClaim id (mkAsset "" "" "" ∅ ∅ [])
       (mkAssetSource (Envelope_SiteID e) (Envelope_CollectorID e) (Envelope_Plugin e)
          oid "" at_ zero_time 0 false)) held in
  let src := Claim_Source claim in
  let src := if negb exists_ || Before at_ (Source_FirstObservedAt src)
             then set_first src oid at_ else src in
  if negb exists_ || negb (Before at_ (Source_LastObservedAt src))
  then mkAssetClaim (Claim_AssetID claim) a (set_last src oid at_)
  else mkAssetClaim (Claim_AssetID claim) (Claim_Asset claim) src.

Definition save_asset (e : ObservationEnvelope) (m : gmap string (gmap string AssetClaim)) (a : Asset)
    : gmap string (gmap string AssetClaim) :=
  let id := StableAssetID a in
  let sourceKey := envelope_key e in
  let claims := default ∅ (m !! id) in
  <[id := <[sourceKey := update_claim e a (claims !! sourceKey)]> claims]> m.

Definition save_relationship (e : ObservationEnvelope) (m : gmap string ResolvedRelationship)
    (rel : Relationship) : gmap string ResolvedRelationship :=
  let id := StableRelationshipID rel in
  let oid := Envelope_ObservationID e in
  let r := default (mkResolvedRelationship id rel oid "") (m !! id) in
  <[id := mkResolvedRelationship (ResolvedRel_ID r) rel (ResolvedRel_FirstObservationID r) oid]> m.

Definition SaveObservation (e : ObservationEnvelope) (m : Memory) : Memory :=
  let '(obs, index) := save_envelope e (observations m) (observationIndex m) in
  mkMemory obs index
    (foldl (save_asset e) (assetClaims m) (Envelope_Assets e))
    (foldl (save_relationship e) (relationships m) (Envelope_Relationships e))
    (auditEntries m) (schedules m) (revocations m).

(** ** Queries *)

Definition ListObservations (m : Memory) : list ObservationEnvelope := observations m.

Definition claim_less (a b : AssetClaim) : bool :=
  if negb (String.eqb (Claim_AssetID a) (Claim_AssetID b))
  then str_lt (Claim_AssetID a) (Claim_AssetID b)
  else str_lt (source_key (Claim_Source a)) (source_key (Claim_Source b)).

Definition ListAssetClaims (m : Memory) : list AssetClaim :=
  sort_by claim_less (map_to_list (assetClaims m) ≫= λ kv, (map_to_list kv.2).*2).

Definition ListAssets (m : Memory) : list ResolvedAsset := ResolveAssetClaims (ListAssetClaims m) [].

(** [sort.Slice] of a map's values by a key of theirs *)
Definition values_by {A} (key : A → string) (m : gmap string A) : list A :=
  sort_by (less_on key str_lt) (map_to_list m).*2.

Definition ListRelationships (m : Memory) : list ResolvedRelationship :=
  values_by ResolvedRel_ID (relationships m).

(** ** The audit log *)

Definition with_audit (m : Memory) (es : list Entry) : Memory :=
  mkMemory (observations m) (observationIndex m) (assetClaims m) (relationships m) es
    (schedules m) (revocations m).

Definition AppendAuditEvent (now : time) (ev : Event) (m : Memory) : Memory * Entry :=
  let prevHash := match last (auditEntries m) with Some e => Entry_Hash e | None => ""%string end in
  let entry := Chain prevHash (llen (auditEntries m) + 1) now ev in
  (with_audit m (auditEntries m ++ [entry]), entry).

Definition ListAuditEntries (m : Memory) : list Entry := auditEntries m.

(** ** Schedules *)

Definition ErrNotFound : string := "not found".

Definition with_schedules (m : Memory) (s : gmap string Schedule) : Memory :=
  mkMemory (observations m) (observationIndex m) (assetClaims m) (relationships m) (auditEntries m)
    s (revocations m).

Definition UpsertSchedule (sched : Schedule) (m : Memory) : Memory :=
  with_schedules m (<[Schedule_CollectorID sched := sched]> (schedules m)).
Definition ListSchedules (m : Memory) : list Schedule :=
  values_by Schedule_CollectorID (schedules m).
Definition GetSchedule (collectorID : string) (m : Memory) : go Schedule :=
  match schedules m !! collectorID with Some s => Ok s | None => Err ErrNotFound end.
Definition DeleteSchedule (collectorID : string) (m : Memory) : Memory :=
  with_schedules m (delete collectorID (schedules m)).

(** ** Certificate revocations *)

Definition with_revocations (m : Memory) (r : gmap string CertificateRevocation) : Memory :=
  mkMemory (observations m) (observationIndex m) (assetClaims m) (relationships m) (auditEntries m)
    (schedules m) r.

Definition RevokeCertificate (r : CertificateRevocation) (m : Memory) : Memory * bool :=
  match revocations m !! Revocation_SerialNumber r with
  | Some _ => (m, false)
  | None => (with_revocations m (<[Revocation_SerialNumber r := r]> (revocations m)), true)
  end.
Definition ListCertificateRevocations (m : Memory) : list CertificateRevocation :=
  values_by Revocation_SerialNumber (revocations m).
Definition IsCertificateRevoked (serial : string) (m : Memory) : bool :=
  bool_decide (is_Some (revocations m !! serial)).

(** ** The methods as steps *)

Inductive store_op : Type :=
| op_save (e : ObservationEnvelope)
| op_audit (now : time) (ev : Event)
| op_upsert_schedule (s : Schedule)
| op_delete_schedule (collectorID : string)
| op_revoke (r : CertificateRevocation).

Definition store_step (m : Memory) (op : store_op) : Memory :=
  match op with
  | op_save e => SaveObservation e m
  | op_audit now ev => (AppendAuditEvent now ev m).1
  | op_upsert_schedule s => UpsertSchedule s m
  | op_delete_schedule c => DeleteSchedule c m
  | op_revoke r => (RevokeCertificate r m).1
  end.

Definition run_store (ops : list store_op) : Memory := foldl store_step NewMemory ops.

(** The observations an operation sequence saves, in order. *)
Definition saves (ops : list store_op) : list ObservationEnvelope :=
  omap (λ op, match op with op_save e => Some e | _ => None end) ops.

(** ** Abstract specification *)

(** Saving is an upsert on a list: replace the observation with the same ID where
    it stands, or append. *)
Fixpoint upsert_observation (e : ObservationEnvelope) (l : list ObservationEnvelope) :=
  match l with
  | [] => [e]
  | x :: l =>
    if String.eqb (Envelope_ObservationID x) (Envelope_ObservationID e) then e :: l
    else x :: upsert_observation e l
  end.

Definition spec_observations (es : list ObservationEnvelope) : list ObservationEnvelope :=
  foldl (λ l e, upsert_observation e l) [] es.

(** What the saved observations report, one entry per asset mentioned. *)
Definition reports (es : list ObservationEnvelope) : list (ObservationEnvelope * Asset) :=
  mjoin ((λ e, (e,.) <$> Envelope_Assets e) <$> es).

Definition report_about (id key : string) (r : ObservationEnvelope * Asset) : bool :=
  String.eqb (StableAssetID r.2) id && String.eqb (envelope_key r.1) key.

Definition claim_at (m : Memory) (id key : string) : option AssetClaim :=
  assetClaims m !! id ≫= λ c, c !! key.

(** ** Lemmas *)

Lemma run_store_snoc ops op : run_store (ops ++ [op]) = store_step (run_store ops) op.
Proof. unfold run_store. by rewrite foldl_app. Qed.

Lemma saves_app ops1 ops2 : saves (ops1 ++ ops2) = saves ops1 ++ saves ops2.
Proof. unfold saves. by rewrite omap_app. Qed.

Definition ids_of (l : list ObservationEnvelope) : list string := Envelope_ObservationID <$> l.

(** The index maps exactly the stored IDs to their positions. *)
Definition index_ok (m : Memory) : Prop :=
  indexed Envelope_ObservationID (observations m) (observationIndex m).

Lemma upsert_absent e l :
  Envelope_ObservationID e ∉ ids_of l → upsert_observation e l = l ++ [e].
Proof.
  induction l as [|x l IH]; simpl; [done|]. rewrite not_elem_of_cons. intros [Hx Hl].
  destruct (String.eqb_spec (Envelope_ObservationID x) (Envelope_ObservationID e)); [congruence|].
  f_equal. by apply IH.
Qed.

Lemma upsert_present e l i :
  NoDup (ids_of l) → ids_of l !! i = Some (Envelope_ObservationID e) →
  upsert_observation e l = <[i := e]> l.
Proof.
  revert i. induction l as [|x l IH]; intros i Hd Hi; [done|]. simpl.
  apply NoDup_cons in Hd as [Hx Hd].
  destruct (String.eqb_spec (Envelope_ObservationID x) (Envelope_ObservationID e)) as [Heq|Hne].
  - destruct i as [|i]; [done|]. exfalso. apply Hx. rewrite Heq.
    exact (list_elem_of_lookup_2 (ids_of l) i _ Hi).
  - destruct i as [|i]; simpl in *; [congruence|]. f_equal. by apply IH.
Qed.

Lemma save_index_ok e m : index_ok m → index_ok (SaveObservation e m).
Proof.
  intros Hok. unfold index_ok, SaveObservation, save_envelope.
  destruct (observationIndex m !! _) as [idx|] eqn:E; simpl.
  - by apply indexed_replace.
  - by apply indexed_append.
Qed.

Lemma save_observations e m :
  index_ok m → observations (SaveObservation e m) = upsert_observation e (observations m).
Proof.
  intros Hok. unfold SaveObservation, save_envelope.
  destruct (observationIndex m !! _) as [idx|] eqn:E; simpl.
  - symmetry. apply upsert_present; [by eapply indexed_nodup|]. by apply Hok.
  - symmetry. apply upsert_absent. by eapply indexed_absent.
Qed.

Lemma run_index_ok ops : index_ok (run_store ops).
Proof.
  induction ops as [|op ops IH] using rev_ind; [done|].
  rewrite run_store_snoc. destruct op; simpl; try exact IH.
  - by apply save_index_ok.
  - unfold RevokeCertificate. by case_match.
Qed.

(** *** Claims *)

Lemma claim_at_save_asset e a cl id key :
  (save_asset e cl a !! id ≫= λ c, c !! key) =
  if report_about id key (e, a) then Some (update_claim e a (cl !! id ≫= λ c, c !! key))
  else (cl !! id ≫= λ c, c !! key).
Proof.
  unfold save_asset, report_about. simpl.
  destruct (String.eqb_spec (StableAssetID a) id) as [<-|Hne]; simpl.
  - rewrite lookup_insert_eq. simpl. destruct (String.eqb_spec (envelope_key e) key) as [<-|Hk].
    + rewrite lookup_insert_eq. by destruct (cl !! StableAssetID a).
    + rewrite lookup_insert_ne by done. by destruct (cl !! StableAssetID a).
  - by rewrite lookup_insert_ne.
Qed.

Definition apply_report (held : option AssetClaim) (r : ObservationEnvelope * Asset) :=
  Some (update_claim r.1 r.2 held).

Lemma claims_fold rs cl id key :
  (foldl (λ m r, save_asset r.1 m r.2) cl rs !! id ≫= λ c, c !! key) =
  foldl apply_report (cl !! id ≫= λ c, c !! key) (base.filter (report_about id key) rs).
Proof.
  revert cl. induction rs as [|[e a] rs IH]; intros cl; simpl; [done|].
  rewrite IH, claim_at_save_asset, filter_cons.
  destruct (report_about id key (e, a)) eqn:E; case_decide; simpl; done || congruence.
Qed.

Lemma save_claims_reports e m :
  assetClaims (SaveObservation e m) =
  foldl (λ cl r, save_asset r.1 cl r.2) (assetClaims m) ((e,.) <$> Envelope_Assets e).
Proof.
  unfold SaveObservation. destruct (save_envelope _ _ _). simpl.
  generalize (assetClaims m). generalize (Envelope_Assets e).
  intros assets. induction assets as [|a assets IH]; intros cl; simpl; auto.
Qed.

Lemma run_claims ops :
  assetClaims (run_store ops) = foldl (λ cl r, save_asset r.1 cl r.2) ∅ (reports (saves ops)).
Proof.
  induction ops as [|op ops IH] using rev_ind; [done|].
  rewrite run_store_snoc, saves_app. unfold reports. rewrite fmap_app, join_app, foldl_app.
  fold (reports (saves ops)). rewrite <-IH.
  destruct op; simpl; try done.
  - rewrite app_nil_r. apply save_claims_reports.
  - unfold RevokeCertificate. by case_match.
Qed.

Lemma claim_at_history ops id key :
  claim_at (run_store ops) id key =
  foldl apply_report None (base.filter (report_about id key) (reports (saves ops))).
Proof. unfold claim_at. by rewrite run_claims, claims_fold. Qed.

(** What a claim says after a list of reports of its source about its asset. *)
Record claim_spec (id key : string) (rs : list (ObservationEnvelope * Asset)) (c : AssetClaim) : Prop := {
  spec_id : Claim_AssetID c = id;
  spec_key : source_key (Claim_Source c) = key;
  spec_bounds r : r ∈ rs →
    Source_FirstObservedAt (Claim_Source c) ≤ Envelope_ObservedAt r.1 ≤ Source_LastObservedAt (Claim_Source c);
  spec_first : ∃ r, r ∈ rs ∧ Envelope_ObservedAt r.1 = Source_FirstObservedAt (Claim_Source c) ∧
    Envelope_ObservationID r.1 = Source_FirstObservationID (Claim_Source c);
  spec_last : ∃ r, r ∈ rs ∧ Envelope_ObservedAt r.1 = Source_LastObservedAt (Claim_Source c) ∧
    Envelope_ObservationID r.1 = Source_LastObservationID (Claim_Source c) ∧ Claim_Asset c = r.2;
}.

Lemma reports_about_fold id key rs c :
  Forall (λ r, report_about id key r = true) rs →
  foldl apply_report None rs = Some c → claim_spec id key rs c.
Proof.
  revert c. induction rs as [|[e a] rs IH] using rev_ind; intros c; [done|].
  rewrite Forall_app, Forall_singleton, foldl_app. simpl. intros [Hrs Hr] [= <-].
  unfold report_about in Hr. simpl in Hr. apply andb_true_iff in Hr as [Hid Hkey].
  apply String.eqb_eq in Hid, Hkey. unfold update_claim.
  destruct (foldl apply_report None rs) as [c|] eqn:E.
  - destruct (IH c Hrs eq_refl) as [S1 S2 S3 S4 S5]. simpl.
    unfold Before.
    destruct (Z.ltb_spec (Envelope_ObservedAt e) (Source_FirstObservedAt (Claim_Source c))) as [H1|H1]; simpl;
    destruct (Z.ltb_spec (Envelope_ObservedAt e) (Source_LastObservedAt (Claim_Source c))) as [H2|H2]; simpl;
    (split; simpl; [exact S1|exact S2| | |]).
    all: try (intros r [Hin|Hin%list_elem_of_singleton]%elem_of_app; [|subst r]; [specialize (S3 r Hin)|]; simpl; lia).
    all: try (exists (e, a); split; [set_solver|done]).
    all: try (destruct S4 as (r & ? & ?); exists r; split; [set_solver|done]).
    all: try (destruct S5 as (r & ? & ?); exists r; split; [set_solver|done]).
  - destruct rs as [|r rs] using rev_ind; [|rewrite foldl_app in E; by simpl in E].
    simpl. split; simpl; [done|by rewrite <-Hkey| | |].
    + intros r ->%list_elem_of_singleton. simpl. lia.
    + exists (e, a). split; [set_solver|done].
    + exists (e, a). split; [set_solver|done].
Qed.

Lemma filter_about id key rs :
  Forall (λ r, report_about id key r = true) (base.filter (report_about id key) rs).
Proof. apply Forall_forall. intros r [H _]%list_elem_of_filter. by apply Is_true_true. Qed.

Lemma auditEntries_step m op :
  auditEntries (store_step m op) =
  match op with
  | op_audit now ev => auditEntries m ++ [Chain (last_hash (auditEntries m)) (llen (auditEntries m) + 1) now ev]
  | _ => auditEntries m
  end.
Proof.
  destruct op; simpl; try done.
  - unfold SaveObservation. by destruct (save_envelope _ _ _).
  - unfold RevokeCertificate. by case_match.
Qed.

Lemma revocations_step m op :
  revocations (store_step m op) =
  match op with
  | op_revoke r => if decide (is_Some (revocations m !! Revocation_SerialNumber r)) then revocations m
                   else <[Revocation_SerialNumber r := r]> (revocations m)
  | _ => revocations m
  end.
Proof.
  destruct op; simpl; try done.
  - unfold SaveObservation. by destruct (save_envelope _ _ _).
  - unfold RevokeCertificate. destruct (revocations m !! _) eqn:E; case_decide as Hd; try done.
    by destruct Hd.
Qed.

Lemma schedules_step m op :
  schedules (store_step m op) =
  match op with
  | op_upsert_schedule s => <[Schedule_CollectorID s := s]> (schedules m)
  | op_delete_schedule c => delete c (schedules m)
  | _ => schedules m
  end.
Proof.
  destruct op; simpl; try done.
  - unfold SaveObservation. by destruct (save_envelope _ _ _).
  - unfold RevokeCertificate. by case_match.
Qed.

Lemma observations_step m op :
  index_ok m →
  observations (store_step m op) =
  match op with op_save e => upsert_observation e (observations m) | _ => observations m end.
Proof.
  intros Hok. destruct op; simpl; try done.
  - by apply save_observations.
  - unfold RevokeCertificate. by case_match.
Qed.

(** Extending a history only adds revocations. *)
Lemma revocations_grow m ops serial r :
  revocations m !! serial = Some r → revocations (foldl store_step m ops) !! serial = Some r.
Proof.
  revert m. induction ops as [|op ops IH]; intros m Hm; [done|]. simpl. apply IH.
  rewrite revocations_step. destruct op as [| | | |q]; try done.
  case_decide as Hd; [done|]. rewrite lookup_insert_ne; [done|].
  intros Heq. apply Hd. rewrite Heq. eauto.
Qed.

Lemma values_by_elem {A} (key : A → string) (m : gmap string A) x :
  x ∈ values_by key m ↔ ∃ k, m !! k = Some x.
Proof.
  unfold values_by. rewrite sort_by_perm, list_elem_of_fmap. split.
  - intros ([k y] & -> & Hk%elem_of_map_to_list). eauto.
  - intros [k Hk]. exists (k, x). split; [done|]. by apply elem_of_map_to_list.
Qed.

Lemma values_by_sorted {A} (key : A → string) (m : gmap string A) :
  StronglySorted (not_after (less_on key str_lt)) (values_by key m).
Proof. apply sort_by_sorted, _. Qed.

#[export] Instance claim_less_weak : StrictWeak claim_less.
Proof.
  assert (∀ a b, claim_less a b =
    less_then (less_on Claim_AssetID str_lt) (less_on (λ c, source_key (Claim_Source c)) str_lt) a b)
    as Heq.
  { intros a b. unfold claim_less, less_then, less_on.
    destruct (String.eqb_spec (Claim_AssetID a) (Claim_AssetID b)) as [->|Hne]; simpl.
    - by rewrite str_lt_irrefl.
    - destruct (str_lt (Claim_AssetID a) (Claim_AssetID b)) eqn:E1; [done|].
      destruct (str_lt (Claim_AssetID b) (Claim_AssetID a)) eqn:E2; [done|].
      destruct Hne. by apply str_lt_sep. }
  split; intros *; rewrite !Heq; [apply sw_asym|apply sw_neg_trans].
Qed.

Lemma ListAssetClaims_elem m c :
  c ∈ ListAssetClaims m ↔ ∃ id key, claim_at m id key = Some c.
Proof.
  unfold ListAssetClaims, claim_at. rewrite sort_by_perm, list_elem_of_bind. split.
  - intros ([id cs] & Hc & Hid%elem_of_map_to_list). simpl in Hc.
    apply list_elem_of_fmap in Hc as ([key c'] & -> & Hk%elem_of_map_to_list).
    exists id, key. by rewrite Hid.
  - intros (id & key & (cs & Hid & Hk)%bind_Some). exists (id, cs).
    split; [|by apply elem_of_map_to_list].
    apply list_elem_of_fmap. exists (key, c). split; [done|]. by apply elem_of_map_to_list.
Qed.

(** Claims are stored under the asset and source they name. *)
Definition claims_keyed (m : Memory) : Prop :=
  ∀ id key c, claim_at m id key = Some c → claim_pair c = (id, key).

Lemma claims_keyed_distinct m : claims_keyed m → distinct_claims (ListAssetClaims m).
Proof.
  intros Hk. unfold distinct_claims, ListAssetClaims. rewrite sort_by_perm.
  assert (∀ l : list (string * gmap string AssetClaim),
    claim_pair <$> (l ≫= λ kv, (map_to_list kv.2).*2) =
    l ≫= λ kv, claim_pair <$> (map_to_list kv.2).*2) as ->.
  { intros l. induction l as [|x l IH]; [done|]. csimpl. by rewrite fmap_app, IH. }
  assert (∀ id cs p, (id, cs) ∈ map_to_list (assetClaims m) →
    p ∈ claim_pair <$> (map_to_list cs).*2 → p.1 = id ∧ is_Some (cs !! p.2)) as Hp.
  { intros id cs p Hid%elem_of_map_to_list (c & -> & Hc)%list_elem_of_fmap.
    apply list_elem_of_fmap in Hc as ([key c'] & -> & Hc%elem_of_map_to_list).
    cbn [snd]. rewrite (Hk id key c'); [cbn; eauto|]. unfold claim_at. by rewrite Hid. }
  apply NoDup_bind.
  - intros [id1 cs1] [id2 cs2] p H1 H2 Hp1 Hp2.
    destruct (Hp _ _ _ H1 Hp1) as [<- _]. destruct (Hp _ _ _ H2 Hp2) as [<- _].
    apply elem_of_map_to_list in H1, H2. congruence.
  - intros [id cs] Hid. simpl. apply elem_of_map_to_list in Hid.
    assert (claim_pair <$> (map_to_list cs).*2 = (id,.) <$> (map_to_list cs).*1) as ->.
    { rewrite <-!list_fmap_compose. apply list_fmap_ext. intros i [key c] Hi. simpl.
      apply Hk. unfold claim_at. rewrite Hid. simpl.
      apply elem_of_map_to_list. by eapply list_elem_of_lookup_2. }
    apply NoDup_fmap_2; [by intros ?? [=]|]. apply NoDup_fst_map_to_list.
  - apply NoDup_map_to_list.
Qed.

Lemma claims_history ops id key :
  match claim_at (run_store ops) id key with
  | None => base.filter (report_about id key) (reports (saves ops)) = []
  | Some c => claim_spec id key (base.filter (report_about id key) (reports (saves ops))) c
  end.
Proof.
  rewrite claim_at_history. destruct (foldl _ _ _) eqn:E.
  - eapply reports_about_fold; [apply filter_about|done].
  - destruct (base.filter _ _) as [|r rs] using rev_ind; [done|]. by rewrite foldl_app in E.
Qed.

Lemma run_claims_keyed ops : claims_keyed (run_store ops).
Proof.
  intros id key c Hc. pose proof (claims_history ops id key) as H. rewrite Hc in H.
  destruct H as [H1 H2 _ _ _]. unfold claim_pair, key_of. by rewrite H1, H2.
Qed.

Lemma audit_verifies ops : VerifyChain (auditEntries (run_store ops)) = Ok tt.
Proof.
  induction ops as [|op ops IH] using rev_ind; [done|].
  rewrite run_store_snoc, auditEntries_step. destruct op; try done. by apply verify_append.
Qed.

(** ** Theorems *)

(** After any sequence of method calls the audit log verifies. *)
Theorem run_store_audit_verifies (ops : list store_op) :
  VerifyChain (ListAuditEntries (run_store ops)) = Ok tt.
Proof. apply audit_verifies. Qed.

(** The slice and its index implement an upsert by observation ID: the stored
    observations are those of the specification, and no ID is stored twice. *)
Theorem run_store_observations (ops : list store_op) :
  ListObservations (run_store ops) = spec_observations (saves ops) ∧
  NoDup (Envelope_ObservationID <$> ListObservations (run_store ops)).
Proof.
  split; [|eapply indexed_nodup, run_index_ok]. unfold ListObservations.
  induction ops as [|op ops IH] using rev_ind; [done|].
  rewrite run_store_snoc, observations_step by apply run_index_ok.
  rewrite saves_app. unfold spec_observations. rewrite foldl_app. fold (spec_observations (saves ops)).
  by destruct op; simpl; rewrite IH.
Qed.

(** C28: the claim of a source about an asset is determined by what that source
    reported about it: there is one exactly when some saved observation reports
    it; its first and last times bound all reports, are each attained by the
    observation named in the claim, and the asset held is that of the last one. *)
Theorem run_store_claims (ops : list store_op) (id key : string) :
  match claim_at (run_store ops) id key with
  | None => ∀ r, r ∈ reports (saves ops) → report_about id key r = false
  | Some c => claim_spec id key (base.filter (report_about id key) (reports (saves ops))) c
  end.
Proof.
  pose proof (claims_history ops id key) as H. destruct (claim_at _ _ _); [done|].
  intros r Hr. destruct (report_about id key r) eqn:E; [|done]. exfalso.
  assert (r ∈ base.filter (report_about id key) (reports (saves ops))) as Hf.
  { apply list_elem_of_filter. by rewrite E. }
  rewrite H in Hf. by apply elem_of_nil in Hf.
Qed.

(** The claims listed for resolution are sorted by asset and source and name
    each pair at most once, so the resolved assets do not depend on the iteration
    order of the store's maps. *)
Theorem run_store_list_claims (ops : list store_op) (claims : list AssetClaim) :
  claims ≡ₚ ListAssetClaims (run_store ops) →
  StronglySorted (not_after claim_less) (ListAssetClaims (run_store ops)) ∧
  sort_by claim_less claims = ListAssetClaims (run_store ops).
Proof.
  intros Hp. split; [apply sort_by_sorted, _|].
  pose proof (claims_keyed_distinct _ (run_claims_keyed ops)) as Hd.
  unfold ListAssetClaims in *. set (l := map_to_list _ ≫= _) in *.
  apply sort_by_unique; [apply _| |by rewrite Hp, sort_by_perm].
  intros x y Hx Hy H1 H2. eapply (NoDup_fmap_inj_elem claim_pair); [exact Hd|by rewrite <-Hp|by rewrite <-Hp|].
  unfold claim_less, claim_pair in *.
  destruct (String.eqb_spec (Claim_AssetID x) (Claim_AssetID y)) as [Heq|Hne]; simpl in *.
  - rewrite Heq, String.eqb_refl in H2. simpl in H2. f_equal; [done|]. by apply str_lt_sep.
  - destruct (String.eqb_spec (Claim_AssetID y) (Claim_AssetID x)) as [Heq|_]; [congruence|].
    destruct Hne. by apply str_lt_sep.
Qed.

(** A revocation, once recorded, is never changed or removed; a second
    revocation of the serial number reports [false] and changes nothing. *)
Theorem revocation_permanent (ops later : list store_op) (r : CertificateRevocation) :
  let m := run_store ops in
  let serial := Revocation_SerialNumber r in
  (IsCertificateRevoked serial m = false → RevokeCertificate r m =
     (with_revocations m (<[serial := r]> (revocations m)), true)) ∧
  (IsCertificateRevoked serial m = true →
     RevokeCertificate r m = (m, false) ∧
     revocations (foldl store_step m later) !! serial = revocations m !! serial) ∧
  IsCertificateRevoked serial (foldl store_step (RevokeCertificate r m).1 later) = true.
Proof.
  intros m serial. unfold IsCertificateRevoked, RevokeCertificate. fold serial.
  assert (∀ m' q, revocations m' !! serial = Some q →
    bool_decide (is_Some (revocations (foldl store_step m' later) !! serial)) = true) as Hgrow.
  { intros m' q Hq. apply bool_decide_eq_true. rewrite (revocations_grow _ _ _ q); eauto. }
  destruct (revocations m !! serial) as [q|] eqn:E; simpl.
  - split; [done|]. split; [|by eapply Hgrow]. intros _. split; [done|]. by apply revocations_grow.
  - split; [done|]. split; [done|]. eapply Hgrow. simpl. by rewrite lookup_insert_eq.
Qed.

(** A schedule read back is the last one written for its collector unless it
    was deleted since, and operations on other collectors do not touch it. *)
Theorem schedule_last_write (m : Memory) (op : store_op) (collectorID : string) :
  GetSchedule collectorID (store_step m op) =
  match op with
  | op_upsert_schedule s => if decide (Schedule_CollectorID s = collectorID) then Ok s
                            else GetSchedule collectorID m
  | op_delete_schedule c => if decide (c = collectorID) then Err ErrNotFound
                            else GetSchedule collectorID m
  | _ => GetSchedule collectorID m
  end.
Proof.
  unfold GetSchedule. rewrite schedules_step. destruct op; try done; case_decide as Hc; subst.
  - by rewrite lookup_insert_eq.
  - by rewrite lookup_insert_ne.
  - by rewrite lookup_delete_eq.
  - by rewrite lookup_delete_ne.
Qed.

(** ** Witnesses *)

Definition example_envelope (oid name : string) (at_ : time) : ObservationEnvelope :=
  mkObservationEnvelope SchemaVersion oid "site" "c1" "ssh-linux" "" at_
    [mkAsset AssetHost "h1" name ∅ ∅ []] [] [] ∅.
Definition example_ops : list store_op :=
  [op_save (example_envelope "o1" "old" 10); op_save (example_envelope "o2" "new" 20);
   op_audit (unix 1700000000 0) (mkEvent "job_created" "api-key" ∅);
   op_save (example_envelope "o1" "old" 10)].

Lemma run_store_list_claims_witness :
  sort_by claim_less (reverse (ListAssetClaims (run_store example_ops))) =
    ListAssetClaims (run_store example_ops) ∧
  (Asset_Name ∘ Claim_Asset <$> ListAssetClaims (run_store example_ops)) = ["new"%string].
Proof.
  split; [|vm_compute; reflexivity].
  apply (run_store_list_claims example_ops). apply reverse_Permutation.
Defined.
