(* ===== verification/Enrollment.v ===== *)
(** * [internal/enrollment]: collector identities, serial numbers, tokens, signing

    [ValidCollectorID], [ParseCSR], [Sign] and the server certificate of [ca.go];
    the serial-number functions of [tls.go]; [TokenStore] of [tokens.go]; the
    request and response types of [protocol.go].

    Certificates and signing requests are symbolic: a certificate is the record of
    the template fields it was created from, a PEM text is the block it decodes to.
    Random numbers and the outcome of the cryptographic calls are arguments. *)

From S2P Require Import Prelude Bytes Time.

(** ** Collector identities *)

Definition maxCollectorIDBytes : Z := 253.

Definition ValidCollectorID (id : string) : bool :=
  if bool_decide (id = ""%string) || (maxCollectorIDBytes <? slen id) then false
  else if negb (String.eqb (trim_space id) id) then false
  else negb (existsb is_control (runes id)).

(** ** [math/big] text in base 16 *)

Definition hex_value (c : ascii) : option Z :=
  let b := byte_val c in
  if is_digit c then Some (b - 48)
  else if in_range 97 102 b then Some (b - 87)
  else if in_range 65 70 b then Some (b - 55)
  else None.

Fixpoint parse_hex_from (acc : Z) (s : string) : option Z :=
  match s with
  | ""%string => Some acc
  | String c s => v ← hex_value c; parse_hex_from (16 * acc + v) s
  end.

(** [new(big.Int).SetString(s, 16)]: an optional sign and at least one digit *)
Definition big_set_string16 (s : string) : option Z :=
  let digits t := match t with ""%string => None | _ => parse_hex_from 0 t end in
  match s with
  | String c t =>
    if Ascii.eqb c "-"%char then Z.opp <$> digits t
    else if Ascii.eqb c "+"%char then digits t
    else digits s
  | ""%string => None
  end.

(** The digits of a non-negative number, most significant first; [n] bounds their number. *)
Fixpoint hex_digits (n : nat) (v : Z) (acc : string) : string :=
  match n with
  | O => acc
  | S n =>
    let acc := String (hex_digit (v mod 16)) acc in
    if v <? 16 then acc else hex_digits n (v / 16) acc
  end.

(** [x.Text(16)] *)
Definition big_text16 (v : Z) : string :=
  let a := Z.abs v in
  let t := hex_digits (S (Z.to_nat (Z.log2 a))) a "" in
  if v <? 0 then String "-"%char t else t.

(** ** Certificates *)

Record Certificate := mkCertificate {
  Cert_SerialNumber : option Z;
  Cert_CommonName : string;
  Cert_NotBefore : time;
  Cert_NotAfter : time;
  Cert_KeyUsage : list string;
  Cert_ExtKeyUsage : list string;
  Cert_PublicKey : string;
}.

Record CertificateRequest := mkCertificateRequest {
  CSR_PublicKey : string;
  CSR_signature_valid : bool;
}.

(** What [pem.Decode] and [x509.ParseCertificate] make of a PEM text. *)
Inductive pem_text :=
| pem_block (type : string) (content : option Certificate)
| pem_none.

Definition DefaultCertificateTTL : duration := 90 * 24 * Hour.
Definition clockSkewTolerance : duration := 5 * Minute.

Definition CertificateSerial (cert : Certificate) : string :=
  match Cert_SerialNumber cert with None => "" | Some n => big_text16 n end.

Definition CertificateSerialFromPEM (p : pem_text) : go string :=
  match p with
  | pem_none => Err "certificate PEM does not contain a certificate"%string
  | pem_block t content =>
    reject negb (String.eqb t "CERTIFICATE") with "certificate PEM does not contain a certificate"%string ;;
    match content with
    | None => Err "parse certificate: %w"%string
    | Some cert => Ok (CertificateSerial cert)
    end
  end.

(** [strings.ReplaceAll(s, c, "")] for a one-byte [c] *)
Fixpoint remove_byte (c : ascii) (s : string) : string :=
  match s with
  | ""%string => ""%string
  | String d s => if Ascii.eqb c d then remove_byte c s else String d (remove_byte c s)
  end.

Definition bad_serial : string :=
  "serial_number must be a non-zero hexadecimal certificate serial of at most 20 bytes".

Definition NormalizeCertificateSerial (raw : string) : go string :=
  let serial := trim_space raw in
  let serial := if has_prefix serial "0x" || has_prefix serial "0X" then drop_string 2 serial else serial in
  let serial := remove_byte ":"%char serial in
  reject bool_decide (serial = ""%string) || (40 <? slen serial) with bad_serial ;;
  match big_set_string16 serial with
  | None => Err bad_serial
  | Some value =>
    reject value <=? 0 with bad_serial ;;
    Ok (big_text16 value)
  end.

(** [x509.ParseCertificateRequest] is the argument [parsed]. *)
Definition ParseCSR (parsed : go CertificateRequest) : go CertificateRequest :=
  match parsed with
  | Err _ => Err "parse certificate signing request: %w"%string
  | Ok csr =>
    reject negb (CSR_signature_valid csr) with "certificate signing request signature is invalid: %w"%string ;;
    Ok csr
  end.

(** [serial] is the outcome of [randomSerial], [created] that of
    [x509.CreateCertificate]. *)
Definition Sign (serial : go Z) (now : time) (created : go unit)
    (csr : CertificateRequest) (commonName : string) (ttl : duration) : go pem_text :=
  reject ttl <=? 0 with "certificate ttl must be positive"%string ;;
  try serial := serial ;;
  let template := mkCertificate (Some serial) commonName (Add now (- clockSkewTolerance)) (Add now ttl)
    ["KeyUsageDigitalSignature"%string] ["ExtKeyUsageClientAuth"%string] (CSR_PublicKey csr) in
  match created with
  | Err _ => Err "sign certificate: %w"%string
  | Ok _ => Ok (pem_block "CERTIFICATE" (Some template))
  end.

(** ** Requests and responses *)

Record EnrollRequest := mkEnrollRequest {
  EnrollRequest_Token : string;
  EnrollRequest_CollectorID : string;
  EnrollRequest_CSR : string;
}.
Record EnrollResponse := mkEnrollResponse {
  EnrollResponse_CertificatePEM : pem_text;
  EnrollResponse_CACertificatePEM : pem_text;
  EnrollResponse_SerialNumber : string;
  EnrollResponse_ExpiresAt : time;
}.
Record TokenRequest := mkTokenRequest { TokenRequest_CollectorID : string }.
Record TokenResponse := mkTokenResponse {
  TokenResponse_Token : string;
  TokenResponse_CollectorID : string;
  TokenResponse_ExpiresAt : time;
}.
Record RotateRequest := mkRotateRequest { RotateRequest_CSR : string }.

(** ** Enrollment tokens *)

Record tokenRecord := mkTokenRecord {
  token_collectorID : string;
  token_expiresAt : time;
  token_redeemed : bool;
}.

Abbreviation TokenStore := (gmap string tokenRecord) (only parsing).

Definition NewTokenStore : TokenStore := ∅.
Definition ErrInvalidToken : string := "enrollment token is invalid, expired, or already used".
Definition tokenBytes : Z := 32.

(** [buf] is the outcome of [rand.Read], [now] of [time.Now]. *)
Definition Issue (buf : go (list Z)) (now : time) (collectorID : string) (ttl : duration)
    (s : TokenStore) : TokenStore * go (string * time) :=
  if negb (ValidCollectorID collectorID)
  then (s, Err "collector ID is empty, too long, or contains control characters"%string)
  else if ttl <=? 0 then (s, Err "token ttl must be positive"%string)
  else match buf with
  | Err _ => (s, Err "generate enrollment token: %w"%string)
  | Ok buf =>
    let token := hex_encode buf in
    let expiresAt := Add now ttl in
    (<[token := mkTokenRecord collectorID expiresAt false]> s, Ok (token, expiresAt))
  end.

Definition Redeem (now : time) (token collectorID : string) (s : TokenStore) : TokenStore * go unit :=
  match s !! token with
  | None => (s, Err ErrInvalidToken)
  | Some r =>
    if token_redeemed r || After now (token_expiresAt r)
       || negb (String.eqb (token_collectorID r) collectorID)
    then (s, Err ErrInvalidToken)
    else (<[token := mkTokenRecord (token_collectorID r) (token_expiresAt r) true]> s, Ok tt)
  end.

(** The two methods hold the store's mutex: concurrent callers interleave whole calls. *)
Inductive token_op :=
| issue_op (buf : go (list Z)) (now : time) (collectorID : string) (ttl : duration)
| redeem_op (now : time) (token collectorID : string).

Definition token_step (s : TokenStore) (op : token_op) : TokenStore :=
  match op with
  | issue_op buf now c ttl => (Issue buf now c ttl s).1
  | redeem_op now t c => (Redeem now t c s).1
  end.

(** Did the operation mint, or redeem, [token]? *)
Definition mints (token : string) (s : TokenStore) (op : token_op) : bool :=
  match op with
  | issue_op buf now c ttl =>
    match (Issue buf now c ttl s).2 with Ok (t, _) => String.eqb t token | Err _ => false end
  | redeem_op _ _ _ => false
  end.
Definition redeems (token : string) (s : TokenStore) (op : token_op) : bool :=
  match op with
  | issue_op _ _ _ _ => false
  | redeem_op now t c => String.eqb t token && is_ok (Redeem now t c s).2
  end.

(** Number of operations of a run at which a test on the state before holds. *)
Fixpoint run_count (f : TokenStore → token_op → bool) (s : TokenStore) (ops : list token_op) : Z :=
  match ops with
  | [] => 0
  | op :: ops => (if f s op then 1 else 0) + run_count f (token_step s op) ops
  end.

(** ** Lemmas *)

Lemma hex_value_digit d : 0 <= d < 16 → hex_value (hex_digit d) = Some d.
Proof.
  intros Hd. assert (Forall (λ d, hex_value (hex_digit d) = Some d) (seqZ 0 16)) as H
    by (apply (bool_decide_unpack _); by vm_compute).
  rewrite Forall_forall in H. apply H. apply elem_of_seqZ. lia.
Qed.

Lemma parse_hex_app acc s t :
  parse_hex_from acc (s +:+ t)%string = parse_hex_from acc s ≫= λ a, parse_hex_from a t.
Proof.
  revert acc. induction s as [|c s IH]; intros acc; [done|]. rewrite string_app_cons. simpl.
  destruct (hex_value c); simpl; [apply IH|done].
Qed.

Lemma parse_hex_digits n v t :
  0 <= v < 16 ^ Z.of_nat n →
  ∃ k, 0 <= k ∧ ∀ a, parse_hex_from a (hex_digits n v t) = parse_hex_from (a * 16 ^ k + v) t.
Proof.
  revert v t. induction n as [|n IH]; intros v t Hv.
  { exists 0. split; [done|]. intros a. simpl in *. f_equal. lia. }
  rewrite Nat2Z.inj_succ, Z.pow_succ_r in Hv by lia. simpl.
  pose proof (Z.mod_pos_bound v 16 ltac:(lia)) as Hm.
  destruct (Z.ltb_spec v 16) as [Hlt|Hge].
  - exists 1. split; [lia|]. intros a. simpl.
    rewrite hex_value_digit by done. simpl. f_equal. rewrite Z.mod_small by lia. lia.
  - destruct (IH (v / 16) (String (hex_digit (v mod 16)) t)) as (k & Hk & Hp).
    { split; [apply Z.div_pos; lia|]. apply Z.div_lt_upper_bound; lia. }
    exists (k + 1). split; [lia|]. intros a. rewrite Hp. simpl.
    rewrite hex_value_digit by done. simpl. f_equal.
    rewrite Z.pow_add_r by lia. pose proof (Z.div_mod v 16 ltac:(lia)). lia.
Qed.

Lemma hex_digits_length n v t k :
  0 <= v < 16 ^ Z.of_nat (S k) → (String.length (hex_digits n v t) <= S k + String.length t)%nat.
Proof.
  revert v t k. induction n as [|n IH]; intros v t k Hv; simpl; [lia|].
  destruct (Z.ltb_spec v 16) as [Hlt|Hge]; [simpl; lia|]. destruct k as [|k]; [simpl in Hv; lia|].
  etrans; [apply (IH _ _ k)|simpl; lia].
  split; [apply Z.div_pos; lia|]. apply Z.div_lt_upper_bound; [lia|].
  rewrite (Nat2Z.inj_succ (S k)), Z.pow_succ_r in Hv by lia. lia.
Qed.

(** The characters [hex_digit] produces. *)
Definition lower_hex (c : ascii) : bool := is_digit c || in_range 97 102 (byte_val c).

Lemma hex_digit_lower d : 0 <= d < 16 → lower_hex (hex_digit d) = true.
Proof.
  intros Hd. assert (Forall (λ d, lower_hex (hex_digit d) = true) (seqZ 0 16)) as H
    by (apply (bool_decide_unpack _); by vm_compute).
  rewrite Forall_forall in H. apply H. apply elem_of_seqZ. lia.
Qed.

Lemma hex_digits_lower n v t :
  0 <= v → string_all lower_hex t = true → string_all lower_hex (hex_digits n v t) = true.
Proof.
  revert v t. induction n as [|n IH]; intros v t Hv Ht; simpl; [done|].
  assert (string_all lower_hex (String (hex_digit (v mod 16)) t) = true).
  { simpl. rewrite hex_digit_lower, Ht; [done|]. by apply Z.mod_pos_bound. }
  destruct (v <? 16); [done|]. apply IH; [by apply Z.div_pos|done].
Qed.

Lemma big_text16_pos v :
  0 <= v → big_text16 v = hex_digits (S (Z.to_nat (Z.log2 v))) v "".
Proof.
  intros Hv. unfold big_text16. rewrite Z.abs_eq by done.
  destruct (Z.ltb_spec v 0); [lia|done].
Qed.

Lemma log2_digits v : 0 <= v → 0 <= v < 16 ^ Z.of_nat (S (Z.to_nat (Z.log2 v))).
Proof.
  intros Hv. split; [done|]. rewrite Nat2Z.inj_succ, Z2Nat.id by apply Z.log2_nonneg.
  destruct (decide (v = 0)) as [->|Hne]; [done|].
  pose proof (Z.log2_spec v ltac:(lia)) as [_ H].
  eapply Z.lt_le_trans; [exact H|]. apply Z.pow_le_mono_l. lia.
Qed.

Lemma parse_big_text16 v : 0 <= v → parse_hex_from 0 (big_text16 v) = Some v.
Proof.
  intros Hv. rewrite big_text16_pos by done.
  destruct (parse_hex_digits _ v "" (log2_digits v Hv)) as (k & Hk & ->). simpl. f_equal.
Qed.

Lemma big_text16_lower v : 0 <= v → string_all lower_hex (big_text16 v) = true.
Proof. intros Hv. rewrite big_text16_pos by done. by apply hex_digits_lower. Qed.

Lemma big_text16_cons v : 0 <= v → ∃ c t, big_text16 v = String c t ∧ lower_hex c = true.
Proof.
  intros Hv. pose proof (big_text16_lower v Hv) as Hl.
  assert (big_text16 v ≠ ""%string) as Hne.
  { rewrite big_text16_pos by done. intros H. apply (f_equal String.length) in H.
    assert (∀ n v t, (String.length t <= String.length (hex_digits n v t))%nat) as Hmono.
    { intros n. induction n as [|n IH]; intros w t; simpl; [done|].
      destruct (w <? 16); simpl; [lia|]. etrans; [|apply IH]. simpl. lia. }
    simpl in H. destruct (v <? 16); [done|].
    pose proof (Hmono (Z.to_nat (Z.log2 v)) (v / 16) (String (hex_digit (v mod 16)) "")).
    simpl in *. lia. }
  destruct (big_text16 v) as [|c t]; [done|]. simpl in Hl. apply andb_true_iff in Hl as [??]. eauto.
Qed.

Lemma lower_hex_not c d : lower_hex c = true → lower_hex d = false → Ascii.eqb c d = false.
Proof. intros ??. apply Ascii.eqb_neq. congruence. Qed.

Lemma big_set_text16 v : 0 <= v → big_set_string16 (big_text16 v) = Some v.
Proof.
  intros Hv. pose proof (parse_big_text16 v Hv) as Hp.
  destruct (big_text16_cons v Hv) as (c & t & Heq & Hc). rewrite Heq in *. unfold big_set_string16.
  rewrite !(lower_hex_not c) by done. exact Hp.
Qed.

Lemma parse_hex_bound a s v :
  0 <= a → parse_hex_from a s = Some v → 0 <= v < (a + 1) * 16 ^ slen s.
Proof.
  revert a. induction s as [|c s IH]; intros a Ha; cbn [parse_hex_from].
  { intros [= ->]. unfold slen. cbn. rewrite Z.pow_0_r. lia. }
  destruct (hex_value c) as [d|] eqn:Ec; simpl; [|done]. intros H.
  assert (0 <= d < 16) as Hd.
  { unfold hex_value, is_digit, in_range in Ec. repeat case_match; simplify_eq; bool_facts; lia. }
  apply IH in H; [|lia].
  assert (slen (String c s) = Z.succ (slen s)) as -> by (unfold slen; cbn; lia).
  rewrite Z.pow_succ_r by (unfold slen; lia).
  assert ((16 * a + d + 1) * 16 ^ slen s <= (a + 1) * (16 * 16 ^ slen s)); [|lia].
  rewrite Z.mul_assoc. apply Z.mul_le_mono_nonneg_r; lia.
Qed.

Lemma big_set_string16_bound s v :
  big_set_string16 s = Some v → slen s <= 40 → 0 < v → v < 2 ^ 160.
Proof.
  intros H Hlen Hpos.
  assert (∀ t a, slen t <= 40 → parse_hex_from 0 t = Some a → a < 2 ^ 160) as Hb.
  { intros t a Ht Hp%parse_hex_bound; [|lia]. eapply Z.lt_le_trans; [apply Hp|].
    change (2 ^ 160) with (16 ^ 40). rewrite Z.mul_1_l. apply Z.pow_le_mono_r; lia. }
  destruct s as [|c t]; [done|]. unfold big_set_string16, slen in *. simpl in Hlen.
  destruct (Ascii.eqb c "-"%char).
  - destruct t as [|d t]; [done|].
    apply fmap_Some in H as (w & Hw & ->). apply parse_hex_bound in Hw; lia.
  - destruct (Ascii.eqb c "+"%char).
    + destruct t as [|d t]; [done|]. eapply Hb; [|exact H]. unfold slen. simpl in *. lia.
    + apply (Hb (String c t)); [|exact H]. unfold slen. simpl. lia.
Qed.

(** Text without white space is left alone by [trim_space] and [remove_byte]. *)
Lemma remove_byte_free c s : free_of c s → remove_byte c s = s.
Proof.
  induction s as [|d s IH]; [done|]. unfold free_of in *. simpl.
  intros [H1 H2]%andb_true_iff. destruct (Ascii.eqb c d); [done|].
  by rewrite IH.
Qed.

Lemma lower_hex_free c s : lower_hex c = false → string_all lower_hex s = true → free_of c s.
Proof.
  intros Hc. apply string_all_impl. intros d Hd. by rewrite Ascii.eqb_sym, (lower_hex_not d c).
Qed.

Lemma lower_hex_plain c : lower_hex c = true → byte_val c < 128 ∧ is_space (byte_val c) = false.
Proof.
  unfold lower_hex, is_digit, is_space, in_range. intros H.
  apply orb_true_iff in H as [H|H]; bool_facts; (split; [lia|]);
    repeat (apply orb_false_iff; split); try (apply andb_false_iff; lia); lia.
Qed.

Lemma big_text16_length v : 0 <= v < 2 ^ 160 → slen (big_text16 v) <= 40.
Proof.
  intros Hv. rewrite big_text16_pos by lia. unfold slen.
  change (2 ^ 160) with (16 ^ Z.of_nat 40) in Hv.
  pose proof (hex_digits_length (S (Z.to_nat (Z.log2 v))) v "" 39 Hv). simpl String.length in *. lia.
Qed.

Lemma cut_0x v : 0 <= v →
  has_prefix (big_text16 v) "0x" || has_prefix (big_text16 v) "0X" = false.
Proof.
  intros Hv. pose proof (big_text16_lower v Hv) as Hl. unfold has_prefix.
  apply orb_false_iff; split; apply not_true_is_false; intros Hp;
    apply (prefix_all lower_hex) in Hp; try done; by vm_compute in Hp.
Qed.

(** *** Tokens *)

Lemma token_step_redeemed s op token r :
  (token_step s op) !! token = Some r → token_redeemed r = false →
  mints token s op = false → ∃ r', s !! token = Some r' ∧ token_redeemed r' = false.
Proof.
  destruct op as [buf now c ttl|now t c]; simpl.
  - unfold Issue. case_match; [eauto|]. case_match; [eauto|]. destruct buf; [|eauto]. simpl.
    intros Hl Hr Ht. apply String.eqb_neq in Ht. rewrite lookup_insert_ne in Hl by done. eauto.
  - unfold Redeem. destruct (s !! t) eqn:E; [|eauto]. case_match; [eauto|]. simpl.
    intros Hl Hr _. destruct (decide (t = token)) as [->|Hne].
    + rewrite lookup_insert_eq in Hl. by simplify_eq.
    + rewrite lookup_insert_ne in Hl by done. eauto.
Qed.

(** Is there an unredeemed record of the token? *)
Definition open_token (token : string) (s : TokenStore) : Z :=
  match s !! token with Some r => if token_redeemed r then 0 else 1 | None => 0 end.

Lemma open_token_step token s op :
  (if redeems token s op then 1 else 0) + open_token token (token_step s op) <=
  open_token token s + (if mints token s op then 1 else 0).
Proof.
  unfold open_token. destruct op as [buf now c ttl|now t c]; simpl.
  - unfold Issue. destruct (negb _); simpl; [lia|]. destruct (ttl <=? 0); simpl; [lia|].
    destruct buf as [buf|]; simpl; [|lia].
    destruct (String.eqb_spec (hex_encode buf) token) as [->|Hne]; simpl.
    + rewrite lookup_insert_eq. simpl. repeat case_match; lia.
    + rewrite lookup_insert_ne by done. lia.
  - unfold Redeem. destruct (String.eqb_spec t token) as [->|Hne]; simpl.
    + destruct (s !! token) as [r|] eqn:E; simpl; rewrite ?E; [|lia].
      destruct (token_redeemed r) eqn:Er; simpl; [rewrite E, Er; lia|].
      destruct (_ || _); simpl; [rewrite E, Er; lia|]. rewrite lookup_insert_eq. simpl. lia.
    + destruct (s !! t) as [r|] eqn:E; simpl; [|lia].
      destruct (_ || _); simpl; [lia|]. rewrite lookup_insert_ne by done. lia.
Qed.

Lemma run_count_redeems token s ops :
  run_count (redeems token) s ops <= run_count (mints token) s ops + open_token token s.
Proof.
  revert s. induction ops as [|op ops IH]; intros s; simpl.
  { unfold open_token. repeat case_match; lia. }
  specialize (IH (token_step s op)). pose proof (open_token_step token s op). lia.
Qed.

Lemma normalize_text16 n : 0 < n < 2 ^ 160 → NormalizeCertificateSerial (big_text16 n) = Ok (big_text16 n).
Proof.
  intros Hn. unfold NormalizeCertificateSerial.
  rewrite trim_space_plain.
  2: { intros c Hin. apply lower_hex_plain. pose proof (big_text16_lower n ltac:(lia)) as Hl.
       rewrite string_all_list, forallb_elem_of in Hl. by apply Hl. }
  rewrite cut_0x by lia.
  rewrite remove_byte_free by (apply lower_hex_free; [done|apply big_text16_lower; lia]).
  destruct (big_text16_cons n ltac:(lia)) as (c & t & Heq & _).
  rewrite bool_decide_eq_false_2 by (by rewrite Heq).
  destruct (Z.ltb_spec 40 (slen (big_text16 n))) as [Hlen|_].
  { pose proof (big_text16_length n ltac:(lia)). lia. }
  simpl. rewrite big_set_text16 by lia. destruct (Z.leb_spec n 0); [lia|done].
Qed.

(** ** Theorems *)

(** Serial numbers have one text.  Whatever spelling an operator submits is
    normalised to the canonical text of a number of 1 to 160 bits, and the canonical
    text of such a number, which is what [CertificateSerial] computes from a
    certificate, normalises to itself: a revocation is stored under exactly the key
    that the certificate is later looked up by. *)
Theorem NormalizeCertificateSerial_canonical (cert : Certificate) (n : Z) (raw s : string) :
  Cert_SerialNumber cert = Some n → 0 < n < 2 ^ 160 →
  NormalizeCertificateSerial (CertificateSerial cert) = Ok (CertificateSerial cert) ∧
  (NormalizeCertificateSerial raw = Ok s →
     ∃ m, 0 < m < 2 ^ 160 ∧ s = big_text16 m ∧ (s = CertificateSerial cert ↔ m = n)).
Proof.
  intros Hc Hn. unfold CertificateSerial. rewrite Hc. split.
  - by apply normalize_text16.
  - unfold NormalizeCertificateSerial.
    set (t := remove_byte _ _). case_match eqn:Ht; [done|]. apply orb_false_iff in Ht as [_ Ht].
    apply Z.ltb_ge in Ht. destruct (big_set_string16 t) as [m|] eqn:Em; [|done].
    destruct (Z.leb_spec m 0) as [|Hm]; [done|]. intros [= <-].
    exists m. pose proof (big_set_string16_bound _ _ Em Ht Hm). split; [lia|]. split; [done|].
    split; [|by intros ->]. intros Heq. apply (f_equal (parse_hex_from 0)) in Heq.
    rewrite !parse_big_text16 in Heq by lia. congruence.
Qed.

(** C27: a token is single-use under every interleaving of callers: however many
    requests race to redeem it, at most as many succeed as times it was minted. *)
Theorem Redeem_single_use (ops : list token_op) (token : string) :
  run_count (redeems token) NewTokenStore ops <= run_count (mints token) NewTokenStore ops.
Proof.
  pose proof (run_count_redeems token NewTokenStore ops) as H.
  assert (open_token token NewTokenStore = 0) as Hz by (unfold open_token, NewTokenStore; by rewrite lookup_empty).
  lia.
Qed.

(** [Redeem] succeeds exactly on an unredeemed, unexpired token bound to the
    caller's collector, and then only marks it redeemed; a failed attempt changes
    nothing, and says the same whatever the reason. *)
Theorem Redeem_spec (now : time) (token collectorID : string) (s : TokenStore) :
  match Redeem now token collectorID s with
  | (s', Ok _) => ∃ r, s !! token = Some r ∧ token_redeemed r = false ∧ now <= token_expiresAt r ∧
      token_collectorID r = collectorID ∧
      s' = <[token := mkTokenRecord collectorID (token_expiresAt r) true]> s
  | (s', Err e) => s' = s ∧ e = ErrInvalidToken ∧
      ∀ r, s !! token = Some r →
        token_redeemed r = true ∨ token_expiresAt r < now ∨ token_collectorID r ≠ collectorID
  end.
Proof.
  unfold Redeem, After. destruct (s !! token) as [r|]; [|split; [done|split; [done|by intros]]].
  destruct (token_redeemed r) eqn:Er; simpl; [split; [done|split; [done|]]; intros ? [= <-]; auto|].
  destruct (Z.ltb_spec (token_expiresAt r) now) as [Hlt|Hge]; simpl.
  { split; [done|split; [done|]]; intros ? [= <-]; auto. }
  destruct (String.eqb_spec (token_collectorID r) collectorID) as [<-|Hne]; simpl.
  - exists r. done.
  - split; [done|split; [done|]]; intros ? [= <-]; auto.
Qed.

(** A token is minted for a valid collector only, expires [ttl] after issuance
    and is redeemable at once by that collector and by no other. *)
Theorem Issue_spec (buf : list Z) (now : time) (collectorID : string) (ttl : duration)
    (s s' : TokenStore) (token : string) (expiresAt : time) :
  Issue (Ok buf) now collectorID ttl s = (s', Ok (token, expiresAt)) →
  ValidCollectorID collectorID = true ∧ expiresAt = now + ttl ∧ now < expiresAt ∧
  ∀ later other, now <= later →
    is_ok (Redeem later token other s').2 = (later <=? expiresAt) && String.eqb collectorID other.
Proof.
  unfold Issue. destruct (ValidCollectorID collectorID); [|done]. simpl.
  destruct (Z.leb_spec ttl 0); [done|]. intros [= <- <- <-]. unfold Add.
  split; [done|]. split; [done|]. split; [lia|]. intros later other Hl.
  unfold Redeem, After. rewrite lookup_insert_eq. simpl.
  destruct (Z.ltb_spec (now + ttl) later), (Z.leb_spec later (now + ttl)); simpl; try lia.
  by destruct (String.eqb collectorID other).
Qed.

(** ** Witnesses *)

Definition example_cert : Certificate :=
  mkCertificate (Some 43981) "collector-1" 0 10 [] [] "key".

Lemma NormalizeCertificateSerial_canonical_witness :
  CertificateSerial example_cert = "abcd"%string ∧
  NormalizeCertificateSerial " 0xAB:CD "%string = Ok "abcd"%string ∧
  NormalizeCertificateSerial (CertificateSerial example_cert) = Ok (CertificateSerial example_cert).
Proof.
  split; [vm_compute; reflexivity|]. split; [vm_compute; reflexivity|].
  apply (NormalizeCertificateSerial_canonical example_cert 43981 "" ""); [reflexivity|lia].
Defined.

Lemma Issue_spec_witness :
  match Issue (Ok [171; 205]) 100 "collector-1" 50 NewTokenStore with
  | (s', Ok (t, e)) => t = "abcd"%string ∧ e = 150 ∧
      is_ok (Redeem 120 t "collector-1" s').2 = true ∧ is_ok (Redeem 120 t "other" s').2 = false
  | _ => False
  end.
Proof.
  destruct (Issue (Ok [171; 205]) 100 "collector-1" 50 NewTokenStore) as [s' [[t e]|err]] eqn:E;
    [|vm_compute in E; discriminate].
  pose proof (Issue_spec _ _ _ _ _ _ _ _ E) as (_ & -> & _ & Hr).
  assert (t = "abcd"%string) as -> by (apply (f_equal (λ x, fst <$> result_option x.2)) in E;
    vm_compute in E; congruence).
  rewrite !Hr by lia. split; [done|]. split; [done|]. split; reflexivity.
Defined.
