(* ===== verification/Repository.v ===== *)
(** * The storage interface of [internal/store/store.go]

    [Repository] is the Go interface: every method may fail, and a write that fails
    may leave the store in any state.  [RepositoryLaws] is what the controller relies
    on of an implementation; [Memory] implements both. *)

From S2P Require Import Prelude Bytes Time Model AuditLog Claims Memory.

Class Repository (St : Type) := {
  repo_SaveObservation : ObservationEnvelope → St → St * go unit;
  repo_ListObservations : St → go (list ObservationEnvelope);
  repo_ListAssetClaims : St → go (list AssetClaim);
  repo_ListAssets : St → go (list ResolvedAsset);
  repo_ListRelationships : St → go (list ResolvedRelationship);
  repo_AppendAuditEvent : time → Event → St → St * go Entry;
  repo_ListAuditEntries : St → go (list Entry);
  repo_UpsertSchedule : Schedule → St → St * go unit;
  repo_ListSchedules : St → go (list Schedule);
  repo_GetSchedule : string → St → go Schedule;
  repo_DeleteSchedule : string → St → St * go unit;
  repo_RevokeCertificate : CertificateRevocation → St → St * go bool;
  repo_ListCertificateRevocations : St → go (list CertificateRevocation);
  repo_IsCertificateRevoked : string → St → go bool;
}.

(** The writes of the interface, as relations between the states before and after. *)
Inductive repo_write {St} `{Repository St} (s : St) : St → Prop :=
| write_save e : repo_write s (repo_SaveObservation e s).1
| write_audit now ev : repo_write s (repo_AppendAuditEvent now ev s).1
| write_upsert sched : repo_write s (repo_UpsertSchedule sched s).1
| write_delete c : repo_write s (repo_DeleteSchedule c s).1
| write_revoke r : repo_write s (repo_RevokeCertificate r s).1.

Inductive repo_writes {St} `{Repository St} (s : St) : St → Prop :=
| writes_none : repo_writes s s
| writes_more t u : repo_writes s t → repo_write t u → repo_writes s u.

Lemma repo_writes_one {St} `{Repository St} (s t : St) : repo_write s t → repo_writes s t.
Proof. intros H'. eapply writes_more; [apply writes_none|done]. Qed.

Lemma repo_writes_trans {St} `{Repository St} (s t u : St) :
  repo_writes s t → repo_writes t u → repo_writes s u.
Proof. intros Hst. induction 1; [done|]. by eapply writes_more. Qed.

Create HintDb repo.
#[export] Hint Constructors repo_write repo_writes : repo.
#[export] Hint Resolve repo_writes_one : repo.

(** What the controller relies on.  [repo_revoked s serial] says that the store
    holds a revocation of [serial]. *)
Class RepositoryLaws (St : Type) `{Repository St} := {
  repo_revoked : St → string → Prop;
  is_revoked_exact s serial b :
    repo_IsCertificateRevoked serial s = Ok b → (b = true ↔ repo_revoked s serial);
  revoke_records r s s' b :
    repo_RevokeCertificate r s = (s', Ok b) → repo_revoked s' (Revocation_SerialNumber r);
  revocation_survives s s' serial :
    repo_write s s' → repo_revoked s serial → repo_revoked s' serial;
}.

Lemma revocation_survives_all {St} `{RepositoryLaws St} (s s' : St) serial :
  repo_writes s s' → repo_revoked s serial → repo_revoked s' serial.
Proof. induction 1; [done|]. intros. eapply revocation_survives; [done|]. auto. Qed.

(** ** [Memory] *)

#[export] Instance Memory_Repository : Repository Memory := {|
  repo_SaveObservation e m := (SaveObservation e m, Ok tt);
  repo_ListObservations m := Ok (ListObservations m);
  repo_ListAssetClaims m := Ok (ListAssetClaims m);
  repo_ListAssets m := Ok (ListAssets m);
  repo_ListRelationships m := Ok (ListRelationships m);
  repo_AppendAuditEvent now ev m := let '(m, e) := AppendAuditEvent now ev m in (m, Ok e);
  repo_ListAuditEntries m := Ok (ListAuditEntries m);
  repo_UpsertSchedule s m := (UpsertSchedule s m, Ok tt);
  repo_ListSchedules m := Ok (ListSchedules m);
  repo_GetSchedule c m := GetSchedule c m;
  repo_DeleteSchedule c m := (DeleteSchedule c m, Ok tt);
  repo_RevokeCertificate r m := let '(m, b) := RevokeCertificate r m in (m, Ok b);
  repo_ListCertificateRevocations m := Ok (ListCertificateRevocations m);
  repo_IsCertificateRevoked serial m := Ok (IsCertificateRevoked serial m);
|}.

(** Every write of the interface is one of the steps [Memory] is verified for. *)
Lemma memory_write_step m m' : repo_write m m' → ∃ op, m' = store_step m op.
Proof.
  destruct 1 as [e|now ev|s|c|r].
  - by exists (op_save e).
  - by exists (op_audit now ev).
  - by exists (op_upsert_schedule s).
  - by exists (op_delete_schedule c).
  - exists (op_revoke r). simpl. by destruct (RevokeCertificate r m).
Qed.

Lemma memory_writes_steps m m' : repo_writes m m' → ∃ ops, m' = foldl store_step m ops.
Proof.
  induction 1 as [|t u _ [ops ->] Hw]; [by exists []|].
  apply memory_write_step in Hw as [op ->]. exists (ops ++ [op]). by rewrite foldl_app.
Qed.

#[export] Program Instance Memory_Laws : RepositoryLaws Memory := {|
  repo_revoked m serial := is_Some (revocations m !! serial);
|}.
Next Obligation. intros m serial b [= <-]. unfold IsCertificateRevoked. apply bool_decide_eq_true. Qed.
Next Obligation.
  intros r m m' b H. simpl in H. unfold RevokeCertificate in H.
  destruct (revocations m !! Revocation_SerialNumber r) eqn:E; injection H as <- <-; [by rewrite E|].
  simpl. rewrite lookup_insert_eq. eauto.
Qed.
Next Obligation.
  intros m m' serial [op ->]%memory_write_step [r Hr]. exists r.
  by apply (revocations_grow m [op]).
Qed.
