(* ===== verification/Jobs.v ===== *)
(** * [internal/controller]: the job queue and collector liveness

    [JobStore] of [jobs.go] and [HeartbeatStore] of [heartbeat.go].  Both hold a
    mutex for the whole of every method, so concurrent requests interleave whole
    calls.  A Go map is ranged over in an unspecified order, which is the argument
    [order] of [Poll]. *)

From S2P Require Import Prelude Bytes Time Model.

(** ** [JobStore] *)

Definition ErrJobNotFound : string := "job not found".

Inductive jobStatus := jobPending | jobDispatched | jobSucceeded | jobFailed.

#[export] Instance jobStatus_eq_dec : EqDecision jobStatus.
Proof. solve_decision. Defined.

Definition status_eqb (a b : jobStatus) : bool :=
  match a, b with
  | jobPending, jobPending | jobDispatched, jobDispatched
  | jobSucceeded, jobSucceeded | jobFailed, jobFailed => true
  | _, _ => false
  end.

Lemma status_eqb_eq a b : status_eqb a b = true ↔ a = b.
Proof. by destruct a, b. Qed.

Definition jobStatus_text (s : jobStatus) : string :=
  match s with
  | jobPending => "pending" | jobDispatched => "dispatched"
  | jobSucceeded => "succeeded" | jobFailed => "failed"
  end.

Record jobRecord := mkJobRecord {
  job_collectorID : string;
  job_jobType : JobType;
  job_status : jobStatus;
  job_createdAt : time;
  job_completedAt : time;
  job_resultError : string;
}.

Abbreviation JobStore := (gmap string jobRecord) (only parsing).
Definition NewJobStore : JobStore := ∅.

Definition with_status (r : jobRecord) (st : jobStatus) : jobRecord :=
  mkJobRecord (job_collectorID r) (job_jobType r) st (job_createdAt r) (job_completedAt r)
    (job_resultError r).

(** [buf] is the outcome of [rand.Read], [now] of [time.Now]. *)
Definition Enqueue (buf : go (list Z)) (now : time) (collectorID : string) (jobType : JobType)
    (s : JobStore) : JobStore * go Job :=
  match buf with
  | Err _ => (s, Err "generate job id: %w"%string)
  | Ok buf =>
    let id := hex_encode buf in
    (<[id := mkJobRecord collectorID jobType jobPending now zero_time ""]> s,
     Ok (mkJob id collectorID jobType now))
  end.

(** One iteration of the loop of [Poll]. *)
Definition poll_one (collectorID : string) (acc : JobStore * list Job) (id : string) : JobStore * list Job :=
  let '(s, out) := acc in
  match s !! id with
  | None => acc
  | Some r =>
    if negb (String.eqb (job_collectorID r) collectorID) || negb (status_eqb (job_status r) jobPending)
    then acc
    else (<[id := with_status r jobDispatched]> s,
          out ++ [mkJob id (job_collectorID r) (job_jobType r) (job_createdAt r)])
  end.

Definition job_older (a b : Job) : bool := Before (Job_CreatedAt a) (Job_CreatedAt b).

Definition Poll (order : list string) (collectorID : string) (s : JobStore) : JobStore * list Job :=
  let '(s, out) := foldl (poll_one collectorID) (s, []) order in
  (s, sort_by job_older out).

Definition Result (now : time) (jobID collectorID : string) (result : JobResult) (s : JobStore)
    : JobStore * go unit :=
  match s !! jobID with
  | None => (s, Err ErrJobNotFound)
  | Some r =>
    if negb (String.eqb (job_collectorID r) collectorID)
    then (s, Err "job was not queued for this collector"%string)
    else if negb (status_eqb (job_status r) jobDispatched)
    then (s, Err "job is not awaiting a result"%string)
    else (<[jobID := mkJobRecord (job_collectorID r) (job_jobType r)
              (if JobResult_Success result then jobSucceeded else jobFailed)
              (job_createdAt r) now (JobResult_Error result)]> s, Ok tt)
  end.

Definition outstanding (r : jobRecord) : bool :=
  status_eqb (job_status r) jobPending || status_eqb (job_status r) jobDispatched.

Definition outstanding_for (collectorID : string) (jobType : JobType) (r : jobRecord) : bool :=
  String.eqb (job_collectorID r) collectorID && String.eqb (job_jobType r) jobType && outstanding r.

Definition HasOutstanding (collectorID : string) (jobType : JobType) (s : JobStore) : bool :=
  existsb (outstanding_for collectorID jobType) (map_to_list s).*2.

Definition Status (jobID : string) (s : JobStore) : go JobStatus :=
  match s !! jobID with
  | None => Err ErrJobNotFound
  | Some r => Ok (mkJobStatus jobID (job_collectorID r) (job_jobType r)
      (jobStatus_text (job_status r)) (job_createdAt r) (job_completedAt r) (job_resultError r))
  end.

(** *** Calls as steps *)

Inductive job_op :=
| enqueue_op (buf : go (list Z)) (now : time) (collectorID : string) (jobType : JobType)
| poll_op (order : list string) (collectorID : string)
| result_op (now : time) (jobID collectorID : string) (result : JobResult).

Definition job_step (s : JobStore) (op : job_op) : JobStore :=
  match op with
  | enqueue_op buf now c t => (Enqueue buf now c t s).1
  | poll_op order c => (Poll order c s).1
  | result_op now j c r => (Result now j c r s).1
  end.

(** A poll ranges over the keys of the map. *)
Definition job_op_ok (s : JobStore) (op : job_op) : Prop :=
  match op with poll_op order _ => order ≡ₚ (map_to_list s).*1 | _ => True end.

(** How many times an operation queues, delivers or completes job [id]. *)
Definition queued (id : string) (s : JobStore) (op : job_op) : Z :=
  match op with
  | enqueue_op buf now c t =>
    match (Enqueue buf now c t s).2 with
    | Ok j => if String.eqb (Job_JobID j) id then 1 else 0
    | Err _ => 0
    end
  | _ => 0
  end.
Definition delivered (id : string) (s : JobStore) (op : job_op) : Z :=
  match op with
  | poll_op order c => count (λ j, String.eqb (Job_JobID j) id) (Poll order c s).2
  | _ => 0
  end.
Definition completed (id : string) (s : JobStore) (op : job_op) : Z :=
  match op with
  | result_op now j c r => if String.eqb j id && is_ok (Result now j c r s).2 then 1 else 0
  | _ => 0
  end.

Fixpoint job_total (f : JobStore → job_op → Z) (s : JobStore) (ops : list job_op) : Z :=
  match ops with
  | [] => 0
  | op :: ops => f s op + job_total f (job_step s op) ops
  end.

Fixpoint job_run_ok (s : JobStore) (ops : list job_op) : Prop :=
  match ops with
  | [] => True
  | op :: ops => job_op_ok s op ∧ job_run_ok (job_step s op) ops
  end.

(** ** [HeartbeatStore] *)

Definition DefaultHeartbeatStaleAfter : duration := 3 * Minute.

Record heartbeatRecord := mkHeartbeatRecord {
  heartbeat_siteID : string;
  heartbeat_lastSeen : time;
}.

Record HeartbeatStore := mkHeartbeatStore {
  records : gmap string heartbeatRecord;
  staleAfter : duration;
}.

Definition NewHeartbeatStore (staleAfter : duration) : HeartbeatStore := mkHeartbeatStore ∅ staleAfter.

Definition Record_heartbeat (now : time) (collectorID siteID : string) (s : HeartbeatStore) : HeartbeatStore :=
  mkHeartbeatStore (<[collectorID := mkHeartbeatRecord siteID now]> (records s)) (staleAfter s).

Definition collector_status (now : time) (s : HeartbeatStore) (id : string) (r : heartbeatRecord) : CollectorStatus :=
  mkCollectorStatus id (heartbeat_siteID r) (heartbeat_lastSeen r)
    (Sub now (heartbeat_lastSeen r) <? staleAfter s).

Definition List_heartbeats (now : time) (s : HeartbeatStore) : list CollectorStatus :=
  sort_by (less_on CollectorStatus_CollectorID str_lt)
    ((λ kr, collector_status now s kr.1 kr.2) <$> map_to_list (records s)).

(** ** Lemmas on jobs *)

(** Does this record get dispatched by a poll of [collectorID]? *)
Definition pollable (collectorID : string) (r : jobRecord) : bool :=
  String.eqb (job_collectorID r) collectorID && status_eqb (job_status r) jobPending.

Definition job_of (id : string) (r : jobRecord) : Job :=
  mkJob id (job_collectorID r) (job_jobType r) (job_createdAt r).

Lemma poll_one_eq collectorID s out id :
  poll_one collectorID (s, out) id =
  match s !! id with
  | Some r => if pollable collectorID r
              then (<[id := with_status r jobDispatched]> s, out ++ [job_of id r]) else (s, out)
  | None => (s, out)
  end.
Proof.
  unfold poll_one, pollable, job_of. destruct (s !! id); [|done].
  by destruct (String.eqb _ _), (status_eqb _ _).
Qed.

Lemma pollable_dispatched c r : pollable c (with_status r jobDispatched) = false.
Proof. unfold pollable. simpl. by rewrite andb_false_r. Qed.

Definition dispatch (collectorID : string) (r : jobRecord) : jobRecord :=
  if pollable collectorID r then with_status r jobDispatched else r.

Definition poll_pick (collectorID : string) (s : JobStore) (id : string) : option Job :=
  match s !! id with
  | Some r => if pollable collectorID r then Some (job_of id r) else None
  | None => None
  end.

Lemma poll_fold c order s out :
  NoDup order →
  let '(s', out') := foldl (poll_one c) (s, out) order in
  out' = out ++ omap (poll_pick c s) order ∧
  ∀ id, s' !! id = if decide (id ∈ order) then dispatch c <$> s !! id else s !! id.
Proof.
  revert s out. induction order as [|x order IH]; intros s out Hd; cbn [foldl].
  { csimpl. rewrite app_nil_r. done. }
  apply NoDup_cons in Hd as [Hx Hd]. rewrite poll_one_eq.
  assert (∀ s' : JobStore, (∀ id, id ∈ order → s' !! id = s !! id) →
    omap (poll_pick c s') order = omap (poll_pick c s) order) as Hsame.
  { intros s' Hs'. clear -Hs'. induction order as [|y order IH]; [done|]. csimpl.
    rewrite IH by set_solver. unfold poll_pick. by rewrite Hs' by set_solver. }
  csimpl. unfold poll_pick at 1. destruct (s !! x) as [r|] eqn:Er.
  - destruct (pollable c r) eqn:Ep.
    + specialize (IH (<[x := with_status r jobDispatched]> s) (out ++ [job_of x r]) Hd).
      destruct (foldl _ _ _) as [s' out']. destruct IH as [-> Hs']. split.
      * rewrite <-app_assoc. simpl. do 2 f_equal. apply Hsame. intros id Hid.
        rewrite lookup_insert_ne by set_solver. done.
      * intros id. rewrite Hs'. destruct (decide (id = x)) as [->|Hne].
        { rewrite decide_False, decide_True by set_solver. rewrite lookup_insert_eq, Er. simpl.
          unfold dispatch. by rewrite Ep. }
        rewrite lookup_insert_ne by done.
        destruct (decide (id ∈ order)), (decide (id ∈ x :: order)); try done; set_solver.
    + specialize (IH s out Hd). destruct (foldl _ _ _) as [s' out']. destruct IH as [-> Hs'].
      split; [done|]. intros id. rewrite Hs'. destruct (decide (id = x)) as [->|Hne].
      { rewrite decide_False, decide_True by set_solver. rewrite Er. simpl.
        unfold dispatch. by rewrite Ep. }
      destruct (decide (id ∈ order)), (decide (id ∈ x :: order)); try done; set_solver.
  - specialize (IH s out Hd). destruct (foldl _ _ _) as [s' out']. destruct IH as [-> Hs'].
    split; [done|]. intros id. rewrite Hs'. destruct (decide (id = x)) as [->|Hne].
    { rewrite decide_False, decide_True by set_solver. by rewrite Er. }
    destruct (decide (id ∈ order)), (decide (id ∈ x :: order)); try done; set_solver.
Qed.

#[export] Instance job_older_weak : StrictWeak job_older.
Proof. apply (less_on_weak Job_CreatedAt Z.ltb). Qed.

Lemma Poll_lookup order c s id :
  order ≡ₚ (map_to_list s).*1 → (Poll order c s).1 !! id = dispatch c <$> s !! id.
Proof.
  intros Ho. assert (NoDup order) as Hd by (rewrite Ho; apply NoDup_fst_map_to_list).
  unfold Poll. pose proof (poll_fold c order s [] Hd) as H.
  destruct (foldl _ _ _) as [s' out']. simpl. destruct H as [_ ->]. case_decide as Hin; [done|].
  destruct (s !! id) as [r|] eqn:Er; [|done]. destruct Hin. rewrite Ho.
  apply list_elem_of_fmap. exists (id, r). split; [done|]. by apply elem_of_map_to_list.
Qed.

Lemma Poll_jobs order c s :
  order ≡ₚ (map_to_list s).*1 → (Poll order c s).2 ≡ₚ omap (poll_pick c s) order.
Proof.
  intros Ho. assert (NoDup order) as Hd by (rewrite Ho; apply NoDup_fst_map_to_list).
  unfold Poll. pose proof (poll_fold c order s [] Hd) as H.
  destruct (foldl _ _ _) as [s' out']. simpl. destruct H as [-> _]. apply sort_by_perm.
Qed.

Lemma poll_pick_id c s id j : poll_pick c s id = Some j → Job_JobID j = id.
Proof. unfold poll_pick. destruct (s !! id); [|done]. case_match; [|done]. by intros [= <-]. Qed.

Lemma poll_pick_count c s id order :
  NoDup order →
  count (λ j, String.eqb (Job_JobID j) id) (omap (poll_pick c s) order) =
  if decide (id ∈ order) then match poll_pick c s id with Some _ => 1 | None => 0 end else 0.
Proof.
  induction order as [|x order IH]; [done|]. intros [Hx Hd]%NoDup_cons. csimpl.
  specialize (IH Hd). destruct (decide (id = x)) as [->|Hne].
  - rewrite (decide_True (P:=x ∈ x :: order)) by set_solver. rewrite decide_False in IH by done.
    destruct (poll_pick c s x) as [j|] eqn:E; [|done]. simpl. rewrite IH.
    by rewrite (poll_pick_id _ _ _ _ E), String.eqb_refl.
  - transitivity (count (λ j, String.eqb (Job_JobID j) id) (omap (poll_pick c s) order)).
    + destruct (poll_pick c s x) as [j|] eqn:E; [|done]. simpl.
      apply String.eqb_neq in Hne. by rewrite (poll_pick_id _ _ _ _ E), String.eqb_sym, Hne.
    + rewrite IH. destruct (decide (id ∈ order)), (decide (id ∈ x :: order)); try done; set_solver.
Qed.

(** One while [id] is waiting to be delivered, respectively outstanding. *)
Definition waiting (id : string) (s : JobStore) : Z :=
  match s !! id with Some r => if status_eqb (job_status r) jobPending then 1 else 0 | None => 0 end.
Definition in_flight (id : string) (s : JobStore) : Z :=
  match s !! id with Some r => if status_eqb (job_status r) jobDispatched then 1 else 0 | None => 0 end.

Lemma delivered_step id s op :
  job_op_ok s op →
  delivered id s op + waiting id (job_step s op) <= waiting id s + queued id s op.
Proof.
  unfold waiting. destruct op as [buf now c t|order c|now j c r]; simpl; intros Hok.
  - destruct buf as [buf|]; simpl; [|lia]. destruct (String.eqb_spec (hex_encode buf) id) as [->|Hne].
    + rewrite lookup_insert_eq. simpl. repeat case_match; lia.
    + rewrite lookup_insert_ne by done. lia.
  - rewrite (count_perm _ _ _ (Poll_jobs order c s Hok)), Poll_lookup by done.
    rewrite poll_pick_count by (rewrite Hok; apply NoDup_fst_map_to_list).
    unfold poll_pick, dispatch, pollable. destruct (s !! id) as [r|]; simpl; [|case_decide; lia].
    destruct (String.eqb _ _); simpl; [|case_decide; lia].
    destruct (status_eqb (job_status r) jobPending) eqn:E; simpl; rewrite ?E; case_decide; lia.
  - unfold Result. destruct (s !! j) as [q|] eqn:E; simpl; [|lia].
    destruct (negb _); simpl; [lia|]. destruct (negb _); simpl; [lia|].
    destruct (decide (j = id)) as [->|Hne].
    + rewrite lookup_insert_eq. simpl. destruct (JobResult_Success r); simpl; repeat case_match; lia.
    + rewrite lookup_insert_ne by done. lia.
Qed.

Lemma completed_step id s op :
  job_op_ok s op →
  completed id s op + in_flight id (job_step s op) <= in_flight id s + delivered id s op.
Proof.
  unfold in_flight. destruct op as [buf now c t|order c|now j c r]; simpl; intros Hok.
  - destruct buf as [buf|]; simpl; [|lia]. destruct (decide (hex_encode buf = id)) as [->|Hne].
    + rewrite lookup_insert_eq. simpl. repeat case_match; lia.
    + rewrite lookup_insert_ne by done. lia.
  - rewrite (count_perm _ _ _ (Poll_jobs order c s Hok)), Poll_lookup by done.
    rewrite poll_pick_count by (rewrite Hok; apply NoDup_fst_map_to_list).
    destruct (decide (id ∈ order)) as [Hin|Hni].
    2: { destruct (s !! id) as [q|] eqn:E; simpl; [|lia]. destruct Hni. rewrite Hok.
         apply list_elem_of_fmap. exists (id, q). split; [done|]. by apply elem_of_map_to_list. }
    unfold poll_pick, dispatch. destruct (s !! id) as [q|]; simpl; [|lia].
    destruct (pollable c q); simpl; repeat case_match; lia.
  - unfold Result. destruct (String.eqb_spec j id) as [->|Hne]; simpl.
    + destruct (s !! id) as [q|] eqn:E; simpl; rewrite ?E; [|lia].
      destruct (negb (String.eqb _ _)); simpl; rewrite ?E; [lia|].
      destruct (status_eqb (job_status q) jobDispatched) eqn:Ed; simpl; rewrite ?E, ?Ed; [|lia].
      rewrite lookup_insert_eq. simpl. destruct (JobResult_Success r); simpl; lia.
    + destruct (s !! j) as [q|] eqn:E; simpl; [|lia].
      destruct (negb _); simpl; [lia|]. destruct (negb _); simpl; [lia|].
      rewrite lookup_insert_ne by done. lia.
Qed.

Lemma job_totals s ops id :
  job_run_ok s ops →
  job_total (delivered id) s ops <= job_total (queued id) s ops + waiting id s ∧
  job_total (completed id) s ops <= job_total (delivered id) s ops + in_flight id s.
Proof.
  revert s. induction ops as [|op ops IH]; intros s; simpl.
  { intros _. unfold waiting, in_flight. repeat case_match; lia. }
  intros [Hop Hok]. destruct (IH _ Hok) as [IH1 IH2].
  pose proof (delivered_step id s op Hop). pose proof (completed_step id s op Hop). lia.
Qed.

Lemma HasOutstanding_spec c t s :
  HasOutstanding c t s = true ↔ ∃ id r, s !! id = Some r ∧ outstanding_for c t r = true.
Proof.
  unfold HasOutstanding. rewrite existsb_elem_of. split.
  - intros (r & Hr & Ho). apply list_elem_of_fmap in Hr as ([id r'] & -> & Hr%elem_of_map_to_list). eauto.
  - intros (id & r & Hr & Ho). exists r. split; [|done]. apply list_elem_of_fmap.
    exists (id, r). split; [done|]. by apply elem_of_map_to_list.
Qed.

(** ** Theorems *)

(** C26: a job is delivered at most once and completed at most once.  Whatever calls
    interleave, and in whatever order Go ranges over the map, the polls deliver a
    job no more often than it was queued, and results are accepted for it no more
    often than it was delivered. *)
Theorem job_at_most_once (ops : list job_op) (id : string) :
  job_run_ok NewJobStore ops →
  job_total (delivered id) NewJobStore ops <= job_total (queued id) NewJobStore ops ∧
  job_total (completed id) NewJobStore ops <= job_total (delivered id) NewJobStore ops.
Proof.
  intros Hok. destruct (job_totals _ _ id Hok) as [H1 H2].
  assert (waiting id NewJobStore = 0 ∧ in_flight id NewJobStore = 0) as [Hw Hf]
    by (unfold waiting, in_flight, NewJobStore; by rewrite lookup_empty).
  lia.
Qed.

(** A poll returns exactly the pending jobs of the collector, oldest first, and
    marks exactly those dispatched; the outcome does not depend on the order of the
    map but for jobs created at the same instant. *)
Theorem Poll_spec (order : list string) (collectorID : string) (s : JobStore) :
  order ≡ₚ (map_to_list s).*1 →
  let '(s', jobs) := Poll order collectorID s in
  (∀ j, j ∈ jobs ↔ ∃ r, s !! Job_JobID j = Some r ∧ job_collectorID r = collectorID ∧
     job_status r = jobPending ∧ j = job_of (Job_JobID j) r) ∧
  StronglySorted (λ a b, Job_CreatedAt a <= Job_CreatedAt b) jobs ∧
  (∀ id, s' !! id = (λ r, if pollable collectorID r then with_status r jobDispatched else r) <$> s !! id).
Proof.
  intros Ho. pose proof (λ id, Poll_lookup order collectorID s id Ho) as Hl.
  pose proof (Poll_jobs order collectorID s Ho) as Hj.
  assert (StronglySorted (not_after job_older) (Poll order collectorID s).2) as Hs.
  { unfold Poll. destruct (foldl _ _ _). apply sort_by_sorted, _. }
  destruct (Poll order collectorID s) as [s' jobs]. simpl in *. split; [|split; [|done]].
  - intros j. rewrite Hj, list_elem_of_omap. unfold poll_pick, pollable. split.
    + intros (id & Hid & Hp). destruct (s !! id) as [r|] eqn:E; [|done].
      case_match eqn:Hb; [|done]. injection Hp as <-. apply andb_true_iff in Hb as [Hc Hst].
      apply String.eqb_eq in Hc. apply status_eqb_eq in Hst. exists r. done.
    + intros (r & Hr & <- & Hst & Hje). exists (Job_JobID j). split.
      * rewrite Ho. apply list_elem_of_fmap. exists (Job_JobID j, r). split; [done|].
        by apply elem_of_map_to_list.
      * rewrite Hr, String.eqb_refl, Hst. simpl. by rewrite <-Hje.
  - eapply StronglySorted_mono; [|exact Hs]. unfold not_after, job_older, Before.
    intros a b H. apply Z.ltb_ge in H. lia.
Qed.

(** A result is accepted only for a job that was delivered to the reporting
    collector and has no result yet; it ends the job, so a second report of the
    same job is refused. *)
Theorem Result_spec (now : time) (jobID collectorID : string) (result : JobResult) (s : JobStore) :
  match Result now jobID collectorID result s with
  | (s', Ok _) => ∃ r, s !! jobID = Some r ∧ job_collectorID r = collectorID ∧
      job_status r = jobDispatched ∧
      Status jobID s' = Ok (mkJobStatus jobID collectorID (job_jobType r)
        (jobStatus_text (if JobResult_Success result then jobSucceeded else jobFailed))
        (job_createdAt r) now (JobResult_Error result)) ∧
      (∀ id, id ≠ jobID → s' !! id = s !! id) ∧
      ∀ later other again, is_ok (Result later jobID other again s').2 = false
  | (s', Err e) => s' = s ∧ (e = ErrJobNotFound ↔ s !! jobID = None)
  end.
Proof.
  unfold Result. destruct (s !! jobID) as [r|] eqn:E; [|done].
  destruct (String.eqb_spec (job_collectorID r) collectorID) as [Hc|Hc]; simpl; [|done].
  destruct (status_eqb (job_status r) jobDispatched) eqn:Est; simpl; [|done].
  apply status_eqb_eq in Est. exists r. split; [done|]. split; [done|]. split; [done|].
  split; [|split].
  - unfold Status. rewrite lookup_insert_eq. simpl. by rewrite Hc.
  - intros id Hne. by rewrite lookup_insert_ne.
  - intros later other again. rewrite lookup_insert_eq. simpl.
    destruct (String.eqb _ other); simpl; [|done]. by destruct (JobResult_Success result).
Qed.

(** The liveness list has one entry per collector that ever sent a heartbeat,
    ordered by collector, with the site and time of its last one; it is alive
    exactly while less than [staleAfter] has passed. *)
Theorem List_heartbeats_spec (now seen : time) (collectorID siteID : string) (s : HeartbeatStore) :
  let l := List_heartbeats now (Record_heartbeat seen collectorID siteID s) in
  StronglySorted (not_after (less_on CollectorStatus_CollectorID str_lt)) l ∧
  NoDup (CollectorStatus_CollectorID <$> l) ∧
  mkCollectorStatus collectorID siteID seen (Sub now seen <? staleAfter s) ∈ l ∧
  ∀ c, CollectorStatus_CollectorID c ≠ collectorID → (c ∈ l ↔ c ∈ List_heartbeats now s).
Proof.
  intros l. unfold l, List_heartbeats. split; [apply sort_by_sorted, _|].
  assert (∀ m : gmap string heartbeatRecord, ∀ c,
    c ∈ (λ kr, collector_status now (mkHeartbeatStore m (staleAfter s)) kr.1 kr.2) <$> map_to_list m ↔
    ∃ r, m !! CollectorStatus_CollectorID c = Some r ∧
      c = collector_status now s (CollectorStatus_CollectorID c) r) as Hel.
  { intros m c. rewrite list_elem_of_fmap. split.
    - intros ([k r] & -> & Hk%elem_of_map_to_list). eauto.
    - intros (r & Hr & Hc). exists (CollectorStatus_CollectorID c, r).
      split; [exact Hc|by apply elem_of_map_to_list]. }
  split; [|split].
  - rewrite sort_by_perm, <-list_fmap_compose.
    assert ((CollectorStatus_CollectorID ∘ (λ kr, collector_status now (Record_heartbeat seen collectorID siteID s) kr.1 kr.2))
      <$> map_to_list (records (Record_heartbeat seen collectorID siteID s)) =
      (map_to_list (records (Record_heartbeat seen collectorID siteID s))).*1) as ->.
    { by apply list_fmap_ext. }
    apply NoDup_fst_map_to_list.
  - rewrite sort_by_perm. apply Hel. simpl. eexists. split; [apply lookup_insert_eq|done].
  - intros c Hc. rewrite !sort_by_perm. destruct s as [m sa]. simpl in *. rewrite !Hel.
    by rewrite lookup_insert_ne.
Qed.

(** ** Witnesses *)

Definition example_job_ops : list job_op :=
  [enqueue_op (Ok [1]) 10 "c1" JobTypeDiscover; poll_op ["01"%string] "c1";
   poll_op ["01"%string] "c1"; result_op 20 "01" "c1" (mkJobResult "c1" true "" 20);
   result_op 21 "01" "c1" (mkJobResult "c1" false "late" 21)].

Lemma job_at_most_once_witness :
  job_total (delivered "01") NewJobStore example_job_ops = 1 ∧
  job_total (completed "01") NewJobStore example_job_ops <= job_total (delivered "01") NewJobStore example_job_ops.
Proof.
  split; [vm_compute; reflexivity|].
  apply (job_at_most_once example_job_ops "01"). simpl.
  repeat split; apply (bool_decide_unpack _); vm_compute; exact I.
Defined.

Definition example_jobs : JobStore := (Enqueue (Ok [1]) 10 "c1" JobTypeDiscover NewJobStore).1.

Lemma Poll_spec_witness :
  (Poll ["01"%string] "c1" example_jobs).2 = [mkJob "01" "c1" JobTypeDiscover 10] ∧
  StronglySorted (λ a b, Job_CreatedAt a <= Job_CreatedAt b) (Poll ["01"%string] "c1" example_jobs).2.
Proof.
  split; [vm_compute; reflexivity|].
  assert (["01"%string] ≡ₚ (map_to_list example_jobs).*1) as Ho
    by (apply (bool_decide_unpack _); vm_compute; exact I).
  pose proof (Poll_spec ["01"%string] "c1" example_jobs Ho) as H.
  destruct (Poll _ _ _) as [s' jobs]. apply H.
Defined.
