(* ===== verification/Controller.v ===== *)
(** * [internal/controller]: the HTTP API

    [server.go] and [schedule.go]: routing, the two authorization wrappers, and every
    handler, over any [Repository].  A request carries what the standard library
    makes of its bytes: the outcome of decoding the JSON body, the [Authorization]
    header and the verified peer certificates.  What a handler draws from outside
    (clock readings, random bytes, the x509 calls) is the record [Env].  A handler is
    one step on the server; [certificateMu] makes this exact for rotation against
    revocation, and the store mutexes for every single call.  The finer interleaving
    of scheduling calls is treated separately at the end. *)

From S2P Require Import Prelude Bytes Sha256 Time Model AuditLog Claims Memory Enrollment Repository Jobs.

(** ** State, requests, responses *)

Record CA := mkCA { CACertPEM : pem_text }.

Record Server (St : Type) := mkServer {
  Store : St;
  APIKey : string;
  SourcePrecedence : list string;
  server_CA : option CA;
  Tokens : option TokenStore;
  Heartbeats : HeartbeatStore;
  Jobs : JobStore;
  started : time;
}.
Arguments mkServer {St}.
Arguments Store {St}.
Arguments APIKey {St}.
Arguments SourcePrecedence {St}.
Arguments server_CA {St}.
Arguments Tokens {St}.
Arguments Heartbeats {St}.
Arguments Jobs {St}.
Arguments started {St}.

Definition New {St} (now : time) (repo : St) (apiKey : string) : Server St :=
  mkServer repo apiKey [] None None (NewHeartbeatStore DefaultHeartbeatStaleAfter) NewJobStore now.

(** [now k] is the [k]-th reading of the clock by the handler; [rand] the random
    bytes it draws; [serial], [created] and [parse_csr] are the outcomes of
    [rand.Int], [x509.CreateCertificate] and [x509.ParseCertificateRequest];
    [order] the order in which the job map is ranged over. *)
Record Env := mkEnv {
  now : nat → time;
  rand : go (list Z);
  serial : go Z;
  created : go unit;
  parse_csr : list Z → go CertificateRequest;
  order : list string;
}.

Record Request := mkRequest {
  Authorization : string;
  PeerCertificates : option (list Certificate);
}.

Record certificateRevocationRequest := mkRevocationRequest {
  RevocationRequest_SerialNumber : string;
  RevocationRequest_Reason : string;
}.
Record scheduleRequest := mkScheduleRequest {
  ScheduleRequest_CollectorID : string;
  ScheduleRequest_Type : JobType;
  ScheduleRequest_IntervalSeconds : Z;
}.

(** The routes of [Handler], with the decoded body or path and query values. *)
Inductive endpoint :=
| GET_healthz
| GET_assets
| GET_relationships
| GET_audit
| GET_observations
| POST_observations (body : go ObservationEnvelope)
| POST_enrollment_tokens (body : go TokenRequest) (single : bool)
| POST_enroll (body : go EnrollRequest)
| POST_rotate (body : go RotateRequest)
| POST_certificate_revocations (body : go certificateRevocationRequest)
| GET_certificate_revocations
| POST_heartbeats (body : go HeartbeatRequest)
| GET_collectors
| POST_jobs (body : go JobRequest)
| GET_jobs (collector_id : string)
| GET_job (id : string)
| POST_job_result (id : string) (body : go JobResult)
| POST_schedules (body : go scheduleRequest)
| GET_schedules
| DELETE_schedule (collector_id : string).

Inductive payload :=
| error_body (msg : string)
| health_body (uptime_seconds : Z)
| assets_body (items : list ResolvedAsset)
| relationships_body (items : list ResolvedRelationship)
| audit_body (items : list Entry)
| observations_body (items : list ObservationEnvelope)
| accepted_body (observation_id : string)
| token_body (r : TokenResponse)
| enroll_body (r : EnrollResponse)
| revocation_body (r : CertificateRevocation)
| revocations_body (items : list CertificateRevocation)
| collectors_body (items : list CollectorStatus)
| job_body (j : Job)
| jobs_body (items : list Job)
| job_status_body (st : JobStatus)
| schedule_body (s : Schedule)
| schedules_body (items : list Schedule)
| ok_body.

Record Response := mkResponse { status : Z; response_body : payload }.

Definition writeError (st : Z) (msg : string) : Response := mkResponse st (error_body msg).

Definition bad_collector_id : string := "collector_id is empty, too long, or contains control characters".
Definition enrollmentTokenTTL : duration := Hour.
Definition minScheduleIntervalSeconds : Z := 60.
Definition maxScheduleIntervalSeconds : Z := 7 * 24 * 60 * 60.

(** ** Validation *)

Definition validRevocationReason (reason : string) : bool :=
  if bool_decide (reason = ""%string) || (512 <? slen reason) || negb (String.eqb (trim_space reason) reason)
  then false
  else negb (existsb is_control (runes reason)).

Definition validateObservation (e : ObservationEnvelope) : go unit :=
  reject negb (String.eqb (Envelope_SchemaVersion e) SchemaVersion) with "unsupported schema_version"%string ;;
  reject bool_decide (trim_space (Envelope_ObservationID e) = ""%string) with "observation_id is required"%string ;;
  reject IsZero (Envelope_ObservedAt e) with "observed_at is required"%string ;;
  reject existsb (λ a, bool_decide (Asset_Type a = ""%string) || bool_decide (Asset_NativeID a = ""%string))
    (Envelope_Assets e) with "each asset requires type and native_id"%string ;;
  Ok tt.

Definition tokenFingerprint (token : string) : string := sha256_hex_prefix 8 token.

Definition collectorIdentity (identity : option string) (fallback : string) : string :=
  default fallback identity.

(** ** Handlers *)

Section handlers.
Context {St : Type} `{Repository St}.

Abbreviation step := (Server St * Response)%type (only parsing).

Definition with_store (s : Server St) (st : St) : Server St :=
  mkServer st (APIKey s) (SourcePrecedence s) (server_CA s) (Tokens s) (Heartbeats s) (Jobs s) (started s).
Definition with_tokens (s : Server St) (t : TokenStore) : Server St :=
  mkServer (Store s) (APIKey s) (SourcePrecedence s) (server_CA s) (Some t) (Heartbeats s) (Jobs s) (started s).
Definition with_heartbeats (s : Server St) (h : HeartbeatStore) : Server St :=
  mkServer (Store s) (APIKey s) (SourcePrecedence s) (server_CA s) (Tokens s) h (Jobs s) (started s).
Definition with_jobs (s : Server St) (j : JobStore) : Server St :=
  mkServer (Store s) (APIKey s) (SourcePrecedence s) (server_CA s) (Tokens s) (Heartbeats s) j (started s).

(** Best effort: the error is only logged. *)
Definition recordAudit (at_ : time) (action actor : string) (detail : gmap string string) (s : Server St) : Server St :=
  with_store s (repo_AppendAuditEvent at_ (mkEvent action actor detail) (Store s)).1.

(** [v, err := s.Store.List...(ctx)], answered with the list or with the error *)
Definition list_response {A} (v : go A) (k : A → payload) : Response :=
  match v with Err e => writeError 500 e | Ok v => mkResponse 200 (k v) end.

Definition health (env : Env) (s : Server St) : step :=
  (s, mkResponse 200 (health_body (Z.quot (Sub (now env 0) (started s)) Second))).
Definition assets (s : Server St) : step :=
  (s, list_response (repo_ListAssetClaims (Store s))
        (λ claims, assets_body (ResolveAssetClaims claims (SourcePrecedence s)))).
Definition relationships_ (s : Server St) : step :=
  (s, list_response (repo_ListRelationships (Store s)) relationships_body).
Definition auditLog (s : Server St) : step :=
  (s, list_response (repo_ListAuditEntries (Store s)) audit_body).
Definition observations_ (s : Server St) : step :=
  (s, list_response (repo_ListObservations (Store s)) observations_body).

Definition set_collector (e : ObservationEnvelope) (c : string) : ObservationEnvelope :=
  mkObservationEnvelope (Envelope_SchemaVersion e) (Envelope_ObservationID e) (Envelope_SiteID e) c
    (Envelope_Plugin e) (Envelope_JobID e) (Envelope_ObservedAt e) (Envelope_Assets e)
    (Envelope_Relationships e) (Envelope_Errors e) (Envelope_Labels e).

Definition ingest (identity : option string) (body : go ObservationEnvelope) (s : Server St) : step :=
  match body with
  | Err e => (s, writeError 400 ("invalid observation: " +:+ e))
  | Ok e =>
    let e := set_collector e (collectorIdentity identity (Envelope_CollectorID e)) in
    match validateObservation e with
    | Err msg => (s, writeError 422 msg)
    | Ok _ =>
      let '(st, r) := repo_SaveObservation e (Store s) in
      (with_store s st,
       match r with Err msg => writeError 500 msg
       | Ok _ => mkResponse 202 (accepted_body (Envelope_ObservationID e)) end)
    end
  end.

Definition createEnrollmentToken (env : Env) (body : go TokenRequest) (single : bool) (s : Server St) : step :=
  match server_CA s, Tokens s with
  | Some _, Some tokens =>
    match body with
    | Err e => (s, writeError 400 ("invalid enrollment token request: " +:+ e))
    | Ok req =>
      if negb single
      then (s, writeError 400 "invalid enrollment token request: request body must contain one JSON object")
      else if negb (ValidCollectorID (TokenRequest_CollectorID req)) then (s, writeError 400 bad_collector_id)
      else
        let '(tokens, r) := Issue (rand env) (now env 0) (TokenRequest_CollectorID req) enrollmentTokenTTL tokens in
        let s := with_tokens s tokens in
        match r with
        | Err e => (s, writeError 500 e)
        | Ok (token, expiresAt) =>
          (recordAudit (now env 1) "enrollment_token_issued" "api-key"
             {["collector_id" := TokenRequest_CollectorID req; "token_fingerprint" := tokenFingerprint token;
               "expires_at" := RFC3339 expiresAt]} s,
           mkResponse 201 (token_body (mkTokenResponse token (TokenRequest_CollectorID req) expiresAt)))
        end
    end
  | _, _ => (s, writeError 501 "collector enrollment is not enabled")
  end.

(** [base64.StdEncoding.DecodeString(req.CSR)] and [enrollment.ParseCSR] *)
Definition decode_csr (env : Env) (text : string) : go CertificateRequest :=
  match base64_decode text with
  | None => Err "csr is not valid base64"%string
  | Some der => ParseCSR (parse_csr env der)
  end.

(** Sign, read the serial back, audit, answer: the common end of [enroll] and [rotate]. *)
Definition issue_certificate (env : Env) (ca : CA) (csr : CertificateRequest) (collectorID action : string)
    (detail : gmap string string) (s : Server St) : step :=
  match Sign (serial env) (now env 1) (created env) csr collectorID DefaultCertificateTTL with
  | Err e => (s, writeError 500 e)
  | Ok certPEM =>
    match CertificateSerialFromPEM certPEM with
    | Err e => (s, writeError 500 e)
    | Ok newSerial =>
      let expiresAt := Add (now env 2) DefaultCertificateTTL in
      (recordAudit (now env 3) action collectorID
         (<["serial_number" := newSerial]> (<["expires_at" := RFC3339 expiresAt]> detail)) s,
       mkResponse 200 (enroll_body (mkEnrollResponse certPEM (CACertPEM ca) newSerial expiresAt)))
    end
  end.

Definition enroll (env : Env) (body : go EnrollRequest) (s : Server St) : step :=
  match server_CA s, Tokens s with
  | Some ca, Some tokens =>
    match body with
    | Err e => (s, writeError 400 ("invalid enrollment request: " +:+ e))
    | Ok req =>
      if negb (ValidCollectorID (EnrollRequest_CollectorID req)) then (s, writeError 400 bad_collector_id)
      else match decode_csr env (EnrollRequest_CSR req) with
      | Err e => (s, writeError 400 e)
      | Ok csr =>
        let '(tokens, r) := Redeem (now env 0) (EnrollRequest_Token req) (EnrollRequest_CollectorID req) tokens in
        let s := with_tokens s tokens in
        match r with
        | Err e => (s, writeError 401 e)
        | Ok _ => issue_certificate env ca csr (EnrollRequest_CollectorID req) "collector_enrolled" ∅ s
        end
      end
    end
  | _, _ => (s, writeError 501 "collector enrollment is not enabled")
  end.

(** The certificate [r.TLS.PeerCertificates[0]], when there is one. *)
Definition peer_certificate (r : Request) : option Certificate := PeerCertificates r ≫= head.

Definition rotate (env : Env) (r : Request) (body : go RotateRequest) (s : Server St) : step :=
  match server_CA s with
  | None => (s, writeError 501 "collector enrollment is not enabled")
  | Some ca =>
    match peer_certificate r with
    | None => (s, writeError 401 "certificate rotation requires an already-verified client certificate")
    | Some cert =>
      let collectorID := Cert_CommonName cert in
      if negb (ValidCollectorID collectorID)
      then (s, writeError 401 "peer certificate has an invalid collector ID")
      else match body with
      | Err e => (s, writeError 400 ("invalid rotation request: " +:+ e))
      | Ok req =>
        match decode_csr env (RotateRequest_CSR req) with
        | Err e => (s, writeError 400 e)
        | Ok csr =>
          let oldSerial := CertificateSerial cert in
          match repo_IsCertificateRevoked oldSerial (Store s) with
          | Err _ => (s, writeError 503 "certificate revocation check unavailable")
          | Ok true => (s, writeError 401 "certificate revoked")
          | Ok false =>
            issue_certificate env ca csr collectorID "certificate_rotated"
              {["previous_serial_number" := oldSerial]} s
          end
        end
      end
    end
  end.

Definition createCertificateRevocation (env : Env) (body : go certificateRevocationRequest) (s : Server St) : step :=
  match body with
  | Err e => (s, writeError 400 ("invalid certificate revocation request: " +:+ e))
  | Ok req =>
    match NormalizeCertificateSerial (RevocationRequest_SerialNumber req) with
    | Err e => (s, writeError 400 e)
    | Ok serial =>
      if negb (validRevocationReason (RevocationRequest_Reason req))
      then (s, writeError 400 "reason must be 1 to 512 bytes, have no surrounding whitespace, and contain no control characters")
      else
        let revocation := mkCertificateRevocation serial (RevocationRequest_Reason req) (now env 0) in
        let '(st, r) := repo_RevokeCertificate revocation (Store s) in
        let s := with_store s st in
        match r with
        | Err e => (s, writeError 500 e)
        | Ok true =>
          (recordAudit (now env 1) "certificate_revoked" "api-key"
             {["serial_number" := serial; "reason" := RevocationRequest_Reason req]} s,
           mkResponse 201 (revocation_body revocation))
        | Ok false =>
          (s, match repo_ListCertificateRevocations (Store s) with
              | Err e => writeError 500 e
              | Ok items =>
                match List.find (λ x, String.eqb (Revocation_SerialNumber x) serial) items with
                | Some existing => mkResponse 200 (revocation_body existing)
                | None => writeError 500 "certificate revocation was not found after idempotent write"
                end
              end)
        end
    end
  end.

Definition listCertificateRevocations (s : Server St) : step :=
  (s, list_response (repo_ListCertificateRevocations (Store s)) revocations_body).

Definition heartbeat (env : Env) (identity : option string) (body : go HeartbeatRequest) (s : Server St) : step :=
  match body with
  | Err e => (s, writeError 400 ("invalid heartbeat: " +:+ e))
  | Ok req =>
    if negb (String.eqb (HeartbeatRequest_SchemaVersion req) SchemaVersion)
    then (s, writeError 400 "unsupported schema_version")
    else
      let collectorID := collectorIdentity identity (HeartbeatRequest_CollectorID req) in
      if negb (ValidCollectorID collectorID) then (s, writeError 400 bad_collector_id)
      else (with_heartbeats s (Record_heartbeat (now env 0) collectorID (HeartbeatRequest_SiteID req) (Heartbeats s)),
            mkResponse 202 ok_body)
  end.

Definition collectors (env : Env) (s : Server St) : step :=
  (s, mkResponse 200 (collectors_body (List_heartbeats (now env 0) (Heartbeats s)))).

Definition createJob (env : Env) (body : go JobRequest) (s : Server St) : step :=
  match body with
  | Err e => (s, writeError 400 ("invalid job request: " +:+ e))
  | Ok req =>
    if negb (ValidCollectorID (JobRequest_CollectorID req)) then (s, writeError 400 bad_collector_id)
    else if negb (String.eqb (JobRequest_Type req) JobTypeDiscover)
    then (s, writeError 400 "unsupported job type %q")
    else
      let '(jobs, r) := Enqueue (rand env) (now env 0) (JobRequest_CollectorID req) (JobRequest_Type req) (Jobs s) in
      let s := with_jobs s jobs in
      match r with
      | Err e => (s, writeError 500 e)
      | Ok job =>
        (recordAudit (now env 1) "job_created" "api-key"
           {["collector_id" := JobRequest_CollectorID req; "job_id" := Job_JobID job;
             "job_type" := JobRequest_Type req]} s,
         mkResponse 201 (job_body job))
      end
  end.

(** *** Schedules *)

Definition advance (s : Schedule) (next updated : time) : Schedule :=
  mkSchedule (Schedule_CollectorID s) (Schedule_JobType s) (Schedule_IntervalSeconds s) next
    (Schedule_CreatedAt s) updated.

(** [maybeEnqueueScheduledJob] in the pieces between which other requests can run:
    the schedule that is due with no job of its type outstanding; queueing its job,
    with the schedule to write back as the result; the write. *)
Definition schedule_due (env : Env) (collectorID : string) (s : Server St) : option Schedule :=
  match repo_GetSchedule collectorID (Store s) with
  | Err _ => None
  | Ok sched =>
    if After (Schedule_NextRunAt sched) (now env 0) then None
    else if HasOutstanding collectorID (Schedule_JobType sched) (Jobs s) then None
    else Some sched
  end.

Definition enqueue_scheduled (env : Env) (collectorID : string) (sched : Schedule) (s : Server St)
    : Server St * option Schedule :=
  let '(jobs, r) := Enqueue (rand env) (now env 1) collectorID (Schedule_JobType sched) (Jobs s) in
  let s := with_jobs s jobs in
  match r with
  | Err _ => (s, None)
  | Ok _ =>
    (s, Some (advance sched
          (Add (now env 2) (wrap64 (Schedule_IntervalSeconds sched * Second))) (now env 3)))
  end.

Definition enqueue_if_due (env : Env) (collectorID : string) (s : Server St) : Server St * option Schedule :=
  match schedule_due env collectorID s with
  | None => (s, None)
  | Some sched => enqueue_scheduled env collectorID sched s
  end.

Definition write_schedule (sched : option Schedule) (s : Server St) : Server St :=
  match sched with
  | None => s
  | Some sched => with_store s (repo_UpsertSchedule sched (Store s)).1
  end.

Definition maybeEnqueueScheduledJob (env : Env) (collectorID : string) (s : Server St) : Server St :=
  let '(s, sched) := enqueue_if_due env collectorID s in
  write_schedule sched s.

Definition pollJobs (env : Env) (identity : option string) (collector_id : string) (s : Server St) : step :=
  let collectorID := collectorIdentity identity collector_id in
  if negb (ValidCollectorID collectorID) then (s, writeError 400 bad_collector_id)
  else
    let s := maybeEnqueueScheduledJob env collectorID s in
    let '(jobs, out) := Poll (order env) collectorID (Jobs s) in
    (with_jobs s jobs, mkResponse 200 (jobs_body out)).

Definition jobStatus_ (id : string) (s : Server St) : step :=
  (s, match Status id (Jobs s) with
      | Err e => writeError 404 e
      | Ok st => mkResponse 200 (job_status_body st)
      end).

Definition reportJobResult (env : Env) (identity : option string) (id : string) (body : go JobResult) (s : Server St) : step :=
  match body with
  | Err e => (s, writeError 400 ("invalid job result: " +:+ e))
  | Ok req =>
    let collectorID := collectorIdentity identity (JobResult_CollectorID req) in
    if negb (ValidCollectorID collectorID) then (s, writeError 400 bad_collector_id)
    else
      let '(jobs, r) := Result (now env 0) id collectorID req (Jobs s) in
      (with_jobs s jobs,
       match r with
       | Err e => writeError (if String.eqb e ErrJobNotFound then 404 else 400) e
       | Ok _ => mkResponse 200 ok_body
       end)
  end.

Definition createOrUpdateSchedule (env : Env) (body : go scheduleRequest) (s : Server St) : step :=
  match body with
  | Err e => (s, writeError 400 ("invalid schedule request: " +:+ e))
  | Ok req =>
    let c := ScheduleRequest_CollectorID req in
    let t := if bool_decide (ScheduleRequest_Type req = ""%string) then JobTypeDiscover else ScheduleRequest_Type req in
    let i := ScheduleRequest_IntervalSeconds req in
    if negb (ValidCollectorID c) then (s, writeError 400 bad_collector_id)
    else if negb (String.eqb t JobTypeDiscover) then (s, writeError 400 "unsupported job type %q")
    else if (i <? minScheduleIntervalSeconds) || (maxScheduleIntervalSeconds <? i)
    then (s, writeError 400 "interval_seconds must be between %d and %d")
    else
      let now0 := now env 0 in
      let '(createdAt, action) :=
        match repo_GetSchedule c (Store s) with
        | Ok existing => (Schedule_CreatedAt existing, "schedule_updated"%string)
        | Err _ => (now0, "schedule_created"%string)
        end in
      let sched := mkSchedule c t i now0 createdAt now0 in
      let '(st, r) := repo_UpsertSchedule sched (Store s) in
      let s := with_store s st in
      match r with
      | Err e => (s, writeError 500 e)
      | Ok _ =>
        (recordAudit (now env 1) action "api-key"
           {["collector_id" := c; "job_type" := t; "interval_seconds" := decimal i]} s,
         mkResponse 200 (schedule_body sched))
      end
  end.

Definition listSchedules (s : Server St) : step :=
  (s, list_response (repo_ListSchedules (Store s)) schedules_body).

Definition deleteSchedule (env : Env) (collectorID : string) (s : Server St) : step :=
  if negb (ValidCollectorID collectorID) then (s, writeError 400 bad_collector_id)
  else match repo_GetSchedule collectorID (Store s) with
  | Err e => (s, if String.eqb e ErrNotFound then writeError 404 "no schedule for this collector"
                 else writeError 500 e)
  | Ok _ =>
    let '(st, r) := repo_DeleteSchedule collectorID (Store s) in
    let s := with_store s st in
    match r with
    | Err e => (s, writeError 500 e)
    | Ok _ => (recordAudit (now env 0) "schedule_deleted" "api-key" {["collector_id" := collectorID]} s,
               mkResponse 200 ok_body)
    end
  end.

(** ** Authorization *)

Definition bearer (s : Server St) : string := ("Bearer " +:+ APIKey s)%string.

Definition hasVerifiedCollectorCertificate (r : Request) : bool :=
  bool_decide (is_Some (peer_certificate r)).

Definition collectorAuth (r : Request) (next : option string → Server St → step) (s : Server St) : step :=
  match peer_certificate r with
  | Some cert =>
    match repo_IsCertificateRevoked (CertificateSerial cert) (Store s) with
    | Err _ => (s, writeError 503 "certificate revocation check unavailable")
    | Ok true =>
      if negb (bool_decide (APIKey s = ""%string)) && String.eqb (Authorization r) (bearer s)
      then next None s
      else (s, writeError 401 "certificate revoked")
    | Ok false => next (Some (Cert_CommonName cert)) s
    end
  | None =>
    if negb (bool_decide (APIKey s = ""%string)) && negb (String.eqb (Authorization r) (bearer s))
    then (s, writeError 401 "unauthorized")
    else next None s
  end.

Definition adminAuth (r : Request) (next : Server St → step) (s : Server St) : step :=
  if bool_decide (APIKey s = ""%string) then next s
  else if String.eqb (Authorization r) (bearer s) then next s
  else if hasVerifiedCollectorCertificate r
  then (s, writeError 403 "collector certificate is not authorized for administrative endpoints")
  else (s, writeError 401 "unauthorized").

Definition Handler (env : Env) (r : Request) (e : endpoint) : Server St → step :=
  match e with
  | GET_healthz => health env
  | GET_assets => adminAuth r assets
  | GET_relationships => adminAuth r relationships_
  | GET_audit => adminAuth r auditLog
  | GET_observations => adminAuth r observations_
  | POST_observations body => collectorAuth r (λ id, ingest id body)
  | POST_enrollment_tokens body single => adminAuth r (createEnrollmentToken env body single)
  | POST_enroll body => enroll env body
  | POST_rotate body => rotate env r body
  | POST_certificate_revocations body => adminAuth r (createCertificateRevocation env body)
  | GET_certificate_revocations => adminAuth r listCertificateRevocations
  | POST_heartbeats body => collectorAuth r (λ id, heartbeat env id body)
  | GET_collectors => adminAuth r (collectors env)
  | POST_jobs body => adminAuth r (createJob env body)
  | GET_jobs c => collectorAuth r (λ id, pollJobs env id c)
  | GET_job id => adminAuth r (jobStatus_ id)
  | POST_job_result id body => collectorAuth r (λ c, reportJobResult env c id body)
  | POST_schedules body => adminAuth r (createOrUpdateSchedule env body)
  | GET_schedules => adminAuth r listSchedules
  | DELETE_schedule c => adminAuth r (deleteSchedule env c)
  end.
End handlers.

(** ** A run of the server *)

Definition serve {St} `{Repository St} (s : Server St) (q : Env * Request * endpoint) : Server St :=
  (Handler q.1.1 q.1.2 q.2 s).1.
Definition serve_all {St} `{Repository St} (s : Server St) (qs : list (Env * Request * endpoint)) : Server St :=
  foldl serve s qs.

(** The operator's routes. *)
Definition admin_endpoint (e : endpoint) : bool :=
  match e with
  | GET_assets | GET_relationships | GET_audit | GET_observations
  | POST_enrollment_tokens _ _ | POST_certificate_revocations _ | GET_certificate_revocations
  | GET_collectors | POST_jobs _ | GET_job _ | POST_schedules _ | GET_schedules | DELETE_schedule _ => true
  | _ => false
  end.

(** The collector data plane. *)
Definition collector_endpoint (e : endpoint) : bool :=
  match e with
  | POST_observations _ | POST_heartbeats _ | GET_jobs _ | POST_job_result _ _ => true
  | _ => false
  end.

(** The same request with another collector named in its body or query. *)
Definition claiming (id : string) (e : endpoint) : endpoint :=
  match e with
  | POST_observations (Ok o) => POST_observations (Ok (set_collector o id))
  | POST_heartbeats (Ok h) =>
    POST_heartbeats (Ok (mkHeartbeatRequest (HeartbeatRequest_SchemaVersion h) id (HeartbeatRequest_SiteID h)))
  | GET_jobs _ => GET_jobs id
  | POST_job_result j (Ok r) =>
    POST_job_result j (Ok (mkJobResult id (JobResult_Success r) (JobResult_Error r) (JobResult_CompletedAt r)))
  | _ => e
  end.

(** ** Lemmas *)

(** Split on what a handler tests, keeping the store calls as variables. *)
Ltac handler_cases :=
  repeat match goal with
  | |- context [match ?c with _ => _ end] => destruct c eqn:?; simplify_eq/=; try done
  | |- context [let '(_, _) := ?c in _] => destruct c eqn:?; simplify_eq/=
  end.

Section writes.
Context {St : Type} `{Repository St}.
Implicit Types s : Server St.

Lemma recordAudit_writes at_ action actor detail s :
  repo_writes (Store s) (Store (recordAudit at_ action actor detail s)).
Proof. unfold recordAudit. simpl. auto with repo. Qed.

Lemma issue_certificate_writes env ca csr c action detail s :
  repo_writes (Store s) (Store (issue_certificate env ca csr c action detail s).1).
Proof.
  unfold issue_certificate. destruct (Sign _ _ _ _ _ _); simpl; [|auto with repo].
  destruct (CertificateSerialFromPEM _); simpl; auto with repo.
Qed.

Lemma write_upsert_writes s sched : repo_writes (Store s) (Store (write_schedule sched s)).
Proof. destruct sched; simpl; auto with repo. Qed.

Lemma enqueue_if_due_store env c s : Store (enqueue_if_due env c s).1 = Store s.
Proof.
  unfold enqueue_if_due, schedule_due, enqueue_scheduled. destruct (repo_GetSchedule _ _); [|done].
  destruct (After _ _); [done|]. destruct (HasOutstanding _ _ _); [done|].
  destruct (Enqueue _ _ _ _ _) as [jobs [j|e]]; done.
Qed.

Lemma maybe_writes env c s : repo_writes (Store s) (Store (maybeEnqueueScheduledJob env c s)).
Proof.
  unfold maybeEnqueueScheduledJob. pose proof (enqueue_if_due_store env c s) as Hs.
  destruct (enqueue_if_due env c s) as [s' sched]. simpl in Hs. rewrite <-Hs. apply write_upsert_writes.
Qed.

(** A store call of the repository, by its equation. *)
Lemma save_writes e st st' r : repo_SaveObservation e st = (st', r) → repo_writes st st'.
Proof. intros Hq. pose proof (write_save st e) as Hw. rewrite Hq in Hw. auto with repo. Qed.
Lemma upsert_writes e st st' r : repo_UpsertSchedule e st = (st', r) → repo_writes st st'.
Proof. intros Hq. pose proof (write_upsert st e) as Hw. rewrite Hq in Hw. auto with repo. Qed.
Lemma delete_writes e st st' r : repo_DeleteSchedule e st = (st', r) → repo_writes st st'.
Proof. intros Hq. pose proof (write_delete st e) as Hw. rewrite Hq in Hw. auto with repo. Qed.
Lemma revoke_writes e st st' r : repo_RevokeCertificate e st = (st', r) → repo_writes st st'.
Proof. intros Hq. pose proof (write_revoke st e) as Hw. rewrite Hq in Hw. auto with repo. Qed.

Lemma adminAuth_writes r next s :
  (∀ s, repo_writes (Store s) (Store (next s).1)) →
  repo_writes (Store s) (Store (adminAuth r next s).1).
Proof. intros Hn. unfold adminAuth. repeat case_match; simpl; auto with repo. Qed.

Lemma collectorAuth_writes r next s :
  (∀ id s, repo_writes (Store s) (Store (next id s).1)) →
  repo_writes (Store s) (Store (collectorAuth r next s).1).
Proof. intros Hn. unfold collectorAuth. repeat case_match; simpl; auto with repo. Qed.

Lemma createOrUpdateSchedule_writes env body s :
  repo_writes (Store s) (Store (createOrUpdateSchedule env body s).1).
Proof.
  unfold createOrUpdateSchedule. destruct body as [req|]; simpl; [|auto with repo].
  destruct (negb (ValidCollectorID _)); simpl; [auto with repo|].
  destruct (negb (String.eqb _ _)); simpl; [auto with repo|].
  destruct (_ || _); simpl; [auto with repo|].
  destruct (match repo_GetSchedule _ _ with Ok _ => _ | Err _ => _ end) as [createdAt action].
  destruct (repo_UpsertSchedule _ _) as [st r] eqn:E. apply upsert_writes in E.
  destruct r; simpl; [|done]. eapply writes_more; [exact E|]. auto with repo.
Qed.

Lemma createCertificateRevocation_writes env body s :
  repo_writes (Store s) (Store (createCertificateRevocation env body s).1).
Proof.
  unfold createCertificateRevocation. destruct body as [req|]; simpl; [|auto with repo].
  destruct (NormalizeCertificateSerial _); simpl; [|auto with repo].
  destruct (negb _); simpl; [auto with repo|].
  destruct (repo_RevokeCertificate _ _) as [st r] eqn:E. apply revoke_writes in E.
  destruct r as [[]|]; simpl; [|done|done]. eapply writes_more; [exact E|]. auto with repo.
Qed.

(** Whatever the request, the store changes by writes of its interface only. *)
Lemma Handler_writes env r e s : repo_writes (Store s) (Store (Handler env r e s).1).
Proof.
  destruct e; simpl; try (apply adminAuth_writes; intros t); try (apply collectorAuth_writes; intros id_ t);
    try (simpl; auto with repo; fail).
  - unfold ingest. destruct body; simpl; [|auto with repo].
    destruct (validateObservation _); simpl; [|auto with repo].
    destruct (repo_SaveObservation _ _) as [st q] eqn:E. simpl. by eapply save_writes.
  - unfold createEnrollmentToken. destruct (server_CA t), (Tokens t); simpl; auto with repo.
    destruct body; simpl; [|auto with repo]. destruct (negb single); simpl; [auto with repo|].
    destruct (negb _); simpl; [auto with repo|]. destruct (Issue _ _ _ _ _) as [tk [[]|]]; simpl; auto with repo.
  - unfold enroll. destruct (server_CA s), (Tokens s); simpl; auto with repo.
    destruct body; simpl; [|auto with repo]. destruct (negb _); simpl; [auto with repo|].
    destruct (decode_csr _ _); simpl; [|auto with repo]. destruct (Redeem _ _ _ _) as [tk []]; simpl; [|auto with repo].
    apply (issue_certificate_writes _ _ _ _ _ _ (with_tokens s tk)).
  - unfold rotate. destruct (server_CA s); simpl; [|auto with repo].
    destruct (peer_certificate r); simpl; [|auto with repo]. destruct (negb _); simpl; [auto with repo|].
    destruct body; simpl; [|auto with repo]. destruct (decode_csr _ _); simpl; [|auto with repo].
    destruct (repo_IsCertificateRevoked _ _) as [[]|]; simpl; [auto with repo| |auto with repo].
    apply issue_certificate_writes.
  - apply createCertificateRevocation_writes.
  - unfold heartbeat. destruct body; simpl; [|auto with repo].
    destruct (negb _); simpl; [auto with repo|]. destruct (negb _); simpl; auto with repo.
  - unfold createJob. destruct body; simpl; [|auto with repo]. destruct (negb _); simpl; [auto with repo|].
    destruct (negb _); simpl; [auto with repo|]. destruct (Enqueue _ _ _ _ _) as [jb []]; simpl; auto with repo.
  - unfold pollJobs. destruct (negb _); simpl; [auto with repo|]. destruct (Poll _ _ _) as [jb out]. simpl.
    apply maybe_writes.
  - unfold reportJobResult. destruct body; simpl; [|auto with repo]. destruct (negb _); simpl; [auto with repo|].
    destruct (Result _ _ _ _ _) as [jb []]; simpl; auto with repo.
  - apply createOrUpdateSchedule_writes.
  - unfold deleteSchedule. destruct (negb _); simpl; [auto with repo|].
    destruct (repo_GetSchedule _ _); simpl; [|auto with repo].
    destruct (repo_DeleteSchedule _ _) as [st q] eqn:E. apply delete_writes in E.
    destruct q; simpl; [|done]. eapply writes_more; [exact E|]. auto with repo.
Qed.

Lemma serve_all_writes s qs : repo_writes (Store s) (Store (serve_all s qs)).
Proof.
  revert s. induction qs as [|q qs IH]; intros s; simpl; [auto with repo|].
  eapply repo_writes_trans; [|apply IH]. apply Handler_writes.
Qed.
End writes.

(** *** Outstanding jobs *)

(** No collector has two unfinished jobs of one type. *)
Definition no_backlog (j : JobStore) : Prop :=
  ∀ id1 id2 r1 r2, j !! id1 = Some r1 → j !! id2 = Some r2 →
    outstanding r1 = true → outstanding r2 = true →
    job_collectorID r1 = job_collectorID r2 → job_jobType r1 = job_jobType r2 → id1 = id2.

(** [k] has the jobs of [j], each with the same owner and type, none reopened. *)
Definition no_new_work (j k : JobStore) : Prop :=
  ∀ id r, k !! id = Some r → ∃ r', j !! id = Some r' ∧ job_collectorID r' = job_collectorID r ∧
    job_jobType r' = job_jobType r ∧ (outstanding r = true → outstanding r' = true).

Lemma no_new_work_backlog j k : no_new_work j k → no_backlog j → no_backlog k.
Proof.
  intros Hk Hj id1 id2 r1 r2 H1 H2 O1 O2 Hc Ht.
  destruct (Hk _ _ H1) as (q1 & Q1 & C1 & T1 & I1). destruct (Hk _ _ H2) as (q2 & Q2 & C2 & T2 & I2).
  eapply (Hj id1 id2); [exact Q1|exact Q2|auto|auto|congruence|congruence].
Qed.

Lemma no_new_work_refl j : no_new_work j j.
Proof. intros id r Hr. eauto 6. Qed.

Lemma Poll_no_new_work order c j : no_new_work j (Poll order c j).1.
Proof.
  unfold Poll. destruct (foldl (poll_one c) (j, []) order) as [k out] eqn:E. simpl.
  assert (∀ order j0 out0 k out, foldl (poll_one c) (j0, out0) order = (k, out) →
    no_new_work j j0 → no_new_work j k) as Hgo; [|eapply Hgo; [exact E|apply no_new_work_refl]].
  clear. intros order. induction order as [|x order IH]; intros j0 out0 k out; cbn [foldl].
  { by intros [= <- <-]. }
  rewrite poll_one_eq. destruct (j0 !! x) as [r|] eqn:Er; [|apply IH].
  destruct (pollable c r) eqn:Eb; [|apply IH]. intros Hf Hj. eapply IH; [exact Hf|].
  apply andb_true_iff in Eb as [_ Eb%status_eqb_eq].
  intros id q Hq. destruct (decide (x = id)) as [->|Hne].
  - rewrite lookup_insert_eq in Hq. injection Hq as <-. simpl.
    destruct (Hj id r Er) as (r' & ? & ? & ? & Ho). exists r'. split; [done|]. split; [done|].
    split; [done|]. intros _. apply Ho. unfold outstanding. by rewrite Eb.
  - rewrite lookup_insert_ne in Hq by done. by apply Hj.
Qed.

Lemma Result_no_new_work t id c q j : no_new_work j (Result t id c q j).1.
Proof.
  unfold Result. destruct (j !! id) as [r|] eqn:Er; [|apply no_new_work_refl].
  destruct (negb _); [apply no_new_work_refl|]. destruct (negb _) eqn:Est; [apply no_new_work_refl|].
  intros id' r' Hr'. simpl in Hr'. destruct (decide (id = id')) as [->|Hne].
  - rewrite lookup_insert_eq in Hr'. injection Hr' as <-. exists r. simpl.
    split; [done|]. split; [done|]. split; [done|]. unfold outstanding. simpl. by destruct (JobResult_Success q).
  - rewrite lookup_insert_ne in Hr' by done. by apply no_new_work_refl.
Qed.

Lemma Enqueue_no_backlog buf t c ty j :
  HasOutstanding c ty j = false → no_backlog j → no_backlog (Enqueue buf t c ty j).1.
Proof.
  intros Hno Hj. destruct buf as [buf|]; [|done]. simpl. set (id := hex_encode buf).
  assert (∀ id' r', j !! id' = Some r' → outstanding r' = true →
    job_collectorID r' = c → job_jobType r' = ty → False) as Hfresh.
  { intros id' r' Hr' Ho <- <-. assert (HasOutstanding (job_collectorID r') (job_jobType r') j = true); [|congruence].
    apply HasOutstanding_spec. exists id', r'. split; [done|].
    unfold outstanding_for. by rewrite !String.eqb_refl, Ho. }
  intros id1 id2 r1 r2 H1 H2 O1 O2 Hc Ht.
  destruct (decide (id = id1)) as [<-|N1], (decide (id = id2)) as [<-|N2]; [done| | |].
  - rewrite lookup_insert_eq in H1. rewrite lookup_insert_ne in H2 by done. injection H1 as <-.
    simpl in *. exfalso. by eapply (Hfresh id2 r2).
  - rewrite lookup_insert_eq in H2. rewrite lookup_insert_ne in H1 by done. injection H2 as <-.
    simpl in *. exfalso. by eapply (Hfresh id1 r1).
  - rewrite lookup_insert_ne in H1, H2 by done. by eapply Hj.
Qed.

Section backlog.
Context {St : Type} `{Repository St}.
Implicit Types s : Server St.

Lemma maybe_no_backlog env c s :
  no_backlog (Jobs s) → no_backlog (Jobs (maybeEnqueueScheduledJob env c s)).
Proof.
  intros Hj. unfold maybeEnqueueScheduledJob, enqueue_if_due, schedule_due, enqueue_scheduled.
  destruct (repo_GetSchedule _ _) as [sched|]; [|done]. destruct (After _ _); [done|].
  destruct (HasOutstanding _ _ _) eqn:Ho; [done|].
  pose proof (Enqueue_no_backlog (rand env) (now env 1) c (Schedule_JobType sched) _ Ho Hj) as Hq.
  destruct (Enqueue _ _ _ _ _) as [jobs [j|e]]; done.
Qed.

Lemma Handler_no_backlog env r e s :
  (∀ body, e ≠ POST_jobs body) → no_backlog (Jobs s) → no_backlog (Jobs (Handler env r e s).1).
Proof.
  intros He Hj. destruct e; simpl; try done; try (by destruct (He body)).
  all: try (unfold adminAuth, listCertificateRevocations, listSchedules; simpl;
            repeat (case_match; simpl; try done); fail).
  - unfold collectorAuth, ingest. repeat (case_match; simplify_eq/=; try done).
  - unfold adminAuth, createEnrollmentToken. repeat (case_match; simplify_eq/=; try done).
  - unfold enroll, issue_certificate. repeat (case_match; simplify_eq/=; try done).
  - unfold rotate, issue_certificate. repeat (case_match; simplify_eq/=; try done).
  - unfold adminAuth, createCertificateRevocation. repeat (case_match; simplify_eq/=; try done).
  - unfold collectorAuth, heartbeat. repeat (case_match; simplify_eq/=; try done).
  - assert (∀ id, no_backlog (Jobs (pollJobs env id collector_id s).1)) as Hp.
    { intros id. unfold pollJobs. destruct (negb _); [done|].
      destruct (Poll _ _ _) as [jobs out] eqn:E. simpl.
      pose proof (Poll_no_new_work (order env) (collectorIdentity id collector_id)
        (Jobs (maybeEnqueueScheduledJob env (collectorIdentity id collector_id) s))) as Hn.
      rewrite E in Hn. eapply no_new_work_backlog; [exact Hn|]. by apply maybe_no_backlog. }
    unfold collectorAuth. repeat (case_match; simpl; try done).
  - assert (∀ c, no_backlog (Jobs (reportJobResult env c id body s).1)) as Hp.
    { intros c. unfold reportJobResult. destruct body as [req|]; [|done]. destruct (negb _); [done|].
      pose proof (Result_no_new_work (now env 0) id (collectorIdentity c (JobResult_CollectorID req)) req (Jobs s)) as Hn.
      destruct (Result _ _ _ _ _) as [jobs q]. simpl. by eapply no_new_work_backlog. }
    unfold collectorAuth. repeat (case_match; simpl; try done).
  - unfold adminAuth, createOrUpdateSchedule. repeat (case_match; simplify_eq/=; try done).
  - unfold adminAuth, deleteSchedule. repeat (case_match; simplify_eq/=; try done).
Qed.
End backlog.

(** The request changed nothing and the status is an error. *)
Ltac refused := split; [done|simpl; lia].

(** ** Theorems *)

(** C24: administrative authority needs the operator key.  With an API key configured,
    a request to an operator route without it is refused and changes nothing,
    whatever certificate it presents. *)
Theorem admin_requires_key {St} `{Repository St} (env : Env) (r : Request) (e : endpoint) (s : Server St) :
  admin_endpoint e = true → APIKey s ≠ ""%string → Authorization r ≠ bearer s →
  (Handler env r e s).1 = s ∧
  status (Handler env r e s).2 = if hasVerifiedCollectorCertificate r then 403 else 401.
Proof.
  intros He Hk Ha.
  assert (∀ next, adminAuth r next s =
    (s, writeError (if hasVerifiedCollectorCertificate r then 403 else 401)
       (if hasVerifiedCollectorCertificate r
        then "collector certificate is not authorized for administrative endpoints" else "unauthorized"))) as Hauth.
  { intros next. unfold adminAuth. rewrite bool_decide_eq_false_2 by done.
    destruct (String.eqb_spec (Authorization r) (bearer s)); [done|].
    by destruct (hasVerifiedCollectorCertificate r). }
  destruct e; try done; simpl; by rewrite Hauth.
Qed.

(** C25: a verified certificate fixes the collector's identity.  On every route, a
    request that presents an unrevoked certificate has the same effect and answer
    whatever collector its body or query names. *)
Theorem certificate_identity_binds {St} `{Repository St} (env : Env) (r : Request) (e : endpoint)
    (s : Server St) (cert : Certificate) (id : string) :
  peer_certificate r = Some cert →
  repo_IsCertificateRevoked (CertificateSerial cert) (Store s) = Ok false →
  Handler env r (claiming id e) s = Handler env r e s.
Proof.
  intros Hp Hr. assert (∀ next, collectorAuth r next s = next (Some (Cert_CommonName cert)) s) as Hauth.
  { intros next. unfold collectorAuth. by rewrite Hp, Hr. }
  destruct e; simpl; try done; try destruct body; simpl; try done; by rewrite !Hauth.
Qed.

(** C7: revocation is final.  Once a revocation of a serial number, however it was
    spelt, has been answered with 200 or 201, no later request with the certificate
    of that serial rotates it or, without the operator's key, reaches the collector
    data plane: such requests are refused and leave the server as it was. *)
Theorem revoked_certificate_is_refused {St} `{RepositoryLaws St} (s : Server St)
    (env env' : Env) (r r' : Request) (req : certificateRevocationRequest)
    (qs : list (Env * Request * endpoint)) (cert : Certificate) (e : endpoint) :
  let a := Handler env r (POST_certificate_revocations (Ok req)) s in
  let s' := serve_all a.1 qs in
  status a.2 = 200 ∨ status a.2 = 201 →
  NormalizeCertificateSerial (RevocationRequest_SerialNumber req) = Ok (CertificateSerial cert) →
  peer_certificate r' = Some cert →
  (∃ body, e = POST_rotate body) ∨
    (collector_endpoint e = true ∧ (APIKey s' = ""%string ∨ Authorization r' ≠ bearer s')) →
  (Handler env' r' e s').1 = s' ∧ 400 <= status (Handler env' r' e s').2.
Proof.
  intros a s' Hst Hn Hp He.
  assert (repo_revoked (Store s') (CertificateSerial cert)) as Hrev.
  { unfold s'. eapply revocation_survives_all; [apply serve_all_writes|].
    revert Hst. unfold a. simpl. unfold adminAuth.
    assert (∀ u, status (createCertificateRevocation env (Ok req) u).2 = 200 ∨
                 status (createCertificateRevocation env (Ok req) u).2 = 201 →
      repo_revoked (Store (createCertificateRevocation env (Ok req) u).1) (CertificateSerial cert)) as Hgo.
    { intros u. unfold createCertificateRevocation. rewrite Hn.
      destruct (negb _); [simpl; lia|].
      destruct (repo_RevokeCertificate _ _) as [st q] eqn:E. simpl.
      destruct q as [b|]; [|simpl; lia]. apply revoke_records in E. simpl in E.
      destruct b; simpl; [|done]. intros _.
      eapply revocation_survives; [|exact E]. apply write_audit. }
    destruct (bool_decide _); [apply Hgo|]. destruct (String.eqb _ _); [apply Hgo|].
    destruct (hasVerifiedCollectorCertificate r); simpl; lia. }
  assert (repo_IsCertificateRevoked (CertificateSerial cert) (Store s') ≠ Ok false) as Hf.
  { intros Hf. apply is_revoked_exact in Hf as Hf'. by apply Hf' in Hrev. }
  destruct He as [[body ->]|[Hc Hk]].
  - simpl. unfold rotate. rewrite Hp.
    destruct (server_CA s'); simpl; [|refused]. destruct (negb _); [refused|].
    destruct body; [|refused]. destruct (decode_csr _ _); [|refused].
    destruct (repo_IsCertificateRevoked _ _) as [[]|]; [refused|done|refused].
  - assert (∀ next, (collectorAuth r' next s').1 = s' ∧ 400 <= status (collectorAuth r' next s').2) as Hauth;
      [|destruct e; try done; apply Hauth].
    intros next. unfold collectorAuth. rewrite Hp.
    destruct (repo_IsCertificateRevoked _ _) as [[]|]; [|done|refused].
    destruct (negb _ && String.eqb _ _) eqn:Eb; [|refused]. exfalso.
    apply andb_true_iff in Eb as [Eb1 Eb2]. apply negb_true_iff, bool_decide_eq_false in Eb1.
    apply String.eqb_eq in Eb2. by destruct Hk.
Qed.

(** Over the in-memory store the audit log verifies after any sequence of requests. *)
Theorem served_audit_verifies (t : time) (apiKey : string) (qs : list (Env * Request * endpoint)) :
  VerifyChain (auditEntries (Store (serve_all (New t NewMemory apiKey) qs))) = Ok tt.
Proof.
  destruct (memory_writes_steps _ _ (serve_all_writes (New t NewMemory apiKey) qs)) as [ops ->].
  apply audit_verifies.
Qed.

(** Schedules never build up a backlog.  As long as no operator queues jobs by
    hand, no sequence of polls, results, schedule changes and other requests leaves
    a collector with two unfinished jobs of one type. *)
Theorem scheduled_jobs_no_backlog {St} `{Repository St} (t : time) (repo : St) (apiKey : string)
    (qs : list (Env * Request * endpoint)) :
  Forall (λ q, ∀ body, q.2 ≠ POST_jobs body) qs →
  no_backlog (Jobs (serve_all (New t repo apiKey) qs)).
Proof.
  intros Hq. assert (no_backlog (Jobs (New t repo apiKey))) as Hj.
  { intros id1 id2 r1 r2 H1. simpl in H1. unfold NewJobStore in H1. by rewrite lookup_empty in H1. }
  revert Hj. generalize (New t repo apiKey). induction Hq as [|q qs Hq Hqs IH]; intros s Hj; simpl; [done|].
  apply IH. by apply Handler_no_backlog.
Qed.

(** A schedule fires at most once per interval.  After a poll of a collector with
    a schedule accepted by the API has queued a job, another poll before the
    interval has passed queues nothing and leaves the schedule alone, even if the
    job was finished meanwhile. *)
Theorem schedule_fires_once_per_interval (env env' : Env) (collectorID : string) (s : Server Memory)
    (sched : Schedule) (jobs : JobStore) :
  schedules (Store s) !! collectorID = Some sched → Schedule_CollectorID sched = collectorID →
  minScheduleIntervalSeconds <= Schedule_IntervalSeconds sched <= maxScheduleIntervalSeconds →
  let s1 := maybeEnqueueScheduledJob env collectorID s in
  Jobs s1 ≠ Jobs s →
  now env' 0 < now env 2 + Schedule_IntervalSeconds sched * Second →
  maybeEnqueueScheduledJob env' collectorID (with_jobs s1 jobs) = with_jobs s1 jobs.
Proof.
  intros Hs Hc Hi s1 Hne Hlt.
  assert (schedules (Store s1) !! collectorID =
    Some (advance sched (now env 2 + Schedule_IntervalSeconds sched * Second) (now env 3))) as Hs1.
  { revert Hne. unfold s1, maybeEnqueueScheduledJob, enqueue_if_due, schedule_due, enqueue_scheduled. simpl. unfold GetSchedule. rewrite Hs.
    destruct (After _ _); [done|]. destruct (HasOutstanding _ _ _); [done|].
    destruct (Enqueue _ _ _ _ _) as [js [j|e]] eqn:Ej; [|unfold Enqueue in Ej; by destruct (rand env); simplify_eq].
    intros _. simpl. rewrite Hc, lookup_insert_eq. unfold Add. do 2 f_equal.
    rewrite wrap64_id; [done|]. unfold minScheduleIntervalSeconds, maxScheduleIntervalSeconds, Second in *.
    unfold in_int64, int64_min, int64_max. apply andb_true_iff. lia. }
  unfold maybeEnqueueScheduledJob, enqueue_if_due, schedule_due, enqueue_scheduled. simpl. unfold GetSchedule. rewrite Hs1. simpl.
  unfold After. destruct (Z.ltb_spec (now env' 0) (now env 2 + Schedule_IntervalSeconds sched * Second)); [done|lia].
Qed.

(** Enrollment.  A certificate is issued only against an unredeemed, unexpired
    token bound to the requested collector; it names that collector, is a client
    certificate valid for 90 days, and the token is spent.  A malformed request never
    spends the token: on 400 the server is unchanged. *)
Theorem enroll_spec {St} `{Repository St} (env : Env) (r : Request) (req : EnrollRequest) (s : Server St) :
  match Handler env r (POST_enroll (Ok req)) s with
  | (s', mkResponse 200 (enroll_body resp)) =>
      ∃ tokens t csr n, Tokens s = Some tokens ∧ tokens !! EnrollRequest_Token req = Some t ∧
        token_redeemed t = false ∧ now env 0 <= token_expiresAt t ∧
        token_collectorID t = EnrollRequest_CollectorID req ∧
        decode_csr env (EnrollRequest_CSR req) = Ok csr ∧ CSR_signature_valid csr = true ∧
        EnrollResponse_CertificatePEM resp = pem_block "CERTIFICATE" (Some (mkCertificate (Some n)
          (token_collectorID t) (now env 1 - clockSkewTolerance) (now env 1 + DefaultCertificateTTL)
          ["KeyUsageDigitalSignature"%string] ["ExtKeyUsageClientAuth"%string] (CSR_PublicKey csr))) ∧
        EnrollResponse_SerialNumber resp = big_text16 n ∧
        Tokens s' = Some (<[EnrollRequest_Token req :=
          mkTokenRecord (token_collectorID t) (token_expiresAt t) true]> tokens)
  | (s', resp) => status resp ≠ 200 ∧ (status resp = 400 → s' = s)
  end.
Proof.
  simpl. unfold enroll. destruct (server_CA s) as [ca|], (Tokens s) as [tokens|] eqn:Et; try done.
  destruct (negb (ValidCollectorID _)); [done|].
  destruct (decode_csr env (EnrollRequest_CSR req)) as [csr|] eqn:Ec; [|done].
  assert (CSR_signature_valid csr = true) as Hv.
  { unfold decode_csr, ParseCSR in Ec. repeat case_match; simplify_eq/=. by apply negb_false_iff. }
  unfold Redeem, After. destruct (_ !! EnrollRequest_Token req) as [t|] eqn:Ett; [|simpl; split; lia].
  destruct (token_redeemed t) eqn:Er; [simpl; split; lia|]. simpl.
  destruct (Z.ltb_spec (token_expiresAt t) (now env 0)) as [|Hexp]; [simpl; split; lia|]. simpl.
  destruct (String.eqb_spec (token_collectorID t) (EnrollRequest_CollectorID req)) as [Hc|]; [|simpl; split; lia]. simpl.
  unfold issue_certificate, Sign. simpl. destruct (serial env) as [n|]; [|simpl; split; lia]. simpl.
  destruct (created env); [|simpl; split; lia]. simpl. unfold CertificateSerial. simpl. rewrite <-Hc.
  exists tokens, t, csr, n. unfold Add. done.
Qed.

(** What the server accepts from a collector.  An observation is answered with 202
    exactly when it decodes, has this schema version, an ID, a time and typed assets,
    and is stored; what is stored is the submitted observation under the identity of
    the caller. *)
Theorem ingest_spec (identity : option string) (body : go ObservationEnvelope) (s : Server Memory) :
  match ingest identity body s with
  | (s', resp) =>
    (status resp = 202 ↔ ∃ e, body = Ok e ∧ Envelope_SchemaVersion e = SchemaVersion ∧
       trim_space (Envelope_ObservationID e) ≠ ""%string ∧ Envelope_ObservedAt e ≠ zero_time ∧
       Forall (λ a, Asset_Type a ≠ ""%string ∧ Asset_NativeID a ≠ ""%string) (Envelope_Assets e)) ∧
    Store s' = match body with
      | Ok e => if decide (status resp = 202)
                then SaveObservation (set_collector e (default (Envelope_CollectorID e) identity)) (Store s)
                else Store s
      | Err _ => Store s
      end
  end.
Proof.
  unfold ingest, collectorIdentity. destruct body as [e|]; simpl; [|naive_solver lia].
  assert (validateObservation (set_collector e (default (Envelope_CollectorID e) identity)) = Ok tt ↔
    Envelope_SchemaVersion e = SchemaVersion ∧ trim_space (Envelope_ObservationID e) ≠ ""%string ∧
    Envelope_ObservedAt e ≠ zero_time ∧
    Forall (λ a, Asset_Type a ≠ ""%string ∧ Asset_NativeID a ≠ ""%string) (Envelope_Assets e)) as Hv.
  { unfold validateObservation, IsZero. simpl.
    destruct (String.eqb_spec (Envelope_SchemaVersion e) SchemaVersion); simpl; [|naive_solver].
    case_bool_decide; [naive_solver|]. destruct (Z.eqb_spec (Envelope_ObservedAt e) zero_time); [naive_solver|].
    destruct (existsb _ _) eqn:Ex.
    - split; [done|]. intros (_ & _ & _ & HF). apply existsb_elem_of in Ex as (a & Ha & Hb).
      rewrite Forall_forall in HF. destruct (HF a Ha). apply orb_true_iff in Hb as [Hb|Hb];
        by apply bool_decide_eq_true in Hb.
    - split; [|done]. intros _. split; [done|]. split; [done|]. split; [done|]. apply Forall_forall.
      intros a Ha. apply not_true_iff_false in Ex. split; intros Hz; apply Ex, existsb_elem_of; exists a;
        (split; [done|]); apply orb_true_iff; [left|right]; by apply bool_decide_eq_true. }
  destruct (validateObservation _) as [[]|msg] eqn:Ev; simpl.
  - split; [|done]. split; [|done]. intros _. exists e. split; [done|]. by apply Hv.
  - split; [|done]. split; [done|]. intros (e' & [= <-] & Hok). by apply Hv in Hok.
Qed.

(** *** Scheduling calls that interleave *)

Definition example_env (t : time) (bytes : list Z) (keys : list string) : Env :=
  mkEnv (λ _, t) (Ok bytes) (Ok 43981) (Ok tt) (λ _, Ok (mkCertificateRequest "key" true)) keys.
Definition example_schedule : Schedule := mkSchedule "c1" JobTypeDiscover 60 (unix 100 0) 1 1.
Definition example_server : Server Memory :=
  with_store (New 0 NewMemory "secret") (UpsertSchedule example_schedule NewMemory).

(** A schedule deleted while its collector polls comes back.  Between reading the
    schedule and writing back its next run, [maybeEnqueueScheduledJob] holds no lock:
    a deletion answered with 200 in between is undone by the write. *)
Theorem deleted_schedule_returns :
  ∃ (env : Env) (s : Server Memory),
    let '(s1, w) := enqueue_if_due env "c1" s in
    let '(s2, answer) := deleteSchedule env "c1" s1 in
    status answer = 200 ∧ GetSchedule "c1" (Store s2) = Err ErrNotFound ∧
    is_ok (GetSchedule "c1" (Store (write_schedule w s2))) = true.
Proof. exists (example_env (unix 200 0) [1] []), example_server. vm_compute. done. Qed.

(** Two polls of one collector that both find the schedule due before either
    queues its job leave two outstanding jobs: the check and the queueing are separate
    calls on the job store. *)
Theorem racing_polls_queue_twice :
  ∃ (env1 env2 : Env) (s : Server Memory) (sched : Schedule),
    schedule_due env1 "c1" s = Some sched ∧ schedule_due env2 "c1" s = Some sched ∧
    let s2 := (enqueue_scheduled env2 "c1" sched (enqueue_scheduled env1 "c1" sched s).1).1 in
    no_backlog (Jobs s) ∧ ¬ no_backlog (Jobs s2).
Proof.
  exists (example_env (unix 200 0) [1] []), (example_env (unix 200 0) [2] []), example_server, example_schedule.
  split; [vm_compute; reflexivity|]. split; [vm_compute; reflexivity|]. split.
  - intros id1 id2 r1 r2 H1. change (Jobs example_server) with (∅ : gmap string jobRecord) in H1.
    by rewrite lookup_empty in H1.
  - intros Hn. assert ("01"%string = "02"%string); [|done].
    eapply Hn; [vm_compute; reflexivity|vm_compute; reflexivity|reflexivity..].
Qed.

(** ** Witnesses *)

Definition operator : Request := mkRequest "Bearer secret" None.
Definition collector (serial : Z) : Request :=
  mkRequest "" (Some [mkCertificate (Some serial) "c1" 0 0 [] [] "key"]).
Definition example_ca_server : Server Memory :=
  mkServer NewMemory "secret" [] (Some (mkCA pem_none)) (Some NewTokenStore)
    (NewHeartbeatStore DefaultHeartbeatStaleAfter) NewJobStore 0.

Lemma admin_requires_key_witness :
  let a := Handler (example_env 0 [1] []) (collector 7) (POST_jobs (Ok (mkJobRequest "c1" JobTypeDiscover))) example_server in
  a.1 = example_server ∧ status a.2 = 403.
Proof. apply (admin_requires_key (example_env 0 [1] []) (collector 7)); [reflexivity|discriminate|discriminate]. Defined.

Lemma certificate_identity_binds_witness :
  Handler (example_env (unix 200 0) [1] ["01"%string]) (collector 7) (GET_jobs "someone-else") example_server =
  Handler (example_env (unix 200 0) [1] ["01"%string]) (collector 7) (GET_jobs "c1") example_server ∧
  response_body (Handler (example_env (unix 200 0) [1] ["01"%string]) (collector 7) (GET_jobs "x") example_server).2 =
    jobs_body [mkJob "01" "c1" JobTypeDiscover (unix 200 0)].
Proof.
  split; [|vm_compute; reflexivity].
  exact (certificate_identity_binds (example_env (unix 200 0) [1] ["01"%string]) (collector 7) (GET_jobs "c1")
    example_server (mkCertificate (Some 7) "c1" 0 0 [] [] "key") "someone-else" eq_refl eq_refl).
Defined.

Lemma revoked_certificate_is_refused_witness :
  let req := mkRevocationRequest "0xAB:CD" "stolen" in
  let env := example_env (unix 200 0) [1] [] in
  let body := Ok (mkRotateRequest "AAAA") in
  let s1 := (Handler env operator (POST_certificate_revocations (Ok req)) example_ca_server).1 in
  status (Handler env (collector 43981) (POST_rotate body) example_ca_server).2 = 200 ∧
  (Handler env (collector 43981) (POST_rotate body) s1).1 = s1.
Proof.
  split; [vm_compute; reflexivity|].
  apply (revoked_certificate_is_refused example_ca_server (example_env (unix 200 0) [1] [])
    (example_env (unix 200 0) [1] []) operator (collector 43981) (mkRevocationRequest "0xAB:CD" "stolen") []
    (mkCertificate (Some 43981) "c1" 0 0 [] [] "key") (POST_rotate (Ok (mkRotateRequest "AAAA")))).
  - right. vm_compute. reflexivity.
  - vm_compute. reflexivity.
  - reflexivity.
  - left. eexists. reflexivity.
Defined.

Lemma scheduled_jobs_no_backlog_witness :
  let q t := (example_env (unix t 0) [1] ["01"%string], operator, GET_jobs "c1") in
  let qs := [(example_env (unix 1 0) [] [], operator, POST_schedules (Ok (mkScheduleRequest "c1" "" 60))); q 100; q 500] in
  size (Jobs (serve_all (New 0 NewMemory "secret") qs)) = 1%nat ∧
  no_backlog (Jobs (serve_all (New 0 NewMemory "secret") qs)).
Proof.
  split; [vm_compute; reflexivity|].
  apply (scheduled_jobs_no_backlog 0 NewMemory "secret"). repeat (constructor; [by intros body|]). constructor.
Defined.

Lemma schedule_fires_once_per_interval_witness :
  let s1 := maybeEnqueueScheduledJob (example_env (unix 200 0) [1] []) "c1" example_server in
  maybeEnqueueScheduledJob (example_env (unix 259 0) [2] []) "c1" (with_jobs s1 ∅) = with_jobs s1 ∅.
Proof.
  apply (schedule_fires_once_per_interval (example_env (unix 200 0) [1] []) (example_env (unix 259 0) [2] [])
    "c1" example_server example_schedule).
  - vm_compute. reflexivity.
  - reflexivity.
  - vm_compute. split; discriminate.
  - intros Heq. apply (f_equal size) in Heq. by vm_compute in Heq.
  - vm_compute. reflexivity.
Defined.
