(* ===== verification/Netip.v ===== *)
(** * [net/netip]: the addresses and prefixes of the Go standard library

    The values and functions of [net/netip] that the worker's planning and target
    authorization use, as documented: an address is a number of 32 or 128 bits, a
    prefix an address with a number of leading bits.  The parsers accept the texts
    [ParseAddr] and [ParsePrefix] accept. *)

From S2P Require Import Prelude Bytes.

(** ** Addresses *)

Record Addr := mkAddr {
  addr_is4 : bool;
  addr_val : Z;
  Zone : string;
}.

#[export] Instance Addr_eq_dec : EqDecision Addr.
Proof. solve_decision. Defined.

Definition width (is4 : bool) : Z := if is4 then 32 else 128.
Definition Is4 (a : Addr) : bool := addr_is4 a.
Definition BitLen (a : Addr) : Z := width (addr_is4 a).

(** [a.Compare(b) < 0] *)
Definition addr_less (a b : Addr) : bool :=
  less_then (less_on BitLen Z.ltb) (less_then (less_on addr_val Z.ltb) (less_on Zone str_lt)) a b.

(** [a.As4()] and [a.As16()]: the bytes of the address, most significant first. *)

Definition As4 (a : Addr) : list Z := be_bytes 4 (addr_val a).
Definition As16 (a : Addr) : list Z := be_bytes 16 (addr_val a).
Definition AddrFrom4 (l : list Z) : Addr := mkAddr true (be_value l) "".
Definition AddrFrom16 (l : list Z) : Addr := mkAddr false (be_value l) "".

(** ** Prefixes: [Bits] is -1 for an invalid prefix *)

Record Prefix := mkPrefix {
  prefix_Addr : Addr;
  Bits : Z;
}.

#[export] Instance Prefix_eq_dec : EqDecision Prefix.
Proof. solve_decision. Defined.

Definition without_zone (a : Addr) : Addr := mkAddr (addr_is4 a) (addr_val a) "".

Definition PrefixFrom (a : Addr) (bits : Z) : Prefix :=
  mkPrefix (without_zone a) (if (bits <? 0) || (BitLen a <? bits) then -1 else bits).

Definition IsValid (p : Prefix) : bool := 0 <=? Bits p.

Definition mask_addr (a : Addr) (bits : Z) : Addr :=
  let k := BitLen a - bits in mkAddr (addr_is4 a) (addr_val a / 2 ^ k * 2 ^ k) "".

Definition Masked (p : Prefix) : Prefix :=
  if IsValid p then PrefixFrom (mask_addr (prefix_Addr p) (Bits p)) (Bits p) else p.

Definition Contains (p : Prefix) (a : Addr) : bool :=
  IsValid p && bool_decide (Zone a = ""%string) && eqb (Is4 (prefix_Addr p)) (Is4 a)
  && (addr_val (mask_addr (prefix_Addr p) (Bits p)) =? addr_val (mask_addr a (Bits p))).

Definition Overlaps (p q : Prefix) : bool :=
  IsValid p && IsValid q &&
  (bool_decide (p = q) ||
   (eqb (Is4 (prefix_Addr p)) (Is4 (prefix_Addr q)) &&
    let m := Z.min (Bits p) (Bits q) in
    (addr_val (mask_addr (prefix_Addr p) m) =? addr_val (mask_addr (prefix_Addr q) m)))).

(** ** Text *)

Definition dotted (v : Z) : string :=
  String.concat "." (decimal <$> be_bytes 4 v).

Definition hex_group (v : Z) : string :=
  match List.find (λ n, v <? 16 ^ Z.of_nat n) [1%nat; 2%nat; 3%nat; 4%nat] with
  | Some n => String.string_of_list_ascii
      ((λ i, hex_digit (v / 16 ^ Z.of_nat (n - 1 - i) mod 16)) <$> seq 0 n)
  | None => ""
  end.

Definition groups16 (v : Z) : list Z := (λ i, v / 65536 ^ (7 - i) mod 65536) <$> seqZ 0 8.

(** Length of the run of zero groups starting at each position. *)
Fixpoint zero_runs (l : list Z) : list nat :=
  match l with
  | [] => []
  | g :: l => let r := zero_runs l in
    (if g =? 0 then S (default O (head r)) else O) :: r
  end.

(** The first longest run of at least two zero groups: its start and length. *)
Definition longest_run (l : list Z) : option (nat * nat) :=
  foldl (λ best ir, match ir with
    | (i, r) => if (match best with Some (_, b) => b | None => 1 end <? r)%nat then Some (i, r) else best
    end) None (zip (seq 0 8) (zero_runs l)).

Definition text6 (v : Z) : string :=
  let gs := groups16 v in
  match longest_run gs with
  | Some (i, n) =>
    (String.concat ":" (hex_group <$> take i gs) +:+ "::" +:+ String.concat ":" (hex_group <$> drop (i + n) gs))%string
  | None => String.concat ":" (hex_group <$> gs)
  end.

Definition Addr_String (a : Addr) : string :=
  let zone := if bool_decide (Zone a = ""%string) then ""%string else ("%" +:+ Zone a)%string in
  (if addr_is4 a then dotted (addr_val a)
   else if (addr_val a / 2 ^ 32 =? 65535)%Z then "::ffff:" +:+ dotted (addr_val a mod 2 ^ 32)%Z +:+ zone
   else text6 (addr_val a) +:+ zone)%string.

Definition Prefix_String (p : Prefix) : string :=
  if IsValid p then (Addr_String (prefix_Addr p) +:+ "/" +:+ decimal (Bits p))%string else "invalid Prefix".

(** ** Parsing *)

Definition digit_value (c : ascii) : option Z :=
  if is_digit c then Some (byte_val c - 48) else None.

Fixpoint parse_decimal_from (acc : Z) (s : string) : option Z :=
  match s with
  | ""%string => Some acc
  | String c s => d ← digit_value c; parse_decimal_from (10 * acc + d) s
  end.

(** A decimal number without sign or leading zero. *)
Definition parse_plain_decimal (s : string) : option Z :=
  match s with
  | ""%string => None
  | String c t =>
    if Ascii.eqb c "0"%char && negb (bool_decide (t = ""%string)) then None else parse_decimal_from 0 s
  end.

Definition parse_octet (s : string) : option Z :=
  v ← parse_plain_decimal s; if v <=? 255 then Some v else None.

Definition parse_ipv4 (s : string) : option Z :=
  match split_byte "."%char s with
  | [a; b; c; d] =>
    a ← parse_octet a; b ← parse_octet b; c ← parse_octet c; d ← parse_octet d;
    Some (be_value [a; b; c; d])
  | _ => None
  end.

Definition hex_nibble (c : ascii) : option Z :=
  let b := byte_val c in
  if is_digit c then Some (b - 48)
  else if in_range 97 102 b then Some (b - 87)
  else if in_range 65 70 b then Some (b - 55)
  else None.

(** The leading hexadecimal digits: their number, their value and the rest. *)
Fixpoint scan_hex (off : nat) (acc : Z) (s : string) : nat * Z * string :=
  match s with
  | String c t => match hex_nibble c with
                  | Some d => scan_hex (S off) (16 * acc + d) t
                  | None => (off, acc, s)
                  end
  | ""%string => (off, acc, ""%string)
  end.

(** The loop of [parseIPv6]: [fields] are the groups read so far, [ellipsis] the
    number of groups before the [::]; at most eight groups are read. *)
Fixpoint parse6_loop (n : nat) (s : string) (fields : list Z) (ellipsis : option nat)
    : option (list Z * option nat) :=
  match n with
  | O => match s with ""%string => Some (fields, ellipsis) | _ => None end
  | S n =>
    let '(off, acc, rest) := scan_hex 0 0 s in
    if (4 <? off)%nat || (off =? 0)%nat then None else
    match rest with
    | String "."%char _ =>
      if (match ellipsis with None => negb (length fields =? 6)%nat | Some _ => false end)
         || (8 <? length fields + 2)%nat then None
      else v ← parse_ipv4 s; Some (fields ++ [v / 65536; v mod 65536], ellipsis)
    | ""%string => Some (fields ++ [acc], ellipsis)
    | String ":"%char rest =>
      match rest with
      | ""%string => None
      | String ":"%char rest =>
        match ellipsis with
        | Some _ => None
        | None =>
          match rest with
          | ""%string => Some (fields ++ [acc], Some (S (length fields)))
          | _ => parse6_loop n rest (fields ++ [acc]) (Some (S (length fields)))
          end
        end
      | _ => parse6_loop n rest (fields ++ [acc]) ellipsis
      end
    | _ => None
    end
  end.

Definition expand6 (fields : list Z) (ellipsis : option nat) : option (list Z) :=
  if (length fields =? 8)%nat then match ellipsis with None => Some fields | Some _ => None end
  else match ellipsis with
  | None => None
  | Some i => Some (take i fields ++ replicate (8 - length fields) 0 ++ drop i fields)
  end.

Definition parse_ipv6 (s : string) : option Addr :=
  let mk zone fields := mkAddr false (foldl (λ acc g, acc * 65536 + g) 0 fields) zone in
  zs ← match split_byte "%"%char s with
       | [s] => Some (s, ""%string)
       | s :: zone => let z := join "%" zone in if bool_decide (z = ""%string) then None else Some (s, z)
       | [] => None
       end;
  let '(s, zone) := zs in
  match s with
  | String ":"%char (String ":"%char ""%string) => Some (mk zone (replicate 8 0))
  | String ":"%char (String ":"%char t) =>
    r ← parse6_loop 8 t [] (Some O); mk zone <$> expand6 r.1 r.2
  | _ => r ← parse6_loop 8 s [] None; mk zone <$> expand6 r.1 r.2
  end.

(** The first of [.], [:] and [%] decides the family. *)
Fixpoint addr_kind (s : string) : option bool :=
  match s with
  | ""%string => None
  | String c s => if Ascii.eqb c "."%char then Some true else if Ascii.eqb c ":"%char then Some false
                  else if Ascii.eqb c "%"%char then None else addr_kind s
  end.

Definition ParseAddr (s : string) : option Addr :=
  match addr_kind s with
  | Some true => (λ v, mkAddr true v "") <$> parse_ipv4 s
  | Some false => parse_ipv6 s
  | None => None
  end.

Definition ParsePrefix (s : string) : option Prefix :=
  match reverse (split_byte "/"%char s) with
  | bits :: rest =>
    if bool_decide (rest = []) then None else
    a ← ParseAddr (join "/" (reverse rest));
    if negb (Is4 a) && negb (bool_decide (Zone a = ""%string)) then None else
    b ← parse_plain_decimal bits;
    if BitLen a <? b then None else Some (PrefixFrom a b)
  | [] => None
  end.

Example parse_v4 : ParsePrefix "10.1.2.3/8" = Some (mkPrefix (mkAddr true 167838211 "") 8).
Proof. vm_compute. reflexivity. Qed.
Example parse_leading_zero : ParsePrefix "10.01.2.3/8" = None.
Proof. vm_compute. reflexivity. Qed.
Example masked_text : Prefix_String ∘ Masked <$> ParsePrefix "10.1.2.3/8" = Some "10.0.0.0/8"%string.
Proof. vm_compute. reflexivity. Qed.
Example text_v6 : Prefix_String ∘ Masked <$> ParsePrefix "2001:DB8:0:0:1::1/64" = Some "2001:db8::/64"%string.
Proof. vm_compute. reflexivity. Qed.
Example text_v6_embedded : Prefix_String <$> ParsePrefix "::ffff:1.2.3.4/128" = Some "::ffff:1.2.3.4/128"%string.
Proof. vm_compute. reflexivity. Qed.
Example parse_v6_zone : ParsePrefix "fe80::1%eth0/64" = None.
Proof. vm_compute. reflexivity. Qed.
Example parse_v6_bad : (ParsePrefix "1:2:3:4:5:6:7:8::/64", ParsePrefix "1::2::3/64", ParsePrefix "12345::/64") = (None, None, None).
Proof. vm_compute. reflexivity. Qed.

(** ** Canonical prefixes as ranges of addresses *)

Definition addr_ok (a : Addr) : Prop := 0 <= addr_val a < 2 ^ BitLen a ∧ Zone a = ""%string.

(** Number of addresses of a prefix. *)
Definition span (p : Prefix) : Z := 2 ^ (BitLen (prefix_Addr p) - Bits p).

Record canonical (p : Prefix) : Prop := {
  canonical_addr : addr_ok (prefix_Addr p);
  canonical_bits : 0 <= Bits p <= BitLen (prefix_Addr p);
  canonical_aligned : (span p | addr_val (prefix_Addr p));
}.

(** Address [x] of the family [is4] belongs to the prefix. *)
Definition inside (is4 : bool) (x : Z) (p : Prefix) : Prop :=
  Is4 (prefix_Addr p) = is4 ∧ addr_val (prefix_Addr p) <= x < addr_val (prefix_Addr p) + span p.

Lemma width_pos is4 : 0 < width is4.
Proof. by destruct is4. Qed.

Lemma BitLen_pos a : 0 < BitLen a.
Proof. apply width_pos. Qed.

Lemma span_pos p : canonical p → 0 < span p.
Proof. intros [_ Hb _]. unfold span. apply Z.pow_pos_nonneg; lia. Qed.

Lemma addr_eq a b : Is4 a = Is4 b → addr_val a = addr_val b → Zone a = Zone b → a = b.
Proof. destruct a, b. unfold Is4. simpl. congruence. Qed.

(** Aligned blocks of sizes dividing each other are nested or apart. *)
Lemma block_nested a b s t :
  0 < t → (t | s) → (s | a) → (t | b) → a <= b < a + s → b + t <= a + s.
Proof.
  intros Ht [s' ->] [a' ->] [b' ->] H.
  assert (b' < a' * s' + s') by (apply (Z.mul_lt_mono_pos_r t); lia).
  assert ((b' + 1) * t <= (a' * s' + s') * t) by (apply Z.mul_le_mono_nonneg_r; lia). lia.
Qed.

Lemma block_apart a b s t :
  0 < t → 0 < s → (t | s) → (s | a) → (t | b) → ¬ (a <= b < a + s) → b + t <= a ∨ a + s <= b.
Proof.
  intros Ht Hs [s' ->] [a' ->] [b' ->] H.
  destruct (Z.lt_ge_cases (b' * t) (a' * (s' * t))) as [Hlt|Hge]; [left|right; lia].
  assert (b' < a' * s') by (apply (Z.mul_lt_mono_pos_r t); lia).
  assert ((b' + 1) * t <= (a' * s') * t) by (apply Z.mul_le_mono_nonneg_r; lia). lia.
Qed.

Lemma div_block a s x : 0 < s → (s | a) → (x / s * s = a ↔ a <= x < a + s).
Proof.
  intros Hs [k ->]. pose proof (Z.div_mod x s ltac:(lia)). pose proof (Z.mod_pos_bound x s Hs).
  split; intros H'; [rewrite (Z.mul_comm (x / s)) in H'; lia|].
  f_equal. symmetry. apply (Z.div_unique_pos x s k (x - k * s)); lia.
Qed.

Lemma mask_aligned p : canonical p → mask_addr (prefix_Addr p) (Bits p) = prefix_Addr p.
Proof.
  intros Hp. pose proof (span_pos p Hp) as Hs. destruct Hp as [[Hv Hz] Hb Ha].
  unfold mask_addr. apply addr_eq; [done| |done]. simpl. fold (span p). apply div_block; [done|done|lia].
Qed.

Lemma Contains_spec p a :
  canonical p → addr_ok a → (Contains p a = true ↔ inside (Is4 a) (addr_val a) p).
Proof.
  intros Hp [Hv Hz]. pose proof (span_pos p Hp) as Hs. unfold Contains, inside, IsValid.
  rewrite mask_aligned by done. destruct Hp as [Hpa Hb Hal].
  rewrite bool_decide_eq_true_2 by done. destruct (Z.leb_spec 0 (Bits p)); [|lia]. cbn [andb].
  rewrite andb_true_iff, eqb_true_iff, Z.eqb_eq. unfold mask_addr. simpl.
  split; intros [Hf H']; (split; [done|]).
  - apply div_block; [done|done|]. unfold span, BitLen, Is4 in *. rewrite Hf. congruence.
  - symmetry. unfold BitLen, Is4 in *. rewrite <-Hf. apply div_block; done.
Qed.

Lemma inside_first p : canonical p → inside (Is4 (prefix_Addr p)) (addr_val (prefix_Addr p)) p.
Proof. intros Hp. pose proof (span_pos p Hp). split; [done|lia]. Qed.

(** The longer of two prefixes decides whether they overlap. *)
Lemma Overlaps_spec p q :
  canonical p → canonical q → Bits p <= Bits q →
  (Overlaps p q = true ↔ inside (Is4 (prefix_Addr q)) (addr_val (prefix_Addr q)) p).
Proof.
  intros Hp Hq Hle. pose proof (span_pos p Hp) as Hs. unfold Overlaps, IsValid.
  pose proof (canonical_bits _ Hp) as Hbp. pose proof (canonical_bits _ Hq) as Hbq.
  destruct (Z.leb_spec 0 (Bits p)); [|lia]. destruct (Z.leb_spec 0 (Bits q)); [|lia]. cbn [andb]; cbv zeta.
  rewrite Z.min_l by done. rewrite mask_aligned by done.
  rewrite orb_true_iff, bool_decide_eq_true, andb_true_iff, eqb_true_iff, Z.eqb_eq. unfold inside.
  pose proof (canonical_aligned _ Hp) as Hal. split.
  - intros [->|[Hf Hm]]; [by apply inside_first|]. split; [done|].
    apply div_block; [done|done|]. rewrite Hm. unfold mask_addr, span, BitLen, Is4 in *. simpl.
    by rewrite Hf.
  - intros [Hf H']. right. split; [done|]. symmetry. unfold mask_addr. simpl.
    apply div_block in H'; [|done|done].
    unfold span, BitLen, Is4 in *. by rewrite <-Hf.
Qed.

Lemma Overlaps_sym p q : Overlaps p q = Overlaps q p.
Proof.
  unfold Overlaps. rewrite (Z.min_comm (Bits q)), (andb_comm (IsValid q)).
  assert (∀ a b, eqb a b = eqb b a) as Hsym by (by intros [] []).
  rewrite (Hsym (Is4 (prefix_Addr q))), (Z.eqb_sym (addr_val (mask_addr (prefix_Addr q) _))).
  f_equal. f_equal. apply bool_decide_ext. split; congruence.
Qed.

Lemma span_divides p q :
  canonical p → canonical q → Is4 (prefix_Addr p) = Is4 (prefix_Addr q) → Bits p <= Bits q → (span q | span p).
Proof.
  intros Hp Hq Hf Hle. pose proof (canonical_bits _ Hp). pose proof (canonical_bits _ Hq).
  unfold span, BitLen, Is4 in *. rewrite Hf in *.
  exists (2 ^ (Bits q - Bits p)). rewrite <-Z.pow_add_r by lia. f_equal. lia.
Qed.

(** Prefixes that overlap are nested; otherwise they share no address. *)
Lemma Overlaps_nested p q :
  canonical p → canonical q → Bits p <= Bits q → Overlaps p q = true →
  ∀ is4 x, inside is4 x q → inside is4 x p.
Proof.
  intros Hp Hq Hle Ho. apply Overlaps_spec in Ho as [Hf Hr]; [|done..].
  intros is4 x [Hq4 Hx]. split; [congruence|].
  pose proof (block_nested _ _ _ _ (span_pos _ Hq) (span_divides _ _ Hp Hq Hf Hle)
    (canonical_aligned _ Hp) (canonical_aligned _ Hq) Hr). lia.
Qed.

Lemma Overlaps_apart_le p q :
  canonical p → canonical q → Bits p <= Bits q → Overlaps p q = false →
  ∀ is4 x, inside is4 x p → ¬ inside is4 x q.
Proof.
  intros Hp Hq Hle Ho is4 x [Hp4 Hx] [Hq4 Hx'].
  assert (Is4 (prefix_Addr p) = Is4 (prefix_Addr q)) as Hf by congruence.
  destruct (block_apart (addr_val (prefix_Addr p)) (addr_val (prefix_Addr q)) (span p) (span q)
    (span_pos _ Hq) (span_pos _ Hp) (span_divides _ _ Hp Hq Hf Hle)
    (canonical_aligned _ Hp) (canonical_aligned _ Hq)) as [?|?]; [|lia|lia].
  intros Hin. assert (Overlaps p q = true); [|congruence]. apply Overlaps_spec; done.
Qed.

Lemma Overlaps_apart p q :
  canonical p → canonical q → Overlaps p q = false → ∀ is4 x, inside is4 x p → ¬ inside is4 x q.
Proof.
  intros Hp Hq Ho is4 x Hx Hx'. destruct (Z.le_ge_cases (Bits p) (Bits q)).
  - by eapply (Overlaps_apart_le p q).
  - rewrite Overlaps_sym in Ho. by eapply (Overlaps_apart_le q p).
Qed.

(** *** Bytes of an address *)

(** Changing one byte changes the value by the difference at its place. *)
Lemma be_fold_insert n v acc i d :
  0 <= v → (i < n)%nat →
  foldl (λ acc b, acc * 256 + b) acc (<[i := d]> (be_bytes n v)) =
  acc * 256 ^ Z.of_nat n + v mod 256 ^ Z.of_nat n +
    (d - (v / 256 ^ Z.of_nat (n - 1 - i)) mod 256) * 256 ^ Z.of_nat (n - 1 - i).
Proof.
  intros Hv. revert acc i. induction n as [|n IH]; intros acc i Hi; [lia|].
  destruct i as [|i]; cbn [be_bytes foldl list_insert].
  - simpl (<[0%nat:=d]> _). cbn [foldl]. rewrite be_fold by done.
    replace (S n - 1 - 0)%nat with n by lia. rewrite Nat2Z.inj_succ, Z.pow_succ_r by lia.
    rewrite (Z.mul_comm 256 (256 ^ _)), Z.rem_mul_r by (try apply Z.pow_nonzero; lia). ring.
  - simpl (<[S i:=d]> _). cbn [foldl]. rewrite IH by lia.
    replace (S n - 1 - S i)%nat with (n - 1 - i)%nat by lia. rewrite Nat2Z.inj_succ, Z.pow_succ_r by lia.
    rewrite (Z.mul_comm 256 (256 ^ _)), Z.rem_mul_r by (try apply Z.pow_nonzero; lia). ring.
Qed.

Lemma be_bytes_lookup n v i :
  (i < n)%nat → be_bytes n v !! i = Some ((v / 256 ^ Z.of_nat (n - 1 - i)) mod 256).
Proof.
  revert i. induction n as [|n IH]; intros i Hi; [lia|]. destruct i as [|i]; simpl.
  - by rewrite !Nat.sub_0_r.
  - rewrite IH by lia. do 3 f_equal. f_equal. f_equal. lia.
Qed.

(** *** The parsers return values in range *)

Lemma parse_decimal_nonneg acc s v : 0 <= acc → parse_decimal_from acc s = Some v → 0 <= v.
Proof.
  revert acc. induction s as [|c s IH]; intros acc Ha; simpl; [by intros [= ->]|].
  unfold digit_value. destruct (is_digit c) eqn:E; simpl; [|done]. apply IH.
  unfold is_digit, in_range in E. bool_facts. lia.
Qed.

Lemma parse_plain_nonneg s v : parse_plain_decimal s = Some v → 0 <= v.
Proof.
  unfold parse_plain_decimal. destruct s; [done|]. case_match; [done|]. by apply parse_decimal_nonneg.
Qed.

Lemma parse_octet_range s v : parse_octet s = Some v → 0 <= v <= 255.
Proof.
  unfold parse_octet. intros (w & Hw & Hv)%bind_Some. apply parse_plain_nonneg in Hw.
  destruct (Z.leb_spec w 255); simplify_eq. lia.
Qed.

Lemma parse_ipv4_range s v : parse_ipv4 s = Some v → 0 <= v < 2 ^ 32.
Proof.
  unfold parse_ipv4. destruct (split_byte _ _) as [|a [|b [|c [|d [|]]]]]; try done.
  intros (va & Ha & (vb & Hb & (vc & Hc & (vd & Hd & [= <-])%bind_Some)%bind_Some)%bind_Some)%bind_Some.
  apply parse_octet_range in Ha, Hb, Hc, Hd. unfold be_value. simpl. lia.
Qed.

Definition group_ok (g : Z) : Prop := 0 <= g < 65536.

Lemma scan_hex_range off acc s n v rest :
  0 <= acc < 16 ^ Z.of_nat off → scan_hex off acc s = (n, v, rest) →
  0 <= v < 16 ^ Z.of_nat n ∧ (off <= n)%nat.
Proof.
  revert off acc. induction s as [|c s IH]; intros off acc Ha; simpl.
  { intros [= -> -> <-]. split; [done|lia]. }
  destruct (hex_nibble c) as [d|] eqn:E; [|intros [= -> -> <-]; split; [done|lia]].
  unfold hex_nibble in E. intros H. apply IH in H; [destruct H; split; [done|lia]|].
  assert (0 <= d < 16) as Hd.
  { unfold is_digit, in_range in E. repeat case_match; simplify_eq; bool_facts; lia. }
  rewrite Nat2Z.inj_succ, Z.pow_succ_r by lia. lia.
Qed.

Lemma parse6_loop_range n s fields e r :
  Forall group_ok fields → (length fields + n <= 8)%nat →
  parse6_loop n s fields e = Some r → Forall group_ok r.1 ∧ (length r.1 <= 8)%nat.
Proof.
  revert s fields e. induction n as [|n IH]; intros s fields e Hf Hn; cbn [parse6_loop].
  { destruct s; [|done]. intros [= <-]. split; [done|simpl; lia]. }
  destruct (scan_hex 0 0 s) as [[off acc] rest] eqn:E. apply scan_hex_range in E as [Ha _]; [|simpl; lia].
  destruct ((4 <? off)%nat || (off =? 0)%nat) eqn:Eo; [done|].
  apply orb_false_iff in Eo as [Eo _]. apply Nat.ltb_ge in Eo.
  assert (group_ok acc) as Hg.
  { unfold group_ok. change 65536 with (16 ^ 4). split; [lia|]. eapply Z.lt_le_trans; [apply Ha|].
    apply Z.pow_le_mono_r; lia. }
  assert (Forall group_ok (fields ++ [acc])) as Hfa by (apply Forall_app; auto).
  assert (∀ s e, parse6_loop n s (fields ++ [acc]) e = Some r → Forall group_ok r.1 ∧ (length r.1 <= 8)%nat) as Hrec.
  { intros s' e'. apply IH; [done|]. rewrite length_app. simpl. lia. }
  assert (Forall group_ok (fields ++ [acc]) ∧ (length (fields ++ [acc]) <= 8)%nat) as Hlast.
  { split; [done|]. rewrite length_app. simpl. lia. }
  destruct rest as [|c rest]; [by intros [= <-]|].
  destruct (decide (c = "."%char)) as [->|Hdot].
  - destruct (_ || _) eqn:El; [done|]. intros (v & Hv & [= <-])%bind_Some. simpl.
    apply orb_false_iff in El as [_ El]. apply Nat.ltb_ge in El. apply parse_ipv4_range in Hv.
    rewrite length_app. split; [|simpl; lia]. apply Forall_app. split; [done|].
    apply Forall_cons; split; [|apply Forall_singleton]; unfold group_ok.
    + split; [apply Z.div_pos; lia|]. apply Z.div_lt_upper_bound; lia.
    + apply Z.mod_pos_bound. lia.
  - destruct (decide (c = ":"%char)) as [->|Hcolon].
    + destruct rest as [|c rest]; [done|]. destruct (decide (c = ":"%char)) as [->|Hc].
      * destruct e; [done|]. destruct rest; [by intros [= <-]|]. apply Hrec.
      * intros H. apply (Hrec (String c rest) e). revert H.
        destruct c as [[] [] [] [] [] [] [] []]; done.
    + destruct c as [[] [] [] [] [] [] [] []]; done.
Qed.

Lemma expand6_range fields e l :
  Forall group_ok fields → (length fields <= 8)%nat → expand6 fields e = Some l →
  Forall group_ok l ∧ length l = 8%nat.
Proof.
  intros Hf Hn. unfold expand6. destruct (Nat.eqb_spec (length fields) 8) as [He|He].
  - destruct e; [done|]. by intros [= <-].
  - destruct e as [i|]; [|done]. intros [= <-]. split.
    + repeat (apply Forall_app; split); [by apply Forall_take| |by apply Forall_drop].
      apply Forall_replicate. unfold group_ok. lia.
    + rewrite !length_app, length_replicate, length_take, length_drop. lia.
Qed.

Lemma groups_value l acc k :
  Forall group_ok l → 0 <= acc < 65536 ^ Z.of_nat k →
  0 <= foldl (λ acc g, acc * 65536 + g) acc l < 65536 ^ Z.of_nat (k + length l).
Proof.
  intros Hl. revert acc k. induction Hl as [|g l Hg Hl IH]; intros acc k Ha; simpl.
  { by rewrite Nat.add_0_r. }
  replace (k + S (length l))%nat with (S k + length l)%nat by lia. apply IH.
  unfold group_ok in Hg. rewrite Nat2Z.inj_succ, Z.pow_succ_r by lia. lia.
Qed.

Lemma parse_ipv6_range s a : parse_ipv6 s = Some a → Is4 a = false ∧ 0 <= addr_val a < 2 ^ 128.
Proof.
  assert (∀ l zone, Forall group_ok l ∧ length l = 8%nat →
    0 <= addr_val (mkAddr false (foldl (λ acc g, acc * 65536 + g) 0 l) zone) < 2 ^ 128) as Hval.
  { intros l zone [Hl Hn]. simpl. pose proof (groups_value l 0 0 Hl ltac:(simpl; lia)) as H.
    rewrite Hn in H. exact H. }
  assert (∀ t e zone a, (r ← parse6_loop 8 t [] e;
      (λ f, mkAddr false (foldl (λ acc g, acc * 65536 + g) 0 f) zone) <$> expand6 r.1 r.2) = Some a →
    Is4 a = false ∧ 0 <= addr_val a < 2 ^ 128) as Hgo.
  { intros t e zone a' (r & Hr & (l & Hl & ->)%fmap_Some)%bind_Some. split; [done|]. apply Hval.
    destruct (parse6_loop_range 8 t [] e r ltac:(constructor) ltac:(simpl; lia) Hr).
    by eapply expand6_range. }
  unfold parse_ipv6. intros ([t zone] & Hz & H)%bind_Some. clear Hz.
  destruct t as [|c1 t]; [by eapply Hgo|].
  destruct (decide (c1 = ":"%char)) as [->|H1].
  2: { eapply (Hgo (String c1 t) None zone). revert H. destruct c1 as [[] [] [] [] [] [] [] []]; done. }
  destruct t as [|c2 t]; [by eapply Hgo|].
  destruct (decide (c2 = ":"%char)) as [->|H2].
  2: { eapply (Hgo (String ":"%char (String c2 t)) None zone). revert H.
       destruct c2 as [[] [] [] [] [] [] [] []]; done. }
  destruct t; [|by eapply Hgo]. injection H as <-. split; [done|]. simpl. lia.
Qed.

Lemma ParsePrefix_range s p :
  ParsePrefix s = Some p →
  0 <= addr_val (prefix_Addr p) < 2 ^ BitLen (prefix_Addr p) ∧ Zone (prefix_Addr p) = ""%string ∧
  0 <= Bits p <= BitLen (prefix_Addr p).
Proof.
  unfold ParsePrefix. destruct (reverse _) as [|b rest]; [done|].
  case_bool_decide; [done|]. intros (a & Ha & H1)%bind_Some. case_match; [done|].
  apply bind_Some in H1 as (n & Hn & H1). apply parse_plain_nonneg in Hn.
  destruct (Z.ltb_spec (BitLen a) n) as [|Hle]; [done|]. injection H1 as <-.
  assert (0 <= addr_val a < 2 ^ BitLen a) as Hv.
  { unfold ParseAddr in Ha. destruct (addr_kind _) as [[]|]; [| |done].
    - apply fmap_Some in Ha as (v & Hv & ->). by apply parse_ipv4_range in Hv.
    - apply parse_ipv6_range in Ha as [Hf Hv]. unfold BitLen, Is4 in *. by rewrite Hf. }
  unfold PrefixFrom, without_zone. simpl. unfold BitLen in *. simpl.
  destruct (Z.ltb_spec n 0), (Z.ltb_spec (width (addr_is4 a)) n); simpl; try lia.
  repeat split; lia.
Qed.

Lemma PrefixFrom_ok a b : 0 <= b <= BitLen a → PrefixFrom a b = mkPrefix (without_zone a) b.
Proof. intros Hb. unfold PrefixFrom. destruct (Z.ltb_spec b 0), (Z.ltb_spec (BitLen a) b); done || lia. Qed.

Lemma Masked_canonical p :
  0 <= addr_val (prefix_Addr p) < 2 ^ BitLen (prefix_Addr p) → 0 <= Bits p <= BitLen (prefix_Addr p) →
  canonical (Masked p) ∧ Bits (Masked p) = Bits p ∧ Is4 (prefix_Addr (Masked p)) = Is4 (prefix_Addr p) ∧
  ∀ is4 x, inside is4 x (Masked p) ↔
    Is4 (prefix_Addr p) = is4 ∧ x / span p = addr_val (prefix_Addr p) / span p.
Proof.
  intros Hv Hb. unfold Masked, IsValid. destruct (Z.leb_spec 0 (Bits p)); [|lia].
  rewrite PrefixFrom_ok by done. unfold mask_addr, without_zone. cbn [addr_is4 addr_val prefix_Addr Bits].
  set (s := 2 ^ (BitLen (prefix_Addr p) - Bits p)).
  assert (0 < s) as Hs by (apply Z.pow_pos_nonneg; lia).
  set (v := addr_val (prefix_Addr p)) in *.
  pose proof (Z.div_mod v s ltac:(lia)). pose proof (Z.mod_pos_bound v s Hs).
  split; [|split; [done|split; [done|]]].
  - split; unfold addr_ok, span, BitLen; simpl; [|done|by exists (v / s)].
    split; [|done]. fold (BitLen (prefix_Addr p)).
    assert (0 <= v / s) by (apply Z.div_pos; lia). nia.
  - intros is4 x. unfold inside, span, BitLen. simpl. fold (BitLen (prefix_Addr p)). fold s.
    rewrite <-(div_block (v / s * s) s x Hs) by (by exists (v / s)).
    split; intros [Hf He]; (split; [done|]); [|by rewrite He].
    apply (Z.mul_reg_r _ _ s); [lia|done].
Qed.
