(* ===== verification/Decimal.v ===== *)
(** * Zero-padded decimal text

    The program builds identifiers and file names with [%0nd] and sorts them as strings:
    the text determines the number, and for numbers that fit the width the order of the
    texts is the order of the numbers. *)

From S2P Require Import Prelude Bytes Netip.

(** ** Zero-padded numbers determine the number *)

Lemma pretty_N_go_value (x : N) s : parse_decimal_from 0 (pretty_N_go x s) = parse_decimal_from (Z.of_N x) s.
Proof.
  revert s. induction x as [x IH] using (well_founded_induction N.lt_wf_0). intros s.
  destruct (decide (x = 0)%N) as [->|]; [by rewrite pretty_N_go_0|].
  rewrite pretty_N_go_step by lia. rewrite IH by (apply N.div_lt; lia).
  assert (digit_value (pretty_N_char (x mod 10)) = Some (Z.of_N (x mod 10))) as Hd.
  { pose proof (N.mod_upper_bound x 10 ltac:(lia)) as Hm. revert Hm. generalize (x mod 10)%N. clear. intros y Hy.
    assert (y = 0 ∨ y = 1 ∨ y = 2 ∨ y = 3 ∨ y = 4 ∨ y = 5 ∨ y = 6 ∨ y = 7 ∨ y = 8 ∨ y = 9)%N as Hc by lia.
    by repeat destruct Hc as [->|Hc]; subst. }
  cbn [parse_decimal_from]. rewrite Hd. cbn. f_equal.
  rewrite N2Z.inj_div, N2Z.inj_mod. pose proof (Z.div_mod (Z.of_N x) 10 ltac:(lia)). simpl in *. lia.
Qed.

Lemma decimal_pad_value n z : 0 <= z → parse_decimal_from 0 (decimal_pad n z) = Some z.
Proof.
  intros Hz. unfold decimal_pad.
  assert (∀ k s, parse_decimal_from 0 (zeros k +:+ s)%string = parse_decimal_from 0 s) as ->.
  { induction k as [|k IH]; intros s; [done|]. exact (IH s). }
  unfold decimal, pretty, pretty_Z. destruct z as [|p|p]; [done| |lia].
  change (parse_decimal_from 0 (pretty_N_go (N.pos p) "") = Some (Z.pos p)). by rewrite pretty_N_go_value.
Qed.

Lemma decimal_pad_inj n x y : 0 <= x → 0 <= y → decimal_pad n x = decimal_pad n y → x = y.
Proof. intros Hx Hy Heq. apply (f_equal (parse_decimal_from 0)) in Heq. rewrite !decimal_pad_value in Heq; congruence. Qed.

(** ** The order of texts *)

Lemma str_lt_cons c d s t :
  str_lt (String c s) (String d t) = (byte_val c <? byte_val d) || ((byte_val c =? byte_val d) && str_lt s t).
Proof.
  unfold str_lt, String.leb. simpl. unfold Ascii.compare, byte_val.
  destruct (N.compare_spec (Ascii.N_of_ascii d) (Ascii.N_of_ascii c)) as [E|E|E].
  - rewrite E, Z.ltb_irrefl, Z.eqb_refl. done.
  - rewrite (proj2 (Z.ltb_ge _ _)), (proj2 (Z.eqb_neq _ _)) by lia. done.
  - rewrite (proj2 (Z.ltb_lt _ _)) by lia. done.
Qed.

Lemma str_lt_app a b x y :
  String.length a = String.length b →
  str_lt (a +:+ x)%string (b +:+ y)%string = str_lt a b || (String.eqb a b && str_lt x y).
Proof.
  revert b. induction a as [|c a IH]; intros [|d b] Hlen; try done; rewrite ?string_app_nil, ?string_app_cons.
  injection Hlen as Hlen. rewrite !str_lt_cons, (IH b Hlen). simpl. destruct (Ascii.eqb_spec c d) as [->|Hne].
  - rewrite Z.ltb_irrefl, Z.eqb_refl. done.
  - destruct (Z.eqb_spec (byte_val c) (byte_val d)) as [Heq|]; [|by rewrite ?andb_false_r, ?orb_false_r].
    destruct Hne. by rewrite <-(byte_of_val c), <-(byte_of_val d), Heq.
Qed.

(** The digits of a number below [10^n], most significant first. *)
Fixpoint digits (n : nat) (x : Z) : string :=
  match n with
  | O => ""
  | S n => (digits n (x / 10) +:+ String (byte_of (48 + x mod 10)) "")%string
  end.

Lemma digits_length n x : String.length (digits n x) = n.
Proof. revert x. induction n as [|n IH]; intros x; simpl; [done|]. rewrite string_length_app, IH. simpl. lia. Qed.

Lemma pretty_N_char_digit (y : N) : (y < 10)%N → pretty_N_char y = byte_of (48 + Z.of_N y).
Proof.
  intros Hy. assert (y = 0 ∨ y = 1 ∨ y = 2 ∨ y = 3 ∨ y = 4 ∨ y = 5 ∨ y = 6 ∨ y = 7 ∨ y = 8 ∨ y = 9)%N as Hc by lia.
  by repeat destruct Hc as [->|Hc]; subst.
Qed.

Lemma zeros_snoc n : (zeros n +:+ "0" = zeros (S n))%string.
Proof. induction n as [|n IH]; [done|]. cbn [zeros]. rewrite string_app_cons, IH. done. Qed.

Lemma pretty_N_go_app (x : N) s : pretty_N_go x s = (pretty_N_go x "" +:+ s)%string.
Proof.
  revert s. induction x as [x IH] using (well_founded_induction N.lt_wf_0). intros s.
  destruct (decide (x = 0)%N) as [->|]; [by rewrite !pretty_N_go_0|].
  rewrite !(pretty_N_go_step x) by lia. rewrite IH by (apply N.div_lt; lia).
  rewrite (IH (x / 10)%N ltac:(apply N.div_lt; lia) (String _ "")). rewrite string_app_assoc. done.
Qed.

Lemma pretty_N_go_length (x : N) n : (x < 10 ^ N.of_nat n)%N → (String.length (pretty_N_go x "") <= n)%nat.
Proof.
  revert x. induction n as [|n IH]; intros x Hx.
  - assert (x = 0%N) as -> by (simpl in Hx; lia). by rewrite pretty_N_go_0.
  - destruct (decide (x = 0)%N) as [->|]; [rewrite pretty_N_go_0; simpl; lia|].
    rewrite pretty_N_go_step by lia. rewrite pretty_N_go_app, string_length_app. simpl.
    assert (x / 10 < 10 ^ N.of_nat n)%N as Hd.
    { apply N.Div0.div_lt_upper_bound. rewrite Nat2N.inj_succ, N.pow_succ_r' in Hx. lia. }
    specialize (IH _ Hd). lia.
Qed.

Lemma zeros_go n (x : N) : (x < 10 ^ N.of_nat n)%N →
  (zeros (n - String.length (pretty_N_go x "")) +:+ pretty_N_go x "")%string = digits n (Z.of_N x).
Proof.
  revert x. induction n as [|n IH]; intros x Hx.
  - assert (x = 0%N) as -> by (simpl in Hx; lia). done.
  - assert (x / 10 < 10 ^ N.of_nat n)%N as Hd.
    { apply N.Div0.div_lt_upper_bound. rewrite Nat2N.inj_succ, N.pow_succ_r' in Hx. lia. }
    pose proof (pretty_N_go_length _ _ Hd) as Hl. specialize (IH _ Hd). rewrite N2Z.inj_div in IH. simpl digits.
    change (Z.of_N 10) with 10 in IH. rewrite <-IH.
    destruct (decide (x = 0)%N) as [->|Hne].
    + change (0 / 10)%N with 0%N. rewrite !pretty_N_go_0. change (String.length "") with 0%nat.
      rewrite !Nat.sub_0_r, !string_app_nil_r. change (String (byte_of (48 + Z.of_N 0 mod 10)) "") with "0"%string.
      by rewrite zeros_snoc.
    + rewrite (pretty_N_go_step x) by lia. rewrite pretty_N_go_app, string_length_app, string_app_assoc. simpl String.length.
      rewrite pretty_N_char_digit by (apply N.mod_upper_bound; lia). rewrite N2Z.inj_mod.
      replace (S n - (String.length (pretty_N_go (x `div` 10) "") + 1))%nat
        with (n - String.length (pretty_N_go (x `div` 10) ""))%nat by lia. done.
Qed.

Lemma decimal_pad_digits n x : (0 < n)%nat → 0 <= x < 10 ^ Z.of_nat n → decimal_pad n x = digits n x.
Proof.
  intros Hn [H0 Hx]. destruct (decide (x = 0)) as [->|Hne].
  - change (decimal_pad n 0) with (zeros (n - 1) +:+ "0")%string. rewrite zeros_snoc.
    replace (S (n - 1)) with n by lia. clear. induction n as [|n IH]; [done|]. simpl. rewrite Zdiv_0_l, <-IH.
    change (byte_of (48 + 0 mod 10)) with "0"%char. by rewrite zeros_snoc.
  - assert (x < 10 ^ Z.of_nat n → (Z.to_N x < 10 ^ N.of_nat n)%N) as Hxn.
    { intros _. apply N2Z.inj_lt. rewrite N2Z.inj_pow, Z2N.id by lia. rewrite nat_N_Z. exact Hx. }
    rewrite <-(Z2N.id x) at 2 by lia. rewrite <-zeros_go by auto. unfold decimal_pad, decimal, pretty, pretty_Z.
    destruct x as [|p|p]; [done| |lia]. done.
Qed.

Lemma digits_lt n x y : 0 <= x → 0 <= y → x < 10 ^ Z.of_nat n → y < 10 ^ Z.of_nat n →
  str_lt (digits n x) (digits n y) = (x <? y).
Proof.
  revert x y. induction n as [|n IH]; intros x y H0 H0' Hx Hy.
  - change (10 ^ Z.of_nat 0) with 1 in *. assert (x = 0) as -> by lia. assert (y = 0) as -> by lia. done.
  - rewrite Nat2Z.inj_succ, Z.pow_succ_r in Hx, Hy by lia.
    assert (0 <= x / 10 < 10 ^ Z.of_nat n) by (split; [apply Z.div_pos; lia|apply Z.div_lt_upper_bound; lia]).
    assert (0 <= y / 10 < 10 ^ Z.of_nat n) by (split; [apply Z.div_pos; lia|apply Z.div_lt_upper_bound; lia]).
    simpl. rewrite str_lt_app by by rewrite !digits_length. rewrite IH by lia.
    pose proof (Z.div_mod x 10 ltac:(lia)). pose proof (Z.div_mod y 10 ltac:(lia)).
    pose proof (Z.mod_pos_bound x 10 ltac:(lia)). pose proof (Z.mod_pos_bound y 10 ltac:(lia)).
    destruct (Z.ltb_spec (x / 10) (y / 10)); simpl; [symmetry; apply Z.ltb_lt; lia|].
    destruct (String.eqb_spec (digits n (x / 10)) (digits n (y / 10))) as [Heq|Hne]; simpl.
    + assert (x / 10 = y / 10) as Hdiv.
      { pose proof (IH (y / 10) (x / 10) ltac:(lia) ltac:(lia) ltac:(lia) ltac:(lia)) as Hlt.
        rewrite Heq, str_lt_irrefl in Hlt. symmetry in Hlt. apply Z.ltb_ge in Hlt. lia. }
      rewrite str_lt_cons, !byte_val_of by lia. change (str_lt "" "") with false. rewrite andb_false_r, orb_false_r.
      destruct (Z.ltb_spec x y), (Z.ltb_spec (48 + x mod 10) (48 + y mod 10)); lia.
    + symmetry. apply Z.ltb_ge. destruct (Z.eq_dec (x / 10) (y / 10)) as [E|]; [by rewrite E in Hne|]. lia.
Qed.

Lemma decimal_pad_lt n x y : (0 < n)%nat → 0 <= x < 10 ^ Z.of_nat n → 0 <= y < 10 ^ Z.of_nat n →
  str_lt (decimal_pad n x) (decimal_pad n y) = (x <? y).
Proof. intros. rewrite !decimal_pad_digits by done. apply digits_lt; lia. Qed.

Lemma decimal_pad_length n x : (0 < n)%nat → 0 <= x < 10 ^ Z.of_nat n → String.length (decimal_pad n x) = n.
Proof. intros. rewrite decimal_pad_digits by done. apply digits_length. Qed.
