(* ===== verification/TimeText.v ===== *)
(** * Instants as text, and back

    The texts [time.RFC3339Nano] makes of instants in UTC name the instant: [parse_utc] reads
    every text that [Format] writes for the years 1 to 9999.  It stands for [time.Parse] where
    a concrete reader is needed; [time.Parse] accepts more than these texts. *)

From S2P Require Import Prelude Bytes Strconv Decimal Time.

(** ** The calendar *)

Definition year_days (y : Z) : Z := if leap y then 366 else 365.

Lemma days_before_next y : days_before_year (y + 1) = days_before_year y + year_days y.
Proof.
  unfold days_before_year, year_days, leap. replace (y + 1 - 1) with y by lia.
  assert (∀ k, 0 < k → y / k = (y - 1) / k + (if y mod k =? 0 then 1 else 0)) as Hdiv.
  { intros k Hk. destruct (Z.eqb_spec (y mod k) 0) as [H0|H0].
    - apply Z.mod_divide in H0 as [q ->]; [|lia]. rewrite Z.div_mul by lia.
      rewrite <-(Z.div_unique (q * k - 1) k (q - 1) (k - 1)); lia.
    - pose proof (Z.div_mod y k ltac:(lia)) as Hy. pose proof (Z.mod_pos_bound y k Hk).
      rewrite <-(Z.div_unique (y - 1) k (y / k) (y mod k - 1)); lia. }
  rewrite !(Hdiv 4), !(Hdiv 100), !(Hdiv 400) by lia.
  assert (∀ k j, 0 < k → 0 < j → y mod (k * j) = 0 → y mod k = 0) as Hmul.
  { intros k j Hk Hj H0. apply Z.mod_divide in H0 as [q ->]; [|lia].
    replace (q * (k * j)) with (q * j * k) by lia. apply Z_mod_mult. }
  pose proof (Hmul 100 4 ltac:(lia) ltac:(lia)) as H1. change (100 * 4) with 400 in H1.
  pose proof (Hmul 4 25 ltac:(lia) ltac:(lia)) as H2. change (4 * 25) with 100 in H2.
  destruct (Z.eqb_spec (y mod 4) 0), (Z.eqb_spec (y mod 100) 0), (Z.eqb_spec (y mod 400) 0); cbn [andb negb]; try lia.
Qed.

Lemma year_days_pos y : 365 <= year_days y <= 366.
Proof. unfold year_days. destruct (leap y); lia. Qed.

Lemma days_before_bound y : 1 <= y → 365 * (y - 1) <= days_before_year y <= 366 * (y - 1).
Proof. intros Hy. unfold days_before_year. Z.div_mod_to_equations. lia. Qed.

Lemma year_up_spec d n y : days_before_year y <= d < days_before_year (y + Z.of_nat n + 1) →
  y <= year_up d n y ∧ days_before_year (year_up d n y) <= d < days_before_year (year_up d n y + 1).
Proof.
  revert y. induction n as [|n IH]; intros y Hd; simpl.
  { replace (y + Z.of_nat 0 + 1) with (y + 1) in Hd by lia. auto with lia. }
  destruct (Z.leb_spec (days_before_year (y + 1)) d) as [H|H]; [|auto with lia].
  destruct (IH (y + 1)); [|auto with lia]. replace (y + 1 + Z.of_nat n + 1) with (y + Z.of_nat (S n) + 1) by lia. lia.
Qed.

Lemma year_of_day_spec d : 0 <= d →
  1 <= year_of_day d ∧ days_before_year (year_of_day d) <= d < days_before_year (year_of_day d + 1).
Proof.
  intros Hd. unfold year_of_day. destruct (year_up_spec d (Z.to_nat (d / 100000 + 3)) (d / 366 + 1)) as [Hy Hb].
  - rewrite Z2Nat.id by (pose proof (Z.div_pos d 100000); lia). split.
    + pose proof (days_before_bound (d / 366 + 1)). Z.div_mod_to_equations. lia.
    + unfold days_before_year. Z.div_mod_to_equations. lia.
  - split; [|done]. pose proof (Z.div_pos d 366). lia.
Qed.

(** ** Months *)

Definition sum (l : list Z) : Z := foldr Z.add 0 l.

Lemma month_of_spec ls m d : Forall (λ l, 0 < l) ls → 0 <= d < sum ls →
  ∃ i l, ls !! i = Some l ∧ 0 <= d - sum (take i ls) < l ∧ month_of ls m d = (m + Z.of_nat i, d - sum (take i ls) + 1).
Proof.
  revert m d. induction ls as [|l ls IH]; intros m d Hall Hd; simpl in *; [lia|].
  apply Forall_cons in Hall as [Hl Hall]. destruct (Z.ltb_spec d l) as [H|H].
  - exists 0%nat, l. simpl. split_and!; [done|lia..|]. f_equal; lia.
  - destruct (IH (m + 1) (d - l) Hall) as (i & l' & Hi & Hb & ->); [unfold sum in *; lia|].
    exists (S i), l'. simpl. unfold sum in *. split_and!; [done|lia..|]. f_equal; lia.
Qed.

Lemma month_lengths_sum y : sum (month_lengths y) = year_days y.
Proof. unfold month_lengths, year_days. destruct (leap y); reflexivity. Qed.
Lemma month_lengths_pos y : Forall (λ l, 0 < l ∧ l <= 31) (month_lengths y).
Proof. unfold month_lengths. destruct (leap y); repeat constructor; lia. Qed.

(** ** Reading digits *)

Definition digit (c : ascii) : Z := byte_val c - 48.

(** Exactly [n] digits. *)
Fixpoint take_digits (n : nat) (acc : Z) (s : string) : option (Z * string) :=
  match n with
  | O => Some (acc, s)
  | S n => match s with
           | String c s => if is_digit c then take_digits n (10 * acc + digit c) s else None
           | EmptyString => None
           end
  end.

Lemma take_digits_plus n m acc s :
  take_digits (n + m) acc s = '(acc, s) ← take_digits n acc s; take_digits m acc s.
Proof.
  revert acc s. induction n as [|n IH]; intros acc s; [done|]. simpl. destruct s as [|c s]; [done|].
  destruct (is_digit c); [apply IH|done].
Qed.

Lemma digit_byte x : 0 <= x < 10 → is_digit (byte_of (48 + x)) = true ∧ digit (byte_of (48 + x)) = x.
Proof.
  intros Hx. unfold is_digit, digit, in_range. rewrite byte_val_of by lia.
  split; [apply andb_true_iff; split; apply Z.leb_le; lia|lia].
Qed.

Lemma take_digits_text n acc x s : 0 <= x < 10 ^ Z.of_nat n →
  take_digits n acc (digits n x +:+ s)%string = Some (acc * 10 ^ Z.of_nat n + x, s).
Proof.
  revert acc x s. induction n as [|n IH]; intros acc x s Hx; simpl digits.
  { change (10 ^ Z.of_nat 0) with 1 in *. rewrite string_app_nil. simpl. do 2 f_equal. lia. }
  rewrite Nat2Z.inj_succ, Z.pow_succ_r in * by lia. rewrite <-Nat.add_1_r, take_digits_plus, string_app_assoc.
  rewrite IH by (split; [apply Z.div_pos|apply Z.div_lt_upper_bound]; lia). rewrite string_app_cons, string_app_nil. simpl.
  destruct (digit_byte (x mod 10)) as [-> ->]; [by apply Z.mod_pos_bound|].
  do 2 f_equal. pose proof (Z.div_mod x 10). lia.
Qed.

Lemma take_pad n x s : (0 < n)%nat → 0 <= x < 10 ^ Z.of_nat n →
  take_digits n 0 (decimal_pad n x +:+ s)%string = Some (x, s).
Proof. intros Hn Hx. rewrite decimal_pad_digits, take_digits_text by done. done. Qed.

(** ** Fractional seconds *)

(** At most [k] digits, as so many places. *)
Fixpoint take_places (k : nat) (acc : Z) (s : string) : Z * string :=
  match k with
  | O => (acc, s)
  | S k' =>
    match s with
    | String c s' => if is_digit c then take_places k' (10 * acc + digit c) s' else (acc * 10 ^ Z.of_nat k, s)
    | EmptyString => (acc * 10 ^ Z.of_nat k, s)
    end
  end.

Definition take_fraction (s : string) : option (Z * string) :=
  match s with
  | String "."%char (String c _ as s) => if is_digit c then Some (take_places 9 0 s) else None
  | _ => Some (0, s)
  end.

Abbreviation text_of := String.string_of_list_ascii.

Lemma strip_zeros_spec l : ∃ j, l = replicate j "0"%char ++ strip_zeros l.
Proof.
  induction l as [|c l [j IH]]; [by exists 0%nat|]. simpl. destruct (Ascii.eqb_spec c "0"%char) as [->|].
  - exists (S j). simpl. by rewrite <-IH.
  - by exists 0%nat.
Qed.

(** What is left of digits without their last zeros reads as the digits. *)
Lemma take_places_zeros l j acc v s c :
  is_digit c = false →
  take_digits (length l + j) acc (text_of (l ++ replicate j "0"%char)) = Some (v, ""%string) →
  take_places (length l + j) acc (text_of l +:+ String c s)%string = (v, String c s).
Proof.
  intros Hc. revert acc. induction l as [|d l IH]; intros acc; simpl.
  - rewrite string_app_nil. intros Hv. assert (v = acc * 10 ^ Z.of_nat j) as ->.
    { revert acc Hv. induction j as [|j IHj]; intros acc; [intros [= ->]; lia|]. simpl replicate. cbn [text_of take_digits].
      change (is_digit "0"%char) with true. cbn iota. change (digit "0"%char) with 0. intros ->%IHj.
      rewrite Nat2Z.inj_succ, Z.pow_succ_r by lia. lia. }
    destruct j; simpl; [f_equal; lia|by rewrite Hc].
  - rewrite string_app_cons. destruct (is_digit d); [apply IH|done].
Qed.

Lemma list_of_digits_length n x : length (String.list_ascii_of_string (digits n x)) = n.
Proof. rewrite <-(digits_length n x) at 2. generalize (digits n x). induction s; simpl; auto. Qed.

Lemma take_fraction_text ns : 0 <= ns < Second → take_fraction (fraction ns +:+ "Z")%string = Some (ns, "Z"%string).
Proof.
  intros Hns. unfold fraction. destruct (Z.eqb_spec ns 0) as [->|Hne]; [done|].
  rewrite decimal_pad_digits by (change (10 ^ Z.of_nat 9) with Second; lia).
  set (l := String.list_ascii_of_string (digits 9 ns)).
  destruct (strip_zeros_spec (reverse l)) as [j Hj]. set (k := reverse (strip_zeros (reverse l))).
  assert (l = k ++ replicate j "0"%char) as Hl.
  { unfold k. rewrite <-(reverse_involutive l), Hj at 1. by rewrite reverse_app, reverse_replicate. }
  assert (length k + j = 9)%nat as Hlen.
  { pose proof (list_of_digits_length 9 ns) as H. fold l in H. rewrite Hl, length_app, length_replicate in H. done. }
  assert (take_digits 9 0 (text_of l) = Some (ns, ""%string)) as Hd.
  { unfold l. rewrite String.string_of_list_ascii_of_string. rewrite <-(string_app_nil_r (digits 9 ns)).
    by rewrite take_digits_text. }
  rewrite Hl in Hd. rewrite <-Hlen in Hd.
  pose proof (take_places_zeros k j 0 ns "" "Z"%char eq_refl Hd) as Hp. rewrite Hlen in Hp.
  destruct k as [|c k]; simpl in *.
  { exfalso. subst j. vm_compute in Hd. congruence. }
  destruct (is_digit c); [|by destruct j]. by rewrite Hp.
Qed.

(** ** Reading an instant *)

Definition expect (c : ascii) (s : string) : option string :=
  match s with String d s => if Ascii.eqb c d then Some s else None | EmptyString => None end.

Definition parse_utc (s : string) : option time :=
  '(y, s) ← take_digits 4 0 s; s ← expect "-"%char s; '(m, s) ← take_digits 2 0 s; s ← expect "-"%char s; '(d, s) ← take_digits 2 0 s;
  s ← expect "T"%char s; '(h, s) ← take_digits 2 0 s; s ← expect ":"%char s; '(mi, s) ← take_digits 2 0 s; s ← expect ":"%char s;
  '(sec, s) ← take_digits 2 0 s; '(ns, s) ← take_fraction s; s ← expect "Z"%char s;
  l ← month_lengths y !! Z.to_nat (m - 1);
  if String.eqb s "" && (1 <=? y) && (1 <=? m) && (1 <=? d) && (d <=? l) && (h <? 24) && (mi <? 60) && (sec <? 60)
  then Some (((days_before_year y + sum (take (Z.to_nat (m - 1)) (month_lengths y)) + (d - 1)) * 86400 + h * 3600 + mi * 60 + sec) * Second + ns)
  else None.

(** The years 1 to 9999. *)
Definition last_instant : time := days_before_year 10000 * 86400 * Second.
Definition writable (t : time) : Prop := 0 <= t < last_instant.
#[export] Instance writable_dec t : Decision (writable t).
Proof. unfold writable. apply _. Defined.

Lemma expect_char c s : expect c (String c s) = Some s.
Proof. simpl. by rewrite Ascii.eqb_refl. Qed.

Lemma days_before_mono y z : 1 <= y → y <= z → days_before_year y <= days_before_year z.
Proof. intros Hy Hz. unfold days_before_year. Z.div_mod_to_equations. lia. Qed.

Lemma year_of_day_range d : 0 <= d < days_before_year 10000 → 1 <= year_of_day d <= 9999.
Proof.
  intros Hd. destruct (year_of_day_spec d) as [Hy Hb]; [lia|]. split; [done|].
  destruct (Z.le_gt_cases (year_of_day d) 9999); [done|]. pose proof (days_before_mono 10000 (year_of_day d)). lia.
Qed.

Lemma bind_some {A B} (a : A) (f : A → option B) : (Some a ≫= f) = f a.
Proof. done. Qed.

(** What [Format] writes is read back as the instant. *)
Theorem parse_format t : writable t → parse_utc (RFC3339Nano t) = Some t.
Proof.
  unfold writable, last_instant. intros Ht. unfold RFC3339Nano. set (secs := t / Second). set (day := secs / 86400). set (sod := secs mod 86400).
  assert (0 <= t mod Second < Second) as Hns by (by apply Z.mod_pos_bound).
  assert (0 <= sod < 86400) as Hsod by (by apply Z.mod_pos_bound).
  assert (t = (day * 86400 + sod) * Second + t mod Second) as Htime.
  { unfold day, sod, secs. pose proof (Z.div_mod t Second). pose proof (Z.div_mod (t / Second) 86400). lia. }
  assert (0 <= day < days_before_year 10000) as Hday by (unfold Second in *; lia).
  clearbody day sod. clear secs. pose proof (year_of_day_range day Hday) as Hy. destruct (year_of_day_spec day ltac:(lia)) as [_ Hb].
  set (y := year_of_day day) in *. rewrite days_before_next in Hb.
  destruct (month_of_spec (month_lengths y) 1 (day - days_before_year y)) as (i & l & Hi & Hd & ->).
  { eapply Forall_impl; [apply month_lengths_pos|]. simpl. tauto. }
  { rewrite month_lengths_sum. lia. }
  pose proof (Forall_lookup_1 _ _ _ _ (month_lengths_pos y) Hi) as [_ Hl]. simpl in Hl.
  assert (0 <= Z.of_nat i < 12) as Hi12.
  { apply lookup_lt_Some in Hi. unfold month_lengths in Hi. simpl in Hi. lia. }
  set (dd := day - days_before_year y - sum (take i (month_lengths y))) in *.
  unfold parse_utc.
  repeat (rewrite ?string_app_assoc, ?string_app_cons, ?string_app_nil;
    first [rewrite take_pad by (simpl; Z.div_mod_to_equations; lia) | rewrite expect_char | rewrite take_fraction_text by done]; rewrite bind_some; cbv beta iota).
  replace (Z.to_nat (1 + Z.of_nat i - 1)) with i by lia. rewrite Hi, bind_some.
  rewrite (proj2 (Z.leb_le 1 y)), (proj2 (Z.leb_le 1 (1 + Z.of_nat i))), (proj2 (Z.leb_le 1 (dd + 1))), (proj2 (Z.leb_le (dd + 1) l)),
    (proj2 (Z.ltb_lt (sod / 3600) 24)), (proj2 (Z.ltb_lt (sod / 60 mod 60) 60)), (proj2 (Z.ltb_lt (sod mod 60) 60))
    by (unfold y, dd in *; Z.div_mod_to_equations; lia). cbn [String.eqb andb].
  f_equal. rewrite Htime at 2.
  replace (days_before_year y + sum (take i (month_lengths y)) + (dd + 1 - 1)) with day by (unfold dd; lia).
  assert (sod = sod / 3600 * 3600 + sod / 60 mod 60 * 60 + sod mod 60) as Hs by (Z.div_mod_to_equations; lia).
  lia.
Qed.

(** Two instants with the same text are the same. *)
Corollary RFC3339Nano_inj t u : writable t → writable u → RFC3339Nano t = RFC3339Nano u → t = u.
Proof. intros Ht Hu Heq. apply parse_format in Ht, Hu. congruence. Qed.

Example parse_leap_day : parse_utc "2024-02-29T12:34:56.12Z" = Some (unix 1709210096 120000000).
Proof. vm_compute. reflexivity. Qed.
Example parse_no_leap_day : parse_utc "2023-02-29T12:34:56Z" = None.
Proof. vm_compute. reflexivity. Qed.
