(* ===== verification/Sqlite.v ===== *)
(** * [internal/store/sqlite]: the durable repository

    [sqlite.go]: the schema and its migrations, and every method of the repository, as
    programs over the tables.  A table is what its [CREATE TABLE] says: a map from its
    primary key, or the rows in the order of [rowid] where the code asks for that order.
    Every call to the database may fail or be the last thing the process does; a
    transaction that is not committed leaves nothing behind.  [encoding/json] and
    [time.Parse] are the class [StoreCodec]; opening the file and protecting it is outside. *)

From S2P Require Import Prelude Effects Bytes Time TimeText Model AuditLog Claims Memory Repository.

Class StoreCodec := {
  marshal_envelope : ObservationEnvelope → go string;
  unmarshal_envelope : string → go ObservationEnvelope;
  marshal_asset : Asset → go string;
  unmarshal_asset : string → go Asset;
  marshal_relationship : Relationship → go string;
  unmarshal_relationship : string → go Relationship;
  marshal_detail : gmap string string → go string;
  unmarshal_detail : string → go (gmap string string);
  parse_time : string → go time;
  carried : ObservationEnvelope → Prop;          (* JSON carries it unchanged *)
  carried_detail : gmap string string → Prop;
}.

(** What is read back is what was written. *)
Definition reads_back {A} (marshal : A → go string) (unmarshal : string → go A) (a : A) : Prop :=
  ∃ s, marshal a = Ok s ∧ unmarshal s = Ok a.

Class StoreCodecLaws (C : StoreCodec) := {
  envelope_reads_back e : carried e → reads_back marshal_envelope unmarshal_envelope e;
  asset_reads_back e a : carried e → a ∈ Envelope_Assets e → reads_back marshal_asset unmarshal_asset a;
  relationship_reads_back e r : carried e → r ∈ Envelope_Relationships e → reads_back marshal_relationship unmarshal_relationship r;
  detail_reads_back d : carried_detail d → reads_back marshal_detail unmarshal_detail d;
  parse_time_format t : writable t → parse_time (RFC3339Nano t) = Ok t;
}.

(** ** Tables *)

Record ObservationRow := mkObservationRow {
  row_observation_id : string; row_envelope_json : string; row_observed_at : string; row_received_at : string;
}.
Record AssetRow := mkAssetRow { asset_row_json : string; asset_row_first : string; asset_row_last : string }.
Record RelationshipRow := mkRelationshipRow { relationship_json : string; rel_first_observation_id : string; rel_last_observation_id : string }.
Record AuditRow := mkAuditRow {
  row_sequence : Z; row_recorded_at : string; row_action : string; row_actor : string; row_detail_json : string;
  row_prev_hash : string; row_hash : string;
}.
Record ScheduleRow := mkScheduleRow {
  row_job_type : string; row_interval_seconds : Z; row_next_run_at : string; row_created_at : string; row_updated_at : string;
}.
Record RevocationRow := mkRevocationRow { row_reason : string; row_revoked_at : string }.
Record ClaimRow := mkClaimRow {
  asset_json : string; site_id : string; collector_id : string; plugin : string;
  first_observation_id : string; last_observation_id : string; first_observed_at : string; last_observed_at : string;
}.

(** [tables] are the names of the tables there are. *)
Record Database := mkDatabase {
  user_version : Z;
  tables : gset string;
  t_observations : list ObservationRow;
  t_assets : gmap string AssetRow;
  t_relationships : gmap string RelationshipRow;
  t_audit_entries : list AuditRow;
  t_schedules : gmap string ScheduleRow;
  t_revocations : gmap string RevocationRow;
  t_asset_claims : gmap (string * string) ClaimRow;
}.

Definition empty_database : Database := mkDatabase 0 ∅ [] ∅ ∅ [] ∅ ∅ ∅.

Definition set_observations (f : list ObservationRow → list ObservationRow) (db : Database) : Database :=
  mkDatabase (user_version db) (tables db) (f (t_observations db)) (t_assets db) (t_relationships db) (t_audit_entries db)
    (t_schedules db) (t_revocations db) (t_asset_claims db).
Definition set_assets (f : gmap string AssetRow → gmap string AssetRow) (db : Database) : Database :=
  mkDatabase (user_version db) (tables db) (t_observations db) (f (t_assets db)) (t_relationships db) (t_audit_entries db)
    (t_schedules db) (t_revocations db) (t_asset_claims db).
Definition set_relationships (f : gmap string RelationshipRow → gmap string RelationshipRow) (db : Database) : Database :=
  mkDatabase (user_version db) (tables db) (t_observations db) (t_assets db) (f (t_relationships db)) (t_audit_entries db)
    (t_schedules db) (t_revocations db) (t_asset_claims db).
Definition set_audit (f : list AuditRow → list AuditRow) (db : Database) : Database :=
  mkDatabase (user_version db) (tables db) (t_observations db) (t_assets db) (t_relationships db) (f (t_audit_entries db))
    (t_schedules db) (t_revocations db) (t_asset_claims db).
Definition set_schedules (f : gmap string ScheduleRow → gmap string ScheduleRow) (db : Database) : Database :=
  mkDatabase (user_version db) (tables db) (t_observations db) (t_assets db) (t_relationships db) (t_audit_entries db)
    (f (t_schedules db)) (t_revocations db) (t_asset_claims db).
Definition set_revocations (f : gmap string RevocationRow → gmap string RevocationRow) (db : Database) : Database :=
  mkDatabase (user_version db) (tables db) (t_observations db) (t_assets db) (t_relationships db) (t_audit_entries db)
    (t_schedules db) (f (t_revocations db)) (t_asset_claims db).
Definition set_claims (f : gmap (string * string) ClaimRow → gmap (string * string) ClaimRow) (db : Database) : Database :=
  mkDatabase (user_version db) (tables db) (t_observations db) (t_assets db) (t_relationships db) (t_audit_entries db)
    (t_schedules db) (t_revocations db) (f (t_asset_claims db)).
Definition set_schema (version : Z) (names : gset string) (db : Database) : Database :=
  mkDatabase version names (t_observations db) (t_assets db) (t_relationships db) (t_audit_entries db)
    (t_schedules db) (t_revocations db) (t_asset_claims db).

(** ** Calls to the database *)

(** How a call ends, and whether one that does not return has taken effect. *)
Record Fault := mkFault { fault_ending : ending; fault_applied : bool }.
Definition undisturbed : Fault := mkFault Answered true.
Definition driver_error : string := "driver error".

Abbreviation sql := (prog Fault Database).

(** One call; [f] fails where the database refuses the statement. *)
Definition call_db {A} (f : Database → go (Database * A)) : sql A :=
  with_input undisturbed (λ i db,
    match fault_ending i, f db with
    | Answered, Ok (db', a) => (Done a, db')
    | Answered, Err e => (Failed e, db)
    | Failing, r => (Failed driver_error, match r with Ok (db', _) => if fault_applied i then db' else db | Err _ => db end)
    | Dying, r => (Crashed, match r with Ok (db', _) => if fault_applied i then db' else db | Err _ => db end)
    end).

(** A statement on a table. *)
Definition statement {A} (table : string) (f : Database → go (Database * A)) : sql A :=
  call_db (λ db, if bool_decide (table ∈ tables db) then f db else Err ("no such table: " +:+ table)%string).
Definition exec (table : string) (f : Database → Database) : sql unit := statement table (λ db, Ok (f db, tt)).
Definition query {A} (table : string) (f : Database → A) : sql A := statement table (λ db, Ok (db, f db)).

(** [BeginTx], a body, and [Commit]; a body that fails is rolled back, as is one the process
    does not survive. *)
Definition committing {A} (commit : string) (body : sql A) : sql A := λ xs db,
  match body xs db with
  | (Done a, xs, db') => wrapping commit (call_db (λ _, Ok (db', a))) xs db
  | (Failed e, xs, _) => (Failed e, xs, db)
  | (Crashed, xs, _) => (Crashed, xs, db)
  end.
Definition transaction {A} (begin commit : string) (body : sql A) : sql A :=
  _ ← wrapping begin (call_db (λ db, Ok (db, tt))); committing commit body.

Definition wrap_error {A} (text : string) (r : go A) : go A :=
  match r with Ok a => Ok a | Err e => Err (text +:+ ": " +:+ e)%string end.

Fixpoint for_each {A} (f : A → sql unit) (l : list A) : sql unit :=
  match l with [] => mret tt | x :: l => _ ← f x; for_each f l end.

(** [for rows.Next() { rows.Scan(...) }]: the first row that does not decode ends it. *)
Fixpoint decode_rows {R A} (decode : R → go A) (rows : list R) : go (list A) :=
  match rows with [] => Ok [] | r :: rows => try a := decode r ;; try l := decode_rows decode rows ;; Ok (a :: l) end.

(** [ORDER BY] the primary key *)
Definition ordered {K R} `{Countable K} (less : K → K → bool) (m : gmap K R) : list (K * R) :=
  sort_by (less_on fst less) (map_to_list m).
Definition pair_less : string * string → string * string → bool := less_then (less_on fst str_lt) (less_on snd str_lt).

Section store.
Context `{StoreCodec}.

(** ** Observations and claims *)

Definition upsert_row (r : ObservationRow) : list ObservationRow → list ObservationRow :=
  fix go rows := match rows with
  | [] => [r]
  | x :: rows =>
    if String.eqb (row_observation_id x) (row_observation_id r)
    then mkObservationRow (row_observation_id x) (row_envelope_json r) (row_observed_at r) (row_received_at x) :: rows
    else x :: go rows
  end.

Definition upsert_asset (id : string) (r : AssetRow) (m : gmap string AssetRow) : gmap string AssetRow :=
  <[id := match m !! id with Some old => mkAssetRow (asset_row_json r) (asset_row_first old) (asset_row_last r) | None => r end]> m.
Definition upsert_relationship (id : string) (r : RelationshipRow) (m : gmap string RelationshipRow) : gmap string RelationshipRow :=
  <[id := match m !! id with
          | Some old => mkRelationshipRow (relationship_json r) (rel_first_observation_id old) (rel_last_observation_id r)
          | None => r end]> m.

Definition decode_time (text raw : string) : sql time :=
  lift (wrap_error ("decode asset claim " +:+ text) (parse_time raw)).

(** The claim after an envelope reported the asset again. *)
Definition advance_claim (e : ObservationEnvelope) (assetJSON : string) (r : ClaimRow) (firstObserved lastObserved : time) : ClaimRow :=
  let observed := Envelope_ObservedAt e in
  let oid := Envelope_ObservationID e in
  let '(firstObserved, firstID) := if Before observed firstObserved then (observed, oid) else (firstObserved, first_observation_id r) in
  let '(lastObserved, lastID, currentJSON) :=
    if negb (Before observed lastObserved) then (observed, oid, assetJSON) else (lastObserved, last_observation_id r, asset_json r) in
  mkClaimRow currentJSON (site_id r) (collector_id r) (plugin r) firstID lastID (RFC3339Nano firstObserved) (RFC3339Nano lastObserved).

Definition saveAssetClaim (e : ObservationEnvelope) (assetID assetJSON : string) : sql unit :=
  let sourceKey := AssetSourceKey (Envelope_SiteID e) (Envelope_CollectorID e) (Envelope_Plugin e) in
  let observed := RFC3339Nano (Envelope_ObservedAt e) in
  row ← wrapping "read asset claim" (query "asset_claims" (λ db, t_asset_claims db !! (assetID, sourceKey)));
  match row with
  | None =>
    wrapping "insert asset claim" (exec "asset_claims" (set_claims (insert (assetID, sourceKey)
      (mkClaimRow assetJSON (Envelope_SiteID e) (Envelope_CollectorID e) (Envelope_Plugin e)
         (Envelope_ObservationID e) (Envelope_ObservationID e) observed observed))))
  | Some r =>
    firstObserved ← decode_time "first_observed_at" (first_observed_at r);
    lastObserved ← decode_time "last_observed_at" (last_observed_at r);
    wrapping "update asset claim" (exec "asset_claims" (set_claims
      (insert (assetID, sourceKey) (advance_claim e assetJSON r firstObserved lastObserved))))
  end.

Definition save_asset_rows (e : ObservationEnvelope) (a : Asset) : sql unit :=
  let id := StableAssetID a in
  assetJSON ← wrapping "marshal asset" (lift (marshal_asset a));
  _ ← wrapping "save asset" (exec "assets" (set_assets
        (upsert_asset id (mkAssetRow assetJSON (Envelope_ObservationID e) (Envelope_ObservationID e)))));
  saveAssetClaim e id assetJSON.

Definition save_relationship_row (e : ObservationEnvelope) (r : Relationship) : sql unit :=
  relationshipJSON ← wrapping "marshal relationship" (lift (marshal_relationship r));
  wrapping "save relationship" (exec "relationships" (set_relationships
    (upsert_relationship (StableRelationshipID r)
       (mkRelationshipRow relationshipJSON (Envelope_ObservationID e) (Envelope_ObservationID e))))).

(** [SaveObservation]; [received] is [datetime('now')]. *)
Definition SaveObservation (received : string) (e : ObservationEnvelope) : sql unit :=
  envelopeJSON ← wrapping "marshal observation" (lift (marshal_envelope e));
  transaction "begin save observation" "commit save observation" (
    _ ← wrapping "save observation" (exec "observations" (set_observations
          (upsert_row (mkObservationRow (Envelope_ObservationID e) envelopeJSON (RFC3339Nano (Envelope_ObservedAt e)) received))));
    _ ← for_each (save_asset_rows e) (Envelope_Assets e);
    for_each (save_relationship_row e) (Envelope_Relationships e)).

Definition decode_observation (r : ObservationRow) : go ObservationEnvelope :=
  wrap_error "decode observation" (unmarshal_envelope (row_envelope_json r)).
Definition ListObservations : sql (list ObservationEnvelope) :=
  rows ← wrapping "list observations" (query "observations" t_observations);
  lift (decode_rows decode_observation rows).

Definition decode_claim (kr : (string * string) * ClaimRow) : go AssetClaim :=
  let '((id, _), r) := kr in
  try first := wrap_error "decode asset claim first_observed_at" (parse_time (first_observed_at r)) ;;
  try last := wrap_error "decode asset claim last_observed_at" (parse_time (last_observed_at r)) ;;
  try a := wrap_error "decode asset claim" (unmarshal_asset (asset_json r)) ;;
  Ok (mkAssetClaim id a (mkAssetSource (site_id r) (collector_id r) (plugin r)
        (first_observation_id r) (last_observation_id r) first last 0 false)).
Definition ListAssetClaims : sql (list AssetClaim) :=
  rows ← wrapping "list asset claims" (query "asset_claims" (λ db, ordered pair_less (t_asset_claims db)));
  lift (decode_rows decode_claim rows).

Definition ListAssets : sql (list ResolvedAsset) := claims ← ListAssetClaims; mret (ResolveAssetClaims claims []).

Definition decode_relationship (kr : string * RelationshipRow) : go ResolvedRelationship :=
  try rel := wrap_error "decode relationship" (unmarshal_relationship (relationship_json kr.2)) ;;
  Ok (mkResolvedRelationship kr.1 rel (rel_first_observation_id kr.2) (rel_last_observation_id kr.2)).
Definition ListRelationships : sql (list ResolvedRelationship) :=
  rows ← wrapping "list relationships" (query "relationships" (λ db, ordered str_lt (t_relationships db)));
  lift (decode_rows decode_relationship rows).

(** ** The audit log *)

(** Rows are kept by their sequence number; the hash is unique. *)
Fixpoint insert_by_sequence (r : AuditRow) (rows : list AuditRow) : list AuditRow :=
  match rows with
  | [] => [r]
  | x :: rows => if row_sequence r <? row_sequence x then r :: x :: rows else x :: insert_by_sequence r rows
  end.
Definition insert_audit (r : AuditRow) (db : Database) : go (Database * unit) :=
  reject existsb (λ x, row_sequence x =? row_sequence r) (t_audit_entries db) with "UNIQUE constraint failed: audit_entries.sequence"%string ;;
  reject existsb (λ x, String.eqb (row_hash x) (row_hash r)) (t_audit_entries db) with "UNIQUE constraint failed: audit_entries.hash"%string ;;
  Ok (set_audit (insert_by_sequence r) db, tt).

Definition audit_row (detailJSON : string) (entry : Entry) : AuditRow :=
  mkAuditRow (Entry_Sequence entry) (RFC3339Nano (Entry_RecordedAt entry)) (Entry_Action entry) (Entry_Actor entry) detailJSON
    (Entry_PrevHash entry) (Entry_Hash entry).

Definition AppendAuditEvent (now : time) (ev : Event) : sql Entry :=
  detailJSON ← wrapping "marshal audit detail" (lift (marshal_detail (Event_Detail ev)));
  transaction "begin append audit event" "commit audit entry" (
    final ← wrapping "read last audit entry" (query "audit_entries" (λ db, last (t_audit_entries db)));
    let '(lastSeq, prevHash) := match final with Some r => (row_sequence r, row_hash r) | None => (0, ""%string) end in
    let entry := Chain prevHash (lastSeq + 1) now ev in
    _ ← wrapping "save audit entry" (statement "audit_entries" (insert_audit (audit_row detailJSON entry)));
    mret entry).

Definition decode_entry (r : AuditRow) : go Entry :=
  try t := wrap_error "decode audit entry recorded_at" (parse_time (row_recorded_at r)) ;;
  try detail := wrap_error "decode audit entry detail" (unmarshal_detail (row_detail_json r)) ;;
  Ok (mkEntry (row_sequence r) t (row_action r) (row_actor r) detail (row_prev_hash r) (row_hash r)).
Definition ListAuditEntries : sql (list Entry) :=
  rows ← wrapping "list audit entries" (query "audit_entries" t_audit_entries);
  lift (decode_rows decode_entry rows).

(** ** Schedules *)

(** A schedule that is there keeps its [created_at]. *)
Definition upsert_schedule (id : string) (r : ScheduleRow) (m : gmap string ScheduleRow) : gmap string ScheduleRow :=
  <[id := match m !! id with
          | Some old => mkScheduleRow (row_job_type r) (row_interval_seconds r) (row_next_run_at r) (row_created_at old) (row_updated_at r)
          | None => r end]> m.

Definition UpsertSchedule (sched : Schedule) : sql unit :=
  wrapping "upsert schedule" (exec "schedules" (set_schedules (upsert_schedule (Schedule_CollectorID sched)
    (mkScheduleRow (Schedule_JobType sched) (Schedule_IntervalSeconds sched) (RFC3339Nano (Schedule_NextRunAt sched))
       (RFC3339Nano (Schedule_CreatedAt sched)) (RFC3339Nano (Schedule_UpdatedAt sched)))))).

Definition scanSchedule (kr : string * ScheduleRow) : go Schedule :=
  let r := kr.2 in
  try next := wrap_error "decode next_run_at" (parse_time (row_next_run_at r)) ;;
  try created := wrap_error "decode created_at" (parse_time (row_created_at r)) ;;
  try updated := wrap_error "decode updated_at" (parse_time (row_updated_at r)) ;;
  Ok (mkSchedule kr.1 (row_job_type r) (row_interval_seconds r) next created updated).

Definition ListSchedules : sql (list Schedule) :=
  rows ← wrapping "list schedules" (query "schedules" (λ db, ordered str_lt (t_schedules db)));
  lift (wrap_error "scan schedule" (decode_rows scanSchedule rows)).

Definition GetSchedule (collectorID : string) : sql Schedule :=
  row ← wrapping "get schedule" (query "schedules" (λ db, t_schedules db !! collectorID));
  match row with
  | None => lift (Err ErrNotFound)
  | Some r => lift (wrap_error "get schedule" (scanSchedule (collectorID, r)))
  end.

Definition DeleteSchedule (collectorID : string) : sql unit :=
  wrapping "delete schedule" (exec "schedules" (set_schedules (delete collectorID))).

(** ** Certificate revocations *)

(** [ON CONFLICT DO NOTHING], and the number of rows it affected. *)
Definition insert_revocation (serial : string) (r : RevocationRow) (db : Database) : go (Database * Z) :=
  Ok (match t_revocations db !! serial with
      | Some _ => (db, 0)
      | None => (set_revocations (insert serial r) db, 1)
      end).

Definition RevokeCertificate (r : CertificateRevocation) : sql bool :=
  rows ← wrapping "revoke certificate" (statement "certificate_revocations"
           (insert_revocation (Revocation_SerialNumber r) (mkRevocationRow (Revocation_Reason r) (RFC3339Nano (Revocation_RevokedAt r)))));
  mret (rows =? 1).

Definition decode_revocation (kr : string * RevocationRow) : go CertificateRevocation :=
  try at_ := wrap_error "decode certificate revocation revoked_at" (parse_time (row_revoked_at kr.2)) ;;
  Ok (mkCertificateRevocation kr.1 (row_reason kr.2) at_).
Definition ListCertificateRevocations : sql (list CertificateRevocation) :=
  rows ← wrapping "list certificate revocations" (query "certificate_revocations" (λ db, ordered str_lt (t_revocations db)));
  lift (decode_rows decode_revocation rows).

Definition IsCertificateRevoked (serial : string) : sql bool :=
  wrapping "check certificate revocation" (query "certificate_revocations" (λ db, bool_decide (is_Some (t_revocations db !! serial)))).

(** ** Migrations *)

Definition schemaVersion : Z := 5.

(** The tables a migration creates, empty. *)
Definition migrations : gmap Z (list string * (Database → Database)) :=
  list_to_map [(1, (["observations"; "assets"; "relationships"],
                     λ db, set_relationships (λ _, ∅) (set_assets (λ _, ∅) (set_observations (λ _, []) db))));
               (2, (["audit_entries"], set_audit (λ _, [])));
               (3, (["schedules"], set_schedules (λ _, ∅)));
               (4, (["certificate_revocations"], set_revocations (λ _, ∅)));
               (5, (["asset_claims"], set_claims (λ _, ∅)))]%string.

Definition create_tables (names : list string) (create : Database → Database) (db : Database) : go (Database * unit) :=
  if decide (Exists (λ name, name ∈ tables db) names) then Err "table already exists"%string
  else Ok (set_schema (user_version db) (tables db ∪ list_to_set names) (create db), tt).

Definition backfillAssetClaims : sql unit :=
  rows ← wrapping "list observations" (query "observations" t_observations);
  envelopes ← lift (decode_rows decode_observation rows);
  for_each (λ e, for_each (λ a,
    assetJSON ← wrapping "marshal asset" (lift (marshal_asset a));
    saveAssetClaim e (StableAssetID a) assetJSON) (Envelope_Assets e)) envelopes.

Definition migration_step (v : Z) : sql unit :=
  match migrations !! v with
  | None => lift (Err "schema migration to version %d is missing"%string)
  | Some (names, create) =>
    _ ← wrapping "apply schema migration to version %d" (call_db (create_tables names create));
    _ ← (if v =? 5 then wrapping "backfill asset claims for schema version %d" backfillAssetClaims else mret tt);
    wrapping "set schema version to %d" (call_db (λ db, Ok (set_schema v (tables db) db, tt)))
  end.

(** The versions from [v] on, [n] of them. *)
Fixpoint migrate_versions (n : nat) (v : Z) : sql unit :=
  match n with O => mret tt | S n => _ ← migration_step v; migrate_versions n (v + 1) end.

Definition migrate : sql unit :=
  version ← wrapping "read schema version" (call_db (λ db, Ok (db, user_version db)));
  if schemaVersion <? version
  then lift (Err "database schema version %d is newer than this binary supports (%d); upgrade Topo before opening this database"%string)
  else if version =? schemaVersion then mret tt
  else transaction "begin schema migration from version %d" "commit schema migration to version %d"
         (migrate_versions (Z.to_nat (schemaVersion - version)) (version + 1)).
End store.
