(* ===== verification/SqliteRefine.v ===== *)
(** * The durable repository answers like the in-memory one

    [represents db m]: the tables of [db] hold what [Memory] holds in [m].  Every method of
    the durable store takes represented states to represented states, whatever the database
    answers and wherever the process dies, and every query answers as [Memory] does. *)

From S2P Require Import Prelude Effects Bytes Time TimeText Model AuditLog Claims Memory Repository Sqlite.

Section refinement.
Context `{C : StoreCodec} `{!StoreCodecLaws C}.
(** The schema version the database is at: a migration writes claims before it sets it. *)
Context (version : Z).

(** ** Rows and values *)

Definition observation_row_ok (r : ObservationRow) (e : ObservationEnvelope) : Prop :=
  row_observation_id r = Envelope_ObservationID e ∧ unmarshal_envelope (row_envelope_json r) = Ok e.

Record claim_row_ok (key : string * string) (r : ClaimRow) (c : AssetClaim) : Prop := {
  claim_key : claim_pair c = key;
  claim_json : unmarshal_asset (asset_json r) = Ok (Claim_Asset c);
  claim_source : mkAssetSource (site_id r) (collector_id r) (plugin r) (first_observation_id r) (last_observation_id r)
    (Source_FirstObservedAt (Claim_Source c)) (Source_LastObservedAt (Claim_Source c)) 0 false = Claim_Source c;
  claim_first : first_observed_at r = RFC3339Nano (Source_FirstObservedAt (Claim_Source c));
  claim_last : last_observed_at r = RFC3339Nano (Source_LastObservedAt (Claim_Source c));
  claim_times : writable (Source_FirstObservedAt (Claim_Source c)) ∧ writable (Source_LastObservedAt (Claim_Source c));
}.

Definition relationship_row_ok (key : string) (r : RelationshipRow) (x : ResolvedRelationship) : Prop :=
  unmarshal_relationship (relationship_json r) = Ok (ResolvedRel_Relationship x) ∧
  x = mkResolvedRelationship key (ResolvedRel_Relationship x) (rel_first_observation_id r) (rel_last_observation_id r).

Definition entry_row_ok (r : AuditRow) (e : Entry) : Prop :=
  ∃ json, r = audit_row json e ∧ unmarshal_detail json = Ok (Entry_Detail e) ∧ writable (Entry_RecordedAt e).

Definition schedule_row_ok (key : string) (r : ScheduleRow) (s : Schedule) : Prop :=
  Schedule_CollectorID s = key ∧
  r = mkScheduleRow (Schedule_JobType s) (Schedule_IntervalSeconds s) (RFC3339Nano (Schedule_NextRunAt s))
        (RFC3339Nano (Schedule_CreatedAt s)) (RFC3339Nano (Schedule_UpdatedAt s)) ∧
  writable (Schedule_NextRunAt s) ∧ writable (Schedule_CreatedAt s) ∧ writable (Schedule_UpdatedAt s).

Definition revocation_row_ok (key : string) (r : RevocationRow) (x : CertificateRevocation) : Prop :=
  Revocation_SerialNumber x = key ∧ r = mkRevocationRow (Revocation_Reason x) (RFC3339Nano (Revocation_RevokedAt x)) ∧
  writable (Revocation_RevokedAt x).

(** ** The relation *)

Definition all_tables : gset string :=
  list_to_set ["observations"; "assets"; "relationships"; "audit_entries"; "schedules"; "certificate_revocations"; "asset_claims"]%string.
Definition schema_ok (db : Database) : Prop := user_version db = version ∧ all_tables ⊆ tables db.

Record represents (db : Database) (m : Memory) : Prop := {
  rep_schema : schema_ok db;
  rep_index : index_ok m;
  rep_observations : Forall2 observation_row_ok (t_observations db) (observations m);
  rep_claims k : option_Forall2 (claim_row_ok k) (t_asset_claims db !! k) (claim_at m k.1 k.2);
  rep_relationships k : option_Forall2 (relationship_row_ok k) (t_relationships db !! k) (relationships m !! k);
  rep_audit : Forall2 entry_row_ok (t_audit_entries db) (auditEntries m);
  rep_numbered i e : auditEntries m !! i = Some e → Entry_Sequence e = Z.of_nat i + 1;
  rep_schedules k : option_Forall2 (schedule_row_ok k) (t_schedules db !! k) (schedules m !! k);
  rep_revocations k : option_Forall2 (revocation_row_ok k) (t_revocations db !! k) (revocations m !! k);
}.

Lemma represents_table db m name : represents db m → name ∈ all_tables → name ∈ tables db.
Proof. intros [[_ Hs]] Hn. set_solver. Qed.

(** ** Rules for calls to the database *)

Lemma triple_call_db {A} P (f : Database → go (Database * A)) Q E :
  (∀ db, P db → E db ∧ ∀ db' a, f db = Ok (db', a) → Q a db' ∧ E db') → triple P (call_db f) Q E.
Proof.
  intros Hf. apply triple_input. intros i db Hp. destruct (Hf db Hp) as [He Hok].
  destruct (fault_ending i), (f db) as [[db' a]|e] eqn:Hr; try done; try (by apply (Hok db' a));
    (destruct (fault_applied i); [by apply (Hok db' a)|done]).
Qed.

Lemma triple_statement {A} P table (f : Database → go (Database * A)) Q E :
  (∀ db, P db → E db ∧ ∀ db' a, f db = Ok (db', a) → Q a db' ∧ E db') → triple P (statement table f) Q E.
Proof.
  intros Hf. apply triple_call_db. intros db Hp. destruct (Hf db Hp) as [He Hok]. split; [done|].
  intros db' a. case_bool_decide; [apply Hok|done].
Qed.

(** A transaction: all of its body, or nothing. *)
Lemma triple_transaction {A} P begin commit (body : sql A) Q E :
  triple P body Q (λ _, True) → (∀ db, P db → E db) → (∀ a db, Q a db → E db) → triple P (transaction begin commit body) Q E.
Proof.
  intros Hb HP HQ. unfold transaction. eapply triple_bind with (Q := λ _, P).
  { apply triple_wrapping, triple_call_db. intros db Hp. split; [auto|]. intros ?? [= <- <-]. auto. }
  intros u xs db Hp. specialize (Hb xs db Hp). unfold committing. destruct (body xs db) as [[[a|e|] xs'] db']; [|by apply HP..].
  assert (triple (λ w, w = db) (wrapping commit (call_db (λ _, Ok (db', a)))) Q E) as Hc.
  { apply triple_wrapping, triple_call_db. intros ? ->. split; [by apply HP|]. intros ?? [= <- <-]. eauto. }
  exact (Hc xs' db eq_refl).
Qed.

Lemma runs_statement {A} table (f : Database → go (Database * A)) db a db' :
  table ∈ tables db → f db = Ok (db', a) → runs (statement table f) db a db'.
Proof. intros Ht Hf. apply runs_input. simpl. by rewrite bool_decide_eq_true_2, Hf. Qed.
Lemma runs_transaction {A} begin commit (body : sql A) db a db' : runs body db a db' → runs (transaction begin commit body) db a db'.
Proof. intros Hr. eapply runs_bind; [done|]. unfold runs, committing in *. by rewrite Hr. Qed.

(** [does P p Q E]: [p] ends in [Q] or in [E], and undisturbed it does return. *)
Definition does {A} (P : Database → Prop) (p : sql A) (Q : A → Database → Prop) (E : Database → Prop) : Prop :=
  triple P p Q E ∧ ∀ db, P db → ∃ a db', runs p db a db'.

Lemma does_returns {A} P (p : sql A) Q E db : does P p Q E → P db → ∃ a db', runs p db a db' ∧ Q a db'.
Proof.
  intros [Hp Hr] Hdb. destruct (Hr db Hdb) as (a & db' & Hrun). exists a, db'. split; [done|].
  specialize (Hp [] db Hdb). by rewrite Hrun in Hp.
Qed.

Lemma does_ret {A} P (a : A) (Q : A → Database → Prop) E : (∀ db, P db → Q a db) → does P (mret a) Q E.
Proof. intros HQ. split; [by apply triple_ret|]. intros db _. exists a, db. apply runs_ret. Qed.

Lemma does_bind {A B} P (p : sql A) (f : A → sql B) Q R E : does P p Q E → (∀ a, does (Q a) (f a) R E) → does P (p ≫= f) R E.
Proof.
  intros Hp Hf. split; [eapply triple_bind; [apply Hp|]; intros a; apply Hf|].
  intros db Hdb. destruct (does_returns _ _ _ _ _ Hp Hdb) as (a & db1 & Hr & Hq). destruct (Hf a) as [_ Ht].
  destruct (Ht db1 Hq) as (b & db2 & Hr2). exists b, db2. by eapply runs_bind.
Qed.

Lemma does_pure {A} P (X : Prop) (p : sql A) Q E : (X → does P p Q E) → does (λ db, P db ∧ X) p Q E.
Proof. intros H. split; [apply triple_pure; intros Hx; by apply H|]. intros db [Hp Hx]. by apply (H Hx). Qed.

Lemma does_wrapping {A} P text (p : sql A) Q E : does P p Q E → does P (wrapping text p) Q E.
Proof.
  intros [Hp Hr]. split; [by apply triple_wrapping|]. intros db Hdb. destruct (Hr db Hdb) as (a & db' & Hrun).
  exists a, db'. by apply runs_wrapping.
Qed.

Lemma does_call_db {A} P (f : Database → go (Database * A)) Q E :
  (∀ db, P db → E db ∧ ∃ db' a, f db = Ok (db', a) ∧ Q a db' ∧ E db') → does P (call_db f) Q E.
Proof.
  intros Hf. split.
  - apply triple_call_db. intros db Hp. destruct (Hf db Hp) as (He & db1 & a1 & Hok & HQ). split; [done|]. intros db' a. rewrite Hok. by intros [= <- <-].
  - intros db Hp. destruct (Hf db Hp) as (_ & db1 & a1 & Hok & _). exists a1, db1. apply runs_input. simpl. by rewrite Hok.
Qed.

Lemma does_statement {A} P table (f : Database → go (Database * A)) Q E :
  (∀ db, P db → table ∈ tables db ∧ E db ∧ ∃ db' a, f db = Ok (db', a) ∧ Q a db' ∧ E db') → does P (statement table f) Q E.
Proof. intros Hf. apply does_call_db. intros db Hp. destruct (Hf db Hp) as [Ht Hr]. by rewrite bool_decide_eq_true_2. Qed.

Lemma does_exec P table f (Q : Database → Prop) E :
  (∀ db, P db → table ∈ tables db ∧ E db ∧ Q (f db) ∧ E (f db)) → does P (exec table f) (λ _, Q) E.
Proof. intros Hf. apply does_statement. intros db Hp. destruct (Hf db Hp) as (Ht & He & HQ & He'). split_and!; [done..|]. by exists (f db), tt. Qed.

Lemma does_query {A} P table (f : Database → A) Q E :
  (∀ db, P db → table ∈ tables db ∧ E db ∧ Q (f db) db) → does P (query table f) Q E.
Proof. intros Hf. apply does_statement. intros db Hp. destruct (Hf db Hp) as (Ht & He & HQ). split_and!; [done..|]. by exists db, (f db). Qed.

Lemma does_transaction {A} P begin commit (body : sql A) Q E :
  does P body Q (λ _, True) → (∀ db, P db → E db) → (∀ a db, Q a db → E db) → does P (transaction begin commit body) Q E.
Proof.
  intros Hb HP HQ. split; [by apply triple_transaction; [apply Hb|..]|]. intros db Hdb. destruct (does_returns _ _ _ _ _ Hb Hdb) as (a & db' & Hr & Hq).
  exists a, db'. by apply runs_transaction.
Qed.

Lemma does_for_each {A X} (f : A → sql unit) (P : X → Database → Prop) (step : X → A → X) l x E :
  (∀ a x, a ∈ l → does (P x) (f a) (λ _, P (step x a)) E) → does (P x) (for_each f l) (λ _, P (foldl step x l)) E.
Proof.
  revert x. induction l as [|a l IH]; intros x Hf; [by apply does_ret|]. simpl.
  eapply does_bind; [apply Hf; left|]. intros u. apply IH. intros b y Hb. apply Hf. by right.
Qed.

(** ** The steps of [Memory.SaveObservation] *)

Definition with_envelope (e : ObservationEnvelope) (m : Memory) : Memory :=
  let '(obs, index) := save_envelope e (observations m) (observationIndex m) in
  mkMemory obs index (assetClaims m) (relationships m) (auditEntries m) (schedules m) (revocations m).
Definition with_asset (e : ObservationEnvelope) (m : Memory) (a : Asset) : Memory :=
  mkMemory (observations m) (observationIndex m) (save_asset e (assetClaims m) a) (relationships m) (auditEntries m)
    (schedules m) (revocations m).
Definition with_relationship (e : ObservationEnvelope) (m : Memory) (r : Relationship) : Memory :=
  mkMemory (observations m) (observationIndex m) (assetClaims m) (save_relationship e (relationships m) r) (auditEntries m)
    (schedules m) (revocations m).

Lemma save_in_steps e m :
  Memory.SaveObservation e m =
  foldl (with_relationship e) (foldl (with_asset e) (with_envelope e m) (Envelope_Assets e)) (Envelope_Relationships e).
Proof.
  unfold Memory.SaveObservation, with_envelope. destruct (save_envelope _ _ _) as [obs index].
  assert (∀ l m, foldl (with_asset e) m l = mkMemory (observations m) (observationIndex m) (foldl (save_asset e) (assetClaims m) l)
    (relationships m) (auditEntries m) (schedules m) (revocations m)) as Ha.
  { intros l. induction l as [|a l IH]; intros m'; [by destruct m'|]. simpl. by rewrite IH. }
  assert (∀ l m, foldl (with_relationship e) m l = mkMemory (observations m) (observationIndex m) (assetClaims m)
    (foldl (save_relationship e) (relationships m) l) (auditEntries m) (schedules m) (revocations m)) as Hr.
  { intros l. induction l as [|a l IH]; intros m'; [by destruct m'|]. simpl. by rewrite IH. }
  by rewrite Ha, Hr.
Qed.

Lemma upsert_rows_ok r e rows l : observation_row_ok r e → Forall2 observation_row_ok rows l →
  Forall2 observation_row_ok (upsert_row r rows) (upsert_observation e l).
Proof.
  intros Hr. induction 1 as [|x y rows l Hx Hl IH]; [constructor; [done|constructor]|]. simpl. destruct Hr as [Hid Hjson], Hx as [Hxid Hxjson].
  rewrite Hid, Hxid. destruct (String.eqb_spec (Envelope_ObservationID y) (Envelope_ObservationID e)) as [Heq|]; by constructor.
Qed.

Lemma with_envelope_observations e m : index_ok m → index_ok (with_envelope e m) ∧
  observations (with_envelope e m) = upsert_observation e (observations m).
Proof.
  intros Hok. unfold index_ok, with_envelope, save_envelope. destruct (observationIndex m !! _) as [idx|] eqn:E; simpl.
  - split; [by apply indexed_replace|]. symmetry. apply upsert_present; [by eapply indexed_nodup|]. by apply Hok.
  - split; [by apply indexed_append|]. symmetry. apply upsert_absent. by eapply indexed_absent.
Qed.

Lemma with_envelope_rest e m : assetClaims (with_envelope e m) = assetClaims m ∧ relationships (with_envelope e m) = relationships m ∧
  auditEntries (with_envelope e m) = auditEntries m ∧ schedules (with_envelope e m) = schedules m ∧ revocations (with_envelope e m) = revocations m.
Proof. unfold with_envelope. by destruct (save_envelope _ _ _). Qed.

Lemma represents_envelope e r db m : observation_row_ok r e → represents db m →
  represents (set_observations (upsert_row r) db) (with_envelope e m).
Proof.
  intros Hr [Hs Hi Ho Hc Hrel Ha Hn Hsch Hrev]. destruct (with_envelope_observations e m Hi) as [Hi' Ho'].
  destruct (with_envelope_rest e m) as (E1 & E2 & E3 & E4 & E5).
  split; rewrite ?E2, ?E3, ?E4, ?E5; try done.
  - rewrite Ho'. by apply upsert_rows_ok.
  - intros k. unfold claim_at. rewrite E1. apply Hc.
Qed.

(** One row of a table with a key changes, with the value under that key. *)
Lemma rows_insert {K R A} `{Countable K} (ok : K → R → A → Prop) (rows : gmap K R) (vals vals' : K → option A) k r a :
  (∀ k, option_Forall2 (ok k) (rows !! k) (vals k)) → ok k r a → vals' k = Some a → (∀ k', k' ≠ k → vals' k' = vals k') →
  ∀ k', option_Forall2 (ok k') (<[k := r]> rows !! k') (vals' k').
Proof.
  intros Hrows Hok Hk Hne k'. destruct (decide (k' = k)) as [->|Hk'].
  - rewrite lookup_insert_eq, Hk. by constructor.
  - rewrite lookup_insert_ne, Hne by done. apply Hrows.
Qed.

Lemma new_claim_ok e a json : unmarshal_asset json = Ok a → writable (Envelope_ObservedAt e) →
  claim_row_ok (StableAssetID a, envelope_key e)
    (mkClaimRow json (Envelope_SiteID e) (Envelope_CollectorID e) (Envelope_Plugin e) (Envelope_ObservationID e)
       (Envelope_ObservationID e) (RFC3339Nano (Envelope_ObservedAt e)) (RFC3339Nano (Envelope_ObservedAt e)))
    (update_claim e a None).
Proof. intros Hj Ht. by split. Qed.

Lemma advanced_claim_ok e a json r c : unmarshal_asset json = Ok a → writable (Envelope_ObservedAt e) →
  claim_row_ok (StableAssetID a, envelope_key e) r c →
  claim_row_ok (StableAssetID a, envelope_key e)
    (advance_claim e json r (Source_FirstObservedAt (Claim_Source c)) (Source_LastObservedAt (Claim_Source c))) (update_claim e a (Some c)).
Proof.
  intros Hj Ht [Hk Hjson Hsrc Hf Hl [Hwf Hwl]]. destruct c as [id x [s1 s2 s3 s4 s5 s6 s7 s8 s9]]. simpl in *.
  injection Hsrc as <- <- <- <- <- <- <-.
  unfold update_claim, advance_claim, claim_pair, key_of, source_key in *. simpl in *.
  destruct (Before (Envelope_ObservedAt e) s6) eqn:E1, (Before (Envelope_ObservedAt e) s7) eqn:E2;
    repeat first [rewrite E1 | rewrite E2 | progress cbn -[Before RFC3339Nano writable]]; by split.
Qed.

Lemma represents_asset e a r db m :
  claim_row_ok (StableAssetID a, envelope_key e) r (update_claim e a (claim_at m (StableAssetID a) (envelope_key e))) →
  represents db m → represents (set_claims (insert (StableAssetID a, envelope_key e) r) db) (with_asset e m a).
Proof.
  intros Hr [Hs Hi Ho Hc Hrel Ha Hn Hsch Hrev]. split; try done.
  apply (rows_insert claim_row_ok _ (λ k, claim_at m k.1 k.2) _ _ _ _ Hc Hr).
  - unfold claim_at, with_asset. cbn [assetClaims fst snd]. rewrite claim_at_save_asset. unfold report_about. cbn [fst snd]. by rewrite !String.eqb_refl.
  - intros [id key] Hne. unfold claim_at, with_asset. cbn [assetClaims fst snd]. rewrite claim_at_save_asset. unfold report_about. cbn [fst snd].
    destruct (String.eqb_spec (StableAssetID a) id), (String.eqb_spec (envelope_key e) key); simpl; congruence.
Qed.

Lemma represents_assets_table f db m : represents db m → represents (set_assets f db) m.
Proof. by intros []. Qed.

Lemma represents_relationship e x json db m : unmarshal_relationship json = Ok x → represents db m →
  represents (set_relationships (upsert_relationship (StableRelationshipID x)
    (mkRelationshipRow json (Envelope_ObservationID e) (Envelope_ObservationID e))) db) (with_relationship e m x).
Proof.
  intros Hj [Hs Hi Ho Hc Hrel Ha Hn Hsch Hrev]. split; try done. pose proof (Hrel (StableRelationshipID x)) as Hold.
  unfold with_relationship, save_relationship, upsert_relationship. cbn [relationships t_relationships set_relationships].
  eapply (rows_insert relationship_row_ok); [exact Hrel| |by rewrite lookup_insert_eq|by intros k' ?; rewrite lookup_insert_ne].
  destruct Hold as [r old [_ Hold]|]; [rewrite Hold|]; by split.
Qed.

Lemma represents_schedule s db m : writable (Schedule_NextRunAt s) → writable (Schedule_CreatedAt s) → writable (Schedule_UpdatedAt s) →
  represents db m →
  represents (set_schedules (upsert_schedule (Schedule_CollectorID s)
    (mkScheduleRow (Schedule_JobType s) (Schedule_IntervalSeconds s) (RFC3339Nano (Schedule_NextRunAt s))
       (RFC3339Nano (Schedule_CreatedAt s)) (RFC3339Nano (Schedule_UpdatedAt s)))) db)
    (Memory.UpsertSchedule (match schedules m !! Schedule_CollectorID s with
       | Some old => mkSchedule (Schedule_CollectorID s) (Schedule_JobType s) (Schedule_IntervalSeconds s) (Schedule_NextRunAt s)
                       (Schedule_CreatedAt old) (Schedule_UpdatedAt s)
       | None => s end) m).
Proof.
  intros H1 H2 H3 [Hs Hi Ho Hc Hrel Ha Hn Hsch Hrev]. split; try done. pose proof (Hsch (Schedule_CollectorID s)) as Hold.
  unfold Memory.UpsertSchedule, with_schedules, upsert_schedule. cbn [schedules t_schedules set_schedules].
  assert (∀ old, Schedule_CollectorID (match schedules m !! Schedule_CollectorID s with
       | Some old => mkSchedule (Schedule_CollectorID s) (Schedule_JobType s) (Schedule_IntervalSeconds s) (Schedule_NextRunAt s)
                       (Schedule_CreatedAt old) (Schedule_UpdatedAt s)
       | None => s end) = old → old = Schedule_CollectorID s) as Hid by (intros old <-; by destruct (schedules m !! _)).
  rewrite (Hid _ eq_refl).
  eapply (rows_insert schedule_row_ok); [exact Hsch| |by rewrite lookup_insert_eq|by intros k' ?; rewrite lookup_insert_ne].
  destruct Hold as [r old (_ & -> & _ & Hcr & _)|]; by split_and!.
Qed.

Lemma represents_delete c db m : represents db m → represents (set_schedules (delete c) db) (Memory.DeleteSchedule c m).
Proof.
  intros [Hs Hi Ho Hc Hrel Ha Hn Hsch Hrev]. split; try done. intros k. cbn [t_schedules set_schedules Memory.DeleteSchedule with_schedules schedules].
  destruct (decide (k = c)) as [->|]; [rewrite !lookup_delete_eq; constructor|]. rewrite !lookup_delete_ne by done. apply Hsch.
Qed.

Lemma represents_revocation x db m : writable (Revocation_RevokedAt x) → represents db m →
  ∃ db' n, insert_revocation (Revocation_SerialNumber x) (mkRevocationRow (Revocation_Reason x) (RFC3339Nano (Revocation_RevokedAt x))) db = Ok (db', n) ∧
    represents db' (Memory.RevokeCertificate x m).1 ∧ (n =? 1) = (Memory.RevokeCertificate x m).2.
Proof.
  intros Hw Hrep. pose proof Hrep as [Hs Hi Ho Hc Hrel Ha Hn Hsch Hrev]. pose proof (Hrev (Revocation_SerialNumber x)) as Hold.
  unfold insert_revocation, Memory.RevokeCertificate. destruct Hold as [r old Hold|].
  - eexists _, _. split; [done|]. by split.
  - eexists _, _. split; [done|]. split; [|done]. split; try done. cbn [t_revocations set_revocations fst with_revocations revocations].
    eapply (rows_insert revocation_row_ok); [exact Hrev| |by rewrite lookup_insert_eq|by intros k' ?; rewrite lookup_insert_ne]. by split_and!.
Qed.

(** *** The audit log *)

Lemma insert_last r rows : Forall (λ x, row_sequence x < row_sequence r) rows → insert_by_sequence r rows = rows ++ [r].
Proof.
  induction 1 as [|x rows Hx _ IH]; [done|]. simpl. destruct (Z.ltb_spec (row_sequence r) (row_sequence x)); [lia|]. by rewrite IH.
Qed.

Lemma audit_sequences db m i r : represents db m → t_audit_entries db !! i = Some r → row_sequence r = Z.of_nat i + 1.
Proof.
  intros Hrep Hr. destruct (Forall2_lookup_l _ _ _ _ _ (rep_audit _ _ Hrep) Hr) as (e & He & json & -> & _).
  by apply (rep_numbered _ _ Hrep).
Qed.

Lemma last_audit_row db m : represents db m →
  (match last (t_audit_entries db) with Some r => (row_sequence r, row_hash r) | None => (0, ""%string) end) =
  (llen (auditEntries m), match last (auditEntries m) with Some e => Entry_Hash e | None => ""%string end).
Proof.
  intros Hrep. pose proof (rep_audit _ _ Hrep) as Ha. pose proof (audit_sequences db m) as Hn.
  destruct (last (t_audit_entries db)) as [r|] eqn:Hl.
  - rewrite last_lookup in Hl. specialize (Hn _ _ Hrep Hl). destruct (Forall2_lookup_l _ _ _ _ _ Ha Hl) as (e & He & json & -> & _).
    pose proof (Forall2_length _ _ _ Ha) as Hlen. rewrite Hlen, <-last_lookup in He. rewrite He, Hn, Hlen. simpl. f_equal.
    unfold llen. rewrite last_lookup in He. apply lookup_lt_Some in He. lia.
  - apply last_None in Hl. rewrite Hl in Ha. by apply Forall2_nil_inv_l in Ha as ->.
Qed.

Lemma represents_audit ev now json db m db' :
  unmarshal_detail json = Ok (Event_Detail ev) → writable now → represents db m →
  let entry := (Memory.AppendAuditEvent now ev m).2 in
  insert_audit (audit_row json entry) db = Ok (db', tt) → represents db' (Memory.AppendAuditEvent now ev m).1.
Proof.
  intros Hj Hw Hrep entry. unfold insert_audit. destruct (existsb _ _); [done|]. destruct (existsb _ _); [done|]. intros [= <-].
  assert (Entry_Sequence entry = llen (auditEntries m) + 1) as Hseq by done.
  pose proof Hrep as [Hs Hi Ho Hc Hrel Ha Hn Hsch Hrev]. split; try done; cbn [auditEntries fst Memory.AppendAuditEvent with_audit t_audit_entries set_audit].
  - rewrite insert_last.
    + apply Forall2_app; [done|]. constructor; [|constructor]. exists json. by split_and!.
    + apply Forall_lookup. intros i r Hr. rewrite (audit_sequences _ _ _ _ Hrep Hr). apply lookup_lt_Some in Hr.
      rewrite (Forall2_length _ _ _ Ha) in Hr. cbn [row_sequence audit_row]. rewrite Hseq. unfold llen. lia.
  - intros i e. rewrite lookup_app_Some. intros [He|[Hlen He]]; [by apply Hn|].
    apply list_lookup_singleton_Some in He as [Hi0 <-]. change (Entry_Sequence entry = Z.of_nat i + 1). rewrite Hseq. unfold llen. lia.
Qed.

(** ** The methods *)

(** A table of the schema *)
Ltac table := eapply represents_table; [eassumption|set_solver].


Definition holds (m : Memory) (db : Database) : Prop := represents db m.
Definition anything (db : Database) : Prop := True.

Lemma does_marshal {A B} P text (marshal : A → go string) (unmarshal : string → go A) (a : A) (k : string → sql B) Q (E : Database → Prop) :
  reads_back marshal unmarshal a → (∀ s, unmarshal s = Ok a → does P (k s) Q E) → does P (wrapping text (lift (marshal a)) ≫= k) Q E.
Proof.
  intros (s & Hs & Hu) Hk. rewrite Hs. exact (Hk s Hu).
Qed.

Lemma does_time {B} P text t (k : time → sql B) Q (E : Database → Prop) :
  writable t → does P (k t) Q E → does P (decode_time text (RFC3339Nano t) ≫= k) Q E.
Proof. intros Ht Hk. unfold decode_time. rewrite parse_time_format by done. exact Hk. Qed.

Lemma saveAssetClaim_spec e a json m : unmarshal_asset json = Ok a → writable (Envelope_ObservedAt e) →
  does (holds m) (saveAssetClaim e (StableAssetID a) json) (λ _, holds (with_asset e m a)) anything.
Proof.
  intros Hj Hw. unfold saveAssetClaim. change (AssetSourceKey _ _ _) with (envelope_key e).
  eapply does_bind with (Q := λ row db, holds m db ∧
    option_Forall2 (claim_row_ok (StableAssetID a, envelope_key e)) row (claim_at m (StableAssetID a) (envelope_key e))).
  { apply does_wrapping, does_query. intros db Hrep. split; [table|]. split; [done|]. split; [done|]. exact (rep_claims _ _ Hrep (StableAssetID a, envelope_key e)). }
  intros row. apply does_pure. intros Hold. destruct (claim_at m _ _) as [c|] eqn:Hc; inversion Hold as [r c' Hr|]; subst.
  - pose proof Hr as [_ _ _ -> -> [Hf Hl]]. apply does_time; [done|]. apply does_time; [done|].
    apply does_wrapping, does_exec. intros db Hrep. split_and!; [table|done| |done]. apply represents_asset; [|done].
    rewrite Hc. by apply advanced_claim_ok.
  - apply does_wrapping, does_exec. intros db Hrep. split_and!; [table|done| |done]. apply represents_asset; [|done].
    rewrite Hc. by apply new_claim_ok.
Qed.

Lemma save_asset_spec e a m : carried e → a ∈ Envelope_Assets e → writable (Envelope_ObservedAt e) →
  does (holds m) (save_asset_rows e a) (λ _, holds (with_asset e m a)) anything.
Proof.
  intros He Ha Hw. unfold save_asset_rows. eapply does_marshal; [by eapply asset_reads_back|]. intros json Hj.
  eapply does_bind with (Q := λ _, holds m); [|intros u; by apply saveAssetClaim_spec].
  apply does_wrapping, does_exec. intros db Hrep. split_and!; [table|done| |done]. by apply represents_assets_table.
Qed.

Lemma save_relationship_spec e r m : carried e → r ∈ Envelope_Relationships e →
  does (holds m) (save_relationship_row e r) (λ _, holds (with_relationship e m r)) anything.
Proof.
  intros He Hr. unfold save_relationship_row. eapply does_marshal; [by eapply relationship_reads_back|]. intros json Hj.
  apply does_wrapping, does_exec. intros db Hrep. split_and!; [table|done| |done]. by apply represents_relationship.
Qed.

(** Either what was there, or what there is after the operation. *)
Definition before_or_after (m m' : Memory) (db : Database) : Prop := represents db m ∨ represents db m'.

Lemma SaveObservation_spec received e m : carried e → writable (Envelope_ObservedAt e) →
  does (holds m) (SaveObservation received e) (λ _, holds (Memory.SaveObservation e m)) (before_or_after m (Memory.SaveObservation e m)).
Proof.
  intros He Hw. unfold SaveObservation. eapply does_marshal; [by apply envelope_reads_back|]. intros json Hj.
  apply does_transaction; [|by left|by right]. rewrite save_in_steps.
  eapply does_bind with (Q := λ _, holds (with_envelope e m)).
  { apply does_wrapping, does_exec. intros db Hrep. split_and!; [table|done| |done]. by apply represents_envelope. }
  intros u. eapply does_bind; [by apply (does_for_each _ holds (with_asset e)); intros; apply save_asset_spec|].
  intros v. by apply (does_for_each _ holds (with_relationship e)); intros; apply save_relationship_spec.
Qed.

Lemma AppendAuditEvent_spec now ev m : carried_detail (Event_Detail ev) → writable now →
  triple (holds m) (AppendAuditEvent now ev)
    (λ entry db, represents db (Memory.AppendAuditEvent now ev m).1 ∧ entry = (Memory.AppendAuditEvent now ev m).2)
    (before_or_after m (Memory.AppendAuditEvent now ev m).1).
Proof.
  intros He Hw. unfold AppendAuditEvent. destruct (detail_reads_back _ He) as (json & -> & Hj).
  eapply triple_bind with (Q := λ s db, holds m db ∧ s = json).
  { apply triple_wrapping, triple_lift; [by intros db a [= <-]|by left]. }
  intros s. apply triple_pure. intros ->.
  apply triple_transaction; [|by left|by intros a db [? _]; right].
  eapply triple_bind with (Q := λ final db, holds m db ∧
    (match final with Some r => (row_sequence r, row_hash r) | None => (0, ""%string) end) =
    (llen (auditEntries m), match last (auditEntries m) with Some e => Entry_Hash e | None => ""%string end)).
  { apply triple_wrapping, triple_statement. intros db Hrep. split; [done|]. intros db' a [= <- <-]. split_and!; [done| |done]. by apply last_audit_row. }
  intros final. apply triple_pure. intros ->.
  eapply triple_bind with (Q := λ _ db, represents db (Memory.AppendAuditEvent now ev m).1); [|intros u; by apply triple_ret].
  apply triple_wrapping, triple_statement. intros db Hrep. split; [done|]. intros db' [] Hi. split; [|done].
  by eapply represents_audit.
Qed.

Lemma existsb_none {A} (f : A → bool) (l : list A) : (∀ x, x ∈ l → f x = false) → existsb f l = false.
Proof. intros Hf. destruct (existsb f l) eqn:E; [|done]. apply existsb_elem_of in E as (x & Hx & Ht). by rewrite Hf in Ht. Qed.

(** Undisturbed, an event is recorded unless its hash collides with a recorded one. *)
Lemma AppendAuditEvent_runs now ev db m : carried_detail (Event_Detail ev) → represents db m →
  let entry := (Memory.AppendAuditEvent now ev m).2 in
  Entry_Hash entry ∉ Entry_Hash <$> auditEntries m → ∃ db', runs (AppendAuditEvent now ev) db entry db'.
Proof.
  intros He Hrep entry Hnew. destruct (detail_reads_back _ He) as (json & Hm & Hj).
  assert (insert_audit (audit_row json entry) db = Ok (set_audit (insert_by_sequence (audit_row json entry)) db, tt)) as Hi.
  { pose proof (rep_audit _ _ Hrep) as Ha. unfold insert_audit. rewrite !existsb_none; [done|..]; intros r (i & Hr)%list_elem_of_lookup;
      destruct (Forall2_lookup_l _ _ _ _ _ Ha Hr) as (x & Hx & json' & -> & _); cbn [row_hash row_sequence audit_row].
    - apply String.eqb_neq. intros Heq. apply Hnew. apply list_elem_of_fmap. exists x. split; [done|]. by eapply list_elem_of_lookup_2.
    - apply Z.eqb_neq. rewrite (rep_numbered _ _ Hrep i x Hx). change (Entry_Sequence entry) with (llen (auditEntries m) + 1).
      apply lookup_lt_Some in Hx. unfold llen. lia. }
  eexists. unfold AppendAuditEvent. rewrite Hm. eapply runs_bind; [done|]. apply runs_transaction.
  eapply runs_bind; [apply runs_wrapping, runs_statement; [table|done]|]. cbv beta. rewrite (last_audit_row db m Hrep).
  eapply runs_bind; [apply runs_wrapping, runs_statement; [table|exact Hi]|]. apply runs_ret.
Qed.

Lemma UpsertSchedule_spec s m : writable (Schedule_NextRunAt s) → writable (Schedule_CreatedAt s) → writable (Schedule_UpdatedAt s) →
  let m' := Memory.UpsertSchedule (match schedules m !! Schedule_CollectorID s with
       | Some old => mkSchedule (Schedule_CollectorID s) (Schedule_JobType s) (Schedule_IntervalSeconds s) (Schedule_NextRunAt s)
                       (Schedule_CreatedAt old) (Schedule_UpdatedAt s)
       | None => s end) m in
  does (holds m) (UpsertSchedule s) (λ _, holds m') (before_or_after m m').
Proof.
  intros H1 H2 H3 m'. apply does_wrapping, does_exec. intros db Hrep.
  assert (holds m' (set_schedules _ db)) as Hh by (by apply represents_schedule). split_and!; [table|by left|exact Hh|right; exact Hh].
Qed.

Lemma DeleteSchedule_spec c m : does (holds m) (DeleteSchedule c) (λ _, holds (Memory.DeleteSchedule c m)) (before_or_after m (Memory.DeleteSchedule c m)).
Proof.
  apply does_wrapping, does_exec. intros db Hrep. pose proof (represents_delete c _ _ Hrep) as Hh. split_and!; [table|by left|exact Hh|right; exact Hh].
Qed.

Lemma RevokeCertificate_spec r m : writable (Revocation_RevokedAt r) →
  does (holds m) (RevokeCertificate r) (λ b db, represents db (Memory.RevokeCertificate r m).1 ∧ b = (Memory.RevokeCertificate r m).2)
    (before_or_after m (Memory.RevokeCertificate r m).1).
Proof.
  intros Hw. unfold RevokeCertificate.
  eapply does_bind with (Q := λ n db, represents db (Memory.RevokeCertificate r m).1 ∧ (n =? 1) = (Memory.RevokeCertificate r m).2);
    [|by intros n; apply does_ret].
  apply does_wrapping, does_statement. intros db Hrep. split; [table|]. split; [by left|].
  destruct (represents_revocation r db m Hw Hrep) as (db1 & n1 & Hi1 & Hr1 & Hn1). exists db1, n1. split_and!; [done..|by right].
Qed.
(** ** The queries *)

Lemma decode_rows_ok {R A} (decode : R → go A) rows l :
  Forall2 (λ r a, decode r = Ok a) rows l → decode_rows decode rows = Ok l.
Proof. induction 1 as [|r a rows l Hr _ IH]; [done|]. simpl. by rewrite Hr, IH. Qed.

Lemma sorted_fmap {B K} (h : B → K) (less : K → K → bool) l :
  StronglySorted (not_after (less_on h less)) l ↔ StronglySorted (not_after less) (h <$> l).
Proof. induction l as [|x l IH]; csimpl; [split; constructor|]. rewrite !StronglySorted_cons, IH, Forall_fmap. done. Qed.

(** Sorted rows with distinct keys decode to the values, sorted. *)
Lemma decode_sorted {K R A} `{Countable K} (less : K → K → bool) `{!StrictWeak less} (key : A → K) (less_a : A → A → bool) `{!StrictWeak less_a}
    (rows : gmap K R) (vals : list A) (decode : K * R → go A) :
  (∀ a b, less_a a b = less (key a) (key b)) → (∀ x y, less x y = false → less y x = false → x = y) → NoDup (key <$> vals) →
  (∀ k r, rows !! k = Some r → ∃ a, a ∈ vals ∧ decode (k, r) = Ok a ∧ key a = k) →
  (∀ a, a ∈ vals → is_Some (rows !! key a)) →
  decode_rows decode (ordered less rows) = Ok (sort_by less_a vals).
Proof.
  intros Hkey Hsep Hnd Hdec Hall. unfold ordered.
  assert (∃ l, Forall2 (λ kr a, decode kr = Ok a ∧ key a = kr.1 ∧ a ∈ vals) (sort_by (less_on fst less) (map_to_list rows)) l) as [l Hl].
  { assert (∀ kr, kr ∈ sort_by (less_on fst less) (map_to_list rows) → rows !! kr.1 = Some kr.2) as Hin.
    { intros [k r] Hk. rewrite sort_by_perm in Hk. by apply elem_of_map_to_list in Hk. }
    induction (sort_by _ _) as [|[k r] krs IH]; [by exists []|]. destruct IH as [l Hl]; [intros kr Hk; apply Hin; by right|].
    destruct (Hdec k r) as (a & Ha & Hd & Hk); [apply (Hin (k, r)); left|]. exists (a :: l). by constructor. }
  rewrite (decode_rows_ok _ _ l) by (eapply Forall2_impl; [exact Hl|tauto]). f_equal.
  assert (key <$> l = (sort_by (less_on fst less) (map_to_list rows)).*1) as Hkeys.
  { clear -Hl. induction Hl as [|kr a krs l (_ & Hk & _) _ IH]; csimpl; [done|]. by f_equal. }
  assert (NoDup (key <$> l)) as Hndl.
  { rewrite Hkeys. rewrite sort_by_perm. apply NoDup_fst_map_to_list. }
  assert (l ≡ₚ vals) as Hp.
  { apply NoDup_Permutation; [by eapply NoDup_fmap_1|by eapply NoDup_fmap_1|]. intros a. split.
    - intros Hin. apply list_elem_of_lookup in Hin as [i Hi]. destruct (Forall2_lookup_r _ _ _ _ _ Hl Hi) as (kr & _ & _ & _ & ?). done.
    - intros Hin. destruct (Hall a Hin) as [r Hr].
      assert (key a ∈ key <$> l) as Hk.
      { rewrite Hkeys, sort_by_perm. apply list_elem_of_fmap. exists (key a, r). split; [done|]. by apply elem_of_map_to_list. }
      apply list_elem_of_fmap in Hk as (b & Hb & Hbl). apply list_elem_of_lookup in Hbl as [i Hi].
      destruct (Forall2_lookup_r _ _ _ _ _ Hl Hi) as (kr & _ & _ & _ & Hbv).
      rewrite (NoDup_fmap_inj_elem key vals a b Hnd Hin Hbv Hb). by eapply list_elem_of_lookup_2. }
  apply (StronglySorted_unique_strong (not_after less_a)).
  - intros x y Hx Hy H1 H2. eapply (NoDup_fmap_inj_elem key l); [done|done| |].
    + by rewrite Hp, <-(sort_by_perm less_a).
    + unfold not_after in *. rewrite Hkey in *. by apply Hsep.
  - assert (StronglySorted (not_after (less_on key less)) l) as Hs.
    { apply (sorted_fmap key). rewrite Hkeys. apply (sorted_fmap fst), sort_by_sorted, _. }
    clear -Hs Hkey. induction Hs as [|x l _ IH Hx]; constructor; [done|]. eapply Forall_impl; [exact Hx|].
    intros y. unfold not_after. by rewrite Hkey.
  - apply sort_by_sorted, _.
  - by rewrite sort_by_perm.
Qed.

(** Two tables with a key that match, value by value. *)
Lemma decode_values {R A} (ok : string → R → A → Prop) (rows : gmap string R) (vals : gmap string A) (key : A → string) decode :
  (∀ k, option_Forall2 (ok k) (rows !! k) (vals !! k)) → (∀ k r a, ok k r a → decode (k, r) = Ok a ∧ key a = k) →
  decode_rows decode (ordered str_lt rows) = Ok (values_by key vals).
Proof.
  intros Hrows Hdec. unfold values_by.
  assert (∀ k a, vals !! k = Some a → key a = k ∧ is_Some (rows !! k)) as Hkey.
  { intros k a Ha. specialize (Hrows k). rewrite Ha in Hrows. inversion Hrows as [r a' Hok|]; subst. split; [by eapply Hdec|by eexists]. }
  apply (decode_sorted str_lt key); [apply _|done|apply str_lt_sep| | |].
  - assert (key <$> (map_to_list vals).*2 = (map_to_list vals).*1) as ->; [|apply NoDup_fst_map_to_list].
    rewrite <-list_fmap_compose. apply list_fmap_ext. intros i [k a] Hi. simpl. apply (Hkey k a).
    apply elem_of_map_to_list. by eapply list_elem_of_lookup_2.
  - intros k r Hr. specialize (Hrows k). rewrite Hr in Hrows. inversion Hrows as [r' a Hok Hr' Ha|]; subst.
    destruct (Hdec _ _ _ Hok) as [Hd Hk]. exists a. split_and!; [|done|done]. apply list_elem_of_fmap. exists (k, a).
    split; [done|]. by apply elem_of_map_to_list.
  - intros a ([k a'] & -> & Hin%elem_of_map_to_list)%list_elem_of_fmap. destruct (Hkey _ _ Hin) as [<- Hs]. exact Hs.
Qed.

Lemma claim_less_pairs a b : claim_less a b = pair_less (claim_pair a) (claim_pair b).
Proof.
  unfold claim_less, pair_less, less_then, less_on, claim_pair, key_of. simpl.
  destruct (String.eqb_spec (Claim_AssetID a) (Claim_AssetID b)) as [->|Hne]; simpl; [by rewrite str_lt_irrefl|].
  destruct (str_lt (Claim_AssetID a) (Claim_AssetID b)) eqn:E1; [done|]. destruct (str_lt (Claim_AssetID b) _) eqn:E2; [done|].
  destruct Hne. by apply str_lt_sep.
Qed.
Lemma pair_less_sep x y : pair_less x y = false → pair_less y x = false → x = y.
Proof.
  destruct x as [a b], y as [c d]. unfold pair_less, less_then, less_on. simpl. intros H1 H2.
  destruct (str_lt a c) eqn:E1; [done|]. destruct (str_lt c a) eqn:E2; [done|]. f_equal; by apply str_lt_sep.
Qed.

(** [answers q db r]: [q] leaves the database alone; it answers [r], or fails because the
    database does. *)
Definition outcome {A} (r : go A) : completion A := match r with Ok a => Done a | Err e => Failed e end.
Definition answers {A} (q : sql A) (db : Database) (r : go A) : Prop :=
  q [] db = (outcome r, [], db) ∧
  ∀ xs, match q xs db with (Done a, _, db') => r = Ok a ∧ db' = db | (_, _, db') => db' = db end.

Lemma answers_query {A B} text table (f : Database → A) (g : A → sql B) db r :
  table ∈ tables db → answers (g (f db)) db r → answers (wrapping text (query table f) ≫= g) db r.
Proof.
  intros Ht [Hq Hf]. unfold answers, mbind, prog_bind, wrapping, query, statement, call_db, with_input. rewrite bool_decide_eq_true_2 by done. simpl.
  split; [done|]. intros [|i xs]; simpl; [apply Hf|]. destruct (fault_ending i); [apply Hf|by destruct (fault_applied i)..].
Qed.

Lemma answers_lift {A} (r : go A) db : answers (lift r) db r.
Proof. split; [done|]. intros xs. by destruct r. Qed.

Lemma answers_map {A B} (f : A → B) (q : sql A) db a : answers q db (Ok a) → answers (x ← q; mret (f x)) db (Ok (f a)).
Proof.
  intros [Hq Hf]. unfold answers, mbind, prog_bind. rewrite Hq. split; [done|]. intros xs. specialize (Hf xs).
  destruct (q xs db) as [[[b|e|] xs'] db']; [|done..]. destruct Hf as [[= <-] ->]. done.
Qed.

Lemma ListObservations_answers db m : represents db m → answers ListObservations db (Ok (Memory.ListObservations m)).
Proof.
  intros Hrep. apply answers_query; [table|]. rewrite (decode_rows_ok _ _ (observations m)); [apply answers_lift|].
  eapply Forall2_impl; [apply (rep_observations _ _ Hrep)|]. intros r e [_ Hj]. unfold decode_observation. by rewrite Hj.
Qed.

Lemma decode_claim_ok k r c : claim_row_ok k r c → decode_claim (k, r) = Ok c ∧ claim_pair c = k.
Proof.
  intros [Hk Hj Hs Hf Hl [Hwf Hwl]]. split; [|done]. destruct k as [id key]. unfold decode_claim.
  rewrite Hf, Hl, !parse_time_format, Hj by done. simpl. rewrite Hs. destruct c as [i x y]. unfold claim_pair in Hk. simpl in *. by injection Hk as ->.
Qed.

Lemma ListAssetClaims_answers db m : represents db m → answers ListAssetClaims db (Ok (Memory.ListAssetClaims m)).
Proof.
  intros Hrep. apply answers_query; [table|]. pose proof (rep_claims _ _ Hrep) as Hc.
  assert (claims_keyed m) as Hkeyed.
  { intros id key c Hcl. specialize (Hc (id, key)). simpl in Hc. rewrite Hcl in Hc. inversion Hc as [r c' Hr|]; subst. by destruct Hr. }
  unfold Memory.ListAssetClaims. rewrite (decode_sorted pair_less claim_pair claim_less _ (map_to_list (assetClaims m) ≫= λ kv, (map_to_list kv.2).*2)); [apply answers_lift|apply claim_less_pairs|apply pair_less_sep| | |].
  - pose proof (claims_keyed_distinct _ Hkeyed) as Hd. unfold distinct_claims, Memory.ListAssetClaims in Hd. by rewrite sort_by_perm in Hd.
  - intros [id key] r Hr. specialize (Hc (id, key)). rewrite Hr in Hc. inversion Hc as [r' c Hok Heq Hcl|]; subst. simpl in Hcl.
    destruct (decode_claim_ok _ _ _ Hok) as [Hd Hk]. exists c. split_and!; [|done|done].
    rewrite <-(sort_by_perm claim_less). apply ListAssetClaims_elem. by exists id, key.
  - intros c Hin. rewrite <-(sort_by_perm claim_less) in Hin. apply ListAssetClaims_elem in Hin as (id & key & Hcl).
    rewrite (Hkeyed _ _ _ Hcl). specialize (Hc (id, key)). simpl in Hc. rewrite Hcl in Hc. inversion Hc; by eexists.
Qed.

Lemma ListAssets_answers db m : represents db m → answers ListAssets db (Ok (Memory.ListAssets m)).
Proof. intros Hrep. apply (answers_map (λ claims, ResolveAssetClaims claims [])). by apply ListAssetClaims_answers. Qed.

Lemma ListRelationships_answers db m : represents db m → answers ListRelationships db (Ok (Memory.ListRelationships m)).
Proof.
  intros Hrep. apply answers_query; [table|]. unfold Memory.ListRelationships.
  rewrite (decode_values relationship_row_ok _ (relationships m) ResolvedRel_ID); [apply answers_lift|apply (rep_relationships _ _ Hrep)|].
  intros k r x [Hj Hx]. unfold decode_relationship. simpl. rewrite Hj. simpl. by rewrite <-Hx, Hx.
Qed.

Lemma ListAuditEntries_answers db m : represents db m → answers ListAuditEntries db (Ok (Memory.ListAuditEntries m)).
Proof.
  intros Hrep. apply answers_query; [table|]. rewrite (decode_rows_ok _ _ (auditEntries m)); [apply answers_lift|].
  eapply Forall2_impl; [apply (rep_audit _ _ Hrep)|]. intros r e (json & -> & Hj & Hw). unfold decode_entry. simpl.
  rewrite parse_time_format, Hj by done. by destruct e.
Qed.

Lemma scanSchedule_ok k r s : schedule_row_ok k r s → scanSchedule (k, r) = Ok s ∧ Schedule_CollectorID s = k.
Proof. intros (<- & -> & H1 & H2 & H3). split; [|done]. unfold scanSchedule. simpl. rewrite !parse_time_format by done. by destruct s. Qed.

Lemma ListSchedules_answers db m : represents db m → answers ListSchedules db (Ok (Memory.ListSchedules m)).
Proof.
  intros Hrep. apply answers_query; [table|].
  rewrite (decode_values schedule_row_ok _ (schedules m) Schedule_CollectorID); [apply answers_lift|apply (rep_schedules _ _ Hrep)|apply scanSchedule_ok].
Qed.

Lemma GetSchedule_answers c db m : represents db m → answers (GetSchedule c) db (Memory.GetSchedule c m).
Proof.
  intros Hrep. apply answers_query; [table|]. unfold Memory.GetSchedule. destruct (rep_schedules _ _ Hrep c) as [r s Hok|]; [|apply answers_lift].
  destruct (scanSchedule_ok _ _ _ Hok) as [-> _]. apply answers_lift.
Qed.

Lemma ListCertificateRevocations_answers db m :
  represents db m → answers ListCertificateRevocations db (Ok (Memory.ListCertificateRevocations m)).
Proof.
  intros Hrep. apply answers_query; [table|].
  rewrite (decode_values revocation_row_ok _ (revocations m) Revocation_SerialNumber); [apply answers_lift|apply (rep_revocations _ _ Hrep)|].
  intros k r x (<- & -> & Hw). unfold decode_revocation. simpl. rewrite parse_time_format by done. by destruct x.
Qed.

Lemma IsCertificateRevoked_answers serial db m :
  represents db m → answers (IsCertificateRevoked serial) db (Ok (Memory.IsCertificateRevoked serial m)).
Proof.
  intros Hrep. assert (Memory.IsCertificateRevoked serial m = bool_decide (is_Some (t_revocations db !! serial))) as ->.
  { apply bool_decide_ext. destruct (rep_revocations _ _ Hrep serial); [|done]. split; eauto. }
  split.
  - unfold IsCertificateRevoked. apply runs_wrapping, runs_statement; [table|done].
  - intros xs. pose proof (triple_wrapping (λ w, w = db) "check certificate revocation"
      (query "certificate_revocations" (λ db, bool_decide (is_Some (t_revocations db !! serial))))
      (λ b w, (Ok (bool_decide (is_Some (t_revocations db !! serial))) : go bool) = Ok b ∧ w = db) (λ w, w = db)) as Ht.
    apply Ht; [|done]. apply triple_statement. intros ? ->. split; [done|]. by intros db' b [= <- <-].
Qed.

(** Every query answers as [Memory] does. *)
Definition answers_as (db : Database) (m : Memory) : Prop :=
  answers ListObservations db (Ok (Memory.ListObservations m)) ∧
  answers ListAssetClaims db (Ok (Memory.ListAssetClaims m)) ∧
  answers ListAssets db (Ok (Memory.ListAssets m)) ∧
  answers ListRelationships db (Ok (Memory.ListRelationships m)) ∧
  answers ListAuditEntries db (Ok (Memory.ListAuditEntries m)) ∧
  answers ListSchedules db (Ok (Memory.ListSchedules m)) ∧
  (∀ c, answers (GetSchedule c) db (Memory.GetSchedule c m)) ∧
  answers ListCertificateRevocations db (Ok (Memory.ListCertificateRevocations m)) ∧
  (∀ serial, answers (IsCertificateRevoked serial) db (Ok (Memory.IsCertificateRevoked serial m))).

Lemma represents_answers db m : represents db m → answers_as db m.
Proof.
  intros Hrep. split_and!; intros.
  - by apply ListObservations_answers.
  - by apply ListAssetClaims_answers.
  - by apply ListAssets_answers.
  - by apply ListRelationships_answers.
  - by apply ListAuditEntries_answers.
  - by apply ListSchedules_answers.
  - by apply GetSchedule_answers.
  - by apply ListCertificateRevocations_answers.
  - by apply IsCertificateRevoked_answers.
Qed.
End refinement.

(** A table of the schema *)
Ltac in_schema := eapply represents_table; [eassumption|set_solver].
