(* ===== verification/SqliteHistory.v ===== *)
(** * Databases over time: migrations, crashes and restarts

    [legacy v m db]: [db] was written by a binary whose schema version is [v].  Opening it
    migrates it, with the claims its observations make, or leaves it as it was.  A history of
    processes, each of which opens the database and calls the repository until it exits or
    dies, leaves a database that answers as [Memory] does after the calls that took effect, but
    for the creation times of schedules, which a later upsert does not change. *)

From S2P Require Import Prelude Effects Bytes Time TimeText Model AuditLog Claims Memory Repository Sqlite SqliteRefine.

(** The tables of schema version [v] *)
Definition tables_at (v : Z) : gset string :=
  list_to_set (mjoin ((λ u, match migrations !! u with Some (names, _) => names | None => [] end) <$> seqZ 1 v)).

Section history.
Context `{C : StoreCodec} `{!StoreCodecLaws C}.

Abbreviation stores m db := (represents schemaVersion db m).

(** ** Migrations *)

(** Before version 5 there are no claims; a table of a later version is not there. *)
Record legacy (v : Z) (m : Memory) (db : Database) : Prop := {
  leg_version : user_version db = v;
  leg_tables : tables db = tables_at v;
  leg_index : index_ok m;
  leg_observations : Forall2 observation_row_ok (t_observations db) (observations m);
  leg_carried : Forall (λ e, carried e ∧ writable (Envelope_ObservedAt e)) (observations m);
  leg_claims : t_asset_claims db = ∅ ∧ assetClaims m = ∅;
  leg_relationships k : option_Forall2 (relationship_row_ok k) (t_relationships db !! k) (relationships m !! k);
  leg_audit : Forall2 entry_row_ok (t_audit_entries db) (auditEntries m);
  leg_numbered i e : auditEntries m !! i = Some e → Entry_Sequence e = Z.of_nat i + 1;
  leg_schedules k : option_Forall2 (schedule_row_ok k) (t_schedules db !! k) (schedules m !! k);
  leg_revocations k : option_Forall2 (revocation_row_ok k) (t_revocations db !! k) (revocations m !! k);
  leg_absent : (v < 1 → t_observations db = [] ∧ t_assets db = ∅ ∧ t_relationships db = ∅) ∧
    (v < 2 → t_audit_entries db = []) ∧ (v < 3 → t_schedules db = ∅) ∧ (v < 4 → t_revocations db = ∅);
}.

(** [m] with the claims that its observations make. *)
Definition rebuilt (m : Memory) : Memory :=
  mkMemory (observations m) (observationIndex m) (foldl (λ cl r, save_asset r.1 cl r.2) ∅ (reports (observations m)))
    (relationships m) (auditEntries m) (schedules m) (revocations m).

Lemma create_tables_ok names create db : forallb (λ name, negb (bool_decide (name ∈ tables db))) names = true →
  create_tables names create db = Ok (set_schema (user_version db) (tables db ∪ list_to_set names) (create db), tt).
Proof.
  intros Hn. unfold create_tables. rewrite decide_False; [done|]. intros (name & Hin & Ht)%Exists_exists.
  rewrite forallb_forall in Hn. apply list_elem_of_In in Hin. specialize (Hn _ Hin). by rewrite bool_decide_eq_true_2 in Hn.
Qed.

Lemma migration_creates v names create db db' :
  migrations !! v = Some (names, create) → (v =? 5) = false → forallb (λ name, negb (bool_decide (name ∈ tables db))) names = true →
  set_schema v (tables db ∪ list_to_set names) (create db) = db' →
  does (λ w, w = db) (migration_step v) (λ _ w, w = db') (λ _, True).
Proof.
  intros Hm Hv Hn <-. unfold migration_step. rewrite Hm, Hv.
  set (made := set_schema (user_version db) (tables db ∪ list_to_set names) (create db)).
  eapply does_bind with (Q := λ _ w, w = made).
  { apply does_wrapping, does_call_db. intros ? ->. split; [done|]. rewrite create_tables_ok by done. by eexists _, _. }
  intros u. eapply does_bind; [by apply (does_ret _ _ (λ _ w, w = made))|]. intros u'. apply does_wrapping, does_call_db.
  intros ? ->. split; [done|]. by eexists _, _.
Qed.

(** Creating a table that is not there changes the schema alone. *)
Lemma migration_step_does v u m db : 0 ≤ v → v ≤ u < 4 → legacy v m db →
  does (λ w, w = set_schema u (tables_at u) db) (migration_step (u + 1)) (λ _ w, w = set_schema (u + 1) (tables_at (u + 1)) db) (λ _, True).
Proof.
  intros Hv Hu [_ _ _ _ _ _ _ _ _ _ _ (H1 & H2 & H3 & H4)]. destruct db as [ver ts obs assets rels audit scheds revs claims]. simpl in *.
  assert (u = 0 ∨ u = 1 ∨ u = 2 ∨ u = 3) as [->|[->|[->| ->]]] by lia.
  - destruct H1 as (-> & -> & ->); [lia|]. by apply (migration_creates 1 _ _ _ _ eq_refl).
  - rewrite H2 by lia. by apply (migration_creates 2 _ _ _ _ eq_refl).
  - rewrite H3 by lia. by apply (migration_creates 3 _ _ _ _ eq_refl).
  - rewrite H4 by lia. by apply (migration_creates 4 _ _ _ _ eq_refl).
Qed.

(** What an old database holds, as the version 5 it will become, before its claims. *)
Lemma legacy_represents v m db : 0 ≤ v < 5 → legacy v m db → represents 4 (set_schema 4 (tables_at 5) db) m.
Proof.
  intros Hv [H1 H2 H3 H4 _ [Hc Hm] H7 H8 H9 H10 H11 _]. split; try done.
  intros k. unfold claim_at. cbn [t_asset_claims set_schema]. rewrite Hc, Hm, !lookup_empty. constructor.
Qed.

Lemma legacy_set_schema v m db : legacy v m db → set_schema v (tables_at v) db = db.
Proof. intros [H1 H2 _ _ _ _ _ _ _ _ _ _]. destruct db. simpl in *. by subst. Qed.

(** One observation's claims, and all of them in the order of the rows *)
Lemma backfill_envelope_does e m : carried e → writable (Envelope_ObservedAt e) →
  does (λ db, represents 4 db m)
    (for_each (λ a, assetJSON ← wrapping "marshal asset" (lift (marshal_asset a)); saveAssetClaim e (StableAssetID a) assetJSON) (Envelope_Assets e))
    (λ _ db, represents 4 db (foldl (with_asset e) m (Envelope_Assets e))) (λ _, True).
Proof.
  intros He Hw. apply (does_for_each _ (λ m db, represents 4 db m)). intros a x Ha.
  eapply does_marshal; [by eapply asset_reads_back|]. intros json Hj. by apply saveAssetClaim_spec.
Qed.

Lemma backfill_claims es m :
  foldl (λ m e, foldl (with_asset e) m (Envelope_Assets e)) m es =
  mkMemory (observations m) (observationIndex m) (foldl (λ cl r, save_asset r.1 cl r.2) (assetClaims m) (reports es))
    (relationships m) (auditEntries m) (schedules m) (revocations m).
Proof.
  revert m. induction es as [|e es IH]; intros m; [by destruct m|]. unfold reports. csimpl. rewrite IH, foldl_app. fold (reports es).
  assert (∀ l m, foldl (with_asset e) m l = mkMemory (observations m) (observationIndex m)
    (foldl (λ cl r, save_asset r.1 cl r.2) (assetClaims m) ((e,.) <$> l)) (relationships m) (auditEntries m) (schedules m) (revocations m)) as Hl.
  { intros l. induction l as [|a l IHl]; intros m'; [by destruct m'|]. csimpl. by rewrite IHl. }
  by rewrite Hl.
Qed.

Lemma backfill_does m : Forall (λ e, carried e ∧ writable (Envelope_ObservedAt e)) (observations m) → assetClaims m = ∅ →
  does (λ db, represents 4 db m) backfillAssetClaims (λ _ db, represents 4 db (rebuilt m)) (λ _, True).
Proof.
  intros Hes Hm. unfold backfillAssetClaims.
  eapply does_bind with (Q := λ rows db, represents 4 db m ∧ Forall2 observation_row_ok rows (observations m)).
  { apply does_wrapping, does_query. intros db Hrep. split; [in_schema|]. split_and!; [done..|]. apply (rep_observations _ _ _ Hrep). }
  intros rows. apply does_pure. intros Hrows. rewrite (decode_rows_ok _ _ (observations m)).
  2:{ eapply Forall2_impl; [exact Hrows|]. intros r e [_ Hj]. unfold decode_observation. by rewrite Hj. }
  assert (rebuilt m = foldl (λ m e, foldl (with_asset e) m (Envelope_Assets e)) m (observations m)) as ->
    by by rewrite backfill_claims, Hm.
  change (does (λ db, represents 4 db m) (for_each (λ e, for_each (λ a,
    assetJSON ← wrapping "marshal asset" (lift (marshal_asset a)); saveAssetClaim e (StableAssetID a) assetJSON) (Envelope_Assets e)) (observations m))
    (λ _ db, represents 4 db (foldl (λ m e, foldl (with_asset e) m (Envelope_Assets e)) m (observations m))) (λ _, True)).
  apply (does_for_each _ (λ m db, represents 4 db m)). intros e x He. rewrite Forall_forall in Hes. destruct (Hes e He).
  by apply backfill_envelope_does.
Qed.

Lemma represents_version v w db m : represents v db m → represents w (set_schema w (tables db) db) m.
Proof. by intros [[_ Ht]]; split. Qed.

Lemma last_step_does v m db : 0 ≤ v < 5 → legacy v m db →
  does (λ w, w = set_schema 4 (tables_at 4) db) (migration_step 5) (λ _ w, represents 5 w (rebuilt m)) (λ _, True).
Proof.
  intros Hv Hleg. pose proof (legacy_represents _ _ _ Hv Hleg) as Hrep. destruct Hleg as [_ _ _ _ Hes [Hc Hm] _ _ _ _ _ _].
  unfold migration_step. change (migrations !! 5) with (Some (["asset_claims"%string], set_claims (λ _, ∅))). cbv match.
  eapply does_bind with (Q := λ _ w, represents 4 w m).
  { apply does_wrapping, does_call_db. intros ? ->. split; [done|]. rewrite create_tables_ok by done. eexists _, _. split_and!; [done| |done].
    revert Hrep. destruct db. simpl in *. by subst. }
  intros u. change (5 =? 5) with true. cbv iota. eapply does_bind; [by apply does_wrapping, backfill_does|].
  intros u'. apply does_wrapping, does_call_db. intros w Hw. split; [done|]. eexists _, _. split_and!; [done| |done].
  by eapply represents_version.
Qed.

(** From any older version, one transaction. *)
Lemma migrate_versions_does v m db n u : 0 ≤ v < 5 → v ≤ u → u + Z.of_nat n = 4 → legacy v m db →
  does (λ w, w = set_schema u (tables_at u) db) (migrate_versions (S n) (u + 1)) (λ _ w, represents 5 w (rebuilt m)) (λ _, True).
Proof.
  revert u. induction n as [|n IH]; intros u Hv Hu Hn Hleg; cbn [migrate_versions].
  - assert (u = 4) as -> by lia. eapply does_bind; [by eapply last_step_does|]. intros []. by apply does_ret.
  - eapply does_bind; [eapply migration_step_does; [| |done]; lia|]. intros []. apply IH; [done|lia..|done].
Qed.

(** Opening an old database migrates it or leaves it as it was. *)
Lemma migrate_does v m db : 0 ≤ v < 5 → legacy v m db →
  does (λ w, w = db) migrate (λ _ w, stores (rebuilt m) w) (λ w, w = db ∨ stores (rebuilt m) w).
Proof.
  intros Hv Hleg. unfold migrate. eapply does_bind with (Q := λ x w, w = db ∧ x = v).
  { apply does_wrapping, does_call_db. intros ? ->. split; [by left|]. eexists _, _. split; [done|].
    rewrite (leg_version _ _ _ Hleg). split; [done|by left]. }
  intros x. apply does_pure. intros ->. rewrite (proj2 (Z.ltb_ge _ _)), (proj2 (Z.eqb_neq _ _)) by (unfold schemaVersion; lia).
  replace (Z.to_nat (schemaVersion - v)) with (S (Z.to_nat (4 - v))) by (unfold schemaVersion; lia).
  apply does_transaction; [|by left|by right].
  pose proof (migrate_versions_does v m db (Z.to_nat (4 - v)) v) as Hs. rewrite (legacy_set_schema _ _ _ Hleg) in Hs. apply Hs; [done|lia|lia|done].
Qed.

(** A database of this version is left alone; a newer one is refused, untouched. *)
Lemma migrate_current m db : stores m db → answers migrate db (Ok tt).
Proof.
  intros Hrep. destruct (rep_schema _ _ _ Hrep) as [Hv _]. unfold answers, migrate, mbind, prog_bind, wrapping, call_db, with_input.
  cbn -[schemaVersion Z.ltb Z.eqb]. rewrite Hv. split; [done|]. intros [|i xs]; [done|]. simpl.
  destruct (fault_ending i); [done|by destruct (fault_applied i)..].
Qed.

Lemma migrate_newer db xs : schemaVersion < user_version db → (∀ a, (migrate xs db).1.1 ≠ Done a) ∧ (migrate xs db).2 = db.
Proof.
  intros Hv. unfold migrate, mbind, prog_bind, wrapping, call_db, with_input. cbn -[schemaVersion Z.ltb Z.eqb].
  apply Z.ltb_lt in Hv. destruct (fault_ending (hd undisturbed xs)); simpl; [rewrite Hv; done|by destruct (fault_applied _)..].
Qed.

Lemma fresh_legacy : legacy 0 NewMemory empty_database.
Proof. split; try done; intros; by rewrite ?lookup_empty; constructor. Qed.

(** ** Histories *)

(** A call that changes the repository *)
Definition store_call (received : string) (op : store_op) : sql unit :=
  match op with
  | op_save e => SaveObservation received e
  | op_audit now ev => _ ← AppendAuditEvent now ev; mret tt
  | op_upsert_schedule s => UpsertSchedule s
  | op_delete_schedule c => DeleteSchedule c
  | op_revoke r => _ ← RevokeCertificate r; mret tt
  end.

(** What JSON and the columns carry: times that RFC 3339 can write *)
Definition carried_op (op : store_op) : Prop :=
  match op with
  | op_save e => carried e ∧ writable (Envelope_ObservedAt e)
  | op_audit now ev => carried_detail (Event_Detail ev) ∧ writable now
  | op_upsert_schedule s => writable (Schedule_NextRunAt s) ∧ writable (Schedule_CreatedAt s) ∧ writable (Schedule_UpdatedAt s)
  | op_delete_schedule _ => True
  | op_revoke r => writable (Revocation_RevokedAt r)
  end.

(** A schedule that is replaced keeps its creation time. *)
Definition keep_created (m : Memory) (s : Schedule) : Schedule :=
  match schedules m !! Schedule_CollectorID s with
  | Some old => mkSchedule (Schedule_CollectorID s) (Schedule_JobType s) (Schedule_IntervalSeconds s) (Schedule_NextRunAt s)
                  (Schedule_CreatedAt old) (Schedule_UpdatedAt s)
  | None => s
  end.
Definition kept_op (m : Memory) (op : store_op) : store_op :=
  match op with op_upsert_schedule s => op_upsert_schedule (keep_created m s) | op => op end.
Definition durable_step (m : Memory) (op : store_op) : Memory := store_step m (kept_op m op).

Lemma store_call_spec received op m : carried_op op →
  triple (λ db, stores m db) (store_call received op) (λ _ db, stores (durable_step m op) db)
    (λ db, stores m db ∨ stores (durable_step m op) db).
Proof.
  destruct op as [e|now ev|s|c|r]; simpl.
  - intros [He Hw]. by apply SaveObservation_spec.
  - intros [He Hw]. eapply triple_bind; [by apply (AppendAuditEvent_spec schemaVersion)|]. intros entry. apply triple_ret. by intros db [? _].
  - intros (H1 & H2 & H3). by apply UpsertSchedule_spec.
  - intros _. apply DeleteSchedule_spec.
  - intros Hw. eapply triple_bind; [by apply (RevokeCertificate_spec schemaVersion)|]. intros b. apply triple_ret. by intros db [? _].
Qed.

(** A hash that the audit log holds already *)
Definition collides (m : Memory) (op : store_op) : Prop :=
  match op with
  | op_audit now ev => Entry_Hash (Memory.AppendAuditEvent now ev m).2 ∈ Entry_Hash <$> auditEntries m
  | _ => False
  end.

Lemma store_call_runs received op m db : carried_op op → stores m db → ¬ collides m op → ∃ db', runs (store_call received op) db tt db'.
Proof.
  intros Hop Hdb Hc. destruct op as [e|now ev|s|c|r]; simpl in *.
  - destruct Hop. destruct (does_returns _ _ _ _ _ (SaveObservation_spec _ received e m ltac:(done) ltac:(done)) Hdb) as ([] & db' & Hr & _). eauto.
  - destruct Hop. destruct (AppendAuditEvent_runs _ now ev db m ltac:(done) Hdb Hc) as [db' Hr]. exists db'. eapply runs_bind; [done|apply runs_ret].
  - destruct Hop as (H1 & H2 & H3). destruct (does_returns _ _ _ _ _ (UpsertSchedule_spec _ s m H1 H2 H3) Hdb) as ([] & db' & Hr & _). eauto.
  - destruct (does_returns _ _ _ _ _ (DeleteSchedule_spec _ c m) Hdb) as ([] & db' & Hr & _). eauto.
  - destruct (does_returns _ _ _ _ _ (RevokeCertificate_spec _ r m Hop) Hdb) as (b & db' & Hr & _). exists db'. eapply runs_bind; [done|apply runs_ret].
Qed.

(** One process: it opens the database, and makes its calls until it dies. *)
Record Process := mkProcess { opening : list Fault; calls : list (string * store_op * list Fault) }.

(** The calls, and whether each of them reported success. *)
Fixpoint run_calls (db : Database) (cs : list (string * store_op * list Fault)) : Database * list (store_op * bool) :=
  match cs with
  | [] => (db, [])
  | (received, op, xs) :: cs =>
    match store_call received op xs db with
    | (Done _, _, db) => let '(db, log) := run_calls db cs in (db, (op, true) :: log)
    | (Failed _, _, db) => let '(db, log) := run_calls db cs in (db, (op, false) :: log)
    | (Crashed, _, db) => (db, [(op, false)])
    end
  end.

Definition run_process (db : Database) (p : Process) : Database * list (store_op * bool) :=
  match migrate (opening p) db with
  | (Done _, _, db) => run_calls db (calls p)
  | (_, _, db) => (db, [])
  end.

Fixpoint run_processes (db : Database) (ps : list Process) : Database * list (store_op * bool) :=
  match ps with
  | [] => (db, [])
  | p :: ps => let '(db, log) := run_process db p in let '(db, later) := run_processes db ps in (db, log ++ later)
  end.

(** [absorbed log ops]: [ops] are the calls of [log] in their order, every one that reported
    success among them. *)
Inductive absorbed : list (store_op * bool) → list store_op → Prop :=
| absorbed_nil : absorbed [] []
| absorbed_kept op b log ops : absorbed log ops → absorbed ((op, b) :: log) (op :: ops)
| absorbed_lost op log ops : absorbed log ops → absorbed ((op, false) :: log) ops.

Lemma absorbed_app log ops log' ops' : absorbed log ops → absorbed log' ops' → absorbed (log ++ log') (ops ++ ops').
Proof. induction 1; simpl; [done|by constructor; auto..]. Qed.

(** The state of the repository after the calls that took effect *)
Definition durable_run (ops : list store_op) : Memory := foldl durable_step NewMemory ops.

Lemma run_calls_absorbed m db cs : stores m db → Forall (λ c, carried_op c.1.2) cs →
  let '(db', log) := run_calls db cs in ∃ ops, absorbed log ops ∧ stores (foldl durable_step m ops) db'.
Proof.
  revert m db. induction cs as [|[[received op] xs] cs IH]; intros m db Hdb Hcs; cbn [run_calls].
  { exists []. by split; [constructor|]. }
  apply Forall_cons in Hcs as [Hop Hcs]. simpl in Hop. pose proof (store_call_spec received op m Hop xs db Hdb) as Hc.
  destruct (store_call received op xs db) as [[[u|e|] xs'] db1].
  - specialize (IH _ _ Hc Hcs). destruct (run_calls db1 cs) as [db2 log]. destruct IH as (ops & Ha & Hs). exists (op :: ops). by split; [constructor|].
  - destruct Hc as [Hc|Hc]; specialize (IH _ _ Hc Hcs); destruct (run_calls db1 cs) as [db2 log]; destruct IH as (ops & Ha & Hs);
      [exists ops|exists (op :: ops)]; by split; [constructor|].
  - destruct Hc as [Hc|Hc]; [exists []|exists [op]]; by split; [repeat constructor|].
Qed.

(** A database that some history of processes left *)
Definition left_by (db : Database) (log : list (store_op * bool)) : Prop :=
  (db = empty_database ∧ log = []) ∨ ∃ ops, absorbed log ops ∧ stores (durable_run ops) db.

Lemma run_process_left db log p : left_by db log → Forall (λ c, carried_op c.1.2) (calls p) →
  let '(db', later) := run_process db p in left_by db' (log ++ later).
Proof.
  intros Hdb Hcs. unfold run_process. destruct Hdb as [[-> ->]|(ops & Ha & Hs)].
  - destruct (migrate_does 0 NewMemory empty_database ltac:(done) fresh_legacy) as [Hm _]. specialize (Hm (opening p) empty_database eq_refl).
    change (rebuilt NewMemory) with NewMemory in Hm. destruct (migrate (opening p) empty_database) as [[[u|e|] xs] db'].
    + pose proof (run_calls_absorbed _ _ _ Hm Hcs) as Hc. destruct (run_calls db' (calls p)) as [db2 log]. by right.
    + destruct Hm as [->|Hm]; [by left|]. right. exists []. by split; [constructor|].
    + destruct Hm as [->|Hm]; [by left|]. right. exists []. by split; [constructor|].
  - destruct (migrate_current _ _ Hs) as [_ Hm]. specialize (Hm (opening p)).
    destruct (migrate (opening p) db) as [[[u|e|] xs] db']; [destruct Hm as [_ ->]|rewrite Hm, app_nil_r; right; by exists ops..].
    pose proof (run_calls_absorbed _ _ _ Hs Hcs) as Hc. destruct (run_calls db (calls p)) as [db2 later]. destruct Hc as (ops' & Ha' & Hs').
    right. exists (ops ++ ops'). split; [by apply absorbed_app|]. unfold durable_run. by rewrite foldl_app.
Qed.

Lemma run_processes_left ps db log : left_by db log → Forall (λ p, Forall (λ c, carried_op c.1.2) (calls p)) ps →
  let '(db', later) := run_processes db ps in left_by db' (log ++ later).
Proof.
  intros Hdb Hps. revert db log Hdb. induction Hps as [|p ps Hp _ IH]; intros db log Hdb; cbn [run_processes]; [by rewrite app_nil_r|].
  pose proof (run_process_left _ _ _ Hdb Hp) as H1. destruct (run_process db p) as [db1 log1].
  specialize (IH _ _ H1). destruct (run_processes db1 ps) as [db2 log2]. by rewrite app_assoc.
Qed.

(** ** The creation time of a schedule *)

Definition recreated (t : time) (s : Schedule) : Schedule :=
  mkSchedule (Schedule_CollectorID s) (Schedule_JobType s) (Schedule_IntervalSeconds s) (Schedule_NextRunAt s) t (Schedule_UpdatedAt s).

(** The column keeps the creation time of the upsert that inserted the row, until the row is
    deleted. *)
Definition creation_step (created : gmap string time) (op : store_op) : gmap string time :=
  match op with
  | op_upsert_schedule s => <[Schedule_CollectorID s := default (Schedule_CreatedAt s) (created !! Schedule_CollectorID s)]> created
  | op_delete_schedule c => delete c created
  | _ => created
  end.
Definition creations (ops : list store_op) : gmap string time := foldl creation_step ∅ ops.

(** [Memory], with these creation times in its schedules and nothing else changed *)
Definition with_creations (created : gmap string time) (m : Memory) : Memory :=
  with_schedules m (map_imap (λ c s, Some (recreated (default (Schedule_CreatedAt s) (created !! c)) s)) (schedules m)).

(** Upserts that set the creation time of the schedule they replace, as the handler of the
    controller does *)
Definition keeps_creation (ops : list store_op) : Prop :=
  ∀ pre s post old, ops = pre ++ op_upsert_schedule s :: post →
    schedules (run_store pre) !! Schedule_CollectorID s = Some old → Schedule_CreatedAt s = Schedule_CreatedAt old.

Lemma creations_snoc ops op : creations (ops ++ [op]) = creation_step (creations ops) op.
Proof. unfold creations. by rewrite foldl_app. Qed.

Lemma creations_inserted ops c : is_Some (creations ops !! c) ↔ is_Some (schedules (run_store ops) !! c).
Proof.
  induction ops as [|op ops IH] using rev_ind; [by unfold creations, run_store; simpl; rewrite !lookup_empty|]. rewrite creations_snoc, run_store_snoc, schedules_step.
  destruct op as [e|now ev|s|c'|r]; simpl; [done..| | |done].
  - rewrite !lookup_insert_is_Some. tauto.
  - rewrite !lookup_delete_is_Some. tauto.
Qed.

Lemma lookup_with_creations created m c :
  schedules (with_creations created m) !! c =
  s ← schedules m !! c; Some (recreated (default (Schedule_CreatedAt s) (created !! c)) s).
Proof. simpl. by rewrite map_lookup_imap. Qed.

Lemma with_creations_upsert created m s : (is_Some (created !! Schedule_CollectorID s) ↔ is_Some (schedules m !! Schedule_CollectorID s)) →
  with_creations (creation_step created (op_upsert_schedule s)) (Memory.UpsertSchedule s m) =
  durable_step (with_creations created m) (op_upsert_schedule s).
Proof.
  intros Hin. unfold durable_step. simpl. unfold Memory.UpsertSchedule at 2, with_creations at 1, with_schedules. simpl. f_equal.
  apply map_eq. intros c. rewrite map_lookup_imap. unfold keep_created. rewrite lookup_with_creations.
  destruct (decide (c = Schedule_CollectorID s)) as [->|Hne].
  - rewrite !lookup_insert_eq. simpl. destruct (schedules m !! Schedule_CollectorID s) as [old|] eqn:Ho; simpl.
    + rewrite lookup_insert_eq. destruct (proj2 Hin ltac:(by eexists)) as [t ->]. done.
    + rewrite lookup_insert_eq. destruct (created !! Schedule_CollectorID s) as [t|] eqn:Ht; [|by destruct s].
      destruct (proj1 Hin ltac:(by eexists)) as [? ?]; congruence.
  - rewrite !lookup_insert_ne by (by destruct (schedules m !! Schedule_CollectorID s)).
    by rewrite map_lookup_imap.
Qed.

Lemma with_creations_delete created m c :
  with_creations (creation_step created (op_delete_schedule c)) (Memory.DeleteSchedule c m) =
  durable_step (with_creations created m) (op_delete_schedule c).
Proof.
  unfold durable_step. simpl. unfold Memory.DeleteSchedule, with_creations, with_schedules. simpl. f_equal. apply map_eq. intros k.
  rewrite map_lookup_imap. destruct (decide (k = c)) as [->|Hne]; [by rewrite !lookup_delete_eq|].
  rewrite !lookup_delete_ne by done. by rewrite map_lookup_imap.
Qed.

(** After any calls the database holds what [Memory] holds, but for creation times. *)
Lemma durable_run_creations ops : durable_run ops = with_creations (creations ops) (run_store ops).
Proof.
  induction ops as [|op ops IH] using rev_ind; [done|]. rewrite creations_snoc, run_store_snoc. unfold durable_run in *.
  rewrite foldl_app, IH. simpl. pose proof (creations_inserted ops) as Hin. destruct op as [e|now ev|s|c|r].
  - unfold durable_step, store_step, kept_op, Memory.SaveObservation, with_creations, with_schedules. simpl. by destruct (Memory.save_envelope _ _ _).
  - done.
  - symmetry. apply with_creations_upsert, Hin.
  - symmetry. apply with_creations_delete.
  - unfold durable_step, store_step, kept_op, Memory.RevokeCertificate. by destruct (run_store ops) as [???????]; simpl; destruct (_ !! _).
Qed.

Lemma keeps_creation_prefix ops op : keeps_creation (ops ++ [op]) → keeps_creation ops.
Proof. intros Hk pre s post old ->. apply (Hk pre s (post ++ [op])). by rewrite <-app_assoc. Qed.

Lemma keeps_creation_creations ops : keeps_creation ops → creations ops = Schedule_CreatedAt <$> schedules (run_store ops).
Proof.
  induction ops as [|op ops IH] using rev_ind; intros Hk; [unfold creations, run_store; simpl; by rewrite fmap_empty|]. rewrite creations_snoc, run_store_snoc, schedules_step.
  rewrite IH by (by eapply keeps_creation_prefix). destruct op as [e|now ev|s|c|r]; simpl; [done..| | |done].
  - rewrite fmap_insert, lookup_fmap. destruct (schedules (run_store ops) !! Schedule_CollectorID s) as [old|] eqn:Ho; simpl; [|done].
    by rewrite (Hk ops s [] old).
  - by rewrite fmap_delete.
Qed.

Lemma keeps_creation_same ops : keeps_creation ops → with_creations (creations ops) (run_store ops) = run_store ops.
Proof.
  intros Hk. rewrite (keeps_creation_creations _ Hk). unfold with_creations. destruct (run_store ops) as [o i a r au sc rv]. unfold with_schedules. simpl. f_equal.
  apply map_eq. intros c. rewrite map_lookup_imap, lookup_fmap. destruct (sc !! c) as [[]|]; done.
Qed.

Lemma left_by_opens db log : left_by db log → ∃ ops db', absorbed log ops ∧ runs migrate db tt db' ∧ stores (durable_run ops) db'.
Proof.
  intros [[-> ->]|(ops & Ha & Hs)].
  - destruct (does_returns _ _ _ _ _ (migrate_does 0 NewMemory empty_database ltac:(done) fresh_legacy) eq_refl) as ([] & db' & Hr & Hs).
    exists [], db'. by split_and!; [constructor|..].
  - exists ops, db. split_and!; [done| |done]. by destruct (migrate_current _ _ Hs).
Qed.

(** C8: the durable repository refines the in-memory one.  Let processes make calls whose times
    and documents can be written ([carried_op]).  However many processes used the database,
    whatever calls to it failed and wherever processes died, the database opens, and then every
    query answers as [Memory] does after the calls that took effect - all those that reported
    success, in their order, and each of the others wholly or not at all - except that each
    schedule has the creation time of the upsert that inserted it; where upserts set the creation
    time of the schedule they replace, as the controller's do, there is no exception.  The audit
    log verifies; and a call takes effect next time, unless the database fails again or the hash
    of an audit entry is taken. *)
Theorem sqlite_refines_memory (ps : list Process) : Forall (λ p, Forall (λ c, carried_op c.1.2) (calls p)) ps →
  let '(db, log) := run_processes empty_database ps in
  ∃ ops db', absorbed log ops ∧ runs migrate db tt db' ∧
    answers_as db' (with_creations (creations ops) (run_store ops)) ∧
    (keeps_creation ops → answers_as db' (run_store ops)) ∧
    VerifyChain (Memory.ListAuditEntries (run_store ops)) = Ok tt ∧
    ∀ received op, carried_op op → ¬ collides (run_store ops) op →
      ∃ db'', runs (store_call received op) db' tt db'' ∧
        answers_as db'' (with_creations (creations (ops ++ [op])) (run_store (ops ++ [op]))).
Proof.
  intros Hps. pose proof (run_processes_left ps empty_database [] ltac:(by left) Hps) as Hl.
  destruct (run_processes empty_database ps) as [db log]. destruct (left_by_opens _ _ Hl) as (ops & db' & Ha & Hr & Hs).
  pose proof Hs as Hm. rewrite durable_run_creations in Hm.
  exists ops, db'. split_and!; [done|done|by eapply represents_answers| |by apply audit_verifies|].
  - intros Hk. rewrite (keeps_creation_same _ Hk) in Hm. by eapply represents_answers.
  - intros received op Hop Hc. destruct (store_call_runs received op _ _ Hop Hm Hc) as [db'' Hr']. exists db''. split; [done|].
    rewrite <-durable_run_creations. unfold durable_run. rewrite foldl_app. eapply represents_answers.
    pose proof (store_call_spec received op _ Hop [] db' Hs) as Ht. by rewrite Hr' in Ht.
Qed.

(** C34: opening a database of an older version migrates all of it or none of it, whatever the
    database answers and wherever the process dies; undisturbed it is migrated, and answers as
    [Memory] does with the claims that the retained observations make. *)
Theorem migrate_upgrades (v : Z) (m : Memory) (db : Database) : 0 ≤ v < 5 → legacy v m db →
  (∀ xs, match migrate xs db with
         | (Done _, _, w) => answers_as w (rebuilt m)
         | (_, _, w) => w = db ∨ answers_as w (rebuilt m)
         end) ∧
  ∃ w, runs migrate db tt w ∧ user_version w = schemaVersion ∧ answers_as w (rebuilt m).
Proof.
  intros Hv Hleg. pose proof (migrate_does v m db Hv Hleg) as Hm. split.
  - intros xs. destruct Hm as [Hm _]. specialize (Hm xs db eq_refl). destruct (migrate xs db) as [[[u|e|] xs'] w];
      [by eapply represents_answers|destruct Hm; [by left|right; by eapply represents_answers]..].
  - destruct (does_returns _ _ _ _ _ Hm eq_refl) as ([] & w & Hr & Hs). exists w. split_and!; [done| |by eapply represents_answers].
    apply (rep_schema _ _ _ Hs).
Qed.
End history.

(** ** Witnesses *)

(** Two observations, carried by their names. *)
Definition toy_old : ObservationEnvelope := example_envelope "o1" "old" (unix 1700000000 0).
Definition toy_new : ObservationEnvelope := example_envelope "o2" "new" (unix 1700000100 0).
Definition toy_envelopes : list ObservationEnvelope := [toy_old; toy_new].
Definition toy_named {A} (name : A → string) (l : list A) (s : string) : go A :=
  match list_find (λ a, name a = s) l with Some (_, a) => Ok a | None => Err "unexpected end of JSON input"%string end.

#[local] Instance toy_codec : StoreCodec := {|
  marshal_envelope e := Ok (Envelope_ObservationID e);
  unmarshal_envelope := toy_named Envelope_ObservationID toy_envelopes;
  marshal_asset a := Ok (Asset_Name a);
  unmarshal_asset := toy_named Asset_Name (toy_envelopes ≫= Envelope_Assets);
  marshal_relationship r := Ok (Relationship_Type r);
  unmarshal_relationship _ := Err "no relationships"%string;
  marshal_detail _ := Ok "{}"%string;
  unmarshal_detail _ := Ok ∅;
  parse_time s := match parse_utc s with Some t => Ok t | None => Err "cannot parse"%string end;
  carried e := e ∈ toy_envelopes;
  carried_detail d := d = ∅;
|}.

#[local] Instance toy_codec_laws : StoreCodecLaws toy_codec.
Proof.
  split; simpl.
  - intros e He. eexists. split; [done|]. repeat (apply elem_of_cons in He as [->|He]; [done|]). by apply elem_of_nil in He.
  - intros e a He Ha. eexists. split; [done|].
    repeat (apply elem_of_cons in He as [->|He]; [by apply list_elem_of_singleton in Ha as ->|]). by apply elem_of_nil in He.
  - intros e r He Hr. exfalso. repeat (apply elem_of_cons in He as [->|He]; [by apply elem_of_nil in Hr|]). by apply elem_of_nil in He.
  - intros d ->. by eexists.
  - intros t Ht. by rewrite parse_format.
Qed.

Definition toy_event : Event := mkEvent "job_created" "api-key" ∅.
Definition toy_schedule : Schedule := mkSchedule "c1" JobTypeDiscover 60 (unix 1700000200 0) (unix 1700000000 0) (unix 1700000000 0).

(** The first process dies when it commits an event, the second finds the disk full while it
    saves an observation, and dies after a schedule took effect. *)
Definition toy_processes : list Process :=
  [mkProcess [] [("t1", op_save toy_new, []); ("t1", op_audit (unix 1700000100 0) toy_event, (replicate 3 undisturbed ++ [mkFault Dying true])%list)];
   mkProcess [mkFault Dying false] [];
   mkProcess [] [("t2", op_save toy_old, (replicate 2 undisturbed ++ [mkFault Failing false])%list); ("t2", op_upsert_schedule toy_schedule, [mkFault Dying true])]]%string.

(** A schedule set again: the database answers with the first creation time, [Memory] with the last. *)
Example upsert_keeps_creation :
  let ops := [op_upsert_schedule toy_schedule; op_upsert_schedule (recreated (unix 1700000100 0) toy_schedule)] in
  (Schedule_CreatedAt <$> Memory.ListSchedules (with_creations (creations ops) (run_store ops))) = [unix 1700000000 0] ∧
  (Schedule_CreatedAt <$> Memory.ListSchedules (run_store ops)) = [unix 1700000100 0].
Proof. split; vm_compute; reflexivity. Qed.

Lemma sqlite_refines_memory_witness :
  ((run_processes empty_database toy_processes).2.*2 = [true; false; false; false]) ∧
  let '(db, log) := run_processes empty_database toy_processes in
  ∃ ops db', absorbed log ops ∧ runs migrate db tt db' ∧
    answers_as db' (with_creations (creations ops) (run_store ops)) ∧
    (keeps_creation ops → answers_as db' (run_store ops)) ∧
    VerifyChain (Memory.ListAuditEntries (run_store ops)) = Ok tt ∧
    ∀ received op, carried_op op → ¬ collides (run_store ops) op →
      ∃ db'', runs (store_call received op) db' tt db'' ∧
        answers_as db'' (with_creations (creations (ops ++ [op])) (run_store (ops ++ [op]))).
Proof.
  split; [vm_compute; reflexivity|]. apply (sqlite_refines_memory toy_processes).
  assert (writable (unix 1700000000 0) ∧ writable (unix 1700000100 0) ∧ writable (unix 1700000200 0)) as (W1 & W2 & W3)
    by (split; [|split]; refine (bool_decide_unpack _ _); vm_compute; exact I).
  apply Forall_cons_2; [|apply Forall_cons_2; [apply Forall_nil_2|apply Forall_cons_2; [|apply Forall_nil_2]]];
    (apply Forall_cons_2; [|apply Forall_cons_2; [|apply Forall_nil_2]]); split_and?; try done.
  - split; [simpl; right; left|exact W2].
  - split; [simpl; left|exact W1].
Defined.

(** A database of version 4, with two observations and no claims *)
Definition toy_legacy_store : Memory := with_envelope toy_new (with_envelope toy_old NewMemory).
Definition toy_legacy : Database :=
  mkDatabase 4 (tables_at 4) [mkObservationRow "o1" "o1" "" ""; mkObservationRow "o2" "o2" "" ""]%string ∅ ∅ [] ∅ ∅ ∅.

Lemma migrate_upgrades_witness :
  (Asset_Name ∘ Claim_Asset <$> Memory.ListAssetClaims (rebuilt toy_legacy_store)) = ["new"%string] ∧
  (∀ xs, match migrate xs toy_legacy with
         | (Done _, _, w) => answers_as w (rebuilt toy_legacy_store)
         | (_, _, w) => w = toy_legacy ∨ answers_as w (rebuilt toy_legacy_store)
         end) ∧
  ∃ w, runs migrate toy_legacy tt w ∧ user_version w = schemaVersion ∧ answers_as w (rebuilt toy_legacy_store).
Proof.
  split; [vm_compute; reflexivity|]. apply (migrate_upgrades 4); [done|].
  split; try done; try (intros; by rewrite ?lookup_empty; constructor).
  - by apply with_envelope_observations, with_envelope_observations.
  - by repeat constructor.
  - apply Forall_cons_2; [|apply Forall_cons_2; [|apply Forall_nil_2]]; (split; [|refine (bool_decide_unpack _ _); vm_compute; exact I]);
      simpl; [left|right; left].
Defined.
