(* ===== verification/SqliteRepository.v ===== *)
(** * The durable store behind the repository interface

    [SqliteStore]: a database, and how the calls of the next method end.  It discharges the
    laws the controller is verified against with no assumption on what the database holds or
    answers, so the theorems of [Controller] hold of a controller that runs on it. *)

From S2P Require Import Prelude Effects Bytes Time Model AuditLog Claims Memory Repository Sqlite SqliteRefine.

Record SqliteStore := mkSqliteStore { store_db : Database; store_faults : list Fault; store_received : string }.

(** A method that returns, or never does: then nobody sees an answer. *)
Definition perform {A} (p : sql A) (s : SqliteStore) : SqliteStore * go A :=
  let '(c, xs, db) := p (store_faults s) (store_db s) in
  (mkSqliteStore db xs (store_received s), match c with Done a => Ok a | Failed e => Err e | Crashed => Err "killed"%string end).

#[export] Instance Sqlite_Repository `{StoreCodec} : Repository SqliteStore := {|
  repo_SaveObservation e s := perform (SaveObservation (store_received s) e) s;
  repo_ListObservations s := (perform ListObservations s).2;
  repo_ListAssetClaims s := (perform ListAssetClaims s).2;
  repo_ListAssets s := (perform ListAssets s).2;
  repo_ListRelationships s := (perform ListRelationships s).2;
  repo_AppendAuditEvent now ev s := perform (AppendAuditEvent now ev) s;
  repo_ListAuditEntries s := (perform ListAuditEntries s).2;
  repo_UpsertSchedule sched s := perform (UpsertSchedule sched) s;
  repo_ListSchedules s := (perform ListSchedules s).2;
  repo_GetSchedule c s := (perform (GetSchedule c) s).2;
  repo_DeleteSchedule c s := perform (DeleteSchedule c) s;
  repo_RevokeCertificate r s := perform (RevokeCertificate r) s;
  repo_ListCertificateRevocations s := (perform ListCertificateRevocations s).2;
  repo_IsCertificateRevoked serial s := (perform (IsCertificateRevoked serial) s).2;
|}.

Section repository.
Context `{StoreCodec}.

(** [keeps serial]: the database holds a revocation of [serial]. *)
Definition keeps (serial : string) (db : Database) : Prop := is_Some (t_revocations db !! serial).

Definition monotone {A} (p : sql A) : Prop := ∀ serial, triple (keeps serial) p (λ _, keeps serial) (keeps serial).

Lemma monotone_perform {A} (p : sql A) s serial : monotone p → keeps serial (store_db s) → keeps serial (store_db (perform p s).1).
Proof.
  intros Hp Hk. specialize (Hp serial (store_faults s) (store_db s) Hk). unfold perform.
  by destruct (p (store_faults s) (store_db s)) as [[[a|e|] xs] db].
Qed.

Lemma monotone_ret {A} (a : A) : monotone (mret a).
Proof. intros serial. by apply triple_ret. Qed.
Lemma monotone_lift {A} (r : go A) : monotone (lift r).
Proof. intros serial. by apply triple_lift. Qed.
Lemma monotone_bind {A B} (p : sql A) (f : A → sql B) : monotone p → (∀ a, monotone (f a)) → monotone (p ≫= f).
Proof. intros Hp Hf serial. eapply triple_bind; [apply Hp|]. intros a. apply Hf. Qed.
Lemma monotone_wrapping {A} text (p : sql A) : monotone p → monotone (wrapping text p).
Proof. intros Hp serial. by apply triple_wrapping. Qed.
Lemma monotone_statement {A} table (f : Database → go (Database * A)) :
  (∀ db db' a, f db = Ok (db', a) → t_revocations db ⊆ t_revocations db') → monotone (statement table f).
Proof.
  intros Hf serial. apply triple_statement. intros db Hk. split; [done|]. intros db' a Ha.
  assert (keeps serial db') by (destruct Hk as [r Hr]; exists r; eapply lookup_weaken; [done|by eapply Hf]). done.
Qed.
Lemma monotone_exec table f : (∀ db, t_revocations (f db) = t_revocations db) → monotone (exec table f).
Proof. intros Hf. apply monotone_statement. intros db db' a [= <- _]. by rewrite Hf. Qed.
Lemma monotone_query {A} table (f : Database → A) : monotone (query table f).
Proof. apply monotone_statement. by intros db db' a [= <- _]. Qed.
Lemma monotone_transaction {A} begin commit (body : sql A) : monotone body → monotone (transaction begin commit body).
Proof.
  intros Hb serial. apply triple_transaction; [|done|by intros]. eapply triple_weaken; [apply Hb|done..].
Qed.
Lemma monotone_for_each {A} (f : A → sql unit) l : (∀ a, monotone (f a)) → monotone (for_each f l).
Proof. intros Hf. induction l as [|a l IH]; [apply monotone_ret|]. apply monotone_bind; [done|]. by intros []. Qed.

Hint Resolve monotone_ret monotone_lift monotone_wrapping monotone_exec monotone_query monotone_transaction monotone_for_each : core.
Hint Extern 4 (monotone (_ ≫= _)) => apply monotone_bind; [|intro] : core.

Lemma saveAssetClaim_monotone e id json : monotone (saveAssetClaim e id json).
Proof. unfold saveAssetClaim, decode_time. apply monotone_bind; [auto|]. intros [r|]; auto 10. Qed.
Hint Resolve saveAssetClaim_monotone : core.

Lemma SaveObservation_monotone received e : monotone (SaveObservation received e).
Proof.
  unfold SaveObservation, save_asset_rows, save_relationship_row. apply monotone_bind; [auto|]. intros json. apply monotone_transaction.
  apply monotone_bind; [auto|]. intros _. apply monotone_bind; intros; apply monotone_for_each; intros; auto 10.
Qed.
Lemma AppendAuditEvent_monotone now ev : monotone (AppendAuditEvent now ev).
Proof.
  unfold AppendAuditEvent. apply monotone_bind; [auto|]. intros json. apply monotone_transaction. apply monotone_bind; [auto|].
  intros final. destruct (match final with Some r => _ | None => _ end) as [seq hash]. apply monotone_bind; [|auto].
  apply monotone_wrapping, monotone_statement. intros db db' a. unfold insert_audit. destruct (existsb _ _); [done|]. destruct (existsb _ _); [done|].
  by intros [= <- _].
Qed.
Lemma UpsertSchedule_monotone s : monotone (UpsertSchedule s).
Proof. unfold UpsertSchedule. auto. Qed.
Lemma DeleteSchedule_monotone c : monotone (DeleteSchedule c).
Proof. unfold DeleteSchedule. auto. Qed.
Lemma RevokeCertificate_monotone r : monotone (RevokeCertificate r).
Proof.
  unfold RevokeCertificate. apply monotone_bind; [|auto]. apply monotone_wrapping, monotone_statement. intros db db' a. unfold insert_revocation.
  destruct (t_revocations db !! Revocation_SerialNumber r) eqn:E; intros [= <- _]; [done|]. simpl. by apply insert_subseteq.
Qed.

#[export] Program Instance Sqlite_Laws : RepositoryLaws SqliteStore := {| repo_revoked s serial := keeps serial (store_db s) |}.
Next Obligation.
  intros s serial b. simpl. unfold perform.
  assert (triple (λ w, w = store_db s) (IsCertificateRevoked serial) (λ b w, b = true ↔ keeps serial (store_db s)) (λ _, True)) as Ht.
  { apply triple_wrapping, triple_statement. intros ? ->. split; [done|]. intros db' b' [= _ <-]. split; [|done]. apply bool_decide_eq_true. }
  specialize (Ht (store_faults s) (store_db s) eq_refl).
  destruct (IsCertificateRevoked serial (store_faults s) (store_db s)) as [[[b'|e|] xs] db]; simpl; [by intros [= <-]|done..].
Qed.
Next Obligation.
  intros r s s' b. simpl. unfold perform.
  assert (triple (λ w, w = store_db s) (RevokeCertificate r) (λ _ w, keeps (Revocation_SerialNumber r) w) (λ _, True)) as Ht.
  { unfold RevokeCertificate. eapply triple_bind with (Q := λ _ w, keeps (Revocation_SerialNumber r) w); [|intros a; by apply triple_ret].
    apply triple_wrapping, triple_statement. intros ? ->. split; [done|]. intros db' a. unfold insert_revocation, keeps.
    destruct (t_revocations (store_db s) !! Revocation_SerialNumber r) eqn:E; intros [= <- _]; [by rewrite E|]. simpl. by rewrite lookup_insert_eq. }
  specialize (Ht (store_faults s) (store_db s) eq_refl).
  destruct (RevokeCertificate r (store_faults s) (store_db s)) as [[[b'|e|] xs] db]; [by intros [= <- _]|done..].
Qed.
Next Obligation.
  intros s s' serial Hw Hk. destruct Hw; apply monotone_perform; auto using SaveObservation_monotone, AppendAuditEvent_monotone,
    UpsertSchedule_monotone, DeleteSchedule_monotone, RevokeCertificate_monotone.
Qed.
End repository.
