(* ===== verification/Backup.v ===== *)
(** * [internal/store/sqlite/backup.go]: backup and restore

    [Backup] and [Restore] as programs over a file system that other processes may create
    files in; every operation may fail or be the last one.  A database file holds the
    database of [Sqlite]; [VACUUM INTO] writes the database it is called on, and
    [quick_check] accepts exactly the files that hold a whole one. *)

From S2P Require Import Prelude Effects Bytes Sqlite.

(** ** Paths *)

(** [filepath.Clean] of an absolute path, and [filepath.Abs] in the directory [cwd]. *)
Definition path_step (acc : list string) (part : string) : list string :=
  if bool_decide (part = ""%string) || String.eqb part "." then acc
  else if String.eqb part ".." then removelast acc
  else acc ++ [part].
Definition Clean (path : string) : string := ("/" +:+ join "/" (foldl path_step [] (split_byte "/"%char path)))%string.
Definition Abs (cwd path : string) : string := if has_prefix path "/" then Clean path else Clean (cwd +:+ "/" +:+ path)%string.

Definition cleanFilePath (cwd path name : string) : go string :=
  reject bool_decide (trim_space path = ""%string) || String.eqb path ":memory:" || has_prefix path "file:"
    with (name +:+ " must be a filesystem path")%string ;;
  Ok (Clean (Abs cwd path)).
Definition samePath (a b : string) : bool := String.eqb (Clean a) (Clean b).

(** ** Files *)

Inductive fs_node := database_file (db : Database) | other_file | not_regular.

(** [live] is the database the store has open; [private] the file in the private temporary
    directory of the process; [foreign] what was there before or was created by others. *)
Record BackupWorld := mkBackupWorld { live : Database; fs : gmap string fs_node; private : option fs_node; foreign : gmap string fs_node }.

(** [bk_partial]: what a copy that is cut leaves; [bk_applied]: an operation that the process
    did not survive took effect; [bk_arrival]: a file that another process creates first. *)
Record BackupInput := mkBackupInput { bk_ending : ending; bk_applied : bool; bk_partial : option fs_node; bk_arrival : option (string * fs_node) }.

Definition arrive (i : BackupInput) (w : BackupWorld) : BackupWorld :=
  match bk_arrival i with
  | Some (path, node) => if fs w !! path is Some _ then w else mkBackupWorld (live w) (<[path := node]> (fs w)) (private w) (<[path := node]> (foreign w))
  | None => w
  end.

Record BackupInfo := mkBackupInfo { Info_Path : string; SchemaVersion : Z }.

Section backup.
Context (quiet : BackupInput) (cwd : string).

Abbreviation storing := (prog BackupInput BackupWorld).

Definition with_private (p : option fs_node) (w : BackupWorld) : BackupWorld := mkBackupWorld (live w) (fs w) p (foreign w).
Definition with_fs (f : gmap string fs_node → gmap string fs_node) (w : BackupWorld) : BackupWorld := mkBackupWorld (live w) (f (fs w)) (private w) (foreign w).

(** One call of the operating system or the driver: what it returns, what it does, and what
    is left of it when it fails. *)
Definition call {A} (text : string) (f : BackupWorld → go A) (done failed : BackupInput → BackupWorld → BackupWorld) : storing A :=
  with_input quiet (λ i w,
    let w := arrive i w in
    match bk_ending i, f w with
    | Answered, Ok a => (Done a, done i w)
    | Answered, Err e => (Failed e, w)
    | Failing, _ => (Failed text, failed i w)
    | Dying, Ok _ => (Crashed, if bk_applied i then done i w else failed i w)
    | Dying, Err _ => (Crashed, w)
    end).
Definition look {A} (text : string) (f : BackupWorld → go A) : storing A := call text f (λ _ w, w) (λ _ w, w).

(** [defer cleanup()]: the private directory goes when the program returns, not when it dies. *)
Definition cleaning {A} (p : storing A) : storing A := λ xs w,
  match p xs w with
  | (Crashed, xs, w) => (Crashed, xs, w)
  | (r, xs, w) => (r, xs, with_private None w)
  end.

(** [reserveTemporaryPath]: [os.MkdirTemp] finds an unused name. *)
Definition reserveTemporaryPath (destination : string) : storing unit :=
  _ ← look "inspect destination: %w" (λ w, if fs w !! destination is Some _ then Err ("destination already exists: " +:+ destination)%string else Ok tt);
  _ ← look "create private temporary database directory: %w" (λ _, Ok tt);
  look "protect private temporary database directory: %w" (λ _, Ok tt).

(** [Inspect] of the node that [file] finds. *)
Definition Inspect (path : string) (file : BackupWorld → option fs_node) : storing BackupInfo :=
  found ← look "stat database: %w" (λ w, match file w with Some n => Ok n | None => Err "stat database: %w"%string end);
  _ ← lift (match found with not_regular => Err "database must be a regular file"%string | _ => Ok tt end);
  _ ← look "run SQLite quick_check: %w" (λ w, match file w with Some (database_file _) => Ok tt | _ => Err "SQLite quick_check failed: %s"%string end);
  version ← look "read schema version: %w" (λ w, match file w with Some (database_file db) => Ok (user_version db) | _ => Err "read schema version: %w"%string end);
  if (version <? 1) || (schemaVersion <? version) then lift (Err "unsupported database schema version %d (supported: 1-%d)"%string)
  else mret (mkBackupInfo path version).

(** [os.Link] fails if the destination exists. *)
Definition publishWithoutOverwrite (destination : string) : storing unit :=
  _ ← call "link" (λ w, match private w, fs w !! destination with
                        | Some _, None => Ok tt
                        | None, _ => Err "link: no such file"%string
                        | _, Some _ => Err ("destination already exists: " +:+ destination)%string
                        end)
       (λ _ w, match private w with Some n => with_fs (<[destination := n]>) w | None => w end) (λ _ w, w);
  synced ← attempt (look "sync directory" (λ _, Ok tt));
  match synced with
  | Some _ => mret tt
  | None => _ ← attempt (call "remove" (λ _, Ok tt) (λ _, with_fs (delete destination)) (λ _ w, w)); lift (Err "sync directory"%string)
  end.

Definition Backup (destination : string) : storing BackupInfo :=
  destination ← lift (cleanFilePath cwd destination "backup destination");
  _ ← reserveTemporaryPath destination;
  cleaning (
    _ ← wrapping "create SQLite backup" (call "vacuum" (λ _, Ok tt) (λ _ w, with_private (Some (database_file (live w))) w) (λ i w, with_private (bk_partial i) w));
    _ ← wrapping "protect SQLite backup" (look "chmod" (λ _, Ok tt));
    info ← wrapping "verify SQLite backup" (Inspect "" private);
    _ ← wrapping "sync SQLite backup" (look "sync" (λ _, Ok tt));
    _ ← wrapping "publish SQLite backup" (publishWithoutOverwrite destination);
    mret (mkBackupInfo destination (SchemaVersion info))).

(** [copyFile]: an incomplete copy is removed again. *)
Definition copyFile (source : string) : storing unit :=
  content ← look "open" (λ w, match fs w !! source with Some n => Ok n | None => Err "open: no such file"%string end);
  _ ← call "copy" (λ _, Ok tt) (λ _ w, with_private (Some content) w) (λ i w, with_private (match bk_ending i with Dying => bk_partial i | _ => None end) w);
  call "sync" (λ _, Ok tt) (λ _ w, w) (λ i w, match bk_ending i with Dying => w | _ => with_private None w end).

Definition Restore (backup destination : string) : storing BackupInfo :=
  backup ← lift (cleanFilePath cwd backup "backup source");
  destination ← lift (cleanFilePath cwd destination "restore destination");
  if samePath backup destination then lift (Err "backup source and restore destination must differ"%string)
  else
    info ← wrapping "verify SQLite backup" (Inspect backup (λ w, fs w !! backup));
    _ ← reserveTemporaryPath destination;
    cleaning (
      _ ← wrapping "copy SQLite backup" (copyFile backup);
      _ ← wrapping "verify restored SQLite database" (Inspect "" private);
      _ ← wrapping "sync restored SQLite database" (look "sync" (λ _, Ok tt));
      _ ← wrapping "publish restored SQLite database" (publishWithoutOverwrite destination);
      mret (mkBackupInfo destination (SchemaVersion info))).
End backup.

(** ** Lemmas *)

Definition supported (db : Database) : Prop := 1 <= user_version db <= schemaVersion.

(** The files of others are as they were; the only other file is a whole database at the
    destination, which came from where [whence] says. *)
Definition safe (destination : string) (whence : Database → BackupWorld → Prop) (w : BackupWorld) : Prop :=
  (∀ p n, foreign w !! p = Some n → fs w !! p = Some n) ∧
  ∀ p n, fs w !! p = Some n → foreign w !! p = Some n ∨
    (p = destination ∧ foreign w !! p = None ∧ ∃ db, n = database_file db ∧ supported db ∧ whence db w).

(** What holds although others create files. *)
Definition stable (P : BackupWorld → Prop) : Prop := ∀ i w, P w → P (arrive i w).

Lemma arrive_cases i w : arrive i w = w ∨
  ∃ p n, fs w !! p = None ∧ arrive i w = mkBackupWorld (live w) (<[p := n]> (fs w)) (private w) (<[p := n]> (foreign w)).
Proof.
  unfold arrive. destruct (bk_arrival i) as [[p n]|]; [|by left]. destruct (fs w !! p) eqn:Hp; [by left|]. right. by exists p, n.
Qed.

Lemma arrive_fs i w p n : fs w !! p = Some n → fs (arrive i w) !! p = Some n.
Proof.
  intros Hp. destruct (arrive_cases i w) as [->|(q&m&Hq&->)]; [done|]. cbn. rewrite lookup_insert_ne; [done|]. intros ->. congruence.
Qed.
Lemma arrive_same i w : live (arrive i w) = live w ∧ private (arrive i w) = private w.
Proof. by destruct (arrive_cases i w) as [->|(q&m&Hq&->)]. Qed.

Lemma stable_and P Q : stable P → stable Q → stable (λ w, P w ∧ Q w).
Proof. intros HP HQ i w [? ?]. split; [by apply HP|by apply HQ]. Qed.
Lemma stable_fs p n : stable (λ w, fs w !! p = Some n).
Proof. intros i w. apply arrive_fs. Qed.
Lemma stable_private n : stable (λ w, private w = n).
Proof. intros i w Hw. by rewrite (proj2 (arrive_same i w)). Qed.
Lemma stable_live db : stable (λ w, live w = db).
Proof. intros i w Hw. by rewrite (proj1 (arrive_same i w)). Qed.
Lemma stable_pure (X : Prop) : stable (λ _, X).
Proof. by intros i w. Qed.
Lemma stable_untouched : stable (λ w, fs w = foreign w).
Proof. intros i w Hw. destruct (arrive_cases i w) as [->|(q&m&Hq&->)]; [done|]. cbn. by rewrite Hw. Qed.
Lemma stable_safe d whence : (∀ db, stable (whence db)) → stable (safe d whence).
Proof.
  intros Hst i w [H1 H2]. pose proof (λ db, Hst db i w) as Hwh. destruct (arrive_cases i w) as [Heq|(q&m&Hq&Heq)]; rewrite Heq in *; [done|]. split; cbn.
  - intros p n. destruct (decide (q = p)) as [->|Hne]; [by rewrite !lookup_insert_eq|rewrite !lookup_insert_ne by done; apply H1].
  - intros p n. destruct (decide (q = p)) as [->|Hne]; [rewrite !lookup_insert_eq; by left|rewrite !lookup_insert_ne by done; intros Hp].
    destruct (H2 p n Hp) as [?|(->&?&db&?&?&?)]; [by left|]. right. split; [done|]. split; [done|]. exists db. auto.
Qed.

Lemma untouched_safe d whence w : fs w = foreign w → safe d whence w.
Proof. intros Hw. split; intros p n; rewrite Hw; auto. Qed.

Section triples.
Context (quiet : BackupInput) (cwd : string).

Lemma triple_file_call {A} text (f : BackupWorld → go A) done failed P Q E : stable P →
  (∀ i w a, P w → f w = Ok a → Q a (done i w) ∧ E (done i w)) → (∀ i w, P w → E (failed i w)) → (∀ w, P w → E w) →
  triple P (call quiet text f done failed) Q E.
Proof.
  intros Hst HQ HF HE. apply triple_input. intros i w Hw%(Hst i). cbv zeta. destruct (bk_ending i).
  - destruct (f (arrive i w)) as [a|e] eqn:Hf; [by apply (HQ i (arrive i w) a)|by apply HE].
  - by apply HF.
  - destruct (f (arrive i w)) as [a|e] eqn:Hf; [|by apply HE]. destruct (bk_applied i); [by apply (HQ i (arrive i w) a)|by apply HF].
Qed.

Lemma triple_file_look {A} text (f : BackupWorld → go A) P (Q : A → BackupWorld → Prop) E : stable P →
  (∀ w a, P w → f w = Ok a → Q a w) → (∀ w, P w → E w) → triple P (look quiet text f) Q E.
Proof. intros Hst HQ HE. apply triple_file_call; [done| |auto|done]. intros i w a Hw Hf. auto. Qed.

Lemma triple_cleaning {A} P (p : prog BackupInput BackupWorld A) (Q : A → BackupWorld → Prop) E :
  (∀ a w, Q a w → Q a (with_private None w)) → (∀ w, E w → E (with_private None w)) → triple P p Q E → triple P (cleaning p) Q E.
Proof. intros HQ HE Hp xs w Hw. specialize (Hp xs w Hw). unfold cleaning. destruct (p xs w) as [[[a|e|] xs'] w']; auto. Qed.

(** What [Inspect] accepts is a whole database of a known version. *)
Lemma triple_Inspect path file P E : stable P → (∀ n, stable (λ w, file w = Some n)) → (∀ w, P w → E w) →
  triple P (Inspect quiet path file) (λ info w, P w ∧ ∃ db, file w = Some (database_file db) ∧ supported db ∧ SchemaVersion info = user_version db) E.
Proof.
  intros Hst Hf HE. unfold Inspect. assert (∀ n, stable (λ w, P w ∧ file w = Some n)) as Hst1 by (intros n; by apply (stable_and P)).
  assert (∀ n w, P w ∧ file w = Some n → E w) as HE1 by (intros n w [? _]; auto).
  eapply triple_bind with (Q := λ n w, P w ∧ file w = Some n).
  { apply triple_file_look; [done| |done]. intros w n Hw. destruct (file w); [|done]. by intros [= <-]. }
  intros n. eapply triple_bind with (Q := λ _ w, P w ∧ file w = Some n); [apply triple_lift; [done|apply HE1]|]. intros [].
  eapply triple_bind with (Q := λ _ w, P w ∧ file w = Some n); [apply triple_file_look; [done|done|apply HE1]|]. intros [].
  eapply triple_bind with (Q := λ v w, (P w ∧ file w = Some n) ∧ ∃ db, n = database_file db ∧ v = user_version db).
  { apply triple_file_look; [done| |apply HE1]. intros w v [Hw Hn]. rewrite Hn. destruct n as [db| |]; [|done..]. intros [= <-]. eauto. }
  intros v. destruct ((v <? 1) || (schemaVersion <? v)) eqn:Hv; [apply triple_fail; naive_solver|]. apply orb_false_iff in Hv as [H1 H2].
  apply triple_ret. intros w [[Hw Hn] (db&->&->)]. split; [done|]. exists db. unfold supported. split; [done|]. apply Z.ltb_ge in H1, H2. cbn. lia.
Qed.

Lemma triple_reserve d whence P : stable P → (∀ w, P w → fs w = foreign w) →
  triple P (reserveTemporaryPath quiet d) (λ _, P) (safe d whence).
Proof.
  intros Hst Hf. assert (∀ w, P w → safe d whence w) as HE by (intros w Hw; by apply untouched_safe, Hf). unfold reserveTemporaryPath.
  eapply triple_bind with (Q := λ _, P); [apply triple_file_look; auto|]. intros [].
  eapply triple_bind with (Q := λ _, P); [apply triple_file_look; auto|]. intros []. apply triple_file_look; auto.
Qed.

Lemma triple_file_publish d (whence : Database → BackupWorld → Prop) db P : supported db →
  (∀ db, stable (whence db)) → stable P → (∀ w, P w → fs w = foreign w ∧ private w = Some (database_file db) ∧ whence db w) →
  (∀ n w, fs w !! d = None → whence db w → whence db (with_fs <[d := n]> w)) →
  triple P (publishWithoutOverwrite quiet d) (λ _ w, safe d whence w ∧ fs w !! d = Some (database_file db) ∧ whence db w) (safe d whence).
Proof.
  intros Hsup Hwh Hst HP Hfs. set (R := λ w, safe d whence w ∧ (foreign w !! d = None ∧ fs w !! d = Some (database_file db)) ∧ whence db w).
  assert (∀ w, R w → safe d whence w) as HR by (by intros w [? _]).
  assert (stable R) as HstR.
  { intros i w (Hs&[Hn Hd]&Hw). split; [by apply stable_safe|]. split; [split; [|by apply arrive_fs]|by apply Hwh].
    destruct (arrive_cases i w) as [->|(q&m&Hq&->)]; [done|]. cbn. rewrite lookup_insert_ne; [done|]. intros ->. congruence. }
  unfold publishWithoutOverwrite. eapply triple_bind with (Q := λ _, R).
  { apply triple_file_call; [done| |intros i w Hw; by apply untouched_safe, HP|intros w Hw; by apply untouched_safe, HP].
    intros i w [] Hw Hok. destruct (HP w Hw) as (Heq&Hp&Hdb). rewrite Hp in *. destruct (fs w !! d) eqn:Hd; [done|].
    assert (R (with_fs <[d := database_file db]> w)) as Hr; [|split; [exact Hr|by apply HR]]. split; [|split; [|by apply Hfs]].
    - split; cbn; intros p n; rewrite <-Heq.
      + intros Hn. rewrite lookup_insert_ne; [done|]. intros ->. congruence.
      + destruct (decide (d = p)) as [<-|Hne]; [rewrite lookup_insert_eq; intros [= <-]; right|rewrite lookup_insert_ne by done; by left].
        split; [done|]. split; [done|]. exists db. auto.
    - cbn. rewrite <-Heq, lookup_insert_eq. done. }
  intros []. eapply triple_bind with (Q := λ _, R).
  { eapply triple_attempt with (Q' := λ _, R) (E' := R); [by apply triple_file_look; auto|done|done|done]. }
  intros [[]|]; [apply triple_ret; intros w (?&[? ?]&?); auto|]. eapply triple_bind with (Q := λ _, safe d whence); [|intros _; by apply triple_fail].
  eapply triple_attempt with (Q' := λ _, safe d whence) (E' := safe d whence); [|done|done|done].
  apply triple_file_call; [done| |by intros i w ?%HR|done]. intros i w [] ([H1 H2]&[Hn Hd]&Hw) _. assert (safe d whence (with_fs (delete d) w)) as Hs; [|done]. split; cbn.
  - intros p n Hp. rewrite lookup_delete_ne; [by apply H1|]. intros ->. congruence.
  - intros p n. destruct (decide (d = p)) as [<-|Hne]; [by rewrite lookup_delete_eq|rewrite lookup_delete_ne by done; intros Hp].
    destruct (H2 p n Hp) as [?|(->&_)]; [by left|done].
Qed.

(** Where a restored file comes from *)
Definition from_file (source : string) (db : Database) (w : BackupWorld) : Prop := fs w !! source = Some (database_file db) ∧ foreign w !! source = Some (database_file db).

Lemma from_file_stable source db : stable (from_file source db).
Proof.
  intros i w [H1 H2]. split; [by apply arrive_fs|]. destruct (arrive_cases i w) as [->|(q&m&Hq&->)]; [done|]. cbn. rewrite lookup_insert_ne; [done|]. intros ->. congruence.
Qed.

(** From a verified file in the private directory to its publication. *)
Lemma triple_file_finish (whence : Database → BackupWorld → Prop) sync publish d db P : supported db → (∀ db, stable (whence db)) → stable P →
  (∀ w, P w → fs w = foreign w ∧ private w = Some (database_file db) ∧ whence db w) →
  (∀ n w, fs w !! d = None → whence db w → whence db (with_fs <[d := n]> w)) →
  triple P (_ ← wrapping sync (look quiet "sync" (λ _, Ok tt)); _ ← wrapping publish (publishWithoutOverwrite quiet d); mret (mkBackupInfo d (user_version db)))
    (λ info w, safe d whence w ∧ info = mkBackupInfo d (user_version db) ∧ fs w !! d = Some (database_file db) ∧ whence db w) (safe d whence).
Proof.
  intros Hsup Hwh HP Hw Hfs. assert (∀ w, P w → safe d whence w) as HE by (intros w Hp; by apply untouched_safe, Hw).
  eapply triple_bind with (Q := λ _, P); [apply triple_wrapping, triple_file_look; auto|]. intros [].
  eapply triple_bind; [by apply triple_wrapping, (triple_file_publish d whence db P)|]. intros []. apply triple_ret. intros w (?&?&?). done.
Qed.

Lemma triple_Backup db destination d : cleanFilePath cwd destination "backup destination" = Ok d →
  triple (λ w, fs w = foreign w ∧ live w = db) (Backup quiet cwd destination)
    (λ info w, safe d (λ db' _, db' = db) w ∧ info = mkBackupInfo d (user_version db) ∧ fs w !! d = Some (database_file db) ∧ db = db)
    (safe d (λ db' _, db' = db)).
Proof.
  intros Hd. set (P := λ w, fs w = foreign w ∧ live w = db). set (E := safe d (λ db' _, db' = db)).
  assert (stable P) as HP by (apply stable_and; [apply stable_untouched|apply stable_live]). assert (∀ w, P w → E w) as HE by (intros w [? ?]; by apply untouched_safe).
  unfold Backup. eapply triple_bind with (Q := λ d' w, P w ∧ d' = d); [apply triple_lift; [intros w a Ha ?; split; [done|congruence]|exact HE]|].
  intros d'. apply triple_pure. intros ->. eapply triple_bind with (Q := λ _, P); [apply triple_reserve; [done|by intros w [? _]]|]. intros [].
  apply triple_cleaning; [by intros a w (Hs&?)|by intros w Hs|].
  set (P1 := λ w, P w ∧ private w = Some (database_file db)).
  assert (stable P1) as HP1 by (apply stable_and; [done|apply stable_private]). assert (∀ w, P1 w → E w) as HE1 by (intros w [? _]; auto).
  eapply triple_bind with (Q := λ _, P1).
  { apply triple_wrapping, triple_file_call; [done| |by intros i w [? _]; apply untouched_safe|done]. intros i w [] [Hf <-] _. split; [done|by apply untouched_safe]. }
  intros []. eapply triple_bind with (Q := λ _, P1); [apply triple_wrapping, triple_file_look; auto|]. intros [].
  eapply triple_bind; [apply triple_wrapping, (triple_Inspect "" private P1 E); [done|intros n; apply stable_private|done]|].
  intros info. eapply triple_weaken with (P := λ w, P1 w ∧ (supported db ∧ SchemaVersion info = user_version db)) (E := E); [|intros w [[? Hp] (db'&Hp'&?)]; assert (db' = db) as -> by congruence; done|by intros a w Hq; exact Hq|done].
  apply triple_pure. intros [Hsup ->]. apply triple_file_finish; [done|intros db'; apply stable_pure|done| |done]. intros w [[? ?] ?]. done.
Qed.

Lemma triple_copyFile source n P E : stable P → (∀ w, P w → fs w !! source = Some n) → (∀ w, P w → E w) →
  (∀ w p, P w → P (with_private p w)) → triple P (copyFile quiet source) (λ _ w, P w ∧ private w = Some n) E.
Proof.
  intros HP Hn HE Hpriv. assert (stable (λ w, P w ∧ private w = Some n)) as HP1 by (apply stable_and; [done|apply stable_private]).
  unfold copyFile. eapply triple_bind with (Q := λ content w, P w ∧ content = n).
  { apply triple_file_look; [done| |done]. intros w c Hw. rewrite (Hn w Hw). intros [= <-]. done. }
  intros content. apply triple_pure. intros ->. eapply triple_bind with (Q := λ _ w, P w ∧ private w = Some n).
  { apply triple_file_call; [done| |by intros i w Hw; apply HE, Hpriv|done]. intros i w [] Hw _. split; [split; [by apply Hpriv|done]|by apply HE, Hpriv]. }
  intros []. apply triple_file_call; [done| | |by intros w [? _]; apply HE].
  - intros i w [] [Hw Hp] _. auto.
  - intros i w [Hw Hp]. destruct (bk_ending i); [by apply HE, Hpriv..|by apply HE].
Qed.

Lemma triple_Restore backup destination s d : cleanFilePath cwd backup "backup source" = Ok s → cleanFilePath cwd destination "restore destination" = Ok d →
  triple (λ w, fs w = foreign w) (Restore quiet cwd backup destination)
    (λ info w, safe d (from_file s) w ∧ ∃ db, info = mkBackupInfo d (user_version db) ∧ fs w !! d = Some (database_file db) ∧ from_file s db w)
    (safe d (from_file s)).
Proof.
  intros Hs Hd. set (P := λ w, fs w = foreign w). set (E := safe d (from_file s)).
  assert (stable P) as HP by apply stable_untouched. assert (∀ w, P w → E w) as HE by (intros w ?; by apply untouched_safe).
  unfold Restore. eapply triple_bind with (Q := λ s' w, P w ∧ s' = s); [apply triple_lift; [intros w a Ha ?; split; [done|congruence]|exact HE]|].
  intros s'. apply triple_pure. intros ->. eapply triple_bind with (Q := λ d' w, P w ∧ d' = d); [apply triple_lift; [intros w a Ha ?; split; [done|congruence]|exact HE]|].
  intros d'. apply triple_pure. intros ->. destruct (samePath s d); [by apply triple_fail|].
  eapply triple_bind; [apply triple_wrapping, (triple_Inspect s (λ w, fs w !! s) P E); [done|intros n; apply stable_fs|done]|]. intros info.
  intros xs w [Hw (db&Hdb&Hsup&Hv)]. revert xs w Hw Hdb.
  set (P1 := λ w, P w ∧ fs w !! s = Some (database_file db)).
  assert (stable P1) as HP1 by (apply stable_and; [done|apply stable_fs]). assert (∀ w, P1 w → E w) as HE1 by (intros w [? _]; auto).
  enough (triple P1 (_ ← reserveTemporaryPath quiet d;
    cleaning (
      _ ← wrapping "copy SQLite backup" (copyFile quiet s);
      _ ← wrapping "verify restored SQLite database" (Inspect quiet "" private);
      _ ← wrapping "sync restored SQLite database" (look quiet "sync" (λ _, Ok tt));
      _ ← wrapping "publish restored SQLite database" (publishWithoutOverwrite quiet d);
      mret (mkBackupInfo d (SchemaVersion info))))
    (λ info w, E w ∧ ∃ db, info = mkBackupInfo d (user_version db) ∧ fs w !! d = Some (database_file db) ∧ from_file s db w) E) as Ht by (intros xs w Hw Hdb; by apply Ht).
  eapply triple_bind with (Q := λ _, P1); [apply triple_reserve; [done|by intros w [? _]]|]. intros [].
  apply triple_cleaning; [by intros a w (Hs'&?)|by intros w Hs'|].
  eapply triple_bind; [apply triple_wrapping, (triple_copyFile s (database_file db) P1 E); [done|by intros w [_ ?]|done|done]|]. intros [].
  assert (stable (λ w, P1 w ∧ private w = Some (database_file db))) as HP2 by (apply stable_and; [done|apply stable_private]).
  eapply triple_bind with (Q := λ _ w, P1 w ∧ private w = Some (database_file db)).
  { eapply triple_weaken; [apply triple_wrapping, (triple_Inspect "" private (λ w, P1 w ∧ private w = Some (database_file db)) E); [done|intros n; apply stable_private|by intros w [? _]; apply HE1]|done|by intros ? ? [? _]|done]. }
  intros _. rewrite Hv. eapply triple_weaken; [apply (triple_file_finish (from_file s) _ _ d db (λ w, P1 w ∧ private w = Some (database_file db)))|done| |done].
  - done.
  - apply from_file_stable.
  - done.
  - intros w [[Hw Hf] Hp]. unfold P in Hw. split; [done|]. split; [done|]. split; [done|]. by rewrite <-Hw.
  - intros n w Hd' [H1 H2]. split; [|done]. cbn. rewrite lookup_insert_ne; [done|]. intros ->. congruence.
  - intros i w (?&->&?&?). split; [done|]. by exists db.
Qed.
End triples.

(** *** Undisturbed runs *)

Section undisturbed.
Context (quiet : BackupInput) (cwd : string).
Hypothesis Hquiet : bk_ending quiet = Answered.
Hypothesis Halone : bk_arrival quiet = None.

Lemma runs_file_call {A} text (f : BackupWorld → go A) done failed w a : f w = Ok a → runs (call quiet text f done failed) w a (done quiet w).
Proof. intros Hf. apply runs_input. unfold arrive. by rewrite Halone, Hquiet, Hf. Qed.
Lemma runs_file_look {A} text (f : BackupWorld → go A) w a : f w = Ok a → runs (look quiet text f) w a w.
Proof. apply (runs_file_call text f (λ _ w, w)). Qed.

Lemma runs_cleaning {A} (p : prog BackupInput BackupWorld A) w a w' : runs p w a w' → runs (cleaning p) w a (with_private None w').
Proof. unfold runs, cleaning. by intros ->. Qed.

Lemma runs_Inspect path file w db : file w = Some (database_file db) → supported db → runs (Inspect quiet path file) w (mkBackupInfo path (user_version db)) w.
Proof.
  intros Hf [H1 H2]. unfold Inspect. eapply runs_bind; [apply runs_file_look; by rewrite Hf|]. eapply runs_bind; [by apply runs_lift|].
  eapply runs_bind; [apply runs_file_look; by rewrite Hf|]. eapply runs_bind; [apply runs_file_look; by rewrite Hf|].
  rewrite (proj2 (Z.ltb_ge _ _)) by lia. rewrite (proj2 (Z.ltb_ge _ _)) by lia. apply runs_ret.
Qed.

Lemma runs_reserve d w : fs w !! d = None → runs (reserveTemporaryPath quiet d) w tt w.
Proof.
  intros Hd. unfold reserveTemporaryPath. eapply runs_bind; [apply runs_file_look; by rewrite Hd|]. eapply runs_bind; [by apply runs_file_look|]. by apply runs_file_look.
Qed.

Lemma runs_file_publish d w n : private w = Some n → fs w !! d = None → runs (publishWithoutOverwrite quiet d) w tt (with_fs <[d := n]> w).
Proof.
  intros Hp Hd. unfold publishWithoutOverwrite. eapply runs_bind; [apply runs_file_call; by rewrite Hp, Hd|]. cbv beta. rewrite Hp.
  eapply runs_bind; [by apply runs_attempt, runs_file_look|]. apply runs_ret.
Qed.

Lemma runs_Backup destination d w : cleanFilePath cwd destination "backup destination" = Ok d → supported (live w) → fs w !! d = None →
  runs (Backup quiet cwd destination) w (mkBackupInfo d (user_version (live w))) (mkBackupWorld (live w) (<[d := database_file (live w)]> (fs w)) None (foreign w)).
Proof.
  intros Hd Hsup Hn. unfold Backup. eapply runs_bind; [by apply runs_lift|]. eapply runs_bind; [by apply runs_reserve|].
  refine (runs_cleaning _ w _ (mkBackupWorld (live w) (<[d := database_file (live w)]> (fs w)) (Some (database_file (live w))) (foreign w)) _).
  eapply runs_bind; [by apply runs_wrapping, runs_file_call|]. eapply runs_bind; [by apply runs_wrapping, runs_file_look|].
  eapply runs_bind; [by apply runs_wrapping, (runs_Inspect "" private _ (live w))|]. eapply runs_bind; [by apply runs_wrapping, runs_file_look|].
  eapply runs_bind; [by eapply runs_wrapping, runs_file_publish|]. apply runs_ret.
Qed.

Lemma runs_Restore backup destination s d w db : cleanFilePath cwd backup "backup source" = Ok s → cleanFilePath cwd destination "restore destination" = Ok d →
  samePath s d = false → fs w !! s = Some (database_file db) → supported db → fs w !! d = None →
  runs (Restore quiet cwd backup destination) w (mkBackupInfo d (user_version db)) (mkBackupWorld (live w) (<[d := database_file db]> (fs w)) None (foreign w)).
Proof.
  intros Hs Hd Hsame Hf Hsup Hn. unfold Restore. eapply runs_bind; [by apply runs_lift|]. eapply runs_bind; [by apply runs_lift|]. rewrite Hsame.
  eapply runs_bind; [by apply runs_wrapping, (runs_Inspect s (λ w, fs w !! s) w db)|]. eapply runs_bind; [by apply runs_reserve|].
  refine (runs_cleaning _ w _ (mkBackupWorld (live w) (<[d := database_file db]> (fs w)) (Some (database_file db)) (foreign w)) _).
  eapply runs_bind; [apply runs_wrapping; eapply runs_bind; [apply runs_file_look; by rewrite Hf|]; eapply runs_bind; [by apply runs_file_call|by apply runs_file_call]|].
  eapply runs_bind; [by apply runs_wrapping, (runs_Inspect "" private _ db)|]. eapply runs_bind; [by apply runs_wrapping, runs_file_look|].
  eapply runs_bind; [by eapply runs_wrapping, runs_file_publish|]. apply runs_ret.
Qed.
End undisturbed.

(** ** Theorems *)

(** C20: backing up and restoring never touch what is there.  Whatever fails, wherever the
    process dies and whatever files others create meanwhile: the files of others stay as they
    are, and the only file that appears is a whole database of a known schema version at the
    destination, the open database or the one of the backup; that it is there is what
    success means. *)
Theorem backups_are_published_whole (quiet : BackupInput) (cwd : string) (xs : list BackupInput) (w : BackupWorld) :
  fs w = foreign w →
  (∀ destination d, cleanFilePath cwd destination "backup destination" = Ok d →
     let '(r, _, w') := Backup quiet cwd destination xs w in
     safe d (λ db _, db = live w) w' ∧
     ∀ info, r = Done info → info = mkBackupInfo d (user_version (live w)) ∧ fs w' !! d = Some (database_file (live w))) ∧
  (∀ backup s destination d, cleanFilePath cwd backup "backup source" = Ok s → cleanFilePath cwd destination "restore destination" = Ok d →
     let '(r, _, w') := Restore quiet cwd backup destination xs w in
     safe d (from_file s) w' ∧
     ∀ info, r = Done info → ∃ db, info = mkBackupInfo d (user_version db) ∧ fs w' !! d = Some (database_file db) ∧ fs w' !! s = Some (database_file db)).
Proof.
  intros Hw. split.
  - intros destination d Hd. pose proof (triple_Backup quiet cwd (live w) destination d Hd xs w (conj Hw eq_refl)) as H.
    destruct (Backup quiet cwd destination xs w) as [[[info|e|] rest] w']; [|done..]. destruct H as (Hs&->&Hf&_). split; [done|]. by intros ? [= <-].
  - intros backup s destination d Hs Hd. pose proof (triple_Restore quiet cwd backup destination s d Hs Hd xs w Hw) as H.
    destruct (Restore quiet cwd backup destination xs w) as [[[info|e|] rest] w']; [|done..]. destruct H as (Hsafe&db&->&Hf&[Hfs _]). split; [done|]. intros ? [= <-]. by exists db.
Qed.

(** A restored backup is the database that was backed up. *)
Theorem restored_backup_is_the_database (quiet : BackupInput) (cwd path1 path2 d1 d2 : string) (w : BackupWorld) :
  bk_ending quiet = Answered → bk_arrival quiet = None →
  cleanFilePath cwd path1 "backup destination" = Ok d1 → cleanFilePath cwd path2 "restore destination" = Ok d2 → samePath d1 d2 = false →
  supported (live w) → fs w !! d1 = None → fs w !! d2 = None →
  ∃ w1 w2, runs (Backup quiet cwd path1) w (mkBackupInfo d1 (user_version (live w))) w1 ∧
    runs (Restore quiet cwd path1 path2) w1 (mkBackupInfo d2 (user_version (live w))) w2 ∧ fs w2 !! d2 = Some (database_file (live w)).
Proof.
  intros Hq Ha H1 H2 Hne Hsup Hd1 Hd2. pose proof (runs_Backup quiet cwd Hq Ha path1 d1 w H1 Hsup Hd1) as Hb. eexists _, _. split; [exact Hb|].
  assert (d1 ≠ d2) as Hd by (intros ->; unfold samePath in Hne; by rewrite String.eqb_refl in Hne).
  assert (cleanFilePath cwd path1 "backup source" = Ok d1) as H1' by (revert H1; unfold cleanFilePath; by destruct (_ || _)).
  split.
  - eapply (runs_Restore quiet cwd Hq Ha path1 path2 d1 d2); [done..|apply lookup_insert_eq|done|cbn [fs]; by rewrite lookup_insert_ne].
  - apply lookup_insert_eq.
Qed.

(** ** Witnesses *)

Definition quiet_backup : BackupInput := mkBackupInput Answered true None None.
Definition example_database : Database := set_schema 5 ∅ empty_database.
Definition example_disk : BackupWorld := mkBackupWorld example_database {["/data/topo.db"%string := database_file example_database]} None {["/data/topo.db"%string := database_file example_database]}.

(** The directory cannot be synced and the link cannot be removed again. *)
Definition sync_failure : list BackupInput :=
  repeat quiet_backup 10 ++ [mkBackupInput Failing false None None; mkBackupInput Failing false None None].

Lemma backups_are_published_whole_witness :
  let '(r, _, w') := Backup quiet_backup "/data" "backup.db" sync_failure example_disk in
  is_Some (fs w' !! "/data/backup.db"%string) ∧ (∀ info, r ≠ Done info) ∧ safe "/data/backup.db" (λ db _, db = example_database) w'.
Proof.
  pose proof (proj1 (backups_are_published_whole quiet_backup "/data" sync_failure example_disk eq_refl) "backup.db"%string "/data/backup.db"%string eq_refl) as H.
  destruct (Backup quiet_backup "/data" "backup.db" sync_failure example_disk) as [[r rest] w'] eqn:Hrun. vm_compute in Hrun. injection Hrun as <- <- <-.
  split; [by eexists|]. split; [done|exact (proj1 H)].
Defined.

Lemma restored_backup_is_the_database_witness :
  ∃ w1 w2, runs (Backup quiet_backup "/data" "backup.db") example_disk (mkBackupInfo "/data/backup.db" 5) w1 ∧
    runs (Restore quiet_backup "/data" "backup.db" "../data/./new.db") w1 (mkBackupInfo "/data/new.db" 5) w2 ∧
    fs w2 !! "/data/new.db"%string = Some (database_file example_database).
Proof.
  apply (restored_backup_is_the_database quiet_backup "/data" "backup.db" "../data/./new.db" "/data/backup.db" "/data/new.db" example_disk);
    [reflexivity..|vm_compute; split; discriminate|reflexivity|reflexivity].
Defined.
