(* ===== verification/SpoolDir.v ===== *)
(** * Spool directories

    What the collector's spool and the relay's spool share: the cipher and the encoding
    of entries as an interface, directories as maps from file names to contents, their
    size, the sorted listing of the names that count as entries, and the names that carry
    a clock and a sequence number. *)

From S2P Require Import Prelude Bytes Text Decimal.

(** [cipher.AEAD] with the nonce in front, as the spools store it, and [json.Marshal]
    and [json.Unmarshal] on what is spooled.  JSON is not faithful on every value (invalid
    UTF-8 is replaced), so the round trip is stated for those on which it is. *)
Class SpoolCodec (A : Type) := {
  seal : string → string → string;         (* nonce, plaintext *)
  open : string → option string;           (* [None]: too short, or not authentic *)
  marshal : A → string;
  unmarshal : string → option A;
  json_faithful : A → Prop;
}.
Class SpoolCodecLaws {A} (C : SpoolCodec A) := {
  open_seal nonce plaintext : open (seal nonce plaintext) = Some plaintext;
  unmarshal_marshal a : json_faithful a → unmarshal (marshal a) = Some a;
}.

(** What a step reads: the clock in nanoseconds, and a random nonce. *)
Record SpoolEnv := mkSpoolEnv { nano : Z; nonce : string }.

(** ** Sizes *)

Definition size_of (m : gmap string string) : Z := foldr (λ kv n, slen kv.2 + n) 0 (map_to_list m).

Lemma fold_perm (l k : list (string * string)) :
  l ≡ₚ k → foldr (λ kv n, slen kv.2 + n) 0 l = foldr (λ kv n, slen kv.2 + n) 0 k.
Proof. induction 1; simpl; lia. Qed.

Lemma size_of_fresh m k v : m !! k = None → size_of (<[k := v]> m) = slen v + size_of m.
Proof. intros Hk. unfold size_of. rewrite (fold_perm _ ((k, v) :: map_to_list m)); [done|]. by apply map_to_list_insert. Qed.

Lemma size_of_delete m k v : m !! k = Some v → size_of m = slen v + size_of (delete k m).
Proof.
  intros Hk. rewrite <-(insert_id m k v) at 1 by done. rewrite <-(insert_delete_eq m).
  rewrite size_of_fresh by apply lookup_delete_eq. done.
Qed.

Lemma size_of_nonneg m : 0 <= size_of m.
Proof. unfold size_of. induction (map_to_list m) as [|[k v] l IH]; simpl; [done|]. pose proof (slen_nonneg v). lia. Qed.

Lemma size_of_insert_le m k v : size_of (<[k := v]> m) <= slen v + size_of m.
Proof.
  destruct (m !! k) as [w|] eqn:Hk; [|by rewrite size_of_fresh].
  rewrite <-(insert_delete_eq m), size_of_fresh by apply lookup_delete_eq. rewrite (size_of_delete m k w) by done.
  pose proof (slen_nonneg w). lia.
Qed.

Lemma size_of_delete_le m k : size_of (delete k m) <= size_of m.
Proof.
  destruct (m !! k) as [w|] eqn:Hk; [|by rewrite delete_id].
  rewrite (size_of_delete m k w) by done. pose proof (slen_nonneg w). lia.
Qed.

Lemma size_of_member m k v : m !! k = Some v → slen v <= size_of m.
Proof. intros Hk. rewrite (size_of_delete m k v) by done. pose proof (size_of_nonneg (delete k m)). lia. Qed.

(** ** Listings *)

Definition listing (p : string → bool) (m : gmap string string) : list string :=
  sort_by str_lt (base.filter (λ name, p name = true) (map_to_list m).*1).

Lemma elem_of_listing p m name : name ∈ listing p m ↔ is_Some (m !! name) ∧ p name = true.
Proof.
  unfold listing. rewrite sort_by_perm, list_elem_of_filter, list_elem_of_fmap. split.
  - intros [Hs ([k v]&->&Hin)]. apply elem_of_map_to_list in Hin. split; [by eexists|done].
  - intros [[v Hv] Hs]. split; [done|]. exists (name, v). split; [done|]. by apply elem_of_map_to_list.
Qed.

Lemma listing_nodup p m : NoDup (listing p m).
Proof. unfold listing. rewrite sort_by_perm. apply NoDup_filter, NoDup_fst_map_to_list. Qed.

Lemma listing_sorted p m : StronglySorted (not_after str_lt) (listing p m).
Proof. apply (sort_by_sorted _). Qed.

(** A sorted list without repetition is determined by its elements. *)
Lemma listing_unique p m l :
  StronglySorted (not_after str_lt) l → NoDup l → (∀ x, x ∈ l ↔ x ∈ listing p m) → listing p m = l.
Proof.
  intros Hs Hnd Hiff. apply (StronglySorted_unique_strong (not_after str_lt)).
  - intros x y _ _ Hxy Hyx. by apply str_lt_sep.
  - apply listing_sorted.
  - done.
  - apply NoDup_Permutation; [apply listing_nodup|done|]. intros x. by rewrite Hiff.
Qed.

Lemma StronglySorted_drop {A} (R : A → A → Prop) n l : StronglySorted R l → StronglySorted R (drop n l).
Proof.
  revert l. induction n as [|n IH]; intros [|x l] Hl; simpl; try done.
  apply IH. by apply StronglySorted_inv in Hl as [? _].
Qed.

Lemma drop_nodup {A} n (l : list A) : NoDup l → NoDup (drop n l).
Proof. intros Hl. rewrite <-(take_drop n l) in Hl. apply NoDup_app in Hl. tauto. Qed.

(** Rewriting an entry under its name changes no listing. *)
Lemma listing_dom p m m' : dom m = dom m' → listing p m = listing p m'.
Proof.
  intros Hd. symmetry. apply listing_unique; [apply listing_sorted|apply listing_nodup|].
  intros x. rewrite !elem_of_listing, <-!elem_of_dom. by rewrite Hd.
Qed.

Lemma listing_head p m name names : listing p m = name :: names → listing p (delete name m) = names.
Proof.
  intros Hl. pose proof (listing_sorted p m) as Hs. pose proof (listing_nodup p m) as Hnd. rewrite Hl in Hs, Hnd.
  apply StronglySorted_inv in Hs as [Hs _]. apply NoDup_cons in Hnd as [Hni Hnd].
  apply listing_unique; [done|done|]. intros x. rewrite elem_of_listing. pose proof (elem_of_listing p m x) as Hx. rewrite Hl, elem_of_cons in Hx.
  destruct (decide (name = x)) as [->|Hne].
  - rewrite lookup_delete_eq. split; [done|by intros [[? ?] _]].
  - rewrite lookup_delete_ne by done. rewrite <-Hx. split; [by right|]. by intros [->|?].
Qed.

Definition remove_all (names : list string) (m : gmap string string) : gmap string string :=
  foldr delete m names.

Lemma remove_all_lookup names m k : remove_all names m !! k = if decide (k ∈ names) then None else m !! k.
Proof.
  induction names as [|n names IH]; [rewrite decide_False by apply not_elem_of_nil; done|]. change (remove_all (n :: names) m) with (delete n (remove_all names m)).
  destruct (decide (n = k)) as [->|Hne].
  - by rewrite lookup_delete_eq, decide_True by by left.
  - rewrite lookup_delete_ne, IH by done. destruct (decide (k ∈ names)) as [Hin|Hin].
    + by rewrite decide_True by by right.
    + rewrite decide_False; [done|]. rewrite elem_of_cons. by intros [->|?].
Qed.

Lemma remove_all_snoc names n m : remove_all names (delete n m) = delete n (remove_all names m).
Proof. induction names as [|k names IH]; simpl; [done|]. by rewrite IH, delete_delete. Qed.

(** ** Names *)

(** [fmt.Sprintf("%020d-%08d%s", now, seq, suffix)] *)
Definition dated_name (suffix : string) (now seq : Z) : string :=
  (decimal_pad 20 now +:+ "-" +:+ decimal_pad 8 seq +:+ suffix)%string.

(** A name that stays in its directory and ends like an entry. *)
Definition path_ok (suffix name : string) : bool :=
  negb (contains_byte "/"%char name) && negb (contains_byte (byte_of 92) name) && has_suffix name suffix.

Section names.
Context (suffix : string).

Lemma dated_name_free c now seq : decimal_byte c = false → free_of c suffix → free_of c (dated_name suffix now seq).
Proof.
  intros Hc Hs. unfold dated_name. rewrite !free_of_app. split; [by apply decimal_pad_free|].
  split; [unfold decimal_byte in Hc; unfold free_of; simpl; apply orb_false_iff in Hc as [_ ->]; done|].
  split; [by apply decimal_pad_free|done].
Qed.

Lemma dated_name_suffix now seq : has_suffix (dated_name suffix now seq) suffix = true.
Proof. unfold dated_name. rewrite <-!string_app_assoc. apply has_suffix_app. Qed.

Lemma dated_name_path_ok now seq :
  free_of "/"%char suffix → free_of (byte_of 92) suffix → path_ok suffix (dated_name suffix now seq) = true.
Proof.
  intros H1 H2. unfold path_ok. rewrite dated_name_suffix, !andb_true_iff, !negb_true_iff, !contains_byte_free.
  split; [split; by apply dated_name_free|done].
Qed.

Lemma dated_name_no_prefix p c now seq : decimal_byte c = false → has_prefix (dated_name suffix now seq) (String c p) = false.
Proof.
  intros Hc. unfold has_prefix. destruct (String.prefix (String c p) (dated_name suffix now seq)) eqn:Hp; [|done]. exfalso.
  assert (free_of c (decimal_pad 20 now)) as Hf by by apply decimal_pad_free. unfold dated_name in Hp.
  destruct (decimal_pad 20 now) as [|d s].
  { change ("" +:+ "-" +:+ decimal_pad 8 seq +:+ suffix)%string with (String "-" (decimal_pad 8 seq +:+ suffix)%string) in Hp.
    apply prefix_head in Hp. by subst. }
  rewrite string_app_cons in Hp. apply prefix_head in Hp as <-.
  unfold free_of in Hf. simpl in Hf. by rewrite Ascii.eqb_refl in Hf.
Qed.

Lemma dated_name_lt now now' k k' :
  0 <= now < 10 ^ 20 → 0 <= now' < 10 ^ 20 → 0 <= k < 10 ^ 8 → 0 <= k' < 10 ^ 8 →
  now <= now' → k < k' → str_lt (dated_name suffix now k) (dated_name suffix now' k') = true.
Proof.
  intros Hn Hn' Hk Hk' Hle Hlt. unfold dated_name.
  rewrite str_lt_app by (rewrite !decimal_pad_length; done || lia). rewrite decimal_pad_lt by (done || lia).
  destruct (Z.ltb_spec now now') as [|Hge]; [done|]. assert (now = now') as <- by lia. rewrite String.eqb_refl. simpl.
  rewrite str_lt_app by done. rewrite String.eqb_refl. change (str_lt "-" "-") with false. simpl.
  rewrite str_lt_app by (rewrite !decimal_pad_length; done || lia). rewrite decimal_pad_lt by (done || lia).
  by rewrite (proj2 (Z.ltb_lt _ _) Hlt).
Qed.
End names.
