(* ===== verification/Soap.v ===== *)
(** * [internal/mid/xml.go]: the SOAP messages of the ECC transport

    Requests byte for byte; the bounds on responses over the tokens of an XML reader;
    the normalisation of a decoded record.  The XML tokeniser and the mapping of elements
    to fields are [encoding/xml]'s. *)

From S2P Require Import Prelude Bytes Text.

Definition soapEnvelopeNamespace : string := "http://schemas.xmlsoap.org/soap/envelope/".
Definition eccQueueNamespace : string := "http://www.service-now.com/ecc_queue".
Definition maxSOAPResponseBytes : Z := 2 * 2 ^ 20.
Definition maxXMLDepth : Z := 64.
Definition maxXMLTokens : Z := 200000.

Record soapField := mkSoapField { Field_Name : string; Field_Value : string }.

(** [^[A-Za-z_][A-Za-z0-9_]*$] *)
Definition soap_name_byte (c : ascii) : bool := is_alnum c || Ascii.eqb c "_"%char.
Definition match_soap_name (s : string) : bool :=
  match s with
  | EmptyString => false
  | String c rest => (is_upper c || is_lower c || Ascii.eqb c "_"%char) && string_all soap_name_byte rest
  end.

Definition soap_operation (operation : string) : bool :=
  String.eqb operation "getRecords" || String.eqb operation "update" || String.eqb operation "insert".

Definition quoted (s : string) : string := (dquote +:+ s +:+ dquote)%string.
Definition xml_header : string := ("<?xml version=" +:+ quoted "1.0" +:+ " encoding=" +:+ quoted "UTF-8" +:+ "?>" +:+ char 10)%string.

Definition soap_prologue (operation : string) : string :=
  (xml_header +:+ "<soapenv:Envelope xmlns:soapenv=" +:+ quoted soapEnvelopeNamespace +:+ " xmlns:ecc="
   +:+ quoted eccQueueNamespace +:+ "><soapenv:Header/><soapenv:Body><ecc:" +:+ operation +:+ ">")%string.
Definition soap_epilogue (operation : string) : string :=
  ("</ecc:" +:+ operation +:+ "></soapenv:Body></soapenv:Envelope>")%string.

Definition soap_element (f : soapField) : string :=
  ("<" +:+ Field_Name f +:+ ">" +:+ xml_escape (Field_Value f) +:+ "</" +:+ Field_Name f +:+ ">")%string.

Definition encodeSOAPRequest (operation : string) (fields : list soapField) : go string :=
  reject negb (soap_operation operation) with "unsupported SOAP operation %q"%string ;;
  reject negb (forallb (λ f, match_soap_name (Field_Name f)) fields) with "SOAP field name is invalid"%string ;;
  Ok (soap_prologue operation +:+ String.concat "" (soap_element <$> fields) +:+ soap_epilogue operation)%string.

(** ** Responses *)

Inductive xml_token := StartElement | EndElement | Directive | OtherToken.

(** The tokens, and whether the reader ended at the end of the data. *)
Fixpoint validateXMLBounds (depth tokens : Z) (input : list xml_token) (ended : bool) : go unit :=
  match input with
  | [] =>
    if negb ended then Err "ServiceNow SOAP XML is invalid"%string
    else if negb (depth =? 0) then Err "ServiceNow SOAP XML is truncated"%string else Ok tt
  | t :: input =>
    let tokens := tokens + 1 in
    reject maxXMLTokens <? tokens with "ServiceNow SOAP XML exceeds %d tokens"%string ;;
    match t with
    | StartElement =>
      reject maxXMLDepth <? depth + 1 with "ServiceNow SOAP XML exceeds depth %d"%string ;;
      validateXMLBounds (depth + 1) tokens input ended
    | EndElement =>
      reject depth - 1 <? 0 with "ServiceNow SOAP XML has mismatched elements"%string ;;
      validateXMLBounds (depth - 1) tokens input ended
    | Directive => Err "ServiceNow SOAP XML directives are not accepted"%string
    | OtherToken => validateXMLBounds depth tokens input ended
    end
  end.

(** ** The request is read back as it was meant

    A reader that knows XML only as far as the requests use it: elements are cut at
    [<], and entities in character data stand for their characters. *)
Fixpoint read_elements (pieces : list string) : option (list soapField) :=
  match pieces with
  | opening :: closing :: rest =>
    if has_prefix opening "/" then Some []
    else
      '(name, text) ← cut_byte ">"%char opening;
      value ← xml_read None text;
      if String.eqb closing ("/" +:+ name +:+ ">") then cons (mkSoapField name value) <$> read_elements rest else None
  | _ => None
  end%string.

Definition read_request (body : string) : option (string * list soapField) :=
  match split_byte "<"%char body with
  | _ :: _ :: _ :: _ :: _ :: opening :: pieces =>
    rest ← cut_prefix opening "ecc:";
    '(operation, _) ← cut_byte ">"%char rest;
    pair operation <$> read_elements pieces
  | _ => None
  end.

Lemma soap_name_free s c : match_soap_name s = true → soap_name_byte c = false → free_of c s.
Proof.
  intros Hs Hc. unfold free_of. assert (string_all soap_name_byte s = true) as Hall.
  { destruct s as [|d s]; [done|]. simpl in *. apply andb_true_iff in Hs as [Hd Hs]. rewrite Hs, andb_true_r.
    unfold soap_name_byte, is_alnum. apply orb_true_iff in Hd as [[->| ->]%orb_true_iff| ->]; by rewrite ?orb_true_r. }
  eapply string_all_impl; [|exact Hall]. intros d Hd. apply negb_true_iff, Ascii.eqb_neq. congruence.
Qed.

Lemma operation_free operation c : soap_operation operation = true → soap_name_byte c = false → free_of c operation.
Proof.
  intros Ho Hc. apply soap_name_free; [|done]. unfold soap_operation in Ho.
  repeat (apply orb_true_iff in Ho as [Ho|Ho]); by apply String.eqb_eq in Ho as ->.
Qed.

Definition opening_piece (f : soapField) : string := (Field_Name f +:+ ">" +:+ xml_escape (Field_Value f))%string.
Definition closing_piece (f : soapField) : string := ("/" +:+ Field_Name f +:+ ">")%string.

Lemma element_pieces f rest :
  match_soap_name (Field_Name f) = true → head (String.list_ascii_of_string rest) = Some "<"%char →
  split_byte "<"%char (soap_element f +:+ rest)%string =
  EmptyString :: opening_piece f :: match split_byte "<"%char rest with _ :: l => closing_piece f :: l | [] => [] end.
Proof.
  intros Hn Hrest. pose proof (soap_name_free _ "<"%char Hn eq_refl) as Hfree.
  destruct rest as [|d rest]; [done|]. injection Hrest as ->.
  assert (soap_element f +:+ String "<" rest = String "<" (opening_piece f +:+ String "<" (closing_piece f +:+ String "<" rest)))%string as ->.
  { unfold soap_element, opening_piece, closing_piece. by rewrite !string_app_assoc. }
  cbn [split_byte]. rewrite split_byte_app, split_byte_app; [done| |].
  - unfold closing_piece. rewrite !free_of_app. by split_and!.
  - unfold opening_piece. rewrite !free_of_app. split_and!; [done|done|by apply xml_escape_free].
Qed.

(** A field as it arrives. *)
Definition carried_field (f : soapField) : soapField := mkSoapField (Field_Name f) (carried (Field_Value f)).
Definition field_ok (f : soapField) : Prop := match_soap_name (Field_Name f) = true.

Lemma elements_pieces fields rest :
  Forall field_ok fields → head (String.list_ascii_of_string rest) = Some "<"%char →
  split_byte "<"%char (String.concat "" (soap_element <$> fields) +:+ rest)%string =
  EmptyString :: mjoin ((λ f, [opening_piece f; closing_piece f]) <$> fields) ++ tail (split_byte "<"%char rest).
Proof.
  intros Hok Hrest. induction Hok as [|f fields Hn Hok IH].
  { destruct rest as [|d rest]; [done|]. injection Hrest as ->. done. }
  rewrite fmap_cons, concat_cons, string_app_assoc, element_pieces; [|done|].
  - rewrite IH. done.
  - destruct fields as [|g fields]; [done|]. rewrite fmap_cons, concat_cons. done.
Qed.

Lemma read_pieces fields rest :
  Forall field_ok fields → (∃ a b l, rest = ("/" +:+ a)%string :: b :: l) →
  read_elements (mjoin ((λ f, [opening_piece f; closing_piece f]) <$> fields) ++ rest) = Some (carried_field <$> fields).
Proof.
  intros Hok (a&b&l&->). induction Hok as [|f fields Hn Hok IH]; [by destruct a|].
  rewrite fmap_cons, mjoin_cons. cbn [app read_elements].
  assert (has_prefix (opening_piece f) "/" = false) as ->.
  { unfold opening_piece. unfold field_ok in Hn. destruct (Field_Name f) as [|c name] eqn:E; [done|]. rewrite string_app_cons.
    destruct (has_prefix _ "/") eqn:Hp; [|done]. apply prefix_head in Hp as <-. by vm_compute in Hn. }
  assert (opening_piece f = Field_Name f +:+ String ">" (xml_escape (Field_Value f)))%string as -> by done.
  rewrite cut_byte_app by (by apply soap_name_free). cbn [mbind option_bind]. rewrite xml_escape_carries. cbn [mbind option_bind].
  unfold closing_piece at 1. rewrite String.eqb_refl. by rewrite IH.
Qed.

(** Cutting a concatenation: the last piece of the first text and the first piece of the
    second one become one. *)
Fixpoint glue (l : list string) (k : list string) : list string :=
  match l, k with
  | [y], x :: k => (y +:+ x)%string :: k
  | y :: l, _ => y :: glue l k
  | [], _ => k
  end.

Lemma split_byte_glue c a b : split_byte c (a +:+ b)%string = glue (split_byte c a) (split_byte c b).
Proof.
  induction a as [|d a IH].
  { rewrite string_app_nil. by destruct (split_byte_cons c b) as (x&l&->). }
  rewrite string_app_cons. cbn [split_byte]. rewrite IH. destruct (split_byte_cons c a) as (y&l&->), (split_byte_cons c b) as (x&k&->).
  destruct (Ascii.eqb c d); [done|]. by destruct l.
Qed.

Lemma prologue_pieces operation t : free_of "<"%char operation →
  ∃ p1 p2 p3 p4 p5, split_byte "<"%char (soap_prologue operation +:+ t)%string =
    p1 :: p2 :: p3 :: p4 :: p5 :: ("ecc:" +:+ operation +:+ String ">" (hd "" (split_byte "<"%char t)))%string :: tail (split_byte "<"%char t).
Proof.
  intros Hfree.
  set (K := (xml_header +:+ "<soapenv:Envelope xmlns:soapenv=" +:+ quoted soapEnvelopeNamespace +:+ " xmlns:ecc="
    +:+ quoted eccQueueNamespace +:+ "><soapenv:Header/><soapenv:Body><ecc:")%string).
  assert (soap_prologue operation +:+ t = K +:+ (operation +:+ ">") +:+ t)%string as ->.
  { unfold soap_prologue, K. by rewrite !string_app_assoc. }
  rewrite !split_byte_glue, (split_byte_free "<"%char operation) by done.
  assert (∃ p1 p2 p3 p4 p5, split_byte "<"%char K = [p1; p2; p3; p4; p5; "ecc:"%string]) as (p1&p2&p3&p4&p5&->) by (by do 5 eexists).
  exists p1, p2, p3, p4, p5. destruct (split_byte_cons "<"%char t) as (x&l&->). cbn [split_byte Ascii.eqb Bool.eqb glue hd tail app].
  by rewrite !string_app_assoc.
Qed.

Lemma epilogue_pieces operation : free_of "<"%char operation →
  split_byte "<"%char (soap_epilogue operation) = [""%string ; ("/" +:+ "ecc:" +:+ operation +:+ ">")%string; "/soapenv:Body>"%string; "/soapenv:Envelope>"%string].
Proof.
  intros Hfree. unfold soap_epilogue. rewrite !split_byte_glue, (split_byte_free "<"%char operation) by done. done.
Qed.

Lemma cut_prefix_app p s : cut_prefix (p +:+ s)%string p = Some s.
Proof.
  unfold cut_prefix. assert (has_prefix (p +:+ s)%string p = true) as ->; [|by rewrite drop_string_app].
  unfold has_prefix. induction p as [|c p IH]; [by destruct s|]. rewrite string_app_cons. cbn [String.prefix].
  by destruct (Ascii.ascii_dec c c).
Qed.

(** Whatever the values are, the request is read back as its fields with their texts as
    XML carries them. *)
Lemma encodeSOAPRequest_carries operation fields :
  soap_operation operation = true → forallb (λ f, match_soap_name (Field_Name f)) fields = true →
  ∃ body, encodeSOAPRequest operation fields = Ok body ∧ read_request body = Some (operation, carried_field <$> fields) ∧
    body = (soap_prologue operation +:+ String.concat "" (soap_element <$> fields) +:+ soap_epilogue operation)%string.
Proof.
  intros Ho Hn. unfold encodeSOAPRequest. rewrite Ho, Hn. cbn [negb]. eexists. split; [done|]. split; [|done]. unfold read_request.
  assert (Forall field_ok fields) as Hok by (apply Forall_forall; intros f Hf; by apply (proj1 (forallb_elem_of _ _) Hn)).
  pose proof (operation_free operation "<"%char Ho eq_refl) as Hfree.
  destruct (prologue_pieces operation (String.concat "" (soap_element <$> fields) +:+ soap_epilogue operation) Hfree) as (p1&p2&p3&p4&p5&->).
  rewrite elements_pieces, epilogue_pieces by done. cbn [app tail hd]. rewrite cut_prefix_app. cbn [mbind option_bind].
  rewrite cut_byte_app by (by apply operation_free). cbn [mbind option_bind].
  rewrite read_pieces; [done|done|]. by exists ("ecc:" +:+ operation +:+ ">")%string, "/soapenv:Body>"%string, ["/soapenv:Envelope>"%string].
Qed.

(** a SOAP request carries exactly its fields: for field values that XML can carry
    the request is produced, and reading it back gives the operation and the same names
    and values in the same order, so that no text in a value can end an element or start
    another one; any other operation or field name is refused. *)
Theorem encodeSOAPRequest_reads (operation : string) (fields : list soapField) :
  forallb (λ f, xml_valid (Field_Value f)) fields = true →
  if soap_operation operation && forallb (λ f, match_soap_name (Field_Name f)) fields
  then ∃ body, encodeSOAPRequest operation fields = Ok body ∧ read_request body = Some (operation, fields)
  else is_ok (encodeSOAPRequest operation fields) = false.
Proof.
  intros Hvalid. destruct (soap_operation operation && _) eqn:E.
  - apply andb_true_iff in E as [Ho Hn]. destruct (encodeSOAPRequest_carries _ _ Ho Hn) as (body&He&Hr&_).
    exists body. split; [done|]. rewrite Hr. do 2 f_equal. rewrite <-(list_fmap_id fields) at 2. apply list_fmap_ext.
    intros i f Hf. unfold carried_field. rewrite carried_valid; [by destruct f|].
    apply (proj1 (forallb_elem_of _ _) Hvalid). by eapply list_elem_of_lookup_2.
  - unfold encodeSOAPRequest. destruct (soap_operation operation); [|done]. simpl in *. by rewrite E.
Qed.

Lemma encodeSOAPRequest_reads_witness :
  let fields := [mkSoapField "sys_id" "0a"; mkSoapField "payload" "</payload><state>processed & more"] in
  forallb (λ f, xml_valid (Field_Value f)) fields = true ∧
  ∃ body, encodeSOAPRequest "insert" fields = Ok body ∧ read_request body = Some ("insert"%string, fields).
Proof.
  intros fields. assert (forallb (λ f, xml_valid (Field_Value f)) fields = true) as H by (vm_compute; reflexivity).
  split; [exact H|]. exact (encodeSOAPRequest_reads "insert" fields H).
Defined.

