(* ===== verification/Mid.v ===== *)
(** * [internal/mid]: records of the ECC queue and their results

    [contract.go] and [dispatcher.go]: validation of output and input records, the digest
    that binds a record to its claim, and the dispatch of a claimed record.  The payloads
    of results are [xml.Marshal] of a fixed structure, byte for byte. *)

From S2P Require Import Prelude Bytes Text Sha256 Soap.

Definition AgentPrefix : string := "mid.server.".
Definition TopicHeartbeat : string := "Heartbeat".
Definition QueueInput : string := "input".
Definition QueueOutput : string := "output".
Definition StateReady : string := "ready".
Definition StateProcessing : string := "processing".
Definition StateProcessed : string := "processed".
Definition UnsupportedCode : string := "topo_unsupported_topic".
Definition ClaimConflictCode : string := "topo_claim_conflict".

Definition maxMIDNameBytes : Z := 128.
Definition maxShortFieldBytes : Z := 512.
Definition maxParametersBytes : Z := 256 * 2 ^ 10.
Definition maxPayloadBytes : Z := 2 ^ 20.
Definition maxErrorStringBytes : Z := 4096.
Definition maxECCRecordJSONBytes : Z := 2 * 2 ^ 20.

(** [mid.Record] *)
Record ECC := mkECC {
  SysID : string;
  Ecc_Agent : string;
  Topic : string;
  Ecc_Name : string;
  Ecc_Source : string;
  Queue : string;
  Ecc_State : string;
  ResponseTo : string;
  AgentCorrelator : string;
  Parameters : string;
  Payload : string;
  ErrorString : string;
  CreatedOn : string;
}.
#[export] Instance ECC_eq_dec : EqDecision ECC.
Proof. solve_decision. Defined.

Definition with_state (r : ECC) (state : string) : ECC :=
  mkECC (SysID r) (Ecc_Agent r) (Topic r) (Ecc_Name r) (Ecc_Source r) (Queue r) state (ResponseTo r)
    (AgentCorrelator r) (Parameters r) (Payload r) (ErrorString r) (CreatedOn r).

(** [^[0-9a-fA-F]{32}$]; a MID name matches the pattern of safe identifiers. *)
Definition match_sys_id (s : string) : bool := (slen s =? 32) && string_all is_hex s.

Definition AgentName (midName : string) : go string :=
  reject negb (match_safe_id midName)
    with "MID name must use 1-%d letters, digits, dots, underscores, or hyphens and start with a letter or digit"%string ;;
  Ok (AgentPrefix +:+ midName)%string.

Definition control_rune (r : Z) : bool := (r <? 32) || (r =? 127).
Definition hasControl (value : string) : bool := existsb control_rune (runes value).

Definition short_fields (r : ECC) : list string :=
  [Ecc_Agent r; Topic r; Ecc_Name r; Ecc_Source r; Queue r; Ecc_State r; ResponseTo r; AgentCorrelator r; CreatedOn r].

(** The short fields are checked in the order of a Go map: which of several errors is
    reported is not determined, and they share one message here. *)
Definition validateRecordFields (r : ECC) : go unit :=
  reject existsb (λ value, (maxShortFieldBytes <? slen value) || hasControl value) (short_fields r)
    with "ServiceNow ECC %s exceeds %d bytes"%string ;;
  reject bool_decide (Topic r = ""%string) with "ServiceNow ECC topic is empty"%string ;;
  reject maxParametersBytes <? slen (Parameters r) with "ServiceNow ECC parameters exceed %d bytes"%string ;;
  reject maxPayloadBytes <? slen (Payload r) with "ServiceNow ECC payload exceeds %d bytes"%string ;;
  reject maxErrorStringBytes <? slen (ErrorString r) with "ServiceNow ECC error_string exceeds %d bytes"%string ;;
  Ok tt.

Definition validateOutputRecord (r : ECC) (agent : string) : go unit :=
  reject negb (match_sys_id (SysID r)) with "ServiceNow ECC record has an invalid sys_id"%string ;;
  reject negb (String.eqb (Ecc_Agent r) agent) with "ServiceNow ECC record is addressed to a different agent"%string ;;
  reject negb (String.eqb (Queue r) QueueOutput) with "ServiceNow ECC record is not in the output queue"%string ;;
  reject negb (String.eqb (Ecc_State r) StateReady) && negb (String.eqb (Ecc_State r) StateProcessing)
         && negb (String.eqb (Ecc_State r) StateProcessed)
    with "ServiceNow ECC record has an unsupported state"%string ;;
  validateRecordFields r.

Definition validateInputRecord (r : ECC) (agent : string) : go unit :=
  reject negb (bool_decide (SysID r = ""%string)) && negb (match_sys_id (SysID r))
    with "ServiceNow ECC response has an invalid sys_id"%string ;;
  reject negb (String.eqb (Ecc_Agent r) agent) || negb (String.eqb (Queue r) QueueInput) || negb (String.eqb (Ecc_State r) StateReady)
    with "ServiceNow ECC response has invalid agent, queue, or state"%string ;;
  reject negb (match_sys_id (ResponseTo r)) with "ServiceNow ECC response has an invalid response_to"%string ;;
  validateRecordFields r.

(** ** The digest *)

(** [json.Marshal] of a record: every field but agent, topic, queue and state is left
    out when empty. *)
Definition record_fields (r : ECC) : list (string * json_value) :=
  text_field "sys_id" (SysID r) ++
  [("agent"%string, FString (Ecc_Agent r)); ("topic"%string, FString (Topic r))] ++
  text_field "name" (Ecc_Name r) ++ text_field "source" (Ecc_Source r) ++
  [("queue"%string, FString (Queue r)); ("state"%string, FString (Ecc_State r))] ++
  text_field "response_to" (ResponseTo r) ++ text_field "agent_correlator" (AgentCorrelator r) ++
  text_field "parameters" (Parameters r) ++ text_field "payload" (Payload r) ++
  text_field "error_string" (ErrorString r) ++ text_field "sys_created_on" (CreatedOn r).
Definition record_json (r : ECC) : string := json_object (record_fields r).

(** The record without what a claim may change. *)
Definition digested (r : ECC) : ECC :=
  mkECC (SysID r) (Ecc_Agent r) (Topic r) (Ecc_Name r) (Ecc_Source r) (Queue r) "" (ResponseTo r)
    (AgentCorrelator r) (Parameters r) (Payload r) (ErrorString r) "".

Definition recordDigest (r : ECC) : go string :=
  let encoded := record_json (digested r) in
  reject maxECCRecordJSONBytes <? slen encoded with "ECC record exceeds the local journal bound"%string ;;
  Ok (sha256_hex encoded).

(** [strings.Map] drops control characters and spells a byte that is no UTF-8 as the
    replacement character. *)
Definition bounded_chunk (c : Z * list Z) : string :=
  if control_rune c.1 then ""%string
  else if bad_chunk c then string_of_bytes [239; 191; 189] else string_of_bytes c.2.

Definition boundedText (value : string) (limit : Z) : string :=
  let value := String.concat "" (bounded_chunk <$> chunks value) in
  if slen value <=? limit then value else (take_string (Z.to_nat limit) value +:+ "...")%string.

(** ** Dispatch *)

Record resultPayloadItem := mkResultPayloadItem {
  Item_Status : string;
  Item_Code : string;
  Item_Message : string;
  Item_Version : string;
}.

Definition xml_attr (name value : string) : string := (" " +:+ name +:+ "=" +:+ quoted (xml_escape value))%string.
Definition xml_attr_omitempty (name value : string) : string :=
  if bool_decide (value = ""%string) then ""%string else xml_attr name value.

(** [xml.Marshal(resultPayload{...})] *)
Definition payload_xml (i : resultPayloadItem) : string :=
  ("<results><result" +:+ xml_attr "status" (Item_Status i) +:+ xml_attr_omitempty "code" (Item_Code i)
   +:+ xml_attr_omitempty "message" (Item_Message i) +:+ xml_attr_omitempty "version" (Item_Version i)
   +:+ "></result><parameters></parameters></results>")%string.

Definition unsupported_message : string := "Topo denied an unsupported ECC topic".

(** The result that answers a record. *)
Definition result_record (r : ECC) (name payload error_string : string) : ECC :=
  mkECC "" (Ecc_Agent r) (Topic r) name (Ecc_Source r) QueueInput StateReady (SysID r) (AgentCorrelator r)
    (Parameters r) payload error_string "".

Definition Dispatch (r : ECC) (version : string) : go ECC :=
  let result :=
    if String.eqb (Topic r) TopicHeartbeat
    then result_record r (Ecc_Name r)
           (payload_xml (mkResultPayloadItem "success" "" "Topo ECC heartbeat acknowledged" (boundedText version 128))) ""
    else result_record r "Topo unsupported ECC topic"
           (payload_xml (mkResultPayloadItem "error" UnsupportedCode unsupported_message "")) unsupported_message in
  try u := validateInputRecord result (Ecc_Agent r) ;;
  Ok result.

Definition dispatchError (r : ECC) (code message : string) : go ECC :=
  let text := boundedText message maxErrorStringBytes in
  let result := result_record r "Topo denied ECC record"
    (payload_xml (mkResultPayloadItem "error" (boundedText code 128) text "")) text in
  try u := validateInputRecord result (Ecc_Agent r) ;;
  Ok result.

(** ** What validation and the digest establish *)

Lemma validateRecordFields_ok r : validateRecordFields r = Ok tt ↔
  (∀ v, v ∈ short_fields r → slen v <= maxShortFieldBytes ∧ hasControl v = false) ∧ Topic r ≠ ""%string ∧
  slen (Parameters r) <= maxParametersBytes ∧ slen (Payload r) <= maxPayloadBytes ∧ slen (ErrorString r) <= maxErrorStringBytes.
Proof.
  unfold validateRecordFields. destruct (existsb _ (short_fields r)) eqn:Hs.
  { split; [done|]. intros (Hall&_). apply existsb_elem_of in Hs as (v&Hv&Hb). destruct (Hall v Hv) as [Hl Hc].
    rewrite Hc, orb_false_r in Hb. bool_facts. lia. }
  case_bool_decide; [by split; [|intros (_&?&_)]|].
  destruct (Z.ltb_spec maxParametersBytes (slen (Parameters r))); [split; [done|intros (_&_&?&_); lia]|].
  destruct (Z.ltb_spec maxPayloadBytes (slen (Payload r))); [split; [done|intros (_&_&_&?&_); lia]|].
  destruct (Z.ltb_spec maxErrorStringBytes (slen (ErrorString r))); [split; [done|intros (_&_&_&_&?); lia]|].
  split; [intros _|done]. split_and!; [|done..]. intros v Hv.
  destruct (Z.ltb_spec maxShortFieldBytes (slen v)) as [Hl|Hl]; [|destruct (hasControl v) eqn:Hc; [|done]].
  all: assert (existsb (λ value, (maxShortFieldBytes <? slen value) || hasControl value) (short_fields r) = true); [|congruence].
  all: apply existsb_elem_of; exists v; split; [done|].
  - by rewrite (proj2 (Z.ltb_lt _ _) Hl).
  - by rewrite Hc, orb_true_r.
Qed.

Lemma validateOutputRecord_ok r agent : validateOutputRecord r agent = Ok tt →
  match_sys_id (SysID r) = true ∧ Ecc_Agent r = agent ∧ Queue r = QueueOutput ∧
  (Ecc_State r = StateReady ∨ Ecc_State r = StateProcessing ∨ Ecc_State r = StateProcessed) ∧ validateRecordFields r = Ok tt.
Proof.
  unfold validateOutputRecord. destruct (match_sys_id (SysID r)); [|done]. simpl.
  destruct (String.eqb_spec (Ecc_Agent r) agent); [|done]. simpl. destruct (String.eqb_spec (Queue r) QueueOutput); [|done]. simpl.
  destruct (String.eqb_spec (Ecc_State r) StateReady); [simpl; by auto 8|].
  destruct (String.eqb_spec (Ecc_State r) StateProcessing); [simpl; by auto 8|].
  destruct (String.eqb_spec (Ecc_State r) StateProcessed); [simpl; by auto 8|done].
Qed.

(** Records with text that XML and JSON carry unchanged. *)
Definition record_texts (r : ECC) : list string :=
  [SysID r; Ecc_Agent r; Topic r; Ecc_Name r; Ecc_Source r; Queue r; Ecc_State r; ResponseTo r; AgentCorrelator r;
   Parameters r; Payload r; ErrorString r; CreatedOn r].
Definition record_utf8 (r : ECC) : bool := forallb utf8_valid (record_texts r).

Lemma record_fields_valid r : record_utf8 r = true → forallb field_valid (record_fields r) = true.
Proof.
  unfold record_utf8, record_texts. cbn [forallb]. rewrite !andb_true_iff. intros (H1&H2&H3&H4&H5&H6&H7&H8&H9&H10&H11&H12&H13&_).
  unfold record_fields. rewrite !forallb_app, !text_field_valid by done. cbn [forallb]. unfold field_valid. cbn [fst snd value_valid].
  rewrite H2, H3, H6, H7. done.
Qed.

Lemma record_fields_read r :
  (λ key, field_of key (record_fields r)) <$>
    ["sys_id"; "agent"; "topic"; "name"; "source"; "queue"; "state"; "response_to"; "agent_correlator"; "parameters"; "payload";
     "error_string"; "sys_created_on"]%string = record_texts r.
Proof.
  unfold record_fields, record_texts. cbn [fmap list_fmap].
  assert (∀ s : string, (if bool_decide (s = ""%string) then ""%string else s) = s) as Hid by (intros s; by case_bool_decide).
  assert (∀ (x y : string) l k, x = y → l = k → x :: l = y :: k) as Hcons by congruence.
  repeat (apply Hcons; [by repeat first [rewrite field_of_text|rewrite field_of_last|rewrite Hid|progress cbn -[text_field bool_decide]]|]). done.
Qed.

Lemma record_fields_inj r s : record_fields r = record_fields s → r = s.
Proof.
  intros Heq. pose proof (record_fields_read r) as Hr. rewrite Heq, record_fields_read in Hr. destruct r, s. unfold record_texts in Hr. cbn in Hr. injection Hr. by intros; subst.
Qed.

Definition digest_collision (r s : ECC) : Prop :=
  record_json (digested r) ≠ record_json (digested s) ∧ sha256_hex (record_json (digested r)) = sha256_hex (record_json (digested s)).

(** The digest taken before a claim binds every operation-bearing field: two records
    with the same digest differ at most in state and creation time, or exhibit a SHA-256
    collision. *)
Theorem recordDigest_binds (r s : ECC) (d : string) :
  record_utf8 r = true → record_utf8 s = true →
  recordDigest r = Ok d → recordDigest s = Ok d → digested r = digested s ∨ digest_collision r s.
Proof.
  intros Hr Hs. unfold recordDigest. destruct (_ <? _); [done|]. destruct (maxECCRecordJSONBytes <? slen (record_json (digested s))); [done|].
  intros [= Hd] [= Hd']. destruct (decide (record_json (digested r) = record_json (digested s))) as [Heq|Hne].
  - left. apply record_fields_inj, json_object_inj; [| |exact Heq].
    + apply record_fields_valid. unfold record_utf8, record_texts in *. simpl in *. rewrite !andb_true_iff in *. tauto.
    + apply record_fields_valid. unfold record_utf8, record_texts in *. simpl in *. rewrite !andb_true_iff in *. tauto.
  - right. split; [done|congruence].
Qed.

(** The digest does not depend on the state. *)
Lemma recordDigest_state r state : recordDigest (with_state r state) = recordDigest r.
Proof. done. Qed.

(** ** Results are valid records *)

Lemma take_string_length_le n s : (String.length (take_string n s) <= n)%nat.
Proof. revert s. induction n as [|n IH]; intros [|c s]; simpl; [lia..|]. specialize (IH s). lia. Qed.

Lemma boundedText_length value limit : 0 <= limit → slen (boundedText value limit) <= limit + 3.
Proof.
  intros Hl. unfold boundedText. destruct (Z.leb_spec (slen (String.concat "" (bounded_chunk <$> chunks value))) limit); [lia|].
  unfold slen. rewrite string_length_app. pose proof (take_string_length_le (Z.to_nat limit) (String.concat "" (bounded_chunk <$> chunks value))).
  simpl String.length at 2. lia.
Qed.

Lemma string_of_bytes_length l : String.length (string_of_bytes l) = length l.
Proof. induction l as [|b l IH]; [done|]. simpl. by rewrite <-IH. Qed.

Lemma xml_escape_length s : slen (xml_escape s) <= 5 * slen s.
Proof.
  unfold slen. rewrite <-(chunks_concat s) at 2. unfold xml_escape. pose proof (chunks_ok s) as Hok. revert Hok.
  induction (chunks s) as [|c l IH]; [simpl; lia|]. intros [Hc Hl]%Forall_cons. specialize (IH Hl).
  rewrite !fmap_cons, !concat_cons, !string_length_app, string_of_bytes_length.
  assert (String.length (xml_chunk c) <= 5 * length c.2)%nat; [|lia].
  destruct c as [r bs]. assert (1 <= length bs)%nat by (destruct Hc as [[_ Heq]|(_&Hne&_)]; simpl in *; [subst; simpl; lia|destruct bs; [done|simpl; lia]]).
  unfold xml_chunk. cbn [snd].
  repeat match goal with |- context [if ?b then _ else _] => destruct b; [simpl; lia|] end. rewrite string_of_bytes_length. lia.
Qed.

Lemma xml_attr_length name value : slen (xml_attr name value) <= 10 + slen name + 5 * slen value.
Proof.
  unfold xml_attr, quoted. pose proof (xml_escape_length value). unfold slen in *. rewrite !string_length_app. simpl String.length at 1 3 4 6. lia.
Qed.

Lemma xml_attr_omitempty_length name value : slen (xml_attr_omitempty name value) <= 10 + slen name + 5 * slen value.
Proof. unfold xml_attr_omitempty. case_bool_decide; [unfold slen; simpl; lia|apply xml_attr_length]. Qed.

Lemma payload_length i :
  slen (payload_xml i) <= 200 + 5 * (slen (Item_Status i) + slen (Item_Code i) + slen (Item_Message i) + slen (Item_Version i)).
Proof.
  pose proof (xml_attr_length "status" (Item_Status i)). pose proof (xml_attr_omitempty_length "code" (Item_Code i)).
  pose proof (xml_attr_omitempty_length "message" (Item_Message i)). pose proof (xml_attr_omitempty_length "version" (Item_Version i)).
  unfold payload_xml, slen in *. rewrite !string_length_app. simpl (String.length "status") in *. simpl (String.length "code") in *.
  simpl (String.length "message") in *. simpl (String.length "version") in *. simpl (String.length "<results><result").
  simpl (String.length "></result><parameters></parameters></results>"). lia.
Qed.

Lemma sys_id_plain s : match_sys_id s = true → slen s <= maxShortFieldBytes ∧ hasControl s = false.
Proof.
  unfold match_sys_id. intros [Hl%Z.eqb_eq Hall]%andb_true_iff. split; [unfold maxShortFieldBytes; lia|].
  unfold hasControl, runes, chunks.
  assert (∀ c, is_hex c = true → 32 <= byte_val c < 127) as Hhex.
  { intros c. unfold is_hex, is_digit, in_range. intros Hc. repeat (apply orb_true_iff in Hc as [Hc|Hc]); bool_facts; lia. }
  rewrite string_all_list, forallb_elem_of in Hall.
  rewrite decode_utf8_ascii by (apply bytes_of_forall; intros c Hc; specialize (Hhex c (Hall c Hc)); lia).
  destruct (existsb _ _) eqn:E; [|done]. apply existsb_elem_of in E as (z&Hz&Hc).
  rewrite <-list_fmap_compose in Hz. apply list_elem_of_fmap in Hz as (b&->&Hb). simpl in Hc.
  apply list_elem_of_fmap in Hb as (c&->&Hin). specialize (Hhex c (Hall c Hin)). unfold control_rune in Hc.
  apply orb_true_iff in Hc as [Hc|Hc]; bool_facts; lia.
Qed.

Lemma result_valid r agent name payload error_string :
  validateOutputRecord r agent = Ok tt →
  slen name <= maxShortFieldBytes → hasControl name = false → slen payload <= maxPayloadBytes → slen error_string <= maxErrorStringBytes →
  validateInputRecord (result_record r name payload error_string) agent = Ok tt.
Proof.
  intros (Hid&Hagent&Hq&_&Hf)%validateOutputRecord_ok Hn Hc Hp He. apply validateRecordFields_ok in Hf as (Hs&Ht&Hpar&_&_).
  destruct (sys_id_plain _ Hid) as [Hid1 Hid2]. unfold validateInputRecord. simpl.
  rewrite Hagent, String.eqb_refl, Hid. simpl. apply validateRecordFields_ok. simpl. split_and!; [|done..].
  assert (∀ v, v ∈ short_fields r → slen v <= maxShortFieldBytes ∧ hasControl v = false) as Hall by done.
  assert (∀ l, Forall (λ v, slen v <= maxShortFieldBytes ∧ hasControl v = false) l → ∀ v, v ∈ l → slen v <= maxShortFieldBytes ∧ hasControl v = false) as Hlist by (intros l; by rewrite Forall_forall).
  apply Hlist. unfold short_fields. simpl. assert (∀ i v, short_fields r !! i = Some v → slen v <= maxShortFieldBytes ∧ hasControl v = false) as Hi.
  { intros i v Hv. apply Hall. by eapply list_elem_of_lookup_2. }
  repeat constructor.
  all: first [by apply (Hi 0%nat)|by apply (Hi 1%nat)|by apply (Hi 3%nat)|by apply (Hi 7%nat)|done|by vm_compute|idtac].
Qed.

(** The result that [Dispatch] builds. *)
Definition dispatch_result (r : ECC) (version : string) : ECC :=
  if String.eqb (Topic r) TopicHeartbeat
  then result_record r (Ecc_Name r)
         (payload_xml (mkResultPayloadItem "success" "" "Topo ECC heartbeat acknowledged" (boundedText version 128))) ""
  else result_record r "Topo unsupported ECC topic"
         (payload_xml (mkResultPayloadItem "error" UnsupportedCode unsupported_message "")) unsupported_message.

Lemma dispatch_result_valid r agent version : validateOutputRecord r agent = Ok tt → validateInputRecord (dispatch_result r version) agent = Ok tt.
Proof.
  intros Hv. pose proof (validateOutputRecord_ok _ _ Hv) as (_&Hagent&_&_&Hf). apply validateRecordFields_ok in Hf as (Hs&_).
  unfold dispatch_result. destruct (String.eqb (Topic r) TopicHeartbeat).
  - apply result_valid; [done|apply Hs; by eapply (list_elem_of_lookup_2 _ 2)|apply Hs; by eapply (list_elem_of_lookup_2 _ 2)| |done].
    pose proof (payload_length (mkResultPayloadItem "success" "" "Topo ECC heartbeat acknowledged" (boundedText version 128))) as Hl.
    pose proof (boundedText_length version 128 ltac:(lia)). unfold maxPayloadBytes. cbn [Item_Status Item_Code Item_Message Item_Version] in Hl.
    change (slen "success") with 7 in Hl. change (slen "") with 0 in Hl. change (slen "Topo ECC heartbeat acknowledged") with 31 in Hl. lia.
  - apply result_valid; [done|by vm_compute|by vm_compute|by vm_compute|by vm_compute].
Qed.

Lemma Dispatch_result r agent version : validateOutputRecord r agent = Ok tt → Dispatch r version = Ok (dispatch_result r version).
Proof.
  intros Hv. pose proof (dispatch_result_valid r agent version Hv) as Hok. pose proof (validateOutputRecord_ok _ _ Hv) as (_&Hagent&_).
  unfold Dispatch. fold (dispatch_result r version). by rewrite Hagent, Hok.
Qed.

(** Every valid output record is answered: a heartbeat by an acknowledgement, anything
    else by a visible denial.  The result is a valid input record that names the record it
    answers, and nothing but agent, topic, name, source, correlator and parameters is
    taken over from the record: its payload never is. *)
Theorem Dispatch_answers (r : ECC) (agent version : string) :
  validateOutputRecord r agent = Ok tt →
  ∃ result, Dispatch r version = Ok result ∧ validateInputRecord result agent = Ok tt ∧
    ResponseTo result = SysID r ∧ SysID result = ""%string ∧ AgentCorrelator result = AgentCorrelator r ∧
    (∀ payload error_string state created,
       Dispatch (mkECC (SysID r) (Ecc_Agent r) (Topic r) (Ecc_Name r) (Ecc_Source r) (Queue r) state (ResponseTo r)
         (AgentCorrelator r) (Parameters r) payload error_string created) version = Ok result) ∧
    (ErrorString result = ""%string ↔ Topic r = TopicHeartbeat).
Proof.
  intros Hv. pose proof (validateOutputRecord_ok _ _ Hv) as (_&Hagent&_). pose proof (dispatch_result_valid r agent version Hv) as Hok.
  exists (dispatch_result r version). split; [by eapply Dispatch_result|]. split; [done|].
  assert (∀ payload error_string state created,
    Dispatch (mkECC (SysID r) (Ecc_Agent r) (Topic r) (Ecc_Name r) (Ecc_Source r) (Queue r) state (ResponseTo r)
         (AgentCorrelator r) (Parameters r) payload error_string created) version = Ok (dispatch_result r version)) as Hother.
  { intros payload error_string state created. unfold Dispatch, result_record. cbn [Topic SysID Ecc_Agent Ecc_Name Ecc_Source AgentCorrelator Parameters].
    fold (result_record r (Ecc_Name r)). unfold dispatch_result, result_record in *. rewrite Hagent in *. by rewrite Hok. }
  unfold dispatch_result in *. destruct (String.eqb_spec (Topic r) TopicHeartbeat) as [Ht|Ht]; simpl; by split_and!.
Qed.

Definition denial (r : ECC) (code message : string) : ECC :=
  result_record r "Topo denied ECC record"
    (payload_xml (mkResultPayloadItem "error" (boundedText code 128) (boundedText message maxErrorStringBytes) ""))
    (boundedText message maxErrorStringBytes).

Lemma dispatchError_answers r agent code message :
  validateOutputRecord r agent = Ok tt → slen (boundedText message maxErrorStringBytes) <= maxErrorStringBytes →
  dispatchError r code message = Ok (denial r code message) ∧ validateInputRecord (denial r code message) agent = Ok tt.
Proof.
  intros Hv Hm. pose proof (validateOutputRecord_ok _ _ Hv) as (_&Hagent&_). unfold dispatchError.
  assert (validateInputRecord (denial r code message) agent = Ok tt) as Hok.
  { apply result_valid; [done|by vm_compute|by vm_compute| |done].
    pose proof (payload_length (mkResultPayloadItem "error" (boundedText code 128) (boundedText message maxErrorStringBytes) "")) as Hl.
    cbn [Item_Status Item_Code Item_Message Item_Version] in Hl. pose proof (boundedText_length code 128 ltac:(lia)).
    change (slen "error") with 5 in Hl. change (slen "") with 0 in Hl. unfold maxPayloadBytes, maxErrorStringBytes in *. lia. }
  split; [|done]. rewrite Hagent. unfold denial in *. by rewrite Hok.
Qed.

Definition demo_record : ECC :=
  mkECC "0123456789abcdef0123456789abcdef" "mid.server.m1" "Heartbeat" "" "" QueueOutput StateReady "" "c-1" "" "rm -rf /" "" "2026-01-01".
Lemma Dispatch_answers_witness :
  validateOutputRecord demo_record "mid.server.m1" = Ok tt ∧
  ∃ result, Dispatch demo_record "1.0" = Ok result ∧ validateInputRecord result "mid.server.m1" = Ok tt ∧ ResponseTo result = SysID demo_record.
Proof.
  assert (validateOutputRecord demo_record "mid.server.m1" = Ok tt) as Hv by (vm_compute; reflexivity). split; [exact Hv|].
  destruct (Dispatch_answers demo_record "mid.server.m1" "1.0" Hv) as (result&H1&H2&H3&_). exists result. split; [exact H1|]. split; [exact H2|exact H3].
Defined.
Lemma recordDigest_binds_witness :
  record_utf8 demo_record = true ∧
  (digested demo_record = digested (with_state demo_record StateProcessing) ∨ digest_collision demo_record (with_state demo_record StateProcessing)).
Proof.
  assert (record_utf8 demo_record = true) as Hu by (vm_compute; reflexivity). split; [exact Hu|].
  assert (∃ d, recordDigest demo_record = Ok d) as [d Hd].
  { unfold recordDigest. assert ((maxECCRecordJSONBytes <? slen (record_json (digested demo_record))) = false) as -> by (vm_compute; reflexivity). by eexists. }
  apply (recordDigest_binds demo_record (with_state demo_record StateProcessing) d Hu); [vm_compute; reflexivity|exact Hd|exact Hd].
Defined.
