(* ===== verification/MidState.v ===== *)
(** * [internal/mid/state.go]: the claim journal

    One line of JSON per step of a claim, appended; the last complete line counts.  The
    file is its content, absent or a text.  The reader takes compact JSON, which is what
    [Save] writes; the lock and the permissions of the files are not part of the model. *)

From S2P Require Import Prelude Bytes Text Soap Mid.

Definition journalVersion : Z := 1.
Definition maxJournalBytes : Z := 8 * 2 ^ 20.

Record journalEntry := mkJournalEntry {
  Entry_Version : Z;
  Entry_RecordID : string;
  Entry_RecordDigest : string;
  Entry_Result : option ECC;
  Entry_ResponseSysID : string;
}.
#[export] Instance journalEntry_eq_dec : EqDecision journalEntry.
Proof. solve_decision. Defined.

Definition with_result (e : journalEntry) (r : ECC) : journalEntry :=
  mkJournalEntry (Entry_Version e) (Entry_RecordID e) (Entry_RecordDigest e) (Some r) (Entry_ResponseSysID e).
Definition with_response (e : journalEntry) (id : string) : journalEntry :=
  mkJournalEntry (Entry_Version e) (Entry_RecordID e) (Entry_RecordDigest e) (Entry_Result e) id.

Definition validateJournalEntry (e : journalEntry) : go unit :=
  reject negb (Entry_Version e =? journalVersion) with "MID claim journal version must be %d"%string ;;
  reject negb (match_sys_id (Entry_RecordID e)) with "MID claim journal record_id is invalid"%string ;;
  reject negb (slen (Entry_RecordDigest e) =? 64) with "MID claim journal record_digest is invalid"%string ;;
  reject negb (hex_decodable (Entry_RecordDigest e)) with "MID claim journal record_digest is invalid"%string ;;
  reject negb (bool_decide (Entry_ResponseSysID e = ""%string)) && negb (match_sys_id (Entry_ResponseSysID e))
    with "MID claim journal response_sys_id is invalid"%string ;;
  match Entry_Result e with
  | None => Ok tt
  | Some r =>
    try u := validateInputRecord r (Ecc_Agent r) ;;
    reject negb (String.eqb (ResponseTo r) (Entry_RecordID e)) with "MID claim journal result does not match record_id"%string ;;
    Ok tt
  end.

(** ** Objects as [json.Marshal] writes them *)

Definition object_text {V} (enc : V → string) (fields : list (string * V)) : string :=
  ("{" +:+ join "," ((λ f, json_string f.1 +:+ ":" +:+ enc f.2) <$> fields) +:+ "}")%string.

Inductive member := MText (s : string) | MNumber (z : Z) | MObject (l : list (string * string)).

Definition member_text (m : member) : string :=
  match m with MText s => json_string s | MNumber z => decimal z | MObject l => object_text json_string l end.

Definition string_of_value (v : json_value) : string := match v with FString s => s | _ => ""%string end.
Definition record_members (r : ECC) : list (string * string) := prod_map id string_of_value <$> record_fields r.

Definition entry_members (e : journalEntry) : list (string * member) :=
  [("version"%string, MNumber (Entry_Version e)); ("record_id"%string, MText (Entry_RecordID e));
   ("record_digest"%string, MText (Entry_RecordDigest e))] ++
  match Entry_Result e with Some r => [("result"%string, MObject (record_members r))] | None => [] end ++
  (if bool_decide (Entry_ResponseSysID e = ""%string) then [] else [("response_sys_id"%string, MText (Entry_ResponseSysID e))]).

(** [json.Marshal(entry)] *)
Definition journal_json (e : journalEntry) : string := object_text member_text (entry_members e).
Definition newline : ascii := byte_of 10.

(** What [Save] appends. *)
Definition entry_line (e : journalEntry) : go string :=
  try u := validateJournalEntry e ;;
  let encoded := journal_json e in
  reject maxECCRecordJSONBytes <? slen encoded + 1 with "MID claim journal entry exceeds its bound"%string ;;
  Ok (encoded +:+ String newline "")%string.
Definition append_file (file : option string) (text : string) : option string := Some (default ""%string file +:+ text)%string.

(** ** The reader *)

Definition expect (c : ascii) (s : string) : option string :=
  match s with String d s => if Ascii.eqb c d then Some s else None | EmptyString => None end.

Fixpoint read_fields {V} (read_value : string → option (V * string)) (fuel : nat) (s : string) : option (list (string * V) * string) :=
  match fuel with
  | O => None
  | S fuel =>
    s ← expect (byte_of 34) s;
    '(key, s) ← read_quoted Normal s;
    s ← expect ":"%char s;
    '(v, s) ← read_value s;
    match expect ","%char s with
    | Some s => '(fields, s) ← read_fields read_value fuel s; Some ((key, v) :: fields, s)
    | None => s ← expect "}"%char s; Some ([(key, v)], s)
    end
  end.

Definition read_text (s : string) : option (string * string) := s ← expect (byte_of 34) s; read_quoted Normal s.

Fixpoint read_digits (acc : Z) (s : string) : option (Z * string) :=
  match s with
  | EmptyString => None
  | String c s' => if is_digit c then read_digits (10 * acc + (byte_val c - 48)) s' else Some (acc, s)
  end.
Definition read_number (s : string) : option (Z * string) :=
  match s with String c _ => if is_digit c then read_digits 0 s else None | EmptyString => None end.

Definition read_member (fuel : nat) (s : string) : option (member * string) :=
  match read_text s with
  | Some (t, s) => Some (MText t, s)
  | None =>
    match expect "{"%char s with
    | Some s => '(l, s) ← read_fields read_text fuel s; Some (MObject l, s)
    | None => '(z, s) ← read_number s; Some (MNumber z, s)
    end
  end.

Fixpoint member_of {V} (key : string) (l : list (string * V)) : option V :=
  match l with [] => None | (k, v) :: l => if String.eqb key k then Some v else member_of key l end.
Definition text_of (key : string) (l : list (string * string)) : string := default ""%string (member_of key l).

Definition record_keys : list string :=
  ["sys_id"; "agent"; "topic"; "name"; "source"; "queue"; "state"; "response_to"; "agent_correlator"; "parameters"; "payload";
   "error_string"; "sys_created_on"]%string.

(** [decoder.DisallowUnknownFields()] *)
Definition known {V} (keys : list string) (l : list (string * V)) : bool := forallb (λ f, bool_decide (f.1 ∈ keys)) l.

Definition record_of (l : list (string * string)) : option ECC :=
  if known record_keys l
  then Some (mkECC (text_of "sys_id" l) (text_of "agent" l) (text_of "topic" l) (text_of "name" l) (text_of "source" l)
    (text_of "queue" l) (text_of "state" l) (text_of "response_to" l) (text_of "agent_correlator" l) (text_of "parameters" l)
    (text_of "payload" l) (text_of "error_string" l) (text_of "sys_created_on" l))
  else None.

Definition member_string (key : string) (l : list (string * member)) : option string :=
  match member_of key l with None => Some ""%string | Some (MText s) => Some s | Some _ => None end.

Definition entry_of (l : list (string * member)) : option journalEntry :=
  if known ["version"; "record_id"; "record_digest"; "result"; "response_sys_id"]%string l
  then
    version ← match member_of "version" l with None => Some 0 | Some (MNumber z) => Some z | Some _ => None end;
    id ← member_string "record_id" l;
    digest ← member_string "record_digest" l;
    result ← match member_of "result" l with
             | None => Some None
             | Some (MObject r) => Some <$> record_of r
             | Some _ => None
             end;
    response ← member_string "response_sys_id" l;
    Some (mkJournalEntry version id digest result response)
  else None.

Definition read_line (fuel : nat) (s : string) : option (list (string * member) * string) :=
  s ← expect "{"%char s; read_fields (read_member fuel) fuel s.

(** One value, and nothing after it. *)
Definition decode_entry (line : string) : option journalEntry :=
  '(l, rest) ← read_line (String.length line) line;
  if String.eqb rest "" then entry_of l else None.

(** ** [Load]

    The text between newlines, one line after the other; the last piece is what follows
    the last newline. *)
Fixpoint load_lines (last : option journalEntry) (lines : list string) : go (option journalEntry) :=
  match lines with
  | [] => Ok last
  | line :: rest =>
    match rest with
    | [] =>
      if bool_decide (line = ""%string) then Ok last
      else match decode_entry line with
           | None => Ok last
           | Some e => try u := validateJournalEntry e ;; Ok (Some e)
           end
    | _ =>
      match decode_entry line with
      | None => Err "decode MID claim journal line %d"%string
      | Some e => try u := validateJournalEntry e ;; load_lines (Some e) rest
      end
    end
  end.

Definition no_entry : string := "MID claim journal contains no complete entry".

Definition Load (file : option string) : go (option journalEntry) :=
  match file with
  | None => Ok None
  | Some text =>
    reject maxJournalBytes <? slen text with "MID claim journal exceeds %d bytes"%string ;;
    try last := load_lines None (split_byte newline text) ;;
    match last with
    | None => Err no_entry
    | Some e => Ok (Some e)
    end
  end.

(** ** Readers do not look behind what they read

    If a reader succeeds, it succeeds in the same way when more text follows.  Hence a
    proper prefix of something that is read to its end is not read at all. *)
Definition extends {V} (read : string → option (V * string)) : Prop :=
  ∀ s v r x, read s = Some (v, r) → read (s +:+ x)%string = Some (v, (r +:+ x)%string).

Lemma read_quoted_extends st : extends (read_quoted st).
Proof.
  intros s. revert st. induction s as [|c s IH]; intros st v r x; [done|]. rewrite string_app_cons.
  assert (∀ t st, put t (read_quoted st s) = Some (v, r) → put t (read_quoted st (s +:+ x)%string) = Some (v, r +:+ x)%string) as Hput.
  { intros t st' Hp. destruct (read_quoted st' s) as [[w r']|] eqn:E; [|done]. simpl in Hp. injection Hp as <- <-. by rewrite (IH _ _ _ x E). }
  destruct st as [| |n acc]; cbn [read_quoted].
  - destruct (_ =? 34); [by intros [= <- <-]|]. destruct (_ =? 92); [apply IH|apply Hput].
  - destruct (_ =? 117); [apply IH|]. destruct (simple_escape c); [apply Hput|done].
  - destruct (digit_of c); [|done]. simpl. destruct n as [|[|n]]; [| |apply IH]; (destruct (code_text _); [apply Hput|done]).
Qed.

Lemma expect_extends c s r x : expect c s = Some r → expect c (s +:+ x)%string = Some (r +:+ x)%string.
Proof. destruct s as [|d s]; [done|]. rewrite string_app_cons. simpl. destruct (Ascii.eqb c d); [|done]. by intros [= ->]. Qed.

Lemma expect_none c s x : s ≠ ""%string → expect c s = None → expect c (s +:+ x)%string = None.
Proof. destruct s as [|d s]; [done|]. rewrite string_app_cons. simpl. by destruct (Ascii.eqb c d). Qed.

Lemma expect_some c s r : expect c s = Some r ↔ s = String c r.
Proof.
  destruct s as [|d s]; simpl; [done|]. destruct (Ascii.eqb_spec c d) as [->|Hne]; [split; congruence|]. split; [done|]. by intros [= -> _].
Qed.

Lemma read_text_extends : extends read_text.
Proof.
  intros s v r x. unfold read_text. destruct (expect _ s) as [s'|] eqn:E; [|done]. rewrite (expect_extends _ _ _ x E).
  apply read_quoted_extends.
Qed.

Lemma read_digits_extends acc : extends (read_digits acc).
Proof.
  intros s. revert acc. induction s as [|c s IH]; intros acc v r x; [done|]. rewrite string_app_cons. cbn [read_digits].
  destruct (is_digit c); [apply IH|]. by intros [= <- <-].
Qed.

Lemma read_number_extends : extends read_number.
Proof.
  intros [|c s] v r x; [done|]. intros Hr. pose proof (read_digits_extends 0 (String c s) v r x) as Hd.
  rewrite string_app_cons in *. unfold read_number in *. destruct (is_digit c); [by apply Hd|done].
Qed.

Lemma read_fields_extends {V} (rd rd' : string → option (V * string)) :
  (∀ s v r x, rd s = Some (v, r) → rd' (s +:+ x)%string = Some (v, (r +:+ x)%string)) →
  ∀ n m s v r x, (n <= m)%nat → read_fields rd n s = Some (v, r) → read_fields rd' m (s +:+ x)%string = Some (v, (r +:+ x)%string).
Proof.
  intros Hext. induction n as [|n IH]; intros [|m] s v r x Hle; [done|done|lia|]. cbn [read_fields].
  destruct (expect _ s) as [s1|] eqn:E1; [|done]. rewrite (expect_extends _ _ _ x E1). cbn [mbind option_bind].
  destruct (read_quoted Normal s1) as [[key s2]|] eqn:E2; [|done]. rewrite (read_quoted_extends _ _ _ _ x E2). cbn [mbind option_bind].
  destruct (expect _ s2) as [s3|] eqn:E3; [|done]. rewrite (expect_extends _ _ _ x E3). cbn [mbind option_bind].
  destruct (rd s3) as [[w s4]|] eqn:E4; [|done]. rewrite (Hext _ _ _ x E4). cbn [mbind option_bind].
  destruct (expect ","%char s4) as [s5|] eqn:E5.
  - rewrite (expect_extends _ _ _ x E5). destruct (read_fields rd n s5) as [[l s6]|] eqn:E6; [|done].
    rewrite (IH m _ _ _ x ltac:(lia) E6). by intros [= <- <-].
  - destruct (expect "}"%char s4) as [s6|] eqn:E6; [|done]. intros [= <- <-]. apply expect_some in E6 as ->. done.
Qed.

Lemma read_member_extends n m : (n <= m)%nat →
  ∀ s v r x, read_member n s = Some (v, r) → read_member m (s +:+ x)%string = Some (v, (r +:+ x)%string).
Proof.
  intros Hle s v r x. unfold read_member. destruct (read_text s) as [[t s1]|] eqn:E1.
  { rewrite (read_text_extends _ _ _ x E1). by intros [= <- <-]. }
  destruct s as [|c s]; [done|]. assert (read_text (String c s +:+ x)%string = None ∨ c = byte_of 34) as [Hn| ->].
  { unfold read_text. rewrite string_app_cons. cbn [expect]. destruct (Ascii.eqb_spec (byte_of 34) c) as [<-|]; [by right|by left]. }
  - rewrite Hn. destruct (expect "{"%char (String c s)) as [s1|] eqn:E2.
    + rewrite (expect_extends _ _ _ x E2). destruct (read_fields read_text n s1) as [[l s2]|] eqn:E3; [|done].
      rewrite (read_fields_extends _ _ read_text_extends n m _ _ _ x Hle E3). by intros [= <- <-].
    + rewrite expect_none by done. destruct (read_number (String c s)) as [[z s1]|] eqn:E3; [|done].
      rewrite (read_number_extends _ _ _ x E3). by intros [= <- <-].
  - done.
Qed.

Lemma read_line_extends n m s v r x : (n <= m)%nat →
  read_line n s = Some (v, r) → read_line m (s +:+ x)%string = Some (v, (r +:+ x)%string).
Proof.
  intros Hle. unfold read_line. destruct (expect _ s) as [s1|] eqn:E1; [|done]. rewrite (expect_extends _ _ _ x E1).
  by apply read_fields_extends; [apply read_member_extends|].
Qed.

(** A line that is decoded has no decodable proper prefix. *)
Lemma decode_prefix t x l : read_line (String.length (t +:+ x)) (t +:+ x)%string = Some (l, ""%string) → x ≠ ""%string → decode_entry t = None.
Proof.
  intros Hr Hx. unfold decode_entry. destruct (read_line (String.length t) t) as [[l' r]|] eqn:E; [|done].
  assert (String.length t <= String.length (t +:+ x)%string)%nat as Hle by (rewrite string_length_app; lia).
  pose proof (read_line_extends _ _ _ _ _ x Hle E) as H'.
  rewrite H' in Hr. injection Hr as _ Hr. by destruct r; [destruct x|].
Qed.

(** ** What [Save] writes is read back *)

Lemma join_length l : (∀ x, x ∈ l → x ≠ ""%string) → (length l <= String.length (join "," l))%nat.
Proof.
  induction l as [|x l IH]; intros Hne; [done|]. assert (x ≠ ""%string) as Hx by (apply Hne; by left).
  destruct x as [|c x]; [done|]. destruct l as [|y l]; [simpl; lia|].
  change (join "," (String c x :: y :: l)) with (String c x +:+ ("," +:+ join "," (y :: l)))%string. rewrite !string_length_app.
  specialize (IH ltac:(intros z Hz; apply Hne; by right)). simpl in *. lia.
Qed.

Lemma join_part x l : x ∈ l → (String.length x <= String.length (join "," l))%nat.
Proof.
  induction 1 as [x l|x y l Hx IH]; destruct l as [|z l]; try (by apply elem_of_nil in Hx); [by simpl| |].
  - change (join "," (x :: z :: l)) with (x +:+ ("," +:+ join "," (z :: l)))%string. rewrite string_length_app. lia.
  - change (join "," (y :: z :: l)) with (y +:+ ("," +:+ join "," (z :: l)))%string. rewrite !string_length_app. lia.
Qed.

Section fields_read.
Context {V : Type} (enc : V → string) (rd : string → option (V * string)) (ok : V → Prop).
Context (Hrd : ∀ v rest, ok v → ends "}"%char rest → rd (enc v +:+ rest)%string = Some (v, rest)).
Definition field_enc (f : string * V) : string := (json_string f.1 +:+ ":" +:+ enc f.2)%string.
Definition fields_ok (l : list (string * V)) : Prop := Forall (λ f, utf8_valid f.1 = true ∧ ok f.2) l.

Lemma object_text_length l : (length l <= String.length (object_text enc l))%nat.
Proof.
  unfold object_text. rewrite !string_length_app. pose proof (join_length (field_enc <$> l)) as Hl. rewrite length_fmap in Hl.
  fold field_enc. assert (length l <= String.length (join "," (field_enc <$> l)))%nat; [|lia].
  apply Hl. intros x Hx. by apply list_elem_of_fmap in Hx as (f&->&_).
Qed.

Lemma expect_quoted s rest : expect (byte_of 34) (json_string s +:+ rest)%string = Some (drop_string 1 (json_string s) +:+ rest)%string.
Proof. done. Qed.

Lemma read_fields_reads l n rest : l ≠ [] → fields_ok l → (length l <= n)%nat →
  read_fields rd n (join "," (field_enc <$> l) +:+ String "}" rest)%string = Some (l, rest).
Proof.
  revert n. induction l as [|f l IH]; intros n Hne Hok Hlen; [done|]. apply Forall_cons in Hok as [[Hk Hv] Hok].
  destruct n as [|n]; [simpl in Hlen; lia|]. rewrite (join_cons_text field_enc "}"%char). unfold field_enc at 1.
  rewrite !string_app_assoc. cbn [read_fields]. rewrite expect_quoted. cbn [mbind option_bind]. rewrite json_string_reads by done. cbn [mbind option_bind].
  change (expect ":"%char (":" +:+ ?t)%string) with (Some t). cbn [mbind option_bind].
  pose proof (tail_ends field_enc "}"%char l rest) as He. rewrite Hrd by done. cbn [mbind option_bind].
  destruct l as [|g l]; [by destruct f|]. cbn [tail_text].
  change (expect ","%char ("," +:+ ?t)%string) with (Some t). cbv iota beta. rewrite IH; [by destruct f|done|done|simpl in *; lia].
Qed.
End fields_read.

Lemma read_text_reads s rest : utf8_valid s = true → read_text (json_string s +:+ rest)%string = Some (s, rest).
Proof. intros Hs. unfold read_text. rewrite expect_quoted. by apply json_string_reads. Qed.

(** Members that the journal has. *)
Definition member_ok (n : nat) (m : member) : Prop :=
  match m with
  | MText s => utf8_valid s = true
  | MNumber z => z = journalVersion
  | MObject l => l ≠ [] ∧ fields_ok (λ s, utf8_valid s = true) l ∧ (length l <= n)%nat
  end.

Lemma read_member_reads n m rest : member_ok n m → ends "}"%char rest → read_member n (member_text m +:+ rest)%string = Some (m, rest).
Proof.
  intros Hm (c&t&->&Hc). unfold read_member. destruct m as [s|z|l]; simpl in Hm.
  - cbn [member_text]. by rewrite read_text_reads.
  - subst z. by destruct Hc as [-> | ->].
  - destruct Hm as (Hne&Hok&Hlen). unfold member_text, object_text. rewrite !string_app_assoc.
    change ("{" +:+ ?s)%string with (String "{" s). cbn [read_text expect Ascii.eqb Bool.eqb mbind option_bind].
    change ("}" +:+ ?s)%string with (String "}" s).
    change (λ f : string * string, _) with (field_enc json_string).
    rewrite (read_fields_reads json_string read_text (λ s, utf8_valid s = true)); [done| |done|done|done].
    intros v r Hv _. by apply read_text_reads.
Qed.

Definition entry_utf8 (e : journalEntry) : bool :=
  utf8_valid (Entry_RecordID e) && utf8_valid (Entry_RecordDigest e) && utf8_valid (Entry_ResponseSysID e)
  && match Entry_Result e with Some r => record_utf8 r | None => true end.

Lemma member_of_record key r : In key record_keys → text_of key (record_members r) = field_of key (record_fields r).
Proof.
  intros _. unfold text_of, record_members. induction (record_fields r) as [|[k v] l IH]; [done|].
  rewrite fmap_cons. cbn [prod_map fst snd member_of field_of id]. destruct (String.eqb key k); [by destruct v|done].
Qed.

Lemma record_of_members r : record_of (record_members r) = Some r.
Proof.
  unfold record_of. assert (known record_keys (record_members r) = true) as ->.
  { unfold known, record_members, record_fields, text_field. apply forallb_elem_of. intros f Hf. apply list_elem_of_fmap in Hf as (g&->&Hg).
    apply bool_decide_eq_true. cbn [prod_map fst id].
    repeat match goal with
    | H : g ∈ _ ++ _ |- _ => apply elem_of_app in H as [H|H]
    | H : g ∈ (if bool_decide _ then [] else _) |- _ => case_bool_decide; [by apply elem_of_nil in H|]
    | H : g ∈ [] |- _ => by apply elem_of_nil in H
    | H : g ∈ _ :: _ |- _ => apply elem_of_cons in H as [->|H]
    end; apply list_elem_of_In; simpl; tauto. }
  f_equal. pose proof (record_fields_read r) as Hr. cbn [fmap list_fmap] in Hr. unfold record_texts in Hr.
  rewrite !member_of_record by (simpl; tauto). injection Hr as -> -> -> -> -> -> -> -> -> -> -> -> ->. by destruct r.
Qed.

Lemma record_members_ok r : record_utf8 r = true → record_members r ≠ [] ∧ fields_ok (λ s, utf8_valid s = true) (record_members r).
Proof.
  intros Hu. split.
  - unfold record_members, record_fields, text_field. case_bool_decide; done.
  - apply Forall_forall. intros f Hf. apply list_elem_of_fmap in Hf as (g&->&Hg). pose proof (record_fields_valid r Hu) as Hv.
    rewrite forallb_elem_of in Hv. specialize (Hv g Hg). unfold field_valid in Hv. apply andb_true_iff in Hv as [Hk Hv]. split; [done|].
    destruct g as [k [s|z|l]]; simpl in *; done.
Qed.

Lemma entry_of_members e : entry_of (entry_members e) = Some e.
Proof.
  assert (known ["version"; "record_id"; "record_digest"; "result"; "response_sys_id"]%string (entry_members e) = true) as Hk.
  { unfold entry_members. destruct (Entry_Result e); by case_bool_decide. }
  unfold entry_of. rewrite Hk. destruct e as [v id d r s]. unfold entry_members. cbn [Entry_Version Entry_RecordID Entry_RecordDigest Entry_Result Entry_ResponseSysID].
  destruct r as [r|]; case_bool_decide as Hs; unfold member_string; cbn -[record_of record_members];
    rewrite ?record_of_members; cbn; subst; done.
Qed.

Lemma entry_members_ok e n : entry_utf8 e = true → Entry_Version e = journalVersion → (String.length (journal_json e) <= n)%nat →
  fields_ok (member_ok n) (entry_members e).
Proof.
  intros Hu Hv Hn. unfold entry_utf8 in Hu. bool_facts. unfold fields_ok, entry_members. repeat (apply Forall_app; split).
  + repeat constructor; cbn [snd member_ok]; done.
  + destruct (Entry_Result e) as [r|] eqn:Hr; [|constructor]. apply Forall_singleton. split; [done|].
    destruct (record_members_ok r ltac:(done)) as [Hne Hok]. cbn [snd member_ok]. split; [exact Hne|]. split; [exact Hok|].
    pose proof (object_text_length json_string (record_members r)).
    assert (field_enc member_text ("result"%string, MObject (record_members r)) ∈ field_enc member_text <$> entry_members e) as Hin.
    { apply list_elem_of_fmap_2. unfold entry_members. rewrite Hr. apply elem_of_app. right. apply elem_of_app. left. by left. }
    apply join_part in Hin. unfold journal_json, object_text at 1 in Hn. rewrite !string_length_app in Hn.
    change (λ f : string * member, _) with (field_enc member_text) in Hn. unfold field_enc at 1 in Hin. rewrite !string_length_app in Hin.
    cbn [snd member_text] in Hin. lia.
  + case_bool_decide; repeat constructor. done.
Qed.

Lemma read_line_reads e n rest : Entry_Version e = journalVersion → entry_utf8 e = true → (String.length (journal_json e) <= n)%nat →
  read_line n (journal_json e +:+ rest)%string = Some (entry_members e, rest).
Proof.
  intros Hv Hu Hn. pose proof (entry_members_ok e n Hu Hv Hn) as Hok. unfold read_line, journal_json, object_text. rewrite !string_app_assoc.
  change ("{" +:+ ?s)%string with (String "{" s). change ("}" +:+ ?s)%string with (String "}" s).
  cbn [expect Ascii.eqb Bool.eqb mbind option_bind]. change (λ f : string * member, _) with (field_enc member_text).
  rewrite (read_fields_reads member_text (read_member n) (member_ok n)); [done| |done|done|].
  - intros m r. apply read_member_reads.
  - pose proof (object_text_length member_text (entry_members e)). unfold journal_json in Hn. lia.
Qed.

Lemma decode_entry_line e : Entry_Version e = journalVersion → entry_utf8 e = true →
  read_line (String.length (journal_json e)) (journal_json e) = Some (entry_members e, ""%string).
Proof. intros Hv Hu. rewrite <-(string_app_nil_r (journal_json e)) at 2. by rewrite read_line_reads. Qed.

Lemma decode_entry_reads e : Entry_Version e = journalVersion → entry_utf8 e = true → decode_entry (journal_json e) = Some e.
Proof. intros Hv Hu. unfold decode_entry. rewrite decode_entry_line by done. cbn. apply entry_of_members. Qed.

Lemma journal_json_line e : free_of newline (journal_json e).
Proof.
  assert (∀ V (enc : V → string) l, Forall (λ f, free_of newline (enc f.2)) l → free_of newline (object_text enc l)) as Hobj.
  { intros V enc l Hl. unfold object_text. rewrite !free_of_app. split; [done|]. split; [|done].
    induction Hl as [|f l Hf Hl IH]; [done|].
    assert (free_of newline (json_string f.1 +:+ ":" +:+ enc f.2)%string) as Hf'.
    { rewrite !free_of_app. split; [by apply json_string_printable|]. by split. }
    destruct l as [|g l]; [done|]. rewrite fmap_cons. change (join "," (?x :: ?y)) with (x +:+ ("," +:+ join "," y))%string.
    apply free_of_app. split; [exact Hf'|]. apply free_of_app. split; [done|exact IH]. }
  unfold journal_json. apply Hobj. apply Forall_forall. intros [k m] _. destruct m as [s|z|l]; cbn [snd member_text].
  - by apply json_string_printable.
  - by apply decimal_free.
  - apply Hobj, Forall_forall. intros f _. by apply json_string_printable.
Qed.

(** ** The journal after a crash *)

Lemma validateJournalEntry_version e : validateJournalEntry e = Ok tt → Entry_Version e = journalVersion.
Proof. unfold validateJournalEntry. destruct (Z.eqb_spec (Entry_Version e) journalVersion); [done|by simpl]. Qed.

(** Entries that [Save] accepts, of text that JSON carries. *)
Definition saved (e : journalEntry) : Prop := validateJournalEntry e = Ok tt ∧ entry_utf8 e = true.
Definition entry_text (e : journalEntry) : string := (journal_json e +:+ String newline "")%string.
Definition written (es : list journalEntry) : string := String.concat "" (entry_text <$> es).

Lemma entry_line_text e line : entry_line e = Ok line → line = entry_text e ∧ validateJournalEntry e = Ok tt ∧ slen line <= maxECCRecordJSONBytes.
Proof.
  unfold entry_line, entry_text. destruct (validateJournalEntry e) as [[]|]; [|done].
  destruct (Z.ltb_spec maxECCRecordJSONBytes (slen (journal_json e) + 1)); [done|]. intros [= <-]. split; [done|]. split; [done|].
  unfold slen in *. rewrite string_length_app. simpl (String.length (String newline "")). lia.
Qed.

Lemma split_written es t : free_of newline t → split_byte newline (written es +:+ t)%string = (journal_json <$> es) ++ [t].
Proof.
  intros Ht. induction es as [|e es IH]; [by apply split_byte_free|].
  unfold written. rewrite fmap_cons, concat_cons, string_app_assoc. unfold entry_text at 1. rewrite string_app_assoc.
  change (String newline "" +:+ ?s)%string with (String newline s). rewrite split_byte_app by apply journal_json_line.
  cbn [app fmap list_fmap]. f_equal. exact IH.
Qed.

Lemma written_snoc es e : written (es ++ [e]) = (written es +:+ entry_text e)%string.
Proof.
  unfold written. rewrite fmap_app. induction (entry_text <$> es) as [|x l IH]; [cbn; by rewrite ?string_app_nil_r|].
  cbn [app]. by rewrite !concat_cons, IH, string_app_assoc.
Qed.

Lemma load_line last e rest : saved e → load_lines last (journal_json e :: rest) = load_lines (Some e) rest ∨ rest = [].
Proof.
  intros [Hv Hu]. destruct rest as [|x rest]; [by right|left]. cbn [load_lines].
  rewrite decode_entry_reads, Hv; [done|by apply validateJournalEntry_version|done].
Qed.

Lemma load_written last es t : Forall saved es →
  load_lines last ((journal_json <$> es) ++ [t]) = load_lines (match list.last es with Some e => Some e | None => last end) [t].
Proof.
  intros Hes. revert last. induction Hes as [|e es He Hes IH]; intros last; [done|].
  rewrite fmap_cons. cbn [app]. destruct (load_line last e ((journal_json <$> es) ++ [t]) He) as [->|Hn].
  - rewrite IH. rewrite last_cons. by destruct (list.last es).
  - by destruct (journal_json <$> es).
Qed.

Lemma decode_torn e k : saved e → (k < String.length (journal_json e))%nat → decode_entry (take_string k (journal_json e)) = None.
Proof.
  intros [Hv Hu] Hk. eapply (decode_prefix _ (drop_string k (journal_json e))).
  - rewrite <-take_drop_string. apply decode_entry_line; [by apply validateJournalEntry_version|done].
  - intros Hd. pose proof (f_equal String.length (take_drop_string k (journal_json e))) as Hl.
    rewrite string_length_app, Hd in Hl. change (String.length "") with 0%nat in Hl. pose proof (take_string_length_le k (journal_json e)). lia.
Qed.

(** C23: a crash in the middle of an append loses at most the entry being appended.  If the
    journal holds entries [es] and the first [k] bytes of the line of [e] reached the disk,
    [Load] gives [e] when its text is complete (with or without its newline), and otherwise
    the last entry before it; when there is none before it, [Load] fails. *)
Theorem Load_after_crash (es : list journalEntry) (e : journalEntry) (k : nat) :
  Forall saved es → saved e → slen (written (es ++ [e])) <= maxJournalBytes →
  Load (append_file (if bool_decide (es = []) then None else Some (written es)) (take_string k (entry_text e))) =
    match (if (String.length (journal_json e) <=? k)%nat then Some e else list.last es) with
    | Some e => Ok (Some e)
    | None => Err no_entry
    end.
Proof.
  intros Hes He Hsize. unfold append_file. assert ((default ""%string (if bool_decide (es = []) then None else Some (written es))) = written es) as ->.
  { case_bool_decide; subst; done. }
  unfold Load. assert ((maxJournalBytes <? slen (written es +:+ take_string k (entry_text e))%string) = false) as ->.
  { apply Z.ltb_ge. rewrite written_snoc in Hsize. unfold slen in *. rewrite string_length_app in *.
    pose proof (f_equal String.length (take_drop_string k (entry_text e))) as Hl. rewrite string_length_app in Hl. lia. }
  pose proof (validateJournalEntry_version e (proj1 He)) as Hver. pose proof (journal_json_line e) as Hline.
  destruct (Nat.leb_spec (String.length (journal_json e)) k) as [Hk|Hk].
  - destruct (decide (k = String.length (journal_json e))) as [->|Hne].
    + unfold entry_text. rewrite take_string_app, take_string_all by lia. rewrite split_written, load_written by (exact Hline || exact Hes).
      cbn [load_lines]. rewrite bool_decide_eq_false_2 by (unfold journal_json, object_text; done).
      rewrite decode_entry_reads by (done || apply He). rewrite (proj1 He). done.
    + assert (String.length (entry_text e) = String.length (journal_json e) + 1)%nat as Hlen by (unfold entry_text; by rewrite string_length_app).
      rewrite take_string_all by lia.
      rewrite <-written_snoc, <-(string_app_nil_r (written (es ++ [e]))).
      rewrite split_written, load_written by (done || by apply Forall_app_2; [|constructor]). rewrite last_snoc. done.
  - unfold entry_text. rewrite take_string_app by lia. rewrite split_written, load_written by (done || by apply free_of_take).
    cbn [load_lines]. rewrite decode_torn by done. case_bool_decide; by destruct (list.last es).
Qed.

Definition demo_entry : journalEntry :=
  mkJournalEntry 1 "0123456789abcdef0123456789abcdef" "e3b0c44298fc1c149afbf4c8996fb92427ae41e4649b934ca495991b7852b855" None "".
Lemma Load_after_crash_witness :
  saved demo_entry ∧
  Load (append_file (Some (written [demo_entry])) (take_string 20 (entry_text demo_entry))) = Ok (Some demo_entry) ∧
  Load (append_file None (take_string 20 (entry_text demo_entry))) = Err no_entry.
Proof.
  assert (saved demo_entry) as Hs by (split; vm_compute; reflexivity).
  assert (Forall saved [demo_entry]) as Hf by (constructor; [exact Hs|constructor]).
  split; [exact Hs|]. split.
  - apply (Load_after_crash [demo_entry] demo_entry 20 Hf Hs). vm_compute. congruence.
  - apply (Load_after_crash [] demo_entry 20 ltac:(constructor) Hs). vm_compute. congruence.
Defined.

(** ** Torn lines do not read as something else

    Whatever an interrupted append leaves, and whatever is appended behind it, the line
    that comes of it is never decoded: every entry starts with the same text, and that
    start is refused wherever an entry can be cut. *)
Definition entry_start : string := (char 123 +:+ json_string "version" +:+ ":1,")%string.

(** What can follow a cut: nothing, or one or more starts of entries. *)
Inductive compat : string → Prop :=
| compat_nil : compat ""
| compat_full y : compat (entry_start +:+ y)%string
| compat_part k z : (1 <= k < String.length entry_start)%nat → compat z → compat (take_string k entry_start +:+ z)%string.

Lemma compat_app a b : compat a → compat b → compat (a +:+ b)%string.
Proof.
  intros Ha Hb. induction Ha as [|y|k z Hk Hz IH]; [done| |]; rewrite string_app_assoc; [apply compat_full|by apply compat_part].
Qed.

Lemma compat_take k y : compat (take_string k (entry_start +:+ y)%string).
Proof.
  destruct (decide (String.length entry_start <= k)%nat) as [Hk|Hk].
  - assert (take_string k (entry_start +:+ y) = entry_start +:+ take_string (k - String.length entry_start) y)%string as ->; [|apply compat_full].
    replace k with (String.length entry_start + (k - String.length entry_start))%nat at 1 by lia. generalize (k - String.length entry_start)%nat. intros n. clear Hk.
    induction entry_start as [|c s IH]; [done|]. rewrite !string_app_cons. simpl. by rewrite IH.
  - destruct k as [|k]; [constructor|]. rewrite take_string_app by lia. rewrite <-(string_app_nil_r (take_string _ _)). apply compat_part; [lia|constructor].
Qed.

(** Text at which no reader of an object goes on. *)
Definition bad (r : string) : Prop := match r with EmptyString => True | String c _ => c = "{"%char ∨ c = "v"%char end.

Lemma compat_bad z : compat z → bad z.
Proof.
  destruct 1 as [|y|k z Hk Hz]; [done|by left|]. destruct k as [|k]; [lia|]. by left.
Qed.

Lemma bad_expect c r : bad r → c ≠ "{"%char → c ≠ "v"%char → expect c r = None.
Proof. destruct r as [|d r]; [done|]. simpl. intros [-> | ->] H1 H2; by rewrite (proj2 (Ascii.eqb_neq _ _)). Qed.

Definition refused {A} (r : option (A * string)) : Prop := match r with None => True | Some (_, rest) => bad rest end.

Lemma refused_put a r : refused r → refused (put a r).
Proof. by destruct r as [[v rest]|]. Qed.

Ltac part_cases Hk :=
  apply in_seq in Hk; cbn [List.seq In] in Hk;
  repeat match type of Hk with _ ∨ _ => destruct Hk as [<-|Hk] end; [..|done].


Lemma refused_quoted z : compat z → refused (read_quoted Normal z).
Proof.
  induction 1 as [|y|k z Hk Hz IH]; [done|cbn; by right|].
  assert (1 <= k < 1 + 12)%nat as Hk' by exact Hk. part_cases Hk'; cbn; try (by right); [by apply refused_put|by apply compat_bad].
Qed.

(** Inside a string: whatever state the cut leaves the reader in. *)
Lemma refused_state st z : compat z → refused (read_quoted st z).
Proof.
  intros Hz. destruct st as [| |n acc]; [by apply refused_quoted| |]; destruct Hz as [|y|k z Hk Hz]; try done;
    destruct k as [|k]; by try lia.
Qed.

Lemma quoted_prefix t : ∀ st x v, read_quoted st (t +:+ x)%string = Some (v, ""%string) → x ≠ ""%string →
  ∀ z, compat z → refused (read_quoted st (t +:+ z)%string).
Proof.
  induction t as [|c t IH]; intros st x v Hr Hx z Hz; [by apply refused_state|]. rewrite string_app_cons in *.
  assert (∀ a st', put a (read_quoted st' (t +:+ x)%string) = Some (v, ""%string) → refused (put a (read_quoted st' (t +:+ z)%string))) as Hput.
  { intros a st' Hp. destruct (read_quoted st' (t +:+ x)%string) as [[w r]|] eqn:E; [|done]. simpl in Hp. injection Hp as _ ->.
    apply refused_put. by eapply IH. }
  destruct st as [| |n acc]; cbn [read_quoted] in *.
  - destruct (_ =? 34). { injection Hr as _ Hr. by destruct t; [destruct x|]. } destruct (_ =? 92); [by eapply IH|by eapply Hput].
  - destruct (_ =? 117); [by eapply IH|]. destruct (simple_escape c); [by eapply Hput|done].
  - destruct (digit_of c); [|done]. simpl in *. destruct n as [|[|n]]; [| |by eapply IH]; (destruct (code_text _); [by eapply Hput|done]).
Qed.

(** Reading a text that starts like [w] but is cut, complete or not, is refused. *)
Definition cut_refused {A} (read : string → option (A * string)) (w : string) : Prop :=
  ∀ t x z, w = (t +:+ x)%string → compat z → refused (read (t +:+ z)%string).

Lemma app_split t x a b : (t +:+ x = a +:+ b)%string → (∃ y, a = t +:+ y)%string ∨ (∃ t', t' ≠ "" ∧ t = a +:+ t' ∧ b = t' +:+ x)%string.
Proof.
  revert a. induction t as [|c t IH]; intros a; [intros _; left; by exists a|]. destruct a as [|d a].
  - rewrite string_app_nil. intros <-. right. by exists (String c t).
  - rewrite !string_app_cons. intros [= <- Heq]. destruct (IH a Heq) as [[y ->]|(t'&?&->&->)]; [left; by exists y|right; by exists t'].
Qed.

Lemma refused_text s : utf8_valid s = true → cut_refused read_text (json_string s).
Proof.
  intros Hs t x z Heq Hz. destruct t as [|c t].
  - unfold read_text. rewrite string_app_nil, (bad_expect _ z); [done|by apply compat_bad|done|done].
  - injection Heq as <- Heq. unfold read_text. change (expect (byte_of 34) (String (byte_of 34) t +:+ z)%string) with (Some (t +:+ z)%string).
    cbn [mbind option_bind]. pose proof (json_string_reads s "" Hs) as Hr. rewrite string_app_nil_r in Hr.
    change (drop_string 1 (json_string s)) with (String.concat "" (json_chunk <$> chunks s) +:+ dquote)%string in Hr.
    change (String.concat "" (json_chunk <$> chunks s) +:+ dquote = t +:+ x)%string in Heq. rewrite Heq in Hr.
    destruct (decide (x = ""%string)) as [->|Hx]; [|by eapply quoted_prefix].
    rewrite string_app_nil_r in Hr. rewrite (read_quoted_extends _ _ _ _ z Hr). simpl. by apply compat_bad.
Qed.

Section fields_refused.
Context {V : Type} (enc : V → string) (rd : string → option (V * string)) (ok : V → Prop).
Context (Hrd : ∀ v rest, ok v → ends "}"%char rest → rd (enc v +:+ rest)%string = Some (v, rest)).
Context (Hcut : ∀ v, ok v → cut_refused rd (enc v)).

Lemma refused_fields l n t x z : l ≠ [] → fields_ok ok l →
  (join "," (field_enc enc <$> l) +:+ "}" = t +:+ x)%string → x ≠ ""%string → compat z → read_fields rd n (t +:+ z)%string = None.
Proof.
  revert n t. induction l as [|[key v] l IH]; intros n t Hne Hok Heq Hx Hz; [done|]. apply Forall_cons in Hok as [[Hk Hv] Hok]. cbn [fst snd] in *.
  destruct n as [|n]; [done|]. rewrite (join_cons_text (field_enc enc) "}"%char (key, v) l "") in Heq. unfold field_enc at 1 in Heq. cbn [fst snd] in Heq.
  rewrite !string_app_assoc in Heq. symmetry in Heq. apply app_split in Heq as [[y Heq]|(t1&Hne1&->&Heq)].
  { pose proof (refused_text key Hk t y z Heq Hz) as Hr. unfold read_text in Hr. cbn [read_fields].
    destruct (expect _ (t +:+ z)%string) as [s1|]; [|done]. cbn [mbind option_bind] in *. destruct (read_quoted Normal s1) as [[k s2]|]; [|done].
    simpl in *. by rewrite (bad_expect _ s2). }
  cbn [read_fields]. rewrite string_app_assoc, expect_quoted. cbn [mbind option_bind]. rewrite json_string_reads by done. cbn [mbind option_bind].
  destruct t1 as [|c t2]; [done|]. injection Heq as <- Heq. change (expect ":"%char (String ":" t2 +:+ z)%string) with (Some (t2 +:+ z)%string).
  cbn [mbind option_bind]. rewrite string_app_nil in Heq. symmetry in Heq. apply app_split in Heq as [[y Heq]|(t3&Hne3&->&Heq)].
  { pose proof (Hcut v Hv t2 y z Heq Hz) as Hr. destruct (rd (t2 +:+ z)%string) as [[w s4]|]; [|done]. simpl in *. by rewrite !(bad_expect _ s4). }
  rewrite string_app_assoc. destruct t3 as [|c t4]; [done|]. destruct l as [|g l].
  { injection Heq as <- Heq. destruct t4; [|done]. rewrite string_app_nil in Heq. by subst x. }
  injection Heq as <- Heq. rewrite Hrd; [|done|by eexists _, _; split; [reflexivity|left]]. cbn [mbind option_bind].
  change (expect ","%char (String "," t4 +:+ z)%string) with (Some (t4 +:+ z)%string). cbv iota beta.
  rewrite (IH n t4); [done|done|done| |done|done]. done.
Qed.
End fields_refused.

Lemma refused_key n z : compat z → ∀ a, read_fields read_text n (char 34 +:+ a +:+ z)%string = None ∨ contains_byte (byte_of 34) a || contains_byte "\"%char a = true.
Proof.
  intros Hz a. destruct (contains_byte (byte_of 34) a || contains_byte "\"%char a) eqn:E; [by right|left]. apply orb_false_iff in E as [E1 E2].
  apply contains_byte_free in E1, E2. destruct n as [|n]; [done|]. cbn [read_fields].
  change (expect (byte_of 34) (char 34 +:+ ?s)%string) with (Some s). cbn [mbind option_bind].
  assert (refused (read_quoted Normal (a +:+ z)%string)) as Hr.
  { clear -E1 E2 Hz. induction a as [|c a IH]; [by apply refused_quoted|]. rewrite string_app_cons. unfold free_of in *. cbn [string_all] in *.
    apply andb_true_iff in E1 as [H1 E1], E2 as [H2 E2]. cbn [read_quoted].
    destruct (Z.eqb_spec (byte_val c) 34) as [Hc|_]; [by rewrite <-Hc, byte_of_val, Ascii.eqb_refl in H1|].
    destruct (Z.eqb_spec (byte_val c) 92) as [Hc|_].
    { assert (c = "\"%char) as -> by (by rewrite <-(byte_of_val c), Hc). by rewrite Ascii.eqb_refl in H2. }
    by apply refused_put, IH. }
  destruct (read_quoted Normal _) as [[k r]|]; [|done]. simpl in *. by rewrite (bad_expect _ r).
Qed.

(** The start of an entry where a member of an entry is expected. *)
Lemma refused_start n z : compat z → refused (read_member n z).
Proof.
  intros Hz. destruct Hz as [|y|k z Hk Hz]; [done| |].
  - change (refused ('(l, s) ← read_fields read_text n (String (byte_of 34) ("version" +:+ String (byte_of 34) (":1," +:+ y))); Some (MObject l, s))%string).
    by destruct n as [|n].
  - assert (1 <= k < 1 + 12)%nat as Hk' by exact Hk.
    assert (∀ s, read_fields read_text n s = None → refused ('(l, r) ← read_fields read_text n s; Some (MObject l, r))) as Hnone by (by intros s ->).
    assert (∀ a, contains_byte (byte_of 34) a || contains_byte "\"%char a = false → read_fields read_text n (char 34 +:+ a +:+ z)%string = None) as Hkey.
    { intros a Ha. destruct (refused_key n z Hz a) as [|Ht]; [done|]. by rewrite Ht in Ha. }
    assert (∀ r, bad r → expect (byte_of 34) r = None ∧ expect ":"%char r = None) as Hbad by (intros r Hr; by rewrite !(bad_expect _ r)).
    destruct (Hbad z (compat_bad z Hz)) as [Hq Hc].
    part_cases Hk'.
    + apply (Hnone z). destruct n; [done|]. cbn [read_fields]. by rewrite Hq.
    + apply (Hnone (char 34 +:+ "" +:+ z)%string). by apply Hkey.
    + apply (Hnone (char 34 +:+ "v" +:+ z)%string). by apply Hkey.
    + apply (Hnone (char 34 +:+ "ve" +:+ z)%string). by apply Hkey.
    + apply (Hnone (char 34 +:+ "ver" +:+ z)%string). by apply Hkey.
    + apply (Hnone (char 34 +:+ "vers" +:+ z)%string). by apply Hkey.
    + apply (Hnone (char 34 +:+ "versi" +:+ z)%string). by apply Hkey.
    + apply (Hnone (char 34 +:+ "versio" +:+ z)%string). by apply Hkey.
    + apply (Hnone (char 34 +:+ "version" +:+ z)%string). by apply Hkey.
    + apply (Hnone (json_string "version" +:+ z)%string). destruct n; [done|]. cbn [read_fields]. rewrite expect_quoted. cbn [mbind option_bind].
      rewrite json_string_reads by done. cbn [mbind option_bind]. by rewrite Hc.
    + apply (Hnone (json_string "version" +:+ String ":" z)%string). destruct n; [done|]. cbn [read_fields]. rewrite expect_quoted. cbn [mbind option_bind].
      rewrite json_string_reads by done. cbn [mbind option_bind expect Ascii.eqb Bool.eqb]. unfold read_text. by rewrite Hq.
    + apply (Hnone (json_string "version" +:+ String ":" (String "1" z))%string). destruct n; [done|]. cbn [read_fields]. rewrite expect_quoted. cbn [mbind option_bind].
      by rewrite json_string_reads.
Qed.

Lemma refused_member n m : member_ok n m → cut_refused (read_member n) (member_text m).
Proof.
  intros Hm t x z Heq Hz. destruct t as [|c t]; [rewrite string_app_nil; by apply refused_start|]. destruct m as [s|i|l]; simpl in Hm.
  - pose proof (refused_text s Hm (String c t) x z Heq Hz) as Hr. injection Heq as <- Heq. unfold read_member.
    destruct (read_text _) as [[v r]|]; [exact Hr|done].
  - subst i. injection Heq as <- Heq. destruct t; [|done]. rewrite string_app_nil in Heq. subst x.
    unfold read_member. rewrite string_app_cons, string_app_nil. cbn [read_text expect Ascii.eqb Bool.eqb mbind option_bind read_number].
    pose proof (compat_bad z Hz) as Hb. destruct z as [|d z]; [done|]. cbn. by destruct Hb as [-> | ->]; cbn; [left|right].
  - destruct Hm as (Hne&Hok&Hlen). injection Heq as <- Heq. unfold read_member. rewrite string_app_cons.
    cbn [read_text expect Ascii.eqb Bool.eqb mbind option_bind]. change (λ f : string * string, _) with (field_enc json_string) in Heq.
    assert (∀ v rest, utf8_valid v = true → ends "}"%char rest → read_text (json_string v +:+ rest)%string = Some (v, rest)) as Hrd by (intros v r Hv _; by apply read_text_reads).
    change (join "," (field_enc json_string <$> l) +:+ "}" = t +:+ x)%string in Heq.
    destruct (decide (x = ""%string)) as [->|Hx].
    + rewrite string_app_nil_r in Heq. rewrite <-Heq, string_app_assoc. change ("}" +:+ z)%string with (String "}" z).
      rewrite (read_fields_reads json_string read_text (λ s, utf8_valid s = true)) by done. simpl. by apply compat_bad.
    + by rewrite (refused_fields json_string read_text (λ s, utf8_valid s = true) Hrd refused_text l n t x z).
Qed.


Lemma decode_cut e t x z : saved e → journal_json e = (t +:+ x)%string → t ≠ ""%string → compat z → x ≠ ""%string ∨ z ≠ ""%string →
  decode_entry (t +:+ z)%string = None.
Proof.
  intros [Hv Hu] Heq Ht Hz Hor. apply validateJournalEntry_version in Hv.
  set (n := (String.length (t +:+ z) + String.length (journal_json e))%nat).
  assert (∀ r, read_line n (t +:+ z)%string = r → (∀ v rest, r = Some (v, rest) → rest ≠ ""%string) → decode_entry (t +:+ z)%string = None) as Hread.
  { intros r Hr Hrest. unfold decode_entry. destruct (read_line (String.length (t +:+ z)) (t +:+ z)%string) as [[v rest]|] eqn:E; [|done].
    assert (String.length (t +:+ z) <= n)%nat as Hle by (unfold n; lia). pose proof (read_line_extends _ _ _ _ _ "" Hle E) as H'.
    rewrite !string_app_nil_r in H'. specialize (Hrest v rest ltac:(congruence)). simpl. by rewrite (proj2 (String.eqb_neq _ _) Hrest). }
  destruct (decide (x = ""%string)) as [->|Hx].
  - rewrite string_app_nil_r in Heq. subst t. eapply Hread; [apply read_line_reads; [done|done|unfold n; lia]|].
    destruct Hor as [?|Hne]; [done|]. by intros ? ? [= _ <-].
  - eapply (Hread None); [|done]. pose proof (entry_members_ok e n Hu Hv ltac:(unfold n; lia)) as Hok.
    destruct t as [|c t]; [done|]. unfold journal_json, object_text in Heq. injection Heq as <- Heq. unfold read_line. rewrite string_app_cons.
    cbn [expect Ascii.eqb Bool.eqb mbind option_bind]. change (join "," (field_enc member_text <$> entry_members e) +:+ "}" = t +:+ x)%string in Heq.
    apply (refused_fields member_text (read_member n) (member_ok n) (λ m r, read_member_reads n m r) (refused_member n) (entry_members e) n t x z); done.
Qed.

Lemma journal_json_start e : Entry_Version e = journalVersion → ∃ y, journal_json e = (entry_start +:+ y)%string.
Proof.
  intros Hv. unfold journal_json, entry_members, object_text. rewrite Hv. cbn [app fmap list_fmap].
  match goal with |- context [join "," (?a :: ?b :: ?l)] => exists (join "," (b :: l) +:+ "}")%string end.
  reflexivity.
Qed.

Lemma compat_entry e k : saved e → compat (take_string k (journal_json e)).
Proof. intros [Hv _]. destruct (journal_json_start e) as [y ->]; [by apply validateJournalEntry_version|]. apply compat_take. Qed.

(** ** A journal of interrupted appends *)
Section journal_of.
Context (good : journalEntry → Prop).

(** What follows the last newline. *)
Definition torn (tail : string) : Prop :=
  tail = ""%string ∨
  ∃ e t x z, saved e ∧ good e ∧ journal_json e = (t +:+ x)%string ∧ t ≠ ""%string ∧ compat z ∧ tail = (t +:+ z)%string.
Definition decodes_good (line : string) : Prop := ∀ e, decode_entry line = Some e → good e.
Definition file_ok (file : option string) : Prop :=
  ∀ text, file = Some text → ∃ lines tail, split_byte newline text = lines ++ [tail] ∧ Forall decodes_good lines ∧ torn tail.

Lemma torn_decodes tail : torn tail → decodes_good tail.
Proof.
  intros [->|(e&t&x&z&Hs&Hg&Heq&Ht&Hz&->)] e' He'; [done|].
  destruct (decide (x = ""%string)) as [->|Hx]; [|by rewrite (decode_cut e t x z) in He' by auto].
  destruct (decide (z = ""%string)) as [->|Hne]; [|by rewrite (decode_cut e t "" z) in He' by auto].
  rewrite string_app_nil_r in *. subst t. destruct Hs as [Hv Hu]. rewrite decode_entry_reads in He' by (done || by apply validateJournalEntry_version).
  by injection He' as <-.
Qed.

Lemma torn_append tail e k : torn tail → saved e → good e → torn (tail +:+ take_string k (journal_json e))%string.
Proof.
  intros [->|(e'&t&x&z&Hs&Hg&Heq&Ht&Hz&->)] Hse Hge.
  - rewrite string_app_nil. destruct (decide (take_string k (journal_json e) = ""%string)) as [->|Hne]; [by left|]. right.
    exists e, (take_string k (journal_json e)), (drop_string k (journal_json e)), ""%string.
    rewrite <-take_drop_string, string_app_nil_r. split_and!; [done|done|done|done|constructor|done].
  - right. exists e', t, x, (z +:+ take_string k (journal_json e))%string. rewrite string_app_assoc.
    split_and!; [done|done|done|done|by apply compat_app; [|apply compat_entry]|done].
Qed.

Lemma line_append tail e : torn tail → saved e → good e → decodes_good (tail +:+ journal_json e)%string.
Proof.
  intros Ht Hs Hg. rewrite <-(take_string_all (String.length (journal_json e)) (journal_json e)) by done.
  apply torn_decodes. by apply torn_append.
Qed.

Lemma split_snoc s lines tail t : split_byte newline s = lines ++ [tail] → free_of newline t →
  split_byte newline (s +:+ t)%string = lines ++ [(tail +:+ t)%string].
Proof.
  intros Hs Ht. rewrite split_byte_glue, Hs, (split_byte_free newline t) by done. clear Hs.
  induction lines as [|l lines IH]; [done|]. destruct lines as [|m lines]; [done|]. cbn [app glue] in *. by rewrite IH.
Qed.

Lemma file_append file e k : file_ok file → saved e → good e → file_ok (append_file file (take_string k (entry_text e))).
Proof.
  intros Hf Hs Hg text [= <-].
  assert (∃ lines tail, split_byte newline (default ""%string file) = lines ++ [tail] ∧ Forall decodes_good lines ∧ torn tail) as (lines&tail&Hsp&Hl&Ht).
  { destruct file as [text|]; [by apply Hf|]. exists [], ""%string. split; [done|]. split; [constructor|by left]. }
  destruct (decide (k <= String.length (journal_json e))%nat) as [Hk|Hk].
  - unfold entry_text. rewrite take_string_app by done. exists lines, (tail +:+ take_string k (journal_json e))%string.
    split; [|split; [done|by apply torn_append]]. apply split_snoc; [done|]. apply free_of_take, journal_json_line.
  - assert (String.length (entry_text e) = String.length (journal_json e) + 1)%nat as Hlen by (unfold entry_text; by rewrite string_length_app).
    rewrite take_string_all by lia. exists (lines ++ [(tail +:+ journal_json e)%string]), ""%string. split; [|split; [|by left]].
    + unfold entry_text. rewrite <-string_app_assoc, split_byte_glue.
      rewrite (split_snoc _ lines tail (journal_json e) Hsp) by apply journal_json_line.
      change (split_byte newline (String newline "")) with [""%string; ""%string].
      rewrite <-app_assoc. generalize (tail +:+ journal_json e)%string. clear. intros l.
      induction lines as [|m lines IH]; [cbn; by rewrite string_app_nil_r|]. destruct lines as [|o lines]; [cbn in *; by injection IH as ->|]. cbn [app glue] in *. by rewrite IH.
    + apply Forall_app. split; [done|]. apply Forall_singleton. by apply line_append.
Qed.

Lemma load_lines_good lines last e : (∀ e, last = Some e → good e) → Forall decodes_good lines → load_lines last lines = Ok (Some e) → good e.
Proof.
  intros Hlast Hl. revert last Hlast. induction Hl as [|line lines Hline Hl IH]; intros last Hlast; [by intros [= ->]; apply Hlast|].
  cbn [load_lines]. destruct lines as [|l2 lines].
  - case_bool_decide; [by intros [= ->]; apply Hlast|]. destruct (decode_entry line) as [e'|] eqn:E; [|by intros [= ->]; apply Hlast].
    destruct (validateJournalEntry e'); [|done]. intros [= ->]. by apply Hline.
  - destruct (decode_entry line) as [e'|] eqn:E; [|done]. destruct (validateJournalEntry e'); [|done]. apply IH.
    intros ? [= ->]. by apply Hline.
Qed.

Lemma load_lines_valid lines last e : (∀ e, last = Some e → validateJournalEntry e = Ok tt) → load_lines last lines = Ok (Some e) → validateJournalEntry e = Ok tt.
Proof.
  revert last. induction lines as [|line lines IH]; intros last Hlast; [by intros [= ->]; apply Hlast|].
  cbn [load_lines]. destruct lines as [|l2 lines].
  - case_bool_decide; [by intros [= ->]; apply Hlast|]. destruct (decode_entry line) as [e'|] eqn:E; [|by intros [= ->]; apply Hlast].
    destruct (validateJournalEntry e') as [[]|] eqn:Ev; [|done]. by intros [= ->].
  - destruct (decode_entry line) as [e'|] eqn:E; [|done]. destruct (validateJournalEntry e') as [[]|] eqn:Ev; [|done]. apply IH.
    by intros ? [= ->].
Qed.

Lemma Load_some file e : Load file = Ok (Some e) → ∃ text, file = Some text ∧ load_lines None (split_byte newline text) = Ok (Some e).
Proof.
  unfold Load. destruct file as [text|]; [|done]. destruct (_ <? _); [done|]. intros H. exists text. split; [done|].
  destruct (load_lines _ _) as [[e'|]|]; [|done..]. by injection H as ->.
Qed.

Lemma Load_valid file e : Load file = Ok (Some e) → validateJournalEntry e = Ok tt.
Proof. intros (text&->&Hl)%Load_some. by eapply load_lines_valid; [|exact Hl]. Qed.

Lemma Load_good file e : file_ok file → Load file = Ok (Some e) → good e.
Proof.
  intros Hf (text&->&Hl)%Load_some. destruct (Hf text eq_refl) as (lines&tail&Hsp&Hlines&Ht). rewrite Hsp in Hl.
  eapply load_lines_good; [|apply Forall_app; split; [exact Hlines|apply Forall_singleton; by apply torn_decodes]|exact Hl]. done.
Qed.
End journal_of.

(** Appends in order, each cut after the given number of bytes. *)
Definition appends (l : list (journalEntry * nat)) : option string :=
  foldl (λ file ek, append_file file (take_string ek.2 (entry_text ek.1))) None l.

(** The journal never makes an entry up.  After any number of appends, each of them cut
    anywhere, so that lines may be glued together in any way, what [Load] returns is one of
    the entries that were being saved, and it is valid. *)
Theorem Load_only_saved (l : list (journalEntry * nat)) (e : journalEntry) :
  Forall (λ ek, saved ek.1) l → Load (appends l) = Ok (Some e) → e ∈ l.*1 ∧ validateJournalEntry e = Ok tt.
Proof.
  intros Hl He. split; [|by eapply Load_valid].
  assert (∀ file k, (∀ e, e ∈ k.*1 → e ∈ l.*1) → Forall (λ ek, saved ek.1) k → file_ok (λ e, e ∈ l.*1) file →
    file_ok (λ e, e ∈ l.*1) (foldl (λ file ek, append_file file (take_string ek.2 (entry_text ek.1))) file k)) as Hfold.
  { intros file k. revert file. induction k as [|[e' n] k IH]; intros file Hsub Hs Hf; [done|]. apply Forall_cons in Hs as [Hs1 Hs2]. cbn [foldl].
    apply IH; [intros x Hx; apply Hsub; by right|done|]. apply file_append; [done|done|]. apply Hsub. by left. }
  eapply (Load_good (λ e, e ∈ l.*1)); [|exact He]. apply Hfold; [done|done|]. by intros text.
Qed.
Lemma Load_only_saved_witness :
  let e := demo_entry in
  Forall (λ ek, saved ek.1) [(e, 1000); (e, 30)]%nat ∧
  Load (appends [(e, 1000); (e, 30)]%nat) = Ok (Some e) ∧ validateJournalEntry e = Ok tt.
Proof.
  intros e. assert (Forall (λ ek : journalEntry * nat, saved ek.1) [(e, 1000); (e, 30)]%nat) as Hf
    by (repeat constructor; vm_compute; reflexivity).
  assert (Load (appends [(e, 1000); (e, 30)]%nat) = Ok (Some e)) as Hl by (vm_compute; reflexivity).
  split; [exact Hf|]. split; [exact Hl|]. exact (proj2 (Load_only_saved _ e Hf Hl)).
Defined.

(** A cut append followed by a whole one leaves a journal that does not load. *)
Example glued_journal : Load (appends [(demo_entry, 1000); (demo_entry, 30); (demo_entry, 1000)]%nat) = Err "decode MID claim journal line %d"%string.
Proof. vm_compute. reflexivity. Qed.
