(* ===== verification/Eccsim.v ===== *)
(** * [internal/mid/eccsim/server.go]: the simulated ECC queue

    The records, the three SOAP operations and the HTTP dispatch, and the text of every
    response.  The counter of records is a [uint64]; identities are distinct as long as it
    has not wrapped around. *)

From S2P Require Import Prelude Bytes Text Strconv Time Soap Mid.

Definition maxRequestBytes : Z := 2 * 2 ^ 20.
Definition soapActionBase : string := "http://www.service-now.com/ecc_queue/".

Record Server := mkServer {
  Server_username : string;
  Server_password : string;
  Server_records : gmap string ECC;
  nextID : Z;
  Server_operations : list string;
}.

Definition Server_New (username password : string) : Server := mkServer username password ∅ 1 [].
Definition set_records (s : Server) (records : gmap string ECC) : Server :=
  mkServer (Server_username s) (Server_password s) records (nextID s) (Server_operations s).
Definition log_operation (s : Server) (operation : string) : Server :=
  mkServer (Server_username s) (Server_password s) (Server_records s) (nextID s) (Server_operations s ++ [operation]).

(** [fmt.Sprintf("%032x", s.nextID)], and the counter moves on. *)
Definition sys_id_of (n : Z) : string := hex_encode (be_bytes 16 n).
Definition nextSysIDLocked (s : Server) : string * Server :=
  (sys_id_of (nextID s),
   mkServer (Server_username s) (Server_password s) (Server_records s) ((nextID s + 1) mod 2 ^ 64) (Server_operations s)).

Definition created_on (s : Server) : string := DateTime (unix (nextID s) 0).
Definition put_record (s : Server) (r : ECC) : Server := set_records s (<[SysID r := r]> (Server_records s)).

Definition AddOutput (s : Server) (agent topic name source parameters payload correlator : string) : ECC * Server :=
  let '(id, s) := nextSysIDLocked s in
  let record := mkECC id agent topic name source QueueOutput StateReady "" correlator parameters payload "" (created_on s) in
  (record, put_record s record).

(** The order of [recordsLocked]. *)
Definition record_less : ECC → ECC → bool := less_then (less_on CreatedOn str_lt) (less_on SysID str_lt).
Definition recordsLocked (s : Server) : list ECC := sort_by record_less (snd <$> map_to_list (Server_records s)).

Definition filter_value (r : ECC) (field : string) : option string :=
  if String.eqb field "sys_id" then Some (SysID r)
  else if String.eqb field "agent" then Some (Ecc_Agent r)
  else if String.eqb field "queue" then Some (Queue r)
  else if String.eqb field "state" then Some (Ecc_State r)
  else if String.eqb field "response_to" then Some (ResponseTo r)
  else None.
Definition matches (r : ECC) (filters : gmap string string) : bool :=
  bool_decide (map_Forall (λ field value, default value (filter_value r field) = value) filters).

(** ** Requests and replies *)

Record httpRequest := mkHttpRequest {
  Http_Method : string;
  Http_Path : string;
  Http_RawQuery : string;
  Http_BasicAuth : option (string * string);
  Http_SOAPAction : string;
  Http_Body : string;
}.

Inductive reply :=
| NotFound
| Fault (status : Z) (code message : string)
| RecordsReply (records : list ECC)
| UpdateReply (id : string)
| InsertReply (id : string).

Definition reply_status (r : reply) : Z :=
  match r with NotFound => 404 | Fault status _ _ => status | _ => 200 end.

(** The value of an element, the last one when it is repeated. *)
Definition wire_value (fields : list soapField) (name : string) : string :=
  match list.last (filter (λ f, Field_Name f = name) fields) with Some f => Field_Value f | None => ""%string end.

Definition query_fields : list string := ["sys_id"; "agent"; "queue"; "state"; "response_to"]%string.

(** The terms of an encoded query. *)
Fixpoint query_filters (filters : gmap string string) (terms : list string) : result reply (gmap string string) :=
  match terms with
  | [] => Ok filters
  | term :: terms =>
    if bool_decide (term = ""%string) || has_prefix term "ORDERBY" then query_filters filters terms
    else match cut_byte "="%char term with
         | None => Err (Fault 400 "Client.Query" "invalid encoded query")
         | Some (name, value) =>
           if bool_decide (name ∈ query_fields) then query_filters (<[name := value]> filters) terms
           else Err (Fault 400 "Client.Query" "unsupported encoded query field")
         end
  end.

Definition slice {A} (l : list A) (first last : Z) : list A := drop (Z.to_nat first) (take (Z.to_nat last) l).

Definition getRecords (s : Server) (fields : list soapField) : reply :=
  match Atoi (wire_value fields "__first_row") with
  | None => Fault 400 "Client.Query" "invalid first row"
  | Some first =>
    if first <? 0 then Fault 400 "Client.Query" "invalid first row"
    else match Atoi (wire_value fields "__last_row") with
         | None => Fault 400 "Client.Query" "invalid last row"
         | Some last =>
           if (last <? first) || (16 <? last - first) then Fault 400 "Client.Query" "invalid last row"
           else match query_filters ∅ (split_byte "^"%char (wire_value fields "__encoded_query")) with
                | Err fault => fault
                | Ok filters =>
                  let filtered := filter (λ r, matches r filters = true) (recordsLocked s) in
                  RecordsReply (slice filtered (Z.min first (llen filtered)) (Z.min last (llen filtered)))
                end
         end
  end.

Definition update (s : Server) (fields : list soapField) : reply * Server :=
  let id := wire_value fields "sys_id" in
  let state := wire_value fields "state" in
  match Server_records s !! id with
  | None => (Fault 404 "Client.Record" "record not found", s)
  | Some record =>
    if negb (String.eqb state StateProcessing) && negb (String.eqb state StateProcessed)
    then (Fault 400 "Client.State" "unsupported state transition", s)
    else (UpdateReply id, set_records s (<[id := with_state record state]> (Server_records s)))
  end.

Definition insert (s : Server) (fields : list soapField) : reply * Server :=
  let '(id, s) := nextSysIDLocked s in
  let v := wire_value fields in
  let record := mkECC id (v "agent") (v "topic") (v "name") (v "source") (v "queue") (v "state") (v "response_to")
    (v "agent_correlator") (v "parameters") (v "payload") (v "error_string") (created_on s) in
  (InsertReply id, put_record s record).

Definition ServeHTTP (s : Server) (r : httpRequest) : reply * Server :=
  if negb (String.eqb (Http_Method r) "POST") || negb (String.eqb (Http_Path r) "/ecc_queue.do")
     || negb (String.eqb (Http_RawQuery r) "SOAP")
  then (NotFound, s)
  else if negb (bool_decide (Http_BasicAuth r = Some (Server_username s, Server_password s)))
  then (Fault 401 "Client.Auth" "authentication failed", s)
  else if maxRequestBytes <? slen (Http_Body r) then (Fault 400 "Client.Request" "request exceeds bound", s)
  else match read_request (Http_Body r) with
       | None => (Fault 400 "Client.XML" "invalid SOAP XML", s)
       | Some (operation, fields) =>
         if negb (soap_operation operation) then (Fault 400 "Client.Operation" "unsupported SOAP operation", s)
         else if negb (String.eqb (Http_SOAPAction r) (soapActionBase +:+ operation))
         then (Fault 400 "Client.SOAPAction" "invalid SOAPAction", s)
         else let s := log_operation s operation in
              if String.eqb operation "getRecords" then (getRecords s fields, s)
              else if String.eqb operation "update" then update s fields else insert s fields
       end.

(** ** Responses as text: [xml.Marshal] of the envelopes *)

Definition element (name value : string) : string := soap_element (mkSoapField name value).
Definition record_elements (r : ECC) : list (string * string) :=
  [("sys_id", SysID r); ("agent", Ecc_Agent r); ("topic", Topic r); ("name", Ecc_Name r); ("source", Ecc_Source r);
   ("queue", Queue r); ("state", Ecc_State r); ("response_to", ResponseTo r); ("agent_correlator", AgentCorrelator r);
   ("parameters", Parameters r); ("payload", Payload r); ("error_string", ErrorString r); ("sys_created_on", CreatedOn r)]%string.
Definition wrap (name inner : string) : string := ("<" +:+ name +:+ ">" +:+ inner +:+ "</" +:+ name +:+ ">")%string.
Definition envelope (inner : string) : string :=
  (xml_header +:+ "<Envelope xmlns=" +:+ quoted soapEnvelopeNamespace +:+ ">" +:+ wrap "Body" inner +:+ "</Envelope>")%string.
Definition record_xml (r : ECC) : string :=
  wrap "getRecordsResult" (String.concat "" ((λ f : string * string, element f.1 f.2) <$> record_elements r)).

Definition reply_text (r : reply) : string :=
  match r with
  | NotFound => ("404 page not found" +:+ char 10)%string
  | Fault _ code message => envelope (wrap "Fault" (element "faultcode" code +:+ element "faultstring" message)%string)
  | RecordsReply records => envelope (wrap "getRecordsResponse" (String.concat "" (record_xml <$> records)))
  | UpdateReply id => envelope (wrap "updateResponse" (element "sys_id" id))
  | InsertReply id => envelope (wrap "insertResponse" (element "sys_id" id))
  end.

(** The tokens of that text, for a reader of XML. *)
Definition element_tokens (value : string) : list xml_token :=
  StartElement :: (if bool_decide (value = ""%string) then [] else [OtherToken]) ++ [EndElement].
Definition wrap_tokens (inner : list xml_token) : list xml_token := StartElement :: inner ++ [EndElement].
Definition record_tokens (r : ECC) : list xml_token := wrap_tokens (mjoin (element_tokens ∘ snd <$> record_elements r)).
Definition reply_tokens (r : reply) : list xml_token :=
  match r with
  | NotFound => [OtherToken]
  | Fault _ code message =>
    [OtherToken; OtherToken] ++ wrap_tokens (wrap_tokens (wrap_tokens (element_tokens code ++ element_tokens message)))
  | RecordsReply records =>
    [OtherToken; OtherToken] ++ wrap_tokens (wrap_tokens (wrap_tokens (mjoin (record_tokens <$> records))))
  | UpdateReply id => [OtherToken; OtherToken] ++ wrap_tokens (wrap_tokens (wrap_tokens (element_tokens id)))
  | InsertReply id => [OtherToken; OtherToken] ++ wrap_tokens (wrap_tokens (wrap_tokens (element_tokens id)))
  end.
