(* ===== verification/MidRun.v ===== *)
(** * [internal/mid]: the SOAP client and the claim loop, over the simulated queue

    [client.go] and [run.go], run against [eccsim] with faults at every effect.  A
    program takes the faults to come and the world; an effect that meets a fault may be
    lost, may happen without its answer arriving, or may be the last one before the
    process dies; an append may reach the disk in part. *)

From S2P Require Import Prelude Effects Bytes Text Time Soap Mid MidState Eccsim.

Definition eccSOAPPath : string := "/ecc_queue.do".
Definition maxPollRecords : Z := 16.
Definition maxUsernameBytes : Z := 256.
Definition maxPasswordBytes : Z := 64 * 2 ^ 10.

(** ** Programs *)

Record World := mkWorld { World_ecc : Server; World_journal : option string }.
Definition set_ecc (w : World) (s : Server) : World := mkWorld s (World_journal w).
Definition set_journal (w : World) (j : option string) : World := mkWorld (World_ecc w) j.

Record fault := mkFault { Fault_cut : option nat; Fault_ending : ending }.
Definition no_fault : fault := mkFault None Answered.
Abbreviation prog := (Effects.prog fault World).

(** One effect: what it does when it completes, and what is left of it when it is cut. *)
Definition effect {A} (full : World → A * World) (part : nat → World → World) : prog A :=
  with_input no_fault (λ f w,
    match Fault_cut f, Fault_ending f with
    | None, Answered => (Done (full w).1, (full w).2)
    | None, Failing => (Failed "i/o", (full w).2)
    | None, Dying => (Crashed, (full w).2)
    | Some k, Dying => (Crashed, part k w)
    | Some k, _ => (Failed "i/o", part k w)
    end).

(** ** The client *)

Record Client := mkClient { Client_username : string; Client_password : string; Client_endpoint : URL }.

Definition NewClient (parsed : option URL) (username password : string) : go Client :=
  match parsed with
  | None => Err "ServiceNow instance URL must be an absolute HTTPS origin"%string
  | Some u =>
    reject negb (String.eqb (Scheme u) "https") || String.eqb (Host u) "" || negb (String.eqb (Opaque u) "")
      with "ServiceNow instance URL must be an absolute HTTPS origin"%string ;;
    reject bool_decide (URL_User u ≠ None) || (negb (String.eqb (Path u) "") && negb (String.eqb (Path u) "/"))
           || negb (String.eqb (RawPath u) "") || ForceQuery u || negb (String.eqb (RawQuery u) "") || negb (String.eqb (Fragment u) "")
      with "ServiceNow instance URL must not contain credentials, a path, query parameters, or a fragment"%string ;;
    reject String.eqb username "" || (maxUsernameBytes <? slen username) || contains_byte ":"%char username || hasControl username
      with "ServiceNow MID username is invalid"%string ;;
    reject String.eqb password "" || (maxPasswordBytes <? slen password) || hasControl password
      with "ServiceNow MID password is invalid"%string ;;
    Ok (mkClient username password
          (mkURL (Scheme u) (Opaque u) (URL_User u) (Host u) eccSOAPPath (RawPath u) (ForceQuery u) "SOAP" (Fragment u)))
  end.

(** A record as it arrives, and [soapRecord.model]. *)
Definition carried_record (r : ECC) : ECC :=
  mkECC (carried (SysID r)) (carried (Ecc_Agent r)) (carried (Topic r)) (carried (Ecc_Name r)) (carried (Ecc_Source r))
    (carried (Queue r)) (carried (Ecc_State r)) (carried (ResponseTo r)) (carried (AgentCorrelator r)) (carried (Parameters r))
    (carried (Payload r)) (carried (ErrorString r)) (carried (CreatedOn r)).
Definition soap_model (r : ECC) : ECC :=
  mkECC (trim_space (SysID r)) (Ecc_Agent r) (Topic r) (Ecc_Name r) (Ecc_Source r) (to_lower (trim_space (Queue r)))
    (to_lower (trim_space (Ecc_State r))) (trim_space (ResponseTo r)) (AgentCorrelator r) (Parameters r) (Payload r)
    (ErrorString r) (CreatedOn r).

Definition carried_reply (r : reply) : reply :=
  match r with
  | RecordsReply l => RecordsReply (carried_record <$> l)
  | UpdateReply id => UpdateReply (carried id)
  | InsertReply id => InsertReply (carried id)
  | r => r
  end.

(** [decodeSOAPEnvelope] on the text of a reply. *)
Definition decodeSOAPEnvelope (r : reply) : go reply :=
  reject slen (reply_text r) =? 0 with "ServiceNow SOAP response is empty"%string ;;
  reject maxSOAPResponseBytes <? slen (reply_text r) with "ServiceNow SOAP response exceeds %d bytes"%string ;;
  try u := validateXMLBounds 0 0 (reply_tokens r) true ;;
  match r with
  | NotFound => Err "ServiceNow SOAP response XML is invalid"%string
  | Fault _ _ _ => Err "ServiceNow SOAP fault"%string
  | _ => Ok (carried_reply r)
  end.

Definition receive (r : reply) : go reply :=
  reject maxSOAPResponseBytes <? slen (reply_text r) with "ServiceNow SOAP response exceeds %d bytes"%string ;;
  reject (reply_status r <? 200) || (300 <=? reply_status r) with "ServiceNow SOAP %s returned HTTP %d"%string ;;
  decodeSOAPEnvelope r.

Section client.
Context (c : Client).

Definition call (operation : string) (fields : list soapField) : prog reply :=
  body ← lift (encodeSOAPRequest operation fields);
  r ← effect (λ w,
        let '(r, s) := ServeHTTP (World_ecc w) (mkHttpRequest "POST" (Path (Client_endpoint c)) (RawQuery (Client_endpoint c))
          (Some (Client_username c, Client_password c)) (eccQueueNamespace +:+ "/" +:+ operation)%string body) in
        (r, set_ecc w s)) (λ _ w, w);
  lift (receive r).

Fixpoint model_all (l : list ECC) : go (list ECC) :=
  match l with
  | [] => Ok []
  | r :: l =>
    let record := soap_model r in
    try u := validateRecordFields record ;;
    try rest := model_all l ;;
    Ok (record :: rest)
  end.

Definition queryRecords (encodedQuery : string) (limit : Z) : prog (list ECC) :=
  if (limit <? 1) || (maxPollRecords <? limit) || (2048 <? slen encodedQuery) || hasControl encodedQuery
  then lift (Err "ECC encoded query is invalid"%string)
  else
    r ← call "getRecords" [mkSoapField "__encoded_query" encodedQuery; mkSoapField "__first_row" "0"; mkSoapField "__last_row" (decimal limit)];
    lift match r with
         | RecordsReply l => if limit <? llen l then Err "ServiceNow returned %d ECC records; requested at most %d"%string else model_all l
         | _ => Err "ServiceNow SOAP getRecords response is missing getRecordsResponse"%string
         end.

Definition mutate (operation : string) (fields : list soapField) : prog string :=
  r ← call operation fields;
  lift (let mutation :=
          match r with
          | InsertReply id => if String.eqb operation "insert" then Some id else None
          | UpdateReply id => if String.eqb operation "update" then Some id else None
          | _ => None
          end in
        match mutation with
        | Some id => if match_sys_id (trim_space id) then Ok (to_lower (trim_space id))
                     else Err "ServiceNow SOAP %s response has an invalid sys_id"%string
        | None => Err "ServiceNow SOAP %s response has an invalid sys_id"%string
        end).

Fixpoint check_all (check : ECC → go unit) (l : list ECC) : go unit :=
  match l with [] => Ok tt | r :: l => try u := check r ;; check_all check l end.

Definition poll_query (agent : string) : string :=
  ("agent=" +:+ agent +:+ "^queue=" +:+ QueueOutput +:+ "^state=" +:+ StateReady +:+ "^ORDERBYsys_created_on^ORDERBYsys_id")%string.

Definition Poll (agent : string) (limit : Z) : prog (list ECC) :=
  if negb (has_prefix agent AgentPrefix) || (slen AgentPrefix + maxMIDNameBytes <? slen agent) || hasControl agent
  then lift (Err "MID agent identity is invalid"%string)
  else if (limit <? 1) || (maxPollRecords <? limit) then lift (Err "ECC poll limit must be between 1 and %d"%string)
  else
    records ← queryRecords (poll_query agent) limit;
    u ← lift (check_all (λ r, try u := validateOutputRecord r agent ;;
                            if String.eqb (Ecc_State r) StateReady then Ok tt
                            else Err "ServiceNow returned an ECC record outside output/ready"%string) records);
    mret records.

Definition get_query (sysID agent : string) : string := ("sys_id=" +:+ sysID +:+ "^agent=" +:+ agent)%string.

Definition Get (sysID agent : string) : prog ECC :=
  if negb (match_sys_id sysID) then lift (Err "ECC sys_id is invalid"%string)
  else
    records ← queryRecords (get_query sysID agent) 2;
    lift match records with
         | [record] => try u := validateOutputRecord record agent ;; Ok record
         | _ => Err "expected one ECC record %s, got %d"%string
         end.

Definition state_fields (id state : string) : list soapField := [mkSoapField "sys_id" id; mkSoapField "state" state].

Definition Claim (record : ECC) : prog ECC :=
  if negb (String.eqb (Ecc_State record) StateReady) then lift (Err "only an output/ready ECC record can be claimed"%string)
  else
    digest ← lift (recordDigest record);
    u ← mutate "update" (state_fields (SysID record) StateProcessing);
    claimed ← Get (SysID record) (Ecc_Agent record);
    if negb (String.eqb (Ecc_State claimed) StateProcessing) then lift (Err "ECC record claim did not enter %q state"%string)
    else
      claimedDigest ← lift (recordDigest claimed);
      if negb (String.eqb claimedDigest digest) then lift (Err "ECC record changed while it was being claimed"%string) else mret claimed.

Definition MarkProcessed (record : ECC) : prog unit :=
  if negb (match_sys_id (SysID record)) || negb (String.eqb (Ecc_State record) StateProcessing)
  then lift (Err "only a claimed ECC record can be marked processed"%string)
  else u ← mutate "update" (state_fields (SysID record) StateProcessed); mret tt.

Definition responses_query (responseTo agent : string) : string :=
  ("response_to=" +:+ responseTo +:+ "^agent=" +:+ agent +:+ "^queue=" +:+ QueueInput +:+ "^ORDERBYsys_created_on^ORDERBYsys_id")%string.

Definition FindResponses (responseTo agent : string) : prog (list ECC) :=
  if negb (match_sys_id responseTo) then lift (Err "ECC response_to is invalid"%string)
  else
    records ← queryRecords (responses_query responseTo agent) 2;
    u ← lift (check_all (λ r, validateInputRecord r agent) records);
    mret records.

Definition insert_fields (r : ECC) : list soapField :=
  [mkSoapField "agent" (Ecc_Agent r); mkSoapField "topic" (Topic r); mkSoapField "name" (Ecc_Name r); mkSoapField "source" (Ecc_Source r);
   mkSoapField "queue" (Queue r); mkSoapField "state" (Ecc_State r); mkSoapField "response_to" (ResponseTo r);
   mkSoapField "agent_correlator" (AgentCorrelator r); mkSoapField "parameters" (Parameters r); mkSoapField "payload" (Payload r);
   mkSoapField "error_string" (ErrorString r)].

Definition InsertResult (record : ECC) : prog string :=
  u ← lift (validateInputRecord record (Ecc_Agent record));
  mutate "insert" (insert_fields record).

(** ** The claim loop *)

Definition load_journal : prog (option journalEntry) :=
  r ← effect (λ w, (Load (World_journal w), w)) (λ _ w, w); lift r.
Definition Save (e : journalEntry) : prog unit :=
  line ← lift (entry_line e);
  effect (λ w, (tt, set_journal w (append_file (World_journal w) line)))
         (λ k w, set_journal w (append_file (World_journal w) (take_string k line))).
Definition Clear : prog unit := effect (λ w, (tt, set_journal w None)) (λ _ w, w).

Definition conflict_message : string := "Topo denied an ECC record that changed during claim".

(** The result for a claimed record. *)
Definition answer (e : journalEntry) (record : ECC) (version currentDigest : string) : go ECC :=
  if negb (String.eqb currentDigest (Entry_RecordDigest e)) then dispatchError record ClaimConflictCode conflict_message
  else Dispatch record version.

Definition resumeClaim (agent version : string) (entry : journalEntry) : prog unit :=
  record ← Get (Entry_RecordID entry) agent;
  if String.eqb (Ecc_State record) StateProcessed then Clear
  else
    record ← (if String.eqb (Ecc_State record) StateReady then Claim record else mret record);
    if negb (String.eqb (Ecc_State record) StateProcessing) then lift (Err "journaled ECC record is in an unexpected state"%string)
    else
      currentDigest ← lift (recordDigest record);
      '(entry, result) ← match Entry_Result entry with
              | Some result => mret (entry, result)
              | None =>
                result ← lift (answer entry record version currentDigest);
                let entry := with_result entry result in
                u ← Save entry; mret (entry, result)
              end;
      responses ← FindResponses (SysID record) agent;
      id ← match responses with
           | [] => InsertResult result
           | [r] => mret (SysID r)
           | _ => lift (Err "found %d ECC responses for one output record; refusing to hide duplicate processing"%string)
           end;
      u ← Save (with_response entry id);
      u ← MarkProcessed record;
      Clear.

Fixpoint process (agent version : string) (records : list ECC) : prog unit :=
  match records with
  | [] => mret tt
  | record :: records =>
    done ← attempt (
      digest ← lift (recordDigest record);
      let entry := mkJournalEntry journalVersion (SysID record) digest None "" in
      u ← Save entry;
      resumeClaim agent version entry);
    match done with None => mret tt | Some _ => process agent version records end
  end.

Definition runCycle (agent version : string) (batch : Z) : prog unit :=
  loaded ← attempt load_journal;
  match loaded with
  | None => mret tt
  | Some (Some entry) => u ← attempt (resumeClaim agent version entry); mret tt
  | Some None =>
    polled ← attempt (Poll agent batch);
    match polled with None => mret tt | Some records => process agent version records end
  end.
End client.

(** [Run]: the checked configuration of the loop. *)
Definition DefaultPollInterval : duration := 40 * Second.
Definition maxPollInterval : duration := Hour.
Record RunConfig := mkRunConfig { MIDName : string; Version : string; PollInterval : duration; BatchSize : Z }.
Definition Run_config (config : RunConfig) : go (string * RunConfig) :=
  try agent := AgentName (MIDName config) ;;
  let interval := if PollInterval config =? 0 then DefaultPollInterval else PollInterval config in
  reject (interval <? Second) || (maxPollInterval <? interval) with "MID poll interval must be between 1s and 1h"%string ;;
  let batch := if BatchSize config =? 0 then 1 else BatchSize config in
  reject (batch <? 1) || (maxPollRecords <? batch) with "MID batch size must be between 1 and %d"%string ;;
  Ok (agent, mkRunConfig (MIDName config) (Version config) interval batch).
