(* ===== verification/MidSafety.v ===== *)
(** * The claim loop answers every record at most once

    The invariant of the queue, the specifications of
    the client's operations under it, and the theorem over all histories of cycles,
    crashes, new records and edits. *)

From S2P Require Import Prelude Effects Bytes Text Strconv Sha256 Time Soap Mid MidState Eccsim MidRun.

Lemma triple_effect {A} (P : World → Prop) full part (Q : A → World → Prop) (E : World → Prop) :
  (∀ w, P w → Q (full w).1 (full w).2) → (∀ w, P w → E (full w).2) → (∀ k w, P w → E (part k w)) → triple P (effect full part) Q E.
Proof.
  intros HQ HE HP. apply triple_input. intros f w Hw. destruct (Fault_cut f), (Fault_ending f); auto.
Qed.

(** ** The queue *)

Section agent.
Context (agent : string).

(** The records that answer the output record [id]. *)
Definition answers (id : string) (r : ECC) : Prop := Queue r = QueueInput ∧ Ecc_Agent r = agent ∧ ResponseTo r = id.
Definition answered (id : string) (records : gmap string ECC) : Prop := ∃ k r, records !! k = Some r ∧ answers id r.

(** At most [n - 1] records so far; one answer per output record; what is processed is
    answered. *)
Record Inv (n : Z) (s : Server) : Prop := {
  inv_count : 1 <= nextID s <= n;
  inv_keys k r : Server_records s !! k = Some r → SysID r = k ∧ ∃ i, 0 <= i < nextID s ∧ k = sys_id_of i;
  inv_once id k1 k2 r1 r2 : Server_records s !! k1 = Some r1 → Server_records s !! k2 = Some r2 →
    answers id r1 → answers id r2 → k1 = k2;
  inv_done k r : Server_records s !! k = Some r → Queue r = QueueOutput → Ecc_Agent r = agent →
    Ecc_State r = StateProcessed → answered k (Server_records s);
}.

Lemma Inv_mono n m s : n <= m → Inv n s → Inv m s.
Proof. intros Hle [Hc Hk Ho Hd]. split; [lia|done|done|done]. Qed.

Lemma Inv_log n s op : Inv n s → Inv n (log_operation s op).
Proof. by intros [Hc Hk Ho Hd]. Qed.

Lemma sys_id_of_inj i j : 0 <= i < 2 ^ 64 → 0 <= j < 2 ^ 64 → sys_id_of i = sys_id_of j → i = j.
Proof.
  intros Hi Hj Heq. apply hex_encode_inj in Heq; [|apply be_bytes_range..]. apply (f_equal be_value) in Heq.
  rewrite !be_value_bytes in Heq; [done| |]; change (256 ^ Z.of_nat 16) with (2 ^ 128); lia.
Qed.

Lemma sys_id_of_match i : match_sys_id (sys_id_of i) = true.
Proof.
  unfold match_sys_id, sys_id_of. apply andb_true_iff. split.
  - unfold slen. by rewrite hex_encode_length, be_bytes_length.
  - apply hex_encode_bytes; [by apply hex_digit_hex|]. apply be_bytes_range.
Qed.

(** A record under a fresh identity. *)
Lemma Inv_fresh n s : Inv n s → n < 2 ^ 64 → Server_records s !! sys_id_of (nextID s) = None.
Proof.
  intros HI Hn. pose proof (inv_count _ _ HI) as Hc. destruct (Server_records s !! sys_id_of (nextID s)) as [r|] eqn:E; [|done].
  apply (inv_keys _ _ HI) in E as [_ (i&Hi&Heq)]. apply sys_id_of_inj in Heq; lia.
Qed.

Lemma answered_insert id k r records : records !! k = None → answered id records → answered id (<[k := r]> records).
Proof. intros Hk (k'&r'&Hr&Ha). exists k', r'. split; [|done]. rewrite lookup_insert_ne; [done|]. intros ->. congruence. Qed.

Lemma Inv_add n s s' r : Inv n s → n + 1 < 2 ^ 64 → SysID r = sys_id_of (nextID s) →
  nextID s' = (nextID s + 1) mod 2 ^ 64 → Server_records s' = <[SysID r := r]> (Server_records s) →
  (∀ id, answers id r → ¬ answered id (Server_records s)) →
  (Queue r = QueueOutput → Ecc_Agent r = agent → Ecc_State r ≠ StateProcessed) → Inv (n + 1) s'.
Proof.
  intros HI Hn Hid Hnext Hrec Hans Hnew. pose proof (inv_count _ _ HI) as Hc. pose proof (Inv_fresh n s HI ltac:(lia)) as Hfresh.
  rewrite <-Hid in Hfresh. rewrite Z.mod_small in Hnext by lia. split.
  - lia.
  - rewrite Hrec, Hnext. intros k r' Hk. apply lookup_insert_Some in Hk as [[<- <-]|[Hne Hk]].
    + split; [done|]. exists (nextID s). split; [lia|done].
    + apply (inv_keys _ _ HI) in Hk as [? (i&?&->)]. split; [done|]. exists i. split; [lia|done].
  - rewrite Hrec. intros id k1 k2 r1 r2 H1 H2 A1 A2.
    apply lookup_insert_Some in H1 as [[<- <-]|[Hn1 H1]]; apply lookup_insert_Some in H2 as [[<- <-]|[Hn2 H2]]; [done| | |].
    + destruct (Hans id A1). by exists k2, r2.
    + destruct (Hans id A2). by exists k1, r1.
    + by eapply (inv_once _ _ HI).
  - rewrite Hrec. intros k r' Hk Hq Ha Hs. apply lookup_insert_Some in Hk as [[<- <-]|[Hne Hk]]; [by destruct Hnew|].
    apply answered_insert; [done|]. by eapply (inv_done _ _ HI).
Qed.

(** Changing a record that keeps its place in the queue. *)
Definition same_place (r r' : ECC) : Prop :=
  SysID r' = SysID r ∧ Queue r' = Queue r ∧ Ecc_Agent r' = Ecc_Agent r ∧ ResponseTo r' = ResponseTo r.

Lemma same_place_answers id r r' : same_place r r' → answers id r' ↔ answers id r.
Proof. intros (_&Hq&Ha&Hr). unfold answers. by rewrite Hq, Ha, Hr. Qed.

Lemma answered_replace id k r r' records : records !! k = Some r → same_place r r' →
  answered id (<[k := r']> records) ↔ answered id records.
Proof.
  intros Hk Hp. split; intros (j&q&Hj&Hq).
  - apply lookup_insert_Some in Hj as [[<- <-]|[Hne Hj]]; [|by exists j, q]. exists k, r. split; [done|]. by apply (same_place_answers id r r').
  - destruct (decide (j = k)) as [->|Hne].
    + exists k, r'. rewrite lookup_insert_eq. split; [done|]. rewrite Hk in Hj. injection Hj as <-. by apply (same_place_answers id r r').
    + exists j, q. by rewrite lookup_insert_ne.
Qed.

Lemma Inv_replace n s k r r' : Inv n s → Server_records s !! k = Some r → same_place r r' →
  (Queue r' = QueueOutput → Ecc_Agent r' = agent → Ecc_State r' = StateProcessed → Ecc_State r = StateProcessed ∨ answered k (Server_records s)) →
  Inv n (set_records s (<[k := r']> (Server_records s))).
Proof.
  intros HI Hk Hp Hdone. split; simpl.
  - apply HI.
  - intros j q Hj. apply lookup_insert_Some in Hj as [[<- <-]|[Hne Hj]]; [|by apply (inv_keys _ _ HI)].
    destruct (inv_keys _ _ HI k r Hk) as [Hid Hi]. split; [|done]. destruct Hp as [-> _]. done.
  - intros id k1 k2 r1 r2 H1 H2 A1 A2.
    apply lookup_insert_Some in H1 as [[<- <-]|[Hn1 H1]]; apply lookup_insert_Some in H2 as [[<- <-]|[Hn2 H2]]; [done| | |].
    + eapply (inv_once _ _ HI id); [exact Hk|exact H2| |exact A2]. by apply (same_place_answers id r r').
    + eapply (inv_once _ _ HI id); [exact H1|exact Hk|exact A1|]. by apply (same_place_answers id r r').
    + by eapply (inv_once _ _ HI).
  - intros j q Hj Hq Ha Hs. apply (answered_replace j k r r'); [done|done|].
    apply lookup_insert_Some in Hj as [[<- <-]|[Hne Hj]]; [|by eapply (inv_done _ _ HI)].
    destruct Hp as (Hp1&Hp2&Hp3&Hp4). destruct (Hdone Hq Ha Hs) as [Hst|?]; [|done]. eapply (inv_done _ _ HI k r); congruence.
Qed.

Lemma with_state_place r st : same_place r (with_state r st).
Proof. done. Qed.

(** ** Exchanges *)

Definition serve (s : Server) (operation : string) (fields : list soapField) : reply * Server :=
  let s := log_operation s operation in
  if String.eqb operation "getRecords" then (getRecords s fields, s)
  else if String.eqb operation "update" then update s fields else insert s fields.

Context (c : Client).

Definition request (operation body : string) : httpRequest :=
  mkHttpRequest "POST" (Path (Client_endpoint c)) (RawQuery (Client_endpoint c)) (Some (Client_username c, Client_password c))
    (eccQueueNamespace +:+ "/" +:+ operation)%string body.

Lemma ServeHTTP_cases s operation fields body :
  soap_operation operation = true → read_request body = Some (operation, fields) →
  (ServeHTTP s (request operation body)).2 = s ∧ 300 <= reply_status (ServeHTTP s (request operation body)).1 ∨
  ServeHTTP s (request operation body) = serve s operation fields.
Proof.
  intros Ho Hr. unfold ServeHTTP. simpl. repeat (match goal with |- context [if ?b then (_, s) else _] => destruct b end; [left; split; [done|simpl; lia]|]).
  rewrite Hr, Ho. simpl. change (soapActionBase +:+ operation)%string with (eccQueueNamespace +:+ "/" +:+ operation)%string.
  rewrite String.eqb_refl. by right.
Qed.

Lemma receive_ok r r' : receive r = Ok r' → r' = carried_reply r ∧ reply_status r < 300.
Proof.
  unfold receive. destruct (maxSOAPResponseBytes <? slen (reply_text r)) eqn:E; [done|].
  destruct (Z.ltb_spec (reply_status r) 200), (Z.leb_spec 300 (reply_status r)); try done. cbn [orb]. unfold decodeSOAPEnvelope.
  destruct (slen (reply_text r) =? 0); [done|]. rewrite E. destruct (validateXMLBounds _ _ _ _); [|done]. destruct r; try done; by intros [= <-].
Qed.

Definition names_ok (fields : list soapField) : bool := forallb (λ f, match_soap_name (Field_Name f)) fields.

Lemma triple_call P operation fields (Q : reply → World → Prop) (E : World → Prop) :
  soap_operation operation = true → names_ok fields = true → (∀ w, P w → E w) →
  (∀ w, P w → let rs := serve (World_ecc w) operation (carried_field <$> fields) in
     E (set_ecc w rs.2) ∧ (∀ r', receive rs.1 = Ok r' → Q r' (set_ecc w rs.2))) →
  triple P (call c operation fields) Q E.
Proof.
  intros Ho Hn HE HQ. unfold call. destruct (encodeSOAPRequest_carries operation fields Ho Hn) as (body&Hb&Hr&_). rewrite Hb.
  eapply (triple_bind _ _ _ (λ b w, P w ∧ b = body)).
  { apply triple_lift; [|done]. intros w a [= <-] Hw. done. }
  intros b. apply triple_pure. intros ->.
  eapply (triple_bind _ _ _ (λ r w, E w ∧ (∀ r', receive r = Ok r' → Q r' w))).
  - assert (∀ w, P w → let rs := ServeHTTP (World_ecc w) (request operation body) in
      E (set_ecc w rs.2) ∧ (∀ r', receive rs.1 = Ok r' → Q r' (set_ecc w rs.2))) as Hall.
    { intros w Hw. destruct (ServeHTTP_cases (World_ecc w) operation (carried_field <$> fields) body Ho Hr) as [[H1 H2]| ->]; [|by apply HQ].
      simpl. rewrite H1. split; [destruct w; by apply HE|]. intros r' [_ Hlt]%receive_ok. lia. }
    apply triple_effect.
    + intros w Hw. specialize (Hall w Hw). simpl in *. fold (request operation body). by destruct (ServeHTTP (World_ecc w) (request operation body)).
    + intros w Hw. specialize (Hall w Hw). simpl in *. fold (request operation body). destruct (ServeHTTP (World_ecc w) (request operation body)). apply Hall.
    + intros _ w Hw. by apply HE.
  - intros r. apply triple_lift; [|by intros w [? _]]. intros w r' Hr' [_ Hw]. by apply Hw.
Qed.

(** ** Texts that are carried as they are *)

Lemma printable_app a b : string_all printable (a +:+ b)%string = string_all printable a && string_all printable b.
Proof. apply string_all_app. Qed.

Lemma hex_printable c' : is_hex c' = true → printable c' = true.
Proof.
  unfold is_hex, is_digit, in_range, printable. intros Hc. apply andb_true_iff. rewrite Z.leb_le, Z.ltb_lt.
  repeat (apply orb_true_iff in Hc as [Hc|Hc]); bool_facts; lia.
Qed.

Lemma sys_id_printable s : match_sys_id s = true → string_all printable s = true.
Proof. unfold match_sys_id. intros [_ H]%andb_true_iff. eapply string_all_impl; [|exact H]. apply hex_printable. Qed.

Lemma sys_id_free s d : match_sys_id s = true → is_hex d = false → free_of d s.
Proof.
  unfold match_sys_id. intros [_ H]%andb_true_iff Hd. eapply string_all_impl; [|exact H]. intros e He.
  apply negb_true_iff, Ascii.eqb_neq. congruence.
Qed.

Lemma carried_printable s : string_all printable s = true → carried s = s.
Proof. intros Hs. by apply carried_valid, printable_valid. Qed.

Lemma sys_id_carried s : match_sys_id s = true → carried s = s.
Proof. intros Hs. by apply carried_printable, sys_id_printable. Qed.

Lemma trim_plain s : string_all printable s = true → free_of " "%char s → trim_space s = s.
Proof.
  intros Hp Hf. apply trim_space_plain. unfold free_of in Hf. rewrite string_all_list in Hp, Hf. rewrite forallb_elem_of in Hp, Hf.
  intros d Hd. specialize (Hp d Hd). specialize (Hf d Hd). unfold printable in Hp. bool_facts. split; [lia|].
  apply Ascii.eqb_neq in Hf. assert (byte_val d ≠ 32) as Hne. { intros H32. apply Hf. by rewrite <-(byte_of_val d), H32. }
  unfold is_space, in_range. repeat (apply orb_false_iff; split); try (apply Z.eqb_neq; lia); apply andb_false_iff; rewrite ?Z.leb_gt; lia.
Qed.

Lemma sys_id_trim s : match_sys_id s = true → trim_space s = s.
Proof. intros Hs. apply trim_plain; [by apply sys_id_printable|by apply sys_id_free]. Qed.

Context (Hagent : ∃ name, AgentName name = Ok agent).

Lemma agent_bytes : ∃ name, agent = (AgentPrefix +:+ name)%string ∧ string_all safe_id_byte name = true ∧ slen name <= maxMIDNameBytes.
Proof.
  destruct Hagent as [name Hn]. unfold AgentName in Hn. destruct (match_safe_id name) eqn:E; [|done]. injection Hn as <-. exists name. split; [done|].
  destruct name as [|d name]; [done|]. simpl in *. apply andb_true_iff in E as [[H1 H2]%andb_true_iff H3]. unfold safe_id_byte at 1. rewrite H1, H2.
  split; [done|]. unfold slen, maxMIDNameBytes in *. simpl. bool_facts. lia.
Qed.

Lemma agent_all (f : ascii → bool) : (∀ d, safe_id_byte d = true → f d = true) → string_all f agent = true.
Proof.
  intros Hf. destruct agent_bytes as (name&->&Hn&_). rewrite string_all_app. apply andb_true_iff. split; [|by eapply string_all_impl].
  eapply string_all_impl; [exact Hf|]. by vm_compute.
Qed.

Lemma safe_id_range d : safe_id_byte d = true → 45 <= byte_val d <= 122 ∧ byte_val d ≠ 94 ∧ byte_val d ≠ 61.
Proof.
  unfold safe_id_byte, is_alnum, is_upper, is_lower, is_digit, in_range. intros H.
  repeat (apply orb_true_iff in H as [H|H]); bool_facts; try lia; apply Ascii.eqb_eq in H as ->; by vm_compute.
Qed.

Lemma agent_printable : string_all printable agent = true.
Proof. apply agent_all. intros d Hd%safe_id_range. unfold printable. apply andb_true_iff. rewrite Z.leb_le, Z.ltb_lt. lia. Qed.

Lemma agent_free d : safe_id_byte d = false → free_of d agent.
Proof. intros Hd. apply agent_all. intros e He. apply negb_true_iff, Ascii.eqb_neq. congruence. Qed.

Lemma agent_carried : carried agent = agent.
Proof. apply carried_printable, agent_printable. Qed.

(** ** Queries *)

Lemma elem_of_recordsLocked s r : r ∈ recordsLocked s ↔ ∃ k, Server_records s !! k = Some r.
Proof.
  unfold recordsLocked. rewrite sort_by_perm, list_elem_of_fmap. split.
  - intros ([k q]&->&Hin%elem_of_map_to_list). by exists k.
  - intros [k Hk]. exists (k, r). split; [done|]. by apply elem_of_map_to_list.
Qed.

Definition record_query (q : string) (limit : Z) : list soapField :=
  [mkSoapField "__encoded_query" q; mkSoapField "__first_row" "0"; mkSoapField "__last_row" (decimal limit)].

Lemma row_limits limit : 1 <= limit <= maxPollRecords → Atoi (carried (decimal limit)) = Some limit.
Proof.
  intros Hl. assert (forallb (λ n, bool_decide (Atoi (carried (decimal (Z.of_nat n))) = Some (Z.of_nat n))) (List.seq 1 16) = true) as Hall by (by vm_compute).
  rewrite forallb_forall in Hall. specialize (Hall (Z.to_nat limit)). unfold maxPollRecords in Hl. rewrite Z2Nat.id in Hall by lia.
  eapply bool_decide_eq_true, Hall. apply in_seq. lia.
Qed.

Definition found (filters : gmap string string) (s : Server) : list ECC := filter (λ r, matches r filters = true) (recordsLocked s).

Lemma getRecords_take s q limit filters : 1 <= limit <= maxPollRecords → carried q = q →
  query_filters ∅ (split_byte "^"%char q) = Ok filters →
  getRecords s (carried_field <$> record_query q limit) = RecordsReply (take (Z.to_nat limit) (found filters s)).
Proof.
  intros Hl Hq Hf. unfold getRecords.
  change (wire_value (carried_field <$> record_query q limit) "__first_row") with (carried "0").
  change (wire_value (carried_field <$> record_query q limit) "__last_row") with (carried (decimal limit)).
  change (wire_value (carried_field <$> record_query q limit) "__encoded_query") with (carried q).
  rewrite row_limits, Hq, Hf by done. change (Atoi (carried "0")) with (Some 0). cbv iota beta.
  change (0 <? 0) with false. cbv iota. unfold maxPollRecords in Hl.
  rewrite (proj2 (Z.ltb_ge limit 0)), (proj2 (Z.ltb_ge 16 (limit - 0))) by lia. cbn [orb]. f_equal. unfold slice, llen.
  fold (found filters s). rewrite (Z.min_l 0) by lia. change (Z.to_nat 0) with 0%nat. rewrite drop_0.
  destruct (Z.min_spec limit (Z.of_nat (length (found filters s)))) as [[_ ->]|[Hle ->]]; [done|].
  rewrite Nat2Z.id, firstn_all. symmetry. apply take_ge. lia.
Qed.

Lemma matches_insert r field value filters : filters !! field = None →
  matches r (<[field := value]> filters) = bool_decide (default value (filter_value r field) = value) && matches r filters.
Proof. intros Hn. unfold matches. apply eq_true_iff_eq. rewrite andb_true_iff, !bool_decide_eq_true.
  by rewrite (map_Forall_insert (λ f v, default v (filter_value r f) = v) filters field value Hn). Qed.

Lemma matches_empty r : matches r ∅ = true.
Proof. apply bool_decide_eq_true. apply map_Forall_empty. Qed.

Lemma matches_get r id : matches r (<["agent" := agent]> (<["sys_id" := id]> ∅))%string = true ↔ SysID r = id ∧ Ecc_Agent r = agent.
Proof. rewrite !matches_insert, matches_empty, !andb_true_iff, !bool_decide_eq_true by done. simpl. tauto. Qed.

Lemma matches_responses r id :
  matches r (<["queue" := QueueInput]> (<["agent" := agent]> (<["response_to" := id]> ∅)))%string = true ↔ answers id r.
Proof. rewrite !matches_insert, matches_empty, !andb_true_iff, !bool_decide_eq_true by done. unfold answers. simpl. tauto. Qed.

Lemma matches_poll r :
  matches r (<["state" := StateReady]> (<["queue" := QueueOutput]> (<["agent" := agent]> ∅)))%string = true ↔
  Ecc_Agent r = agent ∧ Queue r = QueueOutput ∧ Ecc_State r = StateReady.
Proof. rewrite !matches_insert, matches_empty, !andb_true_iff, !bool_decide_eq_true by done. simpl. tauto. Qed.

Lemma get_query_filters id : match_sys_id id = true →
  query_filters ∅ (split_byte "^"%char (get_query id agent)) = Ok (<["agent" := agent]> (<["sys_id" := id]> ∅))%string ∧ carried (get_query id agent) = get_query id agent.
Proof.
  intros Hid. split.
  - assert (get_query id agent = ("sys_id=" +:+ id) +:+ String "^" ("agent=" +:+ agent))%string as -> by (unfold get_query; by rewrite !string_app_assoc).
    rewrite split_byte_app, split_byte_free; [done| |].
    + rewrite free_of_app. split; [done|by apply agent_free].
    + rewrite free_of_app. split; [done|by apply sys_id_free].
  - apply carried_printable. unfold get_query. rewrite !string_all_app, (sys_id_printable id), agent_printable by done. done.
Qed.

Lemma responses_query_filters id : match_sys_id id = true →
  query_filters ∅ (split_byte "^"%char (responses_query id agent)) = Ok (<["queue" := QueueInput]> (<["agent" := agent]> (<["response_to" := id]> ∅)))%string
  ∧ carried (responses_query id agent) = responses_query id agent.
Proof.
  intros Hid. split.
  - assert (responses_query id agent = ("response_to=" +:+ id) +:+ String "^" (("agent=" +:+ agent) +:+
      String "^" ("queue=input^ORDERBYsys_created_on^ORDERBYsys_id")))%string as -> by (unfold responses_query; by rewrite !string_app_assoc).
    rewrite !split_byte_app; [done| |].
    + rewrite free_of_app. split; [done|by apply agent_free].
    + rewrite free_of_app. split; [done|by apply sys_id_free].
  - apply carried_printable. unfold responses_query. rewrite !string_all_app, (sys_id_printable id), agent_printable by done. done.
Qed.

Lemma poll_query_filters :
  query_filters ∅ (split_byte "^"%char (poll_query agent)) = Ok (<["state" := StateReady]> (<["queue" := QueueOutput]> (<["agent" := agent]> ∅)))%string
  ∧ carried (poll_query agent) = poll_query agent.
Proof.
  split.
  - assert (poll_query agent = ("agent=" +:+ agent) +:+ String "^" ("queue=output^state=ready^ORDERBYsys_created_on^ORDERBYsys_id"))%string as ->
      by (unfold poll_query; by rewrite !string_app_assoc).
    rewrite split_byte_app; [done|]. rewrite free_of_app. split; [done|by apply agent_free].
  - apply carried_printable. unfold poll_query. rewrite !string_all_app, agent_printable. done.
Qed.

(** ** The client's operations keep the invariant

    [St n X]: the invariant, a journal whose entries are well formed and for this agent,
    and a fact [X] about the records. *)
Definition good (e : journalEntry) : Prop := entry_utf8 e = true ∧ ∀ r, Entry_Result e = Some r → Ecc_Agent r = agent.
Definition St (n : Z) (X : gmap string ECC → Prop) (w : World) : Prop :=
  Inv n (World_ecc w) ∧ file_ok good (World_journal w) ∧ X (Server_records (World_ecc w)).
Definition any (records : gmap string ECC) : Prop := True.

(** Facts that survive a change of a record in its place. *)
Definition placed (X : gmap string ECC → Prop) : Prop :=
  ∀ m k r r', m !! k = Some r → same_place r r' → X m → X (<[k := r']> m).
Lemma placed_any : placed any.
Proof. done. Qed.
Lemma placed_answered id : placed (answered id).
Proof. intros m k r r' Hk Hp Ha. by apply (proj2 (answered_replace id k r r' m Hk Hp)). Qed.
Lemma placed_unanswered id : placed (λ m, ¬ answered id m).
Proof. intros m k r r' Hk Hp Hx Ha. apply Hx. by apply (proj1 (answered_replace id k r r' m Hk Hp)). Qed.

Lemma St_weaken n m X w : n <= m → St n X w → St m any w.
Proof. intros Hle (HI&Hf&_). split; [by eapply Inv_mono|done]. Qed.

Lemma St_any n X w : St n X w → St n any w.
Proof. apply St_weaken. lia. Qed.

Definition seen (r : ECC) : ECC := soap_model (carried_record r).

Lemma model_all_ok l l' : model_all l = Ok l' → l' = soap_model <$> l ∧ Forall (λ r, validateRecordFields r = Ok tt) l'.
Proof.
  revert l'. induction l as [|r l IH]; intros l'; simpl; [by intros [= <-]|].
  destruct (validateRecordFields (soap_model r)) as [[]|] eqn:Ev; [|done]. destruct (model_all l) as [k|]; [|done]. intros [= <-].
  destruct (IH k eq_refl) as [-> Hk]. split; [done|by constructor].
Qed.

Lemma triple_query n X q limit filters :
  carried q = q → query_filters ∅ (split_byte "^"%char q) = Ok filters →
  triple (St n X) (queryRecords c q limit)
    (λ l w, St n X w ∧ l = seen <$> take (Z.to_nat limit) (found filters (World_ecc w))) (St n X).
Proof.
  intros Hq Hf. unfold queryRecords. destruct (Z.ltb_spec limit 1); [by apply triple_lift|].
  destruct (Z.ltb_spec maxPollRecords limit); [by apply triple_lift|]. simpl. destruct (_ || _); [by apply triple_lift|].
  eapply (triple_bind _ _ _ (λ r w, St n X w ∧ r = RecordsReply (carried_record <$> take (Z.to_nat limit) (found filters (World_ecc w))))).
  - apply (triple_call _ "getRecords" (record_query q limit)); [done|done|done|]. intros w Hw. cbv zeta. unfold serve. cbn [String.eqb Ascii.eqb Bool.eqb].
    assert (St n X (set_ecc w (log_operation (World_ecc w) "getRecords"))) as Hlog.
    { destruct Hw as (HI&Hj&Hx). split; [by apply Inv_log|]. by split. }
    rewrite (getRecords_take _ q limit filters) by (done || lia). cbn [fst snd]. split; [done|]. intros r' [-> _]%receive_ok. by split.
  - intros r. apply triple_lift; [|by intros w [? _]]. intros w l Hl [Hw ->]. split; [done|]. destruct (limit <? _); [done|].
    apply model_all_ok in Hl as [-> _]. by rewrite <-list_fmap_compose.
Qed.

(** What the loop takes from a record. *)
Definition taken_texts (r : ECC) : list string := [Ecc_Agent r; Topic r; Ecc_Name r; Ecc_Source r; AgentCorrelator r; Parameters r].
Definition Got (id : string) (r : ECC) : Prop :=
  validateOutputRecord r agent = Ok tt ∧ SysID r = id ∧ forallb utf8_valid (taken_texts r) = true.

Lemma seen_texts r : forallb utf8_valid (taken_texts (seen r)) = true.
Proof. unfold taken_texts, seen. cbn [forallb soap_model carried_record Ecc_Agent Topic Ecc_Name Ecc_Source AgentCorrelator Parameters]. by rewrite !carried_utf8. Qed.

Lemma check_all_ok check l : check_all check l = Ok tt → Forall (λ r, check r = Ok tt) l.
Proof. induction l as [|r l IH]; simpl; [done|]. destruct (check r) as [[]|] eqn:E; [|done]. intros Hl. constructor; [done|by apply IH]. Qed.

Lemma triple_Get n X id : triple (St n X) (Get c id agent) (λ r w, St n X w ∧ Got id r) (St n X).
Proof.
  unfold Get. destruct (match_sys_id id) eqn:Hid; [|by apply triple_lift]. simpl. destruct (get_query_filters id Hid) as [Hf Hc].
  eapply triple_bind; [by apply triple_query|]. intros l. apply triple_lift; [|by intros w [? _]].
  intros w r Hr [Hw ->]. split; [done|]. destruct (take _ _) as [|raw [|]] eqn:E; try done. simpl in Hr.
  destruct (validateOutputRecord (seen raw) agent) as [[]|] eqn:Ev; [|done]. injection Hr as <-. split; [done|]. split; [|apply seen_texts].
  assert (raw ∈ found (<["agent":=agent]> (<["sys_id":=id]> ∅))%string (World_ecc w)) as Hin.
  { apply (subseteq_take (Z.to_nat 2)). rewrite E. by left. }
  apply list_elem_of_filter in Hin as [[Hraw _]%matches_get _]. cbn [seen soap_model carried_record SysID]. rewrite Hraw, sys_id_carried by done. by apply sys_id_trim.
Qed.

Lemma triple_Poll n X limit : triple (St n X) (Poll c agent limit)
  (λ l w, St n X w ∧ (length l <= 16)%nat ∧ Forall (λ r, Got (SysID r) r) l) (St n X).
Proof.
  unfold Poll. destruct (_ || _); [by apply triple_lift|]. destruct (Z.ltb_spec limit 1); [by apply triple_lift|].
  destruct (Z.ltb_spec maxPollRecords limit) as [|Hmax]; [by apply triple_lift|]. cbn [orb]. destruct poll_query_filters as [Hf Hc].
  eapply triple_bind; [by apply triple_query|]. intros l. cbv beta.
  eapply (triple_bind _ _ _ (λ _ w, (St n X w ∧ ∃ raw, l = seen <$> raw ∧ (length raw <= 16)%nat) ∧ Forall (λ r, validateOutputRecord r agent = Ok tt) l)).
  - apply triple_lift; [|by intros w [? _]]. intros w [] Hl [Hw ->]. split.
    + split; [done|]. eexists. split; [done|]. rewrite length_take. unfold maxPollRecords in Hmax. lia.
    + apply check_all_ok in Hl. eapply Forall_impl; [exact Hl|]. intros r. simpl. by destruct (validateOutputRecord r agent) as [[]|].
  - intros []. apply triple_ret. intros w [[Hw (raw&->&Hlen)] Hv]. split; [done|]. split; [by rewrite length_fmap|].
    apply Forall_fmap, Forall_forall. intros r Hr. rewrite Forall_forall in Hv. split; [apply Hv; by apply list_elem_of_fmap_2|].
    split; [done|apply seen_texts].
Qed.

Lemma triple_mutation P operation fields (Q : string → World → Prop) (E : World → Prop) :
  soap_operation operation = true → names_ok fields = true → (∀ w, P w → E w) →
  (∀ w, P w → let rs := serve (World_ecc w) operation (carried_field <$> fields) in
     E (set_ecc w rs.2) ∧ (∀ id, (if String.eqb operation "insert" then rs.1 = InsertReply id else rs.1 = UpdateReply id) → ∀ id', Q id' (set_ecc w rs.2))) →
  triple P (mutate c operation fields) Q E.
Proof.
  intros Ho Hn HE HQ. unfold mutate.
  eapply (triple_bind _ _ _ (λ r w, E w ∧ ∀ id, match r with InsertReply i => if String.eqb operation "insert" then Some i else None
     | UpdateReply i => if String.eqb operation "update" then Some i else None | _ => None end = Some id → ∀ id', Q id' w)).
  - apply triple_call; [done|done|done|]. intros w Hw. specialize (HQ w Hw). cbv zeta in *. destruct HQ as [H1 H2]. split; [done|].
    intros r' [-> _]%receive_ok. split; [done|]. intros id. destruct (serve _ _ _) as [[| | |i|i] s']; try done; cbn [fst snd carried_reply] in *.
    + destruct (String.eqb_spec operation "update") as [->|]; [|done]. intros _. eapply H2. reflexivity.
    + destruct (String.eqb_spec operation "insert") as [->|]; [|done]. intros _. eapply H2. reflexivity.
  - intros r. apply triple_lift; [|by intros w [? _]]. intros w id Hid [_ Hq].
    destruct (match r with InsertReply i => _ | UpdateReply i => _ | _ => None end) as [i|]; [by eapply Hq|done].
Qed.

Lemma triple_update n X id st : match_sys_id id = true → placed X →
  st = StateProcessing ∨ st = StateProcessed ∧ (∀ m, X m → answered id m) →
  triple (St n X) (mutate c "update" (state_fields id st)) (λ _, St n X) (St n X).
Proof.
  intros Hid Hx Hst. assert (carried st = st) as Hcst by (by destruct Hst as [-> |[-> _]]).
  apply triple_mutation; [done|done|done|]. intros w (HI&Hj&HX). cbv zeta. unfold serve. cbn [String.eqb Ascii.eqb Bool.eqb].
  assert (St n X (set_ecc w (update (log_operation (World_ecc w) "update") (carried_field <$> state_fields id st)).2)) as Hs; [|by split].
  unfold update. change (wire_value (carried_field <$> state_fields id st) "sys_id") with (carried id).
  change (wire_value (carried_field <$> state_fields id st) "state") with (carried st). rewrite Hcst, sys_id_carried by done.
  pose proof (Inv_log n _ "update" HI) as HI'. destruct (Server_records _ !! id) as [r|] eqn:E; [|by split].
  destruct (_ && _); [by split|]. cbn [snd]. split; [|split; [done|]].
  - apply (Inv_replace n _ id r); [done|done|by apply with_state_place|]. intros _ _ Hs. simpl in Hs.
    destruct Hst as [-> |[-> Ha]]; [done|]. right. by apply Ha.
  - by apply (Hx _ id r (with_state r st)).
Qed.

Lemma triple_Claim n X r : placed X → Ecc_Agent r = agent → match_sys_id (SysID r) = true →
  triple (St n X) (Claim c r) (λ r' w, St n X w ∧ Got (SysID r) r') (St n X).
Proof.
  intros Hx Ha Hid. unfold Claim. destruct (negb _); [by apply triple_lift|].
  eapply triple_bind; [apply (triple_lift _ _ (λ _, St n X)); done|]. intros digest.
  eapply triple_bind; [apply triple_update; [done|done|by left]|]. intros u. rewrite Ha.
  eapply triple_bind; [apply triple_Get|]. intros r'. cbv beta. destruct (negb _); [by apply triple_lift; [|intros w [? _]]|].
  eapply (triple_bind _ _ _ (λ _ w, St n X w ∧ Got (SysID r) r')); [by apply triple_lift; [|intros w [? _]]|].
  intros d. destruct (negb _); [by apply triple_lift; [|intros w [? _]]|]. by apply triple_ret.
Qed.

Lemma triple_MarkProcessed n r id : SysID r = id →
  triple (St n (answered id)) (MarkProcessed c r) (λ _, St n any) (St n any).
Proof.
  intros <-. unfold MarkProcessed. destruct (match_sys_id (SysID r)) eqn:Hid; [|apply triple_lift; [done|]; intros w Hw; by apply St_any in Hw].
  destruct (negb _ || negb _); [apply triple_lift; [done|]; intros w Hw; by apply St_any in Hw|].
  eapply (triple_bind _ _ _ (λ _, St n any)); [|intros _; by apply triple_ret].
  eapply triple_weaken; [apply (triple_update n (answered (SysID r))); [done|apply placed_answered|by right; split]|done| |].
  - intros u w Hw. by apply St_any in Hw.
  - intros w Hw. by apply St_any in Hw.
Qed.

Lemma found_nil filters s : found filters s = [] → ∀ k r, Server_records s !! k = Some r → matches r filters = false.
Proof.
  intros Hn k r Hk. destruct (matches r filters) eqn:E; [|done]. assert (r ∈ found filters s) as Hin; [|rewrite Hn in Hin; by apply elem_of_nil in Hin].
  apply list_elem_of_filter. split; [done|]. apply elem_of_recordsLocked. by exists k.
Qed.

Lemma triple_FindResponses n id : triple (St n any) (FindResponses c id agent)
  (λ l w, match l with [] => St n (λ m, ¬ answered id m) w | _ => St n (answered id) w end) (St n any).
Proof.
  unfold FindResponses. destruct (match_sys_id id) eqn:Hid; [|by apply triple_lift]. simpl. destruct (responses_query_filters id Hid) as [Hf Hc].
  eapply triple_bind; [by apply triple_query|]. intros l. cbv beta.
  set (F := (<["queue":=QueueInput]> (<["agent":=agent]> (<["response_to":=id]> ∅)))%string) in *.
  eapply (triple_bind _ _ _ (λ _ w, St n any w ∧ l = seen <$> take (Z.to_nat 2) (found F (World_ecc w)))); [by apply triple_lift; [|intros w [? _]]|].
  intros _. apply triple_ret. intros w [(HI&Hj&_) Heq].
  destruct (found F (World_ecc w)) as [|r rest] eqn:E; simpl in Heq; subst l.
  - split; [done|]. split; [done|]. intros (k&r&Hk&Ha). pose proof (found_nil F _ E k r Hk) as Hm. apply matches_responses in Ha. unfold F in Hm. congruence.
  - split; [done|]. split; [done|]. assert (r ∈ found F (World_ecc w)) as Hin by (rewrite E; by left).
    apply list_elem_of_filter in Hin as [Ha%matches_responses [k Hk]%elem_of_recordsLocked]. by exists k, r.
Qed.

Lemma validateInputRecord_ok r a : validateInputRecord r a = Ok tt →
  Ecc_Agent r = a ∧ Queue r = QueueInput ∧ Ecc_State r = StateReady ∧ match_sys_id (ResponseTo r) = true.
Proof.
  unfold validateInputRecord. destruct (negb _ && negb _); [done|]. destruct (String.eqb_spec (Ecc_Agent r) a), (String.eqb_spec (Queue r) QueueInput); try done.
  destruct (String.eqb_spec (Ecc_State r) StateReady); [|done]. simpl. by destruct (match_sys_id (ResponseTo r)).
Qed.

(** The record the server stores for a result. *)
Definition stored_result (s : Server) (r : ECC) : ECC :=
  mkECC (sys_id_of (nextID s)) (carried (Ecc_Agent r)) (carried (Topic r)) (carried (Ecc_Name r)) (carried (Ecc_Source r))
    (carried (Queue r)) (carried (Ecc_State r)) (carried (ResponseTo r)) (carried (AgentCorrelator r)) (carried (Parameters r))
    (carried (Payload r)) (carried (ErrorString r)) (created_on (nextSysIDLocked s).2).

Lemma insert_stored s r : insert s (carried_field <$> insert_fields r) =
  (InsertReply (sys_id_of (nextID s)), put_record (nextSysIDLocked s).2 (stored_result s r)).
Proof. reflexivity. Qed.

Lemma triple_InsertResult n r : n + 1 < 2 ^ 64 → Ecc_Agent r = agent →
  triple (St n (λ m, ¬ answered (ResponseTo r) m)) (InsertResult c r) (λ _, St (n + 1) (answered (ResponseTo r))) (St (n + 1) any).
Proof.
  intros Hn Ha. unfold InsertResult.
  eapply (triple_bind _ _ _ (λ _ w, St n (λ m, ¬ answered (ResponseTo r) m) w ∧ validateInputRecord r agent = Ok tt)).
  - apply triple_lift; [|intros w Hw; eapply St_weaken; [|exact Hw]; lia]. intros w [] Hv Hw. by rewrite Ha in Hv.
  - intros _. apply triple_pure. intros (_&Hq&Hs&Hr)%validateInputRecord_ok.
    apply triple_mutation; [done|done|intros w Hw; eapply St_weaken; [|exact Hw]; lia|]. intros w (HI&Hj&Hx). cbv zeta. unfold serve.
    cbn [String.eqb Ascii.eqb Bool.eqb]. rewrite insert_stored. cbn [fst snd].
    set (s := log_operation (World_ecc w) "insert") in *.
    assert (Inv n s) as HI' by (by apply Inv_log).
    assert (answers (ResponseTo r) (stored_result s r)) as Hans.
    { unfold answers. cbn [stored_result Queue Ecc_Agent ResponseTo]. rewrite Hq, Ha, agent_carried, (sys_id_carried _ Hr). done. }
    assert (Inv (n + 1) (put_record (nextSysIDLocked s).2 (stored_result s r))) as Hnew.
    { apply (Inv_add n s _ (stored_result s r)); [done|done|done|done|done| |].
      - intros id (_&_&<-). cbn [stored_result ResponseTo]. by rewrite (sys_id_carried _ Hr).
      - intros Hq'. cbn [stored_result Queue] in Hq'. by rewrite Hq in Hq'. }
    split; [by split|]. intros id _ id'. split; [done|]. split; [done|].
    exists (sys_id_of (nextID s)), (stored_result s r). split; [|done]. simpl. by rewrite lookup_insert_eq.
Qed.

Lemma triple_Save n X e : good e → triple (St n X) (Save e) (λ _, St n X) (St n X).
Proof.
  intros Hg. unfold Save. eapply (triple_bind _ _ _ (λ line w, St n X w ∧ line = entry_text e ∧ saved e)).
  - apply triple_lift; [|done]. intros w line (->&Hv&_)%entry_line_text Hw. split; [done|]. split; [done|]. split; [done|apply Hg].
  - intros line. apply triple_pure. intros [-> Hs].
    assert (∀ w k, St n X w → St n X (set_journal w (append_file (World_journal w) (take_string k (entry_text e))))) as Happ.
    { intros w k (HI&Hj&Hx). split; [done|]. split; [by apply file_append|done]. }
    apply triple_effect; [| |intros k w Hw; by apply Happ]; intros w Hw; cbn [fst snd];
      rewrite <-(take_string_all (String.length (entry_text e)) (entry_text e)) by done; by apply Happ.
Qed.

Lemma triple_Clear n X : triple (St n X) Clear (λ _, St n X) (St n X).
Proof. apply triple_effect; [| |done]; intros w (HI&Hj&Hx); (split; [done|]; split; [by intros text|done]). Qed.

(** ** The results that the loop sends *)

Lemma sys_id_utf8 s : match_sys_id s = true → utf8_valid s = true.
Proof. unfold match_sys_id. intros [_ H]%andb_true_iff. by apply ascii_utf8, hex_ascii. Qed.

Lemma xml_attr_utf8 name value : utf8_valid name = true → utf8_valid (xml_attr name value) = true ∧ utf8_valid (xml_attr_omitempty name value) = true.
Proof.
  intros Hn. assert (utf8_valid (xml_attr name value) = true) as Ha.
  { unfold xml_attr, quoted. repeat apply utf8_valid_app; first [exact Hn|apply xml_escape_utf8|by vm_compute]. }
  split; [done|]. unfold xml_attr_omitempty. by case_bool_decide.
Qed.

#[local] Opaque xml_attr xml_attr_omitempty utf8_valid.
Lemma payload_utf8 i : utf8_valid (payload_xml i) = true.
Proof.
  assert (∀ name value, utf8_valid name = true → utf8_valid (xml_attr name value) = true) as H1 by (intros n v Hn; apply (xml_attr_utf8 n v Hn)).
  assert (∀ name value, utf8_valid name = true → utf8_valid (xml_attr_omitempty name value) = true) as H2 by (intros n v Hn; apply (xml_attr_utf8 n v Hn)).
  unfold payload_xml. repeat apply utf8_valid_app; first [apply H1; by vm_compute|apply H2; by vm_compute|by vm_compute].
Qed.

#[local] Transparent xml_attr xml_attr_omitempty utf8_valid.

Lemma result_good r name payload error_string :
  Got (SysID r) r → utf8_valid name = true → utf8_valid payload = true → utf8_valid error_string = true →
  let res := result_record r name payload error_string in
  record_utf8 res = true ∧ Ecc_Agent res = agent ∧ ResponseTo res = SysID r.
Proof.
  intros (Hv&_&Ht) Hn Hp He. apply validateOutputRecord_ok in Hv as (Hid&Ha&_). cbv zeta. split; [|split; [exact Ha|done]].
  unfold taken_texts in Ht. cbn [forallb] in Ht. rewrite !andb_true_iff in Ht. destruct Ht as (H1&H2&H3&H4&H5&H6&_).
  unfold record_utf8, record_texts, result_record. cbn [forallb SysID Ecc_Agent Topic Ecc_Name Ecc_Source Queue Ecc_State ResponseTo AgentCorrelator Parameters Payload ErrorString CreatedOn].
  rewrite H1, H2, H4, H5, H6, Hn, Hp, He, (sys_id_utf8 _ Hid). done.
Qed.

Lemma answer_good e r version digest res : Got (SysID r) r → answer e r version digest = Ok res →
  record_utf8 res = true ∧ Ecc_Agent res = agent ∧ ResponseTo res = SysID r.
Proof.
  intros Hg. unfold answer, Dispatch, dispatchError. destruct (negb _); [|destruct (String.eqb (Topic r) TopicHeartbeat)].
  all: match goal with |- match validateInputRecord ?res ?a with _ => _ end = _ → _ => destruct (validateInputRecord res a); [|done] end; intros [= <-].
  all: apply result_good; [done| |apply payload_utf8|by vm_compute].
  - by vm_compute.
  - destruct Hg as (_&_&Ht). unfold taken_texts in Ht. cbn [forallb] in Ht. rewrite !andb_true_iff in Ht. tauto.
  - by vm_compute.
Qed.

(** ** The loop *)

Lemma good_entry e : validateJournalEntry e = Ok tt → Entry_Result e = None → good e.
Proof.
  unfold validateJournalEntry. intros Hv Hr. split; [|congruence]. unfold entry_utf8. rewrite Hr. rewrite andb_true_r.
  destruct (negb (_ =? journalVersion)); [done|]. destruct (match_sys_id (Entry_RecordID e)) eqn:E1; [|done]. simpl in Hv.
  destruct (negb _) eqn:E2 in Hv; [done|]. destruct (hex_decodable (Entry_RecordDigest e)) eqn:E3; [|done]. simpl in Hv.
  rewrite (sys_id_utf8 _ E1). unfold hex_decodable in E3. apply andb_true_iff in E3 as [_ E3]. rewrite (ascii_utf8 _ (hex_ascii _ E3)). simpl.
  case_bool_decide as Hs; [by rewrite Hs|]. simpl in Hv. destruct (match_sys_id (Entry_ResponseSysID e)) eqn:E4; [by apply sys_id_utf8|done].
Qed.

Lemma good_with_result e r : good e → record_utf8 r = true → Ecc_Agent r = agent → good (with_result e r).
Proof.
  intros [Hu _] Hr Ha. split; [|by intros ? [= <-]]. unfold entry_utf8 in *. cbn [with_result Entry_RecordID Entry_RecordDigest Entry_ResponseSysID Entry_Result].
  bool_facts. rewrite Hr. do 3 (match goal with H : utf8_valid _ = true |- _ => rewrite H; clear H end). done.
Qed.

Lemma good_with_response e id : good e → utf8_valid id = true → good (with_response e id).
Proof.
  intros [Hu Hr] Hid. split; [|done]. unfold entry_utf8 in *. cbn [with_response Entry_RecordID Entry_RecordDigest Entry_ResponseSysID Entry_Result].
  bool_facts. rewrite Hid. repeat (apply andb_true_iff; split); done.
Qed.

(** A response identity that is not UTF-8 text is not valid either. *)
Lemma triple_Save_response n X e id : good e → triple (St n X) (Save (with_response e id)) (λ _, St n X) (St n X).
Proof.
  intros Hg. destruct (bool_decide (id = ""%string) || match_sys_id id) eqn:E.
  - apply triple_Save, good_with_response; [done|]. apply orb_true_iff in E as [E|E]; [bool_facts; by subst|by apply sys_id_utf8].
  - unfold Save. assert (∃ m, entry_line (with_response e id) = Err m) as [m ->].
    { unfold entry_line, validateJournalEntry. cbn [with_response Entry_Version Entry_RecordID Entry_RecordDigest Entry_ResponseSysID Entry_Result].
      repeat (match goal with |- context [if negb ?b then _ else _] => destruct b end; cbn [negb]; [|by eexists]).
      apply orb_false_iff in E as [-> ->]. by eexists. }
    eapply (triple_bind _ _ _ (λ _ _, False)); [by apply triple_fail|]. by intros ? fs w [].
Qed.

Lemma entry_result_id e r : validateJournalEntry e = Ok tt → Entry_Result e = Some r → ResponseTo r = Entry_RecordID e.
Proof.
  unfold validateJournalEntry. intros Hv Hr. rewrite Hr in Hv.
  repeat (match type of Hv with (if ?b then _ else _) = _ => destruct b; [done|] end).
  destruct (validateInputRecord r (Ecc_Agent r)); [|done]. destruct (String.eqb_spec (ResponseTo r) (Entry_RecordID e)); [done|by simpl in Hv].
Qed.

(** The second half of a claim: the result is sent once, and only then the record is done. *)
Lemma triple_finish n e record result : n + 1 < 2 ^ 64 → good e → Got (Entry_RecordID e) record →
  Ecc_Agent result = agent → ResponseTo result = Entry_RecordID e →
  triple (St n any)
    (responses ← FindResponses c (SysID record) agent;
     id ← match responses with
          | [] => InsertResult c result
          | [r] => mret (SysID r)
          | _ => lift (Err "found %d ECC responses for one output record; refusing to hide duplicate processing"%string)
          end;
     u ← Save (with_response e id);
     u ← MarkProcessed c record;
     Clear) (λ _, St (n + 1) any) (St (n + 1) any).
Proof.
  intros Hn Hg (Hv&Hid&_) Ha Hr.
  assert (∀ X w, St n X w → St (n + 1) any w) as Hup by (intros X w Hw; eapply St_weaken; [|exact Hw]; lia).
  eapply (triple_bind _ _ _ (λ l w, match l with [] => St n (λ m, ¬ answered (SysID record) m) w | _ => St n (answered (SysID record)) w end)).
  { eapply triple_weaken; [apply triple_FindResponses|done|done|apply Hup]. }
  intros responses. eapply (triple_bind _ _ _ (λ _ w, St (n + 1) (answered (SysID record)) w)).
  - assert (∀ w, St n (answered (SysID record)) w → St (n + 1) (answered (SysID record)) w) as Hans.
    { intros w (HI&Hj&Hx). split; [eapply Inv_mono; [|exact HI]; lia|done]. }
    destruct responses as [|r [|]]; [|by apply triple_ret|apply triple_fail; apply Hup].
    rewrite Hid, <-Hr. by apply triple_InsertResult.
  - intros id. eapply (triple_bind _ _ _ (λ _, St (n + 1) (answered (SysID record)))).
    { eapply triple_weaken; [by apply (triple_Save_response (n + 1) (answered (SysID record)))|done|done|by intros w Hw%St_any]. }
    intros _. eapply (triple_bind _ _ _ (λ _, St (n + 1) any)); [by apply triple_MarkProcessed|]. intros _. apply triple_Clear.
Qed.

Lemma triple_resumeClaim n version e : n + 1 < 2 ^ 64 → good e → validateJournalEntry e = Ok tt →
  triple (St n any) (resumeClaim c agent version e) (λ _, St (n + 1) any) (St (n + 1) any).
Proof.
  intros Hn Hg Hv. assert (∀ w, St n any w → St (n + 1) any w) as Hup by (intros w Hw; eapply St_weaken; [|exact Hw]; lia).
  unfold resumeClaim. eapply (triple_bind _ _ _ (λ r w, St n any w ∧ Got (Entry_RecordID e) r)).
  { eapply triple_weaken; [apply triple_Get| | |]; [exact (λ w Hw, Hw)|intros a w Hw; exact Hw|exact Hup]. }
  intros record. apply triple_pure. intros Hgot. destruct (String.eqb (Ecc_State record) StateProcessed).
  { eapply triple_weaken; [apply (triple_Clear n any)|done|intros u; exact Hup|exact Hup]. }
  assert (Ecc_Agent record = agent ∧ match_sys_id (SysID record) = true ∧ SysID record = Entry_RecordID e) as (Hra&Hrid&Hrs).
  { destruct Hgot as (Hval&Hid&_). apply validateOutputRecord_ok in Hval as (?&?&_). done. }
  eapply (triple_bind _ _ _ (λ r w, St n any w ∧ Got (Entry_RecordID e) r)).
  { destruct (String.eqb _ StateReady); [|by apply triple_ret].
    eapply triple_weaken; [apply (triple_Claim n any record)|done| |exact Hup]; [done|done|done|]. intros r w. by rewrite Hrs. }
  clear record Hgot Hra Hrid Hrs. intros record. apply triple_pure. intros Hgot.
  destruct (negb _); [apply triple_fail; exact Hup|]. eapply (triple_bind _ _ _ (λ _, St n any)); [apply triple_lift; [by intros|exact Hup]|]. intros digest.
  eapply (triple_bind _ _ _ (λ er w, St n any w ∧ good er.1 ∧ Ecc_Agent er.2 = agent ∧ ResponseTo er.2 = Entry_RecordID e ∧ Entry_RecordID er.1 = Entry_RecordID e)).
  - destruct (Entry_Result e) as [result|] eqn:Hres.
    + apply triple_ret. intros w Hw. split; [done|]. split; [done|]. split; [by apply Hg|]. split; [by apply entry_result_id|done].
    + assert (Got (SysID record) record) as Hgot' by (destruct Hgot as (?&_&?); by split_and!).
      eapply (triple_bind _ _ _ (λ r w, St n any w ∧ answer e record version digest = Ok r)); [apply triple_lift; [by intros|exact Hup]|].
      intros r. apply triple_pure. intros Hans. destruct (answer_good e record version digest r Hgot' Hans) as (Hu&Ha&Hr).
      eapply (triple_bind _ _ _ (λ _, St n any)).
      * eapply triple_weaken; [apply (triple_Save n any); by apply good_with_result|done|done|exact Hup].
      * intros _. apply triple_ret. intros w Hw. split; [done|]. split; [by apply good_with_result|]. split; [done|]. split; [|done].
        cbn [fst snd]. rewrite Hr. apply Hgot.
  - intros [e' result]. apply triple_pure. intros (Hge&Ha&Hr&Hre). cbn [fst snd] in *. rewrite <-Hre in Hgot, Hr. by apply triple_finish.
Qed.

Lemma digest_entry r d : validateOutputRecord r agent = Ok tt → recordDigest r = Ok d →
  validateJournalEntry (mkJournalEntry journalVersion (SysID r) d None "") = Ok tt.
Proof.
  intros (Hid&_)%validateOutputRecord_ok Hd. unfold recordDigest in Hd. destruct (_ <? _); [done|]. injection Hd as <-.
  unfold validateJournalEntry. cbn [Entry_Version Entry_RecordID Entry_RecordDigest Entry_ResponseSysID Entry_Result]. rewrite Hid.
  assert (slen (sha256_hex (record_json (digested r))) = 64) as -> by (unfold slen; by rewrite sha256_hex_length).
  by rewrite sha256_hex_decodable.
Qed.

Lemma triple_process version records n : n + llen records < 2 ^ 64 → Forall (λ r, Got (SysID r) r) records →
  triple (St n any) (process c agent version records) (λ _, St (n + llen records) any) (St (n + llen records) any).
Proof.
  revert n. induction records as [|record records IH]; intros n Hn Hgot.
  { apply triple_ret. intros w Hw. eapply St_weaken; [|exact Hw]. unfold llen. simpl. lia. }
  apply Forall_cons in Hgot as [Hr Hgot]. assert (llen (record :: records) = 1 + llen records) as Hlen by (unfold llen; simpl length; lia).
  rewrite Hlen in *. assert (0 <= llen records) as Hpos by (unfold llen; lia).
  assert (∀ m w, m <= n + (1 + llen records) → St m any w → St (n + (1 + llen records)) any w) as Hup by (intros m w Hle Hw; by eapply St_weaken).
  cbn [process]. eapply (triple_bind _ _ _ (λ _, St (n + 1) any)).
  - assert (∀ w, St n any w → St (n + 1) any w) as Hup1 by (intros w Hw; eapply St_weaken; [|exact Hw]; lia).
    eapply (triple_attempt (St n any) _ (λ _, St (n + 1) any) (St (n + 1) any)); [|done|done|intros w Hw; apply (Hup (n + 1)); [lia|done]].
    eapply (triple_bind _ _ _ (λ d w, St n any w ∧ recordDigest record = Ok d)); [apply triple_lift; [by intros|exact Hup1]|].
    intros d. apply triple_pure. intros Hd. destruct Hr as (Hval&_). pose proof (digest_entry record d Hval Hd) as Hent.
    eapply (triple_bind _ _ _ (λ _, St n any)).
    + eapply triple_weaken; [apply (triple_Save n any), good_entry; done|done|done|exact Hup1].
    + intros _. apply triple_resumeClaim; [lia|by apply good_entry|done].
  - intros [[]|]; [|apply triple_ret; intros w Hw; apply (Hup (n + 1)); [lia|done]].
    assert (n + (1 + llen records) = n + 1 + llen records) as -> by lia. apply IH; [lia|done].
Qed.

Lemma triple_load n : triple (St n any) load_journal
  (λ e w, St n any w ∧ match e with Some e => good e ∧ validateJournalEntry e = Ok tt | None => True end) (St n any).
Proof.
  unfold load_journal. eapply (triple_bind _ _ _ (λ r w, St n any w ∧ r = Load (World_journal w))); [by apply triple_effect|].
  intros r. apply triple_lift; [|by intros w [? _]]. intros w e -> [Hw Heq]. split; [done|]. destruct e as [e|]; [|done]. symmetry in Heq.
  split; [|by eapply Load_valid]. eapply Load_good; [|exact Heq]. apply Hw.
Qed.

Lemma triple_runCycle n version batch : n + 16 < 2 ^ 64 →
  triple (St n any) (runCycle c agent version batch) (λ _, St (n + 16) any) (St (n + 16) any).
Proof.
  intros Hn. assert (∀ m w, m <= n + 16 → St m any w → St (n + 16) any w) as Hup by (intros m w Hle Hw; by eapply St_weaken).
  assert (∀ w, St n any w → St (n + 16) any w) as Hup0 by (intros w Hw; apply (Hup n w); [lia|done]).
  unfold runCycle. eapply (triple_bind _ _ _ (λ oe w, St n any w ∧ match oe with Some (Some e) => good e ∧ validateJournalEntry e = Ok tt | _ => True end)).
  { eapply (triple_attempt (St n any) load_journal); [apply triple_load|by intros [e|] w Hw|by intros w Hw|exact Hup0]. }
  intros [[e|]|]; apply triple_pure.
  - intros [Hg Hv]. eapply (triple_bind _ _ _ (λ _, St (n + 1) any)).
    + eapply (triple_attempt (St n any)); [apply (triple_resumeClaim n version e); [lia|done|done]|done|done|].
      intros w Hw. apply (Hup (n + 1)); [lia|done].
    + intros _. apply triple_ret. intros w Hw. apply (Hup (n + 1)); [lia|done].
  - intros _. eapply (triple_bind _ _ _ (λ ol w, St n any w ∧ match ol with Some l => (length l <= 16)%nat ∧ Forall (λ r, Got (SysID r) r) l | None => True end)).
    + eapply (triple_attempt (St n any)); [apply (triple_Poll n any batch)|by intros a w Hw|by intros w Hw|exact Hup0].
    + intros [l|]; apply triple_pure; [|intros _; by apply triple_ret]. intros [Hlen Hl].
      eapply triple_weaken; [apply (triple_process version l n); [unfold llen; lia|done]|done| |].
      * intros u w Hw. apply (Hup (n + llen l)); [unfold llen; lia|done].
      * intros w Hw. apply (Hup (n + llen l)); [unfold llen; lia|done].
  - intros _. by apply triple_ret.
Qed.

(** ** Histories

    Cycles of the process, each with its faults, and what happens on the instance:
    new output records for any agent, and edits of records by others, which may change
    every field but the place of the record in the queue, and do not mark an output
    record as processed. *)
Inductive event :=
| Cycle (version : string) (batch : Z) (faults : list fault)
| Output (agent topic name source parameters payload correlator : string)
| Edit (id : string) (r : ECC).

Definition edited (r0 r : ECC) : ECC :=
  mkECC (SysID r0) (Ecc_Agent r0) (Topic r) (Ecc_Name r) (Ecc_Source r) (Queue r0) (Ecc_State r) (ResponseTo r0)
    (AgentCorrelator r) (Parameters r) (Payload r) (ErrorString r) (CreatedOn r0).

Definition edit (s : Server) (id : string) (r : ECC) : Server :=
  match Server_records s !! id with
  | None => s
  | Some r0 =>
    if String.eqb (Queue r0) QueueOutput && String.eqb (Ecc_State r) StateProcessed then s
    else set_records s (<[id := edited r0 r]> (Server_records s))
  end.

Definition step (w : World) (e : event) : World :=
  match e with
  | Cycle version batch faults => (runCycle c agent version batch faults w).2
  | Output a topic name source parameters payload correlator =>
    set_ecc w (AddOutput (World_ecc w) a topic name source parameters payload correlator).2
  | Edit id r => set_ecc w (edit (World_ecc w) id r)
  end.

Lemma step_St n w e : n + 16 < 2 ^ 64 → St n any w → St (n + 16) any (step w e).
Proof.
  intros Hn Hw. destruct e as [version batch faults|a topic name source parameters payload correlator|id r]; cbn [step].
  - pose proof (triple_runCycle n version batch Hn faults w Hw) as H. by destruct (runCycle c agent version batch faults w) as [[[] ] ].
  - destruct Hw as (HI&Hj&_). split; [|by split]. apply (Inv_mono (n + 1)); [lia|].
    eapply (Inv_add n (World_ecc w) _ (mkECC (sys_id_of (nextID (World_ecc w))) a topic name source QueueOutput StateReady "" correlator parameters payload ""
      (created_on (nextSysIDLocked (World_ecc w)).2))); [done|lia|done|done|done| |done].
    by intros id (Hq&_).
  - destruct Hw as (HI&Hj&_). assert (Inv n (edit (World_ecc w) id r)) as HI'; [|split; [by eapply Inv_mono; [|exact HI']; lia|done]].
    unfold edit. destruct (Server_records (World_ecc w) !! id) as [r0|] eqn:E; [|done].
    destruct (String.eqb_spec (Queue r0) QueueOutput) as [Hq|Hq], (String.eqb_spec (Ecc_State r) StateProcessed) as [Hs|Hs]; try done; cbn [andb];
      apply (Inv_replace n _ id r0); try done.
Qed.
End agent.

Lemma Inv_new agent username password : Inv agent 1 (Server_New username password).
Proof. split; [done| | |]; by intros. Qed.

(** C3: the bridge answers every record at most once, whatever happens.  From an empty queue
    and no journal, after any history of cycles that fail or die at any of their effects,
    of records for any agent, and of edits: no output record of this agent has two
    responses, and one that is processed has exactly one. *)
Theorem answered_at_most_once (c : Client) (name agent username password : string) (history : list event) :
  AgentName name = Ok agent → 16 * llen history + 1 < 2 ^ 64 →
  let w := fold_left (step agent c) history (mkWorld (Server_New username password) None) in
  (∀ id k1 k2 r1 r2, Server_records (World_ecc w) !! k1 = Some r1 → Server_records (World_ecc w) !! k2 = Some r2 →
     answers agent id r1 → answers agent id r2 → k1 = k2) ∧
  (∀ id r, Server_records (World_ecc w) !! id = Some r → Queue r = QueueOutput → Ecc_Agent r = agent → Ecc_State r = StateProcessed →
     exists! k, ∃ r', Server_records (World_ecc w) !! k = Some r' ∧ answers agent id r').
Proof.
  intros Hname Hlen w. assert (∃ name, AgentName name = Ok agent) as Hagent by (by exists name).
  assert (∀ h w n, n + 16 * llen h < 2 ^ 64 → St agent n any w → St agent (n + 16 * llen h) any (fold_left (step agent c) h w)) as Hfold.
  { induction h as [|e h IH]; intros w0 n Hn Hw; [by rewrite Z.add_0_r|]. assert (llen (e :: h) = 1 + llen h) as Hl by (unfold llen; simpl length; lia).
    rewrite Hl in *. assert (0 <= llen h) by (unfold llen; lia). cbn [fold_left].
    assert (n + 16 * (1 + llen h) = n + 16 + 16 * llen h) as -> by lia. apply IH; [lia|]. apply step_St; [done|lia|done]. }
  destruct (Hfold history (mkWorld (Server_New username password) None) 1) as (HI&_&_); [lia| |].
  { split; [apply Inv_new|]. split; [by intros text|done]. }
  fold w in HI. split; [exact (inv_once _ _ _ HI)|]. intros id r Hr Hq Ha Hs. destruct (inv_done _ _ _ HI id r Hr Hq Ha Hs) as (k&r'&Hk&Hans).
  exists k. split; [by exists r'|]. intros k2 (r2&Hk2&Hans2). by eapply (inv_once _ _ _ HI id).
Qed.

Definition demo_client : Client := mkClient "mid" "secret" (mkURL "https" "" None "instance" eccSOAPPath "" false "SOAP" "").
Definition demo_agent : string := "mid.server.m1".

(** The process dies right after the response reached the queue, and starts again as
    another version. *)
Definition demo_history : list event :=
  [Output demo_agent "Heartbeat" "probe" "s" "a < b" "" "c-1"; Cycle "1.0" 1 (replicate 8 no_fault ++ [mkFault None Dying]); Cycle "2.0" 1 []].
Lemma answered_at_most_once_witness :
  let w := fold_left (step demo_agent demo_client) demo_history (mkWorld (Server_New "mid" "secret") None) in
  AgentName "m1" = Ok demo_agent ∧
  exists! k, ∃ r', Server_records (World_ecc w) !! k = Some r' ∧ answers demo_agent (sys_id_of 1) r'.
Proof.
  intros w. assert (AgentName "m1" = Ok demo_agent) as Hname by (vm_compute; reflexivity). split; [exact Hname|].
  assert (∃ r, Server_records (World_ecc w) !! sys_id_of 1 = Some r ∧ Queue r = QueueOutput ∧ Ecc_Agent r = demo_agent ∧ Ecc_State r = StateProcessed) as (r&Hr&Hq&Ha&Hs).
  { eexists. split; [vm_compute; reflexivity|]. split_and!; reflexivity. }
  exact (proj2 (answered_at_most_once demo_client "m1" demo_agent "mid" "secret" demo_history Hname ltac:(vm_compute; reflexivity)) (sys_id_of 1) r Hr Hq Ha Hs).
Defined.

(** ** A journal that does not load *)

Definition is_cycle (e : event) : bool := match e with Cycle _ _ _ => true | _ => false end.

Lemma load_error_stops c agent version batch fs w m : Load (World_journal w) = Err m → (runCycle c agent version batch fs w).2 = w.
Proof.
  intros Hm. unfold runCycle, attempt, load_journal, effect, with_input, mbind, prog_bind, lift.
  destruct (Fault_cut (hd no_fault fs)), (Fault_ending (hd no_fault fs)); cbn [fst snd]; rewrite ?Hm; done.
Qed.

(** An append that is cut before any entry is complete stops the bridge for good: after
    a crash in the first [Save] of a claim no cycle, whatever its faults, changes the
    journal or the queue any more, although nothing of that claim has happened. *)
Theorem torn_first_append_blocks (c : Client) (agent : string) (e : journalEntry) (line : string) (k : nat) (w : World) (history : list event) :
  entry_line e = Ok line → entry_utf8 e = true → (k < String.length (journal_json e))%nat → forallb is_cycle history = true →
  World_journal w = append_file None (take_string k line) →
  fold_left (step agent c) history w = w.
Proof.
  intros (->&Hv&Hlen)%entry_line_text Hu Hk Hh Hj. assert (Load (World_journal w) = Err no_entry) as Hload.
  { rewrite Hj. unfold Load, append_file. cbn [default]. rewrite string_app_nil.
    rewrite (proj2 (Z.ltb_ge _ _)).
    - unfold entry_text. rewrite take_string_app by lia. rewrite split_byte_free by apply free_of_take, journal_json_line.
      cbn [load_lines]. rewrite decode_torn by (done || by split). by case_bool_decide.
    - pose proof (f_equal String.length (take_drop_string k (entry_text e))) as Hl. rewrite string_length_app in Hl.
      unfold slen, maxJournalBytes, maxECCRecordJSONBytes in *. lia. }
  induction history as [|ev history IH]; [done|]. cbn [forallb] in Hh. apply andb_true_iff in Hh as [Hev Hh]. cbn [fold_left].
  destruct ev as [version batch faults| |]; [|done..]. cbn [step]. rewrite (load_error_stops _ _ _ _ _ _ _ Hload). by apply IH.
Qed.
Lemma torn_first_append_blocks_witness :
  let w := mkWorld (Server_New "mid" "secret") (append_file None (take_string 20 (entry_text demo_entry))) in
  entry_line demo_entry = Ok (entry_text demo_entry) ∧
  fold_left (step demo_agent demo_client) [Cycle "1.0" 1 []; Cycle "2.0" 1 []] w = w.
Proof.
  intros w. assert (entry_line demo_entry = Ok (entry_text demo_entry)) as Hl by (vm_compute; reflexivity). split; [exact Hl|].
  apply (torn_first_append_blocks demo_client demo_agent demo_entry (entry_text demo_entry) 20 w _ Hl); [vm_compute; reflexivity| |reflexivity|reflexivity].
  assert (String.length (journal_json demo_entry) = 143)%nat as ->; [vm_compute; reflexivity|lia].
Defined.
