(* ===== verification/MidLive.v ===== *)
(** * The claim loop finishes what it started

    Runs without faults, the sizes of the messages and of the journal, and the theorem
    that one undisturbed cycle completes the claim in the journal. *)

From S2P Require Import Prelude Effects Bytes Text Sha256 Time Soap Mid MidState Eccsim MidRun MidSafety.

Lemma runs_effect {A} full part w : runs (effect (A:=A) full part) w (full w).1 (full w).2.
Proof. done. Qed.

(** ** Sizes *)

Fixpoint total (l : list string) : Z := match l with [] => 0 | s :: l => slen s + total l end.

Lemma total_app l k : total (l ++ k) = total l + total k.
Proof. induction l as [|s l IH]; simpl; [done|]. rewrite IH. lia. Qed.
Lemma total_nonneg l : 0 <= total l.
Proof. induction l as [|s l IH]; simpl; [done|]. pose proof (slen_nonneg s). lia. Qed.
Lemma total_elem s l : s ∈ l → slen s <= total l.
Proof.
  induction 1 as [s l|s x l Hs IH]; cbn [total]; [pose proof (total_nonneg l); lia|]. pose proof (slen_nonneg x). lia.
Qed.

Lemma slen_concat sep l : slen (String.concat sep l) <= total l + slen sep * llen l.
Proof.
  induction l as [|s l IH]; [unfold llen; simpl; unfold slen; simpl; lia|]. assert (llen (s :: l) = 1 + llen l) as -> by (unfold llen; simpl length; lia).
  pose proof (slen_nonneg sep). assert (0 <= llen l) by (unfold llen; lia). destruct l as [|x l]; [cbn [String.concat total]; nia|].
  change (String.concat sep (s :: x :: l)) with (s +:+ (sep +:+ String.concat sep (x :: l)))%string. rewrite !slen_app.
  change (total (s :: x :: l)) with (slen s + total (x :: l)). nia.
Qed.

Lemma slen_element f : slen (soap_element f) <= 2 * slen (Field_Name f) + 5 + 5 * slen (Field_Value f).
Proof. unfold soap_element. rewrite !slen_app. pose proof (xml_escape_length (Field_Value f)). change (slen "<") with 1. change (slen ">") with 1. change (slen "</") with 2. lia. Qed.

Definition fields_cost (fields : list soapField) : Z := foldr (λ f z, 2 * slen (Field_Name f) + 5 + 5 * slen (Field_Value f) + z) 0 fields.

Lemma slen_elements fields : slen (String.concat "" (soap_element <$> fields)) <= fields_cost fields.
Proof.
  pose proof (slen_concat "" (soap_element <$> fields)) as H. change (slen "") with 0 in H. rewrite Z.mul_0_l in H.
  assert (total (soap_element <$> fields) <= fields_cost fields); [|lia].
  clear H. induction fields as [|f fields IH]; cbn [fmap list_fmap total fields_cost foldr] in *; [done|]. pose proof (slen_element f). unfold fields_cost in IH. lia.
Qed.

(** All the texts of a record, together. *)
Definition record_size (r : ECC) : Z := total (record_texts r).
Definition small_record : Z := 2 ^ 16.
Definition small (r : ECC) : Prop := record_size (with_state r "") <= small_record ∧ slen (Ecc_State r) <= 512.

Lemma small_size r : small r → record_size r <= small_record + 512.
Proof.
  intros [H1 H2]. unfold record_size, record_texts in *. cbn [total with_state SysID Ecc_Agent Topic Ecc_Name Ecc_Source Queue Ecc_State ResponseTo
    AgentCorrelator Parameters Payload ErrorString CreatedOn] in *. change (slen "") with 0 in H1. lia.
Qed.

Lemma record_elements_cost r : fields_cost ((λ f : string * string, mkSoapField f.1 f.2) <$> record_elements r) <= 5 * record_size r + 300.
Proof.
  unfold record_elements, record_size, record_texts, fields_cost. cbn [fmap list_fmap foldr Field_Name Field_Value fst snd total].
  repeat match goal with |- context [slen (String ?a ?b)] => let n := eval vm_compute in (slen (String a b)) in change (slen (String a b)) with n end. lia.
Qed.

Lemma slen_wrap name inner : slen (wrap name inner) = 2 * slen name + slen inner + 5.
Proof. unfold wrap. rewrite !slen_app. change (slen "<") with 1. change (slen ">") with 1. change (slen "</") with 2. lia. Qed.

Lemma slen_record_xml r : slen (record_xml r) <= 5 * record_size r + 400.
Proof.
  unfold record_xml. rewrite slen_wrap. change (slen "getRecordsResult") with 16.
  assert ((λ f : string * string, element f.1 f.2) <$> record_elements r = soap_element <$> ((λ f : string * string, mkSoapField f.1 f.2) <$> record_elements r)) as -> by done.
  pose proof (slen_elements ((λ f : string * string, mkSoapField f.1 f.2) <$> record_elements r)). pose proof (record_elements_cost r). lia.
Qed.

Lemma slen_envelope inner : slen (envelope inner) = slen inner + 123.
Proof.
  unfold envelope. rewrite !slen_app, slen_wrap.
  change (slen xml_header) with 39. change (slen "<Envelope xmlns=") with 16. change (slen (quoted soapEnvelopeNamespace)) with 43.
  change (slen ">") with 1. change (slen "Body") with 4. change (slen "</Envelope>") with 11. lia.
Qed.

Lemma slen_json_string s : slen (json_string s) <= 6 * slen s + 2.
Proof.
  unfold json_string. rewrite !slen_app. change (slen dquote) with 1. assert (slen (String.concat "" (json_chunk <$> chunks s)) <= 6 * slen s); [|lia].
  unfold slen. rewrite <-(chunks_concat s) at 2. pose proof (chunks_ok s) as Hok. revert Hok.
  induction (chunks s) as [|c l IH]; [simpl; lia|]. intros [Hc Hl]%Forall_cons. specialize (IH Hl).
  rewrite !fmap_cons, !concat_cons, !string_length_app, string_of_bytes_length.
  assert (String.length (json_chunk c) <= 6 * length c.2)%nat; [|lia].
  destruct c as [r bs]. assert (1 <= length bs)%nat as Hlen by (destruct Hc as [[_ Heq]|(_&Hne&_)]; simpl in *; [subst; simpl; lia|destruct bs; [done|simpl; lia]]).
  unfold json_chunk. cbn [snd].
  repeat match goal with |- context [if ?b then _ else _] => destruct b; [simpl; lia|] end. rewrite string_of_bytes_length. lia.
Qed.

Definition members_cost {V} (enc : V → string) (l : list (string * V)) : Z := foldr (λ f z, slen (json_string f.1) + slen (enc f.2) + 2 + z) 0 l.

Lemma members_cost_app {V} (enc : V → string) l k : members_cost enc (l ++ k) = members_cost enc l + members_cost enc k.
Proof. unfold members_cost. induction l as [|f l IH]; simpl; [done|]. rewrite IH. lia. Qed.

Lemma slen_object {V} (enc : V → string) l : slen (object_text enc l) <= members_cost enc l + 2.
Proof.
  unfold object_text. rewrite !slen_app. change (slen "{") with 1. change (slen "}") with 1.
  pose proof (slen_concat "," ((λ f : string * V, (json_string f.1 +:+ ":" +:+ enc f.2)%string) <$> l)) as H. change (slen ",") with 1 in H.
  unfold join. assert (total ((λ f : string * V, (json_string f.1 +:+ ":" +:+ enc f.2)%string) <$> l) + 1 * llen ((λ f : string * V, (json_string f.1 +:+ ":" +:+ enc f.2)%string) <$> l)
    <= members_cost enc l); [|lia].
  clear H. induction l as [|f l IH]; [done|]. unfold members_cost, llen in *. cbn [fmap list_fmap total foldr length] in *. rewrite !slen_app.
  change (slen ":") with 1. lia.
Qed.

Lemma text_field_cost key s : members_cost value_text (text_field key s) <= slen (json_string key) + 6 * slen s + 4.
Proof.
  unfold text_field, members_cost. pose proof (slen_json_string s). pose proof (slen_nonneg (json_string key)). pose proof (slen_nonneg s).
  case_bool_decide; cbn [foldr fst snd value_text]; lia.
Qed.

Lemma record_members_cost r : members_cost value_text (record_fields r) <= 6 * record_size r + 300.
Proof.
  unfold record_fields. rewrite !members_cost_app. unfold record_size, record_texts. cbn [total].
  pose proof (text_field_cost "sys_id" (SysID r)). pose proof (text_field_cost "name" (Ecc_Name r)). pose proof (text_field_cost "source" (Ecc_Source r)).
  pose proof (text_field_cost "response_to" (ResponseTo r)). pose proof (text_field_cost "agent_correlator" (AgentCorrelator r)).
  pose proof (text_field_cost "parameters" (Parameters r)). pose proof (text_field_cost "payload" (Payload r)).
  pose proof (text_field_cost "error_string" (ErrorString r)). pose proof (text_field_cost "sys_created_on" (CreatedOn r)).
  unfold members_cost at 2 5. cbn [foldr fst snd value_text].
  pose proof (slen_json_string (Ecc_Agent r)). pose proof (slen_json_string (Topic r)). pose proof (slen_json_string (Queue r)). pose proof (slen_json_string (Ecc_State r)).
  repeat match goal with
  | H : context [slen (json_string (String ?a ?b))] |- _ => let n := eval vm_compute in (slen (json_string (String a b))) in change (slen (json_string (String a b))) with n in H
  | |- context [slen (json_string (String ?a ?b))] => let n := eval vm_compute in (slen (json_string (String a b))) in change (slen (json_string (String a b))) with n
  end. lia.
Qed.

Lemma slen_record_json r : slen (record_json r) <= 6 * record_size r + 302.
Proof. unfold record_json. pose proof (slen_object value_text (record_fields r)). pose proof (record_members_cost r). change (json_object (record_fields r)) with (object_text value_text (record_fields r)). lia. Qed.

Lemma record_fields_text r : Forall (λ f, f.2 = FString (string_of_value f.2)) (record_fields r).
Proof.
  assert (∀ key s, Forall (λ f, f.2 = FString (string_of_value f.2)) (text_field key s)) as Ht.
  { intros key s. unfold text_field. case_bool_decide; repeat constructor. }
  unfold record_fields. repeat (apply Forall_app; split); try apply Ht; repeat constructor.
Qed.

Lemma record_members_json r : object_text json_string (record_members r) = record_json r.
Proof.
  unfold record_json, json_object, object_text, record_members. rewrite <-list_fmap_compose. do 3 f_equal.
  apply list_fmap_ext. intros i [k v] Hv. pose proof (record_fields_text r) as Ht. rewrite Forall_forall in Ht.
  apply list_elem_of_lookup_2, Ht in Hv. cbn [snd] in Hv. unfold compose, field_text. cbn [prod_map fst snd id]. by rewrite Hv.
Qed.

Definition result_size (e : journalEntry) : Z := match Entry_Result e with Some r => record_size r | None => 0 end.

Lemma slen_journal_json e : Entry_Version e = journalVersion →
  slen (journal_json e) <= 6 * (slen (Entry_RecordID e) + slen (Entry_RecordDigest e) + slen (Entry_ResponseSysID e) + result_size e) + 500.
Proof.
  intros Hv. unfold journal_json. pose proof (slen_object member_text (entry_members e)) as H. unfold entry_members in *. rewrite !members_cost_app in H.
  pose proof (slen_json_string (Entry_RecordID e)). pose proof (slen_json_string (Entry_RecordDigest e)). pose proof (slen_json_string (Entry_ResponseSysID e)).
  assert (members_cost member_text [("version"%string, MNumber (Entry_Version e)); ("record_id"%string, MText (Entry_RecordID e));
   ("record_digest"%string, MText (Entry_RecordDigest e))] <= 6 * (slen (Entry_RecordID e) + slen (Entry_RecordDigest e)) + 60) as Hm1.
  { unfold members_cost. cbn [foldr fst snd member_text]. rewrite Hv. change (slen (decimal journalVersion)) with 1.
    change (slen (json_string "version")) with 9. change (slen (json_string "record_id")) with 11. change (slen (json_string "record_digest")) with 15. lia. }
  assert (members_cost member_text (match Entry_Result e with Some r => [("result"%string, MObject (record_members r))] | None => [] end) <= 6 * result_size e + 320) as Hm2.
  { unfold result_size. destruct (Entry_Result e) as [r|]; [|done]. unfold members_cost. cbn [foldr fst snd member_text]. rewrite record_members_json.
    pose proof (slen_record_json r). change (slen (json_string "result")) with 8. lia. }
  assert (members_cost member_text (if bool_decide (Entry_ResponseSysID e = ""%string) then [] else [("response_sys_id"%string, MText (Entry_ResponseSysID e))])
    <= 6 * slen (Entry_ResponseSysID e) + 40) as Hm3.
  { pose proof (slen_nonneg (Entry_ResponseSysID e)). case_bool_decide; [unfold members_cost; simpl; lia|]. unfold members_cost. cbn [foldr fst snd member_text].
    change (slen (json_string "response_sys_id")) with 17. lia. }
  lia.
Qed.

(** ** Tokens of a reply stay within the bounds *)

Definition balanced (h : Z) (ts : list xml_token) : Prop := ∀ d n k ended, 0 <= d → d + h <= maxXMLDepth → 0 <= n → n + llen ts <= maxXMLTokens →
  validateXMLBounds d n (ts ++ k) ended = validateXMLBounds d (n + llen ts) k ended.

Lemma llen_cons {A} (x : A) l : llen (x :: l) = 1 + llen l.
Proof. unfold llen. simpl length. lia. Qed.
Lemma llen_app {A} (l k : list A) : llen (l ++ k) = llen l + llen k.
Proof. unfold llen. rewrite length_app. lia. Qed.
Lemma llen_nonneg {A} (l : list A) : 0 <= llen l.
Proof. unfold llen. lia. Qed.

Lemma balanced_nil h : balanced h [].
Proof. intros d n k ended _ _ _ _. cbn. by rewrite Z.add_0_r. Qed.

Lemma balanced_other h : 0 <= h → balanced h [OtherToken].
Proof.
  intros Hh d n k ended Hd Hd' Hn Hl. rewrite llen_cons in *. change (llen []) with 0 in *. cbn [app validateXMLBounds].
  rewrite (proj2 (Z.ltb_ge maxXMLTokens (n + 1))) by lia. f_equal.
Qed.

Lemma balanced_app h l k : balanced h l → balanced h k → balanced h (l ++ k).
Proof.
  intros Hl Hk d n t ended Hd Hd' Hn Hlen. rewrite llen_app in *. pose proof (llen_nonneg l). pose proof (llen_nonneg k).
  rewrite <-app_assoc, Hl, Hk by lia. f_equal. lia.
Qed.

Lemma balanced_wrap h l : 0 <= h → balanced h l → balanced (h + 1) (wrap_tokens l).
Proof.
  intros Hh Hl d n k ended Hd Hd' Hn Hlen. unfold wrap_tokens in *. rewrite llen_cons, llen_app, llen_cons in *. change (llen []) with 0 in *.
  pose proof (llen_nonneg l). cbn [app validateXMLBounds].
  rewrite (proj2 (Z.ltb_ge maxXMLTokens (n + 1))), (proj2 (Z.ltb_ge maxXMLDepth (d + 1))) by lia.
  rewrite <-app_assoc, Hl by lia. cbn [app validateXMLBounds].
  rewrite (proj2 (Z.ltb_ge maxXMLTokens (n + 1 + llen l + 1))), (proj2 (Z.ltb_ge (d + 1 - 1) 0)) by lia. f_equal; lia.
Qed.

Lemma balanced_element v : balanced 1 (element_tokens v).
Proof. unfold element_tokens. apply (balanced_wrap 0); [done|]. case_bool_decide; [apply balanced_nil|by apply balanced_other]. Qed.

Lemma balanced_mono h h' l : h <= h' → balanced h l → balanced h' l.
Proof. intros Hle Hl d n k ended Hd Hd' Hn Hlen. apply Hl; lia. Qed.

Lemma balanced_mjoin {A} h (f : A → list xml_token) l : (∀ x, balanced h (f x)) → balanced h (mjoin (f <$> l)).
Proof. intros Hf. induction l as [|x l IH]; [apply balanced_nil|]. rewrite fmap_cons, mjoin_cons. by apply balanced_app. Qed.

Lemma element_tokens_length v : llen (element_tokens v) <= 3.
Proof. unfold element_tokens. by case_bool_decide. Qed.

Lemma record_tokens_length r : llen (record_tokens r) <= 41.
Proof.
  unfold record_tokens, wrap_tokens. rewrite llen_cons, llen_app. change (llen [EndElement]) with 1.
  assert (∀ l : list (string * string), llen (mjoin (element_tokens ∘ snd <$> l)) <= 3 * llen l) as Hl.
  { induction l as [|x l IH]; [done|]. rewrite fmap_cons, mjoin_cons, llen_app, llen_cons. pose proof (element_tokens_length (snd x)). unfold compose in *. lia. }
  specialize (Hl (record_elements r)). change (llen (record_elements r)) with 13 in Hl. lia.
Qed.

Lemma record_tokens_balanced r : balanced 2 (record_tokens r).
Proof. unfold record_tokens. apply (balanced_wrap 1); [done|]. apply balanced_mjoin. intros x. apply balanced_element. Qed.

Lemma reply_bounds r : r ≠ NotFound → (∀ l, r = RecordsReply l → llen l <= 16) → validateXMLBounds 0 0 (reply_tokens r) true = Ok tt.
Proof.
  intros Hr Hl. rewrite <-(app_nil_r (reply_tokens r)).
  assert (∀ inner, balanced 2 inner → llen inner <= 1000 → validateXMLBounds 0 0 (([OtherToken; OtherToken] ++ wrap_tokens (wrap_tokens (wrap_tokens inner))) ++ []) true = Ok tt) as Hwrap.
  { intros inner Hb Hlen. assert (balanced 5 ([OtherToken; OtherToken] ++ wrap_tokens (wrap_tokens (wrap_tokens inner)))) as H5.
    { apply (balanced_app 5 [OtherToken; OtherToken]).
      - apply (balanced_app 5 [OtherToken] [OtherToken]); by apply balanced_other.
      - apply (balanced_wrap 4); [done|]. apply (balanced_wrap 3); [done|]. by apply (balanced_wrap 2). }
    rewrite H5; [done|done|done|done|]. rewrite llen_app. unfold wrap_tokens. rewrite ?llen_cons, ?llen_app, ?llen_cons, ?llen_app, ?llen_cons, ?llen_app.
    change (llen [EndElement]) with 1. change (llen (@nil xml_token)) with 0. unfold maxXMLTokens. lia. }
  pose proof (λ v, balanced_mono 1 2 _ ltac:(lia) (balanced_element v)) as He.
  destruct r as [|status code message|l|id|id]; [done|apply Hwrap..].
  - by apply balanced_app.
  - rewrite llen_app. pose proof (element_tokens_length code). pose proof (element_tokens_length message). lia.
  - apply balanced_mjoin. intros x. apply record_tokens_balanced.
  - specialize (Hl l eq_refl). assert (llen (mjoin (record_tokens <$> l)) <= 41 * llen l) as Hm; [|lia]. clear Hl Hr.
    induction l as [|x l IH]; [done|]. rewrite fmap_cons, mjoin_cons, llen_app, llen_cons. pose proof (record_tokens_length x). lia.
  - apply He.
  - pose proof (element_tokens_length id). lia.
  - apply He.
  - pose proof (element_tokens_length id). lia.
Qed.

(** ** Exchanges without faults *)

Definition connects (c : Client) (s : Server) : Prop :=
  Path (Client_endpoint c) = eccSOAPPath ∧ RawQuery (Client_endpoint c) = "SOAP"%string ∧
  Server_username s = Client_username c ∧ Server_password s = Client_password c.

Definition answer_reply (r : reply) : Prop :=
  match r with RecordsReply l => llen l <= 2 ∧ Forall small l | UpdateReply id | InsertReply id => slen id <= 64 | _ => False end.

Lemma answer_reply_receive r : answer_reply r → receive r = Ok (carried_reply r).
Proof.
  intros Hr. assert (0 < slen (reply_text r) <= maxSOAPResponseBytes) as [Hpos Hlen].
  { destruct r as [| |l|id|id]; try done; cbn [answer_reply] in Hr; unfold reply_text; rewrite slen_envelope, slen_wrap.
    - destruct Hr as [Hl Hs]. pose proof (slen_concat "" (record_xml <$> l)) as H. change (slen "") with 0 in H.
      change (slen "getRecordsResponse") with 18.
      assert (total (record_xml <$> l) <= 400000 * llen l); [|pose proof (slen_nonneg (String.concat "" (record_xml <$> l))); unfold maxSOAPResponseBytes; lia].
      clear Hl H. induction Hs as [|r l Hr Hs IH]; [done|]. rewrite fmap_cons. cbn [total]. rewrite llen_cons. pose proof (slen_record_xml r).
      apply small_size in Hr. unfold small_record in Hr. lia.
    - pose proof (slen_element (mkSoapField "sys_id" id)) as He. cbn [Field_Name Field_Value] in He. unfold element. change (slen "sys_id") with 6 in He.
      change (slen "updateResponse") with 14. pose proof (slen_nonneg (soap_element (mkSoapField "sys_id" id))). unfold maxSOAPResponseBytes. lia.
    - pose proof (slen_element (mkSoapField "sys_id" id)) as He. cbn [Field_Name Field_Value] in He. unfold element. change (slen "sys_id") with 6 in He.
      change (slen "insertResponse") with 14. pose proof (slen_nonneg (soap_element (mkSoapField "sys_id" id))). unfold maxSOAPResponseBytes. lia. }
  assert (validateXMLBounds 0 0 (reply_tokens r) true = Ok tt) as Ht.
  { apply reply_bounds; [by destruct r|]. intros l ->. simpl in Hr. lia. }
  unfold receive, decodeSOAPEnvelope. rewrite (proj2 (Z.ltb_ge maxSOAPResponseBytes _)) by lia. rewrite (proj2 (Z.eqb_neq (slen _) 0)) by lia. rewrite Ht.
  by destruct r.
Qed.

Lemma serve_request c w operation fields body :
  connects c (World_ecc w) → soap_operation operation = true → slen body <= maxRequestBytes → read_request body = Some (operation, fields) →
  ServeHTTP (World_ecc w) (request c operation body) = serve (World_ecc w) operation fields.
Proof.
  intros (Hp&Hq&Hu&Hpw) Ho Hlen Hr. unfold ServeHTTP, request. cbn [Http_Method Http_Path Http_RawQuery Http_BasicAuth Http_SOAPAction Http_Body].
  rewrite Hp, Hq, Hu, Hpw, Hr. rewrite bool_decide_eq_true_2 by done. rewrite (proj2 (Z.ltb_ge _ _)) by lia. rewrite Ho. cbn.
  change (soapActionBase +:+ operation)%string with (eccQueueNamespace +:+ "/" +:+ operation)%string. by rewrite String.eqb_refl.
Qed.

Lemma runs_call c w operation fields r s :
  connects c (World_ecc w) → soap_operation operation = true → slen operation <= 10 → names_ok fields = true → fields_cost fields <= 2 ^ 20 →
  serve (World_ecc w) operation (carried_field <$> fields) = (r, s) → answer_reply r →
  runs (call c operation fields) w (carried_reply r) (set_ecc w s).
Proof.
  intros Hc Ho Hop Hn Hcost Hs Hr. destruct (encodeSOAPRequest_carries operation fields Ho Hn) as (body&Hb&Hread&Hbody).
  assert (slen body <= maxRequestBytes) as Hlen.
  { subst body. rewrite !slen_app. pose proof (slen_elements fields). unfold soap_prologue, soap_epilogue. rewrite !slen_app.
    change (slen xml_header) with 39. change (slen "<soapenv:Envelope xmlns:soapenv=") with 32. change (slen (quoted soapEnvelopeNamespace)) with 43.
    change (slen " xmlns:ecc=") with 11. change (slen (quoted eccQueueNamespace)) with 38. change (slen "><soapenv:Header/><soapenv:Body><ecc:") with 37.
    change (slen ">") with 1. change (slen "</ecc:") with 6. change (slen "></soapenv:Body></soapenv:Envelope>") with 35. unfold maxRequestBytes. lia. }
  unfold call. eapply runs_bind; [by apply runs_lift|]. eapply runs_bind; [apply runs_effect|]. cbv beta. fold (request c operation body).
  rewrite (serve_request c w operation _ body Hc Ho Hlen Hread), Hs. cbn [fst snd]. apply runs_lift. by apply answer_reply_receive.
Qed.

Lemma printable_no_control s : string_all printable s = true → hasControl s = false.
Proof.
  intros Hp. rewrite string_all_list, forallb_elem_of in Hp. unfold hasControl, runes, chunks.
  rewrite decode_utf8_ascii by (apply bytes_of_forall; intros c Hc; specialize (Hp c Hc); unfold printable in Hp; bool_facts; lia).
  destruct (existsb _ _) eqn:E; [|done]. apply existsb_elem_of in E as (z&Hz&Hc).
  apply list_elem_of_fmap in Hz as (p&->&Hp'). apply list_elem_of_fmap in Hp' as (b&->&Hb). apply list_elem_of_fmap in Hb as (ch&->&Hin).
  specialize (Hp ch Hin). unfold printable, control_rune in *. cbn [fst] in Hc. bool_facts. apply orb_true_iff in Hc as [Hc|Hc]; bool_facts; lia.
Qed.

Lemma model_all_seen l : Forall (λ r, validateRecordFields (seen r) = Ok tt) l → model_all (carried_record <$> l) = Ok (seen <$> l).
Proof. induction 1 as [|r l Hr Hl IH]; [done|]. rewrite !fmap_cons. cbn [model_all]. change (soap_model (carried_record r)) with (seen r). by rewrite Hr, IH. Qed.

Lemma runs_query c w q limit filters :
  connects c (World_ecc w) → 1 <= limit <= 2 → string_all printable q = true → slen q <= 2048 →
  query_filters ∅ (split_byte "^"%char q) = Ok filters →
  let l := take (Z.to_nat limit) (found filters (World_ecc w)) in
  Forall small l → Forall (λ r, validateRecordFields (seen r) = Ok tt) l →
  runs (queryRecords c q limit) w (seen <$> l) (set_ecc w (log_operation (World_ecc w) "getRecords")).
Proof.
  intros Hc Hl Hp Hq Hf l Hs Hv. assert (llen l <= limit) as Hlen by (unfold l, llen; rewrite length_take; lia).
  unfold queryRecords. rewrite (proj2 (Z.ltb_ge limit 1)), (proj2 (Z.ltb_ge maxPollRecords limit)), (proj2 (Z.ltb_ge 2048 (slen q))) by (unfold maxPollRecords; lia).
  rewrite printable_no_control by done. cbn [orb].
  eapply runs_bind.
  - apply (runs_call c w "getRecords" (record_query q limit) (RecordsReply l)); [done|done|done|done| | |split; [lia|done]].
    + unfold fields_cost, record_query. cbn [foldr Field_Name Field_Value]. change (slen "__encoded_query") with 15. change (slen "__first_row") with 11.
      change (slen "__last_row") with 10. change (slen "0") with 1.
      assert (slen (decimal limit) = 1) as -> by (assert (limit = 1 ∨ limit = 2) as [-> | ->] by lia; done). lia.
    + unfold serve. cbn [String.eqb Ascii.eqb Bool.eqb]. f_equal.
      change l with (take (Z.to_nat limit) (found filters (log_operation (World_ecc w) "getRecords"))).
      apply getRecords_take; [unfold maxPollRecords; lia|by apply carried_printable|done].
  - apply runs_lift. cbn [carried_reply]. assert (llen (carried_record <$> l) = llen l) as -> by (unfold llen; by rewrite length_fmap).
    rewrite (proj2 (Z.ltb_ge limit (llen l))) by lia. by apply model_all_seen.
Qed.

(** ** The operations of a claim, without faults *)

Lemma found_single filters s id r :
  Server_records s !! id = Some r → matches r filters = true →
  (∀ k q, Server_records s !! k = Some q → matches q filters = true → k = id) → found filters s = [r].
Proof.
  intros Hr Hm Honly. apply Permutation_singleton_r. unfold found, recordsLocked. rewrite sort_by_perm.
  rewrite <-(map_to_list_delete (Server_records s) id r Hr). rewrite fmap_cons, filter_cons_True by done. f_equiv.
  assert (filter (λ r, matches r filters = true) (snd <$> map_to_list (delete id (Server_records s))) = []) as ->; [|done].
  apply elem_of_nil_inv. intros q Hq. apply list_elem_of_filter in Hq as [Hqm Hq].
  apply list_elem_of_fmap in Hq as ([k q']&->&Hin%elem_of_map_to_list). apply lookup_delete_Some in Hin as [Hne Hk]. by destruct Hne; symmetry; apply (Honly k q').
Qed.

Section live.
Context (c : Client) (agent : string) (Hagent : ∃ name, AgentName name = Ok agent).

(** The queue as the claim sees it. *)
Definition situation (n : Z) (m : gmap string ECC) (w : World) : Prop :=
  connects c (World_ecc w) ∧ Inv agent n (World_ecc w) ∧ Server_records (World_ecc w) = m.

(** An output record that arrives as it is stored, within the bounds. *)
Definition plain_output (r : ECC) : Prop := seen r = r ∧ validateOutputRecord r agent = Ok tt ∧ small r.

Lemma plain_state r st : plain_output r → st = StateReady ∨ st = StateProcessing ∨ st = StateProcessed → plain_output (with_state r st).
Proof.
  intros (Hseen&Hv&Hs) Hst. assert (to_lower (trim_space (carried st)) = st ∧ slen st <= 16 ∧ hasControl st = false) as (Hst1&Hst2&Hst3) by (by destruct Hst as [-> |[-> | ->]]).
  pose proof (validateOutputRecord_ok _ _ Hv) as (Hid&Ha&Hq&_&Hf). split; [|split].
  - change (seen (with_state r st)) with (with_state (seen r) (to_lower (trim_space (carried st)))). by rewrite Hst1, Hseen.
  - unfold validateOutputRecord. cbn [with_state SysID Ecc_Agent Queue Ecc_State]. rewrite Hid, Ha, Hq, !String.eqb_refl. cbn [negb].
    assert (negb (String.eqb st StateReady) && negb (String.eqb st StateProcessing) && negb (String.eqb st StateProcessed) = false) as -> by (by destruct Hst as [-> |[-> | ->]]).
    apply validateRecordFields_ok. apply validateRecordFields_ok in Hf as (Hshort&Ht&Hp&Hpay&Herr). split; [|done].
    intros v Hv'. unfold short_fields in *. cbn [with_state Ecc_Agent Topic Ecc_Name Ecc_Source Queue Ecc_State ResponseTo AgentCorrelator CreatedOn] in Hv'.
    rewrite !elem_of_cons in Hv'. destruct (decide (v = st)) as [->|Hne]; [split; [unfold maxShortFieldBytes; lia|done]|].
    apply Hshort. rewrite !elem_of_cons. tauto.
  - destruct Hs as [Hs _]. split; [exact Hs|]. cbn [with_state Ecc_State]. lia.
Qed.

Lemma plain_fields r : plain_output r → validateRecordFields (seen r) = Ok tt.
Proof. intros (Hs&Hv&_). rewrite Hs. by apply validateOutputRecord_ok in Hv as (_&_&_&_&?). Qed.

Lemma agent_length : slen agent <= 200.
Proof.
  destruct (agent_bytes agent Hagent) as (name&->&_&Hlen). rewrite slen_app. change (slen AgentPrefix) with 11. unfold maxMIDNameBytes in Hlen. lia.
Qed.

Lemma sys_id_length s : match_sys_id s = true → slen s = 32.
Proof. unfold match_sys_id. intros [H _]%andb_true_iff. by apply Z.eqb_eq. Qed.

Lemma situation_log n m w op : situation n m w → situation n m (set_ecc w (log_operation (World_ecc w) op)).
Proof. intros (Hc&HI&Hm). split; [exact Hc|]. split; [by apply Inv_log|exact Hm]. Qed.

Lemma runs_Get n m w id r : situation n m w → m !! id = Some r → plain_output r → ∃ w', runs (Get c id agent) w r w' ∧ situation n m w' ∧ World_journal w' = World_journal w.
Proof.
  intros Hsit Hr Hplain. pose proof Hsit as (Hc&HI&Hm). destruct Hplain as (Hseen&Hv&Hsmall). pose proof (validateOutputRecord_ok _ _ Hv) as (Hid&Ha&_).
  assert (SysID r = id) as Hsid by (subst m; by apply (inv_keys _ _ _ HI)). rewrite Hsid in Hid.
  destruct (get_query_filters agent Hagent id Hid) as [Hf _].
  set (F := (<["agent":=agent]> (<["sys_id":=id]> ∅))%string) in *.
  assert (take (Z.to_nat 2) (found F (World_ecc w)) = [r]) as Hfound.
  { rewrite (found_single F _ id r); [done|by rewrite Hm|by apply matches_get|]. intros k q Hk [Hq _]%matches_get.
    apply (inv_keys _ _ _ HI) in Hk as [Hk _]. congruence. }
  exists (set_ecc w (log_operation (World_ecc w) "getRecords")). split; [|split; [by apply situation_log|done]].
  unfold Get. rewrite Hid. cbn [negb]. eapply runs_bind.
  - apply (runs_query c w (get_query id agent) 2 F Hc); [lia| | |exact Hf|rewrite Hfound; by constructor|rewrite Hfound; constructor; [by apply plain_fields|done]].
    + unfold get_query. by rewrite !string_all_app, (sys_id_printable id), (agent_printable agent Hagent).
    + unfold get_query. rewrite !slen_app, (sys_id_length id) by done. pose proof agent_length. change (slen "sys_id=") with 7. change (slen "^agent=") with 7. lia.
  - rewrite Hfound. cbn [fmap list_fmap]. rewrite Hseen. apply runs_lift. by rewrite Hv.
Qed.

Lemma runs_update n m w id r st : situation n m w → m !! id = Some r → match_sys_id id = true →
  st = StateProcessing ∨ st = StateProcessed ∧ answered agent id m →
  ∃ s w', runs (mutate c "update" (state_fields id st)) w s w' ∧ situation n (<[id := with_state r st]> m) w' ∧ World_journal w' = World_journal w.
Proof.
  intros (Hc&HI&Hm) Hr Hid Hst. assert (carried st = st ∧ slen st <= 16) as [Hcst Hlst] by (by destruct Hst as [-> |[-> _]]).
  set (s := log_operation (World_ecc w) "update"). set (s' := set_records s (<[id := with_state r st]> (Server_records s))).
  exists (to_lower (trim_space (carried id))), (set_ecc w s'). split; [|split; [|done]].
  - unfold mutate. eapply runs_bind.
    + apply (runs_call c w "update" (state_fields id st) (UpdateReply id) s'); [done|done|done|done| | |].
      * unfold fields_cost, state_fields. cbn [foldr Field_Name Field_Value]. change (slen "sys_id") with 6. change (slen "state") with 5.
        rewrite (sys_id_length id) by done. lia.
      * unfold serve, update. cbn [String.eqb Ascii.eqb Bool.eqb]. fold s.
        change (wire_value (carried_field <$> state_fields id st) "sys_id") with (carried id).
        change (wire_value (carried_field <$> state_fields id st) "state") with (carried st). rewrite sys_id_carried, Hcst by done.
        change (Server_records s) with (Server_records (World_ecc w)). rewrite Hm, Hr.
        assert (negb (String.eqb st StateProcessing) && negb (String.eqb st StateProcessed) = false) as -> by (by destruct Hst as [-> |[-> _]]).
        unfold s'. change (Server_records s) with (Server_records (World_ecc w)). by rewrite Hm.
      * cbn [answer_reply]. rewrite (sys_id_length id) by done. lia.
    + apply runs_lift. cbn [carried_reply String.eqb Ascii.eqb Bool.eqb]. by rewrite sys_id_carried, sys_id_trim, Hid.
  - split; [exact Hc|]. split; [|unfold s', s; cbn; by rewrite Hm].
    apply (Inv_replace agent n s id r (with_state r st)); [by apply Inv_log|unfold s; cbn; by rewrite Hm|by apply with_state_place|].
    intros _ _ Hs. simpl in Hs. destruct Hst as [-> |[_ Ha]]; [done|right]. unfold s. cbn. by rewrite Hm.
Qed.

Lemma digest_defined r : plain_output r → ∃ d, recordDigest r = Ok d.
Proof.
  intros (_&_&Hs). unfold recordDigest. rewrite (proj2 (Z.ltb_ge _ _)); [by eexists|]. pose proof (slen_record_json (digested r)) as Hj.
  assert (record_size (digested r) <= record_size (with_state r "")) as Hd.
  { unfold record_size, record_texts, digested. cbn [total with_state SysID Ecc_Agent Topic Ecc_Name Ecc_Source Queue Ecc_State ResponseTo
      AgentCorrelator Parameters Payload ErrorString CreatedOn]. change (slen "") with 0. pose proof (slen_nonneg (CreatedOn r)). lia. }
  destruct Hs as [Hs _]. unfold small_record, maxECCRecordJSONBytes in *. lia.
Qed.

Lemma runs_Claim n m w r : situation n m w → m !! SysID r = Some r → plain_output r → Ecc_State r = StateReady →
  ∃ w', runs (Claim c r) w (with_state r StateProcessing) w' ∧ situation n (<[SysID r := with_state r StateProcessing]> m) w' ∧ World_journal w' = World_journal w.
Proof.
  intros Hsit Hr Hplain Hst. destruct (digest_defined r Hplain) as [d Hd]. pose proof Hplain as (_&Hv&_). pose proof (validateOutputRecord_ok _ _ Hv) as (Hid&Ha&_).
  destruct (runs_update n m w (SysID r) r StateProcessing Hsit Hr Hid) as (s&w1&Hrun1&Hsit1&Hj1); [by left|].
  assert (plain_output (with_state r StateProcessing)) as Hplain' by (apply plain_state; auto).
  destruct (runs_Get n _ w1 (SysID r) (with_state r StateProcessing) Hsit1) as (w2&Hrun2&Hsit2&Hj2); [by rewrite lookup_insert_eq|done|].
  exists w2. split; [|split; [done|congruence]]. unfold Claim. rewrite Hst. cbn [String.eqb negb]. rewrite String.eqb_refl. cbn [negb].
  eapply runs_bind; [by apply runs_lift|]. eapply runs_bind; [exact Hrun1|]. rewrite Ha. eapply runs_bind; [exact Hrun2|].
  cbn [with_state Ecc_State]. rewrite String.eqb_refl. cbn [negb]. eapply runs_bind; [apply runs_lift; by rewrite recordDigest_state|].
  rewrite String.eqb_refl. cbn [negb]. apply runs_ret.
Qed.

Lemma runs_MarkProcessed n m w id r : situation n m w → m !! id = Some r → SysID r = id → match_sys_id id = true → Ecc_State r = StateProcessing → answered agent id m →
  ∃ w', runs (MarkProcessed c r) w tt w' ∧ situation n (<[id := with_state r StateProcessed]> m) w' ∧ World_journal w' = World_journal w.
Proof.
  intros Hsit Hr <- Hid Hst Ha. destruct (runs_update n m w (SysID r) r StateProcessed Hsit Hr Hid) as (s&w'&Hrun&Hsit'&Hj); [by right|].
  exists w'. split; [|done]. unfold MarkProcessed. rewrite Hid, Hst, String.eqb_refl. cbn [negb orb]. eapply runs_bind; [exact Hrun|apply runs_ret].
Qed.

(** The answer to a record, when there is one, is readable. *)
Definition readable_answers (id : string) (m : gmap string ECC) : Prop :=
  ∀ k a, m !! k = Some a → answers agent id a → validateInputRecord (seen a) agent = Ok tt ∧ small a.

Lemma input_fields r : validateInputRecord r agent = Ok tt → validateRecordFields r = Ok tt.
Proof.
  unfold validateInputRecord. destruct (negb _ && negb _); [done|]. destruct (negb _ || _ || _); [done|]. by destruct (negb _).
Qed.

Lemma check_all_forall check l : Forall (λ r, check r = Ok tt) l → check_all check l = Ok tt.
Proof. induction 1 as [|r l Hr Hl IH]; [done|]. simpl. by rewrite Hr. Qed.

Lemma runs_FindResponses n m w id : situation n m w → match_sys_id id = true → readable_answers id m →
  ∃ l w', runs (FindResponses c id agent) w l w' ∧ situation n m w' ∧ World_journal w' = World_journal w ∧
    (l = [] ∧ ¬ answered agent id m ∨ ∃ a, l = [seen a] ∧ answered agent id m ∧ validateInputRecord (seen a) agent = Ok tt).
Proof.
  intros Hsit Hid Hread. pose proof Hsit as (Hc&HI&Hm). destruct (responses_query_filters agent Hagent id Hid) as [Hf _].
  set (F := (<["queue":=QueueInput]> (<["agent":=agent]> (<["response_to":=id]> ∅)))%string) in *.
  assert ((found F (World_ecc w) = [] ∧ ¬ answered agent id m) ∨ ∃ k a, found F (World_ecc w) = [a] ∧ m !! k = Some a ∧ answers agent id a) as Hfound.
  { destruct (found F (World_ecc w)) as [|a l] eqn:E.
    - left. split; [done|]. intros (k&a&Hk&Ha). subst m. pose proof (found_nil F _ E k a Hk) as Hn. apply matches_responses in Ha. unfold F in Hn. congruence.
    - right. assert (a ∈ found F (World_ecc w)) as Hin by (rewrite E; by left).
      apply list_elem_of_filter in Hin as [Ha%matches_responses [k Hk]%elem_of_recordsLocked]. exists k, a.
      assert (found F (World_ecc w) = [a]) as Hs.
      { apply (found_single F _ k a Hk); [by apply matches_responses|]. intros k' q Hk' Hq%matches_responses. by eapply (inv_once _ _ _ HI id). }
      rewrite E in Hs. subst m. split; [exact Hs|]. split; [exact Hk|exact Ha]. }
  assert (∀ l, take (Z.to_nat 2) (found F (World_ecc w)) = l → Forall (λ r, validateInputRecord (seen r) agent = Ok tt ∧ small r) l →
    runs (FindResponses c id agent) w (seen <$> l) (set_ecc w (log_operation (World_ecc w) "getRecords"))) as Hrun.
  { intros l Hl Hall. unfold FindResponses. rewrite Hid. cbn [negb]. eapply runs_bind.
    - apply (runs_query c w (responses_query id agent) 2 F Hc); [lia| | |exact Hf| |].
      + unfold responses_query. by rewrite !string_all_app, (sys_id_printable id), (agent_printable agent Hagent).
      + unfold responses_query. rewrite !slen_app, (sys_id_length id) by done. pose proof agent_length. change (slen "response_to=") with 12.
        change (slen "^agent=") with 7. change (slen "^queue=") with 7. change (slen QueueInput) with 5. change (slen "^ORDERBYsys_created_on^ORDERBYsys_id") with 36. lia.
      + rewrite Hl. eapply Forall_impl; [exact Hall|]. by intros r [_ ?].
      + rewrite Hl. eapply Forall_impl; [exact Hall|]. intros r [? _]. by apply input_fields.
    - rewrite Hl. eapply runs_bind; [|apply runs_ret]. apply (runs_lift _ tt). apply check_all_forall, Forall_fmap.
      eapply Forall_impl; [exact Hall|]. by intros r [? _]. }
  destruct Hfound as [[Hn Hna]|(k&a&Hs&Hk&Ha)].
  - exists [], (set_ecc w (log_operation (World_ecc w) "getRecords")). split; [apply (Hrun []); [by rewrite Hn|constructor]|].
    split; [by apply situation_log|]. split; [done|by left].
  - destruct (Hread k a Hk Ha) as [Hv Hsm]. exists [seen a], (set_ecc w (log_operation (World_ecc w) "getRecords")).
    split; [apply (Hrun [a]); [by rewrite Hs|by apply Forall_singleton]|]. split; [by apply situation_log|]. split; [done|]. right. exists a. split; [done|]. split; [by exists k, a|done].
Qed.

Lemma lower_sys_id s : match_sys_id s = true → match_sys_id (to_lower s) = true.
Proof.
  unfold match_sys_id. intros [Hl Hh]%andb_true_iff. assert (slen (to_lower s) = slen s) as ->.
  { unfold slen. f_equal. clear. induction s; simpl; congruence. }
  rewrite Hl. cbn [andb]. clear Hl. induction s as [|d s IH]; [done|]. simpl in *. apply andb_true_iff in Hh as [Hd Hs]. rewrite IH by done. rewrite andb_true_r.
  unfold lower_byte. destruct (is_upper d) eqn:Hu; [|done]. unfold is_upper, is_hex, is_digit, in_range in *. pose proof (byte_val_range d). bool_facts.
  rewrite byte_val_of by lia. apply orb_true_iff. left. apply orb_true_iff. right. apply andb_true_iff. rewrite !Z.leb_le.
  repeat (apply orb_true_iff in Hd as [Hd|Hd]); bool_facts; lia.
Qed.

Definition journal_size : Z := 2 ^ 17.

Lemma insert_cost res : fields_cost (insert_fields res) <= 5 * record_size res + 300.
Proof.
  unfold insert_fields, fields_cost, record_size, record_texts. cbn [foldr Field_Name Field_Value total].
  repeat match goal with |- context [slen (String ?a ?b)] => let n := eval vm_compute in (slen (String a b)) in change (slen (String a b)) with n end.
  pose proof (slen_nonneg (SysID res)). pose proof (slen_nonneg (CreatedOn res)). lia.
Qed.

(** A response with the content of [res]. *)
Definition response_of (res a : ECC) : Prop :=
  answers agent (ResponseTo res) a ∧ Payload a = carried (Payload res) ∧ ErrorString a = carried (ErrorString res).

Lemma runs_InsertResult n m w res : situation n m w → n + 1 < 2 ^ 64 → validateInputRecord res agent = Ok tt → record_size res <= journal_size →
  ¬ answered agent (ResponseTo res) m →
  ∃ id w' k a, runs (InsertResult c res) w id w' ∧ situation (n + 1) (<[k := a]> m) w' ∧ World_journal w' = World_journal w ∧
    m !! k = None ∧ response_of res a ∧ match_sys_id id = true.
Proof.
  intros (Hc&HI&Hm) Hn Hv Hsize Hna. pose proof (validateInputRecord_ok _ _ Hv) as (Ha&Hq&Hst&Hrt).
  set (s := log_operation (World_ecc w) "insert"). set (a := stored_result s res). set (k := sys_id_of (nextID s)).
  assert (Inv agent n s) as HI' by (by apply Inv_log). assert (Server_records s = m) as Hms by (by subst m).
  pose proof (sys_id_of_match (nextID s)) as Hk. fold k in Hk.
  assert (response_of res a) as Hres.
  { split; [|done]. unfold answers, a. cbn [stored_result Queue Ecc_Agent ResponseTo]. rewrite Hq, Ha, (agent_carried agent Hagent), (sys_id_carried _ Hrt). done. }
  exists (to_lower (trim_space (carried k))), (set_ecc w (put_record (nextSysIDLocked s).2 a)), k, a.
  split; [|split; [split; [exact Hc|split; [|simpl; by rewrite Hm]]|split; [done|split; [|split; [done|]]]]].
  - unfold InsertResult. eapply runs_bind; [apply runs_lift; by rewrite Ha|]. unfold mutate. eapply runs_bind.
    + apply (runs_call c w "insert" (insert_fields res) (InsertReply k) (put_record (nextSysIDLocked s).2 a)); [done|done|done|done| | |].
      * pose proof (insert_cost res). unfold journal_size in Hsize. lia.
      * unfold serve. cbn [String.eqb Ascii.eqb Bool.eqb]. fold s. by rewrite insert_stored.
      * cbn [answer_reply]. rewrite (sys_id_length k Hk). lia.
    + apply runs_lift. cbn [carried_reply String.eqb Ascii.eqb Bool.eqb]. by rewrite (sys_id_carried k Hk), (sys_id_trim k Hk), Hk.
  - apply (Inv_add agent n s _ a); [done|done|done|done|done| |].
    + intros id (_&_&<-). unfold a. cbn [stored_result ResponseTo]. by rewrite (sys_id_carried _ Hrt), Hms.
    + intros Hq'. unfold a in Hq'. cbn [stored_result Queue] in Hq'. by rewrite Hq in Hq'.
  - rewrite <-Hms. apply (Inv_fresh agent n s HI'). lia.
  - rewrite (sys_id_carried k Hk), (sys_id_trim k Hk). by apply lower_sys_id.
Qed.

(** ** Saving *)

Lemma validateJournalEntry_ok e : validateJournalEntry e = Ok tt ↔
  Entry_Version e = journalVersion ∧ match_sys_id (Entry_RecordID e) = true ∧ slen (Entry_RecordDigest e) = 64 ∧ hex_decodable (Entry_RecordDigest e) = true ∧
  (Entry_ResponseSysID e = ""%string ∨ match_sys_id (Entry_ResponseSysID e) = true) ∧
  (∀ r, Entry_Result e = Some r → validateInputRecord r (Ecc_Agent r) = Ok tt ∧ ResponseTo r = Entry_RecordID e).
Proof.
  unfold validateJournalEntry. destruct (Z.eqb_spec (Entry_Version e) journalVersion); cbn [negb]; [|split; [done|intros (?&_); done]].
  destruct (match_sys_id (Entry_RecordID e)); cbn [negb]; [|split; [done|intros (_&?&_); done]].
  destruct (Z.eqb_spec (slen (Entry_RecordDigest e)) 64); cbn [negb]; [|split; [done|intros (_&_&?&_); done]].
  destruct (hex_decodable (Entry_RecordDigest e)); cbn [negb]; [|split; [done|intros (_&_&_&?&_); done]].
  destruct (negb _ && negb _) eqn:E.
  { split; [done|]. intros (_&_&_&_&[Hr|Hr]&_); [by rewrite Hr in E|]. by rewrite Hr, andb_false_r in E. }
  assert (Entry_ResponseSysID e = ""%string ∨ match_sys_id (Entry_ResponseSysID e) = true) as Hresp.
  { case_bool_decide; [by left|right]. by destruct (match_sys_id (Entry_ResponseSysID e)). }
  destruct (Entry_Result e) as [r|]; [|split; [intros _; by split_and!|done]].
  destruct (validateInputRecord r (Ecc_Agent r)) as [[]|] eqn:Ev; [|split; [done|intros (_&_&_&_&_&H); destruct (H r eq_refl); congruence]].
  destruct (String.eqb_spec (ResponseTo r) (Entry_RecordID e)); cbn [negb].
  - split; [intros _; split_and!; try done; by intros ? [= <-]|done].
  - split; [done|]. intros (_&_&_&_&_&H). by destruct (H r eq_refl).
Qed.

Lemma runs_Save n m w e : situation n m w → validateJournalEntry e = Ok tt → result_size e <= journal_size →
  ∃ w', runs (Save e) w tt w' ∧ situation n m w'.
Proof.
  intros Hsit Hv Hsize. exists (set_journal w (append_file (World_journal w) (entry_text e))). split; [|exact Hsit].
  pose proof (proj1 (validateJournalEntry_ok e) Hv) as (Hver&Hid&Hdig&_&Hresp&_). pose proof (slen_journal_json e Hver) as Hlen.
  assert (slen (Entry_ResponseSysID e) <= 32) as Hr by (destruct Hresp as [-> |Hm]; [done|by rewrite (sys_id_length _ Hm)]).
  rewrite (sys_id_length _ Hid), Hdig in Hlen. unfold Save. eapply runs_bind.
  - apply (runs_lift _ (entry_text e)). unfold entry_line. rewrite Hv. rewrite (proj2 (Z.ltb_ge _ _)); [done|].
    unfold journal_size, maxECCRecordJSONBytes in *. lia.
  - apply runs_effect.
Qed.

(** ** The answer *)

Lemma result_record_size r name payload error_string : slen (SysID r) = 32 → Ecc_State r = StateProcessing →
  record_size (result_record r name payload error_string) <= record_size r + slen name + slen payload + slen error_string + 50.
Proof.
  intros Hid Hst. unfold record_size, record_texts, result_record. cbn [total SysID Ecc_Agent Topic Ecc_Name Ecc_Source Queue Ecc_State ResponseTo AgentCorrelator
    Parameters Payload ErrorString CreatedOn]. change (slen "") with 0. change (slen QueueInput) with 5. change (slen StateReady) with 5. rewrite Hid.
  pose proof (slen_nonneg (Ecc_Name r)). pose proof (slen_nonneg (Queue r)). pose proof (slen_nonneg (Ecc_State r)). pose proof (slen_nonneg (ResponseTo r)).
  pose proof (slen_nonneg (Payload r)). pose proof (slen_nonneg (ErrorString r)). pose proof (slen_nonneg (CreatedOn r)). lia.
Qed.

Lemma answer_defined e r version d : plain_output r → Ecc_State r = StateProcessing →
  ∃ res, answer e r version d = Ok res ∧ validateInputRecord res agent = Ok tt ∧ ResponseTo res = SysID r ∧ record_size res <= journal_size.
Proof.
  intros (_&Hv&Hs) Hst. apply small_size in Hs. pose proof (validateOutputRecord_ok _ _ Hv) as (Hid&_&_&_&Hf). pose proof (sys_id_length _ Hid) as Hlen.
  apply validateRecordFields_ok in Hf as (Hshort&_). assert (slen (Ecc_Name r) <= maxShortFieldBytes) as Hname by (apply Hshort; by eapply (list_elem_of_lookup_2 _ 2)).
  unfold answer. destruct (negb _).
  - destruct (dispatchError_answers r agent ClaimConflictCode conflict_message Hv) as [-> Hok]; [by vm_compute|].
    eexists. split; [done|]. split; [done|]. split; [done|]. unfold denial.
    pose proof (result_record_size r "Topo denied ECC record" (payload_xml (mkResultPayloadItem "error" (boundedText ClaimConflictCode 128) (boundedText conflict_message maxErrorStringBytes) ""))
      (boundedText conflict_message maxErrorStringBytes) Hlen Hst) as Hsz.
    set (P := payload_xml _) in *. assert (slen P = 165) as HP by (by vm_compute).
    change (slen (boundedText conflict_message maxErrorStringBytes)) with 51 in Hsz. change (slen "Topo denied ECC record") with 22 in Hsz.
    unfold small_record, journal_size in *. lia.
  - rewrite (Dispatch_result r agent version Hv). eexists. split; [done|]. split; [by apply dispatch_result_valid|]. unfold dispatch_result.
    destruct (String.eqb (Topic r) TopicHeartbeat); (split; [done|]).
    + pose proof (payload_length (mkResultPayloadItem "success" "" "Topo ECC heartbeat acknowledged" (boundedText version 128))) as Hl.
      pose proof (boundedText_length version 128 ltac:(lia)). cbn [Item_Status Item_Code Item_Message Item_Version] in Hl.
      change (slen "success") with 7 in Hl. change (slen "") with 0 in Hl. change (slen "Topo ECC heartbeat acknowledged") with 31 in Hl.
      pose proof (result_record_size r (Ecc_Name r) (payload_xml (mkResultPayloadItem "success" "" "Topo ECC heartbeat acknowledged" (boundedText version 128))) "" Hlen Hst) as Hsz.
      change (slen "") with 0 in Hsz. unfold small_record, journal_size, maxShortFieldBytes in *. lia.
    + pose proof (result_record_size r "Topo unsupported ECC topic" (payload_xml (mkResultPayloadItem "error" UnsupportedCode unsupported_message "")) unsupported_message Hlen Hst) as Hsz.
      set (P := payload_xml _) in *. assert (slen P = 153) as HP by (by vm_compute).
      change (slen "Topo unsupported ECC topic") with 26 in Hsz. change (slen unsupported_message) with 36 in Hsz. unfold small_record, journal_size in *. lia.
Qed.

(** The second half of a claim. *)
Lemma runs_finish n m w e record result : situation n m w → n + 1 < 2 ^ 64 →
  validateJournalEntry e = Ok tt → result_size e <= journal_size → Entry_Result e = Some result → Ecc_Agent result = agent →
  m !! Entry_RecordID e = Some record → plain_output record → Ecc_State record = StateProcessing → readable_answers (Entry_RecordID e) m →
  ∃ w', runs (
    responses ← FindResponses c (SysID record) agent;
    id ← match responses with
         | [] => InsertResult c result
         | [r] => mret (SysID r)
         | _ => lift (Err "found %d ECC responses for one output record; refusing to hide duplicate processing"%string)
         end;
    u ← Save (with_response e id);
    u ← MarkProcessed c record;
    Clear) w tt w' ∧ World_journal w' = None ∧
    Server_records (World_ecc w') !! Entry_RecordID e = Some (with_state record StateProcessed) ∧
    (answered agent (Entry_RecordID e) m ∨ ∃ k a, Server_records (World_ecc w') !! k = Some a ∧ response_of result a) ∧
    ∃ n', Inv agent n' (World_ecc w').
Proof.
  intros Hsit Hn Hv Hsize Hres Hagt Hrec Hplain Hst Hread. pose proof (proj1 (validateJournalEntry_ok e) Hv) as (_&Hid&_&_&_&Hr).
  destruct (Hr result Hres) as [Hrv Hrt]. rewrite Hagt in Hrv. assert (record_size result <= journal_size) as Hrs by (unfold result_size in Hsize; by rewrite Hres in Hsize).
  assert (SysID record = Entry_RecordID e) as Hsid by (destruct Hsit as (_&HI&<-); by apply (inv_keys _ _ _ HI)).
  destruct (runs_FindResponses n m w (Entry_RecordID e) Hsit Hid Hread) as (l&w1&Hrun1&Hsit1&_&Hl). rewrite Hsid.
  assert (∃ id w2 n2 m2, runs (match l with [] => InsertResult c result | [r] => mret (SysID r)
     | _ => lift (Err "found %d ECC responses for one output record; refusing to hide duplicate processing"%string) end) w1 id w2 ∧ situation n2 m2 w2 ∧
     (id = ""%string ∨ match_sys_id id = true) ∧ m2 !! Entry_RecordID e = Some record ∧ answered agent (Entry_RecordID e) m2 ∧
     (answered agent (Entry_RecordID e) m ∨ ∃ k a, k ≠ Entry_RecordID e ∧ m2 !! k = Some a ∧ response_of result a)) as (id&w2&n2&m2&Hrun2&Hsit2&Hidok&Hrec2&Hans2&Hkind).
  { destruct Hl as [[-> Hna]|(a&->&Hans&Hav)].
    - rewrite <-Hrt in Hna. destruct (runs_InsertResult n m w1 result Hsit1 Hn Hrv Hrs Hna) as (id&w2&k&a&Hrun&Hsit2&_&Hk&Hresp&Hidm).
      exists id, w2, (n + 1), (<[k := a]> m). split; [done|]. split; [done|]. split; [by right|].
      assert (k ≠ Entry_RecordID e) as Hne by (intros ->; congruence). split; [by rewrite lookup_insert_ne by done|]. split; [|right; exists k, a; split; [done|by rewrite lookup_insert_eq]].
      exists k, a. rewrite lookup_insert_eq. split; [done|]. rewrite <-Hrt. apply Hresp.
    - exists (SysID (seen a)), w1, n, m. split; [apply runs_ret|]. split; [done|]. split; [|split; [exact Hrec|split; [exact Hans|by left]]].
      unfold validateInputRecord in Hav. case_bool_decide as Hs; [by left|right]. cbn [negb andb] in Hav. by destruct (match_sys_id (SysID (seen a))). }
  assert (validateJournalEntry (with_response e id) = Ok tt) as Hv'.
  { apply validateJournalEntry_ok. apply validateJournalEntry_ok in Hv as (?&?&?&?&_&?). by split_and!. }
  destruct (runs_Save n2 m2 w2 (with_response e id) Hsit2 Hv' Hsize) as (w3&Hrun3&Hsit3).
  destruct (runs_MarkProcessed n2 m2 w3 (Entry_RecordID e) record Hsit3 Hrec2 Hsid Hid Hst Hans2) as (w4&Hrun4&(Hc4&HI4&Hm4)&_).
  exists (set_journal w4 None). split; [|split; [done|split; [cbn; by rewrite Hm4, lookup_insert_eq|]]].
  - eapply runs_bind; [exact Hrun1|]. eapply runs_bind; [exact Hrun2|]. eapply runs_bind; [exact Hrun3|]. eapply runs_bind; [exact Hrun4|]. apply runs_effect.
  - split; [|by exists n2]. destruct Hkind as [?|(k&a&Hne&Hk&Ha)]; [by left|right]. exists k, a. split; [|done]. cbn. by rewrite Hm4, lookup_insert_ne.
Qed.

Lemma answers_state id m k r st : m !! k = Some r → readable_answers id m → Queue r = QueueOutput → readable_answers id (<[k := with_state r st]> m).
Proof.
  intros Hk Hread Hq j a Hj Ha. apply lookup_insert_Some in Hj as [[<- <-]|[Hne Hj]]; [|by apply (Hread j)].
  destruct Ha as (Hqa&_). cbn [with_state Queue] in Hqa. by rewrite Hq in Hqa.
Qed.

(** A claim that was written down is completed by one undisturbed resumption. *)
Lemma runs_resumeClaim version n m w e r : situation n m w → n + 1 < 2 ^ 64 → validateJournalEntry e = Ok tt →
  (∀ res, Entry_Result e = Some res → Ecc_Agent res = agent ∧ record_size res <= journal_size) →
  m !! Entry_RecordID e = Some r → plain_output r → readable_answers (Entry_RecordID e) m →
  ∃ w', runs (resumeClaim c agent version e) w tt w' ∧ World_journal w' = None ∧
    Server_records (World_ecc w') !! Entry_RecordID e = Some (with_state r StateProcessed) ∧
    (Ecc_State r = StateProcessed ∨ answered agent (Entry_RecordID e) m ∨
     ∃ k a res d, Server_records (World_ecc w') !! k = Some a ∧ response_of res a ∧ recordDigest (with_state r StateProcessing) = Ok d ∧
       match Entry_Result e with Some res' => res = res' | None => answer e (with_state r StateProcessing) version d = Ok res end) ∧
    ∃ n', Inv agent n' (World_ecc w').
Proof.
  intros Hsit Hn Hv Hres Hr Hplain Hread. pose proof Hplain as (_&Hval&_). pose proof (validateOutputRecord_ok _ _ Hval) as (Hid&Ha&Hq&Hst&_).
  assert (SysID r = Entry_RecordID e) as Hsid by (destruct Hsit as (_&HI&<-); by apply (inv_keys _ _ _ HI)).
  destruct (runs_Get n m w (Entry_RecordID e) r Hsit Hr Hplain) as (w1&Hrun1&Hsit1&_).
  unfold resumeClaim. destruct (String.eqb_spec (Ecc_State r) StateProcessed) as [Hdone|Hnot].
  { destruct Hsit1 as (Hc1&HI1&Hm1). exists (set_journal w1 None). split; [|split; [done|split; [|split; [by left|by exists n]]]].
    - eapply runs_bind; [exact Hrun1|]. rewrite Hdone, String.eqb_refl. apply runs_effect.
    - cbn. rewrite Hm1, Hr. f_equal. destruct r; simpl in *. by subst. }
  set (r1 := with_state r StateProcessing).
  assert (∃ w2, runs (if String.eqb (Ecc_State r) StateReady then Claim c r else mret r) w1 r1 w2 ∧ situation n (<[Entry_RecordID e := r1]> m) w2) as (w2&Hrun2&Hsit2).
  { destruct (String.eqb_spec (Ecc_State r) StateReady) as [Hready|Hnr].
    - rewrite <-Hsid in *. destruct (runs_Claim n m w1 r Hsit1 Hr Hplain Hready) as (w2&?&?&_). by exists w2.
    - assert (Ecc_State r = StateProcessing) as Hp by (by destruct Hst as [?|[?|?]]). assert (r1 = r) as -> by (unfold r1; destruct r; simpl in *; by subst).
      exists w1. split; [apply runs_ret|]. by rewrite insert_id. }
  assert (plain_output r1) as Hplain1 by (apply plain_state; auto).
  assert (readable_answers (Entry_RecordID e) (<[Entry_RecordID e := r1]> m)) as Hread1 by (by apply answers_state).
  destruct (digest_defined r1 Hplain1) as [d Hd].
  assert (∃ e2 result w3, runs (match Entry_Result e with
            | Some result => mret (e, result)
            | None => result ← lift (answer e r1 version d); let entry := with_result e result in u ← Save entry; mret (entry, result) end) w2 (e2, result) w3 ∧
     situation n (<[Entry_RecordID e := r1]> m) w3 ∧ validateJournalEntry e2 = Ok tt ∧ result_size e2 <= journal_size ∧ Entry_Result e2 = Some result ∧
     Entry_RecordID e2 = Entry_RecordID e ∧ Ecc_Agent result = agent ∧
     match Entry_Result e with Some res' => result = res' | None => answer e r1 version d = Ok result end) as (e2&result&w3&Hrun3&Hsit3&Hv2&Hs2&Hres2&Hid2&Hag2&Hans2).
  { destruct (Entry_Result e) as [result|] eqn:Hresult.
    - destruct (Hres result eq_refl) as [Hag Hsz]. exists e, result, w2. split; [apply runs_ret|]. unfold result_size. rewrite Hresult. by split_and!.
    - destruct (answer_defined e r1 version d Hplain1 eq_refl) as (result&Hok&Hval2&Hrt&Hsz). pose proof (validateInputRecord_ok _ _ Hval2) as (Hag&_).
      assert (validateJournalEntry (with_result e result) = Ok tt) as Hv2.
      { apply validateJournalEntry_ok. apply validateJournalEntry_ok in Hv as (?&?&?&?&?&_). split_and!; try done. intros ? [= <-]. rewrite Hag. split; [done|]. by rewrite Hrt. }
      destruct (runs_Save n _ w2 (with_result e result) Hsit2 Hv2 Hsz) as (w3&Hrun3&Hsit3). exists (with_result e result), result, w3.
      split; [|by split_and!]. eapply runs_bind; [by apply runs_lift|]. eapply runs_bind; [exact Hrun3|apply runs_ret]. }
  rewrite <-Hid2 in Hread1, Hsit3. destruct (runs_finish n _ w3 e2 r1 result Hsit3 Hn Hv2 Hs2 Hres2 Hag2) as (w4&Hrun4&Hj4&Hm4&Hkind&HI4);
    [by rewrite lookup_insert_eq|done|done|done|].
  exists w4. split; [|split; [done|split; [by rewrite <-Hid2|split; [|done]]]].
  - eapply runs_bind; [exact Hrun1|]. rewrite (proj2 (String.eqb_neq _ _) Hnot). eapply runs_bind; [exact Hrun2|].
    change (Ecc_State r1) with StateProcessing. rewrite String.eqb_refl. cbn [negb]. eapply runs_bind; [by apply runs_lift|].
    eapply runs_bind; [exact Hrun3|]. exact Hrun4.
  - right. destruct Hkind as [Hb|(k&a&Hk&Hresp)].
    + left. rewrite Hid2 in Hb. exact (proj1 (answered_replace agent (Entry_RecordID e) (Entry_RecordID e) r r1 m Hr (with_state_place r StateProcessing)) Hb).
    + right. by exists k, a, result, d.
Qed.
End live.

(** C30: the bridge finishes what it started.  Whatever faults left behind, if the journal
    loads and names an output record of this agent that arrives as it is stored and is within
    the bounds, if a journaled result is this agent's and fits a journal entry, and if an answer
    already given is readable, then one cycle without faults processes the record, leaves exactly
    one answer to it and removes the journal; unless the record was processed or answered before,
    this answer is the journaled result or, without one, what the dispatcher answers. *)
Theorem runCycle_resumes (c : Client) (name agent version : string) (batch n : Z) (w : World) (e : journalEntry) (r : ECC) :
  AgentName name = Ok agent → connects c (World_ecc w) → Inv agent n (World_ecc w) → n + 1 < 2 ^ 64 →
  Load (World_journal w) = Ok (Some e) →
  (∀ res, Entry_Result e = Some res → Ecc_Agent res = agent ∧ record_size res <= journal_size) →
  Server_records (World_ecc w) !! Entry_RecordID e = Some r → plain_output agent r →
  readable_answers agent (Entry_RecordID e) (Server_records (World_ecc w)) →
  ∃ w', runCycle c agent version batch [] w = (Done tt, [], w') ∧ World_journal w' = None ∧
    Server_records (World_ecc w') !! Entry_RecordID e = Some (with_state r StateProcessed) ∧
    ∃ k a, Server_records (World_ecc w') !! k = Some a ∧ answers agent (Entry_RecordID e) a ∧
      (∀ k' a', Server_records (World_ecc w') !! k' = Some a' → answers agent (Entry_RecordID e) a' → k' = k) ∧
      (Ecc_State r = StateProcessed ∨ answered agent (Entry_RecordID e) (Server_records (World_ecc w)) ∨
       ∃ res d, response_of agent res a ∧ recordDigest (with_state r StateProcessing) = Ok d ∧
         match Entry_Result e with Some res' => res = res' | None => answer e (with_state r StateProcessing) version d = Ok res end).
Proof.
  intros Hname Hc HI Hn Hload Hres Hr Hplain Hread. assert (∃ name, AgentName name = Ok agent) as Hagent by (by exists name).
  destruct (runs_resumeClaim c agent Hagent version n (Server_records (World_ecc w)) w e r) as (w'&Hrun&Hj&Hm&Hkind&n'&HI'); [by split|done|by eapply Load_valid|done..|].
  assert (validateOutputRecord r agent = Ok tt) as (Hid&Ha&Hq&_)%validateOutputRecord_ok by apply Hplain.
  destruct (inv_done _ _ _ HI' _ _ Hm Hq Ha eq_refl) as (k&a&Hk&Hans).
  assert (∀ k' a', Server_records (World_ecc w') !! k' = Some a' → answers agent (Entry_RecordID e) a' → k' = k) as Honce
    by (intros k' a' Hk' Hans'; by eapply (inv_once _ _ _ HI' (Entry_RecordID e))).
  exists w'. split; [|split; [done|split; [done|exists k, a; do 3 (split; [done|])]]].
  - unfold runCycle. eapply runs_bind.
    + apply runs_attempt. unfold load_journal. eapply runs_bind; [apply runs_effect|]. by apply runs_lift.
    + cbv beta iota. eapply runs_bind; [apply runs_attempt; exact Hrun|apply runs_ret].
  - destruct Hkind as [?|[?|(k1&a1&res&d&Hk1&Hresp&Hd&Hcase)]]; [by left|by right; left|right; right]. exists res, d. split; [|done].
    assert (ResponseTo res = Entry_RecordID e) as Hto.
    { destruct (Entry_Result e) as [res'|] eqn:Hre; [|].
      2: { destruct (answer_defined agent e (with_state r StateProcessing) version d) as (res'&Hok&_&Hto&_); [apply plain_state; auto|done|].
        rewrite Hok in Hcase. injection Hcase as <-. rewrite Hto. exact (proj1 (inv_keys _ _ _ HI _ _ Hr)). }
      subst res'. apply (entry_result_id e); [by eapply Load_valid|done]. }
    assert (k1 = k) as -> by (apply (Honce _ a1 Hk1); rewrite <-Hto; apply Hresp). congruence.
Qed.

Definition demo_server : Server := (AddOutput (Server_New "mid" "secret") demo_agent "Heartbeat" "probe" "s" "a < b" "" "c-1").2.
Definition demo_output : ECC := (AddOutput (Server_New "mid" "secret") demo_agent "Heartbeat" "probe" "s" "a < b" "" "c-1").1.
Definition demo_claim : journalEntry :=
  mkJournalEntry 1 (sys_id_of 1) (match recordDigest demo_output with Ok d => d | Err _ => ""%string end) None "".
Lemma runCycle_resumes_witness :
  let w := mkWorld demo_server (Some (entry_text demo_claim)) in
  Load (World_journal w) = Ok (Some demo_claim) ∧
  ∃ w', runCycle demo_client demo_agent "1.0" 1 [] w = (Done tt, [], w') ∧ World_journal w' = None ∧
    Server_records (World_ecc w') !! sys_id_of 1 = Some (with_state demo_output StateProcessed).
Proof.
  intros w. assert (Load (World_journal w) = Ok (Some demo_claim)) as Hload by (vm_compute; reflexivity). split; [exact Hload|].
  assert (Inv demo_agent 2 (World_ecc w)) as HI.
  { apply (Inv_add demo_agent 1 (Server_New "mid" "secret") _ demo_output); [apply Inv_new|lia|vm_compute; reflexivity|reflexivity|reflexivity| |].
    - intros id (Hq&_). discriminate Hq.
    - intros _ _. discriminate. }
  assert (Server_records (World_ecc w) = <[sys_id_of 1 := demo_output]> ∅) as Hrec by reflexivity.
  assert (Server_records (World_ecc w) !! Entry_RecordID demo_claim = Some demo_output) as Hr by (rewrite Hrec; apply lookup_insert_eq).
  assert (plain_output demo_agent demo_output) as Hplain.
  { split; [vm_compute; reflexivity|]. split; [vm_compute; reflexivity|]. split; vm_compute; congruence. }
  assert (connects demo_client (World_ecc w)) as Hc by (split_and!; reflexivity).
  destruct (runCycle_resumes demo_client "m1" demo_agent "1.0" 1 2 w demo_claim demo_output) as (w'&Hrun&Hj&Hm&_).
  - vm_compute. reflexivity.
  - exact Hc.
  - exact HI.
  - lia.
  - exact Hload.
  - intros res H. discriminate H.
  - exact Hr.
  - exact Hplain.
  - intros k a Hk (Hq&_). rewrite Hrec in Hk. apply lookup_insert_Some in Hk as [[_ <-]|[_ Hk]]; [discriminate Hq|]. by rewrite lookup_empty in Hk.
  - exists w'. split; [exact Hrun|]. split; [exact Hj|exact Hm].
Defined.
