(* ===== verification/Contract.v ===== *)
(** * [internal/worker]: the worker contract

    The request and response types of [contract.go], shared by the worker and by the
    control-plane simulator. *)

From S2P Require Import Prelude Bytes Time.

Definition ContractVersion : string := "v1alpha1".
Definition OperationLocalV1 : string := "local.v1".
Definition OperationSSHLinuxV1 : string := "ssh_linux.v1".
Definition OperationWinRMWindowsV1 : string := "winrm_windows.v1".
Definition sha256HexLength : Z := 64.

Record RegisterRequest := mkRegisterRequest {
  Register_SchemaVersion : string;
  Register_BootID : string;
  Register_WorkerPool : string;
  Register_SiteID : string;
  Register_Version : string;
  Register_Capabilities : list string;
  Register_PolicyDigest : string;
  Register_MaxConcurrency : Z;
  Register_StartedAt : time;
}.

Record WorkerHeartbeatRequest := mkWorkerHeartbeatRequest {
  WHeartbeat_SchemaVersion : string;
  WHeartbeat_WorkerID : string;
  WHeartbeat_BootID : string;
  WHeartbeat_CurrentLeases : Z;
  WHeartbeat_SentAt : time;
}.

Record ClaimRequest := mkClaimRequest {
  Claim_SchemaVersion : string;
  Claim_WorkerID : string;
  Claim_BootID : string;
  Claim_Capabilities : list string;
  Claim_CurrentLeases : Z;
}.

Record TargetPartition := mkTargetPartition {
  Key : string;
  Ordinal : Z;
  Count : Z;
  CIDRs : list string;
}.

Record Task := mkTask {
  Task_TaskID : string;
  Task_RunID : string;
  Task_AttemptID : string;
  Task_LeaseToken : string;
  Task_LeaseExpiresAt : time;
  Task_Operation : string;
  Task_ProfileID : string;
  Task_ProfileRevision : Z;
  Task_CredentialBindingID : string;
  Task_TargetPartition : option TargetPartition;
  Task_Deadline : time;
}.

Record RenewRequest := mkRenewRequest {
  Renew_SchemaVersion : string;
  Renew_WorkerID : string;
  Renew_BootID : string;
  Renew_AttemptID : string;
  Renew_LeaseToken : string;
}.

Record RenewResponse := mkRenewResponse {
  RenewResponse_LeaseExpiresAt : time;
  RenewResponse_Cancelled : bool;
}.

Record CredentialRequest := mkCredentialRequest {
  Credential_SchemaVersion : string;
  Credential_WorkerID : string;
  Credential_BootID : string;
  Credential_AttemptID : string;
  Credential_LeaseToken : string;
}.

Record PasswordCredential := mkPasswordCredential {
  Username : string;
  Password : string;
}.

Record ResultChunkRequest := mkResultChunkRequest {
  Chunk_SchemaVersion : string;
  Chunk_WorkerID : string;
  Chunk_BootID : string;
  Chunk_AttemptID : string;
  Chunk_LeaseToken : string;
  Chunk_ChunkNumber : Z;
  Chunk_ChunkCount : Z;
  Chunk_Checksum : string;
  Chunk_ObservationJSON : string;
}.

Record ResultChunkResponse := mkResultChunkResponse {
  Accepted : bool;
  Duplicate : bool;
}.

Record Failure := mkFailure {
  Failure_Code : string;
  Failure_Message : string;
  Failure_Retryable : bool;
}.

Record CompleteRequest := mkCompleteRequest {
  Complete_SchemaVersion : string;
  Complete_WorkerID : string;
  Complete_BootID : string;
  Complete_AttemptID : string;
  Complete_LeaseToken : string;
  Complete_Success : bool;
  Complete_ChunkCount : Z;
  Complete_Failure : option Failure;
}.

Record CompleteResponse := mkCompleteResponse {
  CompleteResponse_TaskState : string;
  CompleteResponse_RunState : string;
}.
