(* ===== verification/Partition.v ===== *)
(** * [internal/worker/partition.go]: planning target partitions

    A scope of CIDRs less its exclusions is cut into disjoint canonical prefixes of a
    bounded number.  The two recursive functions halve a prefix until it is a host;
    [prefix_fuel] counts the halvings left, and the theorems show it never runs out. *)

From S2P Require Import Prelude Bytes Sha256 Netip Contract.

Definition DefaultIPv4PartitionPrefix : Z := 24.
Definition DefaultIPv6PartitionPrefix : Z := 64.
Definition DefaultMaxPartitions : Z := 100000.
Definition maxScopeCIDRs : Z := 4096.
Definition maxPartitionCIDRs : Z := 64.

Record TargetScope := mkTargetScope {
  ScopeID : string;
  Revision : Z;
  Scope_CIDRs : list string;
  Exclusions : list string;
  IPv4PartitionPrefix : Z;
  IPv6PartitionPrefix : Z;
  MaxPartitions : Z;
}.

Definition limit_exceeded : string := "target scope partition limit exceeded".
Definition out_of_fuel : string := "out of fuel".

Fixpoint parsePrefixes (values : list string) : go (list Prefix) :=
  match values with
  | [] => Ok []
  | value :: values =>
    match ParsePrefix value with
    | None => Err "invalid CIDR %q"%string
    | Some prefix =>
      reject negb (bool_decide (Zone (prefix_Addr prefix) = ""%string)) with "invalid CIDR %q"%string ;;
      try prefixes := parsePrefixes values ;;
      Ok (Masked prefix :: prefixes)
    end
  end.

(** The comparators of [removeCovered] and [sortPrefixes]. *)
Definition family_bits_addr (p q : Prefix) : bool :=
  less_then (less_on (λ p, BitLen (prefix_Addr p)) Z.ltb)
    (less_then (less_on Bits Z.ltb) (less_on prefix_Addr addr_less)) p q.
Definition family_addr_bits (p q : Prefix) : bool :=
  less_then (less_on (λ p, BitLen (prefix_Addr p)) Z.ltb)
    (less_then (less_on prefix_Addr addr_less) (less_on Bits Z.ltb)) p q.

Definition covered_by (prefix existing : Prefix) : bool :=
  (BitLen (prefix_Addr existing) =? BitLen (prefix_Addr prefix)) && Contains existing (prefix_Addr prefix).

Definition keep_uncovered (result : list Prefix) (prefix : Prefix) : list Prefix :=
  if existsb (covered_by prefix) result then result else result ++ [prefix].

Definition removeCovered (prefixes : list Prefix) : list Prefix :=
  foldl keep_uncovered [] (sort_by family_bits_addr prefixes).

(** [value[bits/8] |= byte(1 << (7 - uint(bits%8)))] *)
Definition set_bit (value : list Z) (bits : Z) : list Z :=
  alter (λ b, Z.lor b (Z.shiftl 1 (7 - bits mod 8) mod 256)) (Z.to_nat (bits / 8)) value.

Definition splitPrefix (prefix : Prefix) : go (Prefix * Prefix) :=
  let prefix := Masked prefix in
  let bits := Bits prefix in
  let bitLen := BitLen (prefix_Addr prefix) in
  reject (bits <? 0) || (bitLen <=? bits) with "cannot split a host prefix"%string ;;
  let lower := PrefixFrom (prefix_Addr prefix) (bits + 1) in
  if Is4 (prefix_Addr prefix)
  then Ok (lower, PrefixFrom (AddrFrom4 (set_bit (As4 (prefix_Addr prefix)) bits)) (bits + 1))
  else Ok (lower, PrefixFrom (AddrFrom16 (set_bit (As16 (prefix_Addr prefix)) bits)) (bits + 1)).

Definition prefix_fuel (p : Prefix) : nat := S (Z.to_nat (BitLen (prefix_Addr p) - Bits p)).

Fixpoint subtractPrefix (fuel : nat) (base deny : Prefix) (budget : Z) : go (list Prefix) :=
  match fuel with
  | O => Err out_of_fuel
  | S fuel =>
    reject budget <? 0 with limit_exceeded ;;
    if negb (Overlaps base deny) then Ok [base]
    else if (Bits deny <=? Bits base) && Contains deny (prefix_Addr base) then Ok []
    else
      try halves := splitPrefix base ;;
      let '(lower, upper) := halves in
      try leftParts := subtractPrefix fuel lower deny budget ;;
      try rightParts := subtractPrefix fuel upper deny (budget - llen leftParts) ;;
      Ok (leftParts ++ rightParts)
  end.

Fixpoint splitToPrefix (fuel : nat) (prefix : Prefix) (targetBits budget : Z) : go (list Prefix) :=
  match fuel with
  | O => Err out_of_fuel
  | S fuel =>
    reject budget <? 1 with limit_exceeded ;;
    if targetBits <=? Bits prefix then Ok [prefix]
    else
      try halves := splitPrefix prefix ;;
      let '(lower, upper) := halves in
      try leftParts := splitToPrefix fuel lower targetBits budget ;;
      try rightParts := splitToPrefix fuel upper targetBits (budget - llen leftParts) ;;
      Ok (leftParts ++ rightParts)
  end.

(** The inner loop over the candidates for one exclusion. *)
Fixpoint exclude_one (deny : Prefix) (maximum : Z) (candidates next : list Prefix) : go (list Prefix) :=
  match candidates with
  | [] => Ok next
  | candidate :: candidates =>
    if negb (BitLen (prefix_Addr candidate) =? BitLen (prefix_Addr deny)) || negb (Overlaps candidate deny)
    then exclude_one deny maximum candidates (next ++ [candidate])
    else
      try parts := subtractPrefix (prefix_fuel candidate) candidate deny (maximum - llen next) ;;
      let next := next ++ parts in
      reject maximum <? llen next with "target scope exceeds %d partitions after exclusions"%string ;;
      exclude_one deny maximum candidates next
  end.

Fixpoint exclude_all (excluded : list Prefix) (maximum : Z) (allowed : list Prefix) : go (list Prefix) :=
  match excluded with
  | [] => Ok allowed
  | deny :: excluded =>
    try allowed := exclude_one deny maximum allowed [] ;;
    exclude_all excluded maximum allowed
  end.

Fixpoint split_all (v4Prefix v6Prefix maximum : Z) (allowed planned : list Prefix) : go (list Prefix) :=
  match allowed with
  | [] => Ok planned
  | prefix :: allowed =>
    let targetBits := if Is4 (prefix_Addr prefix) then v4Prefix else v6Prefix in
    try parts := splitToPrefix (prefix_fuel prefix) prefix targetBits (maximum - llen planned) ;;
    let planned := planned ++ parts in
    reject maximum <? llen planned with "target scope exceeds %d partitions"%string ;;
    split_all v4Prefix v6Prefix maximum allowed planned
  end.

Definition sortPrefixes (prefixes : list Prefix) : list Prefix := sort_by family_addr_bits prefixes.

Definition or_default (value dflt : Z) : Z := if value =? 0 then dflt else value.

(** The prefixes [PlanTargetPartitions] plans. *)
Definition plan_prefixes (scope : TargetScope) : go (list Prefix) :=
  reject negb (match_safe_id (ScopeID scope)) with "target scope ID is invalid"%string ;;
  reject (Revision scope <? 1) || (1000000 <? Revision scope)
    with "target scope revision must be between 1 and 1000000"%string ;;
  reject (llen (Scope_CIDRs scope) =? 0) || (maxScopeCIDRs <? llen (Scope_CIDRs scope))
         || (maxScopeCIDRs <? llen (Exclusions scope))
    with "target scope must contain 1-%d CIDRs and at most %d exclusions"%string ;;
  let v4Prefix := or_default (IPv4PartitionPrefix scope) DefaultIPv4PartitionPrefix in
  let v6Prefix := or_default (IPv6PartitionPrefix scope) DefaultIPv6PartitionPrefix in
  reject (v4Prefix <? 8) || (32 <? v4Prefix) || (v6Prefix <? 32) || (128 <? v6Prefix)
    with "target partition prefixes must be IPv4 /8-/32 and IPv6 /32-/128"%string ;;
  let maximum := or_default (MaxPartitions scope) DefaultMaxPartitions in
  reject (maximum <? 1) || (DefaultMaxPartitions <? maximum)
    with "maximum partitions must be between 1 and %d"%string ;;
  try included := parsePrefixes (Scope_CIDRs scope) ;;
  try excluded := parsePrefixes (Exclusions scope) ;;
  try allowed := exclude_all (removeCovered excluded) maximum (removeCovered included) ;;
  try planned := split_all v4Prefix v6Prefix maximum allowed [] ;;
  Ok (sortPrefixes planned).

Definition partition_key (scope : TargetScope) (canonical : string) : string :=
  sha256_hex (ScopeID scope +:+ char 10 +:+ decimal (Revision scope) +:+ char 10 +:+ canonical)%string.

Definition make_partition (scope : TargetScope) (count : Z) (index : nat) (prefix : Prefix) : TargetPartition :=
  let canonical := Prefix_String (Masked prefix) in
  mkTargetPartition (partition_key scope canonical) (Z.of_nat index) count [canonical].

Definition PlanTargetPartitions (scope : TargetScope) : go (list TargetPartition) :=
  try planned := plan_prefixes scope ;;
  Ok (imap (make_partition scope (llen planned)) planned).

Definition example_scope : TargetScope :=
  mkTargetScope "scope-1" 1 ["10.0.0.0/22"; "10.0.1.0/24"; "2001:db8::/63"] ["10.0.2.128/25"; "10.0.2.0/26"] 24 64 10.

Example plan_example :
  (λ l, mjoin (CIDRs <$> l)) <$> result_option (PlanTargetPartitions example_scope) =
  Some ["10.0.0.0/24"; "10.0.1.0/24"; "10.0.2.64/26"; "10.0.3.0/24"; "2001:db8::/64"; "2001:db8:0:1::/64"]%string.
Proof. vm_compute. reflexivity. Qed.

(** ** Halving a prefix *)

Lemma lor_byte (b k : Z) :
  0 <= b < 256 → 0 <= k < 8 → b mod 2 ^ (k + 1) = 0 → Z.lor b (Z.shiftl 1 k mod 256) = b + 2 ^ k.
Proof.
  intros Hb Hk Hm.
  assert (Forall (λ k, Forall (λ b, b mod 2 ^ (k + 1) = 0 → Z.lor b (Z.shiftl 1 k mod 256) = b + 2 ^ k)
    (seqZ 0 256)) (seqZ 0 8)) as H by (apply (bool_decide_unpack _); by vm_compute).
  rewrite Forall_forall in H. specialize (H k ltac:(apply elem_of_seqZ; lia)).
  rewrite Forall_forall in H. apply H; [apply elem_of_seqZ; lia|done].
Qed.

Lemma set_bit_value (n : nat) (v bits : Z) :
  0 <= v < 256 ^ Z.of_nat n → 0 <= bits < 8 * Z.of_nat n → (2 ^ (8 * Z.of_nat n - bits) | v) →
  be_value (set_bit (be_bytes n v) bits) = v + 2 ^ (8 * Z.of_nat n - bits - 1).
Proof.
  intros Hv Hb [m Hm]. unfold set_bit.
  pose proof (Z.div_mod bits 8 ltac:(lia)) as Hdm. pose proof (Z.mod_pos_bound bits 8 ltac:(lia)) as Hr.
  set (r := bits mod 8) in *. set (i := Z.to_nat (bits / 8)).
  assert (0 <= bits / 8) by (apply Z.div_pos; lia).
  assert (bits / 8 < Z.of_nat n) by (apply Z.div_lt_upper_bound; lia).
  assert (i < n)%nat as Hi by lia.
  set (q := Z.of_nat (n - 1 - i)). assert (q = Z.of_nat n - 1 - bits / 8) as Hq by lia.
  assert (v = m * 2 ^ (8 - r) * 256 ^ q) as Hv'.
  { rewrite Hm, <-Z.mul_assoc. change 256 with (2 ^ 8). rewrite <-Z.pow_mul_r, <-Z.pow_add_r by lia.
    do 2 f_equal. lia. }
  set (b := (v / 256 ^ q) mod 256).
  assert (b mod 2 ^ (7 - r + 1) = 0) as Hb0.
  { unfold b. rewrite Hv', Z.div_mul by (apply Z.pow_nonzero; lia).
    replace (7 - r + 1) with (8 - r) by lia.
    replace 256 with (2 ^ r * 2 ^ (8 - r)) by (rewrite <-Z.pow_add_r by lia; by replace (r + (8 - r)) with 8 by lia).
    rewrite Z.mul_mod_distr_r by (apply Z.pow_nonzero; lia). apply Z.mod_mul, Z.pow_nonzero; lia. }
  assert (alter (λ b, Z.lor b (Z.shiftl 1 (7 - r) mod 256)) i (be_bytes n v) =
          <[i := b + 2 ^ (7 - r)]> (be_bytes n v)) as ->.
  { rewrite list_insert_alter. apply list_alter_ext; [|done]. intros x Hx.
    rewrite be_bytes_lookup in Hx by done. fold q in Hx. fold b in Hx. injection Hx as <-.
    apply lor_byte; [apply Z.mod_pos_bound|lia|]; [lia|done]. }
  unfold be_value. rewrite be_fold_insert by lia. fold q. fold b. rewrite Z.mod_small by lia.
  replace (b + 2 ^ (7 - r) - b) with (2 ^ (7 - r)) by lia.
  change 256 with (2 ^ 8) at 2. rewrite <-Z.pow_mul_r, <-Z.pow_add_r by lia.
  rewrite Z.mul_0_l, Z.add_0_l. do 2 f_equal. lia.
Qed.

(** The two halves of a prefix: they start at its start and in its middle. *)
Record halves (p lower upper : Prefix) : Prop := {
  lower_canonical : canonical lower;
  upper_canonical : canonical upper;
  lower_family : Is4 (prefix_Addr lower) = Is4 (prefix_Addr p);
  upper_family : Is4 (prefix_Addr upper) = Is4 (prefix_Addr p);
  lower_bits : Bits lower = Bits p + 1;
  upper_bits : Bits upper = Bits p + 1;
  lower_start : addr_val (prefix_Addr lower) = addr_val (prefix_Addr p);
  upper_start : addr_val (prefix_Addr upper) = addr_val (prefix_Addr p) + span lower;
  lower_span : span p = 2 * span lower;
  upper_span : span upper = span lower;
}.

Lemma Masked_id p : canonical p → Masked p = p.
Proof.
  intros Hp. unfold Masked, IsValid. rewrite mask_aligned by done.
  destruct Hp as [[Hv Hz] Hb _]. destruct (Z.leb_spec 0 (Bits p)); [|lia].
  rewrite PrefixFrom_ok by done. destruct p as [[] b]. unfold without_zone. simpl in *. by rewrite Hz.
Qed.

Lemma half_span w b : 0 <= b < w → 2 ^ (w - b) = 2 * 2 ^ (w - b - 1).
Proof. intros. rewrite <-Z.pow_succ_r by lia. f_equal. lia. Qed.

Lemma splitPrefix_halves p :
  canonical p → Bits p < BitLen (prefix_Addr p) →
  ∃ lower upper, splitPrefix p = Ok (lower, upper) ∧ halves p lower upper.
Proof.
  intros Hp Hlt. unfold splitPrefix. rewrite Masked_id by done.
  pose proof (canonical_bits _ Hp) as Hb. pose proof (canonical_addr _ Hp) as [Hv Hz].
  pose proof (canonical_aligned _ Hp) as Ha.
  destruct (Z.ltb_spec (Bits p) 0), (Z.leb_spec (BitLen (prefix_Addr p)) (Bits p)); try lia. simpl orb. cbv iota.
  set (lower := PrefixFrom (prefix_Addr p) (Bits p + 1)).
  set (h := 2 ^ (BitLen (prefix_Addr p) - Bits p - 1)).
  assert (0 < h) as Hh by (apply Z.pow_pos_nonneg; lia).
  assert (span p = 2 * h) as Hspan by (apply half_span; lia).
  assert (lower = mkPrefix (without_zone (prefix_Addr p)) (Bits p + 1)) as Hlo by (apply PrefixFrom_ok; lia).
  assert (span lower = h) as Hslo.
  { rewrite Hlo. unfold span, h, BitLen. simpl. f_equal. lia. }
  assert (∀ bytes : list Z, be_value bytes = addr_val (prefix_Addr p) + h →
    halves p lower (mkPrefix (mkAddr (Is4 (prefix_Addr p)) (be_value bytes) "") (Bits p + 1))) as Hgo.
  { intros bytes ->. set (upper := mkPrefix _ _).
    assert (span upper = h) as Hsup by (unfold span, h, BitLen, upper; simpl; f_equal; unfold Is4; lia).
    destruct Ha as [k Hk]. rewrite Hspan in Hk.
    assert (addr_val (prefix_Addr p) + span p <= 2 ^ BitLen (prefix_Addr p)) as Htop.
    { pose proof (block_nested 0 (addr_val (prefix_Addr p)) (2 ^ BitLen (prefix_Addr p)) (span p)
        (span_pos p Hp)) as Hn. rewrite !Z.add_0_l in Hn. apply Hn; [|by exists 0| |lia].
      - exists (2 ^ Bits p). unfold span. rewrite <-Z.pow_add_r by lia. f_equal. lia.
      - by exists k; rewrite Hspan. }
    split; rewrite ?Hslo, ?Hsup; try done; try (rewrite Hlo; done).
    - split; rewrite ?Hslo; rewrite Hlo; [split; [done|done]|unfold BitLen in *; simpl; lia|].
      simpl. exists (2 * k). lia.
    - split; rewrite ?Hsup; unfold upper; simpl; [split; [|done]| |].
      + unfold BitLen, Is4 in *. simpl. lia.
      + unfold BitLen, Is4 in *. simpl. lia.
      + exists (2 * k + 1). lia. }
  unfold BitLen, width, Is4 in *. destruct (addr_is4 (prefix_Addr p)) eqn:E4; eexists _, _;
    (split; [reflexivity|]); rewrite PrefixFrom_ok by (unfold BitLen; simpl; lia); apply Hgo.
  - apply (set_bit_value 4); [lia|lia|]. unfold span, BitLen, width in Ha. by rewrite E4 in Ha.
  - apply (set_bit_value 16); [lia|lia|]. unfold span, BitLen, width in Ha. by rewrite E4 in Ha.
Qed.

Lemma halves_inside p lower upper is4 x :
  halves p lower upper → (inside is4 x p ↔ inside is4 x lower ∨ inside is4 x upper).
Proof.
  intros H. destruct H. pose proof (span_pos _ lower_canonical0). unfold inside. split.
  - intros [Hf Hx]. destruct (Z.lt_ge_cases x (addr_val (prefix_Addr upper))); [left|right];
      (split; [congruence|lia]).
  - intros [[Hf Hx]|[Hf Hx]]; (split; [congruence|lia]).
Qed.

(** ** Tilings: canonical prefixes in increasing order, apart, inside a prefix *)

Definition before (p q : Prefix) : Prop :=
  addr_val (prefix_Addr p) + span p <= addr_val (prefix_Addr q).

Record tiles (base : Prefix) (parts : list Prefix) : Prop := {
  tiles_canonical : Forall canonical parts;
  tiles_inside : Forall (λ q, ∀ is4 x, inside is4 x q → inside is4 x base) parts;
  tiles_order : StronglySorted before parts;
}.

Definition covers (parts : list Prefix) (is4 : bool) (x : Z) : Prop := ∃ q, q ∈ parts ∧ inside is4 x q.

Lemma covers_app A B is4 x : covers (A ++ B) is4 x ↔ covers A is4 x ∨ covers B is4 x.
Proof. unfold covers. setoid_rewrite elem_of_app. naive_solver. Qed.

Lemma covers_nil is4 x : ¬ covers [] is4 x.
Proof. by intros (q & ?%elem_of_nil & _). Qed.

Lemma covers_singleton p is4 x : covers [p] is4 x ↔ inside is4 x p.
Proof. unfold covers. setoid_rewrite list_elem_of_singleton. naive_solver. Qed.

Lemma tiles_one p : canonical p → tiles p [p].
Proof. intros Hp. split; [by apply Forall_singleton|apply Forall_singleton; auto|repeat constructor]. Qed.

Lemma tiles_nil p : tiles p [].
Proof. split; constructor. Qed.

Lemma inside_range p q :
  canonical q → (∀ is4 x, inside is4 x q → inside is4 x p) →
  addr_val (prefix_Addr p) <= addr_val (prefix_Addr q) ∧
  addr_val (prefix_Addr q) + span q <= addr_val (prefix_Addr p) + span p.
Proof.
  intros Hq Hin. pose proof (span_pos q Hq).
  destruct (Hin (Is4 (prefix_Addr q)) (addr_val (prefix_Addr q))) as [_ ?]; [by apply inside_first|].
  destruct (Hin (Is4 (prefix_Addr q)) (addr_val (prefix_Addr q) + span q - 1)) as [_ ?]; [split; [done|lia]|]. lia.
Qed.

Lemma tiles_halves p lower upper A B :
  halves p lower upper → tiles lower A → tiles upper B → tiles p (A ++ B).
Proof.
  intros Hh [C1 I1 O1] [C2 I2 O2].
  assert (∀ is4 x, inside is4 x lower ∨ inside is4 x upper → inside is4 x p) as Hin
    by (intros is4 x; apply (halves_inside p lower upper is4 x Hh)).
  split.
  - by apply Forall_app.
  - apply Forall_app; split; eapply Forall_impl; eauto.
  - apply StronglySorted_app_2; [|done|done]. intros a b Ha Hb. unfold before.
    rewrite Forall_forall in C1, I1, C2, I2.
    pose proof (inside_range lower a (C1 _ Ha) (I1 _ Ha)). pose proof (inside_range upper b (C2 _ Hb) (I2 _ Hb)).
    destruct Hh. lia.
Qed.

Lemma bits_lt_of_overlap p d :
  canonical p → canonical d → Is4 (prefix_Addr p) = Is4 (prefix_Addr d) → Overlaps p d = true →
  (Bits d <=? Bits p) && Contains d (prefix_Addr p) = false → Bits p < Bits d.
Proof.
  intros Hp Hd Hf Ho Hc. destruct (Z.leb_spec (Bits d) (Bits p)) as [Hle|]; [|done]. simpl in Hc.
  rewrite Overlaps_sym in Ho. apply Overlaps_spec in Ho; [|done..].
  assert (Contains d (prefix_Addr p) = true); [|congruence].
  apply Contains_spec; [done|by apply canonical_addr|done].
Qed.

(** ** [subtractPrefix] removes exactly the denied addresses *)

Lemma subtractPrefix_spec fuel p d budget :
  canonical p → canonical d → Is4 (prefix_Addr p) = Is4 (prefix_Addr d) →
  (Z.to_nat (BitLen (prefix_Addr p) - Bits p) < fuel)%nat →
  match subtractPrefix fuel p d budget with
  | Ok parts => tiles p parts ∧ ∀ is4 x, covers parts is4 x ↔ inside is4 x p ∧ ¬ inside is4 x d
  | Err e => e = limit_exceeded
  end.
Proof.
  intros Hp Hd Hf. revert p budget Hp Hf. induction fuel as [|fuel IH]; intros p budget Hp Hf Hfuel; [lia|].
  cbn [subtractPrefix]. destruct (budget <? 0); [done|].
  destruct (Overlaps p d) eqn:Ho; simpl negb; cbv iota.
  2: { split; [by apply tiles_one|]. intros is4 x. rewrite covers_singleton.
       pose proof (Overlaps_apart p d Hp Hd Ho is4 x). tauto. }
  destruct ((Bits d <=? Bits p) && Contains d (prefix_Addr p)) eqn:Hc.
  { apply andb_true_iff in Hc as [Hle%Z.leb_le Hc]. split; [apply tiles_nil|]. intros is4 x.
    rewrite Overlaps_sym in Ho. pose proof (Overlaps_nested d p Hd Hp Hle Ho is4 x).
    pose proof (covers_nil is4 x). tauto. }
  pose proof (bits_lt_of_overlap p d Hp Hd Hf Ho Hc) as Hlt.
  assert (BitLen (prefix_Addr p) = BitLen (prefix_Addr d)) as Hw by (unfold BitLen, Is4 in *; by rewrite Hf).
  pose proof (canonical_bits _ Hd) as Hbd. pose proof (canonical_bits _ Hp) as Hbp.
  destruct (splitPrefix_halves p Hp ltac:(lia)) as (lo & up & -> & Hh).
  assert (BitLen (prefix_Addr lo) = BitLen (prefix_Addr p) ∧ BitLen (prefix_Addr up) = BitLen (prefix_Addr p)) as [Wl Wu].
  { destruct Hh. unfold BitLen, Is4 in *. by rewrite lower_family0, upper_family0. }
  pose proof (IH lo budget (lower_canonical _ _ _ Hh)) as IHl.
  rewrite (lower_family _ _ _ Hh), Wl, (lower_bits _ _ _ Hh) in IHl. specialize (IHl Hf ltac:(lia)).
  destruct (subtractPrefix fuel lo d budget) as [A|]; [|done].
  pose proof (IH up (budget - llen A) (upper_canonical _ _ _ Hh)) as IHu.
  rewrite (upper_family _ _ _ Hh), Wu, (upper_bits _ _ _ Hh) in IHu. specialize (IHu Hf ltac:(lia)).
  destruct (subtractPrefix fuel up d (budget - llen A)) as [B|]; [|done].
  destruct IHl as [TA CA], IHu as [TB CB]. split; [by eapply tiles_halves|].
  intros is4 x. rewrite covers_app, CA, CB, (halves_inside p lo up is4 x Hh). tauto.
Qed.

(** ** [splitToPrefix] cuts into equal parts, exactly when the budget allows *)

Lemma splitToPrefix_spec fuel p t budget :
  canonical p → t <= BitLen (prefix_Addr p) →
  (Z.to_nat (BitLen (prefix_Addr p) - Bits p) < fuel)%nat →
  let n := 2 ^ Z.max 0 (t - Bits p) in
  match splitToPrefix fuel p t budget with
  | Ok parts => n <= budget ∧ llen parts = n ∧ tiles p parts ∧ Forall (λ q, Bits q = Z.max t (Bits p)) parts ∧
      ∀ is4 x, covers parts is4 x ↔ inside is4 x p
  | Err e => e = limit_exceeded ∧ budget < n
  end.
Proof.
  revert p budget. induction fuel as [|fuel IH]; intros p budget Hp Ht Hfuel n; [lia|].
  cbn [splitToPrefix]. assert (1 <= n) as Hn1.
  { unfold n. pose proof (Z.pow_pos_nonneg 2 (Z.max 0 (t - Bits p)) ltac:(lia) ltac:(lia)). lia. }
  destruct (Z.ltb_spec budget 1) as [|Hbud]; [split; [done|lia]|].
  destruct (Z.leb_spec t (Bits p)) as [Hle|Hgt].
  { assert (n = 1) as Hn by (unfold n; by rewrite Z.max_l by lia).
    split; [lia|]. split; [done|]. split; [by apply tiles_one|].
    split; [apply Forall_singleton; lia|]. intros. apply covers_singleton. }
  pose proof (canonical_bits _ Hp) as Hbp.
  destruct (splitPrefix_halves p Hp ltac:(lia)) as (lo & up & -> & Hh).
  assert (BitLen (prefix_Addr lo) = BitLen (prefix_Addr p) ∧ BitLen (prefix_Addr up) = BitLen (prefix_Addr p)) as [Wl Wu].
  { destruct Hh. unfold BitLen, Is4 in *. by rewrite lower_family0, upper_family0. }
  assert (n = 2 * 2 ^ Z.max 0 (t - (Bits p + 1))) as Hn.
  { unfold n. rewrite !Z.max_r by lia. rewrite (half_span t (Bits p)) by lia. do 2 f_equal. lia. }
  set (h := 2 ^ Z.max 0 (t - (Bits p + 1))) in *.
  pose proof (IH lo budget (lower_canonical _ _ _ Hh)) as IHl.
  rewrite Wl, (lower_bits _ _ _ Hh) in IHl. specialize (IHl Ht ltac:(lia)). cbv zeta in IHl. fold h in IHl.
  destruct (splitToPrefix fuel lo t budget) as [A|]; [|split; [apply IHl|lia]].
  destruct IHl as (B1 & LA & TA & FA & CA).
  pose proof (IH up (budget - llen A) (upper_canonical _ _ _ Hh)) as IHu.
  rewrite Wu, (upper_bits _ _ _ Hh) in IHu. specialize (IHu Ht ltac:(lia)). cbv zeta in IHu. fold h in IHu.
  destruct (splitToPrefix fuel up t (budget - llen A)) as [B|]; [|split; [apply IHu|lia]].
  destruct IHu as (B2 & LB & TB & FB & CB).
  split; [lia|]. split; [unfold llen in *; rewrite length_app; lia|]. split; [by eapply tiles_halves|].
  split. { apply Forall_app; split; eapply Forall_impl; [exact FA| |exact FB|]; intros q ->; lia. }
  intros is4 x. by rewrite covers_app, CA, CB, (halves_inside p lo up is4 x Hh).
Qed.

(** ** Pairwise disjoint lists of prefixes *)

Definition apart (p q : Prefix) : Prop := ∀ is4 x, inside is4 x p → ¬ inside is4 x q.

Record disjoint_prefixes (l : list Prefix) : Prop := {
  disjoint_canonical : Forall canonical l;
  disjoint_apart : StronglySorted apart l;
}.

Lemma apart_sym p q : apart p q → apart q p.
Proof. intros H is4 x Hq Hp. by eapply H. Qed.

Lemma before_apart p q : canonical p → canonical q → before p q → apart p q.
Proof.
  intros Hp Hq Hb is4 x [_ Hx] [_ Hx']. unfold before in Hb. lia.
Qed.

Lemma StronglySorted_elem {A} (R S : A → A → Prop) l :
  (∀ x y, x ∈ l → y ∈ l → R x y → S x y) → StronglySorted R l → StronglySorted S l.
Proof.
  intros HRS. induction 1 as [|x l Hl IH Hx]; constructor.
  - apply IH. set_solver.
  - rewrite Forall_forall in *. intros y Hy. apply HRS; set_solver.
Qed.

Lemma tiles_disjoint p l : tiles p l → disjoint_prefixes l.
Proof.
  intros [Hc _ Ho]. split; [done|]. eapply StronglySorted_elem; [|exact Ho].
  rewrite Forall_forall in Hc. intros x y Hx Hy. by apply before_apart; auto.
Qed.

Lemma disjoint_app l k :
  disjoint_prefixes (l ++ k) ↔ disjoint_prefixes l ∧ disjoint_prefixes k ∧
    ∀ p q, p ∈ l → q ∈ k → apart p q.
Proof.
  split.
  - intros [Hc%Forall_app Ha%StronglySorted_app]. destruct Hc, Ha as (?&?&?). by repeat split.
  - intros ([] & [] & Hx). split; [by apply Forall_app|]. by apply StronglySorted_app_2.
Qed.

Lemma disjoint_perm l k : l ≡ₚ k → disjoint_prefixes l → disjoint_prefixes k.
Proof.
  induction 1 as [|p l k Hlk IH|p q l|l k m _ IH1 _ IH2]; auto.
  - intros [[Hp Hl]%Forall_cons [Ha Hx]%StronglySorted_cons].
    destruct IH as [IHc IHa]; [by split|]. split; [by apply Forall_cons|]. constructor; [done|].
    by rewrite <-Hlk.
  - intros [[Hp [Hq Hl]%Forall_cons]%Forall_cons [[Hpq Hpl]%Forall_cons [Hql Hs]%StronglySorted_cons]%StronglySorted_cons].
    split; [by repeat (apply Forall_cons; split)|].
    constructor; [by constructor|]. apply Forall_cons; split; [by apply apart_sym|done].
Qed.

(** Cutting one prefix of a disjoint list into parts of itself. *)
Lemma disjoint_refine N c P C :
  tiles c P → disjoint_prefixes (N ++ c :: C) → disjoint_prefixes ((N ++ P) ++ C).
Proof.
  intros HP. rewrite disjoint_app. intros (HN & HcC & HNcC).
  change (c :: C) with ([c] ++ C) in HcC. apply disjoint_app in HcC as (_ & HC & HcC).
  pose proof (tiles_inside _ _ HP) as Hin. rewrite Forall_forall in Hin.
  rewrite !disjoint_app. split; [split; [done|split; [by eapply tiles_disjoint|]]|split; [done|]].
  - intros p q Hp Hq is4 x Hx Hx'. eapply (HNcC p c); [done|by left|exact Hx|by eapply Hin].
  - intros p q [Hp|Hp]%elem_of_app Hq; [by apply HNcC; [|right]|].
    intros is4 x Hx Hx'. eapply (HcC c q); [by left|done|by eapply Hin|done].
Qed.

(** ** [removeCovered] *)

#[export] Instance addr_less_weak : StrictWeak addr_less.
Proof. unfold addr_less. apply _. Qed.
#[export] Instance family_bits_addr_weak : StrictWeak family_bits_addr.
Proof. unfold family_bits_addr. apply _. Qed.
#[export] Instance family_addr_bits_weak : StrictWeak family_addr_bits.
Proof. unfold family_addr_bits. apply _. Qed.

Lemma BitLen_family a b : BitLen a = BitLen b ↔ Is4 a = Is4 b.
Proof. unfold BitLen, width, Is4. destruct (addr_is4 a), (addr_is4 b); split; lia || done. Qed.

Lemma sorted_bits p q :
  not_after family_bits_addr p q → Is4 (prefix_Addr p) = Is4 (prefix_Addr q) → Bits p <= Bits q.
Proof.
  unfold not_after, family_bits_addr, less_then, less_on. intros H Hf%BitLen_family.
  rewrite Hf, Z.ltb_irrefl in H. destruct (Z.ltb_spec (Bits q) (Bits p)); [done|lia].
Qed.

Lemma covered_by_spec p e :
  canonical p → canonical e → Bits e <= Bits p →
  if covered_by p e then ∀ is4 x, inside is4 x p → inside is4 x e
  else Is4 (prefix_Addr e) = Is4 (prefix_Addr p) → apart e p.
Proof.
  intros Hp He Hle. unfold covered_by.
  destruct (Z.eqb_spec (BitLen (prefix_Addr e)) (BitLen (prefix_Addr p))) as [Hf%BitLen_family|Hf]; simpl.
  - pose proof (Contains_spec e (prefix_Addr p) He (canonical_addr _ Hp)) as Hc.
    pose proof (Overlaps_spec e p He Hp Hle) as Ho.
    destruct (Contains e (prefix_Addr p)); [|intros _].
    + apply Overlaps_nested; [done..|]. by apply Ho, Hc.
    + intros is4 x. apply Overlaps_apart; [done..|]. destruct (Overlaps e p); [|done].
      destruct Hc as [_ Hc]. discriminate Hc. by apply Ho.
  - intros Hf'%BitLen_family. done.
Qed.

Lemma removeCovered_fold l :
  Forall canonical l → StronglySorted (not_after family_bits_addr) l →
  let r := foldl keep_uncovered [] l in
  disjoint_prefixes r ∧ (∀ p, p ∈ r → p ∈ l) ∧ ∀ is4 x, covers r is4 x ↔ covers l is4 x.
Proof.
  induction l as [|p l IH] using rev_ind; intros Hc Hs; [by repeat split; try constructor|].
  apply Forall_app in Hc as [Hc [Hp _]%Forall_cons].
  apply StronglySorted_app in Hs as (Hlp & Hs & _). destruct (IH Hc Hs) as (Hd & Hsub & Hcov).
  cbv zeta. rewrite foldl_app. cbn [foldl]. set (r := foldl keep_uncovered [] l) in *.
  assert (∀ e, e ∈ r → canonical e) as Hrc.
  { intros e He. rewrite Forall_forall in Hc. auto. }
  assert (∀ e, e ∈ r → Is4 (prefix_Addr e) = Is4 (prefix_Addr p) → Bits e <= Bits p) as Hle.
  { intros e He Hf. apply sorted_bits; [|done]. apply Hlp; [auto|set_solver]. }
  unfold keep_uncovered. destruct (existsb (covered_by p) r) eqn:Ex.
  - split; [done|]. split; [set_solver|]. intros is4 x. rewrite covers_app, covers_singleton, Hcov.
    apply existsb_elem_of in Ex as (e & He & Hcb). split; [auto|]. intros [?|Hx]; [done|].
    apply Hcov. exists e. split; [done|]. destruct (decide (Is4 (prefix_Addr e) = Is4 (prefix_Addr p))) as [Hf|Hf].
    + pose proof (covered_by_spec p e Hp (Hrc e He) (Hle e He Hf)) as Hcs. rewrite Hcb in Hcs. by apply Hcs.
    + unfold covered_by in Hcb. apply andb_true_iff in Hcb as [Hcb _]. apply Z.eqb_eq, BitLen_family in Hcb. done.
  - split; [|split; [set_solver|intros is4 x; by rewrite !covers_app, Hcov]].
    apply disjoint_app. split; [done|]. split; [split; [by apply Forall_singleton|repeat constructor]|].
    intros e q He Hq. apply list_elem_of_singleton in Hq as ->.
    destruct (decide (Is4 (prefix_Addr e) = Is4 (prefix_Addr p))) as [Hf|Hf].
    + pose proof (covered_by_spec p e Hp (Hrc e He) (Hle e He Hf)) as Hcs.
      destruct (covered_by p e) eqn:Hcb; [|by apply Hcs].
      assert (existsb (covered_by p) r = true); [|congruence]. apply existsb_elem_of. eauto.
    + intros is4 x [H1 _] [H2 _]. congruence.
Qed.

Lemma covers_perm l k is4 x : l ≡ₚ k → (covers l is4 x ↔ covers k is4 x).
Proof. intros Hp. unfold covers. by setoid_rewrite Hp. Qed.

Lemma removeCovered_spec l :
  Forall canonical l →
  disjoint_prefixes (removeCovered l) ∧ ∀ is4 x, covers (removeCovered l) is4 x ↔ covers l is4 x.
Proof.
  intros Hc. destruct (removeCovered_fold (sort_by family_bits_addr l)) as (Hd & _ & Hcov).
  - by rewrite sort_by_perm.
  - apply sort_by_sorted, _.
  - split; [done|]. intros is4 x. unfold removeCovered. rewrite Hcov.
    apply covers_perm. apply sort_by_perm.
Qed.

(** Equal prefixes aside, the sort is determined by the members: the order of the
    input does not matter. *)
Lemma addr_less_sep a b : addr_less a b = false → addr_less b a = false → BitLen a = BitLen b ∧ addr_val a = addr_val b ∧ Zone a = Zone b.
Proof.
  unfold addr_less. intros H1 H2. destruct (less_then_sep _ _ _ _ H1 H2) as ([A1 A2] & B1 & B2).
  destruct (less_then_sep _ _ _ _ B1 B2) as ([C1 C2] & D1 & D2). unfold less_on in *. bool_facts.
  split; [lia|]. split; [lia|]. by apply str_lt_sep.
Qed.

Lemma addr_sep a b : addr_less a b = false → addr_less b a = false → a = b.
Proof. intros H1 H2. destruct (addr_less_sep a b H1 H2) as (?%BitLen_family & ? & ?). by apply addr_eq. Qed.

Lemma prefix_sep p q :
  family_bits_addr p q = false → family_bits_addr q p = false → p = q.
Proof.
  intros H1 H2. destruct (less_then_sep _ _ _ _ H1 H2) as ([A1 A2] & B1 & B2).
  destruct (less_then_sep _ _ _ _ B1 B2) as ([C1 C2] & D1 & D2). unfold less_on in *.
  apply addr_sep in D1; [|done]. destruct p as [a b], q as [a' b']. simpl in *. bool_facts. f_equal; [done|lia].
Qed.

Lemma removeCovered_perm l k : l ≡ₚ k → removeCovered l = removeCovered k.
Proof.
  intros Hp. unfold removeCovered. f_equal. apply sort_by_unique; [apply _| |done].
  intros p q _ _. apply prefix_sep.
Qed.

(** ** The loops of [PlanTargetPartitions] *)

Definition too_many_excluded : string := "target scope exceeds %d partitions after exclusions".
Definition too_many : string := "target scope exceeds %d partitions".
Definition limit_error (e : string) : Prop := e = limit_exceeded ∨ e = too_many_excluded ∨ e = too_many.

Lemma exclude_one_spec d maximum C N :
  canonical d → disjoint_prefixes (N ++ C) →
  match exclude_one d maximum C N with
  | Ok R => disjoint_prefixes R ∧
      ∀ is4 x, covers R is4 x ↔ covers N is4 x ∨ (covers C is4 x ∧ ¬ inside is4 x d)
  | Err e => limit_error e
  end.
Proof.
  intros Hd. revert N. induction C as [|c C IH]; intros N HNC; cbn [exclude_one].
  { rewrite app_nil_r in HNC. split; [done|]. intros is4 x. pose proof (covers_nil is4 x). tauto. }
  assert (canonical c) as Hc.
  { pose proof (disjoint_canonical _ HNC) as H. rewrite Forall_forall in H. apply H. set_solver. }
  assert (∀ is4 x, covers (c :: C) is4 x ↔ inside is4 x c ∨ covers C is4 x) as Hcons.
  { intros is4 x. change (c :: C) with ([c] ++ C). by rewrite covers_app, covers_singleton. }
  destruct (negb _ || negb _) eqn:Hskip.
  - specialize (IH (N ++ [c])). rewrite <-app_assoc in IH. specialize (IH HNC).
    destruct (exclude_one _ _ _ _); [|done]. destruct IH as [HR Hcov]. split; [done|].
    intros is4 x. rewrite Hcov, covers_app, covers_singleton, Hcons.
    assert (inside is4 x c → ¬ inside is4 x d); [|tauto].
    destruct (Z.eqb_spec (BitLen (prefix_Addr c)) (BitLen (prefix_Addr d))) as [Hf|Hf].
    + apply (Overlaps_apart c d Hc Hd). by apply negb_true_iff.
    + intros [H1 _] [H2 _]. apply Hf. rewrite BitLen_family. congruence.
  - apply orb_false_iff in Hskip as [Hf%negb_false_iff _]. apply Z.eqb_eq, BitLen_family in Hf.
    pose proof (subtractPrefix_spec (prefix_fuel c) c d (maximum - llen N) Hc Hd Hf
      ltac:(unfold prefix_fuel; lia)) as Hsub.
    destruct (subtractPrefix _ _ _ _) as [P|]; [|by left]. destruct Hsub as [HP HPc].
    destruct (maximum <? llen (N ++ P)); [by right; left|].
    specialize (IH (N ++ P) (disjoint_refine N c P C HP HNC)).
    destruct (exclude_one _ _ _ _); [|done]. destruct IH as [HR Hcov]. split; [done|].
    intros is4 x. rewrite Hcov, covers_app, HPc, Hcons. tauto.
Qed.

Lemma exclude_all_spec ex maximum A :
  Forall canonical ex → disjoint_prefixes A →
  match exclude_all ex maximum A with
  | Ok R => disjoint_prefixes R ∧ ∀ is4 x, covers R is4 x ↔ covers A is4 x ∧ ¬ covers ex is4 x
  | Err e => limit_error e
  end.
Proof.
  intros Hex. revert A. induction Hex as [|d ex Hd Hex IH]; intros A HA; cbn [exclude_all].
  { split; [done|]. intros is4 x. pose proof (covers_nil is4 x). tauto. }
  pose proof (exclude_one_spec d maximum A [] Hd HA) as H1.
  destruct (exclude_one _ _ _ _) as [B|]; [|done]. destruct H1 as [HB HBc].
  specialize (IH B HB). destruct (exclude_all _ _ _); [|done]. destruct IH as [HR Hcov].
  split; [done|]. intros is4 x. rewrite Hcov, HBc. change (d :: ex) with ([d] ++ ex).
  rewrite covers_app, covers_singleton. pose proof (covers_nil is4 x). tauto.
Qed.

Definition target_bits (v4 v6 : Z) (p : Prefix) : Z := if Is4 (prefix_Addr p) then v4 else v6.

Lemma tiles_family p parts q : tiles p parts → q ∈ parts → Is4 (prefix_Addr q) = Is4 (prefix_Addr p).
Proof.
  intros [Hc Hi _] Hq. rewrite Forall_forall in Hc, Hi.
  by destruct (Hi q Hq (Is4 (prefix_Addr q)) (addr_val (prefix_Addr q))); [apply inside_first, Hc|].
Qed.

Lemma split_all_spec v4 v6 maximum A N :
  v4 <= 32 → v6 <= 128 → disjoint_prefixes (N ++ A) →
  Forall (λ q, target_bits v4 v6 q <= Bits q) N → llen N <= maximum →
  match split_all v4 v6 maximum A N with
  | Ok R => disjoint_prefixes R ∧ llen R <= maximum ∧ Forall (λ q, target_bits v4 v6 q <= Bits q) R ∧
      ∀ is4 x, covers R is4 x ↔ covers N is4 x ∨ covers A is4 x
  | Err e => limit_error e
  end.
Proof.
  intros H4 H6. revert N. induction A as [|p A IH]; intros N HNA Hb Hlen; cbn [split_all].
  { rewrite app_nil_r in HNA. split; [done|]. split; [done|]. split; [done|].
    intros is4 x. pose proof (covers_nil is4 x). tauto. }
  assert (canonical p) as Hp.
  { pose proof (disjoint_canonical _ HNA) as H. rewrite Forall_forall in H. apply H. set_solver. }
  assert (target_bits v4 v6 p <= BitLen (prefix_Addr p)) as Ht.
  { unfold target_bits, BitLen, Is4, width. by destruct (addr_is4 _). }
  pose proof (splitToPrefix_spec (prefix_fuel p) p (target_bits v4 v6 p) (maximum - llen N) Hp Ht
    ltac:(unfold prefix_fuel; lia)) as Hs. cbv zeta in Hs. fold (target_bits v4 v6 p).
  destruct (splitToPrefix _ _ _ _) as [P|]; [|left; apply Hs].
  destruct Hs as (_ & _ & HP & HPb & HPc).
  destruct (Z.ltb_spec maximum (llen (N ++ P))) as [|Hle]; [by right; right|].
  specialize (IH (N ++ P) (disjoint_refine N p P A HP HNA)).
  destruct (split_all _ _ _ _ _); [|apply IH; [|done]]. 1: destruct IH as (HR & HRl & HRb & Hcov); [|done|].
  1, 3: apply Forall_app; split; [done|]; rewrite Forall_forall in *; intros q Hq;
    rewrite (HPb q Hq); unfold target_bits; rewrite (tiles_family p P q HP Hq); lia.
  split; [done|]. split; [done|]. split; [done|]. intros is4 x.
  rewrite Hcov, covers_app, HPc. change (p :: A) with ([p] ++ A). rewrite covers_app, covers_singleton. tauto.
Qed.

(** ** Scopes *)

(** The addresses a CIDR text stands for: those with the same leading bits. *)
Definition in_cidr (s : string) (is4 : bool) (x : Z) : Prop :=
  ∃ p, ParsePrefix s = Some p ∧ Is4 (prefix_Addr p) = is4 ∧
    x / span p = addr_val (prefix_Addr p) / span p.

Lemma parsePrefixes_spec values l :
  parsePrefixes values = Ok l →
  Forall canonical l ∧ ∀ is4 x, covers l is4 x ↔ ∃ s, s ∈ values ∧ in_cidr s is4 x.
Proof.
  revert l. induction values as [|s values IH]; intros l; simpl.
  { intros [= <-]. split; [constructor|]. intros is4 x. pose proof (covers_nil is4 x). set_solver. }
  destruct (ParsePrefix s) as [p|] eqn:Ep; [|done]. destruct (negb _); [done|].
  destruct (parsePrefixes values) as [k|]; [|done]. intros [= <-].
  destruct (IH k eq_refl) as [Hk Hcov]. destruct (ParsePrefix_range s p Ep) as (Hv & _ & Hb).
  destruct (Masked_canonical p Hv Hb) as (Hm & _ & _ & Hin).
  split; [by constructor|]. intros is4 x. change (Masked p :: k) with ([Masked p] ++ k).
  rewrite covers_app, covers_singleton, Hcov, Hin. setoid_rewrite elem_of_cons. unfold in_cidr.
  split.
  - intros [H|(t & Ht & H)]; [exists s; split; [by left|]; eauto|eauto].
  - intros (t & [->|Ht] & H); [left|right; eauto]. destruct H as (q & Hq & H). congruence.
Qed.

Lemma parsePrefixes_error values e : parsePrefixes values = Err e → e = "invalid CIDR %q"%string.
Proof.
  revert e. induction values as [|s values IH]; intros e; simpl; [done|].
  destruct (ParsePrefix s); [|congruence]. destruct (negb _); [congruence|].
  destruct (parsePrefixes values); [done|]. intros [= <-]. by apply IH.
Qed.

Lemma parsePrefixes_perm v w :
  v ≡ₚ w →
  match parsePrefixes v, parsePrefixes w with
  | Ok l, Ok k => l ≡ₚ k
  | Err e, Err f => e = f
  | _, _ => False
  end.
Proof.
  assert (∀ v, parsePrefixes v = Err "invalid CIDR %q"%string ∨ ∃ l, parsePrefixes v = Ok l) as Hcase.
  { intros u. destruct (parsePrefixes u) eqn:E; [eauto|]. apply parsePrefixes_error in E as ->. by left. }
  induction 1 as [|s v w _ IH|s t v|u v w _ IH1 _ IH2]; simpl; try done.
  - destruct (ParsePrefix s); [|done]. destruct (negb _); [done|].
    destruct (parsePrefixes v), (parsePrefixes w); try done. by constructor.
  - destruct (ParsePrefix s), (ParsePrefix t); simpl; try done; repeat (destruct (negb _); simpl; try done);
      destruct (Hcase v) as [->|[l ->]]; try done; constructor.
  - destruct (parsePrefixes u), (parsePrefixes v), (parsePrefixes w); try done; etrans; eauto.
Qed.

(** Errors of a scope that is refused before planning. *)
Definition scope_errors : list string :=
  ["target scope ID is invalid"; "target scope revision must be between 1 and 1000000";
   "target scope must contain 1-%d CIDRs and at most %d exclusions";
   "target partition prefixes must be IPv4 /8-/32 and IPv6 /32-/128";
   "maximum partitions must be between 1 and %d"; "invalid CIDR %q"]%string.

Record planned_for (scope : TargetScope) (planned : list Prefix) : Prop := {
  planned_disjoint : disjoint_prefixes planned;
  planned_sorted : StronglySorted (not_after family_addr_bits) planned;
  planned_bound : llen planned <= or_default (MaxPartitions scope) DefaultMaxPartitions;
  planned_bits : Forall (λ q, target_bits (or_default (IPv4PartitionPrefix scope) DefaultIPv4PartitionPrefix)
    (or_default (IPv6PartitionPrefix scope) DefaultIPv6PartitionPrefix) q <= Bits q) planned;
  planned_covers is4 x : covers planned is4 x ↔
    (∃ s, s ∈ Scope_CIDRs scope ∧ in_cidr s is4 x) ∧ ¬ (∃ s, s ∈ Exclusions scope ∧ in_cidr s is4 x);
}.

Lemma plan_prefixes_spec scope :
  match plan_prefixes scope with
  | Ok planned => planned_for scope planned
  | Err e => e ∈ scope_errors ∨ limit_error e
  end.
Proof.
  unfold plan_prefixes. unfold scope_errors.
  destruct (negb _); [left; set_solver|]. destruct (_ || _); [left; set_solver|].
  destruct (_ || _ || _); [left; set_solver|].
  set (v4 := or_default _ DefaultIPv4PartitionPrefix). set (v6 := or_default _ DefaultIPv6PartitionPrefix).
  destruct ((v4 <? 8) || _ || _ || _) eqn:Eb; [left; set_solver|]. bool_facts.
  set (m := or_default _ DefaultMaxPartitions). destruct ((m <? 1) || _) eqn:Em; [left; set_solver|]. bool_facts.
  destruct (parsePrefixes (Scope_CIDRs scope)) as [inc|e] eqn:Ei;
    [|left; apply parsePrefixes_error in Ei as ->; set_solver].
  destruct (parsePrefixes (Exclusions scope)) as [exc|e] eqn:Ee;
    [|left; apply parsePrefixes_error in Ee as ->; set_solver].
  apply parsePrefixes_spec in Ei as [Hi Hic], Ee as [He Hec].
  destruct (removeCovered_spec inc Hi) as [HI HIc]. destruct (removeCovered_spec exc He) as [HE HEc].
  pose proof (exclude_all_spec (removeCovered exc) m (removeCovered inc) (disjoint_canonical _ HE) HI) as Hx.
  destruct (exclude_all _ _ _) as [allowed|]; [|by right]. destruct Hx as [HA HAc].
  pose proof (split_all_spec v4 v6 m allowed [] ltac:(lia) ltac:(lia) HA ltac:(constructor)
    ltac:(unfold llen; simpl; lia)) as Hs.
  destruct (split_all _ _ _ _ _) as [planned|]; [|by right]. destruct Hs as (HP & HPl & HPb & HPc).
  pose proof (sort_by_perm family_addr_bits planned) as Hperm. fold (sortPrefixes planned) in Hperm.
  split.
  - by eapply disjoint_perm.
  - apply sort_by_sorted, _.
  - unfold llen. by rewrite Hperm.
  - by rewrite Hperm.
  - intros is4 x. rewrite (covers_perm _ _ is4 x Hperm), HPc, HAc, HIc, HEc, Hic, Hec.
    pose proof (covers_nil is4 x). tauto.
Qed.

Lemma plan_prefixes_perm scope cidrs exclusions :
  Scope_CIDRs scope ≡ₚ cidrs → Exclusions scope ≡ₚ exclusions →
  plan_prefixes (mkTargetScope (ScopeID scope) (Revision scope) cidrs exclusions
    (IPv4PartitionPrefix scope) (IPv6PartitionPrefix scope) (MaxPartitions scope)) = plan_prefixes scope.
Proof.
  intros Hc He. unfold plan_prefixes. simpl. unfold llen. rewrite <-Hc, <-He.
  destruct (negb _); [done|]. destruct (_ || _); [done|]. destruct (_ || _ || _); [done|].
  destruct (_ || _ || _ || _); [done|]. destruct (_ || _); [done|].
  pose proof (parsePrefixes_perm _ _ Hc) as Pc. pose proof (parsePrefixes_perm _ _ He) as Pe.
  destruct (parsePrefixes (Scope_CIDRs scope)), (parsePrefixes cidrs); try done; [|by subst].
  destruct (parsePrefixes (Exclusions scope)), (parsePrefixes exclusions); try done; [|by subst].
  by rewrite (removeCovered_perm _ _ Pc), (removeCovered_perm _ _ Pe).
Qed.

(** ** Theorems *)

(** C1: planning is exact.  The planned partitions cover precisely the addresses of
    the scope's CIDRs that no exclusion contains, in both families; they are
    canonical, pairwise disjoint and in address order, no larger than the requested
    partition size, and at most as many as allowed. *)
Theorem plan_exact (scope : TargetScope) (planned : list Prefix) :
  plan_prefixes scope = Ok planned → planned_for scope planned.
Proof. intros H. pose proof (plan_prefixes_spec scope) as Hs. by rewrite H in Hs. Qed.

(** Planning terminates and fails only as documented: a rejected scope, an
    invalid CIDR or too many partitions.  The recursion never runs out of halvings
    and never tries to split a host prefix. *)
Theorem plan_total (scope : TargetScope) (e : string) :
  plan_prefixes scope = Err e → e ∈ scope_errors ∨ limit_error e.
Proof. intros H. pose proof (plan_prefixes_spec scope) as Hs. by rewrite H in Hs. Qed.

(** The plan is a function of the sets of CIDRs and exclusions: listing them in
    another order gives the same partitions, with the same keys and ordinals. *)
Theorem plan_order_independent (scope : TargetScope) (cidrs exclusions : list string) :
  Scope_CIDRs scope ≡ₚ cidrs → Exclusions scope ≡ₚ exclusions →
  PlanTargetPartitions (mkTargetScope (ScopeID scope) (Revision scope) cidrs exclusions
    (IPv4PartitionPrefix scope) (IPv6PartitionPrefix scope) (MaxPartitions scope)) =
  PlanTargetPartitions scope.
Proof.
  intros Hc He. unfold PlanTargetPartitions. by rewrite (plan_prefixes_perm scope cidrs exclusions Hc He).
Qed.

(** The partitions handed out are numbered from zero, carry their total, and each
    names one canonical CIDR: that of the planned prefix of the same number. *)
Theorem PlanTargetPartitions_spec (scope : TargetScope) (parts : list TargetPartition) (i : nat) :
  PlanTargetPartitions scope = Ok parts →
  ∃ planned, plan_prefixes scope = Ok planned ∧ llen parts = llen planned ∧
    parts !! i = (λ q, mkTargetPartition (partition_key scope (Prefix_String q)) (Z.of_nat i)
      (llen parts) [Prefix_String q]) <$> planned !! i.
Proof.
  unfold PlanTargetPartitions. pose proof (plan_prefixes_spec scope) as Hs.
  destruct (plan_prefixes scope) as [planned|]; [|done]. intros [= <-]. exists planned.
  assert (llen (imap (make_partition scope (llen planned)) planned) = llen planned) as Hl
    by (unfold llen; by rewrite length_imap).
  split; [done|]. split; [done|]. rewrite Hl, list_lookup_imap.
  destruct (planned !! i) as [q|] eqn:Eq; [|done]. simpl. unfold make_partition.
  pose proof (disjoint_canonical _ (planned_disjoint _ _ Hs)) as Hc. rewrite Forall_forall in Hc.
  by rewrite Masked_id by (apply Hc; by eapply list_elem_of_lookup_2).
Qed.

(** Cutting a prefix into parts of [targetBits] succeeds exactly when the number
    of parts, a power of two, is within the budget; it then gives that many parts. *)
Theorem splitToPrefix_budget (p : Prefix) (targetBits budget : Z) :
  canonical p → targetBits <= BitLen (prefix_Addr p) →
  let n := 2 ^ Z.max 0 (targetBits - Bits p) in
  (n <= budget ↔ is_ok (splitToPrefix (prefix_fuel p) p targetBits budget) = true) ∧
  ∀ parts, splitToPrefix (prefix_fuel p) p targetBits budget = Ok parts →
    llen parts = n ∧ ∀ is4 x, covers parts is4 x ↔ inside is4 x p.
Proof.
  intros Hp Ht n.
  pose proof (splitToPrefix_spec (prefix_fuel p) p targetBits budget Hp Ht ltac:(unfold prefix_fuel; lia)) as Hs.
  cbv zeta in Hs. fold n in Hs. destruct (splitToPrefix _ _ _ _) as [parts|e]; simpl.
  - destruct Hs as (Hn & Hl & _ & _ & Hc). split; [done|]. intros ? [= <-]. done.
  - destruct Hs as [_ Hlt]. split; [|done]. split; [lia|done].
Qed.

(** ** Witnesses *)

Definition planned_example : list Prefix :=
  match plan_prefixes example_scope with Ok l => l | Err _ => [] end.

Lemma plan_exact_witness :
  llen planned_example = 6 ∧ llen planned_example <= 10 ∧ disjoint_prefixes planned_example.
Proof.
  split; [vm_compute; reflexivity|].
  assert (plan_prefixes example_scope = Ok planned_example) as H by (vm_compute; reflexivity).
  pose proof (plan_exact example_scope planned_example H) as Hp.
  split; [exact (planned_bound _ _ Hp)|exact (planned_disjoint _ _ Hp)].
Defined.

Lemma plan_total_witness :
  let scope := mkTargetScope "scope-1" 1 ["10.0.0.0/8"%string] [] 24 64 10 in
  plan_prefixes scope = Err limit_exceeded ∧ (limit_exceeded ∈ scope_errors ∨ limit_error limit_exceeded).
Proof.
  assert (plan_prefixes (mkTargetScope "scope-1" 1 ["10.0.0.0/8"%string] [] 24 64 10) = Err limit_exceeded) as H
    by (vm_compute; reflexivity).
  split; [exact H|]. exact (plan_total _ _ H).
Defined.

Lemma plan_order_independent_witness :
  PlanTargetPartitions (mkTargetScope "scope-1" 1 (reverse (Scope_CIDRs example_scope))
    (reverse (Exclusions example_scope)) 24 64 10) = PlanTargetPartitions example_scope.
Proof. apply (plan_order_independent example_scope); symmetry; apply reverse_Permutation. Defined.

Lemma PlanTargetPartitions_spec_witness :
  match PlanTargetPartitions example_scope with
  | Ok parts => CIDRs <$> parts !! 2%nat = Some ["10.0.2.64/26"%string] ∧
      ∃ planned, plan_prefixes example_scope = Ok planned ∧ llen parts = llen planned
  | Err _ => False
  end.
Proof.
  destruct (PlanTargetPartitions example_scope) as [parts|] eqn:E; [|vm_compute in E; discriminate].
  destruct (PlanTargetPartitions_spec example_scope parts 2 E) as (planned & Hp & Hl & _).
  split; [|exists planned; exact (conj Hp Hl)]. clear Hp. apply (f_equal (λ r, r' ← result_option r; CIDRs <$> r' !! 2%nat)) in E.
  vm_compute in E. symmetry. exact E.
Defined.

Definition example_prefix : Prefix := mkPrefix (mkAddr true 167772160 "") 22.

Lemma splitToPrefix_budget_witness :
  is_ok (splitToPrefix (prefix_fuel example_prefix) example_prefix 24 4) = true ∧
  is_ok (splitToPrefix (prefix_fuel example_prefix) example_prefix 24 3) = false.
Proof.
  assert (canonical example_prefix) as Hc.
  { split; [split; [split; [discriminate|reflexivity]|reflexivity]|split; discriminate|exists 163840; reflexivity]. }
  split.
  - apply (splitToPrefix_budget example_prefix 24 4 Hc); discriminate.
  - vm_compute. reflexivity.
Defined.
