(* ===== verification/Servicenow.v ===== *)
(** * [pkg/publisher/servicenow]: from observations to one IRE request

    [input.go] and the mapping half of [servicenow.go]: the bounded decoding of
    observation lines, the validation of envelopes, and [mapPayload], which builds
    the items and relations of one identification-and-reconciliation request.  What
    [encoding/json] makes of a line is an argument of [DecodeJSONLines].  Times are
    formatted in UTC. *)

From S2P Require Import Prelude Bytes Time Model.

(** ** Bounds *)

Definition MaxEnvelopes : Z := 100.
Definition MaxItems : Z := 1000.
Definition MaxRelations : Z := 2000.
Definition MaxInputBytes : Z := 10 * 2 ^ 20.
Definition MaxRecordBytes : Z := 2 ^ 20.
Definition MaxJSONDepth : Z := 64.
Definition maxIdentityLen : Z := 1024.
Definition maxNameLen : Z := 1024.

(** ** The payload *)

Record IREItem := mkIREItem {
  ClassName : string;
  Values : gmap string any;
  SourceName : string;
  SourceNativeKey : string;
}.
Record IRERelation := mkIRERelation {
  Relation_Type : string;
  Parent : Z;
  Child : Z;
}.
Record IREPayload := mkIREPayload {
  Items : list IREItem;
  Relations : list IRERelation;
}.

Definition classFor (t : AssetType) : option string :=
  if String.eqb t AssetHost then Some "cmdb_ci_computer"%string
  else if String.eqb t AssetNetworkInterface then Some "cmdb_ci_network_adapter"%string
  else None.

Definition relationFor (t : string) : option string :=
  if String.eqb t "host_has_interface" then Some "Owns::Owned by"%string else None.

(** ** Validation *)

Definition validIdentity (value : string) : bool :=
  negb (bool_decide (value = ""%string)) && (slen value <=? maxIdentityLen)
  && negb (existsb is_control (runes value)).

Definition mac_ok (asset : Asset) : bool :=
  match Asset_Attributes asset !! "mac_address"%string with
  | None => true
  | Some (any_string mac) => (slen mac <=? 128) && negb (existsb is_control (runes mac))
  | Some _ => false
  end.

(** One asset: the checks, and the types seen so far by native ID. *)
Definition validate_asset (assetTypes : gmap string AssetType) (asset : Asset) : go (gmap string AssetType) :=
  reject bool_decide (classFor (Asset_Type asset) = None)
    with "envelope %d asset %d has unsupported ServiceNow asset type %q"%string ;;
  reject negb (validIdentity (Asset_NativeID asset))
    with "envelope %d asset %d native_id must be 1 to %d bytes and contain no control characters"%string ;;
  reject (maxNameLen <? slen (Asset_Name asset)) || existsb is_control (runes (Asset_Name asset))
    with "envelope %d asset %d name exceeds %d bytes or contains control characters"%string ;;
  reject String.eqb (Asset_Type asset) AssetNetworkInterface && negb (mac_ok asset)
    with "envelope %d asset %d mac_address must be a string of at most 128 bytes without control characters"%string ;;
  reject match assetTypes !! Asset_NativeID asset with
         | Some previous => negb (String.eqb previous (Asset_Type asset)) | None => false end
    with "source_native_key %q changes ServiceNow class from %q to %q"%string ;;
  let assetTypes := <[Asset_NativeID asset := Asset_Type asset]> assetTypes in
  reject MaxItems <? Z.of_nat (size assetTypes) with "ServiceNow IRE request exceeds %d unique items"%string ;;
  Ok assetTypes.

Fixpoint validate_assets (assetTypes : gmap string AssetType) (assets : list Asset) : go (gmap string AssetType) :=
  match assets with
  | [] => Ok assetTypes
  | asset :: assets =>
    try assetTypes := validate_asset assetTypes asset ;; validate_assets assetTypes assets
  end.

Fixpoint validate_envelope_assets (assetTypes : gmap string AssetType) (es : list ObservationEnvelope)
    : go (gmap string AssetType) :=
  match es with
  | [] => Ok assetTypes
  | e :: es =>
    reject negb (String.eqb (Envelope_SchemaVersion e) SchemaVersion)
      with "envelope %d has unsupported schema_version %q"%string ;;
    reject negb (forallb validIdentity
             [Envelope_ObservationID e; Envelope_SiteID e; Envelope_CollectorID e; Envelope_Plugin e])
      with "envelope %d %s must be 1 to %d bytes and contain no control characters"%string ;;
    reject IsZero (Envelope_ObservedAt e) with "envelope %d observed_at is required"%string ;;
    try assetTypes := validate_assets assetTypes (Envelope_Assets e) ;;
    validate_envelope_assets assetTypes es
  end.

Abbreviation relationKey := (string * string * string)%type (only parsing).

Definition key_of_relation (r : Relationship) : relationKey :=
  (Relationship_Type r, Relationship_FromNativeID r, Relationship_ToNativeID r).

Definition validate_relation (assetTypes : gmap string AssetType) (seen : gset relationKey) (r : Relationship)
    : go (gset relationKey) :=
  reject bool_decide (relationFor (Relationship_Type r) = None)
    with "envelope %d relationship %d has unsupported ServiceNow relationship type %q"%string ;;
  match assetTypes !! Relationship_FromNativeID r, assetTypes !! Relationship_ToNativeID r with
  | Some fromType, Some toType =>
    reject String.eqb (Relationship_Type r) "host_has_interface" &&
           (negb (String.eqb fromType AssetHost) || negb (String.eqb toType AssetNetworkInterface))
      with "envelope %d relationship %d host_has_interface requires host -> network_interface endpoints"%string ;;
    let seen := {[key_of_relation r]} ∪ seen in
    reject MaxRelations <? Z.of_nat (size seen) with "ServiceNow IRE request exceeds %d unique relationships"%string ;;
    Ok seen
  | _, _ => Err "envelope %d relationship %d has an endpoint not present in the input"%string
  end.

Fixpoint validate_relations (assetTypes : gmap string AssetType) (seen : gset relationKey) (rs : list Relationship)
    : go (gset relationKey) :=
  match rs with
  | [] => Ok seen
  | r :: rs => try seen := validate_relation assetTypes seen r ;; validate_relations assetTypes seen rs
  end.

(** The relationships, and the assets, of all envelopes in input order. *)
Definition all_relations (es : list ObservationEnvelope) : list Relationship := es ≫= Envelope_Relationships.

Definition validateEnvelopes (es : list ObservationEnvelope) : go unit :=
  reject llen es =? 0 with "ServiceNow observation input contains no envelopes"%string ;;
  reject MaxEnvelopes <? llen es with "ServiceNow observation input exceeds %d envelopes"%string ;;
  try assetTypes := validate_envelope_assets ∅ es ;;
  reject Z.of_nat (size assetTypes) =? 0 with "ServiceNow observation input contains no assets"%string ;;
  try seen := validate_relations assetTypes ∅ (all_relations es) ;;
  Ok tt.

(** ** Decoding lines *)

Inductive json_token := json_open | json_close | json_value.

(** [tokens raw] is what repeated [decoder.Token()] yields: the tokens, and whether
    the stream ends at the end of the input rather than with an error. *)
Fixpoint token_depth (depth : Z) (ts : list json_token) : go unit :=
  match ts with
  | [] => Ok tt
  | json_open :: ts =>
    reject MaxJSONDepth <? depth + 1 with "JSON nesting exceeds %d levels"%string ;;
    token_depth (depth + 1) ts
  | json_close :: ts => token_depth (depth - 1) ts
  | json_value :: ts => token_depth depth ts
  end.

Definition validateJSONDepth (tokens : string → list json_token * bool) (raw : string) : go unit :=
  let '(ts, clean) := tokens raw in
  try u := token_depth 0 ts ;;
  if clean then Ok tt else Err "invalid JSON: %w"%string.

(** [bytes.TrimSpace] is [strings.TrimSpace] on the same bytes. *)
Fixpoint decode_lines (tokens : string → list json_token * bool)
    (decode : string → go ObservationEnvelope) (lines : list string) (envelopes : list ObservationEnvelope)
    : go (list ObservationEnvelope) :=
  match lines with
  | [] => Ok envelopes
  | line :: lines =>
    let line := trim_space line in
    if bool_decide (line = ""%string) then decode_lines tokens decode lines envelopes
    else
      reject MaxRecordBytes <? slen line with "ServiceNow observation input line %d exceeds %d bytes"%string ;;
      reject llen envelopes =? MaxEnvelopes with "ServiceNow observation input exceeds %d envelopes"%string ;;
      try u := validateJSONDepth tokens line ;;
      try envelope := decode line ;;
      decode_lines tokens decode lines (envelopes ++ [envelope])
  end.

(** [decode] is the strict decoding of one line into one value. *)
Definition DecodeJSONLines (tokens : string → list json_token * bool)
    (decode : string → go ObservationEnvelope) (raw : string) : go (list ObservationEnvelope) :=
  reject MaxInputBytes <? slen raw with "ServiceNow observation input exceeds %d bytes"%string ;;
  try envelopes := decode_lines tokens decode (split_byte (byte_of 10) raw) [] ;;
  try u := validateEnvelopes envelopes ;;
  Ok envelopes.

(** ** [mapPayload] *)

Definition map_item (source : string) (e : ObservationEnvelope) (a : Asset) : IREItem :=
  let values : gmap string any :=
    {["name" := any_string (Asset_Name a); "discovery_source" := any_string source;
      "last_discovered" := any_string (DateTime (Envelope_ObservedAt e))]} in
  let values :=
    if String.eqb (Asset_Type a) AssetNetworkInterface then
      match Asset_Attributes a !! "mac_address"%string with
      | Some (any_string mac) => if bool_decide (mac = ""%string) then values
                                 else <["mac_address"%string := any_string mac]> values
      | _ => values
      end
    else values in
  mkIREItem (default ""%string (classFor (Asset_Type a))) values source (Asset_NativeID a).

Definition add_item (source : string) (acc : list IREItem * gmap string nat) (ea : ObservationEnvelope * Asset)
    : list IREItem * gmap string nat :=
  let '(items, index) := acc in
  let item := map_item source ea.1 ea.2 in
  match index !! Asset_NativeID ea.2 with
  | Some pos => (<[pos := item]> items, index)
  | None => (items ++ [item], <[Asset_NativeID ea.2 := length items]> index)
  end.

Definition add_relation (index : gmap string nat) (acc : list IRERelation * gset relationKey) (r : Relationship)
    : list IRERelation * gset relationKey :=
  let '(relations, seen) := acc in
  match index !! Relationship_FromNativeID r, index !! Relationship_ToNativeID r with
  | Some from, Some to =>
    if bool_decide (key_of_relation r ∈ seen) then acc
    else (relations ++ [mkIRERelation (default ""%string (relationFor (Relationship_Type r))) (Z.of_nat from) (Z.of_nat to)],
          {[key_of_relation r]} ∪ seen)
  | _, _ => acc
  end.

(** Every asset with the envelope that reports it, in input order. *)
Definition mentions (es : list ObservationEnvelope) : list (ObservationEnvelope * Asset) :=
  es ≫= λ e, (e,.) <$> Envelope_Assets e.

Definition mapPayload (source : string) (es : list ObservationEnvelope) : go IREPayload :=
  try u := validateEnvelopes es ;;
  let '(items, index) := foldl (add_item source) ([], ∅) (mentions es) in
  let '(relations, _) := foldl (add_relation index) ([], ∅) (all_relations es) in
  Ok (mkIREPayload items relations).

(** ** Lemmas *)

(** What validation establishes of the assets. *)
Definition typed_assets (assetTypes : gmap string AssetType) (assets : list Asset) : Prop :=
  ∀ a, a ∈ assets → assetTypes !! Asset_NativeID a = Some (Asset_Type a) ∧ is_Some (classFor (Asset_Type a)).

Lemma validate_asset_spec types a types' :
  validate_asset types a = Ok types' →
  types' = <[Asset_NativeID a := Asset_Type a]> types ∧ is_Some (classFor (Asset_Type a)) ∧
  (types !! Asset_NativeID a = None ∨ types !! Asset_NativeID a = Some (Asset_Type a)) ∧
  Z.of_nat (size types') <= MaxItems.
Proof.
  unfold validate_asset. case_bool_decide as Hc; [done|].
  destruct (negb (validIdentity _)); [done|]. destruct (_ || _); [done|]. destruct (_ && _); [done|].
  assert (is_Some (classFor (Asset_Type a))) as Hs by (destruct (classFor _); [eauto|done]).
  destruct (types !! Asset_NativeID a) as [t|].
  - destruct (String.eqb_spec t (Asset_Type a)) as [->|]; simpl; [|done].
    destruct (Z.ltb_spec MaxItems (Z.of_nat (size (<[Asset_NativeID a:=Asset_Type a]> types)))); [done|].
    intros [= <-]. auto.
  - destruct (Z.ltb_spec MaxItems (Z.of_nat (size (<[Asset_NativeID a:=Asset_Type a]> types)))); [done|].
    intros [= <-]. auto.
Qed.

(** Validation extends the types: known ones stay, and exactly the native IDs of the
    assets are added. *)
Record extends (assets : list Asset) (types types' : gmap string AssetType) : Prop := {
  extends_typed : typed_assets types' assets;
  extends_keeps k t : types !! k = Some t → types' !! k = Some t;
  extends_dom k : is_Some (types' !! k) ↔ is_Some (types !! k) ∨ k ∈ Asset_NativeID <$> assets;
  extends_size : Z.of_nat (size types) <= MaxItems → Z.of_nat (size types') <= MaxItems;
}.

Lemma extends_nil types : extends [] types types.
Proof. split; auto; [intros a Ha; by apply elem_of_nil in Ha|intros k; set_solver]. Qed.

Lemma extends_app A B t1 t2 t3 : extends A t1 t2 → extends B t2 t3 → extends (A ++ B) t1 t3.
Proof.
  intros [T1 K1 D1 S1] [T2 K2 D2 S2]. split; auto.
  - intros a [Ha|Ha]%elem_of_app; [|by apply T2]. destruct (T1 a Ha) as [? ?]. auto.
  - intros k. rewrite D2, D1, fmap_app, elem_of_app. tauto.
Qed.

Lemma validate_asset_extends types a types' : validate_asset types a = Ok types' → extends [a] types types'.
Proof.
  intros (-> & Hc & Hold & Hs)%validate_asset_spec. split; auto.
  - intros b ->%list_elem_of_singleton. by rewrite lookup_insert_eq.
  - intros k t Hk. destruct (decide (Asset_NativeID a = k)) as [<-|Hne].
    + rewrite lookup_insert_eq. destruct Hold; congruence.
    + by rewrite lookup_insert_ne.
  - intros k. csimpl. rewrite list_elem_of_singleton. destruct (decide (Asset_NativeID a = k)) as [<-|Hne].
    + rewrite lookup_insert_eq. naive_solver.
    + rewrite lookup_insert_ne by done. naive_solver.
Qed.

Lemma validate_assets_extends types assets types' :
  validate_assets types assets = Ok types' → extends assets types types'.
Proof.
  revert types. induction assets as [|a assets IH]; intros types; simpl.
  { intros [= <-]. apply extends_nil. }
  destruct (validate_asset types a) as [t|] eqn:E; [|done]. intros H.
  change (a :: assets) with ([a] ++ assets). eapply extends_app; [by apply validate_asset_extends|auto].
Qed.

Definition all_assets (es : list ObservationEnvelope) : list Asset := es ≫= Envelope_Assets.

Lemma validate_envelope_assets_extends types es types' :
  validate_envelope_assets types es = Ok types' → extends (all_assets es) types types'.
Proof.
  revert types. induction es as [|e es IH]; intros types; cbn [validate_envelope_assets].
  { intros [= <-]. apply extends_nil. }
  destruct (negb (String.eqb _ _)); [done|]. destruct (negb _); [done|]. destruct (IsZero _); [done|].
  destruct (validate_assets types _) as [t|] eqn:E; [|done]. intros H.
  eapply extends_app; [by apply validate_assets_extends|auto].
Qed.

Definition relation_ok (types : gmap string AssetType) (r : Relationship) : Prop :=
  Relationship_Type r = "host_has_interface"%string ∧
  types !! Relationship_FromNativeID r = Some AssetHost ∧
  types !! Relationship_ToNativeID r = Some AssetNetworkInterface.

Lemma validate_relation_spec types seen r seen' :
  validate_relation types seen r = Ok seen' →
  relation_ok types r ∧ seen' = {[key_of_relation r]} ∪ seen ∧ Z.of_nat (size seen') <= MaxRelations.
Proof.
  unfold validate_relation, relation_ok. case_bool_decide as Hc; [done|].
  unfold relationFor in Hc. destruct (String.eqb_spec (Relationship_Type r) "host_has_interface") as [He|]; [|done].
  rewrite He. destruct (types !! _) as [f|]; [|done]. destruct (types !! Relationship_ToNativeID r) as [t|]; [|done].
  simpl. destruct (String.eqb_spec f AssetHost) as [->|]; [|done].
  destruct (String.eqb_spec t AssetNetworkInterface) as [->|]; [|done]. simpl.
  destruct (Z.ltb_spec MaxRelations (Z.of_nat (size ({[key_of_relation r]} ∪ seen)))); [done|].
  intros [= <-]. done.
Qed.

Lemma validate_relations_spec types seen rs seen' :
  validate_relations types seen rs = Ok seen' →
  Forall (relation_ok types) rs ∧ seen' = list_to_set (key_of_relation <$> rs) ∪ seen ∧
  (Z.of_nat (size seen) <= MaxRelations → Z.of_nat (size seen') <= MaxRelations).
Proof.
  revert seen. induction rs as [|r rs IH]; intros seen; simpl.
  { intros [= <-]. split; [constructor|]. split; [set_solver|done]. }
  destruct (validate_relation types seen r) as [t|] eqn:E; [|done]. intros H.
  apply validate_relation_spec in E as (Hr & -> & Hs). destruct (IH _ H) as (Hrs & -> & Hle).
  split; [by constructor|]. split; [set_solver|]. auto.
Qed.

Lemma validateEnvelopes_spec es :
  validateEnvelopes es = Ok tt →
  ∃ types, extends (all_assets es) ∅ types ∧ types ≠ ∅ ∧ Forall (relation_ok types) (all_relations es) ∧
    Z.of_nat (size (list_to_set (key_of_relation <$> all_relations es) : gset (string * string * string))) <= MaxRelations.
Proof.
  unfold validateEnvelopes. destruct (_ =? 0); [done|]. destruct (MaxEnvelopes <? _); [done|].
  destruct (validate_envelope_assets ∅ es) as [types|] eqn:E; [|done].
  destruct (Z.eqb_spec (Z.of_nat (size types)) 0) as [|Hne]; [done|].
  destruct (validate_relations types ∅ (all_relations es)) as [seen|] eqn:Er; [|done]. intros _.
  exists types. split; [by apply validate_envelope_assets_extends|].
  split; [intros ->; by rewrite map_size_empty in Hne|].
  apply validate_relations_spec in Er as (Hr & -> & Hs). split; [done|].
  rewrite (right_id_L ∅ _) in Hs. apply Hs. rewrite size_empty. unfold MaxRelations. lia.
Qed.

(** *** Items *)

Definition source_of (ea : ObservationEnvelope * Asset) : string := Asset_NativeID ea.2.

(** The last mention of a native ID. *)
Definition last_mention (k : string) (ms : list (ObservationEnvelope * Asset)) : option (ObservationEnvelope * Asset) :=
  last (base.filter (λ ea, source_of ea = k) ms).

Lemma last_mention_snoc k ms ea :
  last_mention k (ms ++ [ea]) = if decide (source_of ea = k) then Some ea else last_mention k ms.
Proof.
  unfold last_mention. rewrite filter_app, filter_cons, filter_nil. case_decide as Hc.
  - by rewrite last_snoc.
  - by rewrite app_nil_r.
Qed.

Lemma map_item_key source ea : SourceNativeKey (map_item source ea.1 ea.2) = source_of ea.
Proof. done. Qed.

Lemma items_fold source ms :
  let '(items, index) := foldl (add_item source) ([], ∅) ms in
  indexed SourceNativeKey items index ∧
  (∀ k, k ∈ SourceNativeKey <$> items ↔ k ∈ source_of <$> ms) ∧
  (∀ item, item ∈ items → ∃ ea, last_mention (SourceNativeKey item) ms = Some ea ∧ item = map_item source ea.1 ea.2).
Proof.
  induction ms as [|ea ms IH] using rev_ind; [split; [apply indexed_nil|set_solver]|].
  rewrite foldl_app. cbn [foldl]. destruct (foldl (add_item source) _ ms) as [items index].
  destruct IH as (Hix & Hk & Hi). unfold add_item. fold (source_of ea).
  assert (∀ k, k ∈ source_of <$> ms ++ [ea] ↔ k ∈ source_of <$> ms ∨ k = source_of ea) as Hms.
  { intros k. rewrite fmap_app, elem_of_app. set_solver. }
  assert (∀ item, item ∈ items → SourceNativeKey item ≠ source_of ea →
    ∃ ea', last_mention (SourceNativeKey item) (ms ++ [ea]) = Some ea' ∧ item = map_item source ea'.1 ea'.2) as Hold.
  { intros item Hin Hne. rewrite last_mention_snoc, decide_False by congruence. by apply Hi. }
  assert (∃ ea', last_mention (source_of ea) (ms ++ [ea]) = Some ea' ∧
    map_item source ea.1 ea.2 = map_item source ea'.1 ea'.2) as Hnew.
  { exists ea. by rewrite last_mention_snoc, decide_True. }
  destruct (index !! source_of ea) as [pos|] eqn:E.
  - assert (key_eq : index !! SourceNativeKey (map_item source ea.1 ea.2) = Some pos) by done.
    split; [by eapply indexed_replace|]. split.
    + intros k. rewrite (indexed_replace_keys _ _ _ _ _ Hix key_eq), Hms, Hk.
      apply Hix in E. apply list_elem_of_lookup_2, Hk in E. naive_solver.
    + intros item Hin. destruct (decide (SourceNativeKey item = source_of ea)) as [He|Hne].
      * assert (item = map_item source ea.1 ea.2) as ->; [|by apply Hnew].
        apply list_elem_of_lookup in Hin as [j Hj].
        assert (j = pos) as ->.
        { pose proof (indexed_nodup _ _ _ (indexed_replace _ _ _ _ _ Hix key_eq)) as Hnd.
          eapply NoDup_lookup; [exact Hnd| |].
          - rewrite list_lookup_fmap, Hj. simpl. by rewrite He.
          - rewrite (indexed_replace_keys _ _ _ _ _ Hix key_eq). by apply Hix. }
        rewrite list_lookup_insert_eq in Hj; [by injection Hj|].
        apply Hix in E. apply lookup_lt_Some in E. by rewrite length_fmap in E.
      * apply Hold; [|done]. apply list_elem_of_lookup in Hin as [j Hj].
        destruct (decide (j = pos)) as [->|Hjp].
        { apply list_lookup_insert_Some in Hj as [(_ & <- & _)|[? _]]; [|done]. done. }
        rewrite list_lookup_insert_ne in Hj by done. by eapply list_elem_of_lookup_2.
  - split; [by apply (indexed_append SourceNativeKey items index (map_item source ea.1 ea.2))|]. split.
    + intros k. rewrite fmap_app, elem_of_app, Hms, Hk. csimpl. rewrite list_elem_of_singleton. done.
    + intros item [Hin| ->%list_elem_of_singleton]%elem_of_app; [|by apply Hnew].
      apply Hold; [done|]. intros Heq.
      apply (indexed_absent _ _ _ _ Hix E). rewrite <-Heq. apply list_elem_of_fmap. eauto.
Qed.

Lemma all_assets_mentions es : Asset_NativeID <$> all_assets es = source_of <$> mentions es.
Proof.
  unfold all_assets, mentions. induction es as [|e es IH]; [done|]. csimpl.
  rewrite !fmap_app, IH. f_equal. rewrite <-list_fmap_compose. done.
Qed.

Lemma mentions_assets es ea : ea ∈ mentions es → ea.2 ∈ all_assets es.
Proof.
  unfold mentions, all_assets. rewrite !list_elem_of_bind.
  intros (e & (a & -> & Ha)%list_elem_of_fmap & He). by exists e.
Qed.

Lemma last_mention_elem k ms ea : last_mention k ms = Some ea → ea ∈ ms ∧ source_of ea = k.
Proof.
  unfold last_mention. intros Hl. apply last_Some_elem_of in Hl.
  by apply list_elem_of_filter in Hl as [? ?].
Qed.

(** *** Relations *)

Lemma relations_fold index types rs :
  (∀ k, is_Some (index !! k) ↔ is_Some (types !! k)) → Forall (relation_ok types) rs →
  let '(relations, seen) := foldl (add_relation index) ([], ∅) rs in
  seen = list_to_set (key_of_relation <$> rs) ∧
  length relations = size seen ∧
  (∀ rel, rel ∈ relations ↔ ∃ r from to, r ∈ rs ∧ index !! Relationship_FromNativeID r = Some from ∧
     index !! Relationship_ToNativeID r = Some to ∧
     rel = mkIRERelation "Owns::Owned by" (Z.of_nat from) (Z.of_nat to)).
Proof.
  intros Hdom. induction rs as [|r rs IH] using rev_ind; intros Hok.
  { split; [done|]. split; [by rewrite size_empty|]. intros rel.
    split; [by intros ?%elem_of_nil|by intros (?&?&?&?%elem_of_nil&_)]. }
  apply Forall_app in Hok as [Hrs [Hr _]%Forall_cons]. specialize (IH Hrs).
  rewrite foldl_app. cbn [foldl]. destruct (foldl (add_relation index) _ rs) as [relations seen].
  destruct IH as (Hseen & Hlen & Hrel). unfold add_relation. destruct Hr as (Ht & Hf & Hto).
  destruct (proj2 (Hdom (Relationship_FromNativeID r)) ltac:(rewrite Hf; eauto)) as [from Hfrom].
  destruct (proj2 (Hdom (Relationship_ToNativeID r)) ltac:(rewrite Hto; eauto)) as [to Hto'].
  rewrite Hfrom, Hto', Ht. rewrite fmap_app, list_to_set_app_L, <-Hseen. csimpl.
  rewrite (right_id_L ∅ (∪)). case_bool_decide as Hin.
  - split; [symmetry; rewrite union_comm_L; apply subseteq_union_1_L; by apply singleton_subseteq_l|]. split; [done|]. intros rel. rewrite Hrel. split.
    + intros (q & f & t & Hq & H). exists q, f, t. split; [by apply elem_of_app; left|done].
    + intros (q & f & t & [Hq| ->%list_elem_of_singleton]%elem_of_app & H1 & H2 & ->); [exists q, f, t; done|].
      rewrite Hseen in Hin. apply elem_of_list_to_set, list_elem_of_fmap in Hin as (q & Hkey & Hq).
      unfold key_of_relation in Hkey. injection Hkey as _ E1 E2. exists q, f, t.
      by rewrite <-E1, <-E2.
  - split; [apply union_comm_L|]. split.
    + rewrite length_app, size_union by by apply disjoint_singleton_l.
      rewrite size_singleton. simpl. lia.
    + intros rel. rewrite elem_of_app, Hrel, list_elem_of_singleton. split.
      * intros [(q & f & t & Hq & H)| ->]; [exists q, f, t|exists r, from, to];
          (split; [apply elem_of_app; first [by left|by right; apply list_elem_of_singleton]|done]).
      * intros (q & f & t & [Hq| ->%list_elem_of_singleton]%elem_of_app & H1 & H2 & ->).
        { left. exists q, f, t. done. }
        right. simplify_eq. done.
Qed.

(** The facts about a payload, from which the theorems are read off. *)
Lemma mapPayload_facts source es p :
  mapPayload source es = Ok p →
  ∃ types index, extends (all_assets es) ∅ types ∧ types ≠ ∅ ∧ Forall (relation_ok types) (all_relations es) ∧
    indexed SourceNativeKey (Items p) index ∧
    (∀ k, k ∈ SourceNativeKey <$> Items p ↔ k ∈ Asset_NativeID <$> all_assets es) ∧
    (∀ item, item ∈ Items p → ∃ ea, last_mention (SourceNativeKey item) (mentions es) = Some ea ∧
       item = map_item source ea.1 ea.2) ∧
    llen (Relations p) <= MaxRelations ∧
    (∀ rel, rel ∈ Relations p ↔ ∃ r from to, r ∈ all_relations es ∧
       index !! Relationship_FromNativeID r = Some from ∧ index !! Relationship_ToNativeID r = Some to ∧
       rel = mkIRERelation "Owns::Owned by" (Z.of_nat from) (Z.of_nat to)).
Proof.
  unfold mapPayload. destruct (validateEnvelopes es) as [[]|] eqn:Ev; [|done].
  apply validateEnvelopes_spec in Ev as (types & Hext & Hne & Hrel & Hsz).
  pose proof (items_fold source (mentions es)) as Hi.
  destruct (foldl (add_item source) _ _) as [items index]. destruct Hi as (Hix & Hk & Hit).
  assert (∀ k, is_Some (index !! k) ↔ is_Some (types !! k)) as Hdom.
  { intros k. rewrite (extends_dom _ _ _ Hext), all_assets_mentions, lookup_empty, <-Hk. split.
    - intros [i Hi]. right. apply Hix in Hi. by eapply list_elem_of_lookup_2.
    - intros [[? [=]]|Hi]. apply list_elem_of_lookup in Hi as [i Hi]. exists i. by apply Hix. }
  pose proof (relations_fold index types (all_relations es) Hdom Hrel) as Hr.
  destruct (foldl (add_relation index) _ _) as [relations seen]. destruct Hr as (-> & Hlen & Hre).
  intros [= <-]. exists types, index. simpl. do 4 (split; [done|]).
  split; [intros k; by rewrite Hk, all_assets_mentions|]. split; [done|]. split; [|done].
  unfold llen. by rewrite Hlen.
Qed.

(** ** Theorems *)

(** The ends of a relation are positions of the payload's items. *)
Lemma mapPayload_ends source es p rel :
  mapPayload source es = Ok p → rel ∈ Relations p →
  is_Some (Items p !! Z.to_nat (Parent rel)) ∧ is_Some (Items p !! Z.to_nat (Child rel)).
Proof.
  intros Hmap Hin. pose proof (mapPayload_facts _ _ _ Hmap) as (types & index & Hext & _ & Hrel & Hix & Hk & Hit & Hlen & Hre).
  apply Hre in Hin as (r & i & j & Hr & Hi & Hj & ->). simpl. rewrite !Nat2Z.id.
  apply Hix in Hi, Hj. rewrite list_lookup_fmap in Hi, Hj. apply fmap_Some in Hi as (?&->&_), Hj as (?&->&_). eauto.
Qed.

(** one request names each configuration item once.  The items of a payload have
    distinct native keys, exactly those of the envelopes' assets, at most 1000; each
    carries the values of the last asset with its key and a supported class. *)
Theorem mapPayload_items (source : string) (es : list ObservationEnvelope) (p : IREPayload) :
  mapPayload source es = Ok p →
  NoDup (SourceNativeKey <$> Items p) ∧ 1 <= llen (Items p) <= MaxItems ∧
  (∀ k, k ∈ SourceNativeKey <$> Items p ↔ k ∈ Asset_NativeID <$> all_assets es) ∧
  (∀ item, item ∈ Items p → ∃ e a, last_mention (SourceNativeKey item) (mentions es) = Some (e, a) ∧
     item = map_item source e a ∧ classFor (Asset_Type a) = Some (ClassName item)).
Proof.
  intros (types & index & Hext & Hne & _ & Hix & Hk & Hit & _)%mapPayload_facts.
  pose proof (indexed_nodup _ _ _ Hix) as Hnd. split; [done|].
  assert (dom types = list_to_set (SourceNativeKey <$> Items p)) as Hdom.
  { apply set_eq. intros k. rewrite elem_of_dom, elem_of_list_to_set, Hk, (extends_dom _ _ _ Hext), lookup_empty.
    split; [intros [[? [=]]|?]; done|by right]. }
  assert (llen (Items p) = Z.of_nat (size types)) as Hlen.
  { unfold llen. rewrite <-size_dom, Hdom, size_list_to_set by done. by rewrite length_fmap. }
  split; [|split; [done|]].
  - rewrite Hlen. split; [|apply (extends_size _ _ _ Hext); by rewrite map_size_empty].
    assert (size types ≠ 0%nat); [|lia]. by rewrite map_size_non_empty_iff.
  - intros item Hin. destruct (Hit item Hin) as ([e a] & Hl & Heq). exists e, a.
    split; [done|]. split; [exact Heq|]. rewrite Heq. unfold map_item. cbn [ClassName].
    apply last_mention_elem in Hl as [Hm _]. apply mentions_assets in Hm.
    destruct (extends_typed _ _ _ Hext _ Hm) as [_ [c Hc]]. simpl in *. by rewrite Hc.
Qed.

(** Every relation of a payload points at two of its items, a computer and a
    network adapter, and the relations are exactly those the envelopes report; there
    are at most 2000. *)
Theorem mapPayload_relations (source : string) (es : list ObservationEnvelope) (p : IREPayload) :
  mapPayload source es = Ok p →
  llen (Relations p) <= MaxRelations ∧
  (∀ rel, rel ∈ Relations p ↔ ∃ r parent child, r ∈ all_relations es ∧
     rel = mkIRERelation "Owns::Owned by" (Z.of_nat parent) (Z.of_nat child) ∧
     (SourceNativeKey <$> Items p) !! parent = Some (Relationship_FromNativeID r) ∧
     (SourceNativeKey <$> Items p) !! child = Some (Relationship_ToNativeID r)) ∧
  (∀ rel, rel ∈ Relations p → ∃ parent child, Items p !! Z.to_nat (Parent rel) = Some parent ∧
     Items p !! Z.to_nat (Child rel) = Some child ∧
     ClassName parent = "cmdb_ci_computer"%string ∧ ClassName child = "cmdb_ci_network_adapter"%string).
Proof.
  intros Hmap. pose proof (mapPayload_facts _ _ _ Hmap) as (types & index & Hext & _ & Hrel & Hix & Hk & Hit & Hlen & Hre).
  split; [done|]. split.
  { intros rel. rewrite Hre. split.
    - intros (r & i & j & Hr & Hi & Hj & ->). exists r, i, j. split; [done|]. split; [done|]. by split; apply Hix.
    - intros (r & i & j & Hr & -> & Hi & Hj). exists r, i, j. split; [done|].
      split; [by apply Hix|]. split; [by apply Hix|done]. }
  intros rel (r & i & j & Hr & Hi & Hj & ->)%Hre. simpl. rewrite !Nat2Z.id.
  rewrite Forall_forall in Hrel. destruct (Hrel r Hr) as (_ & Hf & Ht).
  assert (∀ i k t, index !! k = Some i → types !! k = Some t →
    ∃ item, Items p !! i = Some item ∧ Some (ClassName item) = classFor t) as Hclass.
  { intros i' k t Hi' Hk'. apply Hix in Hi'. rewrite list_lookup_fmap in Hi'.
    apply fmap_Some in Hi' as (item & Hitem & ->). exists item. split; [done|].
    destruct (Hit item) as ([e a] & Hl & Heq); [by eapply list_elem_of_lookup_2|].
    apply last_mention_elem in Hl as [Hm Hs]. apply mentions_assets in Hm.
    destruct (extends_typed _ _ _ Hext _ Hm) as [Hta [c Hc]]. unfold source_of in Hs. simpl in *.
    rewrite Hs, Hk' in Hta. injection Hta as ->. rewrite Hc. f_equal.
    rewrite Heq. unfold map_item. simpl. by rewrite Hc. }
  destruct (Hclass i _ _ Hi Hf) as (parent & Hp & Hpc). destruct (Hclass j _ _ Hj Ht) as (child & Hc & Hcc).
  exists parent, child. split; [done|]. split; [done|]. by split; [injection Hpc|injection Hcc].
Qed.

(** When an asset is mentioned twice the last mention in input order wins, even if
    it was observed earlier, unlike the store, which keeps the later observation. *)
Theorem mapPayload_ignores_observation_time :
  ∃ es p e1 e2, es = [e1; e2] ∧ Envelope_ObservedAt e2 < Envelope_ObservedAt e1 ∧
    mapPayload "Topo" es = Ok p ∧
    (Values <$> Items p) = [Values (map_item "Topo" e2 (mkAsset AssetHost "h1" "older" ∅ ∅ []))].
Proof.
  set (e name t := mkObservationEnvelope SchemaVersion name "site" "c1" "ssh-linux" "" t
    [mkAsset AssetHost "h1" name ∅ ∅ []] [] [] ∅).
  exists [e "newer"%string (unix 200 0); e "older"%string (unix 100 0)].
  eexists _, _, _. split; [reflexivity|]. split; [vm_compute; reflexivity|].
  split; vm_compute; reflexivity.
Qed.

(** ** Witnesses *)

Definition example_ire : list ObservationEnvelope :=
  [mkObservationEnvelope SchemaVersion "o1" "site" "c1" "ssh-linux" "" (unix 100 0)
    [mkAsset AssetHost "h1" "web" ∅ ∅ [];
     mkAsset AssetNetworkInterface "h1/eth0" "eth0" ∅ {["mac_address"%string := any_string "02:00:00:00:00:01"]} []]
    [mkRelationship "host_has_interface" "h1" "h1/eth0" []] [] ∅].

Definition example_payload : IREPayload :=
  match mapPayload "Topo" example_ire with Ok p => p | Err _ => mkIREPayload [] [] end.

Lemma mapPayload_items_witness :
  SourceNativeKey <$> Items example_payload = ["h1"; "h1/eth0"]%string ∧
  NoDup (SourceNativeKey <$> Items example_payload).
Proof.
  split; [vm_compute; reflexivity|].
  assert (mapPayload "Topo" example_ire = Ok example_payload) as H by (vm_compute; reflexivity).
  apply (mapPayload_items "Topo" example_ire example_payload H).
Defined.

Lemma mapPayload_relations_witness :
  Relations example_payload = [mkIRERelation "Owns::Owned by" 0 1] ∧ llen (Relations example_payload) <= MaxRelations.
Proof.
  split; [vm_compute; reflexivity|].
  assert (mapPayload "Topo" example_ire = Ok example_payload) as H by (vm_compute; reflexivity).
  apply (mapPayload_relations "Topo" example_ire example_payload H).
Defined.
