(* ===== verification/Publish.v ===== *)
(** * [pkg/publisher/servicenow]: delivery to the reconciliation engine

    The publisher half of [servicenow.go]: the validation of its configuration,
    [Preview], [PublishBatch], [QueryBatch] and the request they share.  The parsed
    form of the instance URL, the encoder of the payload and the decoder of the
    response are the standard library's; the HTTP client answers with an [outcome].
    Each operation returns the requests it sent, so that what leaves the process is
    part of what is proved. *)

From S2P Require Import Prelude Bytes Text Time Model Servicenow.

Definition MaxRequestBytes : Z := 4 * 2 ^ 20.
Definition MaxResponseBytes : Z := 2 ^ 20.
Definition MaxDiscoverySource : Z := 100.

Record PublisherConfig := mkPublisherConfig {
  InstanceURL : string;
  Token : string;
  DiscoverySource : string;
  DryRun : bool;
}.

(** [publisher.Result]; the diagnostics are the two maps the publisher builds. *)
Inductive Diagnostics :=
| no_diagnostics
| payload_diagnostics (p : IREPayload)
| response_diagnostics (status : Z) (response : string) (evaluated : Z).

Record PublishResult := mkPublishResult {
  Destination : string;
  Published : Z;
  Rejected : Z;
  Result_Diagnostics : Diagnostics;
}.
Definition empty_result : PublishResult := mkPublishResult "" 0 0 no_diagnostics.
Definition rejected_result (destination : string) (p : IREPayload) : PublishResult :=
  mkPublishResult destination 0 (llen (Items p)) no_diagnostics.

(** An ordinary error, or a [*PublishError]. *)
Inductive publish_error :=
| plain_error (msg : string)
| PublishError (retryable : bool) (msg : string).

Definition Retryable (e : publish_error) : bool :=
  match e with plain_error _ => false | PublishError r _ => r end.

(** ** JSON values, and the semantic bits of a response *)

#[local] Set Warnings "-register-all".
Inductive json :=
| JNull
| JBool (b : bool)
| JNumber (text : string)
| JString (s : string)
| JArray (items : list json)
| JObject (fields : list (string * json)).

Definition is_true (v : json) : bool := match v with JBool b => b | _ => false end.

Fixpoint walk (name : string) (v : json) : bool :=
  match v with
  | JObject fields => existsb (λ kc, (String.eqb kc.1 name && is_true kc.2) || walk name kc.2) fields
  | JArray items => existsb (walk name) items
  | _ => false
  end.

(** ** Configuration *)

Definition validBearerToken (token : string) : bool :=
  if bool_decide (token = ""%string) || (2 ^ 16 <? slen token) then false
  else negb (existsb is_space (runes token)) && negb (existsb is_control (runes token)).

Section publisher.
Variable parse_url : string → option URL.
Variable marshal : IREPayload → string.
Variable valid : string → bool.
Variable unmarshal : string → option json.

Definition Validate (c : PublisherConfig) : go unit :=
  reject bool_decide (InstanceURL c = ""%string) with "ServiceNow instance URL is required"%string ;;
  match parse_url (InstanceURL c) with
  | None => Err "ServiceNow instance URL must be an absolute HTTPS URL"%string
  | Some u =>
    reject negb (String.eqb (Scheme u) "https") || bool_decide (Host u = ""%string)
      with "ServiceNow instance URL must be an absolute HTTPS URL"%string ;;
    reject bool_decide (URL_User u ≠ None)
        || (negb (bool_decide (Path u = ""%string)) && negb (bool_decide (Path u = "/"%string)))
        || ForceQuery u || negb (bool_decide (RawQuery u = ""%string)) || negb (bool_decide (Fragment u = ""%string))
      with "ServiceNow instance URL must not contain credentials, a path, query parameters, or a fragment"%string ;;
    reject bool_decide (DiscoverySource c = ""%string) with "ServiceNow discovery source is required"%string ;;
    reject (MaxDiscoverySource <? slen (DiscoverySource c))
        || negb (bool_decide (trim_space (DiscoverySource c) = DiscoverySource c))
        || existsb is_control (runes (DiscoverySource c))
      with "ServiceNow discovery source must be 1 to %d bytes, have no surrounding whitespace, and contain no control characters"%string ;;
    reject negb (DryRun c) && bool_decide (Token c = ""%string)
      with "ServiceNow token is required outside dry-run mode"%string ;;
    reject negb (DryRun c) && negb (validBearerToken (Token c)) with "ServiceNow token has an invalid format"%string ;;
    Ok tt
  end.

(** ** One request *)

Record IRERequest := mkIRERequest {
  Req_URL : string;
  Req_Authorization : string;
  Req_Body : string;
}.

(** [client.Do]: a transport error, or a status with the body as far as it was read
    ([None]: the read failed). *)
Inductive outcome :=
| transport_error (msg : string)
| responded (status : Z) (body : option string).

(** [strings.TrimRight(s, "/")] *)
Fixpoint drop_slashes (l : list ascii) : list ascii :=
  match l with
  | c :: l' => if Ascii.eqb c "/"%char then drop_slashes l' else l
  | [] => []
  end.
Definition trim_right_slashes (s : string) : string :=
  String.string_of_list_ascii (reverse (drop_slashes (reverse (String.list_ascii_of_string s)))).

Definition responseReportsFlag (body name : string) : bool :=
  match unmarshal body with None => false | Some v => walk name v end.

(** The reading of an outcome: the part of [sendPayload] after [client.Do]. *)
Definition read_outcome (payload : IREPayload) (destination : string) (commits : bool) (o : outcome)
    : PublishResult * option publish_error :=
  let rejected := rejected_result destination payload in
  match o with
  | transport_error msg => (empty_result, Some (PublishError true msg))
  | responded _ None => (rejected, Some (PublishError false "read ServiceNow IRE response: %w"))
  | responded status (Some body) =>
    if MaxResponseBytes <? slen body
    then (rejected, Some (PublishError false "ServiceNow IRE response exceeds %d bytes"))
    else if (status <? 200) || (300 <=? status)
    then (rejected, Some (PublishError ((status =? 429) || (500 <=? status)) "ServiceNow IRE returned %s: %s"))
    else if negb (valid body)
    then (rejected, Some (PublishError false "ServiceNow IRE returned a malformed JSON response"))
    else if responseReportsFlag body "hasError"
    then (rejected, Some (PublishError false "ServiceNow IRE response reported hasError=true: %s"))
    else if responseReportsFlag body "hasWarning"
    then (rejected, Some (PublishError false "ServiceNow IRE response reported hasWarning=true: %s"))
    else (mkPublishResult destination (if commits then llen (Items payload) else 0) 0
            (response_diagnostics status body (llen (Items payload))), None)
  end.

(** What an operation returns, and the requests it sent. *)
Record published := mkPublished {
  sent : list IRERequest;
  returned : PublishResult;
  failed_with : option publish_error;
}.
Definition nothing_sent (r : PublishResult) (e : option publish_error) : published := mkPublished [] r e.

Definition sendPayload (c : PublisherConfig) (client : IRERequest → outcome) (payload : IREPayload)
    (endpointPath destination : string) (commits : bool) : published :=
  let b := marshal payload in
  if MaxRequestBytes <? slen b
  then nothing_sent (rejected_result destination payload) (Some (plain_error "ServiceNow IRE request exceeds %d bytes"))
  else
    let request := mkIRERequest (trim_right_slashes (InstanceURL c) +:+ endpointPath)%string ("Bearer " +:+ Token c)%string b in
    let '(r, e) := read_outcome payload destination commits (client request) in
    mkPublished [request] r e.

Definition Preview (c : PublisherConfig) (envelopes : list ObservationEnvelope) : go IREPayload :=
  try u := Validate c ;; mapPayload (DiscoverySource c) envelopes.

Definition PublishBatch (c : PublisherConfig) (client : IRERequest → outcome) (envelopes : list ObservationEnvelope) : published :=
  match Validate c with
  | Err e => nothing_sent empty_result (Some (plain_error e))
  | Ok _ =>
    match mapPayload (DiscoverySource c) envelopes with
    | Err e => nothing_sent empty_result (Some (plain_error e))
    | Ok payload =>
      if DryRun c
      then nothing_sent (mkPublishResult "servicenow-ire-preview" (llen (Items payload)) 0 (payload_diagnostics payload)) None
      else sendPayload c client payload "/api/now/identifyreconcile/enhanced" "servicenow-ire" true
    end
  end.

Definition QueryBatch (c : PublisherConfig) (client : IRERequest → outcome) (envelopes : list ObservationEnvelope) : published :=
  if DryRun c
  then nothing_sent empty_result (Some (plain_error "ServiceNow IRE query requires authenticated non-dry-run mode"))
  else
    match Validate c with
    | Err e => nothing_sent empty_result (Some (plain_error e))
    | Ok _ =>
      match mapPayload (DiscoverySource c) envelopes with
      | Err e => nothing_sent empty_result (Some (plain_error e))
      | Ok payload => sendPayload c client payload "/api/now/identifyreconcile/queryEnhanced" "servicenow-ire-query" false
      end
    end.
End publisher.

(** ** The semantic bits, declaratively *)

(** Somewhere in the value an object has the field [name] with the value true. *)
Inductive reports (name : string) : json → Prop :=
| reports_here fields : (name, JBool true) ∈ fields → reports name (JObject fields)
| reports_field fields k v : (k, v) ∈ fields → reports name v → reports name (JObject fields)
| reports_item items v : v ∈ items → reports name v → reports name (JArray items).

(** Induction on JSON values through their lists. *)
Section json_ind.
Context (P : json → Prop).
Context (Hnull : P JNull) (Hbool : ∀ b, P (JBool b)) (Hnum : ∀ s, P (JNumber s)) (Hstr : ∀ s, P (JString s)).
Context (Harr : ∀ l, Forall P l → P (JArray l)) (Hobj : ∀ l, Forall (λ kv, P kv.2) l → P (JObject l)).

Fixpoint json_nested_ind (v : json) : P v :=
  match v with
  | JNull => Hnull
  | JBool b => Hbool b
  | JNumber s => Hnum s
  | JString s => Hstr s
  | JArray l => Harr l ((fix all l : Forall P l := match l with [] => Forall_nil_2 P | x :: l => Forall_cons_2 P x l (json_nested_ind x) (all l) end) l)
  | JObject l => Hobj l ((fix all l : Forall (λ kv, P kv.2) l := match l with [] => Forall_nil_2 _ | x :: l => Forall_cons_2 (λ kv, P kv.2) x l (json_nested_ind x.2) (all l) end) l)
  end.
End json_ind.

Lemma walk_reports name v : walk name v = true ↔ reports name v.
Proof.
  split.
  - induction v as [| | | |l IH|l IH] using json_nested_ind; simpl; try done.
    + intros (v&Hin&Hw)%existsb_exists. apply list_elem_of_In in Hin. rewrite Forall_forall in IH.
      eapply reports_item; [done|]. by apply IH.
    + intros ([k v]&Hin&Hw)%existsb_exists. apply list_elem_of_In in Hin. rewrite Forall_forall in IH.
      simpl in Hw. apply orb_true_iff in Hw as [[->%String.eqb_eq Ht]%andb_true_iff|Hw].
      * apply reports_here. destruct v as [|[]| | | |]; done.
      * eapply reports_field; [done|]. by apply (IH _ Hin).
  - induction 1 as [l Hin|l k v Hin _ IH|l v Hin _ IH]; simpl; apply existsb_exists.
    + exists (name, JBool true). split; [by apply list_elem_of_In|]. by rewrite String.eqb_refl.
    + exists (k, v). split; [by apply list_elem_of_In|]. simpl. by rewrite IH, orb_true_r.
    + exists v. split; [by apply list_elem_of_In|done].
Qed.

(** ** Delivery *)

Section theorems.
Variable parse_url : string → option URL.
Variable marshal : IREPayload → string.
Variable valid : string → bool.
Variable unmarshal : string → option json.
Abbreviation validate := (Validate parse_url).
Abbreviation publish := (PublishBatch parse_url marshal valid unmarshal).
Abbreviation query := (QueryBatch parse_url marshal valid unmarshal).

(** A clean success: 2xx, JSON within bounds, and neither semantic bit anywhere in the
    decoded value.  A valid body need not decode (a number beyond [float64] does not):
    nothing is looked for in such a body. *)
Definition clean_success (o : outcome) : Prop :=
  ∃ status body, o = responded status (Some body) ∧ slen body <= MaxResponseBytes ∧ 200 <= status < 300 ∧
    valid body = true ∧ ∀ v, unmarshal body = Some v → ¬ reports "hasError" v ∧ ¬ reports "hasWarning" v.

(** Failures worth repeating: nothing answered, 429, or a server error. *)
Definition transient (o : outcome) : Prop :=
  (∃ msg, o = transport_error msg) ∨
  ∃ status body, o = responded status (Some body) ∧ slen body <= MaxResponseBytes ∧ (status = 429 ∨ 500 <= status).

Lemma read_outcome_spec payload destination commits o :
  let '(r, e) := read_outcome valid unmarshal payload destination commits o in
  (e = None ↔ clean_success o) ∧
  (e = None → Published r = (if commits then llen (Items payload) else 0) ∧ Destination r = destination) ∧
  (e ≠ None → Published r = 0) ∧
  (∀ f, e = Some f → Retryable f = true ↔ transient o).
Proof.
  unfold read_outcome. destruct o as [msg|status [body|]]; simpl.
  - split; [split; [done|by intros (?&?&?&_)]|]. split; [done|]. split; [done|]. intros f [= <-]. split; [by left; eexists|done].
  - destruct (Z.ltb_spec MaxResponseBytes (slen body)) as [Hlen|Hlen].
    { split; [split; [done|intros (?&?&[= <- <-]&?&_); lia]|]. split; [done|]. split; [done|]. intros f [= <-].
      split; [done|]. intros [[? ?]|(?&?&[= <- <-]&?&_)]; [done|lia]. }
    destruct ((status <? 200) || (300 <=? status)) eqn:Hst.
    { rewrite orb_true_iff, Z.ltb_lt, Z.leb_le in Hst. split; [split; [done|intros (?&?&[= <- <-]&?&?&_); lia]|].
      split; [done|]. split; [done|]. intros f [= <-]. simpl. rewrite orb_true_iff, Z.eqb_eq, Z.leb_le.
      split; [intros; right; eauto 6|]. intros [[? ?]|(?&?&[= <- <-]&?&?)]; done. }
    apply orb_false_iff in Hst as [Hlo%Z.ltb_ge Hhi%Z.leb_gt].
    assert (¬ transient (responded status (Some body))) as Hnt.
    { intros [[? ?]|(?&?&[= <- <-]&?&?)]; [done|lia]. }
    destruct (valid body) eqn:Hj; simpl.
    2:{ split; [split; [done|intros (?&?&[= <- <-]&_&_&?&_); congruence]|]. split; [done|]. split; [done|]. by intros f [= <-]. }
    assert (∀ name, responseReportsFlag unmarshal body name = true ↔ ∃ v, unmarshal body = Some v ∧ reports name v) as Hflag.
    { intros name. unfold responseReportsFlag. destruct (unmarshal body) as [v|]; [|split; [done|by intros (?&?&_)]].
      rewrite walk_reports. split; [by exists v|by intros (?&[= <-]&?)]. }
    destruct (responseReportsFlag unmarshal body "hasError") eqn:He.
    { apply Hflag in He as (v&Hv&He). split; [split; [done|intros (?&?&[= <- <-]&_&_&_&Hno); by destruct (Hno v Hv)]|].
      split; [done|]. split; [done|]. by intros f [= <-]. }
    destruct (responseReportsFlag unmarshal body "hasWarning") eqn:Hw.
    { apply Hflag in Hw as (v&Hv&Hw). split; [split; [done|intros (?&?&[= <- <-]&_&_&_&Hno); by destruct (Hno v Hv)]|].
      split; [done|]. split; [done|]. by intros f [= <-]. }
    split; [|split; [done|split; done]]. split; [intros _|done]. exists status, body.
    do 4 (split; [done|]). intros v Hv. split; intros Hr.
    + assert (responseReportsFlag unmarshal body "hasError" = true) by (apply Hflag; eauto). congruence.
    + assert (responseReportsFlag unmarshal body "hasWarning" = true) by (apply Hflag; eauto). congruence.
  - split; [split; [done|by intros (?&?&?&_)]|]. split; [done|]. split; [done|]. intros f [= <-].
    split; [done|]. intros [[? ?]|(?&?&?&_)]; done.
Qed.

(** publishing: a request leaves the process only outside dry-run mode, for a valid
    configuration and a valid payload within the size bound, at most one per call and
    to the configured instance with its token; items count as published exactly when
    the answer is a clean success (2xx, JSON within bounds, no hasError or hasWarning at
    any depth of what it decodes to); and a failure after sending is retryable exactly when nothing answered
    or the status was 429 or a server error. *)
Theorem PublishBatch_spec (c : PublisherConfig) (client : IRERequest → outcome) (es : list ObservationEnvelope) :
  let p := publish c client es in
  (∀ request, request ∈ sent p →
     DryRun c = false ∧ validate c = Ok tt ∧ sent p = [request] ∧
     Req_URL request = (trim_right_slashes (InstanceURL c) +:+ "/api/now/identifyreconcile/enhanced")%string ∧
     Req_Authorization request = ("Bearer " +:+ Token c)%string ∧ slen (Req_Body request) <= MaxRequestBytes ∧
     (∃ payload, mapPayload (DiscoverySource c) es = Ok payload ∧ Req_Body request = marshal payload ∧
        (failed_with p = None → Published (returned p) = llen (Items payload))) ∧
     (failed_with p = None ↔ clean_success (client request)) ∧
     (∀ e, failed_with p = Some e → Published (returned p) = 0 ∧ (Retryable e = true ↔ transient (client request)))) ∧
  (sent p = [] → DryRun c = false → failed_with p ≠ None ∧ Published (returned p) = 0).
Proof.
  unfold PublishBatch. destruct (validate c) as [[]|e] eqn:Hv; [|split; [by intros r ?%not_elem_of_nil|done]].
  destruct (mapPayload (DiscoverySource c) es) as [payload|e] eqn:Hm; [|split; [by intros r ?%not_elem_of_nil|done]].
  destruct (DryRun c) eqn:Hd; [split; [by intros r ?%not_elem_of_nil|done]|].
  unfold sendPayload. destruct (Z.ltb_spec MaxRequestBytes (slen (marshal payload))) as [?|Hsize];
    [split; [by intros r ?%not_elem_of_nil|done]|].
  set (request := mkIRERequest _ _ _).
  pose proof (read_outcome_spec payload "servicenow-ire" true (client request)) as Hspec.
  destruct (read_outcome valid unmarshal payload "servicenow-ire" true (client request)) as [r e] eqn:Hr.
  destruct Hspec as (Hok&Hpub&Hfail&Hretry). simpl. split; [|done].
  intros request' ->%list_elem_of_singleton. do 6 (split; [done|]). split; [|split; [done|]].
  - exists payload. do 2 (split; [done|]). intros He. by apply Hpub.
  - intros f ->. split; [by apply Hfail|by apply Hretry].
Qed.

(** A query never publishes: whatever the server answers, no item counts as
    published, the request goes to the query endpoint only, and nothing is sent in
    dry-run mode. *)
Theorem QueryBatch_never_publishes (c : PublisherConfig) (client : IRERequest → outcome) (es : list ObservationEnvelope) :
  let p := query c client es in
  Published (returned p) = 0 ∧ (DryRun c = true → sent p = [] ∧ failed_with p ≠ None) ∧
  (∀ request, request ∈ sent p →
     Req_URL request = (trim_right_slashes (InstanceURL c) +:+ "/api/now/identifyreconcile/queryEnhanced")%string ∧
     (failed_with p = None ↔ clean_success (client request))).
Proof.
  unfold QueryBatch. destruct (DryRun c); [split; [done|]; split; [done|by intros r ?%not_elem_of_nil]|].
  destruct (validate c); [|split; [done|]; split; [done|by intros r ?%not_elem_of_nil]].
  destruct (mapPayload (DiscoverySource c) es) as [payload|e]; [|split; [done|]; split; [done|by intros r ?%not_elem_of_nil]].
  unfold sendPayload. destruct (_ <? _); [split; [done|]; split; [done|by intros r ?%not_elem_of_nil]|].
  set (request := mkIRERequest _ _ _).
  pose proof (read_outcome_spec payload "servicenow-ire-query" false (client request)) as Hspec.
  destruct (read_outcome valid unmarshal payload "servicenow-ire-query" false (client request)) as [r e].
  destruct Hspec as (Hok&Hpub&Hfail&_). simpl. split; [|split; [done|]].
  - destruct e; [by apply Hfail|by apply Hpub].
  - by intros request' ->%list_elem_of_singleton.
Qed.
End theorems.
