(* ===== verification/Publishers.v ===== *)
(** * [pkg/publisher]: the JSON-lines and the webhook publisher

    Both are instances of the publisher interface, whose promise is [PublisherLaws]: a batch
    that is published without an error is published whole, and the counts of a result never
    exceed the batch.  The JSON encoding, the URL parser and the HTTP client are arguments. *)

From S2P Require Import Prelude Bytes Text Model Servicenow Publish.

(** [publisher.Publisher] with what a batch is delivered to. *)
Class Publisher (W : Type) := {
  publisher_validate : go unit;
  publisher_preview : list ObservationEnvelope → list ObservationEnvelope;
  publish_batch : list ObservationEnvelope → W → PublishResult * option string * W;
}.

Class PublisherLaws {W} (P : Publisher W) (delivered : list ObservationEnvelope → W → W → Prop) := {
  invalid_publishes_nothing : ∀ es w e, publisher_validate = Err e → publish_batch es w = (empty_result, Some e, w);
  published_counts : ∀ es w r e w', publish_batch es w = (r, e, w') → 0 <= Published r ∧ 0 <= Rejected r ∧ Published r + Rejected r <= llen es;
  published_whole : ∀ es w r w', publish_batch es w = (r, None, w') → Published r = llen es ∧ Rejected r = 0 ∧ delivered es w w';
}.

(** ** [jsonlines.go] *)
Section jsonlines.
Context (encode : ObservationEnvelope → go string).
(** Whether there is a writer; what [ctx.Err()] is before an envelope; how much of a line the
    writer takes when it fails, and with which error. *)
Context (writer : bool) (cancelled : Z → option string) (broken : Z → option (nat * string)).

Definition lines_validate : go unit := if writer then Ok tt else Err "io: read/write on closed pipe"%string.

(** The loop from envelope [i] of [n]. *)
Fixpoint encode_lines (i n : Z) (es : list ObservationEnvelope) (out : string) : PublishResult * option string * string :=
  match es with
  | [] => (mkPublishResult "jsonlines" n 0 no_diagnostics, None, out)
  | e :: es =>
    match cancelled i with
    | Some c => (mkPublishResult "jsonlines" i 0 no_diagnostics, Some c, out)
    | None =>
      match encode e with
      | Err err => (mkPublishResult "jsonlines" i (n - i) no_diagnostics, Some err, out)
      | Ok text =>
        let line := (text +:+ char 10)%string in
        match broken i with
        | Some (taken, err) => (mkPublishResult "jsonlines" i (n - i) no_diagnostics, Some err, out +:+ take_string taken line)%string
        | None => encode_lines (i + 1) n es (out +:+ line)%string
        end
      end
    end
  end.

#[export] Instance jsonlines_publisher : Publisher string := {|
  publisher_validate := lines_validate;
  publisher_preview es := es;
  publish_batch es out := match lines_validate with Err e => (empty_result, Some e, out) | Ok _ => encode_lines 0 (llen es) es out end;
|}.

(** The lines of a batch are appended, each whole and in order. *)
Definition lines_delivered (es : list ObservationEnvelope) (out out' : string) : Prop :=
  ∃ texts, Forall2 (λ e t, encode e = Ok t) es texts ∧ out' = (out +:+ String.concat "" ((λ t, t +:+ char 10) <$> texts))%string.

(** Whatever happens, what was written before stays, the lines of the envelopes that are
    reported as published follow, and then at most a part of the next one. *)
Lemma encode_lines_spec i n es out : 0 <= i → i + llen es = n →
  let '(r, e, out') := encode_lines i n es out in
  i <= Published r ∧ 0 <= Rejected r ∧ Published r + Rejected r <= n ∧
  (∃ texts part, Forall2 (λ e t, encode e = Ok t) (take (Z.to_nat (Published r - i)) es) texts ∧
     out' = (out +:+ String.concat "" ((λ t, t +:+ char 10) <$> texts) +:+ part)%string ∧ (e = None → part = ""%string)) ∧
  (e = None → Published r = n ∧ Rejected r = 0).
Proof.
  revert i out. induction es as [|x es IH]; intros i out Hi Hn; cbn [encode_lines].
  { change (llen (@nil ObservationEnvelope)) with 0 in Hn. cbn [Published Rejected]. split_and!; try lia. exists [], ""%string. rewrite take_nil. split; [constructor|]. by rewrite string_app_nil_r. }
  assert (llen (x :: es) = 1 + llen es) as Hlen by (unfold llen; cbn [length]; lia). assert (0 <= llen es) by (unfold llen; lia).
  assert (∀ rejected err part, 0 <= rejected → i + rejected <= n →
    let '(r, e, out') := (mkPublishResult "jsonlines" i rejected no_diagnostics, Some err, (out +:+ part)%string) : PublishResult * option string * string in
    i <= Published r ∧ 0 <= Rejected r ∧ Published r + Rejected r <= n ∧
    (∃ texts part, Forall2 (λ e t, encode e = Ok t) (take (Z.to_nat (Published r - i)) (x :: es)) texts ∧
       out' = (out +:+ String.concat "" ((λ t, t +:+ char 10) <$> texts) +:+ part)%string ∧ (e = None → part = ""%string)) ∧ (e = None → Published r = n ∧ Rejected r = 0)) as Hstop.
  { intros rejected err part H1 H2. cbn [Published Rejected]. rewrite Z.sub_diag. split_and!; try lia; [|done]. exists [], part. split; [constructor|]. split; [|done]. by rewrite string_app_nil. }
  destruct (cancelled i) as [c|]; [pose proof (Hstop 0 c ""%string ltac:(lia) ltac:(lia)) as H1; by rewrite string_app_nil_r in H1|].
  destruct (encode x) as [text|err] eqn:Hx; [|pose proof (Hstop (n - i) err ""%string ltac:(lia) ltac:(lia)) as H1; by rewrite string_app_nil_r in H1].
  destruct (broken i) as [[taken err]|]; [apply Hstop; lia|].
  specialize (IH (i + 1) (out +:+ (text +:+ char 10))%string ltac:(lia) ltac:(lia)). destruct (encode_lines _ _ _ _) as [[r e] out'].
  destruct IH as (H1&H2&H3&(texts&part&Ht&->&Hp)&H5). split_and!; [lia|done|done| |done]. exists (text :: texts), part.
  replace (Z.to_nat (Published r - i)) with (S (Z.to_nat (Published r - (i + 1)))) by lia. split; [by constructor|]. split; [|done].
  rewrite fmap_cons, concat_cons, !string_app_assoc. done.
Qed.

#[export] Instance jsonlines_laws : PublisherLaws jsonlines_publisher lines_delivered.
Proof.
  split; cbn [publish_batch publisher_validate jsonlines_publisher].
  - by intros es w e ->.
  - intros es w r e w'. destruct lines_validate; [|intros [= <- <- <-]; cbn; unfold llen; lia].
    pose proof (encode_lines_spec 0 (llen es) es w ltac:(lia) eq_refl) as H. destruct (encode_lines _ _ _ _) as [[r' e'] w'']. intros [= <- <- <-]. lia.
  - intros es w r w'. destruct lines_validate; [|done].
    pose proof (encode_lines_spec 0 (llen es) es w ltac:(lia) eq_refl) as H. destruct (encode_lines _ _ _ _) as [[r' e'] w'']. intros [= <- -> <-].
    destruct H as (_&_&_&(texts&part&Ht&->&Hp)&H). destruct (H eq_refl) as [Hpub Hrej]. split_and!; [done..|]. exists texts. rewrite Hpub, Z.sub_0_r in Ht. unfold llen in Ht.
    rewrite Nat2Z.id, take_ge in Ht by done. by rewrite (Hp eq_refl), string_app_nil_r.
Qed.
End jsonlines.

(** ** [webhook.go] *)

Record WebhookRequest := mkWebhookRequest { Hook_URL : string; ContentType : string; Hook_Authorization : option string; Hook_Body : string }.

Section webhook.
Context (parse_url : string → option URL) (marshal : list ObservationEnvelope → go string) (build_request : go unit).
Context (url bearer : string).
(** What [client.Do] gives: a status, its text and the body, or an error. *)
Context (client : WebhookRequest → go (Z * string * string)).

Definition hook_validate : go unit :=
  match parse_url url with
  | Some u =>
    reject negb (String.eqb (Scheme u) "https") || String.eqb (Host u) "" with "webhook URL must be an absolute HTTPS URL"%string ;;
    match URL_User u with Some _ => Err "webhook URL must not embed credentials"%string | None => Ok tt end
  | None => Err "webhook URL must be an absolute HTTPS URL"%string
  end.

Definition hook_request (body : string) : WebhookRequest :=
  mkWebhookRequest url "application/json" (if String.eqb bearer "" then None else Some ("Bearer " +:+ bearer)%string) body.

(** [io.LimitReader] takes 64 KiB of the answer. *)
Definition hook_error (text response : string) : string := ("webhook returned " +:+ text +:+ ": " +:+ take_string (Z.to_nat (2^16)) response)%string.

(** The requests sent so far are the state. *)
Definition hook_batch (es : list ObservationEnvelope) (sent : list WebhookRequest) : PublishResult * option string * list WebhookRequest :=
  match hook_validate, marshal es, build_request with
  | Err e, _, _ | Ok _, Err e, _ | Ok _, Ok _, Err e => (empty_result, Some e, sent)
  | Ok _, Ok body, Ok _ =>
    let request := hook_request body in
    match client request with
    | Err e => (empty_result, Some e, sent ++ [request])
    | Ok (status, text, response) =>
      if (status <? 200) || (300 <=? status) then (mkPublishResult "webhook" 0 (llen es) no_diagnostics, Some (hook_error text response), sent ++ [request])
      else (mkPublishResult "webhook" (llen es) 0 no_diagnostics, None, sent ++ [request])
    end
  end.

#[export] Instance webhook_publisher : Publisher (list WebhookRequest) := {|
  publisher_validate := hook_validate; publisher_preview es := es; publish_batch := hook_batch;
|}.

(** One request with the whole batch, and an answer of success. *)
Definition hook_delivered (es : list ObservationEnvelope) (sent sent' : list WebhookRequest) : Prop :=
  ∃ body status text response, marshal es = Ok body ∧ sent' = sent ++ [hook_request body] ∧ client (hook_request body) = Ok (status, text, response) ∧ 200 <= status < 300.

#[export] Instance webhook_laws : PublisherLaws webhook_publisher hook_delivered.
Proof.
  split; cbn [publish_batch publisher_validate webhook_publisher]; unfold hook_batch.
  - by intros es w e ->.
  - intros es w r e w'. assert (0 <= llen es) by (unfold llen; lia). destruct hook_validate, (marshal es) as [body|], build_request; try (intros [= <- <- <-]; cbn; lia).
    destruct (client (hook_request body)) as [[[status text] response]|]; [destruct (_ || _)|]; intros [= <- <- <-]; cbn; lia.
  - intros es w r w'. destruct hook_validate, (marshal es) as [body|] eqn:Hm, build_request; try done.
    destruct (client (hook_request body)) as [[[status text] response]|] eqn:Hc; [|done]. destruct ((status <? 200) || (300 <=? status)) eqn:Hs; [done|].
    apply orb_false_iff in Hs as [H1%Z.ltb_ge H2%Z.leb_gt]. intros [= <- <-]. split_and!; [done..|]. by exists body, status, text, response.
Qed.

(** The token leaves only for the configured URL, over HTTPS, once per batch at most. *)
Lemma hook_sends_once es sent r e sent' : hook_batch es sent = (r, e, sent') →
  sent' = sent ∨ ∃ body u, sent' = sent ++ [hook_request body] ∧ marshal es = Ok body ∧ parse_url url = Some u ∧ Scheme u = "https"%string ∧ URL_User u = None.
Proof.
  unfold hook_batch. destruct hook_validate as [[]|] eqn:Hv, (marshal es) as [body|] eqn:Hm, build_request; try (intros [= <- <- <-]; by left).
  intros H. right. unfold hook_validate in Hv. destruct (parse_url url) as [u|]; [|done]. exists body, u. destruct (String.eqb_spec (Scheme u) "https"); [|done].
  destruct (URL_User u) eqn:Hu; [by destruct (String.eqb (Host u) "")|]. split_and!; [|done..].
  destruct (client (hook_request body)) as [[[status text] response]|]; [destruct ((status <? 200) || (300 <=? status))|]; by simplify_eq.
Qed.
End webhook.
