(* ===== verification/Topology.v ===== *)
(** * What the host plugins promise: hosts with their interfaces

    The plugins that inventory hosts ([sshlinux], [winrm], [snmp]) describe each target as
    one host asset, the interfaces of the host and the relationships between them, and
    gather the targets of a request into one envelope.  [HostPlugin] is that promise; the
    lemmas on envelopes are proved against it, the instances are in the plugins' files.
    [closed] is the weaker promise every plugin makes: no relationship leaves the envelope. *)

From S2P Require Import Prelude Bytes Text Strconv Time Model Netip Servicenow.

(** ** Building assets *)

(** Values of [map[string]any] as their JSON: numbers, lists of strings, and a slice
    that is nil when it has no element. *)
Definition any_int (z : Z) : any := any_number (decimal z).
Definition any_strings (l : list string) : any := any_array (any_string <$> l).
Definition any_slice (l : list any) : any := match l with [] => any_null | _ => any_array l end.

Definition plugin_evidence (source : string) (now : time) : list Evidence := [mkEvidence source now "" "1"].

(** [fmt.Sprintf("%s:interface:%d", id, index)] *)
Definition interface_id (id : string) (index : Z) : string := (id +:+ ":interface:" +:+ decimal index)%string.

(** The worker of a plugin's [Discover] takes in the outcome of one target. *)
Definition merge_outcome {I : Type} (assets : I → time → list Asset * list Relationship) (now : time)
    (obs : ObservationEnvelope) (outcome : option I * list CollectionError) : ObservationEnvelope :=
  let '(found, rels) := match outcome.1 with Some inv => assets inv now | None => ([], []) end in
  mkObservationEnvelope (Envelope_SchemaVersion obs) (Envelope_ObservationID obs) (Envelope_SiteID obs)
    (Envelope_CollectorID obs) (Envelope_Plugin obs) (Envelope_JobID obs) (Envelope_ObservedAt obs)
    (Envelope_Assets obs ++ found) (Envelope_Relationships obs ++ rels) (Envelope_Errors obs ++ outcome.2)
    (Envelope_Labels obs).

(** The helpers every plugin has a copy of. *)
Definition valueOr (value fallback : string) : string := if String.eqb value "" then fallback else value.

(** An error: its text, and whether it is one of the network or of an ended context. *)
Record failure := mkFailure { failure_text : string; failure_retryable : bool }.
Definition plain (e : string) : failure := mkFailure e false.

(** [retryable] of the plugins whose libraries report a timeout as plain text. *)
Definition contains_text (sub s : string) : bool := bool_decide (is_Some (String.index 0 sub s)).
Definition retryable (f : failure) : bool := failure_retryable f || contains_text "timeout" (failure_text f).

(** [strings.ContainsAny(value, "\x00\r\n")] *)
Definition line_control (c : ascii) : bool := bool_decide (byte_val c ∈ [0; 10; 13]).

(** [net.ParseIP] and [IP.IsLoopback] *)
Definition is_loopback (host : string) : bool :=
  match ParseAddr host with
  | None => false
  | Some a =>
    bool_decide (Zone a = ""%string) &&
    (if Is4 a then addr_val a / 2^24 =? 127
     else if addr_val a / 2^32 =? 65535 then addr_val a mod 2^32 / 2^24 =? 127 else addr_val a =? 1)
  end.

Definition loopback_host (hostname : string) : bool := EqualFold_ascii hostname "localhost" || is_loopback hostname.

(** What [Discover] returns for the outcomes of its targets in the order their workers take
    the lock; [ended] is the error of the context once it has ended. *)
Definition gather {I : Type} (assets : I → time → list Asset * list Relationship) (plugin relay : string)
    (site collector job : string) (now : time) (id : string) (ended : option string)
    (outcomes : list (option I * list CollectionError)) : go ObservationEnvelope :=
  let obs := mkObservationEnvelope SchemaVersion id (valueOr site "default") (valueOr collector relay) plugin job now [] [] [] ∅ in
  match ended with
  | Some e => Err e
  | None => Ok (foldl (merge_outcome assets now) obs outcomes)
  end.

Lemma string_app_inv_head (a b c : string) : (a +:+ b = a +:+ c)%string → b = c.
Proof. induction a as [|x a IH]; [done|]. rewrite !string_app_cons. intros H. injection H. exact IH. Qed.

(** Two interfaces of a host are two assets. *)
#[export] Instance interface_id_inj id : Inj (=) (=) (interface_id id).
Proof. intros x y H. unfold interface_id in H. apply string_app_inv_head, string_app_inv_head in H. by apply decimal_inj. Qed.

(** ** The promise *)

Definition closed (assets : list Asset) (rels : list Relationship) : Prop :=
  ∀ r, r ∈ rels → Relationship_FromNativeID r ∈ Asset_NativeID <$> assets ∧ Relationship_ToNativeID r ∈ Asset_NativeID <$> assets.

Record host_part (id : string) (indexes : list Z) (assets : list Asset) (rels : list Relationship) : Prop := {
  part_assets : ∃ h ifaces, assets = h :: ifaces ∧ Asset_Type h = AssetHost ∧ Asset_NativeID h = id ∧
    Asset_Type <$> ifaces = (λ _, AssetNetworkInterface) <$> indexes ∧
    Asset_NativeID <$> ifaces = interface_id id <$> indexes;
  part_rels : key_of_relation <$> rels = (λ n, ("host_has_interface"%string, id, interface_id id n)) <$> indexes;
}.

Class HostPlugin (I : Type) := {
  plugin_assets : I → time → list Asset * list Relationship;
  plugin_host : I → string;
  plugin_indexes : I → list Z;
  plugin_promise i now :
    host_part (plugin_host i) (plugin_indexes i) (plugin_assets i now).1 (plugin_assets i now).2;
}.

Lemma closed_app a1 r1 a2 r2 : closed a1 r1 → closed a2 r2 → closed (a1 ++ a2) (r1 ++ r2).
Proof.
  intros H1 H2 r [Hr|Hr]%elem_of_app; [destruct (H1 r Hr)|destruct (H2 r Hr)]; rewrite fmap_app, !elem_of_app; tauto.
Qed.

Lemma closed_bind {A} (l : list A) (f : A → list Asset) (g : A → list Relationship) :
  (∀ x, closed (f x) (g x)) → closed (l ≫= f) (l ≫= g).
Proof.
  intros H. induction l as [|x l IH]; simpl; [intros r Hr; by apply elem_of_nil in Hr|]. by apply closed_app.
Qed.

Lemma elem_key (rels : list Relationship) r : r ∈ rels →
  (Relationship_Type r, Relationship_FromNativeID r, Relationship_ToNativeID r) ∈ key_of_relation <$> rels.
Proof. intros Hr. change (key_of_relation r ∈ key_of_relation <$> rels). by apply list_elem_of_fmap_2. Qed.

(** The relationships of a part join its host to one of its interfaces. *)
Lemma host_part_relation id indexes assets rels r : host_part id indexes assets rels → r ∈ rels →
  ∃ n, n ∈ indexes ∧ Relationship_Type r = "host_has_interface"%string ∧ Relationship_FromNativeID r = id ∧
    Relationship_ToNativeID r = interface_id id n.
Proof.
  intros [_ Hk] Hr%elem_key. rewrite Hk in Hr. apply list_elem_of_fmap in Hr as (n & Heq & Hn). injection Heq as -> -> ->. eauto.
Qed.

Lemma host_part_ids id indexes assets rels : host_part id indexes assets rels →
  Asset_NativeID <$> assets = id :: (interface_id id <$> indexes).
Proof. intros [(h & ifaces & -> & _ & <- & _ & Hi) _]. rewrite fmap_cons, Hi. by rewrite <-Hi. Qed.

Lemma host_part_closed id indexes assets rels : host_part id indexes assets rels → closed assets rels.
Proof.
  intros Hp r Hr. destruct (host_part_relation _ _ _ _ r Hp Hr) as (n & Hn & _ & -> & ->).
  rewrite (host_part_ids _ _ _ _ Hp). split; [left|right]. by apply list_elem_of_fmap_2.
Qed.

(** ** Envelopes of many targets *)

Section gathered.
Context {I : Type} (assets : I → time → list Asset * list Relationship) (now : time).

Definition inventories (outcomes : list (option I * list CollectionError)) : list I := omap fst outcomes.
Definition all_found (invs : list I) : list Asset := invs ≫= λ i, (assets i now).1.
Definition all_linked (invs : list I) : list Relationship := invs ≫= λ i, (assets i now).2.

(** Taking in outcomes appends their assets, relationships and errors, and keeps the rest. *)
Lemma merge_outcomes outcomes obs :
  foldl (merge_outcome assets now) obs outcomes =
  mkObservationEnvelope (Envelope_SchemaVersion obs) (Envelope_ObservationID obs) (Envelope_SiteID obs)
    (Envelope_CollectorID obs) (Envelope_Plugin obs) (Envelope_JobID obs) (Envelope_ObservedAt obs)
    (Envelope_Assets obs ++ all_found (inventories outcomes)) (Envelope_Relationships obs ++ all_linked (inventories outcomes))
    (Envelope_Errors obs ++ (outcomes ≫= snd)) (Envelope_Labels obs).
Proof.
  revert obs. induction outcomes as [|[o es] outcomes IH]; intros obs; cbn [foldl].
  { destruct obs; simpl. by rewrite !app_nil_r. }
  rewrite IH. unfold merge_outcome, all_found, all_linked, inventories. destruct o as [i|]; simpl.
  - destruct (assets i now) as [a r]; simpl. by rewrite <-!app_assoc.
  - by rewrite <-!app_assoc.
Qed.

Lemma gather_ok plugin relay site collector job id ended outcomes e :
  gather assets plugin relay site collector job now id ended outcomes = Ok e →
  ended = None ∧ Envelope_Assets e = all_found (inventories outcomes) ∧ Envelope_Relationships e = all_linked (inventories outcomes) ∧
  Envelope_Errors e = outcomes ≫= snd.
Proof. unfold gather. destruct ended; [done|]. rewrite merge_outcomes. by intros [= <-]. Qed.

(** Closed inventories make a closed envelope. *)
Lemma gather_closed plugin relay site collector job id ended outcomes e :
  (∀ i, i ∈ inventories outcomes → closed (assets i now).1 (assets i now).2) →
  gather assets plugin relay site collector job now id ended outcomes = Ok e →
  closed (Envelope_Assets e) (Envelope_Relationships e).
Proof.
  intros Hc (_ & -> & -> & _)%gather_ok. unfold all_found, all_linked. revert Hc. generalize (inventories outcomes) as l. intros l Hc.
  induction l as [|i l IH]; [intros r Hr; by apply elem_of_nil in Hr|]. apply closed_app; [apply Hc; left|]. apply IH. intros j Hj. apply Hc. by right.
Qed.

Lemma inventories_perm o1 o2 : o1 ≡ₚ o2 → inventories o1 ≡ₚ inventories o2.
Proof. intros H. unfold inventories. by rewrite H. Qed.
End gathered.

(** ** Acceptance by the publisher *)

(** Everything [validateEnvelopes] asks of one asset alone; the types of all assets are
    told apart by their native IDs. *)
Definition type_of_id (id : string) : AssetType := if contains_byte ":"%char id then AssetNetworkInterface else AssetHost.

Record text_ok (a : Asset) : Prop := {
  text_ok_id : validIdentity (Asset_NativeID a) = true;
  text_ok_name : slen (Asset_Name a) <= maxNameLen ∧ existsb is_control (runes (Asset_Name a)) = false;
  text_ok_mac : mac_ok a = true;
}.

Definition publishable (a : Asset) : Prop := Asset_Type a = type_of_id (Asset_NativeID a) ∧ text_ok a.

Definition typed_by_id (types : gmap string AssetType) : Prop := ∀ k t, types !! k = Some t → t = type_of_id k.

Lemma type_of_id_class id : is_Some (classFor (type_of_id id)).
Proof. unfold type_of_id. destruct (contains_byte _ _); eexists; reflexivity. Qed.

Lemma validate_asset_accepts types a : typed_by_id types → publishable a →
  Z.of_nat (size types) + 1 <= MaxItems →
  validate_asset types a = Ok (<[Asset_NativeID a := Asset_Type a]> types) ∧
  typed_by_id (<[Asset_NativeID a := Asset_Type a]> types) ∧
  Z.of_nat (size (<[Asset_NativeID a := Asset_Type a]> types)) <= Z.of_nat (size types) + 1.
Proof.
  intros Ht [Hty [Hid [Hn Hc] Hm]] Hs.
  assert (Z.of_nat (size (<[Asset_NativeID a := Asset_Type a]> types)) <= Z.of_nat (size types) + 1) as Hle.
  { destruct (types !! Asset_NativeID a) eqn:E; [rewrite map_size_insert_Some by eauto|rewrite map_size_insert_None by done]; lia. }
  split_and!; [|intros k t; rewrite lookup_insert_Some; intros [[<- <-]|[_ Hk]]; eauto|done].
  unfold validate_asset. rewrite Hid, Hc, Hm, andb_false_r. destruct (type_of_id_class (Asset_NativeID a)) as [c Hcl]. rewrite <-Hty in Hcl.
  rewrite bool_decide_false by (by rewrite Hcl). destruct (Z.ltb_spec maxNameLen (slen (Asset_Name a))); [lia|]. simpl.
  destruct (types !! Asset_NativeID a) as [t|] eqn:E.
  - rewrite (Ht _ _ E), Hty, String.eqb_refl. simpl. destruct (Z.ltb_spec MaxItems (Z.of_nat (size (<[Asset_NativeID a:=type_of_id (Asset_NativeID a)]> types)))); [rewrite <-Hty in *; lia|done].
  - destruct (Z.ltb_spec MaxItems (Z.of_nat (size (<[Asset_NativeID a:=Asset_Type a]> types)))); [lia|done].
Qed.

Lemma validate_assets_accepts types l : typed_by_id types → Forall publishable l →
  Z.of_nat (size types) + llen l <= MaxItems →
  ∃ types', validate_assets types l = Ok types' ∧ typed_by_id types' ∧
    Z.of_nat (size types') <= Z.of_nat (size types) + llen l.
Proof.
  revert types. induction l as [|a l IH]; intros types Ht Hl Hs.
  { exists types. split_and!; [done|done|]. unfold llen. simpl. lia. }
  apply Forall_cons in Hl as [Ha Hl]. unfold llen in Hs. cbn [length] in Hs.
  destruct (validate_asset_accepts types a Ht Ha ltac:(lia)) as (Hv & Ht' & Hs'). cbn [validate_assets]. rewrite Hv.
  destruct (IH _ Ht' Hl) as (types' & Hv' & Ht'' & Hs''); [unfold llen; lia|]. exists types'.
  split_and!; [done|done|]. unfold llen in *. cbn [length]. lia.
Qed.

(** What [validateEnvelopes] asks of the header of an envelope. *)
Definition header_ok (e : ObservationEnvelope) : Prop :=
  Envelope_SchemaVersion e = SchemaVersion ∧ IsZero (Envelope_ObservedAt e) = false ∧
  Forall (λ v, validIdentity v = true)
    [Envelope_ObservationID e; Envelope_SiteID e; Envelope_CollectorID e; Envelope_Plugin e].

Lemma validate_envelope_accepts types e : typed_by_id types → header_ok e → Forall publishable (Envelope_Assets e) →
  Z.of_nat (size types) + llen (Envelope_Assets e) <= MaxItems →
  ∃ types', validate_envelope_assets types [e] = Ok types' ∧ typed_by_id types' ∧ extends (Envelope_Assets e) types types'.
Proof.
  intros Ht (Hv & Ho & Hids) Ha Hs. destruct (validate_assets_accepts types _ Ht Ha Hs) as (types' & Hok & Ht' & _).
  exists types'. split_and!; [|done|by apply validate_assets_extends]. cbn [validate_envelope_assets].
  rewrite Hv, String.eqb_refl, Ho, Hok. cbn [negb]. replace (forallb _ _) with true; [done|]. symmetry. apply forallb_forall.
  intros v Hv'. rewrite Forall_forall in Hids. apply Hids. by apply list_elem_of_In.
Qed.

Lemma validate_relation_accepts types seen r : relation_ok types r → Z.of_nat (size seen) + 1 <= MaxRelations →
  validate_relation types seen r = Ok ({[key_of_relation r]} ∪ seen) ∧
  Z.of_nat (size ({[key_of_relation r]} ∪ seen)) <= Z.of_nat (size seen) + 1.
Proof.
  intros (Ht & Hf & Hto) Hs.
  assert (Z.of_nat (size ({[key_of_relation r]} ∪ seen)) <= Z.of_nat (size seen) + 1) as Hle.
  { pose proof (size_union_alt {[key_of_relation r]} seen) as ->. rewrite size_singleton.
    pose proof (subseteq_size (seen ∖ {[key_of_relation r]}) seen ltac:(set_solver)). lia. }
  split; [|done]. unfold validate_relation. rewrite Ht. unfold AssetType in *. rewrite Hf, Hto. simpl.
  destruct (Z.ltb_spec MaxRelations (Z.of_nat (size ({[key_of_relation r]} ∪ seen)))); [lia|done].
Qed.

Lemma validate_relations_accepts types rs seen : Forall (relation_ok types) rs →
  Z.of_nat (size seen) + llen rs <= MaxRelations → is_ok (validate_relations types seen rs) = true.
Proof.
  revert seen. induction rs as [|r rs IH]; intros seen Hrs Hs; [done|]. apply Forall_cons in Hrs as [Hr Hrs].
  unfold llen in Hs. cbn [length] in Hs. destruct (validate_relation_accepts types seen r Hr ltac:(lia)) as [Hv Hle].
  cbn [validate_relations]. rewrite Hv. apply IH; [done|unfold llen; lia].
Qed.

(** ** The envelope of a host plugin *)

Section host_envelope.
Context {I : Type} `{HostPlugin I} (now : time).
Implicit Types (invs : list I).

Lemma all_found_closed invs : closed (all_found plugin_assets now invs) (all_linked plugin_assets now invs).
Proof. apply closed_bind. intros i. eapply host_part_closed, plugin_promise. Qed.

Lemma all_found_length invs : llen (all_linked plugin_assets now invs) + llen invs = llen (all_found plugin_assets now invs).
Proof.
  induction invs as [|i invs IH]; [done|]. unfold all_linked, all_found, llen in *. simpl. rewrite !length_app.
  destruct (plugin_promise i now) as [_ Hk]. pose proof (host_part_ids _ _ _ _ (plugin_promise i now)) as Hi.
  apply (f_equal length) in Hk, Hi. rewrite !length_fmap in *. simpl in Hi. rewrite length_fmap in Hi. unfold mbind in *. lia.
Qed.

(** A relationship joins a host to an interface whose native ID has a colon. *)
Lemma all_linked_ends invs r : r ∈ all_linked plugin_assets now invs →
  ∃ i n, i ∈ invs ∧ Relationship_Type r = "host_has_interface"%string ∧ Relationship_FromNativeID r = plugin_host i ∧
    Relationship_ToNativeID r = interface_id (plugin_host i) n.
Proof.
  unfold all_linked. rewrite list_elem_of_bind. intros (i & Hr & Hi).
  destruct (host_part_relation _ _ _ _ r (plugin_promise i now) Hr) as (n & _ & ? & ? & ?). eauto 10.
Qed.

Lemma interface_id_type id n : type_of_id (interface_id id n) = AssetNetworkInterface.
Proof.
  unfold type_of_id. destruct (contains_byte ":"%char (interface_id id n)) eqn:E; [done|]. apply contains_byte_free in E.
  unfold interface_id in E. change (":interface:")%string with (String ":" "interface:") in E. by apply free_of_mid in E.
Qed.

Lemma all_linked_ok types invs : Forall (λ i, contains_byte ":"%char (plugin_host i) = false) invs →
  typed_by_id types → extends (all_found plugin_assets now invs) ∅ types →
  Forall (relation_ok types) (all_linked plugin_assets now invs).
Proof.
  intros Hc Ht Hx. rewrite Forall_forall. intros r Hr. destruct (all_found_closed invs r Hr) as [Hf Hto].
  assert (∀ id, id ∈ Asset_NativeID <$> all_found plugin_assets now invs → types !! id = Some (type_of_id id)) as Hl.
  { intros id Hid. destruct (proj2 (extends_dom _ _ _ Hx id) (or_intror Hid)) as [t Hk]. by rewrite Hk, (Ht _ _ Hk). }
  destruct (all_linked_ends invs r Hr) as (i & n & Hi & Hty & Hfrom & Hend). split_and!; [done|rewrite (Hl _ Hf)|rewrite (Hl _ Hto)].
  - rewrite Hfrom. rewrite Forall_forall in Hc. unfold type_of_id. by rewrite (Hc i Hi).
  - by rewrite Hend, interface_id_type.
Qed.

Lemma all_found_typed invs : Forall (λ i, contains_byte ":"%char (plugin_host i) = false) invs →
  Forall (λ a, Asset_Type a = type_of_id (Asset_NativeID a)) (all_found plugin_assets now invs).
Proof.
  intros Hc. apply Forall_forall. intros a. unfold all_found. rewrite list_elem_of_bind. intros (i & Ha & Hi).
  rewrite Forall_forall in Hc. specialize (Hc i Hi).
  destruct (plugin_promise i now) as [(h & ifaces & Heq & Hh & Hid & Ht & Hn) _]. rewrite Heq in Ha. apply elem_of_cons in Ha as [->|Ha].
  { rewrite Hh, Hid. unfold type_of_id. by rewrite Hc. }
  apply list_elem_of_lookup in Ha as [k Hk].
  assert ((Asset_NativeID <$> ifaces) !! k = Some (Asset_NativeID a)) as Hka by (by rewrite list_lookup_fmap, Hk).
  assert ((Asset_Type <$> ifaces) !! k = Some (Asset_Type a)) as Hkt by (by rewrite list_lookup_fmap, Hk).
  rewrite Hn, list_lookup_fmap in Hka. rewrite Ht, list_lookup_fmap in Hkt.
  destruct (plugin_indexes i !! k) as [n|]; [|done]. injection Hka as <-. injection Hkt as <-. by rewrite interface_id_type.
Qed.

(** Hosts whose native ID has no colon, assets whose texts are acceptable and at most
    [MaxItems] of them: nothing else can make the publisher refuse the envelope. *)
Lemma host_envelope_accepted invs e : header_ok e → invs ≠ [] →
  Envelope_Assets e = all_found plugin_assets now invs → Envelope_Relationships e = all_linked plugin_assets now invs →
  Forall (λ i, contains_byte ":"%char (plugin_host i) = false) invs → Forall text_ok (Envelope_Assets e) →
  llen (Envelope_Assets e) <= MaxItems → validateEnvelopes [e] = Ok tt.
Proof.
  intros Hh Hne Ha Hr Hc Hx0 Hs.
  assert (Forall publishable (Envelope_Assets e)) as Hp.
  { apply Forall_and. split; [|done]. rewrite Ha. by apply all_found_typed. }
  destruct (validate_envelope_accepts ∅ e) as (types & Hv & Ht & Hx); [by intros ? ?; rewrite lookup_empty|done|done|by rewrite map_size_empty|].
  unfold validateEnvelopes. rewrite Hv. unfold llen at 1 2. cbn [length]. change (MaxEnvelopes <? Z.of_nat 1) with false.
  change (Z.of_nat 1 =? 0) with false. cbv iota. pose proof (all_found_length invs) as Hlen. rewrite <-Ha, <-Hr in Hlen.
  assert (all_relations [e] = Envelope_Relationships e) as -> by apply app_nil_r.
  assert (types ≠ ∅) as Hty.
  { intros ->. destruct invs as [|i invs]; [done|]. pose proof (host_part_ids _ _ _ _ (plugin_promise i now)) as Hi.
    destruct (proj2 (extends_dom _ _ _ Hx (plugin_host i))) as [t Hk]; [right|by rewrite lookup_empty in Hk].
    rewrite Ha. unfold all_found. cbn [mbind list_bind]. rewrite fmap_app, Hi, elem_of_app. left. left. }
  destruct (Z.eqb_spec (Z.of_nat (size types)) 0) as [Hz|_]; [destruct Hty; apply map_size_empty_inv; lia|].
  pose proof (validate_relations_accepts types (Envelope_Relationships e) ∅) as Hok.
  destruct (validate_relations types ∅ (Envelope_Relationships e)); [done|]. exfalso. enough (false = true) by done. apply Hok.
  - rewrite Hr. apply all_linked_ok; [done|done|by rewrite <-Ha].
  - rewrite size_empty. unfold MaxItems, MaxRelations in *. unfold llen in *. lia.
Qed.
End host_envelope.
