(* ===== verification/Discovery.v ===== *)
(** * [pkg/discovery]: requests, and the targets of the SSH plugin

    [discovery.go] and, of [sshlinux], the reading of targets and the validation of a
    configuration; the connection itself is the SSH library's. *)

From S2P Require Import Prelude Bytes Text Time Model.

(** [discovery.Request]; no caller sets options. *)
Record DiscoveryRequest := mkDiscoveryRequest {
  Request_JobID : string;
  Request_SiteID : string;
  Request_CollectorID : string;
  Request_Targets : list string;
  Request_Deadline : time;
}.

(** ** Targets *)

(** [net.SplitHostPort] *)
Definition SplitHostPort (hostport : string) : go (string * string) :=
  match cut_last ":"%char hostport with
  | None => Err "missing port in address"%string
  | Some (before, port) =>
    match hostport with
    | String "["%char rest =>
      match cut_byte "]"%char rest with
      | None => Err "missing ']' in address"%string
      | Some (host, after) =>
        if String.eqb after "" then Err "missing port in address"%string
        else if String.eqb before ("[" +:+ host +:+ "]") then
          reject contains_byte "["%char rest with "unexpected '[' in address"%string ;;
          reject contains_byte "]"%char after with "unexpected ']' in address"%string ;;
          Ok (host, port)
        else if has_prefix after ":" then Err "too many colons in address"%string
        else Err "missing port in address"%string
      end
    | _ =>
      reject contains_byte ":"%char before with "too many colons in address"%string ;;
      reject contains_byte "["%char hostport with "unexpected '[' in address"%string ;;
      reject contains_byte "]"%char hostport with "unexpected ']' in address"%string ;;
      Ok (before, port)
    end
  end.

Record target := mkTarget { Address : string; Username : string }.

Definition parseTarget (raw : string) : go target :=
  match cut_last "@"%char raw with
  | Some (user, address) =>
    reject String.eqb user "" || String.eqb address "" with "SSH target %q must be username@host:port"%string ;;
    try host_port := SplitHostPort address ;;
    Ok (mkTarget address user)
  | None => Err "SSH target %q must be username@host:port"%string
  end.

(** ** The configuration of the SSH plugin *)

Record SSHPluginConfig := mkSSHPluginConfig {
  SSH_Password : string;
  SSH_Signer : option string;              (* the private key *)
  SSH_HostKeyCallback : bool;              (* not nil *)
  SSH_Concurrency : Z;
  SSH_ConnectTimeout : duration;
  SSH_CommandTimeout : duration;
  SSH_MaxOutputBytes : Z;
}.

Fixpoint parse_all (targets : list string) : go unit :=
  match targets with [] => Ok tt | raw :: targets => try t := parseTarget raw ;; parse_all targets end.

Definition SSH_ValidateConfiguration (c : SSHPluginConfig) (r : DiscoveryRequest) : go unit :=
  reject llen (Request_Targets r) =? 0 with "at least one SSH target is required"%string ;;
  reject negb (SSH_HostKeyCallback c) with "SSH host key callback is required"%string ;;
  reject String.eqb (SSH_Password c) "" && bool_decide (SSH_Signer c = None) with "SSH password or private key is required"%string ;;
  reject (SSH_Concurrency c <? 0) || (1024 <? SSH_Concurrency c) with "SSH concurrency must be between 0 (default) and 1024"%string ;;
  reject SSH_MaxOutputBytes c <? 0 with "SSH maximum command output cannot be negative"%string ;;
  parse_all (Request_Targets r).

(** [local.Plugin.ValidateConfiguration] *)
Definition Local_ValidateConfiguration (r : DiscoveryRequest) : go unit :=
  reject (0 <? llen (Request_Targets r)) && negb (bool_decide (Request_Targets r = ["local"%string]))
    with "unsupported discovery target"%string ;;
  Ok tt.

Lemma parse_all_ok targets : parse_all targets = Ok tt ↔ Forall (λ raw, is_ok (parseTarget raw) = true) targets.
Proof.
  induction targets as [|raw targets IH]; simpl; [by split; [constructor|]|]. rewrite Forall_cons, <-IH.
  destruct (parseTarget raw); simpl; [|by split; [|intros []]]. tauto.
Qed.

(** A target is a user, the last at-sign, and an address of a host and a port. *)
Lemma parseTarget_ok raw t : parseTarget raw = Ok t →
  raw = (Username t +:+ String "@" (Address t))%string ∧ Username t ≠ ""%string ∧ free_of "@"%char (Address t) ∧
  is_ok (SplitHostPort (Address t)) = true.
Proof.
  unfold parseTarget. destruct (cut_last "@"%char raw) as [[user address]|] eqn:Hc; [|done]. apply cut_last_spec in Hc as [-> Hf].
  destruct (String.eqb_spec user ""), (String.eqb_spec address ""); [done..|]. simpl.
  destruct (SplitHostPort address) eqn:Hs; [|done]. intros [= <-]. simpl. by rewrite Hs.
Qed.

Example split_v6 : SplitHostPort "[fe80::1]:22" = Ok ("fe80::1"%string, "22"%string).
Proof. reflexivity. Qed.
Example split_colons : SplitHostPort "fe80::1:22" = Err "too many colons in address"%string.
Proof. reflexivity. Qed.
Example parse_last_at : parseTarget "root@corp@10.0.0.1:22" = Ok (mkTarget "10.0.0.1:22" "root@corp").
Proof. reflexivity. Qed.
