(* ===== verification/SSHLinux.v ===== *)
(** * [pkg/discovery/sshlinux]: the inventory of a Linux host over SSH

    The allowlist of commands, the bounded output of a session, the parsers of
    [parser.go], the discovery of one target and of a request.  What the SSH server does
    with a command is an argument ([session]); decoding the JSON of [ip -j address show]
    is [encoding/json]'s, an argument [unmarshal]. *)

From S2P Require Import Prelude Bytes Text Strconv Time Model Discovery Servicenow Topology.

(** ** Commands *)

Definition CommandHostname : string := "hostname".
Definition CommandMachineID : string := "cat /etc/machine-id".
Definition CommandOSRelease : string := "cat /etc/os-release".
Definition CommandArch : string := "uname -m".
Definition CommandCPUCount : string := "getconf _NPROCESSORS_ONLN".
Definition CommandMemoryMB : string := "awk '/MemTotal/ {print int($2/1024)}' /proc/meminfo".
Definition CommandSerial : string := "cat /sys/class/dmi/id/product_serial".
Definition CommandInterfaces : string := "ip -j address show".
Definition CommandPackages : string := "if command -v dpkg-query >/dev/null 2>&1; then dpkg-query -W -f='${Package}\n'; elif command -v rpm >/dev/null 2>&1; then rpm -qa --qf '%{NAME}\n'; fi".
Definition CommandServices : string := "systemctl list-units --type=service --all --no-legend --no-pager".

Definition AllowedCommands : list string :=
  [CommandHostname; CommandMachineID; CommandOSRelease; CommandArch; CommandCPUCount;
   CommandMemoryMB; CommandSerial; CommandInterfaces; CommandPackages; CommandServices].

Definition IsAllowedCommand (command : string) : bool := existsb (String.eqb command) AllowedCommands.

Fixpoint label_from (i : Z) (commands : list string) (cmd : string) : string :=
  match commands with
  | [] => "command"
  | c :: commands => if String.eqb c cmd then ("command_" +:+ decimal (i + 1))%string else label_from (i + 1) commands cmd
  end.
Definition commandLabel (cmd : string) : string := label_from 0 AllowedCommands cmd.

(** ** The output of a session *)

Record boundedOutput := mkBoundedOutput { output_data : string; output_remaining : Z; output_exceeded : bool }.

(** [boundedOutput.Write]; it reports all of [p] as written. *)
Definition output_Write (b : boundedOutput) (p : string) : boundedOutput :=
  let long := output_remaining b <? slen p in
  let p := if long then take_string (Z.to_nat (output_remaining b)) p else p in
  mkBoundedOutput (output_data b +:+ p) (output_remaining b - slen p) (long || output_exceeded b).

(** What the server makes of one command: no session; no end before the command's
    context ends; or an end, the writes to both streams in their order and the result of
    [session.Run]. *)
Inductive session :=
| session_refused (e : string)
| session_expired (e : string)
| session_ended (writes : list string) (err : option string).

(** What the client does with the connection. *)
Inductive ssh_event := ssh_ran (cmd : string) | ssh_closed.

Definition maxOutput (c : SSHPluginConfig) : Z := if SSH_MaxOutputBytes c =? 0 then 4 * 2^20 else SSH_MaxOutputBytes c.

Definition runCommand (c : SSHPluginConfig) (answer : string → session) (cmd : string) : list ssh_event * go string :=
  if negb (IsAllowedCommand cmd) then ([], Err "command is not allowlisted"%string)
  else match answer cmd with
  | session_refused e => ([], Err e)
  | session_expired e => ([ssh_ran cmd; ssh_closed], Err e)
  | session_ended writes err =>
    let output := foldl output_Write (mkBoundedOutput "" (maxOutput c) false) writes in
    ([ssh_ran cmd],
     if output_exceeded output then Err "command output exceeded %d bytes"%string
     else match err with Some e => Err e | None => Ok (output_data output) end)
  end.

(** ** Parsing *)

Record Interface := mkInterface { Interface_Index : Z; Interface_Name : string; Interface_MAC : string; Interface_Addresses : list string }.

Record Inventory := mkInventory {
  Hostname : string; MachineID : string; OSName : string; OSVersion : string; Architecture : string; Serial : string;
  CPUCount : Z; MemoryMB : Z;
  Interfaces : list Interface;
  Packages : list string; Services : list string;
}.

Record addrInfo := mkAddrInfo { Local : string; PrefixLen : Z }.
Record ipAddress := mkIPAddress { IfIndex : Z; IfName : string; ipAddress_Address : string; AddrInfo : list addrInfo }.

(** The loop of [ParseOSRelease]: a later line for the same key wins. *)
Definition os_release_line (values : gmap string string) (line : string) : gmap string string :=
  match cut_byte "="%char line with
  | Some (key, value) => <[key := trim_byte (byte_of 34) value]> values
  | None => values
  end.

Definition ParseOSRelease (raw : string) : string * string :=
  let values := foldl os_release_line ∅ (scan_lines MaxScanTokenSize raw).1 in
  let name := map_get values "NAME" in
  (if String.eqb name "" then map_get values "ID" else name, map_get values "VERSION_ID").

Definition ParseInterfaces (unmarshal : string → go (list ipAddress)) (raw : string) : go (list Interface) :=
  try entries := unmarshal raw ;;
  Ok ((λ e, mkInterface (IfIndex e) (IfName e) (ipAddress_Address e)
             ((λ a, (Local a +:+ "/" +:+ decimal (PrefixLen a))%string) <$> AddrInfo e)) <$> entries).

Definition ParsePositiveInt (field raw : string) : go Z :=
  match Atoi (trim_space raw) with
  | Some v => reject v <? 1 with "invalid %s %q"%string ;; Ok v
  | None => Err "invalid %s %q"%string
  end.

(** The loop of [ParseLines]; [out] are the texts seen. *)
Fixpoint parse_lines (out : list string) (lines : list string) : list string :=
  match lines with
  | [] => out
  | line :: lines =>
    let line := trim_space line in
    if String.eqb line "" then parse_lines out lines
    else
      let line := match Fields line with field :: _ => field | [] => line end in
      parse_lines (if bool_decide (line ∈ out) then out else out ++ [line]) lines
  end.
Definition ParseLines (raw : string) : list string := parse_lines [] (scan_lines MaxScanTokenSize raw).1.
Definition ParseServices (raw : string) : list string := (λ service, trim_suffix service ".service") <$> ParseLines raw.

(** [Inventory.Assets] *)
Definition host_attributes (i : Inventory) : gmap string any :=
  list_to_map [("os", any_string "linux"); ("os_name", any_string (OSName i)); ("os_version", any_string (OSVersion i));
    ("architecture", any_string (Architecture i)); ("cpu_logical_count", any_int (CPUCount i));
    ("memory_mb", any_int (MemoryMB i)); ("packages", any_strings (Packages i)); ("services", any_strings (Services i))]%string.

Definition host_asset (i : Inventory) (ev : list Evidence) : Asset :=
  mkAsset AssetHost (MachineID i) (Hostname i)
    (list_to_map [("machine_id", MachineID i); ("serial_number", Serial i); ("hostname", Hostname i)]%string)
    (host_attributes i) ev.

Definition interface_asset (i : Inventory) (ev : list Evidence) (iface : Interface) : Asset :=
  mkAsset AssetNetworkInterface (interface_id (MachineID i) (Interface_Index iface)) (Interface_Name iface)
    (list_to_map [("host_machine_id", MachineID i); ("mac_address", Interface_MAC iface)]%string)
    (list_to_map [("mac_address", any_string (Interface_MAC iface)); ("addresses", any_strings (Interface_Addresses iface))]%string) ev.

Definition Inventory_Assets (i : Inventory) (now : time) : list Asset * list Relationship :=
  let ev := plugin_evidence "ssh-linux" now in
  (host_asset i ev :: (interface_asset i ev <$> Interfaces i),
   (λ iface, mkRelationship "host_has_interface" (MachineID i) (interface_id (MachineID i) (Interface_Index iface)) ev) <$> Interfaces i).

(** ** Discovery *)

Definition ssh_error (code : string) (t : target) (message : string) (retryable : bool) : CollectionError :=
  mkCollectionError code (Address t +:+ ": " +:+ message)%string retryable.

Definition required_command (cmd : string) : bool := negb (String.eqb cmd CommandPackages) && negb (String.eqb cmd CommandServices).

(** The loop over the commands: the outputs, or the errors with that of a required one. *)
Fixpoint run_commands (c : SSHPluginConfig) (answer : string → session) (t : target) (commands : list string)
    (outputs : gmap string string) (errs : list CollectionError)
    : list ssh_event * result (list CollectionError) (gmap string string * list CollectionError) :=
  match commands with
  | [] => ([], Ok (outputs, errs))
  | cmd :: commands =>
    let '(events, out) := runCommand c answer cmd in
    match out with
    | Ok out =>
      let '(rest, r) := run_commands c answer t commands (<[cmd := out]> outputs) errs in (events ++ rest, r)
    | Err e =>
      if required_command cmd then (events, Err (errs ++ [ssh_error "ssh_command" t (commandLabel cmd +:+ ": " +:+ e)%string true]))
      else let '(rest, r) := run_commands c answer t commands outputs
                               (errs ++ [ssh_error "ssh_partial" t (commandLabel cmd +:+ ": " +:+ e)%string false]) in
           (events ++ rest, r)
    end
  end.

(** From the outputs to the inventory. *)
Definition parse_outputs (unmarshal : string → go (list ipAddress)) (outputs : gmap string string) : go Inventory :=
  let out := map_get outputs in
  let '(osName, osVersion) := ParseOSRelease (out CommandOSRelease) in
  try cpu := ParsePositiveInt "CPU count" (out CommandCPUCount) ;;
  try memory := ParsePositiveInt "memory" (out CommandMemoryMB) ;;
  try ifaces := ParseInterfaces unmarshal (out CommandInterfaces) ;;
  let inv := mkInventory (trim_space (out CommandHostname)) (trim_space (out CommandMachineID)) osName osVersion
               (trim_space (out CommandArch)) (trim_space (out CommandSerial)) cpu memory ifaces
               (ParseLines (out CommandPackages)) (ParseServices (out CommandServices)) in
  reject String.eqb (Hostname inv) "" || String.eqb (MachineID inv) "" with "empty hostname or machine ID"%string ;;
  Ok inv.

Definition discoverTarget (c : SSHPluginConfig) (unmarshal : string → go (list ipAddress)) (dial : go unit)
    (answer : string → session) (t : target) : list ssh_event * (option Inventory * list CollectionError) :=
  match dial with
  | Err e => ([], (None, [ssh_error "ssh_connect" t e true]))
  | Ok _ =>
    let '(events, r) := run_commands c answer t AllowedCommands ∅ [] in
    (events ++ [ssh_closed],
     match r with
     | Err errs => (None, errs)
     | Ok (outputs, errs) =>
       match parse_outputs unmarshal outputs with
       | Err e => (None, errs ++ [ssh_error "ssh_parse" t e false])
       | Ok inv => (Some inv, errs)
       end
     end)
  end.

Definition defaultValue (v d : string) : string := if String.eqb v "" then d else v.

(** [Plugin.Discover]: [finished] are the targets with their outcomes in the order their
    workers take the lock, [ended] is the error of the context when it ends before the
    last target is handed out. *)
Definition Discover (c : SSHPluginConfig) (r : DiscoveryRequest) (now : time) (id : string) (ended : option string)
    (finished : list (target * (option Inventory * list CollectionError))) : go ObservationEnvelope :=
  try u := SSH_ValidateConfiguration c r ;;
  let obs := mkObservationEnvelope SchemaVersion id (defaultValue (Request_SiteID r) "default")
               (defaultValue (Request_CollectorID r) "ssh-relay") "ssh-linux" (Request_JobID r) now [] [] [] ∅ in
  match ended with
  | Some e => Err e
  | None => Ok (foldl (merge_outcome Inventory_Assets now) obs (snd <$> finished))
  end.

(** ** Lemmas *)

Lemma ssh_assets_promise i now :
  host_part (MachineID i) (Interface_Index <$> Interfaces i) (Inventory_Assets i now).1 (Inventory_Assets i now).2.
Proof.
  split.
  - eexists _, _. split_and!; [done|done|done|..]; by rewrite <-!list_fmap_compose.
  - simpl. by rewrite <-!list_fmap_compose.
Qed.

#[export] Instance ssh_host_plugin : HostPlugin Inventory := {|
  plugin_assets := Inventory_Assets;
  plugin_host := MachineID;
  plugin_indexes := λ i, Interface_Index <$> Interfaces i;
  plugin_promise := ssh_assets_promise;
|}.

(** The output never exceeds the bound; it is all that was written unless it is marked. *)
Definition output_ok (bound : Z) (written : string) (b : boundedOutput) : Prop :=
  0 <= output_remaining b ∧ slen (output_data b) + output_remaining b = bound ∧
  (output_exceeded b = false → output_data b = written).

Lemma take_string_slen n s : Z.of_nat n <= slen s → slen (take_string n s) = Z.of_nat n.
Proof.
  unfold slen. revert s. induction n as [|n IH]; intros [|c s]; simpl; try lia. intros H. rewrite Nat2Z.inj_succ, IH; lia.
Qed.

Lemma output_Write_ok bound written b p : output_ok bound written b → output_ok bound (written +:+ p) (output_Write b p).
Proof.
  intros (H0 & Hb & Hw). unfold output_Write, output_ok. cbn [output_remaining output_data output_exceeded].
  rewrite !slen_app. destruct (Z.ltb_spec (output_remaining b) (slen p)) as [Hl|Hl].
  - rewrite take_string_slen by lia. split_and!; [lia|lia|done].
  - split_and!; [lia|lia|]. intros H. by rewrite Hw.
Qed.

Lemma outputs_ok bound writes written b : output_ok bound written b →
  output_ok bound (written +:+ String.concat "" writes) (foldl output_Write b writes).
Proof.
  revert written b. induction writes as [|p writes IH]; intros written b H.
  - simpl. by rewrite string_app_nil_r.
  - cbn [foldl]. rewrite concat_cons, <-string_app_assoc. by apply IH, output_Write_ok.
Qed.

(** A command that succeeds is allowed, and its output is all the server wrote, within the bound. *)
Lemma runCommand_ok c answer cmd events out : 0 <= SSH_MaxOutputBytes c → runCommand c answer cmd = (events, Ok out) →
  events = [ssh_ran cmd] ∧ IsAllowedCommand cmd = true ∧ slen out <= maxOutput c ∧
  ∃ writes, answer cmd = session_ended writes None ∧ out = String.concat "" writes.
Proof.
  intros Hc. unfold runCommand. destruct (IsAllowedCommand cmd) eqn:Ha; [|done]. cbn [negb].
  destruct (answer cmd) as [e|e|writes err] eqn:Hs; [done|done|]. 
  assert (output_ok (maxOutput c) "" (mkBoundedOutput "" (maxOutput c) false)) as H0.
  { split_and!; simpl; [|done|done]. unfold maxOutput. destruct (SSH_MaxOutputBytes c =? 0); lia. }
  destruct (outputs_ok _ writes _ _ H0) as (Hr & Hb & Hw). destruct (output_exceeded _); [done|]. destruct err; [done|].
  intros [= <- <-]. split_and!; [done|done|lia|]. exists writes. split; [done|]. by rewrite Hw.
Qed.

Lemma runCommand_events c answer cmd ev : ev ∈ (runCommand c answer cmd).1 → ev = ssh_closed ∨ (ev = ssh_ran cmd ∧ IsAllowedCommand cmd = true).
Proof.
  unfold runCommand. destruct (IsAllowedCommand cmd); cbn [negb]; [|by intros H%elem_of_nil].
  destruct (answer cmd); cbn [fst]; rewrite ?elem_of_cons, ?elem_of_nil; tauto.
Qed.

(** *** The loop over the commands *)

Definition ran_of (ev : ssh_event) : option string := match ev with ssh_ran cmd => Some cmd | ssh_closed => None end.
Definition ssh_partial (e : CollectionError) : Prop := CollectionError_Code e = "ssh_partial"%string ∧ CollectionError_Retryable e = false.

Section commands.
Context (c : SSHPluginConfig) (answer : string → session) (t : target).

Definition command_output (cmd : string) : go string := (runCommand c answer cmd).2.
Definition consistent (outputs : gmap string string) : Prop := ∀ k v, outputs !! k = Some v → command_output k = Ok v.

Lemma runCommand_ran cmd : omap ran_of (runCommand c answer cmd).1 `sublist_of` [cmd].
Proof.
  unfold runCommand. destruct (IsAllowedCommand cmd); cbn [negb]; [|apply sublist_nil_l].
  destruct (answer cmd); simpl; [apply sublist_nil_l|reflexivity..].
Qed.

Lemma run_commands_ran cmds outputs errs : omap ran_of (run_commands c answer t cmds outputs errs).1 `sublist_of` cmds.
Proof.
  revert outputs errs. induction cmds as [|cmd cmds IH]; intros outputs errs; [done|]. cbn [run_commands].
  pose proof (runCommand_ran cmd) as Hr. destruct (runCommand c answer cmd) as [events [out|e]]; cbn [fst] in *;
    [|destruct (required_command cmd); [cbn [fst]; etrans; [exact Hr|]; apply sublist_skip, sublist_nil_l|]].
  all: destruct (run_commands _ _ _ _ _ _) as [rest r] eqn:E; cbn [fst]; rewrite omap_app;
    change (cmd :: cmds) with ([cmd] ++ cmds); apply sublist_app; [done|];
    match type of E with run_commands _ _ _ _ ?o ?es = _ => specialize (IH o es) end; by rewrite E in IH.
Qed.

Lemma run_commands_result cmds outputs errs : consistent outputs →
  match (run_commands c answer t cmds outputs errs).2 with
  | Ok (outputs', errs') =>
    consistent outputs' ∧ (∀ k, is_Some (outputs !! k) → is_Some (outputs' !! k)) ∧
    (∀ cmd, cmd ∈ cmds → (∃ out, command_output cmd = Ok out ∧ outputs' !! cmd = Some out) ∨
                         (required_command cmd = false ∧ ∃ e, command_output cmd = Err e)) ∧
    ∃ es, errs' = errs ++ es ∧ Forall ssh_partial es
  | Err errs' => ∃ es e, errs' = errs ++ es ++ [e] ∧ Forall ssh_partial es ∧ CollectionError_Code e = "ssh_command"%string
  end.
Proof.
  revert outputs errs. induction cmds as [|cmd cmds IH]; intros outputs errs Hc; cbn [run_commands].
  { split_and!; [done|auto|by intros cmd H%elem_of_nil|]. exists []. rewrite app_nil_r. auto. }
  destruct (runCommand c answer cmd) as [events [out|e]] eqn:Hr; swap 1 2.
  - destruct (required_command cmd) eqn:Hq; cbn [snd].
    { exists [], (ssh_error "ssh_command" t (commandLabel cmd +:+ ": " +:+ e) true). auto. }
    match goal with |- context [run_commands _ _ _ _ ?o ?es] => specialize (IH o es Hc); destruct (run_commands _ _ _ _ o es) as [rest r] end.
    cbn [snd] in *. destruct r as [[outputs' errs']|errs']; swap 1 2.
    + destruct IH as (es & e' & -> & Hes & Hcode). eexists (_ :: es), e'. rewrite <-app_assoc. split_and!; [done| |done]. by constructor.
    + destruct IH as (H1 & H2 & H3 & es & -> & Hes). split_and!; [done|done| |].
      * intros k [->|Hk]%elem_of_cons; [|auto]. right. split; [done|]. exists e. unfold command_output. by rewrite Hr.
      * eexists (_ :: es). rewrite <-app_assoc. split; [done|]. by constructor.
  - assert (consistent (<[cmd:=out]> outputs)) as Hc'.
    { intros k v. rewrite lookup_insert_Some. intros [[<- <-]|[_ Hk]]; [|auto]. unfold command_output. by rewrite Hr. }
    specialize (IH _ errs Hc'). destruct (run_commands _ _ _ _ _ _) as [rest r]. cbn [snd] in *. destruct r as [[outputs' errs']|errs']; [|done].
    destruct IH as (H1 & H2 & H3 & Hes). split_and!; [done| | |done].
    + intros k Hk. apply H2. destruct (decide (cmd = k)) as [->|]; [rewrite lookup_insert_eq; eauto|by rewrite lookup_insert_ne].
    + intros k [->|Hk]%elem_of_cons; [|auto]. left. destruct (H2 cmd) as [v Hv]; [rewrite lookup_insert_eq; eauto|].
      exists out. assert (command_output cmd = Ok out) as Ho by (unfold command_output; by rewrite Hr). split; [done|].
      rewrite Hv. apply H1 in Hv. congruence.
Qed.
End commands.

(** *** What the parsers return *)

Lemma fields_from_nonempty word cs f : f ∈ fields_from word cs → f ≠ ""%string.
Proof.
  assert (∀ w : list Z, w ≠ [] → string_of_bytes w ≠ ""%string) as Hne by (by intros [|b w]).
  revert word. induction cs as [|[r bs] cs IH]; intros word; simpl.
  - case_bool_decide; [by intros ?%elem_of_nil|]. intros ->%list_elem_of_singleton. auto.
  - destruct (is_space r); [|apply IH]. intros [H|H]%elem_of_app; [|by eapply IH].
    revert H. case_bool_decide; [by intros ?%elem_of_nil|]. intros ->%list_elem_of_singleton. auto.
Qed.

Lemma parse_lines_ok out lines : NoDup out → ""%string ∉ out → NoDup (parse_lines out lines) ∧ ""%string ∉ parse_lines out lines.
Proof.
  revert out. induction lines as [|line lines IH]; intros out Hn He; cbn [parse_lines]; [done|].
  destruct (String.eqb_spec (trim_space line) ""); [auto|]. cbv zeta.
  set (word := match Fields (trim_space line) with field :: _ => field | [] => trim_space line end).
  assert (word ≠ ""%string) as Hw.
  { subst word. destruct (Fields (trim_space line)) as [|f fs] eqn:E; [done|]. apply (fields_from_nonempty [] (chunks (trim_space line))).
    unfold Fields in E. rewrite E. left. }
  case_bool_decide; [by apply IH|]. apply IH.
  - apply NoDup_app. split_and!; [done|set_solver|apply NoDup_singleton].
  - rewrite elem_of_app, list_elem_of_singleton. naive_solver.
Qed.

Lemma ParsePositiveInt_ok field raw v : ParsePositiveInt field raw = Ok v → 1 <= v <= int64_max.
Proof.
  unfold ParsePositiveInt. destruct (Atoi _) as [z|] eqn:Hz; [|done]. apply Atoi_in_int64 in Hz. unfold in_int64 in Hz.
  destruct (Z.ltb_spec z 1); [done|]. intros [= <-]. lia.
Qed.

(** What an inventory stands for: complete answers to every required command, each within
    the bound, and the parsed texts. *)
Record inventory_read (c : SSHPluginConfig) (unmarshal : string → go (list ipAddress)) (answer : string → session)
    (inv : Inventory) : Prop := {
  read_outputs : ∃ outputs, parse_outputs unmarshal outputs = Ok inv ∧
    ∀ cmd, cmd ∈ AllowedCommands → required_command cmd = true →
      ∃ writes, answer cmd = session_ended writes None ∧ slen (String.concat "" writes) <= maxOutput c ∧
        outputs !! cmd = Some (String.concat "" writes);
  read_identity : Hostname inv ≠ ""%string ∧ MachineID inv ≠ ""%string;
  read_sizes : 1 <= CPUCount inv <= int64_max ∧ 1 <= MemoryMB inv <= int64_max;
  read_packages : NoDup (Packages inv) ∧ ""%string ∉ Packages inv;
}.

Lemma parse_outputs_ok unmarshal outputs inv : parse_outputs unmarshal outputs = Ok inv →
  (Hostname inv ≠ ""%string ∧ MachineID inv ≠ ""%string) ∧
  (1 <= CPUCount inv <= int64_max ∧ 1 <= MemoryMB inv <= int64_max) ∧ NoDup (Packages inv) ∧ ""%string ∉ Packages inv.
Proof.
  unfold parse_outputs. destruct (ParseOSRelease _) as [n v].
  destruct (ParsePositiveInt "CPU count" _) eqn:Hcpu; [|done]. destruct (ParsePositiveInt "memory" _) eqn:Hmem; [|done].
  destruct (ParseInterfaces _ _); [|done]. cbv zeta.
  match goal with |- (if String.eqb ?a ?b || String.eqb ?c ?d then _ else _) = _ → _ => destruct (String.eqb_spec a b), (String.eqb_spec c d) end;
    [done..|]. intros [= <-]. apply ParsePositiveInt_ok in Hcpu, Hmem. split; [done|]. split; [simpl; lia|].
  apply parse_lines_ok; [constructor|by intros ?%elem_of_nil].
Qed.

(** C16: one SSH target costs at most one run of each compiled-in command, in order, and the
    connection is closed at the end; an inventory is returned only when every required
    command answered completely within the output bound, it has a host name, a machine ID
    and positive sizes, and its packages are distinct; without one the last error says why,
    and all other errors are partial ones. *)
Theorem discoverTarget_spec c unmarshal dial answer t : 0 <= SSH_MaxOutputBytes c →
  let '(events, (found, errs)) := discoverTarget c unmarshal dial answer t in
  omap ran_of events `sublist_of` AllowedCommands ∧ (dial = Ok tt → last events = Some ssh_closed) ∧
  match found with
  | Some inv => inventory_read c unmarshal answer inv ∧ Forall ssh_partial errs
  | None => ∃ es e, errs = es ++ [e] ∧ Forall ssh_partial es ∧
      CollectionError_Code e ∈ ["ssh_connect"; "ssh_command"; "ssh_parse"]%string
  end.
Proof.
  intros Hc. unfold discoverTarget. destruct dial as [[]|e].
  2: { split_and!; [apply sublist_nil_l|done|]. eexists [], _. split_and!; [done|done|left]. }
  pose proof (run_commands_ran c answer t AllowedCommands ∅ []) as Hran.
  pose proof (run_commands_result c answer t AllowedCommands ∅ [] ltac:(intros k v; by rewrite lookup_empty)) as Hres.
  destruct (run_commands c answer t AllowedCommands ∅ []) as [events r]. cbn [fst snd] in *.
  assert (omap ran_of (events ++ [ssh_closed]) `sublist_of` AllowedCommands) as Hsub by (rewrite omap_app; simpl; by rewrite app_nil_r).
  pose proof (last_snoc ssh_closed events) as Hlast. destruct r as [[outputs errs]|errs].
  2: { split_and!; [done|done|]. destruct Hres as (es & e & -> & Hes & Hcode). exists es, e. rewrite Hcode. split_and!; [done|done|right; left]. }
  destruct Hres as (Hcons & _ & Hall & es & -> & Hes). destruct (parse_outputs unmarshal outputs) as [inv|e] eqn:Hp; (split; [done|split; [done|]]).
  2: { exists es, (ssh_error "ssh_parse" t e false). split_and!; [done|done|right; right; left]. }
  split; [|done]. destruct (parse_outputs_ok _ _ _ Hp) as (? & ? & ? & ?). split; [|done..]. exists outputs. split; [done|].
  intros cmd Hin Hq. destruct (Hall cmd Hin) as [(out & Ho & Hl)|[Hf _]]; [|congruence]. unfold command_output in Ho.
  destruct (runCommand c answer cmd) as [ev go_out] eqn:Hr. cbn [snd] in Ho. subst go_out.
  destruct (runCommand_ok _ _ _ _ _ Hc Hr) as (_ & _ & Hs & writes & Ha & ->). eauto.
Qed.

(** The envelope of a request, whatever order the targets finish in. *)
Lemma Discover_envelope c r now id finished e : Discover c r now id None finished = Ok e →
  Envelope_Assets e = all_found plugin_assets now (inventories (snd <$> finished)) ∧
  Envelope_Relationships e = all_linked plugin_assets now (inventories (snd <$> finished)) ∧
  Envelope_Errors e = (finished ≫= λ f, f.2.2) ∧
  Envelope_SchemaVersion e = SchemaVersion ∧ Envelope_ObservationID e = id ∧ Envelope_Plugin e = "ssh-linux"%string ∧
  Envelope_SiteID e = defaultValue (Request_SiteID r) "default" ∧
  Envelope_CollectorID e = defaultValue (Request_CollectorID r) "ssh-relay" ∧ Envelope_ObservedAt e = now.
Proof.
  unfold Discover. destruct (SSH_ValidateConfiguration c r); [|done]. rewrite merge_outcomes. intros [= <-]. simpl.
  split_and!; try done. induction finished as [|[t [o es]] finished IH]; [done|]. exact (f_equal (app es) IH).
Qed.

(** C32: discovery feeds publication: the envelope an SSH discovery returns, with its targets
    finishing in any order, is accepted by the ServiceNow publisher, provided only that
    machine IDs have no colon, texts are within the publisher's limits and there are at most
    [MaxItems] assets; its structure is never a reason to refuse it. *)
Theorem ssh_envelope_is_publishable c r now id finished e :
  Discover c r now id None finished = Ok e → IsZero now = false → validIdentity id = true →
  validIdentity (defaultValue (Request_SiteID r) "default") = true →
  validIdentity (defaultValue (Request_CollectorID r) "ssh-relay") = true →
  inventories (snd <$> finished) ≠ [] →
  Forall (λ i, contains_byte ":"%char (MachineID i) = false) (inventories (snd <$> finished)) →
  Forall text_ok (Envelope_Assets e) → llen (Envelope_Assets e) <= MaxItems →
  validateEnvelopes [e] = Ok tt.
Proof.
  intros (Ha & Hr & _ & Hv & Hid & Hp & Hsite & Hcol & Ho)%Discover_envelope Hz H1 H2 H3 Hne Hc Ht Hs.
  eapply (host_envelope_accepted now); [|done..]. split_and!; [done|by rewrite Ho|].
  rewrite Hid, Hsite, Hcol, Hp. by repeat constructor.
Qed.

(** ** Examples *)

Definition line (s : string) : string := (s +:+ char 10)%string.
Definition demo_answer (cmd : string) : session :=
  if String.eqb cmd CommandHostname then session_ended ["we"; line "b-1"]%string None
  else if String.eqb cmd CommandMachineID then session_ended [line "0123abcd"] None
  else if String.eqb cmd CommandOSRelease then session_ended [line ("NAME=" +:+ char 34 +:+ "Debian" +:+ char 34); line "VERSION_ID=12"]%string None
  else if String.eqb cmd CommandArch then session_ended [line "x86_64"] None
  else if String.eqb cmd CommandCPUCount then session_ended [line "4"] None
  else if String.eqb cmd CommandMemoryMB then session_ended [line "7963"] None
  else if String.eqb cmd CommandServices then session_ended [line "ssh.service loaded active running"] None
  else if String.eqb cmd CommandPackages then session_expired "context deadline exceeded"
  else session_ended [] None.
Definition demo_unmarshal (raw : string) : go (list ipAddress) :=
  Ok [mkIPAddress 2 "eth0" "52:54:00:12:34:56" [mkAddrInfo "10.0.0.5" 24]].
Definition demo_config : SSHPluginConfig := mkSSHPluginConfig "secret" None true 0 0 0 0.
Definition demo_target : target := mkTarget "10.0.0.5:22" "root".
Definition demo_request : DiscoveryRequest := mkDiscoveryRequest "job-1" "" "" ["root@10.0.0.5:22"%string] 0.
Definition demo_inventory : Inventory :=
  mkInventory "web-1" "0123abcd" "Debian" "12" "x86_64" "" 4 7963
    [mkInterface 2 "eth0" "52:54:00:12:34:56" ["10.0.0.5/24"%string]] [] ["ssh"%string].

Example demo_discovered : (discoverTarget demo_config demo_unmarshal (Ok tt) demo_answer demo_target).2 =
  (Some demo_inventory, [ssh_error "ssh_partial" demo_target "command_9: context deadline exceeded" false]).
Proof. vm_compute. reflexivity. Qed.

(** [systemctl] marks a unit that is not active with a bullet in front of its name, and the
    first word of the line is then the bullet. *)
Example marked_service : ParseServices (line "* cups.service not-found inactive dead" +:+ line "* nfs.service loaded failed failed") = ["*"%string].
Proof. vm_compute. reflexivity. Qed.

(** Names told apart only by the suffix are listed twice. *)
Example service_listed_twice : ParseServices (line "a.service" +:+ line "a") = ["a"; "a"]%string.
Proof. vm_compute. reflexivity. Qed.

Lemma discoverTarget_spec_witness :
  inventory_read demo_config demo_unmarshal demo_answer demo_inventory.
Proof.
  pose proof (discoverTarget_spec demo_config demo_unmarshal (Ok tt) demo_answer demo_target ltac:(simpl; lia)) as H.
  vm_compute in H. destruct H as (_ & _ & H & _). exact H.
Defined.

Lemma ssh_envelope_is_publishable_witness : ∃ e,
  Discover demo_config demo_request Second "obs-1" None
    [(demo_target, (discoverTarget demo_config demo_unmarshal (Ok tt) demo_answer demo_target).2)] = Ok e ∧
  validateEnvelopes [e] = Ok tt.
Proof.
  eexists. split; [vm_compute; reflexivity|].
  eapply (ssh_envelope_is_publishable demo_config demo_request Second "obs-1"
    [(demo_target, (discoverTarget demo_config demo_unmarshal (Ok tt) demo_answer demo_target).2)]).
  - vm_compute. reflexivity.
  - reflexivity.
  - vm_compute. reflexivity.
  - vm_compute. reflexivity.
  - vm_compute. reflexivity.
  - rewrite demo_discovered. done.
  - rewrite demo_discovered. repeat constructor.
  - repeat constructor; vm_compute; done.
  - vm_compute. done.
Defined.
