(* ===== verification/WinRM.v ===== *)
(** * [pkg/discovery/winrm]: the inventory of a Windows host

    [operations.go], the compiled-in operations and the match against them, and
    [parser.go], from WMI objects and JSON records to the inventory and its assets.
    [strings.ToLower] is an argument: it folds the case of all of Unicode.  [sort.Slice]
    is [sort_by]; the order of elements equal under the ordering is not specified by Go. *)

From S2P Require Import Prelude Bytes Text Strconv Time Model Netip Servicenow Topology.

(** ** Operations *)

Definition ActionEnumerate : string := "http://schemas.xmlsoap.org/ws/2004/09/enumeration/Enumerate".
Definition ActionPull : string := "http://schemas.xmlsoap.org/ws/2004/09/enumeration/Pull".
Definition DialectWQL : string := "http://schemas.microsoft.com/wbem/wsman/1/WQL".

Definition OperationComputerSystem : string := "computer_system".
Definition OperationComputerSystemProduct : string := "computer_system_product".
Definition OperationBIOS : string := "bios".
Definition OperationOperatingSystem : string := "operating_system".
Definition OperationNetwork : string := "network".
Definition OperationVolumes : string := "volumes".
Definition OperationServices : string := "services".
Definition OperationPatches : string := "patches".
Definition OperationSoftware : string := "software".

Record Operation := mkOperation { Operation_Name : string; ResourceURI : string; Query : string; Required : bool }.

#[export] Instance Operation_eq_dec : EqDecision Operation.
Proof. solve_decision. Defined.

Definition wmi_class (name : string) : string := ("http://schemas.microsoft.com/wbem/wsman/1/wmi/root/cimv2/" +:+ name)%string.

Definition auditedOperations : list Operation := [
  mkOperation OperationComputerSystem (wmi_class "Win32_ComputerSystem") "" true;
  mkOperation OperationComputerSystemProduct (wmi_class "Win32_ComputerSystemProduct") "" true;
  mkOperation OperationBIOS (wmi_class "Win32_BIOS") "" true;
  mkOperation OperationOperatingSystem (wmi_class "Win32_OperatingSystem") "" true;
  mkOperation OperationNetwork (wmi_class "*") "SELECT Description, InterfaceIndex, MACAddress, IPAddress, IPSubnet FROM Win32_NetworkAdapterConfiguration WHERE IPEnabled = TRUE" false;
  mkOperation OperationVolumes (wmi_class "*") "SELECT DeviceID, VolumeName, FileSystem, Size, FreeSpace FROM Win32_LogicalDisk WHERE DriveType = 3" false;
  mkOperation OperationServices (wmi_class "*") "SELECT Name, DisplayName, State, StartMode, StartName FROM Win32_Service" false;
  mkOperation OperationPatches (wmi_class "*") "SELECT HotFixID, Description, InstalledOn FROM Win32_QuickFixEngineering" false].

Definition MatchOperation (action resourceURI query : string) : option Operation :=
  if negb (String.eqb action ActionEnumerate) then None
  else List.find (λ o, String.eqb (ResourceURI o) resourceURI && String.eqb (Query o) query) auditedOperations.

Record Command := mkCommand { Command_Name : string; Executable : string; Arguments : list string; Command_Required : bool }.

(** [encodePowerShell]: UTF-16LE code units in base64. *)
Definition utf16_units (r : Z) : list Z :=
  if r <? 65536 then [r] else [55296 + (r - 65536) / 1024; 56320 + (r - 65536) mod 1024].
Definition little_endian16 (u : Z) : list Z := [u mod 256; u / 256].
Definition base64_digit (d : Z) : ascii :=
  if d <? 26 then byte_of (65 + d) else if d <? 52 then byte_of (97 + (d - 26))
  else if d <? 62 then byte_of (48 + (d - 52)) else if d =? 62 then "+"%char else "/"%char.
Fixpoint base64_encode (l : list Z) : string :=
  match l with
  | [] => EmptyString
  | [a] => String (base64_digit (a / 4)) (String (base64_digit (a mod 4 * 16)) "==")
  | [a; b] => String (base64_digit (a / 4)) (String (base64_digit (a mod 4 * 16 + b / 16)) (String (base64_digit (b mod 16 * 4)) "="))
  | a :: b :: c :: l =>
    String (base64_digit (a / 4)) (String (base64_digit (a mod 4 * 16 + b / 16))
      (String (base64_digit (b mod 16 * 4 + c / 64)) (String (base64_digit (c mod 64)) (base64_encode l))))
  end.
Definition encodePowerShell (script : string) : string :=
  base64_encode (mjoin (little_endian16 <$> mjoin (utf16_units <$> runes script))).

Definition softwareInventoryScript : string := "$ErrorActionPreference = 'Stop'
$utf8 = New-Object System.Text.UTF8Encoding($false)
[Console]::OutputEncoding = $utf8
$OutputEncoding = $utf8
$roots = @(
    [pscustomobject]@{ Path = 'Registry::HKEY_LOCAL_MACHINE\SOFTWARE\Microsoft\Windows\CurrentVersion\Uninstall'; Architecture = '64-bit' },
    [pscustomobject]@{ Path = 'Registry::HKEY_LOCAL_MACHINE\SOFTWARE\WOW6432Node\Microsoft\Windows\CurrentVersion\Uninstall'; Architecture = '32-bit' }
)
$items = foreach ($root in $roots) {
    if (-not (Test-Path -LiteralPath $root.Path)) { continue }
    foreach ($key in Get-ChildItem -LiteralPath $root.Path -ErrorAction Stop) {
        $value = Get-ItemProperty -LiteralPath $key.PSPath -ErrorAction Stop
        if (-not [string]::IsNullOrWhiteSpace([string]$value.DisplayName)) {
            [pscustomobject][ordered]@{
                name = [string]$value.DisplayName
                version = [string]$value.DisplayVersion
                publisher = [string]$value.Publisher
                install_date = [string]$value.InstallDate
                architecture = [string]$root.Architecture
                registry_key = [string]$key.PSChildName
            }
        }
    }
}
$items | Sort-Object name, version, architecture, registry_key | ForEach-Object { $_ | ConvertTo-Json -Compress }
".

Definition AuditedSoftwareCommand : Command :=
  mkCommand OperationSoftware "powershell.exe"
    ["-NoLogo"; "-NoProfile"; "-NonInteractive"; "-EncodedCommand"; encodePowerShell softwareInventoryScript]%string false.

Definition MatchSoftwareCommand (executable : string) (arguments : list string) : bool :=
  String.eqb executable (Executable AuditedSoftwareCommand) && bool_decide (arguments = Arguments AuditedSoftwareCommand).

(** ** Objects *)

Abbreviation object := (gmap string (list string)).

Definition values_of (value : object) (name : string) : list string := default [] (value !! name).

Definition first (value : object) (name : string) : string :=
  match values_of value name with [] => "" | v :: _ => trim_space v end.

Definition oneObject (objects : list object) : go object :=
  match objects with [o] => Ok o | _ => Err "%s returned %d objects, want 1"%string end.

Definition positiveInt (raw : string) : go Z :=
  match Atoi (trim_space raw) with
  | Some value => reject value <? 1 with "invalid %s %q"%string ;; Ok value
  | None => Err "invalid %s %q"%string
  end.
Definition positiveUint (raw : string) : go Z :=
  match ParseUint64 (trim_space raw) with
  | Some value => reject value <? 1 with "invalid %s %q"%string ;; Ok value
  | None => Err "invalid %s %q"%string
  end.
Definition nonNegativeUint (raw : string) : go Z :=
  match ParseUint64 (trim_space raw) with Some value => Ok value | None => Err "invalid %s %q"%string end.

Definition errorsForField {A} (name : string) : go A := Err ("empty " +:+ name)%string.

(** The loops over objects: the first error ends them. *)
Fixpoint parse_each {A B} (f : A → go B) (l : list A) : go (list B) :=
  match l with [] => Ok [] | x :: l => try y := f x ;; try ys := parse_each f l ;; Ok (y :: ys) end.

(** ** Addresses *)

(** [net.IPMask.Size] of an IPv4 mask: the length of a mask of leading ones, and 0 for any other. *)
Definition mask_size (v : Z) : Z := default 0 (List.find (λ n, v =? 2^32 - 2^(32 - n)) (seqZ 0 33)).

(** [net.ParseIP] and [IP.To4] *)
Definition parse_ip4 (s : string) : option Z :=
  a ← ParseAddr s;
  if negb (bool_decide (Zone a = ""%string)) then None
  else if Is4 a then Some (addr_val a)
  else if addr_val a / 2^32 =? 65535 then Some (addr_val a mod 2^32) else None.

Definition addressWithPrefix (address subnet : string) : string :=
  let address := trim_space address in
  let subnet := trim_space subnet in
  if String.eqb address "" || String.eqb subnet "" || contains_byte "/"%char address then address
  else match Atoi subnet with
  | Some prefix => (address +:+ "/" +:+ decimal prefix)%string
  | None =>
    match parse_ip4 subnet with
    | Some mask => (address +:+ "/" +:+ decimal (mask_size mask))%string
    | None => address
    end
  end.

(** The subnets go with the addresses as far as there are some. *)
Fixpoint with_prefixes (addresses subnets : list string) : list string :=
  match addresses, subnets with
  | a :: addresses, s :: subnets => addressWithPrefix a s :: with_prefixes addresses subnets
  | addresses, _ => addresses
  end.

(** ** The inventory *)

Record Interface := mkInterface { Interface_Index : Z; Interface_Name : string; Interface_MAC : string; Interface_Addresses : list string }.
Record Volume := mkVolume { DeviceID : string; Label : string; FileSystem : string; SizeBytes : Z; FreeBytes : Z }.
Record Service := mkService { Service_Name : string; DisplayName : string; State : string; StartMode : string; StartName : string }.
Record Patch := mkPatch { HotFixID : string; Patch_Description : string; InstalledOn : string }.
Record Software := mkSoftware {
  Software_Name : string; Software_Version : string; Publisher : string; InstallDate : string;
  Software_Architecture : string; RegistryKey : string;
}.

(** The optional lists are nil until they are collected. *)
Record Inventory := mkInventory {
  Hostname : string; MachineID : string; Domain : string; Manufacturer : string; ComputerModel : string;
  Serial : string; OSName : string; OSVersion : string; OSBuild : string; Architecture : string;
  DomainJoined : bool;
  CPUCount : Z; MemoryMB : Z;
  Interfaces : list Interface;
  Volumes : option (list Volume);
  Services : option (list Service);
  Patches : option (list Patch);
  InstalledSoftware : option (list Software);
}.

Section parsing.
Context (ToLower : string → string).

Definition normalizeArchitecture (value : string) : string :=
  let v := ToLower (trim_space value) in
  if bool_decide (v ∈ ["64-bit"; "amd64"; "x64"; "x86_64"]%string) then "x86_64"
  else if bool_decide (v ∈ ["32-bit"; "x86"; "i386"]%string) then "x86"
  else if bool_decide (v ∈ ["arm64"; "aarch64"]%string) then "arm64"
  else trim_space value.

Definition parseInventory (results : gmap string (list object)) : go Inventory :=
  let one name := oneObject (default [] (results !! name)) in
  try computer := one OperationComputerSystem ;;
  try product := one OperationComputerSystemProduct ;;
  try bios := one OperationBIOS ;;
  try os := one OperationOperatingSystem ;;
  try cpuCount := positiveInt (first computer "NumberOfLogicalProcessors") ;;
  try memoryBytes := positiveUint (first computer "TotalPhysicalMemory") ;;
  let hostname := first computer "Name" in
  let machineID := ToLower (first product "UUID") in
  let serial := first bios "SerialNumber" in
  reject String.eqb hostname "" || String.eqb machineID "" || String.eqb serial ""
    with "empty hostname, machine UUID, or BIOS serial"%string ;;
  match ParseBool (trim_space (first computer "PartOfDomain")) with
  | None => Err "invalid PartOfDomain %q"%string
  | Some domainJoined =>
    Ok (mkInventory hostname machineID (first computer "Domain") (first computer "Manufacturer") (first computer "Model")
          serial (first os "Caption") (first os "Version") (first os "BuildNumber")
          (normalizeArchitecture (first os "OSArchitecture")) domainJoined cpuCount (memoryBytes / (1024 * 1024))
          [] None None None None)
  end.

Definition parse_interface (value : object) : go Interface :=
  try index := positiveInt (first value "InterfaceIndex") ;;
  let mac := ToLower (first value "MACAddress") in
  if String.eqb mac "" then errorsForField "MACAddress"
  else Ok (mkInterface index (first value "Description") mac (with_prefixes (values_of value "IPAddress") (values_of value "IPSubnet"))).
Definition parseInterfaces (objects : list object) : go (list Interface) := parse_each parse_interface objects.

Definition parse_volume (value : object) : go Volume :=
  let deviceID := first value "DeviceID" in
  if String.eqb deviceID "" then errorsForField "DeviceID" else
  try size := positiveUint (first value "Size") ;;
  try free := nonNegativeUint (first value "FreeSpace") ;;
  reject size <? free with "FreeSpace %d exceeds Size %d for volume %q"%string ;;
  Ok (mkVolume deviceID (first value "VolumeName") (first value "FileSystem") size free).
Definition parseVolumes (objects : list object) : go (list Volume) :=
  try volumes := parse_each parse_volume objects ;; Ok (sort_by (less_on DeviceID str_lt) volumes).

Definition parse_service (value : object) : go Service :=
  let name := first value "Name" in
  if String.eqb name "" then errorsForField "Name" else
  Ok (mkService name (first value "DisplayName") (first value "State") (first value "StartMode") (first value "StartName")).
Definition parseServices (objects : list object) : go (list Service) :=
  try services := parse_each parse_service objects ;; Ok (sort_by (less_on Service_Name str_lt) services).

Definition parse_patch (value : object) : go Patch :=
  let hotFixID := first value "HotFixID" in
  if String.eqb hotFixID "" then errorsForField "HotFixID" else
  Ok (mkPatch hotFixID (first value "Description") (first value "InstalledOn")).
Definition parsePatches (objects : list object) : go (list Patch) :=
  try patches := parse_each parse_patch objects ;; Ok (sort_by (less_on HotFixID str_lt) patches).

(** One record of the software list: trimmed, checked and not seen before. *)
Definition trim_software (item : Software) : Software :=
  mkSoftware (trim_space (Software_Name item)) (trim_space (Software_Version item)) (trim_space (Publisher item))
    (trim_space (InstallDate item)) (normalizeArchitecture (Software_Architecture item)) (trim_space (RegistryKey item)).

Definition software_identity (item : Software) : string :=
  (Software_Architecture item +:+ NUL +:+ ToLower (RegistryKey item))%string.

Definition check_software (item : Software) : go unit :=
  reject String.eqb (Software_Name item) "" || String.eqb (RegistryKey item) ""
    with "software record has an empty name or registry key"%string ;;
  reject existsb (λ value, 4096 <? slen value) [Software_Name item; Software_Version item; Publisher item; RegistryKey item]
         || (128 <? slen (InstallDate item)) with "software %s exceeds %d bytes"%string ;;
  reject negb (String.eqb (Software_Architecture item) "x86_64") && negb (String.eqb (Software_Architecture item) "x86")
    with "software record has unsupported architecture %q"%string ;;
  Ok tt.

(** The loop of [parseSoftware] over the records the decoder returns, which end with the
    end of the output or with an error. *)
Fixpoint software_loop (items : list Software) (ended : option string) (software : list Software) : go (list Software) :=
  match items with
  | [] => match ended with Some e => Err ("decode software JSON: " +:+ e)%string | None => Ok software end
  | item :: items =>
    reject 65536 <=? llen software with "software inventory exceeded 65536 records"%string ;;
    let item := trim_software item in
    try u := check_software item ;;
    reject bool_decide (software_identity item ∈ (software_identity <$> software))
      with "software inventory repeated registry key %q for %s"%string ;;
    software_loop items ended (software ++ [item])
  end.

Definition software_key (s : Software) : string :=
  ToLower (Software_Name s +:+ NUL +:+ Software_Version s +:+ NUL +:+ Software_Architecture s +:+ NUL +:+ RegistryKey s)%string.

Definition parseSoftware (items : list Software) (ended : option string) : go (list Software) :=
  try software := software_loop items ended [] ;; Ok (sort_by (less_on software_key str_lt) software).
End parsing.

(** ** Assets *)

Definition opt_member (key s : string) : list (string * any) := if String.eqb s "" then [] else [(key, any_string s)].

(** The attributes are JSON, with their members in key order. *)
Definition volume_any (v : Volume) : any :=
  any_object ([("device_id"%string, any_string (DeviceID v))] ++ opt_member "file_system" (FileSystem v)
    ++ [("free_bytes"%string, any_int (FreeBytes v))] ++ opt_member "label" (Label v)
    ++ [("size_bytes"%string, any_int (SizeBytes v))]).
Definition service_any (s : Service) : any :=
  any_object (opt_member "display_name" (DisplayName s) ++ [("name"%string, any_string (Service_Name s))]
    ++ opt_member "start_mode" (StartMode s) ++ opt_member "start_name" (StartName s) ++ opt_member "state" (State s)).
Definition patch_any (p : Patch) : any :=
  any_object (opt_member "description" (Patch_Description p) ++ [("hotfix_id"%string, any_string (HotFixID p))]
    ++ opt_member "installed_on" (InstalledOn p)).
Definition software_any (s : Software) : any :=
  any_object ([("architecture"%string, any_string (Software_Architecture s))] ++ opt_member "install_date" (InstallDate s)
    ++ [("name"%string, any_string (Software_Name s))] ++ opt_member "publisher" (Publisher s)
    ++ [("registry_key"%string, any_string (RegistryKey s))] ++ opt_member "version" (Software_Version s)).

Definition opt_attribute {A} (key : string) (f : A → any) (l : option (list A)) : list (string * any) :=
  match l with Some l => [(key, any_array (f <$> l))] | None => [] end.

Definition host_attributes (i : Inventory) : gmap string any :=
  list_to_map ([("os", any_string "windows"); ("os_name", any_string (OSName i)); ("os_version", any_string (OSVersion i));
    ("os_build", any_string (OSBuild i)); ("architecture", any_string (Architecture i)); ("cpu_logical_count", any_int (CPUCount i));
    ("memory_mb", any_int (MemoryMB i)); ("domain", any_string (Domain i)); ("domain_joined", any_bool (DomainJoined i));
    ("manufacturer", any_string (Manufacturer i)); ("model", any_string (ComputerModel i))]%string
    ++ opt_attribute "volumes" volume_any (Volumes i) ++ opt_attribute "services" service_any (Services i)
    ++ opt_attribute "patches" patch_any (Patches i) ++ opt_attribute "software" software_any (InstalledSoftware i)).

Definition interface_asset (i : Inventory) (ev : list Evidence) (iface : Interface) : Asset :=
  mkAsset AssetNetworkInterface (interface_id (MachineID i) (Interface_Index iface)) (Interface_Name iface)
    (list_to_map [("host_machine_id", MachineID i); ("mac_address", Interface_MAC iface)]%string)
    (list_to_map [("mac_address", any_string (Interface_MAC iface));
                  ("addresses", any_slice (any_string <$> Interface_Addresses iface))]%string) ev.

Definition Inventory_Assets (i : Inventory) (now : time) : list Asset * list Relationship :=
  let ev := plugin_evidence "winrm-windows" now in
  (mkAsset AssetHost (MachineID i) (Hostname i)
     (list_to_map [("machine_id", MachineID i); ("serial_number", Serial i); ("hostname", Hostname i)]%string) (host_attributes i) ev
     :: (interface_asset i ev <$> Interfaces i),
   (λ iface, mkRelationship "host_has_interface" (MachineID i) (interface_id (MachineID i) (Interface_Index iface)) ev) <$> Interfaces i).

Lemma winrm_assets_promise i now :
  host_part (MachineID i) (Interface_Index <$> Interfaces i) (Inventory_Assets i now).1 (Inventory_Assets i now).2.
Proof.
  split.
  - eexists _, _. split_and!; [done|done|done|..]; by rewrite <-!list_fmap_compose.
  - simpl. by rewrite <-!list_fmap_compose.
Qed.

#[export] Instance winrm_host_plugin : HostPlugin Inventory := {|
  plugin_assets := Inventory_Assets;
  plugin_host := MachineID;
  plugin_indexes := λ i, Interface_Index <$> Interfaces i;
  plugin_promise := winrm_assets_promise;
|}.

(** ** Lemmas *)

Lemma parse_each_ok {A B} (f : A → go B) l ys : parse_each f l = Ok ys ↔ Forall2 (λ x y, f x = Ok y) l ys.
Proof.
  revert ys. induction l as [|x l IH]; intros ys; simpl.
  { split; [intros [= <-]; constructor|]. by intros ->%Forall2_nil_inv_l. }
  destruct (f x) as [y|] eqn:Hy.
  - destruct (parse_each f l) as [l'|] eqn:Hl.
    + split; [intros [= <-]; constructor; [done|]; by apply IH|].
      intros (y' & ys' & Hx & H & ->)%Forall2_cons_inv_l. apply IH in H. congruence.
    + split; [done|]. intros (y' & ys' & Hx & H & ->)%Forall2_cons_inv_l. apply IH in H. congruence.
  - split; [done|]. intros (y' & ys' & Hx & H & ->)%Forall2_cons_inv_l. congruence.
Qed.

Lemma parse_each_forall {A B} (f : A → go B) (P : B → Prop) l ys : (∀ x y, f x = Ok y → P y) → parse_each f l = Ok ys → Forall P ys.
Proof. intros H H2%parse_each_ok. induction H2; constructor; eauto. Qed.

(** What a parsed and sorted list is: the parsed objects, rearranged in the order of [key]. *)
Definition sorted_by {A} (key : A → string) (l : list A) : Prop := StronglySorted (not_after (less_on key str_lt)) l.

Definition volume_ok (v : Volume) : Prop := DeviceID v ≠ ""%string ∧ 0 <= FreeBytes v <= SizeBytes v ∧ 1 <= SizeBytes v < 2^64.

Lemma parse_volume_ok value v : parse_volume value = Ok v → volume_ok v.
Proof.
  unfold parse_volume, positiveUint, nonNegativeUint. destruct (String.eqb_spec (first value "DeviceID") ""); [done|].
  destruct (ParseUint64 (trim_space (first value "Size"))) as [size|] eqn:Hs; [|done]. destruct (Z.ltb_spec size 1); [done|].
  destruct (ParseUint64 (trim_space (first value "FreeSpace"))) as [free|] eqn:Hf; [|done]. destruct (Z.ltb_spec size free); [done|].
  intros [= <-]. apply ParseUint64_range in Hs, Hf. unfold volume_ok. simpl. split_and!; [done|lia..].
Qed.

(** Volumes come out sorted by device, none without a device ID, and none with more free
    space than its size; one bad object refuses the whole list. *)
Lemma parseVolumes_spec objects volumes : parseVolumes objects = Ok volumes →
  Forall volume_ok volumes ∧ sorted_by DeviceID volumes ∧
  ∃ parsed, Forall2 (λ o v, parse_volume o = Ok v) objects parsed ∧ volumes ≡ₚ parsed.
Proof.
  unfold parseVolumes. destruct (parse_each parse_volume objects) as [parsed|] eqn:Hp; [|done]. intros [= <-].
  split_and!.
  - rewrite sort_by_perm. eapply parse_each_forall; [apply parse_volume_ok|exact Hp].
  - apply sort_by_sorted, _.
  - exists parsed. split; [by apply parse_each_ok|apply sort_by_perm].
Qed.

(** The software list. *)
Section software.
Context (ToLower : string → string).

Definition software_ok (s : Software) : Prop :=
  Software_Name s ≠ ""%string ∧ RegistryKey s ≠ ""%string ∧
  (Software_Architecture s = "x86_64"%string ∨ Software_Architecture s = "x86"%string) ∧
  Forall (λ value, slen value <= 4096) [Software_Name s; Software_Version s; Publisher s; RegistryKey s] ∧ slen (InstallDate s) <= 128.

Lemma check_software_ok s : check_software s = Ok tt → software_ok s.
Proof.
  unfold check_software, software_ok. destruct (String.eqb_spec (Software_Name s) ""), (String.eqb_spec (RegistryKey s) ""); [done..|].
  cbn [orb]. destruct (existsb _ _) eqn:He; [done|]. destruct (Z.ltb_spec 128 (slen (InstallDate s))); [done|]. cbn [orb].
  destruct (String.eqb_spec (Software_Architecture s) "x86_64"), (String.eqb_spec (Software_Architecture s) "x86"); simpl; try done; intros _.
  all: split_and!; auto; apply Forall_forall; intros v Hv; destruct (Z.leb_spec (slen v) 4096); [done|];
    exfalso; enough (false = true) by done; rewrite <-He; apply existsb_elem_of; exists v; split; [done|lia].
Qed.

Definition software_list_ok (l : list Software) : Prop :=
  Forall software_ok l ∧ NoDup (software_identity ToLower <$> l) ∧ llen l <= 65536.

Lemma software_loop_ok items ended l l' : software_list_ok l → software_loop ToLower items ended l = Ok l' →
  software_list_ok l' ∧ l' = l ++ (trim_software ToLower <$> items) ∧ ended = None.
Proof.
  revert l. induction items as [|item items IH]; intros l Hl; cbn [software_loop].
  { destruct ended; [done|]. intros [= <-]. split_and!; [done|by rewrite app_nil_r|done]. }
  destruct (Z.leb_spec 65536 (llen l)); [done|]. destruct (check_software _) as [[]|] eqn:Hc; [|done].
  case_bool_decide as Hin; [done|]. intros H'. destruct Hl as (Hall & Hnd & Hlen). apply IH in H' as (H1 & -> & ->).
  - split_and!; [done|by rewrite <-app_assoc|done].
  - split_and!.
    + apply Forall_app. split; [done|]. constructor; [by apply check_software_ok|constructor].
    + rewrite fmap_app. apply NoDup_app. split_and!; [done| |apply NoDup_singleton].
      intros x Hx Hs. apply list_elem_of_singleton in Hs as ->. done.
    + unfold llen in *. rewrite length_app. simpl. lia.
Qed.
End software.

(** The software list is within its bounds: every record has a name, a registry key and
    one of two architectures, all texts are short, no key occurs twice for an architecture,
    there are at most 65536 records, and they are the decoded ones, trimmed and sorted; an
    output that does not decode to its end is refused. *)
Lemma parseSoftware_spec ToLower items ended software : parseSoftware ToLower items ended = Ok software →
  software_list_ok ToLower software ∧ sorted_by (software_key ToLower) software ∧
  software ≡ₚ (trim_software ToLower <$> items) ∧ ended = None.
Proof.
  unfold parseSoftware. destruct (software_loop _ _ _ _) as [l|] eqn:Hl; [|done]. intros [= <-].
  apply software_loop_ok in Hl as ((H1 & H2 & H3) & -> & ->).
  2: { split_and!; [constructor|constructor|unfold llen; simpl; lia]. }
  cbn [app] in *. pose proof (sort_by_perm (less_on (software_key ToLower) str_lt) (trim_software ToLower <$> items)) as Hp.
  split_and!; [split_and!|apply sort_by_sorted, _|done|done].
  - by rewrite Hp.
  - by rewrite Hp.
  - unfold llen in *. by rewrite Hp.
Qed.

(** ** Examples *)

Example mask_prefixes :
  (addressWithPrefix "10.0.0.5" "255.255.255.0", addressWithPrefix "10.0.0.5" " 24 ", addressWithPrefix "10.0.0.5/8" "24",
   addressWithPrefix "fe80::1" "64", addressWithPrefix "10.0.0.5" "255.0.255.0", addressWithPrefix "10.0.0.5" "mask")
  = ("10.0.0.5/24", "10.0.0.5/24", "10.0.0.5/8", "fe80::1/64", "10.0.0.5/0", "10.0.0.5")%string.
Proof. vm_compute. reflexivity. Qed.

Definition demo_volume (id size free : string) : object :=
  list_to_map [("DeviceID", [id]); ("Size", [size]); ("FreeSpace", [free]); ("FileSystem", ["NTFS"])]%string.

Example volumes_sorted : parseVolumes [demo_volume "D:" "100" "0"; demo_volume "C:" " 500" "120"] =
  Ok [mkVolume "C:" "" "NTFS" 500 120; mkVolume "D:" "" "NTFS" 100 0].
Proof. vm_compute. reflexivity. Qed.
Example too_much_free : parseVolumes [demo_volume "C:" "100" "101"] = Err "FreeSpace %d exceeds Size %d for volume %q"%string.
Proof. vm_compute. reflexivity. Qed.

Definition demo_software (name key : string) : Software := mkSoftware name "1.0" "Example" "20240102" "64-bit" key.

Example software_sorted : parseSoftware to_lower [demo_software "Backup " "{B}"; demo_software "Agent" "{A}"] None =
  Ok (trim_software to_lower <$> [demo_software "Agent" "{A}"; demo_software "Backup" "{B}"]).
Proof. vm_compute. reflexivity. Qed.
Example software_repeated : is_ok (parseSoftware to_lower [demo_software "Agent" "{A}"; demo_software "Other" "{a} "] None) = false.
Proof. vm_compute. reflexivity. Qed.
