(* ===== verification/WinRMProtocol.v ===== *)
(** * [pkg/discovery/winrm]: the WS-Management messages

    [protocol.go] and [shell_protocol.go].  A message that is written is a list of XML
    pieces, and [render] the text the code builds from them.  The readers work on tokens:
    the tokens of a body and the error that ends them, none for the end of the text.  That
    the requests are read as they are meant is in WinRMRequests. *)

From S2P Require Import Prelude Bytes Text Strconv Time Topology WinRM.

(** ** Names and tokens *)

Definition namespaceSOAP : string := "http://www.w3.org/2003/05/soap-envelope".
Definition namespaceAddress : string := "http://schemas.xmlsoap.org/ws/2004/08/addressing".
Definition namespaceWSMan : string := "http://schemas.dmtf.org/wbem/wsman/1/wsman.xsd".
Definition namespaceEnum : string := "http://schemas.xmlsoap.org/ws/2004/09/enumeration".
Definition namespaceTransfer : string := "http://schemas.xmlsoap.org/ws/2004/09/transfer".
Definition namespaceShell : string := "http://schemas.microsoft.com/wbem/wsman/1/windows/shell".
Definition anonymousReplyURI : string := namespaceAddress +:+ "/role/anonymous".

Definition ActionCreate : string := namespaceTransfer +:+ "/Create".
Definition ActionDelete : string := namespaceTransfer +:+ "/Delete".
Definition ActionCommand : string := namespaceShell +:+ "/Command".
Definition ActionReceive : string := namespaceShell +:+ "/Receive".
Definition ShellResourceURI : string := namespaceShell +:+ "/cmd".
Definition commandStateDone : string := namespaceShell +:+ "/CommandState/Done".
Definition commandStatePending : string := namespaceShell +:+ "/CommandState/Pending".
Definition commandStateRunning : string := namespaceShell +:+ "/CommandState/Running".
Definition maxRemoteIDBytes : Z := 512.
Definition maxReceiveMessages : nat := 64.

Record xml_name := mkName { Space : string; Local : string }.

#[export] Instance xml_name_eq_dec : EqDecision xml_name.
Proof. solve_decision. Defined.

(** The attributes by local name: no code looks at their name spaces. *)
Inductive xml_token :=
| StartElement (name : xml_name) (attrs : list (string * string))
| EndElement (name : xml_name)
| CharData (s : string)
| OtherToken.

Record xml_stream := mkStream { stream_tokens : list xml_token; stream_error : option string }.

(** ** Writing *)

Inductive piece :=
| Open (prefix local : string) (attrs : list (string * string))
| Shut (prefix local : string)
| Bare (prefix local : string)                (* <x/> *)
| Written (s : string)                        (* escaped *)
| Literal (s : string).                       (* as it is *)

Definition quoted (s : string) : string := (dquote +:+ s +:+ dquote)%string.
Definition render_attr (a : string * string) : string := (" " +:+ a.1 +:+ "=" +:+ quoted (xml_escape a.2))%string.
Definition render_piece (p : piece) : string :=
  match p with
  | Open prefix local attrs => "<" +:+ prefix +:+ ":" +:+ local +:+ String.concat "" (render_attr <$> attrs) +:+ ">"
  | Shut prefix local => "</" +:+ prefix +:+ ":" +:+ local +:+ ">"
  | Bare prefix local => "<" +:+ prefix +:+ ":" +:+ local +:+ "/>"
  | Written s => xml_escape s
  | Literal s => s
  end%string.
Definition render (ps : list piece) : string := String.concat "" (render_piece <$> ps).

Definition element (prefix local : string) (attrs : list (string * string)) (content : list piece) : list piece :=
  [Open prefix local attrs] ++ content ++ [Shut prefix local].

Definition xml_declaration : string := ("<?xml version=" +:+ quoted "1.0" +:+ " encoding=" +:+ quoted "UTF-8" +:+ "?>")%string.

(** Rounds the timeout up to whole seconds, at least one. *)
Definition timeout_seconds (timeout : duration) : Z :=
  let seconds := Z.quot (wrap64 (timeout + Second - 1)) Second in if seconds <? 1 then 1 else seconds.

Definition envelope_attrs : list (string * string) :=
  [("xmlns:s", namespaceSOAP); ("xmlns:a", namespaceAddress); ("xmlns:w", namespaceWSMan); ("xmlns:n", namespaceEnum);
   ("xmlns:t", namespaceTransfer); ("xmlns:r", namespaceShell)]%string.
Definition must : list (string * string) := [("s:mustUnderstand", "true")]%string.

(** [messageID]: [random] is what the 16 bytes of [rand.Read] are, or that it fails, and
    [now] the clock's nanoseconds then. *)
Definition messageID (random : go string) (now : Z) : string :=
  match random with
  | Err _ => decimal now
  | Ok bytes =>
    let value := alter (λ b, Z.lor (Z.land b 63) 128) 8%nat (alter (λ b, Z.lor (Z.land b 15) 64) 6%nat (bytes_of bytes)) in
    let encoded := hex_encode value in
    let slice from to := take_string (to - from) (drop_string from encoded) in
    slice 0 8 +:+ "-" +:+ slice 8 12 +:+ "-" +:+ slice 12 16 +:+ "-" +:+ slice 16 20 +:+ "-" +:+ drop_string 20 encoded
  end%nat%string.

(** [soapEnvelope]; [id] is what [messageID] returns. *)
Definition soapEnvelope (id endpoint action resourceURI : string) (timeout : duration) (header body : list piece) : list piece :=
  (element "s" "Envelope" envelope_attrs
    (element "s" "Header" []
       (element "a" "To" must [Written endpoint]
        ++ element "w" "ResourceURI" must [Written resourceURI]
        ++ element "a" "ReplyTo" [] (element "a" "Address" [] [Literal anonymousReplyURI])
        ++ element "a" "Action" must [Written action]
        ++ element "w" "MaxEnvelopeSize" must [Literal "4194304"]
        ++ element "a" "MessageID" [] [Literal ("uuid:" +:+ id)]
        ++ element "w" "OperationTimeout" [] [Literal ("PT" +:+ decimal (timeout_seconds timeout) +:+ "S")]
        ++ header)
     ++ element "s" "Body" [] body))%string%list.

(** The text of a message. *)
Definition message_text (ps : list piece) : string := xml_declaration +:+ render ps.

Definition enumerateEnvelope (id endpoint : string) (operation : Operation) (timeout : duration) : list piece :=
  soapEnvelope id endpoint ActionEnumerate (ResourceURI operation) timeout []
    (element "n" "Enumerate" []
       ([Bare "w" "OptimizeEnumeration"] ++ element "w" "MaxElements" [] [Literal "128"]
        ++ (if String.eqb (Query operation) "" then []
            else element "w" "Filter" [("Dialect"%string, DialectWQL)] [Written (Query operation)]))).

Definition pullEnvelope (id endpoint : string) (operation : Operation) (context : string) (timeout : duration) : list piece :=
  soapEnvelope id endpoint ActionPull (ResourceURI operation) timeout []
    (element "n" "Pull" []
       (element "n" "EnumerationContext" [] [Written context] ++ element "n" "MaxElements" [] [Literal "128"])).

Definition option_element (name value : string) : list piece := element "w" "Option" [("Name"%string, name)] [Literal value].
Definition selectorHeader (shellID : string) : list piece :=
  element "w" "SelectorSet" [] (element "w" "Selector" [("Name", "ShellId")]%string [Written shellID]).

Definition createShellEnvelope (id endpoint : string) (timeout : duration) : list piece :=
  soapEnvelope id endpoint ActionCreate ShellResourceURI timeout
    (element "w" "OptionSet" [] (option_element "WINRS_NOPROFILE" "TRUE" ++ option_element "WINRS_CODEPAGE" "65001"))
    (element "r" "Shell" []
       (element "r" "InputStreams" [] [Literal "stdin"] ++ element "r" "OutputStreams" [] [Literal "stdout stderr"])).

Definition commandEnvelope (id endpoint shellID : string) (command : Command) (timeout : duration) : list piece :=
  soapEnvelope id endpoint ActionCommand ShellResourceURI timeout
    (selectorHeader shellID ++ element "w" "OptionSet" []
       (option_element "WINRS_CONSOLEMODE_STDIN" "FALSE" ++ option_element "WINRS_SKIP_CMD_SHELL" "TRUE"))
    (element "r" "CommandLine" []
       (element "r" "Command" [] [Written (Executable command)]
        ++ (Arguments command ≫= λ argument, element "r" "Arguments" [] [Written argument]))).

Definition receiveEnvelope (id endpoint shellID commandID : string) (timeout : duration) : list piece :=
  soapEnvelope id endpoint ActionReceive ShellResourceURI timeout (selectorHeader shellID)
    (element "r" "Receive" [] (element "r" "DesiredStream" [("CommandId"%string, commandID)] [Literal "stdout stderr"])).

Definition deleteShellEnvelope (id endpoint shellID : string) (timeout : duration) : list piece :=
  soapEnvelope id endpoint ActionDelete ShellResourceURI timeout (selectorHeader shellID) [].

(** ** Reading parts of a message *)

(** The error of a reader that runs out of tokens: a text that ends inside an element is
    a syntax error of the decoder. *)
Definition cut_short (s : xml_stream) : string := default "XML syntax error: unexpected EOF"%string (stream_error s).

Section reading.
Context (s : xml_stream).

(** [decoder.DecodeElement] into a string: the text of the element itself, not that of the
    elements inside it, of which [depth] are open. *)
Fixpoint decode_text (depth : nat) (text : string) (ts : list xml_token) : go (string * list xml_token) :=
  match ts with
  | [] => Err (cut_short s)
  | CharData d :: ts => decode_text depth (if (depth =? 0)%nat then text +:+ d else text) ts
  | StartElement _ _ :: ts => decode_text (S depth) text ts
  | EndElement _ :: ts => match depth with O => Ok (text, ts) | S depth => decode_text depth text ts end
  | OtherToken :: ts => decode_text depth text ts
  end.

(** [decoder.Skip] *)
Fixpoint skip (depth : nat) (ts : list xml_token) : go (list xml_token) :=
  match ts with
  | [] => Err (cut_short s)
  | StartElement _ _ :: ts => skip (S depth) ts
  | EndElement _ :: ts => match depth with O => Ok ts | S depth => skip depth ts end
  | _ :: ts => skip depth ts
  end.

(** [elementTexts]; [open] are the elements being read, the innermost first. *)
Fixpoint elementTexts (open : list xml_name) (texts : list string) (ts : list xml_token) : go (list string * list xml_token) :=
  match ts with
  | [] => Err (cut_short s)
  | CharData d :: ts =>
    let text := trim_space d in elementTexts open (if String.eqb text "" then texts else texts ++ [text]) ts
  | StartElement name _ :: ts => elementTexts (name :: open) texts ts
  | EndElement name :: ts =>
    match open with
    | start :: outer =>
      if bool_decide (name = start) then match outer with [] => Ok (texts, ts) | _ => elementTexts outer texts ts end
      else elementTexts open texts ts
    | [] => Ok (texts, ts)
    end
  | OtherToken :: ts => elementTexts open texts ts
  end.

(** The readers of lists use up tokens on every turn; [fuel] is the number of tokens. *)
Definition no_fuel {A} : go A := Err "out of fuel"%string.

Fixpoint parseObject (fuel : nat) (start : xml_name) (item : object) (ts : list xml_token) : go (object * list xml_token) :=
  match fuel with
  | O => no_fuel
  | S fuel =>
    match ts with
    | [] => Err (cut_short s)
    | StartElement name _ :: ts =>
      try texts_rest := elementTexts [name] [] ts ;;
      parseObject fuel start (<[Local name := values_of item (Local name) ++ texts_rest.1]> item) texts_rest.2
    | EndElement name :: ts => if bool_decide (name = start) then Ok (item, ts) else parseObject fuel start item ts
    | _ :: ts => parseObject fuel start item ts
    end
  end.

Fixpoint parseItems (fuel : nat) (start : xml_name) (items : list object) (ts : list xml_token)
    : go (list object * list xml_token) :=
  match fuel with
  | O => no_fuel
  | S fuel =>
    match ts with
    | [] => Err (cut_short s)
    | StartElement name _ :: ts =>
      try item_rest := parseObject (S (length ts)) name ∅ ts ;;
      parseItems fuel start (items ++ [item_rest.1]) item_rest.2
    | EndElement name :: ts => if bool_decide (name = start) then Ok (items, ts) else parseItems fuel start items ts
    | _ :: ts => parseItems fuel start items ts
    end
  end.
End reading.

Definition boundedFaultText (texts : list string) : string :=
  let value := join " " (Fields (join " " texts)) in
  if 512 <? slen value then (take_string 512 value +:+ "...")%string else value.

Definition fault_text (texts : list string) : string := ("WS-Management fault: " +:+ boundedFaultText texts)%string.

(** [parseFaultElement]: always an error. *)
Definition parseFaultElement {A} (s : xml_stream) (name : xml_name) (ts : list xml_token) : go A :=
  match elementTexts s [name] [] ts with Ok (texts, _) => Err (fault_text texts) | Err e => Err e end.

Definition is_soap (name : xml_name) (local : string) : bool := bool_decide (name = mkName namespaceSOAP local).

(** ** Responses *)

Record enumerationPage := mkPage { Page_Context : string; Page_Done : bool; Page_Items : list object }.

Definition zero_page : enumerationPage := mkPage "" false [].

(** [parseEnumerationPage]: the name space of an element is not looked at. *)
Fixpoint page_loop (s : xml_stream) (fuel : nat) (valid : bool) (page : enumerationPage) (ts : list xml_token) : go enumerationPage :=
  match fuel with
  | O => no_fuel
  | S fuel =>
    match ts with
    | [] =>
      match stream_error s with
      | Some e => Err ("decode SOAP response: " +:+ e)%string
      | None => if valid then Ok page else Err "SOAP response is missing EnumerateResponse or PullResponse"%string
      end
    | StartElement name _ :: ts =>
      if bool_decide (Local name ∈ ["EnumerateResponse"; "PullResponse"]%string) then page_loop s fuel true page ts
      else if String.eqb (Local name) "Fault" then parseFaultElement s name ts
      else if String.eqb (Local name) "EnumerationContext" then
        try text_rest := decode_text s 0 "" ts ;;
        page_loop s fuel valid (mkPage (trim_space text_rest.1) (Page_Done page) (Page_Items page)) text_rest.2
      else if String.eqb (Local name) "EndOfSequence" then
        try rest := skip s 0 ts ;; page_loop s fuel valid (mkPage (Page_Context page) true (Page_Items page)) rest
      else if String.eqb (Local name) "Items" then
        try items_rest := parseItems s (S (length ts)) name [] ts ;;
        page_loop s fuel valid (mkPage (Page_Context page) (Page_Done page) (Page_Items page ++ items_rest.1)) items_rest.2
      else page_loop s fuel valid page ts
    | _ :: ts => page_loop s fuel valid page ts
    end
  end.
Definition parseEnumerationPage (s : xml_stream) : go enumerationPage :=
  page_loop s (S (length (stream_tokens s))) false zero_page (stream_tokens s).

Definition attribute (attrs : list (string * string)) (name : string) : string :=
  match List.find (λ a, String.eqb a.1 name) attrs with Some a => a.2 | None => "" end.

Definition validateRemoteID (value : string) : go unit :=
  reject String.eqb value "" with "%s is empty"%string ;;
  reject maxRemoteIDBytes <? slen value with "%s exceeds %d bytes"%string ;;
  reject negb (string_all (λ c, negb (line_control c)) value) with "%s contains a control character"%string ;;
  Ok tt.

(** [strings.EqualFold(v, "ShellId")] *)
Definition is_shell_id (v : string) : bool := EqualFold_ascii v "ShellId".

Fixpoint create_loop (s : xml_stream) (fuel : nat) (valid : bool) (shellID : string) (ts : list xml_token) : go string :=
  match fuel with
  | O => no_fuel
  | S fuel =>
    match ts with
    | [] =>
      match stream_error s with
      | Some e => Err ("decode shell creation response: " +:+ e)%string
      | None =>
        if negb valid then Err "SOAP response is missing ResourceCreated"%string
        else try u := validateRemoteID shellID ;; Ok shellID
      end
    | StartElement name attrs :: ts =>
      if bool_decide (name = mkName namespaceTransfer "ResourceCreated") then create_loop s fuel true shellID ts
      else if is_soap name "Fault" then parseFaultElement s name ts
      else if bool_decide (name = mkName namespaceWSMan "Selector") && is_shell_id (attribute attrs "Name") then
        try text_rest := decode_text s 0 "" ts ;;
        let value := trim_space text_rest.1 in
        reject negb (String.eqb shellID "") && negb (String.eqb shellID value)
          with "shell creation response contains conflicting shell IDs"%string ;;
        create_loop s fuel valid value text_rest.2
      else create_loop s fuel valid shellID ts
    | _ :: ts => create_loop s fuel valid shellID ts
    end
  end.
Definition parseCreateShellResponse (s : xml_stream) : go string :=
  create_loop s (S (length (stream_tokens s))) false "" (stream_tokens s).

Fixpoint command_loop (s : xml_stream) (fuel : nat) (valid : bool) (commandID : string) (ts : list xml_token) : go string :=
  match fuel with
  | O => no_fuel
  | S fuel =>
    match ts with
    | [] =>
      match stream_error s with
      | Some e => Err ("decode command response: " +:+ e)%string
      | None =>
        if negb valid then Err "SOAP response is missing CommandResponse"%string
        else try u := validateRemoteID commandID ;; Ok commandID
      end
    | StartElement name _ :: ts =>
      if bool_decide (name = mkName namespaceShell "CommandResponse") then command_loop s fuel true commandID ts
      else if is_soap name "Fault" then parseFaultElement s name ts
      else if bool_decide (name = mkName namespaceShell "CommandId") then
        reject negb (String.eqb commandID "") with "command response contains duplicate command ID"%string ;;
        try text_rest := decode_text s 0 "" ts ;;
        command_loop s fuel valid (trim_space text_rest.1) text_rest.2
      else command_loop s fuel valid commandID ts
    | _ :: ts => command_loop s fuel valid commandID ts
    end
  end.
Definition parseCommandResponse (s : xml_stream) : go string :=
  command_loop s (S (length (stream_tokens s))) false "" (stream_tokens s).

(** [parseEmptySOAPResponse] *)
Fixpoint empty_loop (s : xml_stream) (seen : bool) (ts : list xml_token) : go unit :=
  match ts with
  | [] =>
    match stream_error s with
    | Some e => Err ("decode SOAP response: " +:+ e)%string
    | None => if seen then Ok tt else Err "empty SOAP response"%string
    end
  | StartElement name _ :: ts =>
    if is_soap name "Fault" then parseFaultElement s name ts
    else empty_loop s (seen || is_soap name "Envelope") ts
  | _ :: ts => empty_loop s seen ts
  end.
Definition parseEmptySOAPResponse (s : xml_stream) : go unit := empty_loop s false (stream_tokens s).

(** [parseSOAPFault]: the text of the error it returns. *)
Fixpoint fault_loop (s : xml_stream) (ts : list xml_token) : string :=
  match ts with
  | [] => match stream_error s with Some e => "decode SOAP fault: " +:+ e | None => "response did not contain a SOAP fault" end
  | StartElement name _ :: ts =>
    if is_soap name "Fault" then match parseFaultElement (A := unit) s name ts with Err e => e | Ok _ => "" end else fault_loop s ts
  | _ :: ts => fault_loop s ts
  end%string.
Definition parseSOAPFault (s : xml_stream) : string := fault_loop s (stream_tokens s).

(** ** Output of a command *)

Record receiveResult := mkReceive { Stdout : list Z; Stderr : list Z; Done : bool; ExitCode : Z; HasExitCode : bool }.

(** The structure [decodeReceiveResponse] decodes the element into, [encoding/xml]'s work. *)
Record stream := mkStreamElement { Stream_Name : string; Stream_CommandID : string; Stream_Data : string }.
Record receiveResponse := mkReceiveResponse {
  Streams : list stream; State_Value : string; State_CommandID : string; State_ExitCode : string;
}.

Fixpoint decode_streams (expected : string) (streams : list stream) (out err : list Z) : go (list Z * list Z) :=
  match streams with
  | [] => Ok (out, err)
  | st :: streams =>
    reject negb (String.eqb (Stream_CommandID st) "") && negb (String.eqb (Stream_CommandID st) expected)
      with "receive response contains an unexpected command ID"%string ;;
    match base64_decode (join "" (Fields (Stream_Data st))) with
    | None => Err "decode %s stream: %w"%string
    | Some decoded =>
      if String.eqb (Stream_Name st) "stdout" then decode_streams expected streams (out ++ decoded) err
      else if String.eqb (Stream_Name st) "stderr" then decode_streams expected streams out (err ++ decoded)
      else Err "receive response contains unsupported stream %q"%string
    end
  end.

Definition decodeReceiveResponse (expected : string) (response : receiveResponse) : go receiveResult :=
  try outputs := decode_streams expected (Streams response) [] [] ;;
  reject negb (String.eqb (State_CommandID response) "") && negb (String.eqb (State_CommandID response) expected)
    with "command state contains an unexpected command ID"%string ;;
  reject negb (bool_decide (State_Value response ∈ [""%string; commandStateDone; commandStatePending; commandStateRunning]))
    with "command state contains unsupported value %q"%string ;;
  let done := String.eqb (State_Value response) commandStateDone in
  let exit := trim_space (State_ExitCode response) in
  if String.eqb exit "" then
    reject done with "completed command response omitted exit code"%string ;;
    Ok (mkReceive outputs.1 outputs.2 done 0 false)
  else match Atoi exit with
  | None => Err "invalid remote exit code %q"%string
  | Some exitCode =>
    reject exitCode <? 0 with "invalid remote exit code %q"%string ;;
    Ok (mkReceive outputs.1 outputs.2 done exitCode true)
  end.

(** [parseReceiveResponse]; [unmarshal] decodes the tokens of the element into its structure. *)
Fixpoint parseReceiveResponse (unmarshal : list xml_token → go receiveResponse) (expected : string) (s : xml_stream)
    (ts : list xml_token) : go receiveResult :=
  match ts with
  | [] =>
    match stream_error s with
    | Some e => Err ("decode receive response: " +:+ e)%string
    | None => Err "SOAP response is missing ReceiveResponse"%string
    end
  | StartElement name _ :: ts =>
    if is_soap name "Fault" then parseFaultElement s name ts
    else if bool_decide (name = mkName namespaceShell "ReceiveResponse") then
      match unmarshal ts with
      | Err e => Err ("decode ReceiveResponse: " +:+ e)%string
      | Ok response => decodeReceiveResponse expected response
      end
    else parseReceiveResponse unmarshal expected s ts
  | _ :: ts => parseReceiveResponse unmarshal expected s ts
  end.

(** ** Requests as the simulator reads them *)

Record SOAPRequest := mkSOAPRequest {
  Action : string; Request_ResourceURI : string; Request_Query : string; FilterDialect : string; EnumerationContext : string;
  BodyOperation : string; BodyNamespace : string; ShellID : string; Request_Command : string; Request_Arguments : list string;
  DesiredStream : string; CommandID : string; InputStreams : string; OutputStreams : string;
  SOAP_Options : gmap string string;
}.

Definition zero_request : SOAPRequest := mkSOAPRequest "" "" "" "" "" "" "" "" "" [] "" "" "" "" ∅.

(** The fields a text can go to. *)
Inductive soap_destination :=
| to_Action | to_ResourceURI | to_Query | to_EnumerationContext | to_ShellID | to_Command | to_DesiredStream
| to_InputStreams | to_OutputStreams.

Definition set_destination (d : soap_destination) (v : string) (r : SOAPRequest) : SOAPRequest :=
  let '(mkSOAPRequest a u q f e bo bn sh c args ds ci i o opts) := r in
  match d with
  | to_Action => mkSOAPRequest v u q f e bo bn sh c args ds ci i o opts
  | to_ResourceURI => mkSOAPRequest a v q f e bo bn sh c args ds ci i o opts
  | to_Query => mkSOAPRequest a u v f e bo bn sh c args ds ci i o opts
  | to_EnumerationContext => mkSOAPRequest a u q f v bo bn sh c args ds ci i o opts
  | to_ShellID => mkSOAPRequest a u q f e bo bn v c args ds ci i o opts
  | to_Command => mkSOAPRequest a u q f e bo bn sh v args ds ci i o opts
  | to_DesiredStream => mkSOAPRequest a u q f e bo bn sh c args v ci i o opts
  | to_InputStreams => mkSOAPRequest a u q f e bo bn sh c args ds ci v o opts
  | to_OutputStreams => mkSOAPRequest a u q f e bo bn sh c args ds ci i v opts
  end.
Definition set_body (op ns : string) (r : SOAPRequest) : SOAPRequest :=
  let '(mkSOAPRequest a u q f e _ _ sh c args ds ci i o opts) := r in mkSOAPRequest a u q f e op ns sh c args ds ci i o opts.
Definition set_dialect (f : string) (r : SOAPRequest) : SOAPRequest :=
  let '(mkSOAPRequest a u q _ e bo bn sh c args ds ci i o opts) := r in mkSOAPRequest a u q f e bo bn sh c args ds ci i o opts.
Definition set_command_id (ci : string) (r : SOAPRequest) : SOAPRequest :=
  let '(mkSOAPRequest a u q f e bo bn sh c args ds _ i o opts) := r in mkSOAPRequest a u q f e bo bn sh c args ds ci i o opts.
Definition add_argument (v : string) (r : SOAPRequest) : SOAPRequest :=
  let '(mkSOAPRequest a u q f e bo bn sh c args ds ci i o opts) := r in mkSOAPRequest a u q f e bo bn sh c (args ++ [v]) ds ci i o opts.
Definition add_option (k v : string) (r : SOAPRequest) : SOAPRequest :=
  let '(mkSOAPRequest a u q f e bo bn sh c args ds ci i o opts) := r in
  mkSOAPRequest a u q f e bo bn sh c args ds ci i o (<[k := v]> opts).

(** What the switch makes of an element: an error, a field for its text, an option, an
    argument, or nothing. *)
Inductive soap_case := case_field (d : soap_destination) (r : SOAPRequest) | case_option (name : string) | case_argument | case_nothing.

Definition soap_switch (name : xml_name) (attrs : list (string * string)) (r : SOAPRequest) : go soap_case :=
  let l := Local name in
  let in_shell d r := if String.eqb (Space name) namespaceShell then case_field d r else case_nothing in
  if String.eqb l "Action" then
    reject negb (String.eqb (Space name) namespaceAddress) with "invalid namespace for SOAP action"%string ;; Ok (case_field to_Action r)
  else if String.eqb l "ResourceURI" then
    reject negb (String.eqb (Space name) namespaceWSMan) with "invalid namespace for SOAP resource URI"%string ;; Ok (case_field to_ResourceURI r)
  else if String.eqb l "Filter" then
    reject negb (String.eqb (Space name) namespaceWSMan) with "invalid namespace for SOAP filter"%string ;;
    Ok (case_field to_Query (foldl (λ r a, if String.eqb a.1 "Dialect" then set_dialect (trim_space a.2) r else r) r attrs))
  else if String.eqb l "EnumerationContext" then
    reject negb (String.eqb (Space name) namespaceEnum) with "invalid namespace for enumeration context"%string ;;
    Ok (case_field to_EnumerationContext r)
  else if String.eqb l "Selector" then
    reject negb (String.eqb (Space name) namespaceWSMan) with "invalid namespace for SOAP selector"%string ;;
    reject negb (is_shell_id (attribute attrs "Name")) with "unsupported SOAP selector %q"%string ;;
    Ok (case_field to_ShellID r)
  else if String.eqb l "Option" then
    reject negb (String.eqb (Space name) namespaceWSMan) with "invalid namespace for SOAP option"%string ;;
    let option_name := trim_space (attribute attrs "Name") in
    reject String.eqb option_name "" || bool_decide (is_Some (SOAP_Options r !! option_name))
      with "invalid or duplicate SOAP option %q"%string ;;
    Ok (case_option option_name)
  else if String.eqb l "Command" then Ok (in_shell to_Command r)
  else if String.eqb l "Arguments" then Ok (if String.eqb (Space name) namespaceShell then case_argument else case_nothing)
  else if String.eqb l "DesiredStream" then
    Ok (in_shell to_DesiredStream
          (if String.eqb (Space name) namespaceShell then set_command_id (trim_space (attribute attrs "CommandId")) r else r))
  else if String.eqb l "InputStreams" then Ok (in_shell to_InputStreams r)
  else if String.eqb l "OutputStreams" then Ok (in_shell to_OutputStreams r)
  else Ok case_nothing.

(** [fmt.Errorf("context: %w", err)] *)
Definition wrap {A} (context : string) (r : go A) : go A :=
  match r with Err e => Err (context +:+ ": " +:+ e)%string | Ok a => Ok a end.

(** [ParseSOAPRequest]; decoding an element uses up its end. *)
Fixpoint request_loop (s : xml_stream) (fuel : nat) (depth bodyDepth : Z) (seen : list xml_name) (r : SOAPRequest)
    (ts : list xml_token) : go SOAPRequest :=
  match fuel with
  | O => no_fuel
  | S fuel =>
    match ts with
    | [] =>
      match stream_error s with
      | Some e => Err ("decode SOAP request: " +:+ e)%string
      | None =>
        reject String.eqb (Action r) "" || String.eqb (Request_ResourceURI r) ""
          with "SOAP action and resource URI are required"%string ;;
        Ok r
      end
    | EndElement name :: ts =>
      request_loop s fuel (depth - 1) (if (bodyDepth =? depth) && is_soap name "Body" then 0 else bodyDepth) seen r ts
    | StartElement name attrs :: ts =>
      let depth := depth + 1 in
      if is_soap name "Body" then request_loop s fuel depth depth seen r ts else
      let operation := (0 <? bodyDepth) && (depth =? bodyDepth + 1) in
      reject operation && negb (String.eqb (BodyOperation r) "") with "duplicate SOAP body operation"%string ;;
      let r := if operation then set_body (Local name) (Space name) r else r in
      try c := soap_switch name attrs r ;;
      match c with
      | case_nothing => request_loop s fuel depth bodyDepth seen r ts
      | case_option option_name =>
        try text_rest := wrap "decode SOAP option" (decode_text s 0 "" ts) ;;
        request_loop s fuel (depth - 1) bodyDepth seen (add_option option_name (trim_space text_rest.1) r) text_rest.2
      | case_argument =>
        try text_rest := wrap "decode SOAP argument" (decode_text s 0 "" ts) ;;
        request_loop s fuel (depth - 1) bodyDepth seen (add_argument (trim_space text_rest.1) r) text_rest.2
      | case_field d r =>
        reject bool_decide (name ∈ seen) with "duplicate SOAP field %s"%string ;;
        try text_rest := wrap ("decode SOAP " +:+ Local name) (decode_text s 0 "" ts) ;;
        request_loop s fuel (depth - 1) bodyDepth (name :: seen) (set_destination d (trim_space text_rest.1) r) text_rest.2
      end
    | _ :: ts => request_loop s fuel depth bodyDepth seen r ts
    end
  end.
Definition ParseSOAPRequest (s : xml_stream) : go SOAPRequest :=
  request_loop s (S (length (stream_tokens s))) 0 0 [] zero_request (stream_tokens s).

(** Fuel is never short: reading an element leaves fewer tokens than there were. *)
Lemma decode_text_rest s depth text ts text' rest : decode_text s depth text ts = Ok (text', rest) → (length rest < length ts)%nat.
Proof.
  revert depth text. induction ts as [|t ts IH]; intros depth text; simpl; [done|].
  destruct t as [n a|n|d|]; try (intros H; apply IH in H; lia). destruct depth; [intros [= <- <-]; lia|intros H; apply IH in H; lia].
Qed.

Lemma skip_rest s depth ts rest : skip s depth ts = Ok rest → (length rest < length ts)%nat.
Proof.
  revert depth. induction ts as [|t ts IH]; intros depth; simpl; [done|].
  destruct t as [n a|n|d|]; try (intros H; apply IH in H; lia). destruct depth; [intros [= <-]; lia|intros H; apply IH in H; lia].
Qed.

Lemma elementTexts_rest s open texts ts texts' rest : elementTexts s open texts ts = Ok (texts', rest) → (length rest < length ts)%nat.
Proof.
  revert open texts. induction ts as [|t ts IH]; intros open texts; cbn [elementTexts length]; [done|].
  destruct t as [n a|n|d|]; try (intros H; apply IH in H; lia).
  destruct open as [|start outer]; [intros [= <- <-]; lia|]. case_bool_decide; [|intros H'; apply IH in H'; lia].
  destruct outer; [intros [= <- <-]; lia|intros H'; apply IH in H'; lia].
Qed.

Lemma parseObject_rest s fuel start item ts item' rest : parseObject s fuel start item ts = Ok (item', rest) → (length rest < length ts)%nat.
Proof.
  revert item ts. induction fuel as [|fuel IH]; intros item ts; cbn [parseObject]; [done|].
  destruct ts as [|[n a|n|d|] ts]; cbn [length]; [done|..]; try (intros H; apply IH in H; lia).
  - destruct (elementTexts s [n] [] ts) as [[texts r]|] eqn:E; [|done]. apply elementTexts_rest in E. intros H. apply IH in H. simpl in H. lia.
  - case_bool_decide; [intros [= <- <-]; lia|intros H'; apply IH in H'; lia].
Qed.

Lemma parseItems_rest s fuel start items ts items' rest : parseItems s fuel start items ts = Ok (items', rest) → (length rest < length ts)%nat.
Proof.
  revert items ts. induction fuel as [|fuel IH]; intros items ts; cbn [parseItems]; [done|].
  destruct ts as [|[n a|n|d|] ts]; cbn [length]; [done|..]; try (intros H; apply IH in H; lia).
  - destruct (parseObject s _ n ∅ ts) as [[item r]|] eqn:E; [|done]. apply parseObject_rest in E. intros H. apply IH in H. simpl in H. lia.
  - case_bool_decide; [intros [= <- <-]; lia|intros H'; apply IH in H'; lia].
Qed.

Lemma wrap_rest context s depth text ts text' rest :
  wrap context (decode_text s depth text ts) = Ok (text', rest) → (length rest < length ts)%nat.
Proof. unfold wrap. destruct (decode_text s depth text ts) eqn:E; [|done]. intros [= ->]. by apply decode_text_rest in E. Qed.

Ltac fuel_cases IH :=
  repeat match goal with
  | |- ?x = ?x => reflexivity
  | |- (if ?b then _ else _) = _ => destruct b
  | |- match ?e with Ok _ => _ | Err _ => _ end = _ =>
    let E := fresh in destruct e as [[? ?]|] eqn:E; cbv iota beta;
    [apply decode_text_rest in E || apply wrap_rest in E || apply elementTexts_rest in E || apply parseObject_rest in E || apply parseItems_rest in E|]
  | |- match ?e with Ok _ => _ | Err _ => _ end = _ =>
    let E := fresh in destruct e eqn:E; cbv iota beta; [try apply skip_rest in E|]
  | |- match ?c with case_field _ _ => _ | _ => _ end = _ => destruct c
  | |- _ => apply IH; cbn [length fst snd] in *; lia
  end.

Ltac fuel_induction f :=
  induction f as [|f IH]; intros fuel'; intros; [lia|]; destruct fuel' as [|fuel']; [lia|];
  match goal with ts : list xml_token |- _ => destruct ts as [|[? ?|?|?|] ts]; cbn [length] in *; [reflexivity|..] end.

Lemma parseObject_fuel s fuel fuel' start item ts : (length ts < fuel)%nat → (length ts < fuel')%nat →
  parseObject s fuel start item ts = parseObject s fuel' start item ts.
Proof.
  revert fuel' item ts. fuel_induction fuel; cbn [parseObject]; fuel_cases IH.
Qed.

Lemma parseItems_fuel s fuel fuel' start items ts : (length ts < fuel)%nat → (length ts < fuel')%nat →
  parseItems s fuel start items ts = parseItems s fuel' start items ts.
Proof. revert fuel' items ts. fuel_induction fuel; cbn [parseItems]; fuel_cases IH. Qed.

Lemma page_loop_fuel s fuel fuel' valid page ts : (length ts < fuel)%nat → (length ts < fuel')%nat →
  page_loop s fuel valid page ts = page_loop s fuel' valid page ts.
Proof. revert fuel' valid page ts. fuel_induction fuel; cbn [page_loop]; fuel_cases IH. Qed.

Lemma create_loop_fuel s fuel fuel' valid shellID ts : (length ts < fuel)%nat → (length ts < fuel')%nat →
  create_loop s fuel valid shellID ts = create_loop s fuel' valid shellID ts.
Proof. revert fuel' valid shellID ts. fuel_induction fuel; cbn [create_loop]; cbv zeta; fuel_cases IH. Qed.

Lemma command_loop_fuel s fuel fuel' valid commandID ts : (length ts < fuel)%nat → (length ts < fuel')%nat →
  command_loop s fuel valid commandID ts = command_loop s fuel' valid commandID ts.
Proof. revert fuel' valid commandID ts. fuel_induction fuel; cbn [command_loop]; fuel_cases IH. Qed.

Lemma request_loop_fuel s fuel fuel' depth bodyDepth seen r ts : (length ts < fuel)%nat → (length ts < fuel')%nat →
  request_loop s fuel depth bodyDepth seen r ts = request_loop s fuel' depth bodyDepth seen r ts.
Proof. revert fuel' depth bodyDepth seen r ts. fuel_induction fuel; cbn [request_loop]; cbv zeta; fuel_cases IH. Qed.
