(* ===== verification/WinRMRequests.v ===== *)
(** * [pkg/discovery/winrm]: the requests are read as they are meant

    [document] is what [xml.Decoder] makes of a text, as far as the requests use XML: a
    declaration, elements with attributes in double quotes, and character data with
    entities; of any other text it says nothing.  [request_in] is [ParseSOAPRequest] on a
    text, and the theorem says what it returns for each of the six requests that
    [protocol.go] and [shell_protocol.go] write. *)

From S2P Require Import Prelude Bytes Text Strconv Time Topology WinRM WinRMProtocol.

(** ** Cutting a text at its tags *)

(** The tokens of [Decoder.RawToken]: names as they are written. *)
Inductive raw_token :=
| StartTag (name : string) (attrs : list (string * string))
| EndTag (name : string)
| Chars (s : string)
| Other.

Definition name_text (s : string) : bool := negb (String.eqb s "") && string_all (λ c, is_alnum c || Ascii.eqb c ":"%char) s.

Definition quote_mark : ascii := byte_of 34.

(** Character data: only what XML can carry, without a carriage return, which the decoder
    would replace. *)
Definition read_text (s : string) : option (list raw_token) :=
  if String.eqb s "" then Some []
  else if xml_valid s && negb (contains_byte (byte_of 13) s) then t ← xml_read None s; Some [Chars t]
  else None.

(** What stands before the value of an attribute: the text up to the space, and the name. *)
Definition read_before (s : string) : option (string * string) :=
  '(front, rest) ← cut_byte " "%char s;
  '(name, after) ← cut_byte "="%char rest;
  if String.eqb after "" && name_text name then Some (front, name) else None.

Fixpoint read_attrs (l : list string) : option (list (string * string)) :=
  match l with
  | [after] => if String.eqb after "" then Some [] else None
  | before :: value :: l =>
    '(front, name) ← read_before before;
    v ← xml_read None value;
    if String.eqb front "" && xml_valid value then cons (name, v) <$> read_attrs l else None
  | [] => None
  end.

Definition declaration_tag : string := ("?xml version=" +:+ quoted "1.0" +:+ " encoding=" +:+ quoted "UTF-8" +:+ "?")%string.

Definition plain_tag (tag : string) : option (list raw_token) :=
  match cut_byte "/"%char tag with
  | None => if name_text tag then Some [StartTag tag []] else None
  | Some (EmptyString, name) => if name_text name then Some [EndTag name] else None
  | Some (name, EmptyString) => if name_text name then Some [StartTag name []; EndTag name] else None
  | Some _ => None
  end.

(** A tag, from after its [<] to before its [>]. *)
Definition read_tag (tag : string) : option (list raw_token) :=
  if String.eqb tag declaration_tag then Some [Other] else
  match split_byte quote_mark tag with
  | [tag] => plain_tag tag
  | before :: value :: l =>
    '(name, attr) ← read_before before;
    attrs ← read_attrs ((" " +:+ attr +:+ "=")%string :: value :: l);
    if name_text name then Some [StartTag name attrs] else None
  | [] => None
  end.

Fixpoint read_pieces (pieces : list string) : option (list raw_token) :=
  match pieces with
  | [] => Some []
  | piece :: pieces =>
    '(tag, text) ← cut_byte ">"%char piece;
    ts ← read_tag tag;
    us ← read_text text;
    vs ← read_pieces pieces;
    Some (ts ++ us ++ vs)
  end.

Definition raw_tokens (text : string) : option (list raw_token) :=
  match split_byte "<"%char text with EmptyString :: pieces => read_pieces pieces | _ => None end.

(** ** Elements and name spaces *)

(** The prefixes in force, the innermost first; the empty prefix is that of [xmlns]. *)
Abbreviation bindings := (list (string * string)).

Definition bound (ns : bindings) (prefix : string) : string :=
  match List.find (λ b, String.eqb b.1 prefix) ns with Some b => b.2 | None => prefix end.
Definition name_in (ns : bindings) (name : string) : xml_name :=
  match cut_byte ":"%char name with Some (prefix, local) => mkName (bound ns prefix) local | None => mkName (bound ns "") name end.

Definition binding_of (a : string * string) : bindings :=
  if String.eqb a.1 "xmlns" then [(""%string, a.2)]
  else match cut_byte ":"%char a.1 with Some (prefix, local) => if String.eqb prefix "xmlns" then [(local, a.2)] else [] | None => [] end.
Definition attr_local (name : string) : string := match cut_byte ":"%char name with Some (_, l) => l | None => name end.

(** An element ends with the name it begins with, and the document with all of them ended. *)
Fixpoint nested (open : list (string * bindings)) (ts : list raw_token) : option (list xml_token) :=
  match ts with
  | [] => match open with [] => Some [] | _ => None end
  | StartTag name attrs :: ts =>
    let ns := (attrs ≫= binding_of) ++ match open with [] => [] | o :: _ => o.2 end in
    cons (StartElement (name_in ns name) ((λ a, (attr_local a.1, a.2)) <$> attrs)) <$> nested ((name, ns) :: open) ts
  | EndTag name :: ts =>
    match open with
    | (start, ns) :: open => if String.eqb start name then cons (EndElement (name_in ns name)) <$> nested open ts else None
    | [] => None
    end
  | Chars s :: ts => cons (CharData s) <$> nested open ts
  | Other :: ts => cons OtherToken <$> nested open ts
  end.

Definition document (text : string) : option (list xml_token) := raw_tokens text ≫= nested [].

(** [ParseSOAPRequest] on a text. *)
Definition request_in (text : string) : option (go SOAPRequest) := (λ ts, ParseSOAPRequest (mkStream ts None)) <$> document text.

(** ** What is written is what is read *)

(** The tokens a piece is meant to be: text that is escaped arrives as XML can carry it,
    text that is not as it stands. *)
Definition qualified (prefix local : string) : string := (prefix +:+ ":" +:+ local)%string.
Definition said (s t : string) : list raw_token := if String.eqb s "" then [] else [Chars t].
Definition piece_tokens (p : piece) : list raw_token :=
  match p with
  | Open prefix local attrs => [StartTag (qualified prefix local) ((λ a, (a.1, carried a.2)) <$> attrs)]
  | Shut prefix local => [EndTag (qualified prefix local)]
  | Bare prefix local => [StartTag (qualified prefix local) []; EndTag (qualified prefix local)]
  | Written s => said (xml_escape s) (carried s)
  | Literal s => said s s
  end.

(** Text that means itself in XML: printable and without the characters of markup. *)
Definition plain_char (c : ascii) : bool := printable c && negb (markup c) && negb (Ascii.eqb c "&"%char).
Definition plain_text (s : string) : bool := string_all plain_char s.

Definition clean (p : piece) : bool :=
  match p with
  | Open prefix local attrs => name_text (qualified prefix local) && forallb (λ a, name_text a.1) attrs
  | Shut prefix local | Bare prefix local => name_text (qualified prefix local)
  | Written _ => true
  | Literal s => plain_text s
  end.

(** No text follows a text. *)
Definition is_text (p : piece) : bool := match p with Written _ | Literal _ => true | _ => false end.
Definition tag_first (ps : list piece) : bool := match ps with p :: _ => negb (is_text p) | [] => true end.
Fixpoint spaced (ps : list piece) : bool :=
  match ps with [] => true | p :: ps => (negb (is_text p) || tag_first ps) && spaced ps end.

Lemma xml_valid_app a b : xml_valid a = true → xml_valid b = true → xml_valid (a +:+ b)%string = true.
Proof.
  intros Ha Hb. assert (utf8_valid a = true) as Hu.
  { rewrite <-(carried_valid a Ha). apply carried_utf8. }
  unfold xml_valid in *. rewrite chunks_app by done. by rewrite forallb_app, Ha, Hb.
Qed.

Lemma xml_valid_concat l : Forall (λ s, xml_valid s = true) l → xml_valid (String.concat "" l) = true.
Proof. induction 1 as [|s l Hs Hl IH]; [done|]. rewrite concat_cons. by apply xml_valid_app. Qed.

Lemma xml_chunk_valid c s : c ∈ chunks s → xml_valid (xml_chunk c) = true.
Proof.
  intros Hin. pose proof (chunks_ok s) as Hok. rewrite Forall_forall in Hok. specialize (Hok c Hin).
  pose proof (decode_utf8_whole (bytes_of s)) as Hw. rewrite Forall_forall in Hw. specialize (Hw c Hin).
  destruct c as [r bs]. unfold xml_chunk.
  do 8 (match goal with |- context [r =? ?k] => destruct (r =? k) end; [by vm_compute|]).
  destruct (negb (xml_char_ok r) || bad_chunk (r, bs)) eqn:E; [by vm_compute|]. apply orb_false_iff in E as [Er%negb_false_iff Eb].
  destruct (Hw Eb) as [_ Hd]. specialize (Hd []). cbn [snd] in Hd. rewrite app_nil_r in Hd.
  unfold xml_valid, chunks. rewrite bytes_of_string.
  - rewrite Hd. cbn [forallb fst]. by rewrite Er, Eb.
  - destruct Hok as [[Hr Heq]|(_&_&Hh&_)]; cbn [fst snd] in *.
    + subst bs. repeat constructor; unfold is_byte; lia.
    + eapply Forall_impl; [exact Hh|]. unfold is_byte. simpl. lia.
Qed.

Lemma xml_escape_valid s : xml_valid (xml_escape s) = true.
Proof. apply xml_valid_concat, Forall_fmap, Forall_forall. intros c Hc. by apply (xml_chunk_valid c s). Qed.

(** Escaped text has no character that would end it, and arrives as XML can carry it. *)
Lemma read_text_escape s : read_text (xml_escape s) = Some (said (xml_escape s) (carried s)).
Proof.
  unfold read_text, said. destruct (String.eqb _ _); [done|].
  assert (contains_byte (byte_of 13) (xml_escape s) = false) as -> by (by apply contains_byte_free, xml_escape_free).
  by rewrite xml_escape_valid, xml_escape_carries.
Qed.

Lemma plain_free c s : plain_char c = false → plain_text s = true → free_of c s.
Proof. intros Hc. apply string_all_impl. intros d Hd. apply negb_true_iff, Ascii.eqb_neq. congruence. Qed.

Lemma xml_read_free s : free_of "&"%char s → xml_read None s = Some s.
Proof.
  unfold free_of. induction s as [|c s IH]; [done|]. cbn [string_all xml_read]. intros [Hc Hs]%andb_true_iff.
  apply negb_true_iff in Hc. rewrite Ascii.eqb_sym in Hc. by rewrite Hc, IH.
Qed.

Lemma read_text_plain s : plain_text s = true → read_text s = Some (said s s).
Proof.
  intros Hs. unfold read_text, said. destruct (String.eqb _ _); [done|].
  assert (contains_byte (byte_of 13) s = false) as -> by (by apply contains_byte_free, plain_free).
  rewrite printable_valid; [by rewrite xml_read_free by (by apply plain_free)|].
  eapply string_all_impl; [|exact Hs]. intros c Hc. unfold plain_char in Hc. by destruct (printable c).
Qed.

Lemma name_free c s : is_alnum c || Ascii.eqb c ":"%char = false → name_text s = true → free_of c s.
Proof.
  intros Hc [_ Hs]%andb_true_iff. eapply string_all_impl; [|exact Hs]. intros d Hd. apply negb_true_iff, Ascii.eqb_neq. congruence.
Qed.

Lemma read_before_name front name : name_text name = true → free_of " "%char front →
  read_before (front +:+ " " +:+ name +:+ "=")%string = Some (front, name).
Proof.
  intros Hn Hf. unfold read_before.
  change (" " +:+ name +:+ "=")%string with (String " "%char (name +:+ "=")%string). rewrite cut_byte_app by done. cbn [mbind option_bind].
  change "="%string with (String "="%char "") at 1. rewrite cut_byte_app by (by apply name_free). cbn [mbind option_bind]. by rewrite Hn.
Qed.

Lemma cut_byte_free c s : free_of c s → cut_byte c s = None.
Proof.
  intros Hf. destruct (cut_byte c s) as [[a b]|] eqn:E; [|done]. apply cut_byte_spec in E as [-> _]. by apply free_of_mid in Hf.
Qed.

Definition attrs_text (attrs : list (string * string)) : string := String.concat "" (render_attr <$> attrs).

Lemma split_attr front a rest : name_text a.1 = true → free_of quote_mark front →
  split_byte quote_mark (front +:+ render_attr a +:+ rest)%string =
  (front +:+ " " +:+ a.1 +:+ "=")%string :: xml_escape a.2 :: split_byte quote_mark rest.
Proof.
  intros Ha Hf. assert (front +:+ render_attr a +:+ rest =
    (front +:+ " " +:+ a.1 +:+ "=") +:+ String quote_mark (xml_escape a.2 +:+ String quote_mark rest))%string as ->.
  { unfold render_attr, quoted. rewrite !string_app_assoc. reflexivity. }
  rewrite !split_byte_app; [done|by apply xml_escape_free|]. rewrite !free_of_app. split_and!; [done|done|by apply name_free|done].
Qed.

Lemma read_attrs_text attrs : forallb (λ a, name_text a.1) attrs = true →
  read_attrs (split_byte quote_mark (attrs_text attrs)) = Some ((λ a, (a.1, carried a.2)) <$> attrs).
Proof.
  unfold attrs_text. induction attrs as [|a attrs IH]; [done|]. cbn [forallb]. intros [Ha Hattrs]%andb_true_iff.
  rewrite fmap_cons, concat_cons. rewrite <-(string_app_nil (render_attr a +:+ _)%string), split_attr by done.
  cbn [read_attrs]. rewrite read_before_name by done. cbn [mbind option_bind].
  rewrite xml_escape_carries, xml_escape_valid. cbn [mbind option_bind String.eqb andb]. by rewrite IH.
Qed.

(** The text between the brackets of a piece that is a tag. *)
Definition tag_of (p : piece) : string :=
  match p with
  | Open prefix local attrs => qualified prefix local +:+ attrs_text attrs
  | Shut prefix local => "/" +:+ qualified prefix local
  | Bare prefix local => qualified prefix local +:+ "/"
  | Written _ | Literal _ => ""
  end%string.

Lemma render_tag p : is_text p = false → render_piece p = String "<"%char (tag_of p +:+ ">")%string.
Proof. destruct p; try done; intros _; cbn; unfold qualified; by rewrite ?string_app_assoc. Qed.

Lemma tag_free c p : c = "<"%char ∨ c = ">"%char → clean p = true → free_of c (tag_of p).
Proof.
  intros Hc. assert (is_alnum c || Ascii.eqb c ":"%char = false ∧ markup c = true) as [Hn Hm] by (by destruct Hc as [-> | ->]).
  assert (free_of c "/" ∧ free_of c " " ∧ free_of c "=" ∧ free_of c dquote) as (?&?&?&?) by (by destruct Hc as [-> | ->]).
  destruct p as [prefix local attrs| | | |]; cbn [clean tag_of]; rewrite ?free_of_app; try done; [|intros; split; [done|by apply name_free]|intros; split; [by apply name_free|done]].
  intros [Hq Ha]%andb_true_iff. split; [by apply name_free|]. unfold attrs_text, free_of. rewrite string_all_concat.
  apply forallb_forall. intros x Hx%list_elem_of_In. apply list_elem_of_fmap in Hx as (a&->&Hin).
  apply (proj1 (forallb_elem_of _ _) Ha) in Hin. unfold render_attr, quoted. fold (free_of c). change (free_of c (" " +:+ a.1 +:+ "=" +:+ dquote +:+ xml_escape a.2 +:+ dquote)%string).
  rewrite !free_of_app. split_and!; [done|by apply name_free|done|done|by apply xml_escape_free|done].
Qed.

Lemma no_declaration c s : is_alnum c || Ascii.eqb c ":"%char || Ascii.eqb c "/"%char = true → String.eqb (String c s) declaration_tag = false.
Proof. intros Hc. apply String.eqb_neq. intros [= -> _]. by vm_compute in Hc. Qed.

Lemma read_tag_name name rest : name_text name = true → read_tag (name +:+ rest)%string =
  match split_byte quote_mark (name +:+ rest)%string with
  | [tag] => plain_tag tag
  | before :: value :: l =>
    '(name, attr) ← read_before before;
    attrs ← read_attrs ((" " +:+ attr +:+ "=")%string :: value :: l);
    if name_text name then Some [StartTag name attrs] else None
  | [] => None
  end.
Proof.
  intros Hn. unfold read_tag. destruct name as [|c name]; [done|]. rewrite string_app_cons, no_declaration; [done|].
  unfold name_text in Hn. cbn in Hn. by destruct (is_alnum c || Ascii.eqb c ":").
Qed.

Lemma read_tag_piece p : clean p = true → is_text p = false → read_tag (tag_of p) = Some (piece_tokens p).
Proof.
  destruct p as [prefix local attrs|prefix local|prefix local| |]; try done; cbn [clean tag_of piece_tokens]; intros Hp _; [apply andb_true_iff in Hp as [Hp Ha]|..].
  - rewrite read_tag_name by done. generalize dependent (qualified prefix local). intros name Hp. destruct attrs as [|a attrs].
    + rewrite string_app_nil_r, split_byte_free by (by apply name_free). unfold plain_tag.
      assert (cut_byte "/"%char name = None) as -> by (by apply cut_byte_free, name_free). by rewrite Hp.
    + pose proof (read_attrs_text _ Ha) as Hr. cbn [forallb] in Ha. apply andb_true_iff in Ha as [Ha _].
      unfold attrs_text in *. rewrite fmap_cons, concat_cons in *. rewrite split_attr by (done || by apply name_free).
      rewrite <-(string_app_nil (render_attr a +:+ _)%string), split_attr in Hr by done.
      rewrite read_before_name by (done || by apply name_free). cbn [mbind option_bind]. rewrite string_app_nil in Hr. rewrite Hr. cbn [mbind option_bind]. by rewrite Hp.
  - unfold read_tag. rewrite string_app_cons, no_declaration by done. rewrite split_byte_free by (apply (name_free _ (qualified prefix local)); done).
    unfold plain_tag. cbn [cut_byte Ascii.eqb Bool.eqb]. rewrite ?string_app_nil. by rewrite Hp.
  - rewrite read_tag_name by done. rewrite split_byte_free by (rewrite free_of_app; split; [by apply name_free|done]).
    unfold plain_tag. rewrite cut_byte_app by (by apply name_free). destruct (qualified prefix local); [done|]. by rewrite Hp.
Qed.

Definition tokens_of (ps : list piece) : list raw_token := ps ≫= piece_tokens.

(** From inside a tag to the end of the text: the tag, the text after it and the pieces
    that follow. *)
Lemma read_rendered ps : ∀ tag ts text us,
  forallb clean ps = true → spaced ps = true → text = ""%string ∨ tag_first ps = true →
  free_of "<"%char tag → free_of ">"%char tag → free_of "<"%char text → read_tag tag = Some ts → read_text text = Some us →
  read_pieces (split_byte "<"%char (tag +:+ String ">"%char (text +:+ render ps))) = Some (ts ++ us ++ tokens_of ps).
Proof.
  induction ps as [|p ps IH]; intros tag ts text us Hclean Hsp Hfirst Ht1 Ht2 Hx Htag Htext.
  { change (render []) with ""%string. rewrite string_app_nil_r, split_byte_free by (rewrite free_of_app; done).
    cbn [read_pieces]. rewrite cut_byte_app by done. cbn [mbind option_bind]. by rewrite Htag, Htext. }
  cbn [forallb] in Hclean. apply andb_true_iff in Hclean as [Hp Hclean]. cbn [spaced] in Hsp. apply andb_true_iff in Hsp as [Hp' Hsp].
  unfold render. rewrite fmap_cons, concat_cons. fold (render ps). destruct (is_text p) eqn:Hkind.
  - destruct Hfirst as [->|Hf]; [|by cbn in Hf; rewrite Hkind in Hf]. assert (us = []) as -> by (by vm_compute in Htext; injection Htext).
    rewrite string_app_nil. cbn [app]. cbn [negb orb] in Hp'.
    destruct p as [| | |s|s]; try done; cbn [render_piece].
    + rewrite (IH tag ts (xml_escape s) (said (xml_escape s) (carried s))); [done|done|done|by right|done|done|by apply xml_escape_free|done|apply read_text_escape].
    + rewrite (IH tag ts s (said s s)); [done|done|done|by right|done|done|by apply plain_free|done|by apply read_text_plain].
  - rewrite render_tag by done.
    assert (tag +:+ String ">" (text +:+ (String "<" (tag_of p +:+ ">") +:+ render ps)) =
      (tag +:+ String ">" text) +:+ String "<" (tag_of p +:+ String ">" ("" +:+ render ps)))%string as ->.
    { by rewrite !string_app_assoc, !string_app_cons, !string_app_assoc. }
    rewrite split_byte_app by (rewrite free_of_app; done). cbn [read_pieces]. rewrite cut_byte_app by done. cbn [mbind option_bind].
    rewrite Htag, Htext. cbn [mbind option_bind].
    rewrite (IH (tag_of p) (piece_tokens p) ""%string []); [done|done|done|by left|by apply tag_free; auto|by apply tag_free; auto|done|by apply read_tag_piece|done].
Qed.

Lemma raw_tokens_message ps : forallb clean ps && spaced ps && tag_first ps = true →
  raw_tokens (message_text ps) = Some (Other :: tokens_of ps).
Proof.
  intros [[Hclean Hsp]%andb_true_iff Hfirst]%andb_true_iff. unfold raw_tokens.
  change (message_text ps) with (String "<"%char (declaration_tag +:+ String ">"%char (""%string +:+ render ps))).
  assert (∀ s, split_byte "<"%char (String "<"%char s) = ""%string :: split_byte "<"%char s) as -> by done.
  by rewrite (read_rendered ps declaration_tag [Other] "" []) by (done || by left).
Qed.

(** What the reader makes of a message, if its pieces are clean. *)
Definition message_request (ps : list piece) : option (go SOAPRequest) :=
  (λ ts, ParseSOAPRequest (mkStream ts None)) <$> nested [] (Other :: tokens_of ps).

Lemma request_in_message ps : forallb clean ps && spaced ps && tag_first ps = true → request_in (message_text ps) = message_request ps.
Proof. intros Hps. unfold request_in, document. by rewrite raw_tokens_message. Qed.

(** ** The parts of a message that vary *)

Lemma plain_app a b : plain_text (a +:+ b)%string = plain_text a && plain_text b.
Proof. apply string_all_app. Qed.

Lemma plain_decimal z : plain_text (decimal z) = true.
Proof.
  eapply string_all_impl; [|apply decimal_bytes]. intros [[] [] [] [] [] [] [] []]; by vm_compute.
Qed.

Lemma plain_hex l : Forall is_byte l → plain_text (hex_encode l) = true.
Proof.
  apply hex_encode_bytes. intros d Hd. assert (forallb (λ d, plain_char (hex_digit d)) (seqZ 0 16) = true) as Hall by (by vm_compute).
  rewrite forallb_forall in Hall. apply Hall, list_elem_of_In, elem_of_seqZ. lia.
Qed.

Lemma plain_take n s : plain_text s = true → plain_text (take_string n s) = true.
Proof. rewrite (take_drop_string n s) at 1. rewrite plain_app. by intros [? _]%andb_true_iff. Qed.
Lemma plain_drop n s : plain_text s = true → plain_text (drop_string n s) = true.
Proof. rewrite (take_drop_string n s) at 1. rewrite plain_app. by intros [_ ?]%andb_true_iff. Qed.

Lemma stamped_byte m k b : In (m, k) [(15, 64); (63, 128)] → is_byte b → is_byte (Z.lor (Z.land b m) k).
Proof.
  intros Hin Hb. assert (forallb (λ p : Z * Z, forallb (λ b, (0 <=? Z.lor (Z.land b p.1) p.2) && (Z.lor (Z.land b p.1) p.2 <? 256)) (seqZ 0 256)) [(15, 64); (63, 128)] = true) as Hall by (by vm_compute).
  rewrite forallb_forall in Hall. specialize (Hall _ Hin). rewrite forallb_forall in Hall. unfold is_byte in *.
  specialize (Hall b ltac:(apply list_elem_of_In, elem_of_seqZ; lia)). cbn [fst snd] in Hall. bool_facts. lia.
Qed.

(** A message ID has no markup in it. *)
Lemma messageID_plain random now : plain_text (messageID random now) = true.
Proof.
  destruct random as [bytes|e]; cbn [messageID]; [|apply plain_decimal].
  assert (plain_text (hex_encode (alter (λ b, Z.lor (Z.land b 63) 128) 8%nat (alter (λ b, Z.lor (Z.land b 15) 64) 6%nat (bytes_of bytes)))) = true) as Hp.
  { apply plain_hex, Forall_alter; [apply Forall_alter; [apply bytes_of_range|]|]; intros b _ Hb; apply stamped_byte; simpl; auto. }
  rewrite !plain_app. repeat (apply andb_true_intro; split); try done; repeat first [apply plain_take|apply plain_drop]; done.
Qed.

Example messageID_zero : messageID (Ok (string_of_bytes (repeat 0 16))) 0 = "00000000-0000-4000-8000-000000000000"%string.
Proof. reflexivity. Qed.

Lemma said_written s : (said (xml_escape s) (carried s) = [] ∧ carried s = ""%string) ∨ said (xml_escape s) (carried s) = [Chars (carried s)].
Proof.
  unfold said. destruct (String.eqb_spec (xml_escape s) "") as [Hs|]; [left|by right]. split; [done|].
  pose proof (xml_escape_carries s) as Hc. rewrite Hs in Hc. by injection Hc.
Qed.

(** ** The six requests *)

Section requests.
Context (random : go string) (now : Z) (endpoint : string) (timeout : duration).
Let id := messageID random now.

Ltac envelope := unfold enumerateEnvelope, pullEnvelope, createShellEnvelope, commandEnvelope, receiveEnvelope, deleteShellEnvelope,
  soapEnvelope, selectorHeader, option_element, element.

Ltac well_written :=
  rewrite request_in_message;
  [|assert (plain_text ("uuid:" +:+ id) = true) as Hid by (rewrite plain_app; unfold id; by rewrite messageID_plain);
    assert (plain_text ("PT" +:+ decimal (timeout_seconds timeout) +:+ "S") = true) as Ht by (rewrite !plain_app, plain_decimal; done);
    envelope; revert Hid Ht; generalize ("uuid:" +:+ id)%string ("PT" +:+ decimal (timeout_seconds timeout) +:+ "S")%string; intros ? ? Hid Ht;
    cbn [app forallb clean]; rewrite ?Hid, ?Ht; vm_compute; reflexivity].

(** A comparison made by evaluation, without writing out the values. *)
Ltac by_evaluation := match goal with |- _ = ?r => vm_cast_no_check (eq_refl r) end.

Ltac hide_said t := change (said t t) with [Chars t]; generalize t; intros ?.

Ltac read_back :=
  unfold message_request, tokens_of; envelope; cbn [mbind list_bind app piece_tokens];
  hide_said ("uuid:" +:+ id)%string; hide_said ("PT" +:+ decimal (timeout_seconds timeout) +:+ "S")%string.

Ltac hide_written s :=
  let E := fresh in destruct (said_written s) as [[-> E]| ->]; [rewrite ?E; clear E|generalize (carried s); intros ?].

Lemma create_read : request_in (message_text (createShellEnvelope id endpoint timeout)) =
  Some (Ok (mkSOAPRequest ActionCreate ShellResourceURI "" "" "" "Shell" namespaceShell "" "" [] "" "" "stdin" "stdout stderr"
    {["WINRS_NOPROFILE" := "TRUE"; "WINRS_CODEPAGE" := "65001"]})%string).
Proof. well_written. read_back. hide_written endpoint; by_evaluation. Qed.

Lemma enumerate_read op : op ∈ auditedOperations → request_in (message_text (enumerateEnvelope id endpoint op timeout)) =
  Some (Ok (mkSOAPRequest ActionEnumerate (ResourceURI op) (Query op) (if String.eqb (Query op) "" then "" else DialectWQL) ""
    "Enumerate" namespaceEnum "" "" [] "" "" "" "" ∅)%string).
Proof.
  intros Hop. unfold auditedOperations in Hop. rewrite !elem_of_cons, elem_of_nil in Hop.
  destruct_or! Hop; try done; subst op; (well_written; read_back; hide_written endpoint; by_evaluation).
Qed.

Lemma pull_read op ctx : op ∈ auditedOperations → request_in (message_text (pullEnvelope id endpoint op ctx timeout)) =
  Some (Ok (mkSOAPRequest ActionPull (ResourceURI op) "" "" (trim_space (carried ctx)) "Pull" namespaceEnum "" "" [] "" "" "" "" ∅)%string).
Proof.
  intros Hop. unfold auditedOperations in Hop. rewrite !elem_of_cons, elem_of_nil in Hop.
  destruct_or! Hop; try done; subst op; (well_written; read_back; hide_written endpoint; hide_written ctx; by_evaluation).
Qed.

Lemma command_read shellID : request_in (message_text (commandEnvelope id endpoint shellID AuditedSoftwareCommand timeout)) =
  Some (Ok (mkSOAPRequest ActionCommand ShellResourceURI "" "" "" "CommandLine" namespaceShell (trim_space (carried shellID))
    (Executable AuditedSoftwareCommand) (Arguments AuditedSoftwareCommand) "" "" "" ""
    {["WINRS_CONSOLEMODE_STDIN" := "FALSE"; "WINRS_SKIP_CMD_SHELL" := "TRUE"]})%string).
Proof. well_written. read_back. hide_written endpoint; hide_written shellID; by_evaluation. Qed.

Lemma receive_read shellID commandID : request_in (message_text (receiveEnvelope id endpoint shellID commandID timeout)) =
  Some (Ok (mkSOAPRequest ActionReceive ShellResourceURI "" "" "" "Receive" namespaceShell (trim_space (carried shellID)) "" []
    "stdout stderr" (trim_space (carried commandID)) "" "" ∅)%string).
Proof.
  well_written. read_back. hide_written endpoint; hide_written shellID; cbn [fmap list_fmap fst snd]; generalize (carried commandID); intros; by_evaluation.
Qed.

Lemma delete_read shellID : request_in (message_text (deleteShellEnvelope id endpoint shellID timeout)) =
  Some (Ok (mkSOAPRequest ActionDelete ShellResourceURI "" "" "" "" "" (trim_space (carried shellID)) "" [] "" "" "" "" ∅)%string).
Proof. well_written. read_back. hide_written endpoint; hide_written shellID; by_evaluation. Qed.
End requests.

(** C33: the text of each of the six requests the client writes is read by [ParseSOAPRequest]
    as exactly the request that was meant, whatever the target's URL, the timeout, the
    random bytes of the message ID and the IDs the remote end chose are: an audited
    operation's enumeration, which the allowlist matches to that operation; the pull of its
    next page with the context; the creation of the shell with its streams and options; the
    audited software command, which the allowlist matches, for its shell; the reading of a
    command's output; and the deletion of a shell.  A context and an ID arrive without the
    space around them and as XML can carry them, in their own field: no text in them ends
    an element or starts another. *)
Theorem audited_requests_understood (random : go string) (now : Z) (endpoint : string) (timeout : duration) :
  let id := messageID random now in
  let read ps r := request_in (message_text ps) = Some (Ok r) in
  let arrives s := trim_space (carried s) in
  (∀ op, op ∈ auditedOperations →
     (∃ r, read (enumerateEnvelope id endpoint op timeout) r ∧ MatchOperation (Action r) (Request_ResourceURI r) (Request_Query r) = Some op ∧
        BodyOperation r = "Enumerate" ∧ FilterDialect r = (if String.eqb (Query op) "" then "" else DialectWQL)) ∧
     ∀ context, read (pullEnvelope id endpoint op context timeout)
       (mkSOAPRequest ActionPull (ResourceURI op) "" "" (arrives context) "Pull" namespaceEnum "" "" [] "" "" "" "" ∅)) ∧
  read (createShellEnvelope id endpoint timeout)
    (mkSOAPRequest ActionCreate ShellResourceURI "" "" "" "Shell" namespaceShell "" "" [] "" "" "stdin" "stdout stderr"
       {["WINRS_NOPROFILE" := "TRUE"; "WINRS_CODEPAGE" := "65001"]}) ∧
  ∀ shellID,
    (∃ r, read (commandEnvelope id endpoint shellID AuditedSoftwareCommand timeout) r ∧
       MatchSoftwareCommand (Request_Command r) (Request_Arguments r) = true ∧ Action r = ActionCommand ∧ ShellID r = arrives shellID ∧
       SOAP_Options r = {["WINRS_CONSOLEMODE_STDIN" := "FALSE"; "WINRS_SKIP_CMD_SHELL" := "TRUE"]}) ∧
    (∀ commandID, read (receiveEnvelope id endpoint shellID commandID timeout)
       (mkSOAPRequest ActionReceive ShellResourceURI "" "" "" "Receive" namespaceShell (arrives shellID) "" []
          "stdout stderr" (arrives commandID) "" "" ∅)) ∧
    read (deleteShellEnvelope id endpoint shellID timeout)
      (mkSOAPRequest ActionDelete ShellResourceURI "" "" "" "" "" (arrives shellID) "" [] "" "" "" "" ∅).
Proof.
  cbv zeta. split_and!; [|apply create_read|].
  - intros op Hop. split; [|intros ctx; by apply pull_read]. eexists. split; [by apply enumerate_read|]. split; [|done].
    clear -Hop. unfold auditedOperations in Hop. rewrite !elem_of_cons, elem_of_nil in Hop. by destruct_or! Hop; subst op.
  - intros shellID. split_and!; [|intros commandID; apply receive_read|apply delete_read].
    eexists. split; [apply command_read|]. split_and!; [by apply bool_decide_eq_true|done..].
Qed.
