(* ===== verification/WinRMPlugin.v ===== *)
(** * [pkg/discovery/winrm]: the plugin

    [plugin.go]: the validation of a configuration, the paged enumeration of an operation,
    the life of a remote shell, the discovery of a target and of a request.  The exchanges
    with a target are a program over what was exchanged so far; [server] is whatever the
    target and the network answer, with the NTLM transport of [auth.go] between, and [ended]
    says when the context of the operation has ended, so that nothing is sent any more;
    [lexer] is the token reader of [encoding/xml] and [unmarshal], [decode] are its and
    [encoding/json]'s decoding into structures. *)

From S2P Require Import Prelude Bytes Text Strconv Time Model Netip Servicenow Topology Discovery WinRM WinRMProtocol.

Definition maxEnumerationPages : nat := 16.
Definition maxObjects : Z := 65536.
Definition AuthModeNTLM : string := "ntlm".

Record WinRMConfig := mkWinRMConfig {
  HostInterfacesOnly : bool;
  WinRM_Username : string; WinRM_Password : string; AuthMode : string; LabMode : bool;
  WinRM_Concurrency : Z; WinRM_ConnectTimeout : duration; OperationTimeout : duration; MaxResponseBytes : Z;
}.

(** ** Configuration *)

(** [validateTarget]; [parse_url] is [url.Parse]. *)
Definition validateTarget (parse_url : string → option URL) (raw : string) (labMode : bool) : go unit :=
  reject 2048 <? slen raw with "WinRM target exceeds 2048 bytes"%string ;;
  match parse_url raw with
  | None => Err "invalid WinRM target %q"%string
  | Some parsed =>
    reject String.eqb (Host parsed) "" with "invalid WinRM target %q"%string ;;
    reject negb (bool_decide (URL_User parsed = None)) || negb (String.eqb (RawQuery parsed) "") || negb (String.eqb (Fragment parsed) "")
      with "WinRM target %q must not contain credentials, a query, or a fragment"%string ;;
    if labMode then
      reject negb (String.eqb (Scheme parsed) "http") && negb (String.eqb (Scheme parsed) "https")
        with "Topo Lab WinRM target %q must use HTTP or HTTPS"%string ;;
      reject negb (loopback_host (Hostname_of (Host parsed))) with "Topo Lab WinRM target %q must be loopback"%string ;;
      Ok tt
    else
      reject negb (String.eqb (Scheme parsed) "https") with "WinRM target %q must use HTTPS"%string ;;
      Ok tt
  end.

Definition winrm_credentials (c : WinRMConfig) : go unit :=
  let user := String.eqb (WinRM_Username c) "" in
  let password := String.eqb (WinRM_Password c) "" in
  if LabMode c then
    reject negb (String.eqb (AuthMode c) "") with "Topo Lab Basic authentication cannot be combined with another WinRM authentication mode"%string ;;
    reject user || password with "Topo Lab WinRM username and password are required"%string ;;
    Ok tt
  else if String.eqb (AuthMode c) "" then
    reject negb user || negb password with "WinRM credentials require an explicit authentication mode"%string ;;
    Ok tt
  else if String.eqb (AuthMode c) AuthModeNTLM then
    reject user || password with "WinRM NTLM username and password are required"%string ;;
    Ok tt
  else Err "unsupported WinRM authentication mode %q"%string.

(** [Plugin.ValidateConfiguration] for a request without options. *)
Definition WinRM_ValidateConfiguration (parse_url : string → option URL) (c : WinRMConfig) (r : DiscoveryRequest) : go unit :=
  reject llen (Request_Targets r) =? 0 with "at least one WinRM target is required"%string ;;
  reject (WinRM_Concurrency c <? 0) || (1024 <? WinRM_Concurrency c) with "WinRM concurrency must be between 0 (default) and 1024"%string ;;
  reject (WinRM_ConnectTimeout c <? 0) || (OperationTimeout c <? 0) with "WinRM timeouts cannot be negative"%string ;;
  reject MaxResponseBytes c <? 0 with "WinRM maximum response size cannot be negative"%string ;;
  reject 512 <? slen (WinRM_Username c) with "WinRM username exceeds 512 bytes"%string ;;
  reject 4096 <? slen (WinRM_Password c) with "WinRM password exceeds 4096 bytes"%string ;;
  reject negb (string_all (λ ch, negb (line_control ch)) (WinRM_Username c)) with "WinRM username contains a control character"%string ;;
  try u := winrm_credentials c ;;
  try v := parse_each (λ target, validateTarget parse_url target (LabMode c)) (Request_Targets r) ;;
  Ok tt.

Definition operationTimeout (c : WinRMConfig) : duration := if 0 <? OperationTimeout c then OperationTimeout c else 10 * Second.
Definition max_response (c : WinRMConfig) : Z := if MaxResponseBytes c =? 0 then 4 * 2^20 else MaxResponseBytes c.

(** ** Messages and answers *)

Inductive wsman :=
| send_enumerate (operation : Operation)
| send_pull (operation : Operation) (context : string)
| send_create
| send_command (shellID : string) (command : Command)
| send_receive (shellID commandID : string)
| send_delete (shellID : string).

Definition envelope_of (id target : string) (timeout : duration) (m : wsman) : list piece :=
  match m with
  | send_enumerate operation => enumerateEnvelope id target operation timeout
  | send_pull operation context => pullEnvelope id target operation context timeout
  | send_create => createShellEnvelope id target timeout
  | send_command shellID command => commandEnvelope id target shellID command timeout
  | send_receive shellID commandID => receiveEnvelope id target shellID commandID timeout
  | send_delete shellID => deleteShellEnvelope id target shellID timeout
  end.

(** The errors here are [retryable] when they are errors of the network or of the context. *)
Definition in_context (context : string) (f : failure) : failure :=
  mkFailure (context +:+ ": " +:+ failure_text f)%string (failure_retryable f).

(** No response, or a context that has ended; or a response: its status, the bytes of its
    body, and the error that ends them. *)
Inductive http_reply :=
| http_failed (f : failure)
| http_response (status : Z) (body : string) (read_error : option failure).

(** One call of [doSOAP]: its message was sent, or it was not since the context had ended. *)
Inductive exchange := sent (m : wsman) | unsent (m : wsman).
Definition message (x : exchange) : wsman := match x with sent m | unsent m => m end.

(** A program that sends messages and may fail. *)
Definition talk (A : Type) : Type := list exchange → list exchange * result failure A.
#[export] Instance talk_ret : MRet talk := λ A a h, (h, Ok a).
#[export] Instance talk_bind : MBind talk := λ A B k p h,
  let '(h', r) := p h in match r with Ok a => k a h' | Err f => (h', Err f) end.
Definition fail {A} (f : failure) : talk A := λ h, (h, Err f).
Definition of_go {A} (f : string → failure) (r : go A) : talk A := λ h, (h, match r with Ok a => Ok a | Err e => Err (f e) end).
(** The result of a program whose error is a value. *)
Definition outcome_of {A} (p : talk A) : talk (result failure A) := λ h, let '(h', r) := p h in (h', Ok r).
Definition wrapping {A} (context : string) (p : talk A) : talk A := λ h,
  let '(h', r) := p h in (h', match r with Ok a => Ok a | Err f => Err (in_context context f) end).

Section plugin.
Context (ToLower : string → string).
Context (server : list exchange → wsman → http_reply) (ended : list exchange → option failure).
Context (lexer : string → xml_stream) (unmarshal : list xml_token → go receiveResponse).
Context (decode : list Z → list Software * option string).
Context (c : WinRMConfig) (target : string).

(** [doSOAP]; a context that has ended is an error of [HTTPClient.Do], which sends nothing. *)
Definition doSOAP (m : wsman) : talk xml_stream := λ h,
  match ended h with
  | Some f => (h ++ [unsent m], Err f)
  | None =>
  (h ++ [sent m],
   match server h m with
   | http_failed f => Err f
   | http_response status body read_error =>
     if max_response c <? slen body then Err (plain "WS-Management response exceeded %d bytes")
     else match read_error with
     | Some f => Err (in_context "read WS-Management response" f)
     | None =>
       if (status <? 200) || (300 <=? status) then Err (plain ("HTTP %s: " +:+ parseSOAPFault (lexer body))%string)
       else Ok (lexer body)
     end
   end)
  end.

Definition requestEnumeration (m : wsman) : talk enumerationPage :=
  body ← doSOAP m; of_go plain (parseEnumerationPage body).

(** The loop of [enumerate]; [n] pages may still be pulled. *)
Fixpoint pull_pages (n : nat) (operation : Operation) (page : enumerationPage) (items : list object) : talk (list object) :=
  if negb (String.eqb (Page_Context page) "") && negb (Page_Done page) then
    if maxObjects <? llen items then fail (plain "enumeration exceeded 65536 objects")
    else match n with
    | O => fail (plain "enumeration exceeded %d pages")
    | S n =>
      page ← requestEnumeration (send_pull operation (Page_Context page));
      if String.eqb (Page_Context page) "" && negb (Page_Done page) then fail (plain "pull response omitted context and end marker")
      else if maxObjects <? llen (items ++ Page_Items page) then fail (plain "enumeration exceeded 65536 objects")
      else pull_pages n operation page (items ++ Page_Items page)
    end
  else mret items.

Definition enumerate (operation : Operation) : talk (list object) :=
  page ← requestEnumeration (send_enumerate operation);
  if String.eqb (Page_Context page) "" && negb (Page_Done page) then fail (plain "enumeration response omitted context and end marker")
  else if maxObjects <? llen (Page_Items page) then fail (plain "enumeration exceeded 65536 objects")
  else pull_pages (maxEnumerationPages - 1) operation page (Page_Items page).

(** *** A remote command *)

Definition boundedOutput (value : list Z) : string :=
  let text := join " " (Fields (string_of_bytes value)) in
  if 512 <? slen text then (take_string 512 text +:+ "...")%string else text.

(** The loop that receives output; [n] messages may still be asked for. *)
Fixpoint receive_loop (n : nat) (shellID commandID : string) (stdout stderr : list Z) : talk (list Z) :=
  match n with
  | O => fail (plain "receive command output exceeded %d messages")
  | S n =>
    body ← wrapping "receive command output" (doSOAP (send_receive shellID commandID));
    result ← of_go (λ e, plain ("receive command output: " +:+ e)%string)
               (parseReceiveResponse unmarshal commandID body (stream_tokens body));
    let stdout := stdout ++ Stdout result in
    let stderr := stderr ++ Stderr result in
    if max_response c <? llen stdout + llen stderr then fail (plain "remote command output exceeded %d bytes")
    else if negb (Done result) then receive_loop n shellID commandID stdout stderr
    else if negb (ExitCode result =? 0) then fail (plain ("remote command exited with code %d: " +:+ boundedOutput stderr)%string)
    else if negb (String.eqb (trim_space (string_of_bytes stderr)) "") then fail (plain ("remote command wrote to stderr: " +:+ boundedOutput stderr)%string)
    else mret stdout
  end.

(** The command inside its shell. *)
Definition in_shell (shellID : string) (command : Command) : talk (list Z) :=
  body ← wrapping "start command" (doSOAP (send_command shellID command));
  commandID ← of_go (λ e, plain ("start command: " +:+ e)%string) (parseCommandResponse body);
  receive_loop maxReceiveMessages shellID commandID [] [].

(** The deferred deletion of the shell. *)
Definition delete_shell (shellID : string) : talk unit :=
  body ← doSOAP (send_delete shellID); of_go plain (parseEmptySOAPResponse body).

Definition runCommand (command : Command) : talk (list Z) :=
  body ← wrapping "create shell" (doSOAP send_create);
  shellID ← of_go (λ e, plain ("create shell: " +:+ e)%string) (parseCreateShellResponse body);
  out ← outcome_of (in_shell shellID command);
  deleted ← outcome_of (delete_shell shellID);
  match out, deleted with
  | Err f, _ => fail f
  | Ok _, Err f => fail (in_context "delete shell" f)
  | Ok stdout, Ok _ => mret stdout
  end.

(** *** A target *)

Definition winrm_error (code message : string) (retryable : bool) : CollectionError :=
  mkCollectionError code (target +:+ ": " +:+ message)%string retryable.

(** The operations the configuration asks for. *)
Definition selected (operation : Operation) : bool :=
  negb (HostInterfacesOnly c && negb (Required operation) && negb (String.eqb (Operation_Name operation) OperationNetwork)).

(** The loop over the operations: what each returned, and the errors with that of a
    required one at the end. *)
Fixpoint run_operations (operations : list Operation) (results : gmap string (list object)) (errs : list CollectionError)
    : list exchange → list exchange * result (list CollectionError) (gmap string (list object) * list CollectionError) := λ h,
  match operations with
  | [] => (h, Ok (results, errs))
  | operation :: operations =>
    if negb (selected operation) then run_operations operations results errs h else
    let '(h, r) := enumerate operation h in
    let message f := (Operation_Name operation +:+ ": " +:+ failure_text f)%string in
    match r with
    | Ok objects => run_operations operations (<[Operation_Name operation := objects]> results) errs h
    | Err f =>
      if Required operation then (h, Err (errs ++ [winrm_error "winrm_operation" (message f) (failure_retryable f)]))
      else run_operations operations results (errs ++ [winrm_error "winrm_partial" (message f) false]) h
    end
  end.

(** An optional part: parsed when it was collected, an error when it does not parse. *)
Definition optional_part {A} (results : gmap string (list object)) (name : string) (parse : list object → go A)
    : option A * list CollectionError :=
  match results !! name with
  | None => (None, [])
  | Some objects =>
    match parse objects with
    | Ok a => (Some a, [])
    | Err e => (None, [winrm_error "winrm_partial" (name +:+ ": " +:+ e)%string false])
    end
  end.

Definition with_parts (i : Inventory) (interfaces : option (list Interface)) (volumes : option (list Volume))
    (services : option (list Service)) (patches : option (list Patch)) (software : option (list Software)) : Inventory :=
  mkInventory (Hostname i) (MachineID i) (Domain i) (Manufacturer i) (ComputerModel i) (Serial i) (OSName i) (OSVersion i)
    (OSBuild i) (Architecture i) (DomainJoined i) (CPUCount i) (MemoryMB i) (default [] interfaces) volumes services patches software.

(** The software, unless only host and interfaces are asked for. *)
Definition software_part : list exchange → list exchange * (option (list Software) * list CollectionError) := λ h,
  if HostInterfacesOnly c then (h, (None, []))
  else
    let '(h, r) := runCommand AuditedSoftwareCommand h in
    (h, match r with
        | Err f => (None, [winrm_error "winrm_partial" (OperationSoftware +:+ ": " +:+ failure_text f)%string (failure_retryable f)])
        | Ok output =>
          let '(items, stop) := decode output in
          match parseSoftware ToLower items stop with
          | Ok software => (Some software, [])
          | Err e => (None, [winrm_error "winrm_partial" (OperationSoftware +:+ ": " +:+ e)%string false])
          end
        end).

Definition discoverTarget : list exchange → list exchange * (option Inventory * list CollectionError) := λ h,
  let '(h, r) := run_operations auditedOperations ∅ [] h in
  match r with
  | Err errs => (h, (None, errs))
  | Ok (results, errs) =>
    match parseInventory ToLower results with
    | Err e => (h, (None, errs ++ [winrm_error "winrm_parse" e false]))
    | Ok inventory =>
      let '(interfaces, e1) := optional_part results OperationNetwork (parseInterfaces ToLower) in
      let '(volumes, e2) := optional_part results OperationVolumes parseVolumes in
      let '(services, e3) := optional_part results OperationServices parseServices in
      let '(patches, e4) := optional_part results OperationPatches parsePatches in
      let '(h, (software, e5)) := software_part h in
      (h, (Some (with_parts inventory interfaces volumes services patches software), errs ++ e1 ++ e2 ++ e3 ++ e4 ++ e5))
    end
  end.
End plugin.

(** [Plugin.Discover]: [finished] are the targets with their outcomes in the order their
    workers take the lock, [ended] is the error of the context once it has ended. *)
Definition Discover (parse_url : string → option URL) (c : WinRMConfig) (r : DiscoveryRequest) (now : time) (id : string)
    (ended : option string) (finished : list (string * (option Inventory * list CollectionError))) : go ObservationEnvelope :=
  try u := WinRM_ValidateConfiguration parse_url c r ;;
  gather Inventory_Assets "winrm-windows" "winrm-relay" (Request_SiteID r) (Request_CollectorID r) (Request_JobID r) now id ended
    (snd <$> finished).

(** ** What a program sends *)

(** A program [sends P n] when, whatever the server answers and whenever the context ends, it
    sends, or tries to, at most [n] messages and [P] holds of each. *)
Definition sends {A} (P : wsman → Prop) (n : nat) (p : list exchange → list exchange * A) : Prop :=
  ∀ h, ∃ l, (p h).1 = h ++ l ∧ Forall (λ x, P (message x)) l ∧ (length l <= n)%nat.

Lemma sends_nothing {A} P (a : A) : sends P 0 (λ h, (h, a)).
Proof. intros h. exists []. rewrite app_nil_r. auto. Qed.

Lemma sends_le {A} P n m (p : list exchange → list exchange * A) : (n <= m)%nat → sends P n p → sends P m p.
Proof. intros Hle H h. destruct (H h) as (l & ? & ? & ?). exists l. split_and!; [done..|lia]. Qed.

Lemma sends_mono {A} (P Q : wsman → Prop) n (p : list exchange → list exchange * A) : (∀ m, P m → Q m) → sends P n p → sends Q n p.
Proof. intros HPQ H h. destruct (H h) as (l & ? & Hs & ?). exists l. split_and!; [done| |done]. eapply Forall_impl; [exact Hs|]. intros x. apply HPQ. Qed.

(** Going on after a program, with its result. *)
Lemma sends_then {A B} P n m (p : list exchange → list exchange * A) (k : A → list exchange → list exchange * B) :
  sends P n p → (∀ a, sends P m (k a)) → sends P (n + m) (λ h, let '(h', a) := p h in k a h').
Proof.
  intros Hp Hk h. destruct (Hp h) as (s1 & Heq & H1 & L1). destruct (p h) as [h' a]. cbn [fst] in Heq. subst h'.
  destruct (Hk a (h ++ s1)) as (s2 & Heq & H2 & L2). exists (s1 ++ s2). rewrite Heq, app_assoc, length_app.
  split_and!; [done|by apply Forall_app|lia].
Qed.

Lemma sends_bind {A B} P n m (p : talk A) (k : A → talk B) : sends P n p → (∀ a, sends P m (k a)) → sends P (n + m) (p ≫= k).
Proof.
  intros Hp Hk. apply (sends_then P n m p (λ r h, match r with Ok a => k a h | Err f => (h, Err f) end)); [done|].
  intros [a|f]; [apply Hk|]. apply (sends_le P 0); [lia|apply sends_nothing].
Qed.

Lemma sends_of_go {A} P f (r : go A) : sends P 0 (of_go f r).
Proof. apply sends_nothing. Qed.
Lemma sends_fail {A} P n f : sends P n (fail (A := A) f).
Proof. apply (sends_le P 0); [lia|apply sends_nothing]. Qed.
Lemma sends_ret {A} P n (a : A) : sends P n (mret a : talk A).
Proof. apply (sends_le P 0); [lia|apply sends_nothing]. Qed.

Lemma sends_map {A B} P n (p : list exchange → list exchange * A) (f : A → B) :
  sends P n p → sends P n (λ h, let '(h', a) := p h in (h', f a)).
Proof. intros Hp. rewrite <-(Nat.add_0_r n). apply sends_then; [done|]. intros a. apply sends_nothing. Qed.

Create HintDb sends discriminated.
#[export] Hint Resolve sends_of_go sends_fail sends_ret : sends.

(** What a program returns. *)
Definition yields {A} (Q : A → Prop) (p : talk A) : Prop := ∀ h a, (p h).2 = Ok a → Q a.

Lemma yields_bind {A B} (R : B → Prop) (p : talk A) (k : A → talk B) : (∀ a, yields R (k a)) → yields R (p ≫= k).
Proof.
  intros Hk h b. unfold mbind, talk_bind. destruct (p h) as [h' [a|f]]; [|done]. apply Hk.
Qed.
Lemma yields_fail {A} (Q : A → Prop) f : yields Q (fail f).
Proof. by intros h a. Qed.
Lemma yields_ret {A} (Q : A → Prop) a : Q a → yields Q (mret a : talk A).
Proof. by intros Ha h b [= <-]. Qed.

Section bounds.
Context (ToLower : string → string).
Context (server : list exchange → wsman → http_reply) (ended : list exchange → option failure).
Context (lexer : string → xml_stream) (unmarshal : list xml_token → go receiveResponse).
Context (decode : list Z → list Software * option string).
Context (c : WinRMConfig) (target : string).
Abbreviation doSOAP := (doSOAP server ended lexer c).
Abbreviation requestEnumeration := (requestEnumeration server ended lexer c).
Abbreviation pull_pages := (pull_pages server ended lexer c).
Abbreviation enumerate := (enumerate server ended lexer c).
Abbreviation receive_loop := (receive_loop server ended lexer unmarshal c).
Abbreviation in_shell := (in_shell server ended lexer unmarshal c).
Abbreviation runCommand := (runCommand server ended lexer unmarshal c).

Lemma doSOAP_sends (P : wsman → Prop) m : P m → sends P 1 (doSOAP m).
Proof.
  intros Hm h. unfold WinRMPlugin.doSOAP. destruct (ended h); [exists [unsent m]|exists [sent m]]; (split_and!; [done|by repeat constructor|simpl; lia]).
Qed.

Lemma wrapping_sends {A} P n context (p : talk A) : sends P n p → sends P n (wrapping context p).
Proof. apply (sends_map P n p). Qed.

Lemma requestEnumeration_sends (P : wsman → Prop) m : P m → sends P 1 (requestEnumeration m).
Proof. intros Hm. apply (sends_bind P 1 0); [by apply doSOAP_sends|]. intros a. apply sends_of_go. Qed.

(** *** Enumeration *)

Lemma pull_pages_sends (P : wsman → Prop) n operation page items : (∀ context, P (send_pull operation context)) →
  sends P n (pull_pages n operation page items).
Proof.
  intros HP. revert page items. induction n as [|n IH]; intros page items; cbn [WinRMPlugin.pull_pages];
    destruct (negb _ && negb _); try apply sends_ret; destruct (maxObjects <? llen items); try apply sends_fail.
  apply (sends_bind P 1 n); [by apply requestEnumeration_sends|]. intros p.
  destruct (_ && _); [apply sends_fail|]. destruct (maxObjects <? _); [apply sends_fail|apply IH].
Qed.

Lemma enumerate_sends (P : wsman → Prop) operation : P (send_enumerate operation) → (∀ context, P (send_pull operation context)) →
  sends P maxEnumerationPages (enumerate operation).
Proof.
  intros H0 HP. unfold WinRMPlugin.enumerate. apply (sends_bind P 1 (maxEnumerationPages - 1)); [by apply requestEnumeration_sends|].
  intros page. destruct (_ && _); [apply sends_fail|]. destruct (maxObjects <? _); [apply sends_fail|by apply pull_pages_sends].
Qed.

Lemma pull_pages_yields n operation page items : llen items <= maxObjects →
  yields (λ l, llen l <= maxObjects) (pull_pages n operation page items).
Proof.
  revert page items. induction n as [|n IH]; intros page items Hi; cbn [WinRMPlugin.pull_pages];
    (destruct (negb _ && negb _); [|by apply yields_ret]); (destruct (maxObjects <? llen items); [apply yields_fail|]);
    [apply yields_fail|].
  apply yields_bind. intros p. destruct (_ && _); [apply yields_fail|].
  destruct (Z.ltb_spec maxObjects (llen (items ++ Page_Items p))); [apply yields_fail|]. apply IH. lia.
Qed.

Lemma enumerate_yields operation : yields (λ l, llen l <= maxObjects) (enumerate operation).
Proof.
  apply yields_bind. intros page. destruct (_ && _); [apply yields_fail|].
  destruct (Z.ltb_spec maxObjects (llen (Page_Items page))); [apply yields_fail|]. by apply pull_pages_yields.
Qed.

(** *** A remote command *)

Lemma receive_loop_sends (P : wsman → Prop) n shellID commandID out err : P (send_receive shellID commandID) →
  sends P n (receive_loop n shellID commandID out err).
Proof.
  intros HP. revert out err. induction n as [|n IH]; intros out err; cbn [WinRMPlugin.receive_loop]; [apply sends_fail|].
  apply (sends_bind P 1 n); [by apply wrapping_sends, doSOAP_sends|]. intros body. apply (sends_bind P 0 n); [apply sends_of_go|].
  intros result. cbv zeta. destruct (max_response c <? _); [apply sends_fail|]. destruct (negb (Done result)); [apply IH|].
  destruct (negb _); [apply sends_fail|]. destruct (negb _); [apply sends_fail|apply sends_ret].
Qed.


Lemma in_shell_sends shellID command :
  sends (λ m, m = send_command shellID command ∨ ∃ commandID, m = send_receive shellID commandID)
    (1 + maxReceiveMessages) (in_shell shellID command).
Proof.
  apply (sends_bind _ 1 maxReceiveMessages); [apply wrapping_sends, doSOAP_sends; by left|]. intros body.
  apply (sends_bind _ 0 maxReceiveMessages); [apply sends_of_go|]. intros commandID. apply receive_loop_sends. eauto.
Qed.







(** *** A target *)

(** The messages the configuration allows. *)
Definition audited (m : wsman) : Prop :=
  match m with
  | send_enumerate operation | send_pull operation _ => operation ∈ auditedOperations ∧ selected c operation = true
  | send_command _ command => command = AuditedSoftwareCommand ∧ HostInterfacesOnly c = false
  | send_create | send_receive _ _ | send_delete _ => HostInterfacesOnly c = false
  end.

Lemma runCommand_sends : HostInterfacesOnly c = false → sends audited 67 (runCommand AuditedSoftwareCommand).
Proof.
  intros Hc. unfold WinRMPlugin.runCommand. apply (sends_bind _ 1 66); [by apply wrapping_sends, doSOAP_sends|]. intros body.
  apply (sends_bind _ 0 66); [apply sends_of_go|]. intros shellID. apply (sends_bind _ 65 1).
  { apply sends_map. eapply sends_mono; [|apply in_shell_sends]. intros m [->|[id ->]]; simpl; auto. }
  intros out. apply (sends_bind _ 1 0).
  { apply sends_map. unfold delete_shell. apply (sends_bind _ 1 0); [by apply doSOAP_sends|]. intros a. apply sends_of_go. }
  intros deleted. destruct out, deleted; auto with sends.
Qed.

Lemma run_operations_sends operations results errs : operations ⊆ auditedOperations →
  sends audited (maxEnumerationPages * length operations) (run_operations server ended lexer c target operations results errs).
Proof.
  revert results errs. induction operations as [|op operations IH]; intros results errs Hsub; cbn [run_operations length].
  { apply (sends_le _ 0); [lia|apply sends_nothing]. }
  assert (operations ⊆ auditedOperations) as Hsub' by set_solver. replace (maxEnumerationPages * S (length operations))%nat
    with (maxEnumerationPages + maxEnumerationPages * length operations)%nat by lia.
  destruct (selected c op) eqn:Hs; cbn [negb].
  2: { eapply sends_le; [|exact (IH results errs Hsub')]. lia. }
  apply (sends_then _ maxEnumerationPages (maxEnumerationPages * length operations) (enumerate op) (λ r h, match r with Ok objects => _ | Err f => _ end)).
  - apply enumerate_sends; [|intros context]; simpl; (split; [set_solver|done]).
  - intros [objects|f]; [by apply IH|]. destruct (Required op); [|by apply IH]. apply (sends_le _ 0); [lia|apply sends_nothing].
Qed.

Lemma discoverTarget_sends :
  sends audited (maxEnumerationPages * length auditedOperations + 67) (discoverTarget ToLower server ended lexer unmarshal decode c target).
Proof.
  unfold discoverTarget. apply (sends_then _ _ 67 _ (λ r h, match r with Ok x => _ | Err errs => _ end)); [by apply run_operations_sends|].
  intros [[results errs]|errs]; [|apply (sends_le _ 0); [lia|apply sends_nothing]].
  destruct (parseInventory ToLower results) as [inventory|e]; [|apply (sends_le _ 0); [lia|apply sends_nothing]].
  destruct (optional_part _ _ _ _) as [interfaces e1]. destruct (optional_part _ _ _ _) as [volumes e2].
  destruct (optional_part _ _ _ _) as [services e3]. destruct (optional_part _ _ _ _) as [patches e4].
  apply (sends_then _ 67 0 (software_part ToLower server ended lexer unmarshal decode c target) (λ x h, let '(software, e5) := x in _)).
  - unfold software_part. destruct (HostInterfacesOnly c) eqn:Hc; [apply (sends_le _ 0); [lia|apply sends_nothing]|].
    apply sends_map. by apply runCommand_sends.
  - intros [software e5]. apply sends_nothing.
Qed.

(** What an inventory promises. *)
Record inventory_ok (inv : Inventory) : Prop := {
  ok_identity : Hostname inv ≠ ""%string ∧ MachineID inv ≠ ""%string ∧ Serial inv ≠ ""%string;
  ok_sizes : 1 <= CPUCount inv <= int64_max ∧ 0 <= MemoryMB inv < 2^44;
  ok_volumes volumes : Volumes inv = Some volumes → Forall volume_ok volumes ∧ sorted_by DeviceID volumes;
  ok_software software : InstalledSoftware inv = Some software → software_list_ok ToLower software;
}.

Lemma parseInventory_ok results inv : parseInventory ToLower results = Ok inv →
  (Hostname inv ≠ ""%string ∧ MachineID inv ≠ ""%string ∧ Serial inv ≠ ""%string) ∧
  1 <= CPUCount inv <= int64_max ∧ 0 <= MemoryMB inv < 2^44.
Proof.
  unfold parseInventory, positiveInt, positiveUint. cbv zeta.
  destruct (oneObject (default [] (results !! OperationComputerSystem))) as [computer|]; [|done].
  destruct (oneObject (default [] (results !! OperationComputerSystemProduct))) as [product|]; [|done].
  destruct (oneObject (default [] (results !! OperationBIOS))) as [bios|]; [|done].
  destruct (oneObject (default [] (results !! OperationOperatingSystem))) as [os|]; [|done].
  destruct (Atoi _) as [cpus|] eqn:Hcpu; [|done]. destruct (Z.ltb_spec cpus 1); [done|].
  destruct (ParseUint64 _) as [memory|] eqn:Hmem; [|done]. destruct (Z.ltb_spec memory 1); [done|].
  destruct (String.eqb_spec (first computer "Name") ""), (String.eqb_spec (ToLower (first product "UUID")) ""),
    (String.eqb_spec (first bios "SerialNumber") ""); try done. cbn [orb].
  destruct (ParseBool _); [|done]. intros [= <-]. cbn [Hostname MachineID Serial CPUCount MemoryMB].
  apply Atoi_in_int64 in Hcpu. unfold in_int64 in Hcpu. apply ParseUint64_range in Hmem.
  split; [done|]. split; [lia|]. split; [apply Z.div_pos; lia|apply Z.div_lt_upper_bound; lia].
Qed.

Definition winrm_partial (e : CollectionError) : Prop := CollectionError_Code e = "winrm_partial"%string.

Lemma run_operations_errors operations results errs h : Forall winrm_partial errs →
  match (run_operations server ended lexer c target operations results errs h).2 with
  | Ok (_, errs') => Forall winrm_partial errs'
  | Err errs' => ∃ es e, errs' = es ++ [e] ∧ Forall winrm_partial es ∧ CollectionError_Code e = "winrm_operation"%string
  end.
Proof.
  revert results errs h. induction operations as [|op operations IH]; intros results errs h He; cbn [run_operations]; [done|].
  destruct (negb (selected c op)); [by apply IH|]. destruct (enumerate op h) as [h' [objects|f]]; [by apply IH|].
  destruct (Required op); [by eexists _, _|]. apply IH, Forall_app. split; [done|by repeat constructor].
Qed.

Lemma optional_part_ok {A} results name (parse : list object → go A) a es : optional_part target results name parse = (a, es) →
  Forall winrm_partial es ∧ ∀ x, a = Some x → ∃ objects, parse objects = Ok x.
Proof.
  unfold optional_part. destruct (results !! name) as [objects|]; [destruct (parse objects) eqn:E|]; intros [= <- <-].
  - split; [constructor|]. intros x [= <-]. eauto.
  - split; [by repeat constructor|done].
  - split; [constructor|done].
Qed.

Lemma software_part_ok h : match (software_part ToLower server ended lexer unmarshal decode c target h).2 with
  (software, es) => Forall winrm_partial es ∧ ∀ x, software = Some x → software_list_ok ToLower x end.
Proof.
  unfold software_part. destruct (HostInterfacesOnly c); [by split; [constructor|]|].
  destruct (runCommand AuditedSoftwareCommand h) as [h' [output|f]]; [|by split; [repeat constructor|]]. cbn [snd].
  destruct (decode output) as [items stop]. destruct (parseSoftware ToLower items stop) as [l|e] eqn:E; [|by split; [repeat constructor|]].
  split; [constructor|]. intros x [= <-]. apply parseSoftware_spec in E. tauto.
Qed.

(** C31: whatever a Windows target answers and whenever a context ends, discovering it sends at
    most 195 messages, each
    for an audited operation the configuration selects or, unless only host and interfaces
    are asked for, for the audited software command; an inventory has a host name, a machine
    ID, a serial number and sizes in their ranges, and its volumes and software are within
    bounds; without one the last error says why, and all others are partial. *)
Theorem winrm_discovery_spec h :
  let '(h', (found, errs)) := discoverTarget ToLower server ended lexer unmarshal decode c target h in
  (∃ l, h' = h ++ l ∧ Forall (λ x, audited (message x)) l ∧ (length l <= 195)%nat) ∧
  match found with
  | Some inv => inventory_ok inv ∧ Forall winrm_partial errs
  | None => ∃ es e, errs = es ++ [e] ∧ Forall winrm_partial es ∧
      CollectionError_Code e ∈ ["winrm_operation"; "winrm_parse"]%string
  end.
Proof.
  pose proof (discoverTarget_sends h) as Hs. change (maxEnumerationPages * length auditedOperations + 67)%nat with 195%nat in Hs.
  revert Hs. unfold discoverTarget. pose proof (run_operations_errors auditedOperations ∅ [] h (Forall_nil_2 _)) as Hr.
  destruct (run_operations _ _ _ _ _ _ _ _ h) as [h1 [[results errs]|errs]]; cbn [snd] in Hr; intros Hs.
  2: { split; [exact Hs|]. destruct Hr as (es & e & -> & Hes & Hcode). exists es, e. rewrite Hcode. split_and!; [done..|left]. }
  destruct (parseInventory ToLower results) as [inventory|e] eqn:Hi; cbn [fst] in Hs.
  2: { split; [exact Hs|]. exists errs, (winrm_error target "winrm_parse" e false). split_and!; [done..|right; left]. }
  destruct (optional_part target results OperationNetwork _) as [interfaces e1] eqn:H1.
  destruct (optional_part target results OperationVolumes _) as [volumes e2] eqn:H2.
  destruct (optional_part target results OperationServices _) as [services e3] eqn:H3.
  destruct (optional_part target results OperationPatches _) as [patches e4] eqn:H4.
  pose proof (software_part_ok h1) as Hsw. destruct (software_part _ _ _ _ _ _ _ _ h1) as [h2 [software e5]]. cbn [fst snd] in *.
  split; [exact Hs|]. apply optional_part_ok in H1 as [H1 _], H2 as [H2 Hv], H3 as [H3 _], H4 as [H4 _].
  apply parseInventory_ok in Hi as (Hid & Hcpu & Hmem). destruct Hsw as [H5 Hsoft].
  split; [split; cbn; auto|by rewrite !Forall_app].
  intros vs Hvs. destruct (Hv vs Hvs) as [objects Hobj]. apply parseVolumes_spec in Hobj. tauto.
Qed.
End bounds.

(** ** Configurations and envelopes *)

(** Outside the lab every target of a valid configuration is an HTTPS URL without
    credentials of its own, and credentials are only given with NTLM. *)
Lemma valid_configuration_is_https parse_url c r : WinRM_ValidateConfiguration parse_url c r = Ok tt → LabMode c = false →
  Forall (λ raw, ∃ u, parse_url raw = Some u ∧ Scheme u = "https"%string ∧ URL_User u = None ∧ Host u ≠ ""%string) (Request_Targets r) ∧
  (AuthMode c = AuthModeNTLM ∨ (WinRM_Username c = ""%string ∧ WinRM_Password c = ""%string)).
Proof.
  unfold WinRM_ValidateConfiguration. intros Hv Hlab. destruct (llen _ =? 0); [done|].
  do 6 match type of Hv with (if ?b then _ else _) = _ => destruct b; [done|] end.
  destruct (winrm_credentials c) as [[]|] eqn:Hc; [|done]. destruct (parse_each _ _) as [us|] eqn:Hp; [|done]. split.
  - apply parse_each_ok in Hp. rewrite Hlab in Hp. apply Forall_forall. intros raw [i Hi]%list_elem_of_lookup.
    destruct (Forall2_lookup_l _ _ _ _ _ Hp Hi) as ([] & _ & Ht). revert Ht. unfold validateTarget. destruct (2048 <? _); [done|].
    destruct (parse_url raw) as [u|]; [|done]. destruct (String.eqb_spec (Host u) ""); [done|].
    destruct (bool_decide_reflect (URL_User u = None)); cbn [negb orb]; [|done]. destruct (_ || _); [done|].
    destruct (String.eqb_spec (Scheme u) "https"); [eauto|done].
  - revert Hc. unfold winrm_credentials. rewrite Hlab. destruct (String.eqb_spec (AuthMode c) "").
    { destruct (String.eqb_spec (WinRM_Username c) ""), (String.eqb_spec (WinRM_Password c) ""); auto; done. }
    destruct (String.eqb_spec (AuthMode c) AuthModeNTLM); [by left|done].
Qed.

(** The envelope is a host plugin's, whatever order the targets finish in. *)
Lemma winrm_envelope parse_url c r now id finished e : Discover parse_url c r now id None finished = Ok e →
  Envelope_Assets e = all_found plugin_assets now (inventories (snd <$> finished)) ∧
  Envelope_Relationships e = all_linked plugin_assets now (inventories (snd <$> finished)) ∧
  closed (Envelope_Assets e) (Envelope_Relationships e).
Proof.
  unfold Discover. destruct (WinRM_ValidateConfiguration _ _ _); [|done]. intros (_ & -> & -> & _)%gather_ok.
  split; [done|]. split; [done|]. exact (all_found_closed now (inventories (snd <$> finished))).
Qed.

(** ** A run against a small server *)

Definition field_tokens (f : string * string) : list xml_token :=
  [StartElement (mkName "" f.1) []; CharData f.2; EndElement (mkName "" f.1)].
Definition enum_name (l : string) : xml_name := mkName namespaceEnum l.
Definition page_tokens (fields : list (string * string)) : list xml_token :=
  [StartElement (enum_name "EnumerateResponse") []; StartElement (mkName namespaceWSMan "Items") [];
   StartElement (mkName "" "Object") []] ++ (fields ≫= field_tokens)
  ++ [EndElement (mkName "" "Object"); EndElement (mkName namespaceWSMan "Items");
      StartElement (enum_name "EndOfSequence") []; EndElement (enum_name "EndOfSequence"); EndElement (enum_name "EnumerateResponse")].

(** The body names the class, and stands for its tokens. *)
Definition demo_server (h : list exchange) (m : wsman) : http_reply :=
  match m with
  | send_enumerate operation => http_response 200 (Operation_Name operation) None
  | _ => http_failed (mkFailure "connection reset" true)
  end.
Definition demo_lexer (body : string) : xml_stream :=
  mkStream (if String.eqb body OperationComputerSystem then
              page_tokens [("Name", "WIN-1"); ("NumberOfLogicalProcessors", "8"); ("TotalPhysicalMemory", "17179869184"); ("PartOfDomain", "True")]
            else if String.eqb body OperationComputerSystemProduct then page_tokens [("UUID", "4C4C4544-0001")]
            else if String.eqb body OperationBIOS then page_tokens [("SerialNumber", "SN-7")]
            else if String.eqb body OperationOperatingSystem then page_tokens [("Caption", "Windows Server"); ("OSArchitecture", "64-bit")]
            else if String.eqb body OperationNetwork then
              page_tokens [("InterfaceIndex", "3"); ("MACAddress", "00:15:5D:00:00:01"); ("IPAddress", "10.0.0.9"); ("IPSubnet", "255.255.255.0")]
            else if String.eqb body OperationVolumes then page_tokens [("DeviceID", "C:"); ("Size", "100"); ("FreeSpace", "101")]
            else [])%string None.
Definition demo_winrm_config (host_only : bool) : WinRMConfig := mkWinRMConfig host_only "admin" "secret" "ntlm" false 0 0 0 0.

Definition demo_run (host_only : bool) : list exchange * (option Inventory * list CollectionError) :=
  discoverTarget to_lower demo_server (λ _, None) demo_lexer (λ _, Err "not asked"%string) (λ _, ([], None)) (demo_winrm_config host_only) "https://h" [].

Example demo_host_only :
  (demo_run true).2 =
  (Some (mkInventory "WIN-1" "4c4c4544-0001" "" "" "" "SN-7" "Windows Server" "" "" "x86_64" true 8 16384
    [mkInterface 3 "" "00:15:5d:00:00:01" ["10.0.0.9/24"%string]] None None None None), []).
Proof. vm_compute. reflexivity. Qed.

Example demo_partial :
  (length (demo_run false).1, CollectionError_Message <$> (demo_run false).2.2) =
  (9%nat, ["https://h: services: SOAP response is missing EnumerateResponse or PullResponse";
           "https://h: patches: SOAP response is missing EnumerateResponse or PullResponse";
           "https://h: volumes: FreeSpace %d exceeds Size %d for volume %q";
           "https://h: software: create shell: connection reset"]%string).
Proof. vm_compute. reflexivity. Qed.

(** The timeout of the operation is over while the command runs: its shell is not deleted. *)
Definition shell_server (h : list exchange) (m : wsman) : http_reply :=
  match m with send_create => http_response 200 "created" None | _ => http_failed (mkFailure "context deadline exceeded" true) end.
Definition shell_lexer (body : string) : xml_stream :=
  mkStream [StartElement (mkName namespaceTransfer "ResourceCreated") []; StartElement (mkName namespaceWSMan "Selector") [("Name", "ShellId")];
            CharData "11111111"; EndElement (mkName namespaceWSMan "Selector"); EndElement (mkName namespaceTransfer "ResourceCreated")]%string None.
Definition over_after (n : nat) (h : list exchange) : option failure :=
  if (n <=? length h)%nat then Some (mkFailure "context deadline exceeded" true) else None.

Example timed_out_shell_is_left :
  (runCommand shell_server (over_after 2) shell_lexer (λ _, Err "not asked"%string) (demo_winrm_config false) AuditedSoftwareCommand []).1 =
  [sent send_create; sent (send_command "11111111" AuditedSoftwareCommand); unsent (send_delete "11111111")].
Proof. vm_compute. reflexivity. Qed.

(** A response to the creation that cannot be read leaves the shell as well. *)
Example unread_shell_is_left :
  (runCommand (λ _ _, http_response 200 "created" (Some (plain "unexpected EOF"))) (λ _, None) shell_lexer (λ _, Err "not asked"%string)
     (demo_winrm_config false) AuditedSoftwareCommand []).1 = [sent send_create].
Proof. vm_compute. reflexivity. Qed.
