(* ===== verification/NTLM.v ===== *)
(** * [pkg/discovery/winrm/auth.go]: the NTLM transport

    One request through [ntlmRoundTripper]: the challenge is read from the response, the
    tokens are made by the NTLM library (arguments of the model), and the base transport
    answers each attempt as it likes. *)

From S2P Require Import Prelude Bytes Text Strconv WinRM Topology.

Definition maxNTLMTokenBytes : Z := 65536.
Definition maxAuthDrainBytes : Z := 65536.

(** [base64.StdEncoding.EncodedLen] *)
Definition EncodedLen (n : Z) : Z := (n + 2) / 3 * 4.

(** ** The challenge *)

Definition is_ntlm (scheme : string) : bool := EqualFold_ascii scheme "NTLM".
Definition is_negotiate (scheme : string) : bool := EqualFold_ascii scheme "Negotiate".

Record challenge := mkChallenge { Challenge_Scheme : string; Challenge_Token : list Z }.

Definition malformed : string := "malformed or oversized NTLM challenge".

(** One candidate of a header: nothing, or a scheme with its token. *)
Definition read_candidate (candidate : string) : go (option challenge) :=
  match Fields candidate with
  | [] => Ok None
  | scheme :: rest =>
    if negb (is_ntlm scheme) && negb (is_negotiate scheme) then Ok None
    else match rest with
    | [] => Ok (Some (mkChallenge scheme []))
    | [token] =>
      reject EncodedLen maxNTLMTokenBytes <? slen token with malformed ;;
      match base64_decode token with
      | None => Err malformed
      | Some bytes => reject maxNTLMTokenBytes <? llen bytes with malformed ;; Ok (Some (mkChallenge scheme bytes))
      end
    | _ => Err malformed
    end
  end.

(** The loops of [ntlmChallenge]: the first NTLM challenge, else the last Negotiate one. *)
Fixpoint scan_candidates (negotiate : option (list Z)) (candidates : list string) : go (option challenge) :=
  match candidates with
  | [] => Ok (mkChallenge "Negotiate" <$> negotiate)
  | candidate :: candidates =>
    match read_candidate candidate with
    | Err e => Err e
    | Ok None => scan_candidates negotiate candidates
    | Ok (Some c) => if is_ntlm (Challenge_Scheme c) then Ok (Some c) else scan_candidates (Some (Challenge_Token c)) candidates
    end
  end.
Definition ntlmChallenge (values : list string) : go (option challenge) :=
  scan_candidates None (values ≫= split_byte ","%char).

(** ** Round trips *)

(** A response of the base transport: its status, its [WWW-Authenticate] values, the length
    of its body and the error that ends it; a body is missing from an invalid one. *)
Record auth_response := mkAuthResponse {
  Auth_Status : Z; WWW_Authenticate : list string; Auth_Body : option (Z * option string);
}.

(** [drainAuthResponse] *)
Definition drainAuthResponse (r : auth_response) : go unit :=
  match Auth_Body r with
  | None => Err "NTLM authentication response omitted a body"%string
  | Some (n, e) =>
    reject maxAuthDrainBytes <? n with "NTLM authentication response exceeded %d bytes"%string ;;
    match e with Some e => Err ("read NTLM authentication response: " +:+ e)%string | None => Ok tt end
  end.

(** The request as the caller makes it. *)
Record caller_request := mkCallerRequest {
  URL_Scheme : option string;             (* of the URL, if there is one *)
  Authorization : string;
  Has_Body : bool;
  Replayable : bool;                      (* [GetBody] is set *)
}.

Section transport.
(** [ntlmssp.GetDomain], [NewNegotiateMessage] and [ProcessChallenge]; replaying the body;
    the base transport, by the authorizations sent before. *)
Context (GetDomain : string → string * string * bool).
Context (NewNegotiateMessage : string → go (list Z)).
Context (ProcessChallenge : list Z → string → string → bool → go (list Z)).
Context (replay_error : nat → option string).
Context (base : list string → string → go auth_response).
Context (username password : string).

(** [roundTrip] *)
Definition roundTrip (r : caller_request) (sent : list string) (authorization : string) : list string * go auth_response :=
  match (if Has_Body r then replay_error (length sent) else None) with
  | Some e => (sent, Err ("replay NTLM request body: " +:+ e)%string)
  | None =>
    (sent ++ [authorization],
     match base sent authorization with
     | Err e => Err e
     | Ok response =>
       match Auth_Body response with
       | None => Err "NTLM base transport returned an invalid response"%string
       | Some _ => Ok response
       end
     end)
  end.

Definition credentials (scheme : string) (token : list Z) : string := (scheme +:+ " " +:+ base64_encode token)%string.

(** The last step: the answer to a challenge. *)
Definition answer_challenge (r : caller_request) (sent : list string) (response : auth_response) (scheme : string) (token : list Z)
    : list string * go auth_response :=
  let '(user, domain, domainNeeded) := GetDomain username in
  match ProcessChallenge token user password domainNeeded with
  | Err e => (sent, Err ("process NTLM challenge: " +:+ e)%string)
  | Ok authenticate =>
    match drainAuthResponse response with
    | Err e => (sent, Err e)
    | Ok _ => roundTrip r sent (credentials scheme authenticate)
    end
  end.

(** The negotiation that comes first when the challenge has no token. *)
Definition negotiate_first (r : caller_request) (sent : list string) (response : auth_response) (scheme : string)
    : list string * go auth_response :=
  let '(user, domain, domainNeeded) := GetDomain username in
  match NewNegotiateMessage domain with
  | Err e => (sent, Err ("create NTLM negotiate message: " +:+ e)%string)
  | Ok negotiate =>
    match drainAuthResponse response with
    | Err e => (sent, Err e)
    | Ok _ =>
      match roundTrip r sent (credentials scheme negotiate) with
      | (sent, Err e) => (sent, Err e)
      | (sent, Ok response) =>
        if negb (Auth_Status response =? 401) then (sent, Ok response)
        else match ntlmChallenge (WWW_Authenticate response) with
        | Err e => (sent, Err e)
        | Ok None => (sent, Ok response)
        | Ok (Some c) =>
          match Challenge_Token c with
          | [] => (sent, Ok response)
          | token => answer_challenge r sent response (Challenge_Scheme c) token
          end
        end
      end
    end
  end.

(** [ntlmRoundTripper.RoundTrip]: the authorizations sent, and the result. *)
Definition RoundTrip (r : caller_request) : list string * go auth_response :=
  if negb (bool_decide (URL_Scheme r = Some "https"%string)) then ([], Err "NTLM authentication requires HTTPS"%string)
  else if negb (String.eqb (Authorization r) "") then ([], Err "NTLM transport rejects caller-supplied authorization"%string)
  else if Has_Body r && negb (Replayable r) then ([], Err "NTLM authentication requires a replayable request body"%string)
  else match roundTrip r [] "" with
  | (sent, Err e) => (sent, Err e)
  | (sent, Ok response) =>
    if negb (Auth_Status response =? 401) then (sent, Ok response)
    else match ntlmChallenge (WWW_Authenticate response) with
    | Err e => (sent, Err e)
    | Ok None => (sent, Ok response)
    | Ok (Some c) =>
      match Challenge_Token c with
      | [] => negotiate_first r sent response (Challenge_Scheme c)
      | token => answer_challenge r sent response (Challenge_Scheme c) token
      end
    end
  end.

(** ** Lemmas *)

Definition offered (c : challenge) : Prop := is_ntlm (Challenge_Scheme c) = true ∨ is_negotiate (Challenge_Scheme c) = true.

Lemma read_candidate_ok candidate c : read_candidate candidate = Ok (Some c) → offered c ∧ llen (Challenge_Token c) <= maxNTLMTokenBytes.
Proof.
  unfold read_candidate, offered. destruct (Fields candidate) as [|scheme rest]; [done|].
  destruct (is_ntlm scheme) eqn:H1, (is_negotiate scheme) eqn:H2; cbn [negb andb]; try done; destruct rest as [|token [|? ?]]; try done;
    try (intros [= <-]; split; [by auto|unfold llen, maxNTLMTokenBytes; simpl; lia]);
    (destruct (EncodedLen maxNTLMTokenBytes <? slen token); [done|]); (destruct (base64_decode token) as [bytes|]; [|done]);
    (destruct (Z.ltb_spec maxNTLMTokenBytes (llen bytes)); [done|]); intros [= <-]; auto.
Qed.

Lemma ntlmChallenge_ok values c : ntlmChallenge values = Ok (Some c) → offered c ∧ llen (Challenge_Token c) <= maxNTLMTokenBytes.
Proof.
  unfold ntlmChallenge. generalize (values ≫= split_byte ","%char). intros candidates.
  assert (∀ negotiate, (∀ t, negotiate = Some t → llen t <= maxNTLMTokenBytes) → scan_candidates negotiate candidates = Ok (Some c) →
    offered c ∧ llen (Challenge_Token c) <= maxNTLMTokenBytes) as Hgen; [|by apply Hgen].
  induction candidates as [|candidate candidates IH]; intros negotiate Hn; cbn [scan_candidates].
  { destruct negotiate as [t|]; [|done]. intros [= <-]. split; [by right|by apply Hn]. }
  destruct (read_candidate candidate) as [[c'|]|] eqn:Hc; [|by apply IH|done]. apply read_candidate_ok in Hc as [Ho Hl].
  destruct (is_ntlm (Challenge_Scheme c')); [by intros [= <-]|]. apply IH. by intros t [= <-].
Qed.

(** An authorization is none, or a token in one of the two schemes. *)
Definition ntlm_authorization (v : string) : Prop :=
  v = ""%string ∨ ∃ scheme token, v = credentials scheme token ∧ (is_ntlm scheme = true ∨ is_negotiate scheme = true).

Lemma roundTrip_sent r sent authorization :
  ∃ more, (roundTrip r sent authorization).1 = sent ++ more ∧ (more = [] ∨ more = [authorization]).
Proof.
  unfold roundTrip. destruct (if Has_Body r then replay_error (length sent) else None);
    [exists []|exists [authorization]]; rewrite ?app_nil_r; auto.
Qed.

Lemma roundTrip_ok r sent authorization sent' response :
  roundTrip r sent authorization = (sent', Ok response) → sent' = sent ++ [authorization].
Proof. unfold roundTrip. destruct (if Has_Body r then replay_error (length sent) else None); by intros [= <-]. Qed.

Definition adds (n : nat) (sent sent' : list string) : Prop :=
  ∃ more, sent' = sent ++ more ∧ (length more <= n)%nat ∧ Forall ntlm_authorization more.

Lemma adds_refl n sent : adds n sent sent.
Proof. exists []. rewrite app_nil_r. split_and!; [done|simpl; lia|constructor]. Qed.

Lemma adds_trans n m s1 s2 s3 : adds n s1 s2 → adds m s2 s3 → adds (n + m) s1 s3.
Proof.
  intros (l1 & -> & L1 & F1) (l2 & -> & L2 & F2). exists (l1 ++ l2). rewrite app_assoc, length_app.
  split_and!; [done|lia|by apply Forall_app].
Qed.

Lemma roundTrip_adds r sent authorization : ntlm_authorization authorization → adds 1 sent (roundTrip r sent authorization).1.
Proof.
  intros Ha. destruct (roundTrip_sent r sent authorization) as (more & Heq & Hmore). rewrite Heq. exists more.
  destruct Hmore as [-> | ->]; (split_and!; [done|simpl; lia|by rewrite ?Forall_singleton]).
Qed.

Lemma answer_adds r sent response scheme token : is_ntlm scheme = true ∨ is_negotiate scheme = true →
  adds 1 sent (answer_challenge r sent response scheme token).1.
Proof.
  intros Hs. unfold answer_challenge. destruct (GetDomain username) as [[user domain] needed].
  destruct (ProcessChallenge _ _ _ _) as [authenticate|]; [|apply adds_refl].
  destruct (drainAuthResponse response); [|apply adds_refl]. apply roundTrip_adds. right. eauto.
Qed.

Lemma negotiate_adds r sent response scheme : is_ntlm scheme = true ∨ is_negotiate scheme = true →
  adds 2 sent (negotiate_first r sent response scheme).1.
Proof.
  intros Hs. unfold negotiate_first. destruct (GetDomain username) as [[user domain] needed].
  destruct (NewNegotiateMessage domain) as [negotiate|]; [|apply adds_refl].
  destruct (drainAuthResponse response); [|apply adds_refl].
  pose proof (roundTrip_adds r sent (credentials scheme negotiate) (or_intror (ex_intro _ scheme (ex_intro _ negotiate (conj eq_refl Hs))))) as H1.
  destruct (roundTrip _ _ _) as [sent1 [response1|e]]; cbn [fst] in H1; [|by apply (adds_trans 1 1 _ sent1); [|apply adds_refl]].
  assert (adds 2 sent sent1) as H2 by (by apply (adds_trans 1 1 _ sent1); [|apply adds_refl]).
  destruct (negb _); [done|]. destruct (ntlmChallenge _) as [[c|]|] eqn:Hc; try done. apply ntlmChallenge_ok in Hc as [Ho _].
  destruct (Challenge_Token c); [done|]. apply (adds_trans 1 1 _ sent1); [done|by apply answer_adds].
Qed.

(** What may have been sent for a request. *)
Definition ntlm_only (r : caller_request) (sent : list string) : Prop :=
  (length sent <= 3)%nat ∧ Forall ntlm_authorization sent ∧ (sent ≠ [] → head sent = Some ""%string) ∧
  (sent ≠ [] → URL_Scheme r = Some "https"%string ∧ Authorization r = ""%string ∧ (Has_Body r = true → Replayable r = true)).

Lemma ntlm_only_nil r : ntlm_only r [].
Proof. by split_and!; [simpl; lia|constructor|..]. Qed.

Lemma ntlm_only_adds r sent :
  URL_Scheme r = Some "https"%string → Authorization r = ""%string → (Has_Body r = true → Replayable r = true) →
  adds 2 [""%string] sent → ntlm_only r sent.
Proof.
  intros Hu Ha Hb (l & -> & Hl & Hf). split_and!; [simpl; lia| |done|done]. apply Forall_app. split; [|done].
  apply Forall_singleton. by left.
Qed.

Lemma RoundTrip_ntlm_only r : ntlm_only r (RoundTrip r).1.
Proof.
  unfold RoundTrip. case_bool_decide as Hu; cbn [negb]; [|apply ntlm_only_nil].
  destruct (String.eqb_spec (Authorization r) "") as [Ha|]; cbn [negb]; [|apply ntlm_only_nil].
  destruct (Has_Body r && negb (Replayable r)) eqn:Hb; [apply ntlm_only_nil|].
  assert (Has_Body r = true → Replayable r = true) as Hr by (intros Hh; rewrite Hh in Hb; by destruct (Replayable r)).
  pose proof (λ sent, ntlm_only_adds r sent Hu Ha Hr) as Hdone.
  destruct (roundTrip_sent r [] "") as (more & Hsent & Hmore). pose proof (roundTrip_ok r [] "") as Hone.
  destruct (roundTrip r [] "") as [sent res]. cbn [fst app] in *. subst sent.
  assert (ntlm_only r more) as Hfirst by (destruct Hmore as [-> | ->]; [apply ntlm_only_nil|apply Hdone, adds_refl]).
  destruct res as [response|e]; [|done]. pose proof (Hone _ _ eq_refl) as ->. destruct (negb (Auth_Status _ =? 401)); [exact Hfirst|].
  destruct (ntlmChallenge _) as [[c|]|] eqn:Hc; [|exact Hfirst..]. apply ntlmChallenge_ok in Hc as [Ho _]. apply Hdone.
  destruct (Challenge_Token c) as [|b token]; [by apply negotiate_adds|].
  apply (adds_trans 1 1 _ [""%string]); [apply adds_refl|by apply answer_adds].
Qed.

(** credentials leave only as NTLM: a request goes out at most three times, first without
    an authorization, and then only with tokens of the NTLM or Negotiate scheme; nothing is
    sent unless the URL is HTTPS, the caller set no authorization of its own and a body can
    be replayed. *)
Theorem authorization_is_ntlm_only r :
  let '(sent, _) := RoundTrip r in
  (length sent <= 3)%nat ∧ Forall ntlm_authorization sent ∧ (sent ≠ [] → head sent = Some ""%string) ∧
  (sent ≠ [] → URL_Scheme r = Some "https"%string ∧ Authorization r = ""%string ∧ (Has_Body r = true → Replayable r = true)).
Proof. pose proof (RoundTrip_ntlm_only r) as H. by destruct (RoundTrip r). Qed.
End transport.

Example prefers_ntlm : ntlmChallenge ["Basic realm=x, Negotiate QQ=="; "ntlm TlRM"]%string = Ok (Some (mkChallenge "ntlm" [78; 84; 76])).
Proof. vm_compute. reflexivity. Qed.
Example refuses_extra_words : is_ok (ntlmChallenge ["Negotiate QQ== x"]%string) = false.
Proof. vm_compute. reflexivity. Qed.
