(* ===== verification/Platforms.v ===== *)
(** * [pkg/discovery/snmp], [vmware] and [kubernetes]

    Three plugins whose protocols are libraries: [gosnmp], [govmomi] and [client-go].  What
    a library returns is an argument, in records with the fields the code reads.  Each
    module has the validation of a configuration, the discovery of a target, the inventory
    and its assets. *)

From S2P Require Import Prelude Bytes Text Strconv Time Model Netip Servicenow Topology Discovery.

(** [validateTarget] of a plugin whose targets are URLs: [what] and [lab] are its words for
    a target, [embeds] finds credentials in the URL, and [lab_http] is set where the lab may
    use HTTP.  Targets of the lab must be on the loopback. *)
Definition url_target (what lab : string) (parse_url : string → option URL) (embeds : URL → bool) (lab_http : bool)
    (raw : string) (labMode : bool) : go URL :=
  reject 2048 <? slen raw with (what +:+ " exceeds 2048 bytes")%string ;;
  match parse_url raw with
  | None => Err ("invalid " +:+ what +:+ " %q")%string
  | Some parsed =>
    reject String.eqb (Host parsed) "" with ("invalid " +:+ what +:+ " %q")%string ;;
    reject embeds parsed with (what +:+ " %q must not contain credentials")%string ;;
    reject negb (String.eqb (RawQuery parsed) "") || negb (String.eqb (Fragment parsed) "")
      with (what +:+ " %q must not contain a query or fragment")%string ;;
    let http := String.eqb (Scheme parsed) "http" in
    let https := String.eqb (Scheme parsed) "https" in
    if labMode && lab_http then
      reject negb http && negb https with ("Topo Lab " +:+ lab +:+ " target %q must use HTTP or HTTPS")%string ;;
      reject negb (loopback_host (Hostname_of (Host parsed))) with ("Topo Lab " +:+ lab +:+ " target %q must be loopback")%string ;;
      Ok parsed
    else
      reject negb https with (what +:+ " %q must use HTTPS")%string ;;
      reject labMode && negb (loopback_host (Hostname_of (Host parsed))) with ("Topo Lab " +:+ lab +:+ " target %q must be loopback")%string ;;
      Ok parsed
  end.

Definition has_user (u : URL) : bool := negb (bool_decide (URL_User u = None)).

(** A target that is accepted uses HTTPS, or is on the loopback. *)
Lemma url_target_ok what lab parse_url embeds lab_http raw labMode u :
  url_target what lab parse_url embeds lab_http raw labMode = Ok u →
  parse_url raw = Some u ∧ Host u ≠ ""%string ∧ embeds u = false ∧
  (Scheme u = "https"%string ∨ (labMode = true ∧ lab_http = true)) ∧
  (labMode = true → loopback_host (Hostname_of (Host u)) = true).
Proof.
  unfold url_target. destruct (2048 <? slen raw); [done|]. destruct (parse_url raw) as [v|]; [|done].
  destruct (String.eqb_spec (Host v) ""); [done|]. destruct (embeds v) eqn:He; [done|].
  destruct (negb (String.eqb (RawQuery v) "") || _); [done|]. cbv zeta.
  destruct labMode, lab_http; cbn [andb]; destruct (String.eqb_spec (Scheme v) "https"), (loopback_host _) eqn:Hl, (String.eqb (Scheme v) "http");
    cbn [negb andb]; try done; intros [= <-]; auto 10.
Qed.

Fixpoint each_ok {A B} (f : A → go B) (l : list A) : go unit :=
  match l with [] => Ok tt | x :: l => try y := f x ;; each_ok f l end.

Lemma each_ok_forall {A B} (f : A → go B) l : each_ok f l = Ok tt ↔ Forall (λ x, is_ok (f x) = true) l.
Proof.
  induction l as [|x l IH]; simpl; [by split; [constructor|]|]. rewrite Forall_cons, <-IH. destruct (f x); simpl; [tauto|by split; [|intros []]].
Qed.

(** ** [snmp] *)

Module SNMP.

Definition oidSysDescr : string := "1.3.6.1.2.1.1.1.0".
Definition oidSysObjectID : string := "1.3.6.1.2.1.1.2.0".
Definition oidSysUpTime : string := "1.3.6.1.2.1.1.3.0".
Definition oidSysName : string := "1.3.6.1.2.1.1.5.0".
Definition maxInterfaces : Z := 4096.

(** [gosnmp.SnmpPDU]: [Missing] is a type [NoSuchObject], [NoSuchInstance] or [EndOfMibView]. *)
Inductive snmp_value := value_bytes (b : list Z) | value_string (s : string) | value_uint32 (z : Z) | value_other.
Record SnmpPDU := mkPDU { PDU_Name : string; Missing : bool; PDU_Value : snmp_value }.

Record Interface := mkInterface { Interface_Index : Z; Interface_Name : string; Interface_MAC : string }.
Record Inventory := mkInventory {
  EngineID : string; SysName : string; SysDescr : string; SysObjectID : string; SysUpTimeTicks : Z; Interfaces : list Interface;
}.

Definition normalizeOID (name : string) : string := trim_prefix name ".".

Definition octetString (pdu : SnmpPDU) : go string :=
  reject Missing pdu with "OID %s not available on device"%string ;;
  match PDU_Value pdu with
  | value_bytes raw => Ok (string_of_bytes raw)
  | _ => Err "OID %s: expected an octet string, got %s"%string
  end.
Definition objectIdentifier (pdu : SnmpPDU) : string :=
  match PDU_Value pdu with value_string s => trim_prefix s "." | _ => "" end.
Definition timeTicks (pdu : SnmpPDU) : Z := match PDU_Value pdu with value_uint32 z => z | _ => 0 end.

Definition lastOIDIndex (name : string) : go Z :=
  match Atoi (List.last (split_byte "."%char (normalizeOID name)) "") with
  | Some index => Ok index
  | None => Err "OID %q has a non-numeric index"%string
  end.

(** [fmt.Sprintf("%02x", b)] joined by colons *)
Definition formatMAC (raw : list Z) : string := join ":" ((λ b, hex_encode [b]) <$> raw).

(** The system group: a later variable for the same object wins, the first bad one ends it. *)
Fixpoint system_loop (descr object_id name : string) (ticks : Z) (variables : list SnmpPDU) : go (string * string * string * Z) :=
  match variables with
  | [] => Ok (descr, object_id, name, ticks)
  | v :: variables =>
    let oid := normalizeOID (PDU_Name v) in
    if String.eqb oid oidSysDescr then try descr := octetString v ;; system_loop descr object_id name ticks variables
    else if String.eqb oid oidSysObjectID then system_loop descr (objectIdentifier v) name ticks variables
    else if String.eqb oid oidSysName then try name := octetString v ;; system_loop descr object_id name ticks variables
    else if String.eqb oid oidSysUpTime then system_loop descr object_id name (timeTicks v) variables
    else system_loop descr object_id name ticks variables
  end.
Definition parseSystemGroup (variables : list SnmpPDU) : go (string * string * string * Z) := system_loop "" "" "" 0 variables.

(** The interface table: the names and addresses by index, and the indexes in the order of
    their first row.  [gosnmp] calls the callback with a row at a time, and stops at its
    first error; [ended] is the error of the walk itself. *)
Record if_table := mkIfTable { names : gmap Z string; macs : gmap Z string; order : list Z }.

Definition track (index : Z) (order : list Z) : list Z := if bool_decide (index ∈ order) then order else order ++ [index].

Definition descr_row (t : if_table) (pdu : SnmpPDU) : go if_table :=
  try index := lastOIDIndex (PDU_Name pdu) ;;
  try name := octetString pdu ;;
  Ok (mkIfTable (<[index := name]> (names t)) (macs t) (track index (order t))).

Definition mac_row (t : if_table) (pdu : SnmpPDU) : go if_table :=
  try index := lastOIDIndex (PDU_Name pdu) ;;
  let macs := match PDU_Value pdu with
              | value_bytes ((_ :: _) as raw) => <[index := formatMAC raw]> (macs t) | _ => macs t end in
  Ok (mkIfTable (names t) macs (track index (order t))).

Fixpoint walk_rows (row : if_table → SnmpPDU → go if_table) (count : Z) (t : if_table) (pdus : list SnmpPDU) (ended : option failure)
    : result failure if_table :=
  match pdus with
  | [] => match ended with Some f => Err f | None => Ok t end
  | pdu :: pdus =>
    if maxInterfaces <? count + 1 then Err (plain "interface table exceeded %d entries")
    else match row t pdu with
    | Err e => Err (plain e)
    | Ok t => walk_rows row (count + 1) t pdus ended
    end
  end.

Definition walkInterfaces (descr mac : list SnmpPDU * option failure) : result failure (list Interface) :=
  match walk_rows descr_row 0 (mkIfTable ∅ ∅ []) descr.1 descr.2 with
  | Err f => Err f
  | Ok t =>
    match walk_rows mac_row 0 t mac.1 mac.2 with
    | Err f => Err f
    | Ok t => Ok ((λ index, mkInterface index (default "" (names t !! index)) (default "" (macs t !! index)))
                  <$> sort_by Z.ltb (order t))
    end
  end%string.

(** *** Configuration *)

Record Config := mkConfig {
  Username : string; SecurityLevel : string; AuthProtocol : string; PrivProtocol : string;
  AuthPassphrase : string; PrivPassphrase : string; LabMode : bool; Concurrency : Z; Timeout : duration; Retries : Z;
}.

(** [strconv.ParseUint(s, 10, 16)] *)
Definition parse_port (s : string) : option Z := z ← unsigned_value s; if z <? 65536 then Some z else None.

Definition parseTarget (raw : string) (labMode : bool) : go (string * Z) :=
  reject 2048 <? slen raw with "SNMP target exceeds 2048 bytes"%string ;;
  match SplitHostPort raw with
  | Err _ => Err "invalid SNMP target %q"%string
  | Ok (host, port) =>
    match parse_port port with
    | None => Err "invalid SNMP target port in %q"%string
    | Some p =>
      reject p =? 0 with "invalid SNMP target port in %q"%string ;;
      reject labMode && negb (loopback_host host) with "Topo Lab SNMP target %q must be loopback"%string ;;
      Ok (host, p)
    end
  end.

Definition security_ok (c : Config) : go unit :=
  let level := SecurityLevel c in
  if String.eqb level "" then Err "SNMP security level is required"%string
  else if String.eqb level "noAuthNoPriv" then
    reject negb (LabMode c) with "SNMP noAuthNoPriv is only permitted in Topo Lab mode; production requires authPriv"%string ;;
    reject existsb (λ s, negb (String.eqb s "")) [AuthProtocol c; PrivProtocol c; AuthPassphrase c; PrivPassphrase c]
      with "SNMP noAuthNoPriv cannot be combined with an authentication or privacy protocol"%string ;;
    Ok tt
  else if String.eqb level "authNoPriv" then Err "SNMP authNoPriv is not supported; use authPriv"%string
  else if String.eqb level "authPriv" then
    reject LabMode c with "Topo Lab SNMP agent only supports noAuthNoPriv"%string ;;
    reject negb (String.eqb (AuthProtocol c) "SHA") with "SNMP authPriv requires SHA authentication, got %q"%string ;;
    reject negb (String.eqb (PrivProtocol c) "AES") with "SNMP authPriv requires AES privacy, got %q"%string ;;
    reject slen (AuthPassphrase c) <? 8 with "SNMP authentication passphrase must be at least 8 characters"%string ;;
    reject slen (PrivPassphrase c) <? 8 with "SNMP privacy passphrase must be at least 8 characters"%string ;;
    Ok tt
  else Err "unsupported SNMP security level %q"%string.

Definition ValidateConfiguration (c : Config) (r : DiscoveryRequest) : go unit :=
  reject llen (Request_Targets r) =? 0 with "at least one SNMP target is required"%string ;;
  reject (Concurrency c <? 0) || (1024 <? Concurrency c) with "SNMP concurrency must be between 0 (default) and 1024"%string ;;
  reject Timeout c <? 0 with "SNMP timeout cannot be negative"%string ;;
  reject (Retries c <? 0) || (10 <? Retries c) with "SNMP retries must be between 0 and 10"%string ;;
  reject String.eqb (Username c) "" with "SNMPv3 username is required"%string ;;
  reject 512 <? slen (Username c) with "SNMP username exceeds 512 bytes"%string ;;
  reject negb (string_all (λ ch, negb (line_control ch)) (Username c)) with "SNMP username contains a control character"%string ;;
  reject (4096 <? slen (AuthPassphrase c)) || (4096 <? slen (PrivPassphrase c)) with "SNMP passphrase exceeds 4096 bytes"%string ;;
  try u := security_ok c ;;
  each_ok (λ raw, parseTarget raw (LabMode c)) (Request_Targets r).

(** *** Discovery *)

Definition snmp_error (target code message : string) (retry : bool) : list CollectionError :=
  [mkCollectionError code (target +:+ ": " +:+ message)%string retry].

(** What the device answers: the connection, the system group, the engine ID of the
    security parameters, and the two walks. *)
Record device := mkDevice {
  dial : result failure unit;
  system_group : result failure (list SnmpPDU);
  AuthoritativeEngineID : option (list Z);
  descr_walk : list SnmpPDU * option failure;
  mac_walk : list SnmpPDU * option failure;
}.

Definition discoverTarget (target : string) (d : device) : option Inventory * list CollectionError :=
  match dial d with
  | Err f => (None, snmp_error target "snmp_connect" (failure_text f) (retryable f))
  | Ok _ =>
    match system_group d with
    | Err f => (None, snmp_error target "snmp_operation" ("system group: " +:+ failure_text f) (retryable f))
    | Ok variables =>
      match parseSystemGroup variables with
      | Err e => (None, snmp_error target "snmp_parse" e false)
      | Ok (descr, object_id, name, ticks) =>
        if String.eqb name "" then (None, snmp_error target "snmp_parse" "empty sysName" false)
        else match AuthoritativeEngineID d with
        | None | Some [] => (None, snmp_error target "snmp_parse" "missing SNMPv3 engine ID" false)
        | Some engine =>
          let '(interfaces, errs) :=
            match walkInterfaces (descr_walk d) (mac_walk d) with
            | Ok interfaces => (interfaces, [])
            | Err f => ([], snmp_error target "snmp_partial" ("interfaces: " +:+ failure_text f) (retryable f))
            end in
          (Some (mkInventory (hex_encode engine) name descr object_id ticks interfaces), errs)
        end
      end
    end
  end%string.

Definition interface_asset (i : Inventory) (ev : list Evidence) (iface : Interface) : Asset :=
  mkAsset AssetNetworkInterface (interface_id (EngineID i) (Interface_Index iface)) (Interface_Name iface)
    (list_to_map [("host_engine_id", EngineID i); ("mac_address", Interface_MAC iface)]%string)
    (list_to_map [("if_index", any_int (Interface_Index iface)); ("mac_address", any_string (Interface_MAC iface))]%string) ev.

Definition Inventory_Assets (i : Inventory) (now : time) : list Asset * list Relationship :=
  let ev := plugin_evidence "snmp-network" now in
  (mkAsset AssetHost (EngineID i) (SysName i) (list_to_map [("engine_id", EngineID i); ("sys_name", SysName i)]%string)
     (list_to_map [("sys_descr", any_string (SysDescr i)); ("sys_object_id", any_string (SysObjectID i));
                   ("sys_up_time_ticks", any_int (SysUpTimeTicks i))]%string) ev
     :: (interface_asset i ev <$> Interfaces i),
   (λ iface, mkRelationship "host_has_interface" (EngineID i) (interface_id (EngineID i) (Interface_Index iface)) ev) <$> Interfaces i).

Definition Discover (c : Config) (r : DiscoveryRequest) (now : time) (id : string) (ended : option string)
    (finished : list (string * (option Inventory * list CollectionError))) : go ObservationEnvelope :=
  try u := ValidateConfiguration c r ;;
  gather Inventory_Assets "snmp-network" "snmp-relay" (Request_SiteID r) (Request_CollectorID r) (Request_JobID r) now id ended
    (snd <$> finished).

(** *** Lemmas *)

Lemma snmp_assets_promise i now :
  host_part (EngineID i) (Interface_Index <$> Interfaces i) (Inventory_Assets i now).1 (Inventory_Assets i now).2.
Proof.
  split.
  - eexists _, _. split_and!; [done|done|done|..]; by rewrite <-!list_fmap_compose.
  - simpl. by rewrite <-!list_fmap_compose.
Qed.

#[export] Instance snmp_host_plugin : HostPlugin Inventory := {|
  plugin_assets := Inventory_Assets;
  plugin_host := EngineID;
  plugin_indexes := λ i, Interface_Index <$> Interfaces i;
  plugin_promise := snmp_assets_promise;
|}.

Lemma walk_rows_order row count t pdus ended t' :
  (∀ t pdu t', row t pdu = Ok t' → ∃ index, order t' = track index (order t)) → NoDup (order t) →
  0 <= count <= maxInterfaces → walk_rows row count t pdus ended = Ok t' →
  NoDup (order t') ∧ llen (order t') <= llen (order t) + (maxInterfaces - count).
Proof.
  intros Hrow. revert count t. induction pdus as [|pdu pdus IH]; intros count t Hn Hc; cbn [walk_rows].
  { destruct ended; [done|]. intros [= <-]. split; [done|lia]. }
  destruct (Z.ltb_spec maxInterfaces (count + 1)); [done|]. destruct (row t pdu) as [t1|e] eqn:Hr; [|done].
  destruct (Hrow _ _ _ Hr) as [index Ht]. intros H'. apply IH in H'; [|rewrite Ht; unfold track; case_bool_decide|lia].
  - destruct H' as [Hn' Hl]. split; [done|]. rewrite Ht in Hl. unfold track in Hl. case_bool_decide; [lia|].
    unfold llen in *. rewrite length_app in Hl. simpl in Hl. lia.
  - done.
  - apply NoDup_app. split_and!; [done| |apply NoDup_singleton]. intros x Hx Hs. by apply list_elem_of_singleton in Hs as ->.
Qed.

Lemma descr_row_order t pdu t' : descr_row t pdu = Ok t' → ∃ index, order t' = track index (order t).
Proof. unfold descr_row. destruct (lastOIDIndex _) as [index|]; [|done]. destruct (octetString pdu); [|done]. intros [= <-]. eauto. Qed.
Lemma mac_row_order t pdu t' : mac_row t pdu = Ok t' → ∃ index, order t' = track index (order t).
Proof. unfold mac_row. destruct (lastOIDIndex _) as [index|]; [|done]. intros [= <-]. eauto. Qed.

(** The interfaces come out by index, each once, and at most twice the bound of a walk. *)
Lemma walkInterfaces_ok descr mac l : walkInterfaces descr mac = Ok l →
  NoDup (Interface_Index <$> l) ∧ StronglySorted Z.le (Interface_Index <$> l) ∧ llen l <= 2 * maxInterfaces.
Proof.
  unfold walkInterfaces. destruct (walk_rows descr_row _ _ _ _) as [t1|] eqn:H1; [|done].
  destruct (walk_rows mac_row _ _ _ _) as [t2|] eqn:H2; [|done]. intros [= <-].
  apply walk_rows_order in H1 as [Hn1 Hl1]; [|apply descr_row_order|constructor|unfold maxInterfaces; lia].
  apply walk_rows_order in H2 as [Hn2 Hl2]; [|apply mac_row_order|done|unfold maxInterfaces; lia].
  rewrite <-list_fmap_compose. unfold compose. cbn [Interface_Index]. rewrite list_fmap_id.
  split_and!.
  - by rewrite sort_by_perm.
  - eapply StronglySorted_mono; [|apply (sort_by_sorted Z.ltb)]. intros x y H. unfold not_after in H. lia.
  - unfold llen in *. rewrite length_fmap, sort_by_perm. cbn [order length] in Hl1. lia.
Qed.

Lemma snmp_native_ids target d i errs now : discoverTarget target d = (Some i, errs) → EngineID i ≠ ""%string ∧ SysName i ≠ ""%string ∧
  NoDup (Asset_NativeID <$> tail (Inventory_Assets i now).1).
Proof.
  unfold discoverTarget. destruct (dial d); [|done]. destruct (system_group d) as [variables|]; [|done].
  destruct (parseSystemGroup variables) as [[[[ds o] n] ticks]|]; [|done]. destruct (String.eqb_spec n ""); [done|].
  destruct (AuthoritativeEngineID d) as [[|b engine]|]; [done| |done].
  destruct (walkInterfaces _ _) as [l|f] eqn:Hw; intros [= <- <-]; (split; [done|split; [done|]]); simpl; [|constructor].
  apply walkInterfaces_ok in Hw as [Hn _]. rewrite <-list_fmap_compose.
  replace (Asset_NativeID ∘ _) with (interface_id (hex_encode (b :: engine)) ∘ Interface_Index) by reflexivity.
  rewrite list_fmap_compose. by apply NoDup_fmap_2; [apply _|].
Qed.

End SNMP.

(** ** [vmware] *)

Module VMware.

Definition maxManagedObjects : Z := 100000.

(** The fields of [mo.HostSystem], [types.PhysicalNic] and [mo.VirtualMachine] the code
    reads; the cards of a machine are those [SelectByType] picks from its devices. *)
Record PhysicalNic := mkPhysicalNic { Device : string; Mac : string }.
Record Hardware := mkHardware { Uuid : string; Hardware_Vendor : string; Hardware_Model : string; CpuModel : string; CpuMhz : Z; MemorySize : Z }.
Record HostSystem := mkHostSystem { Host_Name : string; Self : string; Host_Hardware : option Hardware; Pnic : option (list PhysicalNic) }.
Record EthernetCard := mkCard { Card_Key : Z; MacAddress : string }.
Record VirtualMachine := mkVM {
  VM_Name : string; InstanceUuid : string; BIOSUuid : string; Guest : string; NumCpu : Z; MemorySizeMB : Z; Power : string;
  Runtime_Host : option string; Cards : option (list EthernetCard);
}.

Record Interface := mkInterface { Interface_Name : string; Interface_MAC : string }.
Record HostInventory := mkHostInventory {
  Host_NativeID : string; HostInventory_Name : string; Vendor : string; Model : string; CPUModel : string;
  CPUMhz : Z; MemoryBytes : Z; Host_Interfaces : list Interface;
}.
Record VMInventory := mkVMInventory {
  VM_NativeID : string; VMInventory_Name : string; GuestFullName : string; NumCPU : Z; MemoryMB : Z; PowerState : string;
  HostNativeID : string; VM_Interfaces : list Interface;
}.
Record Inventory := mkInventory { Hosts : list HostInventory; VMs : list VMInventory }.

Section mapping.
Context (ToLower : string → string).

Definition hostInterfaces (pnics : list PhysicalNic) : list Interface :=
  sort_by (less_on Interface_Name str_lt)
    ((λ nic, mkInterface (Device nic) (ToLower (Mac nic))) <$> List.filter (λ nic, negb (String.eqb (Mac nic) "" || String.eqb (Device nic) "")) pnics).

Definition vmInterfaces (cards : list EthernetCard) : list Interface :=
  sort_by (less_on Interface_Name str_lt)
    ((λ card, mkInterface ("eth-" +:+ decimal (Card_Key card)) (ToLower (MacAddress card)))
       <$> List.filter (λ card, negb (String.eqb (MacAddress card) "")) cards).

(** One turn of the loop of [mapHosts]. *)
Definition map_host (acc : list HostInventory * gmap string string) (host : HostSystem) : list HostInventory * gmap string string :=
  match Host_Hardware host with
  | None => acc
  | Some hw =>
    if String.eqb (Uuid hw) "" then acc
    else (acc.1 ++ [mkHostInventory (Uuid hw) (Host_Name host) (Hardware_Vendor hw) (Hardware_Model hw) (CpuModel hw) (CpuMhz hw)
                      (MemorySize hw) (hostInterfaces (default [] (Pnic host)))],
          <[Self host := Uuid hw]> acc.2)
  end.
Definition mapHosts (hosts : list HostSystem) : list HostInventory * gmap string string := foldl map_host ([], ∅) hosts.

Definition map_vm (hostsByMoRef : gmap string string) (vm : VirtualMachine) : option VMInventory :=
  let nativeID := if String.eqb (InstanceUuid vm) "" then BIOSUuid vm else InstanceUuid vm in
  if String.eqb nativeID "" then None
  else Some (mkVMInventory nativeID (VM_Name vm) (Guest vm) (NumCpu vm) (MemorySizeMB vm) (Power vm)
               (match Runtime_Host vm with Some h => map_get hostsByMoRef h | None => "" end)
               (vmInterfaces (default [] (Cards vm)))).
Definition mapVMs (vms : list VirtualMachine) (hostsByMoRef : gmap string string) : list VMInventory := omap (map_vm hostsByMoRef) vms.
End mapping.

(** *** Assets *)

Definition interface_native (owner : string) (iface : Interface) : string := (owner +:+ ":interface:" +:+ Interface_Name iface)%string.

Definition interface_asset (owner_key owner : string) (ev : list Evidence) (iface : Interface) : Asset :=
  mkAsset AssetNetworkInterface (interface_native owner iface) (Interface_Name iface)
    (list_to_map [(owner_key, owner); ("mac_address"%string, Interface_MAC iface)])
    (list_to_map [("mac_address"%string, any_string (Interface_MAC iface))]) ev.

Definition host_assets (ev : list Evidence) (host : HostInventory) : list Asset :=
  mkAsset AssetHost (Host_NativeID host) (HostInventory_Name host)
    (list_to_map [("hardware_uuid", Host_NativeID host); ("hostname", HostInventory_Name host)]%string)
    (list_to_map [("vendor", any_string (Vendor host)); ("model", any_string (Model host)); ("cpu_model", any_string (CPUModel host));
                  ("cpu_mhz", any_int (CPUMhz host)); ("memory_bytes", any_int (MemoryBytes host))]%string) ev
  :: (interface_asset "host_hardware_uuid" (Host_NativeID host) ev <$> Host_Interfaces host).
Definition host_rels (ev : list Evidence) (host : HostInventory) : list Relationship :=
  (λ iface, mkRelationship "host_has_interface" (Host_NativeID host) (interface_native (Host_NativeID host) iface) ev) <$> Host_Interfaces host.

Definition vm_assets (ev : list Evidence) (vm : VMInventory) : list Asset :=
  mkAsset AssetVirtualMachine (VM_NativeID vm) (VMInventory_Name vm)
    (list_to_map [("instance_uuid", VM_NativeID vm); ("vm_name", VMInventory_Name vm)]%string)
    (list_to_map [("guest_full_name", any_string (GuestFullName vm)); ("num_cpu", any_int (NumCPU vm));
                  ("memory_mb", any_int (MemoryMB vm)); ("power_state", any_string (PowerState vm))]%string) ev
  :: (interface_asset "vm_instance_uuid" (VM_NativeID vm) ev <$> VM_Interfaces vm).
Definition vm_rels (ev : list Evidence) (vm : VMInventory) : list Relationship :=
  ((λ iface, mkRelationship "vm_has_interface" (VM_NativeID vm) (interface_native (VM_NativeID vm) iface) ev) <$> VM_Interfaces vm)
  ++ (if String.eqb (HostNativeID vm) "" then [] else [mkRelationship "vm_runs_on_host" (VM_NativeID vm) (HostNativeID vm) ev]).

Definition Inventory_Assets (inv : Inventory) (now : time) : list Asset * list Relationship :=
  let ev := plugin_evidence "vmware-vcenter" now in
  ((Hosts inv ≫= host_assets ev) ++ (VMs inv ≫= vm_assets ev), (Hosts inv ≫= host_rels ev) ++ (VMs inv ≫= vm_rels ev)).

(** *** Configuration and discovery *)

Record Config := mkConfig {
  Username : string; Password : string; LabMode : bool; Concurrency : Z; ConnectTimeout : duration; OperationTimeout : duration;
}.

(** [soap.ParseURL] is the library's, as is what it finds of credentials. *)
Definition ValidateConfiguration (parse_url : string → option URL) (embeds : URL → bool) (c : Config) (r : DiscoveryRequest) : go unit :=
  reject llen (Request_Targets r) =? 0 with "at least one vCenter target is required"%string ;;
  reject (Concurrency c <? 0) || (1024 <? Concurrency c) with "vCenter concurrency must be between 0 (default) and 1024"%string ;;
  reject (ConnectTimeout c <? 0) || (OperationTimeout c <? 0) with "vCenter timeouts cannot be negative"%string ;;
  reject String.eqb (Username c) "" || String.eqb (Password c) "" with "vCenter username and password are required"%string ;;
  reject 512 <? slen (Username c) with "vCenter username exceeds 512 bytes"%string ;;
  reject 4096 <? slen (Password c) with "vCenter password exceeds 4096 bytes"%string ;;
  reject negb (string_all (λ ch, negb (line_control ch)) (Username c)) with "vCenter username contains a control character"%string ;;
  each_ok (λ raw, url_target "vCenter target" "vCenter" parse_url embeds true raw (LabMode c)) (Request_Targets r).

Definition vmware_error (target code message : string) (retry : bool) : CollectionError :=
  mkCollectionError code (target +:+ ": " +:+ message)%string retry.

Definition vmware_failure (target code what : string) (f : failure) : CollectionError :=
  vmware_error target code (what +:+ failure_text f)%string (retryable f).

(** What vCenter answers: the login, the view, and the two listings. *)
Record vcenter := mkVCenter {
  login : result failure unit; create_view : result failure unit;
  retrieve_hosts : result failure (list HostSystem); retrieve_vms : result failure (list VirtualMachine);
}.

Definition discoverTarget (ToLower : string → string) (target : string) (v : vcenter) : option Inventory * list CollectionError :=
  match login v with
  | Err f => (None, [vmware_failure target "vmware_connect" "" f])
  | Ok _ =>
    match create_view v with
    | Err f => (None, [vmware_failure target "vmware_operation" "create inventory view: " f])
    | Ok _ =>
      match retrieve_hosts v with
      | Err f => (None, [vmware_failure target "vmware_operation" "list hosts: " f])
      | Ok hosts =>
        if maxManagedObjects <? llen hosts then (None, [vmware_error target "vmware_operation" "host inventory exceeded %d objects" false])
        else
          let '(inventories, hostsByMoRef) := mapHosts ToLower hosts in
          match retrieve_vms v with
          | Err f => (Some (mkInventory inventories []), [vmware_failure target "vmware_partial" "list virtual machines: " f])
          | Ok vms =>
            if maxManagedObjects <? llen vms
            then (Some (mkInventory inventories []), [vmware_error target "vmware_partial" "virtual machine inventory exceeded %d objects" false])
            else (Some (mkInventory inventories (mapVMs ToLower vms hostsByMoRef)), [])
          end
      end
    end
  end.

Definition Discover (parse_url : string → option URL) (embeds : URL → bool) (c : Config) (r : DiscoveryRequest) (now : time) (id : string)
    (ended : option string) (finished : list (string * (option Inventory * list CollectionError))) : go ObservationEnvelope :=
  try u := ValidateConfiguration parse_url embeds c r ;;
  gather Inventory_Assets "vmware-vcenter" "vmware-relay" (Request_SiteID r) (Request_CollectorID r) (Request_JobID r) now id ended
    (snd <$> finished).

(** *** Lemmas *)

Definition host_ids (inv : list HostInventory) : list string := Host_NativeID <$> inv.

(** Every host the index names is in the inventory. *)
Lemma mapHosts_index ToLower hosts h id : (mapHosts ToLower hosts).2 !! h = Some id → id ∈ host_ids (mapHosts ToLower hosts).1.
Proof.
  unfold mapHosts. assert (∀ acc : list HostInventory * gmap string string, (∀ h id, acc.2 !! h = Some id → id ∈ host_ids acc.1) →
    ∀ h id, (foldl (map_host ToLower) acc hosts).2 !! h = Some id → id ∈ host_ids (foldl (map_host ToLower) acc hosts).1) as Hgen.
  { induction hosts as [|host hosts IH]; intros acc Hacc; [exact Hacc|]. cbn [foldl]. apply IH. unfold map_host.
    destruct (Host_Hardware host) as [hw|]; [|exact Hacc]. destruct (String.eqb (Uuid hw) ""); [exact Hacc|]. cbn [fst snd].
    intros k i. unfold host_ids in *. rewrite fmap_app, elem_of_app, lookup_insert_Some. intros [[<- <-]|[_ Hk]]; [right; left|left; eauto]. }
  apply Hgen. intros k i. simpl. by rewrite lookup_empty.
Qed.

Definition vms_hosted (inv : Inventory) : Prop :=
  ∀ vm, vm ∈ VMs inv → HostNativeID vm ≠ ""%string → HostNativeID vm ∈ host_ids (Hosts inv).

Lemma discoverTarget_hosted ToLower target v inv errs : discoverTarget ToLower target v = (Some inv, errs) → vms_hosted inv.
Proof.
  unfold discoverTarget. destruct (login v); [|done]. destruct (create_view v); [|done].
  destruct (retrieve_hosts v) as [hosts|]; [|done]. destruct (maxManagedObjects <? llen hosts); [done|].
  pose proof (mapHosts_index ToLower hosts) as Hidx. destruct (mapHosts ToLower hosts) as [hs idx]. cbn [fst snd] in Hidx.
  destruct (retrieve_vms v) as [vms|]; [destruct (maxManagedObjects <? llen vms)|]; intros [= <- <-] vm; cbn [VMs Hosts];
    try (by intros ?%elem_of_nil).
  unfold mapVMs. rewrite list_elem_of_omap. intros (m & _ & Hm). revert Hm. unfold map_vm. cbv zeta.
  generalize (if String.eqb (InstanceUuid m) "" then BIOSUuid m else InstanceUuid m). intros nid.
  destruct (String.eqb nid ""); [done|]. intros [= <-]. cbn [HostNativeID]. destruct (Runtime_Host m) as [h|]; [|done].
  unfold map_get. destruct (idx !! h) eqn:E; [|done]. intros _. simpl. eauto.
Qed.

Lemma fmap_native (owner : string) (f : Interface → Asset) (l : list Interface) (r : string) : (∀ i, Asset_NativeID (f i) = interface_native owner i) →
  r ∈ interface_native owner <$> l → r ∈ Asset_NativeID <$> (f <$> l).
Proof. intros Hf. rewrite <-list_fmap_compose. intros (i & -> & Hi)%list_elem_of_fmap. apply list_elem_of_fmap. exists i. split; [symmetry; apply Hf|done]. Qed.

Lemma vmware_host_closed ev host : closed (host_assets ev host) (host_rels ev host).
Proof.
  intros r (iface & -> & Hi)%list_elem_of_fmap. unfold host_assets. cbn [Relationship_FromNativeID Relationship_ToNativeID]. rewrite fmap_cons.
  split; [left|right]. apply (fmap_native (Host_NativeID host)); [done|]. by apply list_elem_of_fmap_2.
Qed.

Lemma host_ids_in ev hosts id : id ∈ host_ids hosts → id ∈ Asset_NativeID <$> (hosts ≫= host_assets ev).
Proof.
  intros (h & -> & Hh)%list_elem_of_fmap. apply list_elem_of_fmap. eexists. split; [|apply list_elem_of_bind; exists h; split; [left|exact Hh]]. done.
Qed.

Lemma vmware_closed inv now : vms_hosted inv → closed (Inventory_Assets inv now).1 (Inventory_Assets inv now).2.
Proof.
  intros Hh r. cbn [Inventory_Assets fst snd]. set (ev := plugin_evidence _ _). rewrite fmap_app. intros [Hr|Hr]%elem_of_app; rewrite !elem_of_app.
  - destruct (closed_bind (Hosts inv) _ _ (vmware_host_closed ev) r Hr). auto.
  - apply list_elem_of_bind in Hr as (vm & Hr & Hvm). apply elem_of_app in Hr as [Hr|Hr].
    + apply list_elem_of_fmap in Hr as (iface & -> & Hi). cbn [Relationship_FromNativeID Relationship_ToNativeID].
      split; right; apply list_elem_of_fmap.
      * eexists. split; [|apply list_elem_of_bind; exists vm; split; [left|done]]. done.
      * eexists. split; [|apply list_elem_of_bind; exists vm; split; [right; by apply list_elem_of_fmap_2|done]]. done.
    + destruct (String.eqb_spec (HostNativeID vm) "") as [|Hne]; [by apply elem_of_nil in Hr|]. apply list_elem_of_singleton in Hr as ->.
      cbn [Relationship_FromNativeID Relationship_ToNativeID]. split; [right|left; by apply host_ids_in, Hh].
      apply list_elem_of_fmap. eexists. split; [|apply list_elem_of_bind; exists vm; split; [left|done]]. done.
Qed.

End VMware.

(** ** [kubernetes] *)

Module Kubernetes.

Definition maxObjects : Z := 100000.

(** The fields of [corev1.Node] and [corev1.Pod] the code reads; capacities are quantities
    already printed. *)
Record Node := mkNode {
  Node_UID : string; Node_Name : string; Node_Addresses : list string; OSImage : string; KernelVersion : string;
  ContainerRuntimeVersion : string; Node_Architecture : string; CpuCapacity : string; MemoryCapacity : string;
}.
Record Pod := mkPod { Pod_UID : string; Pod_Name : string; Pod_Namespace : string; Pod_Phase : string; PodIPs : list string; NodeName : string }.

Record NodeInventory := mkNodeInventory {
  Node_NativeID : string; NodeInventory_Name : string; Addresses : list string; NodeInventory_OSImage : string;
  KernelVer : string; Runtime : string; Arch : string; CPUCapacity : string; MemCapacity : string;
}.
Record PodInventory := mkPodInventory {
  Pod_NativeID : string; PodInventory_Name : string; Namespace : string; Phase : string; Pod_Addresses : list string; NodeNativeID : string;
}.
Record Inventory := mkInventory { Nodes : list NodeInventory; Pods : list PodInventory }.

Definition map_node (clusterTag : string) (acc : list NodeInventory * gmap string string) (node : Node)
    : list NodeInventory * gmap string string :=
  if String.eqb (Node_UID node) "" then acc
  else (acc.1 ++ [mkNodeInventory (Node_UID node) (Node_Name node) (Node_Addresses node) (OSImage node) (KernelVersion node)
                    (ContainerRuntimeVersion node) (Node_Architecture node) (CpuCapacity node) (MemoryCapacity node)],
        <[(clusterTag +:+ "/" +:+ Node_Name node)%string := Node_UID node]> acc.2).
Definition mapNodes (nodes : list Node) (clusterTag : string) : list NodeInventory * gmap string string :=
  foldl (map_node clusterTag) ([], ∅) nodes.

Definition map_pod (clusterTag : string) (nodesByName : gmap string string) (pod : Pod) : option PodInventory :=
  if String.eqb (Pod_UID pod) "" then None
  else Some (mkPodInventory (Pod_UID pod) (Pod_Name pod) (Pod_Namespace pod) (Pod_Phase pod) (PodIPs pod)
               (map_get nodesByName (clusterTag +:+ "/" +:+ NodeName pod)%string)).
Definition mapPods (pods : list Pod) (clusterTag : string) (nodesByName : gmap string string) : list PodInventory :=
  omap (map_pod clusterTag nodesByName) pods.

Definition node_asset (ev : list Evidence) (node : NodeInventory) : Asset :=
  mkAsset AssetKubernetesObject (Node_NativeID node) (NodeInventory_Name node)
    (list_to_map [("kind", "Node"); ("uid", Node_NativeID node)]%string)
    (list_to_map [("kind", any_string "Node"); ("addresses", any_slice (any_string <$> Addresses node));
       ("os_image", any_string (NodeInventory_OSImage node)); ("kernel_version", any_string (KernelVer node));
       ("container_runtime", any_string (Runtime node)); ("architecture", any_string (Arch node));
       ("cpu_capacity", any_string (CPUCapacity node)); ("memory_capacity", any_string (MemCapacity node))]%string) ev.
Definition pod_asset (ev : list Evidence) (pod : PodInventory) : Asset :=
  mkAsset AssetKubernetesObject (Pod_NativeID pod) (PodInventory_Name pod)
    (list_to_map [("kind", "Pod"); ("uid", Pod_NativeID pod); ("namespace", Namespace pod)]%string)
    (list_to_map [("kind", any_string "Pod"); ("namespace", any_string (Namespace pod)); ("phase", any_string (Phase pod));
       ("addresses", any_slice (any_string <$> Pod_Addresses pod))]%string) ev.
Definition pod_rels (ev : list Evidence) (pod : PodInventory) : list Relationship :=
  if String.eqb (NodeNativeID pod) "" then [] else [mkRelationship "pod_runs_on_node" (Pod_NativeID pod) (NodeNativeID pod) ev].

Definition Inventory_Assets (inv : Inventory) (now : time) : list Asset * list Relationship :=
  let ev := plugin_evidence "kubernetes-cluster" now in
  ((node_asset ev <$> Nodes inv) ++ (pod_asset ev <$> Pods inv), Pods inv ≫= pod_rels ev).

Record Config := mkConfig { BearerToken : string; LabMode : bool; Concurrency : Z; OperationTimeout : duration }.

Definition validateTarget (parse_url : string → option URL) : string → bool → go URL :=
  url_target "Kubernetes API server target" "Kubernetes" parse_url has_user true.

Definition ValidateConfiguration (parse_url : string → option URL) (c : Config) (r : DiscoveryRequest) : go unit :=
  reject llen (Request_Targets r) =? 0 with "at least one Kubernetes API server target is required"%string ;;
  reject (Concurrency c <? 0) || (1024 <? Concurrency c) with "Kubernetes concurrency must be between 0 (default) and 1024"%string ;;
  reject OperationTimeout c <? 0 with "Kubernetes operation timeout cannot be negative"%string ;;
  reject String.eqb (BearerToken c) "" with "Kubernetes bearer token is required"%string ;;
  reject 8192 <? slen (BearerToken c) with "Kubernetes bearer token exceeds 8192 bytes"%string ;;
  reject negb (string_all (λ ch, negb (line_control ch)) (BearerToken c)) with "Kubernetes bearer token contains a control character"%string ;;
  each_ok (λ raw, validateTarget parse_url raw (LabMode c)) (Request_Targets r).

Definition kubernetes_error (target code message : string) (retry : bool) : CollectionError :=
  mkCollectionError code (target +:+ ": " +:+ message)%string retry.
Definition kubernetes_failure (target code what : string) (f : failure) : CollectionError :=
  kubernetes_error target code (what +:+ failure_text f)%string (retryable f).

(** The client and the two listings, each asked for one object more than the bound. *)
Definition discoverTarget (target : string) (dial : result failure unit) (list_nodes : result failure (list Node))
    (list_pods : result failure (list Pod)) : option Inventory * list CollectionError :=
  match dial with
  | Err f => (None, [kubernetes_failure target "kubernetes_connect" "" f])
  | Ok _ =>
    match list_nodes with
    | Err f => (None, [kubernetes_failure target "kubernetes_operation" "list nodes: " f])
    | Ok items =>
      if maxObjects <? llen items then (None, [kubernetes_error target "kubernetes_operation" "node inventory exceeded %d objects" false])
      else
        let '(nodes, nodesByName) := mapNodes items target in
        match list_pods with
        | Err f => (Some (mkInventory nodes []), [kubernetes_failure target "kubernetes_partial" "list pods: " f])
        | Ok items =>
          if maxObjects <? llen items
          then (Some (mkInventory nodes []), [kubernetes_error target "kubernetes_partial" "pod inventory exceeded %d objects" false])
          else (Some (mkInventory nodes (mapPods items target nodesByName)), [])
        end
    end
  end.

Definition Discover (parse_url : string → option URL) (c : Config) (r : DiscoveryRequest) (now : time) (id : string)
    (ended : option string) (finished : list (string * (option Inventory * list CollectionError))) : go ObservationEnvelope :=
  try u := ValidateConfiguration parse_url c r ;;
  gather Inventory_Assets "kubernetes-cluster" "kubernetes-relay" (Request_SiteID r) (Request_CollectorID r) (Request_JobID r) now id
    ended (snd <$> finished).

(** *** Lemmas *)

Lemma mapNodes_index nodes tag k id : (mapNodes nodes tag).2 !! k = Some id → id ∈ Node_NativeID <$> (mapNodes nodes tag).1.
Proof.
  unfold mapNodes. assert (∀ acc : list NodeInventory * gmap string string, (∀ k id, acc.2 !! k = Some id → id ∈ Node_NativeID <$> acc.1) →
    ∀ k id, (foldl (map_node tag) acc nodes).2 !! k = Some id → id ∈ Node_NativeID <$> (foldl (map_node tag) acc nodes).1) as Hgen.
  { induction nodes as [|node nodes IH]; intros acc Hacc; [exact Hacc|]. cbn [foldl]. apply IH. unfold map_node.
    destruct (String.eqb (Node_UID node) ""); [exact Hacc|]. cbn [fst snd].
    intros h i. rewrite fmap_app, elem_of_app, lookup_insert_Some. intros [[<- <-]|[_ Hk]]; [right; left|left; eauto]. }
  apply Hgen. intros h i. simpl. by rewrite lookup_empty.
Qed.

Definition pods_placed (inv : Inventory) : Prop :=
  ∀ pod, pod ∈ Pods inv → NodeNativeID pod ≠ ""%string → NodeNativeID pod ∈ Node_NativeID <$> Nodes inv.

Lemma discoverTarget_placed target dial list_nodes list_pods inv errs :
  discoverTarget target dial list_nodes list_pods = (Some inv, errs) → pods_placed inv.
Proof.
  unfold discoverTarget. destruct dial; [|done]. destruct list_nodes as [items|]; [|done]. destruct (maxObjects <? llen items); [done|].
  pose proof (mapNodes_index items target) as Hidx. destruct (mapNodes items target) as [nodes idx]. cbn [fst snd] in Hidx.
  destruct list_pods as [pods|]; [destruct (maxObjects <? llen pods)|]; intros [= <- <-] pod; cbn [Pods Nodes]; try (by intros ?%elem_of_nil).
  unfold mapPods. rewrite list_elem_of_omap. intros (m & _ & Hm). revert Hm. unfold map_pod. destruct (String.eqb (Pod_UID m) ""); [done|].
  intros [= <-]. cbn [NodeNativeID]. unfold map_get. destruct (idx !! _) eqn:E; [|done]. intros _. simpl. eauto.
Qed.

Lemma kubernetes_closed inv now : pods_placed inv → closed (Inventory_Assets inv now).1 (Inventory_Assets inv now).2.
Proof.
  intros Hp r. cbn [Inventory_Assets fst snd]. rewrite fmap_app, !elem_of_app, <-!list_fmap_compose, list_elem_of_bind.
  intros (pod & Hr & Hpod). unfold pod_rels in Hr. destruct (String.eqb_spec (NodeNativeID pod) "") as [|Hne]; [by apply elem_of_nil in Hr|].
  apply list_elem_of_singleton in Hr as ->. cbn [Relationship_FromNativeID Relationship_ToNativeID].
  split; [right|left]; [apply list_elem_of_fmap; by exists pod|exact (Hp pod Hpod Hne)].
Qed.

End Kubernetes.
