(* ===== verification/Cloud.v ===== *)
(** * [pkg/discovery/aws] and [azure]

    The organization of an AWS account and the tenant of an Azure subscription, each a tree
    that is walked from its root.  What the APIs of the cloud libraries answer is an
    argument: for AWS the pages of every listing, for Azure the tree and the pages of the
    tenants and subscriptions.  A listing whose pages run out without a last one ends with
    the deadline of the operation. *)

From S2P Require Import Prelude Bytes Text Strconv Time Model Servicenow Topology Discovery Platforms.

Definition maxObjects : Z := 100000.

Definition deadline : failure := mkFailure "context deadline exceeded" true.

(** The loop that reads a listing page by page; a page says whether there is another. *)
Fixpoint list_all {A} (what : string) (pages : list (result failure (list A * bool))) (out : list A) : result failure (list A) :=
  match pages with
  | [] => Err deadline
  | Err f :: _ => Err f
  | Ok (xs, more) :: pages =>
    let out := out ++ xs in
    if maxObjects <? llen out then Err (plain (what +:+ " listing exceeded %d objects"))
    else if more then list_all what pages out else Ok out
  end.

Lemma list_all_bounded {A} what pages (out l : list A) : list_all what pages out = Ok l → llen l <= maxObjects.
Proof.
  revert out. induction pages as [|[[xs more]|f] pages IH]; intros out; cbn [list_all]; [done| |done].
  destruct (Z.ltb_spec maxObjects (llen (out ++ xs))); [done|]. destruct more; [apply IH|]. by intros [= <-].
Qed.

Definition cloud_error (target code message : string) (retry : bool) : CollectionError :=
  mkCollectionError code (target +:+ ": " +:+ message)%string retry.
Definition cloud_failure (target code what : string) (f : failure) : CollectionError :=
  cloud_error target code (what +:+ failure_text f)%string (retryable f).

(** The assets of both clouds. *)
Definition cloud_asset (id name : string) (ids : list (string * string)) (attrs : list (string * any)) (ev : list Evidence) : Asset :=
  mkAsset AssetCloudResource id name (list_to_map ids) (list_to_map attrs) ev.
Definition member_of (child parent : string) (ev : list Evidence) : Relationship := mkRelationship "member_of" child parent ev.

(** ** [aws] *)

Module AWS.

Definition maxOUDepth : nat := 5.

Record OrganizationInfo := mkOrganization {
  Org_ID : string; Org_ARN : string; FeatureSet : string; ManagementAccountID : string; ManagementAccountARN : string;
  ManagementAccountEmail : string;
}.
Record RootInfo := mkRoot { Root_ID : string; Root_Name : string; Root_ARN : string }.
Record OUInfo := mkOU { OU_ID : string; OU_Name : string; OU_ARN : string; OU_Path : string; OU_ParentID : string }.
Record AccountInfo := mkAccount {
  Account_ID : string; Account_Name : string; Account_ARN : string; Email : string; Account_State : string;
  JoinedMethod : string; Account_ParentID : string; JoinedTimestamp : option time;
}.
Record Inventory := mkInventory {
  Organization : OrganizationInfo; Roots : list RootInfo; OUs : list OUInfo; Accounts : list AccountInfo;
}.

(** What the API answers: the organization, without one or without its ID nothing, and the
    pages of the roots and of the accounts and units under a parent. *)
Record api := mkApi {
  connect : result failure unit;
  describe : result failure (option OrganizationInfo);
  root_pages : list (result failure (list RootInfo * bool));
  account_pages : string → list (result failure (list AccountInfo * bool));
  ou_pages : string → list (result failure (list OUInfo * bool));
}.

Section walk.
Context (a : api) (target : string).

Definition exceeded : CollectionError :=
  cloud_error target "aws_organizations_operation" "organization inventory exceeded %d objects" false.

(** The inventory under construction and its [objectCount]. *)
Definition building : Type := Inventory * Z.

Definition add_root (b : building) (r : RootInfo) : building :=
  (mkInventory (Organization b.1) (Roots b.1 ++ [r]) (OUs b.1) (Accounts b.1), b.2 + 1).
Definition add_account (parent : string) (b : building) (x : AccountInfo) : building :=
  (mkInventory (Organization b.1) (Roots b.1) (OUs b.1)
     (Accounts b.1 ++ [mkAccount (Account_ID x) (Account_Name x) (Account_ARN x) (Email x) (Account_State x) (JoinedMethod x) parent (JoinedTimestamp x)]),
   b.2 + 1).
Definition add_ou (parent : string) (b : building) (o : OUInfo) : building :=
  (mkInventory (Organization b.1) (Roots b.1) (OUs b.1 ++ [mkOU (OU_ID o) (OU_Name o) (OU_ARN o) (OU_Path o) parent]) (Accounts b.1), b.2 + 1).

(** Adds accounts up to the bound; whether it was reached. *)
Fixpoint add_accounts (parent : string) (accounts : list AccountInfo) (b : building) : building * bool :=
  match accounts with
  | [] => (b, false)
  | x :: accounts => if maxObjects <=? b.2 then (b, true) else add_accounts parent accounts (add_account parent b x)
  end.

(** The accounts under a parent; whether the bound was reached. *)
Definition walk_accounts (parent : string) (b : building) : building * list CollectionError * bool :=
  match list_all "account" (account_pages a parent) [] with
  | Err f => (b, [cloud_failure target "aws_organizations_partial" ("list accounts for " +:+ parent +:+ ": ")%string f], false)
  | Ok accounts => let '(b, full) := add_accounts parent accounts b in (b, if full then [exceeded] else [], full)
  end.

(** The units under a parent, each walked once it is added. *)
Fixpoint units (walk_unit : string → building → building * list CollectionError) (parent : string) (ous : list OUInfo)
    (b : building) (errs : list CollectionError) : building * list CollectionError :=
  match ous with
  | [] => (b, errs)
  | o :: ous =>
    if maxObjects <=? b.2 then (b, errs ++ [exceeded])
    else let '(b, es) := walk_unit (OU_ID o) (add_ou parent b o) in units walk_unit parent ous b (errs ++ es)
  end.

(** [walk]; [remaining] is [maxOUDepth - depth]. *)
Fixpoint walk (remaining : nat) (parent : string) (b : building) : building * list CollectionError :=
  let '(b, errs, full) := walk_accounts parent b in
  if (full : bool) then (b, errs) else
  match remaining with
  | O => (b, errs)
  | S remaining =>
    match list_all "organizational unit" (ou_pages a parent) [] with
    | Err f => (b, errs ++ [cloud_failure target "aws_organizations_partial" ("list organizational units for " +:+ parent +:+ ": ")%string f])
    | Ok ous =>
      units (walk remaining) parent ous b errs
    end
  end.

Fixpoint walk_roots (roots : list RootInfo) (b : building) (errs : list CollectionError) : building * list CollectionError :=
  match roots with
  | [] => (b, errs)
  | r :: roots =>
    if maxObjects <=? b.2 then (b, errs ++ [exceeded])
    else let '(b, es) := walk maxOUDepth (Root_ID r) (add_root b r) in walk_roots roots b (errs ++ es)
  end.

Definition discoverTarget : option Inventory * list CollectionError :=
  match connect a with
  | Err f => (None, [cloud_failure target "aws_organizations_connect" "" f])
  | Ok _ =>
    match describe a with
    | Err f => (None, [cloud_failure target "aws_organizations_operation" "describe organization: " f])
    | Ok None => (None, [cloud_error target "aws_organizations_operation" "describe organization returned no organization" false])
    | Ok (Some organization) =>
      match list_all "root" (root_pages a) [] with
      | Err f => (None, [cloud_failure target "aws_organizations_operation" "list roots: " f])
      | Ok roots =>
        let '(b, errs) := walk_roots roots (mkInventory organization [] [] [], 0) [] in (Some b.1, errs)
      end
    end
  end.
End walk.

(** *** Assets *)

Definition organization_asset (ev : list Evidence) (o : OrganizationInfo) : Asset :=
  cloud_asset (Org_ID o) (Org_ID o) [("kind", "Organization"); ("organization_id", Org_ID o)]
    [("kind", any_string "Organization"); ("arn", any_string (Org_ARN o)); ("feature_set", any_string (FeatureSet o));
     ("management_account_id", any_string (ManagementAccountID o)); ("management_account_arn", any_string (ManagementAccountARN o));
     ("management_account_email", any_string (ManagementAccountEmail o))]%string ev.
Definition root_asset (ev : list Evidence) (r : RootInfo) : Asset :=
  cloud_asset (Root_ID r) (Root_Name r) [("kind", "Root"); ("root_id", Root_ID r)]
    [("kind", any_string "Root"); ("arn", any_string (Root_ARN r))]%string ev.
Definition ou_asset (ev : list Evidence) (o : OUInfo) : Asset :=
  cloud_asset (OU_ID o) (OU_Name o) [("kind", "OrganizationalUnit"); ("ou_id", OU_ID o)]
    [("kind", any_string "OrganizationalUnit"); ("arn", any_string (OU_ARN o)); ("path", any_string (OU_Path o))]%string ev.
Definition account_asset (ev : list Evidence) (x : AccountInfo) : Asset :=
  cloud_asset (Account_ID x) (Account_Name x) [("kind", "Account"); ("account_id", Account_ID x)]
    ([("kind", any_string "Account"); ("arn", any_string (Account_ARN x)); ("email", any_string (Email x));
      ("state", any_string (Account_State x)); ("joined_method", any_string (JoinedMethod x))]%string
     ++ match JoinedTimestamp x with Some t => [("joined_at"%string, any_string (RFC3339 t))] | None => [] end) ev.

Definition Inventory_Assets (inv : Inventory) (now : time) : list Asset * list Relationship :=
  let ev := plugin_evidence "aws-organizations" now in
  (organization_asset ev (Organization inv) ::
     (root_asset ev <$> Roots inv) ++ (ou_asset ev <$> OUs inv) ++ (account_asset ev <$> Accounts inv),
   ((λ r, member_of (Root_ID r) (Org_ID (Organization inv)) ev) <$> Roots inv)
   ++ ((λ o, member_of (OU_ID o) (OU_ParentID o) ev) <$> OUs inv)
   ++ ((λ x, member_of (Account_ID x) (Account_ParentID x) ev) <$> Accounts inv)).

(** *** Configuration *)

Record Config := mkConfig {
  AccessKeyID : string; SecretAccessKey : string; SessionToken : string; Region : string; LabMode : bool; Concurrency : Z;
  OperationTimeout : duration;
}.

Definition validateTarget (parse_url : string → option URL) : string → bool → go URL :=
  url_target "AWS Organizations API endpoint target" "AWS Organizations" parse_url has_user true.

Definition no_line_control (s : string) : bool := string_all (λ ch, negb (line_control ch)) s.

Definition ValidateConfiguration (parse_url : string → option URL) (c : Config) (r : DiscoveryRequest) : go unit :=
  reject llen (Request_Targets r) =? 0 with "at least one AWS Organizations API endpoint target is required"%string ;;
  reject (Concurrency c <? 0) || (1024 <? Concurrency c) with "AWS Organizations concurrency must be between 0 (default) and 1024"%string ;;
  reject OperationTimeout c <? 0 with "AWS Organizations operation timeout cannot be negative"%string ;;
  reject String.eqb (AccessKeyID c) "" || String.eqb (SecretAccessKey c) "" with "AWS access key ID and secret access key are required"%string ;;
  reject 512 <? slen (AccessKeyID c) with "AWS access key ID exceeds 512 bytes"%string ;;
  reject 4096 <? slen (SecretAccessKey c) with "AWS secret access key exceeds 4096 bytes"%string ;;
  reject 8192 <? slen (SessionToken c) with "AWS session token exceeds 8192 bytes"%string ;;
  reject negb (no_line_control (AccessKeyID c)) with "AWS access key ID contains a control character"%string ;;
  reject negb (no_line_control (SessionToken c)) with "AWS session token contains a control character"%string ;;
  reject String.eqb (Region c) "" with "AWS region is required"%string ;;
  reject 64 <? slen (Region c) with "AWS region exceeds 64 bytes"%string ;;
  reject negb (no_line_control (Region c)) with "AWS region contains a control character"%string ;;
  each_ok (λ raw, validateTarget parse_url raw (LabMode c)) (Request_Targets r).

Definition Discover (parse_url : string → option URL) (c : Config) (r : DiscoveryRequest) (now : time) (id : string)
    (ended : option string) (finished : list (string * (option Inventory * list CollectionError))) : go ObservationEnvelope :=
  try u := ValidateConfiguration parse_url c r ;;
  gather Inventory_Assets "aws-organizations" "aws-relay" (Request_SiteID r) (Request_CollectorID r) (Request_JobID r) now id
    ended (snd <$> finished).

(** *** Lemmas *)

Definition known (inv : Inventory) : list string := (Root_ID <$> Roots inv) ++ (OU_ID <$> OUs inv).

(** The inventory while it grows: within the bound, and every parent is part of it. *)
Record sound (b : building) : Prop := {
  sound_count : b.2 = llen (Roots b.1) + llen (OUs b.1) + llen (Accounts b.1);
  sound_bound : b.2 <= maxObjects;
  sound_ous o : o ∈ OUs b.1 → OU_ParentID o ∈ known b.1;
  sound_accounts x : x ∈ Accounts b.1 → Account_ParentID x ∈ known b.1;
}.

Record grows (b b' : building) : Prop := {
  grows_roots : Roots b.1 ⊆ Roots b'.1;
  grows_ous : OUs b.1 ⊆ OUs b'.1;
  grows_accounts : Accounts b.1 ⊆ Accounts b'.1;
  grows_org : Organization b'.1 = Organization b.1;
}.

#[export] Instance grows_preorder : PreOrder grows.
Proof.
  split; [by split|]. intros b1 b2 b3 [R1 O1 A1 G1] [R2 O2 A2 G2]. split; [by etrans..|congruence].
Qed.

Lemma grows_known b b' : grows b b' → known b.1 ⊆ known b'.1.
Proof. intros [R O _ _] k. unfold known. rewrite !elem_of_app, !list_elem_of_fmap. set_solver. Qed.

Lemma add_account_sound parent b x : sound b → parent ∈ known b.1 → b.2 < maxObjects →
  sound (add_account parent b x) ∧ grows b (add_account parent b x).
Proof.
  intros [Hc Hb Ho Ha] Hp Hlt. split.
  - split; cbn [add_account fst snd Roots OUs Accounts]; [|lia|exact Ho|].
    + unfold llen in *. rewrite length_app. simpl. lia.
    + intros y [Hy|Hy]%elem_of_app; [by apply Ha|]. by apply list_elem_of_singleton in Hy as ->.
  - split; cbn [add_account fst Roots OUs Accounts Organization]; set_solver.
Qed.

Lemma add_ou_sound parent b o : sound b → parent ∈ known b.1 → b.2 < maxObjects →
  sound (add_ou parent b o) ∧ grows b (add_ou parent b o) ∧ OU_ID o ∈ known (add_ou parent b o).1.
Proof.
  intros [Hc Hb Ho Ha] Hp Hlt. assert (grows b (add_ou parent b o)) as Hg.
  { split; cbn [add_ou fst Roots OUs Accounts Organization]; set_solver. }
  pose proof (grows_known _ _ Hg) as Hk. split_and!; [|done|].
  - split; cbn [add_ou fst snd Roots OUs Accounts]; [|lia| |].
    + unfold llen in *. rewrite length_app. simpl. lia.
    + intros y [Hy|Hy]%elem_of_app; apply Hk; [by apply Ho|]. by apply list_elem_of_singleton in Hy as ->.
    + intros y Hy. by apply Hk, Ha.
  - unfold known. cbn [add_ou fst Roots OUs]. rewrite fmap_app. set_solver.
Qed.

Section walked.
Context (a : api) (target : string).

Lemma add_accounts_sound parent accounts b : sound b → parent ∈ known b.1 →
  sound (add_accounts parent accounts b).1 ∧ grows b (add_accounts parent accounts b).1.
Proof.
  revert b. induction accounts as [|x accounts IH]; intros b Hs Hp; cbn [add_accounts]; [done|].
  destruct (Z.leb_spec maxObjects b.2); [done|]. destruct (add_account_sound parent b x Hs Hp ltac:(lia)) as [Hs' Hg].
  destruct (IH _ Hs' (grows_known _ _ Hg _ Hp)) as [Hs'' Hg']. split; [done|by etrans].
Qed.

Definition walks_soundly (w : string → building → building * list CollectionError) : Prop :=
  ∀ parent b, sound b → parent ∈ known b.1 → sound (w parent b).1 ∧ grows b (w parent b).1.

Lemma units_sound w parent ous b errs : walks_soundly w → sound b → parent ∈ known b.1 →
  sound (units target w parent ous b errs).1 ∧ grows b (units target w parent ous b errs).1.
Proof.
  intros Hw. revert b errs. induction ous as [|o ous IH]; intros b errs Hs Hp; cbn [units]; [done|].
  destruct (Z.leb_spec maxObjects b.2); [done|]. destruct (add_ou_sound parent b o Hs Hp ltac:(lia)) as (Hs1 & Hg1 & Hk1).
  destruct (Hw _ _ Hs1 Hk1) as [Hs2 Hg2]. destruct (w (OU_ID o) (add_ou parent b o)) as [b2 es]. cbn [fst] in *.
  assert (grows b b2) as Hg by (by etrans). destruct (IH b2 (errs ++ es) Hs2 (grows_known _ _ Hg _ Hp)) as [? ?]. split; [done|by etrans].
Qed.

Lemma walk_accounts_sound parent b : sound b → parent ∈ known b.1 →
  sound (walk_accounts a target parent b).1.1 ∧ grows b (walk_accounts a target parent b).1.1.
Proof.
  intros Hs Hp. unfold walk_accounts. destruct (list_all "account" _ _) as [accounts|f]; [|done].
  pose proof (add_accounts_sound parent accounts b Hs Hp) as H. by destruct (add_accounts parent accounts b).
Qed.

Lemma walk_sound remaining : walks_soundly (walk a target remaining).
Proof.
  induction remaining as [|remaining IH]; intros parent b Hs Hp; cbn [walk];
    destruct (walk_accounts_sound parent b Hs Hp) as [Hs1 Hg1]; destruct (walk_accounts a target parent b) as [[b1 errs] full];
    cbn [fst] in *; destruct full; try done.
  destruct (list_all "organizational unit" _ _) as [ous|f']; [|done].
  destruct (units_sound _ parent ous b1 errs IH Hs1 (grows_known _ _ Hg1 _ Hp)) as [? ?]. split; [done|by etrans].
Qed.

Lemma walk_roots_sound roots b errs : sound b → sound (walk_roots a target roots b errs).1 ∧ grows b (walk_roots a target roots b errs).1.
Proof.
  revert b errs. induction roots as [|r roots IH]; intros b errs Hs; cbn [walk_roots]; [done|].
  destruct (Z.leb_spec maxObjects b.2); [done|].
  assert (grows b (add_root b r)) as Hg. { split; cbn [add_root fst Roots OUs Accounts Organization]; set_solver. }
  assert (sound (add_root b r)) as Hs1.
  { destruct Hs as [Hc Hb Ho Ha]. pose proof (grows_known _ _ Hg) as Hk. split; cbn [add_root fst snd Roots OUs Accounts]; [|lia|..].
    - unfold llen in *. rewrite length_app. simpl. lia.
    - intros o Hin. by apply Hk, Ho.
    - intros x Hin. by apply Hk, Ha. }
  assert (Root_ID r ∈ known (add_root b r).1) as Hk1. { unfold known. cbn [add_root fst Roots]. rewrite fmap_app. set_solver. }
  destruct (walk_sound maxOUDepth _ _ Hs1 Hk1) as [Hs2 Hg2]. destruct (walk _ _ _ _ _) as [b2 es]. cbn [fst] in *.
  destruct (IH b2 (errs ++ es) Hs2) as [? ?]. split; [done|]. etrans; [exact Hg|]. by etrans.
Qed.
End walked.

(** *** Completeness *)

Section complete.
Context (a : api) (target : string).

(** All that is listed below a container, [remaining] levels of units deep, is in the
    inventory, under its parent. *)
Fixpoint complete (remaining : nat) (c : string) (inv : Inventory) : Prop :=
  (∃ accounts, list_all "account" (account_pages a c) [] = Ok accounts ∧
     ∀ x, x ∈ accounts → ∃ y, y ∈ Accounts inv ∧ Account_ID y = Account_ID x ∧ Account_ParentID y = c) ∧
  match remaining with
  | O => True
  | S remaining => ∃ ous, list_all "organizational unit" (ou_pages a c) [] = Ok ous ∧
      ∀ o, o ∈ ous → (∃ y, y ∈ OUs inv ∧ OU_ID y = OU_ID o ∧ OU_ParentID y = c) ∧ complete remaining (OU_ID o) inv
  end.

Lemma complete_grows remaining c b b' : grows b b' → complete remaining c b.1 → complete remaining c b'.1.
Proof.
  intros Hg. revert c. induction remaining as [|remaining IH]; intros c [(accounts & Hl & Ha) Hr]; split;
    try (exists accounts; split; [done|]; intros x (y & Hy & ?)%Ha; exists y; split; [by apply (grows_accounts _ _ Hg)|done]); [done|].
  destruct Hr as (ous & Ho & H). exists ous. split; [done|]. intros o Hin. destruct (H o Hin) as [(y & Hy & ?) Hc].
  split; [|by apply IH]. exists y. split; [by apply (grows_ous _ _ Hg)|done].
Qed.

Lemma add_accounts_complete parent accounts b b' : add_accounts parent accounts b = (b', false) →
  grows b b' ∧ ∀ x, x ∈ accounts → ∃ y, y ∈ Accounts b'.1 ∧ Account_ID y = Account_ID x ∧ Account_ParentID y = parent.
Proof.
  revert b. induction accounts as [|x accounts IH]; intros b; cbn [add_accounts].
  { intros [= <-]. split; [done|]. by intros x ?%elem_of_nil. }
  destruct (maxObjects <=? b.2); [done|]. intros [Hg Hall]%IH.
  assert (grows b (add_account parent b x)) as Hg1. { split; cbn [add_account fst Roots OUs Accounts Organization]; set_solver. }
  split; [by etrans|]. intros z [->|Hz]%elem_of_cons; [|by apply Hall].
  eexists. split; [apply (grows_accounts _ _ Hg); cbn [add_account fst Accounts]; apply elem_of_app; right; left|done].
Qed.

(** A walk that reports nothing has missed nothing. *)
Definition walks_completely (remaining : nat) (w : string → building → building * list CollectionError) : Prop :=
  ∀ c b b', w c b = (b', []) → grows b b' ∧ complete remaining c b'.1.

Lemma units_complete remaining w parent ous b errs b' : walks_completely remaining w → units target w parent ous b errs = (b', []) →
  errs = [] ∧ grows b b' ∧
  ∀ o, o ∈ ous → (∃ y, y ∈ OUs b'.1 ∧ OU_ID y = OU_ID o ∧ OU_ParentID y = parent) ∧ complete remaining (OU_ID o) b'.1.
Proof.
  intros Hw. revert b errs. induction ous as [|o ous IH]; intros b errs; cbn [units].
  { intros [= <- ->]. split_and!; [done|done|]. by intros o ?%elem_of_nil. }
  destruct (maxObjects <=? b.2); [intros [= _ H]; by apply app_eq_nil in H as [_ ?]|].
  destruct (w (OU_ID o) (add_ou parent b o)) as [b1 es] eqn:Hb1. intros (He & Hg & Hall)%IH.
  apply app_eq_nil in He as [-> ->]. destruct (Hw _ _ _ Hb1) as [Hg1 Hc].
  assert (grows b (add_ou parent b o)) as Hg0. { split; cbn [add_ou fst Roots OUs Accounts Organization]; set_solver. }
  split_and!; [done|by repeat (etrans; [eassumption|])|]. intros z [->|Hz]%elem_of_cons; [|by apply Hall].
  split; [|by eapply complete_grows]. eexists. split; [apply (grows_ous _ _ Hg), (grows_ous _ _ Hg1); cbn [add_ou fst OUs];
    apply elem_of_app; right; left|done].
Qed.

Lemma walk_complete remaining : walks_completely remaining (walk a target remaining).
Proof.
  induction remaining as [|remaining IH]; intros c b b'; cbn [walk]; unfold walk_accounts;
    (destruct (list_all "account" _ _) as [accounts|f] eqn:Hl; [destruct (add_accounts c accounts b) as [b1 full] eqn:Ha|]).
  - destruct full; intros [= <-]. apply add_accounts_complete in Ha as [Hg Hall]. split; [done|]. split; [eauto|done].
  - done.
  - destruct full; [done|]. apply add_accounts_complete in Ha as [Hg Hall].
    destruct (list_all "organizational unit" _ _) as [ous|f] eqn:Ho; [|done].
    intros (_ & Hg1 & Hous)%(units_complete remaining); [|exact IH]. split; [by etrans|]. split; [|eauto].
    exists accounts. split; [done|]. intros x (y & Hy & ?)%Hall. exists y. split; [by apply (grows_accounts _ _ Hg1)|done].
  - destruct (list_all "organizational unit" _ _) as [ous|f'] eqn:Ho; [|done].
    intros (He & _)%(units_complete remaining); [done|exact IH].
Qed.

Lemma walk_roots_complete roots b errs b' : walk_roots a target roots b errs = (b', []) →
  errs = [] ∧ grows b b' ∧ ∀ r, r ∈ roots → r ∈ Roots b'.1 ∧ complete maxOUDepth (Root_ID r) b'.1.
Proof.
  revert b errs. induction roots as [|r roots IH]; intros b errs; cbn [walk_roots].
  { intros [= <- ->]. split_and!; [done|done|]. by intros r ?%elem_of_nil. }
  destruct (maxObjects <=? b.2); [intros [= _ H]; by apply app_eq_nil in H as [_ ?]|].
  destruct (walk a target maxOUDepth (Root_ID r) (add_root b r)) as [b1 es] eqn:Hb1. intros (He & Hg & Hall)%IH.
  apply app_eq_nil in He as [-> ->]. destruct (walk_complete _ _ _ _ Hb1) as [Hg1 Hc].
  assert (grows b (add_root b r)) as Hg0. { split; cbn [add_root fst Roots OUs Accounts Organization]; [intros x Hx; apply elem_of_app; by left|done..]. }
  split_and!; [done|by repeat (etrans; [eassumption|])|]. intros z [->|Hz]%elem_of_cons; [|by apply Hall].
  split; [|by eapply complete_grows]. apply (grows_roots _ _ Hg), (grows_roots _ _ Hg1). cbn [add_root fst Roots]. apply elem_of_app. right. left.
Qed.

(** *** Closedness *)

Definition parents_known (inv : Inventory) : Prop :=
  (∀ o, o ∈ OUs inv → OU_ParentID o ∈ known inv) ∧ ∀ x, x ∈ Accounts inv → Account_ParentID x ∈ known inv.

Lemma aws_closed inv now : parents_known inv → closed (Inventory_Assets inv now).1 (Inventory_Assets inv now).2.
Proof.
  intros [Ho Ha] r. cbn [Inventory_Assets fst snd]. rewrite !fmap_cons, !fmap_app, <-!list_fmap_compose.
  assert (∀ id, id ∈ known inv → ∀ ev, id ∈ Org_ID (Organization inv) :: (Asset_NativeID ∘ root_asset ev <$> Roots inv) ++
    (Asset_NativeID ∘ ou_asset ev <$> OUs inv) ++ (Asset_NativeID ∘ account_asset ev <$> Accounts inv)) as Hk.
  { intros id Hid ev. right. unfold known in Hid. apply elem_of_app in Hid as [H|H]; rewrite !elem_of_app; [left|right; left]; exact H. }
  rewrite !elem_of_app. intros [Hr|[Hr|Hr]]; apply list_elem_of_fmap in Hr as (x & -> & Hx);
    cbn [member_of Relationship_FromNativeID Relationship_ToNativeID].
  - split; [|left]. right. rewrite !elem_of_app. left. by apply (list_elem_of_fmap_2 (Asset_NativeID ∘ root_asset _)).
  - split; [|by apply Hk, Ho]. right. rewrite !elem_of_app. right. left. by apply (list_elem_of_fmap_2 (Asset_NativeID ∘ ou_asset _)).
  - split; [|by apply Hk, Ha]. right. rewrite !elem_of_app. right. right. by apply (list_elem_of_fmap_2 (Asset_NativeID ∘ account_asset _)).
Qed.

(** C17: an AWS organization, whatever the API answers: the inventory has at most
    [maxObjects] roots, units and accounts, its relationships never leave it, and when no
    error is reported nothing is missing: every root, and below it, five levels of units
    deep, every unit and every account the API lists. *)
Theorem aws_discovery_spec now :
  match discoverTarget a target with
  | (Some inv, errs) =>
    llen (Roots inv) + llen (OUs inv) + llen (Accounts inv) <= maxObjects ∧
    closed (Inventory_Assets inv now).1 (Inventory_Assets inv now).2 ∧
    (errs = [] → ∃ roots, list_all "root" (root_pages a) [] = Ok roots ∧
       ∀ r, r ∈ roots → r ∈ Roots inv ∧ complete maxOUDepth (Root_ID r) inv)
  | (None, errs) => ∃ e, errs = [e]
  end.
Proof.
  unfold discoverTarget. destruct (connect a); [|eauto]. destruct (describe a) as [[o|]|]; [|eauto..].
  destruct (list_all "root" (root_pages a) []) as [roots|f] eqn:Hroots; [|eauto].
  assert (sound (mkInventory o [] [] [], 0)) as Hs.
  { split; cbn; [done|unfold maxObjects; lia|by intros ? ?%elem_of_nil..]. }
  destruct (walk_roots_sound a target roots _ [] Hs) as [[Hc Hb Ho Ha] _].
  pose proof (walk_roots_complete roots (mkInventory o [] [] [], 0) []) as Hall.
  destruct (walk_roots _ _ _ _ _) as [b errs]. cbn [fst] in *. split_and!; [lia|by apply aws_closed|].
  intros ->. destruct (Hall b eq_refl) as (_ & _ & H). eauto.
Qed.
End complete.

(** *** Example *)

Definition demo_account (id : string) : AccountInfo := mkAccount id id "" "" "ACTIVE" "INVITED" "" None.
Definition demo_api : api :=
  mkApi (Ok tt) (Ok (Some (mkOrganization "o-1" "" "ALL" "" "" ""))) [Ok ([mkRoot "r-1" "Root" ""], false)]
    (λ p, if String.eqb p "r-1" then [Ok ([demo_account "111"], true); Ok ([demo_account "222"], false)]
          else if String.eqb p "ou-1" then [Ok ([demo_account "333"], false)] else [Err (mkFailure "throttled" false)])
    (λ p, if String.eqb p "r-1" then [Ok ([mkOU "ou-1" "Dev" "" "" ""; mkOU "ou-2" "Ops" "" "" ""], false)] else [Ok ([], false)]).

Example aws_partial :
  (λ r : option Inventory * list CollectionError, ((λ inv, (Account_ID <$> Accounts inv, Account_ParentID <$> Accounts inv, OU_ID <$> OUs inv)) <$> r.1,
     CollectionError_Message <$> r.2)) (discoverTarget demo_api "https://h") =
  (Some (["111"; "222"; "333"], ["r-1"; "r-1"; "ou-1"], ["ou-1"; "ou-2"]), ["https://h: list accounts for ou-2: throttled"])%string.
Proof. vm_compute. reflexivity. Qed.

End AWS.

(** ** [azure] *)

Module Azure.

Definition maxManagementGroupDepth : nat := 6.

Record TenantInfo := mkTenantInfo { Tenant_ID : string; Tenant_DisplayName : string; DefaultDomain : string }.
Record ManagementGroupInfo := mkGroup { Group_ARMID : string; Group_ShortID : string; Group_DisplayName : string; Group_ParentID : string }.
Record SubscriptionInfo := mkSubscriptionInfo {
  Sub_ARMID : string; Sub_ShortID : string; Sub_DisplayName : string; State : string; TenantID : string; Sub_ParentID : string;
}.
Record Inventory := mkInventory { Tenant : TenantInfo; ManagementGroups : list ManagementGroupInfo; Subscriptions : list SubscriptionInfo }.

(** The answers of the API, with nil strings empty: a node of the tree is nil, or a group or
    a subscription with its children. *)
#[warnings="-register-all"]
Inductive node :=
| nil_node
| mkNode (ID Name DisplayName : string) (is_subscription : bool) (children : list node).
Record root_group := mkRootGroup { Root_ID : string; Root_Name : string; Root_DisplayName : string; Root_Children : list node }.
Record Subscription := mkSubscription { S_ID : string; S_SubscriptionID : string; S_DisplayName : string; S_State : string; S_TenantID : string }.
Record TenantEntry := mkTenantEntry { T_TenantID : string; T_ID : string; T_DisplayName : string; T_DefaultDomain : string }.

(** *** The tenant, and the flat list of subscriptions *)

(** The loop of [findTenant]; [seen] counts the entries. *)
Fixpoint find_entry (tenantID : string) (seen : Z) (entries : list TenantEntry) : result failure (option TenantInfo * Z) :=
  match entries with
  | [] => Ok (None, seen)
  | t :: entries =>
    if maxObjects <? seen + 1 then Err (plain "tenant listing exceeded %d objects")
    else if String.eqb (T_TenantID t) tenantID then
      Ok (Some (mkTenantInfo (valueOr (T_ID t) ("/tenants/" +:+ tenantID)%string) (T_DisplayName t) (T_DefaultDomain t)), seen + 1)
    else find_entry tenantID (seen + 1) entries
  end.

Fixpoint find_page (tenantID : string) (seen : Z) (pages : list (result failure (list TenantEntry))) : result failure TenantInfo :=
  match pages with
  | [] => Ok (mkTenantInfo ("/tenants/" +:+ tenantID)%string "" "")
  | Err f :: _ => Err f
  | Ok entries :: pages =>
    match find_entry tenantID seen entries with
    | Err f => Err f
    | Ok (Some t, _) => Ok t
    | Ok (None, seen) => find_page tenantID seen pages
    end
  end.
Definition findTenant (pages : list (result failure (list TenantEntry))) (tenantID : string) : result failure TenantInfo :=
  find_page tenantID 0 pages.

Fixpoint listSubscriptions (pages : list (result failure (list Subscription))) (out : list Subscription) : result failure (list Subscription) :=
  match pages with
  | [] => Ok out
  | Err f :: _ => Err f
  | Ok xs :: pages =>
    if maxObjects <? llen (out ++ xs) then Err (plain "subscription listing exceeded %d objects")
    else listSubscriptions pages (out ++ xs)
  end.

(** *** The tree *)

Definition building : Type := Inventory * Z.

Definition add_group (g : ManagementGroupInfo) (b : building) : building :=
  (mkInventory (Tenant b.1) (ManagementGroups b.1 ++ [g]) (Subscriptions b.1), b.2 + 1).
Definition add_subscription (s : SubscriptionInfo) (b : building) : building :=
  (mkInventory (Tenant b.1) (ManagementGroups b.1) (Subscriptions b.1 ++ [s]), b.2 + 1).

Definition exceeded (target : string) : CollectionError :=
  cloud_error target "azure_operation" "tenant inventory exceeded %d objects" false.

Fixpoint walk_children (walk : node → string → building → building * list CollectionError) (nodes : list node) (parent : string)
    (b : building) (errs : list CollectionError) : building * list CollectionError :=
  match nodes with
  | [] => (b, errs)
  | n :: nodes => let '(b, es) := walk n parent b in walk_children walk nodes parent b (errs ++ es)
  end.

(** [walk]; [remaining] is [maxManagementGroupDepth - depth]. *)
Fixpoint walk (target : string) (remaining : nat) (n : node) (parent : string) (b : building) : building * list CollectionError :=
  if maxObjects <=? b.2 then (b, [exceeded target]) else
  match n with
  | nil_node => (b, [])
  | mkNode id name display is_subscription children =>
    if (is_subscription : bool) then (add_subscription (mkSubscriptionInfo id name display "" (Tenant_ID (Tenant b.1)) parent) b, [])
    else
      let b := add_group (mkGroup id name display parent) b in
      match remaining with
      | O => (b, [])
      | S remaining => walk_children (walk target remaining) children id b []
      end
  end.

(** *** Merging the subscriptions *)

Definition set_names (display state : string) (s : SubscriptionInfo) : SubscriptionInfo :=
  mkSubscriptionInfo (Sub_ARMID s) (Sub_ShortID s) display state (TenantID s) (Sub_ParentID s).

(** The index by ARM ID is built before the loop: an entry appended by it is not found. *)
Definition enrich_one (byARMID : gmap string nat) (tenant : TenantInfo) (subs : list SubscriptionInfo) (s : Subscription) : list SubscriptionInfo :=
  if String.eqb (S_ID s) "" then subs
  else match byARMID !! S_ID s with
  | Some i => alter (set_names (S_DisplayName s) (S_State s)) i subs
  | None => subs ++ [mkSubscriptionInfo (S_ID s) (S_SubscriptionID s) (S_DisplayName s) (S_State s) (S_TenantID s) (Tenant_ID tenant)]
  end.
Definition index_of (subs : list SubscriptionInfo) : gmap string nat :=
  foldl (λ m ie, <[Sub_ARMID ie.2 := ie.1]> m) ∅ (imap pair subs).
Definition enrich (inv : Inventory) (subscriptions : list Subscription) : Inventory :=
  mkInventory (Tenant inv) (ManagementGroups inv)
    (foldl (enrich_one (index_of (Subscriptions inv)) (Tenant inv)) (Subscriptions inv) subscriptions).

(** *** A target *)

Record api := mkApi {
  connect : result failure unit;
  tenant_pages : list (result failure (list TenantEntry));
  group_tree : result failure root_group;
  subscription_pages : list (result failure (list Subscription));
}.

Definition discoverTarget (a : api) (tenantID target : string) : option Inventory * list CollectionError :=
  match connect a with
  | Err f => (None, [cloud_failure target "azure_connect" "" f])
  | Ok _ =>
    match findTenant (tenant_pages a) tenantID with
    | Err f => (None, [cloud_failure target "azure_operation" "list tenants: " f])
    | Ok tenant =>
      match group_tree a with
      | Err f => (None, [cloud_failure target "azure_operation" "get management group tree: " f])
      | Ok root =>
        let b := add_group (mkGroup (Root_ID root) (Root_Name root) (Root_DisplayName root) (Tenant_ID tenant)) (mkInventory tenant [] [], 0) in
        let '(b, errs) := walk_children (walk target (maxManagementGroupDepth - 1)) (Root_Children root) (Root_ID root) b [] in
        match listSubscriptions (subscription_pages a) [] with
        | Err f => (Some b.1, errs ++ [cloud_failure target "azure_partial" "list subscriptions: " f])
        | Ok subscriptions => (Some (enrich b.1 subscriptions), errs)
        end
      end
    end
  end.

(** *** Assets *)

Definition tenant_asset (ev : list Evidence) (t : TenantInfo) : Asset :=
  cloud_asset (Tenant_ID t) (valueOr (Tenant_DisplayName t) (Tenant_ID t)) [("kind", "Tenant"); ("tenant_id", Tenant_ID t)]
    [("kind", any_string "Tenant"); ("display_name", any_string (Tenant_DisplayName t)); ("default_domain", any_string (DefaultDomain t))]%string ev.
Definition group_asset (ev : list Evidence) (g : ManagementGroupInfo) : Asset :=
  cloud_asset (Group_ARMID g) (valueOr (Group_DisplayName g) (Group_ShortID g))
    [("kind", "ManagementGroup"); ("management_group_id", Group_ShortID g)]
    [("kind", any_string "ManagementGroup"); ("display_name", any_string (Group_DisplayName g))]%string ev.
Definition subscription_asset (ev : list Evidence) (s : SubscriptionInfo) : Asset :=
  cloud_asset (Sub_ARMID s) (valueOr (Sub_DisplayName s) (Sub_ShortID s)) [("kind", "Subscription"); ("subscription_id", Sub_ShortID s)]
    [("kind", any_string "Subscription"); ("display_name", any_string (Sub_DisplayName s)); ("state", any_string (State s));
     ("tenant_id", any_string (TenantID s))]%string ev.

Definition Inventory_Assets (inv : Inventory) (now : time) : list Asset * list Relationship :=
  let ev := plugin_evidence "azure-tenant" now in
  (tenant_asset ev (Tenant inv) :: (group_asset ev <$> ManagementGroups inv) ++ (subscription_asset ev <$> Subscriptions inv),
   ((λ g, member_of (Group_ARMID g) (Group_ParentID g) ev) <$> ManagementGroups inv)
   ++ ((λ s, member_of (Sub_ARMID s) (Sub_ParentID s) ev) <$> Subscriptions inv)).

(** *** Configuration *)

Record Config := mkConfig {
  Config_TenantID : string; ClientID : string; ClientSecret : string; AuthorityURL : string; LabMode : bool; Concurrency : Z;
  OperationTimeout : duration;
}.

(** The lab has no HTTP here. *)
Definition validateTarget (parse_url : string → option URL) : string → bool → go URL :=
  url_target "Azure endpoint target" "Azure" parse_url has_user false.

Definition ValidateConfiguration (parse_url : string → option URL) (c : Config) (r : DiscoveryRequest) : go unit :=
  reject llen (Request_Targets r) =? 0 with "at least one Azure Resource Manager endpoint target is required"%string ;;
  reject (Concurrency c <? 0) || (1024 <? Concurrency c) with "Azure concurrency must be between 0 (default) and 1024"%string ;;
  reject OperationTimeout c <? 0 with "Azure operation timeout cannot be negative"%string ;;
  reject existsb (λ s, String.eqb s "") [Config_TenantID c; ClientID c; ClientSecret c]
    with "Azure tenant ID, client ID, and client secret are required"%string ;;
  reject (128 <? slen (Config_TenantID c)) || (128 <? slen (ClientID c)) with "Azure tenant ID or client ID exceeds 128 bytes"%string ;;
  reject 4096 <? slen (ClientSecret c) with "Azure client secret exceeds 4096 bytes"%string ;;
  reject negb (AWS.no_line_control (Config_TenantID c)) || negb (AWS.no_line_control (ClientID c))
    with "Azure tenant ID or client ID contains a control character"%string ;;
  reject String.eqb (AuthorityURL c) "" with "Azure authority URL is required"%string ;;
  match validateTarget parse_url (AuthorityURL c) (LabMode c) with
  | Err e => Err ("Azure authority URL: " +:+ e)%string
  | Ok _ => each_ok (λ raw, validateTarget parse_url raw (LabMode c)) (Request_Targets r)
  end.

Definition Discover (parse_url : string → option URL) (c : Config) (r : DiscoveryRequest) (now : time) (id : string)
    (ended : option string) (finished : list (string * (option Inventory * list CollectionError))) : go ObservationEnvelope :=
  try u := ValidateConfiguration parse_url c r ;;
  gather Inventory_Assets "azure-tenant" "azure-relay" (Request_SiteID r) (Request_CollectorID r) (Request_JobID r) now id
    ended (snd <$> finished).

(** *** Lemmas *)

Definition containers (inv : Inventory) : list string := Tenant_ID (Tenant inv) :: (Group_ARMID <$> ManagementGroups inv).

Definition parents_known (inv : Inventory) : Prop :=
  (∀ g, g ∈ ManagementGroups inv → Group_ParentID g ∈ containers inv) ∧ ∀ s, s ∈ Subscriptions inv → Sub_ParentID s ∈ containers inv.

Record sound (b : building) : Prop := {
  sound_count : b.2 = llen (ManagementGroups b.1) + llen (Subscriptions b.1);
  sound_bound : b.2 <= maxObjects;
  sound_parents : parents_known b.1;
}.

(** What a walk keeps: the containers known so far. *)
Definition keeps (b b' : building) : Prop := sound b' ∧ containers b.1 ⊆ containers b'.1.

Lemma add_group_sound g b : sound b → Group_ParentID g ∈ containers b.1 → b.2 < maxObjects →
  keeps b (add_group g b) ∧ Group_ARMID g ∈ containers (add_group g b).1.
Proof.
  intros [Hc Hb [Hg Hs]] Hp Hlt. assert (containers b.1 ⊆ containers (add_group g b).1) as Hk.
  { unfold containers. cbn [add_group fst Tenant ManagementGroups]. rewrite fmap_app. set_solver. }
  split; [split; [split|done]|].
  - cbn [add_group fst snd ManagementGroups Subscriptions]. unfold llen in *. rewrite length_app. simpl. lia.
  - cbn [add_group snd]. lia.
  - split; [intros x [Hx|Hx]%elem_of_app|intros x Hx]; apply Hk; [by apply Hg|by apply list_elem_of_singleton in Hx as ->|by apply Hs].
  - unfold containers. cbn [add_group fst ManagementGroups]. rewrite fmap_app. set_solver.
Qed.

Lemma add_subscription_sound s b : sound b → Sub_ParentID s ∈ containers b.1 → b.2 < maxObjects → keeps b (add_subscription s b).
Proof.
  intros [Hc Hb [Hg Hs]] Hp Hlt. split; [split|done].
  - cbn [add_subscription fst snd ManagementGroups Subscriptions]. unfold llen in *. rewrite length_app. simpl. lia.
  - cbn [add_subscription snd]. lia.
  - split; [exact Hg|]. intros x [Hx|Hx]%elem_of_app; [by apply Hs|]. by apply list_elem_of_singleton in Hx as ->.
Qed.

Definition walks_soundly (w : node → string → building → building * list CollectionError) : Prop :=
  ∀ n parent b, sound b → parent ∈ containers b.1 → keeps b (w n parent b).1.

Lemma walk_children_sound w nodes parent b errs : walks_soundly w → sound b → parent ∈ containers b.1 →
  keeps b (walk_children w nodes parent b errs).1.
Proof.
  intros Hw. revert b errs. induction nodes as [|n nodes IH]; intros b errs Hs Hp; cbn [walk_children]; [done|].
  destruct (Hw n parent b Hs Hp) as [Hs1 Hk1]. destruct (w n parent b) as [b1 es]. cbn [fst] in *.
  destruct (IH b1 (errs ++ es) Hs1 (Hk1 _ Hp)) as [Hs2 Hk2]. split; [done|by etrans].
Qed.

Lemma group_walk_sound target remaining : walks_soundly (walk target remaining).
Proof.
  induction remaining as [|remaining IH]; intros n parent b Hs Hp; cbn [walk]; destruct (Z.leb_spec maxObjects b.2); [done| |done|];
    (destruct n as [|id name display is_sub children]; [done|]); destruct is_sub;
    try (apply add_subscription_sound; [done|done|lia]);
    destruct (add_group_sound (mkGroup id name display parent) b Hs Hp ltac:(lia)) as [[Hs1 Hk1] Hid]; [done|].
  destruct (walk_children_sound _ children id _ [] IH Hs1 Hid) as [Hs2 Hk2]. split; [done|by etrans].
Qed.

(** Merging changes no parent, and adds at most one entry for every subscription. *)
Lemma enrich_one_ok idx tenant subs s (P : string → Prop) : P (Tenant_ID tenant) → Forall P (Sub_ParentID <$> subs) →
  Forall P (Sub_ParentID <$> enrich_one idx tenant subs s) ∧ llen subs <= llen (enrich_one idx tenant subs s) <= llen subs + 1.
Proof.
  intros Ht Hs. unfold enrich_one. destruct (String.eqb (S_ID s) ""); [split; [done|lia]|]. destruct (idx !! S_ID s) as [i|].
  - assert (Sub_ParentID <$> alter (set_names (S_DisplayName s) (S_State s)) i subs = Sub_ParentID <$> subs) as ->.
    { apply list_eq. intros j. rewrite !list_lookup_fmap. destruct (decide (i = j)) as [->|]; [|by rewrite list_lookup_alter_ne].
      rewrite list_lookup_alter_eq. by destruct (subs !! j). }
    unfold llen. rewrite length_alter. split; [done|lia].
  - rewrite fmap_app, Forall_app. unfold llen. rewrite length_app. simpl. split; [|lia]. split; [done|by repeat constructor].
Qed.

Lemma enrich_fold_ok idx tenant l subs (P : string → Prop) : P (Tenant_ID tenant) → Forall P (Sub_ParentID <$> subs) →
  Forall P (Sub_ParentID <$> foldl (enrich_one idx tenant) subs l) ∧
  llen subs <= llen (foldl (enrich_one idx tenant) subs l) <= llen subs + llen l.
Proof.
  intros Ht. revert subs. induction l as [|s l IH]; intros subs Hs; cbn [foldl]; [split; [done|unfold llen; simpl; lia]|].
  destruct (enrich_one_ok idx tenant subs s P Ht Hs) as [H1 L1]. destruct (IH _ H1) as [H2 L2]. split; [done|].
  unfold llen in *. cbn [length]. lia.
Qed.

Lemma listSubscriptions_bounded pages out l : llen out <= maxObjects → listSubscriptions pages out = Ok l → llen l <= maxObjects.
Proof.
  revert out. induction pages as [|[xs|f] pages IH]; intros out Hout; cbn [listSubscriptions]; [by intros [= <-]| |done].
  destruct (Z.ltb_spec maxObjects (llen (out ++ xs))); [done|]. by apply IH.
Qed.

Lemma azure_closed inv now : parents_known inv → closed (Inventory_Assets inv now).1 (Inventory_Assets inv now).2.
Proof.
  intros [Hg Hs] r. cbn [Inventory_Assets fst snd]. rewrite fmap_cons, fmap_app, <-!list_fmap_compose.
  assert (∀ id, id ∈ containers inv → ∀ ev, id ∈ Tenant_ID (Tenant inv) :: (Asset_NativeID ∘ group_asset ev <$> ManagementGroups inv) ++
    (Asset_NativeID ∘ subscription_asset ev <$> Subscriptions inv)) as Hk.
  { intros id [->|Hid]%elem_of_cons ev; [left|]. right. apply elem_of_app. by left. }
  rewrite !elem_of_app. intros [Hr|Hr]; apply list_elem_of_fmap in Hr as (x & -> & Hx);
    cbn [member_of Relationship_FromNativeID Relationship_ToNativeID].
  - split; [|by apply Hk, Hg]. right. rewrite elem_of_app. left. by apply (list_elem_of_fmap_2 (Asset_NativeID ∘ group_asset _)).
  - split; [|by apply Hk, Hs]. right. rewrite elem_of_app. right. by apply (list_elem_of_fmap_2 (Asset_NativeID ∘ subscription_asset _)).
Qed.

(** an Azure tenant, whatever the API answers: every management group and subscription
    hangs from the tenant or a group of the inventory, the tree contributes at most
    [maxObjects] of them and the flat list of subscriptions at most as many again. *)
Theorem azure_discovery_spec a tenantID target now :
  match discoverTarget a tenantID target with
  | (Some inv, errs) =>
    closed (Inventory_Assets inv now).1 (Inventory_Assets inv now).2 ∧
    llen (ManagementGroups inv) + llen (Subscriptions inv) <= 2 * maxObjects
  | (None, errs) => ∃ e, errs = [e]
  end.
Proof.
  unfold discoverTarget. destruct (connect a); [|eauto]. destruct (findTenant _ _) as [tenant|]; [|eauto].
  destruct (group_tree a) as [root|]; [|eauto]. cbv zeta.
  assert (sound (mkInventory tenant [] [], 0)) as Hs0.
  { split; cbn; [done|unfold maxObjects; lia|split; by intros ? ?%elem_of_nil]. }
  destruct (add_group_sound (mkGroup (Root_ID root) (Root_Name root) (Root_DisplayName root) (Tenant_ID tenant)) _ Hs0) as [[Hs1 _] Hid];
    [left|unfold maxObjects; simpl; lia|].
  destruct (walk_children_sound _ (Root_Children root) _ _ [] (group_walk_sound target (maxManagementGroupDepth - 1)) Hs1 Hid) as [[Hc Hb [Hg Hsub]] _].
  destruct (walk_children _ _ _ _ _) as [b errs]. cbn [fst] in *.
  destruct (listSubscriptions _ _) as [l|f] eqn:Hl.
  2: { split; [by apply azure_closed|]. unfold maxObjects in *. lia. }
  apply listSubscriptions_bounded in Hl; [|unfold llen, maxObjects; simpl; lia].
  destruct (enrich_fold_ok (index_of (Subscriptions b.1)) (Tenant b.1) l (Subscriptions b.1) (λ p, p ∈ containers b.1)) as [Hp Hlen].
  { left. } { apply Forall_fmap, Forall_forall. intros s Hin. by apply Hsub. }
  split; [apply azure_closed; split; [exact Hg|]|].
  - intros s Hin. rewrite Forall_forall in Hp. apply Hp. by apply list_elem_of_fmap_2.
  - cbn [enrich ManagementGroups Subscriptions]. unfold maxObjects in *. lia.
Qed.

(** The bound on the whole inventory is not kept: [enrich] counts nothing, so that a tenant
    can have more than [maxObjects] objects and no error. *)
Lemma enrich_appends l subs tenant : Forall (λ s, S_ID s ≠ ""%string) l →
  llen (foldl (enrich_one ∅ tenant) subs l) = llen subs + llen l.
Proof.
  revert subs. induction l as [|s l IH]; intros subs Hl; cbn [foldl]; [unfold llen; simpl; lia|]. apply Forall_cons in Hl as [Hs Hl].
  rewrite IH by done. unfold enrich_one. destruct (String.eqb_spec (S_ID s) ""); [done|]. rewrite lookup_empty.
  unfold llen. rewrite length_app. cbn [length]. lia.
Qed.

Definition full_listing : list Subscription := replicate (Z.to_nat maxObjects) (mkSubscription "/subscriptions/1" "1" "One" "Enabled" "t").
Definition large_tenant : api :=
  mkApi (Ok tt) [] (Ok (mkRootGroup "/providers/root" "root" "Root" [])) [Ok full_listing].

Lemma total_exceeds_bound : ∃ inv, discoverTarget large_tenant "t" "https://h" = (Some inv, []) ∧
  maxObjects < llen (ManagementGroups inv) + llen (Subscriptions inv).
Proof.
  assert (llen full_listing = maxObjects) as Hlen. { unfold llen, full_listing. rewrite length_replicate. unfold maxObjects. lia. }
  eexists. split.
  - unfold discoverTarget, large_tenant, findTenant. cbn [connect tenant_pages find_page group_tree subscription_pages Root_Children walk_children].
    cbv zeta. cbn [listSubscriptions app]. rewrite Hlen, Z.ltb_irrefl. reflexivity.
  - cbn [enrich ManagementGroups Subscriptions add_group fst]. change (index_of []) with (∅ : gmap string nat). rewrite enrich_appends, Hlen.
    + unfold llen, maxObjects. simpl. lia.
    + apply Forall_replicate. done.
Qed.

(** ** Examples *)

Example azure_tree :
  discoverTarget (mkApi (Ok tt) [Ok [mkTenantEntry "t" "" "Contoso" "contoso.com"]]
      (Ok (mkRootGroup "/g/root" "root" "Root" [nil_node; mkNode "/g/a" "a" "A" false [mkNode "/s/1" "1" "One" true []]]))
      [Ok [mkSubscription "/s/1" "1" "First" "Enabled" "t"; mkSubscription "/s/2" "2" "Second" "Disabled" "t"]]) "t" "https://h" =
  (Some (mkInventory (mkTenantInfo "/tenants/t" "Contoso" "contoso.com")
     [mkGroup "/g/root" "root" "Root" "/tenants/t"; mkGroup "/g/a" "a" "A" "/g/root"]
     [mkSubscriptionInfo "/s/1" "1" "First" "Enabled" "/tenants/t" "/g/a"; mkSubscriptionInfo "/s/2" "2" "Second" "Disabled" "t" "/tenants/t"]), []).
Proof. vm_compute. reflexivity. Qed.

End Azure.
