(* ===== verification/Retry.v ===== *)
(** * [internal/irepublish/workflow.go]: the bounded retry of a publication

    The batch publisher is a function of the number of the call; [cancelled] and
    [cancelled_waiting] say what [ctx.Err()] is after a call, and whether the context ends
    during the pause that follows it. *)

From S2P Require Import Prelude Bytes Time Publish.

Definition MaxAttempts : Z := 5.
Definition MaxRetryDelay : duration := 30 * Second.

Record Failure := mkFailure { Failure_text : string; Failure_Retryable : bool }.
Record Status := mkStatus {
  Attempts : Z;
  Status_Result : PublishResult;
  Status_Failure : option Failure;
  Exhausted : bool;
}.

(** [retryDelay]: the loop runs [attempt - 1] times at most. *)
Fixpoint double_delay (n : nat) (delay : duration) : duration :=
  match n with
  | O => if MaxRetryDelay <? delay then MaxRetryDelay else delay
  | S n =>
    if negb (delay <? MaxRetryDelay) then (if MaxRetryDelay <? delay then MaxRetryDelay else delay)
    else if Z.quot MaxRetryDelay 2 <? delay then MaxRetryDelay
    else double_delay n (wrap64 (delay * 2))
  end.
Definition retryDelay (initial : duration) (attempt : Z) : duration := double_delay (Z.to_nat (attempt - 1)) initial.

Definition error_text (e : publish_error) : string := match e with plain_error m => m | PublishError _ m => m end.

Section publish.
Variable answer : Z → PublishResult * option publish_error.
Variable cancelled cancelled_waiting : Z → option string.

(** The status, the error returned, and the pauses made. *)
Fixpoint publish_from (fuel : nat) (attempt maxAttempts : Z) (initialDelay : duration) : Status * option string * list duration :=
  let '(result, error) := answer attempt in
  match error with
  | None => (mkStatus attempt result None false, None, [])
  | Some e =>
    match cancelled attempt with
    | Some c => (mkStatus attempt result (Some (mkFailure c false)) false, Some c, [])
    | None =>
      let failure := Some (mkFailure (error_text e) (Retryable e)) in
      if negb (Retryable e) then (mkStatus attempt result failure false, Some (error_text e), [])
      else if attempt =? maxAttempts then (mkStatus attempt result failure true, Some (error_text e), [])
      else
        let delay := retryDelay initialDelay attempt in
        match cancelled_waiting attempt with
        | Some c => (mkStatus attempt result (Some (mkFailure c false)) false, Some c, [delay])
        | None =>
          match fuel with
          | O => (mkStatus attempt result failure false, Some "unreachable"%string, [delay])
          | S fuel => let '(status, e, delays) := publish_from fuel (attempt + 1) maxAttempts initialDelay in (status, e, delay :: delays)
          end
        end
    end
  end.

Definition Publish (maxAttempts : Z) (initialDelay : duration) : go (Status * option string * list duration) :=
  reject (maxAttempts <? 1) || (MaxAttempts <? maxAttempts) with "ServiceNow max attempts must be between 1 and %d"%string ;;
  reject (initialDelay <? 0) || (MaxRetryDelay <? initialDelay) with "ServiceNow retry delay must be between 0 and %s"%string ;;
  Ok (publish_from (Z.to_nat maxAttempts) 1 maxAttempts initialDelay).

(** ** The pauses *)

Lemma double_delay_closed n : ∀ delay, 0 <= delay <= MaxRetryDelay → double_delay n delay = Z.min MaxRetryDelay (delay * 2 ^ Z.of_nat n).
Proof.
  assert (0 < MaxRetryDelay) as Hpos by done.
  induction n as [|n IH]; intros delay Hd; cbn [double_delay].
  { rewrite (proj2 (Z.ltb_ge _ _)) by lia. change (2 ^ Z.of_nat 0) with 1. lia. }
  rewrite Nat2Z.inj_succ, Z.pow_succ_r by lia. pose proof (Z.pow_pos_nonneg 2 (Z.of_nat n) ltac:(lia) ltac:(lia)) as Hpow.
  destruct (Z.ltb_spec delay MaxRetryDelay) as [Hlt|Hge]; cbn [negb].
  - destruct (Z.ltb_spec (Z.quot MaxRetryDelay 2) delay) as [Hhalf|Hhalf].
    + change (Z.quot MaxRetryDelay 2) with 15000000000 in Hhalf. change MaxRetryDelay with 30000000000 in *. nia.
    + change (Z.quot MaxRetryDelay 2) with 15000000000 in Hhalf. change MaxRetryDelay with 30000000000 in *.
      rewrite wrap64_id by (unfold in_int64, int64_min, int64_max; lia). rewrite IH by lia. f_equal. lia.
  - assert (delay = MaxRetryDelay) as -> by lia. rewrite (proj2 (Z.ltb_ge _ _)) by lia. nia.
Qed.

Lemma retryDelay_closed initial attempt : 0 <= initial <= MaxRetryDelay → 1 <= attempt →
  retryDelay initial attempt = Z.min MaxRetryDelay (initial * 2 ^ (attempt - 1)).
Proof. intros Hi Ha. unfold retryDelay. rewrite double_delay_closed by done. by rewrite Z2Nat.id by lia. Qed.

(** A failed call that may be repeated. *)
Definition repeatable (k : Z) : Prop := ∃ e, (answer k).2 = Some e ∧ Retryable e = true ∧ cancelled k = None.

(** What a run of the loop from [attempt] on ends with. *)
Definition loop_outcome (attempt maxAttempts : Z) (initial : duration) (r : Status * option string * list duration) : Prop :=
  let '(status, error, delays) := r in
  attempt <= Attempts status <= maxAttempts ∧ Status_Result status = (answer (Attempts status)).1 ∧
  (∀ k, attempt <= k < Attempts status → repeatable k ∧ cancelled_waiting k = None) ∧
  (error = None ↔ (answer (Attempts status)).2 = None) ∧
  (Exhausted status = true ↔ Attempts status = maxAttempts ∧ repeatable maxAttempts) ∧
  delays = (λ k, Z.min MaxRetryDelay (initial * 2 ^ (k - 1))) <$> seqZ attempt (llen delays) ∧ llen delays <= maxAttempts - attempt.

(** The loop ends at this attempt. *)
Lemma loop_stops attempt maxAttempts initial failure error delays exhausted :
  1 <= attempt <= maxAttempts → (error = None ↔ (answer attempt).2 = None) →
  (exhausted = true ↔ attempt = maxAttempts ∧ repeatable maxAttempts) →
  delays = (λ k, Z.min MaxRetryDelay (initial * 2 ^ (k - 1))) <$> seqZ attempt (llen delays) → llen delays <= maxAttempts - attempt →
  loop_outcome attempt maxAttempts initial (mkStatus attempt (answer attempt).1 failure exhausted, error, delays).
Proof. intros Ha He Hx Hd Hl. split; [simpl; lia|]. split; [done|]. split; [simpl; lia|]. by split; [|split]. Qed.

Lemma publish_from_spec fuel : ∀ attempt maxAttempts initial, 1 <= attempt <= maxAttempts → maxAttempts - attempt < Z.of_nat fuel → 0 <= initial <= MaxRetryDelay →
  loop_outcome attempt maxAttempts initial (publish_from fuel attempt maxAttempts initial).
Proof.
  assert (∀ a m, llen (@nil duration) <= m - a ↔ a <= m) as Hnil by (unfold llen; simpl; lia).
  induction fuel as [|fuel IH]; intros attempt maxAttempts initial Ha Hl Hi; [lia|]. cbn [publish_from].
  destruct (answer attempt) as [result error] eqn:Hans. assert ((answer attempt).2 = error) as He2 by by rewrite Hans. assert (result = (answer attempt).1) as -> by by rewrite Hans.
  assert (∀ k, repeatable k → k = attempt → ∃ e, error = Some e ∧ Retryable e = true ∧ cancelled attempt = None) as Hrep.
  { intros k (e&He&?&?) ->. exists e. rewrite He2 in He. done. }
  destruct error as [e|].
  2:{ apply loop_stops; [done|rewrite He2; by split| |done|apply Hnil; lia]. split; [done|]. intros [-> (?&?&_)%Hrep]; done. }
  destruct (cancelled attempt) as [c|] eqn:Hc.
  { apply loop_stops; [done|rewrite He2; by split| |done|apply Hnil; lia]. split; [done|]. intros [-> (?&_&_&?)%Hrep]; done. }
  destruct (Retryable e) eqn:Hr; cbn [negb].
  2:{ apply loop_stops; [done|rewrite He2; by split| |done|apply Hnil; lia]. split; [done|]. intros [-> (?&[= <-]&?&_)%Hrep]; [congruence|done]. }
  assert (repeatable attempt) as Hyes by (exists e; by rewrite He2).
  destruct (Z.eqb_spec attempt maxAttempts) as [->|Hne].
  { apply loop_stops; [done|rewrite He2; by split|done|done|apply Hnil; lia]. }
  rewrite retryDelay_closed by lia.
  destruct (cancelled_waiting attempt) as [c|] eqn:Hw.
  { apply loop_stops; [done|rewrite He2; by split|by split; [|intros [? _]]|done|unfold llen; simpl; lia]. }
  specialize (IH (attempt + 1) maxAttempts initial ltac:(lia) ltac:(lia) Hi).
  destruct (publish_from fuel (attempt + 1) maxAttempts initial) as [[status error] delays].
  destruct IH as (Hn&Hres&Hprev&Herr&Hex&Hdel&Hmax).
  assert (llen (Z.min MaxRetryDelay (initial * 2 ^ (attempt - 1)) :: delays) = Z.succ (llen delays)) as Hs by (unfold llen; simpl; lia).
  split; [lia|]. split; [done|]. split; [|split; [done|split; [done|]]].
  - intros k Hk. destruct (decide (k = attempt)) as [->|]; [done|]. apply Hprev. lia.
  - rewrite Hs. split; [|lia]. rewrite Z.add_1_r in Hdel. rewrite seqZ_cons by (unfold llen; lia). rewrite fmap_cons, Z.pred_succ. by f_equal.
Qed.

(** a publication is tried at most [maxAttempts] times and never replayed on a whim: every
    call but the last one failed in a way the publisher itself calls retryable; it succeeds
    exactly when its last call did, is exhausted exactly when the last permitted call still
    failed so, and the pause after the [k]-th call is the initial one doubled [k - 1] times,
    at most thirty seconds. *)
Theorem Publish_spec (maxAttempts : Z) (initialDelay : duration) :
  if (1 <=? maxAttempts) && (maxAttempts <=? MaxAttempts) && (0 <=? initialDelay) && (initialDelay <=? MaxRetryDelay)
  then ∃ status error delays, Publish maxAttempts initialDelay = Ok (status, error, delays) ∧
    1 <= Attempts status <= maxAttempts ∧ Status_Result status = (answer (Attempts status)).1 ∧
    (∀ k, 1 <= k < Attempts status → repeatable k) ∧
    (error = None ↔ (answer (Attempts status)).2 = None) ∧
    (Exhausted status = true ↔ Attempts status = maxAttempts ∧ repeatable maxAttempts) ∧
    delays = (λ k, Z.min MaxRetryDelay (initialDelay * 2 ^ (k - 1))) <$> seqZ 1 (llen delays) ∧ llen delays <= maxAttempts - 1
  else is_ok (Publish maxAttempts initialDelay) = false.
Proof.
  unfold Publish. destruct (Z.leb_spec 1 maxAttempts), (Z.leb_spec maxAttempts MaxAttempts), (Z.leb_spec 0 initialDelay), (Z.leb_spec initialDelay MaxRetryDelay); simpl;
    destruct (Z.ltb_spec maxAttempts 1), (Z.ltb_spec MaxAttempts maxAttempts); simpl; try done; try lia;
    destruct (Z.ltb_spec initialDelay 0), (Z.ltb_spec MaxRetryDelay initialDelay); simpl; try done; try lia.
  pose proof (publish_from_spec (Z.to_nat maxAttempts) 1 maxAttempts initialDelay ltac:(lia) ltac:(lia) ltac:(lia)) as Hspec.
  destruct (publish_from (Z.to_nat maxAttempts) 1 maxAttempts initialDelay) as [[status error] delays].
  destruct Hspec as (Hn&Hres&Hprev&Herr&Hex&Hdel&Hmax). exists status, error, delays. do 3 (split; [done|]).
  split; [intros k Hk; by apply Hprev|done].
Qed.
End publish.

Example retry_twice :
  Publish (λ k, if k <? 3 then (empty_result, Some (PublishError true "503")) else (mkPublishResult "servicenow-ire" 2 0 no_diagnostics, None))
    (λ _, None) (λ _, None) 5 (20 * Second) =
  Ok (mkStatus 3 (mkPublishResult "servicenow-ire" 2 0 no_diagnostics) None false, None, [20 * Second; 30 * Second]).
Proof. vm_compute. reflexivity. Qed.
