(* ===== verification/Relay.v ===== *)
(** * [internal/relay]: configuration, control-plane client and executor

    [contract.go], [config.go], [client.go] and [executor.go].  What the relay host holds
    (target files, known_hosts files, credentials) is a record of lookups; the SSH
    library, [time.ParseDuration], [net/url] and the JSON decoder are arguments.  Error
    texts are the source's format strings. *)

From S2P Require Import Prelude Bytes Text Time Model Publish Discovery.

Definition ContractVersion : string := "v1alpha1".
Definition JobTypeDiscover : string := "discover".
Definition maxProfiles : Z := 128.
Definition maxTargets : Z := 10000.
Definition maxTargetsBytes : Z := 4 * 2 ^ 20.
Definition maxTargetLine : Z := 4 * 2 ^ 10.
Definition defaultConcurrency : Z := 32.
Definition maxDiscoveryDuration : duration := 30 * Minute.
Definition pollPath : string := "/api/x_nischoy_topo/v1/relay/poll".
Definition resultPath : string := "/api/x_nischoy_topo/v1/relay/result".
Definition maxControlResponseSize : Z := 2 ^ 20.
Definition maxJobsPerPoll : Z := 1.

(** ** The contract *)

Record ProfileCapability := mkProfileCapability { Capability_ID : string; Capability_Plugin : string }.

Record PollRequest := mkPollRequest {
  Poll_SchemaVersion : string;
  Poll_RelayID : string;
  Poll_SiteID : string;
  Poll_Version : string;
  Poll_Profiles : list ProfileCapability;
  Poll_SentAt : time;
}.

Record RelayJob := mkRelayJob {
  RelayJob_JobID : string;
  RelayJob_Type : string;
  RelayJob_ProfileID : string;
  RelayJob_RequestedAt : time;
}.

Record RelayResult := mkRelayResult {
  Result_SchemaVersion : string;
  Result_JobID : string;
  Result_RelayID : string;
  Result_ProfileID : string;
  Result_Success : bool;
  Result_StartedAt : time;
  Result_CompletedAt : time;
  Result_ObservationID : string;
  Result_Assets : Z;
  Result_Relationships : Z;
  Result_CollectionErrors : Z;
  Result_Error : string;
}.

#[export] Instance RelayJob_eq_dec : EqDecision RelayJob.
Proof. solve_decision. Defined.
#[export] Instance RelayResult_eq_dec : EqDecision RelayResult.
Proof. solve_decision. Defined.

(** ** The configuration *)

Record SSHConfig := mkSSHConfig {
  PasswordRef : string;
  PrivateKeyRef : string;
  KnownHostsFile : string;
  Concurrency : Z;
  ConnectTimeout : string;
  CommandTimeout : string;
  MaxOutputBytes : Z;
}.
Record ProfileConfig := mkProfileConfig {
  Profile_ID : string;
  Profile_Plugin : string;
  TargetsFile : string;
  SSH : option SSHConfig;
}.
Record FileConfig := mkFileConfig {
  Config_SchemaVersion : string;
  RelayID : string;
  SiteID : string;
  Profiles : list ProfileConfig;
}.

(** [filepath.IsAbs], as on Unix. *)
Definition IsAbs (path : string) : bool := has_prefix path "/".

(** What is on the relay host: files of targets, known_hosts files that load, credential
    references that resolve, and private keys that parse. *)
Record Host := mkHost {
  target_file : string → option string;
  known_hosts_load : string → bool;
  credential : string → option string;
  private_key_ok : string → bool;
}.

Fixpoint read_target_lines (lines : list string) (targets : list string) : go (list string) :=
  match lines with
  | [] => Ok targets
  | line :: lines =>
    let line := trim_space line in
    if String.eqb line "" || has_prefix line "#" then read_target_lines lines targets
    else
      reject maxTargetLine <? slen line with "target line exceeds %d bytes"%string ;;
      let targets := targets ++ [line] in
      reject maxTargets <? llen targets with "targets file contains more than %d targets"%string ;;
      read_target_lines lines targets
  end.

Definition readTargets (file : option string) : go (list string) :=
  match file with
  | None => Err "open targets file: %w"%string
  | Some body =>
    reject maxTargetsBytes <? slen body with "targets file exceeds %d bytes"%string ;;
    try targets := read_target_lines (split_byte (byte_of 10) body) [] ;;
    reject llen targets =? 0 with "targets file contains no targets"%string ;;
    Ok targets
  end.

Definition Capabilities (c : FileConfig) : list ProfileCapability :=
  (λ p, mkProfileCapability (Profile_ID p) (Profile_Plugin p)) <$> Profiles c.

Definition Profile (c : FileConfig) (id : string) : option ProfileConfig :=
  List.find (λ p, String.eqb (Profile_ID p) id) (Profiles c).

Section relay.
Variable parse_duration : string → option duration.

Definition parseDuration (raw : string) (fallback : duration) : go duration :=
  if String.eqb raw "" then Ok fallback
  else match parse_duration raw with
  | Some value =>
    if (value <=? 0) || (10 * Minute <? value) then Err "must be a positive Go duration no greater than 10m"%string else Ok value
  | None => Err "must be a positive Go duration no greater than 10m"%string
  end.

Definition validate_ssh (s : SSHConfig) : go unit :=
  reject negb (IsAbs (KnownHostsFile s)) with "ssh known_hosts_file must be absolute"%string ;;
  reject String.eqb (PasswordRef s) "" && String.eqb (PrivateKeyRef s) "" with "ssh profile requires password_ref or private_key_ref"%string ;;
  reject (Concurrency s <? 0) || (1024 <? Concurrency s) with "ssh concurrency must be between 0 and 1024"%string ;;
  reject (MaxOutputBytes s <? 0) || (64 * 2 ^ 20 <? MaxOutputBytes s) with "ssh max_output_bytes must be between 0 and 67108864"%string ;;
  try c := parseDuration (ConnectTimeout s) (10 * Second) ;;
  try c := parseDuration (CommandTimeout s) (10 * Second) ;;
  Ok tt.

Definition validate_profile (p : ProfileConfig) : go unit :=
  if String.eqb (Profile_Plugin p) "local" then
    reject negb (String.eqb (TargetsFile p) "") || bool_decide (SSH p ≠ None) with "local profile must not configure targets_file or ssh"%string ;;
    Ok tt
  else if String.eqb (Profile_Plugin p) "ssh-linux" then
    reject negb (IsAbs (TargetsFile p)) with "ssh-linux targets_file must be absolute"%string ;;
    match SSH p with
    | None => Err "ssh-linux profile requires ssh configuration"%string
    | Some s => validate_ssh s
    end
  else Err "unsupported plugin %q"%string.

Fixpoint validate_profiles (seen : gset string) (profiles : list ProfileConfig) : go unit :=
  match profiles with
  | [] => Ok tt
  | p :: profiles =>
    reject negb (match_safe_id (Profile_ID p)) with "profile %d id must use 1-128 letters, digits, dots, underscores, or hyphens"%string ;;
    reject bool_decide (Profile_ID p ∈ seen) with "duplicate relay profile %q"%string ;;
    try u := validate_profile p ;;
    validate_profiles ({[Profile_ID p]} ∪ seen) profiles
  end.

Definition FileConfig_Validate (c : FileConfig) : go unit :=
  reject negb (String.eqb (Config_SchemaVersion c) ContractVersion) with "relay config schema_version must be %q"%string ;;
  reject negb (match_safe_id (RelayID c)) with "relay_id must use 1-128 letters, digits, dots, underscores, or hyphens"%string ;;
  reject negb (match_safe_id (SiteID c)) with "site_id must use 1-128 letters, digits, dots, underscores, or hyphens"%string ;;
  reject (llen (Profiles c) =? 0) || (maxProfiles <? llen (Profiles c)) with "relay config must contain between 1 and %d profiles"%string ;;
  validate_profiles ∅ (Profiles c).

(** ** The executor *)

Inductive Plugin := LocalPlugin | SSHPlugin (c : SSHPluginConfig).

Definition validateJob (job : RelayJob) : go unit :=
  reject String.eqb (RelayJob_JobID job) "" || (128 <? slen (RelayJob_JobID job)) with "ServiceNow job_id must be between 1 and 128 characters"%string ;;
  reject negb (String.eqb (RelayJob_Type job) JobTypeDiscover) with "ServiceNow job %q has unsupported type %q"%string ;;
  reject String.eqb (RelayJob_ProfileID job) "" || (128 <? slen (RelayJob_ProfileID job))
    with "ServiceNow job %q profile_id must be between 1 and 128 characters"%string ;;
  Ok tt.

(** A credential reference that is configured must resolve. *)
Definition resolve (h : Host) (ref message : string) : go (option string) :=
  if String.eqb ref "" then Ok None
  else match credential h ref with Some v => Ok (Some v) | None => Err message end.

Definition duration_or_zero (r : go duration) : duration := match r with Ok d => d | Err _ => 0 end.

Definition jobTimeout (targets : list string) (concurrency : Z) (connectTimeout commandTimeout : duration) : duration :=
  let timeout := wrap64 (wrap64 (Z.quot (llen targets) concurrency + 1) * wrap64 (connectTimeout + wrap64 (8 * commandTimeout))) in
  if maxDiscoveryDuration <? timeout then maxDiscoveryDuration else timeout.

Definition buildSSHPlugin (h : Host) (p : ProfileConfig) : go (Plugin * list string * duration) :=
  match SSH p with
  | None => Err "ssh configuration is required"%string
  | Some s =>
    try targets := readTargets (target_file h (TargetsFile p)) ;;
    reject negb (known_hosts_load h (KnownHostsFile s)) with "profile %q load known_hosts: %w"%string ;;
    try key := resolve h (PrivateKeyRef s) "profile %q resolve SSH private key: %w" ;;
    reject negb (default true (private_key_ok h <$> key)) with "profile %q parse SSH private key: %w"%string ;;
    try password := resolve h (PasswordRef s) "profile %q resolve SSH password: %w" ;;
    let connectTimeout := duration_or_zero (parseDuration (ConnectTimeout s) (10 * Second)) in
    let commandTimeout := duration_or_zero (parseDuration (CommandTimeout s) (10 * Second)) in
    let concurrency := if Concurrency s =? 0 then defaultConcurrency else Concurrency s in
    let maxOutput := if MaxOutputBytes s =? 0 then 4 * 2 ^ 20 else MaxOutputBytes s in
    Ok (SSHPlugin (mkSSHPluginConfig (default ""%string password) key true concurrency connectTimeout commandTimeout maxOutput),
        targets, jobTimeout targets concurrency connectTimeout commandTimeout)
  end.

Definition buildPlugin (h : Host) (p : ProfileConfig) : go (Plugin * list string * duration) :=
  if String.eqb (Profile_Plugin p) "local" then Ok (LocalPlugin, ["local"%string], 30 * Second)
  else if String.eqb (Profile_Plugin p) "ssh-linux" then buildSSHPlugin h p
  else Err "unsupported local discovery plugin %q"%string.

Definition ValidateConfiguration (plugin : Plugin) (r : DiscoveryRequest) : go unit :=
  match plugin with LocalPlugin => Local_ValidateConfiguration r | SSHPlugin c => SSH_ValidateConfiguration c r end.

(** The discovery it runs, if it comes to that, and its result. *)
Definition Execute (c : FileConfig) (h : Host) (Discover : Plugin → DiscoveryRequest → go ObservationEnvelope) (now : time) (job : RelayJob)
    : list (Plugin * DiscoveryRequest) * go ObservationEnvelope :=
  match validateJob job with
  | Err e => ([], Err e)
  | Ok _ =>
    match Profile c (RelayJob_ProfileID job) with
    | None => ([], Err "unknown local discovery profile %q"%string)
    | Some p =>
      match buildPlugin h p with
      | Err e => ([], Err e)
      | Ok (plugin, targets, timeout) =>
        let request := mkDiscoveryRequest (RelayJob_JobID job) (SiteID c) (RelayID c) targets (Add now timeout) in
        match ValidateConfiguration plugin request with
        | Err _ => ([], Err "validate profile %q: %w"%string)
        | Ok _ =>
          ([(plugin, request)], match Discover plugin request with Ok o => Ok o | Err _ => Err "discover profile %q: %w"%string end)
        end
      end
    end
  end.
End relay.

(** ** The client *)

Record RelayClient := mkRelayClient { pollURL : string; resultURL : string; relay_token : string }.

Definition NewClient (parsed : option URL) (instanceURL token : string) : go RelayClient :=
  match parsed with
  | None => Err "ServiceNow instance URL must be an absolute HTTPS URL"%string
  | Some u =>
    reject negb (String.eqb (Scheme u) "https") || String.eqb (Text.Host u) "" with "ServiceNow instance URL must be an absolute HTTPS URL"%string ;;
    reject bool_decide (URL_User u ≠ None) || (negb (String.eqb (Path u) "") && negb (String.eqb (Path u) "/")) || ForceQuery u
           || negb (String.eqb (RawQuery u) "") || negb (String.eqb (Fragment u) "")
      with "ServiceNow instance URL must not contain credentials, a path, query parameters, or a fragment"%string ;;
    reject String.eqb token "" with "ServiceNow bearer token is required"%string ;;
    reject (64 * 2 ^ 10 <? slen token) || existsb (λ r, (r <? 32) || (r =? 127)) (runes token) with "ServiceNow bearer token is invalid"%string ;;
    let base := trim_right_slashes instanceURL in
    Ok (mkRelayClient (base +:+ pollPath)%string (base +:+ resultPath)%string token)
  end.

(** An ordinary error, or a [*DeliveryError]. *)
Inductive control_error := ControlError (msg : string) | DeliveryError (retryable : bool) (msg : string).

(** The answer to a request; [decode] is left out when the caller wants no output. *)
Definition postJSON {A} (zero : A) (decode : option (string → option A)) (o : outcome) : result control_error A :=
  match o with
  | transport_error _ => Err (DeliveryError true "send ServiceNow request: %w")
  | responded _ None => Err (DeliveryError true "read ServiceNow response: %w")
  | responded status (Some body) =>
    if maxControlResponseSize <? slen body then Err (DeliveryError false "ServiceNow response exceeds %d bytes")
    else if (status <? 200) || (300 <=? status) then Err (DeliveryError (500 <=? status) "ServiceNow returned %s: %s")
    else match decode with
    | None => Ok zero
    | Some decode =>
      if String.eqb (trim_space body) "" then Ok zero
      else match decode body with Some a => Ok a | None => Err (ControlError "decode ServiceNow response: %w") end
    end
  end.

Fixpoint check_jobs (jobs : list RelayJob) : result control_error unit :=
  match jobs with
  | [] => Ok tt
  | job :: jobs => match validateJob job with Err e => Err (ControlError e) | Ok _ => check_jobs jobs end
  end.

Definition Client_Poll (decode : string → option (list RelayJob)) (o : outcome) : result control_error (list RelayJob) :=
  try jobs := postJSON [] (Some decode) o ;;
  if maxJobsPerPoll <? llen jobs then Err (ControlError "ServiceNow returned %d jobs; maximum is %d")
  else try u := check_jobs jobs ;; Ok jobs.

Definition Client_Report (o : outcome) : result control_error unit := postJSON tt None o.

(** ** What a validated configuration guarantees *)

Section guarantees.
Variable parse_duration : string → option duration.
Abbreviation parseDuration := (parseDuration parse_duration).
Abbreviation validate_profile := (validate_profile parse_duration).
Abbreviation validate_profiles := (validate_profiles parse_duration).
Abbreviation buildPlugin := (buildPlugin parse_duration).

Lemma validate_profiles_ok profiles : ∀ seen, validate_profiles seen profiles = Ok tt →
  Forall (λ p, match_safe_id (Profile_ID p) = true ∧ validate_profile p = Ok tt ∧ Profile_ID p ∉ seen) profiles ∧
  NoDup (Profile_ID <$> profiles).
Proof.
  induction profiles as [|p profiles IH]; intros seen; simpl; [by repeat constructor|].
  destruct (match_safe_id (Profile_ID p)) eqn:Hid; [|done]. simpl. case_bool_decide as Hseen; [done|].
  destruct (validate_profile p) as [[]|] eqn:Hp; [|done]. intros [Hall Hnd]%IH. split.
  - constructor; [done|]. eapply Forall_impl; [exact Hall|]. intros q (?&?&Hq). split_and!; [done|done|]. set_solver.
  - constructor; [|done]. intros (q&Hq&Hin)%list_elem_of_fmap. rewrite Forall_forall in Hall.
    destruct (Hall q Hin) as (_&_&Hq'). rewrite <-Hq in Hq'. set_solver.
Qed.

Lemma FileConfig_Validate_ok c : FileConfig_Validate parse_duration c = Ok tt →
  match_safe_id (RelayID c) = true ∧ match_safe_id (SiteID c) = true ∧ 1 <= llen (Profiles c) <= maxProfiles ∧
  Forall (λ p, match_safe_id (Profile_ID p) = true ∧ validate_profile p = Ok tt) (Profiles c) ∧ NoDup (Profile_ID <$> Profiles c).
Proof.
  unfold FileConfig_Validate. destruct (String.eqb _ _); [|done]. destruct (match_safe_id (RelayID c)); [|done].
  destruct (match_safe_id (SiteID c)); [|done]. simpl. destruct (Z.eqb_spec (llen (Profiles c)) 0), (Z.ltb_spec maxProfiles (llen (Profiles c))); try done.
  simpl. intros [Hall Hnd]%validate_profiles_ok. split_and!; try done; [unfold llen in *; lia|].
  eapply Forall_impl; [exact Hall|]. intros ? (?&?&_); by split.
Qed.

Lemma Profile_found c id p : Profile c id = Some p → p ∈ Profiles c ∧ Profile_ID p = id.
Proof. intros [Hin Heq%String.eqb_eq]%List.find_some. by rewrite list_elem_of_In. Qed.

Lemma parseDuration_range raw fallback d : 0 < fallback <= 10 * Minute → parseDuration raw fallback = Ok d → 0 < d <= 10 * Minute.
Proof.
  unfold Relay.parseDuration. intros Hf. destruct (String.eqb raw ""); [by intros [= <-]|]. destruct (parse_duration raw) as [v|]; [|done].
  destruct (Z.leb_spec v 0), (Z.ltb_spec (10 * Minute) v); try done. by intros [= <-].
Qed.

(** The target file's entries: its lines without surrounding space, less blank ones and
    comments. *)
Definition target_entry (line : string) : bool := negb (String.eqb (trim_space line) "" || has_prefix (trim_space line) "#").
Definition target_entries (body : string) : list string := trim_space <$> filter (λ l, target_entry l = true) (split_byte (byte_of 10) body).

Lemma read_target_lines_ok lines : ∀ targets out, read_target_lines lines targets = Ok out → llen targets <= maxTargets →
  out = targets ++ (trim_space <$> filter (λ l, target_entry l = true) lines) ∧ llen out <= maxTargets.
Proof.
  induction lines as [|line lines IH]; intros targets out; cbn [read_target_lines].
  { intros [= <-] H. split; [symmetry; apply app_nil_r|done]. }
  assert (target_entry line = negb (String.eqb (trim_space line) "" || has_prefix (trim_space line) "#")) as He by done.
  destruct (_ || _) eqn:Hskip; simpl in He; rewrite filter_cons.
  - intros Hr Hl. rewrite decide_False by congruence. by apply IH.
  - destruct (maxTargetLine <? _); [done|]. destruct (Z.ltb_spec maxTargets (llen (targets ++ [trim_space line]))); [done|].
    intros Hr _. rewrite decide_True by done. destruct (IH _ _ Hr) as [-> Hb]; [done|]. split; [|done]. by rewrite <-app_assoc.
Qed.

Lemma readTargets_ok file targets : readTargets file = Ok targets →
  ∃ body, file = Some body ∧ targets = target_entries body ∧ 1 <= llen targets <= maxTargets.
Proof.
  unfold readTargets. destruct file as [body|]; [|done]. destruct (_ <? _); [done|].
  destruct (read_target_lines _ []) as [out|] eqn:Hr; [|done]. destruct (read_target_lines_ok _ _ _ Hr) as [-> Hb]; [unfold llen, maxTargets; simpl; lia|].
  simpl in *. destruct (Z.eqb_spec (llen (target_entries body)) 0) as [|Hne].
  - by rewrite (proj2 (Z.eqb_eq _ 0)).
  - rewrite (proj2 (Z.eqb_neq _ 0)) by done. intros [= <-]. exists body. split_and!; [done|done| |done].
    unfold target_entries, llen in *. lia.
Qed.

(** The deadline of a discovery, computed in 64 bits without overflow. *)
Lemma jobTimeout_exact targets concurrency connect command :
  llen targets <= maxTargets → 1 <= concurrency <= 1024 → 0 < connect <= 10 * Minute → 0 < command <= 10 * Minute →
  jobTimeout targets concurrency connect command = Z.min maxDiscoveryDuration ((llen targets / concurrency + 1) * (connect + 8 * command)) ∧
  0 < jobTimeout targets concurrency connect command <= maxDiscoveryDuration.
Proof.
  intros Ht Hc Hn Hm. assert (0 <= llen targets) as H0 by (unfold llen; lia).
  assert (0 <= llen targets / concurrency <= 10000) as Hq.
  { split; [apply Z.div_pos; lia|]. apply Z.div_le_upper_bound; [lia|]. unfold maxTargets in Ht. nia. }
  unfold jobTimeout. rewrite Z.quot_div_nonneg by lia. unfold Minute, Second in *.
  rewrite (wrap64_id (8 * command)) by (unfold in_int64, int64_min, int64_max; lia).
  rewrite (wrap64_id (connect + 8 * command)) by (unfold in_int64, int64_min, int64_max; lia).
  rewrite (wrap64_id (llen targets / concurrency + 1)) by (unfold in_int64, int64_min, int64_max; lia).
  rewrite (wrap64_id ((llen targets / concurrency + 1) * (connect + 8 * command))) by (unfold in_int64, int64_min, int64_max; nia).
  set (timeout := (llen targets / concurrency + 1) * (connect + 8 * command)). assert (0 < timeout) as Hpos by (unfold timeout; nia).
  unfold maxDiscoveryDuration, Minute, Second. destruct (Z.ltb_spec (30 * (60 * 1000000000)) timeout); lia.
Qed.

(** ** Building a plugin *)

Definition credentials_nonempty (h : Host) : Prop := ∀ ref v, credential h ref = Some v → v ≠ ""%string.

(** A plugin configuration that its own validation accepts, whatever parses as targets. *)
Definition well_formed (plugin : Plugin) : Prop :=
  match plugin with
  | LocalPlugin => True
  | SSHPlugin c =>
    SSH_HostKeyCallback c = true ∧ (SSH_Password c ≠ ""%string ∨ SSH_Signer c ≠ None) ∧ 1 <= SSH_Concurrency c <= 1024 ∧
    0 < SSH_ConnectTimeout c <= 10 * Minute ∧ 0 < SSH_CommandTimeout c <= 10 * Minute ∧ 1 <= SSH_MaxOutputBytes c <= 2 ^ 26
  end.

Lemma resolve_ok h ref m v : resolve h ref m = Ok v → (ref = ""%string ∧ v = None) ∨ ∃ s, v = Some s ∧ credential h ref = Some s.
Proof.
  unfold resolve. destruct (String.eqb_spec ref "") as [->|]; [intros [= <-]; by left|]. destruct (credential h ref) as [s|] eqn:Hs; [|done].
  intros [= <-]. right. by exists s.
Qed.

Lemma validate_ssh_ok s : validate_ssh parse_duration s = Ok tt →
  (PasswordRef s ≠ ""%string ∨ PrivateKeyRef s ≠ ""%string) ∧ 0 <= Concurrency s <= 1024 ∧ 0 <= MaxOutputBytes s <= 2 ^ 26 ∧
  (∃ d, parseDuration (ConnectTimeout s) (10 * Second) = Ok d) ∧ (∃ d, parseDuration (CommandTimeout s) (10 * Second) = Ok d).
Proof.
  unfold validate_ssh. destruct (IsAbs _); [|done]. cbn [negb].
  destruct (String.eqb_spec (PasswordRef s) ""), (String.eqb_spec (PrivateKeyRef s) ""); cbn [andb]; [done|..];
  (destruct (Z.ltb_spec (Concurrency s) 0); [done|]); (destruct (Z.ltb_spec 1024 (Concurrency s)); [done|]); cbn [orb];
  (destruct (Z.ltb_spec (MaxOutputBytes s) 0); [done|]); (destruct (Z.ltb_spec (64 * 2 ^ 20) (MaxOutputBytes s)); [done|]); cbn [orb];
  (destruct (parseDuration (ConnectTimeout s) _) as [c|]; [|done]); (destruct (parseDuration (CommandTimeout s) _) as [d|]; [|done]);
  intros _; split_and!; eauto; lia.
Qed.

Lemma buildSSHPlugin_ok h p s plugin targets timeout :
  credentials_nonempty h → SSH p = Some s → validate_ssh parse_duration s = Ok tt → buildSSHPlugin parse_duration h p = Ok (plugin, targets, timeout) →
  well_formed plugin ∧ plugin ≠ LocalPlugin ∧ (∃ body, target_file h (TargetsFile p) = Some body ∧ targets = target_entries body) ∧
  1 <= llen targets <= maxTargets ∧ 0 < timeout <= maxDiscoveryDuration.
Proof.
  intros Hh Hs Hv. unfold buildSSHPlugin. rewrite Hs. destruct (validate_ssh_ok s Hv) as (Href&Hconc&Hout&[dc Hc]&[dm Hm]).
  destruct (readTargets _) as [ts|] eqn:Ht; [|done]. destruct (readTargets_ok _ _ Ht) as (body&Hb&->&Hn).
  destruct (known_hosts_load h _); [|done]. simpl. destruct (resolve h (PrivateKeyRef s) _) as [key|] eqn:Hk; [|done].
  destruct (negb _); [done|]. destruct (resolve h (PasswordRef s) _) as [pw|] eqn:Hpw; [|done]. rewrite Hc, Hm. simpl.
  apply parseDuration_range in Hc; [|unfold Minute, Second; lia]. apply parseDuration_range in Hm; [|unfold Minute, Second; lia].
  set (conc := if Concurrency s =? 0 then _ else _). assert (1 <= conc <= 1024) as Hcc.
  { unfold conc, defaultConcurrency. destruct (Z.eqb_spec (Concurrency s) 0); lia. }
  assert (1 <= (if MaxOutputBytes s =? 0 then 4 * 2 ^ 20 else MaxOutputBytes s) <= 2 ^ 26) as Hmax by (destruct (Z.eqb_spec (MaxOutputBytes s) 0); lia).
  assert (default ""%string pw ≠ ""%string ∨ key ≠ None) as Hcred.
  { destruct (resolve_ok _ _ _ _ Hpw) as [[Hp ->]|(v&->&Hv')]; [|left; by eapply Hh].
    destruct (resolve_ok _ _ _ _ Hk) as [[Hk' ->]|(v&->&_)]; [|by right]. by destruct Href. }
  destruct (jobTimeout_exact (target_entries body) conc dc dm) as [_ Htime]; [lia|done..|].
  intros [= <- <- <-]. do 2 (split; [done|]). split; [by exists body|done].
Qed.

Lemma validate_profile_local p : validate_profile p = Ok tt → Profile_Plugin p = "local"%string → SSH p = None.
Proof.
  unfold Relay.validate_profile. intros Hv Hl. rewrite Hl in Hv. simpl in Hv. destruct (String.eqb (TargetsFile p) ""); [|done].
  simpl in Hv. case_bool_decide as Hs; [done|]. by destruct (SSH p); [destruct Hs|].
Qed.

Lemma validate_profile_ssh p s : validate_profile p = Ok tt → Profile_Plugin p = "ssh-linux"%string → SSH p = Some s → validate_ssh parse_duration s = Ok tt.
Proof.
  unfold Relay.validate_profile. intros Hv Hl Hs. rewrite Hl, Hs in Hv. simpl in Hv. by destruct (IsAbs (TargetsFile p)).
Qed.

(** What a plugin is built from. *)
Lemma buildPlugin_ok h p plugin targets timeout : validate_profile p = Ok tt → credentials_nonempty h → buildPlugin h p = Ok (plugin, targets, timeout) →
  well_formed plugin ∧ 1 <= llen targets <= maxTargets ∧ 0 < timeout <= maxDiscoveryDuration ∧
  ((plugin = LocalPlugin ∧ Profile_Plugin p = "local"%string ∧ targets = ["local"%string]) ∨
   (plugin ≠ LocalPlugin ∧ Profile_Plugin p = "ssh-linux"%string ∧ ∃ body, target_file h (TargetsFile p) = Some body ∧ targets = target_entries body)).
Proof.
  intros Hv Hh. unfold Relay.buildPlugin. destruct (String.eqb_spec (Profile_Plugin p) "local") as [Hl|].
  { intros [= <- <- <-]. split; [done|]. unfold maxTargets, maxDiscoveryDuration, Minute, Second. do 2 (split; [unfold llen; simpl; lia|]). by left. }
  destruct (String.eqb_spec (Profile_Plugin p) "ssh-linux") as [Hs|]; [|done]. intros Hb.
  destruct (SSH p) as [s|] eqn:Hssh; [|unfold buildSSHPlugin in Hb; by rewrite Hssh in Hb].
  destruct (buildSSHPlugin_ok h p s plugin targets timeout) as (Hw&Hnl&Hbody&Hn&Ht); [done|done|by eapply validate_profile_ssh|done|].
  do 3 (split; [done|]). by right.
Qed.

Lemma well_formed_validates plugin r : well_formed plugin → 1 <= llen (Request_Targets r) → (plugin = LocalPlugin → Request_Targets r = ["local"%string]) →
  ValidateConfiguration plugin r = Ok tt ↔ (plugin = LocalPlugin ∨ Forall (λ raw, is_ok (parseTarget raw) = true) (Request_Targets r)).
Proof.
  destruct plugin as [|c]; simpl; intros Hw Hn Hl.
  { unfold Local_ValidateConfiguration. rewrite (Hl eq_refl). simpl. split; [by left|done]. }
  destruct Hw as (Hk&Hcred&Hc&_&_&Hm). unfold SSH_ValidateConfiguration. rewrite Hk, <-parse_all_ok.
  rewrite (proj2 (Z.eqb_neq _ _)), (proj2 (Z.ltb_ge (SSH_Concurrency c) 0)), (proj2 (Z.ltb_ge 1024 _)), (proj2 (Z.ltb_ge (SSH_MaxOutputBytes c) 0)) by lia.
  assert (String.eqb (SSH_Password c) "" && bool_decide (SSH_Signer c = None) = false) as ->.
  { apply andb_false_iff. destruct Hcred as [Hp|Hs]; [left; by apply String.eqb_neq|right; by apply bool_decide_eq_false]. }
  simpl. split; [by right|]. by intros [|].
Qed.

(** a profile of a validated configuration is well typed: if a plugin can be built from it
    at all, the plugin's own configuration check accepts it with a positive deadline of at
    most thirty minutes, and can only complain about a line of the targets file that is no
    target. *)
Theorem built_plugins_are_well_formed (c : FileConfig) (h : Host) (p : ProfileConfig) (plugin : Plugin) (targets : list string)
    (timeout : duration) (job site relay : string) (deadline : time) :
  FileConfig_Validate parse_duration c = Ok tt → p ∈ Profiles c → credentials_nonempty h → buildPlugin h p = Ok (plugin, targets, timeout) →
  well_formed plugin ∧ 0 < timeout <= maxDiscoveryDuration ∧ 1 <= llen targets <= maxTargets ∧
  (ValidateConfiguration plugin (mkDiscoveryRequest job site relay targets deadline) = Ok tt ↔
     plugin = LocalPlugin ∨ Forall (λ raw, is_ok (parseTarget raw) = true) targets).
Proof.
  intros (_&_&_&Hall&_)%FileConfig_Validate_ok Hp Hh Hb. rewrite Forall_forall in Hall. destruct (Hall p Hp) as [_ Hv].
  destruct (buildPlugin_ok h p plugin targets timeout Hv Hh Hb) as (Hw&Hn&Ht&Hfrom). do 3 (split; [done|]).
  apply well_formed_validates; [done|simpl; lia|]. intros ->. by destruct Hfrom as [(_&_&?)|(?&_)].
Qed.

(** a job names a profile and nothing else: with a validated configuration an execution
    makes at most one discovery, for a well-formed discover job, with the plugin and the
    targets of the one advertised profile of that name as the relay host has them, under the
    relay's own identity and a deadline within thirty minutes. *)
Theorem Execute_is_confined (c : FileConfig) (h : Host) (Discover : Plugin → DiscoveryRequest → go ObservationEnvelope) (now : time) (job : RelayJob) :
  FileConfig_Validate parse_duration c = Ok tt → credentials_nonempty h →
  let '(calls, r) := Execute parse_duration c h Discover now job in
  (calls = [] ∧ is_ok r = false) ∨
  ∃ p plugin request, calls = [(plugin, request)] ∧ validateJob job = Ok tt ∧
    p ∈ Profiles c ∧ Profile_ID p = RelayJob_ProfileID job ∧ (∀ q, q ∈ Profiles c → Profile_ID q = RelayJob_ProfileID job → q = p) ∧
    mkProfileCapability (Profile_ID p) (Profile_Plugin p) ∈ Capabilities c ∧
    ((plugin = LocalPlugin ∧ Profile_Plugin p = "local"%string ∧ Request_Targets request = ["local"%string]) ∨
     (plugin ≠ LocalPlugin ∧ Profile_Plugin p = "ssh-linux"%string ∧
      ∃ body, target_file h (TargetsFile p) = Some body ∧ Request_Targets request = target_entries body)) ∧
    Request_JobID request = RelayJob_JobID job ∧ Request_SiteID request = SiteID c ∧ Request_CollectorID request = RelayID c ∧
    Request_Deadline request <= Add now maxDiscoveryDuration ∧
    result_option r = result_option (Discover plugin request).
Proof.
  intros (_&_&_&Hall&Hnd)%FileConfig_Validate_ok Hh. unfold Execute. destruct (validateJob job) as [[]|] eqn:Hj; [|by left].
  destruct (Profile c (RelayJob_ProfileID job)) as [p|] eqn:Hp; [|by left]. apply Profile_found in Hp as [Hin Hid].
  rewrite Forall_forall in Hall. destruct (Hall p Hin) as [_ Hv].
  destruct (Relay.buildPlugin parse_duration h p) as [[[plugin targets] timeout]|] eqn:Hb; [|by left].
  destruct (buildPlugin_ok h p plugin targets timeout Hv Hh Hb) as (_&_&Ht&Hfrom).
  destruct (ValidateConfiguration plugin _) as [[]|]; [|by left]. right. eexists p, plugin, _. split; [done|].
  do 3 (split; [done|]). split.
  { intros q Hq Hqid. apply list_elem_of_lookup in Hin as [i Hi], Hq as [j Hj']. assert (i = j) as <-; [|congruence].
    apply (NoDup_lookup (Profile_ID <$> Profiles c) i j (RelayJob_ProfileID job)); [done|..]; rewrite list_lookup_fmap; [rewrite Hi|rewrite Hj']; simpl; congruence. }
  split; [unfold Capabilities; apply list_elem_of_fmap; by exists p|]. split; [done|]. do 3 (split; [done|]).
  split; [simpl; unfold Add; lia|]. by destruct (Discover plugin _).
Qed.
End guarantees.

(** ** An SSH profile *)

Definition demo_ssh : SSHConfig := mkSSHConfig "env:PW" "" "/etc/topo/known_hosts" 0 "" "5s" 0.
Definition demo_profile : ProfileConfig := mkProfileConfig "lab" "ssh-linux" "/etc/topo/targets" (Some demo_ssh).
Definition demo_config : FileConfig := mkFileConfig ContractVersion "relay-1" "site-1" [mkProfileConfig "here" "local" "" None; demo_profile].
Definition demo_targets : string := ("# lab" +:+ char 10 +:+ " root@10.0.0.1:22 " +:+ char 10 +:+ char 10 +:+ "ops@[fe80::1]:22")%string.
Definition demo_host : Host :=
  mkHost (λ path, if String.eqb path "/etc/topo/targets" then Some demo_targets else None) (λ _, true)
    (λ ref, if String.eqb ref "env:PW" then Some "secret"%string else None) (λ _, true).
Definition demo_durations (s : string) : option duration := if String.eqb s "5s" then Some (5 * Second) else None.
Definition demo_plugin : Plugin := SSHPlugin (mkSSHPluginConfig "secret" None true 32 (10 * Second) (5 * Second) (4 * 2 ^ 20)).

Lemma demo_valid : FileConfig_Validate demo_durations demo_config = Ok tt.
Proof. vm_compute. reflexivity. Qed.
Lemma demo_credentials : credentials_nonempty demo_host.
Proof. intros ref v. simpl. destruct (String.eqb ref "env:PW"); [by intros [= <-]|done]. Qed.

Lemma built_plugins_are_well_formed_witness :
  let targets := ["root@10.0.0.1:22"; "ops@[fe80::1]:22"]%string in
  buildPlugin demo_durations demo_host demo_profile = Ok (demo_plugin, targets, 50 * Second) ∧
  ValidateConfiguration demo_plugin (mkDiscoveryRequest "job" "site-1" "relay-1" targets 0) = Ok tt.
Proof.
  intros targets. assert (buildPlugin demo_durations demo_host demo_profile = Ok (demo_plugin, targets, 50 * Second)) as Hb by (vm_compute; reflexivity).
  split; [exact Hb|].
  apply (built_plugins_are_well_formed demo_durations demo_config demo_host demo_profile demo_plugin targets (50 * Second) "job" "site-1" "relay-1" 0
    demo_valid ltac:(right; left) demo_credentials Hb).
  right. repeat constructor.
Defined.

Lemma Execute_is_confined_witness :
  let job := mkRelayJob "j1" "discover" "lab" 0 in
  let '(calls, r) := Execute demo_durations demo_config demo_host (λ _ _, Ok zero_envelope) 0 job in
  calls ≠ [] ∧ ∃ p plugin request, calls = [(plugin, request)] ∧ p ∈ Profiles demo_config ∧ Profile_ID p = "lab"%string ∧ r = Ok zero_envelope.
Proof.
  intros job. pose proof (Execute_is_confined demo_durations demo_config demo_host (λ _ _, Ok zero_envelope) 0 job demo_valid demo_credentials) as H.
  assert ((Execute demo_durations demo_config demo_host (λ _ _, Ok zero_envelope) 0 job).1 ≠ []) as Hne by (vm_compute; discriminate).
  destruct (Execute demo_durations demo_config demo_host (λ _ _, Ok zero_envelope) 0 job) as [calls r]. split; [exact Hne|].
  destruct H as [[? _]|(p&plugin&request&Hc&_&Hp&Hid&_&_&_&_&_&_&_&Hr)]; [done|]. exists p, plugin, request. split_and!; try done.
  destruct r; simpl in Hr; congruence.
Defined.
