(* ===== verification/RelayRun.v ===== *)
(** * [internal/relay]: the spool and the run loop

    [spool.go] and [run.go], as programs over a directory and a log of what reached the
    outside.  Every effect takes one input: what is answered, what the clock says, and
    whether the process survives; a write may reach the disk in part.  The publisher is an
    interface, instantiated with the ServiceNow publisher. *)

From S2P Require Import Prelude Effects Bytes Text Time Model SpoolDir Servicenow Publish Discovery Relay.

Definition defaultPollInterval : duration := Minute.
Definition maxPollInterval : duration := Hour.
Definition maxPublishAttempts : Z := 3.
Definition maxResultErrorBytes : Z := 4096.
Definition relaySpoolKeyBytes : Z := 32.
Definition relaySpoolSuffix : string := ".relay-spool".
Definition relaySpoolTmp : string := ".tmp-relay-".
Definition maxRelayEntryBytes : Z := 16 * 2 ^ 20.
Definition maxRelayFileBytes : Z := maxRelayEntryBytes + 64.

Record PendingDelivery := mkPendingDelivery {
  Delivery_Job : RelayJob;
  Delivery_RelayID : string;
  StartedAt : time;
  CompletedAt : time;
  Observation : option ObservationEnvelope;
  DiscoveryError : string;
  Delivery_Published : bool;
  PublishAttempts : Z;
  PublicationError : string;
}.

(** What publishes: the answer to a batch is a success or an error.  *)
Class ObservationPublisher := Publish_answer : list ObservationEnvelope → outcome → option publish_error.
#[export] Instance servicenow_publisher parse_url marshal valid unmarshal (c : PublisherConfig) : ObservationPublisher :=
  λ envelopes o, failed_with (PublishBatch parse_url marshal valid unmarshal c (λ _, o) envelopes).

(** ** The world *)

Inductive relay_event :=
| PollSent (r : PollRequest)
| Polled (jobs : list RelayJob)
| Discovered (plugin : Plugin) (request : DiscoveryRequest)
| Stored (name : string) (job : RelayJob)                              (* a result was retained *)
| PublishSent (name : string) (o : ObservationEnvelope) (accepted : bool)
| Reported (name : string) (r : RelayResult) (accepted : bool).        (* no name: not retained *)

(** The log has the newest event first. *)
Record RelayWorld := mkRelayWorld {
  Relay_files : gmap string string;
  Relay_seq : Z;
  Relay_log : list relay_event;
}.
Definition note (e : relay_event) (w : RelayWorld) : RelayWorld := mkRelayWorld (Relay_files w) (Relay_seq w) (e :: Relay_log w).
Definition set_files (m : gmap string string) (w : RelayWorld) : RelayWorld := mkRelayWorld m (Relay_seq w) (Relay_log w).

(** One input; [In_cut]: how much of the effect happened when it did not complete. *)
Record Input := mkInput {
  In_ending : ending;
  In_cut : option nat;
  In_env : SpoolEnv;
  In_time : time;
  In_reply : outcome;
  In_discovery : go ObservationEnvelope;
}.

Definition failure_text (e : publish_error) : string := match e with plain_error m => m | PublishError _ m => m end.

Record RelayRunConfig := mkRelayRunConfig {
  Run_FileConfig : FileConfig;
  Run_Version : string;
  Run_PollInterval : duration;
  Run_Host : Host;
  Run_maxBytes : Z;
}.

(** [Run]: the checked configuration of the loop. *)
Definition Run_checked (parse_duration : string → option duration) (c : RelayRunConfig) : go RelayRunConfig :=
  try u := FileConfig_Validate parse_duration (Run_FileConfig c) ;;
  let interval := if Run_PollInterval c =? 0 then defaultPollInterval else Run_PollInterval c in
  reject (interval <? Second) || (maxPollInterval <? interval) with "relay poll interval must be between 1s and 1h"%string ;;
  Ok (mkRelayRunConfig (Run_FileConfig c) (Run_Version c) interval (Run_Host c) (Run_maxBytes c)).

(** [NewSpool] *)
Definition RelaySpool_New (absolute : bool) (key_bytes maxBytes : Z) : go Z :=
  reject negb absolute with "relay spool directory must be absolute"%string ;;
  reject negb (key_bytes =? relaySpoolKeyBytes) with "relay spool encryption key must be exactly %d bytes"%string ;;
  reject maxBytes <=? 0 with "relay spool max bytes must be positive"%string ;;
  Ok maxBytes.

Definition relay_name : Z → Z → string := dated_name relaySpoolSuffix.
Definition relay_entryPath : string → bool := path_ok relaySpoolSuffix.
Definition relay_tmp (name : string) : string := (relaySpoolTmp +:+ name)%string.
Definition relay_pending (name : string) : bool := has_suffix name relaySpoolSuffix.

Definition ErrRelaySpoolFull : string := "relay spool exceeds configured byte bound".

(** [resultFor] *)
Definition resultFor (d : PendingDelivery) (override : option string) : RelayResult :=
  let '(ok, e) :=
    match override with
    | Some e => (false, truncate e maxResultErrorBytes)
    | None =>
      if negb (String.eqb (DiscoveryError d) "") then (false, DiscoveryError d)
      else if negb (String.eqb (PublicationError d) "") then (false, PublicationError d)
      else if Delivery_Published d then (true, "")
      else (false, "observation was not published")
    end in
  let count {A} (f : ObservationEnvelope → list A) : Z := match Observation d with Some o => llen (f o) | None => 0 end in
  mkRelayResult ContractVersion (RelayJob_JobID (Delivery_Job d)) (Delivery_RelayID d) (RelayJob_ProfileID (Delivery_Job d))
    ok (StartedAt d) (CompletedAt d)
    (match Observation d with Some o => Envelope_ObservationID o | None => "" end)
    (count Envelope_Assets) (count Envelope_Relationships) (count Envelope_Errors) e.

(** The state of a delivery after one publication attempt; [retryable] is the method of
    the publisher's errors. *)
Definition after_publish (d : PendingDelivery) (e : option publish_error) : PendingDelivery :=
  let attempts := PublishAttempts d + 1 in
  let '(published, error) :=
    match e with
    | None => (true, PublicationError d)
    | Some e => (Delivery_Published d,
                 if negb (Retryable e) || (maxPublishAttempts <=? attempts) then truncate (failure_text e) maxResultErrorBytes
                 else PublicationError d)
    end in
  mkPendingDelivery (Delivery_Job d) (Delivery_RelayID d) (StartedAt d) (CompletedAt d) (Observation d) (DiscoveryError d)
    published attempts error.

Definition needs_publishing (d : PendingDelivery) : option ObservationEnvelope :=
  o ← Observation d;
  if negb (Delivery_Published d) && String.eqb (PublicationError d) "" then Some o else None.

(** ** Effects *)

Abbreviation relay := (prog Input RelayWorld).

Section relay.
Context `{ObservationPublisher} `{SpoolCodec PendingDelivery}.
Variable parse_duration : string → option duration.
Variable decode_jobs : string → option (list RelayJob).
Variable config : RelayRunConfig.
Variable quiet : Input.

Definition totalBytes (w : RelayWorld) : Z := size_of (Relay_files w).

Definition relay_effect {A} (f : Input → RelayWorld → completion A * RelayWorld) : relay A := with_input quiet f.

(** [Pending] lists every file with the suffix. *)
Definition Spool_Pending : relay (list string) := relay_effect (λ i w,
  match In_ending i with
  | Answered => (Done (listing relay_pending (Relay_files w)), w)
  | Failing => (Failed "list relay spool: %w", w)
  | Dying => (Crashed, w)
  end).

Definition read_entry (name : string) (m : gmap string string) : go PendingDelivery :=
  reject negb (relay_entryPath name) with "invalid relay spool entry name %q"%string ;;
  match m !! name with
  | None => Err "open relay spool entry %q: %w"%string
  | Some ciphertext =>
    reject maxRelayFileBytes <? slen ciphertext with "relay spool entry %q exceeds %d bytes"%string ;;
    match open ciphertext with
    | None => Err "relay spool entry %q failed integrity verification: %w"%string
    | Some plaintext =>
      match unmarshal plaintext with None => Err "decode relay spool entry %q: %w"%string | Some d => Ok d end
    end
  end.

Definition Spool_Read (name : string) : relay PendingDelivery := relay_effect (λ i w,
  match In_ending i with
  | Answered => (match read_entry name (Relay_files w) with Ok d => Done d | Err e => Failed e end, w)
  | Failing => (Failed "read relay spool entry %q: %w", w)
  | Dying => (Crashed, w)
  end).

(** [writeLocked]: the bound, the temporary file, the rename.  A write that is cut leaves
    a part of the temporary file, whether the process dies or not; a rename that fails
    removes it. *)
Definition writeLocked (name : string) (d : PendingDelivery) (replacedBytes : Z) (renamed : RelayWorld → RelayWorld) : relay unit :=
  relay_effect (λ i w,
    if maxRelayEntryBytes <? slen (marshal d) then (Failed "relay delivery exceeds %d bytes", w)
    else
      let ciphertext := seal (nonce (In_env i)) (marshal d) in
      if Run_maxBytes config <? totalBytes w - replacedBytes + slen ciphertext then (Failed ErrRelaySpoolFull, w)
      else
        let stored := renamed (set_files (<[name := ciphertext]> (delete (relay_tmp name) (Relay_files w))) w) in
        match In_cut i, In_ending i with
        | None, Answered => (Done tt, stored)
        | None, Failing => (Failed "commit relay spool entry: %w", set_files (delete (relay_tmp name) (Relay_files w)) w)
        | None, Dying => (Crashed, stored)
        | Some k, e =>
          (match e with Dying => Crashed | _ => Failed "write relay spool entry: %w" end,
           set_files (<[relay_tmp name := take_string k ciphertext]> (Relay_files w)) w)
        end).

(** [Enqueue]: the sequence moves on even when the write fails. *)
Definition next_name : relay string := relay_effect (λ i w,
  match In_ending i with
  | Dying => (Crashed, w)
  | _ => (Done (relay_name (nano (In_env i)) (Relay_seq w + 1)), mkRelayWorld (Relay_files w) (Relay_seq w + 1) (Relay_log w))
  end).
Definition Spool_Enqueue (d : PendingDelivery) : relay unit :=
  name ← next_name; writeLocked name d 0 (note (Stored name (Delivery_Job d))).

(** [os.Stat] *)
Definition stat (name : string) : relay Z := relay_effect (λ i w,
  match In_ending i, Relay_files w !! name with
  | Dying, _ => (Crashed, w)
  | Answered, Some c => (Done (slen c), w)
  | _, _ => (Failed "inspect relay spool entry %q: %w", w)
  end).
Definition Spool_Replace (name : string) (d : PendingDelivery) : relay unit :=
  if relay_entryPath name then size ← stat name; writeLocked name d size id
  else lift (Err "invalid relay spool entry name %q"%string).

Definition Spool_Remove (name : string) : relay unit :=
  if relay_entryPath name then relay_effect (λ i w,
    match In_cut i, In_ending i with
    | None, Answered => (Done tt, set_files (delete name (Relay_files w)) w)
    | None, Dying => (Crashed, set_files (delete name (Relay_files w)) w)
    | _, Dying => (Crashed, w)
    | _, _ => (Failed "remove relay spool entry %q: %w", w)
    end)
  else lift (Err "invalid relay spool entry name %q"%string).

(** A request: it may be sent by a process that does not live to see the answer. *)
Definition request {A} (sent : outcome → RelayWorld → RelayWorld) (answer : outcome → A) : relay A := relay_effect (λ i w,
  match In_ending i, In_cut i with
  | Dying, Some _ => (Crashed, w)
  | Dying, None => (Crashed, sent (In_reply i) w)
  | _, _ => (Done (answer (In_reply i)), sent (In_reply i) w)
  end).

Definition publish (name : string) (o : ObservationEnvelope) : relay (option publish_error) :=
  request (λ reply, note (PublishSent name o (bool_decide (Publish_answer [o] reply = None)))) (λ reply, Publish_answer [o] reply).
Definition report (name : string) (r : RelayResult) : relay (result control_error unit) :=
  request (λ reply, note (Reported name r (is_ok (Client_Report reply)))) Client_Report.

Definition clock : relay time := relay_effect (λ i w, match In_ending i with Dying => (Crashed, w) | _ => (Done (In_time i), w) end).

(** ** The run loop *)

(** What becomes of the delivery before its result is reported; [None]: the drain stops. *)
Definition publish_pending (name : string) (d : PendingDelivery) : relay (option PendingDelivery) :=
  match needs_publishing d with
  | None => mret (Some d)
  | Some o =>
    e ← publish name o;
    let d := after_publish d e in
    replaced ← attempt (Spool_Replace name d);
    mret match replaced with
         | None => None
         | Some _ => if bool_decide (e ≠ None) && String.eqb (PublicationError d) "" then None else Some d
         end
  end.

Fixpoint drain_names (names : list string) : relay bool :=
  match names with
  | [] => mret true
  | name :: names =>
    read ← attempt (Spool_Read name);
    match read with
    | None => mret false
    | Some d =>
      continue ← publish_pending name d;
      match continue with
      | None => mret false
      | Some d =>
        reported ← report name (resultFor d None);
        match reported with
        | Err _ => mret false
        | Ok _ =>
          removed ← attempt (Spool_Remove name);
          match removed with None => mret false | Some _ => drain_names names end
        end
      end
    end
  end.

Definition drain : relay bool :=
  names ← attempt Spool_Pending;
  match names with None => mret false | Some names => drain_names names end.

(** The discovery of a job that validates; what it asks of the plugin is noted. *)
Definition execute (job : RelayJob) : relay (go ObservationEnvelope) := relay_effect (λ i w,
  match In_ending i with
  | Dying => (Crashed, w)
  | _ =>
    let '(calls, r) := Execute parse_duration (Run_FileConfig config) (Run_Host config) (λ _ _, In_discovery i) (In_time i) job in
    (Done r, foldr (λ call, note (Discovered call.1 call.2)) w calls)
  end).

Definition runJob (job : RelayJob) : relay unit :=
  started ← clock;
  discovered ← match validateJob job with Ok _ => execute job | Err e => mret (Err e) end;
  completed ← clock;
  let delivery :=
    match discovered with
    | Ok o => mkPendingDelivery job (RelayID (Run_FileConfig config)) started completed (Some o) "" false 0 ""
    | Err e => mkPendingDelivery job (RelayID (Run_FileConfig config)) started completed None (truncate e maxResultErrorBytes) false 0 ""
    end in
  retained ← attempt (Spool_Enqueue delivery);
  match retained with
  | None => u ← report "" (resultFor delivery (Some "retain job result in encrypted spool: %w"%string)); mret tt
  | Some _ => u ← drain; mret tt
  end.

Fixpoint run_jobs (jobs : list RelayJob) : relay unit :=
  match jobs with [] => mret tt | job :: jobs => u ← runJob job; run_jobs jobs end.

Definition poll_request (now : time) : PollRequest :=
  let c := Run_FileConfig config in
  mkPollRequest ContractVersion (RelayID c) (SiteID c) (Run_Version config) (Capabilities c) now.

Definition poll : relay (result control_error (list RelayJob)) :=
  now ← clock;
  request (λ reply w,
      let w := note (PollSent (poll_request now)) w in
      match Client_Poll decode_jobs reply with Ok jobs => note (Polled jobs) w | Err _ => w end)
    (Client_Poll decode_jobs).

Definition cycle : relay unit :=
  drained ← drain;
  if negb drained then mret tt
  else
    jobs ← poll;
    match jobs with Err _ => mret tt | Ok jobs => run_jobs jobs end.

(** A history: one list of inputs for every cycle; a process that died starts again, and
    its sequence with it. *)
Definition after_cycle (w : RelayWorld) (inputs : list Input) : RelayWorld :=
  match cycle inputs w with
  | (Crashed, _, w) => mkRelayWorld (Relay_files w) 0 (Relay_log w)
  | (_, _, w) => w
  end.
Definition relay_history (w : RelayWorld) (h : list (list Input)) : RelayWorld := foldl after_cycle w h.
End relay.
