(* ===== verification/RelaySafety.v ===== *)
(** * What the relay reports, and in which order

    The laws of the relay's codec, the invariant of its directory and log, and the
    theorems over all histories of cycles that fail or die at any effect. *)

From S2P Require Import Prelude Effects Bytes Text Time Model SpoolDir Servicenow Publish Discovery Relay RelayRun.

(** A delivery as JSON gives it back: texts and observations may be respelled. *)
Definition respell_job (f : string → string) (j : RelayJob) : RelayJob :=
  mkRelayJob (f (RelayJob_JobID j)) (f (RelayJob_Type j)) (f (RelayJob_ProfileID j)) (RelayJob_RequestedAt j).
Definition respelled (f : string → string) (g : ObservationEnvelope → ObservationEnvelope) (d : PendingDelivery) : PendingDelivery :=
  mkPendingDelivery (respell_job f (Delivery_Job d)) (f (Delivery_RelayID d)) (StartedAt d) (CompletedAt d) (g <$> Observation d)
    (f (DiscoveryError d)) (Delivery_Published d) (PublishAttempts d) (f (PublicationError d)).

(** [encoding/json] spells invalid UTF-8 as the replacement character, which is a
    projection and keeps what is empty; a ciphertext opens, a cut one does not. *)
Class DeliveryLaws (C : SpoolCodec PendingDelivery) := {
  respell : string → string;
  respell_envelope : ObservationEnvelope → ObservationEnvelope;
  respell_idem s : respell (respell s) = respell s;
  respell_empty s : respell s = ""%string ↔ s = ""%string;
  respell_envelope_idem o : respell_envelope (respell_envelope o) = respell_envelope o;
  read_back d : unmarshal (marshal d) = Some (respelled respell respell_envelope d);
  open_whole nonce p : open (seal nonce p) = Some p;
  open_cut nonce p k : (k < String.length (seal nonce p))%nat → open (take_string k (seal nonce p)) = None;
}.

(** ** The log *)

(** The retained results whose reports are still owed. *)
Fixpoint outstanding (log : list relay_event) : list string :=
  match log with
  | [] => []
  | Stored name _ :: log => name :: outstanding log
  | Reported name _ true :: log => filter (λ n, n ≠ name) (outstanding log)
  | _ :: log => outstanding log
  end.

(** The report is about an observation that was accepted before. *)
Definition published_before (r : RelayResult) (earlier : list relay_event) : Prop :=
  ∃ name o, PublishSent name o true ∈ earlier ∧ Result_ObservationID r = Envelope_ObservationID o ∧
    Result_Assets r = llen (Envelope_Assets o) ∧ Result_Relationships r = llen (Envelope_Relationships o).

Definition event_sound (e : relay_event) (earlier : list relay_event) : Prop :=
  match e with
  | Reported _ r _ => Result_Success r = true → published_before r earlier
  | PollSent _ | Polled _ | Stored _ _ => outstanding earlier = []
  | _ => True
  end.
Fixpoint log_sound (log : list relay_event) : Prop :=
  match log with [] => True | e :: log => event_sound e log ∧ log_sound log end.

Lemma log_sound_at later e earlier : log_sound (later ++ e :: earlier) → event_sound e earlier.
Proof. induction later as [|x later IH]; simpl; [by intros [? _]|]. intros [_ Hl]. by apply IH. Qed.

Lemma has_suffix_prepend p s x : has_suffix s x = true → has_suffix (p +:+ s)%string x = true.
Proof.
  unfold has_suffix. rewrite !andb_true_iff, !Nat.leb_le, string_length_app. intros [Hl Heq]. split; [lia|].
  replace (String.length p + String.length s - String.length x)%nat with (String.length p + (String.length s - String.length x))%nat by lia.
  rewrite <-Heq. f_equal. clear. induction p as [|c p IH]; [done|]. rewrite string_app_cons. exact IH.
Qed.

Lemma tmp_path name : relay_entryPath name = true → relay_entryPath (relay_tmp name) = true.
Proof.
  unfold relay_entryPath, path_ok, relay_tmp. rewrite !andb_true_iff, !negb_true_iff, !contains_byte_free, !free_of_app.
  intros [[H1 H2] H3]. split_and!; try done. by apply has_suffix_prepend.
Qed.

(** ** The invariant *)

Section safety.
Context `{ObservationPublisher} `{HC : SpoolCodec PendingDelivery} `{!DeliveryLaws HC}.
Variable parse_duration : string → option duration.
Variable decode_jobs : string → option (list RelayJob).
Variable config : RelayRunConfig.
Variable quiet : Input.

Definition accepted_in (log : list relay_event) (o : ObservationEnvelope) : Prop := ∃ name, PublishSent name o true ∈ log.

(** What is marked as published was accepted. *)
Definition delivery_sound (log : list relay_event) (d : PendingDelivery) : Prop :=
  Delivery_Published d = true → ∃ o, Observation d = Some o ∧ accepted_in log (respell_envelope o).
Definition file_sound (log : list relay_event) (c : string) : Prop :=
  open c = None ∨ ∃ nonce d, c = seal nonce (marshal d) ∧ delivery_sound log d.

Record RelayInv (w : RelayWorld) : Prop := {
  inv_names : map_Forall (λ name _, relay_entryPath name = true) (Relay_files w);
  inv_files : map_Forall (λ _ c, file_sound (Relay_log w) c) (Relay_files w);
  inv_outstanding : ∀ name, name ∈ outstanding (Relay_log w) → is_Some (Relay_files w !! name) ∧ has_prefix name "." = false;
  inv_log : log_sound (Relay_log w);
}.

(** All files are among [names]. *)
Definition Left (names : list string) (w : RelayWorld) : Prop := RelayInv w ∧ ∀ name, is_Some (Relay_files w !! name) → name ∈ names.

Lemma delivery_sound_mono e log d : delivery_sound log d → delivery_sound (e :: log) d.
Proof. intros Hd Hp. destruct (Hd Hp) as (o&Ho&name&Hin). exists o. split; [done|]. exists name. by right. Qed.
Lemma file_sound_mono e log c : file_sound log c → file_sound (e :: log) c.
Proof. intros [Ho|(n&d&->&Hd)]; [by left|]. right. exists n, d. split; [done|]. by apply delivery_sound_mono. Qed.

(** Events that retain nothing new. *)
Lemma Inv_note e w : RelayInv w → event_sound e (Relay_log w) → (∀ name, name ∈ outstanding (e :: Relay_log w) → name ∈ outstanding (Relay_log w)) → RelayInv (note e w).
Proof.
  intros [Hn Hf Ho Hl] He Hsub. split; simpl; [done| |intros name Hin; by apply Ho, Hsub|done].
  eapply map_Forall_impl; [exact Hf|]. intros name c. apply file_sound_mono.
Qed.

Lemma Inv_write name c w : RelayInv w → relay_entryPath name = true → file_sound (Relay_log w) c → RelayInv (set_files (<[name := c]> (Relay_files w)) w).
Proof.
  intros [Hn Hf Ho Hl] Hp Hc. split; simpl; [by apply map_Forall_insert_2|by apply map_Forall_insert_2| |done].
  intros k Hk. destruct (Ho k Hk) as [Hs Hd]. split; [|done]. destruct (decide (name = k)) as [->|]; [rewrite lookup_insert_eq; by eexists|].
  by rewrite lookup_insert_ne.
Qed.

Lemma Inv_delete name w : RelayInv w → name ∉ outstanding (Relay_log w) → RelayInv (set_files (delete name (Relay_files w)) w).
Proof.
  intros [Hn Hf Ho Hl] Hp. split; simpl; [by apply map_Forall_delete|by apply map_Forall_delete| |done].
  intros k Hk. rewrite lookup_delete_ne by congruence. by apply Ho.
Qed.

(** A temporary file is nobody's retained result. *)
Lemma tmp_not_outstanding name w : RelayInv w → relay_tmp name ∉ outstanding (Relay_log w).
Proof. intros [_ _ Ho _] (_&Hp)%Ho. by destruct name. Qed.

Lemma file_sound_cut log nonce d k : delivery_sound log d → file_sound log (take_string k (seal nonce (marshal d))).
Proof.
  intros Hd. destruct (decide (k < String.length (seal nonce (marshal d)))%nat) as [Hk|Hk]; [left; by apply open_cut|].
  right. exists nonce, d. split; [|done]. apply take_string_all. lia.
Qed.

(** ** The effects *)

Lemma Left_Inv names w : Left names w → RelayInv w.
Proof. by intros [? _]. Qed.

Lemma triple_Pending : triple RelayInv (Spool_Pending quiet) Left RelayInv.
Proof.
  apply triple_input. intros i w Hw. destruct (In_ending i); [|done..]. split; [done|]. intros name Hname. apply elem_of_listing. split; [done|].
  destruct Hname as [c Hc]. pose proof (inv_names w Hw name c Hc) as Hp. unfold relay_entryPath, path_ok in Hp. by apply andb_true_iff in Hp as [_ ?].
Qed.

(** What is read was written by the relay, and comes back the same way every time. *)
Definition delivery_read (log : list relay_event) (d : PendingDelivery) : Prop :=
  delivery_sound log d ∧ ∀ o, Observation d = Some o → respell_envelope o = o.

Lemma read_entry_sound name w d : RelayInv w → read_entry name (Relay_files w) = Ok d → delivery_read (Relay_log w) d ∧ relay_entryPath name = true.
Proof.
  intros Hw. unfold read_entry. destruct (relay_entryPath name); [|done]. simpl. destruct (Relay_files w !! name) as [c|] eqn:Hc; [|done].
  destruct (maxRelayFileBytes <? slen c); [done|]. destruct (inv_files w Hw name c Hc) as [->|(n&d0&->&Hd)]; [done|].
  rewrite open_whole, read_back. intros [= <-]. split; [|done]. split.
  - intros Hp. destruct (Hd Hp) as (o&Ho&name'&Hin). simpl. rewrite Ho. exists (respell_envelope o). split; [done|].
    exists name'. by rewrite respell_envelope_idem.
  - intros o Ho. simpl in Ho. destruct (Observation d0) as [o0|]; [|done]. simpl in Ho. injection Ho as <-. apply respell_envelope_idem.
Qed.

Lemma triple_Read names name :
  triple (Left names) (Spool_Read quiet name) (λ d w, (Left names w ∧ delivery_read (Relay_log w) d) ∧ relay_entryPath name = true) RelayInv.
Proof.
  apply triple_input. intros i w Hw. destruct (In_ending i); [|by apply Left_Inv in Hw..].
  destruct (read_entry name (Relay_files w)) as [d|] eqn:Hr; [|by apply Left_Inv in Hw]. apply read_entry_sound in Hr as [? ?]; [done|by apply Left_Inv in Hw].
Qed.

Lemma triple_write (P Q : RelayWorld → Prop) name d replaced renamed :
  relay_entryPath name = true → (∀ w, P w → RelayInv w ∧ delivery_sound (Relay_log w) d) →
  (∀ w c, P w → file_sound (Relay_log w) c → Q (renamed (set_files (<[name := c]> (delete (relay_tmp name) (Relay_files w))) w))) →
  (∀ w, Q w → RelayInv w) →
  triple P (writeLocked config quiet name d replaced renamed) (λ _, Q) RelayInv.
Proof.
  intros Hp HP HQ HE. apply triple_input. intros i w Hw. destruct (HP w Hw) as [Hinv Hd].
  destruct (maxRelayEntryBytes <? slen (marshal d)); [done|]. cbv zeta. destruct (Run_maxBytes config <? totalBytes w - replaced + slen (seal (nonce (In_env i)) (marshal d))); [done|].
  assert (file_sound (Relay_log w) (seal (nonce (In_env i)) (marshal d))) as Hs by (right; by eexists _, d).
  destruct (In_cut i) as [k|].
  - assert (RelayInv (set_files (<[relay_tmp name := take_string k (seal (nonce (In_env i)) (marshal d))]> (Relay_files w)) w)) as Ht.
    { apply Inv_write; [done|by apply tmp_path|by apply file_sound_cut]. }
    by destruct (In_ending i).
  - destruct (In_ending i); [by apply HQ|by apply Inv_delete, tmp_not_outstanding|by eapply HE, HQ].
Qed.

Lemma triple_stat names name (X : RelayWorld → Prop) : triple (λ w, Left names w ∧ X w) (stat quiet name) (λ _ w, (Left names w ∧ X w) ∧ is_Some (Relay_files w !! name)) RelayInv.
Proof.
  apply triple_input. intros i w [Hw HX]. pose proof (Left_Inv _ _ Hw). destruct (In_ending i), (Relay_files w !! name) as [c|] eqn:E; try done.
Qed.

Lemma triple_Replace names name d : relay_entryPath name = true →
  triple (λ w, Left (name :: names) w ∧ delivery_sound (Relay_log w) d) (Spool_Replace config quiet name d)
    (λ _ w, Left (name :: names) w ∧ delivery_sound (Relay_log w) d) RelayInv.
Proof.
  intros Hp. unfold Spool_Replace. rewrite Hp. eapply triple_bind; [apply triple_stat|]. intros size. cbv beta.
  apply (triple_write _ (λ w, Left (name :: names) w ∧ delivery_sound (Relay_log w) d)); [done| | |].
  - intros w [[[Hw _] Hd] _]. by split.
  - intros w c [[[Hw Hl] Hd] Hin] Hc. split; [|done]. split.
    + assert (RelayInv (set_files (delete (relay_tmp name) (Relay_files w)) w)) as H1 by by apply Inv_delete, tmp_not_outstanding.
      by apply (Inv_write name c _ H1).
    + simpl. intros k Hk. destruct (decide (name = k)) as [->|]; [by left|]. rewrite lookup_insert_ne in Hk by done.
      apply Hl. destruct (decide (relay_tmp name = k)) as [<-|]; [rewrite lookup_delete_eq in Hk; by destruct Hk|]. by rewrite lookup_delete_ne in Hk.
  - by intros w [Hw%Left_Inv _].
Qed.

Lemma triple_Remove names name : relay_entryPath name = true →
  triple (λ w, Left (name :: names) w ∧ name ∉ outstanding (Relay_log w)) (Spool_Remove quiet name) (λ _, Left names) RelayInv.
Proof.
  intros Hp. unfold Spool_Remove. rewrite Hp. apply triple_input. intros i w [[Hw Hl] Hno].
  assert (Left names (set_files (delete name (Relay_files w)) w)) as Hdel.
  { split; [by apply Inv_delete|]. simpl. intros k Hk. destruct (decide (name = k)) as [->|]; [rewrite lookup_delete_eq in Hk; by destruct Hk|].
    rewrite lookup_delete_ne in Hk by done. apply Hl, elem_of_cons in Hk as [->|]; done. }
  destruct (In_cut i), (In_ending i); try done. by apply Left_Inv in Hdel.
Qed.

Lemma triple_request {A} (P : RelayWorld → Prop) sent (answer : outcome → A) (Q : A → RelayWorld → Prop) (E : RelayWorld → Prop) :
  (∀ w, P w → E w) → (∀ w reply, P w → Q (answer reply) (sent reply w)) → (∀ a w, Q a w → E w) → triple P (request quiet sent answer) Q E.
Proof.
  intros HP HQ HE. apply triple_input. intros i w Hw. destruct (In_ending i), (In_cut i); auto; by eapply HE, HQ.
Qed.

Lemma Left_note e names w : Left names w → event_sound e (Relay_log w) → (∀ name, name ∈ outstanding (e :: Relay_log w) → name ∈ outstanding (Relay_log w)) → Left names (note e w).
Proof. intros [Hw Hl] He Ho. split; [by apply Inv_note|done]. Qed.

Lemma after_publish_sound d e log name o : needs_publishing d = Some o → delivery_read log d →
  delivery_read (PublishSent name o (bool_decide (e = None)) :: log) (after_publish d e).
Proof.
  unfold needs_publishing. destruct (Observation d) as [o'|] eqn:Ho; [|done]. simpl. destruct (Delivery_Published d) eqn:Hp; [done|]. simpl.
  destruct (String.eqb (PublicationError d) ""); [|done]. intros [= ->] [_ Hfix]. split.
  - destruct e as [e|]; unfold delivery_sound; simpl; [by rewrite Hp|]. intros _. exists o. split; [done|].
    exists name. rewrite Hfix by done. left.
  - intros o1. destruct e; simpl; apply Hfix.
Qed.

(** A delivery after its publication step. *)
Lemma triple_publish names name d : relay_entryPath name = true →
  triple (λ w, Left (name :: names) w ∧ delivery_read (Relay_log w) d) (publish_pending config quiet name d)
    (λ r w, match r with
            | Some d' => (Left (name :: names) w ∧ delivery_sound (Relay_log w) d') ∧ (∀ o, Observation d' = Some o → respell_envelope o = o)
            | None => RelayInv w
            end) RelayInv.
Proof.
  intros Hp. unfold publish_pending. destruct (needs_publishing d) as [o|] eqn:Hneed.
  2:{ apply triple_ret. intros w [Hw [Hd Hf]]. done. }
  eapply (triple_bind _ _ _ (λ e w, (Left (name :: names) w ∧ delivery_read (Relay_log w) (after_publish d e)))).
  { apply triple_request; [by intros w [Hw%Left_Inv _]| |by intros e w [Hw%Left_Inv _]].
    intros w reply [Hw Hd]. split; [by apply Left_note|]. by apply after_publish_sound. }
  intros e. eapply (triple_bind _ _ _ (λ r w, match r with
    | Some _ => (Left (name :: names) w ∧ delivery_sound (Relay_log w) (after_publish d e)) ∧ (∀ o, Observation (after_publish d e) = Some o → respell_envelope o = o)
    | None => RelayInv w end)).
  - intros xs w [Hw [Hs Hf]].
    pose proof (triple_attempt _ _ _ _ (λ r w, match r with
      | Some _ => Left (name :: names) w ∧ delivery_sound (Relay_log w) (after_publish d e) | None => RelayInv w end) RelayInv
      (triple_Replace names name (after_publish d e) Hp) ltac:(done) ltac:(done) ltac:(done) xs w (conj Hw Hs)) as HT.
    destruct (attempt _ xs w) as [[[[r|]|m|] xs'] w']; done.
  - intros r. apply triple_ret. intros w Hr. destruct r as [u|]; [|done]. destruct (_ && _); [|done]. by destruct Hr as [[[Hw _] _] _].
Qed.

(** ** The run loop *)

Lemma result_success d : Result_Success (resultFor d None) = true → Delivery_Published d = true.
Proof.
  unfold resultFor. destruct (negb (String.eqb (DiscoveryError d) "")); [done|]. destruct (negb (String.eqb (PublicationError d) "")); [done|].
  by destruct (Delivery_Published d).
Qed.

Lemma report_sound log d name b : delivery_sound log d → (∀ o, Observation d = Some o → respell_envelope o = o) →
  event_sound (Reported name (resultFor d None) b) log.
Proof.
  intros Hs Hf Hok%result_success. destruct (Hs Hok) as (o&Ho&name'&Hin). rewrite Hf in Hin by done. exists name', o. split; [done|].
  unfold resultFor. rewrite Ho. by repeat case_match; simplify_eq.
Qed.

Lemma outstanding_reported name r b log n : n ∈ outstanding (Reported name r b :: log) → n ∈ outstanding log ∧ (b = true → n ≠ name).
Proof. destruct b; simpl; [|done]. by intros [? ?]%list_elem_of_filter. Qed.

Lemma triple_report names name d (Hf : ∀ o, Observation d = Some o → respell_envelope o = o) :
  triple (λ w, Left (name :: names) w ∧ delivery_sound (Relay_log w) d) (report quiet name (resultFor d None))
    (λ r w, Left (name :: names) w ∧ (is_ok r = true → name ∉ outstanding (Relay_log w))) RelayInv.
Proof.
  apply triple_request; [by intros w [Hw%Left_Inv _]| |by intros e w [Hw%Left_Inv _]]. intros w reply [Hw Hs]. split.
  - apply Left_note; [done|by apply report_sound|]. by intros n [? _]%outstanding_reported.
  - intros Hok [_ Hne]%outstanding_reported. by apply Hne.
Qed.

Lemma triple_drain_names names : triple (Left names) (drain_names config quiet names) (λ b w, RelayInv w ∧ (b = true → Relay_files w = ∅)) RelayInv.
Proof.
  induction names as [|name names IH]; cbn [drain_names].
  { apply triple_ret. intros w [Hw Hl]. split; [done|]. intros _. apply map_empty. intros k. destruct (Relay_files w !! k) eqn:E; [|done].
    specialize (Hl k). rewrite E in Hl. by destruct (not_elem_of_nil k (Hl ltac:(by eexists))). }
  eapply (triple_bind _ _ _ (λ r w, match r with Some d => (Left (name :: names) w ∧ delivery_read (Relay_log w) d) ∧ relay_entryPath name = true | None => RelayInv w end)).
  { eapply triple_attempt; [apply triple_Read|done..]. }
  intros [d|]; [|by apply triple_ret]. apply triple_pure. intros Hp. eapply triple_bind; [by apply triple_publish|]. intros [d'|]; [|by apply triple_ret].
  apply triple_pure. intros Hf. eapply triple_bind; [by apply triple_report|]. intros [u|]; [|apply triple_ret; by intros w [Hw%Left_Inv _]].
  eapply (triple_bind _ _ _ (λ r w, match r with Some _ => Left names w | None => RelayInv w end)).
  - eapply triple_attempt; [eapply triple_weaken; [by apply (triple_Remove names name)| |done|done]|done..].
    intros w [Hw Hno]. split; [done|]. by apply Hno.
  - intros [r|]; [exact IH|by apply triple_ret].
Qed.

Lemma triple_drain : triple RelayInv (drain config quiet) (λ b w, RelayInv w ∧ (b = true → Relay_files w = ∅)) RelayInv.
Proof.
  unfold drain. eapply (triple_bind _ _ _ (λ r w, match r with Some names => Left names w | None => RelayInv w end)).
  - eapply triple_attempt; [apply triple_Pending|done..].
  - intros [names|]; [apply triple_drain_names|by apply triple_ret].
Qed.

Definition Idle (w : RelayWorld) : Prop := RelayInv w ∧ Relay_files w = ∅.

Lemma Idle_outstanding w : Idle w → outstanding (Relay_log w) = [].
Proof.
  intros [Hw He]. destruct (outstanding (Relay_log w)) as [|n l] eqn:E; [done|].
  destruct (inv_outstanding w Hw n) as [Hs _]; [rewrite E; left|]. rewrite He, lookup_empty in Hs. by destruct Hs.
Qed.

Lemma Idle_note e w : Idle w → event_sound e (Relay_log w) → (∀ name, name ∈ outstanding (e :: Relay_log w) → name ∈ outstanding (Relay_log w)) → Idle (note e w).
Proof. intros [Hw He] Hs Ho. split; [by apply Inv_note|done]. Qed.

Lemma triple_clock : triple Idle (clock quiet) (λ _, Idle) RelayInv.
Proof. apply triple_input. intros i w Hw. destruct (In_ending i); [done..|]. apply Hw. Qed.

Lemma triple_execute job : triple Idle (execute parse_duration config quiet job) (λ _, Idle) RelayInv.
Proof.
  apply triple_input. intros i w Hw. destruct (In_ending i); [| |apply Hw];
    destruct (Execute _ _ _ _ _ _) as [calls r]; induction calls as [|call calls IH]; simpl; try done; by apply Idle_note.
Qed.

Lemma triple_Enqueue d : Delivery_Published d = false → triple Idle (Spool_Enqueue config quiet d) (λ _, RelayInv) RelayInv.
Proof.
  intros Hd. unfold Spool_Enqueue.
  eapply (triple_bind _ _ _ (λ name w, Idle w ∧ (relay_entryPath name = true ∧ has_prefix name "." = false))).
  - apply triple_input. intros i w [[Hn Hf Ho Hl] He].
    assert (Idle (mkRelayWorld (Relay_files w) (Relay_seq w + 1) (Relay_log w))) as Hi by (by split).
    destruct (In_ending i); try done; (split; [done|]); (split; [by apply dated_name_path_ok|by apply dated_name_no_prefix]).
  - intros name. apply triple_pure. intros [Hp Hdot]. apply (triple_write Idle RelayInv); [done| | |done].
    + intros w [Hw _]. split; [done|]. unfold delivery_sound. by rewrite Hd.
    + intros w c Hw Hc. pose proof (Idle_outstanding w Hw) as Hout. destruct Hw as [Hw He].
      assert (RelayInv (set_files (<[name:=c]> (delete (relay_tmp name) (Relay_files w))) w)) as [Hn1 Hf1 _ Hl1].
      { assert (RelayInv (set_files (delete (relay_tmp name) (Relay_files w)) w)) as H1 by by apply Inv_delete, tmp_not_outstanding.
        exact (Inv_write name c _ H1 Hp Hc). }
      split; simpl in *; [done| | |by split].
      * eapply map_Forall_impl; [exact Hf1|]. intros k c'. apply file_sound_mono.
      * intros k. rewrite Hout. intros ->%list_elem_of_singleton. split; [|done]. rewrite lookup_insert_eq. by eexists.
Qed.

Lemma resultFor_override d e : Result_Success (resultFor d (Some e)) = false.
Proof. done. Qed.

Lemma triple_runJob job : triple Idle (runJob parse_duration config quiet job) (λ _, RelayInv) RelayInv.
Proof.
  unfold runJob. eapply triple_bind; [apply triple_clock|]. intros started.
  eapply (triple_bind _ _ _ (λ _, Idle)).
  { destruct (validateJob job) as [u|e]; [apply triple_execute|by apply triple_ret]. }
  intros discovered. eapply triple_bind; [apply triple_clock|]. intros completed. cbv zeta. set (d := match discovered with Ok _ => _ | Err _ => _ end).
  assert (Delivery_Published d = false) as Hd by by destruct discovered.
  eapply (triple_bind _ _ _ (λ _, RelayInv)).
  { eapply triple_attempt; [by apply triple_Enqueue|done..]. }
  intros [r|].
  - eapply triple_bind; [apply triple_drain|]. intros b. apply triple_ret. by intros w [Hw _].
  - eapply (triple_bind _ _ _ (λ _, RelayInv)); [|intros r; by apply triple_ret].
    apply triple_request; [done| |done]. intros w reply Hw. apply Inv_note; [done|done|]. by intros n [? _]%outstanding_reported.
Qed.

Lemma Client_Poll_one reply jobs : Client_Poll decode_jobs reply = Ok jobs → (length jobs <= 1)%nat.
Proof.
  unfold Client_Poll. destruct (postJSON _ _ _) as [js|]; [|done]. simpl. destruct (Z.ltb_spec maxJobsPerPoll (llen js)) as [|Hl]; [done|].
  destruct (check_jobs js); [|done]. intros [= <-]. unfold llen, maxJobsPerPoll in Hl. lia.
Qed.

Lemma triple_poll : triple Idle (poll decode_jobs config quiet) (λ r w, Idle w ∧ match r with Ok jobs => (length jobs <= 1)%nat | Err _ => True end) RelayInv.
Proof.
  unfold poll. eapply triple_bind; [apply triple_clock|]. intros now. apply triple_request; [by intros w [Hw _]| |by intros r w [[Hw _] _]].
  intros w reply Hw. assert (Idle (note (PollSent (poll_request config now)) w)) as Hs by (apply Idle_note; [done|by apply Idle_outstanding|done]).
  destruct (Client_Poll decode_jobs reply) as [jobs|e] eqn:E; [|done]. split; [|by eapply Client_Poll_one].
  apply Idle_note; [done|by apply (Idle_outstanding _ Hs)|done].
Qed.

Lemma triple_cycle : triple RelayInv (cycle parse_duration decode_jobs config quiet) (λ _, RelayInv) RelayInv.
Proof.
  unfold cycle. eapply triple_bind; [apply triple_drain|]. intros [|]; [|apply triple_ret; by intros w [Hw _]].
  cbn [negb]. apply (triple_weaken Idle _ _ (λ _, RelayInv) _ RelayInv); [|intros w [Hw He]; split; [done|by apply He]|done..].
  eapply triple_bind; [apply triple_poll|]. intros [jobs|]; [|apply triple_ret; by intros w [[Hw _] _]].
  apply triple_pure. intros Hl. destruct jobs as [|job [|? ?]]; [by apply triple_ret; intros w [Hw _]| |simpl in Hl; lia].
  cbn [run_jobs]. eapply triple_bind; [apply triple_runJob|]. intros u. by apply triple_ret.
Qed.

Lemma history_Inv h : ∀ w, RelayInv w → RelayInv (relay_history parse_duration decode_jobs config quiet w h).
Proof.
  induction h as [|inputs h IH]; intros w Hw; [done|]. apply IH. unfold after_cycle. pose proof (triple_cycle inputs w Hw) as HT.
  destruct (cycle _ _ _ _ inputs w) as [[[u|e|] xs] w']; [done|done|]. destruct HT as [Hn Hf Ho Hl]. by split.
Qed.

Lemma Inv_start seq : RelayInv (mkRelayWorld ∅ seq []).
Proof. split; simpl; [apply map_Forall_empty|apply map_Forall_empty|by intros name ?%not_elem_of_nil|done]. Qed.

(** C6: the relay reports success only for what was published: whatever fails and wherever
    the process dies, in the log of any history a report of success, and its counts, are
    preceded by a publication of the same observation that was accepted. *)
Theorem success_means_published (h : list (list Input)) (later earlier : list relay_event) (name : string) (r : RelayResult) (b : bool) :
  Relay_log (relay_history parse_duration decode_jobs config quiet (mkRelayWorld ∅ 0 []) h) = later ++ Reported name r b :: earlier →
  Result_Success r = true → published_before r earlier.
Proof. intros Hlog. pose proof (inv_log _ (history_Inv h _ (Inv_start 0))) as Hs. rewrite Hlog in Hs. exact (log_sound_at _ _ _ Hs). Qed.

(** C15: one result at a time: whatever fails and wherever the process dies, the relay asks for
    a job, takes one on or retains a result only when every result it retained before has
    been reported and the report was accepted. *)
Theorem one_result_at_a_time (h : list (list Input)) (later earlier : list relay_event) (e : relay_event) :
  Relay_log (relay_history parse_duration decode_jobs config quiet (mkRelayWorld ∅ 0 []) h) = later ++ e :: earlier →
  match e with PollSent _ | Polled _ | Stored _ _ => outstanding earlier = [] | _ => True end.
Proof.
  intros Hlog. pose proof (inv_log _ (history_Inv h _ (Inv_start 0))) as Hs. rewrite Hlog in Hs. apply log_sound_at in Hs. by destruct e.
Qed.
End safety.

(** ** A concrete codec, and a history

    The cipher marks every byte and the end; texts and observations are respelled as one
    word and one observation each, and what is left is written in binary. *)

Fixpoint toy_seal (p : string) : string :=
  match p with EmptyString => "." | String c p => String "-" (String c (toy_seal p)) end%string.
Fixpoint toy_open (s : string) : option string :=
  match s with
  | String a EmptyString => if Ascii.eqb a "." then Some ""%string else None
  | String a (String b s) => if Ascii.eqb a "-" then String b <$> toy_open s else None
  | EmptyString => None
  end.

Lemma toy_open_seal p : toy_open (toy_seal p) = Some p.
Proof. induction p as [|c p IH]; [done|]. simpl. by rewrite IH. Qed.
Lemma toy_open_cut p : ∀ k, (k < String.length (toy_seal p))%nat → toy_open (take_string k (toy_seal p)) = None.
Proof.
  induction p as [|c p IH]; intros k Hk; simpl in Hk; [by assert (k = 0)%nat as -> by lia|].
  destruct k as [|[|k]]; [done..|]. simpl. rewrite IH by lia. done.
Qed.

Fixpoint bits_text (p : positive) : string :=
  match p with xH => "" | xO p => String "0" (bits_text p) | xI p => String "1" (bits_text p) end%string.
Fixpoint text_bits (s : string) : positive :=
  match s with EmptyString => xH | String c s => if Ascii.eqb c "0" then xO (text_bits s) else xI (text_bits s) end.
Lemma text_bits_text p : text_bits (bits_text p) = p.
Proof. induction p as [p IH|p IH|]; simpl; by rewrite ?IH. Qed.

Definition toy_word (b : bool) : string := if b then "x" else "".
Definition toy_filled (s : string) : bool := negb (String.eqb s "").
Definition toy_observation : ObservationEnvelope := mkObservationEnvelope "" "x" "" "" "" "" zero_time [] [] [] ∅.

Definition toy_code (d : PendingDelivery) : list bool * list Z :=
  let j := Delivery_Job d in
  ([toy_filled (RelayJob_JobID j); toy_filled (RelayJob_Type j); toy_filled (RelayJob_ProfileID j); toy_filled (Delivery_RelayID d);
    bool_decide (Observation d ≠ None); toy_filled (DiscoveryError d); negb (Delivery_Published d); negb (toy_filled (PublicationError d))],
   [RelayJob_RequestedAt j; StartedAt d; CompletedAt d; 256 * PublishAttempts d + 255]).
Definition toy_delivery (code : list bool * list Z) : option PendingDelivery :=
  match code with
  | ([id; type; profile; relay; obs; derr; pub; perr], [requested; started; completed; attempts]) =>
    Some (mkPendingDelivery (mkRelayJob (toy_word id) (toy_word type) (toy_word profile) requested) (toy_word relay) started completed
            (if obs : bool then Some toy_observation else None) (toy_word derr) (negb pub) ((attempts - 255) / 256) (toy_word (negb perr)))
  | _ => None
  end.

#[export] Instance toy_relay_codec : SpoolCodec PendingDelivery := {|
  seal _ p := toy_seal p;
  open := toy_open;
  marshal d := bits_text (encode (toy_code d));
  unmarshal s := decode (text_bits s) ≫= toy_delivery;
  json_faithful _ := True;
|}.

#[export] Instance toy_relay_laws : DeliveryLaws toy_relay_codec.
Proof.
  refine {| respell s := toy_word (toy_filled s); respell_envelope _ := toy_observation |}.
  - intros s. by destruct (toy_filled s).
  - intros s. unfold toy_filled. by destruct (String.eqb_spec s "").
  - done.
  - intros d. simpl. rewrite text_bits_text, decode_encode. simpl. unfold respelled, respell_job.
    rewrite !negb_involutive. replace ((256 * PublishAttempts d + 255 - 255) / 256) with (PublishAttempts d) by (rewrite Z.add_simpl_r, Z.mul_comm; by rewrite Z.div_mul).
    destruct d as [[id type profile requested] relay started completed [o|] derr pub attempts perr]; done.
  - intros n. exact toy_open_seal.
  - intros n. exact toy_open_cut.
Defined.

(** A publisher that accepts what is answered with 2xx and may be asked again otherwise. *)
#[export] Instance toy_publisher : ObservationPublisher := λ _ o,
  match o with responded 200 _ => None | _ => Some (PublishError true "unavailable") end.

Definition toy_run_config : RelayRunConfig := mkRelayRunConfig demo_config "1.0" Minute demo_host (2 ^ 20).
Definition toy_jobs (body : string) : option (list RelayJob) :=
  if String.eqb body "job" then Some [mkRelayJob "j1" "discover" "here" 0] else Some [].
Definition toy_input (e : ending) (cut : option nat) (o : outcome) : Input := mkInput e cut (mkSpoolEnv 7 "") 5 o (Ok toy_observation).
Definition toy_quiet : Input := toy_input Answered None (responded 200 (Some "")).
Definition toy_job_reply : Input := toy_input Answered None (responded 200 (Some "job"%string)).
Definition toy_dies : Input := toy_input Dying None (responded 200 (Some "")).

(** The process dies before it has noted that the publication was accepted; the next cycle
    publishes again and reports. *)
Definition toy_history : list (list Input) :=
  [[toy_quiet; toy_quiet; toy_job_reply] ++ replicate 8 toy_quiet ++ [toy_dies]; []].
Definition toy_world : RelayWorld := relay_history demo_durations toy_jobs toy_run_config toy_quiet (mkRelayWorld ∅ 0 []) toy_history.

Lemma success_means_published_witness :
  ∃ later name r b earlier, Relay_log toy_world = later ++ Reported name r b :: earlier ∧ Result_Success r = true ∧ published_before r earlier.
Proof.
  assert (∃ later name r b earlier, Relay_log toy_world = later ++ Reported name r b :: earlier ∧ Result_Success r = true) as (later&name&r&b&earlier&Hlog&Hok).
  { eexists [_; _], _, _, _, _. split; [vm_compute; reflexivity|reflexivity]. }
  exists later, name, r, b, earlier. split; [exact Hlog|]. split; [exact Hok|].
  exact (success_means_published demo_durations toy_jobs toy_run_config toy_quiet toy_history later earlier name r b Hlog Hok).
Defined.

Lemma one_result_at_a_time_witness :
  ∃ later jobs earlier, Relay_log toy_world = later ++ Polled jobs :: earlier ∧ length earlier = 8%nat ∧ outstanding earlier = [].
Proof.
  assert (∃ later jobs earlier, Relay_log toy_world = later ++ Polled jobs :: earlier ∧ length earlier = 8%nat) as (later&jobs&earlier&Hlog&Hlen).
  { eexists [], _, _. split; [vm_compute; reflexivity|reflexivity]. }
  exists later, jobs, earlier. split; [exact Hlog|]. split; [exact Hlen|].
  exact (one_result_at_a_time demo_durations toy_jobs toy_run_config toy_quiet toy_history later earlier (Polled jobs) Hlog).
Defined.
