(* ===== verification/RelayLive.v ===== *)
(** * When the relay goes on, and when it does not

    An undisturbed cycle delivers everything that is pending; an entry that cannot be
    read, or whose progress does not fit into the spool, stops the relay. *)

From S2P Require Import Prelude Effects Bytes Text Time Model SpoolDir Servicenow Publish Discovery Relay RelayRun RelaySafety.

Section live.
Context `{HP : ObservationPublisher} `{HC : SpoolCodec PendingDelivery}.
Variable parse_duration : string → option duration.
Variable decode_jobs : string → option (list RelayJob).
Variable config : RelayRunConfig.
Variable quiet : Input.
Abbreviation history := (relay_history parse_duration decode_jobs config quiet).
Abbreviation bound := (Run_maxBytes config).

Lemma after_cycle_drain inputs w (w' : RelayWorld) xs r :
  drain config quiet inputs w = (r, xs, w') → r ≠ Done true →
  after_cycle parse_duration decode_jobs config quiet w inputs = match r with Crashed => mkRelayWorld (Relay_files w') 0 (Relay_log w') | _ => w' end.
Proof.
  intros Hd Hr. unfold after_cycle, cycle, mbind, prog_bind. rewrite Hd. destruct r as [[|]|e|]; done.
Qed.

(** ** An entry that cannot be read *)

Lemma unreadable_drain name names w inputs : listing relay_pending (Relay_files w) = name :: names → is_ok (read_entry name (Relay_files w)) = false →
  ∃ r xs, drain config quiet inputs w = (r, xs, w) ∧ r ≠ Done true.
Proof.
  intros Hl Hr. unfold drain, Spool_Pending, relay_effect, attempt, with_input, mbind, prog_bind.
  destruct (In_ending (hd quiet inputs)); [|by do 2 eexists..]. rewrite Hl. cbn [drain_names]. unfold Spool_Read, relay_effect, attempt, with_input, mbind, prog_bind.
  destruct (In_ending (hd quiet (tl inputs))); [|by do 2 eexists..]. destruct (read_entry name (Relay_files w)); [done|]. by do 2 eexists.
Qed.

(** One entry that cannot be read stops the relay for good: if the first pending file
    does not open or decode, as after a write that was cut, then no cycle, whatever its
    inputs, publishes, reports or asks for anything any more, or changes the directory. *)
Theorem unreadable_entry_blocks_relay (name : string) (names : list string) (w : RelayWorld) (h : list (list Input)) :
  listing relay_pending (Relay_files w) = name :: names → is_ok (read_entry name (Relay_files w)) = false →
  Relay_files (history w h) = Relay_files w ∧ Relay_log (history w h) = Relay_log w.
Proof.
  intros Hl Hr. revert w Hl Hr. induction h as [|inputs h IH]; intros w Hl Hr; [done|]. cbn [relay_history foldl].
  destruct (unreadable_drain name names w inputs Hl Hr) as (r&xs&Hd&Hne). rewrite (after_cycle_drain _ _ _ _ _ Hd Hne).
  destruct r; [by apply IH..|]. destruct (IH (mkRelayWorld (Relay_files w) 0 (Relay_log w)) Hl Hr). done.
Qed.

(** ** An entry whose progress does not fit *)

(** No state after a publication attempt fits into the spool. *)
Definition no_room (name : string) (m : gmap string string) (d : PendingDelivery) : Prop :=
  ∃ c, m !! name = Some c ∧ ∀ n e, bound < size_of m - slen c + slen (seal n (marshal (after_publish d e))).

Lemma no_room_Replace name d e w xs : no_room name (Relay_files w) d →
  ∃ r xs', attempt (Spool_Replace config quiet name (after_publish d e)) xs w = (r, xs', w) ∧ (∀ u, r ≠ Done (Some u)) ∧
    (In_ending quiet = Answered → xs = [] → r = Done None ∧ xs' = []).
Proof.
  intros (c&Hc&Hroom). unfold attempt, Spool_Replace. destruct (relay_entryPath name); [|unfold lift; by do 2 eexists].
  unfold stat, relay_effect, with_input, mbind, prog_bind. rewrite Hc.
  destruct (In_ending (hd quiet xs)) eqn:He.
  - unfold writeLocked, relay_effect, with_input. destruct (maxRelayEntryBytes <? _); [do 2 eexists; split_and!; [done..|by intros _ ->]|].
    cbv zeta. unfold totalBytes. rewrite (proj2 (Z.ltb_lt _ _)) by apply Hroom. do 2 eexists. split_and!; [done..|by intros _ ->].
  - do 2 eexists. split_and!; [done..|intros Hq ->; simpl in He; congruence].
  - do 2 eexists. split_and!; [done..|intros Hq ->; simpl in He; congruence].
Qed.

Definition publishes (name : string) (o : ObservationEnvelope) (e : relay_event) : Prop := ∃ b, e = PublishSent name o b.
Definition quiet_publication (name : string) (o : ObservationEnvelope) : relay_event :=
  PublishSent name o (bool_decide (Publish_answer [o] (In_reply quiet) = None)).

Lemma no_room_publish name d o w xs : needs_publishing d = Some o → no_room name (Relay_files w) d →
  ∃ r xs' l, publish_pending config quiet name d xs w = (r, xs', mkRelayWorld (Relay_files w) (Relay_seq w) (l ++ Relay_log w)) ∧
    (∀ d', r ≠ Done (Some d')) ∧ Forall (publishes name o) l ∧
    (In_ending quiet = Answered → xs = [] → r = Done None ∧ xs' = [] ∧ l = [quiet_publication name o]).
Proof.
  intros Hneed Hroom. unfold publish_pending. rewrite Hneed. unfold publish, request, relay_effect, with_input, mbind, prog_bind.
  set (reply := In_reply (hd quiet xs)). set (ev := PublishSent name o (bool_decide (Publish_answer [o] reply = None))).
  assert (publishes name o ev) as Hev by by eexists.
  assert (∃ r xs', (match attempt (Spool_Replace config quiet name (after_publish d (Publish_answer [o] reply))) (tl xs) (note ev w) with
     | (Done a, zs, w0) => (mret match a with Some _ => if bool_decide (Publish_answer [o] reply ≠ None) && String.eqb (PublicationError (after_publish d (Publish_answer [o] reply))) "" then None else Some (after_publish d (Publish_answer [o] reply)) | None => None end : relay _) zs w0
     | (Failed e0, zs, w0) => (Failed e0, zs, w0) | (Crashed, zs, w0) => (Crashed, zs, w0) end) = (r, xs', note ev w) ∧ (∀ d', r ≠ Done (Some d')) ∧
     (In_ending quiet = Answered → xs = [] → r = Done None ∧ xs' = [])) as (r&xs'&Hrun&Hne&Hquiet).
  { destruct (no_room_Replace name d (Publish_answer [o] reply) (note ev w) (tl xs) Hroom) as (r&xs'&->&Hne&Hquiet).
    destruct r as [[u|]|m|]; [by destruct (Hne u)|do 2 eexists; split_and!; try done..]; intros Hq ->; by destruct (Hquiet Hq eq_refl). }
  destruct (In_ending (hd quiet xs)) eqn:He; [|destruct (In_cut (hd quiet xs))..];
    try (exists r, xs', [ev]; split; [exact Hrun|]; split_and!; [done|by repeat constructor|intros Hq ->; by destruct (Hquiet Hq eq_refl) as [-> ->]]).
  - exists Crashed, (tl xs), []. split; [by destruct w|]. split_and!; [done|constructor|]. intros Hq ->. simpl in He. congruence.
  - exists Crashed, (tl xs), [ev]. split; [done|]. split_and!; [done|by repeat constructor|]. intros Hq ->. simpl in He. congruence.
Qed.

Lemma no_room_drain name names d o w inputs :
  listing relay_pending (Relay_files w) = name :: names → read_entry name (Relay_files w) = Ok d → needs_publishing d = Some o →
  no_room name (Relay_files w) d →
  ∃ r xs l, drain config quiet inputs w = (r, xs, mkRelayWorld (Relay_files w) (Relay_seq w) (l ++ Relay_log w)) ∧ r ≠ Done true ∧
    Forall (publishes name o) l ∧ (In_ending quiet = Answered → inputs = [] → r = Done false ∧ l = [quiet_publication name o]).
Proof.
  intros Hl Hr Hneed Hroom.
  assert (∀ (r : completion bool) (xs : list Input), r ≠ Done true → (inputs = [] → In_ending quiet ≠ Answered) →
    ∃ (r' : completion bool) (xs' : list Input) l, (r, xs, w) = (r', xs', mkRelayWorld (Relay_files w) (Relay_seq w) (l ++ Relay_log w)) ∧ r' ≠ Done true ∧
    Forall (publishes name o) l ∧ (In_ending quiet = Answered → inputs = [] → r' = Done false ∧ l = [quiet_publication name o])) as Hstop.
  { intros r xs Hne Hi. exists r, xs, []. split; [by destruct w|]. split_and!; [done|constructor|]. intros Hq Hin. by destruct (Hi Hin). }
  unfold drain, Spool_Pending, relay_effect, attempt, with_input. unfold mbind at 1, prog_bind at 1.
  destruct (In_ending (hd quiet inputs)) eqn:H1; [|apply Hstop; [done|by intros ->; simpl in H1; congruence]..]. rewrite Hl. cbn [drain_names].
  unfold Spool_Read, relay_effect, attempt, with_input. unfold mbind at 1, prog_bind at 1. rewrite Hr.
  destruct (In_ending (hd quiet (tl inputs))) eqn:H2; [|apply Hstop; [done|by intros ->; simpl in H2; congruence]..].
  unfold mbind at 1, prog_bind at 1. destruct (no_room_publish name d o w (tl (tl inputs)) Hneed Hroom) as (r&xs'&l&->&Hne&Hall&Hquiet).
  destruct r as [[d'|]|m|]; [by destruct (Hne d')|..]; eexists _, _, l; split_and!; try done; intros Hq ->; by destruct (Hquiet Hq eq_refl) as (?&_&?).
Qed.

(** A spool without room to note progress publishes for ever: if the first pending entry
    waits for publication and no state after an attempt fits, then whatever happens nothing
    is ever reported, retained or asked for again and the directory stays as it is, and
    every undisturbed cycle publishes the same observation once more: accepted or not, and
    however often it was tried. *)
Theorem full_spool_republishes_forever (name : string) (names : list string) (d : PendingDelivery) (o : ObservationEnvelope) (w : RelayWorld) :
  listing relay_pending (Relay_files w) = name :: names → read_entry name (Relay_files w) = Ok d → needs_publishing d = Some o →
  no_room name (Relay_files w) d → In_ending quiet = Answered →
  (∀ h, ∃ l, Relay_files (history w h) = Relay_files w ∧ Relay_log (history w h) = l ++ Relay_log w ∧ Forall (publishes name o) l) ∧
  (∀ n, ∃ b, Relay_log (history w (replicate n [])) = replicate n (PublishSent name o b) ++ Relay_log w).
Proof.
  intros Hl Hr Hneed Hroom Hq. split.
  - intros h. revert w Hl Hr Hroom. induction h as [|inputs h IH]; intros w Hl Hr Hroom; [by exists []; repeat constructor|]. cbn [relay_history foldl].
    destruct (no_room_drain name names d o w inputs Hl Hr Hneed Hroom) as (r&xs&l&Hd&Hne&Hall&_). rewrite (after_cycle_drain _ _ _ _ _ Hd Hne).
    assert (∀ seq, ∃ l', Relay_files (history (mkRelayWorld (Relay_files w) seq (l ++ Relay_log w)) h) = Relay_files w ∧
      Relay_log (history (mkRelayWorld (Relay_files w) seq (l ++ Relay_log w)) h) = l' ++ l ++ Relay_log w ∧ Forall (publishes name o) l') as Hgo.
    { intros seq. exact (IH (mkRelayWorld (Relay_files w) seq (l ++ Relay_log w)) Hl Hr Hroom). }
    destruct r; [destruct (Hgo (Relay_seq w)) as (l'&Hf&Hlog&Hall')..|destruct (Hgo 0) as (l'&Hf&Hlog&Hall')];
      exists (l' ++ l); (split; [exact Hf|]); (split; [by rewrite <-app_assoc|by apply Forall_app]).
  - intros n. exists (bool_decide (Publish_answer [o] (In_reply quiet) = None)). fold (quiet_publication name o). revert w Hl Hr Hroom. induction n as [|n IH]; intros w Hl Hr Hroom; [done|]. cbn [relay_history foldl replicate].
    destruct (no_room_drain name names d o w [] Hl Hr Hneed Hroom) as (r&xs&l&Hd&Hne&_&Hquiet). destruct (Hquiet Hq eq_refl) as [-> ->].
    rewrite (after_cycle_drain _ _ _ _ _ Hd Hne).
    etrans; [exact (IH (mkRelayWorld (Relay_files w) (Relay_seq w) ([quiet_publication name o] ++ Relay_log w)) Hl Hr Hroom)|].
    cbn [Relay_log app]. by rewrite cons_middle, app_assoc, <-replicate_cons_app.
Qed.

(** ** An undisturbed cycle *)

(** An entry that reads, and whose publication can be noted within the bound. *)
Definition ready (name : string) (m : gmap string string) : Prop :=
  ∃ c d, m !! name = Some c ∧ read_entry name m = Ok d ∧ m !! relay_tmp name = None ∧
    (is_Some (needs_publishing d) → slen (marshal (after_publish d None)) <= maxRelayEntryBytes ∧
       size_of m - slen c + slen (seal (nonce (In_env quiet)) (marshal (after_publish d None))) <= bound).

(** The server answers and accepts, and has no job. *)
Record favourable : Prop := {
  fav_ending : In_ending quiet = Answered;
  fav_cut : In_cut quiet = None;
  fav_publish : ∀ o, Publish_answer [o] (In_reply quiet) = None;
  fav_report : Client_Report (In_reply quiet) = Ok tt;
  fav_poll : Client_Poll decode_jobs (In_reply quiet) = Ok [];
}.

Definition acknowledged (d : PendingDelivery) : RelayResult :=
  resultFor (if needs_publishing d is Some _ then after_publish d None else d) None.

Lemma ready_delete name name' m : name ≠ name' → ready name m → ready name (delete name' m).
Proof.
  intros Hne (c&d&Hc&Hr&Ht&Hroom). exists c, d. rewrite lookup_delete_ne by done. split; [done|].
  split; [unfold read_entry; by rewrite lookup_delete_ne|]. split; [apply lookup_delete_None; by right|].
  intros Hn. destruct (Hroom Hn) as [? Hb]. split; [done|]. etrans; [|exact Hb]. apply Z.add_le_mono_r, Z.sub_le_mono_r, size_of_delete_le.
Qed.

Section undisturbed.
Context (Hfav : favourable).

Lemma runs_effect' {A} (f : Input → RelayWorld → completion A * RelayWorld) w a w' : f quiet w = (Done a, w') → runs (relay_effect quiet f) w a w'.
Proof. apply runs_input. Qed.

Lemma read_entry_path name m d : read_entry name m = Ok d → relay_entryPath name = true.
Proof. unfold read_entry. by destruct (relay_entryPath name). Qed.

Lemma runs_publish name w c d : Relay_files w !! name = Some c → read_entry name (Relay_files w) = Ok d → ready name (Relay_files w) →
  ∃ w', runs (publish_pending config quiet name d) w (Some (if needs_publishing d is Some _ then after_publish d None else d)) w' ∧
    delete name (Relay_files w') = delete name (Relay_files w) ∧ (∃ l, Relay_log w' = l ++ Relay_log w).
Proof.
  intros Hc Hr (c'&d'&Hc'&Hr'&Ht&Hroom). assert (c' = c) as -> by congruence. assert (d' = d) as -> by congruence. clear Hc' Hr'.
  unfold publish_pending. destruct (needs_publishing d) as [o|] eqn:Hneed; [|exists w; split; [done|]; split; [done|by exists []]].
  destruct Hroom as [Hs Hb]; [by eexists|]. pose proof (read_entry_path _ _ _ Hr) as Hp.
  eexists. split; [|split; [|]].
  - eapply runs_bind; [apply runs_effect'; rewrite (fav_ending Hfav), (fav_publish Hfav); reflexivity|].
    eapply runs_bind.
    { apply runs_attempt. unfold Spool_Replace. rewrite Hp.
      eapply runs_bind; [apply runs_effect'; rewrite (fav_ending Hfav); simpl; rewrite Hc; reflexivity|].
      apply runs_effect'. rewrite (proj2 (Z.ltb_ge _ _)) by done. cbv zeta. unfold totalBytes. cbn [note Relay_files].
      rewrite (proj2 (Z.ltb_ge _ _)) by done. rewrite (fav_ending Hfav), (fav_cut Hfav). reflexivity. }
    apply runs_ret.
  - simpl. rewrite delete_insert_eq. by rewrite (delete_id (Relay_files w) (relay_tmp name)).
  - eexists [_]. reflexivity.
Qed.

Lemma runs_drain_names names : ∀ w, NoDup names → (∀ name, name ∈ names → ready name (Relay_files w)) →
  ∃ w', runs (drain_names config quiet names) w true w' ∧ Relay_files w' = remove_all names (Relay_files w) ∧
    ∃ l, Relay_log w' = l ++ Relay_log w ∧
      ∀ name d, name ∈ names → read_entry name (Relay_files w) = Ok d → Reported name (acknowledged d) true ∈ l.
Proof.
  induction names as [|name names IH]; intros w Hnd Hready.
  { exists w. split; [done|]. split; [done|]. exists []. split; [done|]. by intros name d ?%not_elem_of_nil. }
  apply NoDup_cons in Hnd as [Hni Hnd]. destruct (Hready name ltac:(left)) as (c&d&Hc&Hr&Hrest).
  destruct (runs_publish name w c d Hc Hr ltac:(by exists c, d)) as (w1&Hpub&Hdel&l&Hlog). pose proof (read_entry_path _ _ _ Hr) as Hp.
  set (w2 := mkRelayWorld (delete name (Relay_files w)) (Relay_seq w1) (Reported name (acknowledged d) true :: Relay_log w1)).
  destruct (IH w2) as (w'&Hrun&Hf&l'&Hl'&Hrep); [done| |].
  { intros n Hn. simpl. apply ready_delete; [by intros ->|]. apply Hready. by right. }
  exists w'. split; [|split].
  - cbn [drain_names]. eapply runs_bind; [apply runs_attempt, runs_effect'; rewrite (fav_ending Hfav), Hr; reflexivity|]. cbv beta iota.
    eapply runs_bind; [exact Hpub|]. cbv beta iota. eapply runs_bind; [apply runs_effect'; rewrite (fav_ending Hfav); reflexivity|].
    destruct (Client_Report (In_reply quiet)) as [u|] eqn:Hrp; [|rewrite (fav_report Hfav) in Hrp; done].
    cbv beta iota. eapply runs_bind.
    { apply runs_attempt. unfold Spool_Remove. rewrite Hp. apply runs_effect'. rewrite (fav_ending Hfav), (fav_cut Hfav). reflexivity. }
    unfold set_files, note. cbn [Relay_files Relay_seq Relay_log]. rewrite Hdel. exact Hrun.
  - rewrite Hf. simpl. apply remove_all_snoc.
  - exists (l' ++ Reported name (acknowledged d) true :: l). split; [rewrite Hl'; simpl; by rewrite Hlog, <-app_assoc|].
    intros n dn Hn Hrn. apply elem_of_app. apply elem_of_cons in Hn as [->|Hn].
    + right. assert (dn = d) as -> by congruence. left.
    + left. apply Hrep; [done|]. simpl. unfold read_entry. rewrite lookup_delete_ne by (by intros ->). done.
Qed.

Lemma remove_all_empty names m : (∀ name, is_Some (m !! name) → name ∈ names) → remove_all names m = ∅.
Proof.
  intros Hall. apply map_empty. intros k. rewrite remove_all_lookup. destruct (decide (k ∈ names)) as [|Hni]; [done|].
  destruct (m !! k) eqn:E; [|done]. destruct Hni. apply Hall. by rewrite E.
Qed.
End undisturbed.

(** an undisturbed cycle delivers everything: from any directory whose entries read and
    have room for one note each, with servers that accept, one cycle publishes what is
    pending, reports every retained result, with success unless discovery or an earlier
    publication had failed for good, empties the directory, and asks for the next job. *)
Theorem cycle_drains (w : RelayWorld) :
  favourable → (∀ name, is_Some (Relay_files w !! name) → ready name (Relay_files w)) →
  ∃ w', runs (cycle parse_duration decode_jobs config quiet) w tt w' ∧ Relay_files w' = ∅ ∧
    (∃ l, Relay_log w' = Polled [] :: PollSent (poll_request config (In_time quiet)) :: l ++ Relay_log w ∧
     ∀ name d, read_entry name (Relay_files w) = Ok d → ∃ r, Reported name r true ∈ l ∧ Result_JobID r = RelayJob_JobID (Delivery_Job d) ∧
       (Result_Success r = true ↔ DiscoveryError d = ""%string ∧ PublicationError d = ""%string ∧ (is_Some (Observation d) ∨ Delivery_Published d = true))).
Proof.
  intros Hfav Hready. set (names := listing relay_pending (Relay_files w)).
  assert (∀ name, is_Some (Relay_files w !! name) → name ∈ names) as Hall.
  { intros name Hs. apply elem_of_listing. split; [done|]. destruct (Hready name Hs) as (c&d&_&Hr&_). apply read_entry_path in Hr.
    unfold relay_entryPath, path_ok in Hr. by apply andb_true_iff in Hr as [_ ?]. }
  destruct (runs_drain_names Hfav names w) as (w1&Hrun&Hf&l&Hl&Hrep); [apply listing_nodup| |].
  { intros name Hn. apply Hready. by apply elem_of_listing in Hn as [? _]. }
  eexists. split; [|split; [|exists l; split]].
  - unfold cycle. eapply runs_bind.
    { unfold drain. eapply runs_bind; [apply runs_attempt, runs_effect'; rewrite (fav_ending Hfav); reflexivity|]. exact Hrun. }
    cbn [negb]. eapply runs_bind; [unfold poll; eapply runs_bind; [apply runs_effect'; rewrite (fav_ending Hfav); reflexivity|]; apply runs_effect'; rewrite (fav_ending Hfav); reflexivity|].
    rewrite (fav_poll Hfav). apply runs_ret.
  - simpl. rewrite Hf. by apply remove_all_empty.
  - simpl. rewrite Hl. reflexivity.
  - intros name d Hr. exists (acknowledged d). split; [apply Hrep; [|done]|].
    + apply Hall. unfold read_entry in Hr. destruct (relay_entryPath name); [|done]. simpl in Hr. destruct (Relay_files w !! name); [by eexists|done].
    + unfold acknowledged, resultFor. destruct d as [job id st ct obs derr pub att perr]. unfold needs_publishing, after_publish. simpl.
      destruct (String.eqb perr "") eqn:E1, (String.eqb derr "") eqn:E2, obs as [o|], pub; simpl; rewrite ?E1, ?E2; simpl; (split; [done|]);
        rewrite ?String.eqb_eq, ?String.eqb_neq in *; naive_solver.
Qed.
End live.

(** ** Concrete runs *)

(** A process that dies while it writes its first result. *)
Definition torn_write : list (list Input) := [[toy_quiet; toy_quiet; toy_job_reply] ++ replicate 4 toy_quiet ++ [toy_input Dying (Some 9%nat) (responded 200 (Some ""%string))]].
Definition torn_world : RelayWorld := relay_history demo_durations toy_jobs toy_run_config toy_quiet (mkRelayWorld ∅ 0 []) torn_write.

Lemma unreadable_entry_blocks_relay_witness :
  let w := relay_history demo_durations toy_jobs toy_run_config toy_quiet torn_world [[]; []] in
  dom (Relay_files torn_world) ≠ ∅ ∧ Relay_files w = Relay_files torn_world ∧ Relay_log w = Relay_log torn_world.
Proof.
  intros w. assert (listing relay_pending (Relay_files torn_world) = [".tmp-relay-00000000000000000007-00000001.relay-spool"%string]) as Hl by (vm_compute; reflexivity).
  split; [apply (bool_decide_unpack _); vm_compute; exact I|].
  apply (unreadable_entry_blocks_relay demo_durations toy_jobs toy_run_config toy_quiet _ _ torn_world [[]; []] Hl). vm_compute. reflexivity.
Defined.

(** A result that fills its spool to the last byte. *)
Definition full_delivery : PendingDelivery := mkPendingDelivery (mkRelayJob "x" "x" "x" 0) "x" 0 0 (Some toy_observation) "" false 0 "".
Definition full_world : RelayWorld := mkRelayWorld {[relay_name 7 1 := toy_seal (marshal full_delivery)]} 1 [].
Definition full_config : RelayRunConfig := mkRelayRunConfig demo_config "1.0" Minute demo_host (slen (toy_seal (marshal full_delivery))).

Lemma toy_seal_length p : slen (toy_seal p) = 2 * slen p + 1.
Proof. induction p as [|c p IH]; [done|]. unfold slen in *. cbn [toy_seal String.length]. lia. Qed.

Lemma full_no_room : no_room full_config (relay_name 7 1) (Relay_files full_world) full_delivery.
Proof.
  eexists. split; [apply lookup_singleton_eq|]. intros n e.
  assert (size_of (Relay_files full_world) - slen (toy_seal (marshal full_delivery)) = 0) as -> by (vm_compute; reflexivity).
  change (Run_maxBytes full_config) with (slen (toy_seal (marshal full_delivery))). change (seal n ?p) with (toy_seal p). rewrite !toy_seal_length.
  assert (slen (marshal full_delivery) = 49) as -> by (vm_compute; reflexivity).
  assert (slen (marshal (after_publish full_delivery e)) = 53) as ->; [|lia].
  destruct e as [e|]; [|vm_compute; reflexivity]. unfold after_publish. cbn [PublishAttempts full_delivery].
  destruct (negb (Retryable e) || (maxPublishAttempts <=? 0 + 1)); [|vm_compute; reflexivity].
  unfold full_delivery. cbn [Delivery_Job Delivery_RelayID StartedAt CompletedAt Observation DiscoveryError Delivery_Published].
  generalize (truncate (failure_text e) maxResultErrorBytes). intros s. unfold marshal, toy_relay_codec, toy_code. cbn [PublicationError].
  destruct (toy_filled s); vm_compute; reflexivity.
Qed.

Lemma full_spool_republishes_forever_witness :
  (∃ b, Relay_log (relay_history demo_durations toy_jobs full_config toy_quiet full_world (replicate 3 [])) =
     replicate 3 (PublishSent (relay_name 7 1) toy_observation b) ++ []) ∧
  Relay_files (relay_history demo_durations toy_jobs full_config toy_quiet full_world [[toy_dies]; []; [toy_quiet; toy_quiet; toy_dies]]) = Relay_files full_world.
Proof.
  assert (listing relay_pending (Relay_files full_world) = [relay_name 7 1]) as Hl by (vm_compute; reflexivity).
  assert (read_entry (relay_name 7 1) (Relay_files full_world) = Ok full_delivery) as Hr by (vm_compute; reflexivity).
  destruct (full_spool_republishes_forever demo_durations toy_jobs full_config toy_quiet (relay_name 7 1) [] full_delivery toy_observation full_world
    Hl Hr eq_refl full_no_room eq_refl) as [Hall Hn].
  split; [exact (Hn 3%nat)|]. destruct (Hall [[toy_dies]; []; [toy_quiet; toy_quiet; toy_dies]]) as (l&Hf&_). exact Hf.
Defined.

Lemma toy_favourable : favourable toy_jobs toy_quiet.
Proof. by split. Qed.

Lemma cycle_drains_witness :
  let w := full_world in
  favourable toy_jobs toy_quiet ∧
  ∃ w', runs (cycle demo_durations toy_jobs toy_run_config toy_quiet) w tt w' ∧ Relay_files w' = ∅ ∧
    ∃ l, Relay_log w' = Polled [] :: PollSent (poll_request toy_run_config 5) :: l ++ [] ∧
      ∃ r, Reported (relay_name 7 1) r true ∈ l ∧ Result_Success r = true.
Proof.
  intros w. split; [exact toy_favourable|].
  assert (∀ name, is_Some (Relay_files w !! name) → ready toy_run_config toy_quiet name (Relay_files w)) as Hready.
  { intros name Hs. assert (name = relay_name 7 1) as ->.
    { destruct (decide (relay_name 7 1 = name)) as [|Hne]; [done|]. unfold w, full_world in Hs. cbn [Relay_files] in Hs. rewrite lookup_singleton_ne in Hs by done. by destruct Hs. }
    eexists _, full_delivery. split; [apply lookup_singleton_eq|]. split; [vm_compute; reflexivity|]. split; [vm_compute; reflexivity|].
    intros _. split; vm_compute; discriminate. }
  destruct (cycle_drains demo_durations toy_jobs toy_run_config toy_quiet w toy_favourable Hready) as (w'&Hrun&Hf&l&Hlog&Hrep).
  exists w'. split; [exact Hrun|]. split; [exact Hf|]. exists l. split; [exact Hlog|].
  destruct (Hrep (relay_name 7 1) full_delivery ltac:(vm_compute; reflexivity)) as (r&Hin&_&Hok). exists r. split; [exact Hin|].
  apply (proj2 Hok). split; [reflexivity|]. split; [reflexivity|]. left. by eexists.
Defined.
