(* ===== verification/Credential.v ===== *)
(** * [pkg/credentialref]: references to credentials

    [credentialref.go] and its two providers: a reference names an environment variable, a
    file, a field of a Vault secret or of a Kubernetes secret.  The environment, the files
    and the servers are the record [Host]; what [encoding/json] decodes is the class
    [SecretCodec].  An error is kept as its format, its operands and its cause, so that one
    can see which data goes into it: [Resolve_hides_credential] says that the credential
    does not, unless the JSON decoder's own error quotes it. *)

From S2P Require Import Prelude Bytes Text Strconv Time Model Publish.

(** ** Errors and the host *)

(** [fmt.Errorf]; [unavailable] where the format wraps [ErrUnavailable]. *)
#[warnings="-register-all"]
Inductive error := Errorf (unavailable : bool) (format : string) (operands : list string) (cause : option error).
Abbreviation outcome_of A := (result error A).
Definition errors_New (text : string) : error := Errorf false text [] None.

(** [errors.Is(err, ErrUnavailable)] *)
Fixpoint is_unavailable (e : error) : bool :=
  let '(Errorf u _ _ cause) := e in u || match cause with Some c => is_unavailable c | None => false end.

Record OpenFile := mkOpenFile { file_regular : outcome_of bool; file_content : outcome_of string }.

Record HTTPRequest := mkHTTPRequest {
  http_method : string; http_url : string; http_secret : string;        (* the header that carries the token *)
  http_headers : list (string * string); http_body : option string; http_roots : string; (* the file of further roots, if any *)
}.

Record CredentialHost := mkHost {
  LookupEnv : string → option string;
  Stat : string → option (outcome_of bool);        (* [None]: it does not exist *)
  OpenPath : string → outcome_of OpenFile;
  valid_pem : string → bool;
  parse_url : string → option URL;
  do_request : HTTPRequest → outcome_of (Z * outcome_of string);
}.

Definition Getenv (h : CredentialHost) (name : string) : string := trim_space (default ""%string (LookupEnv h name)).
Definition ReadFile (h : CredentialHost) (path : string) : outcome_of string := try f := OpenPath h path ;; file_content f.
(** [io.ReadAll(io.LimitReader(r, n+1))] *)
Definition read_limited (n : Z) (r : outcome_of string) : outcome_of string := try s := r ;; Ok (take_string (Z.to_nat (n + 1)) s).

Definition wrap (format : string) (operands : list string) {A} (r : outcome_of A) : outcome_of A :=
  match r with Ok a => Ok a | Err e => Err (Errorf false format operands (Some e)) end.

Definition absolute_path (path : string) : bool := has_prefix path "/".

Record VaultSecret := mkVaultSecret {
  secret_data : gmap string any; secret_destroyed : bool; secret_deletion_time : string; secret_errors : list string;
}.
Record KubernetesSecret := mkKubernetesSecret { object_data : gmap string string; object_message : string; object_reason : string }.

Class SecretCodec := {
  decode_secret : string → outcome_of VaultSecret;
  decode_lookup : string → outcome_of (Z * bool * list string);
  decode_renewal : string → outcome_of (option (Z * bool) * list string);
  decode_object : string → outcome_of KubernetesSecret;
}.

(** Both providers check the address alike. *)
Definition https_origin (h : CredentialHost) (unset variable address : string) : outcome_of string :=
  reject String.eqb address "" with errors_New unset ;;
  match parse_url h address with
  | None => Err (errors_New (variable +:+ " must be an absolute https:// URL"))%string
  | Some u =>
    reject negb (String.eqb (Scheme u) "https") || String.eqb (Host u) ""
      with errors_New (variable +:+ " must be an absolute https:// URL")%string ;;
    reject bool_decide (URL_User u ≠ None) || (negb (String.eqb (Path u) "") && negb (String.eqb (Path u) "/"))
      || ForceQuery u || negb (String.eqb (RawQuery u) "") || negb (String.eqb (Fragment u) "")
      with errors_New (variable +:+ " must not contain credentials, a path, query parameters, or a fragment")%string ;;
    Ok (trim_right_slashes address)
  end.

(** The transport trusts the system's roots, and those of [path] when one is given. *)
Definition load_roots (h : CredentialHost) (path : string) (read_text invalid_text : string) (operands : list string) : outcome_of unit :=
  if String.eqb path "" then Ok tt
  else
    try pem := wrap read_text operands (ReadFile h path) ;;
    if valid_pem h pem then Ok tt else Err (Errorf false invalid_text operands None).

Definition maxResponseBytes : Z := 2 ^ 20.

(** [do]: one request, a bounded body. *)
Definition exchange (h : CredentialHost) (request : HTTPRequest) : outcome_of (Z * string) :=
  reject bool_decide (parse_url h (http_url request) = None) with Errorf false "build request: %w" [http_url request] None ;;
  try response := do_request h request ;;
  try body := wrap "read response: %w" [] (read_limited maxResponseBytes response.2) ;;
  reject maxResponseBytes <? slen body with errors_New "response exceeds 1048576 bytes" ;;
  Ok (response.1, body).

(** ** [vault] *)
Module Vault.
Section vault.
Context `{SecretCodec}.

Record Config := mkConfig { Address : string; Namespace : string; Mount : string; Token : string; CACertPath : string }.

Definition tokenFromEnvironment (h : CredentialHost) : outcome_of string :=
  let tokenFile := Getenv h "VAULT_TOKEN_FILE" in
  let token := Getenv h "VAULT_TOKEN" in
  if negb (String.eqb tokenFile "") && negb (String.eqb token "") then Err (errors_New "VAULT_TOKEN and VAULT_TOKEN_FILE cannot both be set")
  else if negb (String.eqb tokenFile "") then
    reject negb (absolute_path tokenFile) with errors_New "VAULT_TOKEN_FILE must be an absolute path" ;;
    try data := wrap "read VAULT_TOKEN_FILE: %w" [] (ReadFile h tokenFile) ;;
    let trimmed := trim_space data in
    reject String.eqb trimmed "" with errors_New "VAULT_TOKEN_FILE is empty" ;;
    Ok trimmed
  else if negb (String.eqb token "") then Ok token
  else Err (errors_New "VAULT_TOKEN or VAULT_TOKEN_FILE must be set").

Definition validateHTTPSAddress (h : CredentialHost) (address : string) : outcome_of string :=
  https_origin h "VAULT_ADDR is not set" "VAULT_ADDR" address.

Definition ConfigFromEnvironment (h : CredentialHost) : outcome_of Config :=
  try address := validateHTTPSAddress h (Getenv h "VAULT_ADDR") ;;
  try token := tokenFromEnvironment h ;;
  let mount := Getenv h "VAULT_MOUNT" in
  let mount := if String.eqb mount "" then "secret"%string else mount in
  Ok (mkConfig address (Getenv h "VAULT_NAMESPACE") (trim_byte "/"%char mount) token (Getenv h "VAULT_CACERT")).

Definition NewClient (h : CredentialHost) (config : Config) : outcome_of Config :=
  try address := validateHTTPSAddress h (Address config) ;;
  reject String.eqb (Token config) "" with errors_New "vault config requires a token" ;;
  try u := load_roots h (CACertPath config) "read VAULT_CACERT: %w" "VAULT_CACERT does not contain a valid PEM certificate" [] ;;
  Ok (mkConfig address (Namespace config) (Mount config) (Token config) (CACertPath config)).

Definition vault_request (c : Config) (method path : string) (body : option string) : HTTPRequest :=
  mkHTTPRequest method (Address c +:+ path) (Token c)
    ((if String.eqb (Namespace c) "" then [] else [("X-Vault-Namespace", Namespace c)])
     ++ match body with Some _ => [("Content-Type", "application/json")] | None => [] end)%list body (CACertPath c).

Definition summarizeVaultErrors (messages : list string) : string :=
  match messages with
  | [] => "no error detail"
  | _ => let joined := join "; " messages in if 200 <? slen joined then take_string 200 joined +:+ "..." else joined
  end.

Definition secret_path (c : Config) (path : string) : string :=
  "/v1/" +:+ Mount c +:+ "/data/" +:+ trim_prefix path "/".

Definition Resolve (h : CredentialHost) (c : Config) (path field : string) : outcome_of string :=
  reject String.eqb path "" || String.eqb field "" with errors_New "vault credential reference requires a secret path and field" ;;
  try reply := wrap "vault request for secret %q: %w" [path] (exchange h (vault_request c "GET" (secret_path c path) None)) ;;
  let '(status, body) := reply in
  reject status =? 404 with Errorf true "%w: vault secret %q was not found" [path] None ;;
  try decoded := wrap "decode vault response for secret %q: %w" [path] (decode_secret body) ;;
  reject negb (status =? 200)
    with Errorf false "vault request for secret %q failed with status %d: %s" [path; decimal status; summarizeVaultErrors (secret_errors decoded)] None ;;
  reject secret_destroyed decoded || negb (String.eqb (secret_deletion_time decoded) "")
    with Errorf true "%w: vault secret %q latest version is destroyed or deleted" [path] None ;;
  reject bool_decide (secret_data decoded = ∅) with Errorf true "%w: vault secret %q has no data" [path] None ;;
  match secret_data decoded !! field with
  | None => Err (Errorf true "%w: vault secret %q has no field %q" [path; field] None)
  | Some (any_string value) =>
    reject String.eqb value "" with Errorf true "%w: vault secret %q field %q is empty" [path; field] None ;;
    Ok value
  | Some _ => Err (Errorf false "vault secret %q field %q is not a string" [path; field] None)
  end.

(** The time to live is multiplied in 64 bits. *)
Definition seconds (n : Z) : duration := wrap64 (n * Second).

Definition LookupSelf (h : CredentialHost) (c : Config) : outcome_of (duration * bool) :=
  try reply := wrap "vault token lookup: %w" [] (exchange h (vault_request c "GET" "/v1/auth/token/lookup-self" None)) ;;
  let '(status, body) := reply in
  try decoded := wrap "decode vault token lookup response: %w" [] (decode_lookup body) ;;
  let '(ttl, renewable, errors) := decoded in
  reject negb (status =? 200) with Errorf false "vault token lookup failed with status %d: %s" [decimal status; summarizeVaultErrors errors] None ;;
  Ok (seconds ttl, renewable).

Definition RenewSelf (h : CredentialHost) (c : Config) : outcome_of duration :=
  try reply := wrap "vault token renewal: %w" [] (exchange h (vault_request c "POST" "/v1/auth/token/renew-self" (Some "{}"))) ;;
  let '(status, body) := reply in
  try decoded := wrap "decode vault token renewal response: %w" [] (decode_renewal body) ;;
  let '(auth, errors) := decoded in
  reject negb (status =? 200) with Errorf false "vault token renewal failed with status %d: %s" [decimal status; summarizeVaultErrors errors] None ;;
  match auth with
  | None => Err (errors_New "vault token renewal response has no auth data")
  | Some (lease, renewable) =>
    reject negb renewable with errors_New "vault token is not renewable" ;;
    Ok (seconds lease)
  end.
End vault.
End Vault.

(** ** [kubernetes] *)
Module KubernetesSecrets.
Section kubernetes.
Context `{SecretCodec}.

Definition serviceAccount : string := "/var/run/secrets/kubernetes.io/serviceaccount/".
Definition defaultTokenPath : string := serviceAccount +:+ "token".
Definition defaultCACertPath : string := serviceAccount +:+ "ca.crt".
Definition defaultNamespacePath : string := serviceAccount +:+ "namespace".
Definition maxTokenBytes : Z := 64 * 2 ^ 10.

Record Config := mkConfig { APIServer : string; DefaultNamespace : string; TokenPath : string; CACertPath : string }.

(** [net.JoinHostPort] *)
Definition JoinHostPort (host port : string) : string :=
  if contains_byte ":"%char host then "[" +:+ host +:+ "]:" +:+ port else host +:+ ":" +:+ port.

Definition validateHTTPSAPIServer (h : CredentialHost) (apiServer : string) : outcome_of string :=
  https_origin h "kubernetes config requires an API server address" "TOPO_KUBERNETES_API_SERVER" apiServer.

Definition ConfigFromEnvironment (h : CredentialHost) : outcome_of Config :=
  let override := Getenv h "TOPO_KUBERNETES_API_SERVER" in
  let inCluster := String.eqb override "" in
  let host := Getenv h "KUBERNETES_SERVICE_HOST" in
  let port := Getenv h "KUBERNETES_SERVICE_PORT" in
  reject inCluster && (String.eqb host "" || String.eqb port "")
    with errors_New "KUBERNETES_SERVICE_HOST and KUBERNETES_SERVICE_PORT are not set; run inside a Kubernetes pod or set TOPO_KUBERNETES_API_SERVER" ;;
  let apiServer := if inCluster then ("https://" +:+ JoinHostPort host port)%string else override in
  try apiServer := validateHTTPSAPIServer h apiServer ;;
  let tokenPath := Getenv h "TOPO_KUBERNETES_TOKEN_FILE" in
  let tokenPath := if String.eqb tokenPath "" then defaultTokenPath else tokenPath in
  reject negb (absolute_path tokenPath) with errors_New "TOPO_KUBERNETES_TOKEN_FILE must be an absolute path" ;;
  let caCertPath := Getenv h "TOPO_KUBERNETES_CA_FILE" in
  let caCertPath := if String.eqb caCertPath "" && inCluster then defaultCACertPath else caCertPath in
  reject negb (String.eqb caCertPath "") && negb (absolute_path caCertPath) with errors_New "TOPO_KUBERNETES_CA_FILE must be an absolute path" ;;
  let namespace := Getenv h "TOPO_KUBERNETES_NAMESPACE" in
  let namespace := if String.eqb namespace "" then match ReadFile h defaultNamespacePath with Ok data => trim_space data | Err _ => ""%string end
                   else namespace in
  Ok (mkConfig apiServer namespace tokenPath caCertPath).

Definition NewClient (h : CredentialHost) (config : Config) : outcome_of Config :=
  try apiServer := validateHTTPSAPIServer h (APIServer config) ;;
  reject String.eqb (TokenPath config) "" with errors_New "kubernetes config requires a token file path" ;;
  try u := load_roots h (CACertPath config) "read kubernetes CA certificate %q: %w" "kubernetes CA certificate %q does not contain a valid PEM certificate"
             [CACertPath config] ;;
  Ok (mkConfig apiServer (DefaultNamespace config) (TokenPath config) (CACertPath config)).

(** The token file is read again for every request. *)
Definition readToken (h : CredentialHost) (c : Config) : outcome_of string :=
  try file := OpenPath h (TokenPath c) ;;
  try data := wrap "read token file: %w" [] (read_limited maxTokenBytes (file_content file)) ;;
  reject maxTokenBytes <? slen data with errors_New "token file exceeds 65536 bytes" ;;
  let token := trim_space data in
  reject String.eqb token "" with errors_New "token file is empty" ;;
  Ok token.

Definition truncate (text : string) (maxBytes : Z) : string :=
  if slen text <=? maxBytes then text else take_string (Z.to_nat maxBytes) text +:+ "...".

Definition summarizeKubernetesError (reason message : string) : string :=
  if negb (String.eqb reason "") && negb (String.eqb message "") then reason +:+ ": " +:+ truncate message 200
  else if negb (String.eqb message "") then truncate message 200
  else if negb (String.eqb reason "") then reason
  else "no error detail".

Definition object_request (c : Config) (namespace name token : string) : HTTPRequest :=
  mkHTTPRequest "GET" (APIServer c +:+ "/api/v1/namespaces/" +:+ namespace +:+ "/secrets/" +:+ name) token [("Accept", "application/json")%string] None (CACertPath c).

Definition Resolve (h : CredentialHost) (c : Config) (namespace name field : string) : outcome_of string :=
  let namespace := if String.eqb namespace "" then DefaultNamespace c else namespace in
  reject String.eqb namespace "" with errors_New "kubernetes credential reference has no namespace and no default namespace is configured" ;;
  reject String.eqb name "" || String.eqb field "" with errors_New "kubernetes credential reference requires a secret name and field" ;;
  try token := wrap "read kubernetes service account token: %w" [] (readToken h c) ;;
  try reply := wrap "kubernetes request for secret %q in namespace %q: %w" [name; namespace] (exchange h (object_request c namespace name token)) ;;
  let '(status, body) := reply in
  reject status =? 404 with Errorf true "%w: kubernetes secret %q was not found in namespace %q" [name; namespace] None ;;
  try decoded := wrap "decode kubernetes response for secret %q: %w" [name] (decode_object body) ;;
  reject negb (status =? 200)
    with Errorf false "kubernetes request for secret %q in namespace %q failed with status %d: %s"
           [name; namespace; decimal status; summarizeKubernetesError (object_reason decoded) (object_message decoded)] None ;;
  reject bool_decide (object_data decoded = ∅) with Errorf true "%w: kubernetes secret %q has no data" [name] None ;;
  match object_data decoded !! field with
  | None => Err (Errorf true "%w: kubernetes secret %q has no field %q" [name; field] None)
  | Some encoded =>
    match base64_decode encoded with
    | None => Err (Errorf false "kubernetes secret %q field %q is not valid base64" [name; field] None)
    | Some value =>
      reject bool_decide (value = []) with Errorf true "%w: kubernetes secret %q field %q is empty" [name; field] None ;;
      Ok (string_of_bytes value)
    end
  end.
End kubernetes.
End KubernetesSecrets.

(** ** [Resolve] *)

Definition maxReferenceBytes : Z := 4 * 2 ^ 10.
Definition maxCredentialBytes : Z := 2 ^ 20.

Definition name_byte (r : Z) : bool := (r =? 95) || in_range 65 90 r || in_range 97 122 r.
Definition validEnvironmentName (name : string) : bool :=
  match runes name with
  | [] => false
  | r :: rs => name_byte r && forallb (λ r, name_byte r || in_range 48 57 r) rs
  end.

Section resolve.
Context `{SecretCodec}.

Definition resolveEnvironment (h : CredentialHost) (name : string) : outcome_of string :=
  reject negb (validEnvironmentName name) with errors_New "environment credential reference has an invalid variable name" ;;
  let value := default ""%string (LookupEnv h name) in
  reject String.eqb value "" with Errorf true "%w: environment variable %q is not set" [name] None ;;
  reject maxCredentialBytes <? slen value with Errorf false "credential from environment variable %q exceeds 1048576 bytes" [name] None ;;
  Ok value.

Definition resolveFile (h : CredentialHost) (path : string) : outcome_of string :=
  reject negb (absolute_path path) with errors_New "file credential reference must use an absolute path" ;;
  match Stat h path with
  | None => Err (Errorf true "%w: credential file %q does not exist" [path] None)
  | Some info =>
    try regular := wrap "inspect credential file %q: %w" [path] info ;;
    reject negb regular with Errorf false "credential file %q is not a regular file" [path] None ;;
    try file := wrap "open credential file %q: %w" [path] (OpenPath h path) ;;
    try regular := wrap "inspect open credential file %q: %w" [path] (file_regular file) ;;
    reject negb regular with Errorf false "credential file %q is not a regular file" [path] None ;;
    try value := wrap "read credential file %q: %w" [path] (read_limited maxCredentialBytes (file_content file)) ;;
    reject String.eqb value "" with Errorf false "credential file %q is empty" [path] None ;;
    reject maxCredentialBytes <? slen value with Errorf false "credential file %q exceeds 1048576 bytes" [path] None ;;
    Ok value
  end.

(** What a provider reports missing is reported missing, with its text. *)
Definition report_missing (r : outcome_of string) : outcome_of string :=
  match r with
  | Err e => Err (if is_unavailable e then Errorf true "%w: %s" [] (Some e) else e)
  | Ok v => Ok v
  end.

Definition resolveVault (h : CredentialHost) (location : string) : outcome_of string :=
  match cut_byte "#"%char location with
  | Some (path, field) =>
    reject String.eqb path "" || String.eqb field "" with errors_New "vault credential reference must use vault:<path>#<field>" ;;
    try config := wrap "vault credential reference: %w" [] (Vault.ConfigFromEnvironment h) ;;
    try client := wrap "vault credential reference: %w" [] (Vault.NewClient h config) ;;
    try value := report_missing (Vault.Resolve h client path field) ;;
    reject maxCredentialBytes <? slen value with Errorf false "credential from vault secret %q field %q exceeds 1048576 bytes" [path; field] None ;;
    Ok value
  | None => Err (errors_New "vault credential reference must use vault:<path>#<field>")
  end.

Definition resolveKubernetes (h : CredentialHost) (location : string) : outcome_of string :=
  let usage := errors_New "kubernetes credential reference must use k8s:[<namespace>/]<secret-name>#<field>" in
  match cut_byte "#"%char location with
  | Some (pathPart, field) =>
    reject String.eqb pathPart "" || String.eqb field "" with usage ;;
    let '(namespace, name) := match cut_byte "/"%char pathPart with Some p => p | None => (""%string, pathPart) end in
    reject String.eqb name "" with usage ;;
    try config := wrap "kubernetes credential reference: %w" [] (KubernetesSecrets.ConfigFromEnvironment h) ;;
    try client := wrap "kubernetes credential reference: %w" [] (KubernetesSecrets.NewClient h config) ;;
    try value := report_missing (KubernetesSecrets.Resolve h client namespace name field) ;;
    reject maxCredentialBytes <? slen value with Errorf false "credential from kubernetes secret %q field %q exceeds 1048576 bytes" [name; field] None ;;
    Ok value
  | None => Err usage
  end.

Definition Resolve (h : CredentialHost) (reference : string) : outcome_of string :=
  reject String.eqb reference "" with errors_New "credential reference is empty" ;;
  reject maxReferenceBytes <? slen reference with errors_New "credential reference exceeds 4096 bytes" ;;
  match cut_byte ":"%char reference with
  | None => Err (errors_New "credential reference must use env:<name> or file:<absolute-path>")
  | Some (kind, location) =>
    reject String.eqb location "" with errors_New "credential reference must use env:<name> or file:<absolute-path>" ;;
    if String.eqb kind "env" then resolveEnvironment h location
    else if String.eqb kind "file" then resolveFile h location
    else if String.eqb kind "vault" then resolveVault h location
    else if String.eqb kind "k8s" then resolveKubernetes h location
    else Err (Errorf false "unsupported credential reference provider %q" [kind] None)
  end.
End resolve.

(** ** What an error says *)

(** The errors that wrap what [encoding/json] says of a body that holds a credential *)
Definition decode_formats : list string :=
  ["decode vault response for secret %q: %w"; "decode kubernetes response for secret %q: %w"]%string.

(** Two errors with the same text but for the decoder's own words below a decode error *)
Inductive same_error : error → error → Prop :=
| same_refl e : same_error e e
| same_wrapped u format operands e f : same_error e f → same_error (Errorf u format operands (Some e)) (Errorf u format operands (Some f))
| same_decode format operands e f : format ∈ decode_formats → is_unavailable e = is_unavailable f →
    same_error (Errorf false format operands (Some e)) (Errorf false format operands (Some f)).
#[local] Hint Constructors same_error : core.

Lemma same_unavailable e f : same_error e f → is_unavailable e = is_unavailable f.
Proof. by induction 1 as [|u format operands e f _ IH|]; cbn; rewrite ?IH. Qed.

(** [r] and [q] fail alike, or give values that [R] relates. *)
Definition related {A B} (R : A → B → Prop) (r : outcome_of A) (q : outcome_of B) : Prop :=
  match r, q with Ok a, Ok b => R a b | Err e, Err f => same_error e f | _, _ => False end.

Lemma related_err {A B} (R : A → B → Prop) e : related R (Err e) (Err e).
Proof. constructor. Qed.
#[local] Hint Resolve related_err : core.

(** Both bodies decode, to values that [R] relates, or neither does. *)
Definition decoded_alike {A} (R : A → A → Prop) (r q : outcome_of A) : Prop :=
  match r, q with Ok a, Ok b => R a b | Err e, Err f => is_unavailable e = is_unavailable f | _, _ => False end.

Lemma related_bind {A B A' B'} (R : A → B → Prop) (S : A' → B' → Prop) r q f g :
  related R r q → (∀ a b, R a b → related S (f a) (g b)) →
  related S (match r with Ok a => f a | Err e => Err e end) (match q with Ok b => g b | Err e => Err e end).
Proof. destruct r, q; simpl; try done; auto. Qed.
Lemma related_wrap {A B} (R : A → B → Prop) format operands r q : related R r q → related R (wrap format operands r) (wrap format operands q).
Proof. destruct r, q; simpl; try done. by constructor. Qed.
Lemma related_decoded {A} (R : A → A → Prop) format operands r q : format ∈ decode_formats → decoded_alike R r q →
  related R (wrap format operands r) (wrap format operands q).
Proof. destruct r, q; simpl; try done. by constructor. Qed.
Lemma related_reject {A B} (R : A → B → Prop) (c d : bool) e r q : c = d → related R r q →
  related R (reject c with e ;; r) (reject d with e ;; q).
Proof. intros ->. destruct d; [intros _; constructor|done]. Qed.
Lemma related_eq {A} (r : outcome_of A) : related eq r r.
Proof. destruct r; constructor. Qed.

(** Two texts that the code cannot tell apart without looking into them *)
Record same_class (s t : string) : Prop := {
  class_empty : String.eqb s "" = String.eqb t "";
  class_blank : String.eqb (trim_space s) "" = String.eqb (trim_space t) "";
  class_credential : (maxCredentialBytes <? slen s) = (maxCredentialBytes <? slen t);
  class_token : (KubernetesSecrets.maxTokenBytes <? slen s) = (KubernetesSecrets.maxTokenBytes <? slen t);
}.

Lemma same_class_refl s : same_class s s.
Proof. by split. Qed.

Lemma take_within n s : 0 <= n → (n <? slen s) = false → take_string (Z.to_nat (n + 1)) s = s.
Proof. intros Hn Hs%Z.ltb_ge. apply take_string_all. unfold slen in Hs. lia. Qed.
Lemma take_beyond n s : 0 <= n → (n <? slen s) = true → (n <? slen (take_string (Z.to_nat (n + 1)) s)) = true.
Proof. intros Hn Hs%Z.ltb_lt. apply Z.ltb_lt. unfold slen in *. rewrite take_string_length by lia. lia. Qed.

(** A bounded read: what is read is the text, or it is beyond the bound. *)
Lemma related_limited {A B} (n : Z) (P : string → string → Prop) (R : A → B → Prop) r q w os (f : string → outcome_of A) (g : string → outcome_of B) :
  0 <= n → related P r q → (∀ s t, P s t → (n <? slen s) = (n <? slen t)) → (∀ s t, P s t → (n <? slen s) = false → related R (f s) (g t)) →
  (∀ s t, (n <? slen s) = true → (n <? slen t) = true → related R (f s) (g t)) →
  related R (try s := wrap w os (read_limited n r) ;; f s) (try s := wrap w os (read_limited n q) ;; g s).
Proof.
  intros Hn Hr Hc Hf Hb. destruct r as [s|], q as [t|]; simpl in *; try done; [|by constructor]. specialize (Hc _ _ Hr).
  destruct (n <? slen s) eqn:Hs.
  - apply Hb; by apply take_beyond.
  - rewrite (take_within n s), (take_within n t) by done. auto.
Qed.

Lemma beyond_nonempty n s : 0 <= n → (n <? slen s) = true → String.eqb s "" = false.
Proof. intros Hn Hs%Z.ltb_lt. destruct s; [simpl in Hs; unfold slen in Hs; simpl in Hs; lia|done]. Qed.

Section hiding.
Context `{SecretCodec}.

Definition value_alike (a b : any) : Prop :=
  match a, b with any_string s, any_string t => same_class s t | any_string _, _ | _, any_string _ => False | _, _ => True end.
Definition encoded_alike (a b : string) : Prop :=
  match base64_decode a, base64_decode b with
  | Some x, Some y => (x = [] ↔ y = []) ∧ same_class (string_of_bytes x) (string_of_bytes y)
  | None, None => True
  | _, _ => False
  end.
Definition secret_alike (d e : VaultSecret) : Prop :=
  secret_errors d = secret_errors e ∧ secret_destroyed d = secret_destroyed e ∧ secret_deletion_time d = secret_deletion_time e ∧
  ∀ k, option_Forall2 value_alike (secret_data d !! k) (secret_data e !! k).
Definition object_alike (d e : KubernetesSecret) : Prop :=
  object_message d = object_message e ∧ object_reason d = object_reason e ∧
  ∀ k, option_Forall2 encoded_alike (object_data d !! k) (object_data e !! k).
Definition body_alike (b c : string) : Prop :=
  (maxResponseBytes <? slen b) = (maxResponseBytes <? slen c) ∧
  decoded_alike secret_alike (decode_secret b) (decode_secret c) ∧ decoded_alike object_alike (decode_object b) (decode_object c).

(** Requests that differ in their token alone *)
Definition same_request (r q : HTTPRequest) : Prop :=
  http_method r = http_method q ∧ http_url r = http_url q ∧ http_headers r = http_headers q ∧ http_body r = http_body q ∧ http_roots r = http_roots q.

(** The variables that hold settings, not secrets *)
Definition settings : list string :=
  ["VAULT_ADDR"; "VAULT_NAMESPACE"; "VAULT_MOUNT"; "VAULT_TOKEN_FILE"; "VAULT_CACERT"; "KUBERNETES_SERVICE_HOST"; "KUBERNETES_SERVICE_PORT";
   "TOPO_KUBERNETES_API_SERVER"; "TOPO_KUBERNETES_TOKEN_FILE"; "TOPO_KUBERNETES_CA_FILE"; "TOPO_KUBERNETES_NAMESPACE"]%string.

(** Two hosts whose secrets differ: other values in the environment, in files and on the
    servers, of the same class, and everything else alike. *)
Record twins (h i : CredentialHost) : Prop := {
  twin_setting name : name ∈ settings → LookupEnv h name = LookupEnv i name;
  twin_env name : option_Forall2 same_class (LookupEnv h name) (LookupEnv i name);
  twin_stat path : Stat h path = Stat i path;
  twin_open path : related (λ f g, file_regular f = file_regular g ∧
    related (λ c d, same_class c d ∧ valid_pem h c = valid_pem i d) (file_content f) (file_content g)) (OpenPath h path) (OpenPath i path);
  twin_namespace : ReadFile h KubernetesSecrets.defaultNamespacePath = ReadFile i KubernetesSecrets.defaultNamespacePath;
  twin_url s : parse_url h s = parse_url i s;
  twin_reply r q : same_request r q → related (λ x y, x.1 = y.1 ∧ related body_alike x.2 y.2) (do_request h r) (do_request i q);
}.

Section twins.
Context (h i : CredentialHost) (T : twins h i).

Lemma twin_Getenv name : name ∈ settings → Getenv h name = Getenv i name.
Proof. intros Hn. unfold Getenv. by rewrite (twin_setting _ _ T). Qed.
Lemma twin_Getenv_secret name : String.eqb (Getenv h name) "" = String.eqb (Getenv i name) "".
Proof. unfold Getenv. destruct (twin_env _ _ T name) as [s t Hs|]; [apply Hs|done]. Qed.

Lemma twin_read path : related (λ c d, same_class c d ∧ valid_pem h c = valid_pem i d) (ReadFile h path) (ReadFile i path).
Proof. eapply related_bind; [apply (twin_open _ _ T)|]. by intros f g [_ ?]. Qed.

Lemma twin_origin unset variable address : related eq (https_origin h unset variable address) (https_origin i unset variable address).
Proof. unfold https_origin. rewrite (twin_url _ _ T). apply related_eq. Qed.

Lemma twin_roots path a b operands : related eq (load_roots h path a b operands) (load_roots i path a b operands).
Proof.
  unfold load_roots. destruct (String.eqb path ""); [done|]. eapply related_bind; [apply related_wrap, twin_read|].
  intros c d [_ ->]. apply related_eq.
Qed.

Lemma twin_exchange r q : same_request r q →
  related (λ x y, x.1 = y.1 ∧ decoded_alike secret_alike (decode_secret x.2) (decode_secret y.2) ∧ decoded_alike object_alike (decode_object x.2) (decode_object y.2))
    (exchange h r) (exchange i q).
Proof.
  intros Hrq. pose proof Hrq as (_ & Hu & _). unfold exchange. rewrite Hu, (twin_url _ _ T). apply related_reject; [done|].
  eapply related_bind; [by apply (twin_reply _ _ T)|]. intros [st b] [st' c] [Hst Hb]. simpl in *. subst st'.
  apply (related_limited maxResponseBytes body_alike); [done|done|by intros s t [? _]| |].
  - intros s t (Hsz & Hs & Ho) Hw. rewrite <-Hsz, Hw. by split_and!.
  - intros s t Hs Ht. by rewrite Hs, Ht.
Qed.

Lemma alike_empty {A} (P : A → A → Prop) (m n : gmap string A) : (∀ k, option_Forall2 P (m !! k) (n !! k)) → m = ∅ ↔ n = ∅.
Proof.
  intros Hmn. rewrite !map_empty. split; intros Hm k; specialize (Hmn k); rewrite Hm in Hmn; by inversion Hmn.
Qed.

(** *** The providers *)

Definition config_alike (c d : Vault.Config) : Prop :=
  Vault.Address c = Vault.Address d ∧ Vault.Namespace c = Vault.Namespace d ∧ Vault.Mount c = Vault.Mount d ∧
  Vault.CACertPath c = Vault.CACertPath d ∧ String.eqb (Vault.Token c) "" = String.eqb (Vault.Token d) "".

Lemma token_related : related (λ s t, String.eqb s "" = String.eqb t "") (Vault.tokenFromEnvironment h) (Vault.tokenFromEnvironment i).
Proof.
  unfold Vault.tokenFromEnvironment. rewrite (twin_Getenv "VAULT_TOKEN_FILE") by set_solver.
  pose proof (twin_Getenv_secret "VAULT_TOKEN") as Ht. rewrite Ht.
  destruct (String.eqb (Getenv i "VAULT_TOKEN_FILE") "") eqn:Hf; cbn [negb andb].
  - destruct (String.eqb (Getenv i "VAULT_TOKEN") "") eqn:Hi; cbn [negb]; [done|]. simpl. by rewrite Ht.
  - destruct (String.eqb (Getenv i "VAULT_TOKEN") ""); cbn [negb]; [|done]. apply related_reject; [done|].
    eapply related_bind; [apply related_wrap, twin_read|]. intros s t [Hst _]. cbv zeta. apply related_reject; [apply Hst|]. apply Hst.
Qed.

Lemma vault_config_related : related config_alike (Vault.ConfigFromEnvironment h) (Vault.ConfigFromEnvironment i).
Proof.
  unfold Vault.ConfigFromEnvironment. rewrite !twin_Getenv by set_solver.
  eapply related_bind; [apply twin_origin|]. intros a ? <-. eapply related_bind; [apply token_related|]. intros s t Hst. by split_and!.
Qed.

Lemma vault_client_related c d : config_alike c d → related config_alike (Vault.NewClient h c) (Vault.NewClient i d).
Proof.
  intros (Ha & Hn & Hm & Hc & Ht). unfold Vault.NewClient. rewrite Ha, Hc, Ht.
  eapply related_bind; [apply twin_origin|]. intros a ? <-. apply related_reject; [done|].
  eapply related_bind; [apply twin_roots|]. intros ? ? _. by split_and!.
Qed.

Lemma vault_resolve_related c d path field : config_alike c d → related same_class (Vault.Resolve h c path field) (Vault.Resolve i d path field).
Proof.
  intros (Ha & Hn & Hm & Hc & Ht). unfold Vault.Resolve. apply related_reject; [done|].
  eapply related_bind.
  { apply related_wrap, twin_exchange. unfold same_request, Vault.vault_request, Vault.secret_path. simpl. by rewrite Ha, Hn, Hm, Hc. }
  intros [st b] [st' b'] (Hst & Hs & _). simpl in Hst, Hs. subst st'. apply related_reject; [done|].
  eapply related_bind; [apply related_decoded; [apply list_elem_of_here|exact Hs]|]. intros x y (He & Hd & Hdt & Hk). rewrite He, Hd, Hdt. do 2 (apply related_reject; [done|]).
  apply related_reject; [by eapply bool_decide_ext, alike_empty|]. destruct (Hk field) as [v w Hvw|]; [|done].
  destruct v, w; simpl in Hvw; try done. apply related_reject; [apply Hvw|done].
Qed.

Lemma report_related r q : related same_class r q → related same_class (report_missing r) (report_missing q).
Proof. destruct r, q; simpl; try done. intros He. rewrite (same_unavailable _ _ He). destruct (is_unavailable _); by repeat constructor. Qed.

Lemma resolveVault_related location : related same_class (resolveVault h location) (resolveVault i location).
Proof.
  unfold resolveVault. destruct (cut_byte _ location) as [[path field]|]; [|done]. apply related_reject; [done|].
  eapply related_bind; [apply related_wrap, vault_config_related|]. intros c d Hcd.
  eapply related_bind; [by apply related_wrap, vault_client_related|]. intros c' d' Hcd'.
  eapply related_bind; [by apply report_related, vault_resolve_related|]. intros s t Hst. apply related_reject; [apply Hst|done].
Qed.

Lemma kubernetes_config_related : related eq (KubernetesSecrets.ConfigFromEnvironment h) (KubernetesSecrets.ConfigFromEnvironment i).
Proof.
  unfold KubernetesSecrets.ConfigFromEnvironment. rewrite !twin_Getenv, (twin_namespace _ _ T) by set_solver.
  apply related_reject; [done|]. eapply related_bind; [apply twin_origin|]. intros a ? <-. apply related_eq.
Qed.

Lemma kubernetes_client_related c : related eq (KubernetesSecrets.NewClient h c) (KubernetesSecrets.NewClient i c).
Proof.
  unfold KubernetesSecrets.NewClient. eapply related_bind; [apply twin_origin|]. intros a ? <-. apply related_reject; [done|].
  eapply related_bind; [apply twin_roots|]. by intros.
Qed.

Lemma readToken_related c : related (λ _ _, True) (KubernetesSecrets.readToken h c) (KubernetesSecrets.readToken i c).
Proof.
  unfold KubernetesSecrets.readToken. eapply related_bind; [apply (twin_open _ _ T)|]. intros f g [_ Hc].
  eapply (related_limited _ _ (λ _ _, True)); [done|exact Hc|by intros s t [[] _]| |].
  - intros s t [Hst _] Hw. rewrite <-(class_token _ _ Hst), Hw. cbv zeta. by apply related_reject; [apply Hst|].
  - intros s t Hs Ht. by rewrite Hs, Ht.
Qed.

Lemma kubernetes_resolve_related c namespace name field :
  related same_class (KubernetesSecrets.Resolve h c namespace name field) (KubernetesSecrets.Resolve i c namespace name field).
Proof.
  unfold KubernetesSecrets.Resolve. do 2 (apply related_reject; [done|]). eapply related_bind; [apply related_wrap, readToken_related|].
  intros a b _. eapply related_bind; [by apply related_wrap, twin_exchange|].
  intros [st x] [st' y] (Hst & _ & Ho). simpl in Hst, Ho. subst st'. apply related_reject; [done|].
  eapply related_bind; [apply related_decoded; [apply list_elem_of_further, list_elem_of_here|exact Ho]|]. intros d e (Hm & Hr & Hk). rewrite Hm, Hr. apply related_reject; [done|].
  apply related_reject; [by eapply bool_decide_ext, alike_empty|]. destruct (Hk field) as [v w Hvw|]; [|done]. unfold encoded_alike in Hvw.
  destruct (base64_decode v), (base64_decode w); try done. destruct Hvw as [Hempty Hvw]. apply related_reject; [by apply bool_decide_ext|done].
Qed.

Lemma resolveKubernetes_related location : related same_class (resolveKubernetes h location) (resolveKubernetes i location).
Proof.
  unfold resolveKubernetes. destruct (cut_byte _ location) as [[path field]|]; [|done]. apply related_reject; [done|].
  destruct (match cut_byte _ path with Some p => p | None => _ end) as [namespace name]. apply related_reject; [done|].
  eapply related_bind; [apply related_wrap, kubernetes_config_related|]. intros c ? <-.
  eapply related_bind; [apply related_wrap, kubernetes_client_related|]. intros d ? <-.
  eapply related_bind; [apply report_related, kubernetes_resolve_related|]. intros s t Hst. apply related_reject; [apply Hst|done].
Qed.

Lemma resolveEnvironment_related name : related same_class (resolveEnvironment h name) (resolveEnvironment i name).
Proof.
  unfold resolveEnvironment. apply related_reject; [done|]. cbv zeta.
  assert (same_class (default ""%string (LookupEnv h name)) (default ""%string (LookupEnv i name))) as Hc.
  { destruct (twin_env _ _ T name); [done|apply same_class_refl]. }
  do 2 (apply related_reject; [apply Hc|]). exact Hc.
Qed.

Lemma resolveFile_related path : related same_class (resolveFile h path) (resolveFile i path).
Proof.
  unfold resolveFile. rewrite (twin_stat _ _ T). apply related_reject; [done|]. destruct (Stat i path) as [info|]; [|done].
  eapply related_bind; [apply related_wrap, related_eq|]. intros regular ? <-. apply related_reject; [done|].
  eapply related_bind; [apply related_wrap, (twin_open _ _ T)|]. intros f g [Hr Hc]. rewrite Hr.
  eapply related_bind; [apply related_wrap, related_eq|]. intros reg ? <-. apply related_reject; [done|].
  eapply (related_limited _ _ same_class); [done|exact Hc|by intros s t [[] _]| |].
  - intros s t [Hst _] Hw. do 2 (apply related_reject; [apply Hst|]). exact Hst.
  - intros s t Hs Ht. by rewrite (beyond_nonempty maxCredentialBytes s ltac:(done) Hs), (beyond_nonempty maxCredentialBytes t ltac:(done) Ht), Hs, Ht.
Qed.
End twins.

(** The host whose transport fails and tells of the request in its error, the token apart; and
    what [Resolve] says on it: the request it makes, of which there is at most one. *)
Definition request_error (r : HTTPRequest) : error :=
  Errorf false "request" ([http_method r; http_url r; default ""%string (http_body r); http_roots r] ++ (http_headers r ≫= λ kv, [kv.1; kv.2]))%list None.
Definition wiretap (h : CredentialHost) : CredentialHost :=
  mkHost (LookupEnv h) (Stat h) (OpenPath h) (valid_pem h) (parse_url h) (λ r, Err (request_error r)).
Fixpoint told (e : error) : option (list string) :=
  match e with
  | Errorf _ format operands None => if String.eqb format "request" then Some operands else None
  | Errorf _ format _ (Some cause) => if bool_decide (format ∈ decode_formats) then None else told cause
  end.
Definition request_of (h : CredentialHost) (reference : string) : option (list string) :=
  match Resolve (wiretap h) reference with Err e => told e | Ok _ => None end.

Lemma same_told e f : same_error e f → told e = told f.
Proof.
  induction 1 as [|u format operands e f _ IH|format operands e f Hf _]; [done|cbn; by rewrite IH|]. cbn. by rewrite !bool_decide_eq_true_2.
Qed.

Lemma wiretap_twins h i : twins h i → twins (wiretap h) (wiretap i).
Proof.
  intros [H1 H2 H3 H4 H5 H6 H7]. split; try done. intros r q (Hm&Hu&Hh&Hb&Hr). cbn. unfold request_error. rewrite Hm, Hu, Hh, Hb, Hr. constructor.
Qed.

Lemma Resolve_related h i reference : twins h i → related same_class (Resolve h reference) (Resolve i reference).
Proof.
  intros T. unfold Resolve. do 2 (apply related_reject; [done|]). destruct (cut_byte _ reference) as [[kind location]|]; [|constructor].
  apply related_reject; [done|].
  repeat case_match; [by apply resolveEnvironment_related|by apply resolveFile_related|by apply resolveVault_related|by apply resolveKubernetes_related|constructor].
Qed.

(** C11: resolving a reference tells the credential to nobody but the decoder.  Take two hosts
    that differ in their secrets - the values of environment variables that are no settings, the
    contents of files, the token and the fields the server holds - where each secret has on both
    the same class: empty or not, blank or not, beyond a limit or not, a string or not, base64 or
    not; and whose servers answer requests that differ in the token alone with bodies that decode
    to such fields, or on both do not decode.  Then the request that is made is the same on both
    but for its token, and [Resolve] gives the credential on both or fails on both with the same
    error, format by format and operand by operand, except for the text that the JSON decoder
    gave below a decode error. *)
Theorem Resolve_hides_credential (h i : CredentialHost) (reference : string) :
  twins h i → related same_class (Resolve h reference) (Resolve i reference) ∧ request_of h reference = request_of i reference.
Proof.
  intros T. split; [by apply Resolve_related|]. pose proof (Resolve_related _ _ reference (wiretap_twins _ _ T)) as Hw. unfold request_of.
  destruct (Resolve (wiretap h) reference), (Resolve (wiretap i) reference); simpl in Hw; try done. by apply same_told.
Qed.
End hiding.

(** ** What a missing credential is *)

Section missing.
Context `{SecretCodec}.

(** [ends r P Q]: [r] is a value in [P], or an error that reports a missing credential only
    where [Q]. *)
Definition ends {A} (r : outcome_of A) (P : A → Prop) (Q : Prop) : Prop :=
  match r with Ok a => P a | Err e => is_unavailable e = true → Q end.

Lemma ends_in_bind {A B} (r : outcome_of A) (f : A → outcome_of B) P P' Q :
  ends r P' Q → (∀ a, r = Ok a → P' a → ends (f a) P Q) → ends (match r with Ok a => f a | Err e => Err e end) P Q.
Proof. destruct r; simpl; auto. Qed.
Lemma ends_wrap {A} format operands (r : outcome_of A) P Q : ends r P Q → ends (wrap format operands r) P Q.
Proof. by destruct r. Qed.
Lemma ends_reject {A} (c : bool) e (r : outcome_of A) P Q : (c = true → is_unavailable e = true → Q) → (c = false → ends r P Q) →
  ends (reject c with e ;; r) P Q.
Proof. destruct c; simpl; auto. Qed.
Lemma ends_in_weaken {A} (r : outcome_of A) (P P' : A → Prop) (Q Q' : Prop) : ends r P Q → (∀ a, P a → P' a) → (Q → Q') → ends r P' Q'.
Proof. destruct r; simpl; auto. Qed.

(** No other layer makes the error that reports a missing credential. *)
Abbreviation plain r := (ends r (λ _, True) False).
Record plain_errors (h : CredentialHost) : Prop := {
  plain_stat path r : Stat h path = Some r → plain r;
  plain_open path : ends (OpenPath h path) (λ f, plain (file_regular f) ∧ plain (file_content f)) False;
  plain_request r : ends (do_request h r) (λ x, plain x.2) False;
  plain_secret body : plain (decode_secret body);
  plain_object body : plain (decode_object body);
}.

(** The credential is not there: no variable or an empty one, no file, or, where the provider is
    configured and its server answers, no secret, no version of it or no field, or an empty
    field. *)
Definition not_in_secret (d : VaultSecret) (field : string) : Prop :=
  secret_destroyed d = true ∨ secret_deletion_time d ≠ ""%string ∨ secret_data d !! field = None ∨ secret_data d !! field = Some (any_string "").
Definition missing_in_vault (h : CredentialHost) (location : string) : Prop :=
  ∃ path field config c status body, cut_byte "#"%char location = Some (path, field) ∧ path ≠ ""%string ∧ field ≠ ""%string ∧
    Vault.ConfigFromEnvironment h = Ok config ∧ Vault.NewClient h config = Ok c ∧
    exchange h (Vault.vault_request c "GET" (Vault.secret_path c path) None) = Ok (status, body) ∧
    (status = 404 ∨ status = 200 ∧ ∃ d, decode_secret body = Ok d ∧ not_in_secret d field).
Definition not_in_object (d : KubernetesSecret) (field : string) : Prop :=
  object_data d !! field = None ∨ ∃ encoded, object_data d !! field = Some encoded ∧ base64_decode encoded = Some [].
(** [namespace/name], or a name in the default namespace *)
Definition secret_name (c : KubernetesSecrets.Config) (path : string) : string * string :=
  let '(namespace, name) := match cut_byte "/"%char path with Some p => p | None => (""%string, path) end in
  (if String.eqb namespace "" then KubernetesSecrets.DefaultNamespace c else namespace, name).
Definition missing_in_kubernetes (h : CredentialHost) (location : string) : Prop :=
  ∃ path field config c token status body, cut_byte "#"%char location = Some (path, field) ∧ path ≠ ""%string ∧ field ≠ ""%string ∧
    KubernetesSecrets.ConfigFromEnvironment h = Ok config ∧ KubernetesSecrets.NewClient h config = Ok c ∧
    let '(namespace, name) := secret_name c path in
    namespace ≠ ""%string ∧ name ≠ ""%string ∧ KubernetesSecrets.readToken h c = Ok token ∧
    exchange h (KubernetesSecrets.object_request c namespace name token) = Ok (status, body) ∧
    (status = 404 ∨ status = 200 ∧ ∃ d, decode_object body = Ok d ∧ not_in_object d field).
Definition missing (h : CredentialHost) (reference : string) : Prop :=
  slen reference <= maxReferenceBytes ∧
  ∃ kind location, cut_byte ":"%char reference = Some (kind, location) ∧ location ≠ ""%string ∧
    ((kind = "env"%string ∧ validEnvironmentName location = true ∧ default ""%string (LookupEnv h location) = ""%string) ∨
     (kind = "file"%string ∧ absolute_path location = true ∧ Stat h location = None) ∨
     (kind = "vault"%string ∧ missing_in_vault h location) ∨
     (kind = "k8s"%string ∧ missing_in_kubernetes h location)).

Definition usable (v : string) : Prop := v ≠ ""%string ∧ slen v <= maxCredentialBytes.

Section plain.
Context (h : CredentialHost) (Hh : plain_errors h).

Lemma read_plain path : plain (ReadFile h path).
Proof. eapply ends_in_bind; [apply (plain_open _ Hh)|]. by intros f _ [_ ?]. Qed.
Lemma limited_plain n r w os : plain r → plain (wrap w os (read_limited n r)).
Proof. by destruct r. Qed.

Lemma exchange_plain r : plain (exchange h r).
Proof.
  unfold exchange. apply ends_reject; [done|]. intros _. eapply ends_in_bind; [apply (plain_request _ Hh)|]. intros x _ Hx.
  eapply ends_in_bind; [by apply limited_plain|]. intros body _ _. by apply ends_reject.
Qed.

Lemma origin_plain unset variable address : plain (https_origin h unset variable address).
Proof. unfold https_origin. apply ends_reject; [done|]. intros _. destruct (parse_url h address); [|done]. by do 2 (apply ends_reject; [done|intros _]). Qed.
Lemma roots_plain path a b operands : plain (load_roots h path a b operands).
Proof. unfold load_roots. destruct (String.eqb path ""); [done|]. eapply ends_in_bind; [apply ends_wrap, read_plain|]. intros pem _ _. by destruct (valid_pem h pem). Qed.

Lemma vault_config_plain : plain (Vault.ConfigFromEnvironment h).
Proof.
  unfold Vault.ConfigFromEnvironment. eapply ends_in_bind; [apply origin_plain|]. intros a _ _.
  eapply ends_in_bind with (P' := λ _, True); [|done]. unfold Vault.tokenFromEnvironment. destruct (_ && _); [done|].
  destruct (negb (String.eqb (Getenv h "VAULT_TOKEN_FILE") "")).
  - apply ends_reject; [done|]. intros _. eapply ends_in_bind; [apply ends_wrap, read_plain|]. intros s _ _. by apply ends_reject.
  - by destruct (negb _).
Qed.
Lemma vault_client_plain c : plain (Vault.NewClient h c).
Proof.
  unfold Vault.NewClient. eapply ends_in_bind; [apply origin_plain|]. intros a _ _. apply ends_reject; [done|]. intros _.
  by eapply ends_in_bind; [apply roots_plain|].
Qed.
Lemma kubernetes_config_plain : plain (KubernetesSecrets.ConfigFromEnvironment h).
Proof.
  unfold KubernetesSecrets.ConfigFromEnvironment. apply ends_reject; [done|]. intros _. eapply ends_in_bind; [apply origin_plain|]. intros a _ _.
  do 2 (apply ends_reject; [done|intros _]). done.
Qed.
Lemma kubernetes_client_plain c : plain (KubernetesSecrets.NewClient h c).
Proof.
  unfold KubernetesSecrets.NewClient. eapply ends_in_bind; [apply origin_plain|]. intros a _ _. apply ends_reject; [done|]. intros _.
  by eapply ends_in_bind; [apply roots_plain|].
Qed.

Lemma report_missing_ends r P Q : ends r P Q → ends (report_missing r) P Q.
Proof. destruct r as [v|e]; simpl; [done|]. by destruct (is_unavailable e) eqn:E; simpl; rewrite ?E. Qed.

Lemma wrap_ok {A} format operands (r : outcome_of A) a : wrap format operands r = Ok a → r = Ok a.
Proof. destruct r; simpl; [|done]. by intros [= ->]. Qed.

Lemma resolveVault_ends location : ends (resolveVault h location) usable (missing_in_vault h location).
Proof.
  unfold resolveVault. destruct (cut_byte _ location) as [[path field]|] eqn:Hcut; [|done]. apply ends_reject; [done|].
  intros [Hp%String.eqb_neq Hf%String.eqb_neq]%orb_false_iff.
  eapply ends_in_bind; [eapply ends_in_weaken; [apply ends_wrap, vault_config_plain|done|done]|]. intros c0 Hc0%wrap_ok _.
  eapply ends_in_bind; [eapply ends_in_weaken; [apply ends_wrap, vault_client_plain|done|done]|]. intros c Hc%wrap_ok _.
  eapply ends_in_bind with (P' := λ v, v ≠ ""%string);
    [apply report_missing_ends|intros v _ Hv; apply ends_reject; [done|]; intros Hsz%Z.ltb_ge; done].
  unfold Vault.Resolve. apply ends_reject; [done|]. intros _.
  eapply ends_in_bind; [eapply ends_in_weaken; [apply ends_wrap, exchange_plain|exact (λ _ _, I)|done]|]. intros [st body] Hx%wrap_ok _.
  assert (st = 404 ∨ st = 200 ∧ (∃ d, decode_secret body = Ok d ∧ not_in_secret d field) → missing_in_vault h location) as Hmiss
    by (intros Hm; by exists path, field, c0, c, st, body).
  apply ends_reject; [intros ->%Z.eqb_eq _; apply Hmiss; by left|]. intros _.
  eapply ends_in_bind; [eapply ends_in_weaken; [apply ends_wrap, (plain_secret _ Hh)|exact (λ _ _, I)|done]|]. intros d Hd%wrap_ok _.
  apply ends_reject; [done|]. intros Hst%negb_false_iff%Z.eqb_eq.
  assert (not_in_secret d field → missing_in_vault h location) as Hm by (intros ?; apply Hmiss; right; split; [done|]; by exists d).
  unfold not_in_secret in Hm.
  apply ends_reject; [intros [?|Hne%negb_true_iff%String.eqb_neq]%orb_true_iff _; apply Hm; auto|]. intros _.
  apply ends_reject; [intros Hempty%bool_decide_eq_true _; apply Hm; rewrite Hempty, lookup_empty; auto|]. intros _.
  destruct (secret_data d !! field) as [[| | |value| |]|]; try done; [|intros _; apply Hm; auto].
  apply ends_reject; [intros ->%String.eqb_eq _; apply Hm; auto|]. by intros Hne%String.eqb_neq.
Qed.

Lemma string_of_nonempty l : l ≠ [] → string_of_bytes l ≠ ""%string.
Proof. by destruct l. Qed.

Lemma readToken_plain c : plain (KubernetesSecrets.readToken h c).
Proof.
  unfold KubernetesSecrets.readToken. eapply ends_in_bind; [apply (plain_open _ Hh)|]. intros f _ [_ Hc].
  eapply ends_in_bind; [by apply limited_plain|]. intros s _ _. by do 2 (apply ends_reject; [done|intros _]).
Qed.

Lemma resolveKubernetes_ends location : ends (resolveKubernetes h location) usable (missing_in_kubernetes h location).
Proof.
  unfold resolveKubernetes. destruct (cut_byte "#"%char location) as [[path field]|] eqn:Hcut; [|done]. apply ends_reject; [done|].
  intros [Hp%String.eqb_neq Hf%String.eqb_neq]%orb_false_iff.
  destruct (match cut_byte _ path with Some p => p | None => _ end) as [namespace0 name] eqn:Hname. apply ends_reject; [done|]. intros Hn%String.eqb_neq.
  eapply ends_in_bind; [eapply ends_in_weaken; [apply ends_wrap, kubernetes_config_plain|done|done]|]. intros c0 Hc0%wrap_ok _.
  eapply ends_in_bind; [eapply ends_in_weaken; [apply ends_wrap, kubernetes_client_plain|done|done]|]. intros c Hc%wrap_ok _.
  eapply ends_in_bind with (P' := λ v, v ≠ ""%string);
    [apply report_missing_ends|intros v _ Hv; apply ends_reject; [done|]; intros Hsz%Z.ltb_ge; done].
  unfold KubernetesSecrets.Resolve. set (namespace := if String.eqb namespace0 "" then _ else _).
  apply ends_reject; [done|]. intros Hns%String.eqb_neq. apply ends_reject; [done|]. intros _.
  eapply ends_in_bind; [eapply ends_in_weaken; [apply ends_wrap, readToken_plain|exact (λ _ _, I)|done]|]. intros token Htok%wrap_ok _.
  eapply ends_in_bind; [eapply ends_in_weaken; [apply ends_wrap, exchange_plain|exact (λ _ _, I)|done]|]. intros [st body] Hx%wrap_ok _.
  assert (st = 404 ∨ st = 200 ∧ (∃ d, decode_object body = Ok d ∧ not_in_object d field) → missing_in_kubernetes h location) as Hmiss.
  { intros Hm. exists path, field, c0, c, token, st, body. unfold secret_name. rewrite Hname. by split_and!. }
  apply ends_reject; [intros ->%Z.eqb_eq _; apply Hmiss; by left|]. intros _.
  eapply ends_in_bind; [eapply ends_in_weaken; [apply ends_wrap, (plain_object _ Hh)|exact (λ _ _, I)|done]|]. intros d Hd%wrap_ok _.
  apply ends_reject; [done|]. intros Hst%negb_false_iff%Z.eqb_eq.
  assert (not_in_object d field → missing_in_kubernetes h location) as Hm by (intros ?; apply Hmiss; right; split; [done|]; by exists d).
  unfold not_in_object in Hm.
  apply ends_reject; [intros Hempty%bool_decide_eq_true _; apply Hm; rewrite Hempty, lookup_empty; auto|]. intros _.
  destruct (object_data d !! field) as [encoded|]; [|intros _; apply Hm; auto].
  destruct (base64_decode encoded) as [value|] eqn:Hb; [|done].
  apply ends_reject; [intros ->%bool_decide_eq_true _; apply Hm; right; by exists encoded|].
  intros Hv%bool_decide_eq_false. by apply string_of_nonempty.
Qed.

Lemma resolveFile_ends path : ends (resolveFile h path) usable (absolute_path path = true ∧ Stat h path = None).
Proof.
  unfold resolveFile. apply ends_reject; [done|]. intros Habs%negb_false_iff. destruct (Stat h path) as [info|] eqn:Hs; [|done].
  eapply ends_in_bind; [eapply ends_in_weaken; [apply ends_wrap, (plain_stat _ Hh _ _ Hs)|exact (λ _ _, I)|done]|]. intros r1 _ _.
  apply ends_reject; [done|]. intros _. eapply ends_in_bind; [eapply ends_in_weaken; [apply ends_wrap, (plain_open _ Hh)|exact (λ _ x, x)|done]|].
  intros f _ [Hr Hc]. eapply ends_in_bind; [eapply ends_in_weaken; [apply ends_wrap, Hr|exact (λ _ _, I)|done]|]. intros r2 _ _.
  apply ends_reject; [done|]. intros _. eapply ends_in_bind; [eapply ends_in_weaken; [by apply limited_plain|exact (λ _ _, I)|done]|]. intros v _ _.
  apply ends_reject; [done|]. intros Hne%String.eqb_neq. apply ends_reject; [done|]. by intros Hsz%Z.ltb_ge.
Qed.

Lemma resolveEnvironment_ends name : ends (resolveEnvironment h name) usable (validEnvironmentName name = true ∧ default ""%string (LookupEnv h name) = ""%string).
Proof.
  unfold resolveEnvironment. apply ends_reject; [done|]. intros Hname%negb_false_iff. cbv zeta. apply ends_reject; [by intros ?%String.eqb_eq|].
  intros Hne%String.eqb_neq. apply ends_reject; [done|]. by intros Hsz%Z.ltb_ge.
Qed.

(** *** What is missing is reported so *)

Abbreviation unavailable r := (∃ e, r = Err e ∧ is_unavailable e = true).

Lemma report_unavailable (r : outcome_of string) : unavailable r → unavailable (report_missing r).
Proof. intros (e&->&He). cbn. rewrite He. by eexists. Qed.

Lemma resolveVault_missing location : missing_in_vault h location → unavailable (resolveVault h location).
Proof.
  intros (path&field&config&c&status&body&Hcut&Hp%String.eqb_neq&Hf%String.eqb_neq&Hconf&Hc&Hx&Hm).
  assert (unavailable (Vault.Resolve h c path field)) as (e&He&Hu).
  { unfold Vault.Resolve. rewrite Hp, Hf, Hx. cbn -[Z.eqb]. destruct (status =? 404) eqn:H4; [by eexists|].
    destruct Hm as [->|(->&d&Hd&Hm)]; [done|]. rewrite Hd. cbn. destruct (_ || _) eqn:Hgone; [by eexists|]. apply orb_false_iff in Hgone as [Hgone Hdel%negb_false_iff%String.eqb_eq].
    destruct (bool_decide_reflect (secret_data d = ∅)); [by eexists|].
    destruct Hm as [Hm|[Hm|[Hm|Hm]]]; [congruence|done|rewrite Hm; by eexists..]. }
  unfold resolveVault. rewrite Hcut, Hp, Hf, Hconf. cbn. rewrite Hc. cbn. rewrite He. cbn. rewrite Hu. by eexists.
Qed.

Lemma resolveKubernetes_missing location : missing_in_kubernetes h location → unavailable (resolveKubernetes h location).
Proof.
  intros (path&field&config&c&token&status&body&Hcut&Hp%String.eqb_neq&Hf%String.eqb_neq&Hconf&Hc&Hm). unfold secret_name in Hm.
  unfold resolveKubernetes. rewrite Hcut, Hp, Hf. cbn [orb]. destruct (match cut_byte _ path with Some p => p | None => _ end) as [namespace0 name].
  destruct Hm as (Hns%String.eqb_neq&Hn%String.eqb_neq&Htok&Hx&Hm). rewrite Hn, Hconf. cbn [wrap]. rewrite Hc. cbn [wrap].
  assert (unavailable (KubernetesSecrets.Resolve h c namespace0 name field)) as (e&He&Hu).
  { unfold KubernetesSecrets.Resolve. cbv zeta. rewrite Hns, Hn, Hf, Htok. cbn [orb wrap]. rewrite Hx. cbn -[Z.eqb]. destruct (status =? 404) eqn:H4; [by eexists|].
    destruct Hm as [->|(->&d&Hd&Hm)]; [done|]. rewrite Hd. cbn. destruct (bool_decide_reflect (object_data d = ∅)); [by eexists|].
    destruct Hm as [->|(encoded&->&->)]; [by eexists|]. cbn. by eexists. }
  rewrite He. cbn. rewrite Hu. by eexists.
Qed.

Lemma Resolve_missing reference : missing h reference → unavailable (Resolve h reference).
Proof.
  intros (Hlen&kind&location&Hcut&Hloc%String.eqb_neq&Hm). unfold Resolve.
  assert (String.eqb reference "" = false) as -> by (by destruct reference). rewrite (proj2 (Z.ltb_ge _ _) Hlen), Hcut, Hloc.
  destruct Hm as [(->&Hname&Henv)|[(->&Habs&Hstat)|[(->&Hm)|(->&Hm)]]]; cbn.
  - unfold resolveEnvironment. rewrite Hname, Henv. by eexists.
  - unfold resolveFile. rewrite Habs, Hstat. by eexists.
  - by apply resolveVault_missing.
  - by apply resolveKubernetes_missing.
Qed.
End plain.

(** C35: a reference resolves to a credential that is not empty and within the bound, or fails,
    and it fails with [ErrUnavailable] - the failure that callers may ignore for an optional
    credential - exactly when the credential is not there: the reference is well formed, and the
    variable is unset or empty, or the file does not exist, or the provider is configured and its
    server answers that there is no such secret, or with a secret that has no live version, no
    such field, or an empty one; never for a server that refuses or cannot be reached, an answer
    that does not decode, or a file that cannot be read.  The errors of other layers, of the
    file system, the transport and the decoders, are not [ErrUnavailable] ([plain_errors]). *)
Theorem Resolve_reports_missing (h : CredentialHost) (reference : string) : plain_errors h →
  match Resolve h reference with
  | Ok v => v ≠ ""%string ∧ slen v <= maxCredentialBytes ∧ ¬ missing h reference
  | Err e => is_unavailable e = true ↔ missing h reference
  end.
Proof.
  intros Hh. assert (ends (Resolve h reference) usable (missing h reference)) as He.
  { unfold Resolve. apply ends_reject; [done|]. intros _. apply ends_reject; [done|]. intros Hlen%Z.ltb_ge.
    destruct (cut_byte _ reference) as [[kind location]|] eqn:Hcut; [|done]. apply ends_reject; [done|]. intros Hloc%String.eqb_neq.
    destruct (String.eqb_spec kind "env") as [->|_];
      [eapply ends_in_weaken; [by apply resolveEnvironment_ends|done|intros Hm; split; [done|]; exists "env"%string, location; auto 10]|].
    destruct (String.eqb_spec kind "file") as [->|_];
      [eapply ends_in_weaken; [by apply resolveFile_ends|done|intros Hm; split; [done|]; exists "file"%string, location; auto 10]|].
    destruct (String.eqb_spec kind "vault") as [->|_];
      [eapply ends_in_weaken; [by apply resolveVault_ends|done|intros Hm; split; [done|]; exists "vault"%string, location; auto 10]|].
    destruct (String.eqb_spec kind "k8s") as [->|_];
      [eapply ends_in_weaken; [by apply resolveKubernetes_ends|done|intros Hm; split; [done|]; exists "k8s"%string, location; auto 10]|].
    done. }
  pose proof (Resolve_missing h reference) as Hm. destruct (Resolve h reference) as [v|e]; simpl in He.
  - destruct He as [Hne Hsz]. split_and!; [done|done|]. intros (e&?&_)%Hm. done.
  - split; [done|]. by intros (e'&[= <-]&He')%Hm.
Qed.
End missing.

(** A path is not escaped: one with a query asks for another version than the latest. *)
Example path_may_hold_a_query :
  http_url (Vault.vault_request (Vault.mkConfig "https://vault:8200" "" "secret" "t" "") "GET"
    (Vault.secret_path (Vault.mkConfig "https://vault:8200" "" "secret" "t" "") "app?version=1") None) =
  "https://vault:8200/v1/secret/data/app?version=1"%string.
Proof. done. Qed.

(** What the decoder says of a body reaches the caller: [encoding/json] quotes a number that is out
    of range. *)
Example decode_error_reaches_caller (quote : string → error) :
  let codec := {| decode_secret body := Err (quote body); decode_lookup _ := Err (errors_New "");
                  decode_renewal _ := Err (errors_New ""); decode_object _ := Err (errors_New "") |} in
  let h := mkHost (λ _, None) (λ _, None) (λ _, Err (errors_New "")) (λ _, true) (λ _, Some (mkURL "https" "" None "vault" "" "" false "" ""))
             (λ _, Ok (200, Ok "{pin:1e999}"%string)) in
  Vault.Resolve (H := codec) h (Vault.mkConfig "https://vault" "" "secret" "t" "") "app" "password" =
  Err (Errorf false "decode vault response for secret %q: %w" ["app"%string] (Some (quote "{pin:1e999}"%string))).
Proof. reflexivity. Qed.

(** ** Witnesses *)

(** Servers that answer with the text of the field itself *)
#[local] Instance demo_codec : SecretCodec := {|
  decode_secret body := Ok (mkVaultSecret {["password"%string := any_string body]} false "" []);
  decode_lookup body := Ok (3600, true, []);
  decode_renewal body := Ok (Some (3600, true), []);
  decode_object body := Ok (mkKubernetesSecret {["password"%string := body]} "" "");
|}.

Definition demo_host (token password : string) : CredentialHost := mkHost
  (λ name, if String.eqb name "VAULT_ADDR" then Some "https://vault:8200"%string
           else if String.eqb name "VAULT_TOKEN" then Some token
           else if String.eqb name "DB_PASSWORD" then Some password else None)
  (λ _, None) (λ path, Err (errors_New "no such file")) (λ _, true)
  (λ _, Some (mkURL "https" "" None "vault:8200" "" "" false "" ""))
  (λ _, Ok (200, Ok password)).

Lemma same_class_by s t :
  Bool.eqb (String.eqb s "") (String.eqb t "") && Bool.eqb (String.eqb (trim_space s) "") (String.eqb (trim_space t) "") &&
  Bool.eqb (maxCredentialBytes <? slen s) (maxCredentialBytes <? slen t) &&
  Bool.eqb (KubernetesSecrets.maxTokenBytes <? slen s) (KubernetesSecrets.maxTokenBytes <? slen t) = true → same_class s t.
Proof. intros [[[?%eqb_prop ?%eqb_prop]%andb_true_iff ?%eqb_prop]%andb_true_iff ?%eqb_prop]%andb_true_iff. by split. Qed.

Lemma singleton_alike {A} (P : A → A → Prop) (x : string) a b : P a b → ∀ k, option_Forall2 P (({[x := a]} : gmap string A) !! k) (({[x := b]} : gmap string A) !! k).
Proof.
  intros HP k. destruct (decide (k = x)) as [->|Hk]; [rewrite !lookup_singleton_eq; by constructor|].
  rewrite !lookup_singleton_ne by done. constructor.
Qed.

Lemma demo_twins : twins (demo_host "s.one" "hunter2") (demo_host "s.two-longer" "correct horse").
Proof.
  assert (same_class "hunter2" "correct horse") as Hp by (by apply same_class_by).
  split; try done.
  - intros name Hn. simpl. repeat (apply elem_of_cons in Hn as [->|Hn]; [done|]). by apply elem_of_nil in Hn.
  - intros name. simpl. repeat case_match; constructor; [apply same_class_refl|by apply same_class_by|done].
  - intros path. constructor.
  - intros r q _. split; [done|]. split; [done|]. split; split_and!; try done; by apply singleton_alike.
Qed.

Lemma Resolve_hides_credential_witness :
  Resolve (demo_host "s.one" "hunter2") "vault:app#password" = Ok "hunter2"%string ∧
  request_of (demo_host "s.one" "hunter2") "vault:app#password" = Some ["GET"; "https://vault:8200/v1/secret/data/app"; ""; ""]%string ∧
  (related same_class (Resolve (demo_host "s.one" "hunter2") "vault:app#password") (Resolve (demo_host "s.two-longer" "correct horse") "vault:app#password") ∧
   request_of (demo_host "s.one" "hunter2") "vault:app#password" = request_of (demo_host "s.two-longer" "correct horse") "vault:app#password") ∧
  related same_class (Resolve (demo_host "s.one" "hunter2") "vault:app#user") (Resolve (demo_host "s.two-longer" "correct horse") "vault:app#user").
Proof.
  split; [vm_compute; reflexivity|]. split; [vm_compute; reflexivity|]. split; [apply Resolve_hides_credential, demo_twins|].
  exact (proj1 (Resolve_hides_credential _ _ "vault:app#user" demo_twins)).
Defined.

Lemma demo_plain : plain_errors (demo_host "s.one" "hunter2").
Proof. by split. Qed.

Lemma Resolve_reports_missing_witness :
  match Resolve (demo_host "s.one" "hunter2") "vault:app#user" with
  | Ok v => v ≠ ""%string ∧ slen v <= maxCredentialBytes ∧ ¬ missing (demo_host "s.one" "hunter2") "vault:app#user"
  | Err e => is_unavailable e = true ↔ missing (demo_host "s.one" "hunter2") "vault:app#user"
  end ∧
  is_ok (Resolve (demo_host "s.one" "hunter2") "env:DB_PASSWORD") = true.
Proof. split; [apply Resolve_reports_missing, demo_plain|vm_compute; reflexivity]. Defined.
