(* ===== verification/Collector.v ===== *)
(** * [internal/enrollment]: the collector's side

    [client.go], the certificate files of [tls.go], and the commands of [cmd/topo] that
    enroll a collector and rotate its certificate, run against the controller of
    [Controller].  Files hold symbolic PEM texts; a file whose writing was
    cut is [pem_torn].  Every effect may fail or be the last one; a request may be processed
    although its answer is lost.  Keys are named by their public key. *)

From S2P Require Import Prelude Effects Bytes Text Strconv Time Model AuditLog Claims Memory Enrollment Repository Jobs Controller WinRM.

(** Maps from strings compare their keys as strings. *)
#[local] Existing Instance String.eq_dec.

(** ** Files *)

Inductive pem_content := pem_certificate (p : pem_text) | pem_key (public : string) | pem_torn.

Definition ClientCertFile : string := "client-cert.pem".
Definition ClientKeyFile : string := "client-key.pem".
Definition CACertFile : string := "ca-cert.pem".

(** How much of a file is there when writing it fails or the process dies. *)
Inductive written := untouched | truncated | complete.
Definition write_content (r : written) (name : string) (content : pem_content) (files : gmap string pem_content) : gmap string pem_content :=
  match r with untouched => files | truncated => <[name := pem_torn]> files | complete => <[name := content]> files end.

(** [AppendCertsFromPEM] takes the certificates it finds. *)
Definition appends (file : pem_content) : option Certificate :=
  match file with pem_certificate (pem_block t (Some cert)) => if String.eqb t "CERTIFICATE" then Some cert else None | _ => None end.

Record TLSConfig := mkTLSConfig { tls_certificate : Certificate; tls_key : string; tls_roots : Certificate }.

(** [tls.LoadX509KeyPair]: the key must be that of the certificate. *)
Definition LoadX509KeyPair (files : gmap string pem_content) : go (Certificate * string) :=
  match files !! ClientCertFile ≫= appends, files !! ClientKeyFile with
  | Some cert, Some (pem_key public) =>
    reject negb (String.eqb (Cert_PublicKey cert) public) with "tls: private key does not match public key"%string ;;
    Ok (cert, public)
  | _, _ => Err "tls: failed to find a certificate and its key"%string
  end.

Definition LoadClientTLSConfig (absolute : bool) (files : gmap string pem_content) : go TLSConfig :=
  reject negb absolute with "certificate directory must be an absolute path"%string ;;
  match LoadX509KeyPair files with
  | Err _ => Err "load enrolled certificate: %w"%string
  | Ok (cert, key) =>
    match files !! CACertFile with
    | None => Err "read CA certificate: %w"%string
    | Some file =>
      match appends file with
      | None => Err "CA certificate file does not contain a valid PEM certificate"%string
      | Some roots => Ok (mkTLSConfig cert key roots)
      end
    end
  end.

Definition currentCertificate (absolute : bool) (files : gmap string pem_content) : go Certificate :=
  reject negb absolute with "certificate directory must be an absolute path"%string ;;
  match files !! ClientCertFile with
  | None => Err "read current certificate: %w"%string
  | Some (pem_certificate (pem_block _ (Some cert))) => Ok cert
  | Some pem_torn | Some (pem_certificate pem_none) => Err "client certificate file does not contain a PEM block"%string
  | Some _ => Err "parse current certificate: %w"%string
  end.
Definition CurrentCollectorID (absolute : bool) (files : gmap string pem_content) : go string :=
  try cert := currentCertificate absolute files ;; Ok (Cert_CommonName cert).
Definition CurrentCertificateSerial (absolute : bool) (files : gmap string pem_content) : go string :=
  try cert := currentCertificate absolute files ;; Ok (CertificateSerial cert).

Record Result := mkResult {
  Result_CertificatePEM : pem_text; PrivateKeyPEM : string; Result_CACertificatePEM : pem_text; Result_SerialNumber : string; Result_ExpiresAt : time;
}.

(** ** The collector and its controller *)

(** [in_written] says what is left of a write that fails, [in_reached] whether a request
    whose answer is lost was processed; [in_key] is the key that is generated, [in_env] what
    the controller draws from outside. *)
Record CollectorInput := mkCollectorInput {
  in_ending : ending; in_written : written; in_reached : bool; in_key : string; in_env : Env;
}.

Record CollectorWorld (St : Type) := mkCollectorWorld { cert_files : gmap string pem_content; hub : Server St }.
Arguments mkCollectorWorld {St}.
Arguments cert_files {St}.
Arguments hub {St}.

Section collector.
Context {St : Type} `{Repository St}.
(** What an effect does when nothing is given for it; [x509.CreateCertificateRequest]; which
    certificates the verification of the controller finds to be signed by its authority. *)
Context (quiet : CollectorInput) (csr_der : string → string → list Z) (chains : Certificate → bool).

Abbreviation collecting := (prog CollectorInput (CollectorWorld St)).

Definition collector_effect {A} (text : string) (f : CollectorInput → A) : collecting A :=
  with_input quiet (λ i w, match in_ending i with Answered => (Done (f i), w) | Failing => (Failed text, w) | Dying => (Crashed, w) end).

Definition write_file (text name : string) (content : pem_content) : collecting unit :=
  with_input quiet (λ i w,
    let left r := mkCollectorWorld (write_content r name content (cert_files w)) (hub w) in
    match in_ending i with
    | Answered => (Done tt, left complete)
    | Failing => (Failed text, left (in_written i))
    | Dying => (Crashed, left (in_written i))
    end).

(** The handshake verifies a client certificate if one is given, at the server's time. *)
Definition handshake (t : time) (peer : option Certificate) : bool :=
  match peer with None => true | Some c => chains c && negb (Before t (Cert_NotBefore c)) && negb (After t (Cert_NotAfter c)) end.

(** One HTTP exchange, without or with a client certificate. *)
Definition exchange (peer : option Certificate) (e : endpoint) : collecting Response :=
  with_input quiet (λ i w,
    let '(served, answer) :=
      if handshake (now (in_env i) 0) peer
      then let '(s, r) := Handler (in_env i) (mkRequest "" (option_map (λ c, [c]) peer)) e (hub w) in (s, Done r)
      else (hub w, Failed "submit request: %w"%string) in
    let reached s := mkCollectorWorld (cert_files w) s in
    match in_ending i with
    | Answered => (answer, reached served)
    | Failing => (Failed "submit request: %w"%string, reached (if in_reached i then served else hub w))
    | Dying => (Crashed, reached (if in_reached i then served else hub w))
    end).

(** ** [client.go] *)

Definition validControllerURL (parsed : option URL) : go unit :=
  match parsed with
  | None => Err "controller URL must be an absolute http:// or https:// URL"%string
  | Some u =>
    reject (negb (String.eqb (Scheme u) "http") && negb (String.eqb (Scheme u) "https")) || String.eqb (Host u) ""
      with "controller URL must be an absolute http:// or https:// URL"%string ;;
    reject bool_decide (URL_User u ≠ None) || (negb (String.eqb (Path u) "") && negb (String.eqb (Path u) "/"))
      || ForceQuery u || negb (String.eqb (RawQuery u) "") || negb (String.eqb (Fragment u) "")
      with "controller URL must not contain credentials, a path, query parameters, or a fragment"%string ;;
    Ok tt
  end.

Definition generateKeyAndCSR (collectorID : string) : collecting (string * list Z) :=
  key ← collector_effect "generate collector key: %w" in_key;
  mret (key, csr_der collectorID key).

Definition submitCSR (peer : option Certificate) (e : endpoint) : collecting EnrollResponse :=
  answer ← exchange peer e;
  if negb (status answer =? 200) then lift (Err "controller rejected request with status %s: %s"%string)
  else match response_body answer with
  | enroll_body r => mret r
  | _ => lift (Err "decode response: %w"%string)
  end.

(** Marshalling a key that was just generated does not fail. *)
Definition resultFromResponse (key : string) (decoded : EnrollResponse) : go Result :=
  match CertificateSerialFromPEM (EnrollResponse_CertificatePEM decoded) with
  | Err _ => Err "decode issued certificate: %w"%string
  | Ok serial =>
    reject negb (String.eqb (EnrollResponse_SerialNumber decoded) "") &&
           match NormalizeCertificateSerial (EnrollResponse_SerialNumber decoded) with Err _ => true | Ok n => negb (String.eqb n serial) end
      with "controller response serial_number does not match the issued certificate"%string ;;
    Ok (mkResult (EnrollResponse_CertificatePEM decoded) key (EnrollResponse_CACertificatePEM decoded) serial (EnrollResponse_ExpiresAt decoded))
  end.

Definition bad_id : string := "collector ID is empty, too long, or contains control characters".

(** [bootstrap]: the CA certificate that was handed over, if any, and whether it parses. *)
Definition Enroll (parsed : option URL) (token collectorID : string) (bootstrap : option bool) : collecting Result :=
  if negb (ValidCollectorID collectorID) then lift (Err bad_id)
  else
    _ ← lift (validControllerURL parsed);
    '(key, csr) ← generateKeyAndCSR collectorID;
    _ ← lift (match bootstrap with
              | Some false => Err "bootstrap CA certificate does not contain a valid PEM certificate"%string
              | _ => Ok tt
              end);
    decoded ← wrapping "enroll" (submitCSR None (POST_enroll (Ok (mkEnrollRequest token collectorID (base64_encode csr)))));
    lift (resultFromResponse key decoded).

(** The certificate is presented to a TLS listener only. *)
Definition presented (parsed : option URL) (config : TLSConfig) : option Certificate :=
  match parsed with Some u => if String.eqb (Scheme u) "https" then Some (tls_certificate config) else None | None => None end.

Definition Rotate (parsed : option URL) (config : TLSConfig) (collectorID : string) : collecting Result :=
  if negb (ValidCollectorID collectorID) then lift (Err bad_id)
  else
    _ ← lift (validControllerURL parsed);
    '(key, csr) ← generateKeyAndCSR collectorID;
    decoded ← wrapping "rotate" (submitCSR (presented parsed config) (POST_rotate (Ok (mkRotateRequest (base64_encode csr)))));
    lift (resultFromResponse key decoded).

(** The three files, one after the other. *)
Definition WriteResult (absolute : bool) (result : Result) : collecting unit :=
  _ ← lift (if absolute then Ok tt else Err "certificate directory must be an absolute path"%string);
  _ ← collector_effect "create certificate directory: %w" (λ _, tt);
  _ ← collector_effect "restrict certificate directory permissions: %w" (λ _, tt);
  _ ← write_file "write client certificate: %w" ClientCertFile (pem_certificate (Result_CertificatePEM result));
  _ ← write_file "write client private key: %w" ClientKeyFile (pem_key (PrivateKeyPEM result));
  write_file "write CA certificate: %w" CACertFile (pem_certificate (Result_CACertificatePEM result)).

(** [topo agent enroll] and [topo agent rotate], their flags given. *)
Definition agentEnroll (parsed : option URL) (token collectorID : string) (bootstrap : option bool) : collecting unit :=
  result ← wrapping "enroll" (Enroll parsed token collectorID bootstrap);
  WriteResult true result.

Definition reading {A} (f : gmap string pem_content → go A) : collecting A := λ xs w, lift (f (cert_files w)) xs w.

Definition agentRotate (parsed : option URL) : collecting unit :=
  config ← wrapping "load current certificate" (reading (LoadClientTLSConfig true));
  collectorID ← wrapping "determine current collector ID" (reading (CurrentCollectorID true));
  oldSerial ← wrapping "determine current certificate serial" (reading (CurrentCertificateSerial true));
  result ← wrapping "rotate" (Rotate parsed config collectorID);
  WriteResult true result.
End collector.

(** ** Lemmas *)

(** *** Base64 *)

Lemma base64_digit_spec d : 0 <= d < 64 →
  base64_value (byte_val (base64_digit d)) = Some d ∧ byte_val (base64_digit d) ≠ 61 ∧ byte_val (base64_digit d) ≠ 10 ∧ byte_val (base64_digit d) ≠ 13.
Proof.
  intros Hd. assert (Forall (λ d, base64_value (byte_val (base64_digit d)) = Some d ∧ byte_val (base64_digit d) ≠ 61 ∧
    byte_val (base64_digit d) ≠ 10 ∧ byte_val (base64_digit d) ≠ 13) (seqZ 0 64)) as H
    by (refine (bool_decide_unpack _ _); vm_compute; exact I).
  rewrite Forall_forall in H. apply H. apply elem_of_seqZ. lia.
Qed.

Definition byte (b : Z) : Prop := 0 <= b < 256.

Lemma triples_ind (P : list Z → Prop) :
  P [] → (∀ a, P [a]) → (∀ a b, P [a; b]) → (∀ a b c l, P l → P (a :: b :: c :: l)) → ∀ l, P l.
Proof. intros H0 H1 H2 H3. fix IH 1. intros [|a [|b [|c l]]]; [done|apply H1|apply H2|apply H3, IH]. Qed.

Lemma bytes_of_cons c s : bytes_of (String c s) = byte_val c :: bytes_of s.
Proof. done. Qed.

Lemma base64_text_clean l : Forall byte l → Forall (λ b, ¬ (b = 10 ∨ b = 13)) (bytes_of (base64_encode l)).
Proof.
  assert (∀ d, 0 <= d < 64 → ¬ (byte_val (base64_digit d) = 10 ∨ byte_val (base64_digit d) = 13)) as Hd.
  { intros d Hd. pose proof (base64_digit_spec d Hd). naive_solver. }
  induction l as [|a|a b|a b c l IH] using triples_ind; intros Hl; unfold byte in *; cbn [base64_encode]; rewrite ?bytes_of_cons;
    repeat (apply Forall_cons in Hl as [? Hl]); repeat (apply Forall_cons; split); try (apply Hd); try apply Forall_nil; try done;
    try (Z.to_euclidean_division_equations; lia); try (vm_compute; intros [?|?]; discriminate).
  by apply IH.
Qed.

Lemma base64_quads_encode l : Forall byte l → base64_quads (bytes_of (base64_encode l)) = Some l.
Proof.
  induction l as [|a|a b|a b c l IH] using triples_ind; intros Hl; [done| | |]; unfold byte in *; repeat (apply Forall_cons in Hl as [? Hl]); cbn [base64_encode]; rewrite !bytes_of_cons.
  - pose proof (base64_digit_spec (a / 4) ltac:(Z.to_euclidean_division_equations; lia)) as (E1&_).
    pose proof (base64_digit_spec (a mod 4 * 16) ltac:(Z.to_euclidean_division_equations; lia)) as (E2&_).
    cbn [base64_quads]. rewrite E1. cbn. rewrite E2. cbn. do 2 f_equal. Z.to_euclidean_division_equations; lia.
  - pose proof (base64_digit_spec (a / 4) ltac:(Z.to_euclidean_division_equations; lia)) as (E1&_).
    pose proof (base64_digit_spec (a mod 4 * 16 + b / 16) ltac:(Z.to_euclidean_division_equations; lia)) as (E2&_).
    pose proof (base64_digit_spec (b mod 16 * 4) ltac:(Z.to_euclidean_division_equations; lia)) as (E3&H3&_).
    apply Z.eqb_neq in H3. cbn [base64_quads]. rewrite E1. cbn [mbind option_bind]. rewrite E2. cbn [mbind option_bind]. rewrite H3. cbn [andb].
    rewrite E3. cbn. do 2 f_equal; [|f_equal]; Z.to_euclidean_division_equations; lia.
  - pose proof (base64_digit_spec (a / 4) ltac:(Z.to_euclidean_division_equations; lia)) as (E1&_).
    pose proof (base64_digit_spec (a mod 4 * 16 + b / 16) ltac:(Z.to_euclidean_division_equations; lia)) as (E2&_).
    pose proof (base64_digit_spec (b mod 16 * 4 + c / 64) ltac:(Z.to_euclidean_division_equations; lia)) as (E3&H3&_).
    pose proof (base64_digit_spec (c mod 64) ltac:(Z.to_euclidean_division_equations; lia)) as (E4&H4&_).
    apply Z.eqb_neq in H3, H4. cbn [base64_quads]. rewrite E1. cbn [mbind option_bind]. rewrite E2. cbn [mbind option_bind]. rewrite H3. cbn [andb].
    rewrite E3. cbn [mbind option_bind]. rewrite H4, E4. cbn [mbind option_bind]. rewrite IH by done. cbn. do 2 f_equal; [|f_equal; [|f_equal]]; Z.to_euclidean_division_equations; lia.
Qed.

Lemma base64_decode_encode l : Forall byte l → base64_decode (base64_encode l) = Some l.
Proof.
  intros Hl. rewrite <-(base64_quads_encode l Hl) at 1. unfold base64_decode. f_equal.
  induction (base64_text_clean l Hl) as [|b k Hb _ IH]; [done|]. by rewrite filter_cons_True, IH.
Qed.

(** *** What the controller grants *)

(** The outside of one request: its signing request parses, and signing succeeds. *)
Definition grants (env : Env) (der : list Z) (key : string) (n : Z) : Prop :=
  Forall byte der ∧ parse_csr env der = Ok (mkCertificateRequest key true) ∧ serial env = Ok n ∧ 0 < n < 2 ^ 128 ∧ created env = Ok tt.

Definition issued (env : Env) (id key : string) (n : Z) : Certificate :=
  mkCertificate (Some n) id (Add (now env 1) (- clockSkewTolerance)) (Add (now env 1) DefaultCertificateTTL)
    ["KeyUsageDigitalSignature"%string] ["ExtKeyUsageClientAuth"%string] key.

Definition granted (env : Env) (id key : string) (n : Z) (root : Certificate) : EnrollResponse :=
  mkEnrollResponse (pem_block "CERTIFICATE" (Some (issued env id key n))) (pem_block "CERTIFICATE" (Some root)) (big_text16 n)
    (Add (now env 2) DefaultCertificateTTL).

Definition obtained (env : Env) (id key : string) (n : Z) (root : Certificate) : Result :=
  mkResult (pem_block "CERTIFICATE" (Some (issued env id key n))) key (pem_block "CERTIFICATE" (Some root)) (big_text16 n)
    (Add (now env 2) DefaultCertificateTTL).

Lemma granted_obtained env id key n root : 0 < n < 2 ^ 128 → resultFromResponse key (granted env id key n root) = Ok (obtained env id key n root).
Proof.
  intros Hn. unfold resultFromResponse. cbn. rewrite normalize_text16 by (split; [lia|]; transitivity (2 ^ 128)%Z; [lia|reflexivity]).
  by rewrite String.eqb_refl, andb_false_r.
Qed.

Lemma decode_csr_carried env der key n : grants env der key n → decode_csr env (base64_encode der) = Ok (mkCertificateRequest key true).
Proof. intros (Hb&Hp&_). unfold decode_csr. by rewrite base64_decode_encode, Hp. Qed.

Lemma issue_granted {St} `{Repository St} env der key n root id action detail (s : Server St) : grants env der key n →
  ∃ ev, issue_certificate env (mkCA (pem_block "CERTIFICATE" (Some root))) (mkCertificateRequest key true) id action detail s =
    (recordAudit (now env 3) action id ev s, mkResponse 200 (enroll_body (granted env id key n root))).
Proof. intros (_&_&Hs&_&Hc). unfold issue_certificate, Sign. rewrite Hs, Hc. cbn. by eexists. Qed.

(** *** The files a result leaves *)

Definition stored (r : Result) (files : gmap string pem_content) : gmap string pem_content :=
  <[CACertFile := pem_certificate (Result_CACertificatePEM r)]>
    (<[ClientKeyFile := pem_key (PrivateKeyPEM r)]> (<[ClientCertFile := pem_certificate (Result_CertificatePEM r)]> files)).

Lemma stored_loads env id key n root files :
  let files := stored (obtained env id key n root) files in
  LoadClientTLSConfig true files = Ok (mkTLSConfig (issued env id key n) key root) ∧
  CurrentCollectorID true files = Ok id ∧ CurrentCertificateSerial true files = Ok (big_text16 n).
Proof.
  assert (stored (obtained env id key n root) files !! ClientCertFile = Some (pem_certificate (pem_block "CERTIFICATE" (Some (issued env id key n))))) as H1
    by (unfold stored; by rewrite !lookup_insert_ne, lookup_insert_eq by done).
  assert (stored (obtained env id key n root) files !! ClientKeyFile = Some (pem_key key)) as H2
    by (unfold stored; by rewrite lookup_insert_ne, lookup_insert_eq by done).
  assert (stored (obtained env id key n root) files !! CACertFile = Some (pem_certificate (pem_block "CERTIFICATE" (Some root)))) as H3
    by (unfold stored; by rewrite lookup_insert_eq by done).
  cbn zeta. unfold LoadClientTLSConfig, LoadX509KeyPair, CurrentCollectorID, CurrentCertificateSerial, currentCertificate. rewrite H1, H2, H3. cbn. by rewrite String.eqb_refl.
Qed.

Lemma LoadClientTLSConfig_inv files config : LoadClientTLSConfig true files = Ok config →
  files !! ClientCertFile = Some (pem_certificate (pem_block "CERTIFICATE" (Some (tls_certificate config)))) ∧ files !! ClientKeyFile = Some (pem_key (tls_key config)).
Proof.
  unfold LoadClientTLSConfig, LoadX509KeyPair. destruct (files !! ClientCertFile) as [[[t [cert|]|]|k|]|] eqn:Hc; cbn; try done.
  destruct (String.eqb_spec t "CERTIFICATE") as [->|]; [|done]. destruct (files !! ClientKeyFile) as [[?|public|]|] eqn:Hk; cbn; try done.
  destruct (negb _); cbn; [done|]. destruct (files !! CACertFile) as [f|]; [|done]. destruct (appends f); [|done]. by intros [= <-].
Qed.

Lemma loads_current files config : LoadClientTLSConfig true files = Ok config →
  CurrentCollectorID true files = Ok (Cert_CommonName (tls_certificate config)) ∧ CurrentCertificateSerial true files = Ok (CertificateSerial (tls_certificate config)).
Proof. intros [Hc _]%LoadClientTLSConfig_inv. unfold CurrentCollectorID, CurrentCertificateSerial, currentCertificate. by rewrite Hc. Qed.

(** *** Runs whose effects are answered *)

Section answered.
Context {St : Type} `{Repository St} (quiet : CollectorInput) (csr_der : string → string → list Z) (chains : Certificate → bool).
Implicit Types (xs : list CollectorInput) (w : CollectorWorld St).

(** The [k]-th input of a run *)
Definition input (xs : list CollectorInput) (k : nat) : CollectorInput := nth k xs quiet.

Lemma input_hd xs : hd quiet xs = input xs 0.
Proof. by destruct xs. Qed.
Lemma input_tl xs k : input (tl xs) k = input xs (S k).
Proof. destruct xs; [by destruct k|done]. Qed.

Definition answered xs (n : nat) : Prop := ∀ k, (k < n)%nat → in_ending (input xs k) = Answered.

Lemma answered_rest xs n : answered xs (S n) → answered (tl xs) n.
Proof. intros Ha k Hk. rewrite input_tl. apply Ha. lia. Qed.

Lemma WriteResult_answered r xs w : answered xs 5 →
  WriteResult quiet true r xs w = (Done tt, Nat.iter 5 (@tl _) xs, mkCollectorWorld (stored r (cert_files w)) (hub w)).
Proof.
  intros Ha. unfold WriteResult, collector_effect, write_file, with_input, lift, mbind, prog_bind. cbn -[hd tl input].
  do 5 (rewrite input_hd, ?input_tl, Ha by lia; cbn -[hd tl input]). done.
Qed.

(** A run cut short while it writes the key. *)
Lemma WriteResult_cut r xs w : answered xs 3 → in_ending (input xs 3) ≠ Answered →
  ∃ e rest, WriteResult quiet true r xs w = (e, rest, mkCollectorWorld (write_content (in_written (input xs 3)) ClientKeyFile (pem_key (PrivateKeyPEM r))
    (<[ClientCertFile := pem_certificate (Result_CertificatePEM r)]> (cert_files w))) (hub w)) ∧ e ≠ Done tt.
Proof.
  intros Ha Hn. unfold WriteResult, collector_effect, write_file, with_input, lift, mbind, prog_bind. cbn -[hd tl input].
  do 3 (rewrite input_hd, ?input_tl, Ha by lia; cbn -[hd tl input]). rewrite input_hd, !input_tl.
  destruct (in_ending (input xs 3)); [done| |]; cbn -[hd tl input]; by eexists _, _.
Qed.

(** The answer to a request that was served *)
Lemma exchange_answered peer e xs w s' answer : in_ending (input xs 0) = Answered → handshake chains (now (in_env (input xs 0)) 0) peer = true →
  Handler (in_env (input xs 0)) (mkRequest "" (option_map (λ c, [c]) peer)) e (hub w) = (s', answer) →
  exchange quiet chains peer e xs w = (Done answer, tl xs, mkCollectorWorld (cert_files w) s').
Proof. intros Ha Hh Hs. unfold exchange, with_input. by rewrite input_hd, Hh, Hs, Ha. Qed.

(** What both commands need of the controller [s] and of the inputs: the authority, and that
    the exchange is answered and granted. *)
Definition granting xs (s : Server St) (id : string) (root : Certificate) (n : Z) : Prop :=
  let key := in_key (input xs 0) in
  answered xs 2 ∧ ValidCollectorID id = true ∧
  server_CA s = Some (mkCA (pem_block "CERTIFICATE" (Some root))) ∧ grants (in_env (input xs 1)) (csr_der id key) key n.

Lemma Enroll_granted u token id bootstrap xs w root n (tokens : TokenStore) expiry :
  granting xs (hub w) id root n → validControllerURL (Some u) = Ok tt → bootstrap ≠ Some false →
  Tokens (hub w) = Some tokens → tokens !! token = Some (mkTokenRecord id expiry false) → now (in_env (input xs 1)) 0 <= expiry →
  ∃ ev, Enroll quiet csr_der chains (Some u) token id bootstrap xs w =
    (Done (obtained (in_env (input xs 1)) id (in_key (input xs 0)) n root), tl (tl xs),
     mkCollectorWorld (cert_files w) (recordAudit (now (in_env (input xs 1)) 3) "collector_enrolled" id ev
       (with_tokens (hub w) (<[token := mkTokenRecord id expiry true]> tokens)))).
Proof.
  intros (Ha&Hid&Hca&Hg) Hu Hb Ht Htok Hexp.
  destruct (issue_granted (in_env (input xs 1)) _ _ _ root id "collector_enrolled" ∅ (with_tokens (hub w) (<[token := mkTokenRecord id expiry true]> tokens)) Hg) as (ev & Hi).
  assert (Handler (in_env (input xs 1)) (mkRequest "" None) (POST_enroll (Ok (mkEnrollRequest token id (base64_encode (csr_der id (in_key (input xs 0))))))) (hub w) =
    (recordAudit (now (in_env (input xs 1)) 3) "collector_enrolled" id ev (with_tokens (hub w) (<[token := mkTokenRecord id expiry true]> tokens)),
     mkResponse 200 (enroll_body (granted (in_env (input xs 1)) id (in_key (input xs 0)) n root)))) as Hserved.
  { cbn [Handler]. unfold enroll. rewrite Hca, Ht. cbn [EnrollRequest_CollectorID EnrollRequest_CSR EnrollRequest_Token].
    rewrite Hid, (decode_csr_carried _ _ _ _ Hg). cbn [negb]. unfold Redeem. rewrite Htok. cbn [token_redeemed token_expiresAt token_collectorID]. unfold After.
    destruct (Z.ltb_spec expiry (now (in_env (input xs 1)) 0)) as [|_]; [lia|]. rewrite String.eqb_refl. exact Hi. }
  exists ev. unfold Enroll. rewrite Hid, Hu. cbn [negb]. unfold generateKeyAndCSR, collector_effect, with_input, submitCSR, wrapping, lift, mbind, prog_bind, mret, prog_ret.
  rewrite input_hd, (Ha 0%nat) by lia. rewrite <-input_tl in Hserved.
  destruct bootstrap as [[]|]; [|done|]; cbv beta iota; rewrite (exchange_answered None _ _ _ _ _ (eq_trans (f_equal _ (input_tl _ _)) (Ha 1%nat ltac:(lia))) eq_refl Hserved);
    cbn -[resultFromResponse]; rewrite input_tl, granted_obtained by apply Hg; done.
Qed.

Lemma Rotate_granted u config xs w root n :
  let id := Cert_CommonName (tls_certificate config) in
  granting xs (hub w) id root n → validControllerURL (Some u) = Ok tt → Scheme u = "https"%string →
  handshake chains (now (in_env (input xs 1)) 0) (Some (tls_certificate config)) = true →
  repo_IsCertificateRevoked (CertificateSerial (tls_certificate config)) (Store (hub w)) = Ok false →
  ∃ ev, Rotate quiet csr_der chains (Some u) config id xs w =
    (Done (obtained (in_env (input xs 1)) id (in_key (input xs 0)) n root), tl (tl xs),
     mkCollectorWorld (cert_files w) (recordAudit (now (in_env (input xs 1)) 3) "certificate_rotated" id ev (hub w))).
Proof.
  intros id (Ha&Hid&Hca&Hg) Hu Hs Hh Hr.
  destruct (issue_granted (in_env (input xs 1)) _ _ _ root id "certificate_rotated" {["previous_serial_number" := CertificateSerial (tls_certificate config)]} (hub w) Hg) as (ev & Hi).
  assert (Handler (in_env (input xs 1)) (mkRequest "" (Some [tls_certificate config])) (POST_rotate (Ok (mkRotateRequest (base64_encode (csr_der id (in_key (input xs 0))))))) (hub w) =
    (recordAudit (now (in_env (input xs 1)) 3) "certificate_rotated" id ev (hub w), mkResponse 200 (enroll_body (granted (in_env (input xs 1)) id (in_key (input xs 0)) n root)))) as Hserved.
  { cbn [Handler]. unfold rotate, peer_certificate. rewrite Hca. cbn [PeerCertificates mbind option_bind head RotateRequest_CSR]. fold id. by rewrite Hid, (decode_csr_carried _ _ _ _ Hg), Hr. }
  exists ev. unfold Rotate. rewrite Hid, Hu. cbn [negb]. unfold generateKeyAndCSR, collector_effect, with_input, submitCSR, wrapping, lift, mbind, prog_bind, mret, prog_ret.
  rewrite input_hd, (Ha 0%nat) by lia. unfold presented. rewrite Hs. cbn [String.eqb Ascii.eqb Bool.eqb]. cbv beta iota. rewrite <-input_tl in Hserved, Hh.
  rewrite (exchange_answered (Some (tls_certificate config)) _ _ _ _ _ (eq_trans (f_equal _ (input_tl _ _)) (Ha 1%nat ltac:(lia))) Hh Hserved).
  cbn -[resultFromResponse]. rewrite input_tl, granted_obtained by apply Hg. done.
Qed.

Lemma agentRotate_granted u config xs w root n :
  let id := Cert_CommonName (tls_certificate config) in
  granting xs (hub w) id root n → LoadClientTLSConfig true (cert_files w) = Ok config →
  validControllerURL (Some u) = Ok tt → Scheme u = "https"%string →
  handshake chains (now (in_env (input xs 1)) 0) (Some (tls_certificate config)) = true →
  repo_IsCertificateRevoked (CertificateSerial (tls_certificate config)) (Store (hub w)) = Ok false →
  ∃ ev, agentRotate quiet csr_der chains (Some u) xs w = WriteResult quiet true (obtained (in_env (input xs 1)) id (in_key (input xs 0)) n root) (tl (tl xs))
    (mkCollectorWorld (cert_files w) (recordAudit (now (in_env (input xs 1)) 3) "certificate_rotated" id ev (hub w))).
Proof.
  intros id Hg Hl Hu Hs Hh Hr. destruct (Rotate_granted u config xs w root n Hg Hu Hs Hh Hr) as (ev & Hrot). exists ev.
  destruct (loads_current _ _ Hl) as [Hid Hserial]. unfold agentRotate, wrapping, reading, lift, mbind, prog_bind. rewrite Hl, Hid, Hserial. fold id. fold id in Hrot. by rewrite Hrot.
Qed.
End answered.

(** ** Theorems *)

(** C19: enrollment and rotation, both sides at once.  With a token that is open for it, a
    collector enrolls: the files it writes load, with the certificate issued to it and the
    key it generated, and the token is spent.  From those files, and without a token, it can
    rotate while that certificate is valid: the files then load with a new certificate and
    key for the same collector ID.  The controller takes the old and the new certificate
    for this collector. *)
Theorem enrolled_collector_rotates (q1 q2 : CollectorInput) (xs ys : list CollectorInput) (csr_der : string → string → list Z) (chains : Certificate → bool)
    (u : URL) (token id : string) (bootstrap : option bool) (files : gmap string pem_content) (s : Server Memory)
    (root : Certificate) (tokens : TokenStore) (expiry : time) (n1 n2 : Z) :
  let env1 := in_env (input q1 xs 1) in let env2 := in_env (input q2 ys 1) in
  let key1 := in_key (input q1 xs 0) in let key2 := in_key (input q2 ys 0) in
  let cert1 := issued env1 id key1 n1 in let cert2 := issued env2 id key2 n2 in
  answered q1 xs 7 → answered q2 ys 7 → granting q1 csr_der xs s id root n1 → granting q2 csr_der ys s id root n2 →
  validControllerURL (Some u) = Ok tt → Scheme u = "https"%string → bootstrap ≠ Some false →
  Tokens s = Some tokens → tokens !! token = Some (mkTokenRecord id expiry false) → now env1 0 <= expiry →
  IsCertificateRevoked (big_text16 n1) (Store s) = false → IsCertificateRevoked (big_text16 n2) (Store s) = false →
  chains cert1 = true → Cert_NotBefore cert1 <= now env2 0 <= Cert_NotAfter cert1 →
  ∃ w1 w2 : CollectorWorld Memory,
    agentEnroll q1 csr_der chains (Some u) token id bootstrap xs (mkCollectorWorld files s) = (Done tt, Nat.iter 7 (@tl _) xs, w1) ∧
    LoadClientTLSConfig true (cert_files w1) = Ok (mkTLSConfig cert1 key1 root) ∧
    Tokens (hub w1) = Some (<[token := mkTokenRecord id expiry true]> tokens) ∧
    agentRotate q2 csr_der chains (Some u) ys w1 = (Done tt, Nat.iter 7 (@tl _) ys, w2) ∧
    LoadClientTLSConfig true (cert_files w2) = Ok (mkTLSConfig cert2 key2 root) ∧
    CurrentCollectorID true (cert_files w2) = Ok id ∧
    ∀ cert next, cert ∈ [cert1; cert2] → collectorAuth (mkRequest "" (Some [cert])) next (hub w2) = next (Some id) (hub w2).
Proof.
  intros env1 env2 key1 key2 cert1 cert2 Ha1 Ha2 Hg1 Hg2 Hu Hs Hb Ht Htok Hexp Hr1 Hr2 Hch Htime.
  destruct (Enroll_granted q1 csr_der chains u token id bootstrap xs (mkCollectorWorld files s) root n1 tokens expiry Hg1 Hu Hb Ht Htok Hexp) as (ev1 & He).
  set (s1 := recordAudit _ _ _ ev1 _) in He.
  set (w1 := mkCollectorWorld (stored (obtained env1 id key1 n1 root) files) s1).
  destruct (stored_loads env1 id key1 n1 root files) as (Hl1 & _ & _).
  destruct (agentRotate_granted q2 csr_der chains u (mkTLSConfig cert1 key1 root) ys w1 root n2) as (ev2 & Hrot); [exact Hg2|exact Hl1|done|done| | |].
  { cbn [handshake tls_certificate]. rewrite Hch. unfold Before, After. by rewrite !(proj2 (Z.ltb_ge _ _)) by apply Htime. }
  { cbn. f_equal. exact Hr1. }
  set (s2 := recordAudit _ _ _ ev2 _) in Hrot.
  exists w1, (mkCollectorWorld (stored (obtained env2 id key2 n2 root) (cert_files w1)) s2).
  destruct (stored_loads env2 id key2 n2 root (cert_files w1)) as (Hl2 & Hid2 & _).
  split; [|split; [exact Hl1|split; [done|split; [|split; [exact Hl2|split; [exact Hid2|]]]]]].
  - unfold agentEnroll, wrapping, mbind, prog_bind. rewrite He. apply WriteResult_answered. by do 2 apply answered_rest.
  - rewrite Hrot. exact (WriteResult_answered q2 (obtained env2 id key2 n2 root) (tl (tl ys)) (mkCollectorWorld (cert_files w1) s2)
      (answered_rest q2 _ _ (answered_rest q2 _ _ Ha2))).
  - assert (repo_IsCertificateRevoked (CertificateSerial cert1) (Store s2) = Ok false) as H1 by (cbn; f_equal; exact Hr1).
    assert (repo_IsCertificateRevoked (CertificateSerial cert2) (Store s2) = Ok false) as H2 by (cbn; f_equal; exact Hr2).
    intros cert next [->|[->|[]%elem_of_nil]%elem_of_cons]%elem_of_cons; unfold collectorAuth; cbn [peer_certificate PeerCertificates mbind option_bind head hub]; [by rewrite H1|by rewrite H2].
Qed.

(** A rotation that is cut short while it writes its key locks the collector out: the
    directory then holds the new certificate with the old key, or with none, and every later
    rotation fails before it contacts the controller.  Only a new token helps, although the
    controller still takes the certificate that was overwritten. *)
Theorem torn_rotation_locks_out {St} `{Repository St} (q : CollectorInput) (xs : list CollectorInput) (csr_der : string → string → list Z) (chains : Certificate → bool)
    (u : URL) (config : TLSConfig) (w : CollectorWorld St) (root : Certificate) (n : Z) :
  let cert := tls_certificate config in
  answered q xs 5 → in_ending (input q xs 5) ≠ Answered → in_written (input q xs 5) ≠ complete →
  granting q csr_der xs (hub w) (Cert_CommonName cert) root n → in_key (input q xs 0) ≠ tls_key config →
  LoadClientTLSConfig true (cert_files w) = Ok config → validControllerURL (Some u) = Ok tt → Scheme u = "https"%string →
  handshake chains (now (in_env (input q xs 1)) 0) (Some cert) = true → repo_IsCertificateRevoked (CertificateSerial cert) (Store (hub w)) = Ok false →
  let w' := (agentRotate q csr_der chains (Some u) xs w).2 in
  CurrentCertificateSerial true (cert_files w') = Ok (big_text16 n) ∧
  ∀ q' csr_der' chains' parsed ys, agentRotate q' csr_der' chains' parsed ys w' =
    (Failed "load current certificate: load enrolled certificate: %w", ys, w').
Proof.
  intros cert Ha Hn Hw Hg Hkey Hl Hu Hs Hh Hr.
  destruct (agentRotate_granted q csr_der chains u config xs w root n Hg Hl Hu Hs Hh Hr) as (ev & Hrot).
  set (w0 := mkCollectorWorld _ _) in Hrot. set (r := obtained _ _ _ _ _) in Hrot.
  destruct (WriteResult_cut q r (tl (tl xs)) w0) as (e & rest & Hcut & _); [by do 2 apply answered_rest|by rewrite !input_tl|].
  rewrite <-Hrot, !input_tl in Hcut. cbn zeta. rewrite Hcut. cbn [snd]. set (files := write_content _ _ _ _).
  assert (files !! ClientCertFile = Some (pem_certificate (Result_CertificatePEM r))) as Hcert
    by (unfold files; destruct (in_written _); cbn [write_content]; [| |done]; rewrite ?lookup_insert_ne by done; apply lookup_insert_eq).
  assert (∃ e, LoadX509KeyPair files = Err e) as [e' Hload].
  { unfold LoadX509KeyPair. rewrite Hcert. unfold files. destruct (in_written _); cbn [write_content]; [| |done].
    - rewrite lookup_insert_ne by done. pose proof (proj2 (LoadClientTLSConfig_inv _ _ Hl)) as Hold. change (cert_files w) with (cert_files w0) in Hold. rewrite Hold. cbn. apply String.eqb_neq in Hkey as ->. by eexists.
    - rewrite lookup_insert_eq. by eexists. }
  split.
  - unfold CurrentCertificateSerial, currentCertificate. cbn [cert_files]. by rewrite Hcert.
  - intros. unfold agentRotate, wrapping, reading, lift, LoadClientTLSConfig, mbind, prog_bind. cbn [cert_files negb]. rewrite Hload. done.
Qed.

(** ** Witnesses *)

Definition example_input (key : string) (n : Z) : CollectorInput :=
  mkCollectorInput Answered complete true key
    (mkEnv (λ _, unix 1000 0) (Ok []) (Ok n) (Ok tt) (λ der, Ok (mkCertificateRequest (string_of_bytes der) true)) []).
Definition example_csr (id key : string) : list Z := bytes_of key.
Definition example_url : URL := mkURL "https" "" None "hub:8443" "" "" false "" "".
Definition example_root : Certificate := mkCertificate (Some 1) "Topo Hub Collector CA" 0 0 [] [] "root".
Definition example_hub : Server Memory :=
  mkServer NewMemory "secret" [] (Some (mkCA (pem_block "CERTIFICATE" (Some example_root))))
    (Some {["token" := mkTokenRecord "c1" (unix 2000 0) false]}) (NewHeartbeatStore DefaultHeartbeatStaleAfter) NewJobStore 0.
Definition example_config : TLSConfig := mkTLSConfig (mkCertificate (Some 7) "c1" (unix 500 0) (unix 5000 0) [] [] "old") "old" example_root.
Definition example_files : gmap string pem_content :=
  {[ClientCertFile := pem_certificate (pem_block "CERTIFICATE" (Some (tls_certificate example_config)));
    ClientKeyFile := pem_key "old"; CACertFile := pem_certificate (pem_block "CERTIFICATE" (Some example_root))]}.

Lemma example_granting xs key n m : 0 < n < 2 ^ 128 → input (example_input key n) xs 0 = example_input key n → input (example_input key n) xs 1 = example_input key n →
  m = "c1"%string → granting (example_input key n) example_csr xs example_hub m example_root n.
Proof.
  intros Hn H0 H1 ->. unfold granting. rewrite H0, H1. split; [|split; [reflexivity|split; [reflexivity|]]].
  - intros [|[|k]] Hk; [by rewrite H0|by rewrite H1|lia].
  - split; [|split; [|split; [done|split; [exact Hn|done]]]].
    + apply bytes_of_forall. intros c _. apply byte_val_range.
    + unfold example_csr, example_input. cbn [in_env parse_csr in_key]. by rewrite string_of_bytes_of.
Qed.

(** The sixth effect of the second rotation, writing the key, is the last one of its process. *)
Definition example_cut : list CollectorInput :=
  let ok := example_input "new" 9 in [ok; ok; ok; ok; ok; mkCollectorInput Dying truncated true "new" (in_env ok)].

Lemma enrolled_collector_rotates_witness :
  ∃ w1 w2 : CollectorWorld Memory,
    agentEnroll (example_input "first" 5) example_csr (λ _, true) (Some example_url) "token" "c1" None [] (mkCollectorWorld ∅ example_hub) = (Done tt, [], w1) ∧
    agentRotate (example_input "second" 6) example_csr (λ _, true) (Some example_url) [] w1 = (Done tt, [], w2) ∧
    CurrentCollectorID true (cert_files w2) = Ok "c1"%string.
Proof.
  destruct (enrolled_collector_rotates (example_input "first" 5) (example_input "second" 6) [] [] example_csr (λ _, true) example_url "token" "c1" None ∅ example_hub
    example_root {["token" := mkTokenRecord "c1" (unix 2000 0) false]} (unix 2000 0) 5 6) as (w1 & w2 & H1 & _ & _ & H2 & _ & H3 & _).
  - by intros [|[|[|[|[|[|[|k]]]]]]] Hk; [done..|lia].
  - by intros [|[|[|[|[|[|[|k]]]]]]] Hk; [done..|lia].
  - by apply example_granting.
  - by apply example_granting.
  - reflexivity.
  - reflexivity.
  - discriminate.
  - reflexivity.
  - reflexivity.
  - vm_compute. discriminate.
  - vm_compute. reflexivity.
  - vm_compute. reflexivity.
  - reflexivity.
  - vm_compute. split; discriminate.
  - by exists w1, w2.
Defined.

Lemma torn_rotation_locks_out_witness :
  let w' := (agentRotate (example_input "new" 9) example_csr (λ _, true) (Some example_url) example_cut (mkCollectorWorld example_files example_hub)).2 in
  CurrentCertificateSerial true (cert_files w') = Ok "9"%string ∧
  agentRotate (example_input "newer" 10) example_csr (λ _, true) (Some example_url) [] w' = (Failed "load current certificate: load enrolled certificate: %w", [], w').
Proof.
  destruct (torn_rotation_locks_out (example_input "new" 9) example_cut example_csr (λ _, true) example_url example_config (mkCollectorWorld example_files example_hub) example_root 9) as [H1 H2].
  - by intros [|[|[|[|[|k]]]]] Hk; [done..|lia].
  - discriminate.
  - discriminate.
  - by apply example_granting.
  - discriminate.
  - vm_compute. reflexivity.
  - reflexivity.
  - reflexivity.
  - vm_compute. reflexivity.
  - vm_compute. reflexivity.
  - split; [exact H1|apply H2].
Defined.
