(* ===== verification/Authority.v ===== *)
(** * [internal/enrollment/ca.go]: the authority and its files

    [LoadOrCreateCA] with [generateCA], [persist] and [loadCA], and the server certificate
    that [topo serve -mtls] issues from it.  Every file operation may fail or be the last
    one of its process. *)

From S2P Require Import Prelude Effects Bytes Time Netip Enrollment WinRM Controller Collector.

#[local] Existing Instance String.eq_dec.

Definition caKeyFile : string := "ca-key.pem".
Definition caCertFile : string := "ca-cert.pem".
Definition caValidity : duration := 10 * 365 * 24 * Hour.
Definition DefaultServerCertificateTTL : duration := 365 * 24 * Hour.

(** The signing certificate and the key, which is named by its public key. *)
Record Authority := mkAuthority { ca_cert : Certificate; ca_key : string }.

(** [CACertPEM] *)
Definition authority_CA (ca : Authority) : CA := mkCA (pem_block "CERTIFICATE" (Some (ca_cert ca))).

(** What a file operation, a draw of random numbers or a call of [x509] gets from outside. *)
Record AuthorityInput := mkAuthorityInput {
  au_ending : ending; au_written : written; au_key : string; au_serial : Z; au_now : time;
}.

Section authority.
Context (quiet : AuthorityInput).

Abbreviation founding := (prog AuthorityInput (gmap string pem_content)).

Definition founding_effect {A} (text : string) (f : AuthorityInput → gmap string pem_content → A) : founding A :=
  with_input quiet (λ i files, match au_ending i with Answered => (Done (f i files), files) | Failing => (Failed text, files) | Dying => (Crashed, files) end).

Definition WriteFile (text name : string) (content : pem_content) : founding unit :=
  with_input quiet (λ i files,
    match au_ending i with
    | Answered => (Done tt, write_content complete name content files)
    | Failing => (Failed text, write_content (au_written i) name content files)
    | Dying => (Crashed, write_content (au_written i) name content files)
    end).

Definition read_file (text name : string) : founding pem_content :=
  file ← founding_effect text (λ _ files, files !! name);
  lift (match file with None => Err text | Some content => Ok content end).

Definition generateCA : founding Authority :=
  key ← founding_effect "generate CA key: %w" (λ i _, au_key i);
  serial ← founding_effect "generate certificate serial number: %w" (λ i _, au_serial i);
  cert ← founding_effect "create CA certificate: %w" (λ i _,
    mkCertificate (Some serial) "Topo Hub Collector CA" (Add (au_now i) (- clockSkewTolerance)) (Add (au_now i) caValidity)
      ["KeyUsageCertSign"; "KeyUsageCRLSign"; "KeyUsageDigitalSignature"]%string [] key);
  mret (mkAuthority cert key).

Definition persist (ca : Authority) : founding unit :=
  _ ← WriteFile "write CA key: %w" caKeyFile (pem_key (ca_key ca));
  WriteFile "write CA certificate: %w" caCertFile (pem_certificate (CACertPEM (authority_CA ca))).

(** [pem.Decode] and [x509.ParseECPrivateKey]; any PEM block of a certificate is read. *)
Definition parse_key (file : pem_content) : go string :=
  match file with
  | pem_key public => Ok public
  | pem_torn | pem_certificate pem_none => Err "CA key file does not contain a PEM block"%string
  | pem_certificate _ => Err "parse CA key: %w"%string
  end.
Definition parse_ca_certificate (file : pem_content) : go Certificate :=
  match file with
  | pem_certificate (pem_block _ (Some cert)) => Ok cert
  | pem_torn | pem_certificate pem_none => Err "CA certificate file does not contain a PEM block"%string
  | _ => Err "parse CA certificate: %w"%string
  end.

Definition loadCA : founding Authority :=
  keyPEM ← read_file "read CA key: %w" caKeyFile;
  key ← lift (parse_key keyPEM);
  certPEM ← read_file "read CA certificate: %w" caCertFile;
  cert ← lift (parse_ca_certificate certPEM);
  mret (mkAuthority cert key).

Definition LoadOrCreateCA (absolute : bool) : founding Authority :=
  if negb absolute then lift (Err "CA directory must be an absolute path"%string)
  else
    exists_ ← founding_effect "inspect CA key %q: %w" (λ _ files, bool_decide (is_Some (files !! caKeyFile)));
    if (exists_ : bool) then loadCA
    else
      _ ← founding_effect "create CA directory: %w" (λ _ _, tt);
      _ ← founding_effect "restrict CA directory permissions: %w" (λ _ _, tt);
      ca ← generateCA;
      _ ← persist ca;
      mret ca.
End authority.

(** [net.ParseIP]: no zone *)
Definition ParseIP (s : string) : option Addr := a ← ParseAddr s; if String.eqb (Zone a) "" then Some a else None.

(** The certificate of the listener: a name that parses as an address becomes one. *)
Record ServerTemplate := mkServerTemplate { server_certificate : Certificate; IPAddresses : list Addr; DNSNames : list string }.

Definition IssueServerCertificate (now : time) (key : go string) (serial : go Z) (created : go unit) (sans : list string) (ttl : duration) : go ServerTemplate :=
  reject ttl <=? 0 with "certificate ttl must be positive"%string ;;
  reject bool_decide (sans = []) with "server certificate requires at least one subject alternative name"%string ;;
  match key with
  | Err _ => Err "generate server key: %w"%string
  | Ok key =>
    try serial := serial ;;
    let cert := mkCertificate (Some serial) "Topo Hub" (Add now (- clockSkewTolerance)) (Add now ttl)
      ["KeyUsageDigitalSignature"; "KeyUsageKeyEncipherment"]%string ["ExtKeyUsageServerAuth"]%string key in
    match created with
    | Err _ => Err "sign server certificate: %w"%string
    | Ok _ => Ok (mkServerTemplate cert (omap ParseIP sans) (base.filter (λ san, ParseIP san = None) sans))
    end
  end.

(** ** Starts of the controller, one process after the other *)
Record Start := mkStart { start_quiet : AuthorityInput; start_inputs : list AuthorityInput }.

Fixpoint run_starts (files : gmap string pem_content) (starts : list Start) : list Authority * gmap string pem_content :=
  match starts with
  | [] => ([], files)
  | p :: starts =>
    let '(r, _, files) := LoadOrCreateCA (start_quiet p) true (start_inputs p) files in
    let '(cas, files) := run_starts files starts in
    (match r with Done ca => ca :: cas | _ => cas end, files)
  end.

(** ** Lemmas *)

(** The files hold the authority [ca]. *)
Definition holds (files : gmap string pem_content) (ca : Authority) : Prop :=
  (∃ file, files !! caKeyFile = Some file ∧ parse_key file = Ok (ca_key ca)) ∧
  (∃ file, files !! caCertFile = Some file ∧ parse_ca_certificate file = Ok (ca_cert ca)).

Lemma holds_unique files ca ca' : holds files ca → holds files ca' → ca = ca'.
Proof. intros [(?&?&?) (?&?&?)] [(?&?&?) (?&?&?)]. destruct ca, ca'. simplify_eq/=. congruence. Qed.

Section starts.
Context (quiet : AuthorityInput).
Implicit Types (P E : gmap string pem_content → Prop).

Lemma triple_founding {A} P text (f : AuthorityInput → gmap string pem_content → A) (Q : A → gmap string pem_content → Prop) E :
  (∀ i files, P files → Q (f i files) files) → (∀ files, P files → E files) → triple P (founding_effect quiet text f) Q E.
Proof. intros HQ HE. apply triple_input. intros i files Hp. destruct (au_ending i); auto. Qed.

Lemma triple_read P text name (Q : pem_content → gmap string pem_content → Prop) E :
  (∀ files content, P files → files !! name = Some content → Q content files) → (∀ files, P files → E files) → triple P (read_file quiet text name) Q E.
Proof.
  intros HQ HE. unfold read_file. eapply triple_bind; [apply (triple_founding _ _ _ (λ file files, P files ∧ files !! name = file)); [done|exact HE]|].
  intros [content|]; [|apply triple_fail; naive_solver]. apply triple_lift; [|naive_solver]. intros files a [= <-] []. auto.
Qed.

(** Once there is a key file, a start reads and writes nothing. *)
Lemma loadCA_reads files : triple (λ f, f = files) (loadCA quiet) (λ ca f, f = files ∧ holds files ca) (λ f, f = files).
Proof.
  unfold loadCA. eapply triple_bind with (Q := λ file f, f = files ∧ files !! caKeyFile = Some file); [apply triple_read; naive_solver|]. intros file.
  apply triple_pure. intros Hk. eapply triple_bind with (Q := λ key f, f = files ∧ parse_key file = Ok key); [apply triple_lift; naive_solver|]. intros key.
  apply triple_pure. intros Hkey. eapply triple_bind with (Q := λ file f, f = files ∧ files !! caCertFile = Some file); [apply triple_read; naive_solver|]. intros cert.
  apply triple_pure. intros Hc. eapply triple_bind with (Q := λ c f, f = files ∧ parse_ca_certificate cert = Ok c); [apply triple_lift; naive_solver|]. intros c.
  apply triple_pure. intros Hcert. apply triple_ret. intros f ->. split; [done|]. unfold holds. naive_solver.
Qed.

Lemma start_reads files : is_Some (files !! caKeyFile) → triple (λ f, f = files) (LoadOrCreateCA quiet true) (λ ca f, f = files ∧ holds files ca) (λ f, f = files).
Proof.
  intros Hk. unfold LoadOrCreateCA. cbn [negb]. eapply triple_bind with (Q := λ b f, f = files ∧ b = true).
  { apply triple_founding; [|done]. intros i f ->. split; [done|]. by apply bool_decide_eq_true_2. }
  intros b. apply triple_pure. intros ->. apply loadCA_reads.
Qed.

(** A start that succeeds leaves the authority it returns. *)
Lemma start_holds : triple (λ _, True) (LoadOrCreateCA quiet true) (λ ca f, holds f ca) (λ _, True).
Proof.
  intros xs files _. destruct (files !! caKeyFile) as [file|] eqn:Hk.
  { pose proof (start_reads files ltac:(by eexists) xs files eq_refl) as H.
    destruct (LoadOrCreateCA quiet true xs files) as [[[ca|e|] rest] f]; [destruct H as [-> H]; exact H|done|done]. }
  revert xs files Hk. change (triple (λ files, files !! caKeyFile = None) (LoadOrCreateCA quiet true) (λ ca f, holds f ca) (λ _, True)).
  unfold LoadOrCreateCA. cbn [negb]. eapply triple_bind with (Q := λ b f, b = false).
  { apply triple_founding; [|done]. intros i f Hf. by rewrite Hf. }
  intros b. apply (triple_weaken (λ _, True ∧ b = false) _ _ (λ ca f, holds f ca) _ (λ _, True)); [|by intros f ->|done|done].
  apply triple_pure. intros ->.
  eapply triple_bind with (Q := λ _ _, True); [by apply triple_founding|]. intros _.
  eapply triple_bind with (Q := λ _ _, True); [by apply triple_founding|]. intros _.
  eapply triple_bind with (Q := λ _ _, True); [intros xs files _; by destruct (generateCA quiet xs files) as [[[]]]|]. intros ca.
  eapply triple_bind with (Q := λ _ f, holds f ca); [|intros _; by apply triple_ret].
  unfold persist. eapply triple_bind with (Q := λ _ f, f !! caKeyFile = Some (pem_key (ca_key ca))).
  { apply triple_input. intros i files _. destruct (au_ending i); [|done|done]. apply lookup_insert_eq. }
  intros _. apply triple_input. intros i files Hf. destruct (au_ending i); [|done|done]. split.
  - exists (pem_key (ca_key ca)). split; [|done]. unfold write_content. by rewrite lookup_insert_ne.
  - exists (pem_certificate (pem_block "CERTIFICATE" (Some (ca_cert ca)))). split; [apply lookup_insert_eq|done].
Qed.

Lemma holds_loads files ca : au_ending quiet = Answered → holds files ca → runs (LoadOrCreateCA quiet true) files ca files.
Proof.
  intros Ha [(key&Hk&Hkey) (cert&Hc&Hcert)].
  assert (∀ A text (f : AuthorityInput → gmap string pem_content → A), runs (founding_effect quiet text f) files (f quiet files) files) as Hrun
    by (intros A text f; apply runs_input; by rewrite Ha).
  assert (∀ text name content, files !! name = Some content → runs (read_file quiet text name) files content files) as Hread
    by (intros text name content Hn; eapply runs_bind; [apply Hrun|]; cbv beta; rewrite Hn; by apply runs_lift).
  unfold LoadOrCreateCA. cbn [negb]. eapply runs_bind; [apply Hrun|]. cbv beta. rewrite bool_decide_eq_true_2 by (by eexists).
  unfold loadCA. eapply runs_bind; [by apply Hread|]. eapply runs_bind; [by apply runs_lift|]. eapply runs_bind; [by apply Hread|].
  eapply runs_bind; [by apply runs_lift|]. destruct ca. apply runs_ret.
Qed.
End starts.

Lemma run_starts_held starts files ca : holds files ca → Forall (eq ca) (run_starts files starts).1 ∧ (run_starts files starts).2 = files.
Proof.
  intros Hh. induction starts as [|p starts IH]; [done|]. cbn [run_starts].
  pose proof (start_reads (start_quiet p) files ltac:(destruct Hh as [(?&?&?) _]; by eexists) (start_inputs p) files eq_refl) as H.
  destruct (LoadOrCreateCA _ _ _ _) as [[[ca'|e|] rest] f]; [destruct H as [-> H]|subst f|subst f]; destruct (run_starts files starts) as [cas files'];
    destruct IH as [IH1 IH2]; cbn in *; (split; [|done]); [|done|done]. apply Forall_cons. split; [by eapply holds_unique|done].
Qed.

Lemma run_starts_blocked starts files : is_Some (files !! caKeyFile) → (∀ ca, ¬ holds files ca) → run_starts files starts = ([], files).
Proof.
  intros Hk Hn. induction starts as [|p starts IH]; [done|]. cbn [run_starts].
  pose proof (start_reads (start_quiet p) files Hk (start_inputs p) files eq_refl) as H.
  destruct (LoadOrCreateCA _ _ _ _) as [[[ca'|e|] rest] f]; [destruct H as [_ H]; by destruct (Hn ca')|subst f|subst f]; by rewrite IH.
Qed.

(** The files a first start leaves when its first six effects are answered. *)
Lemma first_start_writes (i : nat → AuthorityInput) q : (∀ k, (k < 6)%nat → au_ending (i k) = Answered) →
  ∃ ca, (LoadOrCreateCA q true [i 0; i 1; i 2; i 3; i 4; i 5; i 6; i 7]%nat ∅).2 = ((persist q ca) [i 6; i 7]%nat ∅).2.
Proof.
  intros Ha. unfold LoadOrCreateCA, generateCA, founding_effect, with_input, mbind, prog_bind, mret, prog_ret. cbn [negb hd tl].
  rewrite (Ha 0%nat), lookup_empty by lia. cbn -[persist]. do 5 (rewrite Ha by lia; cbn -[persist]).
  match goal with |- context [persist q ?ca ?xs ?w] => exists ca; by destruct (persist q ca xs w) as [[[]]] end.
Qed.

(** ** Theorems *)

(** C22: the authority is founded once.  Over any sequence of starts of the controller, with
    file operations that fail and processes that die anywhere, every start that succeeds
    has the same certificate and key, so that what an earlier process signed still
    verifies; and once one has succeeded, an undisturbed start succeeds. *)
Theorem authority_is_founded_once (files : gmap string pem_content) (starts : list Start) (ca : Authority) :
  ca ∈ (run_starts files starts).1 →
  Forall (eq ca) (run_starts files starts).1 ∧
  ∀ quiet, au_ending quiet = Answered → runs (LoadOrCreateCA quiet true) (run_starts files starts).2 ca (run_starts files starts).2.
Proof.
  revert files. induction starts as [|p starts IH]; intros files; [by intros ?%elem_of_nil|]. cbn [run_starts].
  pose proof (start_holds (start_quiet p) (start_inputs p) files I) as H.
  destruct (LoadOrCreateCA _ _ _ _) as [[[ca'|e|] rest] f]; destruct (run_starts f starts) as [cas files'] eqn:Hrun; specialize (IH f); rewrite Hrun in IH; cbn in *; [|exact IH..].
  intros Hin. destruct (run_starts_held starts f ca' H) as [Hall Hf]. rewrite Hrun in Hall, Hf. cbn in *. subst files'.
  assert (ca = ca') as ->. { apply elem_of_cons in Hin as [->|Hin]; [done|]. rewrite Forall_forall in Hall. symmetry. by apply Hall. }
  split; [by apply Forall_cons|]. intros quiet Hq. by apply holds_loads.
Qed.

(** A first start that is cut short between its two files leaves a directory in which no
    start ever succeeds: a key file that is there is never replaced. *)
Theorem torn_authority_blocks (i : nat → AuthorityInput) (q : AuthorityInput) (starts : list Start) :
  (∀ k, (k < 6)%nat → au_ending (i k) = Answered) →
  (au_ending (i 6%nat) ≠ Answered ∧ au_written (i 6%nat) ≠ untouched) ∨
  (au_ending (i 6%nat) = Answered ∧ au_ending (i 7%nat) ≠ Answered ∧ au_written (i 7%nat) ≠ complete) →
  let files := (LoadOrCreateCA q true [i 0; i 1; i 2; i 3; i 4; i 5; i 6; i 7]%nat ∅).2 in
  run_starts files starts = ([], files).
Proof.
  intros Ha Hcut. destruct (first_start_writes i q Ha) as (ca & ->).
  unfold persist, WriteFile, with_input, mbind, prog_bind. cbn [hd tl]. destruct Hcut as [[H6 Hw]|(H6&H7&Hw)].
  - destruct (au_ending (i 6%nat)); [done| |]; cbn [snd]; (destruct (au_written (i 6%nat)); [done| |]); cbn [write_content];
      (apply run_starts_blocked; [rewrite lookup_insert_eq; by eexists|]; intros ca' [_ (file&Hf&_)]; by rewrite lookup_insert_ne, lookup_empty in Hf).
  - rewrite H6. cbn [write_content hd tl].
    destruct (au_ending (i 7%nat)); [done| |]; cbn [snd]; (destruct (au_written (i 7%nat)); [| |done]); cbn [write_content];
      (apply run_starts_blocked; [first [rewrite lookup_insert_eq|rewrite lookup_insert_ne, lookup_insert_eq by done]; by eexists|]; intros ca' [_ (file&Hf&Hp)]).
    all: first [by rewrite lookup_insert_ne, lookup_empty in Hf|rewrite lookup_insert_eq in Hf; by simplify_eq].
Qed.

(** ** Witnesses *)

Definition example_founding (key : string) (n : Z) : AuthorityInput := mkAuthorityInput Answered complete key n (unix 1000 0).
Definition example_death : AuthorityInput := mkAuthorityInput Dying truncated "" 0 0.

Lemma authority_is_founded_once_witness :
  let starts := [mkStart (example_founding "a" 1) [example_founding "a" 1; example_death]; mkStart (example_founding "b" 2) []; mkStart (example_founding "c" 3) []] in
  (ca_key <$> (run_starts ∅ starts).1) = ["b"; "b"]%string ∧
  runs (LoadOrCreateCA (example_founding "d" 4) true) (run_starts ∅ starts).2
    (mkAuthority (mkCertificate (Some 2) "Topo Hub Collector CA" (unix 1000 0 - clockSkewTolerance) (unix 1000 0 + caValidity)
      ["KeyUsageCertSign"; "KeyUsageCRLSign"; "KeyUsageDigitalSignature"]%string [] "b") "b") (run_starts ∅ starts).2.
Proof.
  split; [vm_compute; reflexivity|]. apply authority_is_founded_once; [|reflexivity]. vm_compute. apply list_elem_of_here.
Defined.

Lemma torn_authority_blocks_witness :
  let i := λ k, if Nat.eqb k 7 then example_death else example_founding "a" 1 in
  let files := (LoadOrCreateCA example_death true [i 0; i 1; i 2; i 3; i 4; i 5; i 6; i 7]%nat ∅).2 in
  run_starts files [mkStart (example_founding "b" 2) []] = ([], files).
Proof.
  apply (torn_authority_blocks (λ k, if Nat.eqb k 7 then example_death else example_founding "a" 1)).
  - by intros [|[|[|[|[|[|k]]]]]] Hk; [done..|lia].
  - right. split; [reflexivity|]. split; discriminate.
Defined.
