(* ===== verification/ControlSim.v ===== *)
(** * [internal/worker/controlsim]: the control plane of the worker contract

    The whole of [server.go]: runs and tasks, worker registration, claims, leases and
    their renewal, results, completion, cancellation, schedules, retention.  Every
    handler runs under the server's mutex and is one step on the state [Sim].  A nil
    dereference or index panic of the code is the response [Panicked]; the invariant
    proved below excludes it.  [sim_now] gives the clock readings of a step
    (one index per call of [s.now().UTC()]), [random k] is the [k]-th [randomHex], [keys] the order in which the step ranges over
    a map.  Request bodies are given decoded; [tokens], [decode_line] and
    [decode_any] are the JSON functions of the standard library. *)

From S2P Require Import Prelude Bytes Sha256 Time Model Netip Contract Partition Servicenow.

(** ** State *)

Inductive task_state := ready | leased | running | results_received | complete_ | failed_ | cancelled_.
Inductive run_state := run_ready | run_running | run_cancelling | run_cancelled | run_complete | run_failed.

#[export] Instance task_state_eq_dec : EqDecision task_state.
Proof. solve_decision. Defined.
#[export] Instance run_state_eq_dec : EqDecision run_state.
Proof. solve_decision. Defined.

Definition task_state_text (s : task_state) : string :=
  match s with
  | ready => "ready" | leased => "leased" | running => "running" | results_received => "results_received"
  | complete_ => "complete" | failed_ => "failed" | cancelled_ => "cancelled"
  end.
Definition run_state_text (s : run_state) : string :=
  match s with
  | run_ready => "ready" | run_running => "running" | run_cancelling => "cancelling"
  | run_cancelled => "cancelled" | run_complete => "complete" | run_failed => "failed"
  end.

(** leased, running or results_received *)
Definition holds_lease (s : task_state) : bool :=
  match s with leased | running | results_received => true | _ => false end.
Definition task_terminal (s : task_state) : bool :=
  match s with complete_ | failed_ | cancelled_ => true | _ => false end.
Definition run_terminal (s : run_state) : bool :=
  match s with run_complete | run_failed | run_cancelled => true | _ => false end.

Record WorkerRecord := mkWorkerRecord {
  Worker_ID : string;
  Worker_BootID : string;
  Worker_WorkerPool : string;
  Worker_SiteID : string;
  Worker_Version : string;
  Worker_Capabilities : list string;
  Worker_PolicyDigest : string;
  Worker_MaxConcurrency : Z;
  Worker_CurrentLeases : Z;
  Worker_LastHeartbeat : time;
}.

Record RunRecord := mkRunRecord {
  Run_ID : string;
  Run_Trigger : string;
  Run_State : run_state;
  Run_TaskIDs : list string;
  Run_StartedAt : time;
  Run_CompletedAt : time;
  Run_Assets : Z;
  Run_Relationships : Z;
  Run_CollectionErrors : Z;
  Run_Attempts : Z;
  Run_Error : string;
}.

Record TaskRecord := mkTaskRecord {
  T_ID : string;
  T_RunID : string;
  T_WorkerPool : string;
  T_Operation : string;
  T_ProfileID : string;
  T_ProfileRevision : Z;
  T_State : task_state;
  T_Attempt : Z;
  T_AttemptID : string;
  T_WorkerID : string;
  T_BootID : string;
  T_LeaseDigest : string;
  T_LeaseExpiresAt : time;
  T_Deadline : time;
  T_ChunkCount : Z;
  T_TargetPartition : option TargetPartition;
  T_CredentialBindingID : string;
  T_CancelRequested : bool;
  T_Error : string;
}.

Record ResultRecord := mkResultRecord {
  R_TaskID : string;
  R_AttemptID : string;
  R_ChunkNumber : Z;
  R_ChunkCount : Z;
  R_Checksum : string;
  R_Payload : string;
  R_CreatedAt : time;
  R_ProcessedAt : time;
  R_Terminal : string;
  R_Deleted : bool;
}.

Record SimSchedule := mkSimSchedule {
  S_ID : string;
  S_WorkerPool : string;
  S_Operation : string;
  S_Target : string;
  S_CredentialBindingID : string;
  S_Interval : duration;
  S_NextRunAt : time;
  S_Active : bool;
}.

Record IREDelivery := mkIREDelivery {
  D_RunID : string;
  D_TaskID : string;
  D_AttemptID : string;
  D_Preflighted : bool;
  D_Applied : bool;
  D_NoData : bool;
  D_ItemOperations : list string;
  D_RelationOps : list string;
  D_CompletedAt : time;
}.

Record CredentialAccess := mkCredentialAccess {
  A_TaskID : string;
  A_AttemptID : string;
  A_WorkerID : string;
  A_Outcome : string;
  A_Reason : string;
}.

(** What a server is configured with. *)
Record SimConfig := mkSimConfig {
  Config_Token : string;
  Config_LeaseDuration : duration;
  Config_SuccessRawTTL : duration;
  Config_FailureRawTTL : duration;
  Config_PoolMaxLeases : Z;
  Config_SSHCredential : PasswordCredential;
}.

Record Sim := mkSim {
  config : SimConfig;
  renewAvailable : bool;
  nextID : Z;
  workers : gmap string WorkerRecord;
  runs : gmap string RunRecord;
  tasks : gmap string TaskRecord;
  results : gmap string ResultRecord;
  sim_schedules : gmap string SimSchedule;
  items : gmap string string;
  relations : gmap string string;
  deliveries : list IREDelivery;
  credentialLog : list CredentialAccess;
}.

Definition with_defaults (c : SimConfig) : SimConfig :=
  mkSimConfig (Config_Token c)
    (if Config_LeaseDuration c <=? 0 then Minute else Config_LeaseDuration c)
    (if Config_SuccessRawTTL c =? 0 then 24 * Hour else Config_SuccessRawTTL c)
    (if Config_FailureRawTTL c =? 0 then 7 * 24 * Hour else Config_FailureRawTTL c)
    (if Config_PoolMaxLeases c <=? 0 then 32 else Config_PoolMaxLeases c)
    (Config_SSHCredential c).

Definition NewSim (c : SimConfig) : Sim :=
  mkSim (with_defaults c) true 0 ∅ ∅ ∅ ∅ ∅ ∅ ∅ [] [].

Record SimEnv := mkSimEnv {
  sim_now : nat → time;
  random : nat → string;
  keys : list string;
}.

(** *** Field updates *)

Definition set_workers (s : Sim) w := mkSim (config s) (renewAvailable s) (nextID s) w (runs s) (tasks s)
  (results s) (sim_schedules s) (items s) (relations s) (deliveries s) (credentialLog s).
Definition set_runs (s : Sim) r := mkSim (config s) (renewAvailable s) (nextID s) (workers s) r (tasks s)
  (results s) (sim_schedules s) (items s) (relations s) (deliveries s) (credentialLog s).
Definition set_tasks (s : Sim) t := mkSim (config s) (renewAvailable s) (nextID s) (workers s) (runs s) t
  (results s) (sim_schedules s) (items s) (relations s) (deliveries s) (credentialLog s).
Definition set_results (s : Sim) r := mkSim (config s) (renewAvailable s) (nextID s) (workers s) (runs s) (tasks s)
  r (sim_schedules s) (items s) (relations s) (deliveries s) (credentialLog s).
Definition set_schedules (s : Sim) x := mkSim (config s) (renewAvailable s) (nextID s) (workers s) (runs s) (tasks s)
  (results s) x (items s) (relations s) (deliveries s) (credentialLog s).
Definition set_cmdb (s : Sim) i r := mkSim (config s) (renewAvailable s) (nextID s) (workers s) (runs s) (tasks s)
  (results s) (sim_schedules s) i r (deliveries s) (credentialLog s).
Definition add_delivery (s : Sim) d := mkSim (config s) (renewAvailable s) (nextID s) (workers s) (runs s) (tasks s)
  (results s) (sim_schedules s) (items s) (relations s) (deliveries s ++ [d]) (credentialLog s).
Definition log_credential (s : Sim) a := mkSim (config s) (renewAvailable s) (nextID s) (workers s) (runs s) (tasks s)
  (results s) (sim_schedules s) (items s) (relations s) (deliveries s) (credentialLog s ++ [a]).
Definition bump_id (s : Sim) := mkSim (config s) (renewAvailable s) (nextID s + 1) (workers s) (runs s) (tasks s)
  (results s) (sim_schedules s) (items s) (relations s) (deliveries s) (credentialLog s).
Definition SetRenewAvailable (available : bool) (s : Sim) : Sim :=
  mkSim (config s) available (nextID s) (workers s) (runs s) (tasks s)
    (results s) (sim_schedules s) (items s) (relations s) (deliveries s) (credentialLog s).

Definition put_task (s : Sim) (t : TaskRecord) : Sim := set_tasks s (<[T_ID t := t]> (tasks s)).
Definition put_run (s : Sim) (r : RunRecord) : Sim := set_runs s (<[Run_ID r := r]> (runs s)).

Definition task_with (t : TaskRecord) (st : task_state) (attempt : Z) (attemptID workerID bootID digest : string)
    (expires : time) (chunks : Z) (cancel : bool) (err : string) : TaskRecord :=
  mkTaskRecord (T_ID t) (T_RunID t) (T_WorkerPool t) (T_Operation t) (T_ProfileID t) (T_ProfileRevision t)
    st attempt attemptID workerID bootID digest expires (T_Deadline t) chunks (T_TargetPartition t)
    (T_CredentialBindingID t) cancel err.
Definition task_state_to (t : TaskRecord) (st : task_state) (cancel : bool) (err : string) : TaskRecord :=
  task_with t st (T_Attempt t) (T_AttemptID t) (T_WorkerID t) (T_BootID t) (T_LeaseDigest t)
    (T_LeaseExpiresAt t) (T_ChunkCount t) cancel err.

Definition run_with (r : RunRecord) (st : run_state) (completed : time) (assets rels errs attempts : Z) (err : string) : RunRecord :=
  mkRunRecord (Run_ID r) (Run_Trigger r) st (Run_TaskIDs r) (Run_StartedAt r) completed assets rels errs attempts err.
Definition run_state_to (r : RunRecord) (st : run_state) (completed : time) : RunRecord :=
  run_with r st completed (Run_Assets r) (Run_Relationships r) (Run_CollectionErrors r) (Run_Attempts r) (Run_Error r).

(** ** Identifiers *)

Definition run_id (n : Z) : string := ("run-" +:+ decimal_pad 8 n)%string.
Definition task_id (n : Z) : string := ("task-" +:+ decimal_pad 8 n)%string.
Definition worker_id (n : Z) : string := ("worker-" +:+ decimal_pad 8 n)%string.
Definition attempt_id (task : string) (n : Z) : string := ("attempt-" +:+ task +:+ "-" +:+ decimal_pad 8 n)%string.
Definition resultKey (taskID attemptID : string) (chunk : Z) : string :=
  (taskID +:+ NUL +:+ attemptID +:+ NUL +:+ decimal chunk)%string.

(** ** Runs *)

Definition sha_key (text : string) : string := sha256_hex text.

Definition createRemoteRunLocked (now : time) (trigger workerPool target credentialBindingID operation : string)
    (s : Sim) : Sim * string :=
  let s := bump_id s in
  let runID := run_id (nextID s) in
  let s := bump_id s in
  let taskID := task_id (nextID s) in
  let key := sha_key ("simulator-ssh-scope" +:+ char 10 +:+ "1" +:+ char 10 +:+ target)%string in
  let s := put_run s (mkRunRecord runID trigger run_ready [taskID] now zero_time 0 0 0 0 "") in
  (put_task s (mkTaskRecord taskID runID workerPool operation operation 1 ready 0 "" "" "" "" zero_time
     (Add now (10 * Minute)) 0 (Some (mkTargetPartition key 0 1 [target])) credentialBindingID false ""),
   runID).

Definition sim_partition (partitions ordinal : Z) : option TargetPartition :=
  if 1 <? partitions then
    let cidr := ("10." +:+ decimal (Z.land (Z.shiftr ordinal 16) 255) +:+ "." +:+
                 decimal (Z.land (Z.shiftr ordinal 8) 255) +:+ "." +:+ decimal (Z.land ordinal 255) +:+ "/32")%string in
    Some (mkTargetPartition (sha_key ("simulator-scope" +:+ char 10 +:+ "1" +:+ char 10 +:+ cidr)%string)
      ordinal partitions [cidr])
  else None.

(** The loop over ordinals: the IDs of the created tasks, and the state. *)
Fixpoint create_tasks (n : nat) (ordinal partitions : Z) (runID workerPool : string) (now : time) (s : Sim)
    : list string * Sim :=
  match n with
  | O => ([], s)
  | S n =>
    let s := bump_id s in
    let taskID := task_id (nextID s) in
    let s := put_task s (mkTaskRecord taskID runID workerPool OperationLocalV1 "local-v1" 1 ready 0 "" "" "" ""
      zero_time (Add now (10 * Minute)) 0 (sim_partition partitions ordinal) "" false "") in
    let '(ids, s) := create_tasks n (ordinal + 1) partitions runID workerPool now s in
    (taskID :: ids, s)
  end.

Definition createRunLocked (now : time) (trigger workerPool : string) (partitions : Z) (s : Sim) : Sim * string :=
  if (partitions <? 1) || (DefaultMaxPartitions <? partitions) then (s, ""%string)
  else
    let s := bump_id s in
    let runID := run_id (nextID s) in
    let '(ids, s) := create_tasks (Z.to_nat partitions) 0 partitions runID workerPool now s in
    (put_run s (mkRunRecord runID trigger run_ready ids now zero_time 0 0 0 0 ""), runID).

Definition RunNow (env : SimEnv) (workerPool : string) (s : Sim) : Sim * string :=
  createRunLocked (sim_now env 0) "manual" workerPool 1 s.
Definition RunNowPartitions (env : SimEnv) (workerPool : string) (partitions : Z) (s : Sim) : Sim * string :=
  createRunLocked (sim_now env 0) "manual" workerPool partitions s.

Definition one_ipv4_host (target : string) : bool :=
  match ParsePrefix target with
  | None => false
  | Some prefix => Is4 (prefix_Addr prefix) && (Bits prefix =? 32) && bool_decide (prefix = Masked prefix)
  end.

Definition RunNowRemote (env : SimEnv) (workerPool target credentialBindingID operation : string) (s : Sim) : Sim * string :=
  if negb (one_ipv4_host target) || bool_decide (credentialBindingID = ""%string) then (s, ""%string)
  else createRemoteRunLocked (sim_now env 0) "manual" workerPool target credentialBindingID operation s.
Definition RunNowSSH env workerPool target credentialBindingID s :=
  RunNowRemote env workerPool target credentialBindingID OperationSSHLinuxV1 s.
Definition RunNowWinRM env workerPool target credentialBindingID s :=
  RunNowRemote env workerPool target credentialBindingID OperationWinRMWindowsV1 s.

(** ** Leases *)

Definition workerLeaseCountLocked (workerID : string) (s : Sim) : Z :=
  count (λ t, String.eqb (T_WorkerID t) workerID && holds_lease (T_State t)) (map_to_list (tasks s)).*2.
Definition poolLeaseCountLocked (workerPool : string) (s : Sim) : Z :=
  count (λ t, String.eqb (T_WorkerPool t) workerPool && holds_lease (T_State t)) (map_to_list (tasks s)).*2.

(** The states of a run's tasks; [None] when one is missing, where the code panics. *)
Definition run_task_states (s : Sim) (r : RunRecord) : option (list task_state) :=
  mapM (λ id, T_State <$> tasks s !! id) (Run_TaskIDs r).

Definition refreshed (states : list task_state) (now : time) (r : RunRecord) : RunRecord :=
  let complete := count (λ st, bool_decide (st = complete_)) states in
  let failed := count (λ st, bool_decide (st = failed_)) states in
  let cancelled := count (λ st, bool_decide (st = cancelled_)) states in
  let active := count (λ st, negb (task_terminal st)) states in
  if 0 <? active then
    if bool_decide (Run_State r = run_cancelling) then r else run_state_to r run_running (Run_CompletedAt r)
  else
    let st := if 0 <? failed then run_failed else if 0 <? cancelled then run_cancelled
              else if complete =? llen (Run_TaskIDs r) then run_complete else Run_State r in
    run_state_to r st now.

(** [refreshRunLocked(s.runs[runID])]: nothing for a nil run. *)
Definition refreshRunLocked (now : time) (runID : string) (s : Sim) : option Sim :=
  match runs s !! runID with
  | None => Some s
  | Some r => states ← run_task_states s r; Some (put_run s (refreshed states now r))
  end.

Definition validLeaseLocked (now : time) (taskID workerID bootID attemptID leaseToken : string) (s : Sim) : option TaskRecord :=
  match tasks s !! taskID with
  | None => None
  | Some t =>
    if negb (holds_lease (T_State t)) || negb (String.eqb (T_WorkerID t) workerID)
       || negb (String.eqb (T_BootID t) bootID) || negb (String.eqb (T_AttemptID t) attemptID)
       || negb (After (T_LeaseExpiresAt t) now)
    then None
    else if String.eqb (T_LeaseDigest t) (sha256_hex leaseToken) then Some t else None
  end.

(** ** Responses *)

Inductive sim_payload :=
| sim_error (msg : string)
| register_body (workerID : string)
| heartbeat_body (cancelled : list string)
| claim_body (t : option Task)
| credential_body (c : PasswordCredential)
| renew_body (r : RenewResponse)
| chunk_body (r : ResultChunkResponse)
| complete_body (r : CompleteResponse).

Inductive SimResponse :=
| Answer (code : Z) (body : sim_payload)
| Panicked.

Definition fail (code : Z) (msg : string) : SimResponse := Answer code (sim_error msg).
Definition bad_lease : SimResponse := fail 409 "invalid or expired lease".

(** A decoded body, or the status and message [decode] answers with. *)
Abbreviation body T := (result (Z * string) T) (only parsing).
Definition decode_error (e : Z * string) : SimResponse := fail e.1 e.2.

(** A step that may panic leaves the state as it was at the panic; the mutex is
    released by the deferred unlock, so the state before the step is kept here. *)
Definition or_panic (s : Sim) (r : option (Sim * SimResponse)) : Sim * SimResponse :=
  default (s, Panicked) r.

(** ** [register] and [heartbeat] *)

Definition known_operations : list string := [OperationLocalV1; OperationSSHLinuxV1; OperationWinRMWindowsV1].

Definition validCapabilities (values : list string) : bool :=
  if (llen values <? 1) || (3 <? llen values) then false
  else if negb (forallb (λ v, bool_decide (v ∈ known_operations)) values) || negb (bool_decide (NoDup values)) then false
  else bool_decide (values = base.filter (λ op, op ∈ values) known_operations).

Definition register (env : SimEnv) (request : body RegisterRequest) (s : Sim) : Sim * SimResponse :=
  match request with
  | Err e => (s, decode_error e)
  | Ok q =>
    let max := if Register_MaxConcurrency q =? 0 then 1 else Register_MaxConcurrency q in
    if negb (String.eqb (Register_SchemaVersion q) ContractVersion) || bool_decide (Register_BootID q = ""%string)
       || bool_decide (Register_WorkerPool q = ""%string) || bool_decide (Register_SiteID q = ""%string)
       || negb (validCapabilities (Register_Capabilities q)) || (max <? 1) || (32 <? max)
    then (s, fail 400 "invalid registration")
    else
      let s := bump_id s in
      let id := worker_id (nextID s) in
      (set_workers s (<[id := mkWorkerRecord id (Register_BootID q) (Register_WorkerPool q) (Register_SiteID q)
          (Register_Version q) (Register_Capabilities q) (Register_PolicyDigest q) max 0 (sim_now env 0)]> (workers s)),
       Answer 201 (register_body id))
  end.

Definition worker_with (w : WorkerRecord) (leases : Z) (beat : time) : WorkerRecord :=
  mkWorkerRecord (Worker_ID w) (Worker_BootID w) (Worker_WorkerPool w) (Worker_SiteID w) (Worker_Version w)
    (Worker_Capabilities w) (Worker_PolicyDigest w) (Worker_MaxConcurrency w) leases beat.

(** Cancelled attempts of the worker, sorted: the order of the map does not show. *)
Definition cancelled_attempts (w : WorkerRecord) (s : Sim) : list string :=
  sort_by str_lt (omap (λ t,
    if String.eqb (T_WorkerID t) (Worker_ID w) && String.eqb (T_BootID t) (Worker_BootID w)
       && T_CancelRequested t && negb (bool_decide (T_AttemptID t = ""%string))
    then Some (T_AttemptID t) else None) (map_to_list (tasks s)).*2).

Definition sim_heartbeat (env : SimEnv) (request : body WorkerHeartbeatRequest) (s : Sim) : Sim * SimResponse :=
  match request with
  | Err e => (s, decode_error e)
  | Ok q =>
    match workers s !! WHeartbeat_WorkerID q with
    | None => (s, fail 403 "unknown worker")
    | Some w =>
      if negb (String.eqb (Worker_BootID w) (WHeartbeat_BootID q)) then (s, fail 403 "unknown worker")
      else
        (set_workers s (<[WHeartbeat_WorkerID q :=
            worker_with w (workerLeaseCountLocked (Worker_ID w) s) (sim_now env 0)]> (workers s)),
         Answer 200 (heartbeat_body (cancelled_attempts w s)))
    end
  end.

(** ** [claim] *)

(** One iteration of the loop that takes back expired leases. *)
Definition expire_task (now now1 : time) (s : Sim) (id : string) : option Sim :=
  match tasks s !! id with
  | None => Some s
  | Some t =>
    if holds_lease (T_State t) && negb (After (T_LeaseExpiresAt t) now) then
      let st := if T_CancelRequested t then cancelled_ else ready in
      refreshRunLocked now1 (T_RunID t)
        (put_task s (task_with t st (T_Attempt t) "" "" "" "" (T_LeaseExpiresAt t) (T_ChunkCount t) false (T_Error t)))
    else Some s
  end.

Fixpoint expire_all (env : SimEnv) (k : nat) (ids : list string) (s : Sim) : option Sim :=
  match ids with
  | [] => Some s
  | id :: ids => s ← expire_task (sim_now env 0) (sim_now env (S k)) s id; expire_all env (S k) ids s
  end.

(** The first ready task the worker may run, by ID. *)
Definition claimable (pool : string) (capabilities : list string) (t : TaskRecord) : bool :=
  bool_decide (T_State t = ready) && String.eqb (T_WorkerPool t) pool && bool_decide (T_Operation t ∈ capabilities).
Definition claimable_ids (pool : string) (capabilities : list string) (s : Sim) : list string :=
  sort_by str_lt (omap (λ kt, if claimable pool capabilities kt.2 then Some kt.1 else None) (map_to_list (tasks s))).

Definition min_time (t deadline : time) : time := if After t deadline then deadline else t.

Definition lease_task (env : SimEnv) (now : time) (workerID : string) (w : WorkerRecord) (leases : Z) (t : TaskRecord) (r : RunRecord)
    (s : Sim) : Sim * SimResponse :=
  let token := random env 0 in
  let attempt := T_Attempt t + 1 in
  let t := task_with t leased attempt (attempt_id (T_ID t) attempt) (Worker_ID w) (Worker_BootID w)
    (sha256_hex token) (min_time (Add now (Config_LeaseDuration (config s))) (T_Deadline t))
    (T_ChunkCount t) (T_CancelRequested t) (T_Error t) in
  let s := put_task s t in
  let s := set_workers s (<[workerID := worker_with w (leases + 1) (Worker_LastHeartbeat w)]> (workers s)) in
  let s := put_run s (run_with r run_running (Run_CompletedAt r) (Run_Assets r) (Run_Relationships r)
    (Run_CollectionErrors r) (Run_Attempts r + 1) (Run_Error r)) in
  (s, Answer 200 (claim_body (Some (mkTask (T_ID t) (T_RunID t) (T_AttemptID t) token (T_LeaseExpiresAt t)
    (T_Operation t) (T_ProfileID t) (T_ProfileRevision t) (T_CredentialBindingID t) (T_TargetPartition t)
    (T_Deadline t))))).

Definition claim (env : SimEnv) (request : body ClaimRequest) (s : Sim) : Sim * SimResponse :=
  match request with
  | Err e => (s, decode_error e)
  | Ok q =>
    match workers s !! Claim_WorkerID q with
    | None => (s, fail 403 "invalid worker claim")
    | Some w =>
      if negb (String.eqb (Worker_BootID w) (Claim_BootID q))
         || negb (bool_decide (Claim_Capabilities q = Worker_Capabilities w))
         || (Claim_CurrentLeases q <? 0) || (Worker_MaxConcurrency w <? Claim_CurrentLeases q)
      then (s, fail 403 "invalid worker claim")
      else or_panic s (
        let now := sim_now env 0 in
        s ← expire_all env 0 (keys env) s;
        let leases := workerLeaseCountLocked (Worker_ID w) s in
        let s := set_workers s (<[Claim_WorkerID q := worker_with w leases (Worker_LastHeartbeat w)]> (workers s)) in
        if (Worker_MaxConcurrency w <=? leases)
           || (Config_PoolMaxLeases (config s) <=? poolLeaseCountLocked (Worker_WorkerPool w) s)
        then Some (s, Answer 200 (claim_body None))
        else match claimable_ids (Worker_WorkerPool w) (Claim_Capabilities q) s with
        | [] => Some (s, Answer 200 (claim_body None))
        | id :: _ =>
          t ← tasks s !! id;
          r ← runs s !! T_RunID t;
          Some (lease_task env now (Claim_WorkerID q) w leases t r s)
        end)
    end
  end.

(** ** Attempt-bound requests *)

Definition remote_operation (op : string) : bool :=
  String.eqb op OperationSSHLinuxV1 || String.eqb op OperationWinRMWindowsV1.

Definition credentialForTask (env : SimEnv) (request : body CredentialRequest) (taskID : string) (s : Sim) : Sim * SimResponse :=
  match request with
  | Err e => (s, decode_error e)
  | Ok q =>
    let access := mkCredentialAccess taskID (Credential_AttemptID q) (Credential_WorkerID q) in
    match validLeaseLocked (sim_now env 0) taskID (Credential_WorkerID q) (Credential_BootID q)
            (Credential_AttemptID q) (Credential_LeaseToken q) s with
    | None => (log_credential s (access "denied" "lease_not_owned")%string, bad_lease)
    | Some t =>
      let c := Config_SSHCredential (config s) in
      if negb (remote_operation (T_Operation t)) || bool_decide (T_CredentialBindingID t = ""%string)
         || bool_decide (Username c = ""%string) || bool_decide (Password c = ""%string)
      then (log_credential s (access "denied" "binding_or_credential_invalid")%string, fail 409 "credential unavailable")
      else (log_credential s (access "allowed" "attempt_bound")%string, Answer 200 (credential_body c))
    end
  end.

Definition renew (env : SimEnv) (request : body RenewRequest) (taskID : string) (s : Sim) : Sim * SimResponse :=
  match request with
  | Err e => (s, decode_error e)
  | Ok q =>
    if negb (renewAvailable s) then (s, fail 503 "renewal unavailable")
    else match validLeaseLocked (sim_now env 0) taskID (Renew_WorkerID q) (Renew_BootID q) (Renew_AttemptID q)
                 (Renew_LeaseToken q) s with
    | None => (s, bad_lease)
    | Some t =>
      if T_CancelRequested t
      then (s, Answer 200 (renew_body (mkRenewResponse (T_LeaseExpiresAt t) true)))
      else
        let expires := min_time (Add (sim_now env 1) (Config_LeaseDuration (config s))) (T_Deadline t) in
        (put_task s (task_with t running (T_Attempt t) (T_AttemptID t) (T_WorkerID t) (T_BootID t)
           (T_LeaseDigest t) expires (T_ChunkCount t) (T_CancelRequested t) (T_Error t)),
         Answer 200 (renew_body (mkRenewResponse expires false)))
    end
  end.

Definition sim_result (env : SimEnv) (request : body ResultChunkRequest) (taskID : string) (s : Sim) : Sim * SimResponse :=
  match request with
  | Err e => (s, decode_error e)
  | Ok q =>
    let payload := Chunk_ObservationJSON q in
    if negb (Chunk_ChunkNumber q =? 0) || negb (Chunk_ChunkCount q =? 1) || (slen payload =? 0) || (2 ^ 20 <? slen payload)
    then (s, fail 400 "invalid result bounds")
    else if negb (String.eqb (Chunk_Checksum q) (sha256_hex payload)) then (s, fail 400 "checksum mismatch")
    else match validLeaseLocked (sim_now env 0) taskID (Chunk_WorkerID q) (Chunk_BootID q) (Chunk_AttemptID q)
                 (Chunk_LeaseToken q) s with
    | None => (s, bad_lease)
    | Some t =>
      if T_CancelRequested t then (s, fail 409 "task cancelled")
      else
        let key := resultKey taskID (Chunk_AttemptID q) (Chunk_ChunkNumber q) in
        match results s !! key with
        | Some existing =>
          if negb (String.eqb (R_Checksum existing) (Chunk_Checksum q)) || negb (String.eqb (R_Payload existing) payload)
          then (s, fail 409 "idempotency conflict")
          else (s, Answer 200 (chunk_body (mkResultChunkResponse true true)))
        | None =>
          let s := set_results s (<[key := mkResultRecord taskID (Chunk_AttemptID q) (Chunk_ChunkNumber q)
            (Chunk_ChunkCount q) (Chunk_Checksum q) payload (sim_now env 1) zero_time "" false]> (results s)) in
          (put_task s (task_with t results_received (T_Attempt t) (T_AttemptID t) (T_WorkerID t) (T_BootID t)
             (T_LeaseDigest t) (T_LeaseExpiresAt t) 1 (T_CancelRequested t) (T_Error t)),
           Answer 201 (chunk_body (mkResultChunkResponse true false)))
        end
    end
  end.

(** ** [complete] *)

Definition close_result (env : SimEnv) (key : string) (terminal : string) (r : ResultRecord) (s : Sim) : Sim :=
  set_results s (<[key := mkResultRecord (R_TaskID r) (R_AttemptID r) (R_ChunkNumber r) (R_ChunkCount r) (R_Checksum r)
    (R_Payload r) (R_CreatedAt r) (sim_now env 3) terminal (R_Deleted r)]> (results s)).

(** The states of the task and of its run, as the response reports them. *)
Definition complete_answer (taskID runID : string) (s : Sim) : option (Sim * SimResponse) :=
  t ← tasks s !! taskID;
  r ← runs s !! runID;
  Some (s, Answer 200 (complete_body (mkCompleteResponse (task_state_text (T_State t)) (run_state_text (Run_State r))))).

Definition failIRELocked (env : SimEnv) (t : TaskRecord) (r : RunRecord) (key : string) (res : ResultRecord) (s : Sim) : option Sim :=
  let s := put_task s (task_state_to t failed_ (T_CancelRequested t) "ire_preflight_failed") in
  let s := put_run s (run_with r (Run_State r) (Run_CompletedAt r) (Run_Assets r) (Run_Relationships r)
    (Run_CollectionErrors r) (Run_Attempts r) "ire_preflight_failed") in
  s ← refreshRunLocked (sim_now env 2) (T_RunID t) s;
  let s := close_result env key "failed" res s in
  Some (add_delivery s (mkIREDelivery (Run_ID r) (T_ID t) (T_AttemptID t) true false false [] [] (sim_now env 3))).

Definition item_key (i : IREItem) : string :=
  (ClassName i +:+ NUL +:+ SourceName i +:+ NUL +:+ SourceNativeKey i)%string.

(** [if exists NO_CHANGE else INSERT], for items and for relations *)
Definition upsert_keys (env : SimEnv) (first : nat) (ks : list string) (m : gmap string string)
    : gmap string string * list string :=
  let '(_, m, ops) := foldl (λ '(n, m, ops) k,
    match m !! k with
    | Some _ => (S n, m, ops ++ ["NO_CHANGE"%string])
    | None => (S n, <[k := random env n]> m, ops ++ ["INSERT"%string])
    end) (first, m, []) ks in (m, ops).

Definition relation_key (itemKeys : list string) (r : IRERelation) : option string :=
  p ← itemKeys !! Z.to_nat (Parent r);
  c ← itemKeys !! Z.to_nat (Child r);
  Some (Relation_Type r +:+ NUL +:+ p +:+ NUL +:+ c)%string.

Section complete.
Variable json_tokens : string → list json_token * bool.
Variable decode_line : string → go ObservationEnvelope.
Variable decode_any : string → go ObservationEnvelope.

(** A remote task that found nothing but errors. *)
Definition no_data (t : TaskRecord) (payload : string) : option ObservationEnvelope :=
  if remote_operation (T_Operation t) then
    let plugin := if String.eqb (T_Operation t) OperationWinRMWindowsV1 then "winrm-windows"%string else "ssh-linux"%string in
    match decode_any payload with
    | Err _ => None
    | Ok e =>
      if String.eqb (Envelope_SchemaVersion e) SchemaVersion && String.eqb (Envelope_Plugin e) plugin
         && String.eqb (Envelope_JobID e) (T_ID t) && (llen (Envelope_Assets e) =? 0)
         && (llen (Envelope_Relationships e) =? 0) && (0 <? llen (Envelope_Errors e))
      then Some e else None
    end
  else None.

Definition deliver (env : SimEnv) (t : TaskRecord) (r : RunRecord) (key : string) (res : ResultRecord)
    (payload : IREPayload) (s : Sim) : option (Sim * SimResponse) :=
  let itemKeys := item_key <$> Items payload in
  let '(is_, iops) := upsert_keys env 0 itemKeys (items s) in
  relKeys ← mapM (relation_key itemKeys) (Relations payload);
  let '(rs, rops) := upsert_keys env (length itemKeys) relKeys (relations s) in
  let s := set_cmdb s is_ rs in
  let s := add_delivery s (mkIREDelivery (Run_ID r) (T_ID t) (T_AttemptID t) true true false iops rops (sim_now env 1)) in
  let s := put_task s (task_state_to t complete_ (T_CancelRequested t) (T_Error t)) in
  let s := put_run s (run_with r (Run_State r) (Run_CompletedAt r) (Run_Assets r + llen (Items payload))
    (Run_Relationships r + llen (Relations payload)) (Run_CollectionErrors r) (Run_Attempts r) (Run_Error r)) in
  s ← refreshRunLocked (sim_now env 2) (T_RunID t) s;
  complete_answer (T_ID t) (T_RunID t) (close_result env key "complete" res s).

Definition complete (env : SimEnv) (request : body CompleteRequest) (taskID : string) (s : Sim) : Sim * SimResponse :=
  match request with
  | Err e => (s, decode_error e)
  | Ok q =>
    match validLeaseLocked (sim_now env 0) taskID (Complete_WorkerID q) (Complete_BootID q) (Complete_AttemptID q)
            (Complete_LeaseToken q) s with
    | None => (s, bad_lease)
    | Some t =>
      if negb (Complete_Success q) then
        match Complete_Failure q with
        | None => (s, fail 400 "invalid failure")
        | Some f =>
          if bool_decide (Failure_Code f = ""%string) || (4096 <? slen (Failure_Message f))
          then (s, fail 400 "invalid failure")
          else or_panic s (
            let t' := if T_CancelRequested t || String.eqb (Failure_Code f) "cancelled"
                      then task_state_to t cancelled_ false "cancelled"
                      else task_state_to t failed_ false (Failure_Code f) in
            s ← refreshRunLocked (sim_now env 2) (T_RunID t) (put_task s t');
            complete_answer (T_ID t) (T_RunID t) s)
        end
      else if negb (Complete_ChunkCount q =? 1) || negb (bool_decide (T_State t = results_received))
      then (s, fail 409 "result chunks incomplete")
      else if T_CancelRequested t then (s, fail 409 "task cancelled")
      else
        let key := resultKey taskID (Complete_AttemptID q) 0 in
        or_panic s (
          r ← runs s !! T_RunID t;
          res ← results s !! key;
          match no_data t (R_Payload res) with
          | Some e =>
            let s := add_delivery s (mkIREDelivery (Run_ID r) (T_ID t) (T_AttemptID t) false false true [] [] (sim_now env 1)) in
            let s := put_task s (task_state_to t complete_ (T_CancelRequested t) (T_Error t)) in
            let s := put_run s (run_with r (Run_State r) (Run_CompletedAt r) (Run_Assets r) (Run_Relationships r)
              (Run_CollectionErrors r + llen (Envelope_Errors e)) (Run_Attempts r) (Run_Error r)) in
            s ← refreshRunLocked (sim_now env 2) (T_RunID t) s;
            complete_answer (T_ID t) (T_RunID t) (close_result env key "complete" res s)
          | None =>
            match DecodeJSONLines json_tokens decode_line (R_Payload res) with
            | Err _ => s ← failIRELocked env t r key res s; Some (s, fail 422 "observation validation failed")
            | Ok envelopes =>
              match mapPayload "Nischoy Topo" envelopes with
              | Err _ => s ← failIRELocked env t r key res s; Some (s, fail 422 "IRE preflight failed")
              | Ok payload => deliver env t r key res payload s
              end
            end
          end)
    end
  end.

(** ** [serveHTTP] *)

Inductive sim_route :=
| route_register (q : body RegisterRequest)
| route_heartbeat (q : body WorkerHeartbeatRequest)
| route_claim (q : body ClaimRequest)
| route_results (taskID : string) (q : body ResultChunkRequest)
| route_complete (taskID : string) (q : body CompleteRequest)
| route_renew (taskID : string) (q : body RenewRequest)
| route_credential (taskID : string) (q : body CredentialRequest)
| route_unknown.

Definition serveHTTP (env : SimEnv) (is_post : bool) (authorization : string) (route : sim_route) (s : Sim) : Sim * SimResponse :=
  let token := Config_Token (config s) in
  if negb is_post then (s, fail 405 "method not allowed")
  else if bool_decide (token = ""%string) || negb (String.eqb authorization ("Bearer " +:+ token)%string)
  then (s, fail 401 "unauthorized")
  else match route with
  | route_register q => register env q s
  | route_heartbeat q => sim_heartbeat env q s
  | route_claim q => claim env q s
  | route_results id q => sim_result env q id s
  | route_complete id q => complete env q id s
  | route_renew id q => renew env q id s
  | route_credential id q => credentialForTask env q id s
  | route_unknown => (s, fail 404 "404 page not found")
  end.
End complete.

(** ** Operator actions *)

(** The loop of [CancelRun]: cancel ready tasks, mark active ones. *)
Fixpoint cancel_tasks (ids : list string) (s : Sim) : option (bool * Sim) :=
  match ids with
  | [] => Some (false, s)
  | id :: ids =>
    t ← tasks s !! id;
    let active := holds_lease (T_State t) in
    let s := match T_State t with
      | ready => put_task s (task_state_to t cancelled_ (T_CancelRequested t) (T_Error t))
      | leased | running | results_received => put_task s (task_state_to t (T_State t) true (T_Error t))
      | _ => s
      end in
    r ← cancel_tasks ids s;
    Some (active || r.1, r.2)
  end.

(** [None] is a panic. *)
Definition CancelRun (env : SimEnv) (runID : string) (s : Sim) : option (Sim * bool) :=
  match runs s !! runID with
  | None => Some (s, false)
  | Some run =>
    if run_terminal (Run_State run) then Some (s, false)
    else
      match cancel_tasks (Run_TaskIDs run) s with
      | None => None
      | Some (active, s) =>
        Some (put_run s (if active then run_state_to run run_cancelling (Run_CompletedAt run)
                         else run_state_to run run_cancelled (sim_now env 0)), true)
      end
  end.

Definition UpsertSimSchedule (x : SimSchedule) (s : Sim) : Sim :=
  set_schedules s (<[S_ID x := x]> (sim_schedules s)).

(** One iteration of [EnqueueDue]; the creation reads the clock again. *)
Definition enqueue_one (now created : time) (acc : Sim * list string) (id : string) : Sim * list string :=
  let '(s, ids) := acc in
  match sim_schedules s !! id with
  | None => acc
  | Some x =>
    if negb (S_Active x) || After (S_NextRunAt x) now then acc
    else
      let '(s, runID) :=
        if remote_operation (S_Operation x)
        then createRemoteRunLocked created "scheduled" (S_WorkerPool x) (S_Target x) (S_CredentialBindingID x) (S_Operation x) s
        else createRunLocked created "scheduled" (S_WorkerPool x) 1 s in
      (set_schedules s (<[id := mkSimSchedule (S_ID x) (S_WorkerPool x) (S_Operation x) (S_Target x)
         (S_CredentialBindingID x) (S_Interval x) (Add now (S_Interval x)) (S_Active x)]> (sim_schedules s)),
       ids ++ [runID])
  end.
Fixpoint enqueue_loop (env : SimEnv) (k : nat) (ids : list string) (acc : Sim * list string) : Sim * list string :=
  match ids with
  | [] => acc
  | id :: ids => enqueue_loop env (S k) ids (enqueue_one (sim_now env 0) (sim_now env (S k)) acc id)
  end.
Definition EnqueueDue (env : SimEnv) (s : Sim) : Sim * list string := enqueue_loop env 0 (keys env) (s, []).

(** *** Retention *)

Definition cleanable (now : time) (c : SimConfig) (r : ResultRecord) : bool :=
  negb (R_Deleted r) && negb (IsZero (R_ProcessedAt r)) &&
  let ttl := if String.eqb (R_Terminal r) "complete" then Config_SuccessRawTTL c else Config_FailureRawTTL c in
  negb (Before now (Add (R_ProcessedAt r) ttl)).

Definition erase_payload (r : ResultRecord) : ResultRecord :=
  mkResultRecord (R_TaskID r) (R_AttemptID r) (R_ChunkNumber r) (R_ChunkCount r) (R_Checksum r) ""
    (R_CreatedAt r) (R_ProcessedAt r) (R_Terminal r) true.

Fixpoint cleanup_loop (now : time) (limit : Z) (ids : list string) (deleted : Z) (s : Sim) : Sim * Z :=
  match ids with
  | [] => (s, deleted)
  | id :: ids =>
    match results s !! id with
    | Some r =>
      if cleanable now (config s) r then
        let s := set_results s (<[id := erase_payload r]> (results s)) in
        if deleted + 1 =? limit then (s, deleted + 1) else cleanup_loop now limit ids (deleted + 1) s
      else cleanup_loop now limit ids deleted s
    | None => cleanup_loop now limit ids deleted s
    end
  end.
Definition CleanupBatch (env : SimEnv) (limit : Z) (s : Sim) : Sim * Z :=
  if limit <? 1 then (s, 0) else cleanup_loop (sim_now env 0) limit (keys env) 0 s.
Definition Cleanup (env : SimEnv) (s : Sim) : Sim * Z := CleanupBatch env int64_max s.

(** Processed results put in place to exercise the retention. *)
Fixpoint seed_results (n : nat) (index : Z) (processedAt : time) (s : Sim) : Sim :=
  match n with
  | O => s
  | S n =>
    seed_results n (index + 1) processedAt (set_results s (<[("retention" +:+ NUL +:+ decimal_pad 9 index)%string :=
      mkResultRecord ("retained-" +:+ decimal_pad 9 index)%string "attempt-1" 0 0 "" (char 1) zero_time processedAt
        "complete" false]> (results s)))
  end.
Definition SeedProcessedResults (n : Z) (processedAt : time) (s : Sim) : Sim :=
  seed_results (Z.to_nat n) 0 processedAt s.

Definition ResultStats (s : Sim) : Z * Z * Z :=
  let rs := (map_to_list (results s)).*2 in
  (llen rs, count R_Deleted rs, foldr (λ r n, slen (R_Payload r) + n) 0 rs).

(** ** Steps *)

Inductive sim_op :=
| op_http (is_post : bool) (authorization : string) (route : sim_route)
| op_run (workerPool : string) (partitions : Z)
| op_run_ssh (workerPool target binding : string)
| op_run_winrm (workerPool target binding : string)
| op_renewals (available : bool)
| op_cancel (runID : string)
| op_schedule (x : SimSchedule)
| op_enqueue_due
| op_cleanup (limit : Z)
| op_seed (n : Z) (processedAt : time).

Section steps.
Variable json_tokens : string → list json_token * bool.
Variable decode_line : string → go ObservationEnvelope.
Variable decode_any : string → go ObservationEnvelope.

Definition sim_step (env : SimEnv) (op : sim_op) (s : Sim) : Sim :=
  match op with
  | op_http post auth route => (serveHTTP json_tokens decode_line decode_any env post auth route s).1
  | op_run pool n => (RunNowPartitions env pool n s).1
  | op_run_ssh pool target binding => (RunNowSSH env pool target binding s).1
  | op_run_winrm pool target binding => (RunNowWinRM env pool target binding s).1
  | op_renewals b => SetRenewAvailable b s
  | op_cancel id => match CancelRun env id s with Some (s, _) => s | None => s end
  | op_schedule x => UpsertSimSchedule x s
  | op_enqueue_due => (EnqueueDue env s).1
  | op_cleanup limit => (CleanupBatch env limit s).1
  | op_seed n at_ => SeedProcessedResults n at_ s
  end.

Definition sim_run (c : SimConfig) (ops : list (SimEnv * sim_op)) : Sim :=
  foldl (λ s eo, sim_step eo.1 eo.2 s) (NewSim c) ops.
End steps.
