(* ===== verification/SimProtocol.v ===== *)
(** * The lease protocol of the control plane, as a transition system

    [protocol_step] is what the steps of [ControlSim] are allowed to do to tasks, runs,
    workers and deliveries, with the life of one task as [task_move]: a ready task is
    leased under a new attempt; a lease is worked on, marked for cancellation, given
    back on expiry or ended.  The invariants of the protocol are proved here by case
    analysis on the rules; [SimRefinement] proves that the server follows it. *)

From S2P Require Import Prelude Bytes Sha256 Time Model Netip Decimal Contract ControlSim.

(** ** Identifiers are injective *)

Lemma task_id_inj n m : 0 <= n → 0 <= m → task_id n = task_id m → n = m.
Proof. unfold task_id. intros ?? Heq. eapply (decimal_pad_inj 8); [done..|]. by injection Heq. Qed.
Lemma run_id_inj n m : 0 <= n → 0 <= m → run_id n = run_id m → n = m.
Proof. unfold run_id. intros ?? Heq. eapply (decimal_pad_inj 8); [done..|]. by injection Heq. Qed.
Lemma worker_id_inj n m : 0 <= n → 0 <= m → worker_id n = worker_id m → n = m.
Proof. unfold worker_id. intros ?? Heq. eapply (decimal_pad_inj 8); [done..|]. by injection Heq. Qed.

Lemma string_app_inj_l (a x y : string) : (a +:+ x = a +:+ y)%string → x = y.
Proof. induction a as [|c a IH]; simpl; [done|]. intros [= ?]. auto. Qed.

Lemma attempt_id_inj id n m : 0 <= n → 0 <= m → attempt_id id n = attempt_id id m → n = m.
Proof.
  unfold attempt_id. intros ?? Heq. do 3 apply string_app_inj_l in Heq. by eapply (decimal_pad_inj 8).
Qed.
Lemma attempt_id_nonempty id n : attempt_id id n ≠ ""%string.
Proof. done. Qed.

(** ** The life of a task *)

(** Work under a lease that is not cancelled: renewal, a received result. *)
Inductive work_move (t : TaskRecord) : TaskRecord → Prop :=
| move_work st expires chunks :
    holds_lease (T_State t) = true → T_CancelRequested t = false →
    st = running ∨ st = results_received → expires <= T_Deadline t →
    work_move t (task_with t st (T_Attempt t) (T_AttemptID t) (T_WorkerID t) (T_BootID t)
      (T_LeaseDigest t) expires chunks (T_CancelRequested t) (T_Error t)).

(** The end of a lease: it expired, or its holder ended the task. *)
Inductive release_move (t : TaskRecord) : TaskRecord → Prop :=
| move_expire :
    holds_lease (T_State t) = true →
    release_move t (task_with t (if T_CancelRequested t then cancelled_ else ready) (T_Attempt t) "" "" "" ""
      (T_LeaseExpiresAt t) (T_ChunkCount t) false (T_Error t))
| move_end st cancel err :
    holds_lease (T_State t) = true → task_terminal st = true →
    (T_CancelRequested t = true → st = cancelled_) →
    release_move t (task_state_to t st cancel err).

(** What [CancelRun] does to a task of the run. *)
Definition cancel_mark (t : TaskRecord) : TaskRecord :=
  match T_State t with
  | ready => task_state_to t cancelled_ (T_CancelRequested t) (T_Error t)
  | leased | running | results_received => task_state_to t (T_State t) true (T_Error t)
  | _ => t
  end.

Definition cancel_run_tasks (rid : string) (m : gmap string TaskRecord) : gmap string TaskRecord :=
  (λ t, if decide (T_RunID t = rid) then cancel_mark t else t) <$> m.

Inductive task_move (t : TaskRecord) : TaskRecord → Prop :=
| task_leased worker boot digest expires chunks :
    T_State t = ready → expires <= T_Deadline t →
    task_move t (task_with t leased (T_Attempt t + 1) (attempt_id (T_ID t) (T_Attempt t + 1)) worker boot digest
      expires chunks (T_CancelRequested t) (T_Error t))
| task_worked t' : work_move t t' → task_move t t'
| task_released t' : release_move t t' → task_move t t'
| task_cancelled : task_move t (cancel_mark t).

(** ** Steps *)

Definition same_worker (w w' : WorkerRecord) : Prop :=
  Worker_ID w' = Worker_ID w ∧ Worker_BootID w' = Worker_BootID w ∧ Worker_WorkerPool w' = Worker_WorkerPool w ∧
  Worker_MaxConcurrency w' = Worker_MaxConcurrency w ∧ Worker_Capabilities w' = Worker_Capabilities w.

Definition same_workers (m m' : gmap string WorkerRecord) : Prop :=
  ∀ id, match m !! id, m' !! id with
        | Some w, Some w' => same_worker w w'
        | None, None => True
        | _, _ => False
        end.

Definition same_run (r r' : RunRecord) : Prop :=
  Run_ID r' = Run_ID r ∧ Run_TaskIDs r' = Run_TaskIDs r ∧ Run_State r' = Run_State r.

(** Nothing the protocol speaks of changes; results are never dropped. *)
Record quiet (s s' : Sim) : Prop := mkQuiet {
  quiet_config : config s' = config s;
  quiet_next : nextID s' = nextID s;
  quiet_tasks : tasks s' = tasks s;
  quiet_runs : runs s' = runs s;
  quiet_deliveries : deliveries s' = deliveries s;
  quiet_workers : same_workers (workers s) (workers s');
  quiet_results : ∀ k, is_Some (results s !! k) → is_Some (results s' !! k);
}.

(** At most one delivery, of a task that ended complete or failed. *)
Definition deliveries_for (t : TaskRecord) (ds : list IREDelivery) : Prop :=
  ds = [] ∨ ∃ d, ds = [d] ∧ D_TaskID d = T_ID t ∧ (T_State t = complete_ ∨ T_State t = failed_).

Definition add_deliveries (s : Sim) (ds : list IREDelivery) : Sim :=
  mkSim (config s) (renewAvailable s) (nextID s) (workers s) (runs s) (tasks s)
    (results s) (sim_schedules s) (items s) (relations s) (deliveries s ++ ds) (credentialLog s).

(** A new run [rid] with tasks [ts], all ready, under fresh identifiers. *)
Record created (s s' : Sim) (rid : string) (r : RunRecord) (ts : list TaskRecord) : Prop := mkCreated {
  created_config : config s' = config s;
  created_workers : workers s' = workers s;
  created_results : results s' = results s;
  created_deliveries : deliveries s' = deliveries s;
  created_next : nextID s < nextID s';
  created_id : ∃ n, nextID s < n <= nextID s' ∧ rid = run_id n;
  created_runs : runs s' = <[rid := r]> (runs s);
  created_run : Run_ID r = rid ∧ Run_State r = run_ready ∧ Run_TaskIDs r ≡ₚ T_ID <$> ts ∧ ts ≠ [];
  created_tasks : tasks s' = foldr (λ t, <[T_ID t := t]>) (tasks s) ts;
  created_task : ∀ t, t ∈ ts → T_RunID t = rid ∧ T_State t = ready ∧ T_Attempt t = 0 ∧ T_CancelRequested t = false ∧
    ∃ n, nextID s < n <= nextID s' ∧ T_ID t = task_id n;
}.

Inductive protocol_step (s : Sim) : Sim → Prop :=
| step_quiet s' : quiet s s' → protocol_step s s'
| step_register w :
    Worker_ID w = worker_id (nextID s + 1) → 1 <= Worker_MaxConcurrency w <= 32 →
    protocol_step s (set_workers (bump_id s) (<[Worker_ID w := w]> (workers s)))
| step_work t t' :
    tasks s !! T_ID t = Some t → work_move t t' →
    (T_State t' = results_received → is_Some (results s !! resultKey (T_ID t) (T_AttemptID t) 0)) →
    protocol_step s (put_task s t')
| step_release t t' r r' ds now s' :
    tasks s !! T_ID t = Some t → release_move t t' →
    runs s !! T_RunID t = Some r → same_run r r' → deliveries_for t' ds →
    refreshRunLocked now (T_RunID t) (put_run (put_task (add_deliveries s ds) t') r') = Some s' →
    protocol_step s s'
| step_lease wid w leases t r digest expires :
    workers s !! wid = Some w → tasks s !! T_ID t = Some t → T_State t = ready →
    T_WorkerPool t = Worker_WorkerPool w → T_Operation t ∈ Worker_Capabilities w →
    runs s !! T_RunID t = Some r → expires <= T_Deadline t →
    workerLeaseCountLocked (Worker_ID w) s < Worker_MaxConcurrency w →
    poolLeaseCountLocked (Worker_WorkerPool w) s < Config_PoolMaxLeases (config s) →
    protocol_step s
      (put_run (set_workers (put_task s (task_with t leased (T_Attempt t + 1) (attempt_id (T_ID t) (T_Attempt t + 1))
          (Worker_ID w) (Worker_BootID w) digest expires (T_ChunkCount t) (T_CancelRequested t) (T_Error t)))
        (<[wid := worker_with w leases (Worker_LastHeartbeat w)]> (workers s)))
       (run_with r run_running (Run_CompletedAt r) (Run_Assets r) (Run_Relationships r)
          (Run_CollectionErrors r) (Run_Attempts r + 1) (Run_Error r)))
| step_create s' rid r ts : created s s' rid r ts → protocol_step s s'
| step_cancel rid r completed :
    runs s !! rid = Some r → run_terminal (Run_State r) = false →
    protocol_step s
      (put_run (set_tasks s (cancel_run_tasks rid (tasks s)))
        (run_state_to r (if existsb (λ t, String.eqb (T_RunID t) rid && holds_lease (T_State t)) (map_to_list (tasks s)).*2
          then run_cancelling else run_cancelled) completed)).

(** ** Invariants *)

Definition task_ok (s : Sim) (t : TaskRecord) : Prop :=
  (∃ n, 1 <= n <= nextID s ∧ T_ID t = task_id n) ∧
  (∃ r, runs s !! T_RunID t = Some r ∧ T_ID t ∈ Run_TaskIDs r) ∧
  0 <= T_Attempt t ∧
  (T_State t = results_received → is_Some (results s !! resultKey (T_ID t) (T_AttemptID t) 0)) ∧
  (holds_lease (T_State t) = true →
     T_AttemptID t = attempt_id (T_ID t) (T_Attempt t) ∧ T_LeaseExpiresAt t <= T_Deadline t ∧
     ∃ w, workers s !! T_WorkerID t = Some w ∧ Worker_BootID w = T_BootID t ∧ Worker_WorkerPool w = T_WorkerPool t ∧
       T_Operation t ∈ Worker_Capabilities w).

Definition run_ok (s : Sim) (r : RunRecord) : Prop :=
  (∃ n, 1 <= n <= nextID s ∧ Run_ID r = run_id n) ∧ Run_TaskIDs r ≠ [] ∧
  ∀ tid, tid ∈ Run_TaskIDs r → ∃ t, tasks s !! tid = Some t ∧ T_RunID t = Run_ID r.

Definition worker_ok (s : Sim) (w : WorkerRecord) : Prop :=
  (∃ n, 1 <= n <= nextID s ∧ Worker_ID w = worker_id n) ∧ 1 <= Worker_MaxConcurrency w <= 32.

Record sim_wf (s : Sim) : Prop := mkSimWf {
  wf_next : 0 <= nextID s;
  wf_tasks : ∀ id t, tasks s !! id = Some t → T_ID t = id ∧ task_ok s t;
  wf_runs : ∀ id r, runs s !! id = Some r → Run_ID r = id ∧ run_ok s r;
  wf_workers : ∀ id w, workers s !! id = Some w → Worker_ID w = id ∧ worker_ok s w;
}.

(** A run is terminal exactly when all its tasks are; in a run being cancelled every
    task is terminal or its holder has been asked to stop. *)
Definition run_state_ok (s : Sim) (id : string) : Prop :=
  ∀ r, runs s !! id = Some r →
    (run_terminal (Run_State r) = true ↔
       ∀ t, tasks s !! T_ID t = Some t → T_RunID t = id → task_terminal (T_State t) = true) ∧
    (Run_State r = run_cancelling →
       ∀ t, tasks s !! T_ID t = Some t → T_RunID t = id →
         task_terminal (T_State t) = true ∨ holds_lease (T_State t) = true ∧ T_CancelRequested t = true).

Definition delivered_once (s : Sim) : Prop :=
  NoDup (D_TaskID <$> deliveries s) ∧
  ∀ d, d ∈ deliveries s → ∃ t, tasks s !! D_TaskID d = Some t ∧ (T_State t = complete_ ∨ T_State t = failed_).

Definition within_capacity (s : Sim) : Prop :=
  (∀ id w, workers s !! id = Some w → workerLeaseCountLocked (Worker_ID w) s <= Worker_MaxConcurrency w) ∧
  ∀ pool, poolLeaseCountLocked pool s <= Config_PoolMaxLeases (config s).

Record sim_ok (s : Sim) : Prop := mkSimOk {
  ok_wf : sim_wf s;
  ok_runs : ∀ id, run_state_ok s id;
  ok_deliveries : delivered_once s;
  ok_capacity : within_capacity s;
}.

(** ** Moves *)

Lemma work_move_same t t' : work_move t t' →
  T_ID t' = T_ID t ∧ T_RunID t' = T_RunID t ∧ T_WorkerPool t' = T_WorkerPool t ∧ T_Operation t' = T_Operation t ∧
  T_Deadline t' = T_Deadline t ∧ T_Attempt t' = T_Attempt t ∧ T_AttemptID t' = T_AttemptID t ∧
  T_WorkerID t' = T_WorkerID t ∧ T_BootID t' = T_BootID t ∧ T_CancelRequested t' = T_CancelRequested t ∧
  holds_lease (T_State t) = true ∧ holds_lease (T_State t') = true ∧ T_LeaseExpiresAt t' <= T_Deadline t' ∧
  T_CancelRequested t = false.
Proof. destruct 1 as [st ? ? ? ? [-> | ->] ?]; simpl; auto 20. Qed.

Lemma release_move_same t t' : release_move t t' →
  T_ID t' = T_ID t ∧ T_RunID t' = T_RunID t ∧ T_WorkerPool t' = T_WorkerPool t ∧ T_Operation t' = T_Operation t ∧
  T_Deadline t' = T_Deadline t ∧ T_Attempt t' = T_Attempt t ∧
  holds_lease (T_State t) = true ∧ holds_lease (T_State t') = false ∧
  (T_State t' = ready ∨ task_terminal (T_State t') = true) ∧
  (T_CancelRequested t = true → T_State t' = cancelled_).
Proof.
  destruct 1 as [Hh|st c e Hh Ht Hc]; simpl.
  - destruct (T_CancelRequested t); simpl; repeat split; auto; done.
  - repeat split; auto. by destruct st.
Qed.

Lemma cancel_mark_same t :
  T_ID (cancel_mark t) = T_ID t ∧ T_RunID (cancel_mark t) = T_RunID t ∧ T_WorkerPool (cancel_mark t) = T_WorkerPool t ∧
  T_Operation (cancel_mark t) = T_Operation t ∧ T_Deadline (cancel_mark t) = T_Deadline t ∧
  T_Attempt (cancel_mark t) = T_Attempt t ∧ T_AttemptID (cancel_mark t) = T_AttemptID t ∧
  T_WorkerID (cancel_mark t) = T_WorkerID t ∧ T_BootID (cancel_mark t) = T_BootID t ∧
  T_LeaseExpiresAt (cancel_mark t) = T_LeaseExpiresAt t ∧
  holds_lease (T_State (cancel_mark t)) = holds_lease (T_State t) ∧
  (holds_lease (T_State t) = true → T_State (cancel_mark t) = T_State t ∧ T_CancelRequested (cancel_mark t) = true) ∧
  (task_terminal (T_State t) = true → cancel_mark t = t) ∧
  (T_State t = ready → T_State (cancel_mark t) = cancelled_).
Proof. unfold cancel_mark. destruct (T_State t) eqn:E; simpl; rewrite ?E; simpl; repeat split; auto; try done. Qed.

Lemma task_states_exclusive st : holds_lease st = true → task_terminal st = false ∧ st ≠ ready.
Proof. by destruct st. Qed.
Lemma task_states_cover st : st = ready ∨ holds_lease st = true ∨ task_terminal st = true.
Proof. destruct st; auto. Qed.

Lemma task_move_same t t' : task_move t t' →
  T_ID t' = T_ID t ∧ T_RunID t' = T_RunID t ∧ T_WorkerPool t' = T_WorkerPool t ∧ T_Operation t' = T_Operation t ∧
  T_Deadline t' = T_Deadline t ∧ T_Attempt t <= T_Attempt t' ∧
  (task_terminal (T_State t) = true → t' = t).
Proof.
  destruct 1 as [w b d e c Hr He|t' Hw|t' Hm|].
  - simpl. repeat split; try done; try lia. by rewrite Hr.
  - pose proof (work_move_same _ _ Hw) as (?&?&?&?&?&?&?&?&?&?&Hh&?). repeat split; try done; try lia.
    destruct (task_states_exclusive _ Hh). congruence.
  - pose proof (release_move_same _ _ Hm) as (?&?&?&?&?&?&Hh&?). repeat split; try done; try lia.
    destruct (task_states_exclusive _ Hh). congruence.
  - pose proof (cancel_mark_same t) as (?&?&?&?&?&?&?&?&?&?&?&?&?&?). repeat split; try done; try lia.
Qed.

(** ** Well-formedness *)

(** Identities only accumulate: what later states keep of earlier ones. *)
Record grows (s s' : Sim) : Prop := mkGrows {
  grows_next : nextID s <= nextID s';
  grows_tasks : ∀ id t, tasks s !! id = Some t → ∃ t', tasks s' !! id = Some t' ∧ T_RunID t' = T_RunID t;
  grows_runs : ∀ id r, runs s !! id = Some r → ∃ r', runs s' !! id = Some r' ∧ Run_TaskIDs r' = Run_TaskIDs r;
  grows_results : ∀ k, is_Some (results s !! k) → is_Some (results s' !! k);
  grows_workers : ∀ id w, workers s !! id = Some w → ∃ w', workers s' !! id = Some w' ∧ same_worker w w';
}.

Lemma task_ok_grows s s' t : grows s s' → task_ok s t → task_ok s' t.
Proof.
  intros [Hn _ Hr Hres Hw] ((n&Hn1&Hid) & (r&Hrun&Hin) & Ha & Hrr & Hh). split; [exists n; split; [lia|done]|].
  destruct (Hr _ _ Hrun) as (r'&Hr'&Hids). split; [exists r'; by rewrite Hids|]. split; [done|]. split; [by eauto|].
  intros Hl. destruct (Hh Hl) as (?&?&w&Hwk&?&?&?). split; [done|]. split; [done|].
  destruct (Hw _ _ Hwk) as (w'&?&?&?&?&?&?). exists w'. repeat split; congruence.
Qed.

Lemma run_ok_grows s s' r : grows s s' → run_ok s r → run_ok s' r.
Proof.
  intros [Hn Ht _ _ _] ((n&Hn1&Hid) & Hne & Hin). split; [exists n; split; [lia|done]|]. split; [done|].
  intros tid Htid. destruct (Hin tid Htid) as (t&Hl&Hrun). destruct (Ht _ _ Hl) as (t'&?&?). exists t'. split; [done|congruence].
Qed.

Lemma worker_ok_grows s s' w w' : grows s s' → same_worker w w' → worker_ok s w → worker_ok s' w'.
Proof.
  intros [Hn _ _ _ _] (Hid&_&_&Hmax&_) [(n&Hn1&Heq) Hm]. split; [exists n; split; [lia|congruence]|congruence].
Qed.

Lemma sim_wf_grows s s' :
  sim_wf s → grows s s' →
  (∀ id t, tasks s' !! id = Some t → tasks s !! id = Some t ∨ T_ID t = id ∧ task_ok s' t) →
  (∀ id r, runs s' !! id = Some r →
     (∃ r0, runs s !! id = Some r0 ∧ Run_ID r = Run_ID r0 ∧ Run_TaskIDs r = Run_TaskIDs r0) ∨ Run_ID r = id ∧ run_ok s' r) →
  (∀ id w, workers s' !! id = Some w → (∃ w0, workers s !! id = Some w0 ∧ same_worker w0 w) ∨ Worker_ID w = id ∧ worker_ok s' w) →
  sim_wf s'.
Proof.
  intros [Hn Ht Hr Hw] Hg Ht' Hr' Hw'. split.
  - pose proof (grows_next _ _ Hg). lia.
  - intros id t Hl. destruct (Ht' _ _ Hl) as [Hl0|?]; [|done]. destruct (Ht _ _ Hl0). split; [done|by eapply task_ok_grows].
  - intros id r Hl. destruct (Hr' _ _ Hl) as [(r0&Hl0&Hid&Hids)|?]; [|done]. destruct (Hr _ _ Hl0) as [? Hok].
    split; [congruence|]. destruct (run_ok_grows _ _ _ Hg Hok) as ((n&?&?)&?&Hin).
    split; [exists n; split; [done|congruence]|]. split; [congruence|]. rewrite Hids, Hid. done.
  - intros id w Hl. destruct (Hw' _ _ Hl) as [(w0&Hl0&Hsame)|?]; [|done]. destruct (Hw _ _ Hl0).
    split; [destruct Hsame; congruence|by eapply worker_ok_grows].
Qed.

Lemma same_worker_refl w : same_worker w w.
Proof. done. Qed.
Lemma same_workers_refl m : same_workers m m.
Proof. intros id. by destruct (m !! id). Qed.
#[export] Hint Resolve same_worker_refl same_workers_refl : core.

Lemma same_workers_l m m' id w : same_workers m m' → m !! id = Some w → ∃ w', m' !! id = Some w' ∧ same_worker w w'.
Proof. intros H Hl. specialize (H id). rewrite Hl in H. destruct (m' !! id); [eauto|done]. Qed.
Lemma same_workers_r m m' id w : same_workers m m' → m' !! id = Some w → ∃ w', m !! id = Some w' ∧ same_worker w' w.
Proof. intros H Hl. specialize (H id). rewrite Hl in H. destruct (m !! id); [eauto|done]. Qed.

Lemma quiet_grows s s' : quiet s s' → grows s s'.
Proof.
  intros [Hc Hn Ht Hr Hd Hw Hres]. split; [lia| | |done|].
  - rewrite Ht. eauto.
  - rewrite Hr. eauto.
  - intros. by eapply same_workers_l.
Qed.

Lemma quiet_wf s s' : sim_wf s → quiet s s' → sim_wf s'.
Proof.
  intros Hwf Hq. eapply sim_wf_grows; [done|by apply quiet_grows|..]; destruct Hq as [Hc Hn Ht Hr Hd Hw Hres].
  - rewrite Ht. eauto.
  - rewrite Hr. eauto 6.
  - intros id w Hl. left. by eapply same_workers_r.
Qed.

Lemma put_task_grows s t t' :
  tasks s !! T_ID t' = Some t → T_RunID t' = T_RunID t → grows s (put_task s t').
Proof.
  intros Hl Hrun. split; [done| |by eauto|by eauto|by eauto]. intros id u Hu. simpl.
  destruct (decide (T_ID t' = id)) as [<-|].
  - rewrite lookup_insert_eq. simplify_eq. eauto.
  - rewrite lookup_insert_ne by done. eauto.
Qed.

Lemma put_task_wf s t t' :
  sim_wf s → tasks s !! T_ID t' = Some t → T_RunID t' = T_RunID t → task_ok s t' → sim_wf (put_task s t').
Proof.
  intros Hwf Hl Hrun Hok. pose proof (put_task_grows _ _ _ Hl Hrun) as Hg.
  eapply sim_wf_grows; [done|done| |by eauto 6|by eauto 6].
  intros id u Hu. simpl in Hu. destruct (decide (T_ID t' = id)) as [<-|].
  - rewrite lookup_insert_eq in Hu. simplify_eq. right. split; [done|by eapply task_ok_grows].
  - rewrite lookup_insert_ne in Hu by done. eauto.
Qed.

Lemma put_run_wf s r r' :
  sim_wf s → runs s !! Run_ID r' = Some r → Run_TaskIDs r' = Run_TaskIDs r → sim_wf (put_run s r').
Proof.
  intros Hwf Hl Hids. eapply sim_wf_grows; [done| |by eauto| |by eauto 6].
  - split; [done|by eauto| |by eauto|by eauto]. intros id u Hu. simpl. destruct (decide (Run_ID r' = id)) as [<-|].
    + rewrite lookup_insert_eq. simplify_eq. eauto.
    + rewrite lookup_insert_ne by done. eauto.
  - intros id u Hu. simpl in Hu. destruct (decide (Run_ID r' = id)) as [<-|].
    + rewrite lookup_insert_eq in Hu. simplify_eq. left. exists r. pose proof (wf_runs _ Hwf _ _ Hl) as [? _]. split_and!; congruence.
    + rewrite lookup_insert_ne in Hu by done. left. eauto.
Qed.

Lemma add_deliveries_wf s ds : sim_wf s → sim_wf (add_deliveries s ds).
Proof. intros [? ? ? ?]. by split. Qed.

(** ** Refreshing a run *)

Lemma count_pos {A} (f : A → bool) l : 0 < count f l ↔ ∃ x, x ∈ l ∧ f x = true.
Proof.
  induction l as [|x l IH]; simpl.
  - split; [lia|]. by intros (x & Hx%not_elem_of_nil & _).
  - pose proof (count_nonneg f l). setoid_rewrite elem_of_cons. split.
    + intros Hc. destruct (f x) eqn:E; [eauto|]. destruct (proj1 IH) as (y&?&?); [lia|eauto].
    + intros (y & [-> | Hy] & Hf); [rewrite Hf; lia|]. pose proof (proj2 IH (ex_intro _ y (conj Hy Hf))).
      destruct (f x); lia.
Qed.

Lemma count_all {A} (f : A → bool) l : (∀ x, x ∈ l → f x = true) → count f l = llen l.
Proof.
  unfold llen. induction l as [|x l IH]; intros Hf; simpl; [done|]. rewrite Hf by set_solver. rewrite IH by set_solver. lia.
Qed.

Lemma run_task_iff s rid r t :
  sim_wf s → runs s !! rid = Some r → tasks s !! T_ID t = Some t → T_RunID t = rid ↔ T_ID t ∈ Run_TaskIDs r.
Proof.
  intros Hwf Hr Ht. destruct (wf_tasks _ Hwf _ _ Ht) as [_ (_&(r'&Hr'&Hin)&_)].
  destruct (wf_runs _ Hwf _ _ Hr) as [Hid (_&_&Hts)]. split.
  - intros <-. congruence.
  - intros Hin'. destruct (Hts _ Hin') as (t'&?&?). congruence.
Qed.

Lemma run_task_states_spec s rid r :
  sim_wf s → runs s !! rid = Some r →
  ∃ states, run_task_states s r = Some states ∧ llen states = llen (Run_TaskIDs r) ∧
    ∀ st, st ∈ states ↔ ∃ t, tasks s !! T_ID t = Some t ∧ T_RunID t = rid ∧ T_State t = st.
Proof.
  intros Hwf Hr. pose proof (wf_runs _ Hwf _ _ Hr) as [Hid (_&_&Hts)].
  assert (is_Some (run_task_states s r)) as [states Hst].
  { apply mapM_is_Some_2, Forall_forall. intros tid Hin. destruct (Hts _ Hin) as (t&Ht&_). exists (T_State t). simpl. by rewrite Ht. }
  exists states. split; [done|]. apply mapM_Some in Hst. split; [unfold llen; f_equal; symmetry; by eapply Forall2_length|].
  intros st. split.
  - intros Hin. destruct (list_elem_of_lookup_1 _ _ Hin) as [i Hi]. destruct (Forall2_lookup_r _ _ _ _ _ Hst Hi) as (tid&Hid'&Heq).
    apply fmap_Some in Heq as (t&Ht&->). pose proof (wf_tasks _ Hwf _ _ Ht) as [<- _].
    exists t. split; [done|]. split; [|done]. eapply run_task_iff; [done..|]. by eapply list_elem_of_lookup_2.
  - intros (t&Ht&Hrun&<-). apply (run_task_iff s rid r t Hwf Hr Ht) in Hrun.
    destruct (list_elem_of_lookup_1 _ _ Hrun) as [i Hi]. destruct (Forall2_lookup_l _ _ _ _ _ Hst Hi) as (st&Hst'&Heq).
    rewrite Ht in Heq. injection Heq as ->. by eapply list_elem_of_lookup_2.
Qed.

Lemma refreshed_state states now r :
  llen states = llen (Run_TaskIDs r) →
  (run_terminal (Run_State (refreshed states now r)) = true ↔ ∀ st, st ∈ states → task_terminal st = true) ∧
  (Run_State (refreshed states now r) = run_cancelling → Run_State r = run_cancelling) ∧
  Run_ID (refreshed states now r) = Run_ID r ∧ Run_TaskIDs (refreshed states now r) = Run_TaskIDs r.
Proof.
  intros Hlen. unfold refreshed. destruct (Z.ltb_spec 0 (count (λ st, negb (task_terminal st)) states)) as [Ha|Ha].
  - apply count_pos in Ha as (st&Hin&Hst). apply negb_true_iff in Hst.
    assert (¬ ∀ st, st ∈ states → task_terminal st = true) as Hn by (intros H; specialize (H _ Hin); congruence).
    case_bool_decide as E; [rewrite E|simpl]; naive_solver.
  - assert (∀ st, st ∈ states → task_terminal st = true) as Hall.
    { intros st Hin. destruct (task_terminal st) eqn:E; [done|]. apply Z.le_ngt in Ha. destruct Ha.
      apply count_pos. exists st. by rewrite E. }
    destruct (Z.ltb_spec 0 (count (λ st, bool_decide (st = failed_)) states)) as [Hf|Hf]; [simpl; naive_solver|].
    destruct (Z.ltb_spec 0 (count (λ st, bool_decide (st = cancelled_)) states)) as [Hc|Hc]; [simpl; naive_solver|].
    rewrite count_all; [rewrite Hlen, Z.eqb_refl; simpl; naive_solver|].
    intros st Hin. specialize (Hall _ Hin). destruct st; try done; exfalso.
    + apply Z.le_ngt in Hf. apply Hf, count_pos. by exists failed_.
    + apply Z.le_ngt in Hc. apply Hc, count_pos. by exists cancelled_.
Qed.

Lemma refresh_spec now rid r s :
  sim_wf s → runs s !! rid = Some r →
  ∃ r', refreshRunLocked now rid s = Some (put_run s r') ∧ Run_ID r' = rid ∧ Run_TaskIDs r' = Run_TaskIDs r ∧
    (run_terminal (Run_State r') = true ↔
       ∀ t, tasks s !! T_ID t = Some t → T_RunID t = rid → task_terminal (T_State t) = true) ∧
    (Run_State r' = run_cancelling → Run_State r = run_cancelling).
Proof.
  intros Hwf Hr. pose proof (run_task_states_spec _ _ _ Hwf Hr) as (states&Hst&Hlen&Hin).
  pose proof (refreshed_state states now r Hlen) as (Hterm&Hcan&Hid&Hids).
  exists (refreshed states now r). unfold refreshRunLocked. rewrite Hr, Hst. split; [done|].
  split; [rewrite Hid; by apply (wf_runs _ Hwf)|]. split; [done|]. split; [|done].
  rewrite Hterm. setoid_rewrite Hin. naive_solver.
Qed.

(** *** Run states *)

(** Changing tasks of one run leaves the state of the others right. *)
Lemma run_state_ok_frame s s' id :
  runs s' !! id = runs s !! id →
  (∀ t, T_RunID t = id → tasks s' !! T_ID t = Some t ↔ tasks s !! T_ID t = Some t) →
  run_state_ok s id → run_state_ok s' id.
Proof.
  intros Hr Ht Hok r Hl. rewrite Hr in Hl. destruct (Hok _ Hl) as [Hterm Hcan]. split.
  - rewrite Hterm. split; intros H t Hlt Hrun; apply H; try done; by apply (Ht _ Hrun).
  - intros Hc t Hlt Hrun. apply (Hcan Hc); [|done]. by apply (Ht _ Hrun).
Qed.

Lemma put_task_frame s t0 t' t :
  tasks s !! T_ID t' = Some t0 → T_RunID t' = T_RunID t0 → T_RunID t ≠ T_RunID t0 →
  tasks (put_task s t') !! T_ID t = Some t ↔ tasks s !! T_ID t = Some t.
Proof.
  intros Hl Hr Hne. simpl. destruct (decide (T_ID t' = T_ID t)) as [Heq|].
  - rewrite Heq, lookup_insert_eq. rewrite Heq in Hl. split; intros; simplify_eq.
  - by rewrite lookup_insert_ne.
Qed.

(** ** The rules preserve well-formedness *)

Lemma foldr_insert_lookup (ts : list TaskRecord) (m : gmap string TaskRecord) id t :
  foldr (λ t, <[T_ID t := t]>) m ts !! id = Some t →
  t ∈ ts ∧ T_ID t = id ∨ m !! id = Some t ∧ id ∉ T_ID <$> ts.
Proof.
  induction ts as [|u ts IH]; simpl; [right; split; [done|by apply not_elem_of_nil]|].
  destruct (decide (T_ID u = id)) as [<-|Hne].
  - rewrite lookup_insert_eq. intros [= <-]. left. split; [by left|done].
  - rewrite lookup_insert_ne by done. intros [[? ?]|[? ?]]%IH; [left; split; [by right|done]|].
    right. split; [done|]. rewrite not_elem_of_cons. by split.
Qed.

Lemma foldr_insert_in (ts : list TaskRecord) (m : gmap string TaskRecord) t :
  t ∈ ts → ∃ t', foldr (λ t, <[T_ID t := t]>) m ts !! T_ID t = Some t' ∧ t' ∈ ts.
Proof.
  induction ts as [|u ts IH]; [by intros ?%not_elem_of_nil|]. intros Hin. simpl.
  destruct (decide (T_ID u = T_ID t)) as [Heq|Hne].
  - rewrite Heq, lookup_insert_eq. eexists. split; [done|]. by left.
  - rewrite lookup_insert_ne by done. apply elem_of_cons in Hin as [->|Hin]; [done|].
    destruct (IH Hin) as (t'&?&?). exists t'. split; [done|by right].
Qed.

Lemma foldr_insert_other (ts : list TaskRecord) (m : gmap string TaskRecord) id :
  id ∉ T_ID <$> ts → foldr (λ t, <[T_ID t := t]>) m ts !! id = m !! id.
Proof.
  induction ts as [|u ts IH]; [done|]. rewrite fmap_cons, not_elem_of_cons. intros [Hne Hn]. simpl.
  rewrite lookup_insert_ne by done. by apply IH.
Qed.

Lemma fresh_task s n : sim_wf s → nextID s < n → tasks s !! task_id n = None.
Proof.
  intros Hwf Hn. destruct (tasks s !! task_id n) eqn:E; [|done].
  destruct (wf_tasks _ Hwf _ _ E) as [Hid ((m&Hm&Heq)&_)]. pose proof (wf_next _ Hwf).
  rewrite Hid in Heq. apply task_id_inj in Heq; lia.
Qed.
Lemma fresh_run s n : sim_wf s → nextID s < n → runs s !! run_id n = None.
Proof.
  intros Hwf Hn. destruct (runs s !! run_id n) eqn:E; [|done].
  destruct (wf_runs _ Hwf _ _ E) as [Hid ((m&Hm&Heq)&_)]. pose proof (wf_next _ Hwf).
  rewrite Hid in Heq. apply run_id_inj in Heq; lia.
Qed.
Lemma fresh_worker s n : sim_wf s → nextID s < n → workers s !! worker_id n = None.
Proof.
  intros Hwf Hn. destruct (workers s !! worker_id n) eqn:E; [|done].
  destruct (wf_workers _ Hwf _ _ E) as [Hid [(m&Hm&Heq) _]]. pose proof (wf_next _ Hwf).
  rewrite Hid in Heq. apply worker_id_inj in Heq; lia.
Qed.

Lemma created_fresh s s' rid r ts : sim_wf s → created s s' rid r ts →
  runs s !! rid = None ∧ ∀ t, t ∈ ts → tasks s !! T_ID t = None.
Proof.
  intros Hwf Hc. split.
  - destruct (created_id _ _ _ _ _ Hc) as (n&?&->). apply fresh_run; [done|lia].
  - intros t Ht. destruct (created_task _ _ _ _ _ Hc t Ht) as (_&_&_&_&n&?&->). apply fresh_task; [done|lia].
Qed.

Lemma created_old_task s s' rid r ts id t :
  sim_wf s → created s s' rid r ts → tasks s !! id = Some t → tasks s' !! id = Some t.
Proof.
  intros Hwf Hc Ht. rewrite (created_tasks _ _ _ _ _ Hc). rewrite foldr_insert_other; [done|].
  intros (u&->&Hu)%list_elem_of_fmap. destruct (created_fresh _ _ _ _ _ Hwf Hc) as [_ Hf]. rewrite Hf in Ht; done.
Qed.

Lemma created_grows s s' rid r ts : sim_wf s → created s s' rid r ts → grows s s'.
Proof.
  intros Hwf Hc. destruct (created_fresh _ _ _ _ _ Hwf Hc) as [Hfr _]. split.
  - pose proof (created_next _ _ _ _ _ Hc). lia.
  - intros id t Ht. exists t. split; [by eapply created_old_task|done].
  - intros id u Hu. exists u. split; [|done]. rewrite (created_runs _ _ _ _ _ Hc). rewrite lookup_insert_ne; [done|congruence].
  - by rewrite (created_results _ _ _ _ _ Hc).
  - rewrite (created_workers _ _ _ _ _ Hc). eauto.
Qed.

Lemma created_wf s s' rid r ts : sim_wf s → created s s' rid r ts → sim_wf s'.
Proof.
  intros Hwf Hc. pose proof (created_grows _ _ _ _ _ Hwf Hc) as Hg. pose proof (wf_next _ Hwf) as Hn.
  pose proof (created_run _ _ _ _ _ Hc) as (Hid&_&Hids&Hne).
  eapply sim_wf_grows; [done|done| | |].
  - intros id t Ht. rewrite (created_tasks _ _ _ _ _ Hc) in Ht. apply foldr_insert_lookup in Ht as [[Hin <-]|[? _]]; [|by left].
    right. split; [done|]. destruct (created_task _ _ _ _ _ Hc t Hin) as (Hrun&Hst&Ha&_&n&Hlt&Hn').
    split; [exists n; split; [lia|done]|]. split.
    { exists r. rewrite (created_runs _ _ _ _ _ Hc), Hrun, lookup_insert_eq. split; [done|]. rewrite Hids.
      by apply list_elem_of_fmap_2. }
    rewrite Hst, Ha. by repeat split.
  - intros id u Hu. rewrite (created_runs _ _ _ _ _ Hc) in Hu. destruct (decide (rid = id)) as [<-|].
    + rewrite lookup_insert_eq in Hu. injection Hu as <-. right. split; [done|].
      destruct (created_id _ _ _ _ _ Hc) as (n&?&?). split; [exists n; split; [lia|congruence]|].
      split; [intros E; rewrite E in Hids; apply Permutation_nil_l in Hids; by destruct ts|].
      intros tid Htid. rewrite Hids in Htid. apply list_elem_of_fmap in Htid as (t&->&Hin).
      rewrite (created_tasks _ _ _ _ _ Hc). destruct (foldr_insert_in ts (tasks s) t Hin) as (t'&?&Hin').
      exists t'. split; [done|]. destruct (created_task _ _ _ _ _ Hc t' Hin') as (?&_). congruence.
    + rewrite lookup_insert_ne in Hu by done. left. eauto.
  - rewrite (created_workers _ _ _ _ _ Hc). eauto.
Qed.

Lemma register_wf s w :
  sim_wf s → Worker_ID w = worker_id (nextID s + 1) → 1 <= Worker_MaxConcurrency w <= 32 →
  sim_wf (set_workers (bump_id s) (<[Worker_ID w := w]> (workers s))).
Proof.
  intros Hwf Hid Hmax. pose proof (fresh_worker s (nextID s + 1) Hwf ltac:(lia)) as Hf. pose proof (wf_next _ Hwf).
  eapply sim_wf_grows; [done| |by eauto|by eauto 6|].
  - split; simpl; [lia|by eauto..|]. intros id u Hu. exists u. split; [|done]. rewrite lookup_insert_ne; [done|congruence].
  - intros id u Hu. simpl in Hu. destruct (decide (Worker_ID w = id)) as [<-|].
    + rewrite lookup_insert_eq in Hu. injection Hu as <-. right. split; [done|]. split; [|done].
      exists (nextID s + 1). simpl. split; [lia|done].
    + rewrite lookup_insert_ne in Hu by done. eauto.
Qed.

Lemma work_task_ok s t t' :
  work_move t t' → task_ok s t →
  (T_State t' = results_received → is_Some (results s !! resultKey (T_ID t) (T_AttemptID t) 0)) → task_ok s t'.
Proof.
  intros Hm%work_move_same (Hid&Hr&Ha&Hres&Hh) Hnew. destruct Hm as (Eid&Erun&Epool&Eop&_&Eat&Eaid&Ew&Eb&_&Hl&_&Hle&_).
  destruct (Hh Hl) as (?&_&?).
  split; [by rewrite Eid|]. split; [by rewrite Erun, Eid|]. split; [by rewrite Eat|]. split; [by rewrite Eid, Eaid|].
  intros _. rewrite Eaid, Eid, Eat, Ew, Eb, Epool, Eop. auto.
Qed.

Lemma release_task_ok s t t' : release_move t t' → task_ok s t → task_ok s t'.
Proof.
  intros Hm%release_move_same (Hid&Hr&Ha&Hres&Hh). destruct Hm as (Eid&Erun&_&_&_&Eat&_&Hl&_&_).
  split; [by rewrite Eid|]. split; [by rewrite Erun, Eid|]. split; [by rewrite Eat|].
  split; [intros E; by rewrite E in Hl|]. by rewrite Hl.
Qed.

Lemma cancel_task_ok s t : task_ok s t → task_ok s (cancel_mark t).
Proof.
  intros (Hid&Hr&Ha&Hres&Hh). pose proof (cancel_mark_same t) as (Eid&Erun&Epool&Eop&Edl&Eat&Eaid&Ew&Eb&Eex&Eh&Hst&_&_).
  split; [by rewrite Eid|]. split; [by rewrite Erun, Eid|]. split; [by rewrite Eat|]. split.
  - rewrite Eid, Eaid. intros E. apply Hres. destruct (Hst ltac:(by rewrite <-Eh, E)) as [<- _]. done.
  - rewrite Eh, Eaid, Eid, Eat, Ew, Eb, Eex, Epool, Edl, Eop. done.
Qed.

Lemma cancel_run_lookup rid m id t' :
  cancel_run_tasks rid m !! id = Some t' ↔
  ∃ t, m !! id = Some t ∧ t' = if decide (T_RunID t = rid) then cancel_mark t else t.
Proof. unfold cancel_run_tasks. rewrite lookup_fmap, fmap_Some. naive_solver. Qed.

Lemma cancel_run_wf s rid : sim_wf s → sim_wf (set_tasks s (cancel_run_tasks rid (tasks s))).
Proof.
  intros Hwf. assert (grows s (set_tasks s (cancel_run_tasks rid (tasks s)))) as Hg.
  { split; [done| |by eauto|by eauto|by eauto]. intros id t Ht.
    exists (if decide (T_RunID t = rid) then cancel_mark t else t). split; [apply cancel_run_lookup; eauto|].
    case_decide; [|done]. apply cancel_mark_same. }
  eapply sim_wf_grows; [done|done| |by eauto 6|by eauto 6].
  intros id t' (t&Ht&->)%cancel_run_lookup. case_decide; [|by left]. right.
  destruct (wf_tasks _ Hwf _ _ Ht) as [<- Hok]. split; [apply cancel_mark_same|].
  eapply task_ok_grows; [done|]. by apply cancel_task_ok.
Qed.

Lemma set_workers_wf s wid w w' :
  sim_wf s → workers s !! wid = Some w → same_worker w w' → sim_wf (set_workers s (<[wid := w']> (workers s))).
Proof.
  intros Hwf Hl Hsame. apply (quiet_wf s); [done|]. split; try done. intros id. simpl.
  destruct (decide (wid = id)) as [<-|]; [by rewrite Hl, lookup_insert_eq|]. rewrite lookup_insert_ne by done.
  by destruct (workers s !! id).
Qed.

Definition leased_task (t : TaskRecord) (w : WorkerRecord) (digest : string) (expires : time) : TaskRecord :=
  task_with t leased (T_Attempt t + 1) (attempt_id (T_ID t) (T_Attempt t + 1)) (Worker_ID w) (Worker_BootID w)
    digest expires (T_ChunkCount t) (T_CancelRequested t) (T_Error t).

Lemma lease_task_ok s t wid w digest expires :
  sim_wf s → task_ok s t → workers s !! wid = Some w → T_WorkerPool t = Worker_WorkerPool w →
  T_Operation t ∈ Worker_Capabilities w → expires <= T_Deadline t → task_ok s (leased_task t w digest expires).
Proof.
  intros Hwf (Hid&Hr&Ha&Hres&Hh) Hw Hp Hop He. split; [done|]. split; [done|]. split; [simpl; lia|]. split; [done|].
  intros _. simpl. split; [done|]. split; [done|]. exists w. destruct (wf_workers _ Hwf _ _ Hw) as [-> _]. auto.
Qed.

Lemma run_of_task s t : sim_wf s → tasks s !! T_ID t = Some t →
  ∃ r, runs s !! T_RunID t = Some r ∧ Run_ID r = T_RunID t.
Proof.
  intros Hwf Ht. destruct (wf_tasks _ Hwf _ _ Ht) as [_ (_&(r&Hr&_)&_)]. exists r. split; [done|]. by apply (wf_runs _ Hwf).
Qed.

(** The state a release reaches before and after its run is refreshed. *)
Lemma release_wf s t t' r r' ds :
  sim_wf s → tasks s !! T_ID t = Some t → release_move t t' → runs s !! T_RunID t = Some r → same_run r r' →
  sim_wf (put_run (put_task (add_deliveries s ds) t') r').
Proof.
  intros Hwf Ht Hm Hr (Hid&Hids&_). pose proof (release_move_same _ _ Hm) as (Eid&Erun&_).
  apply (put_run_wf _ r); [|simpl; rewrite Hid; by rewrite (proj1 (wf_runs _ Hwf _ _ Hr))|done].
  apply (put_task_wf _ t); [by apply add_deliveries_wf|by rewrite Eid|done|].
  eapply release_task_ok; [done|]. by apply (wf_tasks _ Hwf _ _ Ht).
Qed.

Lemma step_wf s s' : protocol_step s s' → sim_wf s → sim_wf s'.
Proof.
  intros Hstep Hwf. destruct Hstep as [s' Hq|w Hid Hmax|t t' Ht Hm Hres|t t' r r' ds now s' Ht Hm Hr Hs Hd Hf
    |wid w leases t r dg ex Hw Ht Hst Hp Hop Hr He Hc1 Hc2|s' rid r ts Hc|rid r c Hr Hnt].
  - by eapply quiet_wf.
  - by apply register_wf.
  - pose proof (work_move_same _ _ Hm) as (Eid&Erun&_). apply (put_task_wf _ t); [done|by rewrite Eid|done|].
    eapply work_task_ok; [done| |done]. by apply (wf_tasks _ Hwf _ _ Ht).
  - pose proof (release_wf _ _ _ _ _ ds Hwf Ht Hm Hr Hs) as Hwf1. pose proof Hs as (Hid&Hids&_).
    assert (Run_ID r = T_RunID t) as Hrid by by apply (wf_runs _ Hwf).
    assert (runs (put_run (put_task (add_deliveries s ds) t') r') !! T_RunID t = Some r') as Hr'.
    { simpl. rewrite Hid, Hrid. apply lookup_insert_eq. }
    destruct (refresh_spec now _ _ _ Hwf1 Hr') as (r2&Hf'&Hid2&Hids2&_).
    rewrite Hf' in Hf. injection Hf as <-. apply (put_run_wf _ r'); [done|by rewrite Hid2|done].
  - apply (put_run_wf _ r); [|simpl; by rewrite (proj1 (wf_runs _ Hwf _ _ Hr))|done].
    apply (set_workers_wf (put_task s _) wid w); [|done|done].
    apply (put_task_wf _ t); [done|done|done|]. eapply lease_task_ok; try done. by apply (wf_tasks _ Hwf _ _ Ht).
  - by eapply created_wf.
  - apply (put_run_wf _ r); [by apply cancel_run_wf|simpl; by rewrite (proj1 (wf_runs _ Hwf _ _ Hr))|done].
Qed.

(** The tasks and deliveries after a release. *)
Lemma release_facts s t t' r r' ds now s' :
  sim_wf s → tasks s !! T_ID t = Some t → release_move t t' → runs s !! T_RunID t = Some r → same_run r r' →
  refreshRunLocked now (T_RunID t) (put_run (put_task (add_deliveries s ds) t') r') = Some s' →
  tasks s' = <[T_ID t := t']> (tasks s) ∧ deliveries s' = deliveries s ++ ds ∧
  workers s' = workers s ∧ config s' = config s ∧
  ∃ r2, runs s' = <[T_RunID t := r2]> (runs s) ∧
    (run_terminal (Run_State r2) = true ↔
       ∀ u, tasks s' !! T_ID u = Some u → T_RunID u = T_RunID t → task_terminal (T_State u) = true) ∧
    (Run_State r2 = run_cancelling → Run_State r = run_cancelling).
Proof.
  intros Hwf Ht Hm Hr Hs Hf. pose proof (release_wf _ _ _ _ _ ds Hwf Ht Hm Hr Hs) as Hwf1.
  pose proof Hs as (Hid&Hids&Hst). pose proof (release_move_same _ _ Hm) as (Eid&Erun&_).
  assert (Run_ID r = T_RunID t) as Hrid by by apply (wf_runs _ Hwf).
  assert (runs (put_run (put_task (add_deliveries s ds) t') r') !! T_RunID t = Some r') as Hr'.
  { simpl. rewrite Hid, Hrid. apply lookup_insert_eq. }
  destruct (refresh_spec now _ _ _ Hwf1 Hr') as (r2&Hf'&Hid2&Hids2&Hterm&Hcan).
  rewrite Hf' in Hf. injection Hf as <-. simpl. rewrite Eid. repeat split; try done.
  exists r2. rewrite Hid2, Hid, Hrid. split; [by rewrite insert_insert_eq|].
  simpl in Hterm. rewrite Eid in Hterm. split; [done|]. rewrite Hst in Hcan. done.
Qed.

(** ** The life of a task follows [task_move] *)

Lemma step_task s s' : protocol_step s s' → sim_wf s →
  ∀ id t, tasks s !! id = Some t → ∃ t', tasks s' !! id = Some t' ∧ (t' = t ∨ task_move t t').
Proof.
  intros Hstep Hwf id u Hu. pose proof (wf_tasks _ Hwf _ _ Hu) as [Hid Hok].
  destruct Hstep as [s' Hq|w Hidw Hmax|t t' Ht Hm Hres|t t' r r' ds now s' Ht Hm Hr Hs Hd Hf
    |wid w leases t r dg ex Hw Ht Hst Hp Hop Hr He Hc1 Hc2|s' rid r ts Hc|rid r c Hr Hnt].
  - rewrite (quiet_tasks _ _ Hq). eauto.
  - simpl. eauto.
  - pose proof (work_move_same _ _ Hm) as (Eid&_). simpl. rewrite Eid. destruct (decide (T_ID t = id)) as [Heq|].
    + rewrite Heq, lookup_insert_eq. exists t'. split; [done|]. right. rewrite Heq in Ht. simplify_eq. by apply task_worked.
    + rewrite lookup_insert_ne by done. eauto.
  - destruct (release_facts _ _ _ _ _ _ _ _ Hwf Ht Hm Hr Hs Hf) as (->&_). destruct (decide (T_ID t = id)) as [Heq|].
    + rewrite Heq, lookup_insert_eq. exists t'. split; [done|]. right. rewrite Heq in Ht. simplify_eq. by apply task_released.
    + rewrite lookup_insert_ne by done. eauto.
  - simpl. destruct (decide (T_ID t = id)) as [Heq|].
    + rewrite Heq, lookup_insert_eq. eexists. split; [done|]. right. rewrite Heq in Ht. simplify_eq. by apply task_leased.
    + rewrite lookup_insert_ne by done. eauto.
  - exists u. split; [by eapply created_old_task|]. by left.
  - simpl. eexists. split; [apply cancel_run_lookup; eauto|]. case_decide; [right; apply task_cancelled|by left].
Qed.

(** ** Runs *)

Lemma release_run_state s t t' r r' ds now s' id :
  sim_wf s → tasks s !! T_ID t = Some t → release_move t t' → runs s !! T_RunID t = Some r → same_run r r' →
  refreshRunLocked now (T_RunID t) (put_run (put_task (add_deliveries s ds) t') r') = Some s' →
  run_state_ok s id → run_state_ok s' id.
Proof.
  intros Hwf Ht Hm Hr Hs Hf Hrun.
  destruct (release_facts _ _ _ _ _ _ _ _ Hwf Ht Hm Hr Hs Hf) as (Hts&_&_&_&r2&Hrs&Hterm2&Hcan2).
  pose proof (release_move_same _ _ Hm) as (Eid&Erun&_&_&_&_&Hl&Hl'&Hrt&Hcc).
  destruct (decide (T_RunID t = id)) as [<-|Hne].
  2:{ apply (run_state_ok_frame s); [by rewrite Hrs, lookup_insert_ne| |done]. intros u Hu. rewrite Hts.
      rewrite <-Eid. apply (put_task_frame s t t'); [by rewrite Eid|done|congruence]. }
  intros r3 Hr3. rewrite Hrs, lookup_insert_eq in Hr3. injection Hr3 as <-. split; [done|].
  intros Hc%Hcan2 u Hu Hur. destruct (Hrun r Hr) as [_ Hcan]. rewrite Hts in Hu.
  destruct (decide (T_ID t = T_ID u)) as [Heq|].
  + rewrite Heq, lookup_insert_eq in Hu. injection Hu as <-. left.
    destruct (Hcan Hc t Ht eq_refl) as [?|[_ Hcr]]; [destruct (task_states_exclusive _ Hl); congruence|].
    by rewrite (Hcc Hcr).
  + rewrite lookup_insert_ne in Hu by done. by apply Hcan.
Qed.

Lemma created_run_state s s' rid r ts id :
  sim_wf s → created s s' rid r ts → run_state_ok s id → run_state_ok s' id.
Proof.
  intros Hwf Hc Hrun.
  pose proof (created_run _ _ _ _ _ Hc) as (Hid&Hst&Hids&Hne). destruct (created_fresh _ _ _ _ _ Hwf Hc) as [Hfr Hft].
  destruct (decide (rid = id)) as [<-|Hnid].
  + intros r2 Hr2. rewrite (created_runs _ _ _ _ _ Hc), lookup_insert_eq in Hr2. injection Hr2 as <-. rewrite Hst. simpl.
    split; [|done]. split; [done|]. intros H. destruct ts as [|t ts]; [done|].
    destruct (foldr_insert_in (t :: ts) (tasks s) t ltac:(by left)) as (t'&Hl&Hin).
    destruct (created_task _ _ _ _ _ Hc t' Hin) as (Hrun'&Hst'&_).
    rewrite <-(created_tasks _ _ _ _ _ Hc) in Hl.
    pose proof (wf_tasks _ (created_wf _ _ _ _ _ Hwf Hc) _ _ Hl) as [Heq _].
    rewrite <-Heq in Hl. specialize (H _ Hl Hrun'). by rewrite Hst' in H.
  + apply (run_state_ok_frame s); [by rewrite (created_runs _ _ _ _ _ Hc), lookup_insert_ne| |done].
    intros u Hu. split; intros Hl; [|by eapply created_old_task].
    rewrite (created_tasks _ _ _ _ _ Hc) in Hl. apply foldr_insert_lookup in Hl as [[Hin _]|[? _]]; [|done].
    destruct (created_task _ _ _ _ _ Hc _ Hin). congruence.
Qed.

Lemma cancelled_run_state s rid r completed id :
  sim_wf s → runs s !! rid = Some r → run_state_ok s id →
  run_state_ok (put_run (set_tasks s (cancel_run_tasks rid (tasks s)))
    (run_state_to r (if existsb (λ t, String.eqb (T_RunID t) rid && holds_lease (T_State t)) (map_to_list (tasks s)).*2
          then run_cancelling else run_cancelled) completed)) id.
Proof.
  intros Hwf Hr Hrun.
  pose proof (proj1 (wf_runs _ Hwf _ _ Hr)) as Hrid. destruct (decide (rid = id)) as [<-|Hne].
  2:{ apply (run_state_ok_frame s); [simpl; by rewrite Hrid, lookup_insert_ne| |done]. intros u Hu. simpl.
      rewrite cancel_run_lookup. split.
      - intros (v&Hv&Heq). case_decide as Hd; [|congruence]. subst u.
        destruct (cancel_mark_same v) as (_&Erun&_). congruence.
      - intros Hl. exists u. split; [done|]. rewrite decide_False by congruence. done. }
  intros r2 Hr2. simpl in Hr2. rewrite Hrid, lookup_insert_eq in Hr2. injection Hr2 as <-.
  assert (∀ u, tasks (set_tasks s (cancel_run_tasks rid (tasks s))) !! T_ID u = Some u → T_RunID u = rid →
    ∃ v, v ∈ (map_to_list (tasks s)).*2 ∧ T_RunID v = rid ∧ u = cancel_mark v) as Hinv.
  { intros u (v&Hv&->)%cancel_run_lookup Hu. case_decide as Hd; [|done]. exists v. split; [|done].
    apply list_elem_of_fmap. exists (T_ID (cancel_mark v), v). split; [done|]. by apply elem_of_map_to_list. }
  assert (∀ v, T_RunID v = rid → task_terminal (T_State (cancel_mark v)) = true ∨
    holds_lease (T_State (cancel_mark v)) = true ∧ T_CancelRequested (cancel_mark v) = true) as Hmark.
  { intros v _. unfold cancel_mark. destruct (T_State v) eqn:E; simpl; rewrite ?E; auto. }
  match goal with |- context [existsb ?f ?l] => destruct (existsb f l) eqn:Hex; [|pose proof (existsb_elem_of f l) as Hiff] end; simpl.
  + split; [|intros _ u Hu Hur; destruct (Hinv u Hu Hur) as (v&_&Hv&->); by apply Hmark].
    split; [done|]. intros H. apply existsb_exists in Hex as (v&Hin&[Hv Hl]%andb_true_iff).
    apply String.eqb_eq in Hv. apply list_elem_of_In, list_elem_of_fmap in Hin as ([k v']&->&Hin). simpl in *.
    apply elem_of_map_to_list in Hin. pose proof (wf_tasks _ Hwf _ _ Hin) as [Hk _].
    pose proof (cancel_mark_same v') as (Eid&Erun&_&_&_&_&_&_&_&_&Eh&_).
    specialize (H (cancel_mark v')). destruct (task_states_exclusive (T_State (cancel_mark v'))) as [Hnt' _]; [congruence|].
    rewrite Hnt' in H. discriminate H; [|congruence]. apply cancel_run_lookup.
    exists v'. rewrite Eid, Hk. split; [done|]. by rewrite decide_True.
  + split; [|done]. split; [|done]. intros _ u Hu Hur. destruct (Hinv u Hu Hur) as (v&Hin&Hv&->).
    destruct (Hmark v Hv) as [?|[Hl _]]; [done|]. exfalso. apply not_true_iff_false in Hex. apply Hex.
    apply existsb_exists. exists v. split; [by apply list_elem_of_In|].
    pose proof (cancel_mark_same v) as (_&_&_&_&_&_&_&_&_&_&Eh&_). rewrite <-Eh, Hl, Hv, String.eqb_refl. done.
Qed.

Lemma step_runs s s' : protocol_step s s' → sim_wf s → (∀ id, run_state_ok s id) → ∀ id, run_state_ok s' id.
Proof.
  intros Hstep Hwf Hruns id. pose proof (Hruns id) as Hrun.
  destruct Hstep as [s' Hq|w Hidw Hmax|t t' Ht Hm Hres|t t' r r' ds now s' Ht Hm Hr Hs Hd Hf
    |wid w leases t r dg ex Hw Ht Hst Hp Hop Hr He Hc1 Hc2|s' rid r ts Hc|rid r c Hr Hnt].
  - apply (run_state_ok_frame s); [|intros; by rewrite (quiet_tasks _ _ Hq)|done]. by rewrite (quiet_runs _ _ Hq).
  - done.
  - pose proof (work_move_same _ _ Hm) as (Eid&Erun&Epool&Eop&Edl&Eat&Eaid&Ew&Eb&Ec&Hl&Hl'&Hle&Hnc).
    assert (tasks s !! T_ID t' = Some t) as Ht' by by rewrite Eid.
    destruct (decide (T_RunID t = id)) as [<-|Hne].
    2:{ apply (run_state_ok_frame s); [done| |done]. intros u Hu. apply (put_task_frame s t t'); [done|done|congruence]. }
    intros r Hr. destruct (Hrun r Hr) as [Hterm Hcan].
    destruct (task_states_exclusive _ Hl) as [Hnt _]. destruct (task_states_exclusive _ Hl') as [Hnt' _]. split.
    + split; intros H; exfalso.
      * pose proof (proj1 Hterm H t Ht eq_refl). congruence.
      * specialize (H t'). simpl in H. rewrite lookup_insert_eq in H. specialize (H eq_refl Erun). congruence.
    + intros Hc. destruct (Hcan Hc t Ht eq_refl) as [?|[_ ?]]; congruence.
  - by eapply release_run_state.
  - destruct (decide (T_RunID t = id)) as [<-|Hne].
    2:{ apply (run_state_ok_frame s); [simpl; rewrite (proj1 (wf_runs _ Hwf _ _ Hr)); by rewrite lookup_insert_ne| |done].
        intros u Hu. apply (put_task_frame s t (leased_task t w dg ex)); [done|done|congruence]. }
    intros r2 Hr2. simpl in Hr2. rewrite (proj1 (wf_runs _ Hwf _ _ Hr)), lookup_insert_eq in Hr2. injection Hr2 as <-.
    simpl. split; [|done]. split; [done|]. intros H. specialize (H (leased_task t w dg ex)). simpl in H.
    rewrite lookup_insert_eq in H. by specialize (H eq_refl eq_refl).
  - by eapply created_run_state.
  - by apply cancelled_run_state.
Qed.

(** ** Deliveries *)

Lemma step_deliveries s s' : protocol_step s s' → sim_wf s → delivered_once s → delivered_once s'.
Proof.
  intros Hstep Hwf [Hnd Hd].
  assert (deliveries s' = deliveries s → delivered_once s') as Hsame.
  { intros Heq. split; [by rewrite Heq|]. intros d Hin. rewrite Heq in Hin. destruct (Hd d Hin) as (t&Ht&Hst).
    destruct (step_task _ _ Hstep Hwf _ _ Ht) as (t'&Ht'&[->|Hm]); [by eauto|].
    pose proof (task_move_same _ _ Hm) as (_&_&_&_&_&_&Hterm). rewrite Hterm in Ht' by (by destruct Hst as [->| ->]). eauto. }
  destruct Hstep as [s' Hq|w Hidw Hmax|t t' Ht Hm Hres|t t' r r' ds now s' Ht Hm Hr Hs Hds Hf
    |wid w leases t r dg ex Hw Ht Hst Hp Hop Hr He Hc1 Hc2|s' rid r ts Hc|rid r c Hr Hnt]; try (by apply Hsame).
  - apply Hsame. by apply quiet_deliveries.
  - destruct (release_facts _ _ _ _ _ _ _ _ Hwf Ht Hm Hr Hs Hf) as (Hts&Hdel&_).
    destruct Hds as [->|(d&->&Hid&Hst)]; [apply Hsame; by rewrite Hdel, app_nil_r|].
    pose proof (release_move_same _ _ Hm) as (Eid&_&_&_&_&_&Hl&_). rewrite Eid in Hid.
    assert (∀ e, e ∈ deliveries s → D_TaskID e ≠ T_ID t) as Hnew.
    { intros e He Heq. destruct (Hd e He) as (u&Hu&Hust). rewrite Heq, Ht in Hu. injection Hu as <-.
      destruct Hust as [Hu|Hu]; by rewrite Hu in Hl. }
    split.
    + rewrite Hdel, fmap_app. apply NoDup_app. split; [done|]. split; [|by apply NoDup_singleton].
      intros k (e&->&He)%list_elem_of_fmap Hk. apply list_elem_of_singleton in Hk. rewrite Hid in Hk. by eapply Hnew.
    + rewrite Hdel, Hts. intros e [He|He%list_elem_of_singleton]%elem_of_app.
      * rewrite lookup_insert_ne by (intros ?; by eapply Hnew). by apply Hd.
      * subst e. rewrite Hid, lookup_insert_eq. eauto.
  - apply Hsame. by apply (created_deliveries _ _ _ _ _ Hc).
Qed.

(** ** Capacity *)

Section lease_counts.
Context (f : TaskRecord → bool).

Definition lease_count (m : gmap string TaskRecord) : Z :=
  count (λ t, f t && holds_lease (T_State t)) (map_to_list m).*2.

Definition leases (t : TaskRecord) : Z := if f t && holds_lease (T_State t) then 1 else 0.

Lemma lease_count_fresh m id t : m !! id = None → lease_count (<[id := t]> m) = leases t + lease_count m.
Proof.
  intros Hn. unfold lease_count, leases. rewrite (count_perm _ _ (t :: (map_to_list m).*2)); [done|].
  by rewrite map_to_list_insert.
Qed.

Lemma lease_count_insert m id t t' :
  m !! id = Some t → lease_count (<[id := t']> m) = lease_count m - leases t + leases t'.
Proof.
  intros Hl. rewrite <-(insert_delete_eq m), lease_count_fresh by apply lookup_delete_eq.
  rewrite <-(insert_id m id t) at 2 by done. rewrite <-(insert_delete_eq m), lease_count_fresh by apply lookup_delete_eq. lia.
Qed.

Lemma lease_count_fmap (g : TaskRecord → TaskRecord) m : (∀ t, leases (g t) = leases t) → lease_count (g <$> m) = lease_count m.
Proof.
  intros Hg. unfold lease_count. rewrite map_to_list_fmap. induction (map_to_list m) as [|[k t] l IH]; simpl; [done|].
  specialize (Hg t). unfold leases in Hg. rewrite Hg. f_equal. apply IH.
Qed.

Lemma lease_count_foldr ts m :
  (∀ t, t ∈ ts → leases t = 0 ∧ m !! T_ID t = None) → lease_count (foldr (λ t, <[T_ID t := t]>) m ts) = lease_count m.
Proof.
  induction ts as [|t ts IH]; intros Hts; simpl; [done|].
  assert (∀ u, u ∈ ts → leases u = 0 ∧ m !! T_ID u = None) as Hts' by (intros u Hu; apply Hts; by right).
  specialize (IH Hts'). destruct (Hts t ltac:(by left)) as [H0 Hn].
  destruct (foldr (λ t, <[T_ID t := t]>) m ts !! T_ID t) as [u|] eqn:E.
  - rewrite (lease_count_insert _ _ u) by done. apply foldr_insert_lookup in E as [[Hin _]|[E _]]; [|congruence].
    destruct (Hts' u Hin) as [-> _]. lia.
  - rewrite lease_count_fresh by done. lia.
Qed.

Lemma lease_count_zero m : (∀ id t, m !! id = Some t → leases t = 0) → lease_count m = 0.
Proof.
  unfold lease_count. intros H. assert (∀ t, t ∈ (map_to_list m).*2 → leases t = 0) as Hall.
  { intros t ([k u]&->&Hin)%list_elem_of_fmap. apply elem_of_map_to_list in Hin. by eapply H. }
  revert Hall. generalize (map_to_list m).*2. induction l as [|t l IH]; simpl; intros Hall; [done|].
  rewrite IH by set_solver. specialize (Hall t ltac:(set_solver)). unfold leases in Hall. rewrite Hall. done.
Qed.
End lease_counts.

Definition by_worker (id : string) (t : TaskRecord) : bool := String.eqb (T_WorkerID t) id.
Definition by_pool (pool : string) (t : TaskRecord) : bool := String.eqb (T_WorkerPool t) pool.

(** No count of leases grows except by a lease, checked against the limits. *)
Lemma step_leases s s' : protocol_step s s' → sim_wf s →
  (∀ f, (∀ t t', T_WorkerPool t' = T_WorkerPool t → T_WorkerID t' = T_WorkerID t → f t' = f t) →
     lease_count f (tasks s') <= lease_count f (tasks s)) ∨
  ∃ wid w t t', workers s !! wid = Some w ∧ T_WorkerID t' = Worker_ID w ∧ T_WorkerPool t' = Worker_WorkerPool w ∧
    tasks s !! T_ID t = Some t ∧ T_State t = ready ∧ tasks s' = <[T_ID t := t']> (tasks s) ∧
    workerLeaseCountLocked (Worker_ID w) s < Worker_MaxConcurrency w ∧
    poolLeaseCountLocked (Worker_WorkerPool w) s < Config_PoolMaxLeases (config s).
Proof.
  intros Hstep Hwf. destruct Hstep as [s' Hq|w Hidw Hmax|t t' Ht Hm Hres|t t' r r' ds now s' Ht Hm Hr Hs Hds Hf
    |wid w leases t r dg ex Hw Ht Hst Hp Hop Hr He Hc1 Hc2|s' rid r ts Hc|rid r c Hr Hnt].
  - left. intros f _. by rewrite (quiet_tasks _ _ Hq).
  - by left.
  - left. intros f Hff. pose proof (work_move_same _ _ Hm) as (Eid&Erun&Epool&Eop&Edl&Eat&Eaid&Ew&Eb&Ec&Hl&Hl'&_).
    simpl. rewrite (lease_count_insert _ _ _ t) by (by rewrite Eid). unfold SimProtocol.leases.
    rewrite (Hff _ _ Epool Ew), Hl, Hl'. lia.
  - left. intros f Hff. destruct (release_facts _ _ _ _ _ _ _ _ Hwf Ht Hm Hr Hs Hf) as (->&_).
    pose proof (release_move_same _ _ Hm) as (_&_&_&_&_&_&_&Hl'&_). rewrite (lease_count_insert _ _ _ t) by done.
    unfold leases. rewrite Hl', andb_false_r. case_match; lia.
  - right. exists wid, w, t, (leased_task t w dg ex). simpl. auto 10.
  - left. intros f Hff. rewrite (created_tasks _ _ _ _ _ Hc), lease_count_foldr; [done|]. intros t Hin.
    split; [|by apply (created_fresh _ _ _ _ _ Hwf Hc)]. unfold leases.
    destruct (created_task _ _ _ _ _ Hc t Hin) as (_&->&_). by rewrite andb_false_r.
  - left. intros f Hff. simpl. unfold cancel_run_tasks. rewrite lease_count_fmap; [done|]. intros t. unfold leases.
    case_decide; [|done]. pose proof (cancel_mark_same t) as (_&_&Ep&_&_&_&_&Ew&_&_&Eh&_). by rewrite (Hff _ _ Ep Ew), Eh.
Qed.

Lemma step_config s s' : protocol_step s s' → sim_wf s → config s' = config s.
Proof.
  intros Hstep Hwf. destruct Hstep as [s' Hq|w Hidw Hmax|t t' Ht Hm Hres|t t' r r' ds now s' Ht Hm Hr Hs Hds Hf
    |wid w leases t r dg ex Hw Ht Hst Hp Hop Hr He Hc1 Hc2|s' rid r ts Hc|rid r c Hr Hnt]; try done.
  - by apply quiet_config.
  - by destruct (release_facts _ _ _ _ _ _ _ _ Hwf Ht Hm Hr Hs Hf) as (_&_&_&?&_).
  - by apply (created_config _ _ _ _ _ Hc).
Qed.

(** Workers keep their identity; a new one has a fresh identifier. *)
Lemma step_workers s s' : protocol_step s s' → sim_wf s →
  ∀ id w', workers s' !! id = Some w' →
    (∃ w, workers s !! id = Some w ∧ same_worker w w') ∨ workers s !! id = None ∧ tasks s' = tasks s ∧ 1 <= Worker_MaxConcurrency w'.
Proof.
  intros Hstep Hwf id w' Hl. destruct Hstep as [s' Hq|w Hidw Hmax|t t' Ht Hm Hres|t t' r r' ds now s' Ht Hm Hr Hs Hds Hf
    |wid w leases t r dg ex Hw Ht Hst Hp Hop Hr He Hc1 Hc2|s' rid r ts Hc|rid r c Hr Hnt]; try (left; by eauto).
  - left. eapply same_workers_r; [by apply quiet_workers|done].
  - simpl in Hl. destruct (decide (Worker_ID w = id)) as [<-|].
    + rewrite lookup_insert_eq in Hl. injection Hl as <-. right. split; [|by split; [|lia]]. rewrite Hidw. by apply fresh_worker; [|lia].
    + rewrite lookup_insert_ne in Hl by done. left. eauto.
  - left. destruct (release_facts _ _ _ _ _ _ _ _ Hwf Ht Hm Hr Hs Hf) as (_&_&Hws&_). rewrite Hws in Hl. eauto.
  - left. simpl in Hl. destruct (decide (wid = id)) as [<-|].
    + rewrite lookup_insert_eq in Hl. injection Hl as <-. exists w. done.
    + rewrite lookup_insert_ne in Hl by done. eauto.
  - left. rewrite (created_workers _ _ _ _ _ Hc) in Hl. eauto.
Qed.

Lemma step_capacity s s' : protocol_step s s' → sim_wf s → within_capacity s → within_capacity s'.
Proof.
  intros Hstep Hwf [Hcw Hcp]. pose proof (step_config _ _ Hstep Hwf) as Hcfg.
  pose proof (step_workers _ _ Hstep Hwf) as Hws.
  assert (∀ id t t', T_WorkerPool t' = T_WorkerPool t → T_WorkerID t' = T_WorkerID t → by_worker id t' = by_worker id t) as Hfw.
  { intros id t t' _ E. unfold by_worker. by rewrite E. }
  assert (∀ p t t', T_WorkerPool t' = T_WorkerPool t → T_WorkerID t' = T_WorkerID t → by_pool p t' = by_pool p t) as Hfp.
  { intros id t t' E _. unfold by_pool. by rewrite E. }
  assert (∀ id w', workers s !! id = None → workers s' !! id = Some w' → tasks s' = tasks s → 1 <= Worker_MaxConcurrency w' →
    workerLeaseCountLocked (Worker_ID w') s' <= Worker_MaxConcurrency w') as Hnew.
  { intros id w' Hn Hl Hts Hmax. change (lease_count (by_worker (Worker_ID w')) (tasks s') <= Worker_MaxConcurrency w').
    rewrite Hts, lease_count_zero; [lia|]. intros k t Ht. unfold leases. destruct (holds_lease (T_State t)) eqn:Eh; [|by rewrite andb_false_r].
    destruct (wf_tasks _ Hwf _ _ Ht) as [_ (_&_&_&_&Hh)]. destruct (Hh Eh) as (_&_&w&Hw&_).
    unfold by_worker. destruct (String.eqb_spec (T_WorkerID t) (Worker_ID w')) as [Heq|]; [|done].
    rewrite Heq in Hw. rewrite (proj1 (wf_workers _ (step_wf _ _ Hstep Hwf) _ _ Hl)) in Hw. congruence. }
  destruct (step_leases _ _ Hstep Hwf) as [Hle|(wid&w&t&t'&Hw&Ew&Ep&Ht&Hst&Hts&Hc1&Hc2)].
  - split.
    + intros id w' Hl. destruct (Hws id w' Hl) as [(w&Hw&Hsame)|(Hn&Hts&Hmax)]; [|by eapply Hnew].
      destruct Hsame as (Eid&_&_&Emax&_). rewrite Eid, Emax. etrans; [apply (Hle (by_worker (Worker_ID w))), Hfw|by eapply Hcw].
    + intros p. rewrite Hcfg. etrans; [apply (Hle (by_pool p)), Hfp|apply Hcp].
  - assert (∀ f, lease_count f (tasks s') <= lease_count f (tasks s) + (if f t' then 1 else 0)) as Hone.
    { intros f. rewrite Hts, (lease_count_insert f _ _ t) by done. unfold leases. rewrite Hst, andb_false_r.
      destruct (f t'), (holds_lease (T_State t')); simpl; lia. }
    split.
    + intros id w' Hl. destruct (Hws id w' Hl) as [(w0&Hw0&Hsame)|(Hn&Hts'&Hmax)]; [|by eapply Hnew].
      destruct Hsame as (Eid&_&_&Emax&_). rewrite Eid, Emax. specialize (Hone (by_worker (Worker_ID w0))).
      pose proof (Hcw _ _ Hw0) as Hb.
      change (lease_count (by_worker (Worker_ID w0)) (tasks s) <= Worker_MaxConcurrency w0) in Hb.
      change (lease_count (by_worker (Worker_ID w0)) (tasks s') <= Worker_MaxConcurrency w0).
      destruct (by_worker (Worker_ID w0) t') eqn:Eb; [|lia]. apply String.eqb_eq in Eb. rewrite Ew in Eb.
      pose proof (proj1 (wf_workers _ Hwf _ _ Hw)) as E1. pose proof (proj1 (wf_workers _ Hwf _ _ Hw0)) as E2.
      assert (w0 = w) as -> by congruence. change (lease_count (by_worker (Worker_ID w)) (tasks s) < Worker_MaxConcurrency w) in Hc1. lia.
    + intros p. rewrite Hcfg. specialize (Hone (by_pool p)). specialize (Hcp p).
      change (lease_count (by_pool p) (tasks s') <= Config_PoolMaxLeases (config s)).
      change (lease_count (by_pool p) (tasks s) <= Config_PoolMaxLeases (config s)) in Hcp.
      destruct (by_pool p t') eqn:Eb; [|lia]. apply String.eqb_eq in Eb. rewrite Ep in Eb. subst p.
      change (lease_count (by_pool (Worker_WorkerPool w)) (tasks s) < Config_PoolMaxLeases (config s)) in Hc2. lia.
Qed.

Lemma step_ok s s' : protocol_step s s' → sim_ok s → sim_ok s'.
Proof.
  intros Hstep [Hwf Hr Hd Hc]. split; [by eapply step_wf|by eapply step_runs|by eapply step_deliveries|by eapply step_capacity].
Qed.

Lemma steps_ok s s' : rtc protocol_step s s' → sim_ok s → sim_ok s'.
Proof. induction 1; [done|]. eauto using step_ok. Qed.

(** Over any number of steps a task is kept, and goes through moves only. *)
Lemma steps_task s s' : rtc protocol_step s s' → sim_wf s →
  ∀ id t, tasks s !! id = Some t → ∃ t', tasks s' !! id = Some t' ∧ rtc task_move t t'.
Proof.
  induction 1 as [s|s s1 s2 Hstep Hrtc IH]; intros Hwf id t Ht; [eauto using rtc_refl|].
  destruct (step_task _ _ Hstep Hwf _ _ Ht) as (t1&Ht1&Hm). destruct (IH (step_wf _ _ Hstep Hwf) _ _ Ht1) as (t2&Ht2&Hms).
  exists t2. split; [done|]. destruct Hm as [->|Hm]; [done|by eapply rtc_l].
Qed.
