(* ===== verification/SimRefinement.v ===== *)
(** * The control plane follows the lease protocol

    Every step of [ControlSim] is a sequence of [protocol_step]s and never panics, so
    the protocol's invariants hold in every state the server reaches: fencing of stale
    attempts, capacity, one delivery per task, the meaning of run states, the finality
    of cancellation. *)

From S2P Require Import Prelude Bytes Sha256 Time Model Netip Contract Partition Servicenow ControlSim SimProtocol.


Abbreviation steps := (rtc protocol_step).

(** ** Quiet steps *)

Lemma quiet_intro s s' :
  config s' = config s → nextID s' = nextID s → tasks s' = tasks s → runs s' = runs s →
  deliveries s' = deliveries s → workers s' = workers s →
  (∀ k, is_Some (results s !! k) → is_Some (results s' !! k)) → quiet s s'.
Proof. intros ? ? ? ? ? Hw ?. split; try done. rewrite Hw. apply same_workers_refl. Qed.

Lemma quiet_step s s' : quiet s s' → steps s s'.
Proof. intros. by apply rtc_once, step_quiet. Qed.

Lemma quiet_set_results s k r : quiet s (set_results s (<[k := r]> (results s))).
Proof.
  apply quiet_intro; try done. intros k' Hk. simpl. destruct (decide (k = k')) as [->|].
  - rewrite lookup_insert_eq. by eexists.
  - by rewrite lookup_insert_ne.
Qed.

Lemma quiet_set_worker s wid w w' :
  workers s !! wid = Some w → same_worker w w' → quiet s (set_workers s (<[wid := w']> (workers s))).
Proof.
  intros Hw Hsame. split; try done. intros id. simpl. destruct (decide (wid = id)) as [<-|].
  - by rewrite Hw, lookup_insert_eq.
  - rewrite lookup_insert_ne by done. by destruct (workers s !! id).
Qed.

Lemma put_run_id s r : runs s !! Run_ID r = Some r → put_run s r = s.
Proof. intros Hr. unfold put_run. rewrite insert_id by done. by destruct s. Qed.

Lemma add_no_deliveries s : add_deliveries s [] = s.
Proof. unfold add_deliveries. rewrite app_nil_r. by destruct s. Qed.

(** ** Release: one shape for expiry and for the end of a task *)

Lemma refresh_add_deliveries now rid s ds :
  refreshRunLocked now rid (add_deliveries s ds) = (λ s, add_deliveries s ds) <$> refreshRunLocked now rid s.
Proof.
  unfold refreshRunLocked. simpl. destruct (runs s !! rid); [|done].
  unfold run_task_states. simpl. by destruct (mapM _ _).
Qed.

(** A task ends (or returns to ready), its run's counters change, the run is refreshed. *)
Lemma release_steps s t t' r r' ds now :
  sim_wf s → tasks s !! T_ID t = Some t → release_move t t' → runs s !! T_RunID t = Some r → same_run r r' →
  deliveries_for t' ds →
  ∃ s', refreshRunLocked now (T_RunID t) (put_run (put_task s t') r') = Some s' ∧
    protocol_step s (add_deliveries s' ds) ∧ workers s' = workers s ∧ config s' = config s ∧
    tasks s' !! T_ID t = Some t' ∧ is_Some (runs s' !! T_RunID t) ∧ results s' = results s.
Proof.
  intros Hwf Ht Hm Hr Hs Hd. pose proof (release_wf _ _ _ _ _ [] Hwf Ht Hm Hr Hs) as Hwf1.
  rewrite add_no_deliveries in Hwf1. pose proof Hs as (Hid&_). pose proof (release_move_same _ _ Hm) as (Eid&Erun&_).
  assert (Run_ID r = T_RunID t) as Hrid by by apply (wf_runs _ Hwf).
  assert (runs (put_run (put_task s t') r') !! T_RunID t = Some r') as Hr'.
  { simpl. rewrite Hid, Hrid. apply lookup_insert_eq. }
  destruct (refresh_spec now _ _ _ Hwf1 Hr') as (r2&Hf&Hid2&_).
  exists (put_run (put_run (put_task s t') r') r2). split; [done|].
  split; [|simpl; rewrite Eid, Hid2, !lookup_insert_eq; by eauto 10].
  eapply step_release; try done. 
  change (put_run (put_task (add_deliveries s ds) t') r') with (add_deliveries (put_run (put_task s t') r') ds).
  by rewrite refresh_add_deliveries, Hf.
Qed.

Lemma release_plain s t t' now :
  sim_wf s → tasks s !! T_ID t = Some t → release_move t t' →
  ∃ s', refreshRunLocked now (T_RunID t) (put_task s t') = Some s' ∧
    protocol_step s s' ∧ workers s' = workers s ∧ config s' = config s ∧
    tasks s' !! T_ID t = Some t' ∧ is_Some (runs s' !! T_RunID t) ∧ results s' = results s.
Proof.
  intros Hwf Ht Hm. destruct (run_of_task _ _ Hwf Ht) as (r&Hr&Hrid).
  destruct (release_steps s t t' r r [] now Hwf Ht Hm Hr) as (s'&Hf&Hp&?); [done|by left|].
  exists s'. rewrite add_no_deliveries in Hp. split; [|by split].
  rewrite put_run_id in Hf; [done|]. simpl. by rewrite Hrid.
Qed.

(** ** Claims *)

Lemma expire_task_steps now now1 s id :
  sim_wf s → ∃ s', expire_task now now1 s id = Some s' ∧ steps s s' ∧ workers s' = workers s ∧ config s' = config s.
Proof.
  intros Hwf. unfold expire_task. destruct (tasks s !! id) as [t|] eqn:Ht; [|by eauto using rtc_refl].
  destruct (holds_lease (T_State t) && negb (After (T_LeaseExpiresAt t) now)) eqn:E; [|by eauto using rtc_refl].
  apply andb_true_iff in E as [Hl _]. destruct (wf_tasks _ Hwf _ _ Ht) as [Hid _]. rewrite <-Hid in Ht.
  destruct (release_plain s t _ now1 Hwf Ht (move_expire t Hl)) as (s'&Hf&Hp&?&?&_).
  exists s'. split; [done|]. split; [by apply rtc_once|done].
Qed.

Lemma expire_all_steps env ids : ∀ k s, sim_wf s →
  ∃ s', expire_all env k ids s = Some s' ∧ steps s s' ∧ workers s' = workers s ∧ config s' = config s.
Proof.
  induction ids as [|id ids IH]; intros k s Hwf; simpl; [by eauto using rtc_refl|].
  destruct (expire_task_steps (sim_now env 0) (sim_now env (S k)) s id Hwf) as (s1&->&Hs1&Hw1&Hc1). simpl.
  assert (sim_wf s1) as Hwf1. { clear -Hwf Hs1. induction Hs1; eauto using step_wf. }
  destruct (IH (S k) s1 Hwf1) as (s2&->&Hs2&Hw2&Hc2). exists s2. split; [done|]. split; [by etrans|]. split; congruence.
Qed.

Lemma steps_wf s s' : steps s s' → sim_wf s → sim_wf s'.
Proof. induction 1; eauto using step_wf. Qed.

Lemma min_time_le t d : min_time t d <= d.
Proof. unfold min_time, After. destruct (Z.ltb_spec d t); lia. Qed.

Lemma claimable_ids_head pool caps s id l :
  sim_wf s → claimable_ids pool caps s = id :: l →
  ∃ t, tasks s !! id = Some t ∧ T_ID t = id ∧ T_State t = ready ∧ T_WorkerPool t = pool ∧ T_Operation t ∈ caps.
Proof.
  intros Hwf Hids. assert (id ∈ claimable_ids pool caps s) as Hin by (rewrite Hids; by left).
  unfold claimable_ids in Hin. rewrite sort_by_perm in Hin. apply list_elem_of_omap in Hin as ([k t]&Hin&Heq).
  apply elem_of_map_to_list in Hin. simpl in Heq. destruct (claimable pool caps t) eqn:Ec; [|done]. injection Heq as ->.
  unfold claimable in Ec. apply andb_true_iff in Ec as [[Hst Hp]%andb_true_iff Hop].
  apply bool_decide_eq_true in Hst, Hop. apply String.eqb_eq in Hp. exists t. by destruct (wf_tasks _ Hwf _ _ Hin).
Qed.

Definition answered (s : Sim) (res : Sim * SimResponse) : Prop := steps s res.1 ∧ res.2 ≠ Panicked.

Lemma answered_same s code b : answered s (s, Answer code b).
Proof. split; [apply rtc_refl|done]. Qed.

Lemma claim_steps env q s : sim_wf s → answered s (claim env q s).
Proof.
  intros Hwf. unfold claim. destruct q as [q|e]; [|apply answered_same].
  destruct (workers s !! Claim_WorkerID q) as [w|] eqn:Hw; [|apply answered_same].
  match goal with |- context [if ?b then (s, fail 403 _) else _] => destruct b eqn:Hg; [apply answered_same|] end.
  repeat apply orb_false_iff in Hg as [Hg ?]. apply negb_false_iff, bool_decide_eq_true in H1 as Hcaps.
  destruct (expire_all_steps env (keys env) 0 s Hwf) as (s1&Hex&Hs1&Hw1&Hc1). cbv zeta. rewrite Hex. simpl.
  pose proof (steps_wf _ _ Hs1 Hwf) as Hwf1. rewrite <-Hw1 in Hw.
  set (leases := workerLeaseCountLocked (Worker_ID w) s1).
  set (w1 := worker_with w leases (Worker_LastHeartbeat w)).
  set (s2 := set_workers s1 (<[Claim_WorkerID q:=w1]> (workers s1))).
  assert (quiet s1 s2) as Hq by by apply (quiet_set_worker _ _ w).
  pose proof (quiet_wf _ _ Hwf1 Hq) as Hwf2. assert (steps s s2) as Hs2 by (etrans; [done|by apply quiet_step]).
  match goal with |- context [if ?b then Some _ else _] => destruct b eqn:Hb; [by split|] end.
  apply orb_false_iff in Hb as [Hb1%Z.leb_gt Hb2%Z.leb_gt].
  destruct (claimable_ids (Worker_WorkerPool w) (Claim_Capabilities q) s2) as [|id l] eqn:Hids; [by split|].
  destruct (claimable_ids_head _ _ _ _ _ Hwf2 Hids) as (t&Ht&Hid&Hst&Hp&Hop).
  rewrite <-Hid in Ht. destruct (run_of_task _ _ Hwf2 Ht) as (r&Hr&Hrid). rewrite <-Hid. change (tasks s1 !! T_ID t = Some t) in Ht. rewrite Ht. simpl.
  change (runs s1 !! T_RunID t = Some r) in Hr. rewrite Hr. simpl. split; [|done]. etrans; [exact Hs2|]. apply rtc_once.
  apply (step_lease s2 (Claim_WorkerID q) w1 (leases + 1) t r); try done.
  - simpl. apply lookup_insert_eq.
  - change (T_Operation t ∈ Worker_Capabilities w). by rewrite <-Hcaps.
  - apply min_time_le.
Qed.

(** ** Requests under a lease *)

Lemma validLease_spec now id w b a token s t :
  validLeaseLocked now id w b a token s = Some t ↔
  tasks s !! id = Some t ∧ holds_lease (T_State t) = true ∧ T_WorkerID t = w ∧ T_BootID t = b ∧ T_AttemptID t = a ∧
  now < T_LeaseExpiresAt t ∧ T_LeaseDigest t = sha256_hex token.
Proof.
  unfold validLeaseLocked. destruct (tasks s !! id) as [u|]; [|naive_solver].
  destruct (negb (holds_lease (T_State u)) || _ || _ || _ || _) eqn:Hg.
  - split; [done|]. intros ([= ->]&Hh&<-&<-&<-&Hlt&_). rewrite Hh, !String.eqb_refl in Hg. simpl in Hg.
    unfold After in Hg. apply Z.ltb_lt in Hlt. by rewrite Hlt in Hg.
  - repeat apply orb_false_iff in Hg as [Hg ?].
    repeat match goal with H : negb _ = false |- _ => apply negb_false_iff in H end.
    rewrite !String.eqb_eq in *. unfold After in *. rewrite Z.ltb_lt in *.
    destruct (String.eqb_spec (T_LeaseDigest u) (sha256_hex token)); naive_solver.
Qed.

Lemma credential_steps env q id s : answered s (credentialForTask env q id s).
Proof.
  unfold credentialForTask. destruct q as [q|e]; [|apply answered_same].
  repeat case_match; (split; [|done]); simpl; apply quiet_step; by apply quiet_intro.
Qed.

Lemma work_step s t t' :
  sim_wf s → tasks s !! T_ID t = Some t → work_move t t' →
  (T_State t' = results_received → is_Some (results s !! resultKey (T_ID t) (T_AttemptID t) 0)) →
  steps s (put_task s t').
Proof. intros. by eapply rtc_once, step_work. Qed.

Lemma renew_steps env q id s : sim_wf s → answered s (renew env q id s).
Proof.
  intros Hwf. unfold renew. destruct q as [q|e]; [|apply answered_same].
  destruct (negb (renewAvailable s)); [apply answered_same|].
  destruct (validLeaseLocked _ _ _ _ _ _ _) as [t|] eqn:Hv; [|apply answered_same].
  apply validLease_spec in Hv as (Ht&Hh&_). destruct (wf_tasks _ Hwf _ _ Ht) as [Hid _]. rewrite <-Hid in Ht.
  destruct (T_CancelRequested t) eqn:Hc; [apply answered_same|]. split; [|done].
  eapply work_step; try done. rewrite <-Hc. apply move_work; auto using min_time_le.
Qed.

Lemma result_steps env q id s : sim_wf s → answered s (sim_result env q id s).
Proof.
  intros Hwf. unfold sim_result. destruct q as [q|e]; [|apply answered_same].
  destruct (negb (Chunk_ChunkNumber q =? 0) || _ || _ || _) eqn:Hg; [apply answered_same|].
  repeat apply orb_false_iff in Hg as [Hg ?]. apply negb_false_iff, Z.eqb_eq in Hg as Hnum.
  destruct (negb (String.eqb _ _)); [apply answered_same|].
  destruct (validLeaseLocked _ _ _ _ _ _ _) as [t|] eqn:Hv; [|apply answered_same].
  apply validLease_spec in Hv as (Ht&Hh&_&_&Ha&_). destruct (wf_tasks _ Hwf _ _ Ht) as [Hid (_&_&_&_&Hl)].
  destruct (T_CancelRequested t) eqn:Hc; [apply answered_same|].
  set (key := resultKey id (Chunk_AttemptID q) (Chunk_ChunkNumber q)).
  destruct (results s !! key) as [existing|] eqn:Hk; [by destruct (_ || _); apply answered_same|].
  split; [|done]. set (s1 := set_results s _). pose proof (quiet_set_results s key (mkResultRecord id (Chunk_AttemptID q) (Chunk_ChunkNumber q)
            (Chunk_ChunkCount q) (Chunk_Checksum q) (Chunk_ObservationJSON q) (sim_now env 1) zero_time "" false)) as Hq.
  etrans; [by apply quiet_step|]. rewrite <-Hid in Ht. eapply (work_step _ t); [by eapply quiet_wf|done| |].
  - rewrite <-Hc. apply move_work; auto. by apply Hl.
  - intros _. simpl. rewrite Hid, Ha, <-Hnum. exists (mkResultRecord id (Chunk_AttemptID q) (Chunk_ChunkNumber q)
            (Chunk_ChunkCount q) (Chunk_Checksum q) (Chunk_ObservationJSON q) (sim_now env 1) zero_time "" false).
    apply lookup_insert_eq.
Qed.

(** ** Completion *)

Lemma complete_answer_spec taskID runID s :
  is_Some (tasks s !! taskID) → is_Some (runs s !! runID) →
  ∃ b, complete_answer taskID runID s = Some (s, Answer 200 b).
Proof. intros [t Ht] [r Hr]. unfold complete_answer. rewrite Ht, Hr. simpl. eauto. Qed.

Lemma relation_keys_total source es p :
  mapPayload source es = Ok p → is_Some (mapM (relation_key (item_key <$> Items p)) (Relations p)).
Proof.
  intros Hmap. apply mapM_is_Some_2, Forall_forall. intros rel Hin.
  destruct (mapPayload_ends _ _ _ _ Hmap Hin) as [[x Hx] [y Hy]].
  unfold compose, relation_key. rewrite !list_lookup_fmap, Hx, Hy. by eexists.
Qed.

Lemma end_move t st cancel err :
  holds_lease (T_State t) = true → task_terminal st = true → T_CancelRequested t = false ∨ st = cancelled_ →
  release_move t (task_state_to t st cancel err).
Proof. intros Hh Ht Hc. apply move_end; [done..|]. destruct Hc as [-> |]; done. Qed.

Lemma close_result_quiet env key terminal res s : quiet s (close_result env key terminal res s).
Proof. apply quiet_set_results. Qed.

(** The common end of the successful completions: delivery, task, run counters, refresh,
    the result's bookkeeping. *)
Lemma finish_steps env key res terminal s t t' r r' d :
  sim_wf s → tasks s !! T_ID t = Some t → release_move t t' → runs s !! T_RunID t = Some r → same_run r r' →
  D_TaskID d = T_ID t → T_State t' = complete_ ∨ T_State t' = failed_ →
  ∃ s', refreshRunLocked (sim_now env 2) (T_RunID t) (put_run (put_task s t') r') = Some s' ∧
    steps s (close_result env key terminal res (add_delivery s' d)) ∧
    is_Some (tasks s' !! T_ID t) ∧ is_Some (runs s' !! T_RunID t).
Proof.
  intros Hwf Ht Hm Hr Hs Hd Hst.
  destruct (release_steps s t t' r r' [d] (sim_now env 2) Hwf Ht Hm Hr Hs) as (s'&Hf&Hp&_&_&Htt&Hrr&_).
  { right. exists d. split; [done|]. split; [|done]. pose proof (release_move_same _ _ Hm) as (->&_). done. }
  exists s'. split; [done|]. split; [|split; [by eexists|done]].
  eapply rtc_l; [exact Hp|]. apply quiet_step, close_result_quiet.
Qed.

Lemma failIRE_steps env t r key res s msg :
  sim_wf s → tasks s !! T_ID t = Some t → runs s !! T_RunID t = Some r →
  holds_lease (T_State t) = true → T_CancelRequested t = false →
  answered s (or_panic s (s ← failIRELocked env t r key res s; Some (s, fail 422 msg))).
Proof.
  intros Hwf Ht Hr Hh Hc.
  set (t' := task_state_to t failed_ (T_CancelRequested t) "ire_preflight_failed").
  set (r' := run_with r (Run_State r) (Run_CompletedAt r) (Run_Assets r) (Run_Relationships r)
    (Run_CollectionErrors r) (Run_Attempts r) "ire_preflight_failed").
  set (d := mkIREDelivery (Run_ID r) (T_ID t) (T_AttemptID t) true false false [] [] (sim_now env 3)).
  destruct (finish_steps env key res "failed" s t t' r r' d Hwf Ht) as (s'&Hf&Hp&_); try done; [|by right|].
  { apply end_move; auto. }
  unfold failIRELocked. fold t' r'. rewrite Hf. simpl. split; [|done]. exact Hp.
Qed.

Section complete.
Variable json_tokens : string → list json_token * bool.
Variable decode_line : string → go ObservationEnvelope.
Variable decode_any : string → go ObservationEnvelope.
Abbreviation complete := (complete json_tokens decode_line decode_any).

Lemma deliver_steps env t r key res source es p s :
  sim_wf s → tasks s !! T_ID t = Some t → runs s !! T_RunID t = Some r →
  holds_lease (T_State t) = true → T_CancelRequested t = false → mapPayload source es = Ok p →
  answered s (or_panic s (deliver env t r key res p s)).
Proof.
  intros Hwf Ht Hr Hh Hc Hmap. unfold deliver.
  destruct (upsert_keys env 0 (item_key <$> Items p) (items s)) as [is_ iops].
  destruct (relation_keys_total _ _ _ Hmap) as [ks Hks]. rewrite Hks. simpl.
  destruct (upsert_keys env (length (item_key <$> Items p)) ks (relations s)) as [rs rops].
  set (d := mkIREDelivery (Run_ID r) (T_ID t) (T_AttemptID t) true true false iops rops (sim_now env 1)).
  set (t' := task_state_to t complete_ (T_CancelRequested t) (T_Error t)).
  set (r' := run_with r (Run_State r) (Run_CompletedAt r) (Run_Assets r + llen (Items p))
    (Run_Relationships r + llen (Relations p)) (Run_CollectionErrors r) (Run_Attempts r) (Run_Error r)).
  assert (quiet s (set_cmdb s is_ rs)) as Hq by by apply quiet_intro.
  pose proof (quiet_wf _ _ Hwf Hq) as Hwf1.
  destruct (finish_steps env key res "complete" (set_cmdb s is_ rs) t t' r r' d Hwf1 Ht) as (s'&Hf&Hp&Htt&Hrr); try done; [|by left|].
  { apply end_move; auto. }
  change (put_run (put_task (add_delivery (set_cmdb s is_ rs) d) t') r')
    with (add_deliveries (put_run (put_task (set_cmdb s is_ rs) t') r') [d]).
  rewrite refresh_add_deliveries, Hf. simpl.
  destruct (complete_answer_spec (T_ID t) (T_RunID t) (close_result env key "complete" res (add_deliveries s' [d]))) as [b ->]; [done|done|].
  split; [|done]. etrans; [by apply quiet_step|]. exact Hp.
Qed.

Lemma no_data_steps env t r key res n s :
  sim_wf s → tasks s !! T_ID t = Some t → runs s !! T_RunID t = Some r →
  holds_lease (T_State t) = true → T_CancelRequested t = false →
  answered s (or_panic s (
    s ← refreshRunLocked (sim_now env 2) (T_RunID t)
      (put_run (put_task (add_delivery s (mkIREDelivery (Run_ID r) (T_ID t) (T_AttemptID t) false false true [] [] (sim_now env 1)))
         (task_state_to t complete_ (T_CancelRequested t) (T_Error t)))
       (run_with r (Run_State r) (Run_CompletedAt r) (Run_Assets r) (Run_Relationships r)
          (Run_CollectionErrors r + n) (Run_Attempts r) (Run_Error r)));
    complete_answer (T_ID t) (T_RunID t) (close_result env key "complete" res s))).
Proof.
  intros Hwf Ht Hr Hh Hc.
  set (d := mkIREDelivery (Run_ID r) (T_ID t) (T_AttemptID t) false false true [] [] (sim_now env 1)).
  set (t' := task_state_to t complete_ (T_CancelRequested t) (T_Error t)).
  set (r' := run_with r (Run_State r) (Run_CompletedAt r) (Run_Assets r) (Run_Relationships r)
    (Run_CollectionErrors r + n) (Run_Attempts r) (Run_Error r)).
  destruct (finish_steps env key res "complete" s t t' r r' d Hwf Ht) as (s'&Hf&Hp&Htt&Hrr); try done; [|by left|].
  { apply end_move; auto. }
  change (put_run (put_task (add_delivery s d) t') r') with (add_deliveries (put_run (put_task s t') r') [d]).
  rewrite refresh_add_deliveries, Hf. simpl.
  destruct (complete_answer_spec (T_ID t) (T_RunID t) (close_result env key "complete" res (add_deliveries s' [d]))) as [b ->]; [done|done|].
  split; [|done]. exact Hp.
Qed.

Lemma complete_steps env q id s : sim_wf s → answered s (complete env q id s).
Proof.
  intros Hwf. unfold ControlSim.complete. destruct q as [q|e]; [|apply answered_same].
  destruct (validLeaseLocked _ _ _ _ _ _ _) as [t|] eqn:Hv; [|apply answered_same].
  apply validLease_spec in Hv as (Ht&Hh&_&_&Ha&_). destruct (wf_tasks _ Hwf _ _ Ht) as [Hid (_&_&_&Hrr&_)]. rewrite <-Hid in Ht.
  destruct (negb (Complete_Success q)).
  - destruct (Complete_Failure q) as [f|]; [|apply answered_same]. destruct (_ || _); [apply answered_same|].
    cbv zeta. set (t' := if T_CancelRequested t || _ then _ else _).
    assert (release_move t t') as Hm.
    { unfold t'. destruct (T_CancelRequested t) eqn:Hc; [apply end_move; auto|]. simpl.
      destruct (String.eqb _ _); apply end_move; auto. }
    destruct (release_plain s t t' (sim_now env 2) Hwf Ht Hm) as (s'&Hf&Hp&_&_&Htt&Hrun&_).
    rewrite Hf. simpl. destruct (complete_answer_spec (T_ID t) (T_RunID t) s') as [b ->]; [by eexists|done|].
    split; [by apply rtc_once|done].
  - destruct (negb (Complete_ChunkCount q =? 1) || _) eqn:Hg; [apply answered_same|].
    apply orb_false_iff in Hg as [_ Hst%negb_false_iff%bool_decide_eq_true].
    assert (T_CancelRequested t = true ∨ T_CancelRequested t = false) as [Hc|Hc] by (destruct (T_CancelRequested t); auto);
      rewrite Hc at 1; [apply answered_same|]. cbv zeta.
    destruct (run_of_task _ _ Hwf Ht) as (r&Hr&_). rewrite Hr. simpl.
    destruct (Hrr Hst) as [res Hres]. rewrite Hid, Ha in Hres. rewrite Hres. simpl.
    destruct (no_data decode_any t (R_Payload res)) as [e|].
    + by apply no_data_steps.
    + destruct (DecodeJSONLines _ _ _) as [es|e]; [|by apply failIRE_steps].
      destruct (mapPayload _ _) as [p|e] eqn:Hmap; [|by apply failIRE_steps]. by eapply deliver_steps.
Qed.

Lemma register_steps env q s : sim_wf s → answered s (register env q s).
Proof.
  intros Hwf. unfold register. destruct q as [q|e]; [|apply answered_same].
  cbv zeta. set (max := if Register_MaxConcurrency q =? 0 then 1 else Register_MaxConcurrency q).
  destruct (negb (String.eqb _ _) || _ || _ || _ || _ || _ || _) eqn:Hg; [apply answered_same|].
  apply orb_false_iff in Hg as [[_ Hmin%Z.ltb_ge]%orb_false_iff Hmax%Z.ltb_ge].
  split; [|done]. apply rtc_once.
  by apply (step_register s (mkWorkerRecord (worker_id (nextID s + 1)) (Register_BootID q) (Register_WorkerPool q) (Register_SiteID q)
    (Register_Version q) (Register_Capabilities q) (Register_PolicyDigest q) max 0 (sim_now env 0))).
Qed.

Lemma heartbeat_steps env q s : sim_wf s → answered s (sim_heartbeat env q s).
Proof.
  intros Hwf. unfold sim_heartbeat. destruct q as [q|e]; [|apply answered_same].
  destruct (workers s !! _) as [w|] eqn:Hw; [|apply answered_same].
  destruct (negb _); [apply answered_same|]. split; [|done]. apply quiet_step. by apply (quiet_set_worker _ _ w).
Qed.

Lemma serveHTTP_steps env post auth route s :
  sim_wf s → answered s (serveHTTP json_tokens decode_line decode_any env post auth route s).
Proof.
  intros Hwf. unfold serveHTTP. destruct (negb post); [apply answered_same|].
  destruct (_ || _); [apply answered_same|].
  destruct route; [by apply register_steps|by apply heartbeat_steps|by apply claim_steps|by apply result_steps|
    by apply complete_steps|by apply renew_steps|by apply credential_steps|apply answered_same].
Qed.
End complete.

(** ** Operator actions *)

Lemma createRemote_created now trigger pool target binding op s :
  ∃ rid r ts, created s (createRemoteRunLocked now trigger pool target binding op s).1 rid r ts.
Proof.
  unfold createRemoteRunLocked. cbn [fst].
  set (t := mkTaskRecord _ _ _ _ _ _ _ _ _ _ _ _ _ _ _ _ _ _ _).
  exists (run_id (nextID s + 1)), (mkRunRecord (run_id (nextID s + 1)) trigger run_ready [T_ID t] now zero_time 0 0 0 0 ""), [t].
  split; try done; simpl.
  - lia.
  - exists (nextID s + 1). split; [lia|done].
  - intros u ->%list_elem_of_singleton. repeat split. exists (nextID s + 1 + 1). split; [simpl; lia|done].
Qed.

Lemma create_tasks_spec n : ∀ ordinal partitions rid pool now s,
  ∃ ts, (create_tasks n ordinal partitions rid pool now s).1 ≡ₚ T_ID <$> ts ∧ length ts = n ∧
    let s' := (create_tasks n ordinal partitions rid pool now s).2 in
    config s' = config s ∧ workers s' = workers s ∧ results s' = results s ∧ deliveries s' = deliveries s ∧
    runs s' = runs s ∧ nextID s' = nextID s + Z.of_nat n ∧
    tasks s' = foldr (λ t, <[T_ID t := t]>) (tasks s) ts ∧
    ∀ t, t ∈ ts → T_RunID t = rid ∧ T_State t = ready ∧ T_Attempt t = 0 ∧ T_CancelRequested t = false ∧
      ∃ k, nextID s < k <= nextID s' ∧ T_ID t = task_id k.
Proof.
  induction n as [|n IH]; intros ordinal partitions rid pool now s; simpl.
  { exists []. split; [done|]. split; [done|]. do 5 (split; [done|]). split; [lia|]. split; [done|]. by intros t ?%not_elem_of_nil. }
  set (t := mkTaskRecord _ _ _ _ _ _ _ _ _ _ _ _ _ _ _ _ _ _ _).
  destruct (IH (ordinal + 1) partitions rid pool now (put_task (bump_id s) t)) as (ts&Hids&Hlen&Hrest).
  destruct (create_tasks n _ _ _ _ _ _) as [ids s'] eqn:E. simpl in *.
  destruct Hrest as (Hc&Hw&Hr&Hd&Hrs&Hn&Hts&Hall).
  exists (ts ++ [t]). split; [rewrite fmap_app, Hids; apply Permutation_cons_append|].
  split; [rewrite length_app; simpl; lia|].
  split; [done|]. split; [done|]. split; [done|]. split; [done|]. split; [done|]. split; [lia|].
  split; [by rewrite Hts, foldr_app|].
  intros u [Hu| ->%list_elem_of_singleton]%elem_of_app.
  - destruct (Hall u Hu) as (?&?&?&?&k&?&?). repeat split; try done. exists k. split; [lia|done].
  - repeat split. exists (nextID s + 1). split; [lia|done].
Qed.

Lemma create_created now trigger pool partitions s :
  1 <= partitions <= DefaultMaxPartitions →
  ∃ rid r ts, created s (createRunLocked now trigger pool partitions s).1 rid r ts.
Proof.
  intros Hp. unfold createRunLocked. rewrite (proj2 (Z.ltb_ge _ _) (proj1 Hp)), (proj2 (Z.ltb_ge _ _) (proj2 Hp)).
  simpl. destruct (create_tasks_spec (Z.to_nat partitions) 0 partitions (run_id (nextID s + 1)) pool now (bump_id s))
    as (ts&Hids&Hlen&Hrest). destruct (create_tasks _ _ _ _ _ _ _) as [ids s'] eqn:E. simpl in *.
  destruct Hrest as (Hc&Hw&Hr&Hd&Hrs&Hn&Hts&Hall).
  exists (run_id (nextID s + 1)), (mkRunRecord (run_id (nextID s + 1)) trigger run_ready ids now zero_time 0 0 0 0 ""), ts.
  split; simpl; try done.
  - lia.
  - exists (nextID s + 1). split; [lia|done].
  - by rewrite Hrs.
  - repeat split; [done|]. intros ->. simpl in Hlen. lia.
  - intros t Ht. destruct (Hall t Ht) as (?&?&?&?&k&?&?). repeat split; try done. exists k. split; [lia|done].
Qed.

Lemma created_steps s s' : (∃ rid r ts, created s s' rid r ts) → steps s s'.
Proof. intros (rid&r&ts&Hc). by eapply rtc_once, step_create. Qed.

Lemma createRun_steps now trigger pool partitions s :
  steps s (createRunLocked now trigger pool partitions s).1.
Proof.
  destruct ((partitions <? 1) || (DefaultMaxPartitions <? partitions)) eqn:Hg.
  - unfold createRunLocked. rewrite Hg. apply rtc_refl.
  - apply orb_false_iff in Hg as [H1%Z.ltb_ge H2%Z.ltb_ge]. by apply created_steps, create_created.
Qed.

Lemma createRemote_steps now trigger pool target binding op s :
  steps s (createRemoteRunLocked now trigger pool target binding op s).1.
Proof. apply created_steps, createRemote_created. Qed.

Lemma RunNowRemote_steps env pool target binding op s : steps s (RunNowRemote env pool target binding op s).1.
Proof. unfold RunNowRemote. destruct (_ || _); [apply rtc_refl|apply createRemote_steps]. Qed.

Lemma enqueue_one_steps now created acc id : steps acc.1 (enqueue_one now created acc id).1.
Proof.
  destruct acc as [s ids]. unfold enqueue_one. destruct (sim_schedules s !! id) as [x|]; [|apply rtc_refl].
  destruct (_ || _); [apply rtc_refl|].
  destruct (remote_operation _).
  - pose proof (createRemote_steps created "scheduled" (S_WorkerPool x) (S_Target x) (S_CredentialBindingID x) (S_Operation x) s) as H.
    destruct (createRemoteRunLocked _ _ _ _ _ _ _) as [s' rid]. simpl in *. etrans; [done|]. apply quiet_step. by apply quiet_intro.
  - pose proof (createRun_steps created "scheduled" (S_WorkerPool x) 1 s) as H.
    destruct (createRunLocked _ _ _ _ _) as [s' rid]. simpl in *. etrans; [done|]. apply quiet_step. by apply quiet_intro.
Qed.

Lemma EnqueueDue_steps env s : steps s (EnqueueDue env s).1.
Proof.
  unfold EnqueueDue. assert (∀ ids k acc, steps acc.1 (enqueue_loop env k ids acc).1) as Hl.
  { induction ids as [|id ids IH]; intros k acc; [apply rtc_refl|]. simpl. etrans; [apply enqueue_one_steps|apply IH]. }
  apply (Hl (keys env) 0%nat (s, [])).
Qed.

Lemma cleanup_steps now limit ids : ∀ n s, steps s (cleanup_loop now limit ids n s).1.
Proof.
  induction ids as [|id ids IH]; intros n s; simpl; [apply rtc_refl|].
  destruct (results s !! id) as [r|]; [|apply IH]. destruct (cleanable _ _ _); [|apply IH].
  destruct (_ =? _); [apply quiet_step, quiet_set_results|]. etrans; [apply quiet_step, quiet_set_results|apply IH].
Qed.

Lemma seed_steps n : ∀ index at_ s, steps s (seed_results n index at_ s).
Proof.
  induction n as [|n IH]; intros index at_ s; simpl; [apply rtc_refl|].
  etrans; [apply quiet_step, quiet_set_results|apply IH].
Qed.

(** *** Cancellation *)

Lemma cancel_mark_idem t : cancel_mark (cancel_mark t) = cancel_mark t.
Proof. unfold cancel_mark. destruct (T_State t) eqn:E; simpl; rewrite ?E; done. Qed.

Lemma cancel_tasks_spec ids : ∀ s,
  (∀ id t, tasks s !! id = Some t → T_ID t = id) →
  (∀ id, id ∈ ids → is_Some (tasks s !! id)) →
  ∃ b m, cancel_tasks ids s = Some (b, set_tasks s m) ∧
    (∀ id, m !! id = if decide (id ∈ ids) then cancel_mark <$> tasks s !! id else tasks s !! id) ∧
    (b = true ↔ ∃ id t, id ∈ ids ∧ tasks s !! id = Some t ∧ holds_lease (T_State t) = true).
Proof.
  induction ids as [|id ids IH]; intros s Hk Hall; simpl.
  { exists false, (tasks s). split; [by destruct s|]. split; [done|]. split; [done|]. by intros (?&?&?%not_elem_of_nil&_). }
  destruct (Hall id ltac:(by left)) as [t Ht]. rewrite Ht. simpl.
  set (s1 := match T_State t with ready => _ | _ => _ end).
  assert (s1 = set_tasks s (<[id := cancel_mark t]> (tasks s))) as ->.
  { unfold s1, cancel_mark, put_task. pose proof (Hk _ _ Ht) as Hid.
    destruct (T_State t); simpl; rewrite ?Hid; try done; rewrite insert_id by done; by destruct s. }
  pose proof (cancel_mark_same t) as (Eid&_&_&_&_&_&_&_&_&_&Eh&_).
  destruct (IH (set_tasks s (<[id := cancel_mark t]> (tasks s)))) as (b&m&->&Hm&Hb); simpl.
  { intros k u. destruct (decide (id = k)) as [<-|]; [rewrite lookup_insert_eq; intros [= <-]; rewrite Eid; by apply Hk|].
    rewrite lookup_insert_ne by done. apply Hk. }
  { intros k Hin. destruct (decide (id = k)) as [<-|]; [rewrite lookup_insert_eq; by eexists|].
    rewrite lookup_insert_ne by done. apply Hall. by right. }
  exists (holds_lease (T_State t) || b), m. split; [done|]. split.
  - intros k. rewrite Hm. simpl. destruct (decide (id = k)) as [<-|Hne].
    + rewrite lookup_insert_eq, Ht. simpl. rewrite cancel_mark_idem.
      rewrite (decide_True (P := id ∈ id :: ids)) by by left. by case_decide.
    + rewrite lookup_insert_ne by done. destruct (decide (k ∈ ids)) as [Hin|Hin].
      * by rewrite decide_True by by right.
      * rewrite decide_False; [done|]. rewrite elem_of_cons. naive_solver.
  - rewrite orb_true_iff, Hb. simpl. split.
    + intros [Hh|(k&u&Hin&Hu&Hh)]; [exists id, t; split; [by left|done]|].
      destruct (decide (id = k)) as [<-|Hne].
      * exists id, t. rewrite lookup_insert_eq in Hu. injection Hu as <-. split; [by left|]. split; [done|congruence].
      * rewrite lookup_insert_ne in Hu by done. exists k, u. split; [by right|done].
    + intros (k&u&[->|Hin]%elem_of_cons&Hu&Hh); [left; congruence|].
      destruct (decide (id = k)) as [<-|Hne]; [left; congruence|]. right. exists k, u. by rewrite lookup_insert_ne.
Qed.

Lemma CancelRun_steps env rid s :
  sim_wf s → ∃ s' b, CancelRun env rid s = Some (s', b) ∧ steps s s' ∧
    (b = true → ∃ r r' c, runs s !! rid = Some r ∧ run_terminal (Run_State r) = false ∧
       runs s' !! rid = Some r' ∧ r' = run_state_to r (Run_State r') c ∧
       (Run_State r' = run_cancelling ∨ Run_State r' = run_cancelled) ∧
       tasks s' = cancel_run_tasks rid (tasks s)) ∧
    (b = false → s' = s).
Proof.
  intros Hwf. unfold CancelRun. destruct (runs s !! rid) as [r|] eqn:Hr; [|exists s, false; split; [done|]; split; [apply rtc_refl|done]].
  destruct (run_terminal (Run_State r)) eqn:Hterm; [exists s, false; split; [done|]; split; [apply rtc_refl|done]|].
  pose proof (wf_runs _ Hwf _ _ Hr) as [Hrid (_&_&Hin)].
  destruct (cancel_tasks_spec (Run_TaskIDs r) s) as (b&m&->&Hm&Hb).
  { intros id t Ht. by apply (wf_tasks _ Hwf). }
  { intros id Hid. destruct (Hin id Hid) as (t&->&_). by eexists. }
  assert (m = cancel_run_tasks rid (tasks s)) as ->.
  { apply map_eq. intros id. rewrite Hm. unfold cancel_run_tasks. rewrite lookup_fmap.
    destruct (tasks s !! id) as [t|] eqn:Ht; [|by case_decide]. simpl. pose proof (wf_tasks _ Hwf _ _ Ht) as [Hid _].
    rewrite <-Hid in Ht. pose proof (run_task_iff _ _ _ _ Hwf Hr Ht) as Hiff. rewrite <-Hid.
    destruct (decide (T_ID t ∈ Run_TaskIDs r)); case_decide; naive_solver. }
  eexists _, true. split; [done|]. split; [|split; [|done]].
  - apply rtc_once. pose proof (step_cancel s rid r (if b then Run_CompletedAt r else sim_now env 0) Hr Hterm) as Hstep.
    match type of Hstep with context [existsb ?f ?l] => assert (existsb f l = b) as Hex end.
    { apply eq_bool_prop_intro. rewrite !Is_true_true, Hb, existsb_exists. split.
      - intros (t&Ht&[Hrun%String.eqb_eq Hh]%andb_true_iff). apply list_elem_of_In, list_elem_of_fmap in Ht as ([k u]&->&Hku).
        simpl in *. apply elem_of_map_to_list in Hku. pose proof (wf_tasks _ Hwf _ _ Hku) as [<- _].
        exists (T_ID u), u. split; [|done]. by apply (run_task_iff _ _ _ _ Hwf Hr Hku).
      - intros (id&t&Hid&Ht&Hh). exists t. pose proof (wf_tasks _ Hwf _ _ Ht) as [<- _].
        split; [apply list_elem_of_In, list_elem_of_fmap; exists (T_ID t, t); split; [done|by apply elem_of_map_to_list]|].
        apply (run_task_iff _ _ _ _ Hwf Hr Ht) in Hid. by rewrite Hid, String.eqb_refl, Hh. }
    rewrite Hex in Hstep. destruct b; exact Hstep.
  - intros _. destruct b; simpl; rewrite Hrid; eexists r, _, _; rewrite lookup_insert_eq;
      (split; [done|]); (split; [done|]); (split; [done|]); (split; [done|]); auto.
Qed.

(** ** Runs of the server *)

Lemma NewSim_ok c : sim_ok (NewSim c).
Proof.
  assert (0 < Config_PoolMaxLeases (with_defaults c)) as Hpool.
  { simpl. destruct (Z.leb_spec (Config_PoolMaxLeases c) 0); lia. }
  split.
  - split; [done|..]; intros id x Hx; simpl in Hx; by rewrite lookup_empty in Hx.
  - intros id r Hr. simpl in Hr. by rewrite lookup_empty in Hr.
  - split; [apply NoDup_nil_2|]. by intros d ?%not_elem_of_nil.
  - split; [intros id w Hw; simpl in Hw; by rewrite lookup_empty in Hw|]. intros pool.
    simpl config. unfold poolLeaseCountLocked. simpl tasks. rewrite map_to_list_empty. simpl. simpl in Hpool. lia.
Qed.

Section theorems.
Variable json_tokens : string → list json_token * bool.
Variable decode_line : string → go ObservationEnvelope.
Variable decode_any : string → go ObservationEnvelope.
Abbreviation server_step := (sim_step json_tokens decode_line decode_any).
Abbreviation server := (sim_run json_tokens decode_line decode_any).

Lemma sim_step_steps env op s : sim_wf s → steps s (server_step env op s).
Proof.
  intros Hwf. destruct op; simpl.
  - by apply serveHTTP_steps.
  - apply createRun_steps.
  - apply RunNowRemote_steps.
  - apply RunNowRemote_steps.
  - apply quiet_step. by apply quiet_intro.
  - destruct (CancelRun_steps env runID s Hwf) as (s'&b&->&Hs&_). done.
  - apply quiet_step. by apply quiet_intro.
  - apply EnqueueDue_steps.
  - unfold CleanupBatch. destruct (_ <? 1); [apply rtc_refl|apply cleanup_steps].
  - apply seed_steps.
Qed.

Lemma fold_steps ops : ∀ s, sim_wf s → steps s (foldl (λ s eo, server_step eo.1 eo.2 s) s ops).
Proof.
  induction ops as [|[env op] ops IH]; intros s Hwf; simpl; [apply rtc_refl|].
  pose proof (sim_step_steps env op s Hwf) as Hs. etrans; [done|]. apply IH. by eapply steps_wf.
Qed.

Lemma server_steps c ops ops' : steps (server c ops) (server c (ops ++ ops')).
Proof.
  unfold sim_run. rewrite foldl_app. apply fold_steps. eapply steps_wf; [apply fold_steps|]; apply NewSim_ok.
Qed.

Lemma server_ok c ops : sim_ok (server c ops).
Proof. eapply steps_ok; [apply fold_steps|]; apply NewSim_ok. Qed.

Lemma server_wf c ops : sim_wf (server c ops).
Proof. apply server_ok. Qed.

(** C2: every history of the control plane - any requests, operator actions, schedules
    and clean-ups, in any order and at any clock - is a run of the lease protocol, and
    every state it reaches satisfies the protocol's invariants. *)
Theorem control_plane_refines_protocol (c : SimConfig) (ops : list (SimEnv * sim_op)) :
  rtc protocol_step (NewSim c) (server c ops) ∧ sim_ok (server c ops).
Proof. split; [apply fold_steps, NewSim_ok|apply server_ok]. Qed.

(** No request and no cancellation reaches a nil dereference or an index out of
    range, in any state the server can be in: tasks, runs and results that the handlers
    look up exist, and relation ends are positions of the payload. *)
Theorem control_plane_never_panics (c : SimConfig) (ops : list (SimEnv * sim_op)) :
  ∀ env, (∀ post auth route, (serveHTTP json_tokens decode_line decode_any env post auth route (server c ops)).2 ≠ Panicked) ∧
         (∀ runID, CancelRun env runID (server c ops) ≠ None).
Proof.
  intros env. split.
  - intros post auth route. apply serveHTTP_steps, server_wf.
  - intros rid. destruct (CancelRun_steps env rid _ (server_wf c ops)) as (s'&b&->&_). done.
Qed.

Lemma moves_same t t' : rtc task_move t t' →
  T_ID t' = T_ID t ∧ T_RunID t' = T_RunID t ∧ T_Operation t' = T_Operation t ∧ T_Deadline t' = T_Deadline t ∧
  T_Attempt t <= T_Attempt t' ∧ (task_terminal (T_State t) = true → t' = t).
Proof.
  induction 1 as [t|t t1 t2 Hm _ IH]; [done|]. destruct IH as (?&?&?&?&?&Ht).
  pose proof (task_move_same _ _ Hm) as (?&?&?&?&?&?&Ht1). repeat split; try congruence; try lia.
  intros H'. specialize (Ht1 H'). subst t1. auto.
Qed.

(** The life of a task: once created it is never removed, keeps its run, operation
    and deadline, changes by task moves only, its attempt number never decreases, and
    after complete, failed or cancelled nothing about it changes any more. *)
Theorem task_life (c : SimConfig) (ops ops' : list (SimEnv * sim_op)) (id : string) (t : TaskRecord) :
  tasks (server c ops) !! id = Some t →
  ∃ t', tasks (server c (ops ++ ops')) !! id = Some t' ∧ rtc task_move t t' ∧
    T_RunID t' = T_RunID t ∧ T_Operation t' = T_Operation t ∧ T_Deadline t' = T_Deadline t ∧
    T_Attempt t <= T_Attempt t' ∧ (task_terminal (T_State t) = true → t' = t).
Proof.
  intros Ht. destruct (steps_task _ _ (server_steps c ops ops') (server_wf c ops) _ _ Ht) as (t'&Ht'&Hm).
  exists t'. split; [done|]. split; [done|]. by destruct (moves_same _ _ Hm) as (_&?&?&?&?&?).
Qed.

(** An answer that is an error and leaves the server as it was. *)
Definition refused (s : Sim) (res : Sim * SimResponse) : Prop :=
  res.1 = s ∧ ∃ code msg, res.2 = fail code msg ∧ 400 <= code.

Lemma refused_same s code msg : 400 <= code → refused s (s, fail code msg).
Proof. intros. split; [done|eauto]. Qed.

(** The lease under which the task [t] was held does not serve a request made now by this worker,
    boot and token: the task was leased again, ended or returned to the queue, the lease has run
    out, or it is another's. *)
Definition lease_over (now : time) (t t' : TaskRecord) (w b token : string) : Prop :=
  T_Attempt t ≠ T_Attempt t' ∨ holds_lease (T_State t') = false ∨ T_LeaseExpiresAt t' <= now ∨
  T_WorkerID t' ≠ w ∨ T_BootID t' ≠ b ∨ T_LeaseDigest t' ≠ sha256_hex token.

Lemma lost_lease now c ops ops' id t t' w b token :
  tasks (server c ops) !! id = Some t → holds_lease (T_State t) = true →
  tasks (server c (ops ++ ops')) !! id = Some t' → lease_over now t t' w b token →
  validLeaseLocked now id w b (T_AttemptID t) token (server c (ops ++ ops')) = None.
Proof.
  intros Ht Hh Ht' Hlost. destruct (validLeaseLocked _ _ _ _ _ _ _) as [u|] eqn:Hv; [|done]. exfalso.
  apply validLease_spec in Hv as (Hu&Hhu&Hw&Hb&Ha&He&Hd). rewrite Ht' in Hu. injection Hu as <-.
  destruct Hlost as [Hne|[Hh'|[Hexp|[?|[?|?]]]]]; [|congruence|lia|congruence..]. apply Hne.
  destruct (wf_tasks _ (server_wf c ops) _ _ Ht) as [Hid (_&_&H0&_&Hl)].
  destruct (wf_tasks _ (server_wf c (ops ++ ops')) _ _ Ht') as [Hid' (_&_&H0'&_&Hl')].
  destruct (Hl Hh) as [E _]. destruct (Hl' Hhu) as [E' _]. rewrite E, E', Hid, Hid' in Ha.
  symmetry. by eapply attempt_id_inj.
Qed.

(** C9: fencing: once the lease of an attempt is over for who asks - the task was leased again,
    ended or returned to the queue, the lease has run out by the server's clock, or the request
    names another worker or boot or carries another token - every renewal, result and completion
    that names this attempt is refused with an error and the server's state is unchanged; a
    request for the credential is refused, and all it leaves is the entry of the access log that
    says it was denied. *)
Theorem stale_attempt_is_fenced (c : SimConfig) (ops ops' : list (SimEnv * sim_op)) (id : string) (t t' : TaskRecord) :
  tasks (server c ops) !! id = Some t → holds_lease (T_State t) = true →
  tasks (server c (ops ++ ops')) !! id = Some t' →
  let s := server c (ops ++ ops') in
  ∀ env,
    (∀ q, Renew_AttemptID q = T_AttemptID t →
       lease_over (sim_now env 0) t t' (Renew_WorkerID q) (Renew_BootID q) (Renew_LeaseToken q) →
       refused s (renew env (Ok q) id s)) ∧
    (∀ q, Chunk_AttemptID q = T_AttemptID t →
       lease_over (sim_now env 0) t t' (Chunk_WorkerID q) (Chunk_BootID q) (Chunk_LeaseToken q) →
       refused s (sim_result env (Ok q) id s)) ∧
    (∀ q, Complete_AttemptID q = T_AttemptID t →
       lease_over (sim_now env 0) t t' (Complete_WorkerID q) (Complete_BootID q) (Complete_LeaseToken q) →
       refused s (complete json_tokens decode_line decode_any env (Ok q) id s)) ∧
    (∀ q, Credential_AttemptID q = T_AttemptID t →
       lease_over (sim_now env 0) t t' (Credential_WorkerID q) (Credential_BootID q) (Credential_LeaseToken q) →
       credentialForTask env (Ok q) id s =
         (log_credential s (mkCredentialAccess id (T_AttemptID t) (Credential_WorkerID q) "denied" "lease_not_owned"),
          bad_lease)).
Proof.
  intros Ht Hh Ht' s env. split_and!; intros q Hq Hlost.
  - unfold renew. destruct (negb _); [by apply refused_same|].
    rewrite Hq, (lost_lease _ c ops ops' id t t') by done. by apply refused_same.
  - unfold sim_result. destruct (negb _ || _ || _ || _); [by apply refused_same|].
    destruct (negb _); [by apply refused_same|].
    rewrite Hq, (lost_lease _ c ops ops' id t t') by done. by apply refused_same.
  - unfold ControlSim.complete. rewrite Hq, (lost_lease _ c ops ops' id t t') by done. by apply refused_same.
  - unfold credentialForTask. by rewrite Hq, (lost_lease _ c ops ops' id t t').
Qed.

(** C12: capacity: in every state a worker holds at most as many leases as it registered
    for, between 1 and 32, and a pool never holds more than the configured number;
    every lease is held by a registered worker of the task's pool that is capable of
    the operation, and never extends beyond the deadline of the task. *)
Theorem leases_within_capacity (c : SimConfig) (ops : list (SimEnv * sim_op)) :
  let s := server c ops in
  (∀ id w, workers s !! id = Some w →
     workerLeaseCountLocked id s <= Worker_MaxConcurrency w ∧ 1 <= Worker_MaxConcurrency w <= 32) ∧
  (∀ pool, poolLeaseCountLocked pool s <= Config_PoolMaxLeases (config s)) ∧
  (∀ id t, tasks s !! id = Some t → holds_lease (T_State t) = true →
     T_LeaseExpiresAt t <= T_Deadline t ∧
     ∃ w, workers s !! T_WorkerID t = Some w ∧ Worker_BootID w = T_BootID t ∧
       Worker_WorkerPool w = T_WorkerPool t ∧ T_Operation t ∈ Worker_Capabilities w).
Proof.
  intros s. destruct (server_ok c ops) as [Hwf _ _ [Hw Hp]]. split; [|split; [done|]].
  - intros id w Hl. pose proof (wf_workers _ Hwf _ _ Hl) as [Hid [_ Hmax]]. split; [|done]. rewrite <-Hid. by eapply Hw.
  - intros id t Ht Hh. destruct (wf_tasks _ Hwf _ _ Ht) as [_ (_&_&_&_&Hl)]. by destruct (Hl Hh) as (_&?&?).
Qed.

(** at most one delivery to the inventory is recorded per task, over all its
    attempts, workers and retries, and only for a task that ended complete or failed;
    that task never changes again. *)
Theorem delivered_at_most_once (c : SimConfig) (ops : list (SimEnv * sim_op)) :
  NoDup (D_TaskID <$> deliveries (server c ops)) ∧
  ∀ d, d ∈ deliveries (server c ops) → ∃ t, tasks (server c ops) !! D_TaskID d = Some t ∧
    (T_State t = complete_ ∨ T_State t = failed_) ∧
    ∀ ops', tasks (server c (ops ++ ops')) !! D_TaskID d = Some t.
Proof.
  destruct (server_ok c ops) as [Hwf _ [Hnd Hd] _]. split; [done|]. intros d Hin. destruct (Hd d Hin) as (t&Ht&Hst).
  exists t. split; [done|]. split; [done|]. intros ops'.
  destruct (steps_task _ _ (server_steps c ops ops') Hwf _ _ Ht) as (t'&Ht'&Hm).
  apply moves_same in Hm as (_&_&_&_&_&Hterm). rewrite Hterm in Ht'; [done|]. by destruct Hst as [->| ->].
Qed.

(** The state of a run says what its tasks do: it is complete, failed or cancelled
    exactly when every task of the run is, and while it is being cancelled each task has
    ended or its holder has been told to stop. *)
Theorem run_state_is_exact (c : SimConfig) (ops : list (SimEnv * sim_op)) :
  let s := server c ops in
  ∀ id r, runs s !! id = Some r →
    (∀ tid, tid ∈ Run_TaskIDs r ↔ ∃ t, tasks s !! tid = Some t ∧ T_RunID t = id) ∧
    (run_terminal (Run_State r) = true ↔
       ∀ tid t, tid ∈ Run_TaskIDs r → tasks s !! tid = Some t → task_terminal (T_State t) = true) ∧
    (Run_State r = run_cancelling →
       ∀ tid t, tid ∈ Run_TaskIDs r → tasks s !! tid = Some t →
         task_terminal (T_State t) = true ∨ holds_lease (T_State t) = true ∧ T_CancelRequested t = true).
Proof.
  intros s id r Hr. destruct (server_ok c ops) as [Hwf Hruns _ _]. destruct (Hruns id r Hr) as [Hterm Hcan].
  assert (∀ tid t, tasks s !! tid = Some t → T_ID t = tid) as Hk by (intros; by apply (wf_tasks _ Hwf)).
  assert (∀ tid t, tasks s !! tid = Some t → T_RunID t = id ↔ tid ∈ Run_TaskIDs r) as Hiff.
  { intros tid t Ht. pose proof (Hk _ _ Ht) as <-. by apply (run_task_iff _ _ _ _ Hwf Hr). }
  split; [|split].
  - intros tid. split.
    + intros Hin. destruct (wf_runs _ Hwf _ _ Hr) as [_ (_&_&Hts)]. destruct (Hts tid Hin) as (t&Ht&_).
      exists t. split; [done|]. by apply (Hiff tid t).
    + intros (t&Ht&Hrun). by apply (Hiff tid t).
  - rewrite Hterm. split.
    + intros H tid t Hin Ht. apply (H t); [by rewrite (Hk _ _ Ht)|by apply (Hiff tid t)].
    + intros H t Ht Hrun. apply (H (T_ID t) t); [by apply (Hiff (T_ID t) t)|done].
  - intros Hc tid t Hin Ht. apply (Hcan Hc t); [by rewrite (Hk _ _ Ht)|by apply (Hiff tid t)].
Qed.

(** What cancellation leaves of a task that had not ended. *)
Definition cancelled_or_stopping (a : Z) (t : TaskRecord) : Prop :=
  T_Attempt t = a ∧ (T_State t = cancelled_ ∨ holds_lease (T_State t) = true ∧ T_CancelRequested t = true).

Lemma cancelled_or_stopping_move a t t' : task_move t t' → cancelled_or_stopping a t → cancelled_or_stopping a t'.
Proof.
  intros Hm [Ha Hst]. destruct Hm as [w b d e ch Hr He|t' Hw|t' Hrel|].
  - destruct Hst as [Hst|[Hst _]]; rewrite Hr in Hst; done.
  - pose proof (work_move_same _ _ Hw) as (_&_&_&_&_&_&_&_&_&_&Hh&_&_&Hc).
    destruct Hst as [Hst|[_ Hst]]; [by rewrite Hst in Hh|congruence].
  - pose proof (release_move_same _ _ Hrel) as (_&_&_&_&_&Ea&Hh&_&_&Hc).
    destruct Hst as [Hst|[_ Hst]]; [by rewrite Hst in Hh|]. split; [congruence|left; auto].
  - pose proof (cancel_mark_same t) as (_&_&_&_&_&Ea&_&_&_&_&Eh&Hhold&Hterm&_). split; [congruence|].
    destruct Hst as [Hst|[Hh Hst]]; [left; rewrite Hterm by (by rewrite Hst); done|]. right. destruct (Hhold Hh). split; congruence.
Qed.

(** Cancelling a run is final: after [CancelRun] has answered true, no task of the
    run is ever leased again; a task that had not ended is cancelled, or its attempt is
    told to stop and can only end cancelled, and ended tasks are untouched - whatever
    happens afterwards. *)
Theorem cancellation_is_final (c : SimConfig) (ops ops' : list (SimEnv * sim_op)) (env : SimEnv) (rid : string) (s : Sim) :
  CancelRun env rid (server c ops) = Some (s, true) →
  ∀ id t, tasks (server c ops) !! id = Some t → T_RunID t = rid →
  ∃ t', tasks (server c (ops ++ [(env, op_cancel rid)] ++ ops')) !! id = Some t' ∧
    if task_terminal (T_State t) then t' = t else cancelled_or_stopping (T_Attempt t) t'.
Proof.
  intros Hc id t Ht Hrun. destruct (CancelRun_steps env rid _ (server_wf c ops)) as (s1&b&Hc'&_&Htrue&_).
  rewrite Hc in Hc'. injection Hc' as <- <-. destruct (Htrue eq_refl) as (_&_&_&_&_&_&_&_&Hts).
  assert (server c (ops ++ [(env, op_cancel rid)]) = s) as Hs.
  { unfold sim_run in *. rewrite foldl_app. simpl. by rewrite Hc. }
  rewrite app_assoc. pose proof (server_steps c (ops ++ [(env, op_cancel rid)]) ops') as Hsteps. 
  assert (tasks (server c (ops ++ [(env, op_cancel rid)])) !! id = Some (cancel_mark t)) as Ht1.
  { rewrite Hs, Hts. apply cancel_run_lookup. exists t. by rewrite decide_True. }
  destruct (steps_task _ _ Hsteps (server_wf _ _) _ _ Ht1) as (t'&Ht'&Hm). exists t'. split; [done|].
  pose proof (cancel_mark_same t) as (_&_&_&_&_&Ea&_&_&_&_&Eh&Hhold&Hterm&Hready).
  destruct (task_terminal (T_State t)) eqn:Et.
  - rewrite (Hterm eq_refl) in Hm. by apply (moves_same _ _ Hm).
  - assert (cancelled_or_stopping (T_Attempt t) (cancel_mark t)) as H0.
    { split; [done|]. destruct (task_states_cover (T_State t)) as [Hst|[Hh|?]]; [left; auto| |congruence].
      right. destruct (Hhold Hh). split; congruence. }
    clear -Hm H0. revert H0. induction Hm; eauto using cancelled_or_stopping_move.
Qed.
End theorems.
