(* ===== verification/SimResults.v ===== *)
(** * What a new attempt finds at the control plane

    Nothing of its own: no result is stored under an attempt that has not begun, and no
    task that waits for a worker has been asked to stop.

    A result is stored under its task and attempt.  What is stored was sent under a lease
    that was valid then, so nothing is found under a number the task has not reached: the
    first result a new attempt sends is stored, not taken for a duplicate. *)

From S2P Require Import Prelude Bytes Sha256 Time Model Netip Contract Partition Servicenow ControlSim SimProtocol SimRefinement.

(** ** Tasks that are ready *)

Definition ready_open (s : Sim) : Prop := ∀ id t, tasks s !! id = Some t → T_State t = ready → T_CancelRequested t = false.

Lemma step_new_task s s' : protocol_step s s' → ∀ id t', tasks s' !! id = Some t' → tasks s !! id = None →
  T_CancelRequested t' = false ∨ T_State t' ≠ ready.
Proof.
  assert (∀ m (t u : TaskRecord) id, m !! T_ID t = Some u → (<[T_ID t := t]> m : gmap string TaskRecord) !! id = None ∨ is_Some (m !! id)) as Hput.
  { intros m t u id Hu. destruct (decide (T_ID t = id)) as [<-|]; [right; by eexists|].
    rewrite lookup_insert_ne by done. destruct (m !! id); [right; by eexists|by left]. }
  assert (∀ m (t u : TaskRecord) id t', m !! T_ID t = Some u → (<[T_ID t := t]> m : gmap string TaskRecord) !! id = Some t' → m !! id ≠ None) as Hold.
  { intros m t u id t' Hu Ht' Hn. destruct (Hput m t u id Hu) as [?|[? ?]]; congruence. }
  intros Hstep id t' Ht' Hn. destruct Hstep as [s' Hq|w Hidw Hmax|t t2 Ht Hm Hres|t t2 r r' ds now s' Ht Hm Hr Hs Hd Hf
    |wid w leases t r dg ex Hw Ht Hst Hp Hop Hr He Hc1 Hc2|s' rid r ts Hc|rid r c Hr Hnt].
  - rewrite (quiet_tasks _ _ Hq) in Ht'. congruence.
  - simpl in Ht'. congruence.
  - pose proof (work_move_same _ _ Hm) as (Eid&_). rewrite <-Eid in Ht. by destruct (Hold _ _ _ _ _ Ht Ht').
  - pose proof (release_move_same _ _ Hm) as (Eid&_). rewrite <-Eid in Ht.
    assert (tasks s' = <[T_ID t2 := t2]> (tasks s)) as Heq.
    { clear Ht'. unfold refreshRunLocked in Hf. destruct (runs _ !! _) in Hf; [|by injection Hf as <-]. destruct (run_task_states _ _) in Hf; [|done]. by injection Hf as <-. }
    rewrite Heq in Ht'. by destruct (Hold _ _ _ _ _ Ht Ht').
  - simpl in Ht'. by destruct (Hold (tasks s) (task_with t leased (T_Attempt t + 1) (attempt_id (T_ID t) (T_Attempt t + 1))
          (Worker_ID w) (Worker_BootID w) dg ex (T_ChunkCount t) (T_CancelRequested t) (T_Error t)) _ _ _ Ht Ht').
  - rewrite (created_tasks _ _ _ _ _ Hc) in Ht'. left. assert (t' ∈ ts) as Hin.
    { clear Hc. induction ts as [|u ts IH]; simpl in Ht'; [congruence|]. destruct (decide (T_ID u = id)) as [<-|].
      - rewrite lookup_insert_eq in Ht'. injection Ht' as ->. by left.
      - rewrite lookup_insert_ne in Ht' by done. right. auto. }
    by destruct (created_task _ _ _ _ _ Hc t' Hin) as (_&_&_&?&_).
  - simpl in Ht'. unfold cancel_run_tasks in Ht'. rewrite lookup_fmap, Hn in Ht'. done.
Qed.

Lemma move_ready t t' : task_move t t' → T_State t' = ready → T_CancelRequested t' = false.
Proof.
  destruct 1 as [| ? [st ex ch Hh Hc [-> | ->] He]|? [Hh|st c e Hh Ht Hc]|]; simpl; try done.
  - intros ->. done.
  - unfold cancel_mark. destruct (T_State t) eqn:Hst; simpl; congruence.
Qed.

Lemma steps_ready s s' : rtc protocol_step s s' → sim_wf s → ready_open s → ready_open s'.
Proof.
  induction 1 as [s|s s1 s2 Hstep Hrtc IH]; intros Hwf Hr; [done|]. apply IH; [by eapply step_wf|].
  intros id t' Ht' Hst. destruct (tasks s !! id) as [t|] eqn:Ht.
  - destruct (step_task _ _ Hstep Hwf _ _ Ht) as (t1&Ht1&[-> |Hm]); simplify_eq; [by apply (Hr id)|by eapply move_ready].
  - by destruct (step_new_task _ _ Hstep _ _ Ht' Ht).
Qed.

(** ** Keys *)

(** Keys of results that attempts have sent. *)
Definition attempt_key (j n : Z) : string := resultKey (task_id j) (attempt_id (task_id j) n) 0.

Lemma attempt_key_inj j n i m chunk : 0 <= j → 0 <= n → 0 <= i → 0 <= m →
  attempt_key j n = resultKey (task_id i) (attempt_id (task_id i) m) chunk → j = i ∧ n = m.
Proof.
  intros Hj Hn Hi Hm Heq. unfold attempt_key, resultKey, NUL, char in Heq.
  assert (∀ k, free_of (byte_of 0) (task_id k)) as Hid.
  { intros k. unfold task_id. rewrite free_of_app. split; [done|by apply decimal_pad_free]. }
  assert (∀ k l, free_of (byte_of 0) (attempt_id (task_id k) l)) as Hat.
  { intros k l. unfold attempt_id. rewrite !free_of_app. split; [done|]. split; [done|]. split; [done|by apply decimal_pad_free]. }
  rewrite !string_app_cons, !string_app_nil in Heq. apply pair_text_inj in Heq as [Ht Ha]; [|done..].
  apply pair_text_inj in Ha as [Ha _]; [|done..]. apply task_id_inj in Ht as ->; [|done..].
  split; [done|]. by apply attempt_id_inj in Ha.
Qed.

(** No result under a number the task has not reached. *)
Definition results_begun (s : Sim) : Prop :=
  ∀ j n, 0 <= j → 0 <= n → (∀ t, tasks s !! task_id j = Some t → T_Attempt t < n) → results s !! attempt_key j n = None.

(** ** Which steps store results *)

(** What a step adds to the keys of the results: nothing, the key of a lease that is
    valid, or a retained result. *)
Inductive new_key (s : Sim) : string → Prop :=
| key_of_lease t n chunk : tasks s !! T_ID t = Some t → T_ID t = task_id n → 1 <= n → 0 <= T_Attempt t →
    new_key s (resultKey (T_ID t) (attempt_id (T_ID t) (T_Attempt t)) chunk)
| key_retained k : new_key s ("retention" +:+ k)%string.

Definition results_grow (s s' : Sim) : Prop := ∀ k, is_Some (results s' !! k) → is_Some (results s !! k) ∨ new_key s k.

Lemma grow_same s s' : results s' = results s → results_grow s s'.
Proof. intros Heq k. rewrite Heq. auto. Qed.

Lemma refresh_results now id s s' : refreshRunLocked now id s = Some s' → results s' = results s.
Proof. unfold refreshRunLocked. destruct (runs s !! id) as [r|]; [|by intros [= ->]]. destruct (run_task_states s r); [|done]. by intros [= <-]. Qed.

Lemma expire_all_results env ids : ∀ k s s', expire_all env k ids s = Some s' → results s' = results s.
Proof.
  induction ids as [|id ids IH]; intros k s s'; simpl; [by intros [= ->]|].
  destruct (expire_task _ _ s id) as [s1|] eqn:He; [|done]. simpl. intros ->%IH. revert He. unfold expire_task.
  destruct (tasks s !! id) as [t|]; [|by intros [= ->]]. destruct (_ && _); [|by intros [= ->]]. by intros ->%refresh_results.
Qed.

Lemma claim_results env q s : results (claim env q s).1 = results s.
Proof.
  unfold claim. destruct q as [q|]; [|done]. destruct (workers s !! _) as [w|]; [|done]. destruct (_ || _); [done|]. unfold or_panic. cbv zeta.
  destruct (expire_all _ _ _ s) as [s1|] eqn:He; [|done]. simpl. apply expire_all_results in He. rewrite <-He.
  destruct (_ || _); [done|]. destruct (claimable_ids _ _ _) as [|id l]; [done|]. simpl.
  destruct (tasks s1 !! id) as [t|]; [|done]. simpl. by destruct (runs s1 !! T_RunID t).
Qed.

Lemma create_tasks_results n : ∀ o p run pool now s, results (create_tasks n o p run pool now s).2 = results s.
Proof.
  induction n as [|n IH]; intros; simpl; [done|].
  match goal with |- context [create_tasks n ?o ?p ?r ?w ?t ?s1] => pose proof (IH o p r w t s1) as H1; destruct (create_tasks n o p r w t s1) end.
  exact H1.
Qed.

Lemma createRun_results now trigger pool n s : results (createRunLocked now trigger pool n s).1 = results s.
Proof.
  unfold createRunLocked. destruct (_ || _); [done|].
  match goal with |- context [create_tasks ?n ?o ?p ?r ?w ?t ?s1] => pose proof (create_tasks_results n o p r w t s1) as H1; destruct (create_tasks n o p r w t s1) end.
  exact H1.
Qed.

Lemma enqueue_results env ids : ∀ k acc, results (enqueue_loop env k ids acc).1 = results acc.1.
Proof.
  induction ids as [|id ids IH]; intros k [s l]; simpl; [done|]. rewrite IH. destruct (sim_schedules s !! id) as [x|]; [|done]. destruct (_ || _); [done|].
  destruct (remote_operation _); [done|].
  match goal with |- context [createRunLocked ?a ?b ?c ?d ?e] => pose proof (createRun_results a b c d e) as H1; destruct (createRunLocked a b c d e) end. exact H1.
Qed.

Lemma cancel_tasks_results ids : ∀ s b s', cancel_tasks ids s = Some (b, s') → results s' = results s.
Proof.
  induction ids as [|id ids IH]; intros s b s'; simpl; [by intros [= _ ->]|]. destruct (tasks s !! id) as [t|]; [|done]. simpl.
  match goal with |- context [cancel_tasks ids ?s1] => destruct (cancel_tasks ids s1) as [[b' s2]|] eqn:Hc; [|done] end.
  simpl. intros [= _ <-]. apply IH in Hc as ->. by destruct (T_State t).
Qed.

Lemma cleanup_grow now limit ids : ∀ n s, results_grow s (cleanup_loop now limit ids n s).1.
Proof.
  assert (∀ s id r, results s !! id = Some r → ∀ s', results_grow (set_results s (<[id := erase_payload r]> (results s))) s' → results_grow s s') as Hput.
  { intros s id r Hr s' Hg k Hk. destruct (Hg k Hk) as [Hs|Hn].
    - left. simpl in Hs. destruct (decide (id = k)) as [<-|]; [by eexists|by rewrite lookup_insert_ne in Hs].
    - right. destruct Hn; [by eapply key_of_lease|constructor]. }
  induction ids as [|id ids IH]; intros n s; simpl; [by apply grow_same|]. destruct (results s !! id) as [r|] eqn:Hr; [|apply IH].
  destruct (cleanable _ _ _); [|apply IH]. apply (Hput _ _ _ Hr). destruct (_ =? _); [by apply grow_same|apply IH].
Qed.

Lemma seed_grow n : ∀ index at_ s, results_grow s (seed_results n index at_ s).
Proof.
  induction n as [|n IH]; intros index at_ s; simpl; [by apply grow_same|]. intros k Hk. destruct (IH _ _ _ k Hk) as [Hs|Hn].
  - simpl in Hs. match type of Hs with context [<[?i := _]> _] => destruct (decide (i = k)) as [<-|] end; [right; apply key_retained|].
    left. by rewrite lookup_insert_ne in Hs.
  - right. destruct Hn; [by eapply key_of_lease|constructor].
Qed.

(** A result already there is rewritten in place. *)
Lemma grow_insert s s' k r : results s !! k = Some r → (∃ r', results s' = <[k := r']> (results s)) → results_grow s s'.
Proof.
  intros Hr [r' Heq] k' Hk'. left. rewrite Heq in Hk'. destruct (decide (k = k')) as [<-|]; [by eexists|by rewrite lookup_insert_ne in Hk'].
Qed.

Lemma result_grow env q id s : sim_wf s → results_grow s (sim_result env q id s).1.
Proof.
  intros Hwf. unfold sim_result. destruct q as [q|]; [|by apply grow_same]. destruct (_ || _) eqn:Hg; [by apply grow_same|].
  destruct (negb (String.eqb _ _)); [by apply grow_same|]. destruct (validLeaseLocked _ _ _ _ _ _ _) as [t|] eqn:Hv; [|by apply grow_same].
  destruct (T_CancelRequested t); [by apply grow_same|]. destruct (results s !! _) eqn:Hr.
  { match goal with |- context [if ?b then _ else _] => destruct b end; by apply grow_same. }
  apply validLease_spec in Hv as (Ht&Hh&_&_&Ha&_). destruct (wf_tasks _ Hwf _ _ Ht) as [Hid ((n&Hn&Hn')&_&Hat&_&Hl)].
  destruct (Hl Hh) as (Haid&_). intros k Hk. simpl in Hk. match type of Hk with context [<[?i := _]> _] => destruct (decide (i = k)) as [<-|] end.
  - right. rewrite <-Hid, <-Ha, Haid. apply (key_of_lease s t n); [by rewrite Hid|done|lia|done].
  - left. by rewrite lookup_insert_ne in Hk.
Qed.

Lemma failIRE_results env t r key res s s' : failIRELocked env t r key res s = Some s' →
  ∃ r', results s' = <[key := r']> (results s).
Proof.
  unfold failIRELocked. destruct (refreshRunLocked _ _ _) as [s1|] eqn:Hf; [|done]. simpl. intros [= <-].
  apply refresh_results in Hf. eexists. simpl. by rewrite Hf.
Qed.

Section steps.
Variable json_tokens : string → list json_token * bool.
Variable decode_line : string → go ObservationEnvelope.
Variable decode_any : string → go ObservationEnvelope.
Abbreviation server := (sim_run json_tokens decode_line decode_any).
Abbreviation complete := (complete json_tokens decode_line decode_any).

Lemma complete_answer_state id rid s x : complete_answer id rid s = Some x → x.1 = s.
Proof. unfold complete_answer. destruct (tasks s !! id); [|done]. simpl. destruct (runs s !! rid); [|done]. simpl. by intros [= <-]. Qed.

Lemma deliver_results env t r key res p s x : deliver env t r key res p s = Some x → ∃ r', results x.1 = <[key := r']> (results s).
Proof.
  unfold deliver. destruct (upsert_keys _ _ _ (items s)). destruct (mapM _ _); [|done]. simpl. destruct (upsert_keys _ _ _ (relations s)).
  match goal with |- context [refreshRunLocked ?a ?b ?c] => destruct (refreshRunLocked a b c) as [s1|] eqn:Hf; [|done] end. simpl.
  intros ->%complete_answer_state. apply refresh_results in Hf. eexists. simpl. by rewrite Hf.
Qed.

Lemma complete_grow env q id s : results_grow s (complete env q id s).1.
Proof.
  unfold ControlSim.complete. destruct q as [q|]; [|by apply grow_same]. destruct (validLeaseLocked _ _ _ _ _ _ _) as [t|]; [|by apply grow_same].
  destruct (negb (Complete_Success q)).
  - destruct (Complete_Failure q) as [f|]; [|by apply grow_same]. destruct (_ || _); [by apply grow_same|]. unfold or_panic.
    match goal with |- context [refreshRunLocked ?a ?b ?c] => destruct (refreshRunLocked a b c) as [s1|] eqn:Hf; [|by apply grow_same] end. simpl.
    destruct (complete_answer _ _ s1) as [x|] eqn:Hx; [|by apply grow_same]. apply complete_answer_state in Hx. apply refresh_results in Hf.
    apply grow_same. simpl. rewrite Hx, Hf. by destruct (_ || _).
  - destruct (_ || _); [by apply grow_same|]. destruct (T_CancelRequested t); [by apply grow_same|]. unfold or_panic.
    destruct (runs s !! T_RunID t) as [r|]; [|by apply grow_same]. simpl. destruct (results s !! _) as [res|] eqn:Hres; [|by apply grow_same]. simpl.
    destruct (no_data decode_any t (R_Payload res)) as [e|].
    + match goal with |- context [refreshRunLocked ?a ?b ?c] => destruct (refreshRunLocked a b c) as [s1|] eqn:Hf; [|by apply grow_same] end. simpl.
      match goal with |- context [complete_answer ?a ?b ?c] => destruct (complete_answer a b c) as [x|] eqn:Hx; [|by apply grow_same] end.
      apply complete_answer_state in Hx. apply refresh_results in Hf. simpl. rewrite Hx. eapply (grow_insert _ _ _ _ Hres). eexists. simpl. by rewrite Hf.
    + destruct (DecodeJSONLines _ _ _) as [es|].
      * destruct (mapPayload _ es) as [p|].
        -- destruct (deliver _ _ _ _ _ _ _) as [x|] eqn:Hx; [|by apply grow_same]. by eapply (grow_insert _ _ _ _ Hres), deliver_results.
        -- destruct (failIRELocked _ _ _ _ _ _) as [x|] eqn:Hx; [|by apply grow_same]. by eapply (grow_insert _ _ _ _ Hres), failIRE_results.
      * destruct (failIRELocked _ _ _ _ _ _) as [x|] eqn:Hx; [|by apply grow_same]. by eapply (grow_insert _ _ _ _ Hres), failIRE_results.
Qed.

Lemma serveHTTP_grow env post auth route s : sim_wf s → results_grow s (serveHTTP json_tokens decode_line decode_any env post auth route s).1.
Proof.
  intros Hwf. unfold serveHTTP. destruct (negb post); [by apply grow_same|]. destruct (_ || _); [by apply grow_same|]. destruct route.
  - apply grow_same. unfold register. destruct q as [q|]; [|done]. by destruct (_ || _).
  - apply grow_same. unfold sim_heartbeat. destruct q as [q|]; [|done]. destruct (workers s !! _); [|done]. by destruct (negb _).
  - apply grow_same, claim_results.
  - by apply result_grow.
  - apply complete_grow.
  - apply grow_same. unfold renew. destruct q as [q|]; [|done]. destruct (negb _); [done|]. destruct (validLeaseLocked _ _ _ _ _ _ _) as [t|]; [|done].
    by destruct (T_CancelRequested t).
  - apply grow_same. unfold credentialForTask. destruct q as [q|]; [|done]. destruct (validLeaseLocked _ _ _ _ _ _ _) as [t|]; [|done]. by destruct (_ || _).
  - by apply grow_same.
Qed.

Lemma sim_step_grow env op s : sim_wf s → results_grow s (sim_step json_tokens decode_line decode_any env op s).
Proof.
  intros Hwf. destruct op; simpl.
  - by apply serveHTTP_grow.
  - apply grow_same, createRun_results.
  - apply grow_same. unfold RunNowSSH, RunNowRemote. by destruct (_ || _).
  - apply grow_same. unfold RunNowWinRM, RunNowRemote. by destruct (_ || _).
  - by apply grow_same.
  - apply grow_same. unfold CancelRun. destruct (runs s !! runID) as [r|]; [|done]. destruct (run_terminal _); [done|].
    destruct (cancel_tasks _ s) as [[b s1]|] eqn:Hc; [by apply cancel_tasks_results in Hc|done].
  - by apply grow_same.
  - apply grow_same, (enqueue_results env (keys env) 0 (s, [])).
  - unfold CleanupBatch. destruct (_ <? _); [by apply grow_same|apply cleanup_grow].
  - unfold SeedProcessedResults. apply seed_grow.
Qed.

Lemma step_begun env op s : sim_wf s → results_begun s → results_begun (sim_step json_tokens decode_line decode_any env op s).
Proof.
  intros Hwf Hb j n Hj Hn Hlt. apply eq_None_not_Some. intros Hk. apply (sim_step_grow env op s Hwf) in Hk as [Hk|Hk].
  - rewrite Hb in Hk; [by destruct Hk|done|done|]. intros t Ht.
    destruct (steps_task _ _ (sim_step_steps json_tokens decode_line decode_any env op s Hwf) Hwf _ _ Ht) as (t'&Ht'&Hm).
    apply moves_same in Hm as (_&_&_&_&?&_). specialize (Hlt t' Ht'). lia.
  - inversion Hk as [t i chunk Ht Hid Hi Hat Heq|]. rewrite Hid in Heq. symmetry in Heq. apply attempt_key_inj in Heq as [-> ->]; [|lia..].
    destruct (steps_task _ _ (sim_step_steps json_tokens decode_line decode_any env op s Hwf) Hwf _ _ Ht) as (t'&Ht'&Hm).
    apply moves_same in Hm as (_&_&_&_&?&_). rewrite Hid in Ht'. specialize (Hlt t' Ht'). lia.
Qed.

Lemma server_begun c ops : results_begun (server c ops).
Proof.
  induction ops as [|[env op] ops IH] using rev_ind; [by intros j n|].
  unfold sim_run. rewrite foldl_app. simpl. apply step_begun; [apply server_wf|exact IH].
Qed.

Lemma server_ready c ops : ready_open (server c ops).
Proof. eapply steps_ready; [apply fold_steps|..]; [apply NewSim_ok..|by intros id t]. Qed.
End steps.
