(* ===== verification/SimContract.v ===== *)
(** * The control plane as the worker sees it

    What a worker may rely on, request by request: the lease a claim hands out, results
    that may be sent again, renewal, retention; and a concrete history that exercises
    the theorems of [SimRefinement]. *)

From S2P Require Import Prelude Bytes Sha256 Time Model Netip Contract Partition Servicenow ControlSim SimProtocol SimRefinement.

Section contract.
Variable json_tokens : string → list json_token * bool.
Variable decode_line : string → go ObservationEnvelope.
Variable decode_any : string → go ObservationEnvelope.
Abbreviation server := (sim_run json_tokens decode_line decode_any).

(** ** Claims *)

Lemma claimable_least pool caps s id l k t :
  claimable_ids pool caps s = id :: l → tasks s !! k = Some t → claimable pool caps t = true → str_lt k id = false.
Proof.
  intros Hids Ht Hc. pose proof (sort_by_sorted str_lt (omap (λ kt, if claimable pool caps kt.2 then Some kt.1 else None)
    (map_to_list (tasks s)))) as Hs. fold (claimable_ids pool caps s) in Hs. rewrite Hids in Hs.
  assert (k ∈ id :: l) as Hin.
  { rewrite <-Hids. unfold claimable_ids. rewrite sort_by_perm. apply list_elem_of_omap. exists (k, t).
    split; [by apply elem_of_map_to_list|]. simpl. by rewrite Hc. }
  apply elem_of_cons in Hin as [->|Hin]; [apply str_lt_irrefl|].
  apply StronglySorted_inv in Hs as [_ Hall]. rewrite Forall_forall in Hall. by apply Hall.
Qed.

(** A claim that hands out a task: expired leases are taken back, then the first
    claimable task is leased. *)
Lemma claim_granted (env : SimEnv) (q : ClaimRequest) (s0 s : Sim) (k : Task) :
  sim_wf s0 → claim env (Ok q) s0 = (s, Answer 200 (claim_body (Some k))) →
  ∃ s2 w t r leases l, rtc protocol_step s0 s2 ∧ sim_wf s2 ∧ workers s0 !! Claim_WorkerID q = Some w ∧ Worker_BootID w = Claim_BootID q ∧
    Worker_ID w = Claim_WorkerID q ∧
    claimable_ids (Worker_WorkerPool w) (Claim_Capabilities q) s2 = T_ID t :: l ∧ tasks s2 !! T_ID t = Some t ∧ T_State t = ready ∧
    T_WorkerPool t = Worker_WorkerPool w ∧ T_Operation t ∈ Claim_Capabilities q ∧ runs s2 !! T_RunID t = Some r ∧
    (s, Answer 200 (claim_body (Some k))) = lease_task env (sim_now env 0) (Claim_WorkerID q) w leases t r s2.
Proof.
  intros Hwf. unfold claim. destruct (workers s0 !! Claim_WorkerID q) as [w|] eqn:Hw; [|done].
  match goal with |- context [if ?b then (s0, fail 403 _) else _] => destruct b eqn:Hg; [done|] end.
  apply orb_false_iff in Hg as [Hg _]. apply orb_false_iff in Hg as [Hg _].
  apply orb_false_iff in Hg as [Hboot%negb_false_iff%String.eqb_eq _].
  destruct (expire_all_steps env (keys env) 0 s0 Hwf) as (s1&Hex&Hs1&Hw1&Hc1). cbv zeta. rewrite Hex. simpl.
  pose proof (steps_wf _ _ Hs1 Hwf) as Hwf1. pose proof Hw as Hw0. rewrite <-Hw1 in Hw. pose proof (wf_workers _ Hwf1 _ _ Hw) as [Hwid _].
  set (w1 := worker_with w _ _). set (s2 := set_workers s1 (<[Claim_WorkerID q:=w1]> (workers s1))).
  assert (sim_wf s2) as Hwf2 by by apply (set_workers_wf _ _ w).
  match goal with |- context [if ?b then Some _ else _] => destruct b; [done|] end.
  destruct (claimable_ids (Worker_WorkerPool w) (Claim_Capabilities q) s2) as [|id l] eqn:Hids; [done|].
  destruct (claimable_ids_head _ _ _ _ _ Hwf2 Hids) as (t&Ht&Hid&Hst&Hp&Hop).
  change (tasks s1 !! id = Some t) in Ht. rewrite Ht. simpl. destruct (runs s1 !! T_RunID t) as [r|] eqn:Hr; [|done]. simpl. intros Heq. subst id.
  exists s2, w, t, r, (workerLeaseCountLocked (Worker_ID w) s1), l. split.
  { etrans; [exact Hs1|]. apply quiet_step. by apply (quiet_set_worker s1 (Claim_WorkerID q) w). }
  done.
Qed.

(** The lease a claim hands out: the task is one that was ready in the worker's pool
    with an operation the worker announced, and no such task has a smaller identifier;
    its attempt is new, the lease runs for the configured time but not past the
    deadline, only the digest of the token is kept, and the token is accepted until the
    lease expires. *)
Theorem claim_hands_out_valid_lease (c : SimConfig) (ops : list (SimEnv * sim_op)) (env : SimEnv) (q : ClaimRequest)
    (s : Sim) (k : Task) :
  claim env (Ok q) (server c ops) = (s, Answer 200 (claim_body (Some k))) →
  ∃ w t, workers s !! Claim_WorkerID q = Some w ∧ Worker_BootID w = Claim_BootID q ∧
    tasks s !! Task_TaskID k = Some t ∧ T_State t = leased ∧ T_WorkerPool t = Worker_WorkerPool w ∧
    Task_Operation k ∈ Claim_Capabilities q ∧ Task_RunID k = T_RunID t ∧
    Task_AttemptID k = attempt_id (Task_TaskID k) (T_Attempt t) ∧ 1 <= T_Attempt t ∧
    Task_LeaseExpiresAt k = min_time (Add (sim_now env 0) (Config_LeaseDuration (config s))) (Task_Deadline k) ∧
    T_LeaseDigest t = sha256_hex (Task_LeaseToken k) ∧
    (∀ now, now < Task_LeaseExpiresAt k →
       validLeaseLocked now (Task_TaskID k) (Claim_WorkerID q) (Claim_BootID q) (Task_AttemptID k) (Task_LeaseToken k) s = Some t) ∧
    (∀ id u, tasks s !! id = Some u → T_State u = ready → T_WorkerPool u = Worker_WorkerPool w →
       T_Operation u ∈ Claim_Capabilities q → str_lt id (Task_TaskID k) = false).
Proof.
  intros Hcl. destruct (claim_granted _ _ _ _ _ (server_wf json_tokens decode_line decode_any c ops) Hcl)
    as (s2&w&t&r&leases&l&_&Hwf2&_&Hboot&Hwid&Hids&Ht&Hst&Hp&Hop&_&Hlease).
  destruct (wf_tasks _ Hwf2 _ _ Ht) as [_ (_&_&H0&_)]. injection Hlease as -> ->. simpl.
  eexists _, _. split; [apply lookup_insert_eq|]. split; [done|]. split; [apply lookup_insert_eq|]. simpl.
  do 2 (split; [done|]). split; [done|]. split; [done|]. split; [done|]. split; [lia|]. split; [done|]. split; [done|].
  split.
  - intros now Hnow. apply validLease_spec. cbn. split; [apply lookup_insert_eq|]. cbn. repeat (split; [done|]). done.
  - intros k u Hu Hur Hup Huo. apply (claimable_least _ _ s2 _ l _ u Hids).
    + simpl. destruct (decide (T_ID t = k)) as [<-|Hne]; [by rewrite lookup_insert_eq in Hu; injection Hu as <-|].
      rewrite lookup_insert_ne in Hu by done. exact Hu.
    + unfold claimable. rewrite Hup, String.eqb_refl. rewrite !bool_decide_true by done. done.
Qed.

(** ** Results *)

Lemma result_accepted env q id s s1 b :
  sim_wf s → sim_result env (Ok q) id s = (s1, Answer 201 b) →
  ∃ t t1, tasks s !! id = Some t ∧ T_ID t1 = id ∧ t1 = task_with t results_received (T_Attempt t) (T_AttemptID t) (T_WorkerID t)
      (T_BootID t) (T_LeaseDigest t) (T_LeaseExpiresAt t) 1 (T_CancelRequested t) (T_Error t) ∧
    tasks s1 !! id = Some t1 ∧ T_CancelRequested t = false ∧ T_WorkerID t = Chunk_WorkerID q ∧ T_BootID t = Chunk_BootID q ∧
    T_AttemptID t = Chunk_AttemptID q ∧ T_LeaseDigest t = sha256_hex (Chunk_LeaseToken q) ∧
    Chunk_ChunkNumber q = 0 ∧ Chunk_ChunkCount q = 1 ∧ 1 <= slen (Chunk_ObservationJSON q) <= 2 ^ 20 ∧
    Chunk_Checksum q = sha256_hex (Chunk_ObservationJSON q) ∧
    ∃ r, results s1 !! resultKey id (Chunk_AttemptID q) 0 = Some r ∧
      R_Checksum r = Chunk_Checksum q ∧ R_Payload r = Chunk_ObservationJSON q.
Proof.
  intros Hwf. unfold sim_result.
  destruct (negb (Chunk_ChunkNumber q =? 0) || _ || _ || _) eqn:Hg; [done|].
  apply orb_false_iff in Hg as [[[Hn Hc]%orb_false_iff H0%Z.eqb_neq]%orb_false_iff Hmax%Z.ltb_ge].
  apply negb_false_iff, Z.eqb_eq in Hn, Hc.
  destruct (negb (String.eqb _ _)) eqn:Hsum; [done|]. apply negb_false_iff, String.eqb_eq in Hsum.
  destruct (validLeaseLocked _ _ _ _ _ _ _) as [t|] eqn:Hv; [|done].
  apply validLease_spec in Hv as (Ht&Hh&Hw&Hb&Ha&_&Hd). destruct (wf_tasks _ Hwf _ _ Ht) as [Hid _].
  destruct (T_CancelRequested t) eqn:Hcr; [done|]. destruct (results s !! _); [by destruct (_ || _)|].
  intros [= <- _]. exists t. eexists. split; [done|]. split; [|split; [reflexivity|]]; [done|].
  split; [simpl; rewrite <-Hid, Hcr; apply lookup_insert_eq|]. repeat (split; [done|]).
  split; [unfold slen in *; lia|]. split; [done|]. rewrite <-Hn. simpl. eexists. rewrite lookup_insert_eq. done.
Qed.

(** Results may be sent again: after a result has been accepted, the same request is
    answered as a duplicate and changes nothing for as long as the lease lasts, and a
    different payload or checksum under the same attempt is refused and changes nothing. *)
Theorem result_is_idempotent (c : SimConfig) (ops : list (SimEnv * sim_op)) (env env' : SimEnv) (id : string)
    (q : ResultChunkRequest) (s1 : Sim) (b : sim_payload) (t : TaskRecord) :
  sim_result env (Ok q) id (server c ops) = (s1, Answer 201 b) →
  tasks s1 !! id = Some t → sim_now env' 0 < T_LeaseExpiresAt t →
  sim_result env' (Ok q) id s1 = (s1, Answer 200 (chunk_body (mkResultChunkResponse true true))) ∧
  ∀ q', Chunk_AttemptID q' = Chunk_AttemptID q →
    Chunk_Checksum q' ≠ Chunk_Checksum q ∨ Chunk_ObservationJSON q' ≠ Chunk_ObservationJSON q →
    refused s1 (sim_result env' (Ok q') id s1).
Proof.
  intros Hres Ht1 Hnow. destruct (result_accepted _ _ _ _ _ _ (server_wf _ _ _ c ops) Hres)
    as (t0&t1&_&_&E1&Ht&Hcr&Hw&Hb&Ha&Hd&Hn&Hc&Hlen&Hsum&r&Hr&Hrs&Hrp).
  assert (t = t1) as -> by congruence. subst t1. clear Ht1. split.
  - unfold sim_result. rewrite Hn, Hc, Hsum, String.eqb_refl. simpl.
    rewrite (proj2 (Z.eqb_neq _ _)) by lia. rewrite (proj2 (Z.ltb_ge _ _)) by lia. simpl.
    match goal with |- context [validLeaseLocked ?a ?b ?c ?d ?e ?f ?g] =>
      destruct (validLeaseLocked a b c d e f g) as [u|] eqn:Hv end.
    + apply validLease_spec in Hv as (Hu&_). rewrite Ht in Hu. injection Hu as <-. simpl. rewrite Hcr, Hr, Hrs, Hrp, Hsum.
      by rewrite !String.eqb_refl.
    + exfalso. apply eq_None_not_Some in Hv. apply Hv. eexists. apply validLease_spec. split; [exact Ht|]. done.
  - intros q' Ha' Hdiff. unfold sim_result.
    destruct (negb (Chunk_ChunkNumber q' =? 0) || _ || _ || _) eqn:Hg; [by apply refused_same|].
    apply orb_false_iff in Hg as [[[Hn'%negb_false_iff%Z.eqb_eq _]%orb_false_iff _]%orb_false_iff _].
    destruct (negb (String.eqb _ _)); [by apply refused_same|].
    destruct (validLeaseLocked _ _ _ _ _ _ _) as [u|]; [|by apply refused_same].
    destruct (T_CancelRequested u); [by apply refused_same|].
    rewrite Hn', Ha', Hr, Hrs, Hrp.
    destruct (String.eqb_spec (Chunk_Checksum q) (Chunk_Checksum q')), (String.eqb_spec (Chunk_ObservationJSON q) (Chunk_ObservationJSON q'));
      simpl; try by apply refused_same. destruct Hdiff; congruence.
Qed.

(** A renewal between the acceptance of a result and its completion makes the result
    unusable: the task is running again, so every successful completion is refused, and
    sending the result again is acknowledged as a duplicate without restoring the state;
    the attempt can only be ended by a failure or by the expiry of its lease. *)
Theorem renewal_discards_accepted_result (c : SimConfig) (ops : list (SimEnv * sim_op)) (env env1 env2 : SimEnv) (id : string)
    (q : ResultChunkRequest) (qr : RenewRequest) (s1 s2 : Sim) (b : sim_payload) (e : time) :
  sim_result env (Ok q) id (server c ops) = (s1, Answer 201 b) →
  renew env1 (Ok qr) id s1 = (s2, Answer 200 (renew_body (mkRenewResponse e false))) →
  sim_now env2 0 < e →
  sim_result env2 (Ok q) id s2 = (s2, Answer 200 (chunk_body (mkResultChunkResponse true true))) ∧
  ∀ qc, Complete_Success qc = true → refused s2 (complete json_tokens decode_line decode_any env2 (Ok qc) id s2).
Proof.
  intros Hres Hren Hnow. destruct (result_accepted _ _ _ _ _ _ (server_wf _ _ _ c ops) Hres)
    as (t0&t1&_&Hid&E1&Ht&Hcr&Hw&Hb&Ha&Hd&Hn&Hc&Hlen&Hsum&r&Hr&Hrs&Hrp).
  unfold renew in Hren. destruct (negb (renewAvailable s1)); [done|].
  destruct (validLeaseLocked _ _ _ _ _ _ _) as [u|] eqn:Hv; [|done].
  apply validLease_spec in Hv as (Hu&_). rewrite Ht in Hu. injection Hu as <-.
  assert (T_CancelRequested t1 = false) as Hcr1 by by subst t1. rewrite Hcr1 in Hren. injection Hren as <- <-.
  set (e := min_time _ _) in *. set (t2 := task_with t1 running _ _ _ _ _ _ _ _ _).
  assert (tasks (put_task s1 t2) !! id = Some t2) as Ht2 by (simpl; rewrite Hid; apply lookup_insert_eq). split.
  - unfold sim_result. rewrite Hn, Hc, Hsum, String.eqb_refl. simpl.
    rewrite (proj2 (Z.eqb_neq _ _)) by lia. rewrite (proj2 (Z.ltb_ge _ _)) by lia. simpl.
    assert (validLeaseLocked (sim_now env2 0) id (Chunk_WorkerID q) (Chunk_BootID q) (Chunk_AttemptID q) (Chunk_LeaseToken q)
      (put_task s1 t2) = Some t2) as ->.
    { apply validLease_spec. split; [exact Ht2|]. by subst t1. }
    simpl. rewrite Hr, Hrs, Hrp, Hsum. by rewrite !String.eqb_refl.
  - intros qc Hs. unfold ControlSim.complete. destruct (validLeaseLocked _ _ _ _ _ _ _) as [u|] eqn:Hv2; [|by apply refused_same].
    apply validLease_spec in Hv2 as (Hu&_). rewrite Ht2 in Hu. injection Hu as <-. rewrite Hs. simpl.
    rewrite orb_true_r. by apply refused_same.
Qed.
End contract.

(** ** Retention *)

(** What one clean-up may do to one result. *)
Definition kept_or_erased (now : time) (c : SimConfig) (r r' : ResultRecord) : Prop :=
  r' = r ∨ cleanable now c r = true ∧ r' = erase_payload r.

Definition newly_erased (s s' : Sim) (k : string) : bool :=
  match results s !! k, results s' !! k with
  | Some r, Some r' => negb (R_Deleted r) && R_Deleted r'
  | _, _ => false
  end.

Definition cleaned (now : time) (s s' : Sim) : Prop :=
  config s' = config s ∧
  ∀ k, match results s !! k, results s' !! k with
       | Some r, Some r' => kept_or_erased now (config s) r r'
       | None, None => True
       | _, _ => False
       end.

Lemma cleanable_erased now c r : cleanable now c (erase_payload r) = false.
Proof. done. Qed.
Lemma cleanable_present now c r : cleanable now c r = true → R_Deleted r = false.
Proof. unfold cleanable. by destruct (R_Deleted r). Qed.

Lemma cleanup_loop_spec now limit ids : ∀ n s, NoDup ids → 0 <= n < limit →
  let res := cleanup_loop now limit ids n s in
  cleaned now s res.1 ∧ (∀ k, k ∉ ids → results res.1 !! k = results s !! k) ∧
  n <= res.2 <= limit ∧ count (newly_erased s res.1) ids = res.2 - n ∧
  (res.2 < limit → ∀ k r, k ∈ ids → results res.1 !! k = Some r → cleanable now (config s) r = false).
Proof.
  induction ids as [|id ids IH]; intros n s Hnd Hn; simpl.
  { split; [split; [done|]; intros k; destruct (results s !! k); [by left|done]|].
    split; [done|]. split; [lia|]. split; [lia|]. by intros _ k r ?%not_elem_of_nil. }
  apply NoDup_cons in Hnd as [Hni Hnd].
  destruct (results s !! id) as [r|] eqn:Hr; [destruct (cleanable now (config s) r) eqn:Hc|].
  - set (s1 := set_results s (<[id := erase_payload r]> (results s))).
    assert (∀ s', cleaned now s1 s' → results s' !! id = results s1 !! id →
      cleaned now s s' ∧ newly_erased s s' id = true ∧ ∀ k, id ≠ k → newly_erased s s' k = newly_erased s1 s' k) as Hstep.
    { intros s' [Hcfg Hk] Hid. simpl in Hid. rewrite lookup_insert_eq in Hid. split; [split; [done|]|split].
      - intros k. destruct (decide (id = k)) as [<-|Hne].
        + rewrite Hr, Hid. by right.
        + specialize (Hk k). simpl in Hk. by rewrite lookup_insert_ne in Hk.
      - unfold newly_erased. rewrite Hr, Hid. by rewrite (cleanable_present _ _ _ Hc).
      - intros k Hne. unfold newly_erased. simpl. by rewrite lookup_insert_ne. }
    assert (∀ s' ks, id ∉ ks → (∀ k, id ≠ k → newly_erased s s' k = newly_erased s1 s' k) →
      count (newly_erased s s') ks = count (newly_erased s1 s') ks) as Hcount.
    { intros s' ks Hks Heq. induction ks as [|k ks IHk]; simpl; [done|].
      rewrite elem_of_cons in Hks. rewrite Heq by naive_solver. rewrite IHk by naive_solver. done. }
    destruct (Z.eqb_spec (n + 1) limit) as [Hl|Hl]; simpl.
    + assert (cleaned now s1 s1) as H1 by (split; [done|]; intros k; destruct (results s1 !! k); [by left|done]).
      destruct (Hstep s1 H1 eq_refl) as (Hcl&He&Heq). split; [done|].
      split; [intros k Hk; rewrite elem_of_cons in Hk; rewrite lookup_insert_ne by naive_solver; done|]. split; [lia|].
      fold s1. rewrite He, (Hcount s1 ids Hni Heq). split; [|lia].
      assert (count (newly_erased s1 s1) ids = 0) as ->; [|lia]. clear. induction ids as [|k ids IH]; simpl; [done|].
      rewrite IH. unfold newly_erased. destruct (results s1 !! k) as [r0|]; [|done]. by destruct (R_Deleted r0).
    + destruct (IH (n + 1) s1 Hnd ltac:(lia)) as (Hcl&Hout&Hb&Hcnt&Hdone). fold s1.
      destruct (Hstep _ Hcl (Hout id Hni)) as (Hcl'&He&Heq). split; [done|]. split; [|split; [lia|]].
      * intros k Hk. rewrite elem_of_cons in Hk. rewrite Hout by naive_solver. simpl. rewrite lookup_insert_ne by naive_solver. done.
      * rewrite He, (Hcount _ ids Hni Heq), Hcnt. split; [lia|]. intros Hlt k r' Hk Hl'.
        apply elem_of_cons in Hk as [->|Hk]; [|by eapply Hdone]. rewrite (Hout id Hni) in Hl'. simpl in Hl'.
        rewrite lookup_insert_eq in Hl'. injection Hl' as <-. apply cleanable_erased.
  - destruct (IH n s Hnd Hn) as (Hcl&Hout&Hb&Hcnt&Hdone). split; [done|]. split; [|split; [done|]].
    + intros k Hk. rewrite elem_of_cons in Hk. apply Hout. naive_solver.
    + assert (newly_erased s (cleanup_loop now limit ids n s).1 id = false) as ->.
      { unfold newly_erased. rewrite (Hout id Hni), Hr. by destruct (R_Deleted r). }
      rewrite Hcnt. split; [lia|]. intros Hlt k r' Hk Hl'. apply elem_of_cons in Hk as [->|Hk]; [|by eapply Hdone].
      rewrite (Hout id Hni), Hr in Hl'. by injection Hl' as <-.
  - destruct (IH n s Hnd Hn) as (Hcl&Hout&Hb&Hcnt&Hdone). split; [done|]. split; [|split; [done|]].
    + intros k Hk. rewrite elem_of_cons in Hk. apply Hout. naive_solver.
    + assert (newly_erased s (cleanup_loop now limit ids n s).1 id = false) as ->.
      { unfold newly_erased. by rewrite Hr. }
      rewrite Hcnt. split; [lia|]. intros Hlt k r' Hk Hl'. apply elem_of_cons in Hk as [->|Hk]; [|by eapply Hdone].
      rewrite (Hout id Hni), Hr in Hl'. done.
Qed.

(** A clean-up erases the payload of processed results whose time to live has passed,
    and nothing else: it drops no result, keeps identifiers and checksums, erases each
    result at most once, erases no more than the limit it was given, returns how many it
    erased, and when it stops below the limit nothing is left to erase among the keys it
    went through. *)
Theorem CleanupBatch_spec (env : SimEnv) (limit : Z) (s : Sim) :
  NoDup (keys env) → 1 <= limit →
  let res := CleanupBatch env limit s in
  cleaned (sim_now env 0) s res.1 ∧
  0 <= res.2 <= limit ∧
  count (newly_erased s res.1) (keys env) = res.2 ∧
  (res.2 < limit → ∀ k r, k ∈ keys env → results res.1 !! k = Some r → cleanable (sim_now env 0) (config s) r = false).
Proof.
  intros Hnd Hlim res. unfold res, CleanupBatch. rewrite (proj2 (Z.ltb_ge _ _)) by lia.
  destruct (cleanup_loop_spec (sim_now env 0) limit (keys env) 0 s Hnd ltac:(lia)) as (?&_&?&Hc&?).
  split; [done|]. split; [done|]. split; [|done]. rewrite Hc. lia.
Qed.

(** ** A history *)

Section example.
Local Open Scope string_scope.

Definition demo_tokens : string → list json_token * bool := λ _, ([json_value], true).
Definition demo_decode : string → go ObservationEnvelope := λ _, Err "unexpected end of JSON input".

Definition demo_config : SimConfig :=
  mkSimConfig "token" Minute 0 0 0 (mkPasswordCredential "" "").
Definition demo_env (seconds : Z) : SimEnv :=
  mkSimEnv (λ _, seconds * Second)%Z (λ _, "00ff") ["task-00000003"].

Definition demo_register : RegisterRequest :=
  mkRegisterRequest ContractVersion "boot" "pool" "site" "1.0" [OperationLocalV1] "" 1 0.
Definition demo_claim : ClaimRequest :=
  mkClaimRequest ContractVersion "worker-00000001" "boot" [OperationLocalV1] 0.
Definition demo_attempt : string := "attempt-task-00000003-00000001".
Definition demo_result : ResultChunkRequest :=
  mkResultChunkRequest ContractVersion "worker-00000001" "boot" demo_attempt "00ff" 0 1 (sha256_hex "{}") "{}".
Definition demo_renew : RenewRequest :=
  mkRenewRequest ContractVersion "worker-00000001" "boot" demo_attempt "00ff".

Definition post (seconds : Z) (r : sim_route) : SimEnv * sim_op := (demo_env seconds, op_http true "Bearer token" r).

(** A worker registers, a run is created, its task is claimed. *)
Definition demo_enrolled : list (SimEnv * sim_op) :=
  [post 100 (route_register (Ok demo_register)); (demo_env 101, op_run "pool" 1)].
Definition demo_claimed : list (SimEnv * sim_op) := demo_enrolled ++ [post 102 (route_claim (Ok demo_claim))].

Abbreviation demo := (sim_run demo_tokens demo_decode demo_decode demo_config).

Example demo_lease :
  T_State <$> tasks (demo demo_claimed) !! "task-00000003" = Some leased.
Proof. vm_compute. reflexivity. Qed.
Example demo_cancelled :
  T_State <$> tasks (demo (demo_enrolled ++ [(demo_env 102, op_cancel "run-00000002")])) !! "task-00000003" = Some cancelled_.
Proof. vm_compute. reflexivity. Qed.

Definition no_task : TaskRecord := mkTaskRecord "" "" "" "" "" 0 ready 0 "" "" "" "" 0 0 0 None "" false "".
Definition demo_task (ops : list (SimEnv * sim_op)) : TaskRecord := default no_task (tasks (demo ops) !! "task-00000003").
Definition demo_later : list (SimEnv * sim_op) := [post 200 (route_claim (Ok demo_claim))].

Lemma task_life_witness :
  ∃ t', tasks (demo (demo_claimed ++ demo_later)) !! "task-00000003" = Some t' ∧
    rtc task_move (demo_task demo_claimed) t' ∧ (T_Attempt (demo_task demo_claimed) <= T_Attempt t')%Z.
Proof.
  destruct (task_life demo_tokens demo_decode demo_decode demo_config demo_claimed demo_later "task-00000003"
    (demo_task demo_claimed)) as (t'&?&?&_&_&_&?&_); [vm_compute; reflexivity|].
  exists t'. split; [assumption|split; assumption].
Defined.

(** The task leased again, the lease run out, and a holder that is not the worker *)
Lemma stale_attempt_is_fenced_witness :
  let s := demo (demo_claimed ++ demo_later) in
  (T_Attempt (demo_task demo_claimed), T_Attempt (demo_task (demo_claimed ++ demo_later))) = (1, 2)%Z ∧
  refused s (renew (demo_env 201) (Ok demo_renew) "task-00000003" s) ∧
  refused s (sim_result (demo_env 201) (Ok demo_result) "task-00000003" s) ∧
  refused (demo (demo_claimed ++ [])) (renew (demo_env 163) (Ok demo_renew) "task-00000003" (demo (demo_claimed ++ []))).
Proof.
  split; [vm_compute; reflexivity|].
  destruct (stale_attempt_is_fenced demo_tokens demo_decode demo_decode demo_config demo_claimed demo_later "task-00000003"
    (demo_task demo_claimed) (demo_task (demo_claimed ++ demo_later))) with (env := demo_env 201) as (Hr&Hs&_);
    [vm_compute; reflexivity|vm_compute; reflexivity|vm_compute; reflexivity|].
  split; [apply Hr; [vm_compute; reflexivity|left; vm_compute; discriminate]|].
  split; [apply Hs; [vm_compute; reflexivity|left; vm_compute; discriminate]|].
  apply (stale_attempt_is_fenced demo_tokens demo_decode demo_decode demo_config demo_claimed [] "task-00000003"
    (demo_task demo_claimed) (demo_task (demo_claimed ++ []))); try (vm_compute; reflexivity).
  do 2 right; left. apply Z.leb_le. vm_compute. reflexivity.
Defined.

Lemma cancellation_is_final_witness :
  ∃ t', tasks (demo (demo_claimed ++ [(demo_env 103, op_cancel "run-00000002")] ++ demo_later)) !! "task-00000003" = Some t' ∧
    cancelled_or_stopping 1 t'.
Proof.
  destruct (cancellation_is_final demo_tokens demo_decode demo_decode demo_config demo_claimed demo_later (demo_env 103)
    "run-00000002" (demo (demo_claimed ++ [(demo_env 103, op_cancel "run-00000002")]))) with (id := "task-00000003") (t := demo_task demo_claimed)
    as (t'&Ht'&Hc); [vm_compute; reflexivity|vm_compute; reflexivity|vm_compute; reflexivity|].
  exists t'. split; [exact Ht'|exact Hc].
Defined.

Definition demo_run : RunRecord :=
  default (mkRunRecord "" "" run_ready [] 0 0 0 0 0 0 "") (runs (demo demo_claimed) !! "run-00000002").
Lemma run_state_is_exact_witness :
  run_terminal (Run_State demo_run) = true ↔
    ∀ tid t, tid ∈ Run_TaskIDs demo_run → tasks (demo demo_claimed) !! tid = Some t → task_terminal (T_State t) = true.
Proof.
  apply (run_state_is_exact demo_tokens demo_decode demo_decode demo_config demo_claimed "run-00000002").
  vm_compute. reflexivity.
Defined.

Lemma leases_within_capacity_witness :
  workerLeaseCountLocked "worker-00000001" (demo demo_claimed) = 1%Z ∧ (1 <= 1)%Z.
Proof.
  split; [vm_compute; reflexivity|].
  destruct (leases_within_capacity demo_tokens demo_decode demo_decode demo_config demo_claimed) as (Hw&_).
  destruct (Hw "worker-00000001" (default (mkWorkerRecord "" "" "" "" "" [] "" 0 0 0)
    (workers (demo demo_claimed) !! "worker-00000001"))) as [_ [H _]]; [vm_compute; reflexivity|exact H].
Defined.

Definition demo_handed : Task :=
  match (claim (demo_env 102) (Ok demo_claim) (demo demo_enrolled)).2 with
  | Answer _ (claim_body (Some k)) => k
  | _ => mkTask "" "" "" "" 0 "" "" 0 "" None 0
  end.
Lemma claim_hands_out_valid_lease_witness :
  ∃ t, validLeaseLocked (103 * Second)%Z "task-00000003" "worker-00000001" "boot" demo_attempt "00ff" (demo demo_claimed) = Some t.
Proof.
  destruct (claim_hands_out_valid_lease demo_tokens demo_decode demo_decode demo_config demo_enrolled (demo_env 102)
    demo_claim (demo demo_claimed) demo_handed) as (w&t&_&_&_&_&_&_&_&_&_&_&_&Hv&_); [vm_compute; reflexivity|].
  exists t. apply Hv. vm_compute. reflexivity.
Defined.

Lemma result_is_idempotent_witness :
  let s1 := (sim_result (demo_env 103) (Ok demo_result) "task-00000003" (demo demo_claimed)).1 in
  sim_result (demo_env 104) (Ok demo_result) "task-00000003" s1 =
    (s1, Answer 200 (chunk_body (mkResultChunkResponse true true))).
Proof.
  apply (result_is_idempotent demo_tokens demo_decode demo_decode demo_config demo_claimed (demo_env 103) (demo_env 104)
    "task-00000003" demo_result _ (chunk_body (mkResultChunkResponse true false))
    (default no_task (tasks (sim_result (demo_env 103) (Ok demo_result) "task-00000003" (demo demo_claimed)).1 !! "task-00000003")));
    vm_compute; reflexivity.
Defined.

Definition demo_received : Sim := (sim_result (demo_env 103) (Ok demo_result) "task-00000003" (demo demo_claimed)).1.
Definition demo_renewed : Sim := (renew (demo_env 104) (Ok demo_renew) "task-00000003" demo_received).1.
Lemma renewal_discards_accepted_result_witness :
  refused demo_renewed (complete demo_tokens demo_decode demo_decode (demo_env 105)
    (Ok (mkCompleteRequest ContractVersion "worker-00000001" "boot" demo_attempt "00ff" true 1 None)) "task-00000003" demo_renewed).
Proof.
  destruct (renewal_discards_accepted_result demo_tokens demo_decode demo_decode demo_config demo_claimed (demo_env 103)
    (demo_env 104) (demo_env 105) "task-00000003" demo_result demo_renew demo_received demo_renewed
    (chunk_body (mkResultChunkResponse true false)) (164 * Second)%Z) as [_ Hc];
    [vm_compute; reflexivity|vm_compute; reflexivity|vm_compute; reflexivity|].
  apply Hc. reflexivity.
Defined.

Lemma CleanupBatch_spec_witness :
  NoDup (keys (demo_env 0)) ∧ (0 <= (CleanupBatch (demo_env 0) 1 (demo demo_claimed)).2 <= 1)%Z.
Proof.
  assert (NoDup (keys (demo_env 0))) as Hnd by (apply (bool_decide_unpack _); vm_compute; exact I).
  split; [exact Hnd|].
  destruct (CleanupBatch_spec (demo_env 0) 1 (demo demo_claimed) Hnd) as (_&H&_); [vm_compute; discriminate|exact H].
Defined.
End example.
