(* ===== verification/Policy.v ===== *)
(** * [internal/worker]: the deployment-owned policy of a worker

    [policy.go], [ssh_policy.go] and [winrm_policy.go]: what a worker is allowed to do,
    the target allowlists, and the digest under which it registers.  Reading the two
    files and building the SSH and TLS trust objects is left to the caller: the parsers
    work on the bytes that were read. *)

From S2P Require Import Prelude Bytes Text Strconv Sha256 Time Netip Contract.

Definition DefaultMaxTaskDuration : duration := 30 * Second.
Definition DefaultMaxConcurrency : Z := 1.
Definition MaxWorkerConcurrency : Z := 32.
Definition maxSSHAllowlistBytes : Z := 64 * 2 ^ 10.
Definition maxSSHAllowlistCIDRs : Z := 256.
Definition maxSSHTargets : Z := 1024.

Record Policy := mkPolicy {
  Policy_WorkerPool : string;
  Policy_SiteID : string;
  AllowLocal : bool;
  AllowSSHLinux : bool;
  AllowWinRMWindows : bool;
  WinRMAllowlist : list Prefix;
  WinRMTrustDigest : string;
  SSHAllowlist : list Prefix;
  SSHHostKeyDigest : string;
  MaxTaskDuration : duration;
  MaxConcurrency : Z;
  RemoteStartInterval : duration;
}.

Definition concurrency (p : Policy) : Z :=
  if MaxConcurrency p =? 0 then DefaultMaxConcurrency else MaxConcurrency p.
Definition taskDuration (p : Policy) : duration :=
  if MaxTaskDuration p =? 0 then DefaultMaxTaskDuration else MaxTaskDuration p.
Definition remoteStartInterval (p : Policy) : duration :=
  if RemoteStartInterval p =? 0 then Second else RemoteStartInterval p.

Definition digest_ok (s : string) : bool := (slen s =? sha256HexLength) && hex_decodable s.

(** The checks on one remote protocol's part of the policy; only the SSH part asks
    about the zone of an address. *)
Definition validate_remote (allowed zone_checked : bool) (allowlist : list Prefix) (digest : string)
    (size_error cidr_error digest_error data_error : string) : go unit :=
  if allowed then
    reject (llen allowlist =? 0) || (maxSSHAllowlistCIDRs <? llen allowlist) with size_error ;;
    reject existsb (λ p, negb (Is4 (prefix_Addr p)) || (zone_checked && negb (bool_decide (Zone (prefix_Addr p) = ""%string)))
                         || negb (bool_decide (p = Masked p))) allowlist with cidr_error ;;
    reject negb (digest_ok digest) with digest_error ;;
    Ok tt
  else
    reject negb (llen allowlist =? 0) || negb (bool_decide (digest = ""%string)) with data_error ;;
    Ok tt.

Definition Policy_Validate (p : Policy) : go unit :=
  reject negb (match_safe_id (Policy_WorkerPool p))
    with "worker pool must use 1-128 letters, digits, dots, underscores, or hyphens"%string ;;
  reject negb (match_safe_id (Policy_SiteID p))
    with "site ID must use 1-128 letters, digits, dots, underscores, or hyphens"%string ;;
  reject negb (AllowLocal p) && negb (AllowSSHLinux p) && negb (AllowWinRMWindows p)
    with "worker policy must explicitly allow at least one compiled-in operation"%string ;;
  try ssh := validate_remote (AllowSSHLinux p) true (SSHAllowlist p) (SSHHostKeyDigest p)
    "SSH target allowlist must contain 1-%d canonical IPv4 CIDRs" "SSH target allowlist contains a noncanonical IPv4 CIDR"
    "SSH known_hosts digest is invalid" "SSH policy data requires explicit ssh_linux.v1 enablement" ;;
  try winrm := validate_remote (AllowWinRMWindows p) false (WinRMAllowlist p) (WinRMTrustDigest p)
    "WinRM allowlist must contain 1-256 canonical IPv4 CIDRs" "WinRM allowlist contains a noncanonical IPv4 CIDR"
    "WinRM trust digest is invalid" "WinRM policy data requires explicit winrm_windows.v1 enablement" ;;
  reject (remoteStartInterval p <? 100 * Millisecond) || (Minute <? remoteStartInterval p)
    with "remote target start interval must be between 100ms and 1m"%string ;;
  reject (taskDuration p <? Second) || (10 * Minute <? taskDuration p)
    with "maximum task duration must be between 1s and 10m"%string ;;
  reject (concurrency p <? 1) || (MaxWorkerConcurrency <? concurrency p)
    with "maximum worker concurrency must be between 1 and %d"%string ;;
  Ok tt.

Definition Capabilities (p : Policy) : list string :=
  (if AllowLocal p then [OperationLocalV1] else []) ++
  (if AllowSSHLinux p then [OperationSSHLinuxV1] else []) ++
  (if AllowWinRMWindows p then [OperationWinRMWindowsV1] else []).

(** ** The digest *)

Definition canonicalPrefixStrings (prefixes : list Prefix) : list string :=
  sort_by str_lt (Prefix_String <$> prefixes).

Definition policy_fields (p : Policy) : list (string * json_value) :=
  [("remote_start_milliseconds"%string, FInt (remoteStartInterval p / Millisecond));
   ("schema_version"%string, FString ContractVersion);
   ("worker_pool"%string, FString (Policy_WorkerPool p));
   ("site_id"%string, FString (Policy_SiteID p));
   ("operations"%string, FStrings (Capabilities p));
   ("max_task_seconds"%string, FInt (taskDuration p / Second));
   ("max_concurrency"%string, FInt (concurrency p))]
  ++ list_field "ssh_allowlist" (canonicalPrefixStrings (SSHAllowlist p))
  ++ text_field "ssh_host_key_digest" (SSHHostKeyDigest p)
  ++ list_field "winrm_allowlist" (canonicalPrefixStrings (WinRMAllowlist p))
  ++ text_field "winrm_trust_digest" (WinRMTrustDigest p).

Definition policy_json (p : Policy) : string := json_object (policy_fields p).

Definition Policy_Digest (p : Policy) : go string :=
  try u := Policy_Validate p ;; Ok (sha256_hex (policy_json p)).

(** ** Allowlists *)

(** An entry in canonical form: what the parser accepts of a line. *)
Definition canonical_entry (line : string) : bool :=
  match ParsePrefix line with
  | None => false
  | Some prefix => Is4 (prefix_Addr prefix) && bool_decide (Zone (prefix_Addr prefix) = ""%string)
                   && bool_decide (prefix = Masked prefix) && String.eqb (Prefix_String prefix) line
  end.

(** The loop over the lines; [seen] and [values] hold the same texts. *)
Fixpoint allowlist_entries (lines : list string) (values : list string) : go (list string) :=
  match lines with
  | [] => Ok values
  | line :: lines =>
    let line := trim_space line in
    if bool_decide (line = ""%string) || has_prefix line "#" then allowlist_entries lines values
    else
      reject negb (canonical_entry line) with "SSH target allowlist entry %q must be a canonical IPv4 CIDR"%string ;;
      if bool_decide (line ∈ values) then allowlist_entries lines values
      else
        let values := values ++ [line] in
        reject maxSSHAllowlistCIDRs <? llen values with "SSH target allowlist contains more than %d CIDRs"%string ;;
        allowlist_entries lines values
  end.

Definition parseSSHAllowlist (body : string) : go (list Prefix) :=
  let '(lines, long) := scan_lines maxSSHAllowlistBytes body in
  try values := allowlist_entries lines [] ;;
  reject long with "read SSH target allowlist: %w"%string ;;
  reject llen values =? 0 with "SSH target allowlist contains no CIDRs"%string ;;
  Ok (omap ParsePrefix (sort_by str_lt values)).

(** ** Targets and user names *)

Definition targetAllowed (target : Addr) (allowlist : list Prefix) : bool :=
  if negb (Is4 target) || negb (bool_decide (Zone target = ""%string)) then false
  else existsb (λ prefix, Contains prefix target) allowlist.

(** [^[A-Za-z0-9._-]{1,64}$] and [^[A-Za-z0-9._@\\-]{1,256}$] *)
Definition safeSSHUsername (value : string) : bool :=
  (1 <=? slen value) && (slen value <=? 64) && string_all safe_id_byte value.
Definition safePasswordUsername (value : string) : bool :=
  (1 <=? slen value) && (slen value <=? 256) &&
  string_all (λ c, safe_id_byte c || Ascii.eqb c "@"%char || Ascii.eqb c (byte_of 92)) value.

(** ** What parsing establishes *)

Lemma canonical_entry_spec line :
  canonical_entry line = true →
  ∃ p, ParsePrefix line = Some p ∧ Is4 (prefix_Addr p) = true ∧ Zone (prefix_Addr p) = ""%string ∧
    p = Masked p ∧ Prefix_String p = line.
Proof.
  unfold canonical_entry. destruct (ParsePrefix line) as [p|]; [|done].
  intros [[[H4 Hz%bool_decide_eq_true]%andb_true_iff Hm%bool_decide_eq_true]%andb_true_iff Ht%String.eqb_eq]%andb_true_iff.
  by exists p.
Qed.

Lemma allowlist_entries_spec lines : ∀ values out,
  allowlist_entries lines values = Ok out →
  NoDup values → llen values <= maxSSHAllowlistCIDRs → (∀ v, v ∈ values → canonical_entry v = true) →
  NoDup out ∧ llen out <= maxSSHAllowlistCIDRs ∧ (∀ v, v ∈ out → canonical_entry v = true) ∧
  ∀ v, v ∈ out ↔ v ∈ values ∨ ∃ line, line ∈ lines ∧ v = trim_space line ∧ v ≠ ""%string ∧ has_prefix v "#" = false.
Proof.
  induction lines as [|line lines IH]; intros values out H Hnd Hlen Hc; simpl in H.
  { injection H as <-. do 3 (split; [done|]). intros v. split; [by left|]. intros [?|(?&?%not_elem_of_nil&_)]; done. }
  set (v := trim_space line) in *.
  assert (∀ w, (∃ l, l ∈ line :: lines ∧ w = trim_space l ∧ w ≠ ""%string ∧ has_prefix w "#" = false) ↔
    (w = v ∧ v ≠ ""%string ∧ has_prefix v "#" = false) ∨
    ∃ l, l ∈ lines ∧ w = trim_space l ∧ w ≠ ""%string ∧ has_prefix w "#" = false) as Hsplit.
  { intros w. split.
    - intros (l&[->|Hl]%elem_of_cons&->&?&?); [by left|right; by exists l].
    - intros [(->&?&?)|(l&?&?)]; [exists line; split; [by left|done]|exists l; split; [by right|done]]. }
  setoid_rewrite Hsplit. clear Hsplit.
  assert (∀ P Q R S : Prop, (S → P) → (P ↔ Q ∨ R) → (P ↔ Q ∨ S ∨ R)) as Habsorb by (clear; tauto).
  destruct (bool_decide (v = ""%string) || has_prefix v "#") eqn:Hskip.
  { destruct (IH _ _ H Hnd Hlen Hc) as (?&?&?&Hiff). do 3 (split; [done|]). intros w. apply Habsorb; [|apply Hiff]. intros (->&Hne&Hp).
    apply orb_true_iff in Hskip as [Hs%bool_decide_eq_true|Hs]; [done|]. by rewrite Hs in Hp. }
  apply orb_false_iff in Hskip as [Hne%bool_decide_eq_false Hp].
  destruct (canonical_entry v) eqn:Hcv; [|done]. simpl in H. destruct (decide (v ∈ values)) as [Hin|Hin].
  - rewrite bool_decide_true in H by done. destruct (IH _ _ H Hnd Hlen Hc) as (?&?&?&Hiff). do 3 (split; [done|]).
    intros w. apply Habsorb; [|apply Hiff]. intros (->&_&_). apply Hiff. by left.
  - rewrite bool_decide_false in H by done. destruct (Z.ltb_spec maxSSHAllowlistCIDRs (llen (values ++ [v]))); [done|].
    assert (NoDup (values ++ [v])) as Hnd'.
    { apply NoDup_app. split; [done|]. split; [|by apply NoDup_singleton]. intros x Hx ->%list_elem_of_singleton. done. }
    assert (∀ w, w ∈ values ++ [v] → canonical_entry w = true) as Hc'.
    { intros w [Hw| ->%list_elem_of_singleton]%elem_of_app; [by apply Hc|done]. }
    destruct (IH _ _ H Hnd' ltac:(lia) Hc') as (?&?&?&Hiff). do 3 (split; [done|]).
    intros w. rewrite Hiff, elem_of_app, list_elem_of_singleton. clear -Hne Hp. tauto.
Qed.

Lemma canonical_prefixes (values : list string) :
  (∀ v, v ∈ values → canonical_entry v = true) →
  Prefix_String <$> omap ParsePrefix values = values ∧
  ∀ p, p ∈ omap ParsePrefix values ↔ ∃ v, v ∈ values ∧ ParsePrefix v = Some p.
Proof.
  intros Hc. split; [|intros p; apply list_elem_of_omap].
  induction values as [|v values IH]; [done|].
  destruct (canonical_entry_spec v (Hc v ltac:(by left))) as (p&Hp&_&_&_&Ht). csimpl. rewrite Hp. csimpl.
  rewrite Ht. f_equal. apply IH. intros w Hw. apply Hc. by right.
Qed.

(** ** Theorems *)

(** The IPv4 addresses an allowlist grants. *)
Definition granted (allowlist : list Prefix) (x : Z) : Prop := ∃ p, p ∈ allowlist ∧ inside true x p.

(** The lines of a file that say something. *)
Definition entries (body : string) (v : string) : Prop :=
  ∃ line, line ∈ (scan_lines maxSSHAllowlistBytes body).1 ∧ v = trim_space line ∧ v ≠ ""%string ∧ has_prefix v "#" = false.

Lemma canonical_entry_canonical v p :
  canonical_entry v = true → ParsePrefix v = Some p → canonical p ∧ Is4 (prefix_Addr p) = true.
Proof.
  intros Hc Hp. destruct (canonical_entry_spec v Hc) as (q&Hq&H4&_&Hm&_). assert (q = p) as -> by congruence.
  destruct (ParsePrefix_range _ _ Hp) as (Hv&_&Hb). destruct (Masked_canonical p Hv Hb) as (Hcan&_). split; [by rewrite Hm|done].
Qed.

Lemma targetAllowed_iff a allowlist :
  Forall (λ p, canonical p ∧ Is4 (prefix_Addr p) = true) allowlist → addr_ok a →
  targetAllowed a allowlist = true ↔ Is4 a = true ∧ granted allowlist (addr_val a).
Proof.
  intros Hall Ha. unfold targetAllowed, granted. rewrite (proj2 Ha). simpl. rewrite ?orb_false_r.
  destruct (Is4 a) eqn:E4; simpl; [|split; [done|by intros [? _]]].
  rewrite existsb_exists. rewrite Forall_forall in Hall. split.
  - intros (p&Hin&Hc). apply list_elem_of_In in Hin. split; [done|]. exists p. split; [done|].
    apply Contains_spec in Hc; [|by apply Hall|done]. destruct Hc as [H4 Hc]. by rewrite <-E4.
  - intros (_&p&Hin&Hi). exists p. split; [by apply list_elem_of_In|].
    apply (Contains_spec p a (proj1 (Hall _ Hin)) Ha). by rewrite E4.
Qed.

(** An allowlist file that is accepted: the result is the set of its entries, all of
    them canonical IPv4 prefixes in sorted order without repetition, between 1 and 256;
    so it passes the policy's own checks, and a target is allowed exactly when it is an
    IPv4 address inside the range of one of the lines. *)
Theorem parseSSHAllowlist_spec (body : string) (allowlist : list Prefix) :
  parseSSHAllowlist body = Ok allowlist →
  1 <= llen allowlist <= maxSSHAllowlistCIDRs ∧
  Forall (λ p, canonical p ∧ Is4 (prefix_Addr p) = true) allowlist ∧
  NoDup (Prefix_String <$> allowlist) ∧ StronglySorted (not_after str_lt) (Prefix_String <$> allowlist) ∧
  (∀ v, v ∈ Prefix_String <$> allowlist ↔ entries body v) ∧
  (∀ size_error cidr_error digest_error data_error digest, digest_ok digest = true →
     validate_remote true true allowlist digest size_error cidr_error digest_error data_error = Ok tt) ∧
  (∀ a, addr_ok a → targetAllowed a allowlist = true ↔
     Is4 a = true ∧ ∃ v p, entries body v ∧ ParsePrefix v = Some p ∧ inside true (addr_val a) p).
Proof.
  unfold parseSSHAllowlist, entries. destruct (scan_lines maxSSHAllowlistBytes body) as [lines long]. simpl.
  destruct (allowlist_entries lines []) as [values|e] eqn:Hv; [|done]. destruct long; [done|].
  destruct (Z.eqb_spec (llen values) 0) as [|Hne]; [done|]. intros [= <-].
  destruct (allowlist_entries_spec _ _ _ Hv) as (Hnd&Hlen&Hc&Hiff); [by apply NoDup_nil|done|by intros v ?%not_elem_of_nil|].
  set (sorted := sort_by str_lt values). assert (sorted ≡ₚ values) as Hperm by apply sort_by_perm.
  assert (∀ v, v ∈ sorted → canonical_entry v = true) as Hcs by (intros v; rewrite Hperm; apply Hc).
  destruct (canonical_prefixes sorted Hcs) as [Htext Hin].
  assert (llen (omap ParsePrefix sorted) = llen values) as Hl.
  { unfold llen. rewrite <-(length_fmap Prefix_String), Htext. by rewrite Hperm. }
  assert (Forall (λ p, canonical p ∧ Is4 (prefix_Addr p) = true) (omap ParsePrefix sorted)) as Hall.
  { apply Forall_forall. intros p (v&Hvs&Hp)%Hin. by eapply canonical_entry_canonical; [apply Hcs|]. }
  assert (∀ v, v ∈ sorted ↔ ∃ line, line ∈ lines ∧ v = trim_space line ∧ v ≠ ""%string ∧ has_prefix v "#" = false) as Hent.
  { intros v. rewrite Hperm, Hiff. split; [intros [?%not_elem_of_nil|?]; done|by right]. }
  rewrite Htext. split; [unfold llen in *; lia|]. split; [done|]. split; [by rewrite Hperm|].
  split; [apply (sort_by_sorted _)|]. split; [exact Hent|]. split.
  - intros se ce de dd digest Hd. unfold validate_remote. rewrite Hl.
    rewrite (proj2 (Z.eqb_neq _ _) Hne), (proj2 (Z.ltb_ge _ _) Hlen), Hd. simpl.
    match goal with |- context [existsb ?f ?l] => assert (existsb f l = false) as -> end; [|done].
    apply not_true_iff_false. intros (p&Hp&Hbad)%existsb_exists. apply list_elem_of_In, Hin in Hp as (v&Hvs&Hp).
    destruct (canonical_entry_spec v (Hcs v Hvs)) as (q&Hq&H4&Hz&Hm&_). assert (q = p) as -> by congruence.
    rewrite H4, Hz in Hbad. simpl in Hbad. rewrite bool_decide_true in Hbad by exact Hm. done.
  - intros a Hz. rewrite (targetAllowed_iff _ _ Hall Hz). unfold granted. setoid_rewrite Hin. setoid_rewrite <-Hent. naive_solver.
Qed.

Definition example_allowlist : string := ("# lab" +:+ char 10 +:+ "10.0.1.0/24" +:+ char 13 +:+ char 10 +:+ "10.0.0.7/32 " +:+ char 10)%string.
Example allowlist_text : option_map (map Prefix_String) (result_option (parseSSHAllowlist example_allowlist)) =
  Some ["10.0.0.7/32"; "10.0.1.0/24"]%string.
Proof. vm_compute. reflexivity. Qed.
Example allowlist_masked : parseSSHAllowlist "10.0.0.1/24" = Err "SSH target allowlist entry %q must be a canonical IPv4 CIDR"%string.
Proof. vm_compute. reflexivity. Qed.

Lemma parseSSHAllowlist_spec_witness :
  let allowlist := [mkPrefix (mkAddr true 167772167 "") 32; mkPrefix (mkAddr true 167772416 "") 24] in
  parseSSHAllowlist example_allowlist = Ok allowlist ∧ (1 <= llen allowlist <= maxSSHAllowlistCIDRs) ∧
  NoDup (Prefix_String <$> allowlist).
Proof.
  intros allowlist. assert (parseSSHAllowlist example_allowlist = Ok allowlist) as H by (vm_compute; reflexivity).
  split; [exact H|]. destruct (parseSSHAllowlist_spec _ _ H) as (H1&_&H2&_). split; [exact H1|exact H2].
Defined.

(** The digest does not depend on the order of the allowlists. *)
Lemma Policy_Digest_order p p' :
  SSHAllowlist p ≡ₚ SSHAllowlist p' → WinRMAllowlist p ≡ₚ WinRMAllowlist p' →
  p' = mkPolicy (Policy_WorkerPool p) (Policy_SiteID p) (AllowLocal p) (AllowSSHLinux p) (AllowWinRMWindows p)
    (WinRMAllowlist p') (WinRMTrustDigest p) (SSHAllowlist p') (SSHHostKeyDigest p) (MaxTaskDuration p)
    (MaxConcurrency p) (RemoteStartInterval p) →
  policy_json p' = policy_json p.
Proof.
  intros Hs Hw ->. unfold policy_json. f_equal. unfold policy_fields. simpl.
  assert (canonicalPrefixStrings (SSHAllowlist p') = canonicalPrefixStrings (SSHAllowlist p)) as ->.
  { apply (sort_by_unique _); [|by rewrite Hs]. intros; by apply str_lt_sep. }
  assert (canonicalPrefixStrings (WinRMAllowlist p') = canonicalPrefixStrings (WinRMAllowlist p)) as ->.
  { apply (sort_by_unique _); [|by rewrite Hw]. intros; by apply str_lt_sep. }
  done.
Qed.

(** ** What the digest binds *)

(** Everything a policy says, at the resolution of the digest: whole milliseconds and
    seconds, defaults filled in, allowlists as sorted text. *)
Record policy_terms := mkPolicyTerms {
  terms_pool : string;
  terms_site : string;
  terms_operations : list string;
  terms_concurrency : Z;
  terms_seconds : Z;
  terms_milliseconds : Z;
  terms_ssh : list string;
  terms_ssh_digest : string;
  terms_winrm : list string;
  terms_winrm_digest : string;
}.
Definition policy_view (p : Policy) : policy_terms :=
  mkPolicyTerms (Policy_WorkerPool p) (Policy_SiteID p) (Capabilities p) (concurrency p)
    (taskDuration p / Second) (remoteStartInterval p / Millisecond)
    (canonicalPrefixStrings (SSHAllowlist p)) (SSHHostKeyDigest p)
    (canonicalPrefixStrings (WinRMAllowlist p)) (WinRMTrustDigest p).

Lemma digest_ascii s : digest_ok s = true → ascii_text s = true.
Proof. unfold digest_ok, hex_decodable. intros [_ [_ H]%andb_true_iff]%andb_true_iff. by apply hex_ascii. Qed.

Lemma prefix_text_ascii p : Is4 (prefix_Addr p) = true → ascii_text (Prefix_String p) = true.
Proof.
  unfold Is4. intros H4. unfold Prefix_String, Addr_String. destruct (IsValid p); [|done].
  unfold ascii_text. rewrite H4, !string_all_app. rewrite decimal_ascii. unfold dotted.
  cbn [be_bytes]. rewrite !fmap_cons. cbn [String.concat list_fmap fmap]. rewrite !string_all_app, !decimal_ascii. done.
Qed.

Lemma prefixes_utf8 l : existsb (λ p, negb (Is4 (prefix_Addr p))) l = false → forallb utf8_valid (canonicalPrefixStrings l) = true.
Proof.
  intros Hl. apply forallb_elem_of. intros x Hx. unfold canonicalPrefixStrings in Hx. rewrite sort_by_perm in Hx.
  apply list_elem_of_fmap in Hx as (p&->&Hp). apply ascii_utf8, prefix_text_ascii.
  destruct (Is4 (prefix_Addr p)) eqn:E; [done|]. assert (existsb (λ p, negb (Is4 (prefix_Addr p))) l = true); [|congruence].
  apply existsb_elem_of. exists p. by rewrite E.
Qed.

(** The part of one remote protocol in a valid policy is plain text. *)
Lemma validate_remote_text allowed zone l d e1 e2 e3 e4 :
  validate_remote allowed zone l d e1 e2 e3 e4 = Ok tt →
  forallb utf8_valid (canonicalPrefixStrings l) = true ∧ utf8_valid d = true.
Proof.
  unfold validate_remote. destruct allowed.
  - destruct (_ || _); [done|]. destruct (existsb _ l) eqn:El; [done|]. destruct (negb (digest_ok d)) eqn:Ed; [done|]. intros _.
    apply negb_false_iff in Ed. split; [|by apply ascii_utf8, digest_ascii]. apply prefixes_utf8.
    destruct (existsb (λ p, negb (Is4 (prefix_Addr p))) l) eqn:E; [|done]. apply existsb_elem_of in E as (p&Hp&Hn).
    assert (existsb (λ p, negb (Is4 (prefix_Addr p)) || (zone && negb (bool_decide (Zone (prefix_Addr p) = ""%string)))
                     || negb (bool_decide (p = Masked p))) l = true); [|congruence].
    apply existsb_elem_of. exists p. by rewrite Hn.
  - destruct (negb (llen l =? 0) || _) eqn:E; [done|]. intros _. bool_facts. subst d. split; [|done].
    unfold llen in *. destruct l; [done|simpl in *; lia].
Qed.

Lemma policy_fields_valid p : Policy_Validate p = Ok tt → forallb field_valid (policy_fields p) = true.
Proof.
  unfold Policy_Validate. destruct (negb (match_safe_id (Policy_WorkerPool p))) eqn:Hpool; [done|].
  destruct (negb (match_safe_id (Policy_SiteID p))) eqn:Hsite; [done|]. destruct (_ && negb (AllowWinRMWindows p)); [done|].
  destruct (validate_remote (AllowSSHLinux p) true _ _ _ _ _ _) as [[]|] eqn:Hssh; [|done].
  destruct (validate_remote (AllowWinRMWindows p) false _ _ _ _ _ _) as [[]|] eqn:Hwin; [|done]. intros _.
  apply negb_false_iff in Hpool, Hsite. apply validate_remote_text in Hssh as [Hs1 Hs2], Hwin as [Hw1 Hw2].
  assert (forallb utf8_valid (Capabilities p) = true) as Hcap.
  { unfold Capabilities. by destruct (AllowLocal p), (AllowSSHLinux p), (AllowWinRMWindows p). }
  unfold policy_fields. rewrite !forallb_app, !list_field_valid, !text_field_valid by done. rewrite !andb_true_r. cbn [forallb]. unfold field_valid. cbn [fst snd value_valid].
  rewrite Hcap, (ascii_utf8 _ (safe_id_ascii _ Hpool)), (ascii_utf8 _ (safe_id_ascii _ Hsite)). done.
Qed.

(** The fields determine what was put into them. *)
Lemma policy_fields_inj p q : policy_fields p = policy_fields q → policy_view p = policy_view q.
Proof.
  unfold policy_fields, policy_view. intros [= H1 H2 H3 H4 H5 H6 Hrest]. revert Hrest.
  unfold list_field, text_field. repeat case_bool_decide; simpl; intros Hrest; simplify_eq; congruence.
Qed.

(** the digest under which a worker registers binds its policy: two valid policies with
    the same digest agree on pool, site, operations, limits and both allowlists with
    their trust digests, at the resolution the digest has (whole seconds and
    milliseconds), or exhibit a SHA-256 collision; the order of an allowlist does not
    matter. *)
Theorem Policy_Digest_binds (p q : Policy) (d : string) :
  Policy_Digest p = Ok d → Policy_Digest q = Ok d →
  policy_view p = policy_view q ∨
  (policy_json p ≠ policy_json q ∧ sha256_hex (policy_json p) = sha256_hex (policy_json q)).
Proof.
  unfold Policy_Digest. destruct (Policy_Validate p) as [[]|] eqn:Hp; [|done]. destruct (Policy_Validate q) as [[]|] eqn:Hq; [|done].
  intros [= Hd] [= Hd']. destruct (decide (policy_json p = policy_json q)) as [Heq|Hne]; [left|right; split; congruence].
  apply json_object_inj in Heq; [by apply policy_fields_inj|by apply policy_fields_valid|by apply policy_fields_valid].
Qed.

Definition demo_prefix (v bits : Z) : Prefix := mkPrefix (mkAddr true v "") bits.
Definition demo_policy (allowlist : list Prefix) : Policy :=
  mkPolicy "pool" "site" true true false [] "" allowlist (sha256_hex "known_hosts") 0 0 0.

Definition demo_p : Policy := demo_policy [demo_prefix 167772160 24; demo_prefix 167772416 24].
Definition demo_q : Policy := demo_policy [demo_prefix 167772416 24; demo_prefix 167772160 24].

Lemma demo_digest p : Policy_Validate p = Ok tt → Policy_Digest p = Ok (sha256_hex (policy_json p)).
Proof. intros Hv. unfold Policy_Digest. by rewrite Hv. Qed.

Lemma demo_json : policy_json demo_p = policy_json demo_q.
Proof. vm_compute. reflexivity. Qed.

Lemma Policy_Digest_binds_witness :
  SSHAllowlist demo_p ≠ SSHAllowlist demo_q ∧
  (policy_view demo_p = policy_view demo_q ∨
   (policy_json demo_p ≠ policy_json demo_q ∧ sha256_hex (policy_json demo_p) = sha256_hex (policy_json demo_q))).
Proof.
  split; [by intros [=]|]. apply (Policy_Digest_binds demo_p demo_q (sha256_hex (policy_json demo_p))).
  - apply demo_digest. vm_compute. reflexivity.
  - rewrite demo_json. apply demo_digest. vm_compute. reflexivity.
Defined.
