(* ===== verification/Executor.v ===== *)
(** * [internal/worker]: from a task to one discovery request

    The validation of tasks ([client.go]), the executor ([executor.go]), the spacing of
    remote starts ([start_limit.go]) and the bound on reported failures ([run.go]).  The
    discovery plugins and the credential source are interfaces of the executor; the
    executor returns, with its result, the calls it made to them. *)

From S2P Require Import Prelude Bytes Text Time Model Discovery Netip Contract Partition Servicenow ControlSim SimRefinement Policy.

(** ** [validateTask] *)

Definition canonical_text (value : string) : bool :=
  match ParsePrefix value with
  | None => false
  | Some prefix => bool_decide (Zone (prefix_Addr prefix) = ""%string) && bool_decide (prefix = Masked prefix)
                   && String.eqb (Prefix_String prefix) value
  end.

Definition validateTargetPartition (partition : option TargetPartition) : go unit :=
  match partition with
  | None => Ok tt
  | Some p =>
    reject negb (digest_ok (Key p)) with "partition key is invalid"%string ;;
    reject (Count p <? 1) || (DefaultMaxPartitions <? Count p) || (Ordinal p <? 0) || (Count p <=? Ordinal p)
      with "partition ordinal or count is invalid"%string ;;
    reject (llen (CIDRs p) <? 1) || (maxPartitionCIDRs <? llen (CIDRs p)) with "partition must contain 1-%d CIDRs"%string ;;
    reject negb (forallb canonical_text (CIDRs p)) with "partition CIDR %q is not canonical"%string ;;
    Ok tt
  end.

Definition known_operation (op : string) : bool :=
  String.eqb op OperationLocalV1 || String.eqb op OperationSSHLinuxV1 || String.eqb op OperationWinRMWindowsV1.

(** An IPv4 address alone. *)
Definition single_ipv4 (value : string) : bool :=
  match ParsePrefix value with
  | None => false
  | Some prefix => Is4 (prefix_Addr prefix) && (Bits prefix =? 32)
  end.

Definition remote_target_ok (partition : option TargetPartition) : go unit :=
  match partition with
  | None => Err "ServiceNow remote task %q must contain one bounded target"%string
  | Some p =>
    reject (maxSSHTargets <? Count p) || negb (llen (CIDRs p) =? 1)
      with "ServiceNow remote task %q must contain one bounded target"%string ;;
    reject negb (single_ipv4 (hd ""%string (CIDRs p))) with "ServiceNow remote task %q target must be an IPv4 /32"%string ;;
    Ok tt
  end.

Definition validateTask (now : time) (task : Task) : go unit :=
  reject negb (forallb match_safe_id [Task_TaskID task; Task_RunID task; Task_AttemptID task; Task_ProfileID task; Task_LeaseToken task])
    with "ServiceNow task %s is invalid"%string ;;
  reject negb (known_operation (Task_Operation task)) with "ServiceNow task %q has unsupported operation %q"%string ;;
  reject Task_ProfileRevision task <? 1 with "ServiceNow task %q profile_revision must be positive"%string ;;
  try partition := validateTargetPartition (Task_TargetPartition task) ;;
  reject IsZero (Task_LeaseExpiresAt task) || IsZero (Task_Deadline task)
    with "ServiceNow task %q is missing its lease or deadline"%string ;;
  reject negb (After (Task_LeaseExpiresAt task) now) || After (Task_LeaseExpiresAt task) (Task_Deadline task)
    with "ServiceNow task %q has an expired or out-of-bounds lease"%string ;;
  if String.eqb (Task_Operation task) OperationLocalV1 then
    reject negb (bool_decide (Task_CredentialBindingID task = ""%string))
      with "ServiceNow local task %q contains credential authority"%string ;;
    Ok tt
  else
    reject negb (match_safe_id (Task_CredentialBindingID task))
      with "ServiceNow remote task %q credential binding is invalid"%string ;;
    remote_target_ok (Task_TargetPartition task).

(** ** The executor *)

(** What the executor asks of a discovery plugin. *)
Class Plugins := {
  ValidateConfiguration : string → DiscoveryRequest → go unit;
  Discover : string → option PasswordCredential → DiscoveryRequest → go ObservationEnvelope;
}.

Record Executor := mkExecutor {
  Executor_Policy : Policy;
  SSHHostKeyCallback : bool;
  WinRMRootCAs : bool;
}.

(** Calls that leave the executor. *)
Inductive call :=
| call_credential
| call_validate (op : string) (request : DiscoveryRequest)
| call_discover (op : string) (credential : option PasswordCredential) (request : DiscoveryRequest).

Inductive executed :=
| Returned (r : go ObservationEnvelope)
| Execute_panicked.

Abbreviation failed e := (Returned (Err e)) (only parsing).

Definition ErrCredentialResolution : string := "credential resolution failed".

Section executor.
Context `{Plugins}.

Definition discovery_request (e : Executor) (task : Task) (targets : list string) (deadline : time) : DiscoveryRequest :=
  mkDiscoveryRequest (Task_TaskID task) (Policy_SiteID (Executor_Policy e))
    ("worker-pool-" +:+ Policy_WorkerPool (Executor_Policy e))%string targets deadline.

(** The validation and discovery calls of one plugin. *)
Definition validated_discovery (op : string) (credential : option PasswordCredential) (request : DiscoveryRequest)
    (validate_error discover_error : string) : list call * executed :=
  match ValidateConfiguration op request with
  | Err _ => ([call_validate op request], failed validate_error)
  | Ok _ =>
    ([call_validate op request; call_discover op credential request],
     match Discover op credential request with
     | Ok observation => Returned (Ok observation)
     | Err _ => failed discover_error
     end)
  end.

Definition executeLocal (e : Executor) (task : Task) (deadline : time) : list call * executed :=
  if negb (AllowLocal (Executor_Policy e)) then ([], failed "operation %q is not allowed by local worker policy")
  else if bool_decide (Task_TargetPartition task ≠ None) || negb (bool_decide (Task_CredentialBindingID task = ""%string))
  then ([], failed "local.v1 does not accept remote target or credential authority")
  else validated_discovery OperationLocalV1 None (discovery_request e task ["local"%string] deadline)
         "validate local.v1: %w" "execute local.v1: %w".

Definition password_ok (safe : string → bool) (c : PasswordCredential) : bool :=
  safe (Username c) && negb (bool_decide (Password c = ""%string)) && (slen (Password c) <=? 4096).

Definition executeSSH (e : Executor) (task : Task) (deadline : time) (credentials : option (go PasswordCredential))
    : list call * executed :=
  let policy := Executor_Policy e in
  if negb (AllowSSHLinux policy) || negb (SSHHostKeyCallback e)
  then ([], failed "operation %q is not allowed by local worker policy")
  else match Task_TargetPartition task with
  | Some partition =>
    if negb (llen (CIDRs partition) =? 1) then ([], failed "ssh_linux.v1 requires one IPv4 /32 target partition")
    else match ParsePrefix (hd ""%string (CIDRs partition)) with
    | Some prefix =>
      if negb (Is4 (prefix_Addr prefix)) || negb (Bits prefix =? 32)
      then ([], failed "ssh_linux.v1 target must be a canonical IPv4 /32")
      else if negb (targetAllowed (prefix_Addr prefix) (SSHAllowlist policy))
      then ([], failed "ssh_linux.v1 target is outside the local allowlist")
      else match credentials with
      | None => ([], failed "ssh_linux.v1 requires an attempt-bound credential source")
      | Some (Err _) => ([call_credential], failed ErrCredentialResolution)
      | Some (Ok credential) =>
        if negb (password_ok safeSSHUsername credential) then ([call_credential], failed ErrCredentialResolution)
        else
          let target := (Username credential +:+ "@" +:+ Addr_String (prefix_Addr prefix) +:+ ":22")%string in
          let '(calls, r) := validated_discovery OperationSSHLinuxV1 (Some credential)
            (discovery_request e task [target] deadline) "validate ssh_linux.v1: %w" "execute ssh_linux.v1: %w" in
          (call_credential :: calls, r)
      end
    | None => ([], failed "ssh_linux.v1 target must be a canonical IPv4 /32")
    end
  | None => ([], failed "ssh_linux.v1 requires one IPv4 /32 target partition")
  end.

(** The partition is read without a check here: a missing one is a nil dereference. *)
Definition executeWinRM (e : Executor) (task : Task) (deadline : time) (credentials : option (go PasswordCredential))
    : list call * executed :=
  let policy := Executor_Policy e in
  if negb (AllowWinRMWindows policy) || negb (WinRMRootCAs e)
  then ([], failed "winrm_windows.v1 is not allowed by local worker policy")
  else match Task_TargetPartition task with
  | None => ([], Execute_panicked)
  | Some partition =>
    match CIDRs partition with
    | [] => ([], Execute_panicked)
    | cidr :: _ =>
      match ParsePrefix cidr with
      | Some prefix =>
        if negb (targetAllowed (prefix_Addr prefix) (WinRMAllowlist policy))
        then ([], failed "winrm_windows.v1 target is outside the local allowlist")
        else match credentials with
        | None => ([], failed ErrCredentialResolution)
        | Some (Err _) => ([call_credential], failed ErrCredentialResolution)
        | Some (Ok credential) =>
          if negb (password_ok safePasswordUsername credential) then ([call_credential], failed ErrCredentialResolution)
          else
            let target := ("https://" +:+ Addr_String (prefix_Addr prefix) +:+ ":5986/wsman")%string in
            let request := discovery_request e task [target] deadline in
            ([call_credential; call_discover OperationWinRMWindowsV1 (Some credential) request],
             Returned (Discover OperationWinRMWindowsV1 (Some credential) request))
        end
      | None => ([], failed "winrm_windows.v1 target is outside the local allowlist")
      end
    end
  end.

(** [now] is the clock of the process, read by [validateTask]; [current] that of the
    executor, which a caller may set. *)
Definition execute (e : Executor) (now current : time) (task : Task) (credentials : option (go PasswordCredential))
    : list call * executed :=
  match Policy_Validate (Executor_Policy e) with
  | Err err => ([], failed err)
  | Ok _ =>
    match validateTask now task with
    | Err err => ([], failed err)
    | Ok _ =>
      if negb (After (Task_LeaseExpiresAt task) current) then ([], failed "task lease has expired")
      else if negb (After (Task_Deadline task) current) then ([], failed "task deadline has expired")
      else
        let deadline := Add current (taskDuration (Executor_Policy e)) in
        let deadline := if Before (Task_Deadline task) deadline then Task_Deadline task else deadline in
        if String.eqb (Task_Operation task) OperationLocalV1 then executeLocal e task deadline
        else if String.eqb (Task_Operation task) OperationWinRMWindowsV1 then executeWinRM e task deadline credentials
        else if String.eqb (Task_Operation task) OperationSSHLinuxV1 then executeSSH e task deadline credentials
        else ([], failed "operation %q is not allowed by local worker policy")
    end
  end.
End executor.

(** ** Spacing of remote starts

    The gate admits one waiter at a time; a waiter that is not cancelled is let through
    at an instant not before [next], which is then moved on. *)
Definition start_allowed (interval : duration) (next now : time) : option time :=
  if now <? next then None else Some (Add now interval).

Fixpoint start_sequence (interval : duration) (next : time) (starts : list time) : option time :=
  match starts with
  | [] => Some next
  | now :: starts => next ← start_allowed interval next now; start_sequence interval next starts
  end.

(** ** Failures *)

Definition maxFailureBytes : Z := 4096.
(** The message [reportFailure] sends. *)
Definition failure_message (cause : string) : string := truncate cause maxFailureBytes.

(** ** What validation establishes *)

Lemma validateTask_spec now task :
  validateTask now task = Ok tt →
  match_safe_id (Task_TaskID task) = true ∧ known_operation (Task_Operation task) = true ∧
  now < Task_LeaseExpiresAt task <= Task_Deadline task ∧
  validateTargetPartition (Task_TargetPartition task) = Ok tt ∧
  (Task_Operation task = OperationLocalV1 → Task_CredentialBindingID task = ""%string) ∧
  (Task_Operation task ≠ OperationLocalV1 → match_safe_id (Task_CredentialBindingID task) = true ∧
     ∃ p text prefix, Task_TargetPartition task = Some p ∧ CIDRs p = [text] ∧ Count p <= maxSSHTargets ∧
       ParsePrefix text = Some prefix ∧ Is4 (prefix_Addr prefix) = true ∧ Bits prefix = 32).
Proof.
  unfold validateTask. destruct (forallb match_safe_id _) eqn:Hids; [|done]. simpl negb. cbv iota.
  destruct (known_operation _) eqn:Hop; [|done]. simpl negb. cbv iota.
  destruct (Task_ProfileRevision task <? 1); [done|].
  destruct (validateTargetPartition _) as [[]|] eqn:Hp; [|done]. destruct (_ || _); [done|].
  destruct (_ || _) eqn:Hl; [done|]. apply orb_false_iff in Hl as [Hl1%negb_false_iff Hl2].
  unfold After in *. apply Z.ltb_lt in Hl1. apply Z.ltb_ge in Hl2.
  apply andb_true_iff in Hids as [Hid _]. intros Hrest.
  do 2 (split; [done|]). split; [lia|]. split; [done|].
  destruct (String.eqb_spec (Task_Operation task) OperationLocalV1) as [Heq|Hne].
  - split; [|done]. intros _. case_bool_decide; [done|]. by simpl in Hrest.
  - split; [done|]. intros _. destruct (match_safe_id (Task_CredentialBindingID task)); [|done]. split; [done|]. simpl in Hrest.
    unfold remote_target_ok in Hrest. destruct (Task_TargetPartition task) as [p|]; [|done].
    destruct (_ || _) eqn:Hb; [done|]. apply orb_false_iff in Hb as [Hc%Z.ltb_ge Hlen%negb_false_iff%Z.eqb_eq].
    destruct (CIDRs p) as [|text [|? ?]] eqn:Hcidr; [done| |unfold llen in Hlen; simpl in Hlen; lia]. simpl in Hrest.
    destruct (single_ipv4 text) eqn:Hs; [|done]. unfold single_ipv4 in Hs.
    destruct (ParsePrefix text) as [prefix|] eqn:Hpp; [|done]. apply andb_true_iff in Hs as [? ?%Z.eqb_eq].
    by exists p, text, prefix.
Qed.

(** ** Confinement *)

Definition call_request (c : call) : option (string * option PasswordCredential * DiscoveryRequest) :=
  match c with
  | call_credential => None
  | call_validate op request => Some (op, None, request)
  | call_discover op credential request => Some (op, credential, request)
  end.
Definition is_discovery (c : call) : bool := match c with call_discover _ _ _ => true | _ => false end.
Definition is_credential (c : call) : bool := match c with call_credential => true | _ => false end.

(** The allowlist of a remote operation, and the address its task names. *)
Definition allowlist_of (p : Policy) (op : string) : list Prefix :=
  if String.eqb op OperationSSHLinuxV1 then SSHAllowlist p else WinRMAllowlist p.
Definition target_text (op : string) (c : PasswordCredential) (a : Addr) : string :=
  if String.eqb op OperationSSHLinuxV1 then (Username c +:+ "@" +:+ Addr_String a +:+ ":22")%string
  else ("https://" +:+ Addr_String a +:+ ":5986/wsman")%string.

(** The task names one IPv4 address, granted to its operation. *)
Definition granted_target (p : Policy) (task : Task) (a : Addr) : Prop :=
  ∃ partition text prefix, Task_TargetPartition task = Some partition ∧ CIDRs partition = [text] ∧
    ParsePrefix text = Some prefix ∧ prefix_Addr prefix = a ∧ Bits prefix = 32 ∧
    targetAllowed a (allowlist_of p (Task_Operation task)) = true.

Section confinement.
Context `{Plugins}.

Lemma known_local_or_remote op : known_operation op = true →
  op = OperationLocalV1 ∨ op = OperationSSHLinuxV1 ∨ op = OperationWinRMWindowsV1.
Proof. unfold known_operation. rewrite !orb_true_iff, !String.eqb_eq. tauto. Qed.

Lemma executeLocal_calls e task deadline :
  let '(calls, r) := executeLocal e task deadline in
  r ≠ Execute_panicked ∧ count is_credential calls = 0 ∧ count is_discovery calls <= 1 ∧
  ∀ c, c ∈ calls → AllowLocal (Executor_Policy e) = true ∧ Task_TargetPartition task = None ∧
    Task_CredentialBindingID task = ""%string ∧
    call_request c = Some (OperationLocalV1, None, discovery_request e task ["local"%string] deadline).
Proof.
  unfold executeLocal, validated_discovery. destruct (AllowLocal _); simpl negb; cbv iota; [|by split_and!; try intros c ?%not_elem_of_nil].
  case_bool_decide as Hp; [by split_and!; try intros c ?%not_elem_of_nil|].
  case_bool_decide as Hb; simpl; [|by split_and!; try intros c ?%not_elem_of_nil].
  destruct (ValidateConfiguration _ _) as [u|?]; [|split_and!; [done..|]; by intros c ->%list_elem_of_singleton].
  destruct (Discover _ _ _); (split_and!; [done..|]); intros c [->| ->%list_elem_of_singleton]%elem_of_cons; done.
Qed.

(** The calls of a remote operation on the address [a]. *)
Definition remote_calls (e : Executor) (task : Task) (op : string) (deadline : time)
    (credentials : option (go PasswordCredential)) (calls : list call) : Prop :=
  count is_credential calls <= 1 ∧ count is_discovery calls <= 1 ∧
  ∀ c, c ∈ calls → op ∈ Capabilities (Executor_Policy e) ∧
    ∃ a, granted_target (Executor_Policy e) task a ∧
      match call_request c with
      | None => True
      | Some (op', credential, request) => op' = op ∧ ∃ pw, credentials = Some (Ok pw) ∧
          request = discovery_request e task [target_text op pw a] deadline ∧ (credential = None ∨ credential = Some pw)
      end.

Lemma no_calls e task op deadline credentials : remote_calls e task op deadline credentials [].
Proof. split_and!; [done..|]. by intros c ?%not_elem_of_nil. Qed.

Lemma executeSSH_calls e task deadline credentials :
  Task_Operation task = OperationSSHLinuxV1 →
  let '(calls, r) := executeSSH e task deadline credentials in
  r ≠ Execute_panicked ∧ remote_calls e task OperationSSHLinuxV1 deadline credentials calls.
Proof.
  intros Hop. unfold executeSSH. destruct (AllowSSHLinux (Executor_Policy e)) eqn:Hal; simpl negb; [|split; [done|apply no_calls]].
  destruct (SSHHostKeyCallback e); cbn [negb orb]; cbv iota; [|split; [done|apply no_calls]].
  destruct (Task_TargetPartition task) as [partition|] eqn:Hpart; [|split; [done|apply no_calls]].
  destruct (llen (CIDRs partition) =? 1) eqn:Hlen; simpl negb; cbv iota; [|split; [done|apply no_calls]].
  apply Z.eqb_eq in Hlen. destruct (CIDRs partition) as [|text [|? ?]] eqn:Hc; [done| |unfold llen in Hlen; simpl in Hlen; lia].
  simpl hd. destruct (ParsePrefix text) as [prefix|] eqn:Hp; [|split; [done|apply no_calls]].
  destruct (Is4 (prefix_Addr prefix)) eqn:H4; simpl negb; [|split; [done|apply no_calls]].
  destruct (Z.eqb_spec (Bits prefix) 32) as [Hb|]; simpl negb; cbv iota; simpl; [|split; [done|apply no_calls]].
  destruct (targetAllowed _ _) eqn:Ht; simpl negb; cbv iota; [|split; [done|apply no_calls]].
  assert (granted_target (Executor_Policy e) task (prefix_Addr prefix)) as Hg.
  { exists partition, text, prefix. unfold allowlist_of. rewrite Hop. by split_and!. }
  assert (OperationSSHLinuxV1 ∈ Capabilities (Executor_Policy e)) as Hcap.
  { unfold Capabilities. rewrite Hal. rewrite !elem_of_app, !list_elem_of_singleton. auto. }
  assert (remote_calls e task OperationSSHLinuxV1 deadline credentials [call_credential]) as Hone.
  { split_and!; [done..|]. intros c ->%list_elem_of_singleton. split; [done|]. by exists (prefix_Addr prefix). }
  destruct credentials as [[pw|?]|]; [|by split|split; [done|apply no_calls]].
  destruct (password_ok _ _); simpl negb; cbv iota; [|by split].
  unfold validated_discovery. set (request := discovery_request _ _ _ _).
  assert (∀ calls, (∀ c, c ∈ calls → c = call_validate OperationSSHLinuxV1 request ∨ c = call_discover OperationSSHLinuxV1 (Some pw) request) →
    ∀ c, c ∈ call_credential :: calls → OperationSSHLinuxV1 ∈ Capabilities (Executor_Policy e) ∧
    ∃ a, granted_target (Executor_Policy e) task a ∧
      match call_request c with
      | None => True
      | Some (op', credential, request) => op' = OperationSSHLinuxV1 ∧ ∃ pw', Some (Ok pw) = Some (@Ok string _ pw') ∧
          request = discovery_request e task [target_text OperationSSHLinuxV1 pw' a] deadline ∧ (credential = None ∨ credential = Some pw')
      end) as Hcalls.
  { intros calls Hin c [->|Hc']%elem_of_cons; (split; [done|]); exists (prefix_Addr prefix); (split; [done|]); [done|].
    destruct (Hin c Hc') as [-> | ->]; (split; [done|]); exists pw; auto. }
  destruct (ValidateConfiguration _ _) as [u|?].
  - destruct (Discover _ _ _); (split; [done|]); (split_and!; [done..|]); apply Hcalls;
      intros c [->| ->%list_elem_of_singleton]%elem_of_cons; auto.
  - split; [done|]. split_and!; [done..|]. apply Hcalls. intros c ->%list_elem_of_singleton; auto.
Qed.

Lemma executeWinRM_calls e task now deadline credentials :
  validateTask now task = Ok tt → Task_Operation task = OperationWinRMWindowsV1 →
  let '(calls, r) := executeWinRM e task deadline credentials in
  r ≠ Execute_panicked ∧ remote_calls e task OperationWinRMWindowsV1 deadline credentials calls.
Proof.
  intros Hv Hop. destruct (validateTask_spec _ _ Hv) as (_&_&_&_&_&Hr).
  destruct Hr as (_&partition&text&prefix&Hpart&Hc&_&Hp&H4&Hb); [by rewrite Hop|].
  unfold executeWinRM. destruct (AllowWinRMWindows (Executor_Policy e)) eqn:Hal; simpl negb; [|split; [done|apply no_calls]].
  destruct (WinRMRootCAs e); cbn [negb orb]; cbv iota; [|split; [done|apply no_calls]].
  rewrite Hpart, Hc, Hp. destruct (targetAllowed _ _) eqn:Ht; simpl negb; cbv iota; [|split; [done|apply no_calls]].
  assert (granted_target (Executor_Policy e) task (prefix_Addr prefix)) as Hg.
  { exists partition, text, prefix. unfold allowlist_of. rewrite Hop. by split_and!. }
  assert (OperationWinRMWindowsV1 ∈ Capabilities (Executor_Policy e)) as Hcap.
  { unfold Capabilities. rewrite Hal. rewrite !elem_of_app, !list_elem_of_singleton. auto. }
  assert (remote_calls e task OperationWinRMWindowsV1 deadline credentials [call_credential]) as Hone.
  { split_and!; [done..|]. intros c ->%list_elem_of_singleton. split; [done|]. by exists (prefix_Addr prefix). }
  destruct credentials as [[pw|?]|]; [|by split|split; [done|apply no_calls]].
  destruct (password_ok _ _); simpl negb; cbv iota; [|by split].
  split; [done|]. split_and!; [done..|]. intros c [->| ->%list_elem_of_singleton]%elem_of_cons; (split; [done|]);
    exists (prefix_Addr prefix); (split; [done|]); [done|]. split; [done|]. exists pw. auto.
Qed.

(** The calls of [local.v1]. *)
Definition local_calls (e : Executor) (task : Task) (deadline : time) (calls : list call) : Prop :=
  count is_credential calls = 0 ∧ count is_discovery calls <= 1 ∧
  ∀ c, c ∈ calls → AllowLocal (Executor_Policy e) = true ∧
    call_request c = Some (OperationLocalV1, None, discovery_request e task ["local"%string] deadline).

(** An execution that makes a call has passed every check; its deadline is the task's or
    the policy's, whichever comes first. *)
Lemma execute_reaches e now current task credentials :
  let '(calls, r) := execute e now current task credentials in
  (calls = [] ∧ ∃ err, r = failed err) ∨
  ∃ deadline, Policy_Validate (Executor_Policy e) = Ok tt ∧ validateTask now task = Ok tt ∧
    current < Task_LeaseExpiresAt task ∧ current < deadline ∧ deadline <= Task_Deadline task ∧
    deadline <= current + taskDuration (Executor_Policy e) ∧ r ≠ Execute_panicked ∧
    (Task_Operation task = OperationLocalV1 ∧ local_calls e task deadline calls ∨
     Task_Operation task ≠ OperationLocalV1 ∧ remote_calls e task (Task_Operation task) deadline credentials calls).
Proof.
  unfold execute. destruct (Policy_Validate (Executor_Policy e)) as [[]|] eqn:Hpol; [|left; eauto].
  destruct (validateTask now task) as [[]|] eqn:Hv; [|left; eauto].
  destruct (After (Task_LeaseExpiresAt task) current) eqn:Hl; simpl negb; cbv iota; [|left; eauto].
  destruct (After (Task_Deadline task) current) eqn:Hd; simpl negb; cbv iota; [|left; eauto].
  apply Z.ltb_lt in Hl, Hd. cbv zeta. set (deadline := if Before _ _ then _ else _).
  destruct (validateTask_spec _ _ Hv) as (_&Hop&_).
  assert (0 < taskDuration (Executor_Policy e)) as Hdur.
  { unfold Policy_Validate in Hpol. repeat case_match; try done. unfold Second in *. bool_facts. lia. }
  assert (current < deadline ∧ deadline <= Task_Deadline task ∧ deadline <= current + taskDuration (Executor_Policy e)) as (?&?&?).
  { unfold deadline, Before, Add in *. destruct (Z.ltb_spec (Task_Deadline task) (current + taskDuration (Executor_Policy e))); lia. }
  clearbody deadline. destruct (known_local_or_remote _ Hop) as [Heq|[Heq|Heq]]; rewrite Heq.
  - change (String.eqb OperationLocalV1 OperationLocalV1) with true. cbv iota.
    pose proof (executeLocal_calls e task deadline) as Hx. destruct (executeLocal e task deadline) as [calls r].
    destruct Hx as (Hr&Hc1&Hc2&Hall). right. exists deadline. do 7 (split; [done|]). left. split; [done|].
    do 2 (split; [done|]). intros c Hc. by destruct (Hall c Hc) as (?&_&_&?).
  - change (String.eqb OperationSSHLinuxV1 OperationLocalV1) with false.
    change (String.eqb OperationSSHLinuxV1 OperationWinRMWindowsV1) with false.
    change (String.eqb OperationSSHLinuxV1 OperationSSHLinuxV1) with true. cbv iota.
    pose proof (executeSSH_calls e task deadline credentials Heq) as Hx.
    destruct (executeSSH e task deadline credentials) as [calls r]. destruct Hx. right. exists deadline. do 7 (split; [done|]). by right.
  - change (String.eqb OperationWinRMWindowsV1 OperationLocalV1) with false.
    change (String.eqb OperationWinRMWindowsV1 OperationWinRMWindowsV1) with true. cbv iota.
    pose proof (executeWinRM_calls e task now deadline credentials Hv Heq) as Hx.
    destruct (executeWinRM e task deadline credentials) as [calls r]. destruct Hx. right. exists deadline. do 7 (split; [done|]). by right.
Qed.

(** C4: a task cannot widen what the deployment allowed.  Whatever the control plane
    sends, the executor does not panic; it asks for a credential and runs discovery at
    most once each; and any call it makes has a valid policy behind it that announces
    the operation, a task whose lease and deadline have not passed, the worker's own
    site and pool, a deadline within the task's and the policy's limits, and - for a
    remote operation - one IPv4 address inside the operation's local allowlist, checked
    before the credential is asked for. *)
Theorem execute_is_confined (e : Executor) (now current : time) (task : Task) (credentials : option (go PasswordCredential)) :
  let '(calls, r) := execute e now current task credentials in
  let policy := Executor_Policy e in
  r ≠ Execute_panicked ∧ count is_credential calls <= 1 ∧ count is_discovery calls <= 1 ∧
  ∀ c, c ∈ calls →
    Policy_Validate policy = Ok tt ∧ Task_Operation task ∈ Capabilities policy ∧
    now < Task_LeaseExpiresAt task ∧ current < Task_LeaseExpiresAt task <= Task_Deadline task ∧
    (Task_Operation task ≠ OperationLocalV1 → ∃ a, granted_target policy task a ∧
       ∀ op credential request, call_request c = Some (op, credential, request) →
         ∃ pw, credentials = Some (Ok pw) ∧ Request_Targets request = [target_text op pw a]) ∧
    ∀ op credential request, call_request c = Some (op, credential, request) →
      op = Task_Operation task ∧ Request_JobID request = Task_TaskID task ∧ Request_SiteID request = Policy_SiteID policy ∧
      Request_CollectorID request = ("worker-pool-" +:+ Policy_WorkerPool policy)%string ∧
      current < Request_Deadline request ∧ Request_Deadline request <= Task_Deadline task ∧
      Request_Deadline request <= current + taskDuration policy ∧
      (op = OperationLocalV1 → Request_Targets request = ["local"%string] ∧ credential = None).
Proof.
  pose proof (execute_reaches e now current task credentials) as Hx. destruct (execute e now current task credentials) as [calls r].
  destruct Hx as [(->&err&->)|(deadline&Hpol&Hv&Hl&?&?&?&Hr&Hcalls)].
  { split_and!; [done..|]. by intros c ?%not_elem_of_nil. }
  destruct (validateTask_spec _ _ Hv) as (_&_&Hlease&_). split; [done|].
  destruct Hcalls as [(Hop&Hc1&Hc2&Hall)|(Hop&Hc1&Hc2&Hall)]; (split; [lia|]); (split; [done|]); intros c Hc;
    destruct (Hall c Hc) as [Hal Hreq]; (split; [done|]).
  - split; [rewrite Hop; unfold Capabilities; rewrite Hal; by left|]. split; [lia|]. split; [lia|]. split; [done|].
    intros op cr rq E. rewrite Hreq in E. injection E as <- <- <-. simpl. split_and!; try done; lia.
  - destruct Hreq as (a&Hg&Hreq). split; [done|]. split; [lia|]. split; [lia|]. split.
    + intros _. exists a. split; [done|]. intros op' cr rq E. rewrite E in Hreq. destruct Hreq as (->&pw&?&->&_). by exists pw.
    + intros op' cr rq E. rewrite E in Hreq. destruct Hreq as (->&pw&?&->&_). simpl. split_and!; try done; lia.
Qed.

(** Whether the executor asks for a credential does not depend on the one it gets. *)
Lemma execute_asks e now current task c c' :
  existsb is_credential (execute e now current task (Some c)).1 = existsb is_credential (execute e now current task (Some c')).1.
Proof.
  unfold execute. destruct (Policy_Validate _); [|done]. destruct (validateTask now task); [|done]. destruct (negb _); [done|].
  destruct (negb _); [done|]. cbv zeta. set (deadline := if Before _ _ then _ else _). clearbody deadline.
  destruct (String.eqb _ _); [done|]. destruct (String.eqb _ _).
  - unfold executeWinRM. destruct (_ || _); [done|]. destruct (Task_TargetPartition task) as [p|]; [|done].
    destruct (CIDRs p) as [|cidr l]; [done|]. destruct (ParsePrefix cidr) as [prefix|]; [|done]. destruct (negb _); [done|].
    destruct c as [pw|], c' as [pw'|]; simpl; repeat (destruct (negb _)); done.
  - destruct (String.eqb _ _); [|done]. unfold executeSSH. destruct (_ || _); [done|].
    destruct (Task_TargetPartition task) as [p|]; [|done]. destruct (negb _); [done|]. destruct (ParsePrefix _) as [prefix|]; [|done].
    destruct (_ || _); [done|]. destruct (negb _); [done|].
    destruct c as [pw|], c' as [pw'|]; simpl; repeat (destruct (negb _)); try done;
      repeat match goal with |- context [let '(_, _) := ?v in _] => destruct v end; done.
Qed.
End confinement.

(** ** Starts and failures *)

(** Remote starts of one worker are never closer together than the interval, however
    many waiters there are, and a waiter that waits long enough is let through. *)
Theorem starts_are_spaced (interval : duration) (next : time) (starts : list time) (last : time) :
  0 <= interval → start_sequence interval next starts = Some last →
  Forall (λ t, next <= t) starts ∧
  (∀ i t u, starts !! i = Some t → starts !! S i = Some u → t + interval <= u) ∧
  ∀ now, last <= now → start_allowed interval last now = Some (now + interval).
Proof.
  intros Hi H. split; [|split].
  - revert next H. induction starts as [|t starts IH]; intros next H; [constructor|]. simpl in H.
    unfold start_allowed in H. destruct (Z.ltb_spec t next); [done|]. simpl in H. constructor; [done|].
    eapply Forall_impl; [by apply (IH _ H)|]. unfold Add. simpl. lia.
  - revert next H. induction starts as [|t starts IH]; intros next H i u v Hu Hv; [done|]. simpl in H.
    unfold start_allowed in H. destruct (Z.ltb_spec t next); [done|]. simpl in H. destruct i as [|i]; [|by eapply (IH _ H i)].
    injection Hu as <-. destruct starts as [|w starts]; [done|]. injection Hv as <-. simpl in H.
    unfold start_allowed in H. destruct (Z.ltb_spec w (Add t interval)); [done|]. unfold Add in *. lia.
  - intros now Hn. unfold start_allowed. destruct (Z.ltb_spec now last); [lia|done].
Qed.

Lemma starts_are_spaced_witness :
  start_sequence Second 0 [5 * Second; 6 * Second; 9 * Second] = Some (10 * Second) ∧
  Forall (λ t, 0 <= t) [5 * Second; 6 * Second; 9 * Second].
Proof.
  assert (start_sequence Second 0 [5 * Second; 6 * Second; 9 * Second] = Some (10 * Second)) as H by (vm_compute; reflexivity).
  split; [exact H|]. apply (starts_are_spaced Second 0 _ (10 * Second)); [vm_compute; discriminate|exact H].
Defined.

(** A failure with a message of more than 4096 bytes is never recorded: truncation
    appends an ellipsis after 4096 bytes, the control plane accepts at most 4096, so it
    refuses the report even under a valid lease, and the task ends neither failed nor
    cancelled. *)
Theorem long_failure_is_refused (json_tokens : string → list json_token * bool) (decode_line decode_any : string → go ObservationEnvelope)
    (env : SimEnv) (id cause code : string) (q : CompleteRequest) (s : Sim) (t : TaskRecord) :
  maxFailureBytes < slen cause →
  Complete_Success q = false → Complete_Failure q = Some (mkFailure code (failure_message cause) false) →
  validLeaseLocked (sim_now env 0) id (Complete_WorkerID q) (Complete_BootID q) (Complete_AttemptID q) (Complete_LeaseToken q) s = Some t →
  slen (failure_message cause) = maxFailureBytes + 3 ∧
  complete json_tokens decode_line decode_any env (Ok q) id s = (s, fail 400 "invalid failure").
Proof.
  intros Hlen Hs Hf Hv. assert (slen (failure_message cause) = maxFailureBytes + 3) as Hm by by apply truncate_length.
  split; [done|]. unfold complete. rewrite Hv, Hs, Hf. cbn [negb Failure_Message]. rewrite Hm. simpl.
  by rewrite orb_true_r.
Qed.

Definition long_text : string := String.concat "" (repeat "0123456789abcdef"%string 257).
Definition failing_task : TaskRecord :=
  mkTaskRecord "task-00000003" "run-00000002" "pool" OperationLocalV1 "local-v1" 1 running 1 "attempt" "worker" "boot"
    (Sha256.sha256_hex "token") (200 * Second) (600 * Second) 0 None "" false "".
Definition failing_state : Sim := put_task (NewSim (mkSimConfig "token" Minute 0 0 0 (mkPasswordCredential "" ""))) failing_task.
Definition failing_report : CompleteRequest :=
  mkCompleteRequest ContractVersion "worker" "boot" "attempt" "token" false 0
    (Some (mkFailure "operation_failed" (failure_message long_text) false)).

Lemma long_failure_is_refused_witness :
  complete (λ _, ([], true)) (λ _, Err ""%string) (λ _, Err ""%string) (mkSimEnv (λ _, 100 * Second) (λ _, ""%string) [])
    (Ok failing_report) "task-00000003" failing_state = (failing_state, fail 400 "invalid failure").
Proof.
  apply (long_failure_is_refused _ _ _ _ _ long_text "operation_failed" failing_report failing_state failing_task);
    [vm_compute; reflexivity|reflexivity|reflexivity|vm_compute; reflexivity].
Defined.

(** ** An SSH task *)

#[local] Instance example_plugins : Plugins := {
  ValidateConfiguration := λ _ _, Ok tt;
  Discover := λ op _ request, Ok (mkObservationEnvelope SchemaVersion "obs-1" (Request_SiteID request)
    (Request_CollectorID request) op (Request_JobID request) 0 [] [] [] ∅);
}.
Definition example_policy : Policy :=
  mkPolicy "pool" "site" false true false [] "" [mkPrefix (mkAddr true 167772160 "") 24]
    (Sha256.sha256_hex "known_hosts") 0 0 0.
Definition example_task (cidr : string) : Task :=
  mkTask "task-1" "run-1" "attempt-1" "token" (160 * Second) OperationSSHLinuxV1 "ssh" 1 "binding"
    (Some (mkTargetPartition (Sha256.sha256_hex cidr) 0 1 [cidr])) (600 * Second).
Definition example_credential : option (go PasswordCredential) := Some (Ok (mkPasswordCredential "root" "secret")).

Example ssh_allowed :
  omap call_request (execute (mkExecutor example_policy true false) (100 * Second) (100 * Second) (example_task "10.0.0.5/32")
    example_credential).1 !! 0%nat =
  Some (OperationSSHLinuxV1, None, mkDiscoveryRequest "task-1" "site" "worker-pool-pool" ["root@10.0.0.5:22"%string] (130 * Second)).
Proof. vm_compute. reflexivity. Qed.
Example ssh_outside :
  execute (mkExecutor example_policy true false) (100 * Second) (100 * Second) (example_task "10.0.1.5/32") example_credential =
  ([], Returned (Err "ssh_linux.v1 target is outside the local allowlist"%string)).
Proof. vm_compute. reflexivity. Qed.
