(* ===== verification/WorkerClient.v ===== *)
(** * [internal/worker/client.go]: the worker's side of the control plane

    The seven requests a worker may make and the reading of their answers.  The URL
    parser, the two strict JSON decoders and the HTTP client are the standard library's;
    [Client_*] gives, from the encoded request and what the HTTP client answered, the value
    or the error of the call. *)

From S2P Require Import Prelude Bytes Text Strconv Time Model Netip Contract Partition Policy Publish Executor.

Definition maxControlRequestBytes : Z := 2 * 2 ^ 20.
Definition maxControlResponseSize : Z := 2 ^ 20.

Definition validToken (token : string) : bool :=
  if String.eqb token "" || (64 * 2 ^ 10 <? slen token) then false
  else negb (existsb (λ r, is_space r || is_control r) (runes token)).

(** ** The client *)

Record WorkerClient := mkWorkerClient { baseURL : string; worker_token : string }.

Definition NewClient (parsed : option URL) (instanceURL token : string) : go WorkerClient :=
  match parsed with
  | None => Err "ServiceNow instance URL must be an absolute HTTPS URL"%string
  | Some u =>
    reject negb (String.eqb (Scheme u) "https") || String.eqb (Text.Host u) "" with "ServiceNow instance URL must be an absolute HTTPS URL"%string ;;
    reject bool_decide (URL_User u ≠ None) || (negb (String.eqb (Path u) "") && negb (String.eqb (Path u) "/")) || ForceQuery u
           || negb (String.eqb (RawQuery u) "") || negb (String.eqb (Fragment u) "")
      with "ServiceNow instance URL must not contain credentials, a path, query parameters, or a fragment"%string ;;
    reject negb (validToken token) with "ServiceNow worker bearer token is invalid"%string ;;
    Ok (mkWorkerClient (trim_right_slashes instanceURL) token)
  end.

(** ** One request *)

(** An ordinary error, or an [*HTTPError]. *)
Inductive worker_error := WorkerError (msg : string) | HTTPError (StatusCode : Z) (Retryable : bool) (msg : string).

(** What the HTTP client makes of a request: no answer, or a status with the header
    [Cache-Control] and the body as far as it was read ([None]: reading failed). *)
Inductive http_answer :=
| no_answer
| answered_with (status : Z) (cache_control : string) (body : option string).

Section post.
(** [json.Marshal] on a request; the decoder of the envelope, which gives the raw bytes of
    its result; both decoders refuse unknown fields and anything behind the value. *)
Variable decode_envelope : string → option string.

Definition postResponse {A} (requestBody : string) (decode : string → option A) (o : http_answer) : result worker_error (string * A) :=
  if maxControlRequestBytes <? slen requestBody then Err (WorkerError "ServiceNow worker request exceeds %d bytes")
  else match o with
  | no_answer => Err (HTTPError 0 true "send ServiceNow worker request: %w")
  | answered_with _ _ None => Err (HTTPError 0 true "read ServiceNow worker response: %w")
  | answered_with status cache_control (Some body) =>
    if maxControlResponseSize <? slen body then Err (HTTPError status false "ServiceNow worker response exceeds %d bytes")
    else if (status <? 200) || (300 <=? status)
    then Err (HTTPError status ((status =? 429) || (500 <=? status)) "ServiceNow worker API returned %s")
    else if String.eqb (trim_space body) "" then Err (WorkerError "ServiceNow worker API returned an empty response")
    else match decode_envelope body with
    | None => Err (WorkerError "ServiceNow worker API returned an invalid response envelope")
    | Some result =>
      if String.eqb (trim_space result) "" || String.eqb (trim_space result) "null"
      then Err (WorkerError "ServiceNow worker API returned an empty result")
      else match decode result with
      | None => Err (WorkerError "ServiceNow worker API returned an invalid result")
      | Some a => Ok (cache_control, a)
      end
    end
  end.

Definition post {A} (requestBody : string) (decode : string → option A) (o : http_answer) : result worker_error A :=
  try r := postResponse requestBody decode o ;; Ok r.2.

(** ** The requests *)

(** A request about a task is made for a well-formed identifier only. *)
Definition post_task {A} (taskID : string) (k : result worker_error A) : result worker_error A :=
  if match_safe_id taskID then k else Err (WorkerError "task ID is invalid").

Definition Client_Claim (now : time) (requestBody : string) (decode : string → option (option Task)) (o : http_answer)
    : result worker_error (option Task) :=
  try response := post requestBody decode o ;;
  match response with
  | None => Ok None
  | Some task => match validateTask now task with Ok _ => Ok (Some task) | Err e => Err (WorkerError e) end
  end.

Definition headerHasNoStore (cache_control : string) : bool :=
  existsb (λ directive, EqualFold_ascii (trim_space directive) "no-store") (split_byte (byte_of 44) cache_control).

Definition Client_Credential (taskID requestBody : string) (decode : string → option PasswordCredential) (o : http_answer)
    : result worker_error PasswordCredential :=
  post_task taskID (
    try r := postResponse requestBody decode o ;;
    let '(headers, response) := r in
    if negb (headerHasNoStore headers) then Err (WorkerError "ServiceNow credential response is missing Cache-Control: no-store")
    else if negb (password_ok safePasswordUsername response) then Err (WorkerError "ServiceNow returned an invalid task credential")
    else Ok response).

(** [Register], [Heartbeat]; [Renew], [SubmitResult], [Complete]. *)
Definition Client_Register (requestBody : string) (decode : string → option string) (o : http_answer) : result worker_error string :=
  post requestBody decode o.
Definition Client_Heartbeat (requestBody : string) (decode : string → option (list string)) (o : http_answer)
    : result worker_error (list string) := post requestBody decode o.
Definition Client_Renew (taskID requestBody : string) (decode : string → option RenewResponse) (o : http_answer)
    : result worker_error RenewResponse := post_task taskID (post requestBody decode o).
Definition Client_SubmitResult (taskID requestBody : string) (decode : string → option ResultChunkResponse) (o : http_answer)
    : result worker_error ResultChunkResponse := post_task taskID (post requestBody decode o).
Definition Client_Complete (taskID requestBody : string) (decode : string → option CompleteResponse) (o : http_answer)
    : result worker_error CompleteResponse := post_task taskID (post requestBody decode o).

(** ** What an answer has to be *)

(** A clean answer: two hundred and something, within the bound, one envelope with a
    result that is neither missing nor null. *)
Definition clean_answer {A} (decode : string → option A) (o : http_answer) (cache_control : string) (a : A) : Prop :=
  ∃ status body result, o = answered_with status cache_control (Some body) ∧ 200 <= status < 300 ∧ slen body <= maxControlResponseSize ∧
    decode_envelope body = Some result ∧ trim_space result ≠ ""%string ∧ trim_space result ≠ "null"%string ∧ decode result = Some a.

Lemma postResponse_ok {A} requestBody (decode : string → option A) o r : postResponse requestBody decode o = Ok r →
  slen requestBody <= maxControlRequestBytes ∧ clean_answer decode o r.1 r.2.
Proof.
  unfold postResponse. destruct (Z.ltb_spec maxControlRequestBytes (slen requestBody)) as [|Hreq]; [done|].
  destruct o as [|status cache [body|]]; [done| |done].
  destruct (Z.ltb_spec maxControlResponseSize (slen body)) as [|Hres]; [done|].
  destruct (_ || _) eqn:Hst; [done|]. apply orb_false_iff in Hst as [?%Z.ltb_ge ?%Z.leb_gt].
  destruct (String.eqb (trim_space body) ""); [done|]. destruct (decode_envelope body) as [result|] eqn:He; [|done].
  destruct (_ || _) eqn:Hn; [done|]. apply orb_false_iff in Hn as [?%String.eqb_neq ?%String.eqb_neq].
  destruct (decode result) as [a|] eqn:Hd; [|done]. intros [= <-]. split; [done|]. by exists status, body, result.
Qed.

Lemma post_ok {A} requestBody (decode : string → option A) o a : post requestBody decode o = Ok a →
  slen requestBody <= maxControlRequestBytes ∧ ∃ cache_control, clean_answer decode o cache_control a.
Proof.
  unfold post. destruct (postResponse requestBody decode o) as [[cache b]|] eqn:Hp; [|done]. intros [= <-].
  apply postResponse_ok in Hp as [? ?]. split; [done|by exists cache].
Qed.

(** Which tasks, credentials and errors a worker accepts from the control plane: a
    claimed task came with a clean answer and validates, so its lease ends after now and
    not behind its deadline; a credential came with a clean answer that forbids storing
    it, for a well-formed task; and an error that may be repeated is one that nothing
    answered, or a 429 or a server error within the bound. *)
Theorem Client_answers_spec (now : time) (taskID requestBody : string) (o : http_answer)
    (decode_task : string → option (option Task)) (decode_password : string → option PasswordCredential) :
  (∀ task, Client_Claim now requestBody decode_task o = Ok (Some task) →
     (∃ cache_control, clean_answer decode_task o cache_control (Some task)) ∧ validateTask now task = Ok tt ∧
     now < Task_LeaseExpiresAt task <= Task_Deadline task) ∧
  (∀ c, Client_Credential taskID requestBody decode_password o = Ok c →
     match_safe_id taskID = true ∧ password_ok safePasswordUsername c = true ∧
     ∃ cache_control, clean_answer decode_password o cache_control c ∧ headerHasNoStore cache_control = true) ∧
  (∀ A (decode : string → option A) status msg, post requestBody decode o = Err (HTTPError status true msg) ↔
     slen requestBody <= maxControlRequestBytes ∧
     ((o = no_answer ∧ status = 0 ∧ msg = "send ServiceNow worker request: %w"%string) ∨
      (∃ code cache, o = answered_with code cache None ∧ status = 0 ∧ msg = "read ServiceNow worker response: %w"%string) ∨
      (∃ cache body, o = answered_with status cache (Some body) ∧ slen body <= maxControlResponseSize ∧
         (status = 429 ∨ 500 <= status) ∧ msg = "ServiceNow worker API returned %s"%string))).
Proof.
  split; [|split].
  - intros task. unfold Client_Claim. destruct (post requestBody decode_task o) as [[k|]|] eqn:Hp; [|done..].
    apply post_ok in Hp as [_ Hc]. destruct (validateTask now k) as [[]|] eqn:Hv; [|done]. intros [= ->].
    split; [done|]. split; [done|]. by apply validateTask_spec in Hv as (_&_&?&_).
  - intros c. unfold Client_Credential, post_task. destruct (match_safe_id taskID) eqn:Hid; [|done].
    destruct (postResponse requestBody decode_password o) as [[cache b]|] eqn:Hp; [|done]. cbn.
    destruct (headerHasNoStore cache) eqn:Hns; [|done]. destruct (password_ok safePasswordUsername b) eqn:Hpw; [|done].
    intros [= ->]. apply postResponse_ok in Hp as [_ ?]. split; [done|]. split; [done|]. by exists cache.
  - intros A decode status msg. unfold post, postResponse.
    destruct (Z.ltb_spec maxControlRequestBytes (slen requestBody)) as [|Hreq]; [split; [done|lia]|].
    destruct o as [|code cache [body|]]; cbn.
    + split; [intros [= <- <-]; auto|]. intros [_ [(_&->&->)|[(?&?&?&_)|(?&?&?&_)]]]; done.
    + destruct (Z.ltb_spec maxControlResponseSize (slen body)) as [|Hres].
      { split; [done|]. intros [_ [(?&_)|[(?&?&?&_)|(?&?&[= <- _ <-]&?&_)]]]; [done..|lia]. }
      destruct ((code <? 200) || (300 <=? code)) eqn:Hst; cbn.
      * split.
        -- intros [= <- Hr <-]. split; [done|]. right; right. exists cache, body. split; [done|]. split; [done|].
           split; [|done]. apply orb_true_iff in Hr as [?%Z.eqb_eq|?%Z.leb_le]; auto.
        -- intros [_ [(?&_)|[(?&?&?&_)|(?&?&[= <- _ <-]&_&Hr&->)]]]; [done..|]. do 2 f_equal.
           apply orb_true_iff. rewrite Z.eqb_eq, Z.leb_le. tauto.
      * split.
        { destruct (String.eqb (trim_space body) ""); [done|]. destruct (decode_envelope body) as [result|]; [|done].
          destruct (String.eqb (trim_space result) "" || _); [done|]. by destruct (decode result). }
        intros [_ [(?&_)|[(?&?&?&_)|(?&?&[= <- _ <-]&_&Hr&_)]]]; [done..|].
        apply orb_false_iff in Hst as [_ ?%Z.leb_gt]. lia.
    + split; [intros [= <- <-]; split; [done|]; right; left; by exists code, cache|].
      intros [_ [(?&_)|[(?&?&_&->&->)|(?&?&?&_)]]]; done.
Qed.
End post.

Example no_store_listed : headerHasNoStore "private, No-Store" = true.
Proof. vm_compute. reflexivity. Qed.
Example no_store_missing : headerHasNoStore "private, max-age=0" = false.
Proof. vm_compute. reflexivity. Qed.
