(* ===== verification/WorkerRun.v ===== *)
(** * [internal/worker/run.go]: the worker process

    Registration, the preflight check, the claim cycle, one task from its claim to its
    completion, and the renewal of its lease.  The control plane is the interface
    [ControlPlane]; the executor is that of [Executor.v].

    The goroutines of a worker meet in three places: the set of active attempts, the
    contexts that cancel one another, and the control plane.  A program here is one
    goroutine; each of its effects takes an [Input] that says what the others did since
    its last effect: how they changed the control plane, which attempts they removed,
    and what a context or the lease loop says at that moment.  [maintainLease] is the
    lease loop by itself, over what it observes in each round. *)

From S2P Require Import Prelude Effects Bytes Text Sha256 Time Model Contract Policy Executor WorkerClient.

Definition DefaultPollInterval : duration := 15 * Second.
Definition MaxPollInterval : duration := Hour.
Definition errTaskCancelled : string := "task was cancelled by ServiceNow".

(** [ControlPlane]; the answer is what the worker sees when nothing is lost. *)
Class ControlPlane (P : Type) := {
  Register : RegisterRequest → P → go string * P;
  Heartbeat : WorkerHeartbeatRequest → P → go (list string) * P;
  Claim : ClaimRequest → P → go (option Task) * P;
  Renew : string → RenewRequest → P → go RenewResponse * P;
  Credential : string → CredentialRequest → P → go PasswordCredential * P;
  SubmitResult : string → ResultChunkRequest → P → go ResultChunkResponse * P;
  Complete : string → CompleteRequest → P → go CompleteResponse * P;
}.

(** How the lease loop of a task ended. *)
Inductive lease_end := Lease_stopped | Lease_cancelled | Lease_lost.
#[export] Instance lease_end_eq_dec : EqDecision lease_end.
Proof. solve_decision. Defined.

(** What a worker did, latest first; [go A] is the answer it saw. *)
Inductive worker_event :=
| Registered (q : RegisterRequest) (a : go string)
| Beat (q : WorkerHeartbeatRequest) (a : go (list string))
| Claimed (q : ClaimRequest) (a : go (option Task))
| Asked_credential (taskID : string) (q : CredentialRequest) (a : go PasswordCredential)
| Submitted (taskID : string) (q : ResultChunkRequest) (a : go ResultChunkResponse)
| Completed (taskID : string) (q : CompleteRequest) (a : go CompleteResponse)
| Executed (task : Task) (calls : list call) (r : executed)
| Started (task : Task)
| Cancelling (attemptIDs : list string).

(** [activeTasks] and the control plane, with what the worker did. *)
Record WorkerWorld P := mkWorkerWorld { plane : P; active : gset string; log : list worker_event }.
Arguments mkWorkerWorld {P} plane active log.
Arguments plane {P} w.
Arguments active {P} w.
Arguments log {P} w.

Record Input P := mkInput {
  In_ending : ending;
  In_undelivered : bool;           (* of a request that failed: it did not arrive *)
  In_others : P → P;               (* what others did at the control plane *)
  In_finished : list string;       (* attempts whose goroutine has ended *)
  In_now : time;                   (* [time.Now] *)
  In_current : time;               (* the clock of the executor *)
  In_wait : option string;         (* why waiting for a start failed *)
  In_canceled : bool;              (* the error is [context.Canceled] *)
  In_root_done : bool;             (* the process is asked to stop *)
  In_lease : lease_end;            (* what the lease loop returns *)
}.
Arguments In_ending {P} i.
Arguments In_undelivered {P} i.
Arguments In_others {P} i.
Arguments In_finished {P} i.
Arguments In_now {P} i.
Arguments In_current {P} i.
Arguments In_wait {P} i.
Arguments In_canceled {P} i.
Arguments In_root_done {P} i.
Arguments In_lease {P} i.

(** [RunConfig]; the executor carries the same policy. *)
Record WorkerRunConfig := mkWorkerRunConfig {
  Run_Policy : Policy;
  Run_Version : string;
  Run_PollInterval : duration;
  Run_Executor : Executor;
  Run_BootID : string;
}.
Record registration := mkRegistration { reg_workerID : string; reg_bootID : string }.
Record CheckResult := mkCheckResult {
  Check_Status : string;
  Check_WorkerID : string;
  Check_BootID : string;
  Check_WorkerPool : string;
  Check_SiteID : string;
  Check_Capabilities : list string;
}.

(** The checks at the start of [Run]; the interval is replaced when it is zero. *)
Definition Run_checked (c : WorkerRunConfig) : go WorkerRunConfig :=
  try u := Policy_Validate (Run_Policy c) ;;
  let interval := if Run_PollInterval c =? 0 then DefaultPollInterval else Run_PollInterval c in
  reject (interval <? Second) || (MaxPollInterval <? interval) with "worker poll interval must be between 1s and 1h"%string ;;
  Ok (mkWorkerRunConfig (Run_Policy c) (Run_Version c) interval (Run_Executor c) (Run_BootID c)).

Section worker.
Context {P : Type} `{ControlPlane P} `{Plugins}.
(** [json.Marshal] on an observation, and what [randomID] returns. *)
Variable encode : ObservationEnvelope → go string.
Variable randomID : go string.
Variable config : WorkerRunConfig.
Variable quiet : Input P.

Abbreviation worker := (prog (Input P) (WorkerWorld P)).

Definition note (e : worker_event) (w : WorkerWorld P) : WorkerWorld P := mkWorkerWorld (plane w) (active w) (e :: log w).

(** What others did before the effect. *)
Definition meanwhile (i : Input P) (w : WorkerWorld P) : WorkerWorld P :=
  mkWorkerWorld (In_others i (plane w)) (active w ∖ list_to_set (In_finished i)) (log w).

(** Nothing is sent: a reading of clocks and contexts, or a change of the active set. *)
Definition observe {A} (f : Input P → WorkerWorld P → A * WorkerWorld P) : worker A := with_input quiet (λ i w,
  let w := meanwhile i w in
  match In_ending i with Dying => (Crashed, w) | _ => let '(a, w) := f i w in (Done a, w) end).
Definition look {A} (f : Input P → A) : worker A := observe (λ i w, (f i, w)).

(** A request: it fails before or after it was served, and a process that dies may have
    sent it. *)
Definition call_plane {A} (event : go A → worker_event) (serve : P → go A * P) : worker (go A) := with_input quiet (λ i w,
  let w := meanwhile i w in
  let served := mkWorkerWorld (serve (plane w)).2 (active w) (log w) in
  let lost := Err "send ServiceNow worker request: %w" in
  match In_ending i with
  | Answered => (Done (serve (plane w)).1, note (event (serve (plane w)).1) served)
  | Failing => (Done lost, note (event lost) (if In_undelivered i then w else served))
  | Dying => (Crashed, if In_undelivered i then w else note (event lost) served)
  end).

(** A panic ends the process. *)
Definition panic {A} : worker A := λ xs w, (Crashed, xs, w).

(** ** [register] and [Check] *)

Definition register : worker (go registration) :=
  match (if String.eqb (Run_BootID config) "" then randomID else Ok (Run_BootID config)) with
  | Err e => mret (Err e)
  | Ok bootID =>
    if negb (match_safe_id bootID) then mret (Err "worker boot ID is invalid")
    else match Policy_Digest (Run_Policy config) with
    | Err e => mret (Err e)
    | Ok digest =>
      now ← look In_now;
      let request := mkRegisterRequest ContractVersion bootID (Policy_WorkerPool (Run_Policy config)) (Policy_SiteID (Run_Policy config))
        (truncate (Run_Version config) 64) (Capabilities (Run_Policy config)) digest (concurrency (Run_Policy config)) now in
      response ← call_plane (Registered request) (Register request);
      mret match response with
           | Err _ => Err "register ServiceNow worker: %w"
           | Ok workerID =>
             if match_safe_id workerID then Ok (mkRegistration workerID bootID) else Err "ServiceNow returned an invalid worker ID"
           end
    end
  end.

Definition heartbeat_request (reg : registration) (leases : Z) (now : time) : WorkerHeartbeatRequest :=
  mkWorkerHeartbeatRequest ContractVersion (reg_workerID reg) (reg_bootID reg) leases now.

(** The one heartbeat of a registered check. *)
Definition Check_heartbeat (reg : registration) : worker (go CheckResult) :=
  now ← look In_now;
  let request := heartbeat_request reg 0 now in
  beat ← call_plane (Beat request) (Heartbeat request);
  mret match beat with
       | Err _ => Err "heartbeat ServiceNow worker: %s"
       | Ok _ => Ok (mkCheckResult "ready" (reg_workerID reg) (reg_bootID reg) (Policy_WorkerPool (Run_Policy config))
                       (Policy_SiteID (Run_Policy config)) (Capabilities (Run_Policy config)))
       end.

Definition Check : worker (go CheckResult) :=
  match Policy_Validate (Run_Policy config) with
  | Err e => mret (Err e)
  | Ok _ =>
    registered ← register;
    match registered with
    | Err e => mret (Err (truncate e maxFailureBytes))
    | Ok reg => Check_heartbeat reg
    end
  end.

(** ** One task *)

Section task.
Variable reg : registration.
Variable task : Task.

Definition credential_request : CredentialRequest :=
  mkCredentialRequest ContractVersion (reg_workerID reg) (reg_bootID reg) (Task_AttemptID task) (Task_LeaseToken task).

(** [ExecuteWithCredentials]: the credential is asked for where the executor asks for it. *)
Definition run_executor : worker executed :=
  '(now, current) ← look (λ i, (In_now i, In_current i));
  let asked := (execute (Run_Executor config) now current task (Some (Err ""))).1 in
  credential ←
    (if existsb is_credential asked
     then call_plane (Asked_credential (Task_TaskID task) credential_request) (Credential (Task_TaskID task) credential_request)
     else mret (Err ""));
  let '(calls, r) := execute (Run_Executor config) now current task (Some credential) in
  observe (λ _ w, (r, note (Executed task calls r) w)).

Definition stop_lease : worker lease_end := look In_lease.
Definition root_done : worker bool := look In_root_done.

Definition complete_request (success : bool) (chunks : Z) (failure : option Failure) : CompleteRequest :=
  mkCompleteRequest ContractVersion (reg_workerID reg) (reg_bootID reg) (Task_AttemptID task) (Task_LeaseToken task)
    success chunks failure.
Definition send_complete (q : CompleteRequest) : worker (go CompleteResponse) :=
  call_plane (Completed (Task_TaskID task) q) (Complete (Task_TaskID task) q).

Definition reportFailure (code cause : string) : worker unit :=
  a ← send_complete (complete_request false 0 (Some (mkFailure code (failure_message cause) false)));
  mret tt.

(** A task that ServiceNow cancelled is reported so, unless the process is stopping. *)
Definition report_cancelled : worker unit :=
  stop ← stop_lease;
  root ← root_done;
  if bool_decide (stop = Lease_cancelled) && negb root then reportFailure "cancelled" errTaskCancelled else mret tt.

Definition chunk_request (payload : string) : ResultChunkRequest :=
  mkResultChunkRequest ContractVersion (reg_workerID reg) (reg_bootID reg) (Task_AttemptID task) (Task_LeaseToken task)
    0 1 (sha256_hex payload) payload.

(** The part behind the encoding of the observation. *)
Definition deliver_payload (payload : string) : worker unit :=
  let chunk := chunk_request payload in
  ack ← call_plane (Submitted (Task_TaskID task) chunk) (SubmitResult (Task_TaskID task) chunk);
  match ack with
  | Err _ => report_cancelled
  | Ok ack =>
    if negb (Accepted ack) then u ← stop_lease; mret tt
    else
      completed ← send_complete (complete_request true 1 None);
      report_cancelled
  end.

(** The executor returned an error. *)
Definition fail_task (e : string) : worker unit :=
  root ← root_done;
  if (root : bool) then mret tt
  else
    canceled ← look In_canceled;
    if (canceled : bool) then
      stop ← stop_lease;
      if bool_decide (stop = Lease_lost) then mret tt else reportFailure "cancelled" errTaskCancelled
    else
      reportFailure (if String.eqb e ErrCredentialResolution then "credential_resolution_failed" else "operation_failed") e.

(** The executor is done. *)
Definition conclude (executed : executed) : worker unit :=
  match executed with
  | Execute_panicked => panic
  | Returned (Err e) => fail_task e
  | Returned (Ok observation) =>
    match encode observation with
    | Err e => reportFailure "observation_encode_failed" e
    | Ok payload =>
      if Z.quot maxControlRequestBytes 2 <? slen payload then reportFailure "observation_too_large" "observation exceeds %d bytes"
      else deliver_payload payload
    end
  end.

Definition executeTask : worker unit :=
  waited ← (if String.eqb (Task_Operation task) OperationLocalV1 then mret None else look In_wait);
  match waited with
  | Some e => fail_task e
  | None => executed ← run_executor; conclude executed
  end.
End task.

(** ** The claim cycle *)

Definition count_active : worker Z := observe (λ _ w, (Z.of_nat (size (active w)), w)).

(** [activeTasks.add], and the start of the task's goroutine. *)
Definition add_active (task : Task) : worker bool := observe (λ _ w,
  if concurrency (Run_Policy config) <=? Z.of_nat (size (active w)) then (false, w)
  else if bool_decide (Task_AttemptID task ∈ active w) then (false, w)
  else (true, note (Started task) (mkWorkerWorld (plane w) ({[Task_AttemptID task]} ∪ active w) (log w)))).

Definition cancelAttempts (attemptIDs : list string) : worker unit := observe (λ _ w,
  (tt, note (Cancelling (filter (λ id, id ∈ active w) attemptIDs)) w)).

(** The loop over claims; it goes on while work is handed out and there is room, so it is
    given fuel: [None] when the fuel did not suffice. *)
Fixpoint claim_loop (fuel : nat) (reg : registration) : worker (option unit) :=
  match fuel with
  | O => mret None
  | S fuel =>
    n ← count_active;
    if negb (n <? concurrency (Run_Policy config)) then mret (Some tt)
    else
      leases ← count_active;
      let request := mkClaimRequest ContractVersion (reg_workerID reg) (reg_bootID reg) (Capabilities (Run_Policy config)) leases in
      claim ← call_plane (Claimed request) (Claim request);
      match claim with
      | Err _ | Ok None => mret (Some tt)
      | Ok (Some task) =>
        added ← add_active task;
        if negb added then mret (Some tt) else claim_loop fuel reg
      end
  end.

Definition runCycle (fuel : nat) (reg : registration) : worker (option unit) :=
  leases ← count_active;
  now ← look In_now;
  let request := heartbeat_request reg leases now in
  beat ← call_plane (Beat request) (Heartbeat request);
  match beat with
  | Err _ => mret (Some tt)
  | Ok cancelled => u ← cancelAttempts cancelled; claim_loop fuel reg
  end.
End worker.

(** ** The lease loop *)

(** One round: the clock at its start, whether the context ended while waiting, the answer
    to the renewal, whether the context had ended when it failed, the clock behind it. *)
Record lease_round := mkLeaseRound {
  Round_now : time;
  Round_stopped : bool;
  Round_answer : go RenewResponse;
  Round_ctx_done : bool;
  Round_after : time;
}.

Definition renew_delay (remaining : duration) : duration :=
  let delay := Z.quot remaining 2 in
  let delay := if 30 * Second <? delay then 30 * Second else delay in
  let delay := if delay <? 10 * Millisecond then 10 * Millisecond else delay in
  if remaining <=? delay then Z.quot remaining 2 else delay.

(** A wait before a renewal: when it began, the expiry it counted on, its length. *)
Record lease_wait := mkLeaseWait { Wait_now : time; Wait_expires : time; Wait_delay : duration }.

(** [None]: still renewing when the observed rounds end.  Every end but [Lease_stopped]
    cancels the task. *)
Fixpoint maintainLease (deadline : time) (rounds : list lease_round) (expires : time) : list lease_wait * option lease_end :=
  match rounds with
  | [] => ([], None)
  | r :: rounds =>
    let remaining := Sub expires (Round_now r) in
    if remaining <=? 0 then ([], Some Lease_lost)
    else
      let wait := mkLeaseWait (Round_now r) expires (renew_delay remaining) in
      if Round_stopped r then ([wait], Some Lease_stopped)
      else
        match Round_answer r with
        | Err _ =>
          if Round_ctx_done r then ([wait], Some Lease_stopped)
          else let '(waits, e) := maintainLease deadline rounds expires in (wait :: waits, e)
        | Ok response =>
          if RenewResponse_Cancelled response then ([wait], Some Lease_cancelled)
          else if negb (After (RenewResponse_LeaseExpiresAt response) (Round_after r)) || After (RenewResponse_LeaseExpiresAt response) deadline
          then ([wait], Some Lease_lost)
          else let '(waits, e) := maintainLease deadline rounds (RenewResponse_LeaseExpiresAt response) in (wait :: waits, e)
        end
  end.
