(* ===== verification/WorkerSafety.v ===== *)
(** * What a worker does, whatever the others do

    [attempt_step] is the protocol of one attempt: a credential, one execution, one
    result, one completion, and perhaps the report of a cancellation.  [executeTask]
    keeps to it for every behaviour of the control plane, of the contexts and of the
    lease loop, and for a process that dies at any effect.  The claim cycle keeps the
    number of active attempts within the policy, the preflight check never asks for
    work, and the lease loop renews before the expiry it was granted and ends. *)

From S2P Require Import Prelude Effects Bytes Text Sha256 Time Model Contract Policy Executor WorkerClient WorkerRun.

Section safety.
Context {P : Type} `{ControlPlane P} `{Plugins}.
Variable encode : ObservationEnvelope → go string.
Variable randomID : go string.
Variable config : WorkerRunConfig.
Variable quiet : Input P.

Abbreviation worker := (prog (Input P) (WorkerWorld P)).

(** ** Effects *)

(** A property of the world that others cannot change, nor the end of a goroutine. *)
Class Stable (R : WorkerWorld P → Prop) := stable i w : R w → R (meanwhile i w).

Lemma triple_observe {A} R (f : Input P → WorkerWorld P → A * WorkerWorld P) (Q : A → WorkerWorld P → Prop) E `{!Stable R} :
  (∀ i w, R w → Q (f i w).1 (f i w).2) → (∀ w, R w → E w) → triple R (observe quiet f) Q E.
Proof.
  intros HQ HE. apply triple_input. intros i w Hw. pose proof (stable i w Hw) as Hm.
  specialize (HQ i _ Hm). destruct (In_ending i); simpl; [..|by apply HE]; by destruct (f i (meanwhile i w)).
Qed.

Lemma triple_look {A} R (f : Input P → A) (Q : A → WorkerWorld P → Prop) E `{!Stable R} :
  (∀ i w, R w → Q (f i) w) → (∀ w, R w → E w) → triple R (look quiet f) Q E.
Proof. intros HQ HE. apply triple_observe; [done|intros i w Hw; by apply HQ|done]. Qed.

(** A reading of a clock or a context leaves what is known of the world as it is. *)
Ltac step_look :=
  match goal with |- triple ?R _ _ _ =>
    eapply triple_bind; [apply (triple_look R _ (λ _, R)); [apply _|by intros ? ?|by eauto]|]; cbn beta iota zeta
  end.

(** A request: all that matters of it is what it adds to the log. *)
Lemma plane_call_triple {A} R (event : go A → worker_event) (serve : P → go A * P) (Q : go A → WorkerWorld P → Prop) E `{!Stable R} :
  (∀ w p, R w → R (mkWorkerWorld p (active w) (log w))) → (∀ a w, R w → Q a (note (event a) w)) → (∀ w, R w → E w) → (∀ a w, Q a w → E w) →
  triple R (call_plane quiet event serve) Q E.
Proof.
  intros HP HQ HE HQE. apply triple_input. intros i w Hw. pose proof (stable i w Hw) as Hm.
  pose proof (HP _ (serve (plane (meanwhile i w))).2 Hm) as Hs.
  destruct (In_ending i); simpl; [by apply HQ|destruct (In_undelivered i); by apply HQ|].
  destruct (In_undelivered i); [by apply HE|by eapply HQE, HQ].
Qed.

(** ** The protocol of an attempt *)

Section attempt.
Variable reg : registration.
Variable task : Task.

Inductive attempt_phase :=
| Fresh
| Ready (c : go PasswordCredential)          (* a credential was asked for *)
| Ran (r : executed)
| Sent (a : go ResultChunkResponse)
| Succeeded
| Ended.

(** The failure of an attempt, as it is reported. *)
Definition failure_request (code cause : string) : CompleteRequest :=
  complete_request reg task false 0 (Some (mkFailure code (failure_message cause) false)).

Inductive attempt_step : attempt_phase → worker_event → attempt_phase → Prop :=
| step_credential a : attempt_step Fresh (Asked_credential (Task_TaskID task) (credential_request reg task) a) (Ready a)
| step_execute ph calls r :
    ph = Fresh ∧ existsb is_credential calls = false ∨ (∃ c, ph = Ready c) →
    count is_discovery calls <= 1 → attempt_step ph (Executed task calls r) (Ran r)
| step_not_started code cause a :
    Task_Operation task ≠ OperationLocalV1 → attempt_step Fresh (Completed (Task_TaskID task) (failure_request code cause) a) Ended
| step_failure r code cause a :
    (∀ o payload, r = Returned (Ok o) → encode o = Ok payload → 2 ^ 20 < slen payload) →
    attempt_step (Ran r) (Completed (Task_TaskID task) (failure_request code cause) a) Ended
| step_submit o payload a :
    encode o = Ok payload → slen payload <= 2 ^ 20 →
    attempt_step (Ran (Returned (Ok o))) (Submitted (Task_TaskID task) (chunk_request reg task payload) a) (Sent a)
| step_success r a :
    Accepted r = true → attempt_step (Sent (Ok r)) (Completed (Task_TaskID task) (complete_request reg task true 1 None) a) Succeeded
| step_cancelled ph a :
    ph = Succeeded ∨ (∃ e, ph = Sent (Err e)) →
    attempt_step ph (Completed (Task_TaskID task) (failure_request "cancelled" errTaskCancelled) a) Ended.

(** Events in the order in which they happened. *)
Inductive attempt_run : attempt_phase → list worker_event → attempt_phase → Prop :=
| run_nil ph : attempt_run ph [] ph
| run_snoc ph l ph1 e ph2 : attempt_run ph l ph1 → attempt_step ph1 e ph2 → attempt_run ph (l ++ [e]) ph2.

Variable before : list worker_event.

(** The events since [before] have taken the attempt to [ph]. *)
Definition at_phase (ph : attempt_phase) (w : WorkerWorld P) : Prop :=
  ∃ l, log w = reverse l ++ before ∧ attempt_run Fresh l ph.
Definition some_phase (w : WorkerWorld P) : Prop := ∃ ph, at_phase ph w.

#[local] Instance at_phase_stable ph : Stable (at_phase ph).
Proof. by intros i w. Qed.

Lemma at_phase_some ph w : at_phase ph w → some_phase w.
Proof. by exists ph. Qed.


#[local] Hint Resolve at_phase_some : core.






Lemma count_existsb {A} (f : A → bool) l : count f l = 0 → existsb f l = false.
Proof.
  induction l as [|x l IH]; [done|]. simpl. pose proof (count_nonneg f l). destruct (f x); simpl; [lia|auto].
Qed.











End attempt.


(** ** The preflight check *)

(** Since [before], exactly the events of [l], latest first; no attempt has become active. *)
Definition logged (l before : list worker_event) (attempts : gset string) (w : WorkerWorld P) : Prop :=
  log w = l ++ before ∧ active w ⊆ attempts.
#[local] Instance logged_stable l before attempts : Stable (logged l before attempts).
Proof. intros i w [Hl Ha]. split; [done|]. simpl. set_solver. Qed.

Lemma triple_logged {A} l before attempts (event : go A → worker_event) (serve : P → go A * P) (E : WorkerWorld P → Prop) :
  (∀ w, logged l before attempts w → E w) → (∀ a w, logged (event a :: l) before attempts w → E w) →
  triple (logged l before attempts) (call_plane quiet event serve) (λ a, logged (event a :: l) before attempts) E.
Proof. intros HE HE'. apply plane_call_triple; [apply _|done| |done|by eauto]. intros a w [Hl Ha]. split; [simpl; by rewrite Hl|done]. Qed.

(** What a registration announces. *)
Definition announces (q : RegisterRequest) : Prop :=
  Register_WorkerPool q = Policy_WorkerPool (Run_Policy config) ∧ Register_SiteID q = Policy_SiteID (Run_Policy config) ∧
  Register_Capabilities q = Capabilities (Run_Policy config) ∧ Policy_Digest (Run_Policy config) = Ok (Register_PolicyDigest q) ∧
  Register_MaxConcurrency q = concurrency (Run_Policy config) ∧ match_safe_id (Register_BootID q) = true.

(** The events of a check, latest first. *)
Definition check_events (l : list worker_event) : Prop :=
  l = [] ∨ ∃ q a, announces q ∧ (l = [Registered q a] ∨ ∃ q' a', l = [Beat q' a'; Registered q a] ∧ WHeartbeat_CurrentLeases q' = 0).
Definition checked (before : list worker_event) (attempts : gset string) (w : WorkerWorld P) : Prop :=
  ∃ l, logged l before attempts w ∧ check_events l.

Lemma triple_register before attempts :
  triple (logged [] before attempts) (register randomID config quiet)
    (λ r w, (∃ e, r = Err e ∧ checked before attempts w) ∨
       ∃ reg q, r = Ok reg ∧ announces q ∧ match_safe_id (reg_workerID reg) = true ∧ reg_bootID reg = Register_BootID q ∧
         logged [Registered q (Ok (reg_workerID reg))] before attempts w)
    (checked before attempts).
Proof.
  assert (∀ w, logged [] before attempts w → checked before attempts w) as Hnone by (intros w Hw; exists []; split; [done|by left]).
  unfold register. destruct (if String.eqb (Run_BootID config) "" then randomID else _) as [bootID|e]; [|apply triple_ret; eauto].
  destruct (match_safe_id bootID) eqn:Hboot; [|apply triple_ret; eauto].
  destruct (Policy_Digest (Run_Policy config)) as [digest|e] eqn:Hd; [|apply triple_ret; eauto]. simpl.
  step_look. intros now. cbn beta zeta.
  set (q := mkRegisterRequest _ _ _ _ _ _ _ _ _). assert (announces q) as Hq by done.
  assert (∀ a w, logged [Registered q a] before attempts w → checked before attempts w) as Hone.
  { intros a w Hw. exists [Registered q a]. split; [done|]. right. exists q, a. auto. }
  eapply triple_bind; [by apply triple_logged|].
  intros [id|e]; apply triple_ret; intros w Hw; simpl; [|left; eauto].
  destruct (match_safe_id id) eqn:Hid.
  - right. by exists (mkRegistration id bootID), q.
  - left. eauto.
Qed.

(** What a successful check has seen. *)
Definition check_passed (c : CheckResult) (before : list worker_event) (attempts : gset string) (w : WorkerWorld P) : Prop :=
  ∃ q q' cancelled, logged [Beat q' (Ok cancelled); Registered q (Ok (Check_WorkerID c))] before attempts w ∧ announces q ∧
    match_safe_id (Check_WorkerID c) = true ∧ Check_BootID c = Register_BootID q ∧
    q' = mkWorkerHeartbeatRequest ContractVersion (Check_WorkerID c) (Check_BootID c) 0 (WHeartbeat_SentAt q').

Lemma triple_Check_heartbeat reg q before attempts :
  announces q → match_safe_id (reg_workerID reg) = true → reg_bootID reg = Register_BootID q →
  triple (logged [Registered q (Ok (reg_workerID reg))] before attempts) (Check_heartbeat config quiet reg)
    (λ r w, checked before attempts w ∧ ∀ c, r = Ok c → check_passed c before attempts w) (checked before attempts).
Proof.
  intros Hq Hid Hboot.
  assert (∀ w, logged [Registered q (Ok (reg_workerID reg))] before attempts w → checked before attempts w) as Hone.
  { intros w Hw. eexists. split; [done|]. right. exists q, (Ok (reg_workerID reg)). auto. }
  unfold Check_heartbeat. step_look. intros now. set (q' := heartbeat_request reg 0 now).
  assert (∀ a w, logged [Beat q' a; Registered q (Ok (reg_workerID reg))] before attempts w → checked before attempts w) as Htwo.
  { intros a w Hw. eexists. split; [done|]. right. eexists q, _. split; [done|]. right. by exists q', a. }
  eapply triple_bind; [by apply triple_logged|].
  intros [cancelled|e]; apply triple_ret; intros w Hw; simpl; (split; [by eauto|]); [|done].
  intros c [= <-]. exists q, q', cancelled. simpl. by rewrite <-Hboot.
Qed.

Lemma triple_Check before attempts :
  triple (logged [] before attempts) (Check randomID config quiet)
    (λ r w, checked before attempts w ∧ ∀ c, r = Ok c → Policy_Validate (Run_Policy config) = Ok tt ∧ check_passed c before attempts w)
    (checked before attempts).
Proof.
  assert (∀ w, logged [] before attempts w → checked before attempts w) as Hnone by (intros w Hw; exists []; split; [done|by left]).
  unfold Check. destruct (Policy_Validate (Run_Policy config)) as [[]|e]; [|apply triple_ret; intros w Hw; split; [by apply Hnone|done]].
  eapply triple_bind; [apply triple_register|]. intros [reg|e].
  - intros xs w [(?&?&_)|(reg'&q&[= <-]&Hq&Hid&Hboot&Hw)]; [done|].
    pose proof (triple_Check_heartbeat reg q before attempts Hq Hid Hboot xs w Hw) as Hx.
    destruct (Check_heartbeat config quiet reg xs w) as [[[r|?|] ?] ?]; [|done..]. destruct Hx as [? Hr]. split; [done|]. auto.
  - apply triple_ret. intros w [(?&_&Hw)|(?&?&?&_)]; done.
Qed.

(** The preflight check registers once and sends one heartbeat that reports no lease;
    it never asks for work or for a credential, starts nothing, and makes no completion,
    whatever the control plane answers; when it succeeds the policy is valid, both
    requests were accepted, and the result names the identity that was registered. *)
Theorem Check_never_acquires_work (inputs : list (Input P)) (w : WorkerWorld P) :
  let '(r, _, w') := Check randomID config quiet inputs w in
  checked (log w) (active w) w' ∧
  ∀ c, r = Done (Ok c) → Policy_Validate (Run_Policy config) = Ok tt ∧ check_passed c (log w) (active w) w'.
Proof.
  assert (logged [] (log w) (active w) w) as Hw by done.
  pose proof (triple_Check (log w) (active w) inputs w Hw) as Hx.
  destruct (Check randomID config quiet inputs w) as [[[r|e|] rest] w']; [|by split..].
  destruct Hx as [? Hr]. split; [done|]. intros c [= ->]. by apply Hr.
Qed.

(** ** The claim cycle *)

Section cycle.
Variable reg : registration.
Abbreviation limit := (concurrency (Run_Policy config)).

(** What a heartbeat and a claim may say. *)
Definition request_bounded (e : worker_event) : Prop :=
  match e with
  | Beat q _ => 0 <= WHeartbeat_CurrentLeases q <= limit
  | Claimed q _ => 0 <= Claim_CurrentLeases q < limit ∧ Claim_Capabilities q = Capabilities (Run_Policy config)
  | _ => True
  end.

(** Every start directly follows the claim that handed the task out. *)
Fixpoint starts_claimed (l : list worker_event) : Prop :=
  match l with
  | [] => True
  | e :: l => match e with Started t => ∃ q rest, l = Claimed q (Ok (Some t)) :: rest | _ => True end ∧ starts_claimed l
  end.

Record CycleInv (w : WorkerWorld P) : Prop := mkCycleInv {
  inv_active : Z.of_nat (size (active w)) <= limit;
  inv_requests : Forall request_bounded (log w);
  inv_starts : starts_claimed (log w);
}.

Lemma finished_size (i : Input P) (w : WorkerWorld P) : Z.of_nat (size (active (meanwhile i w))) <= Z.of_nat (size (active w)).
Proof. apply Nat2Z.inj_le, subseteq_size. simpl. set_solver. Qed.

(** At most [n] attempts are active. *)
Definition at_most (n : Z) (w : WorkerWorld P) : Prop := CycleInv w ∧ Z.of_nat (size (active w)) <= n.
#[local] Instance at_most_stable n : Stable (at_most n).
Proof. intros i w [[Ha Hr Hs] Hn]. pose proof (finished_size i w). split; [split; [lia|done..]|lia]. Qed.
#[local] Instance CycleInv_stable : Stable CycleInv.
Proof. intros i w [Ha Hr Hs]. pose proof (finished_size i w). split; [lia|done..]. Qed.

Lemma triple_count n : triple (at_most n) (count_active quiet) (λ m w, at_most m w ∧ 0 <= m <= n) CycleInv.
Proof. apply triple_observe; [apply _| |by intros w [? _]]. intros i w [Hi Hn]. simpl. split; [by split|lia]. Qed.

Lemma CycleInv_note e w : CycleInv w → request_bounded e → (∀ t, e ≠ Started t) → CycleInv (note e w).
Proof. intros [Ha Hr Hs] He Hne. split; [done|by constructor|]. simpl. split; [|done]. destruct e; naive_solver. Qed.

(** A task was just handed out. *)
Definition handed (t : Task) (w : WorkerWorld P) : Prop := CycleInv w ∧ ∃ q rest, log w = Claimed q (Ok (Some t)) :: rest.
#[local] Instance handed_stable t : Stable (handed t).
Proof. intros i w [Hi Hl]. split; [by apply CycleInv_stable|done]. Qed.

Lemma triple_add task : triple (handed task) (add_active config quiet task) (λ _, CycleInv) CycleInv.
Proof.
  apply triple_observe; [apply _| |by intros w [? _]]. intros i w [[Ha Hr Hs] (q&rest&Hl)].
  destruct (Z.leb_spec limit (Z.of_nat (size (active w)))) as [|Hroom]; [by split|]. case_bool_decide as Hin; [by split|]. simpl. split; simpl.
  - rewrite size_union, size_singleton by set_solver. lia.
  - by constructor.
  - split; [|done]. rewrite Hl. by exists q, rest.
Qed.

Lemma triple_claim_loop fuel : triple CycleInv (claim_loop config quiet fuel reg) (λ _, CycleInv) CycleInv.
Proof.
  induction fuel as [|fuel IH]; [by apply triple_ret|]. cbn [claim_loop].
  eapply triple_bind; [eapply triple_weaken; [apply (triple_count limit)| |done|done]; intros w Hw; split; [done|by apply inv_active]|].
  intros n. simpl. apply triple_pure. intros Hn. destruct (Z.ltb_spec n limit) as [Hlt|]; [|by apply triple_ret; intros w [? _]]. simpl.
  eapply triple_bind; [apply triple_count|]. intros leases. simpl. apply triple_pure. intros Hle. cbv zeta. set (q := mkClaimRequest _ _ _ _ _).
  assert (∀ a, request_bounded (Claimed q a)) as Hq by (intros a; split; [simpl; lia|done]).
  eapply (triple_bind _ _ _ (λ a w, match a with Ok (Some task) => handed task w | _ => CycleInv w end)).
  { apply plane_call_triple; [apply _|by intros w p [[? ? ?] ?]| |by intros w [? _]|by intros [[task|]|e] w; [intros [? _]|..]].
    intros a w [Hi _]. assert (CycleInv (note (Claimed q a) w)) by by apply CycleInv_note.
    destruct a as [[task|]|e]; [|done..]. split; [done|]. by exists q, (log w). }
  intros [[task|]|e]; [|by apply triple_ret..].
  eapply triple_bind; [apply triple_add|]. intros [|]; simpl; [done|by apply triple_ret].
Qed.

Lemma worker_triple_runCycle fuel : triple CycleInv (runCycle config quiet fuel reg) (λ _, CycleInv) CycleInv.
Proof.
  unfold runCycle.
  eapply triple_bind; [eapply triple_weaken; [apply (triple_count limit)| |done|done]; intros w Hw; split; [done|by apply inv_active]|].
  intros n. simpl. apply triple_pure. intros Hn.
  eapply (triple_weaken CycleInv _ _ (λ _, CycleInv) _ CycleInv); [|by intros w [? _]|done|done]. step_look. intros now. set (q := heartbeat_request reg n now).
  eapply (triple_bind _ _ _ (λ _, CycleInv)).
  { apply plane_call_triple; [apply _|by intros w p [? ? ?]| |done|done]. intros a w Hw. by apply CycleInv_note. }
  intros [cancelled|e]; [|by apply triple_ret]. eapply triple_bind; [|intros u; apply triple_claim_loop].
  apply triple_observe; [apply _| |done]. intros i w Hw. by apply CycleInv_note.
Qed.

(** The cycles of a process; one that dies makes no further cycle. *)
Fixpoint worker_history (h : list (nat * list (Input P))) (w : WorkerWorld P) : WorkerWorld P :=
  match h with
  | [] => w
  | (fuel, inputs) :: h =>
    match runCycle config quiet fuel reg inputs w with
    | (Crashed, _, w) => w
    | (_, _, w) => worker_history h w
    end
  end.

Lemma history_CycleInv h : ∀ w, CycleInv w → CycleInv (worker_history h w).
Proof.
  induction h as [|[fuel inputs] h IH]; [done|]. intros w Hw. simpl. pose proof (worker_triple_runCycle fuel inputs w Hw) as Hx.
  destruct (runCycle config quiet fuel reg inputs w) as [[[a|e|] rest] w']; auto.
Qed.

Lemma starts_claimed_split l : ∀ later earlier t, starts_claimed l → l = later ++ Started t :: earlier →
  ∃ q rest, earlier = Claimed q (Ok (Some t)) :: rest.
Proof.
  induction l as [|e l IH]; intros later earlier t; [by destruct later|]. intros [He Hl] Heq.
  destruct later as [|e' later]; simplify_eq/=; [done|]. by eapply IH.
Qed.
End cycle.

Lemma concurrency_range p : Policy_Validate p = Ok tt → 1 <= concurrency p <= MaxWorkerConcurrency.
Proof.
  unfold Policy_Validate, concurrency. intros Hv. repeat case_match; try done; bool_facts; try lia.
Qed.

(** Over any sequence of claim cycles, whatever is answered and whichever attempts end
    in between, the worker never has more active attempts than its policy allows; it
    reports no more leases than that, asks for work only below that number and only
    under the operations its policy announces, and every task it starts is the one the
    claim just before handed out. *)
Theorem worker_stays_within_concurrency (reg : registration) (h : list (nat * list (Input P))) (p : P) :
  Policy_Validate (Run_Policy config) = Ok tt →
  let w := worker_history reg h (mkWorkerWorld p ∅ []) in
  Z.of_nat (size (active w)) <= concurrency (Run_Policy config) <= MaxWorkerConcurrency ∧
  (∀ q a, Claimed q a ∈ log w → 0 <= Claim_CurrentLeases q < concurrency (Run_Policy config) ∧ Claim_Capabilities q = Capabilities (Run_Policy config)) ∧
  (∀ q a, Beat q a ∈ log w → 0 <= WHeartbeat_CurrentLeases q <= concurrency (Run_Policy config)) ∧
  (∀ later earlier t, log w = later ++ Started t :: earlier → ∃ q rest, earlier = Claimed q (Ok (Some t)) :: rest).
Proof.
  intros [? ?]%concurrency_range. assert (CycleInv (mkWorkerWorld p ∅ [])) as Hstart by (split; [cbn [active]; rewrite size_empty; lia|by constructor|done]).
  destruct (history_CycleInv reg h _ Hstart) as [Ha Hr Hs]. cbv zeta. set (w := worker_history reg h _) in *. rewrite Forall_forall in Hr.
  split; [lia|]. split; [intros q a Hin; by apply (Hr _ Hin)|]. split; [intros q a Hin; by apply (Hr _ Hin)|].
  intros later earlier t. by apply starts_claimed_split.
Qed.

(** ** The claim loop ends *)

Lemma bind_done {A B} (p : worker A) (f : A → worker B) xs w a xs' w' : p xs w = (Done a, xs', w') → (p ≫= f) xs w = f a xs' w'.
Proof. unfold mbind, prog_bind. by intros ->. Qed.
Lemma bind_crashed {A B} (p : worker A) (f : A → worker B) xs w : (p xs w).1.1 = Crashed → ((p ≫= f) xs w).1.1 = Crashed.
Proof. unfold mbind, prog_bind. destruct (p xs w) as [[[a|e|] xs'] w']; by intros [=]. Qed.

Lemma observe_cases {A} (f : Input P → WorkerWorld P → A * WorkerWorld P) xs w :
  (observe quiet f xs w).1.1 = Crashed ∨
  observe quiet f xs w = (Done (f (hd quiet xs) (meanwhile (hd quiet xs) w)).1, tl xs, (f (hd quiet xs) (meanwhile (hd quiet xs) w)).2).
Proof.
  unfold observe, with_input. destruct (In_ending (hd quiet xs)); [right..|by left];
    by destruct (f (hd quiet xs) (meanwhile (hd quiet xs) w)).
Qed.
Lemma call_cases {A} (event : go A → worker_event) (serve : P → go A * P) xs w :
  (call_plane quiet event serve xs w).1.1 = Crashed ∨
  ∃ a p l, call_plane quiet event serve xs w = (Done a, tl xs, mkWorkerWorld p (active (meanwhile (hd quiet xs) w)) l).
Proof.
  unfold call_plane, with_input. destruct (In_ending (hd quiet xs)); [right; by eexists _, _, _|right|by left].
  destruct (In_undelivered (hd quiet xs)); by eexists _, _, _.
Qed.

(** One round of the loop: it ends, or it has used four inputs and goes on; without
    interference it goes on only with one more active attempt. *)
Lemma claim_loop_step fuel reg xs w :
  (claim_loop config quiet (S fuel) reg xs w).1.1 ≠ Done None ∨
  ∃ w', claim_loop config quiet (S fuel) reg xs w = claim_loop config quiet fuel reg (tl (tl (tl (tl xs)))) w' ∧
    (xs = [] → In_finished quiet = [] →
       Z.of_nat (size (active w)) < concurrency (Run_Policy config) ∧ Z.of_nat (size (active w')) = Z.of_nat (size (active w)) + 1).
Proof.
  cbn [claim_loop]. unfold count_active, add_active.
  destruct (observe_cases (λ _ w, (Z.of_nat (size (active w)), w)) xs w) as [Hc|Hc]; [left; by rewrite bind_crashed|].
  rewrite (bind_done _ _ _ _ _ _ _ Hc). cbn [fst snd]. destruct (_ <? _) eqn:Hlt; [|by left]. cbn [negb]. cbv iota.
  set (w1 := meanwhile (hd quiet xs) w) in *. set (xs1 := tl xs).
  destruct (observe_cases (λ _ w, (Z.of_nat (size (active w)), w)) xs1 w1) as [Hc1|Hc1]; [left; by rewrite bind_crashed|].
  rewrite (bind_done _ _ _ _ _ _ _ Hc1). cbn [fst snd]. set (q := mkClaimRequest _ _ _ _ _).
  set (w2 := meanwhile (hd quiet xs1) w1) in *. set (xs2 := tl xs1).
  destruct (call_cases (Claimed q) (Claim q) xs2 w2) as [Hc2|(a&p&l&Hc2)]; [left; by rewrite bind_crashed|].
  rewrite (bind_done _ _ _ _ _ _ _ Hc2). destruct a as [[task|]|e]; [|by left..].
  set (w3 := mkWorkerWorld _ _ _) in *. set (xs3 := tl xs2).
  match goal with |- context [observe quiet ?f] => destruct (observe_cases f xs3 w3) as [Hc3|Hc3] end; [left; by rewrite bind_crashed|].
  rewrite (bind_done _ _ _ _ _ _ _ Hc3). destruct (_ <=? _); [by left|]. case_bool_decide as Hin; [by left|]. right.
  eexists. split; [reflexivity|]. intros -> Hq. apply Z.ltb_lt in Hlt. cbn in Hlt, Hin |- *. rewrite Hq in *.
  change (list_to_set [] : gset string) with (∅ : gset string) in *. rewrite !difference_empty_L in *.
  rewrite size_union, size_singleton by set_solver. lia.
Qed.

(** The claim loop of a cycle ends: after any finite amount of interference, if no
    attempt ends any more, as many rounds as were disturbed and one more than the policy
    allows attempts are enough. *)
Theorem claim_loop_ends (reg : registration) (inputs : list (Input P)) (fuel : nat) (w : WorkerWorld P) :
  In_finished quiet = [] → 0 <= concurrency (Run_Policy config) →
  llen inputs + concurrency (Run_Policy config) < Z.of_nat fuel →
  (claim_loop config quiet fuel reg inputs w).1.1 ≠ Done None.
Proof.
  intros Hq Hpos. 
  assert (∀ fuel w, concurrency (Run_Policy config) - Z.of_nat (size (active w)) < Z.of_nat fuel → 0 < Z.of_nat fuel →
    (claim_loop config quiet fuel reg [] w).1.1 ≠ Done None) as Hquiet.
  { clear fuel w. induction fuel as [|fuel IH]; intros w Hf Hp; [lia|].
    destruct (claim_loop_step fuel reg [] w) as [?|(w'&->&Hw')]; [done|]. destruct Hw' as [Hlt Hs]; [done..|]. apply IH; lia. }
  revert inputs w. induction fuel as [|fuel IH]; intros inputs w Hf; [unfold llen in Hf; lia|].
  destruct inputs as [|i inputs]; [apply Hquiet; unfold llen in Hf; simpl in Hf; lia|].
  destruct (claim_loop_step fuel reg (i :: inputs) w) as [?|(w'&->&_)]; [done|]. apply IH. simpl.
  assert (∀ (l : list (Input P)), llen (tl l) <= llen l) as Htl by (intros [|? ?]; unfold llen; simpl; lia).
  pose proof (Htl inputs). pose proof (Htl (tl inputs)). pose proof (Htl (tl (tl inputs))).
  assert (llen (i :: inputs) = llen inputs + 1) by (unfold llen; simpl; lia). lia.
Qed.
End safety.

(** ** The lease loop *)

(** The wait is shorter than what is left, at most 30 s, and at most half of what is left
    unless that is below 10 ms. *)
Definition timely (deadline : time) (x : lease_wait) : Prop :=
  Wait_now x < Wait_expires x <= deadline ∧ 0 <= Wait_delay x <= 30 * Second ∧
  Wait_now x + Wait_delay x < Wait_expires x ∧
  (2 * Wait_delay x <= Wait_expires x - Wait_now x ∨ Wait_delay x <= 10 * Millisecond).

Lemma renew_delay_spec remaining : 0 < remaining →
  0 <= renew_delay remaining < remaining ∧ renew_delay remaining <= 30 * Second ∧
  (2 * renew_delay remaining <= remaining ∨ renew_delay remaining <= 10 * Millisecond).
Proof.
  intros Hr. unfold renew_delay. pose proof (Z.quot_rem' remaining 2). pose proof (Z.rem_bound_pos remaining 2 ltac:(lia) ltac:(lia)).
  unfold Second, Millisecond in *. destruct (Z.ltb_spec (30 * 1000000000) (Z.quot remaining 2)), (Z.ltb_spec (Z.quot remaining 2) (10 * 1000000)); try lia;
  repeat match goal with |- context [if (?a <? ?b) then _ else _] => destruct (Z.ltb_spec a b); try lia end;
  repeat match goal with |- context [if (?a <=? ?b) then _ else _] => destruct (Z.leb_spec a b); try lia end.
Qed.

Lemma Sub_pos t u : 0 < Sub t u → u < t ∧ Sub t u <= t - u.
Proof. unfold Sub, int64_min, int64_max. lia. Qed.

(** The expiry granted last. *)
Definition granted (expires : time) (rounds : list lease_round) : time :=
  foldl (λ e r, match Round_answer r with Ok a => RenewResponse_LeaseExpiresAt a | Err _ => e end) expires rounds.

(** An answer that ends the loop: the expiry has passed or is behind the deadline. *)
Definition invalid_grant (deadline : time) (r : lease_round) : Prop :=
  ∃ a, Round_answer r = Ok a ∧ RenewResponse_Cancelled a = false ∧
    (RenewResponse_LeaseExpiresAt a <= Round_after r ∨ deadline < RenewResponse_LeaseExpiresAt a).

(** Why the loop ended, from its last round. *)
Definition end_reason (deadline expires : time) (rounds : list lease_round) (e : lease_end) : Prop :=
  ∃ earlier r later, rounds = earlier ++ r :: later ∧
    match e with
    | Lease_stopped => Round_stopped r = true ∨ Round_ctx_done r = true
    | Lease_cancelled => ∃ a, Round_answer r = Ok a ∧ RenewResponse_Cancelled a = true
    | Lease_lost => granted expires earlier <= Round_now r ∨ invalid_grant deadline r
    end.

Lemma end_reason_cons deadline expires r rounds e :
  end_reason deadline (granted expires [r]) rounds e → end_reason deadline expires (r :: rounds) e.
Proof. intros (earlier&r'&later&->&He). by exists (r :: earlier), r', later. Qed.
Lemma end_reason_here deadline expires r rounds e :
  match e with
  | Lease_stopped => Round_stopped r = true ∨ Round_ctx_done r = true
  | Lease_cancelled => ∃ a, Round_answer r = Ok a ∧ RenewResponse_Cancelled a = true
  | Lease_lost => expires <= Round_now r ∨ invalid_grant deadline r
  end → end_reason deadline expires (r :: rounds) e.
Proof. intros He. by exists [], r, rounds. Qed.

Lemma maintainLease_spec deadline rounds : ∀ expires, expires <= deadline →
  Forall (timely deadline) (maintainLease deadline rounds expires).1 ∧
  ∀ e, (maintainLease deadline rounds expires).2 = Some e → end_reason deadline expires rounds e.
Proof.
  induction rounds as [|r rounds IH]; intros expires Hd; [by split; [constructor|]|]. simpl.
  destruct (Z.leb_spec (Sub expires (Round_now r)) 0) as [Hover|Hleft].
  { split; [constructor|]. intros e [= <-]. apply end_reason_here. left. unfold Sub, int64_min, int64_max in Hover. lia. }
  pose proof (renew_delay_spec _ Hleft) as (?&?&Hhalf). apply Sub_pos in Hleft as [Hnow Hsub].
  set (wait := mkLeaseWait (Round_now r) expires (renew_delay (Sub expires (Round_now r)))).
  assert (timely deadline wait) as Hwait by (unfold timely; simpl; destruct Hhalf; lia).
  destruct (Round_stopped r) eqn:Hs; [split; [by constructor|]; intros e [= <-]; apply end_reason_here; auto|].
  assert (∀ expires', expires' <= deadline → expires' = granted expires [r] →
    let res := let '(waits, e) := maintainLease deadline rounds expires' in (wait :: waits, e) in
    Forall (timely deadline) res.1 ∧ ∀ e, res.2 = Some e → end_reason deadline expires (r :: rounds) e) as Hgo.
  { intros expires' Hd' Hg. destruct (IH expires' Hd') as [Hw He]. destruct (maintainLease deadline rounds expires') as [waits e].
    split; [by constructor|]. intros e' He'. apply end_reason_cons. rewrite <-Hg. by apply He. }
  destruct (Round_answer r) as [a|err] eqn:Ha.
  - destruct (RenewResponse_Cancelled a) eqn:Hc; [split; [by constructor|]; intros e [= <-]; apply end_reason_here; eauto|].
    destruct (negb _ || _) eqn:Hbad.
    + split; [by constructor|]. intros e [= <-]. apply end_reason_here. right. exists a. split; [done|]. split; [done|].
      apply orb_true_iff in Hbad as [Hb%negb_true_iff%Z.ltb_ge|Hb%Z.ltb_lt]; auto.
    + apply orb_false_iff in Hbad as [_ Hb%Z.ltb_ge]. apply Hgo; [done|]. simpl. by rewrite Ha.
  - destruct (Round_ctx_done r) eqn:Hx; [split; [by constructor|]; intros e [= <-]; apply end_reason_here; auto|].
    apply Hgo; [done|]. simpl. by rewrite Ha.
Qed.

(** C29: the renewal of a lease: every renewal is due before the expiry granted last, which
    never lies behind the task's deadline, after at most 30 s and at most half of the
    remaining time (or 10 ms); the loop ends because it was stopped, because ServiceNow
    said the task is cancelled, or because the expiry granted last has passed or the new
    one is not valid; and while the clock moves on it ends within the task's deadline. *)
Theorem maintainLease_renews_in_time (deadline expires : time) (rounds : nat → lease_round) :
  expires <= deadline →
  (∀ n, Forall (timely deadline) (maintainLease deadline (rounds <$> seq 0 n) expires).1 ∧
        ∀ e, (maintainLease deadline (rounds <$> seq 0 n) expires).2 = Some e → end_reason deadline expires (rounds <$> seq 0 n) e) ∧
  ((∀ k, Round_now (rounds k) < Round_now (rounds (S k))) →
   ∃ e, (maintainLease deadline (rounds <$> seq 0 (S (Z.to_nat (deadline - Round_now (rounds 0%nat))))) expires).2 = Some e).
Proof.
  intros Hd. split; [intros n; by apply maintainLease_spec|]. intros Hclock.
  assert (∀ n k expires, expires <= deadline → deadline - Round_now (rounds k) < Z.of_nat n → 0 < Z.of_nat n →
    ∃ e, (maintainLease deadline (rounds <$> seq k n) expires).2 = Some e) as Hend; [|apply Hend; lia].
  clear expires Hd. induction n as [|n IH]; intros k expires Hd Hn Hp; [lia|]. simpl.
  destruct (Z.leb_spec (Sub expires (Round_now (rounds k))) 0) as [|Hleft]; [eauto|]. apply Sub_pos in Hleft as [Hnow _].
  pose proof (Hclock k). destruct (Round_stopped (rounds k)); [eauto|].
  assert (∀ expires', expires' <= deadline → ∃ e, (let '(waits, e) := maintainLease deadline (rounds <$> seq (S k) n) expires' in
    (mkLeaseWait (Round_now (rounds k)) expires (renew_delay (Sub expires (Round_now (rounds k)))) :: waits, e)).2 = Some e) as Hgo.
  { intros expires' Hd'. destruct (IH (S k) expires' Hd') as [e He]; [lia..|]. exists e. by destruct (maintainLease _ _ _). }
  destruct (Round_answer (rounds k)) as [a|err].
  - destruct (RenewResponse_Cancelled a); [eauto|]. destruct (negb _ || _) eqn:Hbad; [eauto|].
    apply orb_false_iff in Hbad as [_ Hb%Z.ltb_ge]. by apply Hgo.
  - destruct (Round_ctx_done (rounds k)); [eauto|by apply Hgo].
Qed.

(** ** A control plane that always has work *)

Section example.
Local Open Scope string_scope.

(** The state numbers the attempts it hands out. *)
#[local] Instance eager_plane : ControlPlane nat := {
  Register := λ _ n, (Ok "worker-1", n);
  Heartbeat := λ _ n, (Ok [], n);
  Claim := λ _ n, (Ok (Some (mkTask "task" "run" ("attempt-" +:+ decimal (Z.of_nat n)) "token" 100 OperationLocalV1 "local" 1 "" None 100)), S n);
  Renew := λ _ _ n, (Err "unavailable", n);
  Credential := λ _ _ n, (Err "unavailable", n);
  SubmitResult := λ _ _ n, (Ok (mkResultChunkResponse true false), n);
  Complete := λ _ _ n, (Ok (mkCompleteResponse "complete" "complete"), n);
}.
Definition demo_policy : Policy := mkPolicy "pool" "site" true false false [] "" [] "" 0 2 0.
Definition demo_worker : WorkerRunConfig := mkWorkerRunConfig demo_policy "1.0" 0 (mkExecutor demo_policy false false) "boot".
Definition quiet_input : Input nat := mkInput _ Answered false id [] 0 0 None false false Lease_stopped.
Definition demo_reg : registration := mkRegistration "worker-1" "boot".
Definition demo_cycle : WorkerWorld nat := worker_history demo_worker quiet_input demo_reg [(5%nat, [])] (mkWorkerWorld 0%nat ∅ []).

Lemma worker_stays_within_concurrency_witness :
  size (active demo_cycle) = 2%nat ∧ (Z.of_nat (size (active demo_cycle)) <= 2)%Z.
Proof.
  split; [vm_compute; reflexivity|].
  destruct (worker_stays_within_concurrency demo_worker quiet_input demo_reg [(5%nat, [])] 0%nat) as ([H _]&_);
    [vm_compute; reflexivity|exact H].
Defined.

(** An attempt ends while the loop runs: a third one is started. *)
Definition ending_input : Input nat := mkInput _ Answered false id ["attempt-0"] 0 0 None false false Lease_stopped.
Lemma claim_loop_ends_witness :
  (claim_loop demo_worker quiet_input 9 demo_reg (app (repeat quiet_input 5) [ending_input]) (mkWorkerWorld 0%nat ∅ [])).1.1 ≠ Done None.
Proof. apply claim_loop_ends; vm_compute; first [reflexivity|discriminate]. Defined.

(** Renewals fail from the third round on: the lease of 60 s is lost, not the deadline. *)
Definition demo_rounds (k : nat) : lease_round :=
  mkLeaseRound (Z.of_nat k * 30 * Second)%Z false
    (if decide (k < 2)%nat then Ok (mkRenewResponse ((Z.of_nat k * 30 + 75) * Second)%Z false) else Err "unavailable") false
    ((Z.of_nat k * 30 + 15) * Second)%Z.
Lemma maintainLease_renews_in_time_witness :
  maintainLease (600 * Second)%Z (demo_rounds <$> seq 0 5) (60 * Second)%Z =
    ([mkLeaseWait 0 (60 * Second)%Z (30 * Second)%Z; mkLeaseWait (30 * Second)%Z (75 * Second)%Z (22500000000)%Z;
      mkLeaseWait (60 * Second)%Z (105 * Second)%Z (22500000000)%Z; mkLeaseWait (90 * Second)%Z (105 * Second)%Z (7500000000)%Z], Some Lease_lost) ∧
  Forall (timely (600 * Second)%Z) (maintainLease (600 * Second)%Z (demo_rounds <$> seq 0 5) (60 * Second)%Z).1.
Proof.
  split; [vm_compute; reflexivity|].
  destruct (maintainLease_renews_in_time (600 * Second)%Z (60 * Second)%Z demo_rounds) as [H _]; [vm_compute; discriminate|].
  destruct (H 5%nat) as [Hw _]. exact Hw.
Defined.
End example.
