(* ===== verification/WorkerSim.v ===== *)
(** * The worker against the control plane

    The simulated control plane implements the interface the worker's programs are
    written against; the client in between sends the message, reads the status and
    checks what [client.go] checks (a claimed task validates, a task identifier is well
    formed, a credential is usable).  Its bound of 2 MiB on the text of a request is left
    out: the largest, a result, holds at most 1 MiB of payload in base64.  An undisturbed attempt then ends with the
    observation of its one execution delivered. *)

From S2P Require Import Prelude Effects Bytes Text Sha256 Time Model Discovery Netip Contract Partition Servicenow ControlSim SimProtocol SimRefinement SimResults SimContract Policy Executor WorkerClient WorkerRun WorkerSafety.

(** The control plane, and the number of requests it has served. *)
Record SimPlane := mkSimPlane { sim_of : Sim; served : nat }.

(** A status outside 2xx, or a result that is not the one expected, is an error. *)
Definition reply {A} (f : sim_payload → option A) (r : SimResponse) : go A :=
  match r with
  | Answer code b =>
    if (code <? 200) || (300 <=? code) then Err "ServiceNow worker API returned %s"%string
    else match f b with Some a => Ok a | None => Err "ServiceNow worker API returned an invalid result"%string end
  | Panicked => Err "send ServiceNow worker request: %w"%string
  end.

Section plane.
Variable json_tokens : string → list json_token * bool.
Variable decode_line : string → go ObservationEnvelope.
Variable decode_any : string → go ObservationEnvelope.
(** The environment of each request, the client's clock, and its bearer token. *)
Variable envs : nat → SimEnv.
Variable client_now : nat → time.
Variable token : string.

Definition serve {A} (route : sim_route) (f : sim_payload → option A) (p : SimPlane) : go A * SimPlane :=
  let '(s, r) := serveHTTP json_tokens decode_line decode_any (envs (served p)) true ("Bearer " +:+ token)%string route (sim_of p) in
  (reply f r, mkSimPlane s (S (served p))).

(** A request about a task is not sent for a malformed identifier. *)
Definition serve_task {A} (taskID : string) (route : sim_route) (f : sim_payload → option A) (p : SimPlane) : go A * SimPlane :=
  if match_safe_id taskID then serve route f p else (Err "task ID is invalid"%string, p).

#[export] Instance sim_plane : ControlPlane SimPlane := {
  Register q := serve (route_register (Ok q)) (λ b, match b with register_body id => Some id | _ => None end);
  Heartbeat q := serve (route_heartbeat (Ok q)) (λ b, match b with heartbeat_body l => Some l | _ => None end);
  Claim q p :=
    let '(r, p') := serve (route_claim (Ok q)) (λ b, match b with claim_body t => Some t | _ => None end) p in
    (match r with
     | Ok (Some task) => match validateTask (client_now (served p)) task with Ok _ => Ok (Some task) | Err e => Err e end
     | r => r
     end, p');
  Renew id q := serve_task id (route_renew id (Ok q)) (λ b, match b with renew_body r => Some r | _ => None end);
  Credential id q p :=
    let '(r, p') := serve_task id (route_credential id (Ok q)) (λ b, match b with credential_body c => Some c | _ => None end) p in
    (match r with
     | Ok c => if password_ok safePasswordUsername c then Ok c else Err "ServiceNow returned an invalid task credential"%string
     | r => r
     end, p');
  SubmitResult id q := serve_task id (route_results id (Ok q)) (λ b, match b with chunk_body r => Some r | _ => None end);
  Complete id q := serve_task id (route_complete id (Ok q)) (λ b, match b with complete_body r => Some r | _ => None end);
}.

(** ** One attempt at the control plane *)

(** The lease of [k] is held under [t], and nothing has been sent for it. *)
Record fresh_lease (s : Sim) (reg : registration) (k : Task) (t : TaskRecord) : Prop := mkFreshLease {
  fresh_wf : sim_wf s;
  fresh_task : tasks s !! Task_TaskID k = Some t;
  fresh_id : T_ID t = Task_TaskID k;
  fresh_state : T_State t = leased;
  fresh_op : T_Operation t = Task_Operation k;
  fresh_open : T_CancelRequested t = false;
  fresh_holder : T_WorkerID t = reg_workerID reg ∧ T_BootID t = reg_bootID reg;
  fresh_attempt : T_AttemptID t = Task_AttemptID k;
  fresh_digest : T_LeaseDigest t = sha256_hex (Task_LeaseToken k);
  fresh_expires : T_LeaseExpiresAt t = Task_LeaseExpiresAt k;
  fresh_result : results s !! resultKey (Task_TaskID k) (Task_AttemptID k) 0 = None;
}.

Lemma claim_fresh c ops env q s k :
  claim env (Ok q) (sim_run json_tokens decode_line decode_any c ops) = (s, Answer 200 (claim_body (Some k))) →
  ∃ t, fresh_lease s (mkRegistration (Claim_WorkerID q) (Claim_BootID q)) k t.
Proof.
  intros Hcl. pose proof (server_wf json_tokens decode_line decode_any c ops) as Hwf.
  pose proof (server_begun json_tokens decode_line decode_any c ops) as Hbegun. pose proof (server_ready json_tokens decode_line decode_any c ops) as Hready.
  revert Hcl Hwf Hbegun Hready. generalize (sim_run json_tokens decode_line decode_any c ops). intros s0 Hcl Hwf Hbegun Hready.
  pose proof (claim_results env (Ok q) s0) as Hres. pose proof (claim_steps env (Ok q) s0 Hwf) as [Hsteps _]. rewrite Hcl in Hres, Hsteps. simpl in Hres, Hsteps.
  destruct (claim_granted env q s0 s k Hwf Hcl) as (s2&w&t&r&leases&l&Hs2&Hwf2&_&Hboot&Hwid&_&Ht&Hst&_&_&_&Hlease).
  pose proof (steps_ready _ _ Hs2 Hwf Hready _ _ Ht Hst) as Hopen. destruct (wf_tasks _ Hwf2 _ _ Ht) as [_ ((j&Hj&Hid)&_&Hat&_)].
  injection Hlease as -> ->. eexists. split; simpl; [by eapply steps_wf|apply lookup_insert_eq|done..|].
  change (results (put_run _ _)) with (results s2) in Hres |- *. rewrite Hres, Hid. apply Hbegun; [lia..|].
  intros t0 Ht0. rewrite <-Hid in Ht0. destruct (steps_task _ _ Hs2 Hwf _ _ Ht0) as (t1&Ht1&Hm). apply moves_same in Hm as (_&_&_&_&?&_). simplify_eq. lia.
Qed.

Lemma lease_valid s reg k t now : fresh_lease s reg k t → now < Task_LeaseExpiresAt k →
  validLeaseLocked now (Task_TaskID k) (reg_workerID reg) (reg_bootID reg) (Task_AttemptID k) (Task_LeaseToken k) s = Some t.
Proof.
  intros F Hnow. destruct (fresh_holder _ _ _ _ F). apply validLease_spec. rewrite (fresh_task _ _ _ _ F), (fresh_state _ _ _ _ F).
  split; [done|]. split; [done|]. split; [done|]. split; [done|]. split; [apply F|]. split; [|apply F]. by rewrite (fresh_expires _ _ _ _ F).
Qed.

(** The state after the result has been stored. *)
Definition received (env : SimEnv) (s : Sim) (k : Task) (t : TaskRecord) (payload : string) : Sim :=
  put_task (set_results s (<[resultKey (Task_TaskID k) (Task_AttemptID k) 0 :=
      mkResultRecord (Task_TaskID k) (Task_AttemptID k) 0 1 (sha256_hex payload) payload (sim_now env 1) zero_time "" false]> (results s)))
    (task_with t results_received (T_Attempt t) (T_AttemptID t) (T_WorkerID t) (T_BootID t)
       (T_LeaseDigest t) (T_LeaseExpiresAt t) 1 (T_CancelRequested t) (T_Error t)).

Lemma submit_fresh env s reg k t payload :
  fresh_lease s reg k t → sim_now env 0 < Task_LeaseExpiresAt k → 1 <= slen payload <= 2 ^ 20 →
  sim_result env (Ok (chunk_request reg k payload)) (Task_TaskID k) s =
    (received env s k t payload, Answer 201 (chunk_body (mkResultChunkResponse true false))).
Proof.
  intros F Hnow Hlen. unfold sim_result. cbn [Chunk_ObservationJSON Chunk_ChunkNumber Chunk_ChunkCount Chunk_Checksum
    Chunk_WorkerID Chunk_BootID Chunk_AttemptID Chunk_LeaseToken chunk_request Z.eqb negb orb].
  rewrite (proj2 (Z.eqb_neq _ _)), (proj2 (Z.ltb_ge _ _)) by lia. rewrite String.eqb_refl. cbn [negb orb]. cbv iota.
  rewrite (lease_valid _ _ _ _ _ F Hnow), (fresh_open _ _ _ _ F), (fresh_result _ _ _ _ F). unfold received. by rewrite (fresh_open _ _ _ _ F).
Qed.

Lemma refresh_frame now id s s' : refreshRunLocked now id s = Some s' → tasks s' = tasks s ∧ deliveries s' = deliveries s.
Proof.
  unfold refreshRunLocked. destruct (runs s !! id) as [r|]; [|by intros [= <-]]. destruct (run_task_states s r); [|done]. by intros [= <-].
Qed.

(** One operation is recorded for each key. *)
Lemma upsert_keys_length env ks first m m' ops n : upsert_keys env first ks m = (m', ops) → llen ks = n → llen ops = n.
Proof.
  intros Hup <-. unfold upsert_keys in Hup.
  match type of Hup with context [foldl ?f _ _] => set (step := f) in Hup end.
  assert (∀ l acc, llen (foldl step acc l).2 = llen acc.2 + llen l) as Hfold.
  { intros l. induction l as [|k l IH]; intros [[n m1] o]; simpl; [unfold llen; simpl; lia|]. rewrite IH.
    destruct (m1 !! k); simpl; unfold llen; rewrite length_app; simpl; lia. }
  specialize (Hfold ks (first, m, [])). destruct (foldl _ _ ks) as [[n m1] o]. by injection Hup as <- <-.
Qed.

(** A delivery ends the task and is recorded. *)
Lemma deliver_records env t r key res source es p s :
  sim_wf s → tasks s !! T_ID t = Some t → runs s !! T_RunID t = Some r →
  holds_lease (T_State t) = true → T_CancelRequested t = false → mapPayload source es = Ok p →
  ∃ s' b t' d, deliver env t r key res p s = Some (s', Answer 200 (complete_body b)) ∧
    tasks s' !! T_ID t = Some t' ∧ T_State t' = complete_ ∧ d ∈ deliveries s' ∧
    D_TaskID d = T_ID t ∧ D_AttemptID d = T_AttemptID t ∧ D_Applied d = true ∧ llen (D_ItemOperations d) = llen (Items p).
Proof.
  intros Hwf Ht Hr Hh Hc Hmap. unfold deliver.
  destruct (upsert_keys env 0 (item_key <$> Items p) (items s)) as [is_ iops] eqn:Hup.
  destruct (relation_keys_total _ _ _ Hmap) as [ks Hks]. rewrite Hks. simpl.
  destruct (upsert_keys env (length (item_key <$> Items p)) ks (relations s)) as [rs rops].
  set (d := mkIREDelivery (Run_ID r) (T_ID t) (T_AttemptID t) true true false iops rops (sim_now env 1)).
  set (t' := task_state_to t complete_ (T_CancelRequested t) (T_Error t)).
  set (r' := run_with r (Run_State r) (Run_CompletedAt r) (Run_Assets r + llen (Items p))
    (Run_Relationships r + llen (Relations p)) (Run_CollectionErrors r) (Run_Attempts r) (Run_Error r)).
  assert (sim_wf (set_cmdb s is_ rs)) as Hwf1 by by eapply quiet_wf, quiet_intro.
  destruct (finish_steps env key res "complete" (set_cmdb s is_ rs) t t' r r' d Hwf1 Ht) as (s'&Hf&Hp&Htt&Hrr); try done; [|by left|].
  { apply end_move; auto. }
  change (put_run (put_task (add_delivery (set_cmdb s is_ rs) d) t') r')
    with (add_deliveries (put_run (put_task (set_cmdb s is_ rs) t') r') [d]).
  rewrite refresh_add_deliveries, Hf. simpl. apply refresh_frame in Hf as [Hft Hfd]. simpl in Hft, Hfd.
  destruct Htt as [t1 Ht1], Hrr as [r1 Hr1]. unfold complete_answer. simpl. rewrite Ht1, Hr1. simpl.
  eexists _, _, t', d. split; [done|]. simpl. rewrite Hft, Hfd. split; [apply lookup_insert_eq|]. split; [done|].
  split; [rewrite elem_of_app, list_elem_of_singleton; by right|]. do 3 (split; [done|]). simpl. eapply upsert_keys_length; [exact Hup|].
  unfold llen. by rewrite length_fmap.
Qed.

Lemma complete_received env0 env s reg k t payload es p :
  fresh_lease s reg k t → sim_now env0 0 < Task_LeaseExpiresAt k → sim_now env 0 < Task_LeaseExpiresAt k →
  Task_Operation k = OperationLocalV1 → 1 <= slen payload <= 2 ^ 20 →
  DecodeJSONLines json_tokens decode_line payload = Ok es → mapPayload "Nischoy Topo" es = Ok p →
  ∃ s' b t' d, complete json_tokens decode_line decode_any env (Ok (complete_request reg k true 1 None)) (Task_TaskID k)
      (received env0 s k t payload) = (s', Answer 200 (complete_body b)) ∧
    tasks s' !! Task_TaskID k = Some t' ∧ T_State t' = complete_ ∧ d ∈ deliveries s' ∧
    D_TaskID d = Task_TaskID k ∧ D_AttemptID d = Task_AttemptID k ∧ D_Applied d = true ∧ llen (D_ItemOperations d) = llen (Items p).
Proof.
  intros F Hnow0 Hnow Hop Hlen Hdec Hmap. pose proof (result_steps env0 (Ok (chunk_request reg k payload)) (Task_TaskID k) s (fresh_wf _ _ _ _ F)) as [Hsteps _].
  rewrite (submit_fresh _ _ _ _ _ _ F Hnow0 Hlen) in Hsteps. apply (steps_wf _ _) in Hsteps; [|apply F]. simpl in Hsteps.
  set (s2 := received env0 s k t payload) in *. unfold received in s2. set (t2 := task_with t results_received _ _ _ _ _ _ _ _ _) in s2.
  assert (tasks s2 !! Task_TaskID k = Some t2) as Ht2.
  { change (<[T_ID t := t2]> (tasks s) !! Task_TaskID k = Some t2). rewrite (fresh_id _ _ _ _ F). apply lookup_insert_eq. }
  assert (tasks s2 !! T_ID t2 = Some t2) as Ht2'.
  { change (T_ID t2) with (T_ID t). by rewrite (fresh_id _ _ _ _ F). }
  destruct (fresh_holder _ _ _ _ F) as [Hw Hb].
  assert (validLeaseLocked (sim_now env 0) (Task_TaskID k) (reg_workerID reg) (reg_bootID reg) (Task_AttemptID k) (Task_LeaseToken k) s2 = Some t2) as Hv.
  { apply validLease_spec. split; [done|]. simpl. split; [done|]. split; [done|]. split; [done|]. split; [apply F|]. split; [|apply F].
    by rewrite (fresh_expires _ _ _ _ F). }
  destruct (run_of_task _ _ Hsteps Ht2') as (r&Hr&_).
  set (res := mkResultRecord (Task_TaskID k) (Task_AttemptID k) 0 1 (sha256_hex payload) payload (sim_now env0 1) zero_time "" false).
  assert (results s2 !! resultKey (Task_TaskID k) (Task_AttemptID k) 0 = Some res) as Hres by apply lookup_insert_eq.
  destruct (deliver_records env t2 r (resultKey (Task_TaskID k) (Task_AttemptID k) 0) res "Nischoy Topo" es p s2)
    as (s'&b&t'&d&Hdel&Ht'&Hst'&Hd&Hdt&Hda&Hap&Hcount); [exact Hsteps|exact Ht2'|exact Hr|done|exact (fresh_open _ _ _ _ F)|exact Hmap|].
  exists s', b, t', d. unfold complete. cbn [complete_request Complete_WorkerID Complete_BootID Complete_AttemptID Complete_LeaseToken
    Complete_Success Complete_ChunkCount negb]. rewrite Hv. cbn [Z.eqb Pos.eqb negb orb]. rewrite bool_decide_true by done. cbn [negb]. cbv iota.
  replace (T_CancelRequested t2) with false by (symmetry; apply F). rewrite Hr. cbn [mbind option_bind]. rewrite Hres. cbn [mbind option_bind].
  unfold no_data. replace (T_Operation t2) with OperationLocalV1 by (symmetry; rewrite <-Hop; apply F). change (remote_operation OperationLocalV1) with false. cbv iota.
  change (R_Payload res) with payload. rewrite Hdec, Hmap, Hdel. simpl in Ht', Hdt, Hda. rewrite (fresh_id _ _ _ _ F) in Ht', Hdt.
  rewrite (fresh_attempt _ _ _ _ F) in Hda. done.
Qed.

(** ** An undisturbed attempt *)

Record undisturbed (i : Input SimPlane) : Prop := mkUndisturbed {
  quiet_answered : In_ending i = Answered;
  quiet_others : ∀ p, In_others i p = p;
  quiet_finished : In_finished i = [];
  quiet_wait : In_wait i = None;
  quiet_lease : In_lease i = Lease_stopped;
}.

Section undisturbed.
Context `{Plugins}.
Variable quiet : Input SimPlane.
Hypothesis Hquiet : undisturbed quiet.

Lemma nothing_meanwhile (w : WorkerWorld SimPlane) : meanwhile quiet w = w.
Proof.
  unfold meanwhile. rewrite (quiet_others _ Hquiet), (quiet_finished _ Hquiet). change (list_to_set [] : gset string) with (∅ : gset string).
  rewrite difference_empty_L. by destruct w.
Qed.

Lemma runs_observe {A} (f : Input SimPlane → WorkerWorld SimPlane → A * WorkerWorld SimPlane) w : Effects.runs (observe quiet f) w (f quiet w).1 (f quiet w).2.
Proof.
  apply runs_input. cbv zeta. rewrite (quiet_answered _ Hquiet), nothing_meanwhile. by destruct (f quiet w).
Qed.

Lemma runs_look {A} (f : Input SimPlane → A) w : Effects.runs (look quiet f) w (f quiet) w.
Proof. apply runs_observe. Qed.

Lemma plane_call_runs {A} (event : go A → worker_event) (serve : SimPlane → go A * SimPlane) a p p' act l :
  serve p = (a, p') → Effects.runs (call_plane quiet event serve) (mkWorkerWorld p act l) a (mkWorkerWorld p' act (event a :: l)).
Proof. intros Hs. apply runs_input. cbv zeta. rewrite nothing_meanwhile, (quiet_answered _ Hquiet). simpl. by rewrite Hs. Qed.
End undisturbed.

(** A request with the server's token reaches its handler. *)
Lemma serve_result {A} (f : sim_payload → option A) s n q id s' code b a :
  token = Config_Token (config s) → token ≠ ""%string → sim_result (envs n) (Ok q) id s = (s', Answer code b) →
  (code <? 200) || (300 <=? code) = false → f b = Some a →
  serve (route_results id (Ok q)) f (mkSimPlane s n) = (Ok a, mkSimPlane s' (S n)).
Proof.
  intros Htoken Hne Hr Hcode Hf. rewrite Htoken in Hne. unfold serve, serveHTTP. cbn [sim_of served negb]. cbv zeta. rewrite Htoken. rewrite bool_decide_false by done. rewrite String.eqb_refl. cbn [negb orb].
  rewrite Hr. unfold reply. by rewrite Hcode, Hf.
Qed.
Lemma serve_complete {A} (f : sim_payload → option A) s n q id s' code b a :
  token = Config_Token (config s) → token ≠ ""%string → complete json_tokens decode_line decode_any (envs n) (Ok q) id s = (s', Answer code b) →
  (code <? 200) || (300 <=? code) = false → f b = Some a →
  serve (route_complete id (Ok q)) f (mkSimPlane s n) = (Ok a, mkSimPlane s' (S n)).
Proof.
  intros Htoken Hne Hr Hcode Hf. rewrite Htoken in Hne. unfold serve, serveHTTP. cbn [sim_of served negb]. cbv zeta. rewrite Htoken. rewrite bool_decide_false by done. rewrite String.eqb_refl. cbn [negb orb].
  rewrite Hr. unfold reply. by rewrite Hcode, Hf.
Qed.

(** C5: the whole way of a task: when the control plane hands out a local task and nothing
    interferes with the attempt - the executor returns an observation whose encoding the
    control plane can read and map, of at most 1 MiB, and the lease has not expired when
    result and completion arrive - then the worker executes the task, sends its result and
    completes it, both are accepted, and the control plane holds the task complete with
    one applied delivery of this attempt that has an operation for every item. *)
Theorem claimed_task_is_completed `{Plugins} (encode : ObservationEnvelope → go string) (rc : WorkerRunConfig) (quiet : Input SimPlane)
    (c : SimConfig) (ops : list (SimEnv * sim_op)) (env : SimEnv) (q : ClaimRequest) (s : Sim) (k : Task) (n : nat)
    (act : gset string) (l : list worker_event) (calls : list call) (o : ObservationEnvelope) (payload : string)
    (es : list ObservationEnvelope) (p : IREPayload) :
  claim env (Ok q) (sim_run json_tokens decode_line decode_any c ops) = (s, Answer 200 (claim_body (Some k))) →
  token = Config_Token (config s) → token ≠ ""%string → undisturbed quiet → Task_Operation k = OperationLocalV1 →
  execute (Run_Executor rc) (In_now quiet) (In_current quiet) k (Some (Err ""%string)) = (calls, Returned (Ok o)) →
  encode o = Ok payload → 1 <= slen payload <= 2 ^ 20 →
  DecodeJSONLines json_tokens decode_line payload = Ok es → mapPayload "Nischoy Topo" es = Ok p →
  sim_now (envs n) 0 < Task_LeaseExpiresAt k → sim_now (envs (S n)) 0 < Task_LeaseExpiresAt k →
  let reg := mkRegistration (Claim_WorkerID q) (Claim_BootID q) in
  ∃ s' b t d,
    Effects.runs (executeTask encode rc quiet reg k) (mkWorkerWorld (mkSimPlane s n) act l) tt
      (mkWorkerWorld (mkSimPlane s' (S (S n))) act
        (Completed (Task_TaskID k) (complete_request reg k true 1 None) (Ok b) ::
         Submitted (Task_TaskID k) (chunk_request reg k payload) (Ok (mkResultChunkResponse true false)) ::
         Executed k calls (Returned (Ok o)) :: l)) ∧
    tasks s' !! Task_TaskID k = Some t ∧ T_State t = complete_ ∧ d ∈ deliveries s' ∧
    D_TaskID d = Task_TaskID k ∧ D_AttemptID d = Task_AttemptID k ∧ D_Applied d = true ∧ llen (D_ItemOperations d) = llen (Items p).
Proof.
  intros Hcl Htoken Hne Hquiet Hop Hex Henc Hlen Hdec Hmap Hnow1 Hnow2 reg. destruct (claim_fresh _ _ _ _ _ _ Hcl) as [t F]. fold reg in F.
  pose proof (execute_reaches (Run_Executor rc) (In_now quiet) (In_current quiet) k (Some (Err ""%string))) as Hreach. rewrite Hex in Hreach.
  destruct Hreach as [(_&?&?)|(deadline&_&Hv&_&_&_&_&_&[(_&Hnone&_)|(?&_)])]; [done| |done]. apply count_existsb in Hnone.
  apply validateTask_spec in Hv as (Hid&_).
  destruct (complete_received (envs n) (envs (S n)) s reg k t payload es p F Hnow1 Hnow2 Hop Hlen Hdec Hmap) as (s'&b&t'&d&Hcomp&Ht').
  exists s', b, t', d. split; [|done]. unfold executeTask. rewrite Hop. change (String.eqb OperationLocalV1 OperationLocalV1) with true. cbv iota.
  eapply runs_bind; [apply runs_ret|]. eapply runs_bind.
  { unfold run_executor. eapply runs_bind; [by apply runs_look|]. cbv beta iota zeta. rewrite Hex. cbn [fst]. rewrite Hnone.
    eapply runs_bind; [apply runs_ret|]. rewrite Hex. by apply (runs_observe quiet Hquiet). }
  cbn [conclude fst snd]. rewrite Henc. change (Z.quot maxControlRequestBytes 2) with (2 ^ 20). rewrite (proj2 (Z.ltb_ge _ _)) by lia.
  unfold deliver_payload. eapply runs_bind.
  { apply (plane_call_runs quiet Hquiet). cbn [SubmitResult sim_plane plane note]. unfold serve_task. rewrite Hid.
    eapply (serve_result _ s n); [exact Htoken|exact Hne|exact (submit_fresh (envs n) s reg k t payload F Hnow1 Hlen)|reflexivity|reflexivity]. }
  cbn [Accepted negb]. cbv iota. eapply runs_bind.
  { apply (plane_call_runs quiet Hquiet). cbn [Complete sim_plane]. unfold serve_task. rewrite Hid.
    eapply (serve_complete _ (received (envs n) s k t payload) (S n)); [exact Htoken|exact Hne|exact Hcomp|reflexivity|reflexivity]. }
  unfold report_cancelled. eapply runs_bind; [by apply runs_look|]. rewrite (quiet_lease _ Hquiet). eapply runs_bind; [by apply runs_look|].
  apply runs_ret.
Qed.
End plane.

(** ** A local discovery, from claim to delivery *)

Section example.
Local Open Scope string_scope.

Definition found : ObservationEnvelope :=
  mkObservationEnvelope SchemaVersion "o1" "site" "worker-pool-pool" "local-host" "task-00000003" (unix 103 0)
    [mkAsset AssetHost "h1" "web" ∅ ∅ [];
     mkAsset AssetNetworkInterface "h1/eth0" "eth0" ∅ {["mac_address" := any_string "02:00:00:00:00:01"]} []]
    [mkRelationship "host_has_interface" "h1" "h1/eth0" []] [] ∅.
Definition found_payload : IREPayload := match mapPayload "Nischoy Topo" [found] with Ok p => p | Err _ => mkIREPayload [] [] end.
#[local] Instance local_plugins : Plugins := { ValidateConfiguration _ _ := Ok tt; Discover _ _ _ := Ok found }.

Definition read_found : string → go ObservationEnvelope := λ _, Ok found.
Definition sim_input : Input SimPlane := mkInput _ Answered false id [] (103 * Second)%Z (103 * Second)%Z None false false Lease_stopped.
Definition sim_envs (n : nat) : SimEnv := demo_env (104 + Z.of_nat n).
Definition claimed : Sim := (claim (demo_env 102) (Ok demo_claim) (sim_run demo_tokens read_found read_found demo_config demo_enrolled)).1.

Lemma claimed_task_is_completed_witness :
  ∃ s' t d, tasks s' !! "task-00000003" = Some t ∧ T_State t = complete_ ∧ d ∈ deliveries s' ∧ D_AttemptID d = demo_attempt ∧
    llen (D_ItemOperations d) = 2%Z ∧ deliveries claimed = [].
Proof.
  destruct (claimed_task_is_completed demo_tokens read_found read_found sim_envs (λ _, 103 * Second)%Z "token" (λ _, Ok "{}") demo_worker sim_input
    demo_config demo_enrolled (demo_env 102) demo_claim claimed demo_handed 0%nat ∅ []
    [call_validate OperationLocalV1 (mkDiscoveryRequest "task-00000003" "site" "worker-pool-pool" ["local"] (133 * Second)%Z);
     call_discover OperationLocalV1 None (mkDiscoveryRequest "task-00000003" "site" "worker-pool-pool" ["local"] (133 * Second)%Z)]
    found "{}" [found] found_payload) as (s'&b&t&d&_&Ht&Hst&Hd&_&Hda&_&Hn);
    [vm_compute; reflexivity|vm_compute; reflexivity|discriminate|split; reflexivity|reflexivity|vm_compute; reflexivity|reflexivity
    |vm_compute; split; discriminate|vm_compute; reflexivity|vm_compute; reflexivity|vm_compute; reflexivity|vm_compute; reflexivity|].
  exists s', t, d. split; [exact Ht|]. split; [exact Hst|]. split; [exact Hd|]. split; [exact Hda|]. split; [exact Hn|]. vm_compute. reflexivity.
Defined.
End example.
