(* ===== verification/Agent.v ===== *)
(** * [internal/agent]: the collector's spool and delivery loop

    [spool.go], the classification of answers in [sender.go], and the loop bodies of
    [run.go].  The spool directory is a map from file names to contents; the cipher is
    the interface of [SpoolDir] with the one law the spool relies on.  A step that the process does not
    survive is an operation of its own ([crash_enqueue]).  File-system errors, log lines
    and the discovery plugin are outside. *)

From S2P Require Import Prelude Bytes Text Time Model Decimal SpoolDir.

Definition spoolKeyBytes : Z := 32.
Definition spoolSuffix : string := ".spool".
Definition tmpPrefix : string := ".tmp-".
Definition maxSpoolFileBytes : Z := 8 * 2 ^ 20.

(** ** The spool *)

Record Spool := mkSpool {
  files : gmap string string;
  maxBytes : Z;
  seq : Z;
}.

Inductive spool_error := ErrSpoolFull | unreadable (msg : string).

(** [NewSpool] on a directory that may hold files from an earlier process. *)
Definition NewSpool (absolute : bool) (key_bytes maxBytes : Z) (directory : gmap string string) : go Spool :=
  reject negb absolute with "spool directory must be an absolute path"%string ;;
  reject negb (key_bytes =? spoolKeyBytes) with "spool encryption key must be exactly %d bytes (AES-256)"%string ;;
  reject maxBytes <=? 0 with "spool max bytes must be positive"%string ;;
  Ok (mkSpool directory maxBytes 0).

Definition totalBytesLocked (s : Spool) : Z := size_of (files s).

Definition entry_name : Z → Z → string := dated_name spoolSuffix.

Definition spooled (name : string) : bool :=
  negb (has_prefix name tmpPrefix) && has_suffix name spoolSuffix.

Definition Pending (s : Spool) : list string := listing spooled (files s).

Definition entry_path_ok : string → bool := path_ok spoolSuffix.

Section spool.
Context `{H : SpoolCodec ObservationEnvelope}.

Definition Enqueue (env : SpoolEnv) (e : ObservationEnvelope) (s : Spool) : Spool * option spool_error :=
  let ciphertext := seal (nonce env) (marshal e) in
  if maxBytes s <? totalBytesLocked s + slen ciphertext then (s, Some ErrSpoolFull)
  else
    let seq := seq s + 1 in
    (mkSpool (<[entry_name (nano env) seq := ciphertext]> (files s)) (maxBytes s) seq, None).

(** The process dies between the write of the temporary file and its rename. *)
Definition crash_enqueue (env : SpoolEnv) (e : ObservationEnvelope) (s : Spool) : Spool :=
  let ciphertext := seal (nonce env) (marshal e) in
  if maxBytes s <? totalBytesLocked s + slen ciphertext then s
  else mkSpool (<[(tmpPrefix +:+ entry_name (nano env) (seq s + 1))%string := ciphertext]> (files s)) (maxBytes s) 0.

Definition Read (name : string) (s : Spool) : result string ObservationEnvelope :=
  if negb (entry_path_ok name) then Err "invalid spool entry name %q"%string
  else match files s !! name with
  | None => Err "open spool entry %q: %w"%string
  | Some ciphertext =>
    reject maxSpoolFileBytes <? slen ciphertext with "spool entry %q exceeds %d bytes"%string ;;
    match open ciphertext with
    | None => Err "spool entry %q failed integrity verification: %w"%string
    | Some plaintext =>
      match unmarshal plaintext with
      | None => Err "decode spool entry %q: %w"%string
      | Some e => Ok e
      end
    end
  end.

(** Removing an absent entry is not an error. *)
Definition Remove (name : string) (s : Spool) : Spool :=
  if entry_path_ok name then mkSpool (delete name (files s)) (maxBytes s) (seq s) else s.

(** ** Delivery *)

(** The outcome of one request, and the [DeliveryError] made of it by [doRaw]. *)
Inductive response := no_response | status (code : Z).
Inductive send_result := sent | DeliveryError (Retryable : bool).

Definition doRaw (r : response) : send_result :=
  match r with
  | no_response => DeliveryError true
  | status code => if (code <? 200) || (300 <=? code) then DeliveryError (500 <=? code) else sent
  end.

(** What happened to an observation. *)
Inductive fate := delivered (e : ObservationEnvelope) | rejected (e : ObservationEnvelope) | dropped (name : string).

(** [drainSpool]: [answer e] is what the controller answers to [e]; [cancelled k]
    whether the context is done before the [k]-th entry. *)
Fixpoint drain (answer : ObservationEnvelope → response) (cancelled : nat → bool) (k : nat) (names : list string) (s : Spool)
    : Spool * list fate :=
  match names with
  | [] => (s, [])
  | name :: names =>
    if cancelled k then (s, [])
    else match Read name s with
    | Err _ => let '(s', fates) := drain answer cancelled (S k) names (Remove name s) in (s', dropped name :: fates)
    | Ok e =>
      match doRaw (answer e) with
      | sent => let '(s', fates) := drain answer cancelled (S k) names (Remove name s) in (s', delivered e :: fates)
      | DeliveryError false =>
        let '(s', fates) := drain answer cancelled (S k) names (Remove name s) in (s', rejected e :: fates)
      | DeliveryError true => (s, [])
      end
    end
  end.

Definition drainSpool (answer : ObservationEnvelope → response) (cancelled : nat → bool) (s : Spool) : Spool * list fate :=
  drain answer cancelled 0 (Pending s) s.

(** [deliver]: any failure, retryable or not, buffers the observation. *)
Definition deliver (env : SpoolEnv) (r : response) (e : ObservationEnvelope) (s : Spool) : Spool * list fate :=
  match doRaw r with
  | sent => (s, [delivered e])
  | DeliveryError _ =>
    match Enqueue env e s with
    | (s', None) => (s', [])
    | (s', Some _) => (s', [dropped ""])
    end
  end.

(** ** Jobs *)

Record job_report := mkJobReport { report_success : bool; report_error : string }.

(** [runJob]: the report of one dispatched job; [discovered] is the outcome of the
    discovery pass, which is run for "discover" jobs only. *)
Definition runJob (discovered : go ObservationEnvelope) (job_type : string) : bool * job_report :=
  if String.eqb job_type JobTypeDiscover then
    (true, match discovered with Ok _ => mkJobReport true "" | Err e => mkJobReport false e end)
  else (false, mkJobReport false "collector does not support job type %q").
End spool.

(** ** Pending entries *)

Lemma elem_of_Pending s name : name ∈ Pending s ↔ is_Some (files s !! name) ∧ spooled name = true.
Proof. apply elem_of_listing. Qed.
Lemma Pending_nodup s : NoDup (Pending s).
Proof. apply listing_nodup. Qed.
Lemma Pending_sorted s : StronglySorted (not_after str_lt) (Pending s).
Proof. apply listing_sorted. Qed.
Lemma Pending_unique s l : StronglySorted (not_after str_lt) l → NoDup l → (∀ x, x ∈ l ↔ x ∈ Pending s) → Pending s = l.
Proof. apply listing_unique. Qed.

(** Pending entries can be named to [Read] and [Remove]: what [Enqueue] writes, and what
    an operator would have to violate by hand. *)
Definition names_ok (s : Spool) : Prop := ∀ name, name ∈ Pending s → entry_path_ok name = true.

Section theorems.
Context `{H : SpoolCodec ObservationEnvelope}.

(** What draining does to one entry: its fate, or [None] when the loop stops there. *)
Definition entry_fate (answer : ObservationEnvelope → response) (s : Spool) (name : string) : option fate :=
  match Read name s with
  | Err _ => Some (dropped name)
  | Ok e => match doRaw (answer e) with
            | sent => Some (delivered e) | DeliveryError false => Some (rejected e) | DeliveryError true => None
            end
  end.

Lemma Read_after names name s :
  name ∉ names → Read name (mkSpool (remove_all names (files s)) (maxBytes s) (seq s)) = Read name s.
Proof. intros Hn. unfold Read. simpl. by rewrite remove_all_lookup, decide_False. Qed.

Lemma Remove_ok name s : entry_path_ok name = true → Remove name s = mkSpool (delete name (files s)) (maxBytes s) (seq s).
Proof. intros Hok. unfold Remove. by rewrite Hok. Qed.

Lemma drain_processes answer cancelled names : ∀ k s,
  (∀ name, name ∈ names → entry_path_ok name = true) → NoDup names →
  ∃ n, (n <= length names)%nat ∧
    (drain answer cancelled k names s).1 = mkSpool (remove_all (take n names) (files s)) (maxBytes s) (seq s) ∧
    Some <$> (drain answer cancelled k names s).2 = entry_fate answer s <$> take n names ∧
    ((n < length names)%nat → cancelled (k + n)%nat = true ∨ ∃ name, names !! n = Some name ∧ entry_fate answer s name = None).
Proof.
  induction names as [|name names IH]; intros k s Hok Hnd; simpl.
  { exists 0%nat. simpl. split; [done|]. split; [by destruct s|]. split; [done|lia]. }
  apply NoDup_cons in Hnd as [Hni Hnd].
  assert (∀ f, entry_fate answer s name = Some f →
    ∃ n, (n <= S (length names))%nat ∧
      (drain answer cancelled (S k) names (Remove name s)).1 = mkSpool (remove_all (take n (name :: names)) (files s)) (maxBytes s) (seq s) ∧
      Some <$> f :: (drain answer cancelled (S k) names (Remove name s)).2 = entry_fate answer s <$> take n (name :: names) ∧
      ((n < S (length names))%nat → cancelled (k + n)%nat = true ∨
         ∃ name', (name :: names) !! n = Some name' ∧ entry_fate answer s name' = None)) as Hstep.
  { intros f Hf. rewrite (Remove_ok name s) by (apply Hok; by left).
    destruct (IH (S k) (mkSpool (delete name (files s)) (maxBytes s) (seq s))) as (n&Hn&Hs'&Hfates&Hstop); [intros x Hx; apply Hok; by right|done|].
    assert (∀ x, x ∈ names → entry_fate answer (mkSpool (delete name (files s)) (maxBytes s) (seq s)) x = entry_fate answer s x) as Hsame.
    { intros x Hx. unfold entry_fate. change (delete name (files s)) with (remove_all [name] (files s)).
      rewrite Read_after; [done|]. rewrite list_elem_of_singleton. congruence. }
    exists (S n). split; [lia|]. split; [rewrite Hs'; simpl; by rewrite remove_all_snoc|]. split.
    - rewrite firstn_cons, !fmap_cons, Hf, Hfates. f_equal. apply list_fmap_ext. intros i x Hi. apply Hsame.
      apply list_elem_of_lookup_2 in Hi. rewrite <-(take_drop n names). apply elem_of_app. by left.
    - simpl. intros Hlt. destruct Hstop as [Hc|(x&Hx&Hfx)]; [lia|left; by rewrite <-plus_n_Sm|right].
      exists x. split; [done|]. rewrite <-Hfx. symmetry. apply Hsame. by eapply list_elem_of_lookup_2. }
  destruct (cancelled k) eqn:Hc.
  { exists 0%nat. simpl. split; [lia|]. split; [by destruct s|]. split; [done|]. intros _. left. by rewrite Nat.add_0_r. }
  unfold entry_fate in Hstep at 1. destruct (Read name s) as [e|msg] eqn:Hr.
  - destruct (doRaw (answer e)) as [|[]] eqn:Ha.
    + destruct (Hstep _ eq_refl) as (n&?). exists n. by destruct (drain _ _ _ _ _).
    + exists 0%nat. simpl. split; [lia|]. split; [by destruct s|]. split; [done|]. intros _. right. exists name.
      split; [done|]. unfold entry_fate. by rewrite Hr, Ha.
    + destruct (Hstep _ eq_refl) as (n&?). exists n. by destruct (drain _ _ _ _ _).
  - destruct (Hstep _ eq_refl) as (n&?). exists n. by destruct (drain _ _ _ _ _).
Qed.

(** Draining goes through the pending entries oldest first, and what it removes is a
    prefix of them: each removed entry was delivered, or unreadable, or rejected for good;
    it stops only at the end, on cancellation, or at the first entry whose delivery may be
    repeated; every other file stays as it was. *)
Theorem drainSpool_spec (answer : ObservationEnvelope → response) (cancelled : nat → bool) (s : Spool) :
  names_ok s →
  let '(s', fates) := drainSpool answer cancelled s in
  ∃ n, (n <= length (Pending s))%nat ∧ Pending s' = drop n (Pending s) ∧
    (∀ name, name ∉ take n (Pending s) → files s' !! name = files s !! name) ∧
    Some <$> fates = entry_fate answer s <$> take n (Pending s) ∧
    ((n < length (Pending s))%nat →
       cancelled n = true ∨ ∃ name, Pending s !! n = Some name ∧ entry_fate answer s name = None) ∧
    totalBytesLocked s' <= totalBytesLocked s.
Proof.
  intros Hok. unfold drainSpool.
  destruct (drain_processes answer cancelled (Pending s) 0 s Hok (Pending_nodup s)) as (n&Hn&Hs'&Hfates&Hstop).
  destruct (drain answer cancelled 0 (Pending s) s) as [s' fates]. simpl in *. subst s'.
  exists n. split; [done|]. split; [|split; [|split; [done|split; [done|]]]].
  - apply Pending_unique; [apply StronglySorted_drop, Pending_sorted|apply drop_nodup, Pending_nodup|].
    intros x. rewrite elem_of_Pending. simpl. rewrite remove_all_lookup.
    pose proof (Pending_nodup s) as Hnd. rewrite <-(take_drop n (Pending s)) in Hnd. apply NoDup_app in Hnd as (_&Hdis&_). split.
    + intros Hx. rewrite decide_False by (intros Ht; by apply (Hdis x Ht)).
      apply elem_of_Pending. rewrite <-(take_drop n (Pending s)). apply elem_of_app. by right.
    + destruct (decide (x ∈ take n (Pending s))) as [|Hni]; [by intros [[? ?] _]|].
      intros Hx. assert (x ∈ Pending s) as Hp by by apply elem_of_Pending.
      rewrite <-(take_drop n (Pending s)) in Hp. apply elem_of_app in Hp as [|]; done.
  - intros name Hni. simpl. by rewrite remove_all_lookup, decide_False.
  - change (size_of (remove_all (take n (Pending s)) (files s)) <= size_of (files s)).
    generalize (take n (Pending s)). intros l. induction l as [|x l IH]; [done|]. simpl.
    etrans; [apply size_of_delete_le|exact IH].
Qed.

(** A controller that answers 401, as it does after the collector's key or certificate
    was replaced, makes one pass discard every buffered observation: an authentication
    failure is classified as a rejection of the payload. *)
Theorem unauthorized_discards_buffer (s : Spool) :
  names_ok s →
  Pending (drainSpool (λ _, status 401) (λ _, false) s).1 = [] ∧
  ∀ e, delivered e ∉ (drainSpool (λ _, status 401) (λ _, false) s).2.
Proof.
  intros Hok. unfold drainSpool.
  destruct (drain_processes (λ _, status 401) (λ _, false) (Pending s) 0 s Hok (Pending_nodup s)) as (n&Hn&Hs'&Hfates&Hstop).
  destruct (drain _ _ 0 (Pending s) s) as [s' fates]. simpl in *. subst s'.
  assert (∀ name, entry_fate (λ _, status 401) s name ≠ None ∧ ∀ e, entry_fate (λ _, status 401) s name ≠ Some (delivered e)) as Hno.
  { intros name. unfold entry_fate. by destruct (Read name s). }
  assert (n = length (Pending s)) as ->.
  { destruct (decide (n = length (Pending s))) as [|Hne]; [done|]. destruct Hstop as [?|(name&_&Hf)]; [lia|done|].
    by destruct (Hno name). }
  rewrite firstn_all in *. split.
  - apply Pending_unique; [constructor|apply NoDup_nil_2|]. intros x. split; [by intros ?%not_elem_of_nil|].
    rewrite elem_of_Pending. simpl. rewrite remove_all_lookup. intros [Hsome Hsp]. exfalso.
    destruct (decide (x ∈ Pending s)) as [|Hni]; [by destruct Hsome|]. apply Hni. by apply elem_of_Pending.
  - intros e Hin. assert (Some (delivered e) ∈ entry_fate (λ _, status 401) s <$> Pending s) as Hf.
    { rewrite <-Hfates. by apply list_elem_of_fmap_2. }
    apply list_elem_of_fmap in Hf as (name&Heq&_). destruct (Hno name) as [_ Hne]. by apply (Hne e).
Qed.

(** An observation that encrypts to more than 8 MiB is accepted into the spool when it
    fits the bound and is then lost: every later attempt to read it fails, so the next
    drain drops it without ever offering it to the controller. *)
Theorem oversize_entry_is_lost (env : SpoolEnv) (e : ObservationEnvelope) (s : Spool) :
  maxSpoolFileBytes < slen (seal (nonce env) (marshal e)) →
  totalBytesLocked s + slen (seal (nonce env) (marshal e)) <= maxBytes s →
  ∃ s' name, Enqueue env e s = (s', None) ∧ is_Some (files s' !! name) ∧
    ∀ answer, entry_fate answer s' name = Some (dropped name).
Proof.
  intros Hbig Hfits. unfold Enqueue. rewrite (proj2 (Z.ltb_ge _ _)) by done.
  eexists _, (entry_name (nano env) (seq s + 1)). split; [done|]. simpl. rewrite lookup_insert_eq. split; [by eexists|].
  intros answer. unfold entry_fate, Read. simpl. destruct (negb _); [done|]. rewrite lookup_insert_eq.
  by rewrite (proj2 (Z.ltb_lt _ _)).
Qed.

(** ** Histories *)

Inductive spool_op :=
| op_deliver (env : SpoolEnv) (r : response) (e : ObservationEnvelope)
| op_drain (answer : ObservationEnvelope → response) (cancelled : nat → bool)
| op_crash (env : SpoolEnv) (e : ObservationEnvelope)
| op_restart.

Definition spool_step (s : Spool) (op : spool_op) : Spool :=
  match op with
  | op_deliver env r e => (deliver env r e s).1
  | op_drain answer cancelled => (drainSpool answer cancelled s).1
  | op_crash env e => crash_enqueue env e s
  | op_restart => mkSpool (files s) (maxBytes s) 0
  end.
Definition spool_run (s : Spool) (ops : list spool_op) : Spool := foldl spool_step s ops.

Lemma drain_bounded answer cancelled names : ∀ k s,
  totalBytesLocked (drain answer cancelled k names s).1 <= totalBytesLocked s ∧
  maxBytes (drain answer cancelled k names s).1 = maxBytes s.
Proof.
  assert (∀ name s, totalBytesLocked (Remove name s) <= totalBytesLocked s ∧ maxBytes (Remove name s) = maxBytes s) as Hrem.
  { intros name s. unfold Remove. destruct (entry_path_ok name); [|done]. split; [|done]. apply size_of_delete_le. }
  induction names as [|name names IH]; intros k s; simpl; [done|]. destruct (cancelled k); [done|].
  assert (totalBytesLocked (drain answer cancelled (S k) names (Remove name s)).1 <= totalBytesLocked s ∧
    maxBytes (drain answer cancelled (S k) names (Remove name s)).1 = maxBytes s) as Hnext.
  { destruct (IH (S k) (Remove name s)) as [H1 H2], (Hrem name s) as [H3 H4]. split; [lia|congruence]. }
  destruct (drain answer cancelled (S k) names (Remove name s)) as [s' fates].
  destruct (Read name s); [|done]. by destruct (doRaw _) as [|[]].
Qed.

Lemma spool_step_bounded s op :
  totalBytesLocked s <= maxBytes s →
  totalBytesLocked (spool_step s op) <= maxBytes (spool_step s op) ∧ maxBytes (spool_step s op) = maxBytes s.
Proof.
  intros Hs. destruct op as [env r e|answer cancelled|env e|]; simpl; [| | |done].
  - unfold deliver, Enqueue. destruct (doRaw r); [done|].
    destruct (Z.ltb_spec (maxBytes s) (totalBytesLocked s + slen (seal (nonce env) (marshal e)))); [done|].
    split; [|done]. simpl. etrans; [apply size_of_insert_le|]. unfold totalBytesLocked in *. simpl in *. lia.
  - unfold drainSpool. destruct (drain_bounded answer cancelled (Pending s) 0 s). split; [lia|done].
  - unfold crash_enqueue.
    destruct (Z.ltb_spec (maxBytes s) (totalBytesLocked s + slen (seal (nonce env) (marshal e)))); [done|].
    split; [|done]. simpl. etrans; [apply size_of_insert_le|]. unfold totalBytesLocked in *. simpl in *. lia.
Qed.

(** The buffer never grows past its bound, whatever the order of deliveries, outages,
    drains, crashes and restarts. *)
Theorem spool_stays_bounded (s : Spool) (ops : list spool_op) :
  totalBytesLocked s <= maxBytes s →
  totalBytesLocked (spool_run s ops) <= maxBytes s ∧ maxBytes (spool_run s ops) = maxBytes s.
Proof.
  unfold spool_run. revert s. induction ops as [|op ops IH]; intros s Hs; simpl; [done|].
  destruct (spool_step_bounded s op Hs) as [Hb Hm]. destruct (IH _ Hb) as [H1 H2]. split; [lia|congruence].
Qed.
End theorems.

(** ** First in, first out *)

Lemma entry_name_path_ok now seq : entry_path_ok (entry_name now seq) = true.
Proof. by apply dated_name_path_ok. Qed.

Lemma entry_name_spooled now seq : spooled (entry_name now seq) = true.
Proof.
  unfold spooled. apply andb_true_iff. split; [apply negb_true_iff; by apply dated_name_no_prefix|apply dated_name_suffix].
Qed.

Section fifo.
Context `{Hcodec : SpoolCodec ObservationEnvelope} `{!SpoolCodecLaws Hcodec}.

Definition spooled_text (ee : SpoolEnv * ObservationEnvelope) : string := seal (nonce ee.1) (marshal ee.2).

Fixpoint names_from (k : Z) (batch : list (SpoolEnv * ObservationEnvelope)) : list string :=
  match batch with
  | [] => []
  | ee :: batch => entry_name (nano ee.1) (k + 1) :: names_from (k + 1) batch
  end.

Definition enqueue_all (batch : list (SpoolEnv * ObservationEnvelope)) (s : Spool) : Spool :=
  foldl (λ s ee, (Enqueue ee.1 ee.2 s).1) s batch.

Definition batch_size (batch : list (SpoolEnv * ObservationEnvelope)) : Z := foldr (λ ee n, slen (spooled_text ee) + n) 0 batch.

Lemma batch_size_nonneg batch : 0 <= batch_size batch.
Proof. induction batch as [|ee batch IH]; simpl; [done|]. pose proof (slen_nonneg (spooled_text ee)). lia. Qed.

(** Nanosecond clocks that never go back, in the range of the 20 digits. *)
Definition steady (batch : list (SpoolEnv * ObservationEnvelope)) : Prop :=
  StronglySorted Z.le (nano ∘ fst <$> batch) ∧ Forall (λ ee : SpoolEnv * ObservationEnvelope, 0 <= nano ee.1 < 10 ^ 20) batch.

Lemma names_from_later batch : ∀ k ee, 0 <= k → k + 1 + llen batch < 10 ^ 8 →
  steady (ee :: batch) → Forall (λ name, str_lt (entry_name (nano ee.1) (k + 1)) name = true) (names_from (k + 1) batch).
Proof.
  intros k ee Hk Hmax [Hs Hr]. apply StronglySorted_inv in Hs as [_ Hge]. apply Forall_cons in Hr as [Hee Hr].
  assert (∀ j, k + 1 <= j → j + llen batch < 10 ^ 8 → Forall (λ name, str_lt (entry_name (nano ee.1) (k + 1)) name = true) (names_from j batch)) as Hgen.
  2:{ apply Hgen; lia. }
  clear Hmax. induction batch as [|ee' batch IH]; intros j Hj Hmax; simpl; [constructor|].
  unfold llen in *. simpl in *. apply Forall_cons in Hge as [Hge Hge']. apply Forall_cons in Hr as [Hee' Hr'].
  constructor; [|apply IH; [done|done|lia|lia]].
  apply dated_name_lt; simpl in *; lia.
Qed.

Lemma names_sorted batch : ∀ k, 0 <= k → k + llen batch < 10 ^ 8 → steady batch →
  StronglySorted (not_after str_lt) (names_from k batch) ∧ NoDup (names_from k batch).
Proof.
  induction batch as [|ee batch IH]; intros k Hk Hmax Hst; simpl; [split; constructor|].
  assert (k + 1 + llen batch < 10 ^ 8) as Hmax' by (unfold llen in *; simpl in *; lia).
  pose proof (names_from_later batch k ee Hk Hmax' Hst) as Hlater.
  assert (steady batch) as Hst' by (destruct Hst as [Hs Hr]; apply StronglySorted_inv in Hs as [? _]; by apply Forall_cons in Hr as [_ ?]).
  destruct (IH (k + 1) ltac:(lia) Hmax' Hst') as [Hsort Hnd]. split.
  - constructor; [done|]. eapply Forall_impl; [exact Hlater|]. intros name Hlt. unfold not_after. by apply sw_asym.
  - constructor; [|done]. intros Hin. rewrite Forall_forall in Hlater. specialize (Hlater _ Hin). by rewrite str_lt_irrefl in Hlater.
Qed.

Lemma enqueue_all_files batch : ∀ s,
  NoDup (names_from (seq s) batch) → totalBytesLocked s + batch_size batch <= maxBytes s →
  let s' := enqueue_all batch s in
  (∀ i ee name, batch !! i = Some ee → names_from (seq s) batch !! i = Some name → files s' !! name = Some (spooled_text ee)) ∧
  (∀ name, name ∉ names_from (seq s) batch → files s' !! name = files s !! name).
Proof.
  induction batch as [|ee batch IH]; intros s Hnd Hfit; simpl; [done|].
  simpl in Hnd, Hfit. apply NoDup_cons in Hnd as [Hni Hnd]. pose proof (batch_size_nonneg batch) as Hb.
  assert ((Enqueue ee.1 ee.2 s).1 = mkSpool (<[entry_name (nano ee.1) (seq s + 1) := spooled_text ee]> (files s)) (maxBytes s) (seq s + 1)) as Heq.
  { unfold Enqueue. fold (spooled_text ee). by rewrite (proj2 (Z.ltb_ge _ _)) by lia. }
  rewrite Heq. set (s1 := mkSpool _ _ _).
  assert (totalBytesLocked s1 + batch_size batch <= maxBytes s1) as Hfit1.
  { unfold s1, totalBytesLocked in *. simpl. pose proof (size_of_insert_le (files s) (entry_name (nano ee.1) (seq s + 1)) (spooled_text ee)) as Hle.
    etrans; [apply Z.add_le_mono_r, Hle|lia]. }
  destruct (IH s1 Hnd Hfit1) as [Hin Hout]. split.
  - intros [|i] ee' name; simpl; [|by apply Hin]. intros [= <-] [= <-]. rewrite Hout by done. simpl. apply lookup_insert_eq.
  - intros name Hname. rewrite elem_of_cons in Hname. rewrite Hout by tauto. simpl. rewrite lookup_insert_ne; [done|]. intros <-. tauto.
Qed.

Lemma names_from_length batch k : length (names_from k batch) = length batch.
Proof. revert k. induction batch as [|ee batch IH]; intros k; simpl; [done|]. by rewrite IH. Qed.

Lemma names_from_elem batch : ∀ k name, name ∈ names_from k batch → ∃ ee j, ee ∈ batch ∧ name = entry_name (nano ee.1) j.
Proof.
  induction batch as [|ee batch IH]; intros k name; simpl; [by intros ?%not_elem_of_nil|].
  intros [->|Hin]%elem_of_cons; [exists ee, (k + 1); split; [by left|done]|].
  destruct (IH _ _ Hin) as (ee'&j&?&->). exists ee', j. split; [by right|done].
Qed.

(** the spool is a queue: observations buffered by one process while its clock does
    not go back come out unchanged, in the order in which they were buffered, and a
    controller that answers again receives exactly these and leaves the spool empty. *)
Theorem spool_is_fifo (batch : list (SpoolEnv * ObservationEnvelope)) (bound : Z) :
  steady batch → llen batch < 10 ^ 8 - 1 → batch_size batch <= bound →
  Forall (λ ee, slen (spooled_text ee) <= maxSpoolFileBytes ∧ json_faithful ee.2) batch →
  let s := enqueue_all batch (mkSpool ∅ bound 0) in
  (λ name, Read name s) <$> Pending s = Ok <$> (snd <$> batch) ∧
  (drainSpool (λ _, status 200) (λ _, false) s).2 = delivered <$> (snd <$> batch) ∧
  Pending (drainSpool (λ _, status 200) (λ _, false) s).1 = [].
Proof.
  intros Hst Hlen Hfit Hsmall s. destruct (names_sorted batch 0 ltac:(lia) ltac:(lia) Hst) as [Hsort Hnd].
  assert (totalBytesLocked (mkSpool ∅ bound 0) = 0) as H0 by (by vm_compute).
  destruct (enqueue_all_files batch (mkSpool ∅ bound 0) Hnd ltac:(rewrite H0; done)) as [Hin Hout]. fold s in Hin, Hout.
  assert (∀ name, name ∈ names_from 0 batch → spooled name = true ∧ entry_path_ok name = true) as Hname.
  { intros name (ee&j&Hee&->)%names_from_elem.
    split; [apply entry_name_spooled|apply entry_name_path_ok]. }
  assert (Pending s = names_from 0 batch) as Hpend.
  { apply Pending_unique; [done|done|]. intros name. rewrite elem_of_Pending. split.
    - intros Hx. split; [|by apply Hname]. apply list_elem_of_lookup in Hx as [i Hi].
      destruct (lookup_lt_is_Some_2 batch i) as [ee Hee]; [rewrite <-(names_from_length batch 0); by eapply lookup_lt_Some|].
      rewrite (Hin i ee name Hee Hi). by eexists.
    - intros [Hsome _]. destruct (decide (name ∈ names_from 0 batch)) as [|Hni]; [done|].
      rewrite (Hout name Hni) in Hsome. simpl in Hsome. rewrite lookup_empty in Hsome. by destruct Hsome. }
  assert (∀ i ee name, batch !! i = Some ee → names_from 0 batch !! i = Some name → Read name s = Ok ee.2) as Hread.
  { intros i ee name Hee Hi. unfold Read. rewrite (proj2 (Hname name ltac:(by eapply list_elem_of_lookup_2))).
    rewrite (Hin i ee name Hee Hi). rewrite Forall_forall in Hsmall.
    destruct (Hsmall ee ltac:(by eapply list_elem_of_lookup_2)) as [Hsz Hj].
    rewrite (proj2 (Z.ltb_ge _ _)) by done. unfold spooled_text. by rewrite open_seal, unmarshal_marshal. }
  assert ((λ name, Read name s) <$> Pending s = Ok <$> (snd <$> batch)) as Hreads.
  { rewrite Hpend. apply list_eq. intros i. rewrite !list_lookup_fmap.
    destruct (batch !! i) as [ee|] eqn:Hee; simpl.
    - destruct (lookup_lt_is_Some_2 (names_from 0 batch) i) as [name Hi]; [rewrite names_from_length; by eapply lookup_lt_Some|].
      rewrite Hi. simpl. by rewrite (Hread i ee name Hee Hi).
    - rewrite (proj2 (lookup_ge_None (names_from 0 batch) i)); [done|]. rewrite names_from_length. by apply lookup_ge_None. }
  split; [done|].
  assert (names_ok s) as Hok by (intros name Hx; rewrite Hpend in Hx; by apply Hname).
  assert (entry_fate (λ _, status 200) s <$> Pending s = Some <$> (delivered <$> (snd <$> batch))) as Hf.
  { rewrite <-!list_fmap_compose. apply list_eq. intros i. rewrite !list_lookup_fmap.
    apply (f_equal (lookup i)) in Hreads. rewrite !list_lookup_fmap in Hreads.
    destruct (Pending s !! i) as [name|], (batch !! i) as [ee|]; try done. simpl in *. injection Hreads as Hr.
    unfold entry_fate. by rewrite Hr. }
  unfold drainSpool.
  destruct (drain_processes (λ _, status 200) (λ _, false) (Pending s) 0 s Hok (Pending_nodup s)) as (n&Hn&Hs'&Hfates&Hstop).
  destruct (drain _ _ 0 (Pending s) s) as [s' fates]. cbn [fst snd] in *. subst s'.
  assert (n = length (Pending s)) as ->.
  { destruct (decide (n = length (Pending s))) as [|Hne]; [done|]. destruct Hstop as [?|(name&Hl&Hfn)]; [lia|done|].
    apply (f_equal (lookup n)) in Hf. rewrite !list_lookup_fmap, Hl in Hf. simpl in Hf. rewrite Hfn in Hf.
    by destruct (batch !! n). }
  rewrite firstn_all in *. split.
  - rewrite Hf in Hfates. by apply (inj (fmap Some)) in Hfates.
  - apply Pending_unique; [constructor|apply NoDup_nil_2|]. intros x. split; [by intros ?%not_elem_of_nil|].
    rewrite elem_of_Pending. cbn [files]. rewrite remove_all_lookup. intros [Hsome Hsp]. exfalso.
    destruct (decide (x ∈ Pending s)) as [|Hni]; [by destruct Hsome|]. apply Hni. by apply elem_of_Pending.
Qed.
End fifo.

(** ** A concrete codec, and runs of the spool *)

(** A cipher that only marks what it sealed, and an encoding that keeps the observation
    ID. *)
Definition toy_envelope (id : string) : ObservationEnvelope :=
  mkObservationEnvelope "" id "" "" "" "" zero_time [] [] [] ∅.
Definition toy_codec : SpoolCodec ObservationEnvelope := {|
  seal _ plaintext := String "#" plaintext;
  open text := match text with String c rest => if Ascii.eqb c "#" then Some rest else None | EmptyString => None end;
  marshal := Envelope_ObservationID;
  unmarshal id := Some (toy_envelope id);
  json_faithful e := e = toy_envelope (Envelope_ObservationID e);
|}.
#[export] Instance toy_codec_laws : SpoolCodecLaws toy_codec.
Proof. split; [done|]. intros e ->. done. Qed.

Definition toy_env (now : Z) : SpoolEnv := mkSpoolEnv now "".

Definition toy_batch : list (SpoolEnv * ObservationEnvelope) :=
  [(toy_env 9, toy_envelope "b"); (toy_env 9, toy_envelope "a"); (toy_env 10, toy_envelope "c")].
Definition toy_spool : Spool := enqueue_all (Hcodec := toy_codec) toy_batch (mkSpool ∅ 6 0).

(** A checkable form of [names_ok]. *)
Lemma names_ok_by (s : Spool) : forallb entry_path_ok (Pending s) = true → names_ok s.
Proof. intros Hb name Hn. rewrite forallb_forall in Hb. apply Hb. by apply list_elem_of_In. Qed.

Lemma toy_spool_facts :
  names_ok toy_spool ∧ length (Pending toy_spool) = 3%nat ∧ totalBytesLocked toy_spool = 6 ∧
  (Enqueue (H := toy_codec) (toy_env 11) (toy_envelope "") toy_spool).2 = Some ErrSpoolFull.
Proof. split; [apply names_ok_by|]; by vm_compute. Qed.
Lemma drainSpool_spec_witness :
  names_ok toy_spool ∧
  let '(s', fates) := drainSpool (H := toy_codec) (λ e, status (if String.eqb (Envelope_ObservationID e) "c" then 503 else 200)) (λ _, false) toy_spool in
  ∃ n, (n <= length (Pending toy_spool))%nat ∧ Pending s' = drop n (Pending toy_spool) ∧
    (∀ name, name ∉ take n (Pending toy_spool) → files s' !! name = files toy_spool !! name) ∧
    Some <$> fates = entry_fate (H := toy_codec) (λ e, status (if String.eqb (Envelope_ObservationID e) "c" then 503 else 200)) toy_spool <$> take n (Pending toy_spool) ∧
    ((n < length (Pending toy_spool))%nat → false = true ∨ ∃ name, Pending toy_spool !! n = Some name ∧
       entry_fate (H := toy_codec) (λ e, status (if String.eqb (Envelope_ObservationID e) "c" then 503 else 200)) toy_spool name = None) ∧
    totalBytesLocked s' <= totalBytesLocked toy_spool.
Proof.
  split; [exact (proj1 toy_spool_facts)|].
  exact (drainSpool_spec (H := toy_codec) (λ e, status (if String.eqb (Envelope_ObservationID e) "c" then 503 else 200)) (λ _, false) toy_spool (proj1 toy_spool_facts)).
Defined.

Lemma unauthorized_discards_buffer_witness :
  names_ok toy_spool ∧ length (Pending toy_spool) = 3%nat ∧
  Pending (drainSpool (H := toy_codec) (λ _, status 401) (λ _, false) toy_spool).1 = [] ∧
  ∀ e, delivered e ∉ (drainSpool (H := toy_codec) (λ _, status 401) (λ _, false) toy_spool).2.
Proof.
  split; [exact (proj1 toy_spool_facts)|]. split; [exact (proj1 (proj2 toy_spool_facts))|].
  exact (unauthorized_discards_buffer (H := toy_codec) toy_spool (proj1 toy_spool_facts)).
Defined.

Lemma zeros_length n : String.length (zeros n) = n.
Proof. induction n as [|n IH]; [done|]. change (S (String.length (zeros n)) = S n). by rewrite IH. Qed.

Lemma big_entry_length n : slen (seal (SpoolCodec := toy_codec) "" (marshal (SpoolCodec := toy_codec) (toy_envelope (zeros n)))) = Z.of_nat n + 1.
Proof. change (Z.of_nat (S (String.length (zeros n))) = Z.of_nat n + 1). rewrite zeros_length. lia. Qed.
Lemma oversize_entry_is_lost_witness :
  let n := Z.to_nat (9 * 2 ^ 20) in
  ∃ s' name, Enqueue (H := toy_codec) (toy_env 1) (toy_envelope (zeros n)) (mkSpool ∅ (2 ^ 30) 0) = (s', None) ∧
    is_Some (files s' !! name) ∧ ∀ answer, entry_fate (H := toy_codec) answer s' name = Some (dropped name).
Proof.
  intros n. apply (oversize_entry_is_lost (H := toy_codec)); change (nonce (toy_env 1)) with ""%string; rewrite big_entry_length; unfold n.
  - rewrite Z2Nat.id by lia. unfold maxSpoolFileBytes. lia.
  - rewrite Z2Nat.id by lia. change (totalBytesLocked _) with 0. simpl. lia.
Defined.

Lemma spool_stays_bounded_witness :
  let ops := [op_deliver (toy_env 1) no_response (toy_envelope "x"); op_crash (toy_env 2) (toy_envelope "y"); op_restart;
              op_deliver (toy_env 3) (status 500) (toy_envelope "zz"); op_drain (λ _, status 200) (λ _, false)] in
  totalBytesLocked (mkSpool ∅ 6 0) <= 6 ∧
  totalBytesLocked (spool_run (H := toy_codec) (mkSpool ∅ 6 0) ops) <= 6 ∧ maxBytes (spool_run (H := toy_codec) (mkSpool ∅ 6 0) ops) = 6.
Proof.
  intros ops. assert (totalBytesLocked (mkSpool ∅ 6 0) <= 6) as H0 by by vm_compute. split; [exact H0|].
  exact (spool_stays_bounded (H := toy_codec) (mkSpool ∅ 6 0) ops H0).
Defined.

Lemma spool_is_fifo_witness :
  (λ name, Read (H := toy_codec) name toy_spool) <$> Pending toy_spool = Ok <$> (snd <$> toy_batch) ∧
  (drainSpool (H := toy_codec) (λ _, status 200) (λ _, false) toy_spool).2 = delivered <$> (snd <$> toy_batch) ∧
  Pending (drainSpool (H := toy_codec) (λ _, status 200) (λ _, false) toy_spool).1 = [].
Proof.
  apply (spool_is_fifo (Hcodec := toy_codec) toy_batch 6).
  - split; repeat constructor; simpl; lia.
  - by vm_compute.
  - by vm_compute.
  - repeat constructor; by vm_compute.
Defined.
