(* ===== verification/AgentRun.v ===== *)
(** * [internal/agent]: the collector's loop and the controller it reports to

    The effects of [sender.go], [spool.go] and [run.go], composed as [Run] composes them and
    answered by the controller of [Controller] over the in-memory store.  Every request,
    file operation and discovery pass may fail or be the last effect of its process; a
    request may be processed although its answer is lost.  The world keeps the lines that
    [run.go] logs about observations - it logs none for one that was sent - and, apart from
    them, what passed between the collector and its surroundings: the observations that its
    plugin returned, its requests with their answers, and the file operations that failed.
    The clock of the collector's host never repeats. *)

From S2P Require Import Prelude Effects Bytes Text Strconv Time Model Memory Enrollment Repository Jobs Controller Netip Decimal SpoolDir WinRM Collector Agent.

#[local] Existing Instance String.eq_dec.

(** What the collector logs about observations.  The lines of [deliver] carry two errors; the
    constructor says which observation [deliver] had in hand. *)
Inductive line :=
| Buffered (e : ObservationEnvelope)   (* controller unreachable, observation buffered *)
| GivenUp (e : ObservationEnvelope)    (* observation dropped: delivery failed and it did not fit in the spool *)
| Rejected (name : string)             (* controller rejected spooled observation, dropping *)
| Unreadable (name : string).          (* spooled observation unreadable, dropping *)

(** What passed between the collector and its surroundings. *)
Inductive crossing :=
| found (e : ObservationEnvelope)                  (* the plugin returned it *)
| asked (e : endpoint) (r : option Response)       (* a request, and the answer that arrived *)
| measured (used bound : Z)                        (* the size of the spool directory *)
| file_error (operation subject : string).

Record AgentWorld := mkAgentWorld { buffer : Spool; hub : Server Memory; clock : Z; logged : list line; seen : list crossing }.

(** [ag_reached]: a request whose answer is lost was processed; an operation that the process
    did not survive took effect.  [ag_partial] is what a failing write leaves. *)
Record AgentInput := mkAgentInput {
  ag_ending : ending; ag_reached : bool; ag_env : Env; ag_elapsed : N; ag_nonce : string; ag_partial : option string;
  ag_cancelled : bool; ag_discovered : go ObservationEnvelope;
}.

(** [Sender] and [Config]: the key, the certificate, and the two IDs. *)
Record AgentConfig := mkAgentConfig { sender_apiKey : string; sender_peer : option Certificate; Config_CollectorID : string; Config_SiteID : string }.

Definition NewSender (parsed : option URL) (apiKey : string) (tlsConfig : option TLSConfig) (collectorID siteID : string) : go AgentConfig :=
  try _ := validControllerURL parsed ;; Ok (mkAgentConfig apiKey (tls_certificate <$> tlsConfig) collectorID siteID).

Definition with_buffer (f : Spool → Spool) (w : AgentWorld) : AgentWorld := mkAgentWorld (f (buffer w)) (hub w) (clock w) (logged w) (seen w).
Definition with_hub (s : Server Memory) (w : AgentWorld) : AgentWorld := mkAgentWorld (buffer w) s (clock w) (logged w) (seen w).
Definition cross (c : crossing) (w : AgentWorld) : AgentWorld := mkAgentWorld (buffer w) (hub w) (clock w) (logged w) (seen w ++ [c]).
Definition with_line (o : line) (w : AgentWorld) : AgentWorld := mkAgentWorld (buffer w) (hub w) (clock w) (logged w ++ [o]) (seen w).
Definition with_files (f : gmap string string → gmap string string) (s : Spool) : Spool := mkSpool (f (files s)) (maxBytes s) (seq s).

Module Loop.
Section loop.
Context `{Codec : SpoolCodec ObservationEnvelope}.
(** What the controller decodes of the body that [Send] encodes. *)
Context (quiet : AgentInput) (cfg : AgentConfig) (carried : ObservationEnvelope → go ObservationEnvelope).

Abbreviation agent := (prog AgentInput AgentWorld).

(** [logger.Warn] and [logger.Error] *)
Definition log (o : line) : agent unit := λ xs w, (Done tt, xs, with_line o w).

(** An operation on the spool directory. *)
Definition directory {A} (text subject : string) (f : AgentInput → Spool → Spool) (r : Spool → go A) : agent A :=
  with_input quiet (λ i w,
    match ag_ending i with
    | Answered =>
      match r (buffer w) with
      | Ok a => (Done a, with_buffer (f i) w)
      | Err e => (Failed e, cross (file_error text subject) (with_buffer (f i) w))
      end
    | Failing => (Failed text, cross (file_error text subject) w)
    | Dying => (Crashed, if ag_reached i then with_buffer (f i) w else w)
    end).

(** ** [sender.go] *)

Definition authorized : Request :=
  mkRequest (if String.eqb (sender_apiKey cfg) "" then "" else "Bearer " +:+ sender_apiKey cfg) (option_map (λ c, [c]) (sender_peer cfg)).

(** One request; [None]: no answer. *)
Definition exchange (e : endpoint) : agent (option Response) :=
  with_input quiet (λ i w,
    let '(served, answer) := Handler (ag_env i) authorized e (hub w) in
    match ag_ending i with
    | Answered => (Done (Some answer), cross (asked e (Some answer)) (with_hub served w))
    | Failing => (Done None, cross (asked e None) (if ag_reached i then with_hub served w else w))
    | Dying => (Crashed, if ag_reached i then with_hub served w else w)
    end).

Definition answer_of (r : option Response) : response := match r with None => no_response | Some r => Agent.status (Controller.status r) end.

Definition Send (e : ObservationEnvelope) : agent send_result :=
  r ← exchange (POST_observations (carried e)); mret (doRaw (answer_of r)).
Definition SendHeartbeat : agent send_result :=
  r ← exchange (POST_heartbeats (Ok (mkHeartbeatRequest SchemaVersion (Config_CollectorID cfg) (Config_SiteID cfg)))); mret (doRaw (answer_of r)).
Definition PollJobs : agent (option (list Job)) :=
  r ← exchange (GET_jobs (Config_CollectorID cfg));
  mret (match doRaw (answer_of r), r with
        | sent, Some (mkResponse _ (jobs_body jobs)) => Some jobs
        | _, _ => None
        end).
Definition ReportJobResult (id : string) (r : JobResult) : agent send_result :=
  answer ← exchange (POST_job_result id (Ok (mkJobResult (Config_CollectorID cfg) (JobResult_Success r) (JobResult_Error r) (JobResult_CompletedAt r))));
  mret (doRaw (answer_of answer)).

(** ** [spool.go], as it touches the directory *)

Definition open_entry : string := "open spool entry %q: %w".
Definition Pending_ : agent (list string) := directory "list spool directory: %w" "" (λ _ s, s) (λ s, Ok (Pending s)).
Definition Read_ (name : string) : agent ObservationEnvelope := directory open_entry name (λ _ s, s) (Read name).
Definition Remove_ (name : string) : agent unit := directory "remove spool entry %q: %w" name (λ _, Remove name) (λ _, Ok tt).

(** [s.seq++] and the name of the entry *)
Definition next_name : agent string :=
  with_input quiet (λ i w,
    let now := clock w + 1 + Z.of_N (ag_elapsed i) in
    let seq := seq (buffer w) + 1 in
    match ag_ending i with
    | Dying => (Crashed, w)
    | _ => (Done (entry_name now seq), mkAgentWorld (mkSpool (files (buffer w)) (maxBytes (buffer w)) seq) (hub w) now (logged w) (seen w))
    end).

(** [os.WriteFile]: what is written before it fails, or before the process dies, stays. *)
Definition write_temporary (name ciphertext : string) : agent unit :=
  with_input quiet (λ i w,
    let left (content : option string) := with_buffer (with_files (λ m, match content with Some text => <[name := text]> m | None => m end)) w in
    match ag_ending i with
    | Answered => (Done tt, left (Some ciphertext))
    | Failing => (Failed "write spool entry: %w", cross (file_error "write spool entry: %w" name) (left (ag_partial i)))
    | Dying => (Crashed, left (ag_partial i))
    end).

Definition rename (from to : string) (m : gmap string string) : gmap string string :=
  match m !! from with Some text => <[to := text]> (delete from m) | None => m end.

(** [totalBytesLocked], and the bound it is compared with *)
Definition measure : agent (Z * Z) :=
  with_input quiet (λ i w,
    let size := (totalBytesLocked (buffer w), maxBytes (buffer w)) in
    match ag_ending i with
    | Answered => (Done size, cross (measured size.1 size.2) w)
    | Failing => (Failed "measure spool size: %w", cross (file_error "measure spool size: %w" "") w)
    | Dying => (Crashed, w)
    end).

Definition random_nonce : agent string :=
  with_input quiet (λ i w,
    match ag_ending i with
    | Answered => (Done (ag_nonce i), w)
    | Failing => (Failed "generate spool nonce: %w", cross (file_error "generate spool nonce: %w" "") w)
    | Dying => (Crashed, w)
    end).

Definition Enqueue_ (e : ObservationEnvelope) : agent unit :=
  nonce ← random_nonce;
  let ciphertext := seal nonce (marshal e) in
  used ← measure;
  if used.2 <? used.1 + slen ciphertext then lift (Err "spool exceeds configured byte bound"%string)
  else
    name ← next_name;
    let tmpPath := (tmpPrefix +:+ name)%string in
    _ ← write_temporary tmpPath ciphertext;
    renamed ← attempt (directory "commit spool entry: %w" name (λ _, with_files (rename tmpPath name)) (λ _, Ok tt));
    match renamed with
    | Some _ => mret tt
    | None =>
      _ ← attempt (directory "remove temporary entry" name (λ _, with_files (delete tmpPath)) (λ _, Ok tt));
      lift (Err "commit spool entry: %w"%string)
    end.

(** ** [run.go] *)

Definition ctx_done : agent bool :=
  with_input quiet (λ i w, match ag_ending i with Dying => (Crashed, w) | _ => (Done (ag_cancelled i), w) end).

Fixpoint drain_entries (names : list string) : agent unit :=
  match names with
  | [] => mret tt
  | name :: names =>
    ended ← ctx_done;
    if (ended : bool) then mret tt
    else
      read ← attempt (Read_ name);
      match read with
      | None => _ ← log (Unreadable name); _ ← attempt (Remove_ name); drain_entries names
      | Some e =>
        r ← Send e;
        match r with
        | sent => _ ← attempt (Remove_ name); drain_entries names
        | DeliveryError false => _ ← log (Rejected name); _ ← attempt (Remove_ name); drain_entries names
        | DeliveryError true => mret tt
        end
      end
  end.

Definition drainSpool : agent unit :=
  names ← attempt Pending_;
  match names with None => mret tt | Some names => drain_entries names end.

Definition deliver (e : ObservationEnvelope) : agent unit :=
  r ← Send e;
  match r with
  | sent => mret tt
  | DeliveryError _ =>
    spooled ← attempt (Enqueue_ e);
    match spooled with
    | Some _ => log (Buffered e)
    | None => log (GivenUp e)
    end
  end.

(** The value is the error of the discovery pass. *)
Definition discoverAndSend : agent (option string) :=
  discovered ← with_input quiet (λ i w, match ag_ending i with Answered => (Done (ag_discovered i), match ag_discovered i with Ok e => cross (found e) w | Err _ => w end) | Failing => (Done (Err "context deadline exceeded"%string), w) | Dying => (Crashed, w) end);
  match discovered with
  | Err text => mret (Some text)
  | Ok e => _ ← deliver e; mret None
  end.

Definition runJob (job : Job) : agent unit :=
  completed ← with_input quiet (λ i w, match ag_ending i with Dying => (Crashed, w) | _ => (Done (clock w), w) end);
  result ← (if String.eqb (Job_Type job) JobTypeDiscover then
              err ← discoverAndSend;
              mret (match err with Some text => mkJobResult "" false text completed | None => mkJobResult "" true "" completed end)
            else mret (mkJobResult "" false "collector does not support job type %q" completed));
  _ ← ReportJobResult (Job_JobID job) result;
  mret tt.

Fixpoint for_each {A} (f : A → agent unit) (l : list A) : agent unit :=
  match l with [] => mret tt | x :: l => _ ← f x; for_each f l end.

Definition pollAndRunJobs : agent unit :=
  jobs ← PollJobs;
  match jobs with None => mret tt | Some jobs => for_each runJob jobs end.

Definition checkIn : agent unit := _ ← SendHeartbeat; pollAndRunJobs.

Definition tick : agent unit := _ ← drainSpool; _ ← discoverAndSend; mret tt.

(** [events] are the channels that the loop finds ready, in the order in which [select] picks
    them, up to the end of the context. *)
Inductive event := ticker_C | heartbeat_C.

Definition Run (interval heartbeat : duration) (events : list event) : agent unit :=
  if interval <=? 0 then lift (Err "agent interval must be positive"%string)
  else
    _ ← tick;
    _ ← (if 0 <? heartbeat then checkIn else mret tt);
    for_each (λ e, match e with
                   | ticker_C => tick
                   | heartbeat_C => if 0 <? heartbeat then checkIn else mret tt
                   end) events.
End loop.
End Loop.

(** ** Histories *)

(** A process of the collector, or a request of anybody else to the controller. *)
Inductive happening :=
| process (quiet : AgentInput) (inputs : list AgentInput) (interval heartbeat : duration) (events : list Loop.event)
| other_request (env : Env) (r : Request) (e : endpoint).

Section history.
Context `{Codec : SpoolCodec ObservationEnvelope} (cfg : AgentConfig) (carried : ObservationEnvelope → go ObservationEnvelope).

(** A process starts counting its entries at zero. *)
Definition restarted (w : AgentWorld) : AgentWorld := with_buffer (λ s, mkSpool (files s) (maxBytes s) 0) w.

Definition happen (w : AgentWorld) (h : happening) : AgentWorld :=
  match h with
  | process quiet inputs interval heartbeat events => (Loop.Run quiet cfg carried interval heartbeat events inputs (restarted w)).2
  | other_request env r e => with_hub (Handler env r e (hub w)).1 w
  end.

(** Did the process stop in the middle of something? *)
Definition cut_short (w : AgentWorld) (h : happening) : bool :=
  match h with
  | process quiet inputs interval heartbeat events =>
    match (Loop.Run quiet cfg carried interval heartbeat events inputs (restarted w)).1.1 with Done _ => false | _ => true end
  | other_request _ _ _ => false
  end.
Fixpoint deaths (w : AgentWorld) (history : list happening) : nat :=
  match history with
  | [] => 0
  | h :: history => (if cut_short w h then 1 else 0) + deaths (happen w h) history
  end.
End history.

(** ** Lemmas *)

(** *** The store *)

Definition held (m : Memory) (id : string) : Prop := is_Some (observationIndex m !! id).

Lemma held_listed m id : index_ok m → held m id → ∃ o, o ∈ ListObservations m ∧ Envelope_ObservationID o = id.
Proof.
  intros Hok [i Hi]. apply Hok in Hi. rewrite list_lookup_fmap in Hi. apply fmap_Some in Hi as (o&Ho&->).
  exists o. split; [|done]. by eapply list_elem_of_lookup_2.
Qed.

Lemma save_holds e m : held (SaveObservation e m) (Envelope_ObservationID e) ∧ ∀ id, held m id → held (SaveObservation e m) id.
Proof.
  unfold held, SaveObservation, save_envelope. destruct (observationIndex m !! Envelope_ObservationID e) as [i|] eqn:Hi; cbn.
  - rewrite Hi. split; [by eexists|done].
  - rewrite lookup_insert_eq. split; [by eexists|]. intros id Hid. destruct (decide (Envelope_ObservationID e = id)) as [<-|Hne]; [by rewrite Hi in Hid; destruct Hid|by rewrite lookup_insert_ne].
Qed.

Definition grows (m m' : Memory) : Prop := (index_ok m → index_ok m') ∧ ∀ id, held m id → held m' id.

Lemma repo_write_grows m m' : repo_write m m' → grows m m'.
Proof.
  intros [e|now ev|sched|c|r]; cbn; unfold RevokeCertificate; try (split; done).
  - split; [apply save_index_ok|apply save_holds].
  - by destruct (revocations m !! _).
Qed.

Lemma Handler_grows env r e (s : Server Memory) : grows (Store s) (Store (Handler env r e s).1).
Proof.
  pose proof (Handler_writes env r e s) as Hw. induction Hw as [|t u Hw IH Hu]; [done|].
  apply repo_write_grows in Hu as [H1 H2]. destruct IH as [H3 H4]. split; auto.
Qed.

Lemma accepted_is_held env r body (s : Server Memory) :
  doRaw (Agent.status (Controller.status (Handler env r (POST_observations body) s).2)) = sent →
  ∃ e, body = Ok e ∧ held (Store (Handler env r (POST_observations body) s).1) (Envelope_ObservationID e).
Proof.
  cbn [Handler]. assert (∀ id, doRaw (Agent.status (Controller.status (ingest id body s).2)) = sent →
    ∃ e, body = Ok e ∧ held (Store (ingest id body s).1) (Envelope_ObservationID e)) as Hin.
  { intros id. unfold ingest. destruct body as [e|]; [|done]. destruct (validateObservation _); [|done]. intros _. exists e. split; [done|]. exact (proj1 (save_holds _ _)). }
  unfold collectorAuth. repeat case_match; try done; apply Hin.
Qed.

(** *** Names *)

Lemma parse_decimal_free acc s v : parse_decimal_from acc s = Some v → free_of "-"%char s.
Proof.
  revert acc. induction s as [|c s IH]; intros acc; cbn [parse_decimal_from]; [done|].
  destruct (digit_value c) as [d|] eqn:Hd; cbn; [|done]. intros H. unfold free_of in *. cbn [string_all]. rewrite (IH _ H), andb_true_r.
  apply negb_true_iff, Ascii.eqb_neq. by intros <-.
Qed.

Lemma decimal_pad_plain n t : 0 <= t → free_of "-"%char (decimal_pad n t).
Proof. intros Ht. eapply parse_decimal_free. by apply decimal_pad_value. Qed.

Lemma entry_name_inj t t' k k' : 0 <= t → 0 <= t' → entry_name t k = entry_name t' k' → t = t'.
Proof.
  intros Ht Ht' Heq. apply (decimal_pad_inj 20); [done|done|]. apply (f_equal (cut_byte "-"%char)) in Heq.
  unfold entry_name, dated_name in Heq. change ("-" +:+ ?s)%string with (String "-"%char s) in Heq.
  rewrite !cut_byte_app in Heq by by apply decimal_pad_plain. congruence.
Qed.

Lemma temporary_is_no_entry name t k : (tmpPrefix +:+ name)%string ≠ entry_name t k.
Proof.
  intros Heq. assert (has_prefix (entry_name t k) tmpPrefix = true) as Hp by (rewrite <-Heq; by destruct name).
  pose proof (dated_name_no_prefix spoolSuffix "tmp-" "."%char t k eq_refl) as Hno. unfold entry_name, tmpPrefix in Hp. congruence.
Qed.

(** *** Every observation is accounted for *)

Section accounting.
Context `{Codec : SpoolCodec ObservationEnvelope} `{!SpoolCodecLaws Codec} (carried : ObservationEnvelope → go ObservationEnvelope).

Definition sent_to_hub (e : ObservationEnvelope) (m : Memory) : Prop := ∃ e', carried e = Ok e' ∧ held m (Envelope_ObservationID e').

(** A request that carried [e] was answered, and how. *)
Definition posted (e : ObservationEnvelope) (answer : option Z → Prop) (l : list crossing) : Prop :=
  ∃ r, asked (POST_observations (carried e)) r ∈ l ∧ answer (Controller.status <$> r).
Definition accepting (code : option Z) : Prop := ∃ c, code = Some c ∧ 200 <= c < 300.
(** Neither an acceptance, nor the absence of an answer, nor an error of the server *)
Definition rejecting (code : option Z) : Prop := ∃ c, code = Some c ∧ c < 500 ∧ ¬ 200 <= c < 300.

(** The entry [name] of [e] left the spool for a reason. *)
Definition consumed (name : string) (e : ObservationEnvelope) (w : AgentWorld) : Prop :=
  (Unreadable name ∈ logged w ∧ file_error Loop.open_entry name ∈ seen w) ∨
  ∃ e', unmarshal (marshal e) = Some e' ∧
    (posted e' accepting (seen w) ∨ Rejected name ∈ logged w ∧ posted e' rejecting (seen w)).

(** Spooling [e] did not work: a file operation failed, or the spool had no room for it. *)
Definition unspooled (e : ObservationEnvelope) (l : list crossing) : Prop :=
  (∃ operation subject, file_error operation subject ∈ l) ∨
  ∃ used bound nonce, measured used bound ∈ l ∧ bound < used + slen (seal nonce (marshal e)).

Definition accounted (e : ObservationEnvelope) (w : AgentWorld) : Prop :=
  posted e accepting (seen w) ∨ Buffered e ∈ logged w ∨ GivenUp e ∈ logged w.

(** The books of the collector: [lost] are the observations that were in nobody's hands when a
    process died; the entries of those it buffered have names of times before [now]. *)
Record ledger (lost : list ObservationEnvelope) (now : Z) (w : AgentWorld) : Prop := {
  acc_index : index_ok (Store (hub w));
  acc_clock : 0 <= clock w;
  acc_sent : ∀ e, posted e accepting (seen w) → sent_to_hub e (Store (hub w));
  acc_kept : ∀ e, Buffered e ∈ logged w → ∃ t k, 0 <= t < now ∧
    ((∃ nonce, files (buffer w) !! entry_name t k = Some (seal nonce (marshal e))) ∨ consumed (entry_name t k) e w);
  acc_given_up : ∀ e, GivenUp e ∈ logged w → unspooled e (seen w);
  acc_unsent : ∀ e, Buffered e ∈ logged w ∨ GivenUp e ∈ logged w → posted e (λ c, ¬ accepting c) (seen w);
  acc_found : ∀ e, found e ∈ seen w → accounted e w ∨ e ∈ lost;
}.
Definition accounts (lost : list ObservationEnvelope) (w : AgentWorld) : Prop := ledger lost (clock w + 1) w.

Lemma posted_more e P l c : posted e P l → posted e P (l ++ [c]).
Proof. intros (r&Hr&HP). exists r. split; [|done]. apply elem_of_app. by left. Qed.

Lemma posted_last e P l c : posted e P (l ++ [c]) → posted e P l ∨ ∃ r, c = asked (POST_observations (carried e)) r ∧ P (Controller.status <$> r).
Proof. intros (r&[Hr|<-%list_elem_of_singleton]%elem_of_app&HP); [left; by exists r|right; by exists r]. Qed.

Lemma consumed_cross name e c w : consumed name e w → consumed name e (cross c w).
Proof.
  intros [[H1 H2]|(e'&Hu&[H|[H1 H2]])]; [left|right; exists e'; split; [done|]; left|right; exists e'; split; [done|]; right]; cbn.
  - split; [done|]. apply elem_of_app. by left.
  - by apply posted_more.
  - split; [done|]. by apply posted_more.
Qed.

Lemma consumed_line name e o w : consumed name e w → consumed name e (with_line o w).
Proof.
  intros [[H1 H2]|(e'&Hu&[H|[H1 H2]])]; [left|right; exists e'; split; [done|]; by left|right; exists e'; split; [done|]; right]; cbn; (split; [apply elem_of_app; by left|done]).
Qed.

Lemma ledger_later lost now now' w : now <= now' → ledger lost now w → ledger lost now' w.
Proof.
  intros Hle [H1 H2 H3 H4 H5 H6 H7]. split; [done..| |done|done|done].
  intros e He. destruct (H4 e He) as (t&k&Ht&Hk). exists t, k. split; [lia|done].
Qed.

(** Files may change under other names, and under those of entries that are consumed. *)
Lemma ledger_files lost now w s : ledger lost now w →
  (∀ t k, 0 <= t < now → files s !! entry_name t k = files (buffer w) !! entry_name t k ∨
     ∀ nonce e, files (buffer w) !! entry_name t k = Some (seal nonce (marshal e)) → consumed (entry_name t k) e w) →
  ledger lost now (with_buffer (λ _, s) w).
Proof.
  intros [H1 H2 H3 H4 H5 H6 H7] Hs. split; [done..| |done|done|done]. intros e He. destruct (H4 e He) as (t&k&Ht&Hk). exists t, k. split; [done|]. cbn.
  destruct Hk as [[nonce Hf]|Hc]; [|by right]. destruct (Hs t k Ht) as [Heq|Hc]; [left; exists nonce; congruence|right; by apply (Hc nonce)].
Qed.

Lemma ledger_hub lost now w s : ledger lost now w → grows (Store (hub w)) (Store s) → ledger lost now (with_hub s w).
Proof.
  intros [H1 H2 H3 H4 H5 H6 H7] [Hi Hh]. split; [by apply Hi|done| |done..]. intros e He. destruct (H3 e He) as (e'&Hc&Hid). exists e'. split; [done|]. by apply Hh.
Qed.

Lemma ledger_cross lost now w c : ledger lost now w →
  (∀ e r, c = asked (POST_observations (carried e)) r → accepting (Controller.status <$> r) → sent_to_hub e (Store (hub w))) →
  ledger (match c with found e => e :: lost | _ => lost end) now (cross c w).
Proof.
  intros [H1 H2 H3 H4 H5 H6 H7] Hc. split; [done|done|..]; cbn.
  - intros e [He|(r&->&Hr)]%posted_last; [by apply H3|by eapply Hc].
  - intros e He. destruct (H4 e He) as (t&k&Ht&[Hf|Hk]); exists t, k; (split; [done|]); [by left|right; by apply consumed_cross].
  - intros e He. destruct (H5 e He) as [(op&sub&Hf)|(u&b&n&Hm&Hlt)]; [left; exists op, sub|right; exists u, b, n; split; [|done]]; apply elem_of_app; by left.
  - intros e He. by apply posted_more, H6.
  - intros e [He|He%list_elem_of_singleton]%elem_of_app.
    + destruct (H7 e He) as [[Hp|Hl]|Hl]; [left; left; by apply posted_more|left; by right|right]. destruct c; [by right|done..].
    + subst c. right. by left.
Qed.

Lemma ledger_line lost now w o : ledger lost now w →
  match o with
  | Buffered e => (∃ t k nonce, 0 <= t < now ∧ files (buffer w) !! entry_name t k = Some (seal nonce (marshal e))) ∧ posted e (λ c, ¬ accepting c) (seen w)
  | GivenUp e => unspooled e (seen w) ∧ posted e (λ c, ¬ accepting c) (seen w)
  | _ => True
  end → ledger lost now (with_line o w).
Proof.
  intros [H1 H2 H3 H4 H5 H6 H7] Ho. split; [done..| | | |]; cbn.
  - intros e [He|He%list_elem_of_singleton]%elem_of_app.
    + destruct (H4 e He) as (t&k&Ht&[Hf|Hk]); exists t, k; (split; [done|]); [by left|right; by apply consumed_line].
    + subst o. destruct Ho as [(t&k&nonce&Ht&Hf) _]. exists t, k. split; [done|]. left. by exists nonce.
  - intros e [He|He%list_elem_of_singleton]%elem_of_app; [by apply H5|]. subst o. by destruct Ho.
  - intros e [[He|He%list_elem_of_singleton]%elem_of_app|[He|He%list_elem_of_singleton]%elem_of_app]; [apply H6; by left| |apply H6; by right|]; subst o; by destruct Ho.
  - intros e He. destruct (H7 e He) as [[Hp|[Hl|Hl]]|Hl]; [left; by left|left; right; left|left; right; right|by right]; apply elem_of_app; by left.
Qed.

Lemma ledger_settle lost now w e : ledger (e :: lost) now w → accounted e w → ledger lost now w.
Proof. intros [H1 H2 H3 H4 H5 H6 H7] He. split; [done..|]. intros e' He'. destruct (H7 e' He') as [?|[->|?]%elem_of_cons]; [by left|by left|by right]. Qed.
End accounting.

Section loop_keeps.
Context `{Codec : SpoolCodec ObservationEnvelope} `{!SpoolCodecLaws Codec} (quiet : AgentInput) (cfg : AgentConfig) (carried : ObservationEnvelope → go ObservationEnvelope).
Import Loop.

Abbreviation ledger := (ledger carried).
Abbreviation accounts := (accounts carried).
Abbreviation sent_to_hub := (sent_to_hub carried).
Abbreviation posted := (posted carried).

Section fixed.
Context (lost : list ObservationEnvelope).

(** Whatever happens in [p], the books are right. *)
Definition keeps {A} (p : prog AgentInput AgentWorld A) : Prop := triple (accounts lost) p (λ _, accounts lost) (accounts lost).

Lemma keeps_ret {A} (a : A) : keeps (mret a).
Proof. by apply triple_ret. Qed.
Lemma keeps_bind {A B} (p : prog AgentInput AgentWorld A) (f : A → prog AgentInput AgentWorld B) : keeps p → (∀ a, keeps (f a)) → keeps (p ≫= f).
Proof. intros Hp Hf. eapply triple_bind; [exact Hp|]. intros a. apply Hf. Qed.
Lemma keeps_attempt {A} (p : prog AgentInput AgentWorld A) : keeps p → keeps (attempt p).
Proof. intros Hp. by eapply triple_attempt. Qed.
Lemma keeps_input {A} (f : AgentInput → AgentWorld → completion A * AgentWorld) : (∀ i w, (f i w).2 = w) → keeps (with_input quiet f).
Proof. intros Hf. apply triple_input. intros i w Hw. specialize (Hf i w). destruct (f i w) as [[a|e|] w']; cbn in Hf; by subst. Qed.

Lemma accounts_error w operation subject : accounts lost w → accounts lost (cross (file_error operation subject) w).
Proof. intros Hw. by apply (ledger_cross carried lost _ w (file_error operation subject)). Qed.

Lemma triple_directory {A} text subject (f : AgentInput → Spool → Spool) (r : Spool → go A) (P : AgentWorld → Prop) (Q : A → AgentWorld → Prop) (E : AgentWorld → Prop) :
  (∀ i w a, P w → r (buffer w) = Ok a → Q a (with_buffer (f i) w)) → (∀ i w, P w → E (with_buffer (f i) w)) → (∀ w, P w → E w) →
  (∀ w, E w → E (cross (file_error text subject) w)) →
  triple P (directory quiet text subject f r) Q (λ w, E w).
Proof.
  intros HQ HE HP HX. apply triple_input. intros i w Hw. destruct (ag_ending i); [|by apply HX, HP|].
  - destruct (r (buffer w)) eqn:Hr; [by apply HQ|by apply HX, HE].
  - destruct (ag_reached i); [by apply HE|by apply HP].
Qed.

(** A request leaves the spool and the log alone. *)
Lemma triple_exchange e (F : Spool → list line → Prop) :
  triple (λ w, accounts lost w ∧ F (buffer w) (logged w)) (exchange quiet cfg e)
    (λ r w, accounts lost w ∧ F (buffer w) (logged w) ∧ asked e r ∈ seen w) (accounts lost).
Proof.
  apply triple_input. intros i w [Hw HF]. pose proof (Handler_grows (ag_env i) (authorized cfg) e (hub w)) as Hg.
  pose proof (λ body, accepted_is_held (ag_env i) (authorized cfg) body (hub w)) as Hh.
  destruct (Handler _ _ _ _) as [served answer] eqn:Hs. pose proof (ledger_hub carried lost _ w served Hw Hg) as Hw'.
  assert (∀ w0 r, buffer w0 = buffer w → logged w0 = logged w → accounts lost w0 → (∀ e', e = POST_observations (carried e') → accepting (Controller.status <$> r) → sent_to_hub e' (Store (hub w0))) →
    accounts lost (cross (asked e r) w0) ∧ F (buffer w0) (logged w0) ∧ asked e r ∈ seen w0 ++ [asked e r]) as Hx.
  { intros w0 r Hb Hl Hw0 Hacc. split; [|split; [by rewrite Hb, Hl|apply elem_of_app; right; apply list_elem_of_here]].
    apply (ledger_cross carried lost _ w0 (asked e r)); [done|]. intros e' r' [= -> ->]. by apply Hacc. }
  destruct (ag_ending i).
  - apply Hx; [done|done|done|]. intros e' -> (c&[= <-]&Hc). cbn in *. destruct (Hh (carried e')) as (e''&He&Hheld); [|exists e''; split; [done|by rewrite Hs in Hheld]].
    rewrite Hs. cbn [snd doRaw]. by rewrite (proj2 (Z.ltb_ge _ _)), (proj2 (Z.leb_gt _ _)) by (cbn; lia).
  - destruct (ag_reached i); apply Hx; try done; by intros e' _ (c&?&_).
  - by destruct (ag_reached i).
Qed.

Lemma keeps_exchange e : keeps (exchange quiet cfg e).
Proof. eapply triple_weaken; [apply (triple_exchange e (λ _ _, True))|done|by intros ? ? []|done]. Qed.

(** What [Send] makes of an answer *)
Definition answering (r : send_result) (code : option Z) : Prop :=
  match r with sent => accepting code | DeliveryError false => rejecting code | DeliveryError true => ¬ accepting code end.

Lemma answering_of r : answering (doRaw (answer_of r)) (Controller.status <$> r).
Proof.
  destruct r as [[c body]|]; [|by intros (c&?&_)]. cbn. destruct ((c <? 200) || (300 <=? c)) eqn:Hc; [|exists c; split; [done|lia]].
  destruct (500 <=? c) eqn:H5; cbn; [intros (?&[= <-]&?)|exists c; split; [done|]]; lia.
Qed.

Lemma answering_unsent b code : answering (DeliveryError b) code → ¬ accepting code.
Proof. destruct b; [done|]. intros (c&->&?&?) (c'&[= <-]&?). lia. Qed.

Lemma triple_Send e (F : Spool → list line → Prop) :
  triple (λ w, accounts lost w ∧ F (buffer w) (logged w)) (Send quiet cfg carried e)
    (λ r w, accounts lost w ∧ F (buffer w) (logged w) ∧ posted e (answering r) (seen w)) (accounts lost).
Proof.
  eapply triple_bind; [apply triple_exchange|]. intros r. apply triple_ret. intros w (Hw&HF&Hh). split; [done|]. split; [done|]. exists r. split; [done|]. apply answering_of.
Qed.

(** *** Reading and removing an entry *)

Definition closed (name : string) (w : AgentWorld) : Prop :=
  ∀ nonce e, files (buffer w) !! name = Some (seal nonce (marshal e)) → consumed carried name e w.
Definition reads (name : string) (e : ObservationEnvelope) (s : Spool) : Prop :=
  ∀ nonce e0, files s !! name = Some (seal nonce (marshal e0)) → unmarshal (marshal e0) = Some e.

Lemma triple_Read_ name :
  triple (accounts lost) (attempt (Read_ quiet name))
    (λ r w, accounts lost w ∧ match r with Some e => reads name e (buffer w) | None => file_error open_entry name ∈ seen w end) (accounts lost).
Proof.
  intros xs w Hw. unfold attempt, Read_, directory, with_input.
  assert (accounts lost (cross (file_error open_entry name) w) ∧ file_error open_entry name ∈ seen w ++ [file_error open_entry name]) as Herr.
  { split; [by apply accounts_error|]. apply elem_of_app. right. apply list_elem_of_here. }
  destruct (ag_ending (hd quiet xs)); cbn; [|done|by destruct (ag_reached _); [destruct w|]].
  destruct (Read name (buffer w)) as [e|msg] eqn:Hr; cbn; [|by destruct w]. split; [by destruct w|]. intros nonce e0 Hf.
  unfold Read in Hr. destruct (negb _); [done|]. rewrite Hf in Hr. destruct (_ <? _); [done|]. rewrite open_seal in Hr. by destruct (unmarshal _); simplify_eq.
Qed.

Lemma triple_Remove_ name : triple (λ w, accounts lost w ∧ closed name w) (Remove_ quiet name) (λ _, accounts lost) (accounts lost).
Proof.
  assert (∀ w, accounts lost w ∧ closed name w → accounts lost (with_buffer (Remove name) w)) as Hrem.
  { intros w [Hw Hc]. apply (ledger_files carried lost _ w (Remove name (buffer w)) Hw). intros t k _. unfold Remove. destruct (entry_path_ok name); [|by left]. cbn.
    destruct (decide (name = entry_name t k)) as [<-|Hne]; [right; by apply Hc|left; by rewrite lookup_delete_ne]. }
  apply triple_directory; [intros i w a Hw _; by apply Hrem|by intros i w Hw; apply Hrem|by intros w [? _]|]. intros w. apply accounts_error.
Qed.

(** The entry goes, after its last word. *)
Lemma keeps_removal name P {B} (k : prog AgentInput AgentWorld B) :
  (∀ w, P w → accounts lost w ∧ closed name w) → keeps k → triple P (_ ← attempt (Remove_ quiet name); k) (λ _, accounts lost) (accounts lost).
Proof.
  intros HP Hk. eapply triple_bind; [|intros r; apply Hk].
  eapply triple_attempt; [eapply triple_weaken; [apply triple_Remove_|exact HP|done|done]|done|done|done].
Qed.

Lemma keeps_logged_removal o name P {B} (k : prog AgentInput AgentWorld B) :
  match o with Rejected _ | Unreadable _ => True | _ => False end →
  (∀ w, P w → accounts lost w ∧ closed name (with_line o w)) → keeps k →
  triple P (_ ← log o; _ ← attempt (Remove_ quiet name); k) (λ _, accounts lost) (accounts lost).
Proof.
  intros Ho HP Hk. eapply triple_bind with (Q := λ _ w, accounts lost w ∧ closed name w); [|intros []; by apply keeps_removal].
  intros xs w Hw. destruct (HP w Hw) as [Ha Hc]. split; [|exact Hc]. apply ledger_line; [done|]. by destruct o.
Qed.

Lemma keeps_drain_entries names : keeps (drain_entries quiet cfg carried names).
Proof.
  induction names as [|name names IH]; [apply keeps_ret|]. cbn [drain_entries]. apply keeps_bind; [by apply keeps_input; intros i w; destruct (ag_ending i)|].
  intros [|]; [apply keeps_ret|]. eapply triple_bind; [apply triple_Read_|]. intros [e|].
  - eapply triple_bind; [apply (triple_Send e (λ s _, reads name e s))|].
    assert (∀ w, reads name e (buffer w) → posted e accepting (seen w) ∨ Rejected name ∈ logged w ∧ posted e rejecting (seen w) → closed name w) as Hclosed.
    { intros w Hr Hw nonce e0 Hf. right. exists e. split; [by apply (Hr nonce)|done]. }
    intros [|[|]].
    + apply keeps_removal; [|exact IH]. intros w (Hw&Hr&Hs). split; [done|]. apply Hclosed; [done|by left].
    + apply triple_ret. by intros w [? _].
    + apply keeps_logged_removal; [done| |exact IH]. intros w (Hw&Hr&Hs). split; [done|]. apply Hclosed; [done|]. right. split; [|done].
      apply elem_of_app. right. apply list_elem_of_here.
  - apply keeps_logged_removal; [done| |exact IH]. intros w (Hw&Hf). split; [done|]. intros nonce e0 _. left. split; [|done].
    apply elem_of_app. right. apply list_elem_of_here.
Qed.

Lemma keeps_drainSpool : keeps (drainSpool quiet cfg carried).
Proof.
  apply keeps_bind; [apply keeps_attempt|intros [names|]; [apply keeps_drain_entries|apply keeps_ret]].
  apply triple_directory; [by intros i [] a ? _|by intros i [] ?|done|]. intros w. apply accounts_error.
Qed.

(** *** Buffering *)

(** While [e] is being spooled: it was posted in vain, and the entry it will have is of the time
    [now]. *)
Section spooling.
Context (e : ObservationEnvelope).

Definition unsent (w : AgentWorld) : Prop := posted e (λ c, ¬ accepting c) (seen w).
Definition trying (w : AgentWorld) : Prop := accounts lost w ∧ unsent w.
Definition failed_to (w : AgentWorld) : Prop := trying w ∧ unspooled e (seen w).
Definition about_to (name : string) (w : AgentWorld) : Prop :=
  unsent w ∧ ∃ now k, name = entry_name now k ∧ 0 <= now <= clock w ∧ ledger lost now w.

Lemma about_trying name w : about_to name w → trying w.
Proof. intros (Hu&now&k&_&Hnow&Hl). split; [|done]. eapply ledger_later; [|exact Hl]. lia. Qed.

Lemma failed_error w operation subject : trying w → failed_to (cross (file_error operation subject) w).
Proof.
  intros [Hw Hu]. split; [split; [by apply accounts_error|by apply posted_more]|]. left. exists operation, subject. apply elem_of_app. right. apply list_elem_of_here.
Qed.

Lemma about_error name w operation subject : about_to name w → about_to name (cross (file_error operation subject) w).
Proof.
  intros (Hu&now&k&->&Hnow&Hl). split; [by apply posted_more|]. exists now, k. split; [done|]. split; [done|]. by apply (ledger_cross carried lost now w (file_error operation subject)).
Qed.

(** Names of other times are not touched. *)
Lemma about_elsewhere name w f : about_to name w →
  (∀ now k t k', name = entry_name now k → 0 <= t < now → f (files (buffer w)) !! entry_name t k' = files (buffer w) !! entry_name t k') →
  about_to name (with_buffer (with_files f) w).
Proof.
  intros (Hu&now&k&->&Hnow&Hl) Hf. split; [done|]. exists now, k. split; [done|]. split; [done|].
  apply (ledger_files carried lost now w (with_files f (buffer w)) Hl). intros t k' Ht. left. by apply (Hf now k).
Qed.

Lemma lookup_temporary (m : gmap string string) name t k v : <[(tmpPrefix +:+ name)%string := v]> m !! entry_name t k = m !! entry_name t k.
Proof. apply lookup_insert_ne, temporary_is_no_entry. Qed.

Lemma about_left name w content : about_to name w →
  about_to name (with_buffer (with_files (λ m, match content with Some t => <[(tmpPrefix +:+ name)%string := t]> m | None => m end)) w).
Proof. intros Hw. apply about_elsewhere; [done|]. intros now k t k' _ _. destruct content; [apply lookup_temporary|done]. Qed.

Lemma about_rename name w : about_to name w → about_to name (with_buffer (with_files (rename (tmpPrefix +:+ name) name)) w).
Proof.
  intros Hw. apply about_elsewhere; [done|]. intros now k t k' -> Ht. unfold rename. destruct (_ !! (tmpPrefix +:+ _)%string) as [c|]; [|done].
  rewrite lookup_insert_ne by (intros Heq; destruct Hw as (_&now'&k''&Heq'&Hn'&_); apply entry_name_inj in Heq; [|lia|lia]; lia).
  apply lookup_delete_ne, temporary_is_no_entry.
Qed.

Lemma about_delete name w : about_to name w → about_to name (with_buffer (with_files (delete (tmpPrefix +:+ name)%string)) w).
Proof. intros Hw. apply about_elsewhere; [done|]. intros now k t k' _ _. apply lookup_delete_ne, temporary_is_no_entry. Qed.

Lemma rename_to from to m text : m !! from = Some text → rename from to m !! to = Some text.
Proof. intros Hm. unfold rename. rewrite Hm. apply lookup_insert_eq. Qed.

(** Triples that tell failing from dying *)
Definition ends {A} (P : AgentWorld → Prop) (p : prog AgentInput AgentWorld A) (Q : A → AgentWorld → Prop) (F C : AgentWorld → Prop) : Prop :=
  ∀ xs w, P w → match p xs w with (Done a, _, w') => Q a w' | (Failed _, _, w') => F w' | (Crashed, _, w') => C w' end.

Lemma ends_bind {A B} P (p : prog AgentInput AgentWorld A) (f : A → prog AgentInput AgentWorld B) Q R F C :
  ends P p Q F C → (∀ a, ends (Q a) (f a) R F C) → ends P (p ≫= f) R F C.
Proof.
  intros Hp Hf xs w Hw. specialize (Hp xs w Hw). unfold mbind, prog_bind. destruct (p xs w) as [[[a|t|] xs'] w']; [|done|done]. by apply Hf.
Qed.

Lemma ends_input {A} P (f : AgentInput → AgentWorld → completion A * AgentWorld) Q F C :
  (∀ i w, P w → match f i w with (Done a, w') => Q a w' | (Failed _, w') => F w' | (Crashed, w') => C w' end) → ends P (with_input quiet f) Q F C.
Proof. intros H xs w Hw. unfold with_input. specialize (H (hd quiet xs) w Hw). destruct (f (hd quiet xs) w) as [[a|t|] w']; done. Qed.

Lemma ends_attempt {A} P (p : prog AgentInput AgentWorld A) (Q : option A → AgentWorld → Prop) F C :
  ends P p (λ a, Q (Some a)) (Q None) C → ends P (attempt p) Q F C.
Proof. intros Hp xs w Hw. specialize (Hp xs w Hw). unfold attempt. destruct (p xs w) as [[[a|t|] xs'] w']; done. Qed.

Lemma ends_weaken {A} P (p : prog AgentInput AgentWorld A) (Q Q' : A → AgentWorld → Prop) F F' (P' C C' : AgentWorld → Prop) :
  ends P p Q F C → (∀ w, P' w → P w) → (∀ a w, Q a w → Q' a w) → (∀ w, F w → F' w) → (∀ w, C w → C' w) → ends P' p Q' F' C'.
Proof. intros Hp HP HQ HF HC xs w Hw. specialize (Hp xs w (HP w Hw)). destruct (p xs w) as [[[a|t|] xs'] w']; auto. Qed.

Lemma ends_directory text subject f (P P' : AgentWorld → Prop) :
  (∀ i w, P w → P' (with_buffer (f i) w)) → (∀ w, P w → trying w) → (∀ w, P' w → trying w) →
  ends P (directory quiet text subject f (λ _, Ok tt)) (λ _, P') (λ w, ∃ w0, P w0 ∧ w = cross (file_error text subject) w0) trying.
Proof.
  intros HP H1 H2. apply ends_input. intros i w Hw. destruct (ag_ending i); [by apply HP|by exists w|]. destruct (ag_reached i); [by apply H2, HP|by apply H1].
Qed.

Lemma ends_Enqueue_ :
  ends trying (Enqueue_ quiet e)
    (λ _ w, trying w ∧ ∃ t k nonce, 0 <= t < clock w + 1 ∧ files (buffer w) !! entry_name t k = Some (seal nonce (marshal e))) failed_to trying.
Proof.
  unfold Enqueue_. eapply ends_bind with (Q := λ _, trying).
  { apply ends_input. intros i w Hw. destruct (ag_ending i); [done|by apply failed_error|done]. }
  intros nonce. eapply ends_bind with (Q := λ used w, trying w ∧ measured used.1 used.2 ∈ seen w).
  { apply ends_input. intros i w Hw. destruct (ag_ending i); [|by apply failed_error|done]. split; [|apply elem_of_app; right; apply list_elem_of_here].
    destruct Hw as [Hw Hu]. split; [|by apply posted_more]. by apply (ledger_cross carried lost _ w (measured _ _)). }
  intros [used bound]. cbn [fst snd]. destruct (Z.ltb_spec bound (used + slen (seal nonce (marshal e)))) as [Hlt|_].
  { intros xs w [Hw Hm]. split; [done|]. right. by exists used, bound, nonce. }
  eapply ends_bind with (Q := about_to).
  { apply ends_input. intros i w [[Hw Hu] _]. destruct (ag_ending i); [| |done].
    all: split; [done|]; eexists _, _; split; [done|]; cbn; split; [pose proof (acc_clock _ _ _ _ Hw); lia|].
    all: eapply ledger_later; [|destruct Hw as [H1 H2 H3 H4 H5 H6 H7]; split; try done; cbn; lia]; lia. }
  intros name. eapply ends_bind with (Q := λ _ w, about_to name w ∧ files (buffer w) !! (tmpPrefix +:+ name)%string = Some (seal nonce (marshal e))).
  { apply ends_input. intros i w Hw. destruct (ag_ending i).
    - split; [by apply (about_left name w (Some _))|]. apply lookup_insert_eq.
    - by apply failed_error, (about_trying name), about_left.
    - by apply (about_trying name), about_left. }
  intros []. eapply ends_bind with (Q := λ r w, match r with
    | Some _ => about_to name w ∧ files (buffer w) !! name = Some (seal nonce (marshal e))
    | None => about_to name w ∧ unspooled e (seen w) end).
  { apply ends_attempt. eapply ends_weaken; [apply ends_directory with (P := λ w, about_to name w ∧ files (buffer w) !! (tmpPrefix +:+ name)%string = Some (seal nonce (marshal e)))
      (P' := λ w, about_to name w ∧ files (buffer w) !! name = Some (seal nonce (marshal e)))|done|done| |done].
    - intros i w [Hw Hf]. split; [by apply about_rename|]. exact (rename_to _ _ _ _ Hf).
    - intros w [Hw _]. by eapply about_trying.
    - intros w [Hw _]. by eapply about_trying.
    - intros w (w0&[Hw0 _]&->). split; [by apply about_error|]. left. eexists _, _. apply elem_of_app. right. apply list_elem_of_here. }
  intros [[]|].
  - intros xs w [Hw Hf]. split; [by eapply about_trying|]. destruct Hw as (_&now&k&->&Hnow&_). exists now, k, nonce. split; [lia|done].
  - eapply ends_bind with (Q := λ _ w, about_to name w ∧ unspooled e (seen w)); [|intros r xs w [Hw Hs]; split; [by eapply about_trying|done]].
    apply ends_attempt. eapply ends_weaken; [apply ends_directory with (P := λ w, about_to name w ∧ unspooled e (seen w)) (P' := λ w, about_to name w ∧ unspooled e (seen w))|done|done| |done].
    + intros i w [Hw Hs]. split; [by apply about_delete|done].
    + intros w [Hw _]. by eapply about_trying.
    + intros w [Hw _]. by eapply about_trying.
    + intros w (w0&[Hw0 Hs]&->). split; [by apply about_error|]. left. eexists _, _. apply elem_of_app. right. apply list_elem_of_here.
Qed.
End spooling.

Lemma keeps_line o P : (∀ w, P w → accounts lost (with_line o w)) → triple P (log o) (λ _, accounts lost) (accounts lost).
Proof. intros HP xs w Hw. by apply HP. Qed.
End fixed.

(** *** Discovering and delivering: [e] is in no book until it is delivered, buffered or given up *)

Lemma triple_agent_deliver lost e : triple (accounts (e :: lost)) (deliver quiet cfg carried e) (λ _, accounts lost) (accounts (e :: lost)).
Proof.
  intros xs w Hw. pose proof (triple_Send (e :: lost) e (λ _ _, True) xs w (conj Hw I)) as Hs.
  unfold deliver, mbind, prog_bind. destruct (Send quiet cfg carried e xs w) as [[[r|t|] xs1] w1]; [|done|done].
  destruct Hs as (Hw1&_&Hp). assert (unsent e w1 → posted e (λ c, ¬ accepting c) (seen w1)) as Hid by done. destruct r as [|b].
  { eapply ledger_settle; [exact Hw1|]. by left. }
  assert (trying (e :: lost) e w1) as Htry.
  { split; [done|]. destruct Hp as (r&Hr&Ha). exists r. split; [done|]. by eapply answering_unsent. }
  pose proof (ends_Enqueue_ (e :: lost) e xs1 w1 Htry) as He. unfold attempt. destruct (Enqueue_ quiet e xs1 w1) as [[[u|t|] xs2] w2].
  - destruct He as [[Hw2 Hu]  (t&k&nonce&Ht&Hf)]. cbn. eapply ledger_settle; [apply ledger_line; [exact Hw2|]|].
    + split; [|done]. by exists t, k, nonce.
    + right. left. apply elem_of_app. right. apply list_elem_of_here.
  - destruct He as [[Hw2 Hu] Hs]. cbn. eapply ledger_settle; [apply ledger_line; [exact Hw2|done]|]. right. right. apply elem_of_app. right. apply list_elem_of_here.
  - apply He.
Qed.

(** The books after a death *)
Definition accounts_but_one (lost : list ObservationEnvelope) (w : AgentWorld) : Prop := ∃ last, (length last ≤ 1)%nat ∧ accounts (last ++ lost) w.
Lemma accounts_but_none lost w : accounts lost w → accounts_but_one lost w.
Proof. intros Hw. exists []. split; [cbn; lia|done]. Qed.
Lemma accounts_but lost e w : accounts (e :: lost) w → accounts_but_one lost w.
Proof. intros Hw. exists [e]. split; [cbn; lia|done]. Qed.

Definition runs_well {A} (lost : list ObservationEnvelope) (p : prog AgentInput AgentWorld A) : Prop :=
  triple (accounts lost) p (λ _, accounts lost) (accounts_but_one lost).

Lemma runs_well_keeps {A} lost (p : prog AgentInput AgentWorld A) : keeps lost p → runs_well lost p.
Proof. intros Hp. eapply triple_weaken; [exact Hp|done|done|apply accounts_but_none]. Qed.
Lemma runs_well_ret {A} lost (a : A) : runs_well lost (mret a).
Proof. by apply triple_ret. Qed.
Lemma runs_well_bind {A B} lost (p : prog AgentInput AgentWorld A) (f : A → prog AgentInput AgentWorld B) :
  runs_well lost p → (∀ a, runs_well lost (f a)) → runs_well lost (p ≫= f).
Proof. intros Hp Hf. eapply triple_bind; [exact Hp|]. intros a. apply Hf. Qed.

Lemma runs_well_discoverAndSend lost : runs_well lost (discoverAndSend quiet cfg carried).
Proof.
  eapply triple_bind with (Q := λ r w, match r with Ok e => accounts (e :: lost) w | Err _ => accounts lost w end).
  { apply triple_input. intros i w Hw. destruct (ag_ending i); [|done|by apply accounts_but_none]. destruct (ag_discovered i) as [e|t]; [|done]. by apply (ledger_cross carried lost _ w (found e)). }
  intros [e|t]; [|by apply triple_ret]. eapply triple_bind with (Q := λ _, accounts lost); [|intros _; by apply triple_ret].
  eapply triple_weaken; [apply triple_agent_deliver|done|done|apply accounts_but].
Qed.

(** *** The loop *)

Lemma runs_well_request {A} lost e (f : option Response → A) : runs_well lost (r ← exchange quiet cfg e; mret (f r)).
Proof. apply runs_well_bind; [apply runs_well_keeps, keeps_exchange|intros r; apply runs_well_ret]. Qed.

Lemma runs_well_runJob lost job : runs_well lost (runJob quiet cfg carried job).
Proof.
  apply runs_well_bind; [by apply runs_well_keeps, keeps_input; intros i w; destruct (ag_ending i)|]. intros at_.
  apply runs_well_bind; [destruct (String.eqb _ _); [|apply runs_well_ret]; apply runs_well_bind; [apply runs_well_discoverAndSend|intros r; apply runs_well_ret]|]. intros result.
  apply runs_well_bind; [apply runs_well_request|intros r; apply runs_well_ret].
Qed.

Lemma runs_well_for_each {A} lost (f : A → prog AgentInput AgentWorld unit) l : (∀ a, runs_well lost (f a)) → runs_well lost (for_each f l).
Proof. intros Hf. induction l as [|a l IH]; [apply runs_well_ret|]. apply runs_well_bind; [apply Hf|intros _; exact IH]. Qed.

Lemma runs_well_checkIn lost : runs_well lost (checkIn quiet cfg carried).
Proof.
  apply runs_well_bind; [apply runs_well_request|]. intros _. apply runs_well_bind; [apply runs_well_request|].
  intros [jobs|]; [apply runs_well_for_each, runs_well_runJob|apply runs_well_ret].
Qed.

Lemma runs_well_tick lost : runs_well lost (tick quiet cfg carried).
Proof. apply runs_well_bind; [apply runs_well_keeps, keeps_drainSpool|]. intros _. apply runs_well_bind; [apply runs_well_discoverAndSend|intros _; apply runs_well_ret]. Qed.

Lemma runs_well_Run lost interval heartbeat events : runs_well lost (Run quiet cfg carried interval heartbeat events).
Proof.
  unfold Run. destruct (interval <=? 0); [apply triple_fail, accounts_but_none|]. apply runs_well_bind; [apply runs_well_tick|]. intros _.
  assert (runs_well lost (if 0 <? heartbeat then checkIn quiet cfg carried else mret tt)) as Hc by (destruct (0 <? heartbeat); [apply runs_well_checkIn|apply runs_well_ret]).
  apply runs_well_bind; [exact Hc|]. intros _. apply runs_well_for_each. intros [|]; [apply runs_well_tick|exact Hc].
Qed.
End loop_keeps.

Lemma happen_accounts `{Codec : SpoolCodec ObservationEnvelope} `{!SpoolCodecLaws Codec} cfg carried lost w h : accounts carried lost w →
  ∃ last, (length last ≤ if cut_short cfg carried w h then 1 else 0)%nat ∧ accounts carried (last ++ lost) (happen cfg carried w h).
Proof.
  intros Hw. destruct h as [quiet inputs interval heartbeat events|env r e]; cbn [happen cut_short].
  - pose proof (runs_well_Run quiet cfg carried lost interval heartbeat events inputs (restarted w)) as Hk.
    assert (accounts carried lost (restarted w)) as Hr by (apply (ledger_files carried lost _ w (mkSpool (files (buffer w)) (maxBytes (buffer w)) 0) Hw); by left).
    specialize (Hk Hr). destruct (Loop.Run _ _ _ _ _ _ _ _) as [[[u|t|] xs] w']; [exists []; split; [cbn; lia|done]|exact Hk..].
  - exists []. split; [cbn; lia|]. apply ledger_hub; [done|]. apply Handler_grows.
Qed.

(** *** An undisturbed tick *)

Section undisturbed.
Context `{Codec : SpoolCodec ObservationEnvelope} (quiet : AgentInput) (cfg : AgentConfig) (carried : ObservationEnvelope → go ObservationEnvelope).
Import Loop.
Hypothesis Hquiet : ag_ending quiet = Answered.
Hypothesis Hopen : ag_cancelled quiet = false.
Hypothesis Hplain : sender_peer cfg = None.

(** The controller has the key of the collector. *)
Definition welcome (w : AgentWorld) : Prop := sender_apiKey cfg = APIKey (hub w).

(** The controller would store the observation. *)
Definition acceptable (e : ObservationEnvelope) : Prop := ∃ e', carried e = Ok e' ∧ validateObservation e' = Ok tt.

(** What a tick may do to the controller: it keeps its key and what it holds. *)
Definition served (w w' : AgentWorld) : Prop := APIKey (hub w') = APIKey (hub w) ∧ grows (Store (hub w)) (Store (hub w')).

Lemma served_trans w w' w'' : served w w' → served w' w'' → served w w''.
Proof. intros [H1 [H2 H3]] [H4 [H5 H6]]. split; [congruence|]. split; auto. Qed.

Lemma authorized_passes (next : option string → Server Memory → Server Memory * Response) s : sender_apiKey cfg = APIKey s →
  collectorAuth (authorized cfg) next s = next None s.
Proof.
  intros Hkey. unfold collectorAuth, authorized. rewrite Hplain, Hkey. cbn. destruct (String.eqb_spec (APIKey s) "") as [->|Hne]; [done|].
  rewrite bool_decide_eq_false_2 by done. cbn. unfold bearer. by rewrite String.eqb_refl.
Qed.

Lemma runs_Send e w : welcome w → acceptable e →
  ∃ w', runs (Send quiet cfg carried e) w sent w' ∧ buffer w' = buffer w ∧ served w w' ∧ sent_to_hub carried e (Store (hub w')).
Proof.
  intros Hw (e'&Hc&Hv). eexists (cross (asked (POST_observations (carried e)) (Some (mkResponse 202 (accepted_body (Envelope_ObservationID e'))))) (with_hub (with_store (hub w) (SaveObservation e' (Store (hub w)))) w)). split; [|split; [done|split]].
  - eapply runs_bind with (a := Some (mkResponse 202 (accepted_body (Envelope_ObservationID e')))); [|exact (runs_ret sent _)]. apply runs_input. rewrite Hquiet. cbn [Handler]. rewrite authorized_passes by done.
    unfold ingest. rewrite Hc. cbn [collectorIdentity default]. replace (set_collector e' (Envelope_CollectorID e')) with e' by (by destruct e'). by rewrite Hv.
  - split; [done|]. apply repo_write_grows. exact (write_save (Store (hub w)) e').
  - exists e'. split; [done|]. exact (proj1 (save_holds e' _)).
Qed.

Lemma runs_directory {A} text subject f (r : Spool → go A) w a : r (buffer w) = Ok a → runs (directory quiet text subject f r) w a (with_buffer (f quiet) w).
Proof. intros Hr. apply runs_input. by rewrite Hquiet, Hr. Qed.

Lemma with_buffer_id w : with_buffer (λ s, s) w = w.
Proof. by destruct w. Qed.

Lemma runs_drain_entries names : ∀ w, NoDup names → (∀ name, name ∈ names → entry_path_ok name = true) → welcome w →
  (∀ name, name ∈ names → ∃ e, Read name (buffer w) = Ok e ∧ acceptable e) →
  ∃ w', runs (drain_entries quiet cfg carried names) w tt w' ∧ files (buffer w') = remove_all names (files (buffer w)) ∧ served w w' ∧
    ∀ name e, name ∈ names → Read name (buffer w) = Ok e → sent_to_hub carried e (Store (hub w')).
Proof.
  induction names as [|name names IH]; intros w Hnd Hok Hkey Hread.
  { exists w. split; [apply runs_ret|]. split; [done|]. split; [done|]. by intros ? ? ?%not_elem_of_nil. }
  apply NoDup_cons in Hnd as [Hni Hnd]. destruct (Hread name ltac:(by left)) as (e&He&Hacc).
  destruct (runs_Send e w Hkey Hacc) as (w1&Hsend&Hbuf&Hsrv&Hsent).
  set (w2 := with_buffer (Remove name) w1).
  assert (buffer w2 = mkSpool (delete name (files (buffer w))) (maxBytes (buffer w)) (seq (buffer w))) as Hb2.
  { cbn. rewrite Hbuf. apply Remove_ok, Hok. by left. }
  assert (∀ name', name' ∈ names → Read name' (buffer w2) = Read name' (buffer w)) as Hsame.
  { intros name' Hn'. rewrite Hb2. change (delete name (files (buffer w))) with (remove_all [name] (files (buffer w))). apply Read_after.
    intros ->%list_elem_of_singleton. done. }
  destruct (IH w2 Hnd) as (w'&Hrun&Hfiles&Hsrv2&Hsent2).
  { intros n Hn. apply Hok. by right. }
  { unfold welcome in *. destruct Hsrv as [Ha _]. change (hub w2) with (hub w1). by rewrite Ha. }
  { intros n Hn. rewrite (Hsame n Hn). apply Hread. by right. }
  change (served w1 w') in Hsrv2. exists w'. split; [|split; [|split; [by eapply served_trans|]]].
  - cbn [drain_entries]. eapply runs_bind; [apply runs_input; rewrite Hquiet; by rewrite Hopen|]. cbn iota.
    eapply runs_bind; [apply runs_attempt; by apply runs_directory|]. rewrite with_buffer_id.
    eapply runs_bind; [exact Hsend|]. cbn iota. eapply runs_bind; [apply runs_attempt; by apply runs_directory|]. exact Hrun.
  - rewrite Hfiles, Hb2. cbn [files]. by rewrite remove_all_snoc.
  - intros n e0 [->|Hn]%elem_of_cons He0; [|apply (Hsent2 n); [done|by rewrite Hsame]].
    assert (e0 = e) as -> by congruence. destruct Hsent as (e'&Hc&Hh). exists e'. split; [done|]. by apply Hsrv2.
Qed.

Lemma runs_tick w d : names_ok (buffer w) → welcome w → (∀ name, name ∈ Pending (buffer w) → ∃ e, Read name (buffer w) = Ok e ∧ acceptable e) →
  ag_discovered quiet = Ok d → acceptable d →
  ∃ w', runs (tick quiet cfg carried) w tt w' ∧ Pending (buffer w') = [] ∧ served w w' ∧ sent_to_hub carried d (Store (hub w')) ∧
    ∀ name e, name ∈ Pending (buffer w) → Read name (buffer w) = Ok e → sent_to_hub carried e (Store (hub w')).
Proof.
  intros Hok Hkey Hread Hd Hacc.
  destruct (runs_drain_entries (Pending (buffer w)) w (Pending_nodup _) Hok Hkey Hread) as (w1&Hrun&Hfiles&Hsrv&Hsent).
  assert (welcome w1) as Hkey1 by (unfold welcome in *; by rewrite (proj1 Hsrv)).
  destruct (runs_Send d (cross (found d) w1) Hkey1 Hacc) as (w2&Hsend&Hbuf&Hsrv2&Hd2). exists w2.
  split; [|split; [|split; [exact (served_trans w w1 w2 Hsrv Hsrv2)|split; [exact Hd2|]]]].
  - eapply runs_bind; [eapply runs_bind; [apply runs_attempt; by apply runs_directory|rewrite with_buffer_id; exact Hrun]|].
    eapply runs_bind; [|apply runs_ret]. eapply runs_bind; [apply runs_input; by rewrite Hquiet, Hd|]. cbn iota.
    eapply runs_bind; [|apply runs_ret]. eapply runs_bind; [exact Hsend|]. apply runs_ret.
  - rewrite Hbuf. change (buffer (cross (found d) w1)) with (buffer w1). apply Pending_unique; [constructor|apply NoDup_nil_2|]. intros x. split; [by intros ?%not_elem_of_nil|].
    rewrite elem_of_Pending, Hfiles, remove_all_lookup. intros [Hsome Hsp]. exfalso. destruct (decide (x ∈ Pending (buffer w))) as [|Hn]; [by destruct Hsome|].
    apply Hn. by apply elem_of_Pending.
  - intros name e Hin He. destruct (Hsent name e Hin He) as (e'&Hc&Hh). exists e'. split; [done|]. by apply (proj2 (proj2 Hsrv2)).
Qed.
End undisturbed.

Lemma started_accounts `{Codec : SpoolCodec ObservationEnvelope} carried w :
  logged w = [] → seen w = [] → index_ok (Store (hub w)) → 0 <= clock w → accounts carried [] w.
Proof.
  intros Hlog Hseen Hidx Hclock. split; [done|done|..]; rewrite ?Hlog, ?Hseen.
  - by intros e (r&?%elem_of_nil&_).
  - by intros e ?%elem_of_nil.
  - by intros e ?%elem_of_nil.
  - by intros e [?%elem_of_nil|?%elem_of_nil].
  - by intros e ?%elem_of_nil.
Qed.

Lemma history_accounts `{Codec : SpoolCodec ObservationEnvelope} `{!SpoolCodecLaws Codec} cfg carried history : ∀ lost w,
  accounts carried lost w →
  ∃ lost', (length lost' ≤ length lost + deaths cfg carried w history)%nat ∧ accounts carried lost' (foldl (happen cfg carried) w history).
Proof.
  induction history as [|h history IH]; intros lost w Hw; [exists lost; split; [cbn; lia|done]|].
  destruct (happen_accounts cfg carried lost w h Hw) as (last&Hlast&Hw'). destruct (IH _ _ Hw') as (lost'&Hlost'&Hw''). exists lost'. split; [|exact Hw''].
  rewrite length_app in Hlost'. cbn [deaths]. lia.
Qed.

(** ** Theorems *)

(** An observation is listed by the controller, as the controller decodes it. *)
Definition listed (carried : ObservationEnvelope → go ObservationEnvelope) (e : ObservationEnvelope) (m : Memory) : Prop :=
  ∃ e' o, carried e = Ok e' ∧ o ∈ ListObservations m ∧ Envelope_ObservationID o = Envelope_ObservationID e'.

Lemma posted_listed `{Codec : SpoolCodec ObservationEnvelope} carried lost w e : accounts carried lost w → posted carried e accepting (seen w) → listed carried e (Store (hub w)).
Proof.
  intros Hw He. destruct (acc_sent _ _ _ _ Hw e He) as (e'&Hc&Hh). destruct (held_listed _ _ (acc_index _ _ _ _ Hw) Hh) as (o&Ho&Hid). by exists e', o.
Qed.

(** C10: no observation disappears in silence.  Take any history of collector processes, with any
    effect failing and any process dying anywhere, and of requests of others to the controller.
    Every observation that the plugin returned is listed by the controller, or was logged as
    buffered or as given up, but for at most one per process that died.  One logged as given up
    was posted without success, and a file operation failed or the spool had no room for it.
    One logged as buffered was posted without success; its entry is still in the spool, or what
    was read from it is listed by the controller, or was answered with a status that no retry
    would change - below 500 and not a success - and logged as rejected, or reading the entry
    failed and it was logged as unreadable. *)
Theorem observations_are_accounted_for `{Codec : SpoolCodec ObservationEnvelope} `{!SpoolCodecLaws Codec}
    (cfg : AgentConfig) (carried : ObservationEnvelope → go ObservationEnvelope) (w : AgentWorld) (history : list happening) :
  logged w = [] → seen w = [] → index_ok (Store (hub w)) → 0 <= clock w →
  let w' := foldl (happen cfg carried) w history in
  (∃ lost, (length lost ≤ deaths cfg carried w history)%nat ∧
     ∀ e, found e ∈ seen w' → listed carried e (Store (hub w')) ∨ Buffered e ∈ logged w' ∨ GivenUp e ∈ logged w' ∨ e ∈ lost) ∧
  (∀ e, GivenUp e ∈ logged w' → posted carried e (λ code, ¬ accepting code) (seen w') ∧ unspooled e (seen w')) ∧
  ∀ e, Buffered e ∈ logged w' → posted carried e (λ code, ¬ accepting code) (seen w') ∧ ∃ t k, let name := entry_name t k in
    (∃ nonce, files (buffer w') !! name = Some (seal nonce (marshal e))) ∨
    (Unreadable name ∈ logged w' ∧ file_error Loop.open_entry name ∈ seen w') ∨
    ∃ e', unmarshal (marshal e) = Some e' ∧
      (listed carried e' (Store (hub w')) ∨ Rejected name ∈ logged w' ∧ posted carried e' rejecting (seen w')).
Proof.
  intros Hlog Hseen Hidx Hclock w'. destruct (history_accounts cfg carried history [] w (started_accounts carried w Hlog Hseen Hidx Hclock)) as (lost&Hlost&Hw).
  fold w' in Hw. split; [|split].
  - exists lost. split; [exact Hlost|]. intros e He. destruct (acc_found _ _ _ _ Hw e He) as [[Hp|[Hl|Hl]]|Hl]; [left; by eapply posted_listed|auto..].
  - intros e He. split; [apply (acc_unsent _ _ _ _ Hw); by right|by apply (acc_given_up _ _ _ _ Hw)].
  - intros e He. split; [apply (acc_unsent _ _ _ _ Hw); by left|]. destruct (acc_kept _ _ _ _ Hw e He) as (t&k&_&[Hf|[Hu|(e'&Hu&[Hp|Hr])]]); exists t, k; cbn; [by left|by right; left|..];
      right; right; exists e'; (split; [done|]); [left; by eapply posted_listed|by right].
Qed.

(** C18: after an outage nothing is left behind.  One undisturbed tick against a controller that
    has the collector's key and would store every buffered observation empties the spool, and
    all of them, and the one just discovered, are then listed by the controller. *)
Theorem tick_delivers_backlog `{Codec : SpoolCodec ObservationEnvelope} (quiet : AgentInput) (cfg : AgentConfig)
    (carried : ObservationEnvelope → go ObservationEnvelope) (w : AgentWorld) (d : ObservationEnvelope) :
  ag_ending quiet = Answered → ag_cancelled quiet = false → sender_peer cfg = None → sender_apiKey cfg = APIKey (hub w) →
  index_ok (Store (hub w)) → names_ok (buffer w) →
  (∀ name, name ∈ Pending (buffer w) → ∃ e, Read name (buffer w) = Ok e ∧ acceptable carried e) →
  ag_discovered quiet = Ok d → acceptable carried d →
  ∃ w', runs (Loop.tick quiet cfg carried) w tt w' ∧ Pending (buffer w') = [] ∧
    ∀ e e', (e = d ∨ ∃ name, name ∈ Pending (buffer w) ∧ Read name (buffer w) = Ok e) → carried e = Ok e' →
      ∃ o, o ∈ ListObservations (Store (hub w')) ∧ Envelope_ObservationID o = Envelope_ObservationID e'.
Proof.
  intros Hq Ho Hp Hkey Hidx Hok Hread Hd Hacc. destruct (runs_tick quiet cfg carried Hq Ho Hp w d Hok Hkey Hread Hd Hacc) as (w'&Hrun&Hempty&Hsrv&Hsent&Hall).
  exists w'. split; [done|]. split; [done|]. intros e e' He Hc. apply held_listed; [by apply (proj2 Hsrv)|].
  assert (sent_to_hub carried e (Store (hub w'))) as (e''&Hc'&Hh) by (destruct He as [->|(name&Hin&He)]; [done|by apply (Hall name)]). congruence.
Qed.

(** ** Witnesses *)

Definition example_observation (id : string) : ObservationEnvelope :=
  mkObservationEnvelope SchemaVersion id "site" "c1" "local" "" (unix 100 0) [] [] [] ∅.
Definition example_codec : SpoolCodec ObservationEnvelope := {|
  seal _ plaintext := String "#" plaintext;
  open text := match text with String c rest => if Ascii.eqb c "#" then Some rest else None | EmptyString => None end;
  marshal := Envelope_ObservationID;
  unmarshal id := Some (example_observation id);
  json_faithful e := e = example_observation (Envelope_ObservationID e);
|}.
#[export] Instance example_codec_laws : SpoolCodecLaws example_codec.
Proof. split; [done|]. intros e ->. done. Qed.

Definition example_effect (ending : ending) (id : string) : AgentInput :=
  mkAgentInput ending false (example_env (unix 200 0) [1] []) 0 "" None false (Ok (example_observation id)).
Definition example_agent : AgentConfig := mkAgentConfig "secret" None "c1" "site".
Definition example_start : AgentWorld := mkAgentWorld (mkSpool ∅ 100 0) (New 0 NewMemory "secret") 0 [] [].

(** A process that finds the controller unreachable, and one that does not. *)
Definition example_history : list happening :=
  [process (example_effect Answered "one") [example_effect Answered "one"; example_effect Answered "one"; example_effect Failing ""] 1 0 [];
   process (example_effect Answered "two") [] 1 0 []].

Definition example_after : AgentWorld := foldl (happen (Codec := example_codec) example_agent Ok) example_start example_history.

Lemma observations_are_accounted_for_witness :
  (logged example_after, base.filter (λ c, match c with found _ => true | _ => false end = true) (seen example_after)) =
    ([Buffered (example_observation "one")], [found (example_observation "one"); found (example_observation "two")]) ∧
  (deaths (Codec := example_codec) example_agent Ok example_start example_history = 0)%nat ∧
  ∃ lost, (length lost ≤ 0)%nat ∧ ∀ e, found e ∈ seen example_after →
    listed Ok e (Store (hub example_after)) ∨ Buffered e ∈ logged example_after ∨ GivenUp e ∈ logged example_after ∨ e ∈ lost.
Proof.
  split; [vm_compute; reflexivity|]. split; [vm_compute; reflexivity|].
  apply (observations_are_accounted_for (Codec := example_codec) example_agent Ok example_start example_history); [reflexivity|reflexivity|done|done].
Defined.

(** An entry that could not be opened once is removed: the observation is lost, and its log line
    is the only trace. *)
Example failed_open_drops_the_entry :
  let w := foldl (happen (Codec := example_codec) example_agent Ok) example_start
    [process (example_effect Answered "one") [example_effect Answered "one"; example_effect Answered "one"; example_effect Failing ""] 1 0 [];
     process (example_effect Answered "two") [example_effect Answered ""; example_effect Answered ""; example_effect Failing ""] 1 0 []] in
  logged w = [Buffered (example_observation "one"); Unreadable (entry_name 1 1)] ∧ Pending (buffer w) = [] ∧
  (Envelope_ObservationID <$> ListObservations (Store (hub w))) = ["two"%string].
Proof. split_and!; vm_compute; reflexivity. Qed.

Lemma tick_delivers_backlog_witness :
  let w := foldl (happen (Codec := example_codec) example_agent Ok) example_start (take 1 example_history) in
  length (Pending (buffer w)) = 1%nat ∧
  ∃ w', runs (Loop.tick (Codec := example_codec) (example_effect Answered "two") example_agent Ok) w tt w' ∧ Pending (buffer w') = [] ∧
    ∃ o, o ∈ ListObservations (Store (hub w')) ∧ Envelope_ObservationID o = "two"%string.
Proof.
  intros w. split; [vm_compute; reflexivity|].
  destruct (tick_delivers_backlog (Codec := example_codec) (example_effect Answered "two") example_agent Ok w (example_observation "two")) as (w'&Hrun&Hp&Hall).
  - reflexivity.
  - reflexivity.
  - reflexivity.
  - vm_compute. reflexivity.
  - destruct (history_accounts (Codec := example_codec) example_agent Ok (take 1 example_history) [] example_start) as (lost&_&Hw); [by apply started_accounts|].
    exact (acc_index _ _ _ _ Hw).
  - apply names_ok_by. vm_compute. reflexivity.
  - intros name Hn. assert (name = entry_name 1 1) as -> by (apply list_elem_of_singleton; by vm_compute in Hn |- * ).
    exists (example_observation "one"). split; [vm_compute; reflexivity|]. exists (example_observation "one"). split; [reflexivity|]. vm_compute. reflexivity.
  - reflexivity.
  - exists (example_observation "two"). split; [reflexivity|]. vm_compute. reflexivity.
  - exists w'. split; [exact Hrun|]. split; [exact Hp|]. apply (Hall (example_observation "two") (example_observation "two")); [by left|reflexivity].
Defined.
