(* ===== verification/Outputs.v ===== *)
(** * Output directories of the release tools

    What [internal/release], [internal/packagebuild] and [internal/distribution] share: the
    operations on a directory that is not there, is filled, and is removed again when the
    tool fails; every operation may fail or be the last one.  Also the checksum manifest the
    three write and read, with its names and patterns. *)

From S2P Require Import Prelude Effects Bytes Text Strconv Sha256.

(** ** Directories *)

(** A directory by the paths of what is in it. *)
Inductive entry := file (contents : string) | irregular | folder.
#[export] Instance entry_eq_dec : EqDecision entry.
Proof. solve_decision. Defined.
Abbreviation directory := (gmap string entry).

(** A file of a directory *)
Definition file_contents (text : string) (d : directory) (path : string) : go string :=
  match d !! path with Some (file contents) => Ok contents | Some _ => Err text | None => Err "no such file or directory"%string end.

(** [io_partial]: what a write that fails has put into its file, if it opened it at all;
    [io_applied]: an operation that the process did not survive took effect. *)
Record IOInput := mkIOInput { io_ending : ending; io_applied : bool; io_partial : option string }.

Section output.
Context (quiet : IOInput).

Abbreviation tool := (prog IOInput (option directory)).

(** An operation that looks at what does not change. *)
Definition look_at {A} (text : string) (r : go A) : tool A := with_input quiet (λ i w,
  match io_ending i with
  | Answered => (match r with Ok a => Done a | Err e => Failed e end, w)
  | Failing => (Failed text, w)
  | Dying => (Crashed, w)
  end).

(** An operation on the output directory. *)
Definition change (text : string) (f : directory → go directory) (failed : IOInput → directory → directory) : tool unit :=
  with_input quiet (λ i w,
    match w with
    | None => (Failed "no such file or directory"%string, w)
    | Some d =>
      match io_ending i, f d with
      | Answered, Ok d' => (Done tt, Some d')
      | Answered, Err e => (Failed e, w)
      | Failing, _ => (Failed text, Some (failed i d))
      | Dying, Ok d' => (Crashed, Some (if io_applied i then d' else failed i d))
      | Dying, Err _ => (Crashed, w)
      end
    end).

Definition written (path : string) (i : IOInput) (d : directory) : directory :=
  match io_partial i with Some part => <[path := file part]> d | None => d end.

(** [os.WriteFile]; [os.OpenFile] with [O_EXCL] and a write; [os.Rename]; a look into the directory. *)
Definition WriteFile (text path contents : string) : tool unit :=
  change text (λ d, Ok (<[path := file contents]> d)) (written path).
Definition create (text path contents : string) : tool unit :=
  change text (λ d, if d !! path is Some _ then Err "file exists"%string else Ok (<[path := file contents]> d))
    (λ i d, if d !! path is Some _ then d else written path i d).
Definition rename (text from to : string) : tool unit :=
  change text (λ d, if d !! from is Some e then Ok (<[to := e]> (delete from d)) else Err "no such file or directory"%string) (λ _ d, d).
Definition remove (path : string) : tool unit := change "remove" (λ d, Ok (delete path d)) (λ _ d, d).
Definition observe {A} (text : string) (f : directory → go A) : tool A := with_input quiet (λ i w,
  match io_ending i with
  | Answered => (match w with Some d => match f d with Ok a => Done a | Err e => Failed e end | None => Failed "no such file or directory"%string end, w)
  | Failing => (Failed text, w)
  | Dying => (Crashed, w)
  end).

(** *** What they do *)

(** Whatever fails, there is a directory in which [P] held before and [Q] holds after a success. *)
Definition fills {A} (P : directory → Prop) (p : tool A) (Q : A → directory → Prop) : Prop :=
  triple (λ w, ∃ d, w = Some d ∧ P d) p (λ a w, ∃ d, w = Some d ∧ Q a d) (λ w, is_Some w).

Lemma fills_look {A} text (r : go A) (P : directory → Prop) (Q : A → directory → Prop) :
  (∀ a d, r = Ok a → P d → Q a d) → fills P (look_at text r) Q.
Proof.
  intros HQ. apply triple_input. intros i w (d&->&Hd). destruct (io_ending i); [|by eexists..].
  destruct r; [|by eexists]. eauto.
Qed.

Lemma fills_change text f failed (P : directory → Prop) (Q : unit → directory → Prop) :
  (∀ d d', P d → f d = Ok d' → Q tt d') → fills P (change text f failed) Q.
Proof.
  intros HQ. apply triple_input. intros i w (d&->&Hd). destruct (io_ending i), (f d) eqn:Hf; try (by eexists). eauto.
Qed.

Lemma fills_observe {A} text (f : directory → go A) (P : directory → Prop) (Q : A → directory → Prop) :
  (∀ a d, P d → f d = Ok a → Q a d) → fills P (observe text f) Q.
Proof.
  intros HQ. apply triple_input. intros i w (d&->&Hd). destruct (io_ending i); [|by eexists..].
  destruct (f d) eqn:Hf; [|by eexists]. eauto.
Qed.

Lemma fills_ret {A} (a : A) (P : directory → Prop) (Q : A → directory → Prop) : (∀ d, P d → Q a d) → fills P (mret a) Q.
Proof. intros HQ. apply triple_ret. intros w (d&->&Hd). eauto. Qed.

Lemma fills_lift {A} (r : go A) (P : directory → Prop) (Q : A → directory → Prop) :
  (∀ a d, r = Ok a → P d → Q a d) → fills P (lift r) Q.
Proof. intros HQ. apply triple_lift; [intros w a Hr (d&->&Hd); eauto|by intros w (d&->&_)]. Qed.

Lemma fills_bind {A B} (p : tool A) (f : A → tool B) P Q R : fills P p Q → (∀ a, fills (Q a) (f a) R) → fills P (p ≫= f) R.
Proof. apply triple_bind. Qed.

Lemma fills_wrapping {A} text (p : tool A) P Q : fills P p Q → fills P (wrapping text p) Q.
Proof. apply triple_wrapping. Qed.

Lemma fills_weaken {A} (p : tool A) (P P' : directory → Prop) (Q Q' : A → directory → Prop) :
  fills P p Q → (∀ d, P' d → P d) → (∀ a d, Q a d → Q' a d) → fills P' p Q'.
Proof. intros Hp HP HQ. eapply triple_weaken; [exact Hp|naive_solver..]. Qed.

Lemma fills_mono {A} (p : tool A) (P : directory → Prop) (Q Q' : A → directory → Prop) : fills P p Q → (∀ a d, Q a d → Q' a d) → fills P p Q'.
Proof. intros Hp HQ. by eapply fills_weaken. Qed.

(** A fact that does not depend on the directory, and a choice made before. *)
Lemma fills_pure {A} (X : Prop) (p : tool A) (P : directory → Prop) (Q : A → directory → Prop) : (X → fills P p Q) → fills (λ d, P d ∧ X) p Q.
Proof. intros H xs w (d&->&Hd&Hx). apply H; eauto. Qed.
Lemma fills_exists {A B} (p : tool A) (P : B → directory → Prop) (Q : A → directory → Prop) : (∀ x, fills (P x) p Q) → fills (λ d, ∃ x, P x d) p Q.
Proof. intros H xs w (d&->&x&Hd). apply (H x); eauto. Qed.
Lemma fills_same {A} (p : tool A) (P : directory → Prop) (Q : A → directory → Prop) :
  (∀ d0, P d0 → fills (λ d, d = d0) p Q) → fills P p Q.
Proof. intros H xs w (d&->&Hd). apply (H d); eauto. Qed.

(** What holds whatever ends the operation. *)
Lemma holds_look_at {A} text (r : go A) P : triple P (look_at text r) (λ a w, P w ∧ r = Ok a) P.
Proof. apply triple_input. intros i w Hw. destruct (io_ending i), r; auto. Qed.
Lemma holds_observe {A} text (f : directory → go A) P : triple P (observe text f) (λ a w, P w ∧ ∃ d, w = Some d ∧ f d = Ok a) P.
Proof. apply triple_input. intros i w Hw. destruct (io_ending i), w as [d|]; auto. destruct (f d) eqn:Hf; eauto. Qed.
Lemma same_observe {A} text (f : directory → go A) d : triple (λ w, w = Some d) (observe text f) (λ a w, w = Some d ∧ f d = Ok a) (λ w, w = Some d).
Proof. apply triple_input. intros i w ->. destruct (io_ending i); [|done..]. by destruct (f d). Qed.
Lemma holds_change text f failed (P : option directory → Prop) (Q : unit → option directory → Prop) E :
  (∀ d d', P (Some d) → f d = Ok d' → Q tt (Some d') ∧ E (Some d')) → (∀ i d, P (Some d) → E (Some (failed i d))) → (∀ w, P w → E w) →
  triple P (change text f failed) Q E.
Proof.
  intros HQ HF HE. apply triple_input. intros i [d|] Hw; [|by apply HE]. destruct (io_ending i), (f d) as [d'|] eqn:Hf; auto; try (by eapply HQ).
  destruct (io_applied i); [by eapply HQ|auto].
Qed.

(** Nothing fails. *)
Section undisturbed.
Context (Hq : io_ending quiet = Answered).

Lemma runs_look_at {A} text (r : go A) a w : r = Ok a → runs (look_at text r) w a w.
Proof. intros ->. apply runs_input. by rewrite Hq. Qed.
Lemma runs_change text f failed d d' : f d = Ok d' → runs (change text f failed) (Some d) tt (Some d').
Proof. intros Hf. apply runs_input. by rewrite Hq, Hf. Qed.
Lemma runs_observed {A} text (f : directory → go A) d a : f d = Ok a → runs (observe text f) (Some d) a (Some d).
Proof. intros Hf. apply runs_input. by rewrite Hq, Hf. Qed.
End undisturbed.

(** *** A new output *)

(** [leftover]: what [os.RemoveAll] leaves of a directory, nothing when it works. *)
Context (leftover : directory → option directory).

(** [defer func() { if !completed { os.RemoveAll(output) } }()] *)
Definition cleaned_up {A} (body : tool A) : tool A := λ xs w,
  match body xs w with
  | (Failed e, xs, Some d) => with_input quiet (λ i _, match io_ending i with Dying => (Crashed, leftover d) | _ => (Failed e, leftover d) end) xs (Some d)
  | r => r
  end.

(** The output must not be there; it is made, filled, and removed unless that is completed. *)
Definition new_output {A} (body : tool A) : tool A :=
  _ ← with_input quiet (λ i w,
        match io_ending i with
        | Answered => (if w is Some _ then Failed "output already exists: %s"%string else Done tt, w)
        | Failing => (Failed "inspect output: %w"%string, w)
        | Dying => (Crashed, w)
        end);
  _ ← with_input quiet (λ i w,
        match io_ending i with
        | Answered => (Done tt, Some ∅)
        | Failing => (Failed "create output: %w"%string, w)
        | Dying => (Crashed, if io_applied i then Some ∅ else w)
        end);
  cleaned_up body.

(** A success leaves a new directory as the body filled it; a failure leaves what was there,
    unless removing failed; what was there before is never touched. *)
Lemma new_output_spec {A} (body : tool A) (Q : A → directory → Prop) xs w :
  fills (λ d, d = ∅) body Q →
  match new_output body xs w with
  | (Done a, _, w') => w = None ∧ ∃ d, w' = Some d ∧ Q a d
  | (Failed _, _, w') => w' = w ∨ w = None ∧ ∃ d, w' = leftover d
  | (Crashed, _, w') => is_Some w → w' = w
  end.
Proof.
  intros Hbody. unfold new_output, cleaned_up, mbind, prog_bind, with_input at 1. destruct (io_ending (hd quiet xs)); [|by left|done].
  destruct w as [d|]; [by left|]. unfold with_input at 1. cbn. destruct (io_ending (hd quiet (tl xs))); [|by left|by intros []].
  specialize (Hbody (tl (tl xs)) (Some ∅)). destruct (body (tl (tl xs)) (Some ∅)) as [[[a|e|] xs'] w'].
  - split; [done|]. apply Hbody. eauto.
  - destruct w' as [d|]; [|by left]. unfold with_input. destruct (io_ending (hd quiet xs')); [|right; eauto|by intros []]. right. eauto.
  - by intros [].
Qed.

Context (Hq : io_ending quiet = Answered).
Lemma runs_new_output {A} (body : tool A) a d : runs body (Some ∅) a (Some d) → runs (new_output body) None a (Some d).
Proof.
  intros Hb. unfold new_output. eapply runs_bind; [apply runs_input; by rewrite Hq|].
  eapply runs_bind; [apply runs_input; by rewrite Hq|]. unfold runs, cleaned_up in *. by rewrite Hb.
Qed.
End output.
