(* ===== verification/Manifest.v ===== *)
(** * Names, versions and checksum manifests of the release tools

    The patterns and the [SHA256SUMS] text that [internal/release], [internal/packagebuild] and
    [internal/distribution] share: how it is written, and how the two readers read it. *)

From S2P Require Import Prelude Bytes Text Strconv Sha256.

(** ** Names *)

Definition LF : ascii := byte_of 10.
Definition lines_text (lines : list string) : string := String.concat "" ((λ line, line +:+ String LF "") <$> lines)%string.

(** [filepath.Base] on a Unix host *)
Definition Base (path : string) : string :=
  if String.eqb path "" then "."
  else let path := string_rev (trim_left_byte "/"%char (string_rev path)) in
       let name := match cut_last "/"%char path with Some (_, name) => name | None => path end in
       if String.eqb name "" then "/" else name.

Definition safeBaseName (name : string) : bool :=
  negb (String.eqb name "") && negb (String.eqb name ".") && negb (String.eqb name "..") && String.eqb (Base name) name
  && negb (contains_byte "/"%char name || contains_byte "\"%char name).
Definition safeName (name : string) : bool :=
  negb (String.eqb name "") && String.eqb (Base name) name && negb (String.eqb name ".") && negb (String.eqb name "..")
  && negb (contains_byte "\"%char name || contains_byte "/"%char name || contains_byte (byte_of 0) name).

(** A name that starts with a letter or a digit and goes on with these, dots, dashes and
    underscores is safe: every artifact has one. *)
Definition plain_name (name : string) : bool := match name with String c _ => is_alnum c | EmptyString => false end && string_all safe_id_byte name.

(** ** [versionPattern] *)

Definition version_number (s : string) : bool := negb (String.eqb s "") && string_all is_digit s.
Definition version_identifier (s : string) : bool := negb (String.eqb s "") && string_all (λ c, is_alnum c || Ascii.eqb c "-"%char) s.

(** A [v] and three numbers between dots, and then perhaps a dash and identifiers between
    dots, to the end of the text: the first dash ends the numbers. *)
Definition match_version (s : string) : bool :=
  match s with
  | String c rest =>
    Ascii.eqb c "v"%char &&
    let '(core, prerelease) := match cut_byte "-"%char rest with Some (a, b) => (a, Some b) | None => (rest, None) end in
    (match split_byte "."%char core with [a; b; c] => version_number a && version_number b && version_number c | _ => false end)
    && match prerelease with Some p => forallb version_identifier (split_byte "."%char p) | None => true end
  | EmptyString => false
  end.

(** 40 to 64 lower-case hexadecimal digits *)
Definition match_commit (s : string) : bool := string_all (λ c, is_digit c || in_range 97 102 (byte_val c)) s && in_range 40 64 (slen s).

Example version_texts : (match_version "v1.2.3", match_version "v1.2.3-beta.1", match_version "v1.2", match_version "1.2.3", match_version "v1.2.3-", match_version "v1.2.3-a..b")
  = (true, true, false, false, false, false).
Proof. vm_compute. reflexivity. Qed.

(** ** The manifest *)

(** [strings.Cut] *)
Fixpoint Cut (sep s : string) : option (string * string) :=
  match cut_prefix s sep, s with
  | Some rest, _ => Some ("", rest)
  | None, String c s' => match Cut sep s' with Some (a, b) => Some (String c a, b) | None => None end
  | None, EmptyString => None
  end%string.

Definition checksum_line (e : string * string) : string := (e.2 +:+ "  " +:+ e.1)%string.
Definition manifest_text (entries : list (string * string)) : string := lines_text (checksum_line <$> entries).

(** [io.LimitReader] *)
Definition limited (n : Z) (s : string) : string := if slen s <=? n then s else take_string (Z.to_nat n) s.
Definition manifest_limit : Z := 2^20.

(** The loop over the lines: [inspect] is what is asked about the file of a line. *)
Fixpoint read_lines {A} (safe : string → bool) (inspect : string → string → go A) (seen : list (string * A)) (lines : list string) : go (list (string * A)) :=
  match lines with
  | [] => Ok seen
  | line :: lines =>
    match Cut "  " line with
    | Some (digest, name) =>
      reject negb (safe name) || negb (slen digest =? 64) with "invalid checksum line %q"%string ;;
      reject negb (hex_decodable digest) with ("invalid checksum for " +:+ name)%string ;;
      reject bool_decide (name ∈ seen.*1) with ("duplicate checksum for " +:+ name)%string ;;
      try a := inspect name digest ;;
      read_lines safe inspect (seen ++ [(name, a)]) lines
    | None => Err "invalid checksum line %q"%string
    end
  end.
Definition read_manifest {A} (safe : string → bool) (inspect : string → string → go A) (text : string) : go (list (string * A)) :=
  let '(lines, long) := scan_lines MaxScanTokenSize (limited manifest_limit text) in
  try entries := read_lines safe inspect [] lines ;;
  reject long with "bufio.Scanner: token too long"%string ;;
  Ok entries.

(** ** Lemmas *)

Lemma has_prefix_text p s : has_prefix (p +:+ s)%string p = true.
Proof.
  unfold has_prefix. induction p as [|c p IH]; rewrite ?string_app_nil, ?string_app_cons; simpl; [by destruct s|]. by destruct (Ascii.ascii_dec c c).
Qed.

Lemma cut_prefix_text p s : cut_prefix (p +:+ s)%string p = Some s.
Proof. unfold cut_prefix. by rewrite has_prefix_text, drop_string_app. Qed.

Lemma Cut_free c sep a b : free_of c a → Cut (String c sep) (a +:+ String c sep +:+ b)%string = Some (a, b).
Proof.
  unfold free_of. induction a as [|d a IH]; cbn [string_all].
  - intros _. rewrite string_app_nil. pose proof (cut_prefix_text (String c sep) b) as H. destruct (String c sep +:+ b)%string eqn:Hs; [done|]. cbn [Cut]. by rewrite H.
  - intros [Hd Ha]%andb_true_iff. rewrite string_app_cons. cbn [Cut]. unfold cut_prefix at 1, has_prefix. cbn [String.prefix].
    destruct (Ascii.ascii_dec c d) as [->|_]; [by rewrite Ascii.eqb_refl in Hd|]. by rewrite IH.
Qed.

(** *** Reading what was written *)

Lemma string_rev_app a b : string_rev (a +:+ b)%string = (string_rev b +:+ string_rev a)%string.
Proof.
  unfold string_rev. assert (∀ a b, String.list_ascii_of_string (a +:+ b) = String.list_ascii_of_string a ++ String.list_ascii_of_string b) as Happ.
  { intros x y. induction x as [|c x IH]; [done|]. rewrite string_app_cons. cbn. by rewrite IH. }
  rewrite Happ, reverse_app. generalize (reverse (String.list_ascii_of_string b)) as l. induction l as [|c l IH]; [done|]. cbn. by rewrite string_app_cons, IH.
Qed.

Lemma string_all_rev f s : string_all f (string_rev s) = string_all f s.
Proof.
  unfold string_rev. rewrite !string_all_list, String.list_ascii_of_string_of_list_ascii.
  generalize (String.list_ascii_of_string s) as l. intros l. apply eq_true_iff_eq. rewrite !forallb_forall. setoid_rewrite <-list_elem_of_In. by setoid_rewrite elem_of_reverse.
Qed.

Lemma drop_cr_free line : free_of (byte_of 13) line → drop_cr line = line.
Proof.
  unfold free_of. rewrite <-string_all_rev. intros H. unfold drop_cr, cut_prefix, has_prefix, char. destruct (string_rev line) as [|c s] eqn:Hs; [done|].
  cbn [string_all] in H. apply andb_true_iff in H as [Hc%negb_true_iff _]. cbn [String.prefix]. destruct (Ascii.ascii_dec (byte_of 13) c) as [Heq|]; [|done].
  rewrite <-Heq, Ascii.eqb_refl in Hc. done.
Qed.

Definition plain_line (limit : Z) (line : string) : Prop := free_of LF line ∧ free_of (byte_of 13) line ∧ slen line < limit.

Lemma scan_lines_text limit lines : Forall (plain_line limit) lines → scan_lines limit (lines_text lines) = (lines, false).
Proof.
  intros Hl. unfold scan_lines. change (byte_of 10) with LF. assert (split_byte LF (lines_text lines) = lines ++ [""%string]) as ->.
  { induction Hl as [|line lines (Hlf&_) _ IH]; [done|]. unfold lines_text in *. rewrite fmap_cons, concat_cons, string_app_assoc, string_app_cons, string_app_nil.
    rewrite split_byte_app by done. cbn [app]. f_equal. exact IH. }
  rewrite reverse_snoc, reverse_involutive. induction Hl as [|line lines (Hlf&Hcr&Hlen) _ IH]; [done|]. cbn [scan_until_long].
  destruct (Z.leb_spec limit (slen line)); [lia|]. by rewrite IH, drop_cr_free.
Qed.

Lemma limited_small n s : slen s <= n → limited n s = s.
Proof. intros H. unfold limited. by destruct (Z.leb_spec (slen s) n); [|lia]. Qed.

Definition digest_text (d : string) : Prop := slen d = 64 ∧ string_all is_hex d = true ∧ hex_decodable d = true.

Lemma sha256_digest_text s : digest_text (sha256_hex s).
Proof.
  split; [|split; [|apply sha256_hex_decodable]]; [unfold slen; by rewrite sha256_hex_length|]. unfold sha256_hex.
  apply hex_encode_bytes; [apply hex_digit_hex|apply Sum256_range].
Qed.

Lemma free_of_all (f : ascii → bool) c s : f c = false → string_all f s = true → free_of c s.
Proof. intros Hc Hs. unfold free_of. eapply string_all_impl; [|exact Hs]. intros d Hd. apply negb_true_iff. destruct (Ascii.eqb_spec c d) as [->|]; congruence. Qed.

Lemma checksum_line_reads name digest : digest_text digest → Cut "  " (checksum_line (name, digest)) = Some (digest, name).
Proof. intros (_&Hh&_). apply (Cut_free " "%char " "). by apply (free_of_all is_hex). Qed.

Lemma checksum_line_plain name digest : digest_text digest → plain_name name = true → slen name < 2^15 → plain_line MaxScanTokenSize (checksum_line (name, digest)).
Proof.
  intros (Hlen&Hh&_) [_ Hn]%andb_true_iff Hs. unfold plain_line, checksum_line. rewrite !free_of_app, !slen_app. cbn [fst snd]. change (slen "  ") with 2.
  split_and!; try (by apply (free_of_all is_hex)); try (by apply (free_of_all safe_id_byte)); [reflexivity..|]. unfold MaxScanTokenSize. lia.
Qed.

(** A manifest of plain names is read back as it was written. *)
Lemma read_manifest_text {A} safe (inspect : string → string → go A) (entries : list (string * string)) (f : string * string → A) :
  Forall (λ e, plain_name e.1 = true ∧ slen e.1 < 2^15 ∧ safe e.1 = true ∧ digest_text e.2 ∧ inspect e.1 e.2 = Ok (f e)) entries →
  NoDup entries.*1 → slen (manifest_text entries) <= manifest_limit →
  read_manifest safe inspect (manifest_text entries) = Ok ((λ e, (e.1, f e)) <$> entries).
Proof.
  intros Hall Hnd Hlen. unfold read_manifest. rewrite limited_small by done. unfold manifest_text. rewrite scan_lines_text.
  2:{ apply Forall_fmap. eapply Forall_impl; [exact Hall|]. intros [n d] (Hp&Hs&_&Hd&_). by apply checksum_line_plain. }
  assert (∀ seen : list (string * A), NoDup (seen.*1 ++ entries.*1) → read_lines safe inspect seen (checksum_line <$> entries) = Ok (seen ++ ((λ e, (e.1, f e)) <$> entries))) as Hread.
  { clear Hnd Hlen. induction Hall as [|[n d] entries (Hp&Hs&Hsafe&Hd&Hi) _ IH]; intros seen Hnd; cbn [fmap list_fmap read_lines].
    { by rewrite app_nil_r. }
    rewrite checksum_line_reads by done. cbn [fst snd] in *. rewrite Hsafe. destruct Hd as (Hl&_&Hx). rewrite Hl, Hx. cbn.
    rewrite bool_decide_false; [|apply NoDup_app in Hnd as (_&Hn&_); intros Hin; apply (Hn n Hin); left]. cbn. rewrite Hi. cbn.
    rewrite IH; [by rewrite <-app_assoc|]. by rewrite fmap_app, <-app_assoc. }
  rewrite Hread by done. done.
Qed.

(** What is read is in the manifest, safe, and passed the inspection, once per name. *)
Lemma read_manifest_entries {A} safe (inspect : string → string → go A) text entries :
  read_manifest safe inspect text = Ok entries →
  NoDup entries.*1 ∧ ∀ name a, (name, a) ∈ entries → ∃ line digest,
    line ∈ (scan_lines MaxScanTokenSize (limited manifest_limit text)).1 ∧ Cut "  " line = Some (digest, name) ∧ safe name = true ∧ inspect name digest = Ok a.
Proof.
  unfold read_manifest. destruct (scan_lines _ _) as [lines long]. cbn [fst]. destruct (read_lines safe inspect [] lines) as [es|e] eqn:Hr; [|done]. cbn.
  intros Hes. assert (es = entries) as <- by (destruct long; cbn in Hes; congruence). clear Hes.
  assert (∀ seen, NoDup seen.*1 → read_lines safe inspect seen lines = Ok es → NoDup es.*1 ∧ ∀ name a, (name, a) ∈ es → (name, a) ∈ seen ∨ ∃ line digest,
    line ∈ lines ∧ Cut "  " line = Some (digest, name) ∧ safe name = true ∧ inspect name digest = Ok a) as H.
  { clear Hr. induction lines as [|line lines IH]; intros seen Hnd; cbn [read_lines]; [intros [= <-]; auto|].
    destruct (Cut "  " line) as [[digest name]|] eqn:Hc; [|done]. destruct (negb (safe name) || _) eqn:H1; [done|]. cbn. destruct (negb (hex_decodable digest)); [done|].
    cbn. destruct (bool_decide _) eqn:H3; [done|]. cbn. destruct (inspect name digest) as [a|] eqn:Hi; [|done]. cbn. intros Hr.
    apply bool_decide_eq_false in H3. apply orb_false_iff in H1 as [H1 _]. apply negb_false_iff in H1.
    destruct (IH (seen ++ [(name, a)])) as [Hd Hin]; [rewrite fmap_app; apply NoDup_app; split; [done|split; [|apply NoDup_singleton]]; set_solver|done|].
    split; [done|]. intros n b [[Hs|Hs%list_elem_of_singleton]%elem_of_app|(l&dg&?&?)]%Hin; [by left| |right; exists l, dg; split; [by right|done]].
    injection Hs as -> ->. right. exists line, digest. split; [by left|done]. }
  destruct (H [] ltac:(constructor) Hr) as [Hd Hin]. split; [done|]. intros n a [Ha%not_elem_of_nil|]%Hin; done.
Qed.

Lemma plain_name_head name : plain_name name = true → ∃ c s, name = String c s ∧ is_alnum c = true ∧ string_all safe_id_byte name = true.
Proof. unfold plain_name. destruct name as [|c s]; [done|]. intros [H1 H2]%andb_true_iff. eauto. Qed.

Lemma Base_plain name : name ≠ ""%string → free_of "/"%char name → Base name = name.
Proof.
  intros Hne Hf. unfold Base. destruct (String.eqb_spec name ""); [done|].
  assert (trim_left_byte "/"%char (string_rev name) = string_rev name) as ->.
  { unfold free_of in Hf. rewrite <-string_all_rev in Hf. destruct (string_rev name) as [|c s]; [done|]. cbn [string_all trim_left_byte] in *.
    apply andb_true_iff in Hf as [Hc%negb_true_iff _]. by rewrite Hc. }
  assert (string_rev (string_rev name) = name) as ->.
  { unfold string_rev. by rewrite String.list_ascii_of_string_of_list_ascii, reverse_involutive, String.string_of_list_ascii_of_string. }
  rewrite (proj2 (cut_last_none "/"%char name)) by done. destruct (String.eqb_spec name ""); done.
Qed.

Lemma contains_free c s : free_of c s → contains_byte c s = false.
Proof. apply contains_byte_free. Qed.

Lemma plain_name_safe name : plain_name name = true → safeName name = true ∧ safeBaseName name = true.
Proof.
  intros Hn. pose proof (plain_name_head name Hn) as (c&s&->&Hc&Hall). assert (∀ d, safe_id_byte d = false → contains_byte d (String c s) = false) as Hfree.
  { intros d Hd. apply contains_free. by apply (free_of_all safe_id_byte). }
  unfold safeName, safeBaseName. rewrite !Hfree by reflexivity. rewrite Base_plain; [|done|by apply (free_of_all safe_id_byte)]. rewrite String.eqb_refl.
  assert (String.eqb (String c s) "." = false ∧ String.eqb (String c s) ".." = false) as [-> ->]; [|done].
  split; apply String.eqb_neq; intros [= -> ->]; by vm_compute in Hc.
Qed.

(** The bytes of a version *)
Lemma split_all (f : ascii → bool) c s : f c = true → Forall (λ p, string_all f p = true) (split_byte c s) → string_all f s = true.
Proof.
  intros Hc. induction s as [|d s IH]; [done|]. cbn [split_byte string_all]. destruct (Ascii.eqb_spec c d) as [<-|].
  - intros [_ Hs]%Forall_cons. by rewrite Hc, IH.
  - destruct (split_byte_cons c s) as (x&l&Hx). rewrite Hx in *. intros [Hd Hl]%Forall_cons. cbn [string_all] in Hd. apply andb_true_iff in Hd as [Hd Hx'].
    rewrite Hd, IH; [done|]. by constructor.
Qed.

Lemma match_version_safe version : match_version version = true → string_all safe_id_byte version = true.
Proof.
  destruct version as [|c rest]; [done|]. cbn [match_version]. intros [Hc H]%andb_true_iff. apply Ascii.eqb_eq in Hc as ->. cbn [string_all].
  assert (∀ s, version_number s = true → string_all safe_id_byte s = true) as Hnum.
  { intros s [_ Hs]%andb_true_iff. eapply string_all_impl; [|exact Hs]. intros d Hd. unfold safe_id_byte, is_alnum. rewrite Hd. by rewrite orb_true_r. }
  assert (∀ s, version_identifier s = true → string_all safe_id_byte s = true) as Hid.
  { intros s [_ Hs]%andb_true_iff. eapply string_all_impl; [|exact Hs]. intros d [Hd|Hd]%orb_true_iff; unfold safe_id_byte; rewrite Hd; by rewrite ?orb_true_r. }
  change (safe_id_byte "v"%char) with true. cbn [andb].
  assert (∀ core, match split_byte "."%char core with [a; b; c] => version_number a && version_number b && version_number c | _ => false end = true → string_all safe_id_byte core = true) as Hcore.
  { intros core Hs. apply (split_all _ "."%char); [done|]. destruct (split_byte "."%char core) as [|x [|y [|z [|? ?]]]]; try done. apply andb_true_iff in Hs as [[H1 H2]%andb_true_iff H3]. repeat constructor; auto. }
  destruct (cut_byte "-"%char rest) as [[core pre]|] eqn:Hcut; apply andb_true_iff in H as [H1 H2].
  - apply cut_byte_spec in Hcut as [-> _]. rewrite string_all_app, Hcore by done. cbn [string_all andb]. change (safe_id_byte "-"%char) with true. cbn [andb].
    apply (split_all _ "."%char); [done|]. apply Forall_forall. intros p Hp. apply Hid. by eapply forallb_elem_of.
  - by apply Hcore.
Qed.

Lemma trim_prefix_all f s p : string_all f s = true → string_all f (trim_prefix s p) = true.
Proof.
  intros Hs. unfold trim_prefix, cut_prefix. destruct (has_prefix s p); [|done]. cbn. generalize (String.length p) as n. intros n.
  rewrite (take_drop_string n s), string_all_app in Hs. by apply andb_true_iff in Hs as [_ Hs].
Qed.
