(* ===== verification/Release.v ===== *)
(** * [internal/release]: release profiles and the raw archives

    The compiler, the archive formats and the encoding of the metadata are arguments: what the
    theorems say about the output directory does not depend on the bytes they produce. *)

From S2P Require Import Prelude Effects Bytes Text Strconv Sha256 Manifest Outputs.

(** ** Profiles: [profile.go] *)

Record Target := mkTarget { GOOS : string; GOARCH : string; Format : string }.
#[export] Instance Target_eq_dec : EqDecision Target.
Proof. solve_decision. Defined.

Definition targets : list Target := [
  mkTarget "darwin" "amd64" "tar.gz"; mkTarget "darwin" "arm64" "tar.gz";
  mkTarget "linux" "amd64" "tar.gz"; mkTarget "linux" "arm64" "tar.gz";
  mkTarget "windows" "amd64" "zip"; mkTarget "windows" "arm64" "zip"].

Definition LinuxMacOSBeta : string := "linux-macos-beta".
Definition LinuxHomebrewBeta : string := "linux-homebrew-beta".
Definition restricted (profile : string) : bool := String.eqb profile LinuxMacOSBeta || String.eqb profile LinuxHomebrewBeta.

Record ReleasePolicy := mkReleasePolicy { IncludeWindows : bool; RequireAppleSigning : bool }.

Definition TargetsForProfile (profile version : string) : go (list Target) :=
  reject negb (match_version version) with "release profile requires a semantic version"%string ;;
  if String.eqb profile "" || String.eqb profile "all" then Ok targets
  else if restricted profile then
    reject negb (contains_byte "-"%char version) with "restricted beta profile requires a prerelease version"%string ;;
    Ok (take 4 targets)
  else Err "unknown release profile"%string.

Definition PolicyForProfile (profile version : string) : go ReleasePolicy :=
  try _ := TargetsForProfile profile version ;;
  Ok (mkReleasePolicy (String.eqb profile "" || String.eqb profile "all") (negb (String.eqb profile LinuxHomebrewBeta))).

(** The runes that [strings.ToLower] turns into ASCII letters: besides the upper-case ones
    the dotted capital I and the Kelvin sign. *)
Definition lower_rune (r : Z) : Z := if in_range 65 90 r then r + 32 else if r =? 304 then 105 else if r =? 8490 then 107 else r.
Definition prefix_of (p l : list Z) : bool := bool_decide (take (length p) l = p).
Fixpoint infix_of (p l : list Z) : bool := prefix_of p l || match l with _ :: l => infix_of p l | [] => false end.
Definition suffix_of (p l : list Z) : bool := prefix_of (reverse p) (reverse l).

Definition windows_payload (name : string) : bool :=
  let name := lower_rune <$> runes name in
  infix_of (bytes_of "windows") name || suffix_of (bytes_of ".msi") name || suffix_of (bytes_of ".exe") name.

(** [os.ReadDir] sorts the names. *)
Definition ReadDir (d : directory) : list string := sort_by str_lt (map_to_list d).*1.

Definition CheckProfileFiles (d : directory) (profile version : string) : go unit :=
  try _ := TargetsForProfile profile version ;;
  if negb (restricted profile) then Ok tt
  else match base.filter (λ name, windows_payload name) (ReadDir d) with
       | name :: _ => Err ("Windows artifact is excluded by " +:+ profile +:+ ": " +:+ name)%string
       | [] => Ok tt
       end.

(** ** The metadata and the archives *)

Record Artifact := mkArtifact { Filename : string; Artifact_GOOS : string; Artifact_GOARCH : string; SHA256 : string }.
Record Metadata := mkMetadata {
  Profile : string; SchemaVersion : Z; Project : string; Repository : string; Version : string; Commit : string;
  GoVersion : string; CGOEnabled : bool; BuildFlags : list string; Artifacts : list Artifact;
}.
Definition projectName : string := "Nischoy Topo".
Definition repository : string := "https://github.com/Nischoy-ai/topo".

(** [^(?:dev|[0-9a-f]{40,64})$] *)
Definition match_release_commit (s : string) : bool := String.eqb s "dev" || match_commit s.

(** A file of an archive: its name, its contents, its mode. *)
Record ArchiveFile := mkArchiveFile { Archive_Name : string; Archive_Contents : string; Archive_Mode : Z }.
Definition sort_files : list ArchiveFile → list ArchiveFile := sort_by (less_on Archive_Name str_lt).

Definition archive_base (version : string) (t : Target) : string := ("topo_" +:+ trim_prefix version "v" +:+ "_" +:+ GOOS t +:+ "_" +:+ GOARCH t)%string.
Definition archive_name (version : string) (t : Target) : string := (archive_base version t +:+ "." +:+ Format t)%string.
Definition binary_name (t : Target) : string := if String.eqb (GOOS t) "windows" then "topo.exe" else "topo".

Section release.
Context (quiet : IOInput) (leftover : directory → option directory).
(** [go build], [go env GOVERSION]; [writeTarGz] and [writeZip] as the bytes they write. *)
Context (go_build : Target → string → go string) (go_version : go string) (tar_gz zip : list ArchiveFile → string).
Context (marshal : Metadata → string) (unmarshal : string → go Metadata).

Abbreviation tool := (prog IOInput (option directory)).

(** [buildEnvironment]: the entries of the environment are texts [name=value]. *)
Definition replaced : list string := ["CGO_ENABLED"; "GOOS"; "GOARCH"].
Definition env_name (item : string) : string := match cut_byte "="%char item with Some (name, _) => name | None => item end.
Definition buildEnvironment (environ : list string) (t : Target) : list string :=
  base.filter (λ item, env_name item ∉ replaced) environ ++ ["CGO_ENABLED=0"; "GOOS=" +:+ GOOS t; "GOARCH=" +:+ GOARCH t]%string.

(** The repository by the paths of its files; the output path is not empty. *)
Record ReleaseOptions := mkReleaseOptions { Opt_Profile : string; Root : directory; Opt_Version : string; Opt_Commit : string }.

Definition required_input (root : directory) (path : string) : go unit :=
  match root !! path with
  | Some (file _) => Ok tt
  | Some _ => Err ("release input " +:+ path +:+ " is not a regular file")%string
  | None => Err ("release input " +:+ path +:+ ": no such file or directory")%string
  end.
Definition validateOptions (o : ReleaseOptions) : go unit :=
  reject negb (match_version (Opt_Version o)) with "version %q must be a semantic tag such as v1.2.3"%string ;;
  reject negb (match_release_commit (Opt_Commit o)) with "commit %q must be dev or a 40-64 character lowercase hexadecimal digest"%string ;;
  try _ := required_input (Root o) "go.mod" ;;
  try _ := required_input (Root o) "LICENSE" ;;
  required_input (Root o) "README.md".

Definition archive_of (format : string) (files : list ArchiveFile) : go string :=
  if String.eqb format "tar.gz" then Ok (tar_gz files) else if String.eqb format "zip" then Ok (zip files) else Err "unsupported archive format %q"%string.

Definition archive_files (root : directory) (t : Target) (version binary : string) : go (list ArchiveFile) :=
  let base := archive_base version t in
  try license := file_contents "read" root "LICENSE" ;;
  try readme := file_contents "read" root "README.md" ;;
  Ok (sort_files [mkArchiveFile (base +:+ "/LICENSE") license 420; mkArchiveFile (base +:+ "/README.md") readme 420;
                  mkArchiveFile (base +:+ "/" +:+ binary_name t) binary 493])%string.

(** [fileSHA256] of a file that the tool has written *)
Definition fileSHA256 (path : string) : tool string :=
  contents ← observe quiet "open %s for checksum: %w" (λ d, file_contents "checksum %s: %w" d path); mret (sha256_hex contents).

(** The body of the loop over the targets. *)
Definition build_target (o : ReleaseOptions) (t : Target) : tool Artifact :=
  let name := archive_name (Opt_Version o) t in
  _ ← look_at quiet "create target directory: %w" (Ok tt);
  binary ← look_at quiet "build %s/%s: %w: %s" (go_build t (Opt_Version o));
  files ← look_at quiet "archive %s: %w" (archive_files (Root o) t (Opt_Version o) binary);
  contents ← lift (archive_of (Format t) files);
  _ ← create quiet "archive %s: %w" name contents;
  digest ← fileSHA256 name;
  mret (mkArtifact name (GOOS t) (GOARCH t) digest).

Fixpoint build_targets (o : ReleaseOptions) (ts : list Target) : tool (list Artifact) :=
  match ts with
  | [] => mret []
  | t :: ts => a ← build_target o t; l ← build_targets o ts; mret (a :: l)
  end.

Fixpoint digests (names : list string) : tool (list (string * string)) :=
  match names with
  | [] => mret []
  | name :: names => digest ← fileSHA256 name; l ← digests names; mret ((name, digest) :: l)
  end.

Definition metadata_of (o : ReleaseOptions) (goVersion : string) (artifacts : list Artifact) : Metadata :=
  mkMetadata (Opt_Profile o) 1 projectName repository (Opt_Version o) (Opt_Commit o) goVersion false
    ["-trimpath"; "-buildvcs=false"; "-ldflags=-s -w -X main.version=<version>"] artifacts.
Definition metadataName : string := "release-metadata.json".
Definition newline_after (s : string) : string := (s +:+ String LF "")%string.

Definition build_body (o : ReleaseOptions) (ts : list Target) : tool unit :=
  _ ← look_at quiet "create release build directory: %w" (Ok tt);
  goVersion ← look_at quiet "run %s %s: %w: %s" go_version;
  artifacts ← build_targets o ts;
  _ ← WriteFile quiet "write release metadata: %w" metadataName (newline_after (marshal (metadata_of o (trim_space goVersion) artifacts)));
  checksums ← digests (sort_by str_lt ((Filename <$> artifacts) ++ [metadataName]));
  WriteFile quiet "write checksums: %w" "SHA256SUMS" (manifest_text checksums).

Definition Build (o : ReleaseOptions) : tool unit :=
  _ ← lift (validateOptions o);
  ts ← lift (TargetsForProfile (Opt_Profile o) (Opt_Version o));
  new_output quiet leftover (build_body o ts).

(** [RefreshMetadata]: the names the selected targets have, and the loop over the artifacts. *)
Definition expected_targets (version : string) (ts : list Target) : gmap string Target :=
  list_to_map ((λ t, (archive_name version t, t)) <$> ts).

Definition refresh_item (expected : gmap string Target) (seen : list string) (item : Artifact) : go unit :=
  reject negb (String.eqb (Base (Filename item)) (Filename item)) with "unsafe release artifact filename %q"%string ;;
  reject bool_decide (Filename item ∈ seen) with "duplicate release artifact %s"%string ;;
  match expected !! Filename item with
  | Some t => reject negb (String.eqb (Artifact_GOOS item) (GOOS t)) || negb (String.eqb (Artifact_GOARCH item) (GOARCH t))
                with "release artifact identity mismatch for %s"%string ;; Ok tt
  | None => Err "release artifact identity mismatch for %s"%string
  end.

Fixpoint refresh_items (expected : gmap string Target) (seen : list string) (items : list Artifact) : tool (list Artifact) :=
  match items with
  | [] => mret []
  | item :: items =>
    _ ← lift (refresh_item expected seen item);
    digest ← wrapping "refresh" (fileSHA256 (Filename item));
    l ← refresh_items expected (Filename item :: seen) items;
    mret (mkArtifact (Filename item) (Artifact_GOOS item) (Artifact_GOARCH item) digest :: l)
  end.

Definition with_artifacts (m : Metadata) (items : list Artifact) : Metadata :=
  mkMetadata (Profile m) (SchemaVersion m) (Project m) (Repository m) (Version m) (Commit m) (GoVersion m) (CGOEnabled m) (BuildFlags m) items.

Definition complete_metadata (m : Metadata) (ts : list Target) : bool :=
  (SchemaVersion m =? 1) && String.eqb (Project m) projectName && String.eqb (Repository m) repository
  && match_version (Version m) && match_release_commit (Commit m) && (llen (Artifacts m) =? llen ts).

(** A temporary file that is renamed over [path], and removed when that fails. *)
Definition replace_file (path contents : string) : tool unit :=
  _ ← WriteFile quiet "open" (path +:+ ".tmp")%string contents;
  renamed ← attempt (rename quiet "rename" (path +:+ ".tmp")%string path);
  match renamed with
  | Some _ => mret tt
  | None => _ ← attempt (remove quiet (path +:+ ".tmp")%string); lift (Err "rename"%string)
  end.

Definition RefreshMetadata : tool unit :=
  contents ← observe quiet "read release metadata: %w" (λ d, file_contents "read release metadata: %w" d metadataName);
  manifest ← wrapping "parse release metadata" (lift (unmarshal contents));
  ts ← lift (TargetsForProfile (Profile manifest) (Version manifest));
  _ ← observe quiet "open" (λ d, CheckProfileFiles d (Profile manifest) (Version manifest));
  _ ← lift (if complete_metadata manifest ts then Ok tt else Err "release metadata is incomplete or invalid"%string);
  items ← refresh_items (expected_targets (Version manifest) ts) [] (Artifacts manifest);
  replace_file metadataName (newline_after (marshal (with_artifacts manifest items))).

(** [ReadPolicy] and [ReadProfile] *)
Definition ReadPolicy (d : directory) (version : string) : go ReleasePolicy :=
  try data := file_contents "read" d metadataName ;;
  try manifest := unmarshal data ;;
  reject negb (String.eqb (Version manifest) version) with "release profile version mismatch"%string ;;
  try _ := CheckProfileFiles d (Profile manifest) version ;;
  PolicyForProfile (Profile manifest) version.
Definition ReadProfile (d : directory) (version : string) : go bool := try policy := ReadPolicy d version ;; Ok (IncludeWindows policy).

(** [RearchiveDarwin]: an archive of a signed payload, at a path where nothing is. *)
Definition darwin_file (base : string) (input : directory) (item : string * Z) : go ArchiveFile :=
  match input !! item.1 with
  | Some (file contents) =>
    reject (slen contents <? 1) || (2^27 <? slen contents) with "signed Darwin input %s is not a bounded regular file"%string ;;
    Ok (mkArchiveFile (base +:+ "/" +:+ item.1)%string contents item.2)
  | Some _ => Err "signed Darwin input %s is not a bounded regular file"%string
  | None => Err "inspect signed Darwin input %s: %w"%string
  end.
Fixpoint darwin_files (base : string) (input : directory) (items : list (string * Z)) : go (list ArchiveFile) :=
  match items with
  | [] => Ok []
  | item :: items => try f := darwin_file base input item ;; try l := darwin_files base input items ;; Ok (f :: l)
  end.
Definition RearchiveDarwin (input : directory) (outputPath version arch : string) : tool unit :=
  _ ← lift (reject negb (match_version version) with "version %q must be a semantic tag such as v1.2.3"%string ;;
            reject negb (String.eqb arch "amd64") && negb (String.eqb arch "arm64") with "unsupported Darwin architecture %q"%string ;; Ok tt);
  _ ← observe quiet "open" (λ d, if d !! outputPath is Some _ then Err "release output already exists: %s"%string else Ok tt);
  files ← look_at quiet "open" (darwin_files ("topo_" +:+ trim_prefix version "v" +:+ "_darwin_" +:+ arch)%string input [("LICENSE", 420); ("README.md", 420); ("topo", 493)]%string);
  create quiet "open" outputPath (tar_gz (sort_files files)).
End release.

(** ** Profiles and the environment of the compiler *)

(** Windows is in the policy exactly when a Windows target is built, and only a prerelease
    may leave anything out. *)
Lemma PolicyForProfile_spec profile version policy :
  PolicyForProfile profile version = Ok policy →
  ∃ ts, TargetsForProfile profile version = Ok ts ∧ NoDup ts ∧
    (IncludeWindows policy = true ↔ ∃ t, t ∈ ts ∧ GOOS t = "windows"%string) ∧
    (IncludeWindows policy = false ∨ RequireAppleSigning policy = false → contains_byte "-"%char version = true).
Proof.
  unfold PolicyForProfile, TargetsForProfile, restricted. destruct (negb (match_version version)); [done|]. cbn.
  destruct (String.eqb profile "" || String.eqb profile "all") eqn:Hall; cbn.
  - intros [= <-]. exists targets. split; [done|]. split; [by apply (bool_decide_unpack _); vm_compute|]. cbn.
    split; [split; [intros _; exists (mkTarget "windows" "amd64" "zip"); split; [set_solver|done]|done]|].
    intros [?|Hb%negb_false_iff%String.eqb_eq]; [done|]. by rewrite Hb in Hall.
  - destruct (String.eqb profile LinuxMacOSBeta || String.eqb profile LinuxHomebrewBeta); [|done]. destruct (negb (contains_byte "-"%char version)) eqn:Hdash; [done|].
    cbn. intros [= <-]. exists (take 4 targets). split; [done|]. split; [by apply (bool_decide_unpack _); vm_compute|]. cbn. split; [|by apply negb_false_iff in Hdash].
    split; [done|]. intros (t&Ht&Hw). repeat (apply elem_of_cons in Ht as [->|Ht]; [done|]). by apply not_elem_of_nil in Ht.
Qed.

(** The compiler sees each of the three variables once, with the value of the target. *)
Lemma buildEnvironment_pins environ t name value :
  (name, value) ∈ [("CGO_ENABLED", "0"); ("GOOS", GOOS t); ("GOARCH", GOARCH t)]%string →
  base.filter (λ item, env_name item = name) (buildEnvironment environ t) = [(name +:+ "=" +:+ value)%string].
Proof.
  intros Hin. unfold buildEnvironment. rewrite filter_app.
  assert (base.filter (λ item, env_name item = name) (base.filter (λ item, env_name item ∉ replaced) environ) = []) as ->.
  { apply elem_of_nil_inv. intros item. rewrite !list_elem_of_filter. unfold replaced. set_solver. }
  repeat (apply elem_of_cons in Hin as [[= -> ->]|Hin]; [reflexivity|]). by apply not_elem_of_nil in Hin.
Qed.

(** ** What [Build] leaves *)
Section build.
Context (quiet : IOInput) (leftover : directory → option directory).
Context (go_build : Target → string → go string) (go_version : go string) (tar_gz zip : list ArchiveFile → string).
Context (marshal : Metadata → string).

(** The archive that [go build] and the repository give for a target. *)
Definition archived (o : ReleaseOptions) (t : Target) (contents : string) : Prop :=
  ∃ binary files, go_build t (Opt_Version o) = Ok binary ∧ archive_files (Root o) t (Opt_Version o) binary = Ok files ∧ archive_of tar_gz zip (Format t) files = Ok contents.

Definition artifact_of (version : string) (t : Target) (contents : string) : Artifact :=
  mkArtifact (archive_name version t) (GOOS t) (GOARCH t) (sha256_hex contents).
Fixpoint add_archives (version : string) (ts : list Target) (cs : list string) (d : directory) : directory :=
  match ts, cs with t :: ts, c :: cs => add_archives version ts cs (<[archive_name version t := file c]> d) | _, _ => d end.
Definition contents_of (d : directory) (name : string) : string := match d !! name with Some (file c) => c | _ => "" end.
Definition sums_of (d : directory) (names : list string) : list (string * string) := (λ name, (name, sha256_hex (contents_of d name))) <$> names.

(** The output of a build whose archives are [cs]. *)
Definition release_tree (o : ReleaseOptions) (goVersion : string) (ts : list Target) (cs : list string) : directory :=
  let artifacts := zip_with (artifact_of (Opt_Version o)) ts cs in
  let d := <[metadataName := file (newline_after (marshal (metadata_of o goVersion artifacts)))]> (add_archives (Opt_Version o) ts cs ∅) in
  <["SHA256SUMS"%string := file (manifest_text (sums_of d (sort_by str_lt ((archive_name (Opt_Version o) <$> ts) ++ [metadataName]))))]> d.

Lemma filenames_of o ts (cs : list string) : length ts = length cs → Filename <$> zip_with (artifact_of (Opt_Version o)) ts cs = archive_name (Opt_Version o) <$> ts.
Proof. revert cs. induction ts as [|t ts IH]; intros [|c cs] Hlen; [done..|]. cbn. f_equal. apply IH. by injection Hlen. Qed.

Lemma fills_fileSHA256 d0 path : fills (λ d, d = d0) (fileSHA256 quiet path) (λ digest d, d = d0 ∧ ∃ c, d0 !! path = Some (file c) ∧ digest = sha256_hex c).
Proof.
  eapply fills_bind with (Q := λ c d, d = d0 ∧ d0 !! path = Some (file c)).
  - apply fills_observe. intros c d ->. unfold file_contents. destruct (d0 !! path) as [[c'| |]|]; [|done..]. by intros [= ->].
  - intros c. apply fills_ret. intros d (->&Hc). eauto.
Qed.

Lemma fills_digests d0 names : fills (λ d, d = d0) (digests quiet names) (λ l d, d = d0 ∧ l = sums_of d0 names ∧ ∀ name, name ∈ names → ∃ c, d0 !! name = Some (file c)).
Proof.
  induction names as [|name names IH]; cbn [digests]; [apply fills_ret; intros d ->; set_solver|].
  eapply fills_bind; [apply fills_fileSHA256|]. intros digest. apply fills_pure. intros (c&Hc&->).
  eapply fills_bind; [apply IH|]. intros l. apply fills_ret. intros d (->&->&Hn). split; [done|]. unfold sums_of. rewrite fmap_cons.
  unfold contents_of at 2. rewrite Hc. split; [done|]. set_solver.
Qed.

Lemma fills_build_target o t d0 : fills (λ d, d = d0) (build_target quiet go_build tar_gz zip o t)
  (λ a d, ∃ c, archived o t c ∧ a = artifact_of (Opt_Version o) t c ∧ d = <[archive_name (Opt_Version o) t := file c]> d0).
Proof.
  unfold build_target. eapply fills_bind with (Q := λ _ d, d = d0); [by apply fills_look|]. intros _.
  eapply fills_bind with (Q := λ binary d, d = d0 ∧ go_build t (Opt_Version o) = Ok binary); [by apply fills_look|]. intros binary.
  eapply fills_bind with (Q := λ files d, d = d0 ∧ go_build t (Opt_Version o) = Ok binary ∧ archive_files (Root o) t (Opt_Version o) binary = Ok files); [apply fills_look; naive_solver|]. intros files.
  eapply fills_bind with (Q := λ c d, d = d0 ∧ archived o t c); [apply fills_lift; intros c d Hc (->&?&?); split; [done|by eexists _, _]|]. intros c.
  eapply fills_bind with (Q := λ _ d, d = <[archive_name (Opt_Version o) t := file c]> d0 ∧ archived o t c).
  { apply fills_change. intros d d' (->&?). destruct (d0 !! _); [done|]. by intros [= <-]. }
  intros _. apply fills_pure. intros Ha. eapply fills_bind; [apply fills_fileSHA256|]. intros digest. apply fills_ret.
  intros d (->&c'&Hc&->). rewrite lookup_insert_eq in Hc. simplify_eq. eauto.
Qed.

Lemma fills_build_targets o ts d0 : fills (λ d, d = d0) (build_targets quiet go_build tar_gz zip o ts)
  (λ l d, ∃ cs, Forall2 (archived o) ts cs ∧ l = zip_with (artifact_of (Opt_Version o)) ts cs ∧ d = add_archives (Opt_Version o) ts cs d0).
Proof.
  revert d0. induction ts as [|t ts IH]; intros d0; cbn [build_targets]; [apply fills_ret; intros d ->; exists []; by repeat constructor|].
  eapply fills_bind; [apply fills_build_target|]. intros a. apply fills_same. intros d1 (c&Hc&->&->).
  eapply fills_bind; [apply IH|]. intros l. apply fills_ret. intros d (cs&Hcs&->&->). exists (c :: cs). by repeat constructor.
Qed.

Lemma fills_build_body o ts : fills (λ d, d = ∅) (build_body quiet go_build go_version tar_gz zip marshal o ts)
  (λ _ d, ∃ v cs, Forall2 (archived o) ts cs ∧ d = release_tree o v ts cs).
Proof.
  unfold build_body. eapply fills_bind with (Q := λ _ d, d = ∅); [by apply fills_look|]. intros _.
  eapply fills_bind with (Q := λ _ d, d = ∅); [by apply fills_look|]. intros v.
  eapply fills_bind; [apply fills_build_targets|]. intros l. apply fills_same. intros d (cs&Hcs&->&->).
  set (d1 := <[metadataName := file (newline_after (marshal (metadata_of o (trim_space v) (zip_with (artifact_of (Opt_Version o)) ts cs))))]> (add_archives (Opt_Version o) ts cs ∅)).
  eapply fills_bind with (Q := λ _ d, d = d1); [apply fills_change; by intros d d' -> [= <-]|]. intros _.
  eapply fills_bind; [apply fills_digests|]. intros sums. apply fills_change. intros d d' (->&->&_) [= <-]. exists (trim_space v), cs. split; [done|].
  unfold release_tree. fold d1. by rewrite (filenames_of o ts cs (Forall2_length _ _ _ Hcs)).
Qed.

(** A build that succeeds leaves the archives of the selected targets, the metadata and the
    checksums; one that fails leaves what was there, unless removing the output failed. *)
Lemma Build_spec o xs w :
  match Build quiet leftover go_build go_version tar_gz zip marshal o xs w with
  | (Done _, _, w') => w = None ∧ ∃ ts v cs, TargetsForProfile (Opt_Profile o) (Opt_Version o) = Ok ts ∧ Forall2 (archived o) ts cs ∧ w' = Some (release_tree o v ts cs)
  | (Failed _, _, w') => w' = w ∨ w = None ∧ ∃ d, w' = leftover d
  | (Crashed, _, w') => is_Some w → w' = w
  end.
Proof.
  unfold Build, mbind, prog_bind, lift. destruct (validateOptions o); [|by left]. destruct (TargetsForProfile _ _) as [ts|] eqn:Hts; [|by left].
  pose proof (new_output_spec quiet leftover (build_body quiet go_build go_version tar_gz zip marshal o ts) _ xs w (fills_build_body o ts)) as H.
  destruct (new_output _ _ _ _ _) as [[[[]|e|] xs'] w']; [|done..]. destruct H as (->&d&->&v&cs&Hcs&->). split; [done|]. by exists ts, v, cs.
Qed.

(** ** Refreshing the digests *)

Context (unmarshal : string → go Metadata).

(** The artifacts of [m] with the digests of their files in [d]. *)
Definition refreshed_item (d : directory) (a b : Artifact) : Prop :=
  ∃ c, d !! Filename a = Some (file c) ∧ b = mkArtifact (Filename a) (Artifact_GOOS a) (Artifact_GOARCH a) (sha256_hex c).
Definition refreshed (d : directory) (m : Metadata) (items : list Artifact) : Prop := Forall2 (refreshed_item d) (Artifacts m) items.

Lemma holds_fileSHA256 path P : triple P (fileSHA256 quiet path) (λ digest w, P w ∧ ∃ d c, w = Some d ∧ d !! path = Some (file c) ∧ digest = sha256_hex c) P.
Proof.
  eapply triple_bind; [apply holds_observe|]. intros c. apply triple_ret. intros w (Hw&d&->&Hc). split; [done|]. exists d, c.
  unfold file_contents in Hc. destruct (d !! path) as [[c'| |]|]; [|done..]. by injection Hc as ->.
Qed.

Lemma holds_refresh_items d0 expected seen items : triple (λ w, w = Some d0) (refresh_items quiet expected seen items)
  (λ l w, w = Some d0 ∧ Forall2 (refreshed_item d0) items l) (λ w, w = Some d0).
Proof.
  revert seen. induction items as [|item items IH]; intros seen; cbn [refresh_items]; [apply triple_ret; by repeat constructor|].
  eapply triple_bind with (Q := λ _ w, w = Some d0); [by apply triple_lift|]. intros _.
  eapply triple_bind with (Q := λ digest w, w = Some d0 ∧ ∃ c, d0 !! Filename item = Some (file c) ∧ digest = sha256_hex c).
  { eapply triple_weaken with (E := λ w, w = Some d0); [apply triple_wrapping, holds_fileSHA256|done|naive_solver|done]. }
  intros digest. apply triple_pure. intros (c&Hc&->). eapply triple_bind; [apply IH|]. intros l. apply triple_ret. intros w (->&Hl).
  split; [done|]. constructor; [by exists c|exact Hl].
Qed.

Definition new_metadata (m : Metadata) (items : list Artifact) : entry := file (newline_after (marshal (with_artifacts m items))).
Definition metadata_whole (d0 : directory) (w : option directory) : Prop :=
  ∃ d, w = Some d ∧ (∀ p, p ≠ metadataName → p ≠ (metadataName +:+ ".tmp")%string → d !! p = d0 !! p) ∧
    (d !! metadataName = d0 !! metadataName ∨ ∃ m items, refreshed d0 m items ∧ d !! metadataName = Some (new_metadata m items)).

(** Whatever ends it, the metadata is the old text or the new one with the digests of the
    files that are there, and no other file changes but the temporary one. *)
Lemma RefreshMetadata_atomic d0 : triple (λ w, w = Some d0) (RefreshMetadata quiet marshal unmarshal)
  (λ _ w, ∃ m items, refreshed d0 m items ∧ w = Some (<[metadataName := new_metadata m items]> (delete (metadataName +:+ ".tmp")%string d0)))
  (metadata_whole d0).
Proof.
  set (E := metadata_whole d0). assert (∀ w, w = Some d0 → E w) as HE by (intros w ->; exists d0; auto).
  assert (∀ {A B} (p : prog IOInput (option directory) A) (f : A → prog IOInput (option directory) B) (X : A → Prop) R,
    triple (λ w, w = Some d0) p (λ a w, w = Some d0 ∧ X a) (λ w, w = Some d0) → (∀ a, X a → triple (λ w, w = Some d0) (f a) R E) → triple (λ w, w = Some d0) (p ≫= f) R E) as step.
  { intros A B p f X R Hp Hf. eapply triple_bind; [eapply triple_weaken; [exact Hp|done|intros a w Hw; exact Hw|exact HE]|]. intros a. apply triple_pure, Hf. }
  unfold RefreshMetadata. eapply step; [apply same_observe|]. intros contents _.
  eapply (step _ _ _ _ (λ _, True)); [apply triple_wrapping, triple_lift; auto|]. intros m _.
  eapply (step _ _ _ _ (λ _, True)); [apply triple_lift; auto|]. intros ts _.
  eapply step; [apply same_observe|]. intros _ _.
  eapply (step _ _ _ _ (λ _, True)); [apply triple_lift; auto|]. intros _ _.
  eapply (step _ _ _ _ (refreshed d0 m)); [apply holds_refresh_items|]. intros items Hitems. unfold replace_file.
  set (tmp := (metadataName +:+ ".tmp")%string). set (new := newline_after (marshal (with_artifacts m items))). assert (new_metadata m items = file new) as Hnew by done.
  assert (tmp ≠ metadataName) as Htmp by done.
  assert (∀ c, E (Some (<[tmp := file c]> d0))) as HEtmp.
  { intros c. eexists. split; [done|]. split; [intros p H1 H2; by rewrite lookup_insert_ne|]. left. by rewrite lookup_insert_ne. }
  eapply triple_bind with (Q := λ _ w, w = Some (<[tmp := file new]> d0)).
  { apply holds_change; [intros d d' [= ->] [= <-]; auto| |done]. intros i d [= ->]. unfold written. destruct (io_partial i); auto. }
  intros _. assert (<[metadataName := file new]> (delete tmp (<[tmp := file new]> d0)) = <[metadataName := file new]> (delete tmp d0)) as Hdel by by rewrite delete_insert_eq.
  assert (E (Some (<[metadataName := file new]> (delete tmp d0)))) as HEnew.
  { eexists. split; [done|]. split; [intros p H1 H2; by rewrite lookup_insert_ne, lookup_delete_ne|]. right. exists m, items. split; [done|]. apply lookup_insert_eq. }
  eapply triple_bind with (Q := λ renamed w, match renamed with Some _ => w = Some (<[metadataName := file new]> (delete tmp d0)) | None => E w ∧ (w = Some (<[tmp := file new]> d0) ∨ w = Some (<[metadataName := file new]> (delete tmp d0))) end).
  { eapply triple_attempt with (E' := λ w, w = Some (<[tmp := file new]> d0) ∨ w = Some (<[metadataName := file new]> (delete tmp d0))) (Q' := λ _ w, w = Some (<[metadataName := file new]> (delete tmp d0))).
    - apply holds_change; [|naive_solver..]. intros d d' [= ->]. rewrite lookup_insert_eq. intros [= <-]. rewrite Hdel. auto.
    - done.
    - intros w [->| ->]; auto.
    - intros w [->| ->]; auto. }
  intros [[]|]; [apply triple_ret; intros w ->; by exists m, items|].
  eapply triple_bind with (Q := λ _, E); [|intros _; by apply triple_fail].
  eapply triple_attempt with (E' := E) (Q' := λ _, E); [|done..]. apply holds_change; [|naive_solver..].
  intros d d' [_ [[= ->]|[= ->]]] [= <-]; (split; [|]); rewrite ?delete_insert_eq, ?delete_insert_ne, ?delete_delete_eq by done; auto.
  all: eexists; (split; [done|]); (split; [intros p H1 H2; by rewrite lookup_delete_ne|left; by rewrite lookup_delete_ne]).
Qed.
End build.
