(* ===== verification/AppPackage.v ===== *)
(** * [internal/servicenowpackage]: the ServiceNow application package

    The package that the ServiceNow SDK emits is checked against its own inventory, the values
    that differ from build to build are fixed, the inventory is written anew, and tables, roles
    and resources are compared with those the application is to have.  The zip format and the
    tokens of an XML record are arguments. *)

From S2P Require Import WinRMProtocol Prelude Effects Bytes Text Strconv Sha256 Manifest Outputs.

Definition Scope : string := "x_664635_topo".
Definition AppVersion : string := "0.4.7".
Definition SDKVersion : string := "4.9.0".
Definition ArtifactName : string := "nischoy_topo_servicenow_control_plane_0_4_7.zip".
Definition maxArchiveBytes : Z := 2^26.
Definition maxEntryBytes : Z := 2^23.
Definition maxEntries : Z := 4096.
Definition inventoryName : string := "package_inventory.csv".

Definition expectedTables : list string := (λ t, Scope +:+ t)%string <$>
  ["_credential_access"; "_credential_binding"; "_ire_delivery"; "_profile"; "_result"; "_run"; "_schedule"; "_ssh_credential"; "_target_scope"; "_task"; "_worker"; "_worker_pool"]%string.
Definition expectedRoles : list string := (λ r, Scope +:+ r)%string <$> [".admin"; ".credential_admin"; ".operator"; ".viewer"; ".worker"]%string.
Definition expectedResources : list string :=
  ["POST /claim"; "POST /workers/heartbeat"; "POST /workers/register"; "POST /{id}/complete"; "POST /{id}/credential"; "POST /{id}/renew"; "POST /{id}/results"]%string.

Record AppMetadata := mkAppMetadata {
  App_SchemaVersion : Z; App_Scope : string; App_AppVersion : string; App_SDKVersion : string; App_Artifact : string; App_SHA256 : string;
  App_Entries : Z; App_Tables : list string; App_Roles : list string; App_Resources : list string;
}.

(** The entries of a package: a body for every name. *)
Abbreviation package := (gmap string string).

(** ** Names *)

(** [path.Clean] of a path that has no slash in front *)
Definition clean_part (acc : list string) (part : string) : list string :=
  if String.eqb part "" || String.eqb part "." then acc
  else if String.eqb part ".." then match last acc with Some x => if String.eqb x ".." then acc ++ [part] else removelast acc | None => [part] end
  else acc ++ [part].
Definition clean_relative (name : string) : string :=
  let parts := foldl clean_part [] (split_byte "/"%char name) in if bool_decide (parts = []) then "." else join "/" parts.

Definition entry_name (value : string) : go string :=
  reject contains_byte "\"%char value || contains_byte (byte_of 0) value with "unsafe ServiceNow app package entry %q"%string ;;
  let name := trim_prefix value "/" in
  reject String.eqb name "" || has_prefix name "/" || negb (String.eqb (clean_relative name) name) || has_prefix name "../" || has_suffix name "/"
    with "unsafe ServiceNow app package entry %q"%string ;;
  Ok name.

(** ** Reading *)

(** A file of a zip archive: its name, whether it is a directory, the size its header says,
    and what reading it to its end gives. *)
Record ZipFile := mkZipFile { Zip_Name : string; Zip_IsDir : bool; UncompressedSize : Z; Zip_Body : go string }.

Fixpoint read_files (total : Z) (entries : package) (files : list ZipFile) : go package :=
  match files with
  | [] => Ok entries
  | f :: files =>
    try name := entry_name (Zip_Name f) ;;
    reject bool_decide (is_Some (entries !! name)) with "ServiceNow app package has duplicate entry %q"%string ;;
    reject Zip_IsDir f || (maxEntryBytes <? UncompressedSize f) || (maxArchiveBytes <? (total + UncompressedSize f) mod 2^64) with "ServiceNow app package entry %q exceeds bounds"%string ;;
    try body := Zip_Body f ;;
    let body := limited (maxEntryBytes + 1) body in
    reject (maxEntryBytes <? slen body) || negb (slen body =? UncompressedSize f) with "ServiceNow app package entry %q has an invalid size"%string ;;
    read_files (total + slen body) (<[name := body]> entries) files
  end.

Definition readArchive (unzip : string → go (list ZipFile)) (contents : string) : go package :=
  reject (slen contents <=? 0) || (maxArchiveBytes <? slen contents) with "ServiceNow app package must be a non-empty bounded regular file"%string ;;
  try files := unzip contents ;;
  reject (llen files =? 0) || (maxEntries <? llen files) with "ServiceNow app package must contain 1-%d entries"%string ;;
  read_files 0 ∅ files.

(** ** The inventory *)

Definition inventory_line (entries : package) (headers : gmap string string) (listed : gset string) (line : string) : go (gmap string string * gset string) :=
  if has_prefix line "#" then
    match cut_byte "="%char (trim_prefix line "#") with
    | Some (key, value) =>
      reject String.eqb key "" || negb (String.eqb (default ""%string (headers !! key)) "") with "ServiceNow package inventory has an invalid header"%string ;;
      Ok (<[key := value]> headers, listed)
    | None => Err "ServiceNow package inventory has an invalid header"%string
    end
  else
    match split_byte ";"%char line with
    | [listed_name; digest] =>
      match entry_name listed_name with
      | Ok name =>
        reject String.eqb name inventoryName || bool_decide (name ∈ listed) with "ServiceNow package inventory has an unsafe or duplicate entry"%string ;;
        reject negb (slen digest =? 64) || negb (hex_decodable digest) with "ServiceNow package inventory has an invalid digest"%string ;;
        match entries !! name with
        | Some body => reject negb (String.eqb (sha256_hex body) (to_lower digest)) with "ServiceNow package inventory digest mismatch for %q"%string ;; Ok (headers, {[name]} ∪ listed)
        | None => Err "ServiceNow package inventory references missing entry %q"%string
        end
      | Err _ => Err "ServiceNow package inventory has an unsafe or duplicate entry"%string
      end
    | _ => Err "ServiceNow package inventory has an invalid entry"%string
    end.

Fixpoint inventory_lines (entries : package) (headers : gmap string string) (listed : gset string) (lines : list string) : go (gmap string string * gset string) :=
  match lines with
  | [] => Ok (headers, listed)
  | line :: lines => try next := inventory_line entries headers listed (trim_suffix line (char 13)) ;; inventory_lines entries next.1 next.2 lines
  end.

Definition inventory_headers : list (string * string) := [("build", Scope); ("appVersion", AppVersion); ("type", "scoped"); ("version", "1.0.0")]%string.

Definition validateInventory (entries : package) : go unit :=
  match entries !! inventoryName with
  | None => Err "ServiceNow app package omits package_inventory.csv"%string
  | Some body =>
    let '(lines, long) := scan_lines maxEntryBytes body in
    try read := inventory_lines entries ∅ ∅ lines ;;
    reject long with "read ServiceNow package inventory: %w"%string ;;
    reject existsb (λ h, negb (String.eqb (default ""%string (read.1 !! h.1)) h.2)) inventory_headers with "ServiceNow package inventory %s = %q, want %q"%string ;;
    reject negb (Z.of_nat (size read.2) =? Z.of_nat (size entries) - 1) with "ServiceNow package inventory does not cover every entry"%string ;;
    Ok tt
  end.

Definition inventory_text (entries : package) : string :=
  let names := sort_by str_lt (base.filter (λ name, name ≠ inventoryName) (map_to_list entries).*1) in
  lines_text (((λ h, "#" +:+ h.1 +:+ "=" +:+ h.2)%string <$> inventory_headers) ++ ((λ name, name +:+ ";" +:+ sha256_hex (default "" (entries !! name)))%string <$> names)).
Definition rewriteInventory (entries : package) : package := <[inventoryName := inventory_text entries]> entries.

(** ** The generated bill of materials *)

(** The matches of a pattern from left to right: [m] is the length of the match that begins a
    text, and the pattern matches no empty text. *)
Fixpoint count_matches (m : string → option nat) (skip : nat) (s : string) : nat :=
  match s with
  | EmptyString => O
  | String _ s' =>
    match skip with
    | S skip => count_matches m skip s'
    | O => match m s with Some n => S (count_matches m (n - 1) s') | None => count_matches m O s' end
    end
  end.
Fixpoint replace_matches (m : string → option nat) (new : string) (skip : nat) (s : string) : string :=
  match s with
  | EmptyString => EmptyString
  | String c s' =>
    match skip with
    | S skip => replace_matches m new skip s'
    | O => match m s with Some n => new +:+ replace_matches m new (n - 1) s' | None => String c (replace_matches m new O s') end
    end
  end%string.

Fixpoint prefix_length (f : ascii → bool) (s : string) : nat :=
  match s with String c s => if f c then S (prefix_length f s) else O | EmptyString => O end.

Definition serial_prefix : string := quoted "serialNumber" +:+ ": " +:+ dquote +:+ "urn:uuid:".
Definition timestamp_prefix : string := quoted "timestamp" +:+ ": " +:+ dquote.
Definition serial_byte (c : ascii) : bool := is_hex c || Ascii.eqb c "-"%char.
Definition timestamp_byte (c : ascii) : bool := is_digit c || bool_decide (c ∈ ["T"; "Z"; ":"; "."; "-"]%char).

(** [bomSerialPattern]: 36 hexadecimal digits or dashes and a quote; [bomTimestampPattern]. *)
Definition match_serial (s : string) : option nat :=
  match cut_prefix s serial_prefix with
  | Some rest => if (36 <=? prefix_length serial_byte rest)%nat && has_prefix (drop_string 36 rest) dquote then Some (String.length serial_prefix + 37)%nat else None
  | None => None
  end.
Definition match_timestamp (s : string) : option nat :=
  match cut_prefix s timestamp_prefix with
  | Some rest =>
    let n := prefix_length timestamp_byte rest in
    if (1 <=? n)%nat && has_prefix (drop_string n rest) dquote then Some (String.length timestamp_prefix + n + 1)%nat else None
  | None => None
  end.

Definition deterministicBOMUUID : string :=
  let set_bits (i : nat) (mask bits : Z) (l : list Z) := alter (λ b, Z.lor (Z.land b mask) bits) i l in
  let digest := set_bits 8%nat 63 128 (set_bits 6%nat 15 80 (Sum256 (bytes_of (Scope +:+ ":" +:+ AppVersion +:+ ":bom")))) in
  let value := hex_encode (take 16 digest) in
  let part (from to : nat) := take_string (to - from) (drop_string from value) in
  join "-" [part 0 8; part 8 12; part 12 16; part 16 20; part 20 32]%nat.

Definition bom_path : string := "<path>" +:+ Scope +:+ "/@nischoy/topo-servicenow-control-plane/" +:+ AppVersion +:+ "/bom.json</path>".
Definition is_bom (e : string * string) : bool := has_prefix e.1 "update/sys_module_" && bool_decide (is_Some (Cut bom_path e.2)).

Definition normalize_bom (body : string) : string :=
  let body := replace_matches match_serial (serial_prefix +:+ deterministicBOMUUID +:+ dquote) 0 body in
  replace_matches match_timestamp (timestamp_prefix +:+ "1980-01-01T00:00:00.000Z" +:+ dquote) 0 body.

Definition normalizeGeneratedBOM (entries : package) : go package :=
  match base.filter (λ e, is_bom e) (map_to_list entries) with
  | [] => Err "ServiceNow app package omits the generated BOM record"%string
  | [(name, body)] =>
    reject negb (count_matches match_serial 0 body =? 1)%nat || negb (count_matches match_timestamp 0 body =? 1)%nat with "ServiceNow generated BOM has an unexpected serial or timestamp contract"%string ;;
    Ok (<[name := normalize_bom body]> entries)
  | _ => Err "ServiceNow app package contains multiple generated BOM records"%string
  end.

(** ** The contract *)

(** [inside]: the element being decoded, the elements open in it, and its text so far. *)
Fixpoint xml_fields (s : xml_stream) (wanted : list string) (inside : option (string * nat * string)) (values : gmap string string) (ts : list xml_token) : go (gmap string string) :=
  match ts, inside with
  | [], Some _ => Err (cut_short s)
  | [], None => match stream_error s with Some e => Err e | None => Ok values end
  | StartElement name _ :: ts, None =>
    if bool_decide (Local name ∈ wanted) && String.eqb (default ""%string (values !! Local name)) "" then xml_fields s wanted (Some (Local name, O, ""%string)) values ts
    else xml_fields s wanted None values ts
  | _ :: ts, None => xml_fields s wanted None values ts
  | StartElement _ _ :: ts, Some (n, depth, text) => xml_fields s wanted (Some (n, S depth, text)) values ts
  | EndElement _ :: ts, Some (n, O, text) => xml_fields s wanted None (<[n := trim_space text]> values) ts
  | EndElement _ :: ts, Some (n, S depth, text) => xml_fields s wanted (Some (n, depth, text)) values ts
  | CharData d :: ts, Some (n, O, text) => xml_fields s wanted (Some (n, O, text +:+ d)) values ts
  | _ :: ts, Some _ => xml_fields s wanted inside values ts
  end%string.

Section contract.
Context (tokens : string → xml_stream).

Definition xmlFields (body : string) (names : list string) : go (gmap string string) := xml_fields (tokens body) names None ∅ (stream_tokens (tokens body)).
Definition field (values : gmap string string) (name : string) : string := default ""%string (values !! name).

Record Contract := mkContract { C_tables : list string; C_roles : list string; C_resources : list string; C_scopes : list string }.

Definition contract_entry (c : Contract) (e : string * string) : go Contract :=
  let '(name, body) := e in
  if has_prefix name "dictionary/" && has_suffix name ".xml" then
    Ok (mkContract (C_tables c ++ [trim_suffix (trim_prefix name "dictionary/") ".xml"]) (C_roles c) (C_resources c) (C_scopes c))
  else if has_prefix name "update/sys_user_role_" && negb (has_prefix name "update/sys_user_role_contains_") then
    match xmlFields body ["name"]%string with
    | Ok values => reject String.eqb (field values "name") "" with "parse ServiceNow role %q"%string ;;
                   Ok (mkContract (C_tables c) (C_roles c ++ [field values "name"]) (C_resources c) (C_scopes c))
    | Err _ => Err "parse ServiceNow role %q"%string
    end
  else if has_prefix name "update/sys_ws_operation_" then
    match xmlFields body ["active"; "http_method"; "relative_path"]%string with
    | Ok values =>
      reject negb (String.eqb (field values "active") "true") || String.eqb (field values "http_method") "" || String.eqb (field values "relative_path") ""
        with "parse active ServiceNow worker resource %q"%string ;;
      Ok (mkContract (C_tables c) (C_roles c) (C_resources c ++ [field values "http_method" +:+ " " +:+ field values "relative_path"]%string) (C_scopes c))
    | Err _ => Err "parse active ServiceNow worker resource %q"%string
    end
  else if has_prefix name "scope/sys_app_" then Ok (mkContract (C_tables c) (C_roles c) (C_resources c) (C_scopes c ++ [body]))
  else Ok c.

Fixpoint contract_entries (c : Contract) (es : list (string * string)) : go Contract :=
  match es with [] => Ok c | e :: es => try c := contract_entry c e ;; contract_entries c es end.

(** The entries in the order in which the map is ranged over. *)
Definition validateContract (es : list (string * string)) : go unit :=
  try c := contract_entries (mkContract [] [] [] []) es ;;
  reject negb (bool_decide (sort_by str_lt (C_tables c) = expectedTables)) with "ServiceNow app tables = %v, want %v"%string ;;
  reject negb (bool_decide (sort_by str_lt (C_roles c) = expectedRoles)) with "ServiceNow app roles = %v, want %v"%string ;;
  reject negb (bool_decide (sort_by str_lt (C_resources c) = expectedResources)) with "ServiceNow worker resources = %v, want %v"%string ;;
  match C_scopes c with
  | [body] =>
    match xmlFields body ["name"; "scope"; "version"]%string with
    | Ok values =>
      reject negb (String.eqb (field values "name") "Nischoy Topo") || negb (String.eqb (field values "scope") Scope) || negb (String.eqb (field values "version") AppVersion)
        with "unexpected ServiceNow app identity name=%q scope=%q version=%q"%string ;; Ok tt
    | Err _ => Err "parse ServiceNow scope record: %w"%string
    end
  | _ => Err "ServiceNow app package must contain exactly one scope record"%string
  end.

(** [writeArchive] gives the zip format the names in order, with a slash in front. *)
Definition archive_order (entries : package) : list (string * string) :=
  (λ name, ("/" +:+ name, default "" (entries !! name)))%string <$> sort_by str_lt (map_to_list entries).*1.

Definition app_metadata (entries : package) (digest : string) : AppMetadata :=
  mkAppMetadata 1 Scope AppVersion SDKVersion ArtifactName digest (Z.of_nat (size entries)) expectedTables expectedRoles expectedResources.

(** What [Normalize] writes and reports; [order] is how the map is ranged over. *)
Definition normalized (unzip : string → go (list ZipFile)) (order : package → list (string * string)) (contents : string) : go package :=
  try entries := readArchive unzip contents ;;
  try _ := validateInventory entries ;;
  try entries := normalizeGeneratedBOM entries ;;
  let entries := rewriteInventory entries in
  try _ := validateContract (order entries) ;;
  Ok entries.

Context (quiet : IOInput) (zip : list (string * string) → string).

(** [writeArchive] creates the file, and removes it when writing it fails. *)
Definition writeArchive (output : string) (entries : package) : prog IOInput (option directory) unit :=
  _ ← observe quiet "create normalized ServiceNow app package: %w" (λ d, if d !! output is Some _ then Err "create normalized ServiceNow app package: %w"%string else Ok tt);
  done ← attempt (create quiet "write" output (zip (archive_order entries)));
  match done with
  | Some _ => mret tt
  | None => _ ← attempt (remove quiet output); lift (Err "write normalized ServiceNow app entry %q: %w"%string)
  end.

Definition Normalize (unzip : string → go (list ZipFile)) (order : package → list (string * string)) (input : string) (output : string) : prog IOInput (option directory) AppMetadata :=
  contents ← observe quiet "inspect ServiceNow app package: %w" (λ d, file_contents "ServiceNow app package must be a non-empty bounded regular file" d input);
  entries ← lift (normalized unzip order contents);
  _ ← writeArchive output entries;
  digest ← attempt (observe quiet "open" (λ d, file_contents "open" d output));
  match digest with
  | Some written => mret (app_metadata entries (sha256_hex (limited (maxArchiveBytes + 1) written)))
  | None => _ ← attempt (remove quiet output); lift (Err "open"%string)
  end.
End contract.

(** ** The inventory that is written is the one that is accepted *)

(** A name that an inventory line can hold. *)
Definition inventory_name (name : string) : Prop :=
  entry_name name = Ok name ∧ free_of LF name ∧ free_of (byte_of 13) name ∧ free_of ";"%char name ∧ has_prefix name "#" = false ∧ slen name < 2^20.

Lemma trim_suffix_cr line : free_of (byte_of 13) line → trim_suffix line (char 13) = line.
Proof.
  intros H. unfold trim_suffix. destruct (has_suffix line (char 13)) eqn:Hs; [|done]. unfold has_suffix in Hs. apply andb_true_iff in Hs as [Hl%Nat.leb_le He%String.eqb_eq].
  rewrite (take_drop_string (String.length line - String.length (char 13)) line), He in H. apply free_of_app in H as [_ H]. by vm_compute in H.
Qed.

Lemma to_lower_hex s : string_all (λ c, negb (is_upper c)) s = true → to_lower s = s.
Proof.
  induction s as [|c s IH]; cbn [string_all to_lower]; [done|]. intros [Hc Hs]%andb_true_iff. rewrite IH by done. unfold lower_byte. apply negb_true_iff in Hc. by rewrite Hc.
Qed.

Lemma hex_lower s : to_lower (sha256_hex s) = sha256_hex s.
Proof.
  apply to_lower_hex. unfold sha256_hex. apply hex_encode_bytes; [|apply Sum256_range]. intros d Hd. apply negb_true_iff. unfold is_upper, in_range, hex_digit.
  destruct (Z.ltb_spec d 10); rewrite byte_val_of by lia; apply andb_false_iff; [left|right]; apply Z.leb_gt; lia.
Qed.

Section inventory.
Context (entries : package).

Definition digest_line (name : string) : string := (name +:+ ";" +:+ sha256_hex (default "" (entries !! name)))%string.

Lemma inventory_line_reads headers listed name body :
  inventory_name name → name ≠ inventoryName → name ∉ listed → entries !! name = Some body →
  inventory_line entries headers listed (trim_suffix (digest_line name) (char 13)) = Ok (headers, {[name]} ∪ listed).
Proof.
  intros (Hn&Hlf&Hcr&Hsemi&Hhash&_) Hne Hl Hb. destruct (sha256_digest_text (default ""%string (entries !! name))) as (Hlen&Hhex&Hdec).
  rewrite trim_suffix_cr; [|unfold digest_line; rewrite !free_of_app; split_and!; [done|done|by apply (free_of_all is_hex)]].
  unfold inventory_line, digest_line. destruct name as [|c name]; [done|].
  assert (has_prefix (String c name +:+ ";" +:+ sha256_hex (default "" (entries !! String c name))) "#" = false) as ->.
  { revert Hhash. unfold has_prefix. rewrite string_app_cons. cbn [String.prefix]. destruct (Ascii.ascii_dec "#"%char c); [|done]. by destruct name. }
  change (";" +:+ ?t)%string with (String ";"%char t). rewrite split_byte_app by done. rewrite split_byte_free by by apply (free_of_all is_hex). rewrite Hn.
  destruct (String.eqb_spec (String c name) inventoryName); [done|]. rewrite bool_decide_false by done. cbn [orb]. rewrite Hlen, Hdec, Hb. cbn [negb orb default]. by rewrite hex_lower, String.eqb_refl.
Qed.

Lemma inventory_lines_read headers listed names :
  Forall (λ name, inventory_name name ∧ name ≠ inventoryName ∧ is_Some (entries !! name)) names → NoDup names → (∀ name, name ∈ names → name ∉ listed) →
  inventory_lines entries headers listed (digest_line <$> names) = Ok (headers, list_to_set names ∪ listed).
Proof.
  intros Hall. revert listed. induction Hall as [|name names (Hn&Hne&body&Hb) _ IH]; intros listed Hnd Hl; cbn [fmap list_fmap inventory_lines].
  { f_equal. f_equal. set_solver. }
  apply NoDup_cons in Hnd as [Hni Hnd]. rewrite (inventory_line_reads headers listed name body) by set_solver. cbn [fst snd]. rewrite IH; [|done|set_solver]. do 2 f_equal. set_solver.
Qed.
End inventory.

Definition header_line (h : string * string) : string := ("#" +:+ h.1 +:+ "=" +:+ h.2)%string.

Lemma header_line_reads entries headers listed h :
  h.1 ≠ ""%string → free_of "="%char h.1 → free_of (byte_of 13) (header_line h) → headers !! h.1 = None →
  inventory_line entries headers listed (trim_suffix (header_line h) (char 13)) = Ok (<[h.1 := h.2]> headers, listed).
Proof.
  destruct h as [k v]. cbn [fst snd]. intros Hk Heq Hcr Hn. rewrite trim_suffix_cr by done. unfold inventory_line, header_line. cbn [fst snd].
  rewrite has_prefix_text. unfold trim_prefix. rewrite cut_prefix_text. cbn [from_option id].
  change ("=" +:+ v)%string with (String "="%char v). rewrite cut_byte_app by done. apply String.eqb_neq in Hk. by rewrite Hk, Hn.
Qed.

Lemma header_lines_read entries rest : inventory_lines entries ∅ ∅ ((header_line <$> inventory_headers) ++ rest) = inventory_lines entries (list_to_map (reverse inventory_headers)) ∅ rest.
Proof. unfold inventory_headers. cbn [fmap list_fmap app inventory_lines]. by do 4 (rewrite header_line_reads by done; cbn [fst snd]). Qed.

Lemma rewriteInventory_validates (entries : package) :
  is_Some (entries !! inventoryName) → (∀ name, is_Some (entries !! name) → name ≠ inventoryName → inventory_name name) →
  validateInventory (rewriteInventory entries) = Ok tt.
Proof.
  intros Hinv Hnames. unfold rewriteInventory, validateInventory. rewrite lookup_insert_eq. unfold inventory_text.
  set (names := sort_by str_lt _). set (e' := <[inventoryName := _]> entries).
  assert (∀ name, name ∈ names ↔ is_Some (entries !! name) ∧ name ≠ inventoryName) as Hin.
  { intros name. unfold names. rewrite sort_by_perm, list_elem_of_filter, list_elem_of_fmap. setoid_rewrite elem_of_map_to_list'. split.
    - intros (Hne&[n b]&->&Hb). by split; [eexists|].
    - intros ([b Hb]&Hne). split; [done|]. by exists (name, b). }
  assert (NoDup names) as Hnd by (unfold names; rewrite sort_by_perm; apply NoDup_filter, NoDup_fst_map_to_list).
  assert (((λ name, name +:+ ";" +:+ sha256_hex (default "" (entries !! name)))%string <$> names) = digest_line e' <$> names) as ->.
  { apply list_fmap_ext. intros i name Hi%list_elem_of_lookup_2%Hin. unfold digest_line, e'. by rewrite lookup_insert_ne by naive_solver. }
  change ((λ h, ("#" +:+ h.1 +:+ "=" +:+ h.2)%string) <$> inventory_headers) with (header_line <$> inventory_headers). rewrite scan_lines_text.
  2:{ apply Forall_app. split; [repeat constructor|]. apply Forall_fmap, Forall_forall. intros name [Hs Hne]%Hin. destruct (Hnames name Hs Hne) as (_&Hlf&Hcr&_&_&Hlen). change (plain_line maxEntryBytes (digest_line e' name)).
      destruct (sha256_digest_text (default ""%string (e' !! name))) as (Hl&Hhex&_). unfold plain_line, digest_line. rewrite !free_of_app, !slen_app, Hl. change (slen ";") with 1. unfold maxEntryBytes.
      split_and!; try done; try (by apply (free_of_all is_hex)); lia. }
  rewrite header_lines_read, inventory_lines_read.
  - cbn [fst snd]. change (existsb _ inventory_headers) with false. cbv beta iota. rewrite union_empty_r_L, size_list_to_set by done.
    assert (Z.of_nat (length names) = Z.of_nat (size e') - 1) as ->; [|by rewrite Z.eqb_refl].
    unfold e'. rewrite map_size_insert_Some by done. rewrite <-(size_list_to_set (C := gset string)) by done.
    assert (list_to_set names = dom entries ∖ {[inventoryName]}) as -> by (apply set_eq; intros name; rewrite elem_of_list_to_set, Hin, elem_of_difference, elem_of_dom, not_elem_of_singleton; done).
    rewrite size_difference by (apply singleton_subseteq_l, elem_of_dom, Hinv). rewrite size_singleton, size_dom.
    destruct Hinv as [inventory Hi]. pose proof (map_size_ne_0_lookup_2 entries inventoryName ltac:(by eexists)). lia.
  - apply Forall_forall. intros name [Hs Hne]%Hin. split; [by apply Hnames|]. split; [done|]. unfold e'. by rewrite lookup_insert_ne by naive_solver.
  - done.
  - set_solver.
Qed.

(** ** What [Normalize] keeps *)

(** A package that is accepted differs from the one read in its inventory and, in the one
    generated bill of materials, in the serial number and the timestamp. *)
Lemma normalized_spec tokens unzip order contents entries :
  normalized tokens unzip order contents = Ok entries →
  ∃ source name body, readArchive unzip contents = Ok source ∧ validateInventory source = Ok tt ∧ is_bom (name, body) = true ∧ source !! name = Some body ∧
    entries = rewriteInventory (<[name := normalize_bom body]> source) ∧ validateContract tokens (order entries) = Ok tt.
Proof.
  unfold normalized. destruct (readArchive unzip contents) as [source|] eqn:Hr; [|done]. cbn. destruct (validateInventory source) as [[]|] eqn:Hv; [|done]. cbn.
  unfold normalizeGeneratedBOM. destruct (base.filter (λ e, is_bom e) (map_to_list source)) as [|[name body] [|? ?]] eqn:Hb; [done| |done].
  assert ((name, body) ∈ base.filter (λ e, is_bom e) (map_to_list source)) as [Hbom Hin%elem_of_map_to_list]%list_elem_of_filter by (rewrite Hb; by left).
  destruct (_ || _); [done|]. cbn. destruct (validateContract tokens _) as [[]|] eqn:Hc; [|done]. intros [= <-]. exists source, name, body. split_and!; try done. by apply Is_true_true.
Qed.

(** An entry whose name begins with [#] passes the check when the inventory lists it with a
    slash in front; the inventory that is written then lists it as a header. *)
Definition hash_package : package :=
  {["#a"%string := "x"%string; inventoryName := lines_text ((header_line <$> inventory_headers) ++ ["/#a;" +:+ sha256_hex "x"]%string)]}.
Lemma hash_name_breaks_inventory : validateInventory hash_package = Ok tt ∧ ∃ e, validateInventory (rewriteInventory hash_package) = Err e.
Proof. split; [by vm_compute|]. eexists. by vm_compute. Qed.
