(* ===== verification/Packages.v ===== *)
(** * [internal/packagebuild]: packages from the raw archives

    The package builder, the archive formats, the encodings and [strconv.Quote] are arguments. *)

From S2P Require Import Prelude Effects Bytes Text Strconv Sha256 Manifest Outputs Release AppPackage.

Definition nfpmVersion : string := "2.47.0".
Definition maxFileSize : Z := 2^29.

(** ** Metadata *)

Record PackageArtifact := mkPackageArtifact {
  PA_Filename : string; PA_Format : string; PA_Architecture : string; SourceArchive : string; SourceBinarySHA256 : string; ArtifactSHA256 : string;
}.
Record PackageMetadata := mkPackageMetadata {
  PM_Profile : string; PM_SchemaVersion : Z; PM_Version : string; PM_Commit : string; Assembler : gmap string string; PM_Artifacts : list PackageArtifact;
}.
(** What is read of [release-metadata.json] *)
Record RawMetadata := mkRawMetadata { RM_Profile : string; RM_Version : string; RM_Commit : string; RM_Artifacts : list Artifact }.

(** ** Text *)

Fixpoint replace_from (skip : nat) (old new s : string) : string :=
  match s with
  | EmptyString => EmptyString
  | String c s' =>
    match skip with
    | S skip => replace_from skip old new s'
    | O => if has_prefix s old then new +:+ replace_from (String.length old - 1) old new s' else String c (replace_from O old new s')
    end
  end%string.
(** [strings.ReplaceAll] of a text that is not empty *)
Definition ReplaceAll (s old new : string) : string := replace_from 0 old new s.
Definition contains (s sub : string) : bool := bool_decide (is_Some (Cut sub s)).

(** [filepath.Clean] *)
Definition clean_step (rooted : bool) (acc : list string) (part : string) : list string :=
  if String.eqb part "" || String.eqb part "." then acc
  else if String.eqb part ".." then
    match last acc with
    | Some x => if String.eqb x ".." then acc ++ [part] else removelast acc
    | None => if rooted then [] else [part]
    end
  else acc ++ [part].
Definition CleanPath (path : string) : string :=
  let rooted := has_prefix path "/" in
  let parts := foldl (clean_step rooted) [] (split_byte "/"%char path) in
  if rooted then ("/" +:+ join "/" parts)%string else if bool_decide (parts = []) then "." else join "/" parts.

Definition pathUnsafe (name : string) : bool :=
  let clean := CleanPath name in
  String.eqb clean "." || has_prefix clean "../" || has_prefix clean "/" || contains_byte "\"%char name.

Example unsafe_paths : (pathUnsafe "a/../../b", pathUnsafe "/etc/passwd", pathUnsafe "./topo_1/topo", pathUnsafe "a/..") = (true, true, false, true).
Proof. vm_compute. reflexivity. Qed.

Definition linuxPackageName (version arch format : string) : string :=
  if String.eqb format "rpm" then
    let rpmArch := if String.eqb arch "amd64" then "x86_64" else if String.eqb arch "arm64" then "aarch64" else "" in
    ("topo-" +:+ version +:+ "-1." +:+ rpmArch +:+ ".rpm")%string
  else ("topo_" +:+ version +:+ "_" +:+ arch +:+ ".deb")%string.

(** ** Reading *)

(** [fileSHA256], and [copyRegularFile] as what it reads *)
Definition bounded_file (text : string) (d : directory) (path : string) : go string :=
  match d !! path with
  | Some (file contents) => reject maxFileSize <? slen contents with text ;; Ok contents
  | Some _ => Err text
  | None => Err "no such file or directory"%string
  end.
Definition raw_digest (d : directory) (path : string) : go string :=
  try contents := bounded_file "artifact %s is not a bounded regular file" d path ;; Ok (sha256_hex contents).

(** An entry of a tar archive, with what copying [header.Size] bytes of it gives. *)
Record TarEntry := mkTarEntry { Tar_Name : string; Tar_Regular : bool; Tar_Size : Z; Tar_Body : go string }.

Fixpoint extract_entries (binaryName : string) (found : option string) (entries : list TarEntry) : go (option string) :=
  match entries with
  | [] => Ok found
  | e :: entries =>
    reject pathUnsafe (Tar_Name e) with "unsafe archive entry %q"%string ;;
    if negb (String.eqb (Base (Tar_Name e)) binaryName) then extract_entries binaryName found entries
    else
      reject bool_decide (is_Some found) || negb (Tar_Regular e) || (Tar_Size e <? 1) || (maxFileSize <? Tar_Size e) with "invalid duplicate or non-regular %s payload"%string ;;
      try body := Tar_Body e ;;
      extract_entries binaryName (Some body) entries
  end.

(** [untar]: the entries of a gzip archive and the error that ends them, if it is not the end. *)
Definition extractRawBinary (untar : string → go (list TarEntry * option string)) (d : directory) (archive binaryName : string) : go string :=
  try contents := file_contents "open" d archive ;;
  try read := untar (limited maxFileSize contents) ;;
  try found := extract_entries binaryName None read.1 ;;
  match read.2, found with
  | Some e, _ => Err e
  | None, Some body => Ok body
  | None, None => Err ("archive does not contain " +:+ binaryName)%string
  end.

Definition readPayloadChecksum (d : directory) (path : string) : go string :=
  try contents := file_contents "read package payload checksum: %w" d path ;;
  match Fields contents with
  | [digest; name] =>
    reject negb (slen digest =? 64) || (negb (String.eqb name "topo") && negb (String.eqb name "topo.exe")) with "invalid package payload checksum %s"%string ;;
    reject negb (hex_decodable digest) with "invalid package payload digest %s"%string ;;
    Ok digest
  | _ => Err "invalid package payload checksum %s"%string
  end.
Definition payload_text (digest : string) : string := (digest +:+ "  topo" +:+ String LF "")%string.

(** The artifacts must be those of the targets, each once. *)
Fixpoint match_targets (expected : gmap string Target) (artifacts : list Artifact) : go unit :=
  match artifacts with
  | [] => Ok tt
  | a :: artifacts =>
    match expected !! Filename a with
    | Some t => if String.eqb (GOOS t) (Artifact_GOOS a) && String.eqb (GOARCH t) (Artifact_GOARCH a) then match_targets (delete (Filename a) expected) artifacts
                else Err "raw artifact does not match the release profile"%string
    | None => Err "raw artifact does not match the release profile"%string
    end
  end.

Definition matching_digest (d : directory) (name digest : string) : go string :=
  try actual := raw_digest d name ;;
  reject negb (String.eqb actual digest) with ("checksum mismatch for " +:+ name)%string ;;
  Ok digest.

Definition verifyRawArtifacts (parse : string → go RawMetadata) (d : directory) (version : string) : go (RawMetadata * list (string * string)) :=
  try data := file_contents "read release metadata: %w" d metadataName ;;
  try metadata := parse data ;;
  reject negb (String.eqb (RM_Version metadata) version) with "release metadata version %q does not match %q"%string ;;
  try ts := TargetsForProfile (RM_Profile metadata) version ;;
  try _ := CheckProfileFiles d (RM_Profile metadata) version ;;
  reject negb (llen (RM_Artifacts metadata) =? llen ts) with "release metadata must contain %d raw artifacts, got %d"%string ;;
  try _ := match_targets (expected_targets version ts) (RM_Artifacts metadata) ;;
  try text := file_contents "open raw checksum manifest: %w" d "SHA256SUMS" ;;
  try entries := read_manifest safeBaseName (matching_digest d) text ;;
  let seen : gmap string string := list_to_map entries in
  reject existsb (λ a, negb (String.eqb (default ""%string (seen !! Filename a)) (SHA256 a))) (RM_Artifacts metadata) with "metadata/checksum disagreement for %s"%string ;;
  reject bool_decide (seen !! metadataName = None) with "raw checksums omit release-metadata.json"%string ;;
  Ok (metadata, sort_by (less_on fst str_lt) entries).

(** ** The checksum manifest *)

Fixpoint finalize_names (d : directory) (names : list string) : go (list string) :=
  match names with
  | [] => Ok []
  | name :: names =>
    if bool_decide (d !! name = Some folder) || String.eqb name "SHA256SUMS" || has_suffix name ".payload.sha256" then finalize_names d names
    else
      reject negb (safeBaseName name) with "unsafe artifact filename %q"%string ;;
      match d !! name with
      | Some (file _) => try l := finalize_names d names ;; Ok (name :: l)
      | _ => Err ("artifact " +:+ name +:+ " is not a regular file")%string
      end
  end.

(** ** Metadata of the packages *)

(** The artifacts [RefreshPackageMetadata] looks for. *)
Definition package_items (version : string) : list (string * string * string * string) := [
  ("topo_" +:+ version +:+ "_amd64.deb", "deb", "amd64", "topo_" +:+ version +:+ "_linux_amd64.tar.gz");
  ("topo_" +:+ version +:+ "_arm64.deb", "deb", "arm64", "topo_" +:+ version +:+ "_linux_arm64.tar.gz");
  ("topo-" +:+ version +:+ "-1.x86_64.rpm", "rpm", "amd64", "topo_" +:+ version +:+ "_linux_amd64.tar.gz");
  ("topo-" +:+ version +:+ "-1.aarch64.rpm", "rpm", "arm64", "topo_" +:+ version +:+ "_linux_arm64.tar.gz");
  ("topo_" +:+ version +:+ "_windows_amd64.msi", "msi", "amd64", "topo_" +:+ version +:+ "_windows_amd64.zip");
  ("topo_" +:+ version +:+ "_windows_arm64.msi", "msi", "arm64", "topo_" +:+ version +:+ "_windows_arm64.zip");
  ("topo-" +:+ version +:+ ".tgz", "helm", "", "");
  ("topo_" +:+ version +:+ "_offline.tar.gz", "offline", "", "")]%string.

Definition has_payload (format : string) : bool := String.eqb format "deb" || String.eqb format "rpm" || String.eqb format "msi".

Fixpoint collect_items (d : directory) (m : PackageMetadata) (items : list (string * string * string * string)) : go PackageMetadata :=
  match items with
  | [] => Ok m
  | (name, format, arch, source) :: items =>
    match d !! name with
    | None => collect_items d m items
    | Some _ =>
      try digest := raw_digest d name ;;
      try payload := (if has_payload format then readPayloadChecksum d (name +:+ ".payload.sha256")%string else Ok ""%string) ;;
      let assembler := if String.eqb format "msi" then <["wix"%string := "6.0.2"%string]> (Assembler m) else Assembler m in
      collect_items d (mkPackageMetadata (PM_Profile m) (PM_SchemaVersion m) (PM_Version m) (PM_Commit m) assembler
                         (PM_Artifacts m ++ [mkPackageArtifact name format arch source payload digest])) items
    end
  end.

Definition app_matches (app : AppMetadata) (digest : string) : bool :=
  (App_SchemaVersion app =? 1) && String.eqb (App_Scope app) Scope && String.eqb (App_AppVersion app) AppVersion && String.eqb (App_SDKVersion app) SDKVersion
  && String.eqb (App_Artifact app) ArtifactName && String.eqb (App_SHA256 app) digest.
Definition app_metadata_name : string := "servicenow-app-metadata.json".

Definition collect_app (parse_app : string → go AppMetadata) (d : directory) (m : PackageMetadata) : go PackageMetadata :=
  match d !! ArtifactName, d !! app_metadata_name with
  | Some _, _ =>
    try contents := file_contents "read ServiceNow app metadata: %w" d app_metadata_name ;;
    try app := parse_app contents ;;
    try digest := raw_digest d ArtifactName ;;
    reject negb (app_matches app digest) with "ServiceNow app metadata does not match the validated release artifact"%string ;;
    Ok (mkPackageMetadata (PM_Profile m) (PM_SchemaVersion m) (PM_Version m) (PM_Commit m) (<["servicenow-sdk"%string := SDKVersion]> (Assembler m))
          (PM_Artifacts m ++ [mkPackageArtifact ArtifactName "servicenow-app" "" "" "" digest]))
  | None, Some _ => Err "ServiceNow app metadata exists without its release artifact"%string
  | None, None => Ok m
  end.

Definition sort_artifacts (m : PackageMetadata) : PackageMetadata :=
  mkPackageMetadata (PM_Profile m) (PM_SchemaVersion m) (PM_Version m) (PM_Commit m) (Assembler m) (sort_by (less_on PA_Filename str_lt) (PM_Artifacts m)).

Definition refreshed_packages (parse : string → go RawMetadata) (parse_app : string → go AppMetadata) (d : directory) : go PackageMetadata :=
  try contents := file_contents "read release metadata: %w" d metadataName ;;
  try source := parse contents ;;
  try _ := CheckProfileFiles d (RM_Profile source) (RM_Version source) ;;
  try m := collect_items d (mkPackageMetadata (RM_Profile source) 1 (RM_Version source) (RM_Commit source) {["nfpm"%string := nfpmVersion]} [])
             (package_items (trim_prefix (RM_Version source) "v")) ;;
  collect_app parse_app d m.

(** ** The configuration of the package builder *)

(** The placeholders with their values, in the order in which the map is ranged over. *)
Fixpoint configure (configured : string) (replacements : list (string * string)) : go string :=
  match replacements with
  | [] => Ok configured
  | (placeholder, value) :: replacements =>
    reject negb (contains configured placeholder) with "nFPM configuration omits placeholder %s"%string ;;
    configure (ReplaceAll configured placeholder value) replacements
  end.
Definition placeholder (name : string) : string := (dquote +:+ "${" +:+ name +:+ "}" +:+ dquote)%string.

(** ** The chart and the offline bundle *)

Definition under (prefix : string) (d : directory) : list (string * entry) :=
  base.filter (λ e, has_prefix e.1 prefix) (map_to_list d).
Definition chart_dir : string := "packaging/helm/topo/".

Definition chart_contents (version name contents : string) : string :=
  if String.eqb name "topo/Chart.yaml" then
    ReplaceAll (ReplaceAll contents "0.0.0-dev" (trim_prefix version "v")) ("appVersion: " +:+ dquote +:+ "dev" +:+ dquote) ("appVersion: " +:+ dquote +:+ version +:+ dquote)
  else contents%string.
Fixpoint chart_files (version : string) (es : list (string * entry)) : go (list ArchiveFile) :=
  match es with
  | [] => Ok []
  | (path, e) :: es =>
    match e with
    | folder => chart_files version es
    | irregular => Err ("enumerate Helm chart: chart input " +:+ path +:+ " is not a regular file")%string
    | file contents =>
      let name := ("topo/" +:+ trim_prefix path chart_dir)%string in
      try l := chart_files version es ;; Ok (mkArchiveFile name (chart_contents version name contents) 420 :: l)
    end
  end.

Fixpoint bundle_files (d : directory) (top output : string) (names : list string) : go (list (string * string)) :=
  match names with
  | [] => Ok []
  | name :: names =>
    if bool_decide (d !! name = Some folder) || has_suffix name ".payload.sha256" || String.eqb name output then bundle_files d top output names
    else
      reject negb (safeBaseName name) with "unsafe artifact filename %q"%string ;;
      try l := bundle_files d top output names ;; Ok ((top +:+ "/artifacts/" +:+ name, name)%string :: l)
  end.
Definition bundle_documents : list string := ["LICENSE"; "README.md"; "docs/packages.md"; "docs/pilot-quickstart.md"; "docs/releases.md"; "docs/storage.md"]%string.

(** The files of the bundle, with their digests, then the checksums: [inputs] are their names
    in the archive and where they are. *)
Fixpoint bundle_contents (inputs : list (string * (directory * string))) : go (list ArchiveFile) :=
  match inputs with
  | [] => Ok []
  | (name, (d, path)) :: inputs =>
    try contents := bounded_file "artifact %s is not a bounded regular file" d path ;;
    try l := bundle_contents inputs ;; Ok (mkArchiveFile name contents 420 :: l)
  end.
Definition bundleChecksums (top : string) (files : list ArchiveFile) : string :=
  manifest_text ((λ f, (trim_prefix (Archive_Name f) (top +:+ "/")%string, sha256_hex (Archive_Contents f))) <$> files).
Definition offline_archive (root d : directory) (output version : string) : go (list ArchiveFile) :=
  reject negb (match_version version) with "version %q must be a semantic tag such as v1.2.3"%string ;;
  let top := ("topo_" +:+ trim_prefix version "v" +:+ "_offline")%string in
  try artifacts := bundle_files d top output (ReadDir d) ;;
  let inputs := ((λ a, (a.1, (d, a.2))) <$> artifacts) ++ ((λ name, (top +:+ "/" +:+ name, (root, name))) <$> bundle_documents)%string in
  try files := bundle_contents (sort_by (less_on fst str_lt) inputs) ;;
  Ok (files ++ [mkArchiveFile (top +:+ "/OFFLINE-SHA256SUMS")%string (bundleChecksums top files) 420]).

Section packages.
Context (quiet : IOInput) (leftover : directory → option directory).

Abbreviation tool := (prog IOInput (option directory)).

Definition digest_back (path : string) : tool string := observe quiet "open %s for checksum: %w" (λ d, raw_digest d path).
Fixpoint digests_back (names : list string) : tool (list (string * string)) :=
  match names with
  | [] => mret []
  | name :: names => digest ← digest_back name; l ← digests_back names; mret ((name, digest) :: l)
  end.

Definition FinalizeChecksums : tool unit :=
  names ← observe quiet "read artifact directory: %w" (λ d, finalize_names d (ReadDir d));
  checksums ← digests_back (sort_by str_lt names);
  replace_file quiet "SHA256SUMS" (manifest_text checksums).

(** ** The tools *)

Context (parse : string → go RawMetadata) (parse_app : string → go AppMetadata) (marshal_packages : PackageMetadata → string) (Quote : string → string).
Context (untar : string → go (list TarEntry * option string)) (tar_gz : list ArchiveFile → string).
(** The package builder: what it says of its version, and the package that it makes of a
    configuration and a binary in a format. *)
Context (nfpm_says : go string) (nfpm : string → string → string → go string).

Definition writePackageMetadata (m : PackageMetadata) : tool unit :=
  WriteFile quiet "write package metadata: %w" "package-metadata.json" (newline_after (marshal_packages (sort_artifacts m))).
Definition RefreshPackageMetadata : tool unit :=
  m ← observe quiet "read release metadata: %w" (refreshed_packages parse parse_app);
  writePackageMetadata m.

(** The bundle is written into the directory of the artifacts. *)
Definition WriteOfflineBundle (root : directory) (output version : string) : tool unit :=
  _ ← lift (reject negb (match_version version) with "version %q must be a semantic tag such as v1.2.3"%string ;; Ok tt);
  _ ← observe quiet "inspect output: %w" (λ d, if d !! output is Some _ then Err "output already exists: %s"%string else Ok tt);
  files ← observe quiet "read artifact directory: %w" (λ d, offline_archive root d output version);
  create quiet "open" output (tar_gz files).

(** [order]: how the map of placeholders is ranged over; [path]: where the binary is. *)
Record PackageOptions := mkPackageOptions { P_Root : directory; P_RawDir : directory; P_Version : string; P_NFPM : string; P_order : list (string * string) → list (string * string); P_path : string → string }.

Definition placeholders (o : PackageOptions) (arch : string) : list (string * string) :=
  [(placeholder "TOPO_PACKAGE_ARCH", Quote arch); (placeholder "TOPO_PACKAGE_VERSION", Quote (trim_prefix (P_Version o) "v")); (placeholder "TOPO_PACKAGE_BINARY", Quote (P_path o arch))].

Definition runNFPM (o : PackageOptions) (arch binary format output : string) : tool unit :=
  configuration ← look_at quiet "read nFPM configuration: %w" (file_contents "read nFPM configuration: %w" (P_Root o) "packaging/nfpm.yaml");
  configured ← lift (configure configuration (P_order o (placeholders o arch)));
  _ ← look_at quiet "write nFPM configuration: %w" (Ok tt);
  contents ← lift (nfpm configured format binary);
  WriteFile quiet "build %s/%s package: %w: %s" output contents.

Definition package_format (o : PackageOptions) (arch rawName binary format : string) : tool PackageArtifact :=
  let name := linuxPackageName (trim_prefix (P_Version o) "v") arch format in
  _ ← runNFPM o arch binary format name;
  digest ← digest_back name;
  _ ← WriteFile quiet "write package payload checksum: %w" (name +:+ ".payload.sha256")%string (payload_text (sha256_hex binary));
  mret (mkPackageArtifact name format arch rawName (sha256_hex binary) digest).

Definition package_arch (o : PackageOptions) (arch : string) : tool (list PackageArtifact) :=
  let rawName := ("topo_" +:+ trim_prefix (P_Version o) "v" +:+ "_linux_" +:+ arch +:+ ".tar.gz")%string in
  binary ← wrapping ("extract " +:+ rawName)%string (look_at quiet "open" (extractRawBinary untar (P_RawDir o) rawName "topo"));
  _ ← lift (reject maxFileSize <? slen binary with "artifact %s is not a bounded regular file"%string ;; Ok tt);
  deb ← package_format o arch rawName binary "deb";
  rpm ← package_format o arch rawName binary "rpm";
  mret [deb; rpm].

Fixpoint copy_raw (d : directory) (entries : list (string * string)) : tool unit :=
  match entries with
  | [] => mret tt
  | (name, _) :: entries =>
    contents ← look_at quiet "open %s: %w" (bounded_file "input %s is not a bounded regular file" d name);
    _ ← create quiet "create %s: %w" name contents;
    copy_raw d entries
  end.

Definition writeChart (o : PackageOptions) (name : string) : tool unit :=
  files ← look_at quiet "enumerate Helm chart: %w" (chart_files (P_Version o) (under chart_dir (P_Root o)));
  create quiet "open" name (tar_gz (sort_files files)).

Definition package_body (o : PackageOptions) : tool unit :=
  verified ← look_at quiet "read" (verifyRawArtifacts parse (P_RawDir o) (P_Version o));
  _ ← copy_raw (P_RawDir o) verified.2;
  says ← look_at quiet "run %s: %w: %s" nfpm_says;
  _ ← lift (reject negb (contains says nfpmVersion) with "nFPM must be exactly %s, got %q"%string ;; Ok tt);
  _ ← look_at quiet "create package work directory: %w" (Ok tt);
  amd64 ← package_arch o "amd64";
  arm64 ← package_arch o "arm64";
  let chart := ("topo-" +:+ trim_prefix (P_Version o) "v" +:+ ".tgz")%string in
  _ ← writeChart o chart;
  digest ← digest_back chart;
  _ ← writePackageMetadata (mkPackageMetadata (RM_Profile verified.1) 1 (P_Version o) (RM_Commit verified.1) {["nfpm"%string := nfpmVersion]}
         (amd64 ++ arm64 ++ [mkPackageArtifact chart "helm" "" "" "" digest]));
  FinalizeChecksums.

(** The directories are given by what is in them. *)
Definition Packages_Build (o : PackageOptions) : tool unit :=
  _ ← lift (reject negb (match_version (P_Version o)) with "version %q must be a semantic tag such as v1.2.3"%string ;;
            reject String.eqb (P_NFPM o) "" with "path to pinned nFPM binary is required"%string ;; Ok tt);
  new_output quiet leftover (package_body o).
End packages.

(** ** Packaging accepts what the release tool builds *)

(** What is relied on of [encoding/json]: the metadata that is read is the metadata that was
    written, if the texts that are read are UTF-8, which [encoding/json] would else replace. *)
Definition artifact_texts (a : Artifact) : list string := [Filename a; Artifact_GOOS a; Artifact_GOARCH a; SHA256 a].
Definition metadata_texts (m : Metadata) : list string := Profile m :: Version m :: Commit m :: (Artifacts m ≫= artifact_texts).
Class ReleaseCodec (marshal : Metadata → string) (parse : string → go RawMetadata) := {
  parse_marshal : ∀ m, Forall (λ s, utf8_valid s = true) (metadata_texts m) → parse (newline_after (marshal m)) = Ok (mkRawMetadata (Profile m) (Version m) (Commit m) (Artifacts m));
}.

Definition target_suffix (t : Target) : string := ("_" +:+ GOOS t +:+ "_" +:+ GOARCH t +:+ "." +:+ Format t)%string.

Lemma archive_name_suffix version t : archive_name version t = (("topo_" +:+ trim_prefix version "v") +:+ target_suffix t)%string.
Proof. unfold archive_name, archive_base, target_suffix. by rewrite !string_app_assoc. Qed.

Lemma archive_prefix_inj (p a b : string) : (p +:+ a = p +:+ b)%string → a = b.
Proof. intros H. rewrite <-(drop_string_app p a), <-(drop_string_app p b). by rewrite H. Qed.

Lemma TargetsForProfile_targets profile version ts : TargetsForProfile profile version = Ok ts → match_version version = true ∧ (ts = targets ∨ ts = take 4 targets).
Proof.
  unfold TargetsForProfile. destruct (match_version version); [|done]. cbn. destruct (_ || _); [intros [= <-]; auto|].
  destruct (restricted profile); [|done]. destruct (negb _); [done|]. intros [= <-]. auto.
Qed.

Lemma archive_names_nodup profile version ts : TargetsForProfile profile version = Ok ts → NoDup (archive_name version <$> ts).
Proof.
  intros [_ Hts]%TargetsForProfile_targets. assert (NoDup (target_suffix <$> ts)) as Hnd by (destruct Hts as [-> | ->]; by apply (bool_decide_unpack _); vm_compute).
  assert (archive_name version <$> ts = (λ s, ("topo_" +:+ trim_prefix version "v") +:+ s)%string <$> (target_suffix <$> ts)) as ->.
  { rewrite <-list_fmap_compose. apply list_fmap_ext. intros i t _. apply archive_name_suffix. }
  by apply NoDup_fmap; [intros a b; apply archive_prefix_inj|].
Qed.

Lemma archive_name_plain profile version ts t : TargetsForProfile profile version = Ok ts → t ∈ ts → slen version < 2^14 →
  plain_name (archive_name version t) = true ∧ slen (archive_name version t) < 2^15.
Proof.
  intros [Hv Hts]%TargetsForProfile_targets Ht Hlen. assert (t ∈ targets) as Hin by (destruct Hts as [-> | ->]; set_solver).
  assert (string_all safe_id_byte (target_suffix t) = true ∧ slen (target_suffix t) < 2^10) as [Hs Hl].
  { clear Ht. unfold targets in Hin. repeat (apply elem_of_cons in Hin as [->|Hin]; [by vm_compute|]). by apply not_elem_of_nil in Hin. }
  assert (slen (trim_prefix version "v") <= slen version) as Htrim.
  { unfold trim_prefix, cut_prefix. destruct (has_prefix version "v"); [|simpl; lia]. change (slen (drop_string 1 version) <= slen version). rewrite (take_drop_string 1 version) at 2. rewrite slen_app. pose proof (slen_nonneg (take_string 1 version)). lia. }
  rewrite archive_name_suffix. split.
  - unfold plain_name. rewrite string_app_assoc, !string_all_app, Hs, (trim_prefix_all _ _ _ (match_version_safe version Hv)). reflexivity.
  - rewrite !slen_app. change (slen "topo_") with 5. lia.
Qed.

(** The texts of the metadata of a build are ASCII. *)
Lemma safe_utf8 s : string_all safe_id_byte s = true → utf8_valid s = true.
Proof. intros Hs. apply ascii_utf8. eapply string_all_impl; [|exact Hs]. intros [[] [] [] [] [] [] [] []]; by vm_compute. Qed.

Lemma profile_ascii profile version ts : TargetsForProfile profile version = Ok ts → utf8_valid profile = true.
Proof.
  unfold TargetsForProfile, restricted. destruct (match_version version); [|done]. cbn.
  repeat match goal with |- context [String.eqb profile ?t] => destruct (String.eqb_spec profile t) as [->|_]; [by vm_compute|] end. done.
Qed.

Lemma commit_utf8 c : match_release_commit c = true → utf8_valid c = true.
Proof.
  intros [->%String.eqb_eq|[Hc _]%andb_true_iff]%orb_true_iff; [by vm_compute|]. apply ascii_utf8.
  eapply string_all_impl; [|exact Hc]. intros [[] [] [] [] [] [] [] []]; by vm_compute.
Qed.

(** *** The tree of a release *)
Section accepts.
Context (marshal : Metadata → string).

Lemma add_archives_other version ts cs d p : p ∉ archive_name version <$> ts → add_archives version ts cs d !! p = d !! p.
Proof.
  revert cs d. induction ts as [|t ts IH]; intros [|c cs] d Hp; [done..|]. cbn [add_archives]. rewrite IH by set_solver. rewrite lookup_insert_ne; [done|set_solver].
Qed.

Lemma add_archives_lookup version ts cs d i t c : NoDup (archive_name version <$> ts) → ts !! i = Some t → cs !! i = Some c →
  add_archives version ts cs d !! archive_name version t = Some (file c).
Proof.
  revert cs d i. induction ts as [|t' ts IH]; intros [|c' cs] d [|i] Hnd Ht Hc; [done..| |]; rewrite fmap_cons in Hnd; apply NoDup_cons in Hnd as [Hn Hnd]; cbn [add_archives].
  - injection Ht as ->. injection Hc as ->. rewrite add_archives_other by done. apply lookup_insert_eq.
  - by apply (IH cs _ i).
Qed.

Lemma match_targets_all version ts cs : NoDup (archive_name version <$> ts) → length ts = length cs →
  match_targets (expected_targets version ts) (zip_with (artifact_of version) ts cs) = Ok tt.
Proof.
  revert cs. induction ts as [|t ts IH]; intros [|c cs] Hnd Hlen; [done..|]. rewrite fmap_cons in Hnd. apply NoDup_cons in Hnd as [Hn Hnd].
  cbn [zip_with match_targets]. unfold expected_targets, artifact_of at 1. rewrite fmap_cons, list_to_map_cons. cbn [Filename Artifact_GOOS Artifact_GOARCH]. rewrite lookup_insert_eq, !String.eqb_refl. cbn [andb].
  rewrite delete_insert_eq, delete_id; [apply IH; [done|by injection Hlen]|]. apply not_elem_of_list_to_map_1. by rewrite <-list_fmap_compose.
Qed.

Lemma raw_digest_file d name c : d !! name = Some (file c) → slen c <= maxFileSize → raw_digest d name = Ok (sha256_hex c).
Proof. intros Hd Hl. unfold raw_digest, bounded_file. rewrite Hd. destruct (Z.ltb_spec maxFileSize (slen c)); [lia|done]. Qed.

Lemma manifest_length entries n : Forall (λ e, slen (checksum_line e) < n) entries → 0 <= n → slen (manifest_text entries) <= llen entries * (n + 1).
Proof.
  intros H Hn. unfold manifest_text, lines_text, llen. induction H as [|e entries He _ IH]; [done|]. cbn [fmap list_fmap]. rewrite concat_cons, !slen_app. change (slen (String LF "")) with 1.
  cbn [length]. rewrite Nat2Z.inj_succ. lia.
Qed.

Context (o : ReleaseOptions) (goVersion : string) (ts : list Target) (cs : list string).
Let d := release_tree marshal o goVersion ts cs.
Let names := sort_by str_lt ((archive_name (Opt_Version o) <$> ts) ++ [metadataName]).

Hypothesis Hts : TargetsForProfile (Opt_Profile o) (Opt_Version o) = Ok ts.
Hypothesis Hcs : length ts = length cs.
Hypothesis Hversion : slen (Opt_Version o) < 2^14.
Hypothesis Hsizes : ∀ name c, d !! name = Some (file c) → slen c <= maxFileSize.

Lemma not_an_archive name : has_prefix name "topo_" = false → name ∉ archive_name (Opt_Version o) <$> ts.
Proof. intros Hp (t&->&_)%list_elem_of_fmap. by rewrite archive_name_suffix, string_app_assoc, has_prefix_text in Hp. Qed.

Lemma tree_archive i t c : ts !! i = Some t → cs !! i = Some c → d !! archive_name (Opt_Version o) t = Some (file c).
Proof.
  intros Ht Hc. assert (archive_name (Opt_Version o) t ∈ archive_name (Opt_Version o) <$> ts) as Hin by (apply list_elem_of_fmap; eexists; split; [done|by eapply list_elem_of_lookup_2]).
  unfold d, release_tree. rewrite !lookup_insert_ne; [|intros Heq; rewrite <-Heq in Hin; by eapply not_an_archive in Hin..].
  eapply add_archives_lookup; [by eapply archive_names_nodup|done..].
Qed.

Definition built_metadata : Metadata := metadata_of o goVersion (zip_with (artifact_of (Opt_Version o)) ts cs).
Lemma tree_metadata : d !! metadataName = Some (file (newline_after (marshal built_metadata))).
Proof. unfold d, release_tree. rewrite lookup_insert_ne by done. by rewrite lookup_insert_eq. Qed.

Lemma names_spec name : name ∈ names ↔ name ∈ archive_name (Opt_Version o) <$> ts ∨ name = metadataName.
Proof. unfold names. rewrite sort_by_perm, elem_of_app, list_elem_of_singleton. done. Qed.

Lemma names_nodup : NoDup names.
Proof.
  unfold names. rewrite sort_by_perm. apply NoDup_app. split; [by eapply archive_names_nodup|]. split; [|apply NoDup_singleton].
  intros name Hin ->%list_elem_of_singleton. by eapply not_an_archive in Hin.
Qed.

Lemma names_files name : name ∈ names → ∃ c, d !! name = Some (file c) ∧ contents_of d name = c.
Proof.
  intros [(t&->&Ht)%list_elem_of_fmap| ->]%names_spec.
  - apply list_elem_of_lookup in Ht as [i Ht]. destruct (lookup_lt_is_Some_2 cs i) as [c Hc]; [rewrite <-Hcs; by eapply lookup_lt_Some|].
    exists c. split; [by eapply tree_archive|]. unfold contents_of. by erewrite tree_archive.
  - eexists. split; [apply tree_metadata|]. unfold contents_of. by rewrite tree_metadata.
Qed.

Lemma tree_manifest : d !! "SHA256SUMS"%string = Some (file (manifest_text (sums_of d names))).
Proof.
  unfold d, release_tree. rewrite lookup_insert_eq. do 3 f_equal. unfold sums_of. apply list_fmap_ext. intros i name Hi. do 2 f_equal.
  unfold contents_of. rewrite (lookup_insert_ne _ "SHA256SUMS"%string name); [done|]. apply list_elem_of_lookup_2, names_spec in Hi as [Hi| ->]; [|by vm_compute]. intros <-. by eapply not_an_archive in Hi.
Qed.

Lemma names_plain name : name ∈ names → plain_name name = true ∧ slen name < 2^15.
Proof. intros [(t&->&Ht)%list_elem_of_fmap| ->]%names_spec; [by eapply archive_name_plain|done]. Qed.

Lemma names_length : llen names <= 7.
Proof.
  unfold names, llen. rewrite (Permutation_length (sort_by_perm _ _)), length_app, length_fmap. cbn [length].
  destruct (TargetsForProfile_targets _ _ _ Hts) as [_ [-> | ->]]; simpl; lia.
Qed.

(** The checksums of the build are read back. *)
Lemma tree_manifest_reads {A} safe (inspect : string → string → go A) (f : string * string → A) :
  (∀ name, plain_name name = true → safe name = true) → (∀ e, e ∈ sums_of d names → inspect e.1 e.2 = Ok (f e)) →
  read_manifest safe inspect (manifest_text (sums_of d names)) = Ok ((λ e, (e.1, f e)) <$> sums_of d names).
Proof.
  intros Hsafe Hi. assert ((sums_of d names).*1 = names) as Hfst.
  { unfold sums_of. rewrite <-list_fmap_compose. by apply list_fmap_id. }
  assert (Forall (λ e, plain_name e.1 = true ∧ slen e.1 < 2^15 ∧ digest_text e.2) (sums_of d names)) as Hall.
  { apply Forall_fmap, Forall_forall. intros name [Hp Hl]%names_plain. split; [done|]. split; [done|]. apply sha256_digest_text. }
  apply read_manifest_text; [|rewrite Hfst; apply names_nodup|].
  - apply Forall_forall. intros e He. rewrite Forall_forall in Hall. destruct (Hall e He) as (Hp&Hl&Hd). split_and!; auto.
  - etrans; [apply (manifest_length _ (2^15 + 66))|].
    + eapply Forall_impl; [exact Hall|]. intros e (_&Hl&Hd&_). unfold checksum_line. rewrite !slen_app, Hd. change (slen "  ") with 2. lia.
    + lia.
    + assert (llen (sums_of d names) = llen names) as -> by (unfold llen, sums_of; by rewrite length_fmap). pose proof names_length. unfold manifest_limit. lia.
Qed.

Lemma tree_names name : is_Some (d !! name) → name = "SHA256SUMS"%string ∨ name ∈ names.
Proof.
  intros [e He]. destruct (decide (name = "SHA256SUMS"%string)) as [|Hne]; [by left|]. right. apply names_spec.
  destruct (decide (name = metadataName)) as [|Hnm]; [by right|]. left. apply dec_stable. intros Hn. unfold d, release_tree in He.
  rewrite !lookup_insert_ne in He by done. by rewrite add_archives_other in He.
Qed.

Lemma sums_spec name digest : (name, digest) ∈ sums_of d names ↔ name ≠ "SHA256SUMS"%string ∧ ∃ c, d !! name = Some (file c) ∧ digest = sha256_hex c.
Proof.
  unfold sums_of. rewrite list_elem_of_fmap. split.
  - intros (n&[= -> ->]&Hn). destruct (names_files n Hn) as (c&Hc&->). split; [|by exists c]. intros ->. apply names_spec in Hn as [Hn|]; [|done]. by eapply not_an_archive in Hn.
  - intros (Hne&c&Hc&->). exists name. destruct (tree_names name ltac:(by eexists)) as [?|Hn]; [done|]. split; [|done]. unfold contents_of. by rewrite Hc.
Qed.

Lemma artifact_in_sums a : a ∈ Artifacts built_metadata → (Filename a, SHA256 a) ∈ sums_of d names.
Proof.
  unfold built_metadata, metadata_of. cbn [Artifacts]. intros (i&Ha)%list_elem_of_lookup. apply lookup_zip_with_Some in Ha as (t&c&->&Ht&Hc). apply sums_spec. cbn [Filename SHA256 artifact_of].
  split; [|exists c; split; [by eapply tree_archive|done]]. rewrite archive_name_suffix, string_app_assoc. done.
Qed.

Lemma sums_names : (sums_of d names).*1 = names.
Proof. unfold sums_of. rewrite <-list_fmap_compose. by apply list_fmap_id. Qed.

Context (parse : string → go RawMetadata) `{!ReleaseCodec marshal parse}.
Hypothesis Hcommit : match_release_commit (Opt_Commit o) = true.

Lemma built_texts : Forall (λ s, utf8_valid s = true) (metadata_texts built_metadata).
Proof.
  clear Hsizes.
  unfold metadata_texts, built_metadata, metadata_of. cbn [Profile Version Commit Artifacts]. constructor; [by eapply profile_ascii|].
  constructor; [apply safe_utf8, match_version_safe; by destruct (TargetsForProfile_targets _ _ _ Hts)|]. constructor; [by apply commit_utf8|].
  apply Forall_bind, Forall_forall. intros a (i&Ha)%list_elem_of_lookup. apply lookup_zip_with_Some in Ha as (t&c&->&Ht&_).
  assert (t ∈ ts) as Hin by (by eapply list_elem_of_lookup_2). destruct (archive_name_plain _ _ _ _ Hts Hin Hversion) as [Hp _].
  assert (t ∈ targets) as Ht' by (destruct (TargetsForProfile_targets _ _ _ Hts) as [_ [-> | ->]]; set_solver).
  assert (utf8_valid (GOOS t) = true ∧ utf8_valid (GOARCH t) = true) as [H1 H2].
  { unfold targets in Ht'. rewrite !elem_of_cons, elem_of_nil in Ht'. by destruct_or! Ht'; subst t. }
  unfold artifact_texts, artifact_of. cbn [Filename Artifact_GOOS Artifact_GOARCH SHA256].
  repeat constructor; [by apply safe_utf8; by destruct (plain_name_head _ Hp) as (?&?&?&?&?)|done|done|]. apply ascii_utf8, hex_ascii.
  pose proof (sha256_hex_decodable c) as Hc. unfold hex_decodable in Hc. by apply andb_true_iff in Hc as [_ Hc].
Qed.

(** What the verification comes to, up to the check of the names. *)
Lemma tree_windows name : restricted (Opt_Profile o) = true → is_Some (d !! name) → windows_payload name = true →
  is_ok (verifyRawArtifacts parse d (Opt_Version o)) = false.
Proof.
  clear Hsizes. intros Hr Hn Hw. unfold verifyRawArtifacts, file_contents. rewrite tree_metadata. cbv beta iota. rewrite parse_marshal by apply built_texts. cbv beta iota.
  cbn [RM_Version RM_Profile built_metadata metadata_of Version Profile]. rewrite String.eqb_refl, Hts. cbn [negb].
  unfold CheckProfileFiles. rewrite Hts, Hr. cbn [negb]. destruct (base.filter _ (ReadDir d)) as [|x l] eqn:E; [|done].
  exfalso. apply (not_elem_of_nil name). rewrite <-E. apply list_elem_of_filter. split; [by rewrite Hw|].
  unfold ReadDir. rewrite sort_by_perm. destruct Hn as [e He]. apply list_elem_of_fmap. exists (name, e). split; [done|]. by apply elem_of_map_to_list.
Qed.

Lemma tree_verifies : (restricted (Opt_Profile o) = true → ∀ name, is_Some (d !! name) → windows_payload name = false) →
  verifyRawArtifacts parse d (Opt_Version o) = Ok (mkRawMetadata (Opt_Profile o) (Opt_Version o) (Opt_Commit o) (Artifacts built_metadata), sort_by (less_on fst str_lt) (sums_of d names)).
Proof.
  intros Hw. assert (CheckProfileFiles d (Opt_Profile o) (Opt_Version o) = Ok tt) as Hprofile.
  { unfold CheckProfileFiles. rewrite Hts. cbv beta iota. destruct (restricted (Opt_Profile o)); [|done]. cbn [negb].
    assert (base.filter (λ name, windows_payload name) (ReadDir d) = []) as ->; [|done]. apply elem_of_nil_inv. intros name [Hp Hin]%list_elem_of_filter.
    unfold ReadDir in Hin. rewrite sort_by_perm in Hin. apply list_elem_of_fmap in Hin as ([n e]&->&He%elem_of_map_to_list). cbn in Hp. by rewrite Hw in Hp by (by eexists). }
  assert (NoDup (archive_name (Opt_Version o) <$> ts)) as Hnd by (by eapply archive_names_nodup).
  assert (read_manifest safeBaseName (matching_digest d) (manifest_text (sums_of d names)) = Ok (sums_of d names)) as Hread.
  { rewrite (tree_manifest_reads _ _ snd); [f_equal; rewrite <-(list_fmap_id (sums_of d names)) at 2; apply list_fmap_ext; by intros i []|by intros n [_ ?]%plain_name_safe|].
    intros [n digest] [_ (c&Hc&->)]%sums_spec. unfold matching_digest. cbn [fst snd]. rewrite (raw_digest_file d n c Hc (Hsizes n c Hc)). by rewrite String.eqb_refl. }
  assert (∀ n digest, (n, digest) ∈ sums_of d names → (list_to_map (sums_of d names) : gmap string string) !! n = Some digest) as Hseen.
  { intros n digest Hn. apply elem_of_list_to_map_1; [rewrite sums_names; apply names_nodup|done]. }
  unfold verifyRawArtifacts, file_contents. rewrite tree_metadata, tree_manifest. cbv beta iota. rewrite parse_marshal by apply built_texts. cbv beta iota. cbn [RM_Version RM_Profile RM_Artifacts Version Profile Commit].
  cbn [Version Profile Commit built_metadata metadata_of]. rewrite String.eqb_refl, Hts, Hprofile. cbn [negb]. rewrite Hread.
  change (Artifacts built_metadata) with (zip_with (artifact_of (Opt_Version o)) ts cs).
  rewrite match_targets_all by done. unfold llen at 1 2. rewrite length_zip_with, <-Hcs, Nat.min_id, Z.eqb_refl. cbn [negb].
  assert (existsb (λ a, negb (String.eqb (default ""%string ((list_to_map (sums_of d names) : gmap string string) !! Filename a)) (SHA256 a))) (zip_with (artifact_of (Opt_Version o)) ts cs) = false) as ->.
  { apply not_true_iff_false. rewrite existsb_elem_of. intros (a&Ha&Hb). rewrite (Hseen _ _ (artifact_in_sums a Ha)) in Hb. cbn in Hb. by rewrite String.eqb_refl in Hb. }
  rewrite bool_decide_false; [done|]. intros Hnone. assert (metadataName ∈ names) as Hm by (apply names_spec; by right).
  rewrite (Hseen metadataName (sha256_hex (contents_of d metadataName))) in Hnone; [done|]. apply list_elem_of_fmap. by exists metadataName.
Qed.
End accepts.

Lemma Build_validated (quiet : IOInput) leftover go_build go_version tar_gz zip marshal o xs w rest w' :
  Release.Build quiet leftover go_build go_version tar_gz zip marshal o xs w = (Done tt, rest, w') → match_release_commit (Opt_Commit o) = true.
Proof.
  unfold Release.Build, mbind, prog_bind, lift. destruct (validateOptions o) eqn:Hv; [|done]. intros _. unfold validateOptions in Hv.
  destruct (match_version _); [|done]. by destruct (match_release_commit (Opt_Commit o)).
Qed.

(** C36: packaging accepts what the release tool builds, but for Windows in a version.  If a
    build of a release succeeds, whatever fails before it does, its files are of at most 512 MiB,
    the bound of the packaging tool, and the version has less than 16 KiB, then: unless the profile
    leaves Windows out and the name of a file says Windows, the verification of the raw
    artifacts succeeds on the output, with the metadata of the build and the digest of every
    archive and of the metadata, in order; and if the name of a file does, which only the version
    can make it, the verification fails, although the build succeeded. *)
Theorem packaging_accepts_release (quiet : IOInput) (leftover : directory → option directory) (go_build : Target → string → go string)
    (go_version : go string) (tar_gz zip : list ArchiveFile → string) (marshal : Metadata → string) (parse : string → go RawMetadata) (o : ReleaseOptions) (xs : list IOInput) :
  ReleaseCodec marshal parse → slen (Opt_Version o) < 2^14 →
  match Release.Build quiet leftover go_build go_version tar_gz zip marshal o xs None with
  | (Done _, _, w) => ∃ d, w = Some d ∧
    ((∀ name c, d !! name = Some (file c) → slen c <= maxFileSize) →
     (restricted (Opt_Profile o) = true → ∀ name, is_Some (d !! name) → windows_payload name = false) →
     ∃ entries artifacts, verifyRawArtifacts parse d (Opt_Version o) = Ok (mkRawMetadata (Opt_Profile o) (Opt_Version o) (Opt_Commit o) artifacts, entries) ∧
       (∀ name digest, (name, digest) ∈ entries ↔ name ≠ "SHA256SUMS"%string ∧ ∃ c, d !! name = Some (file c) ∧ digest = sha256_hex c) ∧
       (∀ a, a ∈ artifacts → (Filename a, SHA256 a) ∈ entries) ∧ StronglySorted (not_after str_lt) entries.*1) ∧
    (restricted (Opt_Profile o) = true → ∀ name, is_Some (d !! name) → windows_payload name = true →
     is_ok (verifyRawArtifacts parse d (Opt_Version o)) = false)
  | (Failed _, _, w) => w = None ∨ ∃ d, w = leftover d
  | (Crashed, _, _) => True
  end.
Proof.
  intros Hcodec Hv. pose proof (Build_spec quiet leftover go_build go_version tar_gz zip marshal o xs None) as H.
  destruct (Release.Build _ _ _ _ _ _ _ _ _ _) as [[[[]|e|] rest] w] eqn:Hrun; [|naive_solver|done]. apply Build_validated in Hrun as Hc.
  destruct H as (_&ts&v&cs&Hts&Hcs%Forall2_length&->). eexists. split; [done|].
  split; [|intros Hr name Hn Hw; by apply (tree_windows marshal o v ts cs Hts Hcs Hv parse Hc name)]. intros Hsizes Hw.
  eexists _, _. split; [by apply tree_verifies|]. split_and!.
  - intros name digest. rewrite sort_by_perm. by apply sums_spec.
  - intros a Ha. rewrite sort_by_perm. by apply (artifact_in_sums marshal o v ts cs).
  - apply (StronglySorted_fmap fst (not_after (less_on fst str_lt))); [done|apply (sort_by_sorted _)].
Qed.

(** ** A finalization that is cut short

    When the process dies between writing the temporary manifest and renaming it, the next
    run lists the temporary file and then renames it away: the manifest it reports as
    written names a file that is not there. *)
Definition steady : IOInput := mkIOInput Answered true None.
Definition cut_before_rename : list IOInput := [steady; steady; steady; mkIOInput Dying false None].

Definition left_by {A} (r : completion A * list IOInput * option directory) : directory := default ∅ r.2.
Definition cut_directory : directory := left_by (FinalizeChecksums steady cut_before_rename (Some {["a.deb"%string := file "x"]})).
Definition next_directory : directory := left_by (FinalizeChecksums steady [] (Some cut_directory)).

Lemma torn_finalization_breaks_manifest :
  (FinalizeChecksums steady cut_before_rename (Some {["a.deb"%string := file "x"]})).1.1 = Crashed ∧
  (FinalizeChecksums steady [] (Some cut_directory)).1.1 = Done tt ∧
  read_manifest safeBaseName (matching_digest next_directory) (contents_of next_directory "SHA256SUMS") = Err "no such file or directory"%string.
Proof. split_and!; vm_compute; reflexivity. Qed.

(** ** Witnesses *)

(** Texts of lists of strings: a one before every byte, and a zero after every string. *)
Fixpoint string_code (s rest : string) : string :=
  match s with EmptyString => String "0" rest | String c s => String "1" (String c (string_code s rest)) end.
Fixpoint strings_read (s : string) : list string :=
  match s with
  | String "0" s => ""%string :: strings_read s
  | String _ (String c s) => match strings_read s with x :: l => String c x :: l | [] => [] end
  | _ => []
  end.
Definition strings_text (l : list string) : string := foldr string_code "" l.

Lemma strings_read_text l : strings_read (strings_text l) = l.
Proof.
  induction l as [|s l IH]; [done|]. change (strings_read (string_code s (strings_text l)) = s :: l).
  induction s as [|c s IHs]; cbn [string_code strings_read]; [by rewrite IH|by rewrite IHs].
Qed.

Fixpoint artifacts_read (l : list string) : list Artifact :=
  match l with f :: o :: a :: h :: l => mkArtifact f o a h :: artifacts_read l | _ => [] end.
Definition example_marshal (m : Metadata) : string :=
  strings_text (Profile m :: Version m :: Commit m :: (Artifacts m ≫= λ a, [Filename a; Artifact_GOOS a; Artifact_GOARCH a; SHA256 a])).
Definition example_parse (s : string) : go RawMetadata :=
  match strings_read (take_string (String.length s - 1) s) with
  | profile :: version :: commit :: artifacts => Ok (mkRawMetadata profile version commit (artifacts_read artifacts))
  | _ => Err "invalid"%string
  end.

#[export] Instance example_codec : ReleaseCodec example_marshal example_parse.
Proof.
  split. intros m _. unfold example_parse, newline_after, example_marshal. set (t := strings_text _).
  assert (take_string (String.length (t +:+ String LF "") - 1) (t +:+ String LF "") = t)%string as ->.
  { rewrite string_length_app. cbn [String.length]. rewrite Nat.add_sub, take_string_app by done. by apply take_string_all. }
  unfold t. rewrite strings_read_text. do 2 f_equal. induction (Artifacts m) as [|[] l IH]; [done|]. cbn. by rewrite IH.
Qed.

Definition example_root : directory := list_to_map ((λ n, (n, file "text")) <$> ["go.mod"; "LICENSE"; "README.md"])%string.
Definition example_options : ReleaseOptions := mkReleaseOptions LinuxHomebrewBeta example_root "v1.2.3-beta.1" "dev".
Definition example_tar (files : list ArchiveFile) : string := String.concat "" ((λ f, Archive_Name f +:+ Archive_Contents f) <$> files)%string.
Definition example_build : prog IOInput (option directory) unit :=
  Release.Build steady (λ _, None) (λ t _, Ok (GOOS t)) (Ok "go1.24"%string) example_tar example_tar example_marshal example_options.

Definition example_output : directory := match example_build [] None with (_, _, Some d) => d | _ => ∅ end.
Lemma example_builds : example_build [] None = (Done tt, [], Some example_output).
Proof. vm_cast_no_check (eq_refl (@Done unit tt, @nil IOInput, Some example_output)). Qed.

Definition entry_fits (e : entry) : bool := match e with file c => slen c <=? maxFileSize | _ => true end.
Lemma example_fits : forallb (λ e, entry_fits e.2 && negb (windows_payload e.1)) (map_to_list example_output) = true.
Proof. vm_compute. reflexivity. Qed.

Lemma packaging_accepts_release_witness :
  ∃ entries artifacts, verifyRawArtifacts example_parse example_output "v1.2.3-beta.1" = Ok (mkRawMetadata LinuxHomebrewBeta "v1.2.3-beta.1" "dev" artifacts, entries).
Proof.
  pose proof (packaging_accepts_release steady (λ _, None) (λ t _, Ok (GOOS t)) (Ok "go1.24"%string) example_tar example_tar example_marshal example_parse example_options [] example_codec eq_refl) as H.
  pose proof example_builds as Hrun. unfold example_build in Hrun. rewrite Hrun in H. destruct H as (d&Hd&H&_).
  rewrite <-(f_equal (default ∅) Hd) in H. cbn [from_option id default] in H.
  assert (∀ name e, example_output !! name = Some e → entry_fits e = true ∧ windows_payload name = false) as Hall.
  { intros name e He%elem_of_map_to_list. pose proof (proj1 (forallb_elem_of _ _) example_fits _ He) as [Hf Hw%negb_true_iff]%andb_true_iff. exact (conj Hf Hw). }
  destruct H as (entries&artifacts&Hv&_); [| |exists entries, artifacts; exact Hv].
  - intros name c [Hc%Z.leb_le _]%Hall. exact Hc.
  - intros _ name [e [_ Hw]%Hall]. exact Hw.
Defined.

(** A version that says Windows: the restricted profile builds, and packaging refuses what it
    built. *)
Definition windows_version : ReleaseOptions := mkReleaseOptions LinuxHomebrewBeta example_root "v1.2.3-windows.1" "dev".
Definition windows_build : completion unit * list IOInput * option directory :=
  Release.Build steady (λ _, None) (λ t _, Ok (GOOS t)) (Ok "go1.24"%string) example_tar example_tar example_marshal windows_version [] None.

Lemma windows_version_is_refused :
  windows_build.1.1 = Done tt ∧ is_ok (verifyRawArtifacts example_parse (left_by windows_build) "v1.2.3-windows.1") = false.
Proof. split; vm_compute; reflexivity. Qed.
