(* ===== verification/Distribution.v ===== *)
(** * [internal/distribution]: promotion of a verified release to the package managers

    APT and RPM repository inputs, a Homebrew formula, WinGet manifests and the Helm chart are
    made of artifacts that the checksum manifest lists.  URL parsing, gzip, the tar format, the
    JSON encodings and [strconv.Quote] are arguments. *)

From S2P Require Import Prelude Effects Bytes Text Strconv Sha256 Time Manifest Outputs Release AppPackage Packages.

Definition maxArtifactSize : Z := 2^29.
Definition aptValidity : duration := 90 * 24 * Hour.

(** ** Time with an offset from UTC, in seconds *)

Record zoned := mkZoned { instant : time; offset : Z }.

Definition weekdays : list string := ["Mon"; "Tue"; "Wed"; "Thu"; "Fri"; "Sat"; "Sun"]%string.
Definition months : list string := ["Jan"; "Feb"; "Mar"; "Apr"; "May"; "Jun"; "Jul"; "Aug"; "Sep"; "Oct"; "Nov"; "Dec"]%string.
Definition zone_sign (z : Z) : string := if z <? 0 then "-" else "+".

(** [time.RFC1123] and [time.RFC3339]; a zone that is not UTC has no name but its offset. *)
Definition RFC1123 (t : zoned) : string :=
  let secs := instant t / Second + offset t in
  let day := secs / 86400 in
  let sod := secs mod 86400 in
  let y := year_of_day day in
  let '(m, d) := month_of (month_lengths y) 1 (day - days_before_year y) in
  let zone := Z.quot (offset t) 60 in
  (nth (Z.to_nat (day mod 7)) weekdays "" +:+ ", " +:+ decimal_pad 2 d +:+ " " +:+ nth (Z.to_nat (m - 1)) months "" +:+ " " +:+ decimal_pad 4 y +:+ " "
   +:+ decimal_pad 2 (sod / 3600) +:+ ":" +:+ decimal_pad 2 (sod / 60 mod 60) +:+ ":" +:+ decimal_pad 2 (sod mod 60) +:+ " "
   +:+ (if (offset t =? 0)%Z then "UTC" else zone_sign zone +:+ decimal_pad 2 (Z.abs zone / 60) +:+ decimal_pad 2 (Z.abs zone mod 60)))%string.
Definition zoned_RFC3339 (t : zoned) : string :=
  let local := RFC3339 (instant t + offset t * Second) in
  let zone := Z.quot (offset t) 60 in
  if (offset t =? 0)%Z then local
  else (take_string (String.length local - 1) local +:+ zone_sign zone +:+ decimal_pad 2 (Z.abs zone / 60) +:+ ":" +:+ decimal_pad 2 (Z.abs zone mod 60))%string.

Example rfc1123_texts : (RFC1123 (mkZoned (unix 1136239445 0) 0), RFC1123 (mkZoned (unix 1136239445 0) (-25200)), zoned_RFC3339 (mkZoned (unix 1136239445 0) (-25200)))
  = ("Mon, 02 Jan 2006 22:04:05 UTC", "Mon, 02 Jan 2006 15:04:05 -0700", "2006-01-02T15:04:05-07:00")%string.
Proof. vm_compute. reflexivity. Qed.

(** ** [crypto/sha1], for product codes *)

Definition rotl (n x : Z) : Z := w32 (Z.lor (Z.shiftl x n) (Z.shiftr x (32 - n))).
Fixpoint sha1_schedule (n : nat) (rev_w : list Z) : list Z :=
  match n with
  | O => rev_w
  | S n => let w i := nth i rev_w 0 in
           sha1_schedule n (rotl 1 (Z.lxor (Z.lxor (w 2%nat) (w 7%nat)) (Z.lxor (w 13%nat) (w 15%nat))) :: rev_w)
  end.
Definition sha1_round (st : list Z) (iw : Z * Z) : list Z :=
  match st with
  | [a; b; c; d; e] =>
    let parity := Z.lxor (Z.lxor b c) d in
    let '(f, k) := if iw.1 <? 20 then (Ch b c d, 1518500249) else if iw.1 <? 40 then (parity, 1859775393)
                   else if iw.1 <? 60 then (Maj b c d, 2400959708) else (parity, 3395469782) in
    [w32 (rotl 5 a + f + e + k + iw.2); a; rotl 30 b; c; d]
  | _ => st
  end.
Definition sha1_compress (st block : list Z) : list Z :=
  let w := reverse (sha1_schedule 64 (reverse block)) in
  zip_with (λ x y, w32 (x + y)) st (fold_left sha1_round (zip (seqZ 0 80) w) st).
Fixpoint sha1_blocks (fuel : nat) (ws : list Z) (st : list Z) : list Z :=
  match fuel, ws with
  | S fuel, _ :: _ => sha1_blocks fuel (drop 16 ws) (sha1_compress st (take 16 ws))
  | _, _ => st
  end.
Definition Sha1 (msg : list Z) : list Z :=
  let ws := words_of (pad msg) in
  mjoin (be_bytes 4 <$> sha1_blocks (length ws) ws [1732584193; 4023233417; 2562383102; 271733878; 3285377520]).

Example sha1_abc : hex_encode (Sha1 (bytes_of "abc")) = "a9993e364706816aba3e25717850c26c9cd0d89d"%string.
Proof. vm_compute. reflexivity. Qed.

Definition upper_byte (c : ascii) : ascii := if is_lower c then byte_of (byte_val c - 32) else c.
Fixpoint to_upper (s : string) : string := match s with EmptyString => EmptyString | String c s => String (upper_byte c) (to_upper s) end.

Definition product_namespace : list Z := [205; 95; 25; 198; 146; 79; 95; 139; 157; 228; 193; 181; 227; 115; 70; 254].
Definition productCode (version arch : string) : string :=
  let b := take 16 (Sha1 (product_namespace ++ bytes_of ("product/" +:+ version +:+ "/" +:+ arch))) in
  let b := alter (λ x, Z.lor (Z.land x 15) 80) 6%nat b in
  let b := alter (λ x, Z.lor (Z.land x 63) 128) 8%nat b in
  let part (from to : nat) := hex_encode (take (to - from) (drop from b)) in
  to_upper ("{" +:+ join "-" [part 0 4; part 4 6; part 6 8; part 8 10; part 10 16]%nat +:+ "}").

(** ** Options *)

Record DistributionURL := mkDistributionURL { U_Scheme : string; U_Host : string; U_RawQuery : string; U_Fragment : string }.
(** The directory of the artifacts by its files, which nothing changes while the promotion
    runs: the bytes that are copied are those that were verified.  Neither directory is the empty text. *)
Record DistributionOptions := mkDistributionOptions {
  ArtifactDir : directory; D_Version : string; Channel : string; ReleaseBaseURL : string; RepositoryBaseURL : string; PublishedAt : zoned;
}.

Section options.
Context (parse_url : string → go DistributionURL).
Definition absolute_https (raw : string) : bool :=
  match parse_url raw with
  | Ok u => String.eqb (U_Scheme u) "https" && negb (String.eqb (U_Host u) "") && String.eqb (U_RawQuery u) "" && String.eqb (U_Fragment u) ""
  | Err _ => false
  end.
Definition validateDistribution (o : DistributionOptions) : go unit :=
  reject negb (match_version (D_Version o)) with "version %q must be a semantic release tag"%string ;;
  reject negb (String.eqb (Channel o) "stable") && negb (String.eqb (Channel o) "beta") with "channel must be stable or beta"%string ;;
  let prerelease := contains_byte "-"%char (trim_prefix (D_Version o) "v") in
  reject String.eqb (Channel o) "stable" && prerelease with "stable promotion rejects prerelease versions"%string ;;
  reject String.eqb (Channel o) "beta" && negb prerelease with "beta promotion requires a prerelease version"%string ;;
  reject IsZero (instant (PublishedAt o)) || negb (instant (PublishedAt o) mod Second =? 0) with "published-at must be a whole-second UTC timestamp"%string ;;
  reject negb (absolute_https (ReleaseBaseURL o)) || negb (absolute_https (RepositoryBaseURL o)) with "%s must be an absolute HTTPS URL"%string ;;
  Ok tt.
End options.

(** ** Verification *)

Record checksumEntry := mkChecksumEntry { Digest : string; Size : Z }.

Definition verify_artifact (d : directory) (name digest : string) : go checksumEntry :=
  match d !! name with
  | Some (file contents) =>
    reject (slen contents <? 1) || (maxArtifactSize <? slen contents) with ("artifact " +:+ name +:+ " is not a bounded regular file")%string ;;
    let actual := sha256_hex (limited (maxArtifactSize + 1) contents) in
    reject negb (String.eqb actual digest) with ("checksum mismatch for " +:+ name)%string ;;
    Ok (mkChecksumEntry actual (slen contents))
  | Some _ => Err ("artifact " +:+ name +:+ " is not a bounded regular file")%string
  | None => Err ("inspect " +:+ name +:+ ": no such file or directory")%string
  end.

Definition verifyArtifacts (d : directory) : go (list (string * checksumEntry)) :=
  try text := file_contents "open release checksum manifest: %w" d "SHA256SUMS" ;;
  read_manifest safeName (verify_artifact d) text.

(** ** [deb.go] *)

Definition identity_fields : list string := ["Package"; "Version"; "Architecture"]%string.
Fixpoint control_fields (fields : gmap string string) (lines : list string) : go (gmap string string) :=
  match lines with
  | [] => Ok fields
  | line :: lines =>
    match Cut ": " line with
    | Some (key, value) =>
      if bool_decide (key ∈ identity_fields) then
        reject bool_decide (is_Some (fields !! key)) with "duplicate Debian control identity field"%string ;;
        control_fields (<[key := value]> fields) lines
      else control_fields fields lines
    | None => control_fields fields lines
    end
  end.

(** [strings.Replace] of the first dash *)
Definition debian_version (version : string) : string :=
  match cut_byte "-"%char version with Some (a, b) => a +:+ "~" +:+ b +:+ "-1" | None => version +:+ "-1" end%string.

Section deb.
(** The entries of the first MiB of a gzip archive of tar format, as far as they can be read. *)
Context (untar : string → go (list TarEntry)).

Fixpoint control_entry (version arch : string) (entries : list TarEntry) : go string :=
  match entries with
  | [] => Err "Debian control file missing or truncated"%string
  | e :: entries =>
    if negb (String.eqb (Tar_Name e) "./control") && negb (String.eqb (Tar_Name e) "control") then control_entry version arch entries
    else
      reject negb (Tar_Regular e) || (Tar_Size e <? 1) || (65536 <? Tar_Size e) with "invalid Debian control file"%string ;;
      try body := Tar_Body e ;;
      let '(lines, long) := scan_lines MaxScanTokenSize body in
      try fields := control_fields ∅ lines ;;
      reject long with "read Debian control: %w"%string ;;
      let field name := default ""%string (fields !! name) in
      reject negb (String.eqb (field "Package"%string) "topo") || negb (String.eqb (field "Architecture"%string) arch) || negb (String.eqb (field "Version"%string) (debian_version version))
        with "Debian control identity does not match release version and architecture"%string ;;
      Ok (field "Version"%string)
  end.

(** [between s from to] is [s[from:to]]. *)
Definition between (s : string) (from to : nat) : string := take_string (to - from) (drop_string from s).

Fixpoint deb_members (members : nat) (version arch rest : string) : go string :=
  match members with
  | O => Err "Debian archive has too many members"%string
  | S members =>
    reject slen rest <? 60 with "Debian control archive missing or truncated"%string ;;
    let header := take_string 60 rest in
    let rest := drop_string 60 rest in
    match Atoi (trim_space (between header 48 58)) with
    | None => Err "invalid Debian member header"%string
    | Some size =>
      reject (size <? 0) || (maxArtifactSize <? size) || negb (String.eqb (drop_string 58 header) ("`" +:+ String LF "")%string) with "invalid Debian member header"%string ;;
      let name := trim_suffix (trim_space (between header 0 16)) "/" in
      if String.eqb name "control.tar.gz" then
        reject 2^20 <? size with "Debian control archive exceeds limit"%string ;;
        try entries := untar (limited size rest) ;;
        control_entry version arch entries
      else
        let skipped := size + size mod 2 in
        reject slen rest <? skipped with "truncated Debian archive member"%string ;;
        deb_members members version arch (drop_string (Z.to_nat skipped) rest)
    end
  end.

Definition ar_magic : string := "!<arch>" +:+ String LF "".
Definition debVersion (contents version arch : string) : go string :=
  match cut_prefix contents ar_magic with
  | Some rest => deb_members 16 version arch rest
  | None => Err "invalid Debian archive"%string
  end.
End deb.

(** ** What is written *)

Record ReleaseSource := mkReleaseSource { S_Profile : string; S_SchemaVersion : Z; S_Project : string; S_Repository : string; S_Version : string; S_Commit : string }.
Record Promotion := mkPromotion {
  Promotion_Profile : string; Promotion_SchemaVersion : Z; Promotion_Version : string; Promotion_Commit : string; Promotion_Channel : string;
  Promotion_PublishedAt : string; Promotion_Source : string; Promotion_Artifacts : gmap string string;
}.

Definition trim_right_slash (url : string) : string := string_rev (trim_left_byte "/"%char (string_rev url)).

Definition deb_name (version arch : string) : string := ("topo_" +:+ version +:+ "_" +:+ arch +:+ ".deb")%string.
Definition rpm_name (version arch : string) : string := ("topo-" +:+ version +:+ "-1." +:+ arch +:+ ".rpm")%string.
Definition tar_name (version platform arch : string) : string := ("topo_" +:+ version +:+ "_" +:+ platform +:+ "_" +:+ arch +:+ ".tar.gz")%string.
Definition msi_name (version arch : string) : string := ("topo_" +:+ version +:+ "_windows_" +:+ arch +:+ ".msi")%string.
Definition chart_name (version : string) : string := ("topo-" +:+ version +:+ ".tgz")%string.

Definition required_artifacts (version : string) (windows : bool) : list string :=
  [deb_name version "amd64"; deb_name version "arm64"; rpm_name version "x86_64"; rpm_name version "aarch64";
   tar_name version "darwin" "amd64"; tar_name version "darwin" "arm64"; tar_name version "linux" "amd64"; tar_name version "linux" "arm64"; chart_name version]
  ++ (if windows then [msi_name version "amd64"; msi_name version "arm64"] else []).

Fixpoint select_artifacts (checksums : gmap string checksumEntry) (selected : gmap string string) (names : list string) : go (gmap string string) :=
  match names with
  | [] => Ok selected
  | name :: names =>
    match checksums !! name with
    | Some e => select_artifacts checksums (<[name := Digest e]> selected) names
    | None => Err ("release checksum manifest omits required artifact " +:+ name)%string
    end
  end.

Definition no_entry : checksumEntry := mkChecksumEntry "" 0.
Definition entry_of (checksums : gmap string checksumEntry) (name : string) : checksumEntry := default no_entry (checksums !! name).

(** APT *)
Definition pool_path (name : string) : string := ("pool/main/t/topo/" +:+ name)%string.
Definition packages_text (packageVersion arch name : string) (e : checksumEntry) : string :=
  lines_text ["Package: topo"; "Version: " +:+ packageVersion; "Architecture: " +:+ arch; "Maintainer: Nischoy <security@nischoy.com>"; "Filename: " +:+ pool_path name;
    "Size: " +:+ decimal (Size e); "SHA256: " +:+ Digest e; "Section: admin"; "Priority: optional"; "Homepage: https://github.com/Nischoy-ai/topo";
    "Description: Destination-neutral infrastructure discovery data plane"; ""]%string.
Definition dists_root (channel : string) : string := ("apt/dists/" +:+ channel)%string.
Definition packages_dir (channel arch : string) : string := (dists_root channel +:+ "/main/binary-" +:+ arch)%string.
Definition packages_path (channel arch : string) : string := (packages_dir channel arch +:+ "/Packages")%string.
Definition by_hash_path (channel arch digest : string) : string := (packages_dir channel arch +:+ "/by-hash/SHA256/" +:+ digest)%string.

(** The index files in order, relative to the root of the channel. *)
Definition index_files : list string :=
  sort_by str_lt ["main/binary-amd64/Packages"; "main/binary-amd64/Packages.gz"; "main/binary-arm64/Packages"; "main/binary-arm64/Packages.gz"]%string.

Definition release_text (o : DistributionOptions) (index : list (string * string)) : string :=
  (lines_text ["Origin: Nischoy"; "Label: Nischoy Topo"; "Suite: " +:+ Channel o; "Codename: " +:+ Channel o;
     "Date: " +:+ RFC1123 (PublishedAt o); "Valid-Until: " +:+ RFC1123 (mkZoned (Add (instant (PublishedAt o)) aptValidity) (offset (PublishedAt o)));
     "Architectures: amd64 arm64"; "Components: main"; "Description: Nischoy Topo packages"; "Acquire-By-Hash: yes"; "SHA256:"]
   +:+ lines_text ((λ f, " " +:+ sha256_hex f.2 +:+ " " +:+ decimal (slen f.2) +:+ " " +:+ f.1) <$> index))%string.

Definition sources_text (o : DistributionOptions) : string :=
  lines_text ["Types: deb"; "URIs: " +:+ trim_right_slash (RepositoryBaseURL o) +:+ "/apt"; "Suites: " +:+ Channel o; "Components: main"; "Architectures: amd64 arm64";
    "Signed-By: /etc/apt/keyrings/nischoy-topo.gpg"]%string.

(** RPM *)
Definition repo_text (o : DistributionOptions) : string :=
  lines_text ["[nischoy-topo-" +:+ Channel o +:+ "]"; "name=Nischoy Topo (" +:+ Channel o +:+ ")"; "baseurl=" +:+ trim_right_slash (RepositoryBaseURL o) +:+ "/rpm/" +:+ Channel o +:+ "/$basearch";
    "enabled=1"; "gpgcheck=1"; "repo_gpgcheck=1"; "gpgkey=" +:+ trim_right_slash (RepositoryBaseURL o) +:+ "/keys/nischoy-topo-archive.asc"]%string.

(** Homebrew *)
Definition quoted_text (s : string) : string := (dquote +:+ s +:+ dquote)%string.
Section formula.
Context (Quote : string → string).
Definition formula_block (url : string → string) (checksums : gmap string checksumEntry) (name : string) : list string :=
  ["      url " +:+ Quote (url name); "      sha256 " +:+ Quote (Digest (entry_of checksums name)); "    end"]%string.
Definition formula_text (o : DistributionOptions) (checksums : gmap string checksumEntry) (version : string) (url : string → string) : string :=
  let beta := String.eqb (Channel o) "beta" in
  let block platform arch := formula_block url checksums (tar_name version platform arch) in
  lines_text (["class " +:+ (if beta then "TopoBeta" else "Topo") +:+ " < Formula"; "  desc " +:+ quoted_text "Destination-neutral infrastructure discovery data plane";
     "  homepage " +:+ quoted_text "https://github.com/Nischoy-ai/topo"; "  license " +:+ quoted_text "Apache-2.0"; ""; "  on_macos do"; "    on_intel do"]
    ++ block "darwin" "amd64" ++ ["    on_arm do"] ++ block "darwin" "arm64" ++ ["  end"; ""; "  on_linux do"; "    on_intel do"]
    ++ block "linux" "amd64" ++ ["    on_arm do"] ++ block "linux" "arm64" ++ ["  end"; "";
     "  conflicts_with " +:+ Quote (if beta then "nischoy-ai/tap/topo" else "nischoy-ai/tap/topo-beta") +:+ ", because: " +:+ quoted_text "both install the topo executable"; "";
     "  def install"; "    bin.install " +:+ quoted_text "topo"; "    doc.install " +:+ quoted_text "LICENSE" +:+ ", " +:+ quoted_text "README.md"; "  end"; "";
     "  test do"; "    assert_equal " +:+ Quote (D_Version o) +:+ ", shell_output(" +:+ quoted_text "#{bin}/topo version" +:+ ").strip";
     "    observations = shell_output(" +:+ quoted_text "#{bin}/topo discover local" +:+ ")"; "    assert_match '" +:+ quoted_text "assets" +:+ ":', observations"; "  end"; "end"])%list%string.
Definition formula_path (o : DistributionOptions) : string := if String.eqb (Channel o) "beta" then "homebrew/Formula/topo-beta.rb" else "homebrew/Formula/topo.rb".
End formula.

(** WinGet *)
Definition download_url (o : DistributionOptions) (name : string) : string :=
  (trim_right_slash (ReleaseBaseURL o) +:+ "/releases/download/" +:+ D_Version o +:+ "/" +:+ name)%string.
Definition winget_installer (o : DistributionOptions) (checksums : gmap string checksumEntry) (version : string) : string :=
  let installer architecture arch :=
    ["  - Architecture: " +:+ architecture; "    InstallerUrl: " +:+ download_url o (msi_name version arch);
     "    InstallerSha256: " +:+ to_upper (Digest (entry_of checksums (msi_name version arch))); "    ProductCode: " +:+ productCode (D_Version o) arch]%string in
  lines_text (["# yaml-language-server: $schema=https://aka.ms/winget-manifest.installer.1.10.0.schema.json"; "PackageIdentifier: Nischoy.Topo"; "PackageVersion: " +:+ version;
     "InstallerType: msi"; "Scope: machine"; "UpgradeBehavior: install"; "Commands:"; "  - topo"; "Installers:"]
    ++ installer "x64" "amd64" ++ installer "arm64" "arm64" ++ ["ManifestType: installer"; "ManifestVersion: 1.10.0"])%list%string.
Definition winget_locale (o : DistributionOptions) (version : string) : string :=
  lines_text ["# yaml-language-server: $schema=https://aka.ms/winget-manifest.defaultLocale.1.10.0.schema.json"; "PackageIdentifier: Nischoy.Topo"; "PackageVersion: " +:+ version;
    "PackageLocale: en-US"; "Publisher: Nischoy"; "PublisherUrl: https://github.com/Nischoy-ai"; "PublisherSupportUrl: https://github.com/Nischoy-ai/topo/issues"; "PackageName: Nischoy Topo";
    "PackageUrl: https://github.com/Nischoy-ai/topo"; "License: Apache-2.0"; "LicenseUrl: https://github.com/Nischoy-ai/topo/blob/" +:+ D_Version o +:+ "/LICENSE";
    "ShortDescription: Destination-neutral infrastructure discovery data plane"; "Tags:"; "  - cmdb"; "  - discovery"; "  - infrastructure"; "ManifestType: defaultLocale"; "ManifestVersion: 1.10.0"]%string.
Definition winget_version (version : string) : string :=
  lines_text ["# yaml-language-server: $schema=https://aka.ms/winget-manifest.version.1.10.0.schema.json"; "PackageIdentifier: Nischoy.Topo"; "PackageVersion: " +:+ version;
    "DefaultLocale: en-US"; "ManifestType: version"; "ManifestVersion: 1.10.0"]%string.
Definition winget_path (version name : string) : string := ("winget/manifests/n/Nischoy/Topo/" +:+ version +:+ "/" +:+ name)%string.
Definition winget_files (o : DistributionOptions) (checksums : gmap string checksumEntry) (version : string) : list (string * string) :=
  [("Nischoy.Topo.installer.yaml", winget_installer o checksums version); ("Nischoy.Topo.locale.en-US.yaml", winget_locale o version); ("Nischoy.Topo.yaml", winget_version version)]%string.

(** ** The tool *)
Section distribution.
Context (quiet : IOInput) (leftover : directory → option directory).
Context (parse_url : string → go DistributionURL) (untar : string → go (list TarEntry)) (gzip Quote : string → string).
Context (parse_source : string → go ReleaseSource) (marshal_promotion : Promotion → string).
(** How the map of the WinGet files is ranged over. *)
Context (ranged : list (string * string) → list (string * string)).

Abbreviation tool := (prog IOInput (option directory)).

Definition copyArtifact (o : DistributionOptions) (name path : string) : tool unit :=
  contents ← look_at quiet "open" (match ArtifactDir o !! name with
                                   | Some (file contents) => reject maxArtifactSize <? slen contents with "input %s is not a bounded regular file"%string ;; Ok contents
                                   | Some _ => Err "input %s is not a bounded regular file"%string
                                   | None => Err "open: no such file or directory"%string
                                   end);
  create quiet "copy" path contents.

(** The digest under which a written index file is also found, and the file there. *)
Definition copy_by_hash (channel arch path : string) : tool unit :=
  contents ← observe quiet "open" (λ d, file_contents "open" d path);
  create quiet "copy" (by_hash_path channel arch (sha256_hex contents)) contents.

Definition writeAPT_arch (o : DistributionOptions) (checksums : gmap string checksumEntry) (version arch : string) : tool unit :=
  let name := deb_name version arch in
  _ ← copyArtifact o name ("apt/" +:+ pool_path name)%string;
  contents ← look_at quiet "open" (file_contents "open" (ArtifactDir o) name);
  packageVersion ← wrapping ("inspect " +:+ name)%string (lift (debVersion untar contents version arch));
  let packages := packages_text packageVersion arch name (entry_of checksums name) in
  let path := packages_path (Channel o) arch in
  _ ← WriteFile quiet "open" path packages;
  _ ← create quiet "open" (path +:+ ".gz")%string (gzip packages);
  _ ← copy_by_hash (Channel o) arch path;
  copy_by_hash (Channel o) arch (path +:+ ".gz")%string.

Fixpoint read_index (d : directory) (channel : string) (names : list string) : go (list (string * string)) :=
  match names with
  | [] => Ok []
  | name :: names =>
    try contents := file_contents "open" d (dists_root channel +:+ "/" +:+ name)%string ;;
    try l := read_index d channel names ;; Ok ((name, contents) :: l)
  end.

Definition writeAPT (o : DistributionOptions) (checksums : gmap string checksumEntry) (version : string) : tool unit :=
  _ ← writeAPT_arch o checksums version "amd64";
  _ ← writeAPT_arch o checksums version "arm64";
  index ← observe quiet "open" (λ d, read_index d (Channel o) index_files);
  _ ← WriteFile quiet "open" (dists_root (Channel o) +:+ "/Release")%string (release_text o index);
  WriteFile quiet "open" ("apt/nischoy-topo-" +:+ Channel o +:+ ".sources")%string (sources_text o).

Definition rpm_path (o : DistributionOptions) (version arch : string) : string :=
  ("rpm/" +:+ Channel o +:+ "/" +:+ arch +:+ "/Packages/t/" +:+ rpm_name version arch)%string.
Definition writeRPM (o : DistributionOptions) (version : string) : tool unit :=
  _ ← copyArtifact o (rpm_name version "x86_64") (rpm_path o version "x86_64");
  _ ← copyArtifact o (rpm_name version "aarch64") (rpm_path o version "aarch64");
  WriteFile quiet "open" ("rpm/nischoy-topo-" +:+ Channel o +:+ ".repo")%string (repo_text o).

Definition writeHomebrewWithURLs (o : DistributionOptions) (checksums : gmap string checksumEntry) (version : string) (assetURL : string → string) : tool unit :=
  WriteFile quiet "open" (formula_path o) (formula_text Quote o checksums version assetURL).
Definition writeHomebrew (o : DistributionOptions) (checksums : gmap string checksumEntry) (version : string) : tool unit :=
  writeHomebrewWithURLs o checksums version (download_url o).

Fixpoint write_all (version : string) (files : list (string * string)) : tool unit :=
  match files with
  | [] => mret tt
  | (name, contents) :: files => _ ← WriteFile quiet "open" (winget_path version name) contents; write_all version files
  end.
Definition writeWinGet (o : DistributionOptions) (checksums : gmap string checksumEntry) (version : string) : tool unit :=
  write_all version (ranged (winget_files o checksums version)).

Definition source_matches (s : ReleaseSource) (version : string) : bool :=
  (S_SchemaVersion s =? 1) && String.eqb (S_Project s) projectName && String.eqb (S_Repository s) repository && String.eqb (S_Version s) version && match_commit (S_Commit s).

(** What is read of the artifacts: the checksums, the source, the policy and the selection. *)
Definition verified_release (o : DistributionOptions) : go (gmap string checksumEntry * ReleaseSource * ReleasePolicy * gmap string string) :=
  try entries := verifyArtifacts (ArtifactDir o) ;;
  let checksums : gmap string checksumEntry := list_to_map entries in
  reject bool_decide (checksums !! metadataName = None) with "release checksum manifest omits release-metadata.json"%string ;;
  try contents := file_contents "read release metadata: %w" (ArtifactDir o) metadataName ;;
  try source := parse_source contents ;;
  reject negb (source_matches source (D_Version o)) with "release metadata does not describe %s"%string ;;
  try _ := CheckProfileFiles (ArtifactDir o) (S_Profile source) (D_Version o) ;;
  try policy := PolicyForProfile (S_Profile source) (D_Version o) ;;
  try selected := select_artifacts checksums ∅ (required_artifacts (trim_prefix (D_Version o) "v") (IncludeWindows policy)) ;;
  Ok (checksums, source, policy, selected).

Definition distribution_body (o : DistributionOptions) : tool unit :=
  verified ← look_at quiet "read" (verified_release o);
  let '(checksums, source, policy, selected) := verified in
  let version := trim_prefix (D_Version o) "v" in
  _ ← writeAPT o checksums version;
  _ ← writeRPM o version;
  _ ← writeHomebrew o checksums version;
  _ ← (if IncludeWindows policy then writeWinGet o checksums version else mret tt);
  _ ← copyArtifact o (chart_name version) ("helm/" +:+ chart_name version)%string;
  WriteFile quiet "open" "promotion-metadata.json"
    (newline_after (marshal_promotion (mkPromotion (S_Profile source) 1 (D_Version o) (S_Commit source) (Channel o) (zoned_RFC3339 (PublishedAt o))
       (trim_right_slash (ReleaseBaseURL o) +:+ "/releases/tag/" +:+ D_Version o)%string selected))).

Definition Distribution_Build (o : DistributionOptions) : tool unit :=
  _ ← lift (validateDistribution parse_url o);
  new_output quiet leftover (distribution_body o).

(** [WriteHomebrewFixture]: [file_url] is the URL of an archive in the directory. *)
Context (unmarshal : string → go Metadata) (file_url : string → string).
Definition fixture_archives (version : string) : list string :=
  [tar_name version "darwin" "amd64"; tar_name version "darwin" "arm64"; tar_name version "linux" "amd64"; tar_name version "linux" "arm64"].
Definition homebrew_fixture (d : directory) (version : string) : go (gmap string checksumEntry) :=
  try _ := ReadPolicy unmarshal d version ;;
  reject negb (contains_byte "-"%char version) with "Homebrew fixture requires a prerelease"%string ;;
  try entries := verifyArtifacts d ;;
  let checksums : gmap string checksumEntry := list_to_map entries in
  reject bool_decide (checksums !! metadataName = None) with "fixture checksums omit release metadata"%string ;;
  reject existsb (λ name, bool_decide (checksums !! name = None)) (fixture_archives (trim_prefix version "v")) with "fixture requires all four Linux/macOS archives"%string ;;
  Ok checksums.
Definition WriteHomebrewFixture (d : directory) (version : string) (publishedAt : zoned) : tool unit :=
  checksums ← look_at quiet "read" (homebrew_fixture d version);
  _ ← with_input quiet (λ i w, match io_ending i with
                               | Answered => if w is Some _ then (Failed "fixture output must not exist"%string, w) else (Done tt, Some ∅)
                               | Failing => (Failed "fixture output must not exist"%string, w)
                               | Dying => (Crashed, w)
                               end);
  writeHomebrewWithURLs (mkDistributionOptions ∅ version "beta" "" "" publishedAt) checksums (trim_prefix version "v") file_url.
End distribution.

(** ** What a promotion publishes *)

(** A line of the checksum manifest *)
Definition listed (d : directory) (name digest : string) : Prop :=
  ∃ text line, d !! "SHA256SUMS"%string = Some (file text) ∧ line ∈ (scan_lines MaxScanTokenSize (limited manifest_limit text)).1 ∧ Cut "  " line = Some (digest, name).

Lemma verify_artifact_spec d name digest e : verify_artifact d name digest = Ok e →
  ∃ c, d !! name = Some (file c) ∧ 1 <= slen c <= maxArtifactSize ∧ digest = sha256_hex c ∧ e = mkChecksumEntry (sha256_hex c) (slen c).
Proof.
  unfold verify_artifact. destruct (d !! name) as [[c| |]|]; [|done..]. destruct ((slen c <? 1) || (maxArtifactSize <? slen c)) eqn:Hs; [done|].
  apply orb_false_iff in Hs as [H1%Z.ltb_ge H2%Z.ltb_ge]. rewrite limited_small by lia. destruct (String.eqb_spec (sha256_hex c) digest) as [<-|]; [|done].
  intros [= <-]. exists c. split_and!; done.
Qed.

Lemma verifyArtifacts_spec d entries : verifyArtifacts d = Ok entries →
  NoDup entries.*1 ∧ ∀ name e, (name, e) ∈ entries → ∃ c, d !! name = Some (file c) ∧ e = mkChecksumEntry (sha256_hex c) (slen c) ∧ listed d name (sha256_hex c).
Proof.
  unfold verifyArtifacts, file_contents. destruct (d !! "SHA256SUMS"%string) as [[text| |]|] eqn:Hm; [|done..]. intros [Hnd H]%read_manifest_entries. split; [done|].
  intros name e (line&digest&Hl&Hc&_&(c&Hd&_&->&->)%verify_artifact_spec)%H. exists c. split; [done|]. split; [done|]. by exists text, line.
Qed.

Lemma select_artifacts_listed checksums selected names selected' : select_artifacts checksums selected names = Ok selected' →
  ∀ name, name ∈ names → is_Some (checksums !! name).
Proof.
  revert selected. induction names as [|n names IH]; intros selected; cbn [select_artifacts]; [intros _ name ?%not_elem_of_nil; done|].
  destruct (checksums !! n) as [e|] eqn:Hn; [|done]. intros Hs name [->|Hin]%elem_of_cons; [by rewrite Hn|by eapply IH].
Qed.

Section promotion.
Context (o : DistributionOptions) (windows : bool).

(** Where artifacts are put, and where nothing is to be. *)
Definition placed (p : string) : bool :=
  has_prefix p "apt/pool/" || has_prefix p ("rpm/" +:+ Channel o +:+ "/") || has_prefix p "helm/" || (negb windows && has_prefix p "winget/").

Record promoted (copied index : list (string * string)) (d : directory) : Prop := {
  promoted_copies : ∀ p name, (p, name) ∈ copied → ∃ c, ArtifactDir o !! name = Some (file c) ∧ d !! p = Some (file c);
  promoted_only : ∀ p, placed p = true → is_Some (d !! p) → p ∈ copied.*1;
  promoted_places : ∀ p name, (p, name) ∈ copied → placed p = true;
  promoted_index : ∀ p text, (p, text) ∈ index → d !! p = Some (file text);
}.

Lemma placed_false p : has_prefix p "apt/pool/" = false → has_prefix p ("rpm/" +:+ Channel o +:+ "/") = false → has_prefix p "helm/" = false → has_prefix p "winget/" = false → placed p = false.
Proof. intros H1 H2 H3 H4. unfold placed. by rewrite H1, H2, H3, H4, andb_false_r. Qed.

Lemma promoted_insert copied index d p c : placed p = false → p ∉ index.*1 → promoted copied index d → promoted copied index (<[p := file c]> d).
Proof.
  intros Hp Hi [H1 H2 H3 H4]. split; [| |done|].
  - intros q name Hin. rewrite lookup_insert_ne; [auto|]. intros <-. by rewrite (H3 _ _ Hin) in Hp.
  - intros q Hq. destruct (decide (p = q)) as [<-|Hne]; [congruence|]. rewrite lookup_insert_ne by done. auto.
  - intros q text Hin. rewrite lookup_insert_ne; [auto|]. intros <-. apply Hi. apply list_elem_of_fmap. by exists (p, text).
Qed.

Section fills.
Context (quiet : IOInput).
Abbreviation fills_with copied index p := (fills (promoted copied index) p (λ _, promoted copied index)).

(** A file that is written beside the artifacts, and one that the index is to keep. *)
Lemma promoted_write copied index text p c : placed p = false → p ∉ index.*1 → fills_with copied index (WriteFile quiet text p c).
Proof. intros Hp Hi. apply fills_change. intros d d' Hd [= <-]. by apply promoted_insert. Qed.

Lemma promoted_index_write copied index text p c : placed p = false → p ∉ index.*1 →
  fills (promoted copied index) (WriteFile quiet text p c) (λ _, promoted copied ((p, c) :: index)).
Proof.
  intros Hp Hi. apply fills_change. intros d d' Hd [= <-]. destruct (promoted_insert copied index d p c Hp Hi Hd) as [H1 H2 H3 H4]. split; [done..|].
  intros q text' [[= -> ->]|Hin]%elem_of_cons; [apply lookup_insert_eq|by apply H4].
Qed.

Lemma promoted_create copied index text p c : placed p = false → fills_with copied index (create quiet text p c).
Proof.
  intros Hp. apply fills_change. intros d d' Hd. destruct (d !! p) eqn:Hn; [done|]. intros [= <-]. apply promoted_insert; [done| |done].
  intros ([q t]&->&Hin)%list_elem_of_fmap. cbn in Hn. by rewrite (promoted_index _ _ _ Hd _ _ Hin) in Hn.
Qed.

Lemma promoted_copy copied index name p : placed p = true → fills (promoted copied index) (copyArtifact quiet o name p) (λ _, promoted ((p, name) :: copied) index).
Proof.
  intros Hp. unfold copyArtifact. eapply fills_bind with (Q := λ c d, promoted copied index d ∧ ArtifactDir o !! name = Some (file c)).
  - apply fills_look. intros c d Hc Hd. split; [done|]. destruct (ArtifactDir o !! name) as [[c'| |]|]; [|done..]. by destruct (_ <? _); simplify_eq.
  - intros c. apply fills_change. intros d d' [[H1 H2 H3 H4] Hc]. destruct (d !! p) eqn:Hn; [done|]. intros [= <-]. split.
    + intros q n [[= -> ->]|Hin]%elem_of_cons; [exists c; by rewrite lookup_insert_eq|]. destruct (H1 q n Hin) as (c'&?&Hq). exists c'. split; [done|]. rewrite lookup_insert_ne; [done|congruence].
    + intros q Hq. rewrite fmap_cons, elem_of_cons. destruct (decide (p = q)) as [<-|Hne]; [by left|]. rewrite lookup_insert_ne by done. right. auto.
    + intros q n [[= -> ->]|Hin]%elem_of_cons; [done|by eapply H3].
    + intros q t Hin. rewrite lookup_insert_ne; [auto|]. intros <-. by rewrite (H4 _ _ Hin) in Hn.
Qed.

Lemma promoted_look {A} text (r : go A) copied index : fills (promoted copied index) (look_at quiet text r) (λ a d, promoted copied index d ∧ r = Ok a).
Proof. by apply fills_look. Qed.
Lemma promoted_observe {A} text (f : directory → go A) copied index : fills_with copied index (observe quiet text f).
Proof. by apply fills_observe. Qed.

Context (untar : string → go (list TarEntry)) (gzip Quote : string → string) (checksums : gmap string checksumEntry) (version : string).
Hypothesis Hchannel : Channel o = "stable"%string ∨ Channel o = "beta"%string.

(** The index of an architecture describes the package in the pool. *)
Definition index_of_deb (arch text : string) : Prop :=
  ∃ c packageVersion, ArtifactDir o !! deb_name version arch = Some (file c) ∧ debVersion untar c version arch = Ok packageVersion ∧
    text = packages_text packageVersion arch (deb_name version arch) (entry_of checksums (deb_name version arch)).

Lemma promoted_by_hash copied index arch p : fills_with copied index (copy_by_hash quiet (Channel o) arch p).
Proof. unfold copy_by_hash. eapply fills_bind; [apply promoted_observe|]. intros c. by apply promoted_create, placed_false. Qed.

Lemma promoted_apt_arch copied index arch : packages_path (Channel o) arch ∉ index.*1 →
  fills (promoted copied index) (writeAPT_arch quiet untar gzip o checksums version arch)
    (λ _ d, ∃ text, promoted (("apt/" +:+ pool_path (deb_name version arch), deb_name version arch)%string :: copied) ((packages_path (Channel o) arch, text) :: index) d ∧ index_of_deb arch text).
Proof.
  intros Hi. unfold writeAPT_arch. eapply fills_bind; [by apply promoted_copy|]. intros []. eapply fills_bind; [apply promoted_look|]. intros c. apply fills_pure. intros Hc.
  eapply fills_bind with (Q := λ pv d, promoted (("apt/" +:+ pool_path (deb_name version arch), deb_name version arch)%string :: copied) index d ∧ debVersion untar c version arch = Ok pv).
  { apply fills_wrapping, fills_lift. intros pv d Hpv Hd. done. }
  intros pv. apply fills_pure. intros Hpv. eapply fills_bind; [by apply promoted_index_write; [apply placed_false|]|]. intros []. eapply fills_bind; [by apply promoted_create, placed_false|]. intros [].
  eapply fills_bind; [apply promoted_by_hash|]. intros []. eapply fills_mono; [apply promoted_by_hash|]. intros [] d Hd. eexists. split; [exact Hd|].
  exists c, pv. split; [|done]. unfold file_contents in Hc. destruct (ArtifactDir o !! _) as [[c'| |]|]; [|done..]. by injection Hc as ->.
Qed.

Ltac path_differs := destruct Hchannel as [-> | ->]; refine (bool_decide_unpack _ _); vm_compute; exact I.

Lemma promoted_apt copied : fills (promoted copied []) (writeAPT quiet untar gzip o checksums version)
  (λ _ d, ∃ amd64 arm64, promoted (((λ arch, ("apt/" +:+ pool_path (deb_name version arch), deb_name version arch)%string) <$> ["arm64"; "amd64"]%string) ++ copied) [(packages_path (Channel o) "arm64", arm64); (packages_path (Channel o) "amd64", amd64)] d
     ∧ index_of_deb "amd64" amd64 ∧ index_of_deb "arm64" arm64).
Proof.
  unfold writeAPT. eapply fills_bind; [apply promoted_apt_arch; set_solver|]. intros []. apply fills_exists. intros amd64. apply fills_pure. intros Hamd.
  eapply fills_bind; [apply promoted_apt_arch; path_differs|]. intros []. apply fills_exists. intros arm64. apply fills_pure. intros Harm.
  eapply fills_bind; [apply promoted_observe|]. intros index. eapply fills_bind.
  { apply promoted_write; [by apply placed_false|]. path_differs. }
  intros []. eapply fills_mono; [apply promoted_write; [by apply placed_false|path_differs]|]. intros [] d Hd. by exists amd64, arm64.
Qed.

Lemma promoted_rpm copied index : ("rpm/nischoy-topo-" +:+ Channel o +:+ ".repo")%string ∉ index.*1 →
  fills (promoted copied index) (writeRPM quiet o version)
    (λ _, promoted (((λ arch, (rpm_path o version arch, rpm_name version arch)) <$> ["aarch64"; "x86_64"]%string) ++ copied) index).
Proof.
  intros Hi. assert (∀ arch, placed (rpm_path o version arch) = true) as Hp.
  { intros arch. unfold placed, rpm_path. rewrite <-!(string_app_assoc _ "/"), <-(string_app_assoc "rpm/"), has_prefix_text. by rewrite orb_true_r. }
  unfold writeRPM. eapply fills_bind; [by apply promoted_copy|]. intros []. eapply fills_bind; [by apply promoted_copy|]. intros [].
  apply promoted_write; [|done]. destruct Hchannel as [Hc|Hc]; apply placed_false; by rewrite ?Hc.
Qed.

Lemma promoted_winget copied index files : (∀ p, p ∈ index.*1 → has_prefix p "winget/" = false) → windows = true →
  fills_with copied index (write_all quiet version files).
Proof.
  intros Hi Hw. induction files as [|[name c] files IH]; cbn [write_all]; [by apply fills_ret|].
  eapply fills_bind; [apply promoted_write|intros []; exact IH].
  - unfold placed. by rewrite Hw.
  - intros Hin%Hi. done.
Qed.

(** Every artifact with the path at which it is published *)
Definition published_copies : list (string * string) :=
  [("helm/" +:+ chart_name version, chart_name version)%string] ++ ((λ arch, (rpm_path o version arch, rpm_name version arch)) <$> ["aarch64"; "x86_64"]%string)
  ++ ((λ arch, ("apt/" +:+ pool_path (deb_name version arch), deb_name version arch)%string) <$> ["arm64"; "amd64"]%string).
End fills.
End promotion.

Lemma validated_channel parse_url o : validateDistribution parse_url o = Ok tt →
  (Channel o = "stable"%string ∨ Channel o = "beta"%string) ∧ (Channel o = "stable"%string → contains_byte "-"%char (trim_prefix (D_Version o) "v") = false).
Proof.
  unfold validateDistribution. destruct (negb (match_version (D_Version o))); [done|]. destruct (String.eqb_spec (Channel o) "stable") as [Hs|Hs], (String.eqb_spec (Channel o) "beta") as [Hb|Hb]; try done; cbn [negb andb].
  all: destruct (contains_byte "-"%char _); try done; intros _; (split; [auto|intros ?; congruence]).
Qed.

Section verified.
Context (quiet : IOInput) (leftover : directory → option directory).
Context (parse_url : string → go DistributionURL) (untar : string → go (list TarEntry)) (gzip Quote : string → string).
Context (parse_source : string → go ReleaseSource) (marshal_promotion : Promotion → string) (ranged : list (string * string) → list (string * string)).

Record verified_output (o : DistributionOptions) (checksums : gmap string checksumEntry) (source : ReleaseSource) (policy : ReleasePolicy) (d : directory) : Prop := {
  vo_policy : PolicyForProfile (S_Profile source) (D_Version o) = Ok policy;
  vo_source : source_matches source (D_Version o) = true;
  vo_listed : ∀ name e, checksums !! name = Some e → ∃ c, ArtifactDir o !! name = Some (file c) ∧ e = mkChecksumEntry (sha256_hex c) (slen c) ∧ listed (ArtifactDir o) name (sha256_hex c);
  vo_required : ∀ name, name ∈ required_artifacts (trim_prefix (D_Version o) "v") (IncludeWindows policy) → is_Some (checksums !! name);
  vo_files : ∃ amd64 arm64, promoted o (IncludeWindows policy) (published_copies o (trim_prefix (D_Version o) "v")) [(packages_path (Channel o) "arm64", arm64); (packages_path (Channel o) "amd64", amd64)] d
    ∧ index_of_deb o untar checksums (trim_prefix (D_Version o) "v") "amd64" amd64 ∧ index_of_deb o untar checksums (trim_prefix (D_Version o) "v") "arm64" arm64;
}.

Lemma verified_release_spec o checksums source policy selected : verified_release parse_source o = Ok (checksums, source, policy, selected) →
  PolicyForProfile (S_Profile source) (D_Version o) = Ok policy ∧ source_matches source (D_Version o) = true ∧
  (∀ name e, checksums !! name = Some e → ∃ c, ArtifactDir o !! name = Some (file c) ∧ e = mkChecksumEntry (sha256_hex c) (slen c) ∧ listed (ArtifactDir o) name (sha256_hex c)) ∧
  (∀ name, name ∈ required_artifacts (trim_prefix (D_Version o) "v") (IncludeWindows policy) → is_Some (checksums !! name)).
Proof.
  unfold verified_release. destruct (verifyArtifacts (ArtifactDir o)) as [entries|] eqn:Hv; [|done]. destruct (bool_decide _); [done|].
  destruct (file_contents _ _ metadataName) as [data|]; [|done]. destruct (parse_source data) as [s|]; [|done]. destruct (source_matches s (D_Version o)) eqn:Hs; [|done]. cbn [negb].
  destruct (CheckProfileFiles _ _ _); [|done]. destruct (PolicyForProfile (S_Profile s) _) as [p|] eqn:Hp; [|done].
  destruct (select_artifacts _ _ _) as [sel|] eqn:Hsel; [|done]. intros [= <- <- <- <-]. apply verifyArtifacts_spec in Hv as [Hnd Hv].
  split_and!; [done..| |by eapply select_artifacts_listed]. intros name e He%elem_of_list_to_map_2. by apply Hv.
Qed.

Lemma fills_distribution o : (Channel o = "stable"%string ∨ Channel o = "beta"%string) →
  fills (λ d, d = ∅) (distribution_body quiet untar gzip Quote parse_source marshal_promotion ranged o)
    (λ _ d, ∃ checksums source policy, verified_output o checksums source policy d).
Proof.
  intros Hc. unfold distribution_body. eapply fills_bind with (Q := λ v d, d = ∅ ∧ verified_release parse_source o = Ok v); [by apply fills_look|].
  intros [[[checksums source] policy] selected]. apply fills_pure. intros Hv. pose proof (verified_release_spec _ _ _ _ _ Hv) as (Hp&Hs&Hl&Hr).
  set (version := trim_prefix (D_Version o) "v") in *.
  eapply fills_weaken with (P := promoted o (IncludeWindows policy) [] []) (Q := λ _ d, ∃ amd64 arm64, (promoted o (IncludeWindows policy) (published_copies o version) [(packages_path (Channel o) "arm64", arm64); (packages_path (Channel o) "amd64", amd64)] d
      ∧ index_of_deb o untar checksums version "amd64" amd64 ∧ index_of_deb o untar checksums version "arm64" arm64)).
  2:{ intros d ->. split; [by intros p n ?%not_elem_of_nil|intros p _ [e He]; by rewrite lookup_empty in He|by intros p n ?%not_elem_of_nil|by intros p n ?%not_elem_of_nil]. }
  2:{ intros [] d Hd. by exists checksums, source, policy. }
  eapply fills_bind; [by apply promoted_apt|]. intros []. apply fills_exists. intros amd64. apply fills_exists. intros arm64. apply fills_pure. intros [Hamd Harm].
  eapply fills_bind; [apply promoted_rpm; [done|destruct Hc as [-> | ->]; refine (bool_decide_unpack _ _); vm_compute; exact I]|]. intros [].
  eapply fills_bind; [apply promoted_write; [destruct Hc as [Hc|Hc]; apply placed_false; unfold formula_path; by rewrite Hc|destruct Hc as [Hc|Hc]; unfold formula_path; rewrite Hc; refine (bool_decide_unpack _ _); vm_compute; exact I]|]. intros [].
  eapply fills_bind with (Q := λ _, promoted o (IncludeWindows policy) _ _).
  { destruct (IncludeWindows policy) eqn:Hw; [|apply fills_ret; intros d Hd; exact Hd]. apply promoted_winget; [|done].
    intros p. rewrite !fmap_cons, !elem_of_cons. intros [->|[->|?%not_elem_of_nil]]; done. }
  intros []. eapply fills_bind; [by apply promoted_copy|]. intros [].
  eapply fills_mono; [apply promoted_write; [by apply placed_false|destruct Hc as [-> | ->]; refine (bool_decide_unpack _ _); vm_compute; exact I]|].
  intros [] d Hd. exists amd64, arm64. split; [exact Hd|done].
Qed.
End verified.

(** C37: a promotion publishes verified artifacts only.  Whatever fails and whatever the process
    does not survive: a promotion that succeeds has made a new directory in which every file
    below the APT pool, the RPM packages of the channel and the chart is, byte for byte, the
    artifact whose SHA-256 the checksum manifest lists, and all required ones are there; the
    APT index of an architecture states the version in the package and the size and digest of
    the file in the pool; nothing is published for WinGet unless the profile includes Windows;
    and a stable channel has no prerelease.  A promotion that fails leaves what was there,
    unless removing the output fails, and an output that was there is never touched. *)
Theorem promotion_is_verified (quiet : IOInput) (leftover : directory → option directory) (parse_url : string → go DistributionURL)
    (untar : string → go (list TarEntry)) (gzip Quote : string → string) (parse_source : string → go ReleaseSource) (marshal_promotion : Promotion → string)
    (ranged : list (string * string) → list (string * string)) (o : DistributionOptions) (xs : list IOInput) (w0 : option directory) :
  let version := trim_prefix (D_Version o) "v" in
  match Distribution_Build quiet leftover parse_url untar gzip Quote parse_source marshal_promotion ranged o xs w0 with
  | (Done _, _, w) => w0 = None ∧ ∃ d source policy, w = Some d ∧
      source_matches source (D_Version o) = true ∧ PolicyForProfile (S_Profile source) (D_Version o) = Ok policy ∧
      (∀ p e, placed o (IncludeWindows policy) p = true → d !! p = Some e →
         ∃ name c, (p, name) ∈ published_copies o version ∧ e = file c ∧ ArtifactDir o !! name = Some (file c) ∧ listed (ArtifactDir o) name (sha256_hex c)) ∧
      (∀ p name, (p, name) ∈ published_copies o version → is_Some (d !! p)) ∧
      (∀ arch, arch ∈ ["amd64"; "arm64"]%string → ∃ c packageVersion, ArtifactDir o !! deb_name version arch = Some (file c) ∧ debVersion untar c version arch = Ok packageVersion ∧
         d !! ("apt/" +:+ pool_path (deb_name version arch))%string = Some (file c) ∧
         d !! packages_path (Channel o) arch = Some (file (packages_text packageVersion arch (deb_name version arch) (mkChecksumEntry (sha256_hex c) (slen c))))) ∧
      (Channel o = "stable"%string → contains_byte "-"%char version = false)
  | (Failed _, _, w) => w = w0 ∨ w0 = None ∧ ∃ d, w = leftover d
  | (Crashed, _, w) => is_Some w0 → w = w0
  end.
Proof.
  intros version. unfold Distribution_Build, mbind, prog_bind, lift. destruct (validateDistribution parse_url o) as [[]|] eqn:Hval; [|by left].
  destruct (validated_channel _ _ Hval) as [Hc Hstable].
  pose proof (new_output_spec quiet leftover _ _ xs w0 (fills_distribution quiet untar gzip Quote parse_source marshal_promotion ranged o Hc)) as H.
  destruct (new_output _ _ _ _ _) as [[[a|e|] rest] w]; [|done..]. destruct H as (->&d&->&checksums&source&policy&[Hp Hs Hl Hr (amd64&arm64&[H1 H2 H3 H4]&Hamd&Harm)]).
  split; [done|]. exists d, source, policy. split_and!; [done..| | | |done].
  - intros p e Hplaced He. apply H2 in Hplaced; [|by rewrite He]. apply list_elem_of_fmap in Hplaced as ([p' name]&Heq&Hin). cbn in Heq. subst p'.
    destruct (H1 p name Hin) as (c&Hart&Hd). exists name, c. split_and!; [done|congruence|done|].
    assert (is_Some (checksums !! name)) as [e' He'].
    { apply Hr. unfold required_artifacts. clear -Hin. unfold published_copies in Hin. set_solver. }
    destruct (Hl name e' He') as (c'&Hc'&_&Hlisted). congruence.
  - intros p name Hin. destruct (H1 p name Hin) as (c&_&->). by eexists.
  - assert (∀ arch text, arch ∈ ["amd64"; "arm64"]%string → d !! packages_path (Channel o) arch = Some (file text) → index_of_deb o untar checksums version arch text →
      ∃ c packageVersion, ArtifactDir o !! deb_name version arch = Some (file c) ∧ debVersion untar c version arch = Ok packageVersion ∧
         d !! ("apt/" +:+ pool_path (deb_name version arch))%string = Some (file c) ∧
         d !! packages_path (Channel o) arch = Some (file (packages_text packageVersion arch (deb_name version arch) (mkChecksumEntry (sha256_hex c) (slen c))))) as Hindex.
    { intros arch text Harch Hd (c&pv&Hart&Hpv&->). exists c, pv.
      assert (is_Some (checksums !! deb_name version arch)) as [e' He'] by (apply Hr; unfold required_artifacts; clear -Harch; set_solver).
      destruct (Hl _ _ He') as (c'&Hc'&->&_). assert (c' = c) as -> by congruence. unfold entry_of in Hd. rewrite He' in Hd. split_and!; [done..| |done].
      destruct (H1 ("apt/" +:+ pool_path (deb_name version arch))%string (deb_name version arch)) as (c'&Hc''&Hd'); [unfold published_copies; clear -Harch; set_solver|]. congruence. }
    intros arch Hin. apply elem_of_cons in Hin as [->|[->|[]%elem_of_nil]%elem_of_cons]; [apply (Hindex _ amd64)|apply (Hindex _ arm64)]; try done; try (apply H4); set_solver.
Qed.

(** ** Witness: a beta for Linux and macOS *)

Definition ar_header (name : string) (size : Z) : string :=
  let field n s := take_string n (s +:+ String.concat "" (repeat " " n)) in
  (field 16 name +:+ field 12 "0" +:+ field 6 "0" +:+ field 6 "0" +:+ field 8 "100644" +:+ field 10 (decimal size) +:+ "`" +:+ String LF "")%nat%string.
Definition example_deb (arch : string) : string :=
  let control := lines_text ["Package: topo"; "Version: 1.2.3~beta.1-1"; "Architecture: " +:+ arch]%string in
  (ar_magic +:+ ar_header "debian-binary" 4 +:+ "2.0" +:+ String LF "" +:+ ar_header "control.tar.gz/" (slen control) +:+ control)%string.
Definition example_untar (s : string) : go (list TarEntry) := Ok [mkTarEntry "./control" true (slen s) (Ok s)].

Example example_deb_version : debVersion example_untar (example_deb "arm64") "1.2.3-beta.1" "arm64" = Ok "1.2.3~beta.1-1"%string.
Proof. vm_compute. reflexivity. Qed.

Definition example_artifacts : directory :=
  let version := "1.2.3-beta.1"%string in
  let files := [(metadataName, "metadata"%string); (deb_name version "amd64", example_deb "amd64"); (deb_name version "arm64", example_deb "arm64")]
    ++ ((λ name, (name, name)) <$> drop 2 (required_artifacts version false)) in
  <["SHA256SUMS"%string := file (manifest_text ((λ f, (f.1, sha256_hex f.2)) <$> files))]> (list_to_map ((λ f, (f.1, file f.2)) <$> files)).
Definition example_promotion : DistributionOptions :=
  mkDistributionOptions example_artifacts "v1.2.3-beta.1" "beta" "https://example.test" "https://example.test" (mkZoned (unix 1700000000 0) 0).
Definition example_source (_ : string) : go ReleaseSource :=
  Ok (mkReleaseSource LinuxHomebrewBeta 1 projectName repository "v1.2.3-beta.1" "0123456789012345678901234567890123456789").
Definition promote (inputs : list IOInput) : completion unit * list IOInput * option directory :=
  Distribution_Build steady (λ _, None) (λ _, Ok (mkDistributionURL "https" "example.test" "" "")) example_untar (String "z") quoted_text example_source
    (λ p, Promotion_Source p) (λ l, l) example_promotion inputs None.

Definition promoted_directory : directory := left_by (promote []).
Lemma example_promotes : promote [] = (Done tt, [], Some promoted_directory).
Proof. vm_cast_no_check (eq_refl (@Done unit tt, @nil IOInput, Some promoted_directory)). Qed.

Abbreviation example_version := (trim_prefix (D_Version example_promotion) "v").
Lemma example_pool : ArtifactDir example_promotion !! deb_name example_version "arm64" = Some (file (example_deb "arm64")).
Proof. vm_compute. reflexivity. Qed.
Lemma example_package : debVersion example_untar (example_deb "arm64") example_version "arm64" = Ok "1.2.3~beta.1-1"%string.
Proof. vm_compute. reflexivity. Qed.

Lemma inj_file a b : file a = file b → a = b.
Proof. by intros [=]. Qed.
Lemma inj_ok {E A} (a b : A) : Ok (E := E) a = Ok b → a = b.
Proof. by intros [=]. Qed.

Lemma promotion_is_verified_witness :
  promoted_directory !! ("apt/" +:+ pool_path (deb_name example_version "arm64"))%string = Some (file (example_deb "arm64")) ∧
  promoted_directory !! packages_path (Channel example_promotion) "arm64" =
    Some (file (packages_text "1.2.3~beta.1-1" "arm64" (deb_name example_version "arm64") (mkChecksumEntry (sha256_hex (example_deb "arm64")) (slen (example_deb "arm64"))))).
Proof.
  pose proof (promotion_is_verified steady (λ _, None) (λ _, Ok (mkDistributionURL "https" "example.test" "" "")) example_untar (String "z") quoted_text example_source
    (λ p, Promotion_Source p) (λ l, l) example_promotion [] None) as H.
  pose proof example_promotes as Hrun. unfold promote in Hrun. cbv zeta in H. rewrite Hrun in H.
  destruct H as (_&d&source&policy&Hd&_&_&_&_&Hindex&_). apply (inj Some) in Hd. rewrite <-Hd in Hindex.
  destruct (Hindex "arm64"%string) as (c&pv&Hart&Hpv&Hpool&Hpackages); [by right; left|]. clear Hindex.
  rewrite example_pool in Hart. apply (inj Some), (inj_file _ _) in Hart. rewrite <-Hart, example_package in *. apply inj_ok in Hpv. rewrite <-Hpv in Hpackages. exact (conj Hpool Hpackages).
Defined.

(** ** A timestamp with an offset

    The timestamp is compared with its own instant in UTC, which is the same instant: any
    offset passes, and the APT release file then states the date with it. *)
Definition offset_promotion : DistributionOptions :=
  mkDistributionOptions ∅ "v1.2.3-beta.1" "beta" "https://example.test" "https://example.test" (mkZoned (unix 1700000000 0) 7200).
Lemma zoned_timestamp_is_accepted :
  validateDistribution (λ _, Ok (mkDistributionURL "https" "example.test" "" "")) offset_promotion = Ok tt ∧
  RFC1123 (PublishedAt offset_promotion) = "Wed, 15 Nov 2023 00:13:20 +0200"%string.
Proof. split; vm_compute; reflexivity. Qed.
