(* ===== verification/PublishCommand.v ===== *)
(** * [cmd/topo/publish_servicenow.go]: the command [topo publish servicenow]

    Preview, the credential, the query that precedes every write, and the write, each with the
    retry of [Retry].  The flags are given as they were parsed; the answers of the network to
    each call of either phase, and the moments at which the deadline passes, are arguments. *)

From S2P Require Import Prelude Bytes Text Time Model Servicenow Publish Retry Credential Outputs.

Definition maxServiceNowPublishTimeout : duration := 10 * Minute.

Record CommandFlags := mkCommandFlags {
  F_instance : string; F_input : string; F_token_ref : string; F_source : string; F_apply : bool;
  F_timeout : duration; F_max_attempts : Z; F_retry_delay : duration; F_positional : Z;
}.

Definition check_flags (f : CommandFlags) : go unit :=
  reject negb (F_positional f =? 0) with "topo publish servicenow does not accept positional arguments"%string ;;
  reject String.eqb (F_instance f) "" with "-instance is required"%string ;;
  reject (F_timeout f <=? 0) || (maxServiceNowPublishTimeout <? F_timeout f) with "-timeout must be greater than zero and at most %s"%string ;;
  reject (F_max_attempts f <? 1) || (MaxAttempts <? F_max_attempts f) with "-max-attempts must be between 1 and %d"%string ;;
  reject (F_retry_delay f <? 0) || (MaxRetryDelay <? F_retry_delay f) with "-retry-delay must be between 0 and %s"%string ;;
  Ok tt.

(** What can be read: standard input, if there is one, or a regular file. *)
Definition openObservationInput (stdin : option string) (d : directory) (path : string) : go string :=
  if String.eqb path "-" then match stdin with Some s => Ok s | None => Err "stdin is unavailable"%string end
  else match d !! path with
       | Some (file contents) => Ok contents
       | Some _ => Err "observation input must be a regular file"%string
       | None => Err "open observation input: %w"%string
       end.

(** [serviceNowPreviewStatus] and [serviceNowApplyStatus]; the modes are constants. *)
Inductive CommandStatus :=
| PreviewStatus (envelopes : Z) (payload : IREPayload)
| ApplyStatus (preflight : Status) (apply : option Status).

(** The requests sent, the statuses written, and how the command ends. *)
Record CommandRun := mkCommandRun { requests : list IRERequest; printed : list CommandStatus; ends_with : go unit }.
Definition stopped (e : string) : CommandRun := mkCommandRun [] [] (Err e).
Definition ended_with (error : option string) : go unit := match error with Some e => Err e | None => Ok tt end.

Section credential.
Context `{SecretCodec}.

(** [resolveCredential] of [main.go]: [None] where a default that is optional is not there. *)
Definition resolveCredential (h : CredentialHost) (reference legacyEnvironment defaultEnvironment : string) (optionalDefault : bool) : outcome_of (option string) :=
  reject negb (String.eqb reference "") && negb (String.eqb legacyEnvironment "") with errors_New "credential reference and deprecated environment flag cannot be combined" ;;
  let '(reference, implicit) :=
    if negb (String.eqb reference "") then (reference, false)
    else if negb (String.eqb legacyEnvironment "") then (("env:" +:+ legacyEnvironment)%string, false)
    else (("env:" +:+ defaultEnvironment)%string, true) in
  match Resolve h reference with
  | Err e => if implicit && optionalDefault && is_unavailable e then Ok None else Err e
  | Ok v => Ok (Some v)
  end.

(** A credential that is not optional is there. *)
Lemma required_credential h reference legacy default_ v : resolveCredential h reference legacy default_ false = Ok v → is_Some v.
Proof.
  unfold resolveCredential. destruct (_ && _); [done|]. destruct (if negb (String.eqb reference "") then _ else _) as [r implicit].
  destruct (Resolve h r); [intros [= <-]; by eexists|]. by rewrite andb_false_r.
Qed.
End credential.

(** What is outside during one phase: the answers to its calls, and [ctx.Err()] after a call
    and during the pause behind it. *)
Record Phase := mkPhase { answers : Z → IRERequest → outcome; over : Z → option string; over_waiting : Z → option string }.

Section command.
Context `{SecretCodec} (h : CredentialHost).
Context (parse_instance : string → option URL) (marshal : IREPayload → string) (valid : string → bool) (unmarshal : string → option json).
Context (tokens : string → list json_token * bool) (decode : string → go ObservationEnvelope).
(** Whether standard output takes a status. *)
Context (encodeServiceNowStatus : CommandStatus → go unit).

Definition shown (s : CommandStatus) : list CommandStatus := match encodeServiceNowStatus s with Ok _ => [s] | Err _ => [] end.

(** [irepublish.Publish] of a batch publisher, with the requests that its calls send. *)
Definition publish_phase (f : CommandFlags) (batch : (IRERequest → outcome) → published) (phase : Phase) : Status * option string * list IRERequest :=
  let answer k := let p := batch (answers phase k) in (returned p, failed_with p) in
  match Retry.Publish answer (over phase) (over_waiting phase) (F_max_attempts f) (F_retry_delay f) with
  | Err e => (mkStatus 0 empty_result None false, Some e, [])
  | Ok (status, error, _) => (status, error, seqZ 1 (Attempts status) ≫= λ k, sent (batch (answers phase k)))
  end.

(** The part of the command that writes: the query, and the write if it succeeds. *)
Definition apply_batch (f : CommandFlags) (c : PublisherConfig) (query_phase apply_phase : Phase) (envelopes : list ObservationEnvelope) : CommandRun :=
  let '(preflight, preflightErr, queries) := publish_phase f (λ client, QueryBatch parse_instance marshal valid unmarshal c client envelopes) query_phase in
  match preflightErr with
  | Some e =>
    let status := ApplyStatus preflight None in
    mkCommandRun queries (shown status) (try _ := encodeServiceNowStatus status ;; Err ("ServiceNow IRE preflight failed: " +:+ e)%string)
  | None =>
    let '(applyStatus, publishErr, applies) := publish_phase f (λ client, PublishBatch parse_instance marshal valid unmarshal c client envelopes) apply_phase in
    let status := ApplyStatus preflight (Some applyStatus) in
    mkCommandRun (queries ++ applies) (shown status) (try _ := encodeServiceNowStatus status ;; ended_with publishErr)
  end.

Definition command_config (f : CommandFlags) (token : string) (dry : bool) : PublisherConfig := mkPublisherConfig (F_instance f) token (F_source f) dry.

(** What is read and mapped before anything is sent. *)
Definition read_input (stdin : option string) (d : directory) (f : CommandFlags) : go (list ObservationEnvelope * IREPayload) :=
  try _ := check_flags f ;;
  try input := openObservationInput stdin d (F_input f) ;;
  try envelopes := DecodeJSONLines tokens decode input ;;
  try payload := Preview parse_instance (command_config f "" true) envelopes ;;
  Ok (envelopes, payload).

Definition serviceNowPublish (stdin : option string) (d : directory) (f : CommandFlags) (query_phase apply_phase : Phase) : CommandRun :=
  match read_input stdin d f with
  | Err e => stopped e
  | Ok (envelopes, payload) =>
    if negb (F_apply f) then
      let status := PreviewStatus (llen envelopes) payload in mkCommandRun [] (shown status) (encodeServiceNowStatus status)
    else
      match resolveCredential h (F_token_ref f) "" "TOPO_SERVICENOW_TOKEN" false with
      | Err _ => stopped "resolve ServiceNow token: %w"
      | Ok token => apply_batch f (command_config f (default ""%string token) false) query_phase apply_phase envelopes
      end
  end.

(** ** Lemmas *)

(** A batch publisher that sends nothing, whatever the network does, or one request. *)
Definition refuses (batch : (IRERequest → outcome) → published) : Prop := ∀ client, ∃ r e, batch client = nothing_sent r (Some (plain_error e)).
Definition sends (batch : (IRERequest → outcome) → published) (request : IRERequest) : Prop := ∀ client, ∃ r e, batch client = mkPublished [request] r e ∧
  (e = None ↔ clean_success valid unmarshal (client request)) ∧ ∀ failure, e = Some failure → Retryable failure = true → transient (client request).

Definition ire_request (f : CommandFlags) (token endpoint : string) (payload : IREPayload) : IRERequest :=
  mkIRERequest (trim_right_slashes (F_instance f) +:+ "/api/now/identifyreconcile/" +:+ endpoint)%string ("Bearer " +:+ token)%string (marshal payload).

Lemma sendPayload_cases c payload path destination commits :
  let batch client := sendPayload marshal valid unmarshal c client payload path destination commits in
  refuses batch ∨ sends batch (mkIRERequest (trim_right_slashes (InstanceURL c) +:+ path)%string ("Bearer " +:+ Token c)%string (marshal payload)).
Proof.
  intros batch. unfold batch, sendPayload, refuses, sends. destruct (_ <? _); [left; by eexists _, _|right]. intros client.
  pose proof (read_outcome_spec valid unmarshal payload destination commits (client (mkIRERequest (trim_right_slashes (InstanceURL c) +:+ path)%string ("Bearer " +:+ Token c)%string (marshal payload)))) as Hs.
  destruct (read_outcome _ _ _ _ _ _) as [r e]. destruct Hs as (H1&_&_&H2). exists r, e. split; [done|]. split; [done|]. intros failure He. by apply H2.
Qed.

Lemma query_cases f token es payload : mapPayload (F_source f) es = Ok payload →
  let batch client := QueryBatch parse_instance marshal valid unmarshal (command_config f token false) client es in
  refuses batch ∨ sends batch (ire_request f token "queryEnhanced" payload).
Proof.
  intros Hm. unfold QueryBatch. cbn [DryRun command_config]. destruct (Validate _ _); [|left; by eexists _, _].
  change (DiscoverySource (command_config f token false)) with (F_source f). rewrite Hm. apply sendPayload_cases.
Qed.
Lemma publish_cases f token es payload : mapPayload (F_source f) es = Ok payload →
  let batch client := PublishBatch parse_instance marshal valid unmarshal (command_config f token false) client es in
  refuses batch ∨ sends batch (ire_request f token "enhanced" payload).
Proof.
  intros Hm. unfold PublishBatch. destruct (Validate _ _); [|left; by eexists _, _].
  change (DiscoverySource (command_config f token false)) with (F_source f). rewrite Hm. apply sendPayload_cases.
Qed.

Lemma bind_all_nil {A B} (g : A → list B) l : (∀ a, g a = []) → l ≫= g = [].
Proof. intros Hg. induction l as [|a l IH]; [done|]. by rewrite bind_cons, Hg, IH. Qed.
Lemma bind_all_one {A B} (g : A → list B) b l : (∀ a, g a = [b]) → l ≫= g = replicate (length l) b.
Proof. intros Hg. induction l as [|a l IH]; [done|]. rewrite bind_cons, Hg, IH. done. Qed.

Definition flags_ok (f : CommandFlags) : Prop := 1 <= F_max_attempts f <= MaxAttempts ∧ 0 <= F_retry_delay f <= MaxRetryDelay.
Lemma check_flags_ok f : check_flags f = Ok tt → flags_ok f.
Proof. unfold check_flags, flags_ok. repeat (case_match; [done|]). bool_facts. lia. Qed.

Lemma phase_spec f batch phase request : flags_ok f → refuses batch ∨ sends batch request →
  let '(_, error, rs) := publish_phase f batch phase in
  ∃ n, rs = replicate n request ∧ Z.of_nat n <= F_max_attempts f ∧ (∀ k, 1 <= k < Z.of_nat n → transient (answers phase k request)) ∧
    (error = None → (0 < n)%nat ∧ clean_success valid unmarshal (answers phase (Z.of_nat n) request)).
Proof.
  intros [Ha Hd] Hb. unfold publish_phase. set (answer := λ k, _).
  pose proof (Publish_spec answer (over phase) (over_waiting phase) (F_max_attempts f) (F_retry_delay f)) as H0.
  rewrite !(proj2 (Z.leb_le _ _)) in H0 by lia. cbn [andb] in H0. destruct H0 as (status&error&delays&->&Hn&_&Hprev&Herr&_).
  destruct Hb as [Hb|Hb].
  - exists O. split_and!; [apply bind_all_nil; intros k; by destruct (Hb (answers phase k)) as (r&e&->)|cbn; lia|intros k Hk; cbn in Hk; lia|].
    intros He. apply Herr in He. unfold answer in He. destruct (Hb (answers phase (Attempts status))) as (r&e&Hr). by rewrite Hr in He.
  - exists (Z.to_nat (Attempts status)). rewrite Z2Nat.id by lia. split_and!; [|lia| |].
    + rewrite (bind_all_one _ request), length_seqZ; [done|]. intros k. by destruct (Hb (answers phase k)) as (r&e&->&_).
    + intros k Hk. destruct (Hprev k Hk) as (e&He&Hr&_). unfold answer in He. destruct (Hb (answers phase k)) as (r&e'&Hr'&_&Ht). rewrite Hr' in He. by apply (Ht e).
    + intros He. split; [lia|]. apply Herr in He. unfold answer in He. destruct (Hb (answers phase (Attempts status))) as (r&e&Hr&Hc&_). rewrite Hr in He. by apply Hc.
Qed.

Lemma read_input_ok stdin d f envelopes payload : read_input stdin d f = Ok (envelopes, payload) → flags_ok f ∧ mapPayload (F_source f) envelopes = Ok payload.
Proof.
  unfold read_input. destruct (check_flags f) as [[]|] eqn:Hf; [|done]. destruct (openObservationInput _ _ _); [|done]. destruct (DecodeJSONLines _ _ _) as [es|]; [|done].
  destruct (Preview _ _ _) as [p|] eqn:Hp; [|done]. intros [= <- <-]. split; [by apply check_flags_ok|]. revert Hp. unfold Preview. destruct (Validate _ _); [intros Hp; exact Hp|done].
Qed.

(** What an apply sends: [n] queries and then [m] writes of the same payload. *)
Definition applied (f : CommandFlags) (token : string) (payload : IREPayload) (query_phase apply_phase : Phase) (r : CommandRun) : Prop :=
  let query := ire_request f token "queryEnhanced" payload in
  let write := ire_request f token "enhanced" payload in
  ∃ n m, requests r = replicate n query ++ replicate m write ∧ Z.of_nat n <= F_max_attempts f ∧ Z.of_nat m <= F_max_attempts f ∧
    (∀ k, 1 <= k < Z.of_nat n → transient (answers query_phase k query)) ∧ (∀ k, 1 <= k < Z.of_nat m → transient (answers apply_phase k write)) ∧
    ((0 < m)%nat → (0 < n)%nat ∧ clean_success valid unmarshal (answers query_phase (Z.of_nat n) query)) ∧
    (ends_with r = Ok tt → (0 < m)%nat ∧ clean_success valid unmarshal (answers apply_phase (Z.of_nat m) write)).

Lemma apply_batch_spec f token query_phase apply_phase es payload : flags_ok f → mapPayload (F_source f) es = Ok payload →
  applied f token payload query_phase apply_phase (apply_batch f (command_config f token false) query_phase apply_phase es).
Proof.
  intros Hf Hm. unfold apply_batch. pose proof (phase_spec f _ query_phase _ Hf (query_cases f token es payload Hm)) as Hq. cbv zeta in Hq.
  destruct (publish_phase f _ query_phase) as [[preflight error] queries]. destruct Hq as (n&->&Hn&Ht&Hok). destruct error as [e|].
  { exists n, O. rewrite app_nil_r. cbn [requests ends_with]. split_and!; [done|done|destruct Hf; lia|done|cbn; lia|lia|by destruct (encodeServiceNowStatus _)]. }
  destruct (Hok eq_refl) as [Hpos Hclean]. pose proof (phase_spec f _ apply_phase _ Hf (publish_cases f token es payload Hm)) as Ha. cbv zeta in Ha.
  destruct (publish_phase f _ apply_phase) as [[status error] applies]. destruct Ha as (m&->&Hm'&Ht'&Hok'). exists n, m. cbn [requests ends_with].
  split_and!; [done..|]. destruct (encodeServiceNowStatus _); [|done]. intros He. apply Hok'. by destruct error.
Qed.

Lemma serviceNowPublish_applies stdin d f query_phase apply_phase : F_apply f = true →
  let r := serviceNowPublish stdin d f query_phase apply_phase in
  requests r = [] ∧ ends_with r ≠ Ok tt ∨
  ∃ envelopes payload token, read_input stdin d f = Ok (envelopes, payload) ∧
    resolveCredential h (F_token_ref f) "" "TOPO_SERVICENOW_TOKEN" false = Ok (Some token) ∧ applied f token payload query_phase apply_phase r.
Proof.
  intros Happly. cbv zeta. unfold serviceNowPublish. rewrite Happly. destruct (read_input stdin d f) as [[envelopes payload]|e] eqn:Hin; [|by left].
  destruct (read_input_ok _ _ _ _ _ Hin) as [Hf Hm]. cbn [negb].
  destruct (resolveCredential _ _ _ _ _) as [token|e] eqn:Hr; [|by left]. right.
  destruct (required_credential _ _ _ _ _ Hr) as [t ->]. exists envelopes, payload, t. split_and!; [done..|]. by apply apply_batch_spec.
Qed.
End command.

(** C21: nothing is written to ServiceNow before a query of the same payload was answered
    cleanly.  Without the apply flag the command sends nothing and does the same on every host,
    whatever credentials it has.  With it, every request carries the payload of the input and
    the resolved token to the configured instance: first queries, at most as many as allowed
    and each but the last followed by a transient failure, then writes likewise, and no write
    unless the last query was a clean success; and the command succeeds only if its last write
    was one. *)
Theorem writes_follow_a_clean_query `{SecretCodec} (h : CredentialHost) (parse_instance : string → option URL) (marshal : IREPayload → string)
    (valid : string → bool) (unmarshal : string → option json) (tokens : string → list json_token * bool) (decode : string → go ObservationEnvelope)
    (encodeServiceNowStatus : CommandStatus → go unit) (stdin : option string) (d : directory) (f : CommandFlags) (query_phase apply_phase : Phase) :
  let command h := serviceNowPublish h parse_instance marshal valid unmarshal tokens decode encodeServiceNowStatus stdin d f query_phase apply_phase in
  if F_apply f then
    requests (command h) = [] ∧ ends_with (command h) ≠ Ok tt ∨
    ∃ envelopes payload token, read_input parse_instance tokens decode stdin d f = Ok (envelopes, payload) ∧
      resolveCredential h (F_token_ref f) "" "TOPO_SERVICENOW_TOKEN" false = Ok (Some token) ∧
      applied marshal valid unmarshal f token payload query_phase apply_phase (command h)
  else requests (command h) = [] ∧ ∀ h', command h' = command h.
Proof.
  cbv zeta. destruct (F_apply f) eqn:Happly; [by apply serviceNowPublish_applies|].
  unfold serviceNowPublish. rewrite Happly. split; [|intros h']; by destruct (read_input _ _ _ _ _ _) as [[envelopes payload]|e].
Qed.

(** ** A command that queries twice and then writes *)

#[local] Instance no_servers : SecretCodec := {|
  decode_secret _ := Err (errors_New "no server"); decode_lookup _ := Err (errors_New "no server");
  decode_renewal _ := Err (errors_New "no server"); decode_object _ := Err (errors_New "no server");
|}.
Definition token_host : CredentialHost := mkHost
  (λ name, if String.eqb name "TOPO_SERVICENOW_TOKEN" then Some "s3cret"%string else None)
  (λ _, None) (λ _, Err (errors_New "no such file")) (λ _, true) (λ _, None) (λ _, Err (errors_New "no server")).
Definition demo_envelope : ObservationEnvelope :=
  mkObservationEnvelope SchemaVersion "o1" "site" "c1" "ssh-linux" "" (unix 1700000000 0) [mkAsset AssetHost "h1" "web-1" ∅ ∅ []] [] [] ∅.
Definition demo_flags (apply : bool) : CommandFlags := mkCommandFlags "https://dev.service-now.com/" "-" "" "Nischoy Topo" apply (2 * Minute) 3 Second 0.
Definition busy_once : Phase := mkPhase (λ k _, responded (if k =? 1 then 503 else 200) (Some "{}"%string)) (λ _, None) (λ _, None).
Definition demo_command (apply : bool) : CommandRun :=
  serviceNowPublish token_host (λ _, Some (mkURL "https" "" None "dev.service-now.com" "/" "" false "" "")) (λ _, "payload"%string) (λ _, true) (λ _, None)
    (λ _, ([json_open; json_close], true)) (λ _, Ok demo_envelope) (λ _, Ok tt) (Some "{}"%string) ∅ (demo_flags apply) busy_once
    (mkPhase (λ _ _, responded 200 (Some "{}"%string)) (λ _, None) (λ _, None)).

Example queried_then_written :
  (Req_URL <$> requests (demo_command true), ends_with (demo_command true)) =
    (["https://dev.service-now.com/api/now/identifyreconcile/queryEnhanced"; "https://dev.service-now.com/api/now/identifyreconcile/queryEnhanced";
      "https://dev.service-now.com/api/now/identifyreconcile/enhanced"]%string, Ok tt) ∧
  (requests (demo_command false), ends_with (demo_command false), llen (printed (demo_command false))) = ([], Ok tt, 1).
Proof. vm_compute. done. Qed.
