(* ===== verification/Preflight.v ===== *)
(** * [internal/productioncheck]: what a distribution needs of GitHub

    The repositories, the pages, the protected environments, their branch rules and the names
    of their secrets are compared with what a release profile requires.  The API and its JSON
    are arguments; a value is decoded together with what follows it. *)

From S2P Require Import Prelude Bytes Text Manifest Release.

Definition maxResponseBytes : Z := 2^20.

Definition slug_byte (c : ascii) : bool := is_alnum c || bool_decide (c ∈ ["_"; "."; "-"]%char).
Definition slug (s : string) : bool := string_all slug_byte s && in_range 1 100 (slen s).

Definition nativeSecretNames : list string := [
  "APPLE_DEVELOPER_ID_IDENTITY"; "APPLE_DEVELOPER_ID_P12_BASE64"; "APPLE_DEVELOPER_ID_P12_PASSWORD"; "APPLE_NOTARY_ISSUER_ID"; "APPLE_NOTARY_KEY_ID";
  "APPLE_NOTARY_PRIVATE_KEY"; "ARTIFACT_SIGNING_ACCOUNT_NAME"; "ARTIFACT_SIGNING_CERTIFICATE_PROFILE_NAME"; "ARTIFACT_SIGNING_ENDPOINT"; "AZURE_CLIENT_ID";
  "AZURE_SUBSCRIPTION_ID"; "AZURE_TENANT_ID"; "RPM_SIGNING_FINGERPRINT"; "RPM_SIGNING_PRIVATE_KEY"]%string.
Definition betaSecretNames : list string := ["DISTRIBUTION_GITHUB_TOKEN"; "REPOSITORY_SIGNING_FINGERPRINT"; "REPOSITORY_SIGNING_PRIVATE_KEY"]%string.
Definition public_key_name : string := "REPOSITORY_ADDITIONAL_PUBLIC_KEY".
Definition fingerprint_name : string := "REPOSITORY_ADDITIONAL_PUBLIC_KEY_FINGERPRINT".
Definition optionalBetaSecretNames : list string := [public_key_name; fingerprint_name].

(** ** The responses *)

Record repositoryResponse := mkRepositoryResponse { FullName : string; Visibility : string; DefaultBranch : string; Archived : bool; Disabled : bool }.
Record pagesResponse := mkPagesResponse { HTMLURL : string; BuildType : string; Public : bool; HTTPSEnforced : bool; Source_Branch : string; Source_Path : string }.
Record protectionRule := mkProtectionRule { Rule_Type : string; PreventSelfReview : bool; Reviewers : Z }.
(** The policy is [ProtectedBranches] and [CustomBranchPolicies]. *)
Record environmentResponse := mkEnvironmentResponse { Env_Name : string; CanAdminsBypass : bool; ProtectionRules : list protectionRule; DeploymentBranchPolicy : option (bool * bool) }.
(** The rules by name and type *)
Record branchPoliciesResponse := mkBranchPoliciesResponse { Branches_TotalCount : Z; BranchPolicies : list (string * string) }.
Record secretsResponse := mkSecretsResponse { Secrets_TotalCount : Z; Secrets : list string }.

Definition validateRepository (value : repositoryResponse) (expected : string) : go unit :=
  reject negb (String.eqb (FullName value) expected) || negb (String.eqb (Visibility value) "public") || negb (String.eqb (DefaultBranch value) "main") || Archived value || Disabled value
    with "repository must be active, public, and use main as its default branch"%string ;;
  Ok tt.

(** The owner is a slug, so [strings.ToLower] folds ASCII letters. *)
Definition validatePages (value : pagesResponse) (owner : string) : go unit :=
  let expectedURL := ("https://" +:+ to_lower owner +:+ ".github.io/topo-packages/")%string in
  reject negb (String.eqb (HTMLURL value) expectedURL) || negb (String.eqb (BuildType value) "legacy") || negb (Public value) || negb (HTTPSEnforced value)
      || negb (String.eqb (Source_Branch value) "main") || negb (String.eqb (Source_Path value) "/")
    with "Pages must be public HTTPS from main at the repository root"%string ;;
  Ok tt.

(** One rule: the issue it makes. *)
Definition rule_issues (rule : protectionRule) : list string :=
  if String.eqb (Rule_Type rule) "required_reviewers" then
    if negb (PreventSelfReview rule) || (Reviewers rule <? 2) then ["environment must prevent self-review and have at least two eligible reviewers"]%string else []
  else if String.eqb (Rule_Type rule) "branch_policy" then [] else ["unexpected protection rule %q"]%string.
Definition rules_of (type : string) (rules : list protectionRule) : list protectionRule := base.filter (λ r, Rule_Type r = type) rules.
Definition issue (c : bool) (text : string) : list string := if c then [text] else [].

Definition environment_issues (value : environmentResponse) (expected : string) : list string :=
  issue (negb (String.eqb (Env_Name value) expected)) "environment name does not match"
  ++ issue (CanAdminsBypass value) "administrator protection-rule bypass must be disabled"
  ++ issue (match DeploymentBranchPolicy value with Some (protected, custom) => protected || negb custom | None => true end) "environment must use custom deployment branch policies"
  ++ (ProtectionRules value ≫= rule_issues)
  ++ issue (negb (llen (rules_of "required_reviewers" (ProtectionRules value)) =? 1) || negb (llen (rules_of "branch_policy" (ProtectionRules value)) =? 1))
       "environment must have one reviewer rule and one branch-policy rule".
Definition validateEnvironment (value : environmentResponse) (expected : string) : go unit :=
  match environment_issues value expected with [] => Ok tt | issues => Err (join "; " issues) end.

Definition validateBranches (environment : string) (value : branchPoliciesResponse) : go unit :=
  reject negb (Branches_TotalCount value =? llen (BranchPolicies value)) || negb (Branches_TotalCount value =? 1) with "deployment policy must contain exactly one rule"%string ;;
  let '(wantName, wantType, detail) :=
    if String.eqb environment "native-package-signing" then ("v*", "tag", "deployment policy must allow exactly semantic-candidate v* tags")
    else ("main", "branch", "deployment policy must allow exactly the main branch") in
  match BranchPolicies value with
  | (name, type) :: _ => reject negb (String.eqb name wantName) || negb (String.eqb type wantType) with detail ;; Ok tt
  | [] => Err "index out of range"
  end%string.

(** The loop over the secrets. *)
Fixpoint secret_names (seen : gset string) (names : list string) : go (gset string) :=
  match names with
  | [] => Ok seen
  | name :: names =>
    reject negb (slug name) with "secret list contains an invalid name"%string ;;
    reject bool_decide (name ∈ seen) with "secret list contains a duplicate name"%string ;;
    secret_names ({[name]} ∪ seen) names
  end.

(** A public key and its fingerprint belong together. *)
Definition unpaired (seen : gset string) : list string :=
  if bool_decide (public_key_name ∈ seen) then issue (bool_decide (fingerprint_name ∉ seen)) fingerprint_name
  else issue (bool_decide (fingerprint_name ∈ seen)) public_key_name.

Definition validateSecrets (value : secretsResponse) (required optional : list string) : go unit :=
  reject negb (Secrets_TotalCount value =? llen (Secrets value)) with "secret count does not match the returned secret names"%string ;;
  try seen := secret_names ∅ (Secrets value) ;;
  let missing := sort_by str_lt (base.filter (λ name, name ∉ seen) required ++ unpaired seen) in
  let unexpected := sort_by str_lt (base.filter (λ name, name ∉ required ++ optional) (elements seen)) in
  match missing, unexpected with
  | [], [] => Ok tt
  | _, _ => Err (join "; " ((if bool_decide (missing = []) then [] else ["missing: " +:+ join ", " missing])
                           ++ (if bool_decide (unexpected = []) then [] else ["unexpected: " +:+ join ", " unexpected])))%string
  end.

(** ** The check *)

Record CheckResult := mkCheckResult { Check_Name : string; Check_Status : string; Check_Detail : string }.
Record Report := mkReport { Report_Profile : string; Report_SchemaVersion : Z; Ready : bool; Checks : list CheckResult }.

(** What follows the first value of a response. *)
Inductive trailing := nothing_follows | value_follows | data_follows.

Class GitHubCodec := {
  decode_repository : string → option (repositoryResponse * trailing);
  decode_pages : string → option (pagesResponse * trailing);
  decode_environment : string → option (environmentResponse * trailing);
  decode_branches : string → option (branchPoliciesResponse * trailing);
  decode_secrets : string → option (secretsResponse * trailing);
}.

Section preflight.
Context `{GitHubCodec} (Get : string → go string).

Definition getJSON {A} (decode : string → option (A * trailing)) (path : string) : go A :=
  match Get path with
  | Err _ => Err "GitHub query failed"%string
  | Ok contents =>
    reject String.eqb contents "" || (maxResponseBytes <? slen contents) with "GitHub response is empty or exceeds 1 MiB"%string ;;
    match decode contents with
    | None => Err "GitHub response is invalid JSON"%string
    | Some (_, value_follows) => Err "GitHub response contains trailing JSON"%string
    | Some (_, data_follows) => Err "GitHub response contains invalid trailing data"%string
    | Some (a, nothing_follows) => Ok a
    end
  end.

(** A check is its name, the path it asks for, and its verdict. *)
Abbreviation asked := (string * string * go unit)%type.
Definition ask {A} (name path : string) (decode : string → option (A * trailing)) (verdict : A → go unit) : asked :=
  (name, path, try value := getJSON decode path ;; verdict value).

Definition optional_native (policy : ReleasePolicy) (name : string) : bool :=
  (negb (IncludeWindows policy) && (has_prefix name "AZURE_" || has_prefix name "ARTIFACT_SIGNING_")) || (negb (RequireAppleSigning policy) && has_prefix name "APPLE_").
Definition nativeRequired (policy : ReleasePolicy) : list string := base.filter (λ name, optional_native policy name = false) nativeSecretNames.
Definition nativeOptional (policy : ReleasePolicy) : list string := base.filter (λ name, optional_native policy name = true) nativeSecretNames.

Definition check_repository (owner repository : string) : asked :=
  ask ("repository:" +:+ repository)%string ("repos/" +:+ owner +:+ "/" +:+ repository)%string decode_repository (λ value, validateRepository value (owner +:+ "/" +:+ repository)%string).
Definition check_environment (owner repository name : string) (required optional : list string) : list asked :=
  let base := ("repos/" +:+ owner +:+ "/" +:+ repository +:+ "/environments/" +:+ name)%string in
  [ask ("environment:" +:+ name)%string base decode_environment (λ value, validateEnvironment value name);
   ask ("branches:" +:+ name)%string (base +:+ "/deployment-branch-policies")%string decode_branches (validateBranches name);
   ask ("secrets:" +:+ name)%string (base +:+ "/secrets")%string decode_secrets (λ value, validateSecrets value required optional)].

Definition all_checks (policy : ReleasePolicy) (owner repository : string) : list asked :=
  [check_repository owner "topo-packages"; check_repository owner "homebrew-tap";
   ask "pages:topo-packages" ("repos/" +:+ owner +:+ "/topo-packages/pages")%string decode_pages (λ value, validatePages value owner)]
  ++ check_environment owner repository "native-package-signing" (nativeRequired policy) (nativeOptional policy)
  ++ check_environment owner repository "distribution-beta" betaSecretNames optionalBetaSecretNames.

Definition check_of (c : asked) : CheckResult := match c.2 with Ok _ => mkCheckResult c.1.1 "pass" "" | Err e => mkCheckResult c.1.1 "fail" e end.

(** [Run] with an API that is there *)
Definition Run (profile owner repository : string) : go Report :=
  try policy := PolicyForProfile profile "v0.0.0-preflight" ;;
  reject negb (slug owner) || negb (slug repository) with "owner and repository must be bounded GitHub slugs"%string ;;
  let checks := all_checks policy owner repository in
  Ok (mkReport profile 1 (forallb (λ c, is_ok c.2) checks) (check_of <$> checks)).
End preflight.

(** ** What the verdicts mean *)

Lemma secret_names_spec names : ∀ seen s, secret_names seen names = Ok s ↔
  s = list_to_set names ∪ seen ∧ NoDup names ∧ (∀ name, name ∈ names → slug name = true ∧ name ∉ seen).
Proof.
  induction names as [|name names IH]; intros seen s; cbn [secret_names].
  { split; [intros [= <-]; split_and!; [set_solver|constructor|by intros ? ?%not_elem_of_nil]|]. intros (->&_&_). f_equal. set_solver. }
  destruct (slug name) eqn:Hs; cbn [negb].
  2:{ split; [done|]. intros (_&_&Hall). destruct (Hall name) as [? _]; [left|congruence]. }
  destruct (bool_decide (name ∈ seen)) eqn:Hseen; [apply bool_decide_eq_true in Hseen|apply bool_decide_eq_false in Hseen].
  { split; [done|]. intros (_&_&Hall). by destruct (Hall name) as [_ ?]; [left|]. }
  rewrite IH, NoDup_cons. split.
  - intros (->&Hnd&Hall). split_and!; [set_solver|intros Hin; destruct (Hall name Hin); set_solver|done|].
    intros x [->|Hx]%elem_of_cons; [done|]. destruct (Hall x Hx). set_solver.
  - intros (->&[Hnin Hnd]&Hall). split_and!; [set_solver|done|]. intros x Hx. destruct (Hall x) as [? ?]; [by right|]. split; [done|]. set_solver.
Qed.

Lemma sorted_nil {A} (lt : A → A → bool) l : sort_by lt l = [] ↔ l = [].
Proof. split; [intros H; apply Permutation_nil; by rewrite <- H, sort_by_perm|by intros ->]. Qed.
Lemma issue_nil c text : issue c text = [] ↔ c = false.
Proof. by destruct c. Qed.
Lemma unpaired_nil seen : unpaired seen = [] ↔ (public_key_name ∈ seen ↔ fingerprint_name ∈ seen).
Proof. unfold unpaired. case_bool_decide; rewrite issue_nil, bool_decide_eq_false; [destruct (decide (fingerprint_name ∈ seen))|]; tauto. Qed.
Lemma filter_nil {A} (P : A → Prop) `{∀ x, Decision (P x)} (l : list A) : base.filter P l = [] ↔ ∀ x, x ∈ l → ¬ P x.
Proof.
  split; [intros Hnil x Hx HP; assert (x ∈ base.filter P l) as Hf by (by apply list_elem_of_filter); rewrite Hnil in Hf; by apply not_elem_of_nil in Hf|].
  intros Hall. apply elem_of_nil_inv. intros x [HP Hx]%list_elem_of_filter. by apply (Hall x).
Qed.

(** Secrets are accepted when every required name is there, no other than the optional ones,
    and a further public key with its fingerprint or not at all. *)
Definition exact_secrets (required optional : list string) (value : secretsResponse) : Prop :=
  Secrets_TotalCount value = llen (Secrets value) ∧ NoDup (Secrets value) ∧ Forall (λ name, slug name = true) (Secrets value) ∧
  required ⊆ Secrets value ∧ Secrets value ⊆ required ++ optional ∧ (public_key_name ∈ Secrets value ↔ fingerprint_name ∈ Secrets value).
Lemma validateSecrets_spec value required optional : validateSecrets value required optional = Ok tt ↔ exact_secrets required optional value.
Proof.
  unfold validateSecrets, exact_secrets. destruct (Z.eqb_spec (Secrets_TotalCount value) (llen (Secrets value))) as [Hc|Hc]; cbn [negb]; [|split; [done|tauto]].
  destruct (secret_names ∅ (Secrets value)) as [seen|e] eqn:Hs.
  - apply secret_names_spec in Hs as (->&Hnd&Hall). assert (list_to_set (Secrets value) ∪ ∅ = (list_to_set (Secrets value) : gset string)) as -> by set_solver.
    assert (Forall (λ name, slug name = true) (Secrets value)) by (apply Forall_forall; intros x Hx; by apply Hall).
    set (missing := sort_by _ _). set (unexpected := sort_by str_lt (base.filter _ (elements _))).
    assert (missing = [] ↔ required ⊆ Secrets value ∧ (public_key_name ∈ Secrets value ↔ fingerprint_name ∈ Secrets value)) as Hm.
    { unfold missing. rewrite sorted_nil, app_nil, filter_nil, unpaired_nil, !elem_of_list_to_set. f_equiv. split.
      - intros Hr x Hx. destruct (decide (x ∈ Secrets value)); [done|]. destruct (Hr x Hx). by rewrite elem_of_list_to_set.
      - intros Hr x Hx. rewrite elem_of_list_to_set. intros Hn. by apply Hn, Hr. }
    assert (unexpected = [] ↔ Secrets value ⊆ required ++ optional) as Hu.
    { unfold unexpected. rewrite sorted_nil, filter_nil. split.
      - intros Hr x Hx. destruct (decide (x ∈ required ++ optional)); [done|]. destruct (Hr x); [|done]. by rewrite elem_of_elements, elem_of_list_to_set.
      - intros Hr x Hx. rewrite elem_of_elements, elem_of_list_to_set in Hx. intros Hn. by apply Hn, Hr. }
    trans (missing = [] ∧ unexpected = []); [destruct missing, unexpected; naive_solver|]. rewrite Hm, Hu. tauto.
  - split; [done|]. intros (_&Hnd&Hall&_). exfalso. rewrite Forall_forall in Hall.
    assert (secret_names ∅ (Secrets value) = Ok (list_to_set (Secrets value) ∪ ∅)) as Hx; [|by rewrite Hx in Hs].
    apply secret_names_spec. split_and!; [done..|]. intros name Hin. split; [by apply Hall|]. set_solver.
Qed.

Lemma filter_one {A} (P : A → Prop) `{∀ x, Decision (P x)} (l : list A) : llen (base.filter P l) = 1 → ∃ x, base.filter P l = [x] ∧ P x ∧ x ∈ l.
Proof.
  destruct (base.filter P l) as [|x [|? ?]] eqn:Hf; [done| |unfold llen; cbn; lia]. intros _. exists x. split; [done|].
  apply (list_elem_of_filter P). rewrite Hf. by left.
Qed.

(** An environment is accepted when it is the one asked for, nobody bypasses its rules, and
    these are two: at least two reviewers who do not review themselves, and branches. *)
Definition protected (expected : string) (value : environmentResponse) : Prop :=
  Env_Name value = expected ∧ CanAdminsBypass value = false ∧ DeploymentBranchPolicy value = Some (false, true) ∧
  ∃ reviewers branches, ProtectionRules value ≡ₚ [reviewers; branches] ∧ Rule_Type reviewers = "required_reviewers"%string ∧ Rule_Type branches = "branch_policy"%string ∧
    PreventSelfReview reviewers = true ∧ 2 <= Reviewers reviewers.
Lemma validateEnvironment_spec value expected : validateEnvironment value expected = Ok tt ↔ protected expected value.
Proof.
  unfold protected.
  trans (environment_issues value expected = []); [unfold validateEnvironment; by destruct (environment_issues value expected)|].
  unfold environment_issues. rewrite !app_nil, !issue_nil, negb_false_iff, String.eqb_eq.
  assert (match DeploymentBranchPolicy value with Some (protected, custom) => protected || negb custom | None => true end = false ↔ DeploymentBranchPolicy value = Some (false, true)) as ->.
  { destruct (DeploymentBranchPolicy value) as [[[] []]|]; naive_solver. }
  do 3 apply and_iff_compat_l. rewrite orb_false_iff, !negb_false_iff, !Z.eqb_eq. unfold rules_of. generalize (ProtectionRules value) as rules. intros rules.
  split.
  - intros (Hi&Hr&Hb).
    assert (∀ r, r ∈ rules → rule_issues r = []) as Hissues by (intros r Hin; apply elem_of_nil_inv; intros x Hx; assert (x ∈ rules ≫= rule_issues) as H by (apply list_elem_of_bind; eauto); rewrite Hi in H; by apply not_elem_of_nil in H).
    assert (rules ≡ₚ base.filter (λ r, Rule_Type r = "required_reviewers"%string) rules ++ base.filter (λ r, Rule_Type r = "branch_policy"%string) rules) as Hp.
    { clear Hr Hb Hi. induction rules as [|r rules IH]; [done|]. pose proof (Hissues r ltac:(left)) as H0. rewrite !filter_cons. unfold rule_issues in H0.
      destruct (String.eqb_spec (Rule_Type r) "required_reviewers") as [He|He].
      - rewrite !decide_True by done. rewrite decide_False by congruence. cbn. constructor. apply IH. intros x Hx. apply Hissues. by right.
      - destruct (String.eqb_spec (Rule_Type r) "branch_policy") as [Hf|]; [|done]. rewrite decide_False, decide_True by done. rewrite <- Permutation_middle. constructor.
        apply IH. intros x Hx. apply Hissues. by right. }
    destruct (filter_one _ _ Hr) as (r1&H1&Ht1&Hin1). destruct (filter_one _ _ Hb) as (r2&H2&Ht2&Hin2).
    rewrite H1, H2 in Hp. exists r1, r2. split_and!; [done..| |]; pose proof (Hissues r1 Hin1) as H0; unfold rule_issues in H0; rewrite Ht1 in H0; cbn in H0;
      destruct (PreventSelfReview r1), (Z.ltb_spec (Reviewers r1) 2); done.
  - intros (r1&r2&Hp&Ht1&Ht2&H1&H2). split_and!.
    + apply Permutation_nil. symmetry. rewrite Hp. unfold rule_issues. cbn. rewrite Ht1, Ht2, H1, (proj2 (Z.ltb_ge _ _)) by done. done.
    + unfold llen. rewrite Hp, !filter_cons, Ht1, Ht2. done.
    + unfold llen. rewrite Hp, !filter_cons, Ht1, Ht2. done.
Qed.

Definition single_rule (environment : string) (value : branchPoliciesResponse) : Prop :=
  Branches_TotalCount value = 1 ∧ BranchPolicies value = [if String.eqb environment "native-package-signing" then ("v*", "tag") else ("main", "branch")]%string.
Lemma validateBranches_spec environment value : validateBranches environment value = Ok tt ↔ single_rule environment value.
Proof.
  unfold validateBranches, single_rule. destruct (Z.eqb_spec (Branches_TotalCount value) (llen (BranchPolicies value))) as [Hc|Hc]; cbn [negb orb].
  2:{ split; [done|]. intros [H1 H2]. rewrite H2 in Hc. contradiction. }
  destruct (Z.eqb_spec (Branches_TotalCount value) 1) as [H1|H1]; cbn [negb]; [|split; [done|tauto]].
  destruct (BranchPolicies value) as [|[name type] [|? ?]]; [rewrite H1 in Hc; done| |rewrite H1 in Hc; unfold llen in Hc; cbn [length] in Hc; lia].
  destruct (String.eqb environment "native-package-signing"); cbv beta iota zeta.
  - destruct (String.eqb_spec name "v*"), (String.eqb_spec type "tag"); cbn [negb orb]; naive_solver.
  - destruct (String.eqb_spec name "main"), (String.eqb_spec type "branch"); cbn [negb orb]; naive_solver.
Qed.

(** ** The report *)

Section report.
Context `{GitHubCodec} (Get : string → go string).

(** What the API answers at a path is a whole value that satisfies [P]. *)
Definition answered {A} (decode : string → option (A * trailing)) (path : string) (P : A → Prop) : Prop := ∃ value, getJSON Get decode path = Ok value ∧ P value.

Lemma ask_ok {A} name path (decode : string → option (A * trailing)) verdict P : (∀ value, verdict value = Ok tt ↔ P value) →
  is_ok (ask Get name path decode verdict).2 = true ↔ answered decode path P.
Proof.
  intros HP. unfold ask, answered. cbn [snd]. destruct (getJSON Get decode path) as [value|e]; [|naive_solver].
  pose proof (HP value) as Hv. destruct (verdict value) as [[]|e]; [|naive_solver]. split; [intros _; exists value; tauto|done].
Qed.

Definition active_repository (expected : string) (value : repositoryResponse) : Prop :=
  value = mkRepositoryResponse expected "public" "main" false false.
Lemma validateRepository_spec value expected : validateRepository value expected = Ok tt ↔ active_repository expected value.
Proof.
  unfold validateRepository, active_repository. destruct value as [n v b a d]. cbn.
  destruct (String.eqb_spec n expected), (String.eqb_spec v "public"), (String.eqb_spec b "main"), a, d; cbn; naive_solver.
Qed.
Definition public_pages (owner : string) (value : pagesResponse) : Prop :=
  value = mkPagesResponse ("https://" +:+ to_lower owner +:+ ".github.io/topo-packages/") "legacy" true true "main" "/".
Lemma validatePages_spec value owner : validatePages value owner = Ok tt ↔ public_pages owner value.
Proof.
  unfold validatePages, public_pages. destruct value as [u t p s b q]. cbn [HTMLURL BuildType Public HTTPSEnforced Source_Branch Source_Path].
  destruct (String.eqb_spec u ("https://" +:+ to_lower owner +:+ ".github.io/topo-packages/")%string), (String.eqb_spec t "legacy"), p, s, (String.eqb_spec b "main"), (String.eqb_spec q "/");
    cbn [negb orb]; naive_solver.
Qed.

Definition prepared_environment (owner repository name : string) (required optional : list string) : Prop :=
  let base := ("repos/" +:+ owner +:+ "/" +:+ repository +:+ "/environments/" +:+ name)%string in
  answered decode_environment base (protected name) ∧ answered decode_branches (base +:+ "/deployment-branch-policies")%string (single_rule name) ∧
  answered decode_secrets (base +:+ "/secrets")%string (exact_secrets required optional).

Definition prepared (policy : ReleasePolicy) (owner repository : string) : Prop :=
  (∀ name, name ∈ ["topo-packages"; "homebrew-tap"]%string → answered decode_repository ("repos/" +:+ owner +:+ "/" +:+ name)%string (active_repository (owner +:+ "/" +:+ name))) ∧
  answered decode_pages ("repos/" +:+ owner +:+ "/topo-packages/pages")%string (public_pages owner) ∧
  prepared_environment owner repository "native-package-signing" (nativeRequired policy) (nativeOptional policy) ∧
  prepared_environment owner repository "distribution-beta" betaSecretNames optionalBetaSecretNames.

(** The report says ready exactly when everything a distribution of the profile needs is as
    it must be, and then every check has passed. *)
Theorem ready_means_prepared (profile owner repository : string) :
  match Run Get profile owner repository with
  | Ok report => ∃ policy, PolicyForProfile profile "v0.0.0-preflight" = Ok policy ∧ slug owner = true ∧ slug repository = true ∧
      (Ready report = true ↔ prepared policy owner repository) ∧
      (Ready report = true ↔ ∀ c, c ∈ Checks report → Check_Status c = "pass"%string)
  | Err _ => is_ok (PolicyForProfile profile "v0.0.0-preflight") = false ∨ slug owner = false ∨ slug repository = false
  end.
Proof.
  unfold Run. destruct (PolicyForProfile _ _) as [policy|e]; [|by left]. destruct (slug owner); [|by right; left]. destruct (slug repository); [|by right; right].
  cbn [negb orb]. exists policy. split_and!; [done..| |]; cbn [Ready Checks].
  - unfold all_checks, check_environment, check_repository, prepared, prepared_environment. cbn [app forallb]. rewrite !andb_true_iff.
    rewrite !(ask_ok _ _ _ _ _ (λ v, validateRepository_spec v _)), (ask_ok _ _ _ _ _ (λ v, validatePages_spec v _)).
    rewrite !(ask_ok _ _ _ _ _ (λ v, validateEnvironment_spec v _)), !(ask_ok _ _ _ _ _ (λ v, validateBranches_spec _ v)), !(ask_ok _ _ _ _ _ (λ v, validateSecrets_spec v _ _)).
    split; [|intros (H1&H2&H3&H4); pose proof (H1 "topo-packages"%string ltac:(set_solver)); pose proof (H1 "homebrew-tap"%string ltac:(set_solver)); tauto].
    intros H1. split; [|tauto]. intros name [->|[->|[]%not_elem_of_nil]%elem_of_cons]%elem_of_cons; tauto.
  - rewrite forallb_forall. split.
    + intros Hall c (a&->&Ha)%list_elem_of_fmap. specialize (Hall a). rewrite <- list_elem_of_In in Hall. specialize (Hall Ha). unfold check_of. by destruct a.2.
    + intros Hall a Ha%list_elem_of_In. specialize (Hall (check_of a) ltac:(by apply list_elem_of_fmap_2)). unfold check_of in Hall. by destruct a.2.
Qed.
End report.

(** A Homebrew beta needs the RPM secrets only. *)
Example homebrew_beta_secrets : match PolicyForProfile LinuxHomebrewBeta "v0.0.0-preflight" with Ok p => nativeRequired p | Err _ => [] end = ["RPM_SIGNING_FINGERPRINT"; "RPM_SIGNING_PRIVATE_KEY"]%string.
Proof. vm_compute. done. Qed.
