(* ===== verification/Lab.v ===== *)
(** * [pkg/lab]: a simulated estate, the server that plays it, and the client that finds it

    [scenario.go], [server.go], [client.go] and [evaluate.go].  Percentages are the doubles of
    [SpecFloat]; [math/rand] is an argument, as are the order in which the goroutines of the
    client finish and what the network loses.  JSON carries hosts as they are. *)

From Stdlib Require Import SpecFloat.
From S2P Require Import Prelude Bytes Text Decimal Sha256 Time Model.

(** ** Scenarios *)

Definition ScenarioVersion : string := "v1alpha1".

(** A [float64], its constants, and its operations *)
Abbreviation double := spec_float.
Definition double_of (z : Z) : double := binary_normalize 53 1024 z 0 false.

Record Faults := mkFaults {
  AuthFailurePercent : double; TimeoutPercent : double; PermissionDeniedPercent : double; MalformedPercent : double; DisappearPercent : double;
  Faults_LatencyMS : Z; JitterMS : Z;
}.
Record HostGroup := mkHostGroup { Group_Persona : string; Count : Z }.
Record Scenario := mkScenario { Scenario_Version : string; Seed : Z; SiteID : string; Groups : list HostGroup; Scenario_Faults : Faults }.
Record Host := mkHost {
  Host_ID : string; Host_Persona : string; Host_Name : string; MachineID : string; Serial : string; IPAddress : string; MACAddress : string; OS : string;
  OSVersion : string; Architecture : string; CPUCount : Z; MemoryMB : Z; Packages : list string; Services : list string; Fault : string; LatencyMS : Z;
}.

Record persona := mkPersona { p_OS : string; p_Version : string; p_Arch : string; p_Packages : list string; p_Services : list string }.
Definition personas : gmap string persona := list_to_map [
  ("ubuntu-22.04", mkPersona "linux" "Ubuntu 22.04" "x86_64" ["bash"; "coreutils"; "openssh-server"; "nginx"] ["sshd"; "nginx"]);
  ("ubuntu-24.04", mkPersona "linux" "Ubuntu 24.04" "x86_64" ["bash"; "coreutils"; "openssh-server"; "podman"] ["sshd"; "podman"]);
  ("rocky-9", mkPersona "linux" "Rocky Linux 9" "x86_64" ["bash"; "coreutils"; "openssh-server"; "postgresql"] ["sshd"; "postgresql"]);
  ("windows-2019", mkPersona "windows" "Windows Server 2019" "x86_64" ["PowerShell"; "OpenSSH.Client"] ["WinRM"; "W32Time"]);
  ("windows-2022", mkPersona "windows" "Windows Server 2022" "x86_64" ["PowerShell"; "Microsoft Defender"] ["WinRM"; "W32Time"; "WinDefend"]);
  ("windows-2025", mkPersona "windows" "Windows Server 2025" "x86_64" ["PowerShell"; "Microsoft Defender"] ["WinRM"; "W32Time"; "WinDefend"])]%string.

Definition no_faults : Faults := mkFaults (double_of 0) (double_of 0) (double_of 0) (double_of 0) (double_of 0) 0 0.
Definition DefaultScenario (count windowsPercent seed : Z) : Scenario :=
  let count := if count <? 1 then 1 else count in
  let windowsPercent := if windowsPercent <? 0 then 0 else windowsPercent in
  let windowsPercent := if 100 <? windowsPercent then 100 else windowsPercent in
  let windows := Z.quot (wrap64 (count * windowsPercent)) 100 in
  let linux := wrap64 (count - windows) in
  mkScenario ScenarioVersion seed "lab"
    ((if 0 <? linux then [mkHostGroup "ubuntu-24.04" linux] else []) ++ (if 0 <? windows then [mkHostGroup "windows-2022" windows] else [])) no_faults.

Fixpoint count_hosts (total : Z) (groups : list HostGroup) : go Z :=
  match groups with
  | [] => Ok total
  | g :: groups =>
    reject bool_decide (personas !! Group_Persona g = None) with "unknown persona %q"%string ;;
    reject Count g <? 0 with "host count cannot be negative"%string ;;
    count_hosts (wrap64 (total + Count g)) groups
  end.

Definition percentages (f : Faults) : list double := [AuthFailurePercent f; TimeoutPercent f; PermissionDeniedPercent f; MalformedPercent f; DisappearPercent f].
Definition sum_of (l : list double) : double := match l with [] => double_of 0 | x :: l => foldl (SFadd 53 1024) x l end.

(** Which percentage is named first depends on the order of a map. *)
Definition Validate (s : Scenario) : go unit :=
  reject negb (String.eqb (Scenario_Version s) ScenarioVersion) with "unsupported scenario version %q"%string ;;
  reject String.eqb (SiteID s) "" with "site_id is required"%string ;;
  try total := count_hosts 0 (Groups s) ;;
  reject total =? 0 with "scenario must contain at least one host"%string ;;
  reject 100000 <? total with "scenario exceeds 100000 host safety limit"%string ;;
  reject existsb (λ v, SFltb v (double_of 0) || SFltb (double_of 100) v) (percentages (Scenario_Faults s)) with "%s percentage must be between 0 and 100"%string ;;
  reject SFltb (double_of 100) (sum_of (percentages (Scenario_Faults s))) with "fault percentages cannot total more than 100"%string ;;
  reject (Faults_LatencyMS (Scenario_Faults s) <? 0) || (JitterMS (Scenario_Faults s) <? 0) with "latency values cannot be negative"%string ;;
  Ok tt.

(** ** Estates *)

Definition stableToken (seed : Z) (parts : list string) : string :=
  let b := (λ i, Z.land (Z.shiftr seed (8 * Z.of_nat i)) 255) <$> seq 0 8 in
  hex_encode (Sum256 (b ++ (parts ≫= λ p, 0 :: bytes_of p))).
Definition shortOS (os : string) : string := if String.eqb os "windows" then "win" else "linux".

Definition byte_at (n : Z) : Z := Z.land n 255.
Definition host_ip (idx : Z) : string :=
  join "." [decimal 10; decimal (byte_at (1 + Z.rem (Z.quot idx 65025) 200)); decimal (byte_at (Z.rem (Z.quot idx 255) 255)); decimal (byte_at (1 + Z.rem idx 254))].
Definition host_mac (idx : Z) : string :=
  join ":" ["02"; "54"; hex_encode [byte_at (Z.shiftr idx 24)]; hex_encode [byte_at (Z.shiftr idx 16)]; hex_encode [byte_at (Z.shiftr idx 8)]; hex_encode [byte_at idx]]%string.
Definition host_id (idx : Z) : string := ("host-" +:+ decimal_pad 6 idx)%string.

Section random.
Context {rng : Type} (NewSource : Z → rng) (Intn : Z → rng → Z * rng) (Float64 : rng → double * rng).

Fixpoint select (x : double) (faults : list (string * double)) : string :=
  match faults with
  | [] => ""
  | (name, p) :: faults => if SFltb x p then name else select (SFsub 53 1024 x p) faults
  end.
Definition fault_names : list string := ["auth_failure"; "timeout"; "permission_denied"; "malformed"; "disappear"]%string.
Definition selectFault (f : Faults) (r : rng) : string * rng :=
  let '(x, r) := Float64 r in (select (SFmul 53 1024 x (double_of 100)) (zip fault_names (percentages f)), r).

Definition generate_host (s : Scenario) (name : string) (p : persona) (idx : Z) (r : rng) : Host * rng :=
  let id := host_id idx in
  let '(cpu, r) := Intn 3 r in
  let '(memory, r) := Intn 3 r in
  let '(jitter, r) := if 0 <? JitterMS (Scenario_Faults s) then Intn (wrap64 (JitterMS (Scenario_Faults s) + 1)) r else (0, r) in
  let '(fault, r) := selectFault (Scenario_Faults s) r in
  (mkHost id name (shortOS (p_OS p) +:+ "-" +:+ decimal_pad 5 idx) (stableToken (Seed s) [id; "machine"]) ("TOPOLAB-" +:+ take_string 12 (stableToken (Seed s) [id; "serial"]))
     (host_ip idx) (host_mac idx) (p_OS p) (p_Version p) (p_Arch p) (default 0 ([2; 4; 8] !! Z.to_nat cpu)) (default 0 ([4096; 8192; 16384] !! Z.to_nat memory))
     (p_Packages p) (p_Services p) fault (wrap64 (Faults_LatencyMS (Scenario_Faults s) + jitter)), r)%string.

Fixpoint generate_group (s : Scenario) (name : string) (p : persona) (n : nat) (idx : Z) (r : rng) : list Host * Z * rng :=
  match n with
  | O => ([], idx, r)
  | S n => let '(h, r) := generate_host s name p (idx + 1) r in let '(l, idx, r) := generate_group s name p n (idx + 1) r in (h :: l, idx, r)
  end.
Definition no_persona : persona := mkPersona "" "" "" [] [].
Fixpoint generate_hosts (s : Scenario) (groups : list HostGroup) (idx : Z) (r : rng) : list Host :=
  match groups with
  | [] => []
  | g :: groups =>
    let '(l, idx, r) := generate_group s (Group_Persona g) (default no_persona (personas !! Group_Persona g)) (Z.to_nat (Count g)) idx r in l ++ generate_hosts s groups idx r
  end.
End random.

(** [expectedObservation] and [assetsForHost] build the same assets from other evidence. *)
Definition texts (l : list string) : any := any_array (any_string <$> l).
Definition host_asset (h : Host) (listed : bool) (ev : list Evidence) : Asset :=
  let attrs : gmap string any := {["os" := any_string (OS h); "os_version" := any_string (OSVersion h); "architecture" := any_string (Architecture h);
    "cpu_logical_count" := any_number (decimal (CPUCount h)); "memory_mb" := any_number (decimal (MemoryMB h)); "ip_address" := any_string (IPAddress h)]}%string in
  mkAsset AssetHost (MachineID h) (Host_Name h) {["machine_id" := MachineID h; "serial_number" := Serial h; "hostname" := Host_Name h]}%string
    (if listed then <["packages" := texts (Packages h)]> (<["services" := texts (Services h)]> attrs) else attrs)%string ev.
Definition interface_id (h : Host) : string := (MachineID h +:+ ":interface:1")%string.
Definition interface_asset (h : Host) (ev : list Evidence) : Asset :=
  mkAsset AssetNetworkInterface (interface_id h) "primary" {["host_machine_id" := MachineID h; "mac_address" := MACAddress h]}%string
    {["addresses" := texts [IPAddress h]; "mac_address" := any_string (MACAddress h)]}%string ev.
Definition host_relation (h : Host) (ev : list Evidence) : Relationship := mkRelationship "host_has_interface" (MachineID h) (interface_id h) ev.
Definition lab_evidence (source : string) (t : time) : list Evidence := [mkEvidence source t "" "1"].

Definition expectedObservation (s : Scenario) (hosts : list Host) : ObservationEnvelope :=
  let ev := lab_evidence "topo-lab" (unix 0 0) in
  mkObservationEnvelope SchemaVersion ("expected-" +:+ stableToken (Seed s) [SiteID s; "observation"]) (SiteID s) "topo-lab" "topo-lab" "" (unix 0 0)
    (hosts ≫= λ h, [host_asset h true ev; interface_asset h ev]) ((λ h, host_relation h ev) <$> hosts) [] ∅.

Definition Generate {rng} (NewSource : Z → rng) (Intn : Z → rng → Z * rng) (Float64 : rng → double * rng) (s : Scenario) : go (list Host * ObservationEnvelope) :=
  try _ := Validate s ;;
  let hosts := generate_hosts Intn Float64 s (Groups s) 0 (NewSource (Seed s)) in Ok (hosts, expectedObservation s hosts).

(** ** The server *)

(** A host, perhaps without its lists; a status; a body that does not decode; or nothing until
    the client gives up. *)
Inductive lab_answer := answer_host (h : Host) (partial : bool) | answer_status (code : Z) | answer_broken | answer_never.

Definition without_lists (h : Host) : Host :=
  mkHost (Host_ID h) (Host_Persona h) (Host_Name h) (MachineID h) (Serial h) (IPAddress h) (MACAddress h) (OS h) (OSVersion h) (Architecture h) (CPUCount h) (MemoryMB h) [] [] (Fault h) (LatencyMS h).
Definition find_host (hosts : list Host) (id : string) : option Host := head (base.filter (λ h, Host_ID h = id) hosts).

(** [calls] counts the requests for each host. *)
Definition inventory (hosts : list Host) (id : string) (calls : gmap string Z) : lab_answer * gmap string Z :=
  match find_host hosts id with
  | None => (answer_status 404, calls)
  | Some h =>
    let n := wrap64 (default 0 (calls !! id) + 1) in
    let answer :=
      if String.eqb (Fault h) "auth_failure" then answer_status 401
      else if String.eqb (Fault h) "timeout" then answer_never
      else if String.eqb (Fault h) "malformed" then answer_broken
      else if String.eqb (Fault h) "disappear" && (1 <? n) then answer_status 410
      else if String.eqb (Fault h) "permission_denied" then answer_host (without_lists h) true else answer_host h false in
    (answer, <[id := n]> calls)
  end.

(** ** The client *)

Record RunResult := mkRunResult { Observation : ObservationEnvelope; Attempted : Z; Discovered : Z; Partial : Z; Failed_hosts : Z }.

Section client.
Context (hosts : list Host) (now : time) (observationID : string).
(** What the network makes of a request instead of its answer. *)
Context (net : string → option string).

Definition assetsForHost (h : Host) (partial : bool) : list Asset * list Relationship :=
  let ev := lab_evidence "topo-lab-client" now in ([host_asset h (negb partial) ev; interface_asset h ev], [host_relation h ev]).

(** [getJSON] *)
Definition get_host (id : string) (a : lab_answer) : go (Host * bool) :=
  match net id, a with
  | Some e, _ => Err e
  | None, answer_host h partial => Ok (h, partial)
  | None, answer_status _ => Err "HTTP %s"%string
  | None, answer_broken => Err "decode: %w"%string
  | None, answer_never => Err "context deadline exceeded"%string
  end.

(** One job, with the result under its lock. *)
Definition discover_host (r : RunResult) (id : string) (answer : go (Host * bool)) : RunResult :=
  let o := Observation r in
  let with_parts assets rels errors := mkObservationEnvelope (Envelope_SchemaVersion o) (Envelope_ObservationID o) (Envelope_SiteID o) (Envelope_CollectorID o) (Envelope_Plugin o)
    (Envelope_JobID o) (Envelope_ObservedAt o) (Envelope_Assets o ++ assets) (Envelope_Relationships o ++ rels) (Envelope_Errors o ++ errors) (Envelope_Labels o) in
  match answer with
  | Err e => mkRunResult (with_parts [] [] [mkCollectionError "lab_endpoint_error" (id +:+ ": " +:+ e) true]) (Attempted r) (Discovered r) (Partial r) (Failed_hosts r + 1)
  | Ok (h, partial) =>
    let '(assets, rels) := assetsForHost h partial in
    mkRunResult (with_parts assets rels []) (Attempted r) (Discovered r + 1) (if partial then Partial r + 1 else Partial r) (Failed_hosts r)
  end%string.

Fixpoint discover_hosts (order : list string) (calls : gmap string Z) (r : RunResult) : RunResult :=
  match order with
  | [] => r
  | id :: order => let '(a, calls) := inventory hosts id calls in discover_hosts order calls (discover_host r id (get_host id a))
  end.

(** [Discover] with a catalog that was read and a context that lasts; the jobs are finished in
    the order [order] of the catalog. *)
Definition Discover (order : list string) (calls : gmap string Z) : RunResult :=
  discover_hosts order calls
    (mkRunResult (mkObservationEnvelope SchemaVersion observationID "lab" "topo-lab-client" "topo-lab" "" now [] [] [] ∅) (llen hosts) 0 0 0).
End client.

(** ** Evaluation *)

Record Evaluation := mkEvaluation { ExpectedAssets : Z; ActualAssets : Z; MissingAssets : Z; UnexpectedAssets : Z; CoveragePercent : double }.
Definition asset_ids (e : ObservationEnvelope) : gset string := list_to_set (StableAssetID <$> Envelope_Assets e).
Definition Evaluate (expected actual : ObservationEnvelope) : Evaluation :=
  let want := asset_ids expected in let got := asset_ids actual in
  let n (x : gset string) := Z.of_nat (size x) in
  let missing := n (want ∖ got) in
  mkEvaluation (n want) (n got) missing (n (got ∖ want))
    (if 0 <? n want then SFdiv 53 1024 (SFmul 53 1024 (double_of 100) (double_of (n want - missing))) (double_of (n want)) else double_of 100).

(** ** What is generated *)

(** Any two hosts have other IDs, but not other IP addresses. *)
Lemma host_id_inj i j : 0 <= i → 0 <= j → host_id i = host_id j → i = j.
Proof. intros Hi Hj H. unfold host_id in H. eapply (decimal_pad_inj 6); [done..|]. by injection H. Qed.

Lemma generate_group_ids {rng} Intn Float64 s name p n : ∀ idx (r : rng), let '(l, idx', _) := generate_group Intn Float64 s name p n idx r in
  Host_ID <$> l = host_id <$> seqZ (idx + 1) (Z.of_nat n) ∧ idx' = idx + Z.of_nat n.
Proof.
  induction n as [|n IH]; intros idx r; cbn [generate_group]; [split; [done|lia]|].
  assert (Host_ID (generate_host Intn Float64 s name p (idx + 1) r).1 = host_id (idx + 1)) as Hid.
  { unfold generate_host, selectFault. repeat case_match; done. }
  destruct (generate_host Intn Float64 s name p (idx + 1) r) as [h r']. specialize (IH (idx + 1) r'). destruct (generate_group _ _ _ _ _ _ _ _) as [[l idx'] r'']. destruct IH as [IH ->].
  split; [|lia]. rewrite (seqZ_cons (idx + 1)) by lia. rewrite !fmap_cons, IH, <- Hid. do 3 f_equal; lia.
Qed.

Lemma generate_hosts_ids {rng} Intn Float64 s groups : ∀ idx (r : rng), 0 <= idx →
  ∃ n, 0 <= n ∧ Host_ID <$> generate_hosts Intn Float64 s groups idx r = host_id <$> seqZ (idx + 1) n.
Proof.
  induction groups as [|g groups IH]; intros idx r Hidx; cbn [generate_hosts]; [by exists 0|].
  pose proof (generate_group_ids Intn Float64 s (Group_Persona g) (default no_persona (personas !! Group_Persona g)) (Z.to_nat (Count g)) idx r) as Hg.
  destruct (generate_group _ _ _ _ _ _ _ _) as [[l idx'] r']. destruct Hg as [Hl ->]. destruct (IH (idx + Z.of_nat (Z.to_nat (Count g))) r' ltac:(lia)) as (n&Hn&H).
  exists (Z.of_nat (Z.to_nat (Count g)) + n). split; [lia|]. rewrite fmap_app, Hl, H, <- fmap_app, seqZ_app by lia. do 3 f_equal. lia.
Qed.

Lemma generate_ids_nodup {rng} (NewSource : Z → rng) Intn Float64 s hosts expected : Generate NewSource Intn Float64 s = Ok (hosts, expected) → NoDup (Host_ID <$> hosts).
Proof.
  unfold Generate. destruct (Validate s); [|done]. intros [= <- _]. destruct (generate_hosts_ids Intn Float64 s (Groups s) 0 (NewSource (Seed s)) ltac:(lia)) as (n&_&->).
  apply NoDup_fmap_2_strong; [|apply NoDup_seqZ]. intros i j Hi%elem_of_seqZ Hj%elem_of_seqZ. apply host_id_inj; lia.
Qed.

Example addresses_collide : host_ip 255 = host_ip 509 ∧ host_ip 255 = "10.1.1.2"%string ∧ host_mac 255 ≠ host_mac 509.
Proof. vm_compute. by split_and!. Qed.

(** The limit on the number of hosts is checked on a sum that wraps. *)
Example overflowing_counts_pass :
  Validate (mkScenario ScenarioVersion 1 "lab" [mkHostGroup "rocky-9" (2^63 - 1); mkHostGroup "rocky-9" (2^63 - 1)] no_faults) = Ok tt.
Proof. vm_compute. done. Qed.

(** ** What is found *)

Definition host_keys (h : Host) : list string := [StableAssetID (host_asset h true []); StableAssetID (interface_asset h [])].

Lemma find_host_elem hosts id h : find_host hosts id = Some h → h ∈ hosts ∧ Host_ID h = id.
Proof. unfold find_host. intros H%head_Some_elem_of. apply list_elem_of_filter in H. tauto. Qed.
Lemma find_host_unique hosts h : NoDup (Host_ID <$> hosts) → h ∈ hosts → find_host hosts (Host_ID h) = Some h.
Proof.
  intros Hnd Hin. unfold find_host. induction hosts as [|x hosts IH]; [by apply not_elem_of_nil in Hin|]. rewrite fmap_cons, NoDup_cons in Hnd. destruct Hnd as [Hx Hnd].
  rewrite filter_cons. apply elem_of_cons in Hin as [->|Hin]; [by rewrite decide_True|]. rewrite decide_False; [by apply IH|]. intros He. apply Hx. rewrite He. by apply list_elem_of_fmap_2.
Qed.

Lemma keys_of_answer h h' now partial : h' = h ∨ h' = without_lists h → StableAssetID <$> (assetsForHost now h' partial).1 = host_keys h.
Proof. by intros [->| ->]. Qed.

Section found.
Context (hosts : list Host) (now : time) (net : string → option string) (Hids : NoDup (Host_ID <$> hosts)).

(** A host that answers, whatever its lists *)
Definition reachable (h : Host) : Prop := net (Host_ID h) = None ∧ (Fault h = ""%string ∨ Fault h = "permission_denied"%string).

Lemma get_host_spec h calls : h ∈ hosts →
  match get_host net (Host_ID h) (inventory hosts (Host_ID h) calls).1 with
  | Ok (h', _) => h' = h ∨ h' = without_lists h
  | Err _ => ¬ reachable h
  end.
Proof.
  intros Hin. unfold inventory. rewrite find_host_unique by done. cbn [fst]. unfold get_host, reachable. destruct (net (Host_ID h)); [naive_solver|].
  destruct (String.eqb_spec (Fault h) "auth_failure") as [->|]; [naive_solver|]. destruct (String.eqb_spec (Fault h) "timeout") as [->|]; [naive_solver|].
  destruct (String.eqb_spec (Fault h) "malformed") as [->|]; [naive_solver|]. destruct (String.eqb_spec (Fault h) "disappear") as [->|]; cbn [andb].
  { destruct (1 <? _); [naive_solver|]. cbn. by left. }
  destruct (String.eqb _ _); [by right|by left].
Qed.

(** The hosts split into those whose two assets are added and those that count as failed. *)
Lemma discover_hosts_spec l : ∀ calls r, (∀ h, h ∈ l → h ∈ hosts) →
  let r' := discover_hosts hosts now net (Host_ID <$> l) calls r in
  ∃ found lost, l ≡ₚ found ++ lost ∧ (∀ h, h ∈ lost → ¬ reachable h) ∧ Attempted r' = Attempted r ∧
    Discovered r' = Discovered r + llen found ∧ Failed_hosts r' = Failed_hosts r + llen lost ∧
    StableAssetID <$> Envelope_Assets (Observation r') = (StableAssetID <$> Envelope_Assets (Observation r)) ++ (found ≫= host_keys) ∧
    llen (Envelope_Errors (Observation r')) = llen (Envelope_Errors (Observation r)) + llen lost.
Proof.
  assert (∀ A (x : A) l, llen (x :: l) = llen l + 1) as Hlen by (intros; unfold llen; cbn [length]; lia).
  induction l as [|h l IH]; intros calls r Hl; cbn [discover_hosts fmap list_fmap].
  { exists [], []. cbn [app mbind list_bind]. rewrite app_nil_r. unfold llen. cbn [length]. split_and!; (done || lia || by intros ? ?%not_elem_of_nil). }
  pose proof (get_host_spec h calls (Hl h ltac:(left))) as Hans. destruct (inventory hosts (Host_ID h) calls) as [a calls']. cbn [fst] in Hans.
  specialize (IH calls' (discover_host now r (Host_ID h) (get_host net (Host_ID h) a)) (λ x Hx, Hl x (list_elem_of_further _ _ _ Hx))).
  destruct IH as (found&lost&Hp&Hlost&H1&H2&H3&H4&H5). destruct (get_host net (Host_ID h) a) as [[h' partial]|e]; cbn [discover_host assetsForHost] in *.
  - exists (h :: found), lost. cbn [Attempted Discovered Failed_hosts Observation Envelope_Assets Envelope_Errors] in *. rewrite Hlen. split_and!; [by rewrite Hp|done|done|lia|lia| |].
    + rewrite H4, fmap_app, (keys_of_answer h h' now partial Hans : _ <$> [_; _] = _), bind_cons, app_assoc. done.
    + by rewrite H5, app_nil_r.
  - exists found, (h :: lost). cbn [Attempted Discovered Failed_hosts Observation Envelope_Assets Envelope_Errors] in *. rewrite Hlen. split_and!; [by rewrite Hp, Permutation_middle|by intros x [->|Hx]%elem_of_cons; [|apply Hlost]|done|lia|lia| |].
    + by rewrite H4, app_nil_r.
    + rewrite H5. unfold llen. rewrite length_app. cbn [length]. lia.
Qed.
End found.

Lemma size_of_list (l : list string) : (size (list_to_set l : gset string) <= length l)%nat.
Proof.
  induction l as [|x l IH]; [done|]. cbn [list_to_set foldr length]. rewrite size_union_alt, size_singleton. assert (size (list_to_set l ∖ {[x]} : gset string) <= size (list_to_set l : gset string))%nat by (apply subseteq_size; set_solver).
  unfold list_to_set in *. lia.
Qed.

Lemma keys_of_expected s hosts : StableAssetID <$> Envelope_Assets (expectedObservation s hosts) = hosts ≫= host_keys.
Proof. unfold expectedObservation. cbn [Envelope_Assets]. induction hosts as [|h hosts IH]; [done|]. rewrite !bind_cons, fmap_app, IH. done. Qed.

(** Whatever the network loses, whatever the faults of the hosts and in whatever order the
    goroutines finish: the client counts every host once and finds nothing that is not
    expected, what is missing are the two assets of hosts that failed, each of which left an
    error, and a host without a fault that cuts it off is found. *)
Theorem lab_discovery_is_exact {rng} (NewSource : Z → rng) (Intn : Z → rng → Z * rng) (Float64 : rng → double * rng) (s : Scenario) (hosts : list Host)
    (expected : ObservationEnvelope) (now : time) (observationID : string) (net : string → option string) (order : list string) (calls : gmap string Z) :
  Generate NewSource Intn Float64 s = Ok (hosts, expected) → order ≡ₚ Host_ID <$> hosts →
  let r := Discover hosts now observationID net order calls in
  let e := Evaluate expected (Observation r) in
  Attempted r = llen hosts ∧ Discovered r + Failed_hosts r = llen hosts ∧ llen (Envelope_Errors (Observation r)) = Failed_hosts r ∧
  UnexpectedAssets e = 0 ∧ MissingAssets e <= 2 * Failed_hosts r ∧ ((∀ h, h ∈ hosts → reachable net h) → Failed_hosts r = 0 ∧ MissingAssets e = 0).
Proof.
  intros Hgen Hord. pose proof (generate_ids_nodup _ _ _ _ _ _ Hgen) as Hids. assert (expected = expectedObservation s hosts) as -> by (revert Hgen; unfold Generate; destruct (Validate s); [intros [= <- <-]|]; done).
  assert (∃ l, order = Host_ID <$> l ∧ l ≡ₚ hosts) as (l&->&Hl) by (destruct (Permutation_map_inv Host_ID _ Hord) as (l&->&?); by exists l).
  assert (∀ h, h ∈ l → h ∈ hosts) as Hin by (intros h; by rewrite Hl). cbv zeta. unfold Discover.
  match goal with |- context [discover_hosts _ _ _ _ _ ?r0] => pose proof (discover_hosts_spec hosts now net Hids l calls r0 Hin) as H end. cbv zeta in H.
  destruct H as (found&lost&Hp&Hlost&H1&H2&H3&H4&H5). cbn [Attempted Discovered Failed_hosts Observation Envelope_Assets Envelope_Errors fmap list_fmap app] in H1, H2, H3, H4, H5.
  set (r := discover_hosts _ _ _ _ _ _) in *. unfold Evaluate, asset_ids. cbn [UnexpectedAssets MissingAssets]. rewrite H4, keys_of_expected.
  assert (llen hosts = llen found + llen lost) as Hn by (unfold llen; rewrite <- Hl, Hp, length_app; lia). change (llen (@nil CollectionError)) with 0 in H5.
  assert (∀ x, x ∈ hosts ≫= host_keys ↔ x ∈ found ≫= host_keys ∨ x ∈ lost ≫= host_keys) as Hkeys.
  { intros x. rewrite <- elem_of_app, <- bind_app. by rewrite <- Hl, Hp. }
  assert (size (list_to_set (hosts ≫= host_keys) ∖ list_to_set (found ≫= host_keys) : gset string) <= 2 * length lost)%nat as Hmiss.
  { trans (size (list_to_set (lost ≫= host_keys) : gset string)); [apply subseteq_size; intros x; rewrite elem_of_difference, !elem_of_list_to_set, Hkeys; tauto|].
    rewrite size_of_list. clear. induction lost as [|h lost IH]; [done|]. rewrite bind_cons, length_app. cbn [length host_keys]. lia. }
  split_and!; [done|lia|lia| |unfold llen in *; lia|].
  - enough (size (list_to_set (found ≫= host_keys) ∖ list_to_set (hosts ≫= host_keys) : gset string) = O) by lia.
    apply size_empty_iff. intros x. rewrite elem_of_difference, !elem_of_list_to_set, Hkeys. split; [tauto|by intros ?%not_elem_of_empty].
  - intros Hall. assert (lost = []) as ->; [|unfold llen in *; cbn [length] in *; lia].
    apply elem_of_nil_inv. intros h Hh. apply (Hlost h Hh), Hall, Hin. rewrite Hp. apply elem_of_app. by right.
Qed.
